(* ===== verification/_CoqProject ===== *)
-Q . S2P
Prelude.v
GoStrings.v
Duration.v
Calendar.v
NetIP.v
SourceIP.v
Limits.v
Rule.v
Config.v
Quantity.v
Stats.v
Quota.v
Traffic.v
UDP.v
RuleSpec.v
Manager.v
ManagerSpec.v
Precheck.v
LoopSpec.v
PrecheckSpec.v
TCP.v
TCPSpec.v
UDPSpec.v
ControlAuth.v
ConfigSpec.v
YamlMerge.v
YamlMergeSpec.v
Store.v
StoreSpec.v
Management.v
ManagementSpec.v
RequestSpec.v
RuntimeFacade.v
Resolver.v
ResolverSpec.v
TunnelConfig.v
TunnelConfigSpec.v
Threads.v
TunnelServer.v
TunnelServerSpec.v
TunnelUDP.v
TunnelUDPSpec.v
StatsStore.v
StatsStoreSpec.v
FileIO.v
GoPath.v
Appdirs.v
CertPath.v
CertPathSpec.v
Acme.v
AcmeSpec.v
CertStore.v
CertStoreSpec.v
CertReview.v
ClientConfig.v
ClientConfigSpec.v
Updater.v
UpdaterSpec.v
Uninstaller.v
UninstallerSpec.v
GoText.v
ControlClient.v
ControlServer.v
BotManager.v
BotSpec.v
BotHandlers.v
BotHandlersSpec.v
BotDaemonSpec.v
Mcp.v
McpSpec.v
TuiEditor.v
TuiEditorSpec.v
Tui.v
TuiSpec.v
TuiDraftSpec.v
TuiStampSpec.v
TuiRuns.v
