(* ===== verification/Prelude.v ===== *)
(** * vmflow: a verification library of the forwarding daemon (root file)

    vmflow forwards TCP and UDP ports by rules.  A daemon reads a configuration
    file, prechecks it, starts one runner per rule and protocol, counts and
    limits the traffic, lets clients change the rules through a control API, and
    keeps counters and quota usage across restarts; a reverse tunnel publishes
    local ports of a client on a remote server.  This library models the parts
    of the program that hold state or decide something, and proves what makes
    them correct.

    ** How the parts interact

    A configuration (Config) is normalized to rules (Rule) and prechecked
    (Precheck) before the manager (Manager) applies it.  The manager starts
    runners (TCP, UDP) over sockets, which are the parameter [Net], and gives
    each the collector of its counters (Stats), the budget of UDP sessions
    (Limits), the source policy (SourceIP) and the traffic controller (Traffic)
    with the quota ledger (Quota).  The control API (ControlAuth, Management)
    edits the configuration file (YamlMerge, Store) and brings manager and file
    in line.  Its clients share one piece of code (ControlClient), over a
    transport that is the class [Transport]: a socket, or the server's handlers
    called in the same process (ControlServer).  The Telegram bot (BotManager,
    BotHandlers) runs inside the daemon and is such a client, and so is the MCP
    server (Mcp); the bot's manager is in turn the [BotController] through which
    an edit of the bot's settings stops one bot and starts the next.  The terminal
    interface (Tui) is a machine that turns keys and answers into a new state and
    calls of the client.  The facade (RuntimeFacade) is what an embedding program
    sees of the manager.  Runners dial through the resolver (Resolver).  The state files of
    counters and quota are StatsStore.  The tunnel is a program of its own
    (TunnelConfig, TunnelServer, TunnelUDP) that shares the collector.  HTTPS
    certificates come from the ACME manager (Acme) or an import (CertStore), are
    kept in a directory (CertPath) and reviewed (CertReview).  Around the daemon,
    Appdirs says where its files are, ClientConfig holds the client's profile,
    Updater replaces the binary and Uninstaller removes what was installed; they
    share the file system of FileIO.

    ** Files and code

    - Prelude.v: results, 64-bit wrap-around, sorting, generic lemmas.
    - GoStrings.v, Duration.v, Calendar.v, NetIP.v: the parts of the Go standard
      library the program's behaviour rests on: [strings], [strconv],
      [time.ParseDuration] (with [float64]), [time.Date] over a time zone table,
      [net/netip] and the host:port texts of [net].
    - SourceIP.v, Limits.v, Rule.v, Quantity.v: engine/source_ip.go, limits.go,
      rule.go, quantity.go.  RuleSpec.v: validation, policies, [RuntimeEqual].
    - Stats.v: engine/stats.go, counter blocks behind pointers as a heap, and its
      refinement to a map from rule ids to counters.
    - Quota.v: engine/quota.go, the ledger with its write-behind flush, as
      critical sections that a system of goroutines interleaves.
    - Traffic.v: engine/traffic_control.go, parameters and the waiting queue.
    - Manager.v, ManagerSpec.v: engine/manager.go, with [live], the runners in
      service, as a ghost; [serving] compares them with the rules field by field.
    - UDP.v, UDPSpec.v, TCP.v, TCPSpec.v: engine/udp.go and tcp.go as machines
      whose steps are the atomic operations of the goroutines.
    - Precheck.v, LoopSpec.v, PrecheckSpec.v: precheck/precheck.go.
    - Config.v, ConfigSpec.v: config/config.go and internal/i18n/detect.go.
    - YamlMerge.v, YamlMergeSpec.v, Store.v, StoreSpec.v: controlapi/
      config_store.go, the edits of the YAML tree and the file with its staging.
    - ControlAuth.v: controlapi/auth.go, ratelimit.go and the middleware.
    - Management.v, ManagementSpec.v, RequestSpec.v: controlapi/
      config_management.go, config_bot.go, server.go, the handlers as a whole.
    - RuntimeFacade.v: runtime.go, every method as two critical sections.
    - Resolver.v, ResolverSpec.v: dnsresolver/resolver.go, as a loop and as
      interleaved steps of concurrent lookups; [fate] classifies what became of
      a source's turn without the code's own judgement.
    - TunnelConfig.v, TunnelConfigSpec.v: tunnel/config.go, protocol.go, the
      access rules of server.go and reload.go, the delays of client.go.
    - Threads.v: the bag of instructions that goroutines have left.
    - TunnelServer.v, TunnelServerSpec.v: tunnel/server.go and reload.go; every
      goroutine is the list of its remaining instructions, and an instruction is
      a section under the lock, a channel operation or a system call.  The "open"
      messages it writes to the clients are kept in the state.
    - TunnelUDP.v, TunnelUDPSpec.v: the server's side of tunnel/udp.go.
    - StatsStore.v, StatsStoreSpec.v: internal/statsstore and its use in
      cmd/vmflow/main.go, the save call by call with crashes in between.

    - FileIO.v: files, directories and symbolic links, the system calls the
      program makes, as an effect over a world whose next events (a failing call,
      another process) are given; [wp] is its predicate transformer.
    - GoPath.v, Appdirs.v: path/filepath, internal/appdirs.
    - CertPath.v, CertPathSpec.v: internal/certpath.
    - Acme.v, AcmeSpec.v: acme/manager.go, solver.go, dns_solver.go, with a log of
      the requests made, from which the DNS records still in place are read off.
    - CertStore.v, CertStoreSpec.v, CertReview.v: certstore and certreview.
    - ClientConfig.v, ClientConfigSpec.v: internal/clientconfig.
    - Updater.v, UpdaterSpec.v: internal/updater and the update command.
    - Uninstaller.v, UninstallerSpec.v: internal/uninstaller (Linux) and the
      uninstall command.

    - GoText.v: UTF-8, padding, decimal and base64 texts, a stable sort.
    - ControlClient.v: controlapi/client.go; a call is an effect over the server's
      state.
    - ControlServer.v: the routes, the middleware and the in-process transport of
      controlapi/server.go and cmd/vmflow/main.go.
    - BotManager.v, BotSpec.v: bot/manager.go, the bot's life cycle and the proof
      that it is the [BotController] the configuration handlers rely on.
    - BotHandlers.v, BotHandlersSpec.v: bot/handler.go and bot/bot.go, commands,
      buttons and texts.  BotDaemonSpec.v composes a press on a button with the
      client, the transport, the handlers and the manager down to the listeners.
    - Mcp.v, McpSpec.v: internal/mcpserver, the reading and the writing tools.
    - TuiEditor.v, TuiEditorSpec.v: tui/editor.go and bot_editor.go, the forms for
      a rule and for the bot.
    - Tui.v: tui/model.go, management.go and service_recovery.go, [update] with
      every key and message.  TuiSpec.v is the system of the machine, the commands
      that run and their answers, and what each handler may do; TuiDraftSpec.v
      follows drafts to the daemon, TuiStampSpec.v the generations of requests,
      TuiRuns.v has concrete runs.

    Definitions keep the names of the code.  State is passed explicitly; an
    error is a value of [result]; what clocks, sockets, other processes and
    third-party libraries answer is an argument (an oracle list, an [Answer] of a
    step, or a class such as [Net], [Probe], [YamlLib], [YamlNodes], [Sha256],
    [TzDatabase], [BotController], [AbsPath], [X509], [CA], [IndexCodec],
    [MetaCodec], [Host], [UrlLib], [ProfileYaml], [CacheCodec], [Web],
    [UninstallEnv], [StateCodec], [Transport], [TextInput], [Ansi]).

    ** What the theorems show

    - Manager: a transactional apply puts exactly the desired rules in service,
      on record and in the runners, or restores what ran before, listeners
      included; started listeners are always those of the rules.
    - Management: a write of the rules ends in one of three ways, in service and
      on disk, refused with nothing changed, or with a failed rollback that is
      reported as degraded; no edit of another client is lost unless it falls
      into the window between the last check and the rename; a reload brings the
      rules and the limit of the file into service and refuses changes of the
      fields that need a restart, which are named one by one.
    - Quota: grants stay within what is left of the day and the month, measured
      on the usage before anything is pruned; a failed save gates further grants
      of calls that start later (one that resumes passes); a restart does not
      give usage back.
    - Runners: slots, session tables, shared budgets and gauges are exact under
      every interleaving, a stop leaves nothing behind, and a bandwidth queue
      serves in the order of arrival.
    - Precheck: the loop detector finds exactly the cycles; what passes is
      accepted by the manager.
    - Configuration: which documents are accepted, what normalization guarantees,
      which nodes of the YAML document an edit changes, and that the comments,
      anchors and styles next to a replaced value stay.
    - State files: a save is atomic at every crash point; a crash loses at most
      what was counted since the last save that succeeded.
    - Resolver: a lookup is settled by the first source that is not cooling down
      and does not fail, which updates the health of the sources it came to;
      cooldowns are respected and lookups are wait-free.
    - Tunnel: open ports have owners, a public connection is piped to a data
      connection that named the ids of its own request, a stopped UDP listener
      has released everything, a reload keeps exactly the clients that would be
      admitted.
    - Certificates: a file name is canonical; a certificate is asked for only
      after its domains were authorized, and a challenge's DNS record stays only
      when its clean-up failed; an import is all or nothing in memory, and on
      disk but for a failing write of the pair, which can leave it mixed; a
      restart gives the store back when its names are host names and its pairs
      are on disk; renewal never renews what is on disk.
    - Installation: an update installs a verified binary or changes no file, the
      client's profile is private and local, the uninstaller removes only what is
      the program's and reports completion only when all of it is gone.
    - Clients of the control API: after an edit of the bot's settings the bot in
      service is the one of the new settings, or of the previous ones when the
      edit was undone; a message from another chat reaches nothing, a press on a
      rule's button ends in the configuration file and in the listeners, the
      bot's messages fit what Telegram accepts, MCP's reading tools only read and
      its writing tools change the rule the call names and no other.
    - Terminal interface: what is applied was checked and is what the screen
      shows, valid and under the ETag the changes are shown against; only a key
      or a commit drops a draft, no late answer brings an old configuration back,
      a form of printable texts that is opened and saved changes nothing.
    Where the code does not guard against an interleaving, a theorem shows the
    run, next to the properties of its component.

    ** Bounds and fuel

    The loop detector recurses with the number of listeners plus one as fuel,
    and a path visits each listener once (LoopSpec.v proves that it suffices).
    Trimming a string recurses with its length.  IPv6 texts have at most eight
    groups; a duration has at most as many terms as characters.  A save makes at
    most seven calls.  A free rule id is found in as many steps as ids are taken
    (TuiEditorSpec.v).  Symbolic links are followed at most 40 times by a system
    call and 255 times by [filepath.EvalSymlinks], the limits of Linux and of Go.
    Everything else is structural.  Counters and durations
    wrap at 64 bits where the code's do ([wrap64], [add64]).

    ** Not modelled

    JSON and HTTP plumbing, logging, deadlines and TLS; the drawing of the
    terminal interface, with its scroll offsets, rates and network view; the
    command line beyond the restore and flush of counters, the update and the
    uninstall command; Telegram's library and the bot's reset-time text; MCP's
    JSON-RPC; the installation of services; the DNS providers of the ACME manager
    (Cloudflare, a program); metrics text; the HTTP and HTTPS runners, which
    Rule.Validate refuses in this build; [float64] token arithmetic of the rate
    limiters, where the environment answers when enough tokens are there; the
    client side of the tunnel beyond its configuration and delays; Windows
    variants.  These are input and output around third-party libraries, or
    repeat on another system what is modelled for Linux.  [ToLower] and
    [EqualFold] are exact on ASCII. *)

From stdpp Require Export base tactics option list gmap strings pretty sorting.
From Stdlib Require Export ZArith Lia.

(** Every file of the library works in [Z] arithmetic: Go's [int] and [int64]
    are 64-bit two's complement integers, modelled by [Z] with the wrap-around
    of [wrap64] written out wherever the code's arithmetic can leave the range. *)
#[export] Set Default Proof Using "Type".
Global Open Scope Z_scope.

(** ** Notations of the library *)

Declare Scope vmflow_scope.
Delimit Scope vmflow_scope with vmflow.

(** ** Results: the pair [(value, error)] of a Go function as a sum *)

Inductive result (E A : Type) : Type :=
| Ok (value : A)
| Err (e : E).
Arguments Ok {E A} value.
Arguments Err {E A} e.

#[export] Instance result_ret {E} : MRet (result E) := λ A, @Ok E A.
#[export] Instance result_bind {E} : MBind (result E) := λ A B f r,
  match r with Ok a => f a | Err e => Err e end.
#[export] Instance result_fmap {E} : FMap (result E) := λ A B f r,
  match r with Ok a => Ok (f a) | Err e => Err e end.

(** [check c e] is the guard [if c { return e }]. *)
Definition check {E} (bad : bool) (e : E) : result E () :=
  if bad then Err e else Ok ().

Definition is_ok {E A} (r : result E A) : bool :=
  match r with Ok _ => true | Err _ => false end.

#[export] Instance result_eq_dec {E A} `{EqDecision E, EqDecision A} :
  EqDecision (result E A).
Proof. solve_decision. Defined.

Section result_lemmas.
Context {E A B : Type}.
Implicit Types (r : result E A).

Lemma bind_Ok (f : A → result E B) r b :
  (r ≫= f) = Ok b ↔ ∃ a, r = Ok a ∧ f a = Ok b.
Proof. destruct r; simpl; naive_solver. Qed.

Lemma bind_Err (f : A → result E B) r e :
  (r ≫= f) = Err e ↔ r = Err e ∨ ∃ a, r = Ok a ∧ f a = Err e.
Proof. destruct r; simpl; naive_solver. Qed.
End result_lemmas.

Lemma check_Ok {E} (bad : bool) (e : E) u : check bad e = Ok u ↔ bad = false.
Proof. destruct bad, u; simpl; naive_solver. Qed.

Lemma check_Err {E} (bad : bool) (e e' : E) :
  check bad e = Err e' ↔ bad = true ∧ e = e'.
Proof. destruct bad; simpl; naive_solver. Qed.

(** A guard followed by the rest of the function. *)
Lemma guard_Ok {E A} (bad : bool) (e : E) (k : result E A) a :
  (check bad e ≫= λ _, k) = Ok a ↔ bad = false ∧ k = Ok a.
Proof. destruct bad; simpl; naive_solver. Qed.

Lemma is_ok_iff {E A} (r : result E A) : is_ok r = true ↔ ∃ a, r = Ok a.
Proof. destruct r; simpl; naive_solver. Qed.

(** ** 64-bit integers *)

Definition int64_min : Z := -(2 ^ 63).
Definition int64_max : Z := 2 ^ 63 - 1.
Definition in_int64 (z : Z) : Prop := int64_min ≤ z ≤ int64_max.
Definition in_int64b (z : Z) : bool := (int64_min <=? z) && (z <=? int64_max).

(** Two's complement wrap-around of a signed 64-bit operation. *)
Definition wrap64 (z : Z) : Z := (z + 2 ^ 63) mod 2 ^ 64 - 2 ^ 63.

Definition add64 (a b : Z) : Z := wrap64 (a + b).
Definition sub64 (a b : Z) : Z := wrap64 (a - b).

Lemma in_int64b_spec z : in_int64b z = true ↔ in_int64 z.
Proof. unfold in_int64b, in_int64. rewrite andb_true_iff, !Z.leb_le. done. Qed.

Lemma wrap64_id z : in_int64 z → wrap64 z = z.
Proof.
  unfold in_int64, int64_min, int64_max, wrap64. intros ?.
  rewrite Z.mod_small; lia.
Qed.

Lemma wrap64_range z : in_int64 (wrap64 z).
Proof.
  unfold in_int64, int64_min, int64_max, wrap64.
  pose proof (Z.mod_pos_bound (z + 2 ^ 63) (2 ^ 64)). lia.
Qed.

Lemma wrap64_idemp z : wrap64 (wrap64 z) = wrap64 z.
Proof. apply wrap64_id, wrap64_range. Qed.

Lemma add64_id a b : in_int64 (a + b) → add64 a b = a + b.
Proof. apply wrap64_id. Qed.

Lemma sub64_id a b : in_int64 (a - b) → sub64 a b = a - b.
Proof. apply wrap64_id. Qed.

Lemma wrap64_add_l a b : wrap64 (wrap64 a + b) = wrap64 (a + b).
Proof.
  unfold wrap64. f_equal.
  replace ((a + 2 ^ 63) mod 2 ^ 64 - 2 ^ 63 + b + 2 ^ 63)
    with ((a + 2 ^ 63) mod 2 ^ 64 + b) by lia.
  rewrite Z.add_mod_idemp_l by lia. f_equal. lia.
Qed.

(** [time.Second]: a [time.Duration] counts nanoseconds. *)
Definition second : Z := 1000000000.

(** ** Maps and sets as Go uses them *)

(** [m[k]] of a Go map of integers: a missing key reads as zero. *)
Definition map_get {K} `{Countable K} (m : gmap K Z) (k : K) : Z := default 0 (m !! k).

Section map_get.
Context {K} `{Countable K}.
Implicit Types (m : gmap K Z) (k : K).

Lemma map_get_insert_eq m k v : map_get (<[k:=v]> m) k = v.
Proof. unfold map_get. by rewrite lookup_insert_eq. Qed.

Lemma map_get_insert_ne m k k' v : k ≠ k' → map_get (<[k:=v]> m) k' = map_get m k'.
Proof. intros. unfold map_get. by rewrite lookup_insert_ne. Qed.

Lemma map_get_empty k : map_get (∅ : gmap K Z) k = 0.
Proof. done. Qed.

Lemma map_get_Some m k v : m !! k = Some v → map_get m k = v.
Proof. intros Hk. unfold map_get. by rewrite Hk. Qed.

Lemma map_get_filter (P : K * Z → Prop) `{∀ x, Decision (P x)} m k :
  (∀ v, P (k, v)) → map_get (filter P m) k = map_get m k.
Proof.
  intros HP. unfold map_get. destruct (m !! k) as [v|] eqn:Hk.
  - by rewrite (proj2 (map_lookup_filter_Some P m k v)).
  - rewrite (proj2 (map_lookup_filter_None P m k)); auto.
Qed.
End map_get.

(** [sort.Strings]: Go compares strings bytewise, which is the order
    [String.le] of the ASCII codes. *)
Definition sort_strings (ids : list string) : list string := merge_sort String.le ids.

Lemma sort_strings_Permutation ids : sort_strings ids ≡ₚ ids.
Proof. apply merge_sort_Permutation. Qed.

Lemma sort_strings_Sorted ids : Sorted String.le (sort_strings ids).
Proof. apply (Sorted_merge_sort _). Qed.

Lemma elem_of_sort_strings x ids : x ∈ sort_strings ids ↔ x ∈ ids.
Proof. by rewrite sort_strings_Permutation. Qed.

Lemma NoDup_sort_strings ids : NoDup (sort_strings ids) ↔ NoDup ids.
Proof. by rewrite sort_strings_Permutation. Qed.

(** The order of [sort.Strings] does not depend on the order in which a map
    range enumerated the keys. *)
Lemma sort_strings_unique l1 l2 : l1 ≡ₚ l2 → sort_strings l1 = sort_strings l2.
Proof.
  intros Hp. apply (Sorted_unique String.le).
  - apply sort_strings_Sorted.
  - apply sort_strings_Sorted.
  - by rewrite !sort_strings_Permutation.
Qed.

(** [sort.Strings] applied to the keys of a map. *)
Definition sorted_keys {A} (m : gmap string A) : list string :=
  sort_strings (elements (dom m)).

Lemma elem_of_sorted_keys {A} (m : gmap string A) k :
  k ∈ sorted_keys m ↔ is_Some (m !! k).
Proof.
  unfold sorted_keys. by rewrite elem_of_sort_strings, elem_of_elements, elem_of_dom.
Qed.

Lemma NoDup_sorted_keys {A} (m : gmap string A) : NoDup (sorted_keys m).
Proof. unfold sorted_keys. rewrite NoDup_sort_strings. apply NoDup_elements. Qed.

Lemma sorted_keys_dom {A B} (m1 : gmap string A) (m2 : gmap string B) :
  dom m1 = dom m2 → sorted_keys m1 = sorted_keys m2.
Proof. unfold sorted_keys. by intros ->. Qed.

(** ** Tactics *)

(** Turn the boolean tests of translated guards into propositions. *)
Ltac bool_to_prop :=
  repeat match goal with
  | H : _ && _ = true |- _ => apply andb_true_iff in H as [? ?]
  | H : _ || _ = false |- _ => apply orb_false_iff in H as [? ?]
  | H : negb _ = true |- _ => apply negb_true_iff in H
  | H : negb _ = false |- _ => apply negb_false_iff in H
  | H : (_ <? _) = true |- _ => apply Z.ltb_lt in H
  | H : (_ <? _) = false |- _ => apply Z.ltb_ge in H
  | H : (_ <=? _) = true |- _ => apply Z.leb_le in H
  | H : (_ <=? _) = false |- _ => apply Z.leb_gt in H
  | H : (_ =? _) = true |- _ => apply Z.eqb_eq in H
  | H : (_ =? _) = false |- _ => apply Z.eqb_neq in H
  | H : bool_decide _ = true |- _ => apply bool_decide_eq_true in H
  | H : bool_decide _ = false |- _ => apply bool_decide_eq_false in H
  end.

(** Split a chain of guards [check .. ≫= λ _, ..] that returned [Ok]. *)
Ltac ok_inv :=
  repeat match goal with
  | H : _ ≫= _ = Ok _ |- _ =>
      apply bind_Ok in H; let u := fresh "u" in destruct H as (u & ? & H)
  | H : check _ _ = Ok _ |- _ => apply check_Ok in H
  | H : Ok _ = Ok _ |- _ => injection H as H
  | H : Err _ = Ok _ |- _ => discriminate H
  end.

(** Destruct the innermost discriminee of the goal. *)
Ltac case_goal :=
  match goal with
  | |- context [match ?x with _ => _ end] =>
      lazymatch x with
      | context [match _ with _ => _ end] => fail
      | _ => let H := fresh "Hcase" in destruct x eqn:H
      end
  end.

Ltac int64_lia := unfold in_int64, int64_min, int64_max in *; lia.

(** ** Field updates of large records *)

(** A record gives its eta expansion; the update of a field replaces that field's
    projection in it. *)
Class Settable (R : Type) := eta : R → R.
Class Setter {R T : Type} (proj : R → T) := {
  set_field : (T → T) → R → R;
  set_field_law f r : proj (set_field f r) = f (proj r)
}.
Arguments set_field {_ _} _ {_} _ _ /.
Ltac build_setter :=
  lazymatch goal with |- @Setter ?R ?T ?proj =>
    let inst := constr:(_ : Settable R) in
    let expansion := eval red in inst in
    lazymatch eval pattern proj in expansion with
    | ?update _ =>
        exact {| set_field := λ (f : T → T) (r : R), update (λ r, f (proj r)) r; set_field_law f r := eq_refl |}
    end
  end.
#[export] Hint Extern 1 (Setter _) => build_setter : typeclass_instances.
Notation "r <| field := v |>" := (set_field field (λ _, v) r)
  (at level 1, left associativity, field at level 99, format "r  <| field  :=  v |>").

(** ** Hint database of the library *)

Create HintDb vmflow discriminated.
#[export] Hint Resolve wrap64_range : vmflow.
#[export] Hint Rewrite @map_get_insert_eq @map_get_empty : vmflow.
