(* ===== verification/GoStrings.v ===== *)
(** * Go strings: the operations of [strings] and [strconv] the program uses

    A Go string is a sequence of bytes, modelled by [string] (a list of 8-bit
    [ascii] codes).  [TrimSpace] is exact: it strips the UTF-8 encodings of all
    25 code points of [unicode.IsSpace].  [ToLower] and [EqualFold] act on the
    ASCII letters and leave every other byte alone, so they are exact on the
    ASCII strings (protocol names, modes, host names, addresses) the program
    normalizes.  [FormatInt] is stdpp's [pretty]; [ParseInt] is base 10, 64 bits. *)

From S2P Require Import Prelude.
From Stdlib Require Export Ascii.
From Stdlib Require String.

Notation to_list := String.list_ascii_of_string (only parsing).
Notation of_list := String.string_of_list_ascii (only parsing).

Lemma to_of_list l : String.list_ascii_of_string (String.string_of_list_ascii l) = l.
Proof. apply String.list_ascii_of_string_of_list_ascii. Qed.

Lemma of_to_list s : String.string_of_list_ascii (String.list_ascii_of_string s) = s.
Proof. apply String.string_of_list_ascii_of_string. Qed.
Lemma to_list_app s t : to_list (s +:+ t) = to_list s ++ to_list t.
Proof. induction s as [|c s IH]; [done|]. simpl. by rewrite <-IH. Qed.

Lemma length_list_ascii s : length (to_list s) = String.length s.
Proof. induction s as [|c s IH]; [done|]. simpl. by rewrite <-IH. Qed.

(** *** Concatenation *)

Lemma append_assoc (s1 s2 s3 : string) : (s1 +:+ s2) +:+ s3 = s1 +:+ (s2 +:+ s3).
Proof. induction s1 as [|c s IH]; [done|]. unfold String.app in *. simpl. by rewrite IH. Qed.

Lemma append_nil_r (s : string) : s +:+ "" = s.
Proof. induction s as [|c s IH]; [done|]. unfold String.app in *. simpl. by rewrite IH. Qed.

Lemma length_append (s1 s2 : string) :
  String.length (s1 +:+ s2) = (String.length s1 + String.length s2)%nat.
Proof. induction s1 as [|c s IH]; [done|]. unfold String.app in *. simpl. by rewrite IH. Qed.

(** ** White space *)

Definition byte (n : nat) : ascii := ascii_of_nat n.

(** UTF-8 encodings of the code points of [unicode.IsSpace]. *)
Definition space_encodings : list (list ascii) :=
  (λ n, [byte n]) <$> [9; 10; 11; 12; 13; 32]%nat.
Definition wide_spaces : list (list ascii) :=
  [ [byte 194; byte 133]; [byte 194; byte 160]; [byte 225; byte 154; byte 128] ] ++
  ((λ n, [byte 226; byte 128; byte n]) <$> seq 128 11) ++
  [ [byte 226; byte 128; byte 168]; [byte 226; byte 128; byte 169];
    [byte 226; byte 128; byte 175]; [byte 226; byte 129; byte 159];
    [byte 227; byte 128; byte 128] ].
Definition spaces : list (list ascii) := space_encodings ++ wide_spaces.

(** Remove one leading element of [encs]. *)
Fixpoint strip_any (encs : list (list ascii)) (l : list ascii) : option (list ascii) :=
  match encs with
  | [] => None
  | e :: encs => if decide (e `prefix_of` l) then Some (drop (length e) l)
                 else strip_any encs l
  end.

Fixpoint trim_fuel (n : nat) (encs : list (list ascii)) (l : list ascii) : list ascii :=
  match n with
  | O => l
  | S n => match strip_any encs l with
           | None => l
           | Some l' => trim_fuel n encs l'
           end
  end.

Definition trim_left (encs : list (list ascii)) (l : list ascii) : list ascii :=
  trim_fuel (length l) encs l.
Definition trim_right (encs : list (list ascii)) (l : list ascii) : list ascii :=
  reverse (trim_left (reverse <$> encs) (reverse l)).

Definition TrimSpace (s : string) : string :=
  of_list (trim_right spaces (trim_left spaces (to_list s))).

(** ** Letter case *)

Definition is_upper (c : ascii) : bool := (65 <=? nat_of_ascii c)%nat && (nat_of_ascii c <=? 90)%nat.
Definition lower_ascii (c : ascii) : ascii :=
  if is_upper c then ascii_of_nat (nat_of_ascii c + 32) else c.
Definition ToLower (s : string) : string := of_list (lower_ascii <$> to_list s).
Definition EqualFold (s t : string) : bool := bool_decide (ToLower s = ToLower t).

(** ** Prefixes, suffixes, splitting *)

Definition HasPrefix (s pre : string) : bool := bool_decide (to_list pre `prefix_of` to_list s).
Definition TrimPrefix (s pre : string) : string :=
  if HasPrefix s pre then of_list (drop (String.length pre) (to_list s)) else s.
Definition HasSuffix (s suffix : string) : bool :=
  bool_decide (reverse (to_list suffix) = take (String.length suffix) (reverse (to_list s))).
Definition TrimSuffix (s suffix : string) : string :=
  if HasSuffix s suffix then of_list (take (String.length s - String.length suffix) (to_list s)) else s.

(** [strings.TrimLeft], [strings.TrimRight] and [strings.Trim] with a set of ASCII characters. *)
Fixpoint drop_set (cutset l : list ascii) : list ascii :=
  match l with
  | c :: rest => if bool_decide (c ∈ cutset) then drop_set cutset rest else l
  | [] => []
  end.
Definition TrimRightSet (s cutset : string) : string := of_list (reverse (drop_set (to_list cutset) (reverse (to_list s)))).
Definition TrimLeftSet (s cutset : string) : string := of_list (drop_set (to_list cutset) (to_list s)).
Definition Trim (s cutset : string) : string := TrimLeftSet (TrimRightSet s cutset) cutset.

(** [strings.Split] at a one-byte separator. *)
Fixpoint split_on (sep : ascii) (l : list ascii) : list (list ascii) :=
  match l with
  | [] => [[]]
  | c :: l =>
      if bool_decide (c = sep) then [] :: split_on sep l
      else match split_on sep l with [] => [[c]] | w :: ws => (c :: w) :: ws end
  end.
Definition Split (s : string) (sep : ascii) : list string := of_list <$> split_on sep (to_list s).

(** [crypto/sha256] with [encoding/hex]: the digest of a text as 64 hexadecimal digits. *)
Class Sha256 := { sha256 : string → string }.

(** ** Decimal integers *)

Definition is_digit (c : ascii) : bool := (48 <=? nat_of_ascii c)%nat && (nat_of_ascii c <=? 57)%nat.
Definition digit_value (c : ascii) : Z := Z.of_nat (nat_of_ascii c) - 48.

Fixpoint dec_value (acc : Z) (s : string) : option Z :=
  match s with
  | EmptyString => Some acc
  | String c s => if is_digit c then dec_value (10 * acc + digit_value c) s else None
  end.

(** The digits of an unsigned decimal number; no digit at all is an error. *)
Definition parse_digits (s : string) : option Z :=
  match s with EmptyString => None | _ => dec_value 0 s end.

(** [strconv.ParseInt(s, 10, 64)] and [strconv.Atoi]: [None] is an error. *)
Definition ParseInt (s : string) : option Z :=
  let signed := match s with
    | String "-" s => Z.opp <$> parse_digits s
    | String "+" s => parse_digits s
    | _ => parse_digits s
    end in
  v ← signed; if in_int64b v then Some v else None.

(** [strconv.FormatInt(z, 10)]. *)
Definition FormatInt (z : Z) : string := pretty z.

(** ** Lemmas *)

Lemma strip_any_None encs l :
  strip_any encs l = None ↔ Forall (λ e, ¬ e `prefix_of` l) encs.
Proof.
  induction encs as [|e encs IH]; simpl; [by split|].
  rewrite Forall_cons. case_decide; [by split; [|intros [? ?]]|].
  rewrite IH. by split; [|intros [? ?]].
Qed.

Lemma strip_any_Some_length encs l l' :
  Forall (λ e, e ≠ []) encs → strip_any encs l = Some l' → (length l' < length l)%nat.
Proof.
  induction encs as [|e encs IH]; simpl; [done|]; intros [He Hall]%Forall_cons.
  case_decide as Hp; [|by auto].
  intros [= <-]. destruct Hp as [k ->]. rewrite drop_app_length, length_app.
  destruct e; simpl in *; [done|lia].
Qed.

Lemma trim_fuel_None n encs l :
  Forall (λ e, e ≠ []) encs → (length l ≤ n)%nat → strip_any encs (trim_fuel n encs l) = None.
Proof.
  intros Hne. revert l. induction n as [|n IH]; intros l Hl; simpl.
  - destruct l; simpl in *; [|lia]. apply strip_any_None.
    eapply Forall_impl; [exact Hne|]. intros e He [k Hk].
    symmetry in Hk. by apply app_nil in Hk as [-> _].
  - destruct (strip_any encs l) as [l'|] eqn:E; [|done].
    apply IH. apply strip_any_Some_length in E; [lia|done].
Qed.

Lemma trim_left_None encs l :
  Forall (λ e, e ≠ []) encs → strip_any encs (trim_left encs l) = None.
Proof. intros. by apply trim_fuel_None. Qed.

Lemma trim_left_id encs l : strip_any encs l = None → trim_left encs l = l.
Proof. intros E. unfold trim_left. destruct l; simpl; [done|]. by rewrite E. Qed.

Lemma trim_fuel_suffix n encs l : trim_fuel n encs l `suffix_of` l.
Proof.
  revert l. induction n as [|n IH]; intros l; simpl; [done|].
  destruct (strip_any encs l) as [l'|] eqn:E; [|done].
  etrans; [apply IH|]. clear IH.
  induction encs as [|e encs IH]; simpl in E; [done|].
  case_decide; [|by auto]. injection E as <-. apply suffix_drop.
Qed.

(** A list that neither starts nor ends with an element of [encs]. *)
Definition clean (encs : list (list ascii)) (l : list ascii) : Prop :=
  strip_any encs l = None ∧ strip_any (reverse <$> encs) (reverse l) = None.

Lemma reverse_nonempty encs :
  Forall (λ e : list ascii, e ≠ []) encs → Forall (λ e, e ≠ []) (reverse <$> encs).
Proof.
  intros H. apply Forall_fmap. eapply Forall_impl; [exact H|].
  intros e He Hr. apply He. apply (f_equal reverse) in Hr. by rewrite reverse_involutive in Hr.
Qed.

Lemma trim_clean encs l :
  Forall (λ e, e ≠ []) encs → clean encs (trim_right encs (trim_left encs l)).
Proof.
  intros Hne. unfold clean, trim_right. rewrite reverse_involutive. split.
  - pose proof (trim_left_None encs l Hne) as H. set (x := trim_left encs l) in *.
    rewrite strip_any_None in H |- *. eapply Forall_impl; [exact H|].
    intros e He Hp. apply He. etrans; [exact Hp|].
    pose proof (trim_fuel_suffix (length (reverse x)) (reverse <$> encs) (reverse x)) as [k Hk].
    apply (f_equal reverse) in Hk. rewrite reverse_involutive, reverse_app in Hk.
    by exists (reverse k).
  - by apply trim_left_None, reverse_nonempty.
Qed.

Lemma clean_trim encs l : clean encs l → trim_right encs (trim_left encs l) = l.
Proof.
  intros [Hl Hr]. unfold trim_right. rewrite (trim_left_id _ l Hl), trim_left_id by done.
  apply reverse_involutive.
Qed.

Lemma spaces_nonempty : Forall (λ e, e ≠ []) spaces.
Proof. repeat constructor; done. Qed.

Lemma TrimSpace_clean s : clean spaces (to_list (TrimSpace s)).
Proof. unfold TrimSpace. rewrite to_of_list. apply trim_clean, spaces_nonempty. Qed.

Lemma TrimSpace_id s : clean spaces (to_list s) → TrimSpace s = s.
Proof. intros. unfold TrimSpace. by rewrite clean_trim, of_to_list. Qed.

Lemma TrimSpace_idemp s : TrimSpace (TrimSpace s) = TrimSpace s.
Proof. apply TrimSpace_id, TrimSpace_clean. Qed.

Lemma lower_ascii_idemp c : lower_ascii (lower_ascii c) = lower_ascii c.
Proof. by destruct c as [[] [] [] [] [] [] [] []]. Qed.

Lemma ToLower_idemp s : ToLower (ToLower s) = ToLower s.
Proof.
  unfold ToLower. rewrite to_of_list, <-list_fmap_compose. f_equal.
  apply list_fmap_ext. intros ? c _. apply lower_ascii_idemp.
Qed.

Definition caseless (c : ascii) : Prop := ∀ d, lower_ascii d = c → d = c.

Lemma prefix_lower e l :
  Forall caseless e → e `prefix_of` (lower_ascii <$> l) → e `prefix_of` l.
Proof.
  revert l. induction e as [|c e IH]; intros l Hc Hp; [by exists l|].
  apply Forall_cons in Hc as [Hc He]. destruct l as [|d l]; simpl in Hp.
  - by apply prefix_nil_not in Hp.
  - apply prefix_cons_inv_1 in Hp as Hd. apply prefix_cons_inv_2 in Hp.
    symmetry in Hd. apply Hc in Hd as ->. apply prefix_cons. auto.
Qed.

(** Bytes that are the lower case of no other byte. *)
Definition caselessb (c : ascii) : bool :=
  negb ((97 <=? nat_of_ascii c)%nat && (nat_of_ascii c <=? 122)%nat).

Lemma caselessb_spec c : caselessb c = true → caseless c.
Proof.
  intros H d <-. revert H.
  by destruct d as [[] [] [] [] [] [] [] []].
Qed.

Lemma spaces_caseless e : e ∈ spaces → Forall caseless e.
Proof.
  assert (Forall (λ e, forallb caselessb e = true) spaces) as H by (repeat constructor).
  rewrite Forall_forall in H. intros He%H. apply Forall_forall. intros c Hc.
  apply caselessb_spec. apply forallb_forall with (x := c) in He; [done|].
  by apply list_elem_of_In.
Qed.

Lemma lower_clean l : clean spaces l → clean spaces (lower_ascii <$> l).
Proof.
  unfold clean. rewrite !strip_any_None, !Forall_forall. intros [H1 H2]. split.
  - intros e He Hp. apply (H1 e He), prefix_lower; [by apply spaces_caseless|done].
  - intros e He Hp. apply (H2 e He). rewrite <-fmap_reverse in Hp.
    apply prefix_lower; [|done].
    apply list_elem_of_fmap in He as (e' & -> & He').
    apply Forall_reverse. by apply spaces_caseless.
Qed.

Lemma ToLower_clean s : clean spaces (to_list s) → clean spaces (to_list (ToLower s)).
Proof. intros. unfold ToLower. rewrite to_of_list. by apply lower_clean. Qed.

Lemma TrimSpace_ToLower_TrimSpace s :
  TrimSpace (ToLower (TrimSpace s)) = ToLower (TrimSpace s).
Proof. apply TrimSpace_id, ToLower_clean, TrimSpace_clean. Qed.

Lemma Forall_trim (P : ascii → Prop) encs l :
  Forall P l → Forall P (trim_right encs (trim_left encs l)).
Proof.
  assert (∀ encs' l', Forall P l' → Forall P (trim_left encs' l')) as H.
  { intros encs' l' Hl. destruct (trim_fuel_suffix (length l') encs' l') as [k Hk].
    rewrite Hk in Hl. by apply Forall_app in Hl as [_ ?]. }
  intros Hl. unfold trim_right. by apply Forall_reverse, H, Forall_reverse, H.
Qed.

(** Trimming a lower-case text leaves a lower-case text. *)
Lemma ToLower_TrimSpace_ToLower s :
  ToLower (TrimSpace (ToLower s)) = TrimSpace (ToLower s).
Proof.
  unfold TrimSpace, ToLower at 1. rewrite to_of_list. f_equal.
  apply list_eq_Forall2, Forall2_fmap_l, Forall_Forall2_diag.
  apply (Forall_trim (λ c, lower_ascii c = c)). unfold ToLower. rewrite to_of_list.
  apply Forall_fmap, Forall_true. intros c. apply lower_ascii_idemp.
Qed.

#[export] Hint Rewrite TrimSpace_idemp ToLower_idemp TrimSpace_ToLower_TrimSpace
  ToLower_TrimSpace_ToLower : vmflow.

(** A text whose first and last byte are no byte of a white-space encoding is
    left alone. *)
Definition plain_ends (first last : ascii) : bool :=
  forallb (λ e, bool_decide (head e ≠ Some first) && bool_decide (list.last e ≠ Some last)) spaces.

Lemma TrimSpace_plain_ends s c d :
  head (to_list s) = Some c → list.last (to_list s) = Some d → plain_ends c d = true →
  TrimSpace s = s.
Proof.
  intros Hc Hd Hall. apply TrimSpace_id. unfold clean. rewrite !strip_any_None.
  assert (∀ e, e ∈ spaces → head e ≠ Some c ∧ list.last e ≠ Some d) as He.
  { intros e He%list_elem_of_In. unfold plain_ends in Hall.
    apply forallb_forall with (x := e) in Hall; [|done].
    apply andb_true_iff in Hall as [H1 H2]. by apply bool_decide_eq_true in H1, H2. }
  pose proof spaces_nonempty as Hne. rewrite !Forall_forall in *. split.
  - intros e Hin [k Hk]. destruct (He e Hin) as [Hh _]. apply Hh.
    destruct e as [|x e]; [by destruct (Hne [])|]. rewrite Hk in Hc. done.
  - intros e Hin [k Hk]. apply list_elem_of_fmap in Hin as (e' & -> & Hin).
    destruct (He e' Hin) as [_ Hl]. apply Hl.
    apply (f_equal reverse) in Hk. rewrite reverse_involutive, reverse_app, reverse_involutive in Hk.
    rewrite Hk, last_app in Hd. destruct (list.last e') eqn:E; [done|].
    apply last_None in E as ->. by destruct (Hne []).
Qed.

Lemma TrimSpace_space s : TrimSpace (String " " s) = TrimSpace s.
Proof. unfold TrimSpace. by replace (trim_left spaces (to_list (String " " s))) with (trim_left spaces (to_list s)). Qed.

(** The text operations are reasoned about through the lemmas above only. *)
Global Opaque TrimSpace ToLower.

(** *** Decimal round trip *)

Lemma digit_char (n : N) : (n < 10)%N →
  is_digit (pretty_N_char n) = true ∧ digit_value (pretty_N_char n) = Z.of_N n.
Proof.
  intros Hn. assert (n = 0 ∨ n = 1 ∨ n = 2 ∨ n = 3 ∨ n = 4 ∨ n = 5 ∨ n = 6 ∨ n = 7 ∨ n = 8 ∨ n = 9)%N
    as Hc by lia.
  by repeat (destruct Hc as [->|Hc]; [done|]); subst.
Qed.

Lemma dec_value_pretty_go (x : N) (s : string) :
  dec_value 0 (pretty_N_go x s) = dec_value (Z.of_N x) s.
Proof.
  revert s. induction (N.lt_wf_0 x) as [x _ IH]; intros s.
  destruct (decide (0 < x)%N) as [Hx|Hx].
  - rewrite pretty_N_go_step by done. rewrite IH by (apply N.div_lt; lia). simpl.
    destruct (digit_char (x mod 10)) as [-> ->]; [by apply N.mod_lt|].
    f_equal. rewrite N2Z.inj_mod, N2Z.inj_div. simpl.
    pose proof (Z.div_mod (Z.of_N x) 10). lia.
  - assert (x = 0)%N as -> by lia. by rewrite pretty_N_go_0.
Qed.

Lemma parse_digits_pretty_N (n : N) : parse_digits (pretty n) = Some (Z.of_N n).
Proof.
  unfold parse_digits. unfold pretty, pretty_N. case_decide; [by subst|].
  rewrite dec_value_pretty_go. simpl.
  destruct (pretty_N_go n "") eqn:E; [|done].
  exfalso. pose proof (dec_value_pretty_go n "") as Hd. rewrite E in Hd. simpl in Hd.
  injection Hd. lia.
Qed.

Lemma parse_signed_digits s v :
  parse_digits s = Some v →
  match s with
  | String "-" s => Z.opp <$> parse_digits s
  | String "+" s => parse_digits s
  | _ => parse_digits s
  end = Some v.
Proof.
  intros Hs. destruct s as [|c s]; [done|].
  by destruct c as [[] [] [] [] [] [] [] []].
Qed.

Lemma ParseInt_FormatInt z : in_int64 z → ParseInt (FormatInt z) = Some z.
Proof.
  intros Hz%in_int64b_spec. unfold ParseInt, FormatInt.
  assert ((match (pretty z : string) with
           | String "-" s => Z.opp <$> parse_digits s
           | String "+" s => parse_digits s
           | _ => parse_digits (pretty z : string)
           end) = Some z) as Hp.
  { destruct z as [|p|p].
    - done.
    - apply parse_signed_digits. apply (parse_digits_pretty_N (N.pos p)).
    - change (pretty (Z.neg p)) with (String "-" (pretty (N.pos p))).
      cbv iota beta. by rewrite parse_digits_pretty_N. }
  destruct (pretty z : string) as [|c s] eqn:E; rewrite ?E in *.
  all: rewrite Hp; simpl; by rewrite Hz.
Qed.

Lemma dec_value_app a s t : dec_value a (s +:+ t) = dec_value a s ≫= λ b, dec_value b t.
Proof.
  revert a. induction s as [|c s IH]; intros a; simpl; [done|].
  destruct (is_digit c); [apply IH|done].
Qed.

Lemma dec_value_digits a s : is_Some (dec_value a s) ↔ forallb is_digit (to_list s) = true.
Proof.
  revert a. induction s as [|c s IH]; intros a; simpl; [by split; eauto|].
  destruct (is_digit c); simpl; [apply IH|]. by split; [intros [? ?]|].
Qed.

Lemma dec_value_acc a s v : dec_value 0 s = Some v →
  dec_value a s = Some (a * 10 ^ Z.of_nat (String.length s) + v).
Proof.
  assert (∀ s a b v, dec_value b s = Some v →
    dec_value (a + b) s = Some (a * 10 ^ Z.of_nat (String.length s) + v)) as Hgen.
  { clear. intros s. induction s as [|c s IH]; intros a b v; simpl.
    - intros [= ->]. f_equal. lia.
    - destruct (is_digit c); [|done]. intros Hv.
      apply (IH (10 * a)) in Hv. replace (10 * (a + b) + digit_value c)
        with (10 * a + (10 * b + digit_value c)) by lia.
      rewrite Hv. f_equal. change (Z.pos (Pos.of_succ_nat (String.length s)))
        with (Z.of_nat (S (String.length s))).
      rewrite Nat2Z.inj_succ, Z.pow_succ_r by lia. lia. }
  intros Hv. apply (Hgen s a 0) in Hv. by rewrite Z.add_0_r in Hv.
Qed.

Lemma FormatInt_digits z : 0 ≤ z →
  dec_value 0 (FormatInt z) = Some z ∧ FormatInt z ≠ "".
Proof.
  intros Hz. unfold FormatInt.
  assert (parse_digits (pretty z : string) = Some z) as Hp.
  { destruct z as [|p|p]; [done|apply (parse_digits_pretty_N (N.pos p))|lia]. }
  unfold parse_digits in Hp. by destruct (pretty z : string).
Qed.

Lemma ParseInt_None c s : forallb is_digit (to_list s) = false → ParseInt (String c s) = None.
Proof.
  intros Hs. assert (∀ a, dec_value a s = None) as Hd.
  { intros a. destruct (dec_value a s) eqn:E; [|done].
    assert (is_Some (dec_value a s)) as H%dec_value_digits by eauto. congruence. }
  assert (parse_digits s = None) as H1 by (destruct s; [done|apply Hd]).
  assert (parse_digits (String c s) = None) as H2.
  { simpl. destruct (is_digit c); [apply Hd|done]. }
  unfold ParseInt. destruct c as [[] [] [] [] [] [] [] []]; by rewrite ?H1, ?H2.
Qed.
