(* ===== verification/Duration.v ===== *)
(** * Durations ([time.ParseDuration])

    The text form of a duration in nanoseconds.  The value of a fraction goes
    through [float64] as in the standard library; [SpecFloat] computes it
    exactly (53 bits of precision, largest exponent 1024). *)

From S2P Require Import Prelude GoStrings.
From Stdlib Require Import SpecFloat.

(** ** [float64] *)

Definition f64_of (z : Z) : spec_float := binary_normalize 53 1024 z 0 false.
Definition f64_mul (a b : spec_float) : spec_float := SFmul 53 1024 a b.
Definition f64_div (a b : spec_float) : spec_float := SFdiv 53 1024 a b.

(** [uint64(x)] of a finite non-negative number: the fraction is dropped. *)
Definition f64_trunc (x : spec_float) : Z :=
  match x with
  | S754_finite false m e => Z.shiftl (Z.pos m) e
  | _ => 0
  end.

(** ** Digits *)

(** [leadingInt]: the number the text starts with and the rest; [None] is an
    overflow. *)
Fixpoint leadingInt (acc : Z) (l : list ascii) : option (Z * list ascii) :=
  match l with
  | c :: l' =>
      if is_digit c then
        if 2 ^ 63 / 10 <? acc then None
        else
          let acc := acc * 10 + digit_value c in
          if 2 ^ 63 <? acc then None else leadingInt acc l'
      else Some (acc, l)
  | [] => Some (acc, [])
  end.

(** [leadingFraction]: digits beyond the precision are skipped. *)
Fixpoint leadingFraction (f : Z) (scale : spec_float) (overflow : bool) (l : list ascii)
    : Z * spec_float * list ascii :=
  match l with
  | c :: l' =>
      if is_digit c then
        if overflow then leadingFraction f scale true l'
        else if (2 ^ 63 - 1) / 10 <? f then leadingFraction f scale true l'
        else
          let g := f * 10 + digit_value c in
          if 2 ^ 63 <? g then leadingFraction f scale true l'
          else leadingFraction g (f64_mul scale (f64_of 10)) false l'
      else (f, scale, l)
  | [] => (f, scale, [])
  end.

(** ** Units *)

Definition micro_sign : string := of_list [byte 194; byte 181; "s"%char].
Definition greek_mu : string := of_list [byte 206; byte 188; "s"%char].

Definition unitMap (unit : string) : option Z :=
  if bool_decide (unit = "ns") then Some 1
  else if bool_decide (unit = "us") || bool_decide (unit = micro_sign) || bool_decide (unit = greek_mu)
  then Some 1000
  else if bool_decide (unit = "ms") then Some 1000000
  else if bool_decide (unit = "s") then Some 1000000000
  else if bool_decide (unit = "m") then Some 60000000000
  else if bool_decide (unit = "h") then Some 3600000000000
  else None.

(** The unit ends before the next digit or period. *)
Fixpoint take_unit (l : list ascii) : list ascii * list ascii :=
  match l with
  | c :: l' =>
      if bool_decide (c = "."%char) || is_digit c then ([], l)
      else let '(unit, rest) := take_unit l' in (c :: unit, rest)
  | [] => ([], [])
  end.

(** ** Components *)

(** One [number unit] group: its nanoseconds and the unread text. *)
Definition duration_group (l : list ascii) : option (Z * list ascii) :=
  match l with
  | [] => None
  | c :: _ =>
      if negb (bool_decide (c = "."%char) || is_digit c) then None else
      '(v, rest) ← leadingInt 0 l;
      let pre := bool_decide (length rest ≠ length l) in
      let '(f, scale, post, rest) :=
        match rest with
        | "."%char :: digits =>
            let '(f, scale, rest) := leadingFraction 0 (f64_of 1) false digits in
            (f, scale, bool_decide (length rest ≠ length digits), rest)
        | _ => (0, f64_of 1, false, rest)
        end in
      if negb pre && negb post then None else
      let '(unit, rest) := take_unit rest in
      if bool_decide (unit = []) then None else
      unit ← unitMap (of_list unit);
      if 2 ^ 63 / unit <? v then None else
      let v := v * unit in
      let v := if 0 <? f then v + f64_trunc (f64_mul (f64_of f) (f64_div (f64_of unit) scale)) else v in
      if 2 ^ 63 <? v then None else Some (v, rest)
  end.

(** The loop over the groups; every group consumes a byte, so [fuel] is the
    length of the text.  The sum is a [uint64] with its wrap-around. *)
Fixpoint duration_groups (fuel : nat) (d : Z) (l : list ascii) : option Z :=
  match l, fuel with
  | [], _ => Some d
  | _, O => None
  | _, S fuel =>
      '(v, rest) ← duration_group l;
      let d := (d + v) mod 2 ^ 64 in
      if 2 ^ 63 <? d then None else duration_groups fuel d rest
  end.

(** [time.ParseDuration]; [None] is an error. *)
Definition ParseDuration (s : string) : option Z :=
  let '(neg, l) := match to_list s with
                   | "-"%char :: l => (true, l)
                   | "+"%char :: l => (false, l)
                   | l => (false, l)
                   end in
  if bool_decide (of_list l = "0") then Some 0
  else if bool_decide (l = []) then None
  else
    d ← duration_groups (length l) 0 l;
    if (neg : bool) then Some (- d) else if 2 ^ 63 - 1 <? d then None else Some d.

(** ** Checks *)

Example parse_duration_mixed : ParseDuration "1h15m30.918s" = Some 4530918000000.
Proof. by vm_compute. Qed.
Example parse_duration_fraction : ParseDuration "0.1h" = Some 360000000000.
Proof. by vm_compute. Qed.
Example parse_duration_negative : ParseDuration "-1.5h" = Some (-5400000000000).
Proof. by vm_compute. Qed.
Example parse_duration_no_unit : ParseDuration "3" = None.
Proof. by vm_compute. Qed.
Example parse_duration_overflow : ParseDuration "9223372037s" = None.
Proof. by vm_compute. Qed.
