(* ===== verification/Calendar.v ===== *)
(** * Calendar arithmetic of [time]

    Instants are Unix seconds.  A [Location] is the table of transitions of a
    time zone; [lookup_zone], [Date] and [AddDate] follow the algorithms of Go's
    [time] package, including what [Date] does for a local time that a
    transition skips.  The zone database itself is a parameter
    ([TzDatabase]): its data is not part of the program. *)

From S2P Require Import Prelude GoStrings.

Record Location := MkLocation {
  loc_first : Z;                  (* offset before the first transition *)
  loc_trans : list (Z * Z);       (* (when, offset), ascending *)
}.

#[export] Instance Location_eq_dec : EqDecision Location.
Proof. solve_decision. Defined.

Definition UTC : Location := MkLocation 0 [].

(** [time.LoadLocation]: [None] is an error. *)
Class TzDatabase := { LoadLocation : string → option Location }.

(** A database that knows [UTC] only. *)
Definition utc_database : TzDatabase := {|
  LoadLocation name := if bool_decide (name = "UTC") || bool_decide (name = "") then Some UTC else None
|}.

Record Time := MkTime { t_unix : Z; t_loc : Location }.

(** The offset in force at [sec], with the transition that started it and the
    one that ends it ([None]: none). *)
Fixpoint lookup_from (offset : Z) (start : option Z) (trans : list (Z * Z)) (sec : Z)
    : Z * option Z * option Z :=
  match trans with
  | [] => (offset, start, None)
  | (when, next) :: trans =>
      if sec <? when then (offset, start, Some when)
      else lookup_from next (Some when) trans sec
  end.

Definition lookup_zone (loc : Location) (sec : Z) : Z * option Z * option Z :=
  lookup_from (loc_first loc) None (loc_trans loc) sec.

Definition offset_at (loc : Location) (sec : Z) : Z := (lookup_zone loc sec).1.1.

(** ** Proleptic Gregorian calendar: days since 1970-01-01 *)

Definition days_from_civil (y m d : Z) : Z :=
  let y := if m <=? 2 then y - 1 else y in
  let era := y / 400 in
  let yoe := y - era * 400 in
  let mp := (m + 9) mod 12 in
  let doy := (153 * mp + 2) / 5 + d - 1 in
  let doe := yoe * 365 + yoe / 4 - yoe / 100 + doy in
  era * 146097 + doe - 719468.

Definition year_of_era (doe : Z) : Z :=
  (doe - doe / 1460 + doe / 36524 - doe / 146096) / 365.

Definition civil_from_days (z : Z) : Z * Z * Z :=
  let z := z + 719468 in
  let era := z / 146097 in
  let doe := z - era * 146097 in
  let yoe := year_of_era doe in
  let doy := doe - (365 * yoe + yoe / 4 - yoe / 100) in
  let mp := (5 * doy + 2) / 153 in
  let d := doy - (153 * mp + 2) / 5 + 1 in
  let m := if mp <? 10 then mp + 3 else mp - 9 in
  (yoe + era * 400 + (if m <=? 2 then 1 else 0), m, d).

(** ** Times *)

Definition local_seconds (t : Time) : Z := t_unix t + offset_at (t_loc t) (t_unix t).
Definition CivilDate (t : Time) : Z * Z * Z := civil_from_days (local_seconds t / 86400).
Definition Clock (t : Time) : Z := local_seconds t mod 86400.

(** [time.Date]: months and days outside their range are normalized; the zone
    offset is guessed from the local time read as UTC and corrected once. *)
Definition Date (year month day clock : Z) (loc : Location) : Time :=
  let m := month - 1 in
  let year := year + m / 12 in
  let month := m mod 12 + 1 in
  let unix := (days_from_civil year month 1 + (day - 1)) * 86400 + clock in
  let '(offset, start, stop) := lookup_zone loc unix in
  if offset =? 0 then MkTime unix loc else
  let utc := unix - offset in
  let inside := (match start with Some s => s <=? utc | None => true end) &&
                (match stop with Some e => utc <? e | None => true end) in
  let offset := if inside then offset else offset_at loc utc in
  MkTime (unix - offset) loc.

Definition AddDate (t : Time) (years months days : Z) : Time :=
  let '(y, m, d) := CivilDate t in
  Date (y + years) (m + months) (d + days) (Clock t) (t_loc t).

(** ** Calendar keys *)

Fixpoint zeros (n : nat) : string := match n with O => "" | S n => "0" +:+ zeros n end.
Definition pad (width : nat) (z : Z) : string :=
  let s := FormatInt z in zeros (width - String.length s) +:+ s.

(** [Format("2006-01-02")] and [Format("2006-01")]. *)
Definition FormatDay (t : Time) : string :=
  let '(y, m, d) := CivilDate t in pad 4 y +:+ "-" +:+ pad 2 m +:+ "-" +:+ pad 2 d.
Definition FormatMonth (t : Time) : string :=
  let '(y, m, d) := CivilDate t in pad 4 y +:+ "-" +:+ pad 2 m.

(** ** Lemmas *)

Lemma year_of_era_spec doe y : 0 ≤ doe < 146097 → y = year_of_era doe →
  0 ≤ y < 400 ∧ 365 * y + y / 4 - y / 100 ≤ doe ∧
  (doe < 365 * (y + 1) + (y + 1) / 4 - (y + 1) / 100 ∨ y = 399).
Proof.
  unfold year_of_era. intros ? ->. split; [(Z.to_euclidean_division_equations; lia)|]. split; [(Z.to_euclidean_division_equations; lia)|]. (Z.to_euclidean_division_equations; lia).
Qed.

(** A date as one number that orders dates as days do. *)
Definition rank (date : Z * Z * Z) : Z := let '(y, m, d) := date in y * 416 + m * 32 + d.

Lemma civil_range z y m d : civil_from_days z = (y, m, d) → 1 ≤ m ≤ 12 ∧ 1 ≤ d ≤ 31.
Proof.
  unfold civil_from_days. set (doe := z + 719468 - _).
  assert (0 ≤ doe < 146097) as Hd by (unfold doe; Z.to_euclidean_division_equations; lia).
  pose proof (year_of_era_spec doe _ Hd eq_refl) as Hy. revert Hy.
  generalize (year_of_era doe). intros yoe (H1 & H2 & H3) [= _ <- <-].
  set (doy := doe - _) in *. assert (0 ≤ doy ≤ 365) as Hdoy.
  { unfold doy; Z.to_euclidean_division_equations; lia. }
  clearbody doy. destruct (_ <? 10) eqn:E; bool_to_prop; Z.to_euclidean_division_equations; lia.
Qed.

(** [civil_from_days] through the March-based year and the day in it. *)
Definition year_day (z : Z) : Z * Z :=
  let z := z + 719468 in
  let era := z / 146097 in
  let doe := z - era * 146097 in
  let yoe := year_of_era doe in
  (yoe + era * 400, doe - (365 * yoe + yoe / 4 - yoe / 100)).

Definition day_rank (doy : Z) : Z :=
  let mp := (5 * doy + 2) / 153 in
  let d := doy - (153 * mp + 2) / 5 + 1 in
  if mp <? 10 then (mp + 3) * 32 + d else 416 + (mp - 9) * 32 + d.

Lemma year_day_range z : 0 ≤ (year_day z).2 ≤ 365.
Proof.
  unfold year_day. set (doe := z + 719468 - _). simpl.
  assert (0 ≤ doe < 146097) as Hd by (unfold doe; Z.to_euclidean_division_equations; lia).
  pose proof (year_of_era_spec doe _ Hd eq_refl) as Hy. revert Hy.
  generalize (year_of_era doe). intros yoe (H1 & H2 & H3).
  Z.to_euclidean_division_equations; lia.
Qed.

Lemma rank_year_day z :
  rank (civil_from_days z) = 416 * (year_day z).1 + day_rank (year_day z).2.
Proof.
  pose proof (year_day_range z) as Hr. revert Hr.
  unfold civil_from_days, year_day, day_rank, rank. simpl.
  set (doy := _ - (365 * _ + _ - _)). generalize (year_of_era (z + 719468 - (z + 719468) / 146097 * 146097)).
  intros yoe Hr. clearbody doy. destruct (_ <? 10) eqn:E; bool_to_prop.
  - destruct (_ <=? 2) eqn:E2; bool_to_prop; Z.to_euclidean_division_equations; lia.
  - destruct (_ <=? 2) eqn:E2; bool_to_prop; Z.to_euclidean_division_equations; lia.
Qed.

Lemma day_rank_bounds doy : 0 ≤ doy ≤ 365 → 97 ≤ day_rank doy ≤ 511.
Proof.
  intros. unfold day_rank. destruct (_ <? 10) eqn:E; bool_to_prop;
    Z.to_euclidean_division_equations; lia.
Qed.

Lemma day_rank_step doy : 0 ≤ doy < 365 → day_rank doy < day_rank (doy + 1).
Proof.
  intros. unfold day_rank. destruct (_ <? 10) eqn:E; destruct ((5 * (doy + 1) + 2) / 153 <? 10) eqn:E';
    bool_to_prop; Z.to_euclidean_division_equations; lia.
Qed.

Lemma year_day_step z :
  ((year_day (z + 1)).1 = (year_day z).1 ∧ (year_day (z + 1)).2 = (year_day z).2 + 1) ∨
  (year_day z).1 < (year_day (z + 1)).1.
Proof.
  unfold year_day. simpl. set (era := (z + 719468) / 146097). set (era' := (z + 1 + 719468) / 146097).
  set (doe := z + 719468 - _). set (doe' := z + 1 + 719468 - _).
  assert (0 ≤ doe < 146097) as Hd by (unfold doe, era; Z.to_euclidean_division_equations; lia).
  assert (0 ≤ doe' < 146097) as Hd' by (unfold doe', era'; Z.to_euclidean_division_equations; lia).
  pose proof (year_of_era_spec doe _ Hd eq_refl) as Hy. revert Hy.
  pose proof (year_of_era_spec doe' _ Hd' eq_refl) as Hy. revert Hy.
  generalize (year_of_era doe), (year_of_era doe'). intros y y' Hy' Hy.
  assert (era' = era ∧ doe' = doe + 1 ∨ era' = era + 1) as [[-> Hs]|Hs].
  { unfold doe, doe', era, era'. Z.to_euclidean_division_equations; lia. }
  - clearbody doe doe' era. destruct (decide (y' = y)) as [->|]; [left; lia|right].
    Z.to_euclidean_division_equations; lia.
  - right. lia.
Qed.

(** The calendar date moves forward with the day number. *)
Lemma rank_step z : rank (civil_from_days z) < rank (civil_from_days (z + 1)).
Proof.
  rewrite !rank_year_day. pose proof (year_day_range z) as H1.
  pose proof (year_day_range (z + 1)) as H2. pose proof (year_day_step z) as Hs.
  pose proof (day_rank_bounds _ H1). pose proof (day_rank_bounds _ H2).
  destruct Hs as [[-> Hd]|Hlt]; [|lia].
  rewrite Hd. pose proof (day_rank_step (year_day z).2). lia.
Qed.

Lemma rank_mono z z' : z < z' → rank (civil_from_days z) < rank (civil_from_days z').
Proof.
  intros Hlt. replace z' with (z + Z.of_nat (Z.to_nat (z' - z - 1)) + 1) by lia.
  generalize (Z.to_nat (z' - z - 1)). intros n. clear Hlt z'.
  induction n as [|n IH].
  - rewrite Z.add_0_r. apply rank_step.
  - etrans; [exact IH|]. replace (z + Z.of_nat (S n) + 1) with (z + Z.of_nat n + 1 + 1) by lia.
    apply rank_step.
Qed.

Lemma rank_lt_iff z z' : rank (civil_from_days z) < rank (civil_from_days z') ↔ z < z'.
Proof.
  split; [|apply rank_mono]. intros Hr.
  destruct (Z.lt_trichotomy z z') as [?|[->|Hlt]]; [done|lia|].
  apply rank_mono in Hlt. lia.
Qed.

(** A date of the calendar gives back its day number, also when the day is
    reached by adding to the first of the month. *)
Lemma days_from_civil_of_days z y m d :
  civil_from_days z = (y, m, d) → days_from_civil y m 1 + (d - 1) = z.
Proof.
  unfold civil_from_days. set (era := (z + 719468) / 146097). set (doe := z + 719468 - _).
  assert (0 ≤ doe < 146097) as Hd by (unfold doe, era; Z.to_euclidean_division_equations; lia).
  pose proof (year_of_era_spec doe _ Hd eq_refl) as Hy. revert Hy.
  generalize (year_of_era doe). intros yoe (H1 & H2 & H3).
  set (doy := doe - _). assert (0 ≤ doy ≤ 365) as Hdoy.
  { unfold doy; Z.to_euclidean_division_equations; lia. }
  intros [= <- <- <-].
  assert (z + 719468 - era * 146097 = doe) as Hdoe by done. clearbody doe era.
  assert (z = era * 146097 + 365 * yoe + yoe / 4 - yoe / 100 + doy - 719468) as -> by lia.
  clearbody doy. clear doe Hdoe Hd H2 H3. unfold days_from_civil.
  set (mp := (5 * doy + 2) / 153). assert (0 ≤ mp ≤ 11) as Hmp.
  { unfold mp; Z.to_euclidean_division_equations; lia. }
  set (m := if mp <? 10 then _ else _).
  assert ((m <=? 2) = negb (mp <? 10) ∧ (m + 9) mod 12 = mp) as [-> Hm].
  { unfold m. destruct (mp <? 10) eqn:E; bool_to_prop;
      (split; [simpl; first [apply Z.leb_gt|apply Z.leb_le]; lia
              |Z.to_euclidean_division_equations; lia]). }
  rewrite Hm. clearbody m mp. destruct (mp <? 10); simpl;
    Z.to_euclidean_division_equations; lia.
Qed.

(** ** Keys of fixed width compare as the dates they name *)

Fixpoint digits (width : nat) (z : Z) : string :=
  match width with
  | O => ""
  | S w => digits w (z / 10) +:+ String (pretty_N_char (Z.to_N (z mod 10))) ""
  end.


Lemma length_digits w z : String.length (digits w z) = w.
Proof. revert z. induction w as [|w IH]; intros z; simpl; [done|]. rewrite length_append, IH. simpl. lia. Qed.

Lemma compare_append (a b x y : string) :
  String.length a = String.length b →
  String.compare (a +:+ x) (b +:+ y) =
    match String.compare a b with Eq => String.compare x y | c => c end.
Proof.
  revert b. induction a as [|c a IH]; intros [|d b]; simpl; try done. intros [= Hl].
  unfold String.app in *. simpl. rewrite IH by done. by destruct (Ascii.compare c d).
Qed.

Lemma compare_digit_char a b : 0 ≤ a < 10 → 0 ≤ b < 10 →
  Ascii.compare (pretty_N_char (Z.to_N a)) (pretty_N_char (Z.to_N b)) = (a ?= b).
Proof.
  intros Ha Hb.
  assert (a = 0 ∨ a = 1 ∨ a = 2 ∨ a = 3 ∨ a = 4 ∨ a = 5 ∨ a = 6 ∨ a = 7 ∨ a = 8 ∨ a = 9) as H by lia.
  assert (b = 0 ∨ b = 1 ∨ b = 2 ∨ b = 3 ∨ b = 4 ∨ b = 5 ∨ b = 6 ∨ b = 7 ∨ b = 8 ∨ b = 9) as H' by lia.
  clear Ha Hb. by destruct_or!; subst.
Qed.

Lemma compare_digits w a b : 0 ≤ a < 10 ^ Z.of_nat w → 0 ≤ b < 10 ^ Z.of_nat w →
  String.compare (digits w a) (digits w b) = (a ?= b).
Proof.
  revert a b. induction w as [|w IH]; intros a b Ha Hb; cbn [digits].
  - simpl in *. symmetry. apply Z.compare_eq_iff. lia.
  - rewrite Nat2Z.inj_succ, Z.pow_succ_r in Ha, Hb by lia.
    rewrite compare_append by (by rewrite !length_digits).
    rewrite IH by (Z.to_euclidean_division_equations; lia). cbn [String.compare].
    rewrite compare_digit_char by (apply Z.mod_pos_bound; lia).
    pose proof (Z.div_mod a 10). pose proof (Z.div_mod b 10).
    pose proof (Z.mod_pos_bound a 10). pose proof (Z.mod_pos_bound b 10).
    destruct (Z.compare_spec (a / 10) (b / 10)), (Z.compare_spec (a mod 10) (b mod 10)),
      (Z.compare_spec a b); try done; lia.
Qed.

Lemma pretty_go_acc (x : N) (s : string) : pretty_N_go x s = pretty_N_go x "" +:+ s.
Proof.
  revert s. induction (N.lt_wf_0 x) as [x _ IH]; intros s.
  destruct (decide (0 < x)%N) as [Hx|Hx].
  - rewrite (pretty_N_go_step x s), (pretty_N_go_step x "") by done.
    assert (x `div` 10 < x)%N as Hlt by (apply N.div_lt; lia).
    rewrite (IH _ Hlt (String _ s)), (IH _ Hlt (String _ "")). by rewrite append_assoc.
  - assert (x = 0)%N as -> by lia. by rewrite !pretty_N_go_0.
Qed.

Lemma FormatInt_digit z : 0 ≤ z < 10 → FormatInt z = String (pretty_N_char (Z.to_N z)) "".
Proof.
  intros H.
  assert (z = 0 ∨ z = 1 ∨ z = 2 ∨ z = 3 ∨ z = 4 ∨ z = 5 ∨ z = 6 ∨ z = 7 ∨ z = 8 ∨ z = 9) as H' by lia.
  clear H. by destruct_or!; subst.
Qed.

Lemma FormatInt_step z : 10 ≤ z →
  FormatInt z = FormatInt (z / 10) +:+ String (pretty_N_char (Z.to_N (z mod 10))) "".
Proof.
  intros Hz. assert (∀ y, 0 < y → FormatInt y = pretty_N_go (Z.to_N y) "") as Hf.
  { intros y Hy. destruct y as [|p|p]; [lia| |lia]. unfold FormatInt, pretty at 1. simpl.
    unfold pretty, pretty_positive, pretty, pretty_N. by rewrite decide_False by done. }
  rewrite Hf by lia. rewrite pretty_N_go_step by lia. rewrite pretty_go_acc.
  rewrite Hf by (Z.to_euclidean_division_equations; lia).
  rewrite Z2N.inj_div, Z2N.inj_mod by lia. done.
Qed.

Lemma FormatInt_nonempty z : (0 < String.length (FormatInt z))%nat.
Proof.
  destruct (FormatInt z) as [|] eqn:E; simpl; [|lia]. exfalso.
  pose proof (ParseInt_FormatInt 0). unfold FormatInt in *. destruct z as [|p|p]; try done.
  pose proof (parse_digits_pretty_N (N.pos p)) as Hp.
  change (pretty (N.pos p)) with (pretty (Z.pos p) : string) in Hp. by rewrite E in Hp.
Qed.

Lemma zeros_snoc n : zeros n +:+ "0" = zeros (S n).
Proof. induction n as [|n IH]; [done|]. cbn [zeros]. by rewrite append_assoc, IH. Qed.

Lemma pad_digits w z : (0 < w)%nat → 0 ≤ z < 10 ^ Z.of_nat w → pad w z = digits w z.
Proof.
  revert z. induction w as [|w IH]; intros z Hw Hz; [lia|].
  rewrite Nat2Z.inj_succ, Z.pow_succ_r in Hz by lia. cbn [digits].
  destruct w as [|w'].
  { simpl in Hz. unfold pad. rewrite FormatInt_digit by lia. simpl. by rewrite Z.mod_small by lia. }
  rewrite <-IH by (Z.to_euclidean_division_equations; lia). assert (0 ≤ z) by lia. clear IH Hz. unfold pad.
  destruct (decide (10 ≤ z)) as [Hz'|Hz'].
  - rewrite (FormatInt_step z Hz'), length_append, <-append_assoc. simpl String.length.
    f_equal. f_equal. f_equal. lia.
  - rewrite Z.div_small, Z.mod_small by lia. rewrite FormatInt_digit by lia.
    change (FormatInt 0) with "0". simpl String.length.
    replace (S (S w') - 1)%nat with (S (S w' - 1))%nat by lia. by rewrite <-zeros_snoc.
Qed.

Lemma compare_pad w a b : (0 < w)%nat →
  0 ≤ a < 10 ^ Z.of_nat w → 0 ≤ b < 10 ^ Z.of_nat w →
  String.compare (pad w a) (pad w b) = (a ?= b).
Proof. intros. rewrite !pad_digits by done. by apply compare_digits. Qed.

Lemma length_pad w z : (0 < w)%nat → 0 ≤ z < 10 ^ Z.of_nat w → String.length (pad w z) = w.
Proof. intros. by rewrite pad_digits, length_digits. Qed.

(** Keys of a day and of a month, from the date itself. *)
Definition day_key (date : Z * Z * Z) : string :=
  let '(y, m, d) := date in pad 4 y +:+ "-" +:+ pad 2 m +:+ "-" +:+ pad 2 d.
Definition month_key (date : Z * Z * Z) : string :=
  let '(y, m, d) := date in pad 4 y +:+ "-" +:+ pad 2 m.

Lemma FormatDay_key t : FormatDay t = day_key (CivilDate t).
Proof. unfold FormatDay. by destruct (CivilDate t) as [[??]?]. Qed.
Lemma FormatMonth_key t : FormatMonth t = month_key (CivilDate t).
Proof. unfold FormatMonth. by destruct (CivilDate t) as [[??]?]. Qed.

Lemma compare_pair (a1 a2 b1 b2 : Z) (n : Z) : 0 ≤ a2 < n → 0 ≤ b2 < n →
  match a1 ?= b1 with Eq => a2 ?= b2 | c => c end = (a1 * n + a2 ?= b1 * n + b2).
Proof.
  intros. destruct (Z.compare_spec a1 b1), (Z.compare_spec a2 b2),
    (Z.compare_spec (a1 * n + a2) (b1 * n + b2)); subst; try done; nia.
Qed.

Lemma compare_month_key y m d y' m' d' :
  0 ≤ y < 10000 → 0 ≤ y' < 10000 → 0 ≤ m < 13 → 0 ≤ m' < 13 →
  String.compare (month_key (y, m, d)) (month_key (y', m', d')) = (y * 13 + m ?= y' * 13 + m').
Proof.
  intros. unfold month_key. rewrite compare_append by (rewrite !length_pad by (simpl; lia); done).
  rewrite compare_append by done. rewrite !compare_pad by (simpl; lia). simpl (String.compare "-" "-").
  cbv iota. by apply compare_pair.
Qed.

(** The order of the day keys is the order of the dates: the comparison of the
    quota pruning is a lexicographic test on strings. *)
Lemma compare_day_key y m d y' m' d' :
  0 ≤ y < 10000 → 0 ≤ y' < 10000 → 0 ≤ m < 13 → 0 ≤ m' < 13 → 0 ≤ d < 32 → 0 ≤ d' < 32 →
  String.compare (day_key (y, m, d)) (day_key (y', m', d')) = (rank (y, m, d) ?= rank (y', m', d')).
Proof.
  intros. unfold day_key. rewrite !compare_append by (rewrite ?length_pad by (simpl; lia); done).
  rewrite !compare_pad by (simpl; lia). simpl (String.compare "-" "-"). cbv iota.
  rewrite (compare_pair m d m' d' 32) by done.
  rewrite (compare_pair y (m * 32 + d) y' (m' * 32 + d') 416) by lia.
  unfold rank. f_equal; lia.
Qed.

(** ** Zones without transitions *)

Definition fixed_zone (loc : Location) : Prop := loc_trans loc = [].

Lemma lookup_fixed loc sec : fixed_zone loc → lookup_zone loc sec = (loc_first loc, None, None).
Proof. unfold fixed_zone, lookup_zone. by intros ->. Qed.

Lemma t_loc_Date y m d c loc : t_loc (Date y m d c loc) = loc.
Proof.
  unfold Date. destruct (lookup_zone _ _) as [[offset start] stop]. by destruct (_ =? 0).
Qed.

Lemma local_seconds_Date y m d c loc : fixed_zone loc →
  local_seconds (Date y m d c loc) =
    (days_from_civil (y + (m - 1) / 12) ((m - 1) mod 12 + 1) 1 + (d - 1)) * 86400 + c.
Proof.
  intros Hf. unfold local_seconds. rewrite t_loc_Date. unfold offset_at. rewrite lookup_fixed by done.
  unfold Date. rewrite lookup_fixed by done. simpl. destruct (Z.eqb_spec (loc_first loc) 0); simpl; lia.
Qed.

Lemma CivilDate_Date y m d loc : fixed_zone loc →
  CivilDate (Date y m d 0 loc) =
    civil_from_days (days_from_civil (y + (m - 1) / 12) ((m - 1) mod 12 + 1) 1 + (d - 1)).
Proof.
  intros Hf. unfold CivilDate. rewrite local_seconds_Date by done.
  f_equal. rewrite Z.add_0_r. apply Z.div_mul. lia.
Qed.

Lemma Clock_Date y m d loc : fixed_zone loc → Clock (Date y m d 0 loc) = 0.
Proof.
  intros Hf. unfold Clock. rewrite local_seconds_Date by done. rewrite Z.add_0_r. apply Z_mod_mult.
Qed.

(** *** The first day of a month *)

Lemma days_from_civil_era y m d k :
  days_from_civil (y + 400 * k) m d = days_from_civil y m d + 146097 * k.
Proof.
  unfold days_from_civil. cbv zeta.
  replace (if m <=? 2 then y + 400 * k - 1 else y + 400 * k)
    with ((if m <=? 2 then y - 1 else y) + k * 400) by (destruct (m <=? 2); lia).
  set (y' := if m <=? 2 then y - 1 else y). rewrite Z.div_add by lia.
  replace (y' + k * 400 - (y' / 400 + k) * 400) with (y' - y' / 400 * 400) by lia. lia.
Qed.

Lemma civil_from_days_era z k y m d :
  civil_from_days z = (y, m, d) → civil_from_days (z + 146097 * k) = (y + 400 * k, m, d).
Proof.
  unfold civil_from_days. cbv zeta.
  replace (z + 146097 * k + 719468) with (z + 719468 + k * 146097) by lia. rewrite Z.div_add by lia.
  replace (z + 719468 + k * 146097 - ((z + 719468) / 146097 + k) * 146097)
    with (z + 719468 - (z + 719468) / 146097 * 146097) by lia.
  set (doe := z + 719468 - _). set (a := (z + 719468) / 146097).
  intros [= <- <- <-]. f_equal. f_equal. lia.
Qed.

Lemma civil_of_first y m : 1 ≤ m ≤ 12 → civil_from_days (days_from_civil y m 1) = (y, m, 1).
Proof.
  intros Hm. pose proof (Z.div_mod y 400 ltac:(lia)) as Hy. pose proof (Z.mod_pos_bound y 400 ltac:(lia)).
  assert (civil_from_days (days_from_civil (y mod 400) m 1) = (y mod 400, m, 1)) as Hbase.
  { assert (forallb (λ n, forallb (λ k, bool_decide
        (civil_from_days (days_from_civil (Z.of_nat n) (Z.of_nat k) 1) = (Z.of_nat n, Z.of_nat k, 1)))
        (seq 1 12)) (seq 0 400) = true) as Hall by by vm_compute.
    rewrite <-(Z2Nat.id (y mod 400)), <-(Z2Nat.id m) by lia.
    eapply forallb_forall in Hall; [|apply in_seq; split; [apply Nat.le_0_l|]; instantiate (1 := Z.to_nat (y mod 400)); lia].
    eapply forallb_forall in Hall; [|apply in_seq; instantiate (1 := Z.to_nat m); lia].
    by apply bool_decide_eq_true in Hall. }
  apply (civil_from_days_era _ (y / 400)) in Hbase.
  rewrite <-days_from_civil_era in Hbase.
  by replace (y mod 400 + 400 * (y / 400)) with y in Hbase by lia.
Qed.

Lemma AddDate_days t n k :
  fixed_zone (t_loc t) → CivilDate t = civil_from_days n → Clock t = 0 →
  CivilDate (AddDate t 0 0 k) = civil_from_days (n + k) ∧ Clock (AddDate t 0 0 k) = 0 ∧
  t_loc (AddDate t 0 0 k) = t_loc t.
Proof.
  intros Hf Hc Hk. unfold AddDate. rewrite Hc, Hk.
  destruct (civil_from_days n) as [[y m] d] eqn:E. pose proof (civil_range _ _ _ _ E) as [Hm _].
  rewrite CivilDate_Date, Clock_Date, t_loc_Date by done. split_and!; [|done|done].
  f_equal. apply days_from_civil_of_days in E.
  rewrite Z.div_small, Z.mod_small by lia. rewrite !Z.add_0_r.
  replace (m - 1 + 1) with m by lia. lia.
Qed.

(** Months counted from year 0. *)
Definition month_of (i : Z) : Z * Z * Z := (i / 12, i mod 12 + 1, 1).

Lemma AddDate_months t i k :
  fixed_zone (t_loc t) → CivilDate t = month_of i → Clock t = 0 →
  CivilDate (AddDate t 0 k 0) = month_of (i + k) ∧ Clock (AddDate t 0 k 0) = 0 ∧
  t_loc (AddDate t 0 k 0) = t_loc t.
Proof.
  intros Hf Hc Hk. unfold AddDate. rewrite Hc, Hk. unfold month_of.
  rewrite CivilDate_Date, Clock_Date, t_loc_Date by done. split_and!; [|done|done].
  replace (1 + 0 - 1) with 0 by lia. rewrite Z.add_0_r, civil_of_first by (Z.to_euclidean_division_equations; lia).
  f_equal; f_equal; Z.to_euclidean_division_equations; lia.
Qed.

(** The comparison of day keys is the comparison of the days. *)
Definition printable (date : Z * Z * Z) : Prop := 0 ≤ date.1.1 < 10000.

Lemma compare_days n k :
  printable (civil_from_days n) → printable (civil_from_days k) →
  String.compare (day_key (civil_from_days n)) (day_key (civil_from_days k)) = (n ?= k).
Proof.
  destruct (civil_from_days n) as [[y m] d] eqn:En, (civil_from_days k) as [[y' m'] d'] eqn:Ek.
  pose proof (civil_range _ _ _ _ En). pose proof (civil_range _ _ _ _ Ek).
  unfold printable. intros Hy Hy'. simpl in Hy, Hy'. rewrite compare_day_key by lia. rewrite <-En, <-Ek.
  destruct (Z.compare_spec n k) as [->|Hlt|Hgt].
  - apply Z.compare_refl.
  - by apply Z.compare_lt_iff, rank_mono.
  - by apply Z.compare_gt_iff, rank_mono.
Qed.

Lemma compare_months i j :
  printable (month_of i) → printable (month_of j) →
  String.compare (month_key (month_of i)) (month_key (month_of j)) = (i ?= j).
Proof.
  unfold printable, month_of. intros Hy Hy'. simpl in Hy, Hy'. rewrite compare_month_key by (Z.to_euclidean_division_equations; lia).
  destruct (Z.compare_spec i j) as [->|Hlt|Hgt]; [apply Z.compare_refl|apply Z.compare_lt_iff|apply Z.compare_gt_iff];
    Z.to_euclidean_division_equations; lia.
Qed.

(** ** Zones with transitions

    Offsets within a day of UTC and of each other: [Date] misses the local time
    it is asked for by a day at most, and only around a transition. *)
Definition zone_ok (loc : Location) : Prop :=
  ∀ s s', Z.abs (offset_at loc s) ≤ 86400 ∧ Z.abs (offset_at loc s - offset_at loc s') ≤ 86400.

Lemma UTC_zone_ok : zone_ok UTC.
Proof. by intros s s'. Qed.

Lemma Date_near y m d c loc :
  zone_ok loc →
  let wanted := (days_from_civil (y + (m - 1) / 12) ((m - 1) mod 12 + 1) 1 + (d - 1)) * 86400 + c in
  wanted - 86400 ≤ local_seconds (Date y m d c loc) ≤ wanted + 86400.
Proof.
  intros Hok wanted. unfold local_seconds. rewrite t_loc_Date. unfold Date. fold wanted.
  assert ((lookup_zone loc wanted).1.1 = offset_at loc wanted) as Ho by done.
  destruct (lookup_zone loc wanted) as [[offset start] stop]. simpl in Ho.
  destruct (Z.eqb_spec offset 0) as [->|_]; [simpl; rewrite <- Ho; lia|]. simpl.
  match goal with |- context [if ?b then offset else ?x] => set (o := if b then offset else x) end.
  assert (∃ s, o = offset_at loc s) as [s ->]. { unfold o. case_match; eauto. }
  destruct (Hok s (wanted - offset_at loc s)) as [_ H]. lia.
Qed.

(** The first day of the [i]-th month from year 0. *)
Definition first_day (i : Z) : Z := days_from_civil (i / 12) (i mod 12 + 1) 1.

Lemma first_day_range i : first_day i + 28 ≤ first_day (i + 1) ≤ first_day i + 31.
Proof.
  assert (∀ i k, first_day (i + 4800 * k) = first_day i + 146097 * k) as Hera.
  { intros j k. unfold first_day. rewrite <- days_from_civil_era.
    replace (j + 4800 * k) with (j + 400 * k * 12) by lia. by rewrite Z.div_add, Z.mod_add by lia. }
  pose proof (Z.div_mod i 4800 ltac:(lia)) as Hi. pose proof (Z.mod_pos_bound i 4800 ltac:(lia)).
  rewrite (Z.add_comm (4800 * _)) in Hi.
  assert (first_day i = first_day (i mod 4800) + 146097 * (i / 4800)) as -> by (rewrite <- Hera; by f_equal).
  replace (i + 1) with (i mod 4800 + 1 + 4800 * (i / 4800)) by lia. rewrite !Hera.
  assert (forallb (λ n, (first_day (Z.of_nat n) + 28 <=? first_day (Z.of_nat n + 1)) &&
            (first_day (Z.of_nat n + 1) <=? first_day (Z.of_nat n) + 31)) (seq 0 4800) = true)
    as Hall by by vm_compute.
  eapply forallb_forall in Hall; [|apply in_seq; split; [apply Nat.le_0_l|];
    instantiate (1 := Z.to_nat (i mod 4800)); lia].
  apply andb_true_iff in Hall as [Hlo Hhi]. apply Z.leb_le in Hlo, Hhi. rewrite Z2Nat.id in Hlo, Hhi by lia. lia.
Qed.

Lemma first_day_mono i j : i ≤ j → first_day i + 28 * (j - i) ≤ first_day j.
Proof.
  intros Hij. replace j with (i + Z.of_nat (Z.to_nat (j - i))) by lia.
  generalize (Z.to_nat (j - i)). clear Hij. intros n. induction n as [|n IH].
  - rewrite Z.add_0_r. lia.
  - pose proof (first_day_range (i + Z.of_nat n)) as H.
    replace (i + Z.of_nat n + 1) with (i + Z.of_nat (S n)) in H by lia. lia.
Qed.

(** The month a day lies in. *)
Definition month_index (z : Z) : Z := let '(y, m, _) := civil_from_days z in 12 * y + (m - 1).

Lemma month_index_spec z :
  let '(_, _, d) := civil_from_days z in first_day (month_index z) + (d - 1) = z ∧ 1 ≤ d ≤ 31.
Proof.
  unfold month_index. destruct (civil_from_days z) as [[y m] d] eqn:E.
  pose proof (civil_range _ _ _ _ E) as [Hm Hd]. split; [|done].
  rewrite <- (days_from_civil_of_days _ _ _ _ E). unfold first_day.
  replace (12 * y + (m - 1)) with (m - 1 + y * 12) by lia. rewrite Z.div_add, Z.mod_add by lia.
  rewrite Z.div_small, Z.mod_small by lia. f_equal; f_equal; lia.
Qed.

Lemma month_index_le z j : z < first_day (j + 1) → month_index z ≤ j.
Proof.
  intros Hz. pose proof (month_index_spec z) as H. destruct (civil_from_days z) as [[y m] d].
  destruct (Z.le_gt_cases (month_index z) j) as [|Hgt]; [done|].
  pose proof (first_day_mono (j + 1) (month_index z)). lia.
Qed.

Definition local_date (t : Time) : Z := local_seconds t / 86400.

Lemma AddDate_near t months days :
  zone_ok (t_loc t) →
  let z := local_date t in
  let wanted := (first_day (month_index z + months) + (z - first_day (month_index z)) + days) * 86400
                  + Clock t in
  wanted - 86400 ≤ local_seconds (AddDate t 0 months days) ≤ wanted + 86400.
Proof.
  intros Hok z wanted. unfold AddDate. fold (local_date t). unfold CivilDate. fold (local_date t). fold z.
  pose proof (month_index_spec z) as Hz. unfold wanted, month_index in *.
  destruct (civil_from_days z) as [[y m] d] eqn:E. destruct Hz as [Hz _].
  pose proof (civil_range _ _ _ _ E) as [Hm _].
  pose proof (Date_near (y + 0) (m + months) (d + days) (Clock t) (t_loc t) Hok) as H. cbv zeta in H.
  assert (days_from_civil (y + 0 + (m + months - 1) / 12) ((m + months - 1) mod 12 + 1) 1 =
          first_day (12 * y + (m - 1) + months)) as Hfirst.
  { unfold first_day. replace (12 * y + (m - 1) + months) with (m + months - 1 + y * 12) by lia.
    rewrite Z.div_add, Z.mod_add by lia. f_equal. lia. }
  rewrite Hfirst in H. lia.
Qed.

Lemma AddDate_loc t y m d : t_loc (AddDate t y m d) = t_loc t.
Proof. unfold AddDate. destruct (CivilDate t) as [[??]?]. apply t_loc_Date. Qed.

(** Dates from year 0 to year 9999 print with four digits. *)
Lemma civil_printable z : -719528 ≤ z ≤ 2932896 → printable (civil_from_days z).
Proof.
  intros Hz. unfold printable.
  assert (rank (civil_from_days (-719528)) ≤ rank (civil_from_days z)) as Hlo.
  { apply Z.nlt_ge. rewrite rank_lt_iff. lia. }
  assert (rank (civil_from_days z) ≤ rank (civil_from_days 2932896)) as Hhi.
  { apply Z.nlt_ge. rewrite rank_lt_iff. lia. }
  set (lo := rank (civil_from_days (-719528))) in Hlo. vm_compute in lo. subst lo.
  destruct (civil_from_days z) as [[y m] d] eqn:E. pose proof (civil_range _ _ _ _ E).
  set (hi := rank (civil_from_days 2932896)) in Hhi. vm_compute in hi. subst hi. simpl. unfold rank in *. lia.
Qed.

Lemma month_key_order z z' :
  printable (civil_from_days z) → printable (civil_from_days z') →
  month_index z' ≤ month_index z →
  String.compare (month_key (civil_from_days z)) (month_key (civil_from_days z')) ≠ Lt.
Proof.
  unfold printable, month_index.
  destruct (civil_from_days z) as [[y m] d] eqn:E, (civil_from_days z') as [[y' m'] d'] eqn:E'.
  pose proof (civil_range _ _ _ _ E). pose proof (civil_range _ _ _ _ E'). intros Hy Hy' Hle.
  simpl in Hy, Hy'. rewrite compare_month_key by lia.
  destruct (Z.compare_spec (y * 13 + m) (y' * 13 + m')); [done| |done]. lia.
Qed.
