(* ===== verification/NetIP.v ===== *)
(** * Addresses and prefixes of [net/netip]

    The part of Go's [net/netip] the source-IP policies use: parsing of IPv4 and
    IPv6 literals and of CIDR prefixes, [Unmap], [Masked], [Contains] and the
    canonical text; and the host and port texts of [net].  An address is an
    unsigned integer of 32 or 128 bits. *)

From S2P Require Import Prelude GoStrings.
From Stdlib Require Import Ascii.

Inductive Addr :=
| InvalidAddr
| Addr4 (v : Z)
| Addr6 (v : Z) (zone : string).

#[export] Instance Addr_eq_dec : EqDecision Addr.
Proof. solve_decision. Defined.
#[export] Instance Addr_countable : Countable Addr.
Proof.
  refine (inj_countable'
    (λ a, match a with
          | InvalidAddr => inl ()
          | Addr4 v => inr (inl v)
          | Addr6 v z => inr (inr (v, z))
          end)
    (λ x, match x with
          | inl _ => InvalidAddr
          | inr (inl v) => Addr4 v
          | inr (inr (v, z)) => Addr6 v z
          end) _).
  by intros [].
Defined.

Record Prefix := MkPrefix { pfx_addr : Addr; pfx_bits : Z }.

#[export] Instance Prefix_eq_dec : EqDecision Prefix.
Proof. solve_decision. Defined.
#[export] Instance Prefix_countable : Countable Prefix.
Proof.
  refine (inj_countable' (λ p, (pfx_addr p, pfx_bits p)) (λ x, MkPrefix x.1 x.2) _).
  by intros [].
Defined.

Module Netip.

(** ** Addresses *)

Definition IsValid (a : Addr) : bool := match a with InvalidAddr => false | _ => true end.
Definition BitLen (a : Addr) : Z :=
match a with InvalidAddr => 0 | Addr4 _ => 32 | Addr6 _ _ => 128 end.
Definition Zone (a : Addr) : string := match a with Addr6 _ z => z | _ => "" end.
Definition WithZone (a : Addr) (zone : string) : Addr :=
match a with Addr6 v _ => Addr6 v zone | _ => a end.
Definition Is4In6 (a : Addr) : bool :=
match a with Addr6 v _ => Z.shiftr v 32 =? 65535 | _ => false end.
Definition Unmap (a : Addr) : Addr :=
match a with
| Addr6 v z => if Is4In6 a then Addr4 (Z.land v (Z.ones 32)) else a
| _ => a
end.
Definition value (a : Addr) : Z :=
match a with InvalidAddr => 0 | Addr4 v => v | Addr6 v _ => v end.

(** ** Parsing *)

Fixpoint ipv4_fields (s : string) (first prevdot : bool) (val : Z) (pos digLen : nat)
  (fields : list Z) : option (list Z) :=
match s with
| EmptyString => if (pos <? 3)%nat then None else Some (fields ++ [val])
| String c rest =>
    if is_digit c then
      if (digLen =? 1)%nat && (val =? 0) then None else
      let val := val * 10 + digit_value c in
      if 255 <? val then None
      else ipv4_fields rest false false val pos (S digLen) fields
    else if bool_decide (c = "."%char) then
      if first || bool_decide (rest = EmptyString) || prevdot then None
      else if (pos =? 3)%nat then None
      else ipv4_fields rest false true 0 (S pos) 0 (fields ++ [val])
    else None
end.

Definition of_octets (l : list Z) : Z := foldl (λ acc x, acc * 256 + x) 0 l.
Definition of_groups (l : list Z) : Z := foldl (λ acc x, acc * 65536 + x) 0 l.

Definition parse_ipv4 (s : string) : option Addr :=
fields ← ipv4_fields s true false 0 0 0 []; Some (Addr4 (of_octets fields)).

Definition hex_digit (c : ascii) : option Z :=
let n := Z.of_nat (nat_of_ascii c) in
if is_digit c then Some (n - 48)
else if (97 <=? n) && (n <=? 102) then Some (n - 87)
else if (65 <=? n) && (n <=? 70) then Some (n - 55)
else None.

(** Digits of one group: how many were read, their value and the rest. *)
Fixpoint hex_group (s : string) (off : nat) (acc : Z) : option (nat * Z * string) :=
match s with
| EmptyString => Some (off, acc, s)
| String c rest =>
    match hex_digit c with
    | None => Some (off, acc, s)
    | Some d => if (3 <? off)%nat then None else hex_group rest (S off) (16 * acc + d)
    end
end.

(** The loop over the groups of an IPv6 literal; [fuel] is the eight groups an
  address has room for.  The result is the groups, the position of the
  ellipsis and the unread text. *)
Fixpoint ipv6_groups (fuel : nat) (s : string) (groups : list Z) (ellipsis : option nat)
  : option (list Z * option nat * string) :=
match fuel with
| O => Some (groups, ellipsis, s)
| S fuel =>
    '(off, acc, rest) ← hex_group s 0 0;
    if (off =? 0)%nat then None else
    match rest with
    | EmptyString => Some (groups ++ [acc], ellipsis, EmptyString)
    | String "." _ =>
        if bool_decide (ellipsis = None) && negb (length groups =? 6)%nat then None else
        if (8 <? length groups + 2)%nat then None else
        fields ← ipv4_fields s true false 0 0 0 [];
        let v := of_octets fields in
        Some (groups ++ [Z.shiftr v 16; Z.land v 65535], ellipsis, EmptyString)
    | String ":" rest =>
        match rest with
        | EmptyString => None
        | String ":" rest' =>
            if bool_decide (ellipsis ≠ None) then None else
            let ellipsis := Some (S (length groups)) in
            if bool_decide (rest' = EmptyString)
            then Some (groups ++ [acc], ellipsis, EmptyString)
            else ipv6_groups fuel rest' (groups ++ [acc]) ellipsis
        | _ => ipv6_groups fuel rest (groups ++ [acc]) ellipsis
        end
    | _ => None
    end
end.

Fixpoint cut (sep : ascii) (s : string) : string * option string :=
match s with
| EmptyString => (EmptyString, None)
| String c rest =>
    if bool_decide (c = sep) then (EmptyString, Some rest)
    else let '(a, b) := cut sep rest in (String c a, b)
end.

Definition expand_ellipsis (groups : list Z) (ellipsis : option nat) : option (list Z) :=
if (length groups <? 8)%nat then
  e ← ellipsis;
  Some (take e groups ++ replicate (8 - length groups) 0 ++ drop e groups)
else match ellipsis with None => Some groups | Some _ => None end.

Definition parse_ipv6 (s : string) : option Addr :=
let '(s, zone) := cut "%" s in
zone ← match zone with
       | None => Some EmptyString
       | Some EmptyString => None
       | Some z => Some z
       end;
match s with
| String ":" (String ":" EmptyString) => Some (Addr6 0 zone)
| _ =>
  let '(s, ellipsis) := match s with
                        | String ":" (String ":" rest) => (rest, Some 0%nat)
                        | _ => (s, None)
                        end in
  '(groups, ellipsis, rest) ← ipv6_groups 8 s [] ellipsis;
  if bool_decide (rest ≠ EmptyString) then None else
  groups ← expand_ellipsis groups ellipsis;
  Some (Addr6 (of_groups groups) zone)
end.

Fixpoint addr_family (s : string) : option ascii :=
match s with
| EmptyString => None
| String c rest =>
    if bool_decide (c = "."%char) || bool_decide (c = ":"%char) || bool_decide (c = "%"%char)
    then Some c else addr_family rest
end.

(** [netip.ParseAddr]; [None] is an error. *)
Definition ParseAddr (s : string) : option Addr :=
match addr_family s with
| Some "."%char => parse_ipv4 s
| Some ":"%char => parse_ipv6 s
| _ => None
end.

(** Split at the last [sep]. *)
Fixpoint cut_last (sep : ascii) (s : string) : option (string * string) :=
match s with
| EmptyString => None
| String c rest =>
    match cut_last sep rest with
    | Some (a, b) => Some (String c a, b)
    | None => if bool_decide (c = sep) then Some (EmptyString, rest) else None
    end
end.

(** [netip.PrefixFrom]. *)
Definition PrefixFrom (a : Addr) (bits : Z) : Prefix :=
if IsValid a && (0 <=? bits) && (bits <=? BitLen a)
then MkPrefix (WithZone a "") bits else MkPrefix (WithZone a "") (-1).

Definition bad_bits (s : string) : bool :=
match s with
| String c (String _ _) => negb ((49 <=? nat_of_ascii c)%nat && (nat_of_ascii c <=? 57)%nat)
| _ => false
end.

(** [netip.ParsePrefix]; [None] is an error. *)
Definition ParsePrefix (s : string) : option Prefix :=
'(addr, bits) ← cut_last "/" s;
ip ← ParseAddr addr;
if bool_decide (Zone ip ≠ "") then None else
if bad_bits bits then None else
n ← ParseInt bits;
if (n <? 0) || (BitLen ip <? n) then None else Some (PrefixFrom ip n).

(** ** Prefixes *)

Definition PrefixIsValid (p : Prefix) : bool := 0 <=? pfx_bits p.

Definition mask (width bits v : Z) : Z := Z.shiftl (Z.shiftr v (width - bits)) (width - bits).

Definition Masked (p : Prefix) : Prefix :=
if PrefixIsValid p then
  match pfx_addr p with
  | InvalidAddr => MkPrefix InvalidAddr (-1)
  | Addr4 v => MkPrefix (Addr4 (mask 32 (pfx_bits p) v)) (pfx_bits p)
  | Addr6 v _ => MkPrefix (Addr6 (mask 128 (pfx_bits p) v) "") (pfx_bits p)
  end
else MkPrefix InvalidAddr (-1).

Definition Contains (p : Prefix) (a : Addr) : bool :=
if negb (PrefixIsValid p) || bool_decide (Zone a ≠ "") then false
else if (BitLen (pfx_addr p) =? 0) || (BitLen a =? 0) || negb (BitLen (pfx_addr p) =? BitLen a)
then false
else Z.shiftr (Z.lxor (value a) (value (pfx_addr p))) (BitLen a - pfx_bits p) =? 0.

(** ** Canonical text *)

Definition octets (v : Z) : list Z :=
[Z.land (Z.shiftr v 24) 255; Z.land (Z.shiftr v 16) 255; Z.land (Z.shiftr v 8) 255; Z.land v 255].
Definition group (v : Z) (i : nat) : Z := Z.land (Z.shiftr v (112 - 16 * Z.of_nat i)) 65535.

Fixpoint join (sep : string) (l : list string) : string :=
match l with
| [] => ""
| [x] => x
| x :: l => x +:+ sep +:+ join sep l
end.

Definition string4 (v : Z) : string := join "." (FormatInt <$> octets v).

Definition hex_char (d : Z) : ascii :=
ascii_of_nat (Z.to_nat (if d <? 10 then 48 + d else 87 + d)).
Definition string_hex (v : Z) : string :=
let d i := Z.land (Z.shiftr v (4 * i)) 15 in
(if 4096 <=? v then String (hex_char (d 3)) "" else "") +:+
(if 256 <=? v then String (hex_char (d 2)) "" else "") +:+
(if 16 <=? v then String (hex_char (d 1)) "" else "") +:+
String (hex_char (d 0)) "".

(** Length of the run of zero groups starting at group [i]. *)
Fixpoint zero_run (fuel : nat) (v : Z) (i : nat) : nat :=
match fuel with
| O => 0
| S fuel => if group v i =? 0 then S (zero_run fuel v (S i)) else 0
end.

(** The first longest run of at least two zero groups: its start and its end. *)
Definition longest_zero_run (v : Z) : option (nat * nat) :=
foldl (λ best i,
  let l := zero_run (8 - i) v i in
  if (2 <=? l)%nat && (match best with Some (a, b) => b - a | None => 0 end <? l)%nat
  then Some (i, i + l)%nat else best) None (seq 0 8).

Definition string6 (v : Z) (zone : string) : string :=
let groups lo hi := join ":" ((λ i, string_hex (group v i)) <$> seq lo (hi - lo)) in
let text := match longest_zero_run v with
            | Some (a, b) => groups 0%nat a +:+ "::" +:+ groups b 8%nat
            | None => groups 0%nat 8%nat
            end in
text +:+ (if bool_decide (zone = "") then "" else "%" +:+ zone).

Definition AddrString (a : Addr) : string :=
match a with
| InvalidAddr => "invalid IP"
| Addr4 v => string4 v
| Addr6 v zone =>
    if Is4In6 a then "::ffff:" +:+ string4 (Z.land v (Z.ones 32)) +:+
                     (if bool_decide (zone = "") then "" else "%" +:+ zone)
    else string6 v zone
end.

Definition PrefixString (p : Prefix) : string :=
if PrefixIsValid p then AddrString (pfx_addr p) +:+ "/" +:+ FormatInt (pfx_bits p)
else "invalid Prefix".

(** ** Lemmas *)

(** An address in range for its family. *)
Definition wf (a : Addr) : Prop := 0 ≤ value a < 2 ^ BitLen a ∨ a = InvalidAddr.

(** The addresses a prefix denotes: those that agree with it on the first bits. *)
Definition in_prefix (p : Prefix) (a : Addr) : Prop :=
0 ≤ pfx_bits p ∧ Zone a = "" ∧ BitLen (pfx_addr p) = BitLen a ∧ BitLen a ≠ 0 ∧
Z.shiftr (value a) (BitLen a - pfx_bits p) =
Z.shiftr (value (pfx_addr p)) (BitLen a - pfx_bits p).

Lemma shiftr_lxor_0 a b n : Z.shiftr (Z.lxor a b) n = 0 ↔ Z.shiftr a n = Z.shiftr b n.
Proof. rewrite Z.shiftr_lxor. apply Z.lxor_eq_0_iff. Qed.

Lemma Contains_spec p a : Contains p a = true ↔ in_prefix p a.
Proof.
unfold Contains, in_prefix, PrefixIsValid.
destruct (negb (0 <=? pfx_bits p) || bool_decide (Zone a ≠ "")) eqn:E1.
{ split; [done|]. intros (H1 & H2 & _). apply orb_true_iff in E1 as [E|E].
  - bool_to_prop. lia.
  - by apply bool_decide_eq_true in E. }
bool_to_prop.
assert (Zone a = "") as Hz by (destruct (decide (Zone a = "")); naive_solver).
destruct (_ || _ || _) eqn:E2.
{ split; [done|]. intros (_ & _ & H3 & H4 & _). rewrite !orb_true_iff, negb_true_iff in E2.
  destruct E2 as [[E|E]|E]; bool_to_prop; lia. }
bool_to_prop. rewrite Z.eqb_eq, shiftr_lxor_0. naive_solver.
Qed.

Lemma in_prefix_full p a :
pfx_bits p = BitLen (pfx_addr p) → Zone (pfx_addr p) = "" →
in_prefix p a ↔ BitLen a ≠ 0 ∧ a = pfx_addr p.
Proof.
intros Hb Hz. unfold in_prefix. split.
- intros (H1 & H2 & H3 & H4 & H5). rewrite Hb, H3, Z.sub_diag, !Z.shiftr_0_r in H5.
  split; [done|]. destruct a, (pfx_addr p); simpl in *; naive_solver.
- intros [H4 ->]. rewrite Hb. split_and!; try done. destruct (pfx_addr p); simpl; lia.
Qed.

Lemma shiftr_mask width bits v : 0 ≤ bits ≤ width →
Z.shiftr (mask width bits v) (width - bits) = Z.shiftr v (width - bits).
Proof.
intros. unfold mask. rewrite Z.shiftr_shiftl_l by lia. by rewrite Z.sub_diag, Z.shiftl_0_r.
Qed.

Lemma WithZone_empty a : Zone a = "" → WithZone a "" = a.
Proof. destruct a; simpl; congruence. Qed.

End Netip.

(** ** Host and port ([net.SplitHostPort], [net.ParseIP], [net.JoinHostPort]) *)

Fixpoint last_colon (l : list ascii) : option (list ascii * list ascii) :=
  match l with
  | [] => None
  | x :: l =>
      match last_colon l with
      | Some (a, b) => Some (x :: a, b)
      | None => if bool_decide (x = ":"%char) then Some ([], l) else None
      end
  end.

Definition has_char (x : ascii) (l : list ascii) : bool := existsb (λ y, bool_decide (y = x)) l.

(** [net.SplitHostPort]: [None] is an error. *)
Definition SplitHostPort (hostport : string) : option (string * string) :=
  '(before, port) ← last_colon (to_list hostport);
  match before with
  | "["%char :: inner =>
      match reverse inner with
      | "]"%char :: rest =>
          let host := reverse rest in
          if has_char "[" host || has_char "]" host || has_char "[" port || has_char "]" port then None
          else Some (of_list host, of_list port)
      | _ => None
      end
  | _ =>
      if has_char ":" before || has_char "[" before || has_char "]" before || has_char "[" port
         || has_char "]" port then None
      else Some (of_list before, of_list port)
  end.

(** [net.ParseIP]: an address without a zone; [None] is [nil]. *)
Definition ParseIP (s : string) : option Addr :=
  a ← Netip.ParseAddr s; if bool_decide (Netip.Zone a = "") then Some a else None.

(** [net.IP.IsLoopback]: [127.0.0.0/8], also as an IPv4-mapped address, or [::1]. *)
Definition IsLoopback (a : Addr) : bool :=
  match Netip.Unmap a with
  | Addr4 v => Z.shiftr v 24 =? 127
  | Addr6 v _ => v =? 1
  | InvalidAddr => false
  end.

(** [net.JoinHostPort]. *)
Definition JoinHostPort (host port : string) : string :=
  if has_char ":" (to_list host)
  then "[" +:+ host +:+ "]:" +:+ port else host +:+ ":" +:+ port.
