(* ===== verification/SourceIP.v ===== *)
(** * Source-IP policies (engine/source_ip.go)

    [ParseSourceIPPrefix], the compilation of a policy into a matcher with a set
    of exact addresses and a list of prefixes, and the test [allows] every new
    connection and datagram goes through. *)

From S2P Require Import Prelude GoStrings NetIP.
From Stdlib Require Import Ascii.
Import Netip.

Definition SourceIPModeOff : string := "off".
Definition SourceIPModeAllowlist : string := "allowlist".
Definition SourceIPModeDenylist : string := "denylist".
Definition MaxSourceIPsPerRule : nat := 256.

(** One constructor per [fmt.Errorf] of the file; [SrcEntry] is the wrapped
    error of entry [index]. *)
Inductive PrefixError :=
| EmptyEntry
| ZoneUnsupported (value : string)
| NotIPOrCIDR (value : string)
| MappedTooWide (value : string).

Inductive SourceIPError :=
| SrcNeedsMode
| SrcNeedsEntries (mode : string)
| SrcInvalidMode (mode : string)
| SrcTooMany
| SrcEntry (index : nat) (e : PrefixError).

#[export] Instance PrefixError_eq_dec : EqDecision PrefixError.
Proof. solve_decision. Defined.
#[export] Instance SourceIPError_eq_dec : EqDecision SourceIPError.
Proof. solve_decision. Defined.

Record sourceIPMatcher := {
  m_mode : string;
  m_exact : gset Addr;
  m_prefixes : list Prefix;
  m_entries : list Prefix;
}.

Definition ParseSourceIPPrefix (value : string) : result PrefixError Prefix :=
  let value := TrimSpace value in
  if bool_decide (value = "") then Err EmptyEntry else
  match ParseAddr value with
  | Some addr =>
      if bool_decide (Zone addr ≠ "") then Err (ZoneUnsupported value) else
      let addr := Unmap addr in
      Ok (PrefixFrom addr (BitLen addr))
  | None =>
      match ParsePrefix value with
      | None => Err (NotIPOrCIDR value)
      | Some prefix =>
          let addr := pfx_addr prefix in
          if bool_decide (Zone addr ≠ "") then Err (ZoneUnsupported value) else
          let bits := pfx_bits prefix in
          if Is4In6 addr then
            if bits <? 96 then Err (MappedTooWide value)
            else Ok (Masked (PrefixFrom (Unmap addr) (bits - 96)))
          else Ok (Masked (PrefixFrom addr bits))
      end
  end.

Definition normalizeSourceIPMode (mode : string) : string := ToLower (TrimSpace mode).

(** The loop over [values]; [index] is the position of the first one. *)
Fixpoint parse_entries (index : nat) (values : list string) (unique : gset Prefix)
    : result SourceIPError (gset Prefix) :=
  match values with
  | [] => Ok unique
  | value :: values =>
      match ParseSourceIPPrefix value with
      | Err e => Err (SrcEntry index e)
      | Ok prefix => parse_entries (S index) values ({[prefix]} ∪ unique)
      end
  end.

(** [entries[i].String() < entries[j].String()]. *)
Definition prefix_le (p q : Prefix) : Prop := String.le (PrefixString p) (PrefixString q).
#[export] Instance prefix_le_dec : RelDecision prefix_le.
Proof. intros p q. unfold prefix_le. apply _. Defined.

(** A full-length prefix goes into the set of exact addresses. *)
Definition is_exact (p : Prefix) : bool := pfx_bits p =? BitLen (pfx_addr p).

Definition build_matcher (mode : string) (unique : gset Prefix) : sourceIPMatcher :=
  let entries := merge_sort prefix_le (elements unique) in
  {| m_mode := mode;
     m_exact := list_to_set (pfx_addr <$> filter (λ p, is_exact p = true) entries);
     m_prefixes := filter (λ p, is_exact p = false) entries;
     m_entries := entries |}.

(** [Ok None] is the nil matcher of a rule without a policy. *)
Definition compileSourceIPMatcher (mode : string) (values : list string)
    : result SourceIPError (option sourceIPMatcher) :=
  let mode := normalizeSourceIPMode mode in
  if bool_decide (mode = "") || bool_decide (mode = SourceIPModeOff) then
    if bool_decide (values ≠ []) then Err SrcNeedsMode else Ok None
  else if bool_decide (mode = SourceIPModeAllowlist) || bool_decide (mode = SourceIPModeDenylist)
  then
    if bool_decide (values = []) then Err (SrcNeedsEntries mode) else
    if (MaxSourceIPsPerRule <? length values)%nat then Err SrcTooMany else
    unique ← parse_entries 0 values ∅;
    Ok (Some (build_matcher mode unique))
  else Err (SrcInvalidMode mode).

Definition canonical (addr : Addr) : Addr := WithZone (Unmap addr) "".

Definition allows (matcher : option sourceIPMatcher) (addr : Addr) : bool :=
  match matcher with
  | None => true
  | Some m =>
      if negb (IsValid addr) then false else
      let addr := canonical addr in
      let matched := bool_decide (addr ∈ m_exact m)
                     || existsb (λ prefix, Contains prefix addr) (m_prefixes m) in
      if bool_decide (m_mode m = SourceIPModeAllowlist) then matched else negb matched
  end.

(** The peer address of a connection, by its dynamic type. *)
Inductive NetAddr :=
| TCPAddr (addr : Addr)
| UDPAddr (addr : Addr)
| NilAddr
| OtherAddr (text : string).

(** [netip.ParseAddrPort], without the port. *)
Definition ParseAddrPort (s : string) : option Addr :=
  '(ip, port) ← cut_last ":" s;
  if bool_decide (ip = "") || bool_decide (port = "") then None else
  '(ip, ipv6) ← match ip with
                | String "[" rest =>
                    '(inner, tail) ← cut_last "]" rest;
                    if bool_decide (tail = "") then Some (inner, true) else None
                | _ => Some (ip, false)
                end;
  p ← parse_digits port;
  if 65535 <? p then None else
  addr ← ParseAddr ip;
  if Bool.eqb ipv6 (BitLen addr =? 128) then Some addr else None.

Definition sourceIPFromNetAddr (value : NetAddr) : Addr * bool :=
  match value with
  | TCPAddr parsed => (canonical parsed, IsValid parsed)
  | UDPAddr parsed => (canonical parsed, IsValid parsed)
  | NilAddr => (InvalidAddr, false)
  | OtherAddr text =>
      match ParseAddrPort text with
      | None => (InvalidAddr, false)
      | Some addr => (canonical addr, true)
      end
  end.

(** [sourceIPPoliciesEqual] on the two policy fields of a rule. *)
Definition policies_equal (mode1 : string) (ips1 : list string)
    (mode2 : string) (ips2 : list string) : bool :=
  match compileSourceIPMatcher mode1 ips1, compileSourceIPMatcher mode2 ips2 with
  | Ok None, Ok None => true
  | Ok (Some l), Ok (Some r) =>
      bool_decide (m_mode l = m_mode r) && bool_decide (m_entries l = m_entries r)
  | _, _ => false
  end.

(** ** Lemmas *)

(** What a policy entry denotes, without compilation: the addresses of the
    prefix it parses to. *)
Definition entry_matches (value : string) (addr : Addr) : bool :=
  match ParseSourceIPPrefix value with
  | Ok p => Contains p addr
  | Err _ => false
  end.

Lemma canonical_zone a : Zone (canonical a) = "".
Proof. unfold canonical. by destruct (Unmap a). Qed.

Lemma Unmap_valid a : IsValid (Unmap a) = IsValid a.
Proof. destruct a as [| |v z]; [done..|]. unfold Unmap. by destruct (Is4In6 _). Qed.

Lemma Unmap_idemp a : Unmap (Unmap a) = Unmap a.
Proof.
  destruct a as [| |v z]; [done..|]. unfold Unmap at 2 3.
  destruct (Is4In6 (Addr6 v z)) eqn:E; [done|]. unfold Unmap. by rewrite E.
Qed.

Lemma canonical_valid a : IsValid (canonical a) = IsValid a.
Proof. unfold canonical. rewrite <-(Unmap_valid a). by destruct (Unmap a). Qed.

Lemma canonical_Unmap a : canonical (Unmap a) = canonical a.
Proof. unfold canonical. by rewrite Unmap_idemp. Qed.

Lemma PrefixFrom_zone a bits : Zone (pfx_addr (PrefixFrom a bits)) = "".
Proof. unfold PrefixFrom. destruct (_ && _); by destruct a. Qed.

Lemma Masked_zone p : Zone (pfx_addr p) = "" → Zone (pfx_addr (Masked p)) = "".
Proof.
  unfold Masked. destruct (PrefixIsValid p); [|done]. by destruct (pfx_addr p).
Qed.

Lemma ParseSourceIPPrefix_zone value p :
  ParseSourceIPPrefix value = Ok p → Zone (pfx_addr p) = "".
Proof.
  unfold ParseSourceIPPrefix. set (v := TrimSpace value). generalize v; clear v; intros v.
  destruct (bool_decide (v = "")); [done|]. destruct (ParseAddr v) as [a|].
  { destruct (bool_decide _); [done|]. intros [= <-]. apply PrefixFrom_zone. }
  destruct (ParsePrefix v) as [q|]; [|done]. destruct (bool_decide _); [done|].
  destruct (Is4In6 _); [destruct (_ <? _); [done|]|]; intros [= <-];
    apply Masked_zone, PrefixFrom_zone.
Qed.

Lemma parse_entries_spec index values unique u :
  parse_entries index values unique = Ok u →
  ∀ p, p ∈ u ↔ p ∈ unique ∨ ∃ v, v ∈ values ∧ ParseSourceIPPrefix v = Ok p.
Proof.
  revert index unique. induction values as [|v values IH]; intros index unique H p; simpl in H.
  - simplify_eq. split; [by left|]. intros [?|(v & Hv & _)]; [done|]. by apply elem_of_nil in Hv.
  - destruct (ParseSourceIPPrefix v) as [q|e] eqn:E; [|done].
    rewrite (IH _ _ H p), elem_of_union, elem_of_singleton. setoid_rewrite elem_of_cons.
    split.
    + intros [[->|?]|(w & ? & ?)]; eauto 6.
    + intros [?|(w & [->|?] & Hw)]; [by eauto| |by eauto].
      rewrite E in Hw. injection Hw as ->. by eauto.
Qed.

Lemma build_matcher_entries mode unique p :
  p ∈ m_entries (build_matcher mode unique) ↔ p ∈ unique.
Proof. simpl. by rewrite merge_sort_Permutation, elem_of_elements. Qed.

(** The set of exact addresses and the scanned prefixes together decide
    membership in the union of all prefixes. *)
Lemma build_matcher_matched mode unique addr :
  (∀ p, p ∈ unique → Zone (pfx_addr p) = "") → BitLen addr ≠ 0 →
  (bool_decide (addr ∈ m_exact (build_matcher mode unique))
   || existsb (λ prefix, Contains prefix addr) (m_prefixes (build_matcher mode unique))) = true
  ↔ ∃ p, p ∈ unique ∧ Contains p addr = true.
Proof.
  intros Hz Hb. rewrite orb_true_iff, bool_decide_eq_true, existsb_exists. simpl.
  rewrite elem_of_list_to_set, list_elem_of_fmap.
  setoid_rewrite list_elem_of_filter. setoid_rewrite <-list_elem_of_In.
  setoid_rewrite list_elem_of_filter. setoid_rewrite merge_sort_Permutation.
  setoid_rewrite elem_of_elements. split.
  - intros [(p & -> & Hx & Hp)|(p & (Hx & Hp) & Hc)]; [|by eauto].
    exists p. split; [done|]. apply Contains_spec. unfold is_exact in Hx. bool_to_prop.
    apply in_prefix_full; auto.
  - intros (p & Hp & Hc). destruct (is_exact p) eqn:Hx; [left|right; by eauto].
    exists p. apply Contains_spec in Hc. pose proof Hx as Hx'.
    unfold is_exact in Hx. bool_to_prop.
    apply in_prefix_full in Hc as [_ ?]; auto.
Qed.

Lemma compile_Some mode values m :
  compileSourceIPMatcher mode values = Ok (Some m) →
  ∃ u, parse_entries 0 values ∅ = Ok u ∧ m = build_matcher (normalizeSourceIPMode mode) u ∧
       values ≠ [] ∧ (length values ≤ MaxSourceIPsPerRule)%nat ∧
       (normalizeSourceIPMode mode = SourceIPModeAllowlist ∨
        normalizeSourceIPMode mode = SourceIPModeDenylist).
Proof.
  unfold compileSourceIPMatcher. intros H. repeat case_match; simplify_eq.
  apply bind_Ok in H as (u & Hu & [= <-]). exists u. bool_to_prop.
  split_and!; try done.
  - by apply Nat.ltb_ge.
  - match goal with H : _ || _ = true |- _ => apply orb_true_iff in H as [?|?] end;
      bool_to_prop; auto.
Qed.

Lemma matched_spec mode values m addr :
  compileSourceIPMatcher mode values = Ok (Some m) → BitLen addr ≠ 0 →
  (bool_decide (addr ∈ m_exact m) || existsb (λ prefix, Contains prefix addr) (m_prefixes m))
  = existsb (λ v, entry_matches v addr) values.
Proof.
  intros (u & Hu & -> & _)%compile_Some Hb.
  pose proof (parse_entries_spec _ _ _ _ Hu) as Hel.
  apply eq_true_iff_eq. rewrite build_matcher_matched; [|intros p Hp|done].
  - rewrite existsb_exists. setoid_rewrite <-list_elem_of_In. setoid_rewrite Hel.
    unfold entry_matches. split.
    + intros (p & [?|(v & Hv & Hp)] & Hc); [set_solver|]. exists v. by rewrite Hp.
    + intros (v & Hv & Hc). destruct (ParseSourceIPPrefix v) as [p|] eqn:E; [|done]. eauto 10.
  - apply Hel in Hp as [?|(v & _ & Hv)]; [set_solver|]. by eapply ParseSourceIPPrefix_zone.
Qed.

Lemma allows_matched mode values m addr :
  compileSourceIPMatcher mode values = Ok (Some m) → IsValid addr = true →
  allows (Some m) addr =
    (if bool_decide (m_mode m = SourceIPModeAllowlist)
     then existsb (λ v, entry_matches v (canonical addr)) values
     else negb (existsb (λ v, entry_matches v (canonical addr)) values)).
Proof.
  intros Hm Hv. unfold allows. rewrite Hv. simpl.
  rewrite (matched_spec _ _ _ _ Hm); [done|].
  pose proof (canonical_valid addr) as H. rewrite Hv in H.
  by destruct (canonical addr).
Qed.

(** Equal sets of prefixes compile to the same matcher. *)
Lemma policies_equal_refl mode ips m :
  compileSourceIPMatcher mode ips = Ok m → policies_equal mode ips mode ips = true.
Proof.
  intros H. unfold policies_equal. rewrite H. destruct m; [|done].
  by rewrite !bool_decide_eq_true_2.
Qed.
