(* ===== verification/Limits.v ===== *)
(** * Manager-wide resource limits (engine/limits.go)

    The budget of UDP sessions shared by all rules of a manager.  Every method
    of the code runs under the budget's mutex, so each is one atomic step. *)

From S2P Require Import Prelude.

Definition DefaultUDPGlobalMaxSessions : Z := 256.
Definition MaxUDPGlobalMaxSessions : Z := 4096.
(** engine/udp.go *)
Definition DefaultUDPRuleMaxSessions : Z := DefaultUDPGlobalMaxSessions.

Record udpSessionBudget := { b_limit : Z; b_active : Z }.

#[export] Instance udpSessionBudget_eq_dec : EqDecision udpSessionBudget.
Proof. solve_decision. Defined.

Definition normalizeUDPGlobalMaxSessions (limit : Z) : Z :=
  if limit <=? 0 then DefaultUDPGlobalMaxSessions
  else if MaxUDPGlobalMaxSessions <? limit then MaxUDPGlobalMaxSessions
  else limit.

Definition newUDPSessionBudget (limit : Z) : udpSessionBudget :=
  {| b_limit := normalizeUDPGlobalMaxSessions limit; b_active := 0 |}.

Definition tryAcquire (b : udpSessionBudget) : bool * udpSessionBudget :=
  if b_limit b <=? b_active b then (false, b)
  else (true, {| b_limit := b_limit b; b_active := b_active b + 1 |}).

Definition release (b : udpSessionBudget) : udpSessionBudget :=
  if 0 <? b_active b then {| b_limit := b_limit b; b_active := b_active b - 1 |} else b.

Definition setLimit (limit : Z) (b : udpSessionBudget) : udpSessionBudget :=
  {| b_limit := normalizeUDPGlobalMaxSessions limit; b_active := b_active b |}.

Definition budget_snapshot (b : udpSessionBudget) : Z * Z := (b_limit b, b_active b).

(** ** Invariant *)

(** The limit is in the supported range and the count is not negative.  The
    count may exceed a limit that was lowered while sessions were open. *)
Definition budget_wf (b : udpSessionBudget) : Prop :=
  1 ≤ b_limit b ≤ MaxUDPGlobalMaxSessions ∧ 0 ≤ b_active b ≤ MaxUDPGlobalMaxSessions.

Lemma normalize_range limit : 1 ≤ normalizeUDPGlobalMaxSessions limit ≤ MaxUDPGlobalMaxSessions.
Proof.
  unfold normalizeUDPGlobalMaxSessions, MaxUDPGlobalMaxSessions, DefaultUDPGlobalMaxSessions.
  repeat case_match; bool_to_prop; lia.
Qed.

Lemma new_wf limit : budget_wf (newUDPSessionBudget limit).
Proof. split; simpl; [apply normalize_range|unfold MaxUDPGlobalMaxSessions; lia]. Qed.

Lemma tryAcquire_wf b : budget_wf b → budget_wf (tryAcquire b).2.
Proof. unfold tryAcquire, budget_wf. intros ?. case_match; bool_to_prop; simpl; lia. Qed.

Lemma release_wf b : budget_wf b → budget_wf (release b).
Proof. unfold release, budget_wf. intros ?. case_match; bool_to_prop; simpl; lia. Qed.

Lemma setLimit_wf limit b : budget_wf b → budget_wf (setLimit limit b).
Proof. intros [_ ?]. split; simpl; [apply normalize_range|done]. Qed.

Lemma tryAcquire_true b b' : tryAcquire b = (true, b') →
  b_active b < b_limit b ∧ b_limit b' = b_limit b ∧ b_active b' = b_active b + 1.
Proof. unfold tryAcquire. case_match; intros [= <-]; bool_to_prop; simpl; lia. Qed.

Lemma tryAcquire_false b b' : tryAcquire b = (false, b') → b' = b ∧ b_limit b ≤ b_active b.
Proof. unfold tryAcquire. case_match; intros [= <-]; bool_to_prop; simpl; done. Qed.

#[export] Hint Resolve new_wf tryAcquire_wf release_wf setLimit_wf : vmflow.
