(* ===== verification/Rule.v ===== *)
(** * Rules (engine/rule.go)

    The rule record, its normalization ([Standardize]), its validation and the
    comparison [RuntimeEqual] the managers use to decide whether a running rule
    must be restarted.  A pointer to a policy struct is an [option]; the code
    copies these structs, so no aliasing is lost. *)

From S2P Require Import Prelude GoStrings Calendar NetIP SourceIP Limits.

Notation Protocol := string (only parsing).
Definition ProtocolTCP : Protocol := "tcp".
Definition ProtocolUDP : Protocol := "udp".
Definition ProtocolTCPUDP : Protocol := "tcp+udp".
Definition ProtocolHTTP : Protocol := "http".
Definition ProtocolHTTPS : Protocol := "https".

Record BandwidthLimit := { bw_rate : Z; bw_upload : Z; bw_download : Z }.

Record TrafficQuota := {
  q_daily : Z; q_monthly : Z; q_timezone : string; q_action : string
}.

Record Rule := {
  RuleID : string;
  Name : string;
  Proto : Protocol;
  ListenAddr : string;
  ListenPort : Z;
  TargetAddr : string;
  TargetPort : Z;
  Enabled : bool;
  SpeedLimit : Z;
  Bandwidth : option BandwidthLimit;
  Quota : option TrafficQuota;
  MaxConn : Z;
  IdleTimeout : Z;
  SourceIPMode : string;
  SourceIPs : list string;
  Domains : list string;
  Remark : string;
  Revision : Z;
  CreatedTime : Z;
  UpdatedTime : Z;
}.

#[export] Instance BandwidthLimit_eq_dec : EqDecision BandwidthLimit.
Proof. solve_decision. Defined.
#[export] Instance TrafficQuota_eq_dec : EqDecision TrafficQuota.
Proof. solve_decision. Defined.
#[export] Instance Rule_eq_dec : EqDecision Rule.
Proof. solve_decision. Defined.

Definition UploadBytesPerSecond (limit : BandwidthLimit) : Z :=
  if 0 <? bw_upload limit then bw_upload limit else bw_rate limit.
Definition DownloadBytesPerSecond (limit : BandwidthLimit) : Z :=
  if 0 <? bw_download limit then bw_download limit else bw_rate limit.

(** ** Normalization *)

Definition standardizeProtocol (value : Protocol) : Protocol :=
  let lowered := ToLower (TrimSpace value) in
  if bool_decide (lowered = "tcp") then ProtocolTCP
  else if bool_decide (lowered = "udp") then ProtocolUDP
  else if bool_decide (lowered = "tcp+udp") then ProtocolTCPUDP
  else lowered.

Definition standardize_quota (value : TrafficQuota) : TrafficQuota :=
  let timezone := TrimSpace (q_timezone value) in
  let timezone := if bool_decide (timezone = "") then "UTC" else timezone in
  let action := ToLower (TrimSpace (q_action value)) in
  let action := if bool_decide (action = "") then "block" else action in
  {| q_daily := q_daily value; q_monthly := q_monthly value;
     q_timezone := timezone; q_action := action |}.

Definition Standardize (rule : Rule) : Rule := {|
  RuleID := TrimSpace (RuleID rule);
  Name := TrimSpace (Name rule);
  Proto := standardizeProtocol (Proto rule);
  ListenAddr := TrimSpace (ListenAddr rule);
  ListenPort := ListenPort rule;
  TargetAddr := TrimSpace (TargetAddr rule);
  TargetPort := TargetPort rule;
  Enabled := Enabled rule;
  SpeedLimit := SpeedLimit rule;
  Bandwidth := Bandwidth rule;
  Quota := standardize_quota <$> Quota rule;
  MaxConn := MaxConn rule;
  IdleTimeout := IdleTimeout rule;
  SourceIPMode := normalizeSourceIPMode (SourceIPMode rule);
  SourceIPs := TrimSpace <$> SourceIPs rule;
  Domains := Domains rule;
  Remark := TrimSpace (Remark rule);
  Revision := Revision rule;
  CreatedTime := CreatedTime rule;
  UpdatedTime := UpdatedTime rule;
|}.

(** ** Validation *)

(** One constructor per [fmt.Errorf] of [Validate]. *)
Inductive RuleError :=
| MissingRuleID | MissingRuleName | ListenPortOutOfRange
| ProtocolDisabled (p : Protocol) | MissingTargetAddr | TargetPortOutOfRange
| HTTPSNeedsDomain | InvalidProtocol (p : Protocol) | NegativeSpeedLimit
| NegativeBandwidth | RateCombined | EmptyBandwidth
| NegativeQuota | EmptyQuota | QuotaAction | BadTimezone (tz : string)
| NegativeMaxConn | NegativeIdleTimeout | SourceIPPolicy (e : SourceIPError).

#[export] Instance RuleError_eq_dec : EqDecision RuleError.
Proof. solve_decision. Defined.

Definition port_out_of_range (port : Z) : bool := (port <=? 0) || (65535 <? port).

Definition validate_bandwidth (limit : BandwidthLimit) : result RuleError () :=
  check ((bw_rate limit <? 0) || (bw_upload limit <? 0) || (bw_download limit <? 0))
    NegativeBandwidth ≫= λ _,
  check ((0 <? bw_rate limit) && ((0 <? bw_upload limit) || (0 <? bw_download limit)))
    RateCombined ≫= λ _,
  check ((bw_rate limit =? 0) && (bw_upload limit =? 0) && (bw_download limit =? 0))
    EmptyBandwidth.

Section validate.
Context `{!TzDatabase}.

Definition validate_quota (quota : TrafficQuota) : result RuleError () :=
  check ((q_daily quota <? 0) || (q_monthly quota <? 0)) NegativeQuota ≫= λ _,
  check ((q_daily quota =? 0) && (q_monthly quota =? 0)) EmptyQuota ≫= λ _,
  check (bool_decide (q_action quota ≠ "block")) QuotaAction ≫= λ _,
  check (bool_decide (LoadLocation (q_timezone quota) = None)) (BadTimezone (q_timezone quota)).

(** The checks on an already standardized rule, in the order of the code. *)
Definition validate_standardized (rule : Rule) : result RuleError () :=
  check (bool_decide (RuleID rule = "")) MissingRuleID ≫= λ _,
  check (bool_decide (Name rule = "")) MissingRuleName ≫= λ _,
  check (port_out_of_range (ListenPort rule)) ListenPortOutOfRange ≫= λ _,
  check (bool_decide (Proto rule = ProtocolHTTP) || bool_decide (Proto rule = ProtocolHTTPS))
    (ProtocolDisabled (Proto rule)) ≫= λ _,
  (if negb (bool_decide (Proto rule = ProtocolHTTP)) then
     check (bool_decide (TargetAddr rule = "")) MissingTargetAddr ≫= λ _,
     check (port_out_of_range (TargetPort rule)) TargetPortOutOfRange
   else Ok ()) ≫= λ _,
  check (bool_decide (Proto rule = ProtocolHTTPS) && bool_decide (Domains rule = []))
    HTTPSNeedsDomain ≫= λ _,
  check (negb (bool_decide (Proto rule = ProtocolTCP)) && negb (bool_decide (Proto rule = ProtocolUDP))
         && negb (bool_decide (Proto rule = ProtocolTCPUDP))
         && negb (bool_decide (Proto rule = ProtocolHTTP))
         && negb (bool_decide (Proto rule = ProtocolHTTPS)))
    (InvalidProtocol (Proto rule)) ≫= λ _,
  check (SpeedLimit rule <? 0) NegativeSpeedLimit ≫= λ _,
  (match Bandwidth rule with Some limit => validate_bandwidth limit | None => Ok () end) ≫= λ _,
  (match Quota rule with Some quota => validate_quota quota | None => Ok () end) ≫= λ _,
  check (MaxConn rule <? 0) NegativeMaxConn ≫= λ _,
  check (IdleTimeout rule <? 0) NegativeIdleTimeout ≫= λ _,
  match compileSourceIPMatcher (SourceIPMode rule) (SourceIPs rule) with
  | Err e => Err (SourceIPPolicy e)
  | Ok _ => Ok ()
  end.

Definition Validate (rule : Rule) : result RuleError () :=
  validate_standardized (Standardize rule).
End validate.

(** ** Runtime comparison *)

Definition canonicalListenAddr (value : string) : string :=
  let normalized := TrimSpace (ToLower value) in
  if bool_decide (normalized = "") || bool_decide (normalized = "0.0.0.0")
     || bool_decide (normalized = "::") then "" else normalized.

Definition bandwidthLimitsEqual (left right : option BandwidthLimit) : bool :=
  bool_decide (left = right).
Definition trafficQuotasEqual (left right : option TrafficQuota) : bool :=
  bool_decide (left = right).

Definition runtimeMaxConn (rule : Rule) : Z :=
  if bool_decide (Proto rule = ProtocolUDP) && (MaxConn rule =? 0)
  then DefaultUDPRuleMaxSessions else MaxConn rule.

Definition sourceIPPoliciesEqual (left right : Rule) : bool :=
  policies_equal (SourceIPMode left) (SourceIPs left) (SourceIPMode right) (SourceIPs right).

Definition RuntimeEqual (rule other : Rule) : bool :=
  let left := Standardize rule in
  let right := Standardize other in
  bool_decide (Proto left = Proto right) &&
  bool_decide (canonicalListenAddr (ListenAddr left) = canonicalListenAddr (ListenAddr right)) &&
  (ListenPort left =? ListenPort right) &&
  EqualFold (TargetAddr left) (TargetAddr right) &&
  (TargetPort left =? TargetPort right) &&
  Bool.eqb (Enabled left) (Enabled right) &&
  (SpeedLimit left =? SpeedLimit right) &&
  bandwidthLimitsEqual (Bandwidth left) (Bandwidth right) &&
  trafficQuotasEqual (Quota left) (Quota right) &&
  (runtimeMaxConn left =? runtimeMaxConn right) &&
  (IdleTimeout left =? IdleTimeout right) &&
  sourceIPPoliciesEqual left right.

(** ** Apply results *)

Inductive ApplyAction :=
| ActionStarted | ActionRestarted | ActionStopped | ActionRemoved | ActionUnchanged | ActionFailed.

#[export] Instance ApplyAction_eq_dec : EqDecision ApplyAction.
Proof. solve_decision. Defined.

(** ** Lemmas *)

Lemma standardizeProtocol_lower value :
  standardizeProtocol value = ToLower (TrimSpace value).
Proof.
  unfold standardizeProtocol, ProtocolTCP, ProtocolUDP, ProtocolTCPUDP.
  repeat case_bool_decide; congruence.
Qed.

Lemma standardizeProtocol_idemp value :
  standardizeProtocol (standardizeProtocol value) = standardizeProtocol value.
Proof. rewrite !standardizeProtocol_lower. by autorewrite with vmflow. Qed.

Lemma standardize_quota_idemp q : standardize_quota (standardize_quota q) = standardize_quota q.
Proof.
  unfold standardize_quota. simpl. f_equal.
  - destruct (bool_decide (TrimSpace (q_timezone q) = "")) eqn:E; [by vm_compute|].
    by rewrite TrimSpace_idemp, E.
  - destruct (bool_decide (ToLower (TrimSpace (q_action q)) = "")) eqn:E; [by vm_compute|].
    by rewrite TrimSpace_ToLower_TrimSpace, ToLower_idemp, E.
Qed.

Lemma normalizeSourceIPMode_idemp mode :
  normalizeSourceIPMode (normalizeSourceIPMode mode) = normalizeSourceIPMode mode.
Proof. unfold normalizeSourceIPMode. by autorewrite with vmflow. Qed.

Lemma map_TrimSpace_idemp (l : list string) : TrimSpace <$> (TrimSpace <$> l) = TrimSpace <$> l.
Proof.
  rewrite <-list_fmap_compose. apply list_fmap_ext. intros ? x _. apply TrimSpace_idemp.
Qed.

Lemma Standardize_Standardize rule : Standardize (Standardize rule) = Standardize rule.
Proof.
  unfold Standardize. simpl.
  rewrite !TrimSpace_idemp, standardizeProtocol_idemp, normalizeSourceIPMode_idemp, map_TrimSpace_idemp.
  f_equal. destruct (Quota rule); simpl; [|done]. by rewrite standardize_quota_idemp.
Qed.

Lemma Validate_Standardize `{!TzDatabase} rule : Validate (Standardize rule) = Validate rule.
Proof. unfold Validate. by rewrite Standardize_Standardize. Qed.

#[export] Hint Rewrite Standardize_Standardize @Validate_Standardize : vmflow.

(** A rule in standard form. *)
Definition standard (rule : Rule) : Prop := Standardize rule = rule.

Lemma Standardize_standard rule : standard (Standardize rule).
Proof. apply Standardize_Standardize. Qed.

(** Well-formedness, stated on the fields of a standardized rule. *)
Record rule_wf `{!TzDatabase} (r : Rule) : Prop := {
  wf_id : RuleID r ≠ "";
  wf_name : Name r ≠ "";
  wf_listen : 1 ≤ ListenPort r ≤ 65535;
  wf_target : TargetAddr r ≠ "" ∧ 1 ≤ TargetPort r ≤ 65535;
  wf_proto : Proto r = ProtocolTCP ∨ Proto r = ProtocolUDP ∨ Proto r = ProtocolTCPUDP;
  wf_speed : 0 ≤ SpeedLimit r;
  wf_bandwidth : ∀ b, Bandwidth r = Some b →
    (0 < bw_rate b ∧ bw_upload b = 0 ∧ bw_download b = 0) ∨
    (bw_rate b = 0 ∧ 0 ≤ bw_upload b ∧ 0 ≤ bw_download b ∧ 0 < bw_upload b + bw_download b);
  wf_quota : ∀ q, Quota r = Some q →
    0 ≤ q_daily q ∧ 0 ≤ q_monthly q ∧ 0 < q_daily q + q_monthly q ∧ q_action q = "block" ∧
    is_Some (LoadLocation (q_timezone q));
  wf_max_conn : 0 ≤ MaxConn r;
  wf_idle : 0 ≤ IdleTimeout r;
  wf_source : is_ok (compileSourceIPMatcher (SourceIPMode r) (SourceIPs r)) = true;
}.

Lemma validate_bandwidth_iff b u : validate_bandwidth b = Ok u ↔
  (0 < bw_rate b ∧ bw_upload b = 0 ∧ bw_download b = 0) ∨
  (bw_rate b = 0 ∧ 0 ≤ bw_upload b ∧ 0 ≤ bw_download b ∧ 0 < bw_upload b + bw_download b).
Proof. unfold validate_bandwidth. rewrite !guard_Ok, check_Ok. lia. Qed.

Lemma port_in_range p : port_out_of_range p = false ↔ 1 ≤ p ≤ 65535.
Proof. unfold port_out_of_range. rewrite orb_false_iff, Z.leb_gt, Z.ltb_ge. lia. Qed.

Section validate_spec.
Context `{!TzDatabase}.

Lemma validate_quota_iff q u : validate_quota q = Ok u ↔
  0 ≤ q_daily q ∧ 0 ≤ q_monthly q ∧ 0 < q_daily q + q_monthly q ∧ q_action q = "block" ∧
  is_Some (LoadLocation (q_timezone q)).
Proof.
  unfold validate_quota. rewrite !guard_Ok, check_Ok, <-not_eq_None_Some, !bool_decide_eq_false.
  assert (¬ q_action q ≠ "block" ↔ q_action q = "block") as ->.
  { destruct (decide (q_action q = "block")); naive_solver. }
  assert ((q_daily q <? 0) || (q_monthly q <? 0) = false ∧
          (q_daily q =? 0) && (q_monthly q =? 0) = false ↔
          0 ≤ q_daily q ∧ 0 ≤ q_monthly q ∧ 0 < q_daily q + q_monthly q) by lia.
  tauto.
Qed.

Lemma protocol_check r :
  bool_decide (Proto r = ProtocolHTTP) || bool_decide (Proto r = ProtocolHTTPS) = false →
  negb (bool_decide (Proto r = ProtocolTCP)) && negb (bool_decide (Proto r = ProtocolUDP))
    && negb (bool_decide (Proto r = ProtocolTCPUDP)) && negb (bool_decide (Proto r = ProtocolHTTP))
    && negb (bool_decide (Proto r = ProtocolHTTPS)) = false ↔
  Proto r = ProtocolTCP ∨ Proto r = ProtocolUDP ∨ Proto r = ProtocolTCPUDP.
Proof. repeat case_bool_decide; simpl; naive_solver. Qed.

Lemma supported_not_http r :
  Proto r = ProtocolTCP ∨ Proto r = ProtocolUDP ∨ Proto r = ProtocolTCPUDP →
  bool_decide (Proto r = ProtocolHTTP) = false ∧ bool_decide (Proto r = ProtocolHTTPS) = false.
Proof. by intros [->|[->| ->]]. Qed.

Lemma validate_standardized_iff r : is_ok (validate_standardized r) = true ↔ rule_wf r.
Proof.
  rewrite is_ok_iff. unfold validate_standardized. split.
  - intros [u HA]. rewrite !guard_Ok in HA.
    destruct HA as (Hid & Hname & Hlp & Hp & HB). apply bind_Ok in HB as (u1 & Ht & HC).
    rewrite !guard_Ok in HC. destruct HC as (Hd & Hip & Hs & HD).
    apply bind_Ok in HD as (u2 & Hb & HE). apply bind_Ok in HE as (u3 & Hq & HF).
    rewrite !guard_Ok in HF. destruct HF as (Hm & Hi & Hsrc).
    apply (protocol_check r Hp) in Hip.
    pose proof (supported_not_http r Hip) as [Hh _]. rewrite Hh in Ht. simpl in Ht.
    rewrite guard_Ok, check_Ok in Ht. destruct Ht as [Hta Htp]. clear Hd Hp Hh.
    apply bool_decide_eq_false in Hid, Hname, Hta. apply Z.ltb_ge in Hs, Hm, Hi.
    apply port_in_range in Hlp, Htp. split; try done.
    + intros b E. rewrite E in Hb. by apply validate_bandwidth_iff in Hb.
    + intros q E. rewrite E in Hq. by apply validate_quota_iff in Hq.
    + by destruct (compileSourceIPMatcher _ _).
  - intros []. exists (). rewrite !guard_Ok, !bool_decide_eq_false.
    pose proof (supported_not_http r wf_proto0) as [Hh Hhs].
    assert (Hip := proj2 (protocol_check r ltac:(by rewrite Hh, Hhs)) wf_proto0).
    split_and!; [done|done|by apply port_in_range|by rewrite Hh, Hhs|].
    rewrite Hh in *. apply bind_Ok. exists (). rewrite !guard_Ok. split.
    { simpl. destruct wf_target0. rewrite guard_Ok, check_Ok, bool_decide_eq_false.
      split; [done|]. by apply port_in_range. }
    split_and!; [by rewrite Hhs|done|by apply Z.ltb_ge|].
    apply bind_Ok. exists (). split.
    { destruct (Bandwidth r) as [b|] eqn:E; [|done]. by apply validate_bandwidth_iff, wf_bandwidth0. }
    apply bind_Ok. exists (). split.
    { destruct (Quota r) as [q|] eqn:E; [|done]. by apply validate_quota_iff, wf_quota0. }
    rewrite !guard_Ok. split_and!; [by apply Z.ltb_ge|by apply Z.ltb_ge|].
    by destruct (compileSourceIPMatcher _ _).
Qed.

Lemma Validate_wf r : is_ok (Validate r) = true ↔ rule_wf (Standardize r).
Proof. apply validate_standardized_iff. Qed.
End validate_spec.
