(* ===== verification/Config.v ===== *)
(** * Configuration files (config/config.go)

    The document [File], the pass of [Parse] that normalizes and validates it,
    and the collection of unknown keys.  The YAML library is the parameter
    [YamlLib]: the text to a tree of nodes, and a node to the fields of [File].
    The language codes are those of internal/i18n/detect.go. *)

From S2P Require Import Prelude GoStrings Duration Calendar NetIP SourceIP Limits Rule.

(** ** The document *)

Definition DefaultControlHost : string := "127.0.0.1".
Definition DefaultControlPort : Z := 19090.
Definition DefaultLogLevel : string := "info".
Definition DefaultLogFormat : string := "text".
Definition AuthRoleAdmin : string := "admin".
Definition AuthRoleViewer : string := "viewer".

Record AuthToken := { at_Name : string; at_Token : string; at_Role : string }.
Record AuthConfig := { ac_Enabled : bool; ac_Tokens : list AuthToken }.
Record StatsConfig := { sc_Persist : bool; sc_Path : string; sc_FlushInterval : string }.
Record CertReviewConfig := { cr_WarningDays : Z; cr_CriticalDays : Z; cr_MinRSABits : Z }.
Record DNS01Config := {
  dc_Provider : string; dc_PropagationTimeout : string; dc_PollingInterval : string;
  dc_CloudflareAPIToken : string; dc_Nameserver : string; dc_TSIGAlgorithm : string;
  dc_TSIGKey : string; dc_TSIGSecret : string; dc_ExecPath : string
}.
Record ControlTLSConfig := {
  tls_CertFile : string; tls_KeyFile : string; tls_ClientCAFile : string; tls_MinVersion : string
}.
Record LogConfig := { log_Level : string; log_Format : string }.

Record File := {
  cf_Version : Z;
  cf_Language : string;
  cf_InvalidLanguage : string;
  cf_ControlPort : Z;
  cf_DeprecatedControlListenAddr : string;
  cf_UsedDeprecatedControlListenAddr : bool;
  cf_UDPMaxSessions : Z;
  cf_ControlTLS : ControlTLSConfig;
  cf_Log : LogConfig;
  cf_Auth : AuthConfig;
  cf_BotToken : string;
  cf_BotChat : Z;
  cf_BotControlToken : string;
  cf_AcmeChallenge : string;
  cf_AcmeHTTP01Addr : string;
  cf_AcmeCacheDir : string;
  cf_AcmeDNS01 : DNS01Config;
  cf_CertCacheDir : string;
  cf_CertReview : CertReviewConfig;
  cf_Stats : StatsConfig;
  cf_Rules : list Rule;
  cf_UnknownFields : list string;
}.

#[export] Instance AuthToken_eq_dec : EqDecision AuthToken.
Proof. solve_decision. Defined.
#[export] Instance AuthConfig_eq_dec : EqDecision AuthConfig.
Proof. solve_decision. Defined.
#[export] Instance StatsConfig_eq_dec : EqDecision StatsConfig.
Proof. solve_decision. Defined.
#[export] Instance CertReviewConfig_eq_dec : EqDecision CertReviewConfig.
Proof. solve_decision. Defined.
#[export] Instance DNS01Config_eq_dec : EqDecision DNS01Config.
Proof. solve_decision. Defined.
#[export] Instance ControlTLSConfig_eq_dec : EqDecision ControlTLSConfig.
Proof. solve_decision. Defined.
#[export] Instance LogConfig_eq_dec : EqDecision LogConfig.
Proof. solve_decision. Defined.

(** The zero value of [File]. *)
Definition zero_dns01 : DNS01Config := {|
  dc_Provider := ""; dc_PropagationTimeout := ""; dc_PollingInterval := ""; dc_CloudflareAPIToken := "";
  dc_Nameserver := ""; dc_TSIGAlgorithm := ""; dc_TSIGKey := ""; dc_TSIGSecret := ""; dc_ExecPath := "" |}.
Definition zero_file : File := {|
  cf_Version := 0; cf_Language := ""; cf_InvalidLanguage := ""; cf_ControlPort := 0;
  cf_DeprecatedControlListenAddr := ""; cf_UsedDeprecatedControlListenAddr := false; cf_UDPMaxSessions := 0;
  cf_ControlTLS := {| tls_CertFile := ""; tls_KeyFile := ""; tls_ClientCAFile := ""; tls_MinVersion := "" |};
  cf_Log := {| log_Level := ""; log_Format := "" |};
  cf_Auth := {| ac_Enabled := false; ac_Tokens := [] |};
  cf_BotToken := ""; cf_BotChat := 0; cf_BotControlToken := ""; cf_AcmeChallenge := ""; cf_AcmeHTTP01Addr := "";
  cf_AcmeCacheDir := ""; cf_AcmeDNS01 := zero_dns01; cf_CertCacheDir := "";
  cf_CertReview := {| cr_WarningDays := 0; cr_CriticalDays := 0; cr_MinRSABits := 0 |};
  cf_Stats := {| sc_Persist := false; sc_Path := ""; sc_FlushInterval := "" |};
  cf_Rules := []; cf_UnknownFields := [] |}.

Definition ControlListenAddress (f : File) : string :=
  JoinHostPort DefaultControlHost (FormatInt (cf_ControlPort f)).

(** One constructor per error of [Load] and [Parse]. *)
Inductive ConfigError :=
| MissingConfigPath | ReadFailed (e : string)
| EmptyConfig | YamlFailed (e : string) | UnsupportedVersion (version : Z)
| BothControlAddresses | BadControlListenAddr (addr : string) | NonLoopbackControlAddr
| BadDeprecatedPort | ControlPortOutOfRange | UDPMaxSessionsOutOfRange
| BadFlushInterval | TLSPairIncomplete | ClientCANeedsPair | BadMinVersion (version : string)
| TokenRole (index : nat) (role : string) | TokenMissing (index : nat) | TokenDuplicate (index : nat)
| NoTokens | RuleInvalid (index : nat) (e : RuleError) | DuplicateRule (id : string).

(** ** Languages (internal/i18n/detect.go) *)

Definition English : string := "en".
Definition SimplifiedChinese : string := "zh-CN".
Definition supportedLocales : list string := [English; SimplifiedChinese].

Definition one_of (value : string) (l : list string) : bool := existsb (λ x, bool_decide (value = x)) l.
Arguments one_of : simpl never.

Definition replace_char (old new : ascii) (s : string) : string :=
  of_list ((λ c, if bool_decide (c = old) then new else c) <$> to_list s).

(** [Match] of internal/i18n; [None] is the unsupported locale. *)
Definition MatchLocale (value : string) : option string :=
  let value := TrimSpace value in
  if bool_decide (value = "") then None
  else
    let value := (Netip.cut "@" value).1 in
    let value := (Netip.cut "." value).1 in
    let value := ToLower (replace_char "_" "-" (TrimSpace value)) in
    if one_of value ["en"; "en-us"; "en-gb"; "en-au"; "en-ca"] then Some English
    else if one_of value ["zh"; "zh-cn"; "zh-hans"; "zh-sg"] then Some SimplifiedChinese
    else None.

Definition locale_or_english (value : string) : string := default English (MatchLocale value).

Definition Detect (explicit configured : string) (lookupEnv : string → string) : string :=
  if bool_decide (TrimSpace explicit ≠ "") then locale_or_english explicit
  else
    let value := TrimSpace (lookupEnv "VMFLOW_LANG") in
    if bool_decide (value ≠ "") then locale_or_english value
    else if bool_decide (TrimSpace configured ≠ "") then locale_or_english configured
    else English.

(** ** Normalization *)

(** The language and the invalid value it replaces. *)
Definition normalizeLanguage (value : string) : string * string :=
  let value := TrimSpace value in
  if bool_decide (value = "") then (English, "")
  else match MatchLocale value with
  | Some matched => (matched, "")
  | None => (English, value)
  end.

Definition isLoopbackHost (host : string) : bool :=
  let host := TrimSpace host in
  if EqualFold host "localhost" then true
  else match ParseIP host with Some ip => IsLoopback ip | None => false end.

(** The fields [ControlPort], [DeprecatedControlListenAddr] and
    [UsedDeprecatedControlListenAddr] after the pass. *)
Definition normalizeControlPort (cfg : File) : result ConfigError (Z * string * bool) :=
  let legacyAddr := TrimSpace (cf_DeprecatedControlListenAddr cfg) in
  '(port, legacy, used) ←
    (if bool_decide (legacyAddr = "") then
       Ok (cf_ControlPort cfg, cf_DeprecatedControlListenAddr cfg, cf_UsedDeprecatedControlListenAddr cfg)
     else
       check (negb (cf_ControlPort cfg =? 0)) BothControlAddresses ≫= λ _,
       match SplitHostPort legacyAddr with
       | None => Err (BadControlListenAddr legacyAddr)
       | Some (host, portText) =>
           check (negb (isLoopbackHost host)) NonLoopbackControlAddr ≫= λ _,
           match ParseInt portText with
           | None => Err BadDeprecatedPort
           | Some port =>
               check ((port <? 1) || (65535 <? port)) BadDeprecatedPort ≫= λ _, Ok (port, "", true)
           end
       end);
  let port := if port =? 0 then DefaultControlPort else port in
  check ((port <? 1) || (65535 <? port)) ControlPortOutOfRange ≫= λ _, Ok (port, legacy, used).

Definition normalizeStats (stats : StatsConfig) : result ConfigError StatsConfig :=
  let stats := {| sc_Persist := sc_Persist stats; sc_Path := TrimSpace (sc_Path stats);
                  sc_FlushInterval := TrimSpace (sc_FlushInterval stats) |} in
  if bool_decide (sc_FlushInterval stats = "") then Ok stats
  else match ParseDuration (sc_FlushInterval stats) with
  | None => Err BadFlushInterval
  | Some interval => check (interval <? second) BadFlushInterval ≫= λ _, Ok stats
  end.

Definition normalizeControlTLS (t : ControlTLSConfig) : ControlTLSConfig := {|
  tls_CertFile := TrimSpace (tls_CertFile t); tls_KeyFile := TrimSpace (tls_KeyFile t);
  tls_ClientCAFile := TrimSpace (tls_ClientCAFile t); tls_MinVersion := TrimSpace (tls_MinVersion t) |}.

Definition validateControlTLS (t : ControlTLSConfig) : result ConfigError () :=
  check (negb (Bool.eqb (bool_decide (tls_CertFile t = "")) (bool_decide (tls_KeyFile t = ""))))
    TLSPairIncomplete ≫= λ _,
  check (bool_decide (tls_ClientCAFile t ≠ "")
         && (bool_decide (tls_CertFile t = "") || bool_decide (tls_KeyFile t = "")))
    ClientCANeedsPair ≫= λ _,
  check (negb (one_of (tls_MinVersion t) [""; "1.2"; "1.3"])) (BadMinVersion (tls_MinVersion t)).

Definition or_default (fallback value : string) : string := if bool_decide (value = "") then fallback else value.

Definition normalizeLog (logCfg : LogConfig) : LogConfig := {|
  log_Level := or_default DefaultLogLevel (ToLower (TrimSpace (log_Level logCfg)));
  log_Format := or_default DefaultLogFormat (ToLower (TrimSpace (log_Format logCfg))) |}.

(** The loop over the tokens: [seen] holds the token values so far. *)
Fixpoint normalize_tokens (enabled : bool) (index : nat) (seen : gset string) (tokens : list AuthToken)
    : result ConfigError (list AuthToken * gset string) :=
  match tokens with
  | [] => Ok ([], seen)
  | token :: tokens =>
      let name := TrimSpace (at_Name token) in
      let value := TrimSpace (at_Token token) in
      let role := or_default AuthRoleAdmin (ToLower (TrimSpace (at_Role token))) in
      check (negb (bool_decide (role = AuthRoleAdmin)) && negb (bool_decide (role = AuthRoleViewer)))
        (TokenRole index role) ≫= λ _,
      if bool_decide (value = "") then
        check enabled (TokenMissing index) ≫= λ _,
        '(rest, seen) ← normalize_tokens enabled (S index) seen tokens;
        Ok ({| at_Name := name; at_Token := value; at_Role := role |} :: rest, seen)
      else
        check (bool_decide (value ∈ seen)) (TokenDuplicate index) ≫= λ _,
        let name := or_default ("token-" +:+ FormatInt (Z.of_nat index + 1)) name in
        '(rest, seen) ← normalize_tokens enabled (S index) ({[ value ]} ∪ seen) tokens;
        Ok ({| at_Name := name; at_Token := value; at_Role := role |} :: rest, seen)
  end.

Definition normalizeAuth (auth : AuthConfig) : result ConfigError AuthConfig :=
  '(tokens, seen) ← normalize_tokens (ac_Enabled auth) 0 ∅ (ac_Tokens auth);
  check (ac_Enabled auth && bool_decide (seen = ∅)) NoTokens ≫= λ _,
  Ok {| ac_Enabled := ac_Enabled auth; ac_Tokens := tokens |}.

Section parse.
Context `{!TzDatabase}.

Fixpoint normalize_rules (index : nat) (seen : gset string) (rules : list Rule)
    : result ConfigError (list Rule) :=
  match rules with
  | [] => Ok []
  | rule :: rules =>
      let rule := Standardize rule in
      match Validate rule with
      | Err e => Err (RuleInvalid index e)
      | Ok _ =>
          check (bool_decide (RuleID rule ∈ seen)) (DuplicateRule (RuleID rule)) ≫= λ _,
          rest ← normalize_rules (S index) ({[ RuleID rule ]} ∪ seen) rules;
          Ok (rule :: rest)
      end
  end.

(** What [Parse] does to a decoded document. *)
Definition normalize (cfg : File) : result ConfigError File :=
  let version := if cf_Version cfg =? 0 then 1 else cf_Version cfg in
  check (negb (version =? 1)) (UnsupportedVersion version) ≫= λ _,
  let '(language, invalid) := normalizeLanguage (cf_Language cfg) in
  '(port, legacy, used) ← normalizeControlPort cfg;
  let sessions := if cf_UDPMaxSessions cfg =? 0 then DefaultUDPGlobalMaxSessions else cf_UDPMaxSessions cfg in
  check ((sessions <? 0) || (MaxUDPGlobalMaxSessions <? sessions)) UDPMaxSessionsOutOfRange ≫= λ _,
  stats ← normalizeStats (cf_Stats cfg);
  let tls := normalizeControlTLS (cf_ControlTLS cfg) in
  validateControlTLS tls ≫= λ _,
  auth ← normalizeAuth (cf_Auth cfg);
  rules ← normalize_rules 0 ∅ (cf_Rules cfg);
  Ok {|
    cf_Version := version; cf_Language := language; cf_InvalidLanguage := invalid; cf_ControlPort := port;
    cf_DeprecatedControlListenAddr := legacy; cf_UsedDeprecatedControlListenAddr := used;
    cf_UDPMaxSessions := sessions; cf_ControlTLS := tls; cf_Log := normalizeLog (cf_Log cfg); cf_Auth := auth;
    cf_BotToken := cf_BotToken cfg; cf_BotChat := cf_BotChat cfg; cf_BotControlToken := cf_BotControlToken cfg;
    cf_AcmeChallenge := cf_AcmeChallenge cfg; cf_AcmeHTTP01Addr := cf_AcmeHTTP01Addr cfg;
    cf_AcmeCacheDir := cf_AcmeCacheDir cfg; cf_AcmeDNS01 := cf_AcmeDNS01 cfg;
    cf_CertCacheDir := cf_CertCacheDir cfg; cf_CertReview := cf_CertReview cfg; cf_Stats := stats;
    cf_Rules := rules; cf_UnknownFields := cf_UnknownFields cfg |}.
End parse.

(** ** YAML documents *)

Inductive YamlKind := DocumentNode | SequenceNode | MappingNode | ScalarNode | AliasNode.
#[export] Instance YamlKind_eq_dec : EqDecision YamlKind.
Proof. solve_decision. Defined.

(** The part of [yaml.Node] that is read here. *)
Inductive ynode := YNode (kind : YamlKind) (value anchor : string) (content : list ynode).
Definition yn_Kind (n : ynode) : YamlKind := let 'YNode k _ _ _ := n in k.
Definition yn_Value (n : ynode) : string := let 'YNode _ v _ _ := n in v.
Definition yn_Anchor (n : ynode) : string := let 'YNode _ _ a _ := n in a.
Definition yn_Content (n : ynode) : list ynode := let 'YNode _ _ _ c := n in c.

(** The keys and values of a mapping: [for index := 0; index+1 < len; index += 2]. *)
Fixpoint pairs {A} (l : list A) : list (A * A) :=
  match l with key :: value :: l => (key, value) :: pairs l | _ => [] end.

(** [yamlKeySet]: the yaml names of the fields of a struct. *)
Definition knownFileKeys : list string := [
  "version"; "language"; "control_port"; "control_listen_addr"; "udp_max_sessions"; "control_tls"; "log"; "auth";
  "bot_token"; "bot_chat"; "bot_control_token"; "acme_challenge"; "acme_http01_addr"; "acme_cache_dir";
  "acme_dns01"; "cert_cache_dir"; "cert_review"; "stats"; "rules"].
Definition knownRuleKeys : list string := [
  "rule_id"; "name"; "protocol"; "listen_addr"; "listen_port"; "target_addr"; "target_port"; "enabled";
  "speed_limit"; "bandwidth_limit"; "traffic_quota"; "max_conn"; "idle_timeout"; "source_ip_mode"; "source_ips";
  "domains"; "remark"; "revision"; "created_time"; "updated_time"].
Definition knownBandwidthKeys : list string := ["rate"; "upload"; "download"].
Definition knownQuotaKeys : list string := ["daily"; "monthly"; "timezone"; "action"].

Definition ruleNestedMappings (key : string) : option (list string) :=
  if bool_decide (key = "bandwidth_limit") then Some knownBandwidthKeys
  else if bool_decide (key = "traffic_quota") then Some knownQuotaKeys
  else None.

Definition unknownMappingFields (node : ynode) (known : list string) (path : string) : list string :=
  if negb (bool_decide (yn_Kind node = MappingNode)) then []
  else omap (λ '(key, _),
    if bool_decide (yn_Value key = "<<") || one_of (yn_Value key) known then None
    else Some (path +:+ "." +:+ yn_Value key)) (pairs (yn_Content node)).

(** The unknown keys of the rule at [path]. *)
Definition unknown_rule_keys (path : string) (node : ynode) : list string :=
  if negb (bool_decide (yn_Kind node = MappingNode)) then []
  else pairs (yn_Content node) ≫= λ '(field, nested),
    let key := yn_Value field in
    if bool_decide (key = "<<") then []
    else match ruleNestedMappings key with
    | Some nestedKeys => unknownMappingFields nested nestedKeys (path +:+ "." +:+ key)
    | None => if one_of key knownRuleKeys then [] else [path +:+ "." +:+ key]
    end.

Definition rule_path (index : nat) : string := "rules[" +:+ FormatInt (Z.of_nat index) +:+ "]".

(** The first sequence under the key "rules". *)
Definition rules_sequence (node : ynode) : option ynode :=
  snd <$> (snd <$> list_find
    (λ '(key, child), yn_Value key = "rules" ∧ yn_Kind child = SequenceNode) (pairs (yn_Content node))).

Definition collectUnknownRuleFields (node : ynode) : list string :=
  if negb (bool_decide (yn_Kind node = MappingNode)) then []
  else match rules_sequence node with
  | None => []
  | Some child => mjoin (imap (λ index, unknown_rule_keys (rule_path index)) (yn_Content child))
  end.

Definition collectUnknownFields (node : ynode) : list string :=
  if negb (bool_decide (yn_Kind node = MappingNode)) then []
  else
    omap (λ '(key, value),
      if bool_decide (yn_Value key = "<<") || one_of (yn_Value key) knownFileKeys then None
      else if bool_decide (yn_Anchor value ≠ "") then None
      else Some (yn_Value key)) (pairs (yn_Content node))
    ++ collectUnknownRuleFields node.

(** The YAML library: a text to its root node ([None]: a document without a
    value, for which [UnmarshalYAML] is not called), and a node to the struct. *)
Class YamlLib := {
  yaml_parse : string → result string (option ynode);
  yaml_decode : ynode → result string File;
}.

Section load.
Context `{!TzDatabase, !YamlLib}.

Definition with_unknown (f : File) (fields : list string) : File := {|
  cf_Version := cf_Version f; cf_Language := cf_Language f; cf_InvalidLanguage := cf_InvalidLanguage f;
  cf_ControlPort := cf_ControlPort f; cf_DeprecatedControlListenAddr := cf_DeprecatedControlListenAddr f;
  cf_UsedDeprecatedControlListenAddr := cf_UsedDeprecatedControlListenAddr f;
  cf_UDPMaxSessions := cf_UDPMaxSessions f; cf_ControlTLS := cf_ControlTLS f; cf_Log := cf_Log f;
  cf_Auth := cf_Auth f; cf_BotToken := cf_BotToken f; cf_BotChat := cf_BotChat f;
  cf_BotControlToken := cf_BotControlToken f; cf_AcmeChallenge := cf_AcmeChallenge f;
  cf_AcmeHTTP01Addr := cf_AcmeHTTP01Addr f; cf_AcmeCacheDir := cf_AcmeCacheDir f;
  cf_AcmeDNS01 := cf_AcmeDNS01 f; cf_CertCacheDir := cf_CertCacheDir f; cf_CertReview := cf_CertReview f;
  cf_Stats := cf_Stats f; cf_Rules := cf_Rules f; cf_UnknownFields := fields |}.

Definition UnmarshalYAML (value : ynode) : result ConfigError File :=
  match yaml_decode value with
  | Err e => Err (YamlFailed e)
  | Ok alias => Ok (with_unknown alias (collectUnknownFields value))
  end.

Definition Parse (raw : string) : result ConfigError File :=
  check (bool_decide (raw = "")) EmptyConfig ≫= λ _,
  match yaml_parse raw with
  | Err e => Err (YamlFailed e)
  | Ok None => normalize zero_file
  | Ok (Some value) => cfg ← UnmarshalYAML value; normalize cfg
  end.

(** [Load] with the answers of [os.ReadFile]. *)
Definition Load (readFile : string → result string string) (path : string) : result ConfigError File :=
  let path := TrimSpace path in
  check (bool_decide (path = "")) MissingConfigPath ≫= λ _,
  match readFile path with Err e => Err (ReadFailed e) | Ok raw => Parse raw end.
End load.
