(* ===== verification/Quantity.v ===== *)
(** * Human-readable quantities (engine/quantity.go)

    [ByteRate] and [ByteSize] values: the unit tables, the parser with its
    regular expression, and the printer.  The code computes with [big.Rat];
    a rational is kept here as numerator and denominator of unbounded
    integers.  The JSON wrapper ([encoding/json]) is not modelled. *)

From S2P Require Import Prelude GoStrings.

(** A unit factor [big.NewRat(num, den)]. *)
Record factor := NewRat { num : Z; den : Z }.

Definition byteRateUnits : list (string * factor) := [
  ("bps", NewRat 1 8);
  ("Kbps", NewRat 1000 8);
  ("Mbps", NewRat 1000000 8);
  ("Gbps", NewRat 1000000000 8);
  ("Tbps", NewRat 1000000000000 8);
  ("B/s", NewRat 1 1);
  ("KB/s", NewRat 1000 1);
  ("MB/s", NewRat 1000000 1);
  ("GB/s", NewRat 1000000000 1);
  ("TB/s", NewRat 1000000000000 1);
  ("KiB/s", NewRat (2 ^ 10) 1);
  ("MiB/s", NewRat (2 ^ 20) 1);
  ("GiB/s", NewRat (2 ^ 30) 1);
  ("TiB/s", NewRat (2 ^ 40) 1) ].

Definition byteSizeUnits : list (string * factor) := [
  ("B", NewRat 1 1);
  ("KB", NewRat 1000 1);
  ("MB", NewRat 1000000 1);
  ("GB", NewRat 1000000000 1);
  ("TB", NewRat 1000000000000 1);
  ("KiB", NewRat (2 ^ 10) 1);
  ("MiB", NewRat (2 ^ 20) 1);
  ("GiB", NewRat (2 ^ 30) 1);
  ("TiB", NewRat (2 ^ 40) 1) ].

(** [units[name]] of the Go map (the keys of both tables are distinct). *)
Fixpoint unit_factor (units : list (string * factor)) (name : string) : option factor :=
  match units with
  | [] => None
  | (key, f) :: units => if bool_decide (key = name) then Some f else unit_factor units name
  end.

(** ** The pattern [^([0-9]+(?:\.[0-9]+)?)\s*([^\s]+)$]

    Go's leftmost-first matching prefers the longest digit string, then a
    fraction over none, then the longest fraction; [\s*] must take every space
    because the last group takes none. *)

Definition is_regex_space (c : ascii) : bool :=
  let n := nat_of_ascii c in
  (n =? 9)%nat || (n =? 10)%nat || (n =? 12)%nat || (n =? 13)%nat || (n =? 32)%nat.

Fixpoint drop_while (p : ascii → bool) (l : list ascii) : list ascii :=
  match l with c :: l' => if p c then drop_while p l' else l | [] => [] end.
Fixpoint count_while (p : ascii → bool) (l : list ascii) : nat :=
  match l with c :: l => if p c then S (count_while p l) else 0%nat | [] => 0%nat end.

(** [\s*([^\s]+)$] *)
Definition match_unit (l : list ascii) : option string :=
  let rest := drop_while is_regex_space l in
  match rest with
  | [] => None
  | _ => if forallb (λ c, negb (is_regex_space c)) rest then Some (of_list rest) else None
  end.

(** The first success for a prefix of [n], [n - 1], ..., 1 characters. *)
Fixpoint longest_first {A} (n : nat) (try : nat → option A) : option A :=
  match n with
  | O => None
  | S n' => match try n with Some a => Some a | None => longest_first n' try end
  end.

(** The integer digits, the fraction digits and the unit. *)
Definition quantity_match (l : list ascii) : option (list ascii * list ascii * string) :=
  longest_first (count_while is_digit l) (λ i,
    let int_part := take i l in
    let rest := drop i l in
    let fraction := match rest with
      | "."%char :: more =>
          longest_first (count_while is_digit more) (λ j,
            name ← match_unit (drop j more); Some (int_part, take j more, name))
      | _ => None
      end in
    match fraction with
    | Some m => Some m
    | None => name ← match_unit rest; Some (int_part, [], name)
    end).

(** ** Parsing *)

Inductive QuantityError :=
| EmptyQuantityText | NegativeQuantity | MissingUnit (raw : string) | UnknownUnit (name : string)
| BadNumber | PartialByte (raw : string) | QuantityOutOfRange (raw : string).

#[export] Instance QuantityError_eq_dec : EqDecision QuantityError.
Proof. solve_decision. Defined.

Definition pow10 (k : nat) : Z := 10 ^ Z.of_nat k.

Definition parseHumanQuantity (text : string) (units : list (string * factor))
    : result QuantityError Z :=
  let raw := TrimSpace text in
  if bool_decide (raw = "") then Err EmptyQuantityText
  else if bool_decide (raw = "0") then Ok 0
  else match ParseInt raw with
  | Some integer => if integer <? 0 then Err NegativeQuantity else Ok integer
  | None =>
    match quantity_match (to_list raw) with
    | None => Err (MissingUnit raw)
    | Some (int_part, frac, name) =>
      match unit_factor units name with
      | None => Err (UnknownUnit name)
      | Some f =>
        match dec_value 0 (of_list (int_part ++ frac)) with
        | None => Err BadNumber
        | Some digits =>
          let numerator := digits * num f in
          let denominator := pow10 (length frac) * den f in
          if negb (numerator mod denominator =? 0) then Err (PartialByte raw)
          else let value := numerator / denominator in
          if negb (in_int64b value) || (value <? 0) || (int64_max <? value)
          then Err (QuantityOutOfRange raw) else Ok value
        end
      end
    end
  end.

Definition ByteRate_UnmarshalText (text : string) : result QuantityError Z :=
  parseHumanQuantity text byteRateUnits.
Definition ByteSize_UnmarshalText (text : string) : result QuantityError Z :=
  parseHumanQuantity text byteSizeUnits.

(** ** Printing *)

Record displayUnit := { unit_name : string; unit_rat : factor }.

Fixpoint trim_right_char (c : ascii) (l : list ascii) : list ascii :=
  match l with
  | [] => []
  | d :: l => match trim_right_char c l with
              | [] => if bool_decide (d = c) then [] else [d]
              | l' => d :: l'
              end
  end.

Definition trimDecimal (l : list ascii) : list ascii :=
  trim_right_char "." (trim_right_char "0" l).

(** [FloatString(3)] of [m / 1000]. *)
Definition three_digits (n : Z) : string :=
  FormatInt (n / 100) +:+ FormatInt (n / 10 mod 10) +:+ FormatInt (n mod 10).
Definition FloatString3 (m : Z) : string :=
  FormatInt (m / 1000) +:+ "." +:+ three_digits (m mod 1000).

(** The [continue] condition of the loop, negated: [value / factor] is at least
    1, below 10000 and has at most three decimals. *)
Definition displayable (value : Z) (f : factor) : bool :=
  (num f <=? value * den f) && (value * den f <? 10000 * num f)
  && (1000 * (value * den f) mod num f =? 0).

Definition candidate (value : Z) (u : displayUnit) : string :=
  of_list (trimDecimal (to_list
    (FloatString3 (1000 * (value * den (unit_rat u)) / num (unit_rat u)))))
  +:+ " " +:+ unit_name u.

Definition display_step (value : Z) (best : string) (u : displayUnit) : string :=
  if displayable value (unit_rat u) then
    let text := candidate value u in
    if bool_decide (best = "") || (String.length text <? String.length best)%nat then text else best
  else best.

Definition fallback_unit (units : list displayUnit) : string :=
  match last units with Some u => unit_name u | None => "B" end.

Definition formatHumanQuantity (value : Z) (units : list displayUnit) : string :=
  if value <=? 0 then "0"
  else
    let best := foldl (display_step value) "" units in
    if bool_decide (best = "") then FormatInt value +:+ " " +:+ fallback_unit units else best.

Definition byteRateDisplay : list displayUnit := [
  {| unit_name := "Tbps"; unit_rat := NewRat 1000000000000 8 |};
  {| unit_name := "Gbps"; unit_rat := NewRat 1000000000 8 |};
  {| unit_name := "Mbps"; unit_rat := NewRat 1000000 8 |};
  {| unit_name := "Kbps"; unit_rat := NewRat 1000 8 |};
  {| unit_name := "TiB/s"; unit_rat := NewRat (2 ^ 40) 1 |};
  {| unit_name := "GiB/s"; unit_rat := NewRat (2 ^ 30) 1 |};
  {| unit_name := "MiB/s"; unit_rat := NewRat (2 ^ 20) 1 |};
  {| unit_name := "KiB/s"; unit_rat := NewRat (2 ^ 10) 1 |};
  {| unit_name := "B/s"; unit_rat := NewRat 1 1 |} ].

Definition byteSizeDisplay : list displayUnit := [
  {| unit_name := "TB"; unit_rat := NewRat 1000000000000 1 |};
  {| unit_name := "GB"; unit_rat := NewRat 1000000000 1 |};
  {| unit_name := "MB"; unit_rat := NewRat 1000000 1 |};
  {| unit_name := "KB"; unit_rat := NewRat 1000 1 |};
  {| unit_name := "TiB"; unit_rat := NewRat (2 ^ 40) 1 |};
  {| unit_name := "GiB"; unit_rat := NewRat (2 ^ 30) 1 |};
  {| unit_name := "MiB"; unit_rat := NewRat (2 ^ 20) 1 |};
  {| unit_name := "KiB"; unit_rat := NewRat (2 ^ 10) 1 |};
  {| unit_name := "B"; unit_rat := NewRat 1 1 |} ].

Definition ByteRate_String (value : Z) : string := formatHumanQuantity value byteRateDisplay.
Definition ByteSize_String (value : Z) : string := formatHumanQuantity value byteSizeDisplay.

(** ** The pattern on printed quantities *)

Lemma count_while_app p l c r :
  forallb p l = true → p c = false → count_while p (l ++ c :: r) = length l.
Proof.
  induction l as [|x l IH]; simpl; intros Hl Hc; [by rewrite Hc|].
  apply andb_true_iff in Hl as [-> Hl]. by rewrite IH.
Qed.

Lemma longest_first_Some {A} n (try : nat → option A) a :
  (0 < n)%nat → try n = Some a → longest_first n try = Some a.
Proof. destruct n; simpl; [lia|]. by intros _ ->. Qed.

Definition unit_text (name : string) : bool :=
  negb (bool_decide (name = "")) && forallb (λ c, negb (is_regex_space c)) (to_list name).

Lemma match_unit_name name :
  unit_text name = true → match_unit (" "%char :: to_list name) = Some name.
Proof.
  unfold unit_text, match_unit. intros [Hne Hall]%andb_true_iff.
  apply negb_true_iff, bool_decide_eq_false in Hne.
  simpl. destruct name as [|c name]; [done|]. simpl in *.
  apply andb_true_iff in Hall as [Hc Hall]. apply negb_true_iff in Hc.
  rewrite Hc. simpl. by rewrite Hc, Hall, of_to_list.
Qed.

Lemma quantity_match_integer I name :
  forallb is_digit I = true → I ≠ [] → unit_text name = true →
  quantity_match (I ++ " "%char :: to_list name) = Some (I, [], name).
Proof.
  intros HI Hne Hu. unfold quantity_match. rewrite count_while_app by done.
  apply longest_first_Some; [by destruct I; simpl; [|lia]|].
  by rewrite take_app_length, drop_app_length, match_unit_name.
Qed.

Lemma quantity_match_fraction I F name :
  forallb is_digit I = true → I ≠ [] → forallb is_digit F = true → F ≠ [] → unit_text name = true →
  quantity_match (I ++ "."%char :: F ++ " "%char :: to_list name) = Some (I, F, name).
Proof.
  intros HI HneI HF HneF Hu. unfold quantity_match. rewrite count_while_app by done.
  apply longest_first_Some; [by destruct I; simpl; [|lia]|].
  rewrite take_app_length, drop_app_length. rewrite count_while_app by done.
  by rewrite (longest_first_Some _ _ (I, F, name));
    [|destruct F; simpl; [done|lia]|rewrite take_app_length, drop_app_length, match_unit_name].
Qed.

(** ** The decimal text of a printed quantity *)

Definition fraction_digits (n : Z) : list ascii := trim_right_char "0" (to_list (three_digits n)).

Definition fraction_ok (n : Z) : bool :=
  let F := fraction_digits n in
  forallb is_digit F && (length F <=? 3)%nat
  && bool_decide (dec_value 0 (of_list F) ≫= (λ v, Some (v * 10 ^ (3 - Z.of_nat (length F)))) = Some n)
  && bool_decide (trim_right_char "." ("."%char :: F) = match F with [] => [] | _ => "."%char :: F end).

Lemma fractions_ok n : 0 ≤ n < 1000 → fraction_ok n = true.
Proof.
  intros Hn. assert (forallb (λ k, fraction_ok (Z.of_nat k)) (seq 0 1000) = true) as Hall
    by by vm_compute.
  rewrite <-(Z2Nat.id n) by lia.
  apply forallb_forall with (x := Z.to_nat n) in Hall; [done|]. apply in_seq. lia.
Qed.

Lemma trim_right_char_app c l r :
  trim_right_char c r ≠ [] → trim_right_char c (l ++ r) = l ++ trim_right_char c r.
Proof.
  intros Hr. induction l as [|x l IH]; simpl; [done|]. rewrite IH.
  by destruct (l ++ trim_right_char c r) eqn:E; [apply app_nil in E as [_ ?]|].
Qed.

Lemma trim_right_char_none c l r :
  forallb (λ d, negb (bool_decide (d = c))) l = true → trim_right_char c r = [] →
  trim_right_char c (l ++ r) = l.
Proof.
  intros Hl Hr. induction l as [|x l IH]; simpl in *; [done|].
  apply andb_true_iff in Hl as [Hx Hl]. apply negb_true_iff in Hx.
  rewrite (IH Hl), Hx. by destruct l.
Qed.

Lemma of_list_app l r : of_list (l ++ r) = of_list l +:+ of_list r.
Proof. induction l as [|c l IH]; [done|]. simpl. by rewrite IH. Qed.

Lemma length_of_list l : String.length (of_list l) = length l.
Proof. induction l as [|c l IH]; [done|]. simpl. by rewrite IH. Qed.

Lemma digits_no_dot l :
  forallb is_digit l = true → forallb (λ d, negb (bool_decide (d = "."%char))) l = true.
Proof.
  rewrite !forallb_forall. intros H c Hc%H.
  case_bool_decide; [|done]. by subst.
Qed.

Lemma FormatInt_list z : 0 ≤ z →
  let I := to_list (FormatInt z) in
  dec_value 0 (of_list I) = Some z ∧ forallb is_digit I = true ∧ I ≠ [].
Proof.
  intros Hz. destruct (FormatInt_digits z Hz) as [Hv Hne]. simpl. rewrite of_to_list.
  split_and!; [done|apply (dec_value_digits 0); eauto|].
  intros E. apply Hne. by destruct (FormatInt z).
Qed.

(** The printed decimal, split into its digits: they denote [m / 1000]. *)
Lemma trimDecimal_spec m : 0 ≤ m →
  ∃ I F v, forallb is_digit I = true ∧ I ≠ [] ∧ forallb is_digit F = true ∧ (length F ≤ 3)%nat ∧
    dec_value 0 (of_list (I ++ F)) = Some v ∧ v * 10 ^ (3 - Z.of_nat (length F)) = m ∧
    trimDecimal (to_list (FloatString3 m)) = I ++ match F with [] => [] | _ => "."%char :: F end.
Proof.
  intros Hm. assert (0 ≤ m mod 1000 < 1000) as Hr by (apply Z.mod_pos_bound; lia).
  pose proof (fractions_ok _ Hr) as Hok. unfold fraction_ok in Hok.
  apply andb_true_iff in Hok as [Hok Htrim]. apply andb_true_iff in Hok as [Hok Hval].
  apply andb_true_iff in Hok as [Hdig Hlen].
  apply bool_decide_eq_true in Hval, Htrim. apply Nat.leb_le in Hlen.
  destruct (FormatInt_list (m / 1000)) as (HvI & HdI & HneI); [apply Z.div_pos; lia|].
  set (F := fraction_digits (m mod 1000)) in *. set (I := to_list (FormatInt (m / 1000))) in *.
  destruct (dec_value 0 (of_list F)) as [vF|] eqn:HvF; [|done]. simpl in Hval. injection Hval as HvF'.
  exists I, F, (m / 1000 * 10 ^ Z.of_nat (length F) + vF). split_and!; try done.
  - rewrite of_list_app, dec_value_app, HvI. simpl. rewrite (dec_value_acc _ _ vF) by done.
    by rewrite length_of_list.
  - rewrite Z.mul_add_distr_r, <-Z.mul_assoc, <-Z.pow_add_r, HvF' by lia.
    replace (Z.of_nat (length F) + (3 - Z.of_nat (length F))) with 3 by lia.
    pose proof (Z.div_mod m 1000). lia.
  - unfold FloatString3, trimDecimal. rewrite !to_list_app. fold I.
    assert (trim_right_char "0" (to_list "." ++ to_list (three_digits (m mod 1000))) = "."%char :: F)
      as Hz.
    { simpl. fold (fraction_digits (m mod 1000)). fold F. by destruct F. }
    rewrite trim_right_char_app by (by rewrite Hz). rewrite Hz.
    destruct F as [|c F'] eqn:EF.
    + rewrite trim_right_char_none; [by rewrite app_nil_r|by apply digits_no_dot|done].
    + rewrite trim_right_char_app by (by rewrite Htrim). by rewrite Htrim.
Qed.

(** ** Printed quantities parse back *)

(** What the display tables guarantee of each unit, decided by computation. *)
Definition display_ok (units : list (string * factor)) (u : displayUnit) : bool :=
  unit_text (unit_name u)
  && match list.last (to_list (unit_name u)) with
     | Some d => forallb (λ n, plain_ends (byte n) d) (seq 48 10)
     | None => false
     end
  && match unit_factor units (unit_name u) with
     | Some f => (num f =? num (unit_rat u)) && (den f =? den (unit_rat u))
     | None => false
     end
  && (0 <? num (unit_rat u)) && (0 <? den (unit_rat u)).

Definition fraction_part (F : list ascii) : list ascii :=
  match F with [] => [] | _ => "."%char :: F end.
Definition printed (I F : list ascii) (name : string) : string :=
  of_list (I ++ fraction_part F ++ " "%char :: to_list name).

Lemma quantity_match_printed I F name :
  forallb is_digit I = true → I ≠ [] → forallb is_digit F = true → unit_text name = true →
  quantity_match (to_list (printed I F name)) = Some (I, F, name).
Proof.
  intros. unfold printed. rewrite to_of_list. unfold fraction_part. destruct F as [|c F].
  - by apply quantity_match_integer.
  - by apply quantity_match_fraction.
Qed.

Lemma digit_byte c : is_digit c = true → ∃ n, c = byte n ∧ In n (seq 48 10).
Proof.
  unfold is_digit. intros [?%Nat.leb_le ?%Nat.leb_le]%andb_true_iff.
  exists (nat_of_ascii c). split; [by rewrite <-(ascii_nat_embedding c) at 1|]. apply in_seq. lia.
Qed.

Lemma TrimSpace_printed units u I F :
  display_ok units u = true → forallb is_digit I = true → I ≠ [] →
  TrimSpace (printed I F (unit_name u)) = printed I F (unit_name u).
Proof.
  unfold display_ok. intros Hok HI Hne. bool_to_prop.
  destruct (list.last (to_list (unit_name u))) as [d|] eqn:Hd; [|done].
  destruct I as [|c I]; [done|]. simpl in HI. apply andb_true_iff in HI as [Hc _].
  apply digit_byte in Hc as (n & -> & Hn).
  apply (TrimSpace_plain_ends _ (byte n) d).
  - unfold printed. by rewrite to_of_list.
  - unfold printed. rewrite to_of_list, !last_app. simpl.
    rewrite last_cons, Hd. done.
  - by eapply (proj1 (forallb_forall _ _)) in Hn; [|eassumption].
Qed.

Lemma ParseInt_printed I F name :
  I ≠ [] → ParseInt (printed I F name) = None ∧ printed I F name ≠ "" ∧ printed I F name ≠ "0".
Proof.
  intros Hne. destruct I as [|c I]; [done|]. unfold printed. simpl. split_and!; [|done|].
  - apply ParseInt_None. rewrite to_of_list, !forallb_app. simpl. by rewrite !andb_false_r.
  - intros [= _ E]. apply (f_equal to_list) in E. rewrite to_of_list in E. simpl in E.
    by apply app_nil in E as [_ E]; apply app_nil in E as [_ E].
Qed.

Lemma parse_printed units u I F w value :
  display_ok units u = true → forallb is_digit I = true → I ≠ [] → forallb is_digit F = true →
  dec_value 0 (of_list (I ++ F)) = Some w → 0 ≤ value ≤ int64_max →
  w * num (unit_rat u) = value * (pow10 (length F) * den (unit_rat u)) →
  parseHumanQuantity (printed I F (unit_name u)) units = Ok value.
Proof.
  intros Hok HI Hne HF Hw Hrange Heq. unfold parseHumanQuantity.
  rewrite (TrimSpace_printed units) by done.
  destruct (ParseInt_printed I F (unit_name u) Hne) as (-> & H1 & H2).
  rewrite !bool_decide_eq_false_2 by done.
  unfold display_ok in Hok. bool_to_prop.
  rewrite quantity_match_printed by done.
  destruct (unit_factor units (unit_name u)) as [f|]; [|done]. bool_to_prop.
  rewrite Hw.
  match goal with H : num f = _ |- _ => rewrite H end.
  match goal with H : den f = _ |- _ => rewrite H end. rewrite Heq.
  assert (0 < pow10 (length F) * den (unit_rat u)) by (unfold pow10; nia).
  cbv zeta. rewrite Z_mod_mult, Z.div_mul by lia. simpl.
  assert (in_int64b value = true) as -> by (apply in_int64b_spec; int64_lia).
  simpl. destruct (Z.ltb_spec value 0), (Z.ltb_spec int64_max value); simpl; [lia..|done].
Qed.

Lemma candidate_roundtrip units u value :
  display_ok units u = true → displayable value (unit_rat u) = true → 0 ≤ value ≤ int64_max →
  parseHumanQuantity (candidate value u) units = Ok value.
Proof.
  intros Hok Hdisp Hv. assert (H := Hok). unfold display_ok in H. unfold displayable in Hdisp.
  bool_to_prop.
  set (m := 1000 * (value * den (unit_rat u)) / num (unit_rat u)).
  assert (m * num (unit_rat u) = 1000 * (value * den (unit_rat u))) as Hm.
  { subst m. pose proof (Z.div_mod (1000 * (value * den (unit_rat u))) (num (unit_rat u))). lia. }
  assert (0 ≤ m) by (subst m; apply Z.div_pos; nia).
  destruct (trimDecimal_spec m) as (I & F & w & HI & Hne & HF & Hlen & Hw & Hval & Htext); [done|].
  assert (candidate value u = printed I F (unit_name u)) as ->.
  { unfold candidate, printed. fold m. rewrite Htext, app_assoc, (of_list_app (I ++ fraction_part F)).
    simpl. by rewrite of_to_list. }
  eapply parse_printed; [done..|].
  assert (0 < pow10 (length F)) by (unfold pow10; lia).
  assert (pow10 (length F) * 10 ^ (3 - Z.of_nat (length F)) = 1000) as Hpow.
  { unfold pow10. rewrite <-Z.pow_add_r by lia.
    by replace (Z.of_nat (length F) + (3 - Z.of_nat (length F))) with 3 by lia. }
  assert (0 < 10 ^ (3 - Z.of_nat (length F))) by lia.
  apply (Z.mul_reg_r _ _ (10 ^ (3 - Z.of_nat (length F)))); [lia|]. rewrite <-Hval in Hm. nia.
Qed.

(** The text chosen by the loop is the candidate of one of the units. *)
Lemma best_candidate value units best :
  foldl (display_step value) best units = best ∨
  ∃ u, u ∈ units ∧ displayable value (unit_rat u) = true ∧
    foldl (display_step value) best units = candidate value u.
Proof.
  revert best. induction units as [|u units IH]; intros best; simpl; [by left|].
  destruct (IH (display_step value best u)) as [-> |(u' & Hin & Hd & ->)].
  - unfold display_step. destruct (displayable value (unit_rat u)) eqn:E; [|by left].
    case_match; [|by left]. right. exists u. split_and!; [left|done|done].
  - right. exists u'. split_and!; [by right|done|done].
Qed.

Lemma format_roundtrip units display value :
  forallb (display_ok units) display = true →
  (∃ u, list.last display = Some u ∧ num (unit_rat u) = 1 ∧ den (unit_rat u) = 1) →
  0 ≤ value ≤ int64_max →
  parseHumanQuantity (formatHumanQuantity value display) units = Ok value.
Proof.
  intros Hall (u & Hu & Hnum & Hden) Hv. unfold formatHumanQuantity.
  destruct (Z.leb_spec value 0) as [Hz|Hpos].
  { assert (value = 0) as -> by lia. by unfold parseHumanQuantity; vm_compute TrimSpace. }
  rewrite forallb_forall in Hall.
  destruct (best_candidate value display "") as [-> |(u' & Hin & Hd & Hbest)].
  - simpl. unfold fallback_unit. rewrite Hu.
    destruct (FormatInt_list value) as (HI & HdI & HneI); [lia|].
    replace (FormatInt value +:+ " " +:+ unit_name u)
      with (printed (to_list (FormatInt value)) [] (unit_name u)).
    + eapply parse_printed; [|done..|by rewrite app_nil_r| |].
      * apply Hall, list_elem_of_In, last_Some_elem_of, Hu.
      * done.
      * rewrite Hnum, Hden. unfold pow10. simpl. lia.
    + unfold printed. simpl. by rewrite of_list_app, of_to_list; simpl; rewrite of_to_list.
  - rewrite Hbest. case_bool_decide as He.
    + exfalso. assert (parseHumanQuantity (candidate value u') units = Ok value) as Hp.
      { apply candidate_roundtrip; [by apply Hall, list_elem_of_In|done|done]. }
      rewrite He in Hp. by vm_compute in Hp.
    + apply candidate_roundtrip; [by apply Hall, list_elem_of_In|done|done].
Qed.

Lemma ParseInt_range s v : ParseInt s = Some v → in_int64 v.
Proof.
  unfold ParseInt. intros H. apply bind_Some in H as (w & _ & H).
  destruct (in_int64b w) eqn:E; [|done]. injection H as <-. by apply in_int64b_spec.
Qed.

Lemma rate_units_ok : forallb (display_ok byteRateUnits) byteRateDisplay = true.
Proof. by vm_compute. Qed.
Lemma size_units_ok : forallb (display_ok byteSizeUnits) byteSizeDisplay = true.
Proof. by vm_compute. Qed.

(** ** Properties *)

(** printing a byte rate or a byte size with [String] and reading the text
    back with [UnmarshalText] gives the same value, for every non-negative
    [int64]: the shortest display unit chosen never loses a byte. *)
Theorem quantity_roundtrip value : 0 ≤ value ≤ int64_max →
  ByteRate_UnmarshalText (ByteRate_String value) = Ok value ∧
  ByteSize_UnmarshalText (ByteSize_String value) = Ok value.
Proof.
  intros Hv. split.
  - apply format_roundtrip; [apply rate_units_ok|by eexists|done].
  - apply format_roundtrip; [apply size_units_ok|by eexists|done].
Qed.

Lemma quantity_roundtrip_witness :
  (0 ≤ 12500000 ≤ int64_max) ∧
  ByteRate_UnmarshalText (ByteRate_String 12500000) = Ok 12500000 ∧
  ByteSize_UnmarshalText (ByteSize_String 12500000) = Ok 12500000.
Proof.
  split; [by vm_compute|]. apply (quantity_roundtrip 12500000). by vm_compute.
Defined.

(** a quantity that parses is in range and exact. Either the text is a plain
    integer of bytes, or the pattern split it into digits, fraction and a known
    unit and the value is exactly the decimal number times the unit's factor:
    no rounding, no overflow, never a negative value. *)
Theorem parse_quantity_exact units text value :
  forallb (λ u, 0 <? den (snd u)) units = true →
  parseHumanQuantity text units = Ok value →
  0 ≤ value ≤ int64_max ∧
  (ParseInt (TrimSpace text) = Some value ∨
   ∃ int_part frac name f digits,
     quantity_match (to_list (TrimSpace text)) = Some (int_part, frac, name) ∧
     unit_factor units name = Some f ∧
     dec_value 0 (of_list (int_part ++ frac)) = Some digits ∧
     value * (pow10 (length frac) * den f) = digits * num f).
Proof.
  intros Hden. unfold parseHumanQuantity.
  case_bool_decide as H1; [done|]. case_bool_decide as H2.
  { intros [= <-]. split; [int64_lia|]. left. by rewrite H2. }
  destruct (ParseInt (TrimSpace text)) as [i|] eqn:Hi.
  { destruct (Z.ltb_spec i 0); [done|]. intros [= <-]. apply ParseInt_range in Hi.
    split; [int64_lia|by left]. }
  destruct (quantity_match _) as [[[I F] name]|] eqn:Hm; [|done].
  destruct (unit_factor units name) as [f|] eqn:Hf; [|done].
  destruct (dec_value _ _) as [d|] eqn:Hd; [|done]. cbv zeta.
  destruct (Z.eqb_spec (d * num f mod (pow10 (length F) * den f)) 0) as [Hmod|]; [|done]. simpl.
  destruct (_ || _ || _) eqn:Hr; [done|]. intros [= <-]. bool_to_prop.
  split; [lia|]. right. exists I, F, name, f, d. split_and!; try done.
  assert (0 < den f) as Hpos.
  { clear -Hden Hf. induction units as [|[k g] units IH]; simpl in *; [done|].
    bool_to_prop. case_bool_decide; [by injection Hf as <-|auto]. }
  rewrite (Z.mul_comm (_ / _)). symmetry. apply Z.div_exact; [|done].
  unfold pow10. nia.
Qed.

Lemma parse_quantity_exact_witness :
  ByteRate_UnmarshalText " 1.5 Mbps" = Ok 187500 ∧ 0 ≤ 187500 ≤ int64_max.
Proof.
  assert (ByteRate_UnmarshalText " 1.5 Mbps" = Ok 187500) as H by by vm_compute.
  split; [done|].
  apply (parse_quantity_exact byteRateUnits " 1.5 Mbps" 187500); [by vm_compute|done].
Defined.
