(* ===== verification/Stats.v ===== *)
(** * Traffic counters (engine/stats.go)

    The collector maps a rule id to a pointer to a block of atomic counters.
    Runners keep the pointer ([boundRuleStats]) and update the block without
    going through the map, also after the rule has been removed from it, so the
    blocks live in a store of their own ([heap]) and the maps hold locations.
    Each operation is one atomic step.  [now] is the Unix time the operation
    reads from the clock. *)

From S2P Require Import Prelude GoStrings SourceIP Limits Calendar Rule.

Notation loc := positive (only parsing).

Record ruleCounter := {
  uploadTotal : Z;
  downloadTotal : Z;
  conns : Z;
  sourceIPDenied : Z;
  udpSessionRejected : Z;
  udpPacketsDropped : Z;
  quotaRejectedBytes : Z;
  updatedAtUnix : Z;
}.

(** [boundRuleStats]: the counter pointer; [None] is the zero value. *)
Definition boundRuleStats : Type := option loc.

Record Collector := {
  heap : gmap loc ruleCounter;
  next_loc : loc;
  counters : gmap string loc;
  protocols : gmap string Protocol;
  bandwidths : gmap string BandwidthLimit;
  quotas : gmap string TrafficQuota;
}.

Definition NewCollector : Collector := {|
  heap := ∅; next_loc := 1; counters := ∅; protocols := ∅; bandwidths := ∅; quotas := ∅
|}.

Definition set_heap h (c : Collector) : Collector := {|
  heap := h; next_loc := next_loc c; counters := counters c;
  protocols := protocols c; bandwidths := bandwidths c; quotas := quotas c |}.
Definition set_counters m (c : Collector) : Collector := {|
  heap := heap c; next_loc := next_loc c; counters := m;
  protocols := protocols c; bandwidths := bandwidths c; quotas := quotas c |}.
Definition set_protocols m (c : Collector) : Collector := {|
  heap := heap c; next_loc := next_loc c; counters := counters c;
  protocols := m; bandwidths := bandwidths c; quotas := quotas c |}.
Definition set_bandwidths m (c : Collector) : Collector := {|
  heap := heap c; next_loc := next_loc c; counters := counters c;
  protocols := protocols c; bandwidths := m; quotas := quotas c |}.
Definition set_quotas m (c : Collector) : Collector := {|
  heap := heap c; next_loc := next_loc c; counters := counters c;
  protocols := protocols c; bandwidths := bandwidths c; quotas := m |}.

(** ** Counter blocks *)

Definition new_counter (now : Z) : ruleCounter := {|
  uploadTotal := 0; downloadTotal := 0; conns := 0; sourceIPDenied := 0;
  udpSessionRejected := 0; udpPacketsDropped := 0; quotaRejectedBytes := 0; updatedAtUnix := now |}.

Definition set_upload v now (k : ruleCounter) := {|
  uploadTotal := v; downloadTotal := downloadTotal k; conns := conns k;
  sourceIPDenied := sourceIPDenied k; udpSessionRejected := udpSessionRejected k;
  udpPacketsDropped := udpPacketsDropped k; quotaRejectedBytes := quotaRejectedBytes k;
  updatedAtUnix := now |}.
Definition set_download v now (k : ruleCounter) := {|
  uploadTotal := uploadTotal k; downloadTotal := v; conns := conns k;
  sourceIPDenied := sourceIPDenied k; udpSessionRejected := udpSessionRejected k;
  udpPacketsDropped := udpPacketsDropped k; quotaRejectedBytes := quotaRejectedBytes k;
  updatedAtUnix := now |}.
Definition set_conns v now (k : ruleCounter) := {|
  uploadTotal := uploadTotal k; downloadTotal := downloadTotal k; conns := v;
  sourceIPDenied := sourceIPDenied k; udpSessionRejected := udpSessionRejected k;
  udpPacketsDropped := udpPacketsDropped k; quotaRejectedBytes := quotaRejectedBytes k;
  updatedAtUnix := now |}.
Definition set_source_denied v now (k : ruleCounter) := {|
  uploadTotal := uploadTotal k; downloadTotal := downloadTotal k; conns := conns k;
  sourceIPDenied := v; udpSessionRejected := udpSessionRejected k;
  udpPacketsDropped := udpPacketsDropped k; quotaRejectedBytes := quotaRejectedBytes k;
  updatedAtUnix := now |}.
Definition set_udp_rejected v now (k : ruleCounter) := {|
  uploadTotal := uploadTotal k; downloadTotal := downloadTotal k; conns := conns k;
  sourceIPDenied := sourceIPDenied k; udpSessionRejected := v;
  udpPacketsDropped := udpPacketsDropped k; quotaRejectedBytes := quotaRejectedBytes k;
  updatedAtUnix := now |}.
Definition set_udp_dropped v now (k : ruleCounter) := {|
  uploadTotal := uploadTotal k; downloadTotal := downloadTotal k; conns := conns k;
  sourceIPDenied := sourceIPDenied k; udpSessionRejected := udpSessionRejected k;
  udpPacketsDropped := v; quotaRejectedBytes := quotaRejectedBytes k;
  updatedAtUnix := now |}.
Definition set_quota_rejected v now (k : ruleCounter) := {|
  uploadTotal := uploadTotal k; downloadTotal := downloadTotal k; conns := conns k;
  sourceIPDenied := sourceIPDenied k; udpSessionRejected := udpSessionRejected k;
  udpPacketsDropped := udpPacketsDropped k; quotaRejectedBytes := v;
  updatedAtUnix := now |}.

(** ** The collector *)

Definition lookupCounter (id : string) (c : Collector) : option loc := counters c !! id.

(** [counter = &ruleCounter{}], stored under [id]. *)
Definition allocate (now : Z) (id : string) (c : Collector) : Collector := {|
  heap := <[next_loc c := new_counter now]> (heap c);
  next_loc := Pos.succ (next_loc c);
  counters := <[id := next_loc c]> (counters c);
  protocols := protocols c; bandwidths := bandwidths c; quotas := quotas c |}.

Definition getCounter (now : Z) (id : string) (c : Collector) : loc * Collector :=
  match counters c !! id with
  | Some l => (l, c)
  | None => (next_loc c, allocate now id c)
  end.

Definition bindRule (now : Z) (id : string) (c : Collector) : boundRuleStats * Collector :=
  let '(l, c) := getCounter now (TrimSpace id) c in (Some l, c).

Definition EnsureRule (now : Z) (id : string) (c : Collector) : Collector :=
  snd (getCounter now (TrimSpace id) c).

Definition EnsureRuleProtocol (now : Z) (id : string) (protocol : Protocol) (c : Collector)
    : Collector :=
  let id := TrimSpace id in
  let c := match counters c !! id with None => allocate now id c | Some _ => c end in
  set_protocols (<[id := standardizeProtocol protocol]> (protocols c)) c.

Definition RemoveRule (id : string) (c : Collector) : Collector :=
  let id := TrimSpace id in
  if bool_decide (id = "") then c
  else {| heap := heap c; next_loc := next_loc c; counters := delete id (counters c);
          protocols := delete id (protocols c); bandwidths := delete id (bandwidths c);
          quotas := delete id (quotas c) |}.

Definition SetBandwidthPolicy (id : string) (limit : option BandwidthLimit) (c : Collector)
    : Collector :=
  let id := TrimSpace id in
  set_bandwidths (match limit with
                  | None => delete id (bandwidths c)
                  | Some value => <[id := value]> (bandwidths c)
                  end) c.
Definition BandwidthPolicies (c : Collector) : gmap string BandwidthLimit := bandwidths c.

Definition SetQuotaPolicy (id : string) (quota : option TrafficQuota) (c : Collector) : Collector :=
  let id := TrimSpace id in
  set_quotas (match quota with
              | None => delete id (quotas c)
              | Some value => <[id := value]> (quotas c)
              end) c.
Definition QuotaPolicy (id : string) (c : Collector) : option TrafficQuota :=
  quotas c !! TrimSpace id.
Definition RuleProtocols (c : Collector) : gmap string Protocol := protocols c.

(** ** Updates through a bound handle *)

Definition update (h : boundRuleStats) (f : ruleCounter → ruleCounter) (c : Collector) : Collector :=
  match h with
  | None => c
  | Some l => set_heap (alter f l (heap c)) c
  end.

Definition addUpload (now : Z) (h : boundRuleStats) (n : Z) (c : Collector) : Collector :=
  if n <=? 0 then c else update h (λ k, set_upload (add64 (uploadTotal k) n) now k) c.
Definition addDownload (now : Z) (h : boundRuleStats) (n : Z) (c : Collector) : Collector :=
  if n <=? 0 then c else update h (λ k, set_download (add64 (downloadTotal k) n) now k) c.
Definition incConns (now : Z) (h : boundRuleStats) (c : Collector) : Collector :=
  update h (λ k, set_conns (add64 (conns k) 1) now k) c.
Definition decConns (now : Z) (h : boundRuleStats) (c : Collector) : Collector :=
  update h (λ k, set_conns (add64 (conns k) (-1)) now k) c.
Definition setConns (now : Z) (h : boundRuleStats) (v : Z) (c : Collector) : Collector :=
  update h (set_conns v now) c.
Definition incUDPSessionRejected (now : Z) (h : boundRuleStats) (c : Collector) : Collector :=
  update h (λ k, set_udp_rejected (add64 (udpSessionRejected k) 1) now k) c.
Definition incSourceIPDenied (now : Z) (h : boundRuleStats) (c : Collector) : Collector :=
  update h (λ k, set_source_denied (add64 (sourceIPDenied k) 1) now k) c.
Definition incUDPPacketsDropped (now : Z) (h : boundRuleStats) (c : Collector) : Collector :=
  update h (λ k, set_udp_dropped (add64 (udpPacketsDropped k) 1) now k) c.
Definition addQuotaRejectedBytes (now : Z) (h : boundRuleStats) (n : Z) (c : Collector) : Collector :=
  if n <=? 0 then c else update h (λ k, set_quota_rejected (add64 (quotaRejectedBytes k) n) now k) c.

(** ** The public operations by rule id *)

Definition bound (now : Z) (id : string) (op : boundRuleStats → Collector → Collector)
    (c : Collector) : Collector :=
  let '(h, c) := bindRule now id c in op h c.

Definition AddUpload now id n c := if n <=? 0 then c else bound now id (λ h, addUpload now h n) c.
Definition AddDownload now id n c := if n <=? 0 then c else bound now id (λ h, addDownload now h n) c.
Definition IncConns now id c := bound now id (incConns now) c.
Definition DecConns now id c := bound now id (decConns now) c.
Definition SetConns now id v c := bound now id (λ h, setConns now h v) c.
Definition IncUDPSessionRejected now id c := bound now id (incUDPSessionRejected now) c.
Definition IncSourceIPDenied now id c := bound now id (incSourceIPDenied now) c.
Definition IncUDPPacketsDropped now id c := bound now id (incUDPPacketsDropped now) c.
Definition AddQuotaRejectedBytes now id n c :=
  if n <=? 0 then c else bound now id (λ h, addQuotaRejectedBytes now h n) c.

(** ** Snapshots *)

Record TrafficSnapshot := {
  s_RuleID : string; s_UploadBytes : Z; s_DownloadBytes : Z; s_Conns : Z;
  s_SourceIPDenied : Z; s_UDPSessionRejected : Z; s_UDPPacketsDropped : Z;
  s_QuotaRejectedBytes : Z; s_UpdatedTime : Z
}.

Definition snapshotCounter (id : string) (k : option ruleCounter) : TrafficSnapshot :=
  match k with
  | None => {| s_RuleID := id; s_UploadBytes := 0; s_DownloadBytes := 0; s_Conns := 0;
               s_SourceIPDenied := 0; s_UDPSessionRejected := 0; s_UDPPacketsDropped := 0;
               s_QuotaRejectedBytes := 0; s_UpdatedTime := 0 |}
  | Some k => {| s_RuleID := id; s_UploadBytes := uploadTotal k; s_DownloadBytes := downloadTotal k;
                 s_Conns := conns k; s_SourceIPDenied := sourceIPDenied k;
                 s_UDPSessionRejected := udpSessionRejected k;
                 s_UDPPacketsDropped := udpPacketsDropped k;
                 s_QuotaRejectedBytes := quotaRejectedBytes k; s_UpdatedTime := updatedAtUnix k |}
  end.

(** The counter block a rule id refers to. *)
Definition counter_of (c : Collector) (id : string) : option ruleCounter :=
  l ← counters c !! id; heap c !! l.

Definition Snapshot (id : string) (c : Collector) : TrafficSnapshot :=
  let id := TrimSpace id in snapshotCounter id (counter_of c id).

Definition SnapshotAll (c : Collector) : list TrafficSnapshot :=
  (λ id, snapshotCounter id (counter_of c id)) <$> sorted_keys (counters c).

Definition restore_counter (now : Z) (s : TrafficSnapshot) (k : ruleCounter) : ruleCounter := {|
  uploadTotal := s_UploadBytes s; downloadTotal := s_DownloadBytes s; conns := conns k;
  sourceIPDenied := s_SourceIPDenied s; udpSessionRejected := s_UDPSessionRejected s;
  udpPacketsDropped := s_UDPPacketsDropped s; quotaRejectedBytes := s_QuotaRejectedBytes s;
  updatedAtUnix := now |}.

Definition Restore (now : Z) (snapshots : list TrafficSnapshot) (c : Collector) : Collector :=
  foldl (λ c s, bound now (s_RuleID s) (λ h, update h (restore_counter now s)) c) c snapshots.

(** ** Invariant: every id of the map has a block of its own *)

Record collector_wf (c : Collector) : Prop := {
  wf_next : ∀ l, is_Some (heap c !! l) → (l < next_loc c)%positive;
  wf_block : ∀ id l, counters c !! id = Some l → is_Some (heap c !! l);
  wf_inj : ∀ id id' l, counters c !! id = Some l → counters c !! id' = Some l → id = id';
}.

Lemma NewCollector_wf : collector_wf NewCollector.
Proof. split; simpl; intros *; rewrite ?lookup_empty; [intros [? [=]]|done|done]. Qed.

Lemma allocate_wf now id c : collector_wf c → collector_wf (allocate now id c).
Proof.
  intros [Hn Hb Hi]. assert (Hfresh : ∀ i l, counters c !! i = Some l → l ≠ next_loc c).
  { intros i l Hl ->. apply Hb, Hn in Hl. lia. }
  split; simpl.
  - intros l [k Hk]. apply lookup_insert_Some in Hk as [[<- _]|[_ Hk]]; [lia|].
    assert (l < next_loc c)%positive by eauto. lia.
  - intros i l Hl. apply lookup_insert_Some in Hl as [[_ <-]|[_ Hl]].
    + rewrite lookup_insert_eq. eauto.
    + rewrite lookup_insert_ne; [eauto|]. intros E. by apply (Hfresh i l).
  - intros i i' l Hl Hl'.
    apply lookup_insert_Some in Hl as [[<- <-]|[Hne Hl]];
      apply lookup_insert_Some in Hl' as [[<- E]|[Hne' Hl']]; [done| | |eauto].
    + by destruct (Hfresh i' (next_loc c)).
    + subst. by destruct (Hfresh i (next_loc c)).
Qed.

Lemma getCounter_wf now id c : collector_wf c → collector_wf (snd (getCounter now id c)).
Proof. unfold getCounter. destruct (counters c !! id); [done|]. apply allocate_wf. Qed.

Lemma update_wf h f c : collector_wf c → collector_wf (update h f c).
Proof.
  intros [Hn Hb Hi]. destruct h as [l|]; [|done]. split; simpl.
  - intros l' [k Hk]. apply Hn. destruct (decide (l = l')) as [->|].
    + rewrite lookup_alter_eq in Hk. by destruct (heap c !! l').
    + rewrite lookup_alter_ne in Hk; eauto.
  - intros id l' Hl. apply Hb in Hl as [k Hk]. destruct (decide (l = l')) as [->|].
    + rewrite lookup_alter_eq, Hk. eauto.
    + rewrite lookup_alter_ne; eauto.
  - eauto.
Qed.

Lemma delete_counter_wf id c : collector_wf c → collector_wf (set_counters (delete id (counters c)) c).
Proof.
  intros [Hn Hb Hi]. split; simpl; [done| |].
  - intros i l [_ Hl]%lookup_delete_Some. eauto.
  - intros i i' l [_ Hl]%lookup_delete_Some [_ Hl']%lookup_delete_Some. eauto.
Qed.

Lemma wf_same_store c c' :
  heap c' = heap c → next_loc c' = next_loc c → counters c' = counters c →
  collector_wf c → collector_wf c'.
Proof. intros Hh Hn Hc []. by split; rewrite ?Hh, ?Hn, ?Hc. Qed.

Lemma RemoveRule_wf id c : collector_wf c → collector_wf (RemoveRule id c).
Proof.
  intros Hwf. unfold RemoveRule. case_bool_decide; [done|].
  by eapply wf_same_store; [..|apply (delete_counter_wf (TrimSpace id)), Hwf].
Qed.

Lemma bound_wf now id op c :
  (∀ h c, collector_wf c → collector_wf (op h c)) → collector_wf c → collector_wf (bound now id op c).
Proof.
  intros Hop Hwf. unfold bound, bindRule. destruct (getCounter now (TrimSpace id) c) as [l c'] eqn:E.
  apply Hop. pose proof (getCounter_wf now (TrimSpace id) c Hwf) as H. by rewrite E in H.
Qed.

(** ** The abstract collector: a map from rule ids to counter values *)

Definition view (c : Collector) : gmap string ruleCounter :=
  omap (λ l, heap c !! l) (counters c).

Lemma lookup_view c id : view c !! id = counter_of c id.
Proof. unfold view, counter_of. by rewrite lookup_omap. Qed.

Lemma view_same_store c c' : heap c' = heap c → counters c' = counters c → view c' = view c.
Proof. unfold view. by intros -> ->. Qed.

Lemma view_allocate now id c :
  collector_wf c → view (allocate now id c) = <[id := new_counter now]> (view c).
Proof.
  intros [Hn Hb _]. apply map_eq. intros i. rewrite lookup_view. unfold counter_of. simpl.
  destruct (decide (id = i)) as [->|Hne].
  - by rewrite !lookup_insert_eq; simpl; rewrite lookup_insert_eq.
  - rewrite !lookup_insert_ne, lookup_view by done. unfold counter_of.
    destruct (counters c !! i) as [l|] eqn:E; simpl; [|done].
    rewrite lookup_insert_ne; [done|]. intros <-. apply Hb, Hn in E. lia.
Qed.

Lemma view_getCounter now id c :
  collector_wf c →
  let '(l, c') := getCounter now id c in
  collector_wf c' ∧ counters c' !! id = Some l ∧
  view c' = <[id := default (new_counter now) (view c !! id)]> (view c).
Proof.
  intros Hwf. pose proof (getCounter_wf now id c Hwf) as Hwf'. unfold getCounter in *.
  destruct (counters c !! id) as [l|] eqn:E; simpl in *.
  - split_and!; [done|done|]. destruct (wf_block c Hwf id l E) as [k Hk].
    rewrite lookup_view. unfold counter_of. rewrite E. simpl. rewrite Hk. simpl.
    rewrite insert_id; [done|]. rewrite lookup_view. unfold counter_of. by rewrite E.
  - split_and!; [done|by rewrite lookup_insert_eq|]. rewrite view_allocate by done.
    rewrite lookup_view. unfold counter_of. by rewrite E.
Qed.

Lemma view_update id l f c :
  collector_wf c → counters c !! id = Some l →
  view (update (Some l) f c) = alter f id (view c).
Proof.
  intros Hwf Hl. apply map_eq. intros i. rewrite lookup_view. unfold counter_of. simpl.
  destruct (decide (id = i)) as [->|Hne].
  - rewrite lookup_alter_eq, lookup_view. unfold counter_of. rewrite Hl. simpl.
    by rewrite lookup_alter_eq.
  - rewrite lookup_alter_ne, lookup_view by done. unfold counter_of.
    destruct (counters c !! i) as [l'|] eqn:E; simpl; [|done].
    rewrite lookup_alter_ne; [done|]. intros <-. by apply Hne, (wf_inj c Hwf _ _ l).
Qed.

Lemma view_bound now id f c :
  collector_wf c →
  view (bound now id (λ h, update h f) c) =
    <[TrimSpace id := f (default (new_counter now) (view c !! TrimSpace id))]> (view c).
Proof.
  intros Hwf. unfold bound, bindRule. pose proof (view_getCounter now (TrimSpace id) c Hwf) as H.
  destruct (getCounter now (TrimSpace id) c) as [l c']. destruct H as (Hwf' & Hl & Hv).
  rewrite (view_update _ _ _ _ Hwf' Hl), Hv. apply map_eq. intros i.
  destruct (decide (TrimSpace id = i)) as [<-|Hne].
  - by rewrite lookup_alter_eq, !lookup_insert_eq.
  - by rewrite lookup_alter_ne, !lookup_insert_ne.
Qed.

Lemma view_RemoveRule id c :
  view (RemoveRule id c) =
    if bool_decide (TrimSpace id = "") then view c else delete (TrimSpace id) (view c).
Proof.
  unfold RemoveRule. case_bool_decide; [done|]. unfold view. simpl.
  apply map_eq. intros i. rewrite lookup_omap. destruct (decide (TrimSpace id = i)) as [<-|].
  - by rewrite !lookup_delete_eq.
  - by rewrite !lookup_delete_ne, lookup_omap.
Qed.

(** The operations that other packages call, by rule id. *)
Inductive CollectorOp :=
| OpEnsureRule (id : string)
| OpEnsureRuleProtocol (id : string) (p : Protocol)
| OpRemoveRule (id : string)
| OpSetBandwidthPolicy (id : string) (b : option BandwidthLimit)
| OpSetQuotaPolicy (id : string) (q : option TrafficQuota)
| OpAddUpload (id : string) (n : Z)
| OpAddDownload (id : string) (n : Z)
| OpIncConns (id : string)
| OpDecConns (id : string)
| OpSetConns (id : string) (v : Z)
| OpIncUDPSessionRejected (id : string)
| OpIncSourceIPDenied (id : string)
| OpIncUDPPacketsDropped (id : string)
| OpAddQuotaRejectedBytes (id : string) (n : Z)
| OpRestore (snapshots : list TrafficSnapshot).

Definition collector_step (now : Z) (op : CollectorOp) : Collector → Collector :=
  match op with
  | OpEnsureRule id => EnsureRule now id
  | OpEnsureRuleProtocol id p => EnsureRuleProtocol now id p
  | OpRemoveRule id => RemoveRule id
  | OpSetBandwidthPolicy id b => SetBandwidthPolicy id b
  | OpSetQuotaPolicy id q => SetQuotaPolicy id q
  | OpAddUpload id n => AddUpload now id n
  | OpAddDownload id n => AddDownload now id n
  | OpIncConns id => IncConns now id
  | OpDecConns id => DecConns now id
  | OpSetConns id v => SetConns now id v
  | OpIncUDPSessionRejected id => IncUDPSessionRejected now id
  | OpIncSourceIPDenied id => IncSourceIPDenied now id
  | OpIncUDPPacketsDropped id => IncUDPPacketsDropped now id
  | OpAddQuotaRejectedBytes id n => AddQuotaRejectedBytes now id n
  | OpRestore snapshots => Restore now snapshots
  end.

(** What each operation does to the abstract collector. *)
Definition spec_modify (now : Z) (id : string) (f : ruleCounter → ruleCounter)
    (m : gmap string ruleCounter) : gmap string ruleCounter :=
  <[TrimSpace id := f (default (new_counter now) (m !! TrimSpace id))]> m.
Definition spec_add (n : Z) (m m' : gmap string ruleCounter) : gmap string ruleCounter :=
  if n <=? 0 then m else m'.

Definition collector_spec (now : Z) (op : CollectorOp) (m : gmap string ruleCounter)
    : gmap string ruleCounter :=
  match op with
  | OpEnsureRule id | OpEnsureRuleProtocol id _ => spec_modify now id (λ k, k) m
  | OpRemoveRule id => if bool_decide (TrimSpace id = "") then m else delete (TrimSpace id) m
  | OpSetBandwidthPolicy _ _ | OpSetQuotaPolicy _ _ => m
  | OpAddUpload id n =>
      spec_add n m (spec_modify now id (λ k, set_upload (add64 (uploadTotal k) n) now k) m)
  | OpAddDownload id n =>
      spec_add n m (spec_modify now id (λ k, set_download (add64 (downloadTotal k) n) now k) m)
  | OpIncConns id => spec_modify now id (λ k, set_conns (add64 (conns k) 1) now k) m
  | OpDecConns id => spec_modify now id (λ k, set_conns (add64 (conns k) (-1)) now k) m
  | OpSetConns id v => spec_modify now id (set_conns v now) m
  | OpIncUDPSessionRejected id =>
      spec_modify now id (λ k, set_udp_rejected (add64 (udpSessionRejected k) 1) now k) m
  | OpIncSourceIPDenied id =>
      spec_modify now id (λ k, set_source_denied (add64 (sourceIPDenied k) 1) now k) m
  | OpIncUDPPacketsDropped id =>
      spec_modify now id (λ k, set_udp_dropped (add64 (udpPacketsDropped k) 1) now k) m
  | OpAddQuotaRejectedBytes id n =>
      spec_add n m
        (spec_modify now id (λ k, set_quota_rejected (add64 (quotaRejectedBytes k) n) now k) m)
  | OpRestore snapshots =>
      foldl (λ m s, spec_modify now (s_RuleID s) (restore_counter now s) m) m snapshots
  end.

(** One step of the collector, its invariant kept, on the abstract map. *)
Lemma bound_refines now id f c :
  collector_wf c →
  collector_wf (bound now id (λ h, update h f) c) ∧
  view (bound now id (λ h, update h f) c) = spec_modify now id f (view c).
Proof.
  intros Hwf. split; [|by apply view_bound].
  apply bound_wf; [|done]. intros h c'. apply update_wf.
Qed.

Lemma EnsureRule_refines now id c :
  collector_wf c →
  collector_wf (EnsureRule now id c) ∧
  view (EnsureRule now id c) = spec_modify now id (λ k, k) (view c).
Proof.
  intros Hwf. unfold EnsureRule. pose proof (view_getCounter now (TrimSpace id) c Hwf) as H.
  destruct (getCounter now (TrimSpace id) c) as [l c']. by destruct H as (? & _ & ?).
Qed.

Lemma EnsureRuleProtocol_refines now id p c :
  collector_wf c →
  collector_wf (EnsureRuleProtocol now id p c) ∧
  view (EnsureRuleProtocol now id p c) = spec_modify now id (λ k, k) (view c).
Proof.
  intros Hwf. destruct (EnsureRule_refines now id c Hwf) as [Hw Hv].
  unfold EnsureRuleProtocol. unfold EnsureRule, getCounter in *.
  destruct (counters c !! TrimSpace id) as [l|]; simpl in *.
  - split; [by eapply wf_same_store; [..|exact Hw]|]. by rewrite <-Hv.
  - split; [by eapply wf_same_store; [..|exact Hw]|]. by rewrite <-Hv.
Qed.

Lemma Restore_refines now snapshots c :
  collector_wf c →
  collector_wf (Restore now snapshots c) ∧
  view (Restore now snapshots c) =
    foldl (λ m s, spec_modify now (s_RuleID s) (restore_counter now s) m) (view c) snapshots.
Proof.
  unfold Restore. revert c. induction snapshots as [|s l IH]; intros c Hwf; simpl; [done|].
  destruct (bound_refines now (s_RuleID s) (restore_counter now s) c Hwf) as [Hw Hv].
  rewrite <-Hv. by apply IH.
Qed.

Lemma collector_step_refines now op c :
  collector_wf c →
  collector_wf (collector_step now op c) ∧
  view (collector_step now op c) = collector_spec now op (view c).
Proof.
  intros Hwf. destruct op; simpl;
    unfold AddUpload, AddDownload, AddQuotaRejectedBytes, addUpload, addDownload,
      addQuotaRejectedBytes, spec_add;
    try (destruct (_ <=? 0); [done|]);
    try by apply bound_refines.
  - by apply EnsureRule_refines.
  - by apply EnsureRuleProtocol_refines.
  - split; [by apply RemoveRule_wf|apply view_RemoveRule].
  - by split; [eapply wf_same_store; [..|exact Hwf]|].
  - by split; [eapply wf_same_store; [..|exact Hwf]|].
  - by apply Restore_refines.
Qed.

(** A history: operations with the time at which they ran. *)
Definition run_collector (ops : list (Z * CollectorOp)) (c : Collector) : Collector :=
  foldl (λ c op, collector_step (fst op) (snd op) c) c ops.
Definition run_spec (ops : list (Z * CollectorOp)) (m : gmap string ruleCounter)
    : gmap string ruleCounter :=
  foldl (λ m op, collector_spec (fst op) (snd op) m) m ops.

Lemma run_refines ops c :
  collector_wf c →
  collector_wf (run_collector ops c) ∧ view (run_collector ops c) = run_spec ops (view c).
Proof.
  revert c. induction ops as [|[now op] ops IH]; intros c Hwf; [done|]. simpl.
  destruct (collector_step_refines now op c Hwf) as [Hw <-]. by apply IH.
Qed.

(** ** Detached handles *)

(** No rule refers to the block any more, and none will. *)
Definition detached (l : loc) (c : Collector) : Prop :=
  (l < next_loc c)%positive ∧ ∀ id, counters c !! id ≠ Some l.

Lemma detached_update l f c : detached l c → view (update (Some l) f c) = view c.
Proof.
  intros [_ Hd]. apply map_eq. intros i. rewrite !lookup_view. unfold counter_of. simpl.
  destruct (counters c !! i) as [l'|] eqn:E; simpl; [|done].
  rewrite lookup_alter_ne; [done|]. intros <-. by apply (Hd i).
Qed.

Lemma detached_allocate l now id c : detached l c → detached l (allocate now id c).
Proof.
  intros [Hn Hd]. split; simpl; [lia|]. intros i E.
  apply lookup_insert_Some in E as [[_ E]|[_ E]]; [|by apply (Hd i)]. subst. lia.
Qed.

Lemma detached_same_store l c c' :
  next_loc c' = next_loc c → (∀ id k, counters c' !! id = Some k → counters c !! id = Some k) →
  detached l c → detached l c'.
Proof. intros Hn Hc [Hl Hd]. split; [by rewrite Hn|]. intros id E. by apply (Hd id), Hc. Qed.

Lemma detached_bound l now id f c :
  detached l c → detached l (bound now id (λ h, update h f) c).
Proof.
  intros Hd. unfold bound, bindRule, getCounter.
  destruct (counters c !! TrimSpace id) as [k|]; simpl.
  - by eapply detached_same_store; [..|exact Hd].
  - by eapply detached_same_store; [..|apply (detached_allocate _ now (TrimSpace id)), Hd].
Qed.

Lemma detached_step l now op c : detached l c → detached l (collector_step now op c).
Proof.
  intros Hd. destruct op; simpl;
    unfold AddUpload, AddDownload, AddQuotaRejectedBytes, addUpload, addDownload,
      addQuotaRejectedBytes;
    try (destruct (_ <=? 0); [done|]);
    try by apply detached_bound.
  - unfold EnsureRule, getCounter. destruct (counters c !! TrimSpace id); [done|].
    by apply detached_allocate.
  - unfold EnsureRuleProtocol. destruct (counters c !! TrimSpace id);
      [by eapply detached_same_store; [..|exact Hd]|].
    by eapply detached_same_store; [..|apply (detached_allocate _ now (TrimSpace id)), Hd].
  - unfold RemoveRule. case_bool_decide; [done|].
    eapply detached_same_store; [| |exact Hd]; [done|]. simpl. by intros i k [_ ?]%lookup_delete_Some.
  - by eapply detached_same_store; [..|exact Hd].
  - by eapply detached_same_store; [..|exact Hd].
  - unfold Restore. revert c Hd. induction snapshots as [|s l' IH]; intros c Hd; simpl; [done|].
    by apply IH, detached_bound.
Qed.

Lemma detached_run l ops c : detached l c → detached l (run_collector ops c).
Proof.
  revert c. induction ops as [|[now op] ops IH]; intros c Hd; simpl; [done|].
  by apply IH, detached_step.
Qed.

Lemma RemoveRule_detaches id l c :
  collector_wf c → TrimSpace id ≠ "" → counters c !! TrimSpace id = Some l →
  detached l (RemoveRule id c).
Proof.
  intros Hwf Hid Hl. unfold RemoveRule. rewrite bool_decide_eq_false_2 by done. split; simpl.
  - by apply (wf_next c Hwf), (wf_block c Hwf (TrimSpace id)).
  - intros i [Hne Hi]%lookup_delete_Some. by apply Hne, (wf_inj c Hwf _ _ l).
Qed.

(** ** Properties *)

(** C38: the collector is a map from trimmed rule ids to counter values. After
    any history of the public operations, starting from an empty collector, a
    snapshot of any rule reads exactly the counters the abstract map has under
    its trimmed id, and [SnapshotAll] lists one snapshot per rule of the map in
    ascending order of the ids: two rules never share a counter block. *)
Theorem collector_refines_map ops id :
  let c := run_collector ops NewCollector in
  let m := run_spec ops ∅ in
  Snapshot id c = snapshotCounter (TrimSpace id) (m !! TrimSpace id) ∧
  SnapshotAll c = (λ i, snapshotCounter i (m !! i)) <$> sorted_keys m.
Proof.
  destruct (run_refines ops NewCollector NewCollector_wf) as [Hwf Hv].
  change (view NewCollector) with (∅ : gmap string ruleCounter) in Hv. cbv zeta.
  rewrite <-Hv. split.
  - unfold Snapshot. by rewrite lookup_view.
  - unfold SnapshotAll.
    assert (sorted_keys (view (run_collector ops NewCollector)) =
            sorted_keys (counters (run_collector ops NewCollector))) as ->.
    { apply sorted_keys_dom. apply set_eq. intros i. rewrite !elem_of_dom, lookup_view.
      unfold counter_of. destruct (counters _ !! i) as [l|] eqn:E; simpl.
      - split; [eauto|]. intros _. by apply (wf_block _ Hwf i).
      - by split; intros [? ?]. }
    apply list_fmap_ext. intros ? i _. by rewrite lookup_view.
Qed.

(** a handle bound before a rule was removed stays harmless. Once
    [RemoveRule] has run, whatever operations follow (the rule may be created
    again under the same id), an update through the old handle changes no
    counter that any rule can observe. *)
Theorem removed_handle_is_detached before id l after f :
  let c := run_collector before NewCollector in
  TrimSpace id ≠ "" → counters c !! TrimSpace id = Some l →
  let c' := run_collector after (RemoveRule id c) in
  ∀ i, Snapshot i (update (Some l) f c') = Snapshot i c'.
Proof.
  intros c Hid Hl c' i.
  destruct (run_refines before NewCollector NewCollector_wf) as [Hwf _].
  assert (detached l c') as Hd by by apply detached_run, RemoveRule_detaches.
  unfold Snapshot. by rewrite <-!lookup_view, (detached_update l f c' Hd).
Qed.

Lemma removed_handle_is_detached_witness :
  let c := run_collector [(5, OpAddUpload "web" 7)] NewCollector in
  let c' := run_collector [(6, OpEnsureRule "web")] (RemoveRule "web" c) in
  counters c !! TrimSpace "web" = Some 1%positive ∧
  Snapshot "web" (addUpload 9 (Some 1%positive) 100 c') = Snapshot "web" c'.
Proof.
  split; [by vm_compute|].
  apply (removed_handle_is_detached [(5, OpAddUpload "web" 7)] "web" 1%positive
           [(6, OpEnsureRule "web")]); by vm_compute.
Defined.
