(* ===== verification/Quota.v ===== *)
(** * The traffic quota ledger (engine/quota.go)

    [QuotaLedger] grants forwarding bytes against a rule's daily and monthly
    budgets and persists a durable high-water mark with a write-behind,
    single-flight flush.  Every critical section under [ledger.mu] is one
    function here; the system at the end of the file interleaves them with the
    store, as the goroutines do.  [now] is the clock in nanoseconds. *)

From S2P Require Import Prelude GoStrings Calendar SourceIP Limits Rule.

(** ** State *)

Record quotaRuleUsage := {
  dailyUsed : gmap string Z;
  dailyDurable : gmap string Z;
  monthlyUsed : gmap string Z;
  monthlyDurable : gmap string Z;
}.

(** An error value of the store: its message. *)
Notation StoreError := string (only parsing).

Record QuotaLedger := {
  has_store : bool;
  states : gmap string quotaRuleUsage;
  locations : gmap string Location;
  flushPending : bool;
  flushErr : option StoreError;
  flushing : bool;
  flushFailAt : Z;
}.

Record QuotaPersistentState := {
  p_RuleID : string;
  p_Daily : gmap string Z;
  p_Monthly : gmap string Z;
}.

Definition set_states m (l : QuotaLedger) : QuotaLedger := {|
  has_store := has_store l; states := m; locations := locations l; flushPending := flushPending l;
  flushErr := flushErr l; flushing := flushing l; flushFailAt := flushFailAt l |}.
Definition set_locations m (l : QuotaLedger) : QuotaLedger := {|
  has_store := has_store l; states := states l; locations := m; flushPending := flushPending l;
  flushErr := flushErr l; flushing := flushing l; flushFailAt := flushFailAt l |}.
Definition set_flush pending err flying at_ (l : QuotaLedger) : QuotaLedger := {|
  has_store := has_store l; states := states l; locations := locations l; flushPending := pending;
  flushErr := err; flushing := flying; flushFailAt := at_ |}.

Definition newQuotaRuleUsage : quotaRuleUsage :=
  {| dailyUsed := ∅; dailyDurable := ∅; monthlyUsed := ∅; monthlyDurable := ∅ |}.

(** ** Loading *)

Inductive LoadError :=
| LoadFailed (e : StoreError) | EmptyRuleID | DuplicateRuleID (id : string)
| InvalidDaily (id : string) | InvalidMonthly (id : string).

#[export] Instance LoadError_eq_dec : EqDecision LoadError.
Proof. solve_decision. Defined.

(** [restoreQuotaPeriods]: the used and the durable map start as copies of the
    stored one, unless a period is invalid (the error names one of them). *)
Definition periods_valid (source : gmap string Z) : Prop :=
  map_Forall (λ period value, period ≠ "" ∧ 0 ≤ value) source.
#[export] Instance periods_valid_dec source : Decision (periods_valid source).
Proof. unfold periods_valid. apply _. Defined.

Definition restoreQuotaPeriods (e : LoadError) (source : gmap string Z) : result LoadError (gmap string Z) :=
  if bool_decide (periods_valid source) then Ok source else Err e.

Definition load_record (states : gmap string quotaRuleUsage) (record : QuotaPersistentState)
    : result LoadError (gmap string quotaRuleUsage) :=
  check (bool_decide (p_RuleID record = "")) EmptyRuleID ≫= λ _,
  check (bool_decide (is_Some (states !! p_RuleID record))) (DuplicateRuleID (p_RuleID record)) ≫= λ _,
  restoreQuotaPeriods (InvalidDaily (p_RuleID record)) (p_Daily record) ≫= λ daily,
  restoreQuotaPeriods (InvalidMonthly (p_RuleID record)) (p_Monthly record) ≫= λ monthly,
  Ok (<[p_RuleID record := {| dailyUsed := daily; dailyDurable := daily;
                              monthlyUsed := monthly; monthlyDurable := monthly |}]> states).

Fixpoint load_records (states : gmap string quotaRuleUsage) (records : list QuotaPersistentState)
    : result LoadError (gmap string quotaRuleUsage) :=
  match records with
  | [] => Ok states
  | record :: records => load_record states record ≫= λ states, load_records states records
  end.

Definition empty_ledger (store : bool) : QuotaLedger := {|
  has_store := store; states := ∅; locations := ∅; flushPending := false; flushErr := None;
  flushing := false; flushFailAt := 0 |}.

(** [newQuotaLedger]: without a store, or from what [LoadQuotaState] returned. *)
Definition newQuotaLedger (store : option (result StoreError (list QuotaPersistentState)))
    : result LoadError QuotaLedger :=
  match store with
  | None => Ok (empty_ledger false)
  | Some (Err e) => Err (LoadFailed e)
  | Some (Ok records) =>
      load_records ∅ records ≫= λ states, Ok (set_states states (empty_ledger true))
  end.

(** [persistentStateLocked] *)
Definition persistent_record (id : string) (state : quotaRuleUsage) : QuotaPersistentState :=
  {| p_RuleID := id; p_Daily := dailyDurable state; p_Monthly := monthlyDurable state |}.
Definition persistentState (l : QuotaLedger) : list QuotaPersistentState :=
  (λ id, persistent_record id (default newQuotaRuleUsage (states l !! id))) <$> sorted_keys (states l).

(** ** Calendar periods *)

Record quotaPeriods := {
  pd_daily : string; pd_monthly : string; pd_dailyReset : Time; pd_monthlyReset : Time
}.


Definition periods_at (now : Z) (location : Location) : quotaPeriods :=
  let here := MkTime (now / second) location in
  let '(y, m, d) := CivilDate here in
  let dayStart := Date y m d 0 location in
  let monthStart := Date y m 1 0 location in
  {| pd_daily := FormatDay dayStart; pd_monthly := FormatMonth monthStart;
     pd_dailyReset := AddDate dayStart 0 0 1; pd_monthlyReset := AddDate monthStart 0 1 0 |}.

(** [periodsLocked] caches the location it looked up. *)
Definition periodsLocked `{!TzDatabase} (now : Z) (quota : TrafficQuota) (l : QuotaLedger)
    : option quotaPeriods * QuotaLedger :=
  let timezone := if bool_decide (q_timezone quota = "") then "UTC" else q_timezone quota in
  match locations l !! timezone with
  | Some location => (Some (periods_at now location), l)
  | None =>
      match LoadLocation timezone with
      | None => (None, l)
      | Some location =>
          (Some (periods_at now location), set_locations (<[timezone := location]> (locations l)) l)
      end
  end.

(** ** Pruning *)

Definition quotaRetainedPastPeriods : Z := 2.

(** [period < cutoff] of Go strings, decided. *)
Definition before (period cutoff : string) : bool :=
  match String.compare period cutoff with Lt => true | _ => false end.

Definition prunePeriodMap (cutoff : string) (values : gmap string Z) : gmap string Z :=
  filter (λ kv, before kv.1 cutoff = false) values.

Definition daily_cutoff (periods : quotaPeriods) : string :=
  FormatDay (AddDate (pd_dailyReset periods) 0 0 (-(quotaRetainedPastPeriods + 1))).
Definition monthly_cutoff (periods : quotaPeriods) : string :=
  FormatMonth (AddDate (pd_monthlyReset periods) 0 (-(quotaRetainedPastPeriods + 1)) 0).

Definition pruneQuotaPeriods (periods : quotaPeriods) (state : quotaRuleUsage) : quotaRuleUsage :=
  let prune_daily := quotaRetainedPastPeriods + 1 <? Z.of_nat (size (dailyUsed state)) in
  let prune_monthly := quotaRetainedPastPeriods + 1 <? Z.of_nat (size (monthlyUsed state)) in
  let daily m := if prune_daily then prunePeriodMap (daily_cutoff periods) m else m in
  let monthly m := if prune_monthly then prunePeriodMap (monthly_cutoff periods) m else m in
  {| dailyUsed := daily (dailyUsed state); dailyDurable := daily (dailyDurable state);
     monthlyUsed := monthly (monthlyUsed state); monthlyDurable := monthly (monthlyDurable state) |}.

(** ** Granting *)

Inductive QuotaError := QuotaExceeded | PersistFailed (e : StoreError) | UnknownZone.

#[export] Instance QuotaError_eq_dec : EqDecision QuotaError.
Proof. solve_decision. Defined.

Record quotaReservation := {
  rv_ruleID : string; rv_daily : string; rv_monthly : string; rv_bytes : Z; rv_done : bool
}.

Definition activePeriod (enabled : bool) (period : string) : string :=
  if enabled then period else "".

(** One budget: what the period's limit leaves of [allowed]. *)
Definition cap (limit : Z) (used : gmap string Z) (period : string) (allowed : Z) : Z :=
  if 0 <? limit then Z.min allowed (Z.max 0 (sub64 limit (map_get used period))) else allowed.

(** [growDurablePeriod] *)
Definition growDurablePeriod (used : gmap string Z) (period : string) (limit allowed chunk : Z)
    (durable : gmap string Z) : bool * gmap string Z :=
  let required := add64 (map_get used period) allowed in
  if required <=? map_get durable period then (false, durable)
  else
    let target := Z.max required (add64 (map_get durable period) chunk) in
    (true, <[period := Z.min limit target]> durable).

Definition grow (limit : Z) (used : gmap string Z) (period : string) (allowed chunk : Z)
    (durable : gmap string Z) : bool * gmap string Z :=
  if 0 <? limit then growDurablePeriod used period limit allowed chunk durable else (false, durable).

Definition add_used (limit : Z) (period : string) (allowed : Z) (used : gmap string Z) : gmap string Z :=
  if 0 <? limit then <[period := add64 (map_get used period) allowed]> used else used.

(** The bytes the two budgets allow, lines 225-231. *)
Definition allowance (quota : TrafficQuota) (periods : quotaPeriods) (state : quotaRuleUsage)
    (requested : Z) : Z :=
  cap (q_monthly quota) (monthlyUsed state) (pd_monthly periods)
    (cap (q_daily quota) (dailyUsed state) (pd_daily periods) requested).

(** The state after a grant and whether a durable mark moved, lines 236-262. *)
Definition apply_grant (quota : TrafficQuota) (periods : quotaPeriods) (allowed durableChunk : Z)
    (state : quotaRuleUsage) : bool * quotaRuleUsage :=
  let chunk := if durableChunk <=? 0 then 8 * 2 ^ 20 else durableChunk in
  let '(changed_d, daily) :=
    grow (q_daily quota) (dailyUsed state) (pd_daily periods) allowed chunk (dailyDurable state) in
  let '(changed_m, monthly) :=
    grow (q_monthly quota) (monthlyUsed state) (pd_monthly periods) allowed chunk
      (monthlyDurable state) in
  (changed_d || changed_m,
   {| dailyUsed := add_used (q_daily quota) (pd_daily periods) allowed (dailyUsed state);
      dailyDurable := daily;
      monthlyUsed := add_used (q_monthly quota) (pd_monthly periods) allowed (monthlyUsed state);
      monthlyDurable := monthly |}).

Record Request := {
  rq_ruleID : string; rq_quota : option TrafficQuota; rq_bytes : Z; rq_allOrNothing : bool;
  rq_chunk : Z
}.

(** [requested <= 0 || quota == nil || no limit]: nothing to account. *)
Definition unlimited (rq : Request) : bool :=
  (rq_bytes rq <=? 0) ||
  match rq_quota rq with
  | None => true
  | Some quota => (q_daily quota <=? 0) && (q_monthly quota <=? 0)
  end.

(** What one critical section of [reserve] tells its caller. *)
Inductive ReserveStep :=
| Granted (bytes : Z) (reservation : option quotaReservation) (flush : bool)
| Refused (e : QuotaError)
| MustFlush.      (* the caller won the single-flight guard and runs the flush itself *)

Definition mark_pending (changed : bool) (l : QuotaLedger) : bool * QuotaLedger :=
  if changed && has_store l then
    (negb (flushing l), set_flush true (flushErr l) true (flushFailAt l) l)
  else (false, l).

Section reserve.
Context `{!TzDatabase}.

(** Lines 214-277: the critical section that grants. *)
Definition reserve_grant (now : Z) (rq : Request) (quota : TrafficQuota) (l : QuotaLedger)
    : ReserveStep * QuotaLedger :=
  let '(found, l) := periodsLocked now quota l in
  match found with
  | None => (Refused UnknownZone, l)
  | Some periods =>
    let state := pruneQuotaPeriods periods
                   (default newQuotaRuleUsage (states l !! rq_ruleID rq)) in
    let allowed := allowance quota periods state (rq_bytes rq) in
    if (allowed <=? 0) || (rq_allOrNothing rq && (allowed <? rq_bytes rq)) then
      (Refused QuotaExceeded, set_states (<[rq_ruleID rq := state]> (states l)) l)
    else
      let '(changed, state) := apply_grant quota periods allowed (rq_chunk rq) state in
      let '(flush, l) := mark_pending changed
                           (set_states (<[rq_ruleID rq := state]> (states l)) l) in
      (Granted allowed
         (Some {| rv_ruleID := rq_ruleID rq;
                  rv_daily := activePeriod (0 <? q_daily quota) (pd_daily periods);
                  rv_monthly := activePeriod (0 <? q_monthly quota) (pd_monthly periods);
                  rv_bytes := allowed; rv_done := false |}) flush, l)
  end.

Definition quotaPersistRetryCooldown : Z := second.

(** Lines 183-212: the persistence gate, then the grant in the same section. *)
Definition reserve_enter (now : Z) (rq : Request) (l : QuotaLedger) : ReserveStep * QuotaLedger :=
  if unlimited rq then (Granted (rq_bytes rq) None false, l)
  else match rq_quota rq with
  | None => (Granted (rq_bytes rq) None false, l)
  | Some quota =>
    match flushErr l with
    | Some e =>
      if now - flushFailAt l <? quotaPersistRetryCooldown then (Refused (PersistFailed e), l)
      else if flushing l then
        (Refused (PersistFailed e), set_flush true (flushErr l) true (flushFailAt l) l)
      else (MustFlush, set_flush true (flushErr l) true (flushFailAt l) l)
    | None => reserve_grant now rq quota l
    end
  end.
End reserve.

(** ** Finishing a reservation *)

Definition refundQuotaPeriod (period : string) (amount : Z) (periods : gmap string Z) : gmap string Z :=
  if bool_decide (period = "") || (amount <=? 0) then periods
  else if amount <? map_get periods period
  then <[period := sub64 (map_get periods period) amount]> periods
  else <[period := 0]> periods.

Definition clamp_written (bytes written : Z) : Z :=
  let written := if written <? 0 then 0 else written in
  if bytes <? written then bytes else written.

Definition finish (written : Z) (r : quotaReservation) (l : QuotaLedger)
    : quotaReservation * QuotaLedger :=
  if rv_done r then (r, l)
  else
    let refund := sub64 (rv_bytes r) (clamp_written (rv_bytes r) written) in
    let r' := {| rv_ruleID := rv_ruleID r; rv_daily := rv_daily r; rv_monthly := rv_monthly r;
                 rv_bytes := rv_bytes r; rv_done := true |} in
    if refund =? 0 then (r', l)
    else match states l !! rv_ruleID r with
    | None => (r', l)
    | Some state =>
      let state := {| dailyUsed := refundQuotaPeriod (rv_daily r) refund (dailyUsed state);
                      dailyDurable := dailyDurable state;
                      monthlyUsed := refundQuotaPeriod (rv_monthly r) refund (monthlyUsed state);
                      monthlyDurable := monthlyDurable state |} in
      (r', set_states (<[rv_ruleID r := state]> (states l)) l)
    end.

(** ** The flush goroutine and the exact save *)

(** One round's first critical section: [None] when the queue is drained, else
    the snapshot to save outside the lock. *)
Definition flush_begin (l : QuotaLedger) : option (list QuotaPersistentState) * QuotaLedger :=
  if negb (flushPending l) then (None, set_flush false None false (flushFailAt l) l)
  else (Some (persistentState l), set_flush false (flushErr l) (flushing l) (flushFailAt l) l).

(** The critical section after a failed save. *)
Definition flush_failed (now : Z) (e : StoreError) (l : QuotaLedger) : QuotaLedger :=
  set_flush (flushPending l) (Some e) false now l.

Definition exact_usage (state : quotaRuleUsage) : quotaRuleUsage :=
  {| dailyUsed := dailyUsed state; dailyDurable := dailyUsed state;
     monthlyUsed := monthlyUsed state; monthlyDurable := monthlyUsed state |}.

(** [SaveExact] once no round is in flight; [outcome] is what the store said. *)
Definition exact_prepare (l : QuotaLedger) : QuotaLedger :=
  set_flush false (flushErr l) (flushing l) (flushFailAt l)
    (set_states (exact_usage <$> states l) l).
Definition exact_done (l : QuotaLedger) : QuotaLedger :=
  set_flush (flushPending l) None (flushing l) (flushFailAt l) l.

(** ** Snapshots *)

Record QuotaPeriodSnapshot := {
  qs_Period : string; qs_UsedBytes : Z; qs_LimitBytes : Z; qs_RemainingBytes : Z;
  qs_ResetTime : Z; qs_Exhausted : bool
}.
Record TrafficQuotaSnapshot := {
  qs_Daily : option QuotaPeriodSnapshot; qs_Monthly : option QuotaPeriodSnapshot; qs_Blocked : bool
}.

Definition quotaPeriodSnapshot (period : string) (used limit : Z) (reset : Time) : QuotaPeriodSnapshot :=
  {| qs_Period := period; qs_UsedBytes := used; qs_LimitBytes := limit;
     qs_RemainingBytes := Z.max 0 (sub64 limit used); qs_ResetTime := t_unix reset;
     qs_Exhausted := limit <=? used |}.

Definition periodUsage (state : option quotaRuleUsage) (daily : bool) (period : string) : Z :=
  match state with
  | None => 0
  | Some state => map_get (if daily then dailyUsed state else monthlyUsed state) period
  end.

Definition exhausted (s : option QuotaPeriodSnapshot) : bool :=
  match s with Some s => qs_Exhausted s | None => false end.

Definition quota_snapshot `{!TzDatabase} (now : Z) (id : string) (quota : option TrafficQuota)
    (l : QuotaLedger) : option TrafficQuotaSnapshot * QuotaLedger :=
  match quota with
  | None => (None, l)
  | Some quota =>
    if (q_daily quota <=? 0) && (q_monthly quota <=? 0) then (None, l)
    else
      let '(found, l) := periodsLocked now quota l in
      match found with
      | None => (Some {| qs_Daily := None; qs_Monthly := None; qs_Blocked := true |}, l)
      | Some periods =>
        let state := states l !! id in
        let daily := if 0 <? q_daily quota
          then Some (quotaPeriodSnapshot (pd_daily periods)
                       (periodUsage state true (pd_daily periods)) (q_daily quota)
                       (pd_dailyReset periods))
          else None in
        let monthly := if 0 <? q_monthly quota
          then Some (quotaPeriodSnapshot (pd_monthly periods)
                       (periodUsage state false (pd_monthly periods)) (q_monthly quota)
                       (pd_monthlyReset periods))
          else None in
        (Some {| qs_Daily := daily; qs_Monthly := monthly;
                 qs_Blocked := exhausted daily || exhausted monthly |}, l)
      end
  end.

Definition blocked `{!TzDatabase} (now : Z) (id : string) (quota : option TrafficQuota)
    (l : QuotaLedger) : bool * QuotaLedger :=
  let '(snapshot, l) := quota_snapshot now id quota l in
  (match snapshot with Some s => qs_Blocked s | None => false end, l).

(** ** The ledger, its store and its goroutines *)

(** The flush in progress: none; about to start a round; or saving a snapshot
    outside the lock.  [owner] is the [reserve] call that runs it itself, if
    any; otherwise it is the background goroutine. *)
Inductive Flusher :=
| NoFlush
| FlushReady (owner : option Request)
| Saving (snapshot : list QuotaPersistentState) (owner : option Request).

Record System := {
  ledger : QuotaLedger;
  disk : list QuotaPersistentState;      (* what the last successful save wrote *)
  flusher : Flusher;
  resumed : list Request;                (* callers whose own flush succeeded *)
  outstanding : list quotaReservation;
}.

Inductive Event :=
| EvReserve (now : Z) (rq : Request)
| EvFlushBegin
| EvSaved
| EvSaveFailed (now : Z) (e : StoreError)
| EvResume (index : nat) (now : Z)
| EvFinish (index : nat) (written : Z)
| EvSnapshot (now : Z) (id : string) (quota : option TrafficQuota)
| EvSaveExact (outcome : option StoreError).

Definition with_ledger l (s : System) : System := {|
  ledger := l; disk := disk s; flusher := flusher s; resumed := resumed s;
  outstanding := outstanding s |}.

(** The effect of a granting critical section on the system. *)
Definition after_reserve (rq : Request) (out : ReserveStep * QuotaLedger) (s : System) : System :=
  let '(outcome, l) := out in
  {| ledger := l; disk := disk s;
     flusher := match outcome with
                | Granted _ _ true => FlushReady None
                | MustFlush => FlushReady (Some rq)
                | _ => flusher s
                end;
     resumed := resumed s;
     outstanding := match outcome with
                    | Granted _ (Some r) _ => outstanding s ++ [r]
                    | _ => outstanding s
                    end |}.

Section system.
Context `{!TzDatabase}.

Definition exec (ev : Event) (s : System) : option System :=
  match ev with
  | EvReserve now rq =>
      Some (after_reserve rq (reserve_enter now rq (ledger s)) s)
  | EvFlushBegin =>
      match flusher s with
      | FlushReady owner =>
          let '(snapshot, l) := flush_begin (ledger s) in
          Some {| ledger := l; disk := disk s;
                  flusher := match snapshot with
                             | None => NoFlush
                             | Some snapshot => Saving snapshot owner
                             end;
                  resumed := match snapshot, owner with
                             | None, Some rq => resumed s ++ [rq]
                             | _, _ => resumed s
                             end;
                  outstanding := outstanding s |}
      | _ => None
      end
  | EvSaved =>
      match flusher s with
      | Saving snapshot owner =>
          Some {| ledger := ledger s; disk := snapshot; flusher := FlushReady owner;
                  resumed := resumed s; outstanding := outstanding s |}
      | _ => None
      end
  | EvSaveFailed now e =>
      match flusher s with
      | Saving _ _ =>
          Some {| ledger := flush_failed now e (ledger s); disk := disk s; flusher := NoFlush;
                  resumed := resumed s; outstanding := outstanding s |}
      | _ => None
      end
  | EvResume index now =>
      match resumed s !! index with
      | Some rq =>
          match rq_quota rq with
          | None => None
          | Some quota =>
              Some (after_reserve rq (reserve_grant now rq quota (ledger s))
                {| ledger := ledger s; disk := disk s; flusher := flusher s;
                   resumed := delete index (resumed s); outstanding := outstanding s |})
          end
      | None => None
      end
  | EvFinish index written =>
      match outstanding s !! index with
      | None => None
      | Some r =>
          let '(r, l) := finish written r (ledger s) in
          Some {| ledger := l; disk := disk s; flusher := flusher s; resumed := resumed s;
                  outstanding := <[index := r]> (outstanding s) |}
      end
  | EvSnapshot now id quota => Some (with_ledger (quota_snapshot now id quota (ledger s)).2 s)
  | EvSaveExact outcome =>
      if negb (has_store (ledger s)) then Some s
      else if flushing (ledger s) then None
      else
        let l := exact_prepare (ledger s) in
        match outcome with
        | Some _ => Some (with_ledger l s)
        | None => Some {| ledger := exact_done l; disk := persistentState l; flusher := flusher s;
                          resumed := resumed s; outstanding := outstanding s |}
        end
  end.

Fixpoint run (evs : list Event) (s : System) : option System :=
  match evs with
  | [] => Some s
  | ev :: evs => s ← exec ev s; run evs s
  end.
End system.

(** The system right after [newQuotaLedger] loaded [records]. *)
Definition boot (records : list QuotaPersistentState) (l : QuotaLedger) : System := {|
  ledger := l; disk := records; flusher := NoFlush; resumed := []; outstanding := [] |}.

(** ** Invariants *)

Definition pair_wf (used durable : gmap string Z) : Prop :=
  periods_valid used ∧ periods_valid durable ∧
  ∀ period, map_get used period ≤ map_get durable period ≤ int64_max.

Definition usage_wf (state : quotaRuleUsage) : Prop :=
  pair_wf (dailyUsed state) (dailyDurable state) ∧
  pair_wf (monthlyUsed state) (monthlyDurable state).

Definition states_wf (m : gmap string quotaRuleUsage) : Prop :=
  map_Forall (λ id state, id ≠ "" ∧ usage_wf state) m.

Lemma periods_valid_get m period : periods_valid m → 0 ≤ map_get m period.
Proof.
  intros Hm. unfold map_get. destruct (m !! period) eqn:E; simpl; [|lia].
  by apply Hm in E as [_ ?].
Qed.

Lemma periods_valid_insert m period v :
  periods_valid m → period ≠ "" → 0 ≤ v → periods_valid (<[period := v]> m).
Proof. intros Hm Hp Hv. by apply map_Forall_insert_2. Qed.

Lemma pair_wf_bounds used durable period :
  pair_wf used durable → 0 ≤ map_get used period ≤ int64_max ∧ in_int64 (map_get durable period).
Proof.
  intros (Hu & Hd & Hle). pose proof (Hle period). pose proof (periods_valid_get used period Hu).
  int64_lia.
Qed.

Lemma newQuotaRuleUsage_wf : usage_wf newQuotaRuleUsage.
Proof.
  assert (pair_wf ∅ ∅); [|done]. split_and!; [apply map_Forall_empty|apply map_Forall_empty|].
  intros. rewrite map_get_empty. int64_lia.
Qed.

Lemma prune_get cutoff m period :
  map_get (prunePeriodMap cutoff m) period = if before period cutoff then 0 else map_get m period.
Proof.
  unfold prunePeriodMap, map_get. destruct (before period cutoff) eqn:E.
  - destruct (_ !! period) eqn:L; [|done]. apply map_lookup_filter_Some in L as [_ L]. simpl in L. congruence.
  - destruct (m !! period) as [v|] eqn:L.
    + erewrite (proj2 (map_lookup_filter_Some _ m period v)); done.
    + erewrite (proj2 (map_lookup_filter_None _ m period)); [done|]. by left.
Qed.

Lemma periods_valid_prune cutoff m : periods_valid m → periods_valid (prunePeriodMap cutoff m).
Proof. intros Hm p v [L _]%map_lookup_filter_Some. by apply Hm. Qed.

Lemma pair_wf_prune cutoff used durable :
  pair_wf used durable → pair_wf (prunePeriodMap cutoff used) (prunePeriodMap cutoff durable).
Proof.
  intros (Hu & Hd & Hle). split_and!; [by apply periods_valid_prune..|]. intros p.
  rewrite !prune_get. case_match; [int64_lia|apply Hle].
Qed.

Lemma pruneQuotaPeriods_wf periods state :
  usage_wf state → usage_wf (pruneQuotaPeriods periods state).
Proof.
  intros [Hd Hm]. unfold pruneQuotaPeriods. split; simpl; case_match; auto using pair_wf_prune.
Qed.

Lemma cap_spec limit used period allowed :
  0 ≤ map_get used period ≤ int64_max → limit ≤ int64_max →
  cap limit used period allowed =
    if 0 <? limit then Z.min allowed (Z.max 0 (limit - map_get used period)) else allowed.
Proof.
  intros. unfold cap. destruct (Z.ltb_spec 0 limit); [|done].
  rewrite sub64_id by int64_lia. done.
Qed.

(** The budget of one period after a grant of [allowed]. *)
Lemma grow_wf limit used period allowed chunk durable changed durable' :
  pair_wf used durable → period ≠ "" → limit ≤ int64_max → 0 < allowed →
  (0 < limit → allowed ≤ limit - map_get used period) →
  grow limit used period allowed chunk durable = (changed, durable') →
  pair_wf (add_used limit period allowed used) durable' ∧
  (∀ p, map_get durable p ≤ map_get durable' p) ∧ (changed = false → durable' = durable).
Proof.
  intros Hwf Hp Hl Ha Hcap. pose proof (pair_wf_bounds used durable period Hwf) as [Hu Hd].
  destruct Hwf as (Vu & Vd & Hle). pose proof (Hle period) as Hlp. unfold grow, add_used.
  destruct (Z.ltb_spec 0 limit) as [Hlim|]; [|intros [= <- <-]; done].
  specialize (Hcap Hlim). unfold growDurablePeriod. rewrite add64_id by int64_lia.
  set (u := map_get used period) in *. set (d := map_get durable period) in *.
  destruct (Z.leb_spec (u + allowed) d) as [Hreq|Hreq]; intros [= <- <-];
    unfold pair_wf.
  - split_and!; [apply periods_valid_insert; [done|done|lia]|done| |done|done].
    intros p. destruct (decide (period = p)) as [<-|Hne].
    + rewrite map_get_insert_eq. fold d. lia.
    + by rewrite map_get_insert_ne.
  - pose proof (wrap64_range (d + chunk)).
    set (t := Z.min limit (Z.max (u + allowed) (add64 d chunk))).
    assert (u + allowed ≤ t ≤ int64_max) as Ht by (unfold t, add64; int64_lia).
    split_and!.
    + apply periods_valid_insert; [done|done|lia].
    + apply periods_valid_insert; [done|done|lia].
    + intros p. destruct (decide (period = p)) as [<-|Hne].
      * rewrite !map_get_insert_eq. lia.
      * by rewrite !map_get_insert_ne.
    + intros p. destruct (decide (period = p)) as [<-|Hne].
      * rewrite map_get_insert_eq. fold d. lia.
      * by rewrite map_get_insert_ne.
    + done.
Qed.

Lemma FormatDay_nonempty t : FormatDay t ≠ "".
Proof.
  unfold FormatDay. destruct (CivilDate t) as [[y m] d]. intros E.
  apply (f_equal String.length) in E. rewrite !length_append in E. simpl in E. lia.
Qed.

Lemma FormatMonth_nonempty t : FormatMonth t ≠ "".
Proof.
  unfold FormatMonth. destruct (CivilDate t) as [[y m] d]. intros E.
  apply (f_equal String.length) in E. rewrite !length_append in E. simpl in E. lia.
Qed.

Lemma periods_at_nonempty now location :
  pd_daily (periods_at now location) ≠ "" ∧ pd_monthly (periods_at now location) ≠ "".
Proof.
  unfold periods_at. destruct (CivilDate _) as [[y m] d]. simpl.
  split; [apply FormatDay_nonempty|apply FormatMonth_nonempty].
Qed.

Lemma periodsLocked_spec `{!TzDatabase} now quota l found l' :
  periodsLocked now quota l = (found, l') →
  (∃ m, l' = set_locations m l) ∧
  (∀ periods, found = Some periods → ∃ location, periods = periods_at now location).
Proof.
  unfold periodsLocked. set (timezone := if bool_decide _ then "UTC" else q_timezone quota).
  destruct (locations l !! timezone) as [location|].
  - intros [= <- <-]. split; [exists (locations l); by destruct l|]. intros ? [= <-]. eauto.
  - destruct (LoadLocation timezone) as [location|]; intros [= <- <-]; (split; [|by intros ? [= <-]; eauto]); [by eexists|].
    exists (locations l). by destruct l.
Qed.

(** A quota of a validated rule, as far as the ledger relies on it: limits are
    64-bit and a limit that is not positive is no limit. *)
Definition limits_ok (quota : TrafficQuota) : Prop :=
  q_daily quota ≤ int64_max ∧ q_monthly quota ≤ int64_max.

Lemma allowance_spec quota periods state requested :
  limits_ok quota → usage_wf state →
  let allowed := allowance quota periods state requested in
  allowed ≤ requested ∧
  (0 < allowed → 0 < q_daily quota →
     allowed ≤ q_daily quota - map_get (dailyUsed state) (pd_daily periods)) ∧
  (0 < allowed → 0 < q_monthly quota →
     allowed ≤ q_monthly quota - map_get (monthlyUsed state) (pd_monthly periods)).
Proof.
  intros [Hld Hlm] [Hd Hm]. unfold allowance.
  pose proof (pair_wf_bounds _ _ (pd_daily periods) Hd) as [? _].
  pose proof (pair_wf_bounds _ _ (pd_monthly periods) Hm) as [? _].
  rewrite !cap_spec by done.
  destruct (Z.ltb_spec 0 (q_daily quota)), (Z.ltb_spec 0 (q_monthly quota)); lia.
Qed.

(** [durable_le]: no durable mark of a rule moved back. *)
Definition durable_le (state state' : quotaRuleUsage) : Prop :=
  (∀ p, map_get (dailyDurable state) p ≤ map_get (dailyDurable state') p) ∧
  (∀ p, map_get (monthlyDurable state) p ≤ map_get (monthlyDurable state') p).

Lemma apply_grant_wf quota periods requested chunk state changed state' :
  limits_ok quota → usage_wf state → pd_daily periods ≠ "" → pd_monthly periods ≠ "" →
  let allowed := allowance quota periods state requested in
  0 < allowed →
  apply_grant quota periods allowed chunk state = (changed, state') →
  usage_wf state' ∧ durable_le state state' ∧
  (changed = false →
     dailyDurable state' = dailyDurable state ∧ monthlyDurable state' = monthlyDurable state).
Proof.
  intros Hl Hwf Hpd Hpm allowed Ha. unfold apply_grant.
  pose proof (allowance_spec quota periods state requested Hl Hwf) as (Hreq & Hcd & Hcm).
  fold allowed in Hreq, Hcd, Hcm. destruct Hl as [Hld Hlm], Hwf as [Hd Hm].
  set (chunk' := if chunk <=? 0 then 8 * 2 ^ 20 else chunk).
  destruct (grow (q_daily quota) _ _ _ _ _) as [cd daily] eqn:Ed.
  destruct (grow (q_monthly quota) _ _ _ _ _) as [cm monthly] eqn:Em.
  intros [= <- <-].
  apply (grow_wf _ _ _ _ _ _ _ _ Hd Hpd Hld Ha (Hcd Ha)) in Ed as (Hd' & Hled & Hsame).
  apply (grow_wf _ _ _ _ _ _ _ _ Hm Hpm Hlm Ha (Hcm Ha)) in Em as (Hm' & Hlem & Hsame').
  split_and!; [done|done|]. simpl. intros [-> ->]%orb_false_iff. auto.
Qed.

(** The state a request works on: pruned, and created when missing. *)
Definition working_state (periods : quotaPeriods) (id : string) (l : QuotaLedger) : quotaRuleUsage :=
  pruneQuotaPeriods periods (default newQuotaRuleUsage (states l !! id)).

Lemma working_state_wf periods id l : states_wf (states l) → usage_wf (working_state periods id l).
Proof.
  intros Hwf. apply pruneQuotaPeriods_wf. destruct (states l !! id) eqn:E; simpl;
    [by apply Hwf in E as [_ ?]|apply newQuotaRuleUsage_wf].
Qed.

Lemma states_wf_insert m id state :
  states_wf m → id ≠ "" → usage_wf state → states_wf (<[id := state]> m).
Proof. intros. by apply map_Forall_insert_2. Qed.

(** What pruning and granting do to the durable marks of the whole ledger, for
    the coverage argument: marks only disappear by pruning unless [flush] or the
    pending flag says that a save will follow. *)
Definition durable_shrinks (m m' : gmap string quotaRuleUsage) : Prop :=
  ∀ id state', m' !! id = Some state' →
    (∀ p, map_get (dailyDurable state') p ≤
          map_get (dailyDurable (default newQuotaRuleUsage (m !! id))) p) ∧
    (∀ p, map_get (monthlyDurable state') p ≤
          map_get (monthlyDurable (default newQuotaRuleUsage (m !! id))) p).

Lemma durable_shrinks_refl m : durable_shrinks m m.
Proof. intros id state' ->. simpl. split; intros; lia. Qed.

Lemma durable_shrinks_insert m id state' :
  (∀ p, map_get (dailyDurable state') p ≤
        map_get (dailyDurable (default newQuotaRuleUsage (m !! id))) p) →
  (∀ p, map_get (monthlyDurable state') p ≤
        map_get (monthlyDurable (default newQuotaRuleUsage (m !! id))) p) →
  durable_shrinks m (<[id := state']> m).
Proof.
  intros Hd Hm i s E. apply lookup_insert_Some in E as [[<- <-]|[_ E]]; [done|].
  rewrite E. simpl. split; intros; lia.
Qed.

Lemma prune_shrinks periods state :
  usage_wf state →
  (∀ p, map_get (dailyDurable (pruneQuotaPeriods periods state)) p ≤ map_get (dailyDurable state) p) ∧
  (∀ p, map_get (monthlyDurable (pruneQuotaPeriods periods state)) p ≤
        map_get (monthlyDurable state) p).
Proof.
  intros [(_ & Hd & _) (_ & Hm & _)]. unfold pruneQuotaPeriods. simpl.
  split; intros p; case_match; try lia; rewrite prune_get; case_match; try lia.
  - by apply periods_valid_get.
  - by apply periods_valid_get.
Qed.

Lemma working_state_shrinks periods id l :
  states_wf (states l) →
  (∀ p, map_get (dailyDurable (working_state periods id l)) p ≤
        map_get (dailyDurable (default newQuotaRuleUsage (states l !! id))) p) ∧
  (∀ p, map_get (monthlyDurable (working_state periods id l)) p ≤
        map_get (monthlyDurable (default newQuotaRuleUsage (states l !! id))) p).
Proof.
  intros Hwf. apply prune_shrinks. destruct (states l !! id) eqn:E; simpl;
    [by apply Hwf in E as [_ ?]|apply newQuotaRuleUsage_wf].
Qed.

(** Everything the callers need to know about a granting critical section. *)
Record grant_effect (l l' : QuotaLedger) (outcome : ReserveStep) : Prop := {
  ge_wf : states_wf (states l');
  ge_store : has_store l' = has_store l;
  ge_err : flushErr l' = flushErr l;
  ge_out : ∀ n r flush, outcome = Granted n (Some r) flush → 0 < rv_bytes r ≤ int64_max;
  ge_flush : match outcome with
             | Granted _ _ true =>
                 has_store l = true ∧ flushing l = false ∧ flushing l' = true ∧ flushPending l' = true
             | MustFlush => False
             | _ =>
                 flushing l' = flushing l ∧
                 (flushPending l' = flushPending l ∧ durable_shrinks (states l) (states l') ∨
                  flushPending l' = true ∧ flushing l = true ∨
                  has_store l = false ∧ flushPending l' = flushPending l)
             end
}.

Lemma reserve_grant_effect `{!TzDatabase} now rq quota l outcome l' :
  limits_ok quota → rq_ruleID rq ≠ "" → rq_bytes rq ≤ int64_max → states_wf (states l) →
  reserve_grant now rq quota l = (outcome, l') → grant_effect l l' outcome.
Proof.
  intros Hl Hid Hmax Hwf. unfold reserve_grant.
  destruct (periodsLocked now quota l) as [found l0] eqn:Hp.
  apply periodsLocked_spec in Hp as [[m ->] Hfound].
  destruct found as [periods|]; [|intros [= <- <-]; split; simpl; try (by intros ??? [=]); auto using durable_shrinks_refl].
  destruct (Hfound periods eq_refl) as [location Hat].
  destruct (periods_at_nonempty now location) as [Hpd Hpm]. rewrite <-Hat in Hpd, Hpm. clear Hat Hfound.
  simpl. fold (working_state periods (rq_ruleID rq) l).
  pose proof (working_state_wf periods (rq_ruleID rq) l Hwf) as Hws.
  pose proof (working_state_shrinks periods (rq_ruleID rq) l Hwf) as [Hsd Hsm].
  set (state := working_state _ _ _) in *. set (allowed := allowance _ _ _ _).
  destruct (_ || _) eqn:Hrefuse.
  { intros [= <- <-]. split; simpl; [by apply states_wf_insert|done|done|done|].
    split; [done|]. left. split; [done|]. by apply durable_shrinks_insert. }
  apply orb_false_iff in Hrefuse as [Ha%Z.leb_gt _].
  assert (0 < allowed ≤ int64_max) as Hrange.
  { pose proof (allowance_spec quota periods state (rq_bytes rq) Hl Hws) as [? _].
    fold allowed in H. lia. }
  destruct (apply_grant _ _ _ _ _) as [changed state'] eqn:Hg.
  apply apply_grant_wf in Hg as (Hwf' & _ & Hsame); try done.
  unfold mark_pending. destruct changed; simpl.
  - destruct (has_store l) eqn:Hs; simpl.
    + destruct (flushing l) eqn:Hf; simpl; intros [= <- <-]; split; simpl;
        try (by intros ??? [= _ <- _]); eauto using states_wf_insert.
    + intros [= <- <-]. split; simpl; try (by intros ??? [= _ <- _]); eauto using states_wf_insert.
  - intros [= <- <-]. destruct (Hsame eq_refl) as [Hd Hm]. split; simpl; try (by intros ??? [= _ <- _]); eauto using states_wf_insert.
    split; [done|]. left. split; [done|]. by apply durable_shrinks_insert; rewrite ?Hd, ?Hm.
Qed.

(** *** Coverage of the durable marks by saved records *)

Fixpoint record_of (records : list QuotaPersistentState) (id : string) : option QuotaPersistentState :=
  match records with
  | [] => None
  | r :: records => if bool_decide (p_RuleID r = id) then Some r else record_of records id
  end.
Definition saved_daily (records : list QuotaPersistentState) (id : string) : gmap string Z :=
  match record_of records id with Some r => p_Daily r | None => ∅ end.
Definition saved_monthly (records : list QuotaPersistentState) (id : string) : gmap string Z :=
  match record_of records id with Some r => p_Monthly r | None => ∅ end.

Definition covers (records : list QuotaPersistentState) (m : gmap string quotaRuleUsage) : Prop :=
  ∀ id state, m !! id = Some state →
    (∀ p, map_get (dailyDurable state) p ≤ map_get (saved_daily records id) p) ∧
    (∀ p, map_get (monthlyDurable state) p ≤ map_get (saved_monthly records id) p).

Lemma record_of_fmap (f : string → QuotaPersistentState) ids id :
  (∀ i, p_RuleID (f i) = i) → record_of (f <$> ids) id = if decide (id ∈ ids) then Some (f id) else None.
Proof.
  intros Hf. induction ids as [|i ids IH]; [done|]. rewrite fmap_cons. cbn [record_of]. rewrite Hf.
  case_bool_decide as E; [subst i; by rewrite decide_True by left|].
  rewrite IH. destruct (decide (id ∈ ids)) as [Hin|Hin].
  - by rewrite decide_True by by right.
  - rewrite decide_False; [done|]. intros [->|?]%elem_of_cons; done.
Qed.

Lemma record_of_persistentState l id :
  record_of (persistentState l) id = persistent_record id <$> states l !! id.
Proof.
  unfold persistentState. rewrite record_of_fmap by done.
  destruct (states l !! id) as [state|] eqn:E.
  - rewrite decide_True; [done|]. apply elem_of_sorted_keys. eauto.
  - rewrite decide_False; [done|]. rewrite elem_of_sorted_keys, E. by intros [? ?].
Qed.

Lemma persistentState_covers l : covers (persistentState l) (states l).
Proof.
  intros id state E. unfold saved_daily, saved_monthly. rewrite record_of_persistentState, E. simpl.
  split; intros; lia.
Qed.

Lemma covers_shrinks records m m' : durable_shrinks m m' →
  (∀ id, periods_valid (saved_daily records id) ∧ periods_valid (saved_monthly records id)) →
  covers records m → covers records m'.
Proof.
  intros Hs Hv Hc id state' E. destruct (Hs id state' E) as [Hd Hm].
  destruct (m !! id) as [state|] eqn:E'; simpl in *.
  - destruct (Hc id state E') as [Hd' Hm']. split; intros p; etrans; eauto.
  - destruct (Hv id) as [Vd Vm].
    split; intros p; (etrans; [eauto|]); rewrite map_get_empty; by apply periods_valid_get.
Qed.

(** *** Loading what was saved *)

Definition loaded (r : QuotaPersistentState) : quotaRuleUsage :=
  {| dailyUsed := p_Daily r; dailyDurable := p_Daily r;
     monthlyUsed := p_Monthly r; monthlyDurable := p_Monthly r |}.

Lemma restore_Ok e source m :
  restoreQuotaPeriods e source = Ok m ↔ periods_valid source ∧ m = source.
Proof. unfold restoreQuotaPeriods. case_bool_decide; naive_solver. Qed.

Lemma load_record_Ok m r m' :
  load_record m r = Ok m' ↔
  p_RuleID r ≠ "" ∧ m !! p_RuleID r = None ∧ periods_valid (p_Daily r) ∧ periods_valid (p_Monthly r) ∧
  m' = <[p_RuleID r := loaded r]> m.
Proof.
  unfold load_record. rewrite !guard_Ok, !bool_decide_eq_false, <-eq_None_not_Some. split.
  - intros (Hid & Hnone & H). apply bind_Ok in H as (d & Hd & H). apply bind_Ok in H as (mo & Hm & H).
    apply restore_Ok in Hd as [Vd ->]. apply restore_Ok in Hm as [Vm ->]. by injection H as <-.
  - intros (Hid & Hnone & Hd & Hm & ->). split_and!; [done|done|].
    apply bind_Ok. exists (p_Daily r). split; [by apply restore_Ok|].
    apply bind_Ok. exists (p_Monthly r). split; [by apply restore_Ok|done].
Qed.

(** Each id gets the state of its record. *)
Lemma load_records_lookup m records m' :
  load_records m records = Ok m' →
  (∀ id, m' !! id = match m !! id with Some s => Some s | None => loaded <$> record_of records id end) ∧
  (∀ id r, record_of records id = Some r → id ≠ "" ∧ periods_valid (p_Daily r) ∧ periods_valid (p_Monthly r)).
Proof.
  revert m. induction records as [|r records IH]; intros m; simpl.
  - intros [= ->]. split; [|done]. intros id. by destruct (m' !! id).
  - intros (m1 & (Hid & Hnone & Hd & Hm & ->)%load_record_Ok & H2)%bind_Ok.
    destruct (IH _ H2) as [Hlook Hval]. split.
    + intros id. rewrite Hlook. case_bool_decide as E.
      * subst id. by rewrite lookup_insert_eq, Hnone.
      * by rewrite lookup_insert_ne.
    + intros id r'. case_bool_decide as E; [|by apply Hval]. by intros [= <-]; subst.
Qed.

Lemma load_records_ok (f : string → QuotaPersistentState) ids m :
  (∀ i, p_RuleID (f i) = i) → NoDup ids → (∀ id, id ∈ ids → m !! id = None) →
  (∀ id, id ∈ ids → id ≠ "" ∧ periods_valid (p_Daily (f id)) ∧ periods_valid (p_Monthly (f id))) →
  is_ok (load_records m (f <$> ids)) = true.
Proof.
  intros Hf. revert m. induction ids as [|i ids IH]; intros m Hnd Hfresh Hval; [done|].
  apply NoDup_cons in Hnd as [Hni Hnd]. rewrite fmap_cons. cbn [load_records].
  destruct (Hval i) as (Hne & Hd & Hm); [by left|].
  assert (load_record m (f i) = Ok (<[i := loaded (f i)]> m)) as ->.
  { apply load_record_Ok. rewrite Hf. split_and!; [done|apply Hfresh; by left|done..]. }
  simpl. apply IH; [done| |intros id ?; apply Hval; by right].
  intros id Hin. rewrite lookup_insert_ne by congruence. apply Hfresh. by right.
Qed.

(** Records that can be loaded again, with valid marks. *)
Definition records_valid (records : list QuotaPersistentState) : Prop :=
  (∀ id, periods_valid (saved_daily records id) ∧ periods_valid (saved_monthly records id)) ∧
  is_ok (load_records ∅ records) = true.

Lemma persistentState_valid l : states_wf (states l) → records_valid (persistentState l).
Proof.
  intros Hwf. split.
  - intros id. unfold saved_daily, saved_monthly. rewrite record_of_persistentState.
    destruct (states l !! id) as [state|] eqn:E; simpl; [|split; apply map_Forall_empty].
    by apply Hwf in E as (_ & (_ & ? & _) & (_ & ? & _)).
  - apply load_records_ok; [done|apply NoDup_sorted_keys|done|].
    intros id [state E]%elem_of_sorted_keys. rewrite E. simpl.
    by apply Hwf in E as (? & (_ & ? & _) & (_ & ? & _)).
Qed.

(** *** Refunds and the exact save *)

Lemma refund_wf period amount used durable :
  pair_wf used durable → 0 ≤ amount → pair_wf (refundQuotaPeriod period amount used) durable.
Proof.
  intros Hwf Ha. pose proof (pair_wf_bounds used durable period Hwf) as [Hu _].
  destruct Hwf as (Vu & Vd & Hle). unfold refundQuotaPeriod. case_bool_decide as Hp; [done|]. simpl.
  destruct (Z.leb_spec amount 0); [done|].
  assert (∀ v, 0 ≤ v → v ≤ map_get used period → pair_wf (<[period:=v]> used) durable) as Hins.
  { intros v Hv Hv'. unfold pair_wf. split_and!; [by apply periods_valid_insert|done|]. intros p.
    pose proof (Hle p). destruct (decide (period = p)) as [<-|].
    - rewrite map_get_insert_eq. lia.
    - by rewrite map_get_insert_ne. }
  destruct (Z.ltb_spec amount (map_get used period)).
  - rewrite sub64_id by int64_lia. apply Hins; lia.
  - apply Hins; lia.
Qed.

Lemma clamp_range bytes written : 0 ≤ bytes → 0 ≤ clamp_written bytes written ≤ bytes.
Proof. intros. unfold clamp_written. repeat case_match; bool_to_prop; lia. Qed.

Definition reservation_wf (r : quotaReservation) : Prop := 0 < rv_bytes r ≤ int64_max.

Lemma finish_effect written r l r' l' :
  reservation_wf r → states_wf (states l) → finish written r l = (r', l') →
  reservation_wf r' ∧ states_wf (states l') ∧ durable_shrinks (states l) (states l') ∧
  ∃ m, l' = set_states m l.
Proof.
  intros Hr Hwf. unfold finish. pose proof (clamp_range (rv_bytes r) written) as Hc.
  assert (∃ m, l = set_states m l) as Hself by (exists (states l); by destruct l).
  destruct (rv_done r); [intros [= <- <-]; eauto using durable_shrinks_refl|].
  rewrite sub64_id by (unfold reservation_wf in Hr; int64_lia).
  destruct (_ =? 0); [intros [= <- <-]; eauto using durable_shrinks_refl|].
  destruct (states l !! rv_ruleID r) as [state|] eqn:E;
    [|intros [= <- <-]; eauto using durable_shrinks_refl].
  intros [= <- <-]. pose proof (Hwf _ _ E) as [Hid [Hd Hm]]. unfold reservation_wf in Hr.
  split_and!; [done| | |by eexists].
  - simpl. apply states_wf_insert; [done|done|]. split; simpl; apply refund_wf; try done; lia.
  - simpl. apply durable_shrinks_insert; rewrite E; simpl; intros; lia.
Qed.

Lemma exact_wf m : states_wf m → states_wf (exact_usage <$> m).
Proof.
  intros Hwf id state E. rewrite lookup_fmap in E. apply fmap_Some in E as (s & E & ->).
  apply Hwf in E as (Hid & Hd & Hm). split; [done|].
  assert (∀ u d, pair_wf u d → pair_wf u u).
  { intros u d Hud. unfold pair_wf. split_and!; [apply Hud..|]. intros p.
    pose proof (pair_wf_bounds u d p Hud). lia. }
  split; simpl; eauto.
Qed.

Lemma exact_shrinks m : states_wf m → durable_shrinks m (exact_usage <$> m).
Proof.
  intros Hwf id state E. rewrite lookup_fmap in E. apply fmap_Some in E as (s & E & ->).
  rewrite E. simpl. apply Hwf in E as (_ & (_ & _ & Hd) & (_ & _ & Hm)).
  split; intros p; [apply Hd|apply Hm].
Qed.

(** *** The invariant of the system *)

Definition request_ok (rq : Request) : Prop :=
  rq_ruleID rq ≠ "" ∧ rq_bytes rq ≤ int64_max ∧
  match rq_quota rq with Some quota => limits_ok quota | None => True end.

Definition event_ok (ev : Event) : Prop :=
  match ev with EvReserve _ rq => request_ok rq | _ => True end.

(** When no save is due, the disk already covers every durable mark. *)
Definition flush_inv (saved : list QuotaPersistentState) (f : Flusher) (l : QuotaLedger) : Prop :=
  match f with
  | NoFlush =>
      flushing l = false ∧
      (has_store l = true → flushErr l = None → flushPending l = false ∧ covers saved (states l))
  | FlushReady _ =>
      flushing l = true ∧ has_store l = true ∧ (flushPending l = false → covers saved (states l))
  | Saving snapshot _ =>
      flushing l = true ∧ has_store l = true ∧ records_valid snapshot ∧
      (flushPending l = false → covers snapshot (states l))
  end.

Record sys_inv (s : System) : Prop := {
  si_states : states_wf (states (ledger s));
  si_disk : records_valid (disk s);
  si_flush : flush_inv (disk s) (flusher s) (ledger s);
  si_err : flushErr (ledger s) ≠ None → has_store (ledger s) = true;
  si_resumed : Forall (λ rq, request_ok rq ∧ unlimited rq = false) (resumed s);
  si_owner : match flusher s with
             | FlushReady (Some rq) | Saving _ (Some rq) => request_ok rq ∧ unlimited rq = false
             | _ => True
             end;
  si_out : Forall reservation_wf (outstanding s);
}.

Lemma covers_shrinks_valid records m m' :
  records_valid records → durable_shrinks m m' → covers records m → covers records m'.
Proof. intros [Hv _] Hs. by apply covers_shrinks. Qed.

(** The flush invariant under a change of the ledger that leaves the flush
    fields alone and moves no durable mark forward. *)
Lemma flush_inv_shrinks saved f l l' :
  records_valid saved → flush_inv saved f l →
  has_store l' = has_store l → flushErr l' = flushErr l → flushing l' = flushing l →
  flushPending l' = flushPending l → durable_shrinks (states l) (states l') →
  flush_inv saved f l'.
Proof.
  intros Hv Hinv Hs He Hf Hp Hsh. unfold flush_inv in *. rewrite Hs, He, Hf, Hp.
  destruct f; [destruct Hinv as [? H]; split; [done|]; intros H1 H2; destruct (H H1 H2)
              |destruct Hinv as (? & ? & ?)|destruct Hinv as (? & ? & ? & ?)];
    eauto 6 using covers_shrinks_valid.
Qed.

(** ... or under one that raises the pending flag while a flush runs. *)
Lemma flush_inv_pending saved f l l' :
  flush_inv saved f l → has_store l' = has_store l → flushing l = true →
  flushing l' = flushing l → flushPending l' = true → flush_inv saved f l'.
Proof.
  intros Hinv Hs Hf Hf' Hp. unfold flush_inv in *. rewrite Hs, Hf', Hp.
  destruct f; [destruct Hinv; congruence|destruct Hinv as (? & ? & ?)|destruct Hinv as (? & ? & ? & ?)];
    by split_and!.
Qed.

Lemma flush_inv_storeless saved f l l' :
  flush_inv saved f l → has_store l = false → has_store l' = has_store l →
  flushing l' = flushing l → flush_inv saved f l'.
Proof.
  intros Hinv Hs Hs' Hf. unfold flush_inv in *. rewrite Hs', Hf.
  destruct f; [|destruct Hinv as (? & ? & ?); congruence|destruct Hinv as (? & ? & ? & ?); congruence].
  destruct Hinv. split; [done|]. congruence.
Qed.

(** A granting critical section keeps the invariant. *)
Lemma grant_preserves rq outcome l' s :
  sys_inv s → grant_effect (ledger s) l' outcome → sys_inv (after_reserve rq (outcome, l') s).
Proof.
  intros [Hst Hdisk Hflush Herr Hres Hown Hout] [Gwf Gstore Gerr Gout Gflush].
  assert ((∀ n r, outcome ≠ Granted n r true) → flush_inv (disk s) (flusher s) l') as Hkeep.
  { intros Hne. assert (flushing l' = flushing (ledger s) ∧
      (flushPending l' = flushPending (ledger s) ∧ durable_shrinks (states (ledger s)) (states l') ∨
       flushPending l' = true ∧ flushing (ledger s) = true ∨
       has_store (ledger s) = false ∧ flushPending l' = flushPending (ledger s)))
      as [Hf [[Hp Hsh]|[[Hp Hfl]|[Hns _]]]]
      by (destruct outcome as [n r [|]|e|]; [by destruct (Hne n r)|done..]).
    - by eapply flush_inv_shrinks.
    - by eapply flush_inv_pending.
    - by eapply flush_inv_storeless. }
  split; simpl.
  - done.
  - done.
  - destruct outcome as [n r [|]|e|]; [|by apply Hkeep..|done].
    destruct Gflush as (Hs & _ & Hf & Hp). simpl. by rewrite Gstore, Hp.
  - by rewrite Gerr, Gstore.
  - done.
  - by destruct outcome as [n r [|]|e|].
  - destruct outcome as [n [r|] f|e|]; try done.
    apply Forall_app. split; [done|]. apply Forall_singleton. by apply (Gout n r f).
Qed.

Lemma unlimited_quota rq : unlimited rq = false → ∃ quota, rq_quota rq = Some quota.
Proof. unfold unlimited. intros [_ H]%orb_false_iff. destruct (rq_quota rq); [eauto|done]. Qed.

Lemma same_ledger_effect l outcome :
  states_wf (states l) →
  match outcome with Granted _ (Some _) _ | Granted _ _ true | MustFlush => False | _ => True end →
  grant_effect l l outcome.
Proof.
  intros Hwf Ho. split; try done.
  - intros n r f ->. done.
  - destruct outcome as [n [r|] [|]|e|]; try done; eauto using durable_shrinks_refl.
Qed.

Lemma reserve_preserves `{!TzDatabase} now rq s :
  request_ok rq → sys_inv s → sys_inv (after_reserve rq (reserve_enter now rq (ledger s)) s).
Proof.
  intros Hrq Hinv. pose proof Hrq as (Hid & Hmax & Hlim). pose proof (si_states s Hinv) as Hst.
  unfold reserve_enter. destruct (unlimited rq) eqn:Hu;
    [apply grant_preserves; [done|by apply same_ledger_effect]|].
  destruct (unlimited_quota rq Hu) as [quota Hq]. rewrite Hq in *.
  destruct (flushErr (ledger s)) as [e|] eqn:He.
  2: { destruct (reserve_grant now rq quota (ledger s)) as [outcome l'] eqn:Hg.
       apply grant_preserves; [done|by eapply reserve_grant_effect]. }
  destruct (_ <? _); [apply grant_preserves; [done|by apply same_ledger_effect]|].
  pose proof (si_flush s Hinv) as Hflush.
  destruct (flushing (ledger s)) eqn:Hf.
  - apply grant_preserves; [done|]. split; simpl; try done. rewrite Hf. auto.
  - destruct Hinv as [_ Hdisk _ Herr Hres Hown Hout]. split; simpl; try done.
    + split_and!; [done|by apply Herr; rewrite He|done].
    + intros _. by apply Herr; rewrite He.
Qed.

Lemma exec_preserves `{!TzDatabase} ev s s' :
  event_ok ev → sys_inv s → exec ev s = Some s' → sys_inv s'.
Proof.
  intros Hok Hinv. destruct ev as [now rq| | |now e|index now|index written|now id quota|outcome]; simpl in *.
  - intros [= <-]. by apply reserve_preserves.
  - destruct Hinv as [Hst Hdisk Hflush Herr Hres Hown Hout].
    destruct (flusher s) as [|owner|] eqn:Hfl; try done. destruct Hflush as (H1 & H2 & H3).
    unfold flush_begin. destruct (flushPending (ledger s)) eqn:Hp; simpl; intros [= <-].
    + split; simpl; try done. split_and!; try done; [by apply persistentState_valid|].
      intros _. apply persistentState_covers.
    + split; simpl; try done; [by auto|].
      destruct owner; [by apply Forall_app; split; [|apply Forall_singleton]|done].
  - destruct Hinv as [Hst Hdisk Hflush Herr Hres Hown Hout].
    destruct (flusher s) as [| |snapshot owner] eqn:Hfl; try done. intros [= <-].
    destruct Hflush as (H1 & H2 & H3 & H4). by split.
  - destruct Hinv as [Hst Hdisk Hflush Herr Hres Hown Hout].
    destruct (flusher s) as [| |snapshot owner] eqn:Hfl; try done. intros [= <-].
    destruct Hflush as (H1 & H2 & H3 & H4). by split.
  - destruct (resumed s !! index) as [rq|] eqn:Hres'; [|done].
    pose proof (si_resumed s Hinv) as Hres.
    destruct (Forall_lookup_1 _ _ _ _ Hres Hres') as [(Hid & Hmax & Hlim) Hu].
    apply (Forall_delete _ _ index) in Hres.
    destruct (rq_quota rq) as [quota|]; [|done]. intros [= <-].
    destruct (reserve_grant now rq quota (ledger s)) as [outcome l'] eqn:Hg.
    apply grant_preserves; [by destruct Hinv; split|].
    simpl. by eapply reserve_grant_effect; [..|exact Hg]; [| | |apply Hinv].
  - destruct (outstanding s !! index) as [r|] eqn:Hr; [|done].
    destruct Hinv as [Hst Hdisk Hflush Herr Hres Hown Hout].
    destruct (finish written r (ledger s)) as [r' l'] eqn:Hfin. intros [= <-].
    apply finish_effect in Hfin as (Hr' & Hst' & Hsh & m & ->); [|by eapply Forall_lookup_1|done].
    split; simpl; try done; [by eapply flush_inv_shrinks|]. by apply Forall_insert.
  - intros [= <-]. assert (∃ m, (quota_snapshot now id quota (ledger s)).2 = set_locations m (ledger s))
      as [m Hm].
    { assert (∃ m, ledger s = set_locations m (ledger s)) as Hself
        by (exists (locations (ledger s)); by destruct (ledger s)).
      unfold quota_snapshot. destruct quota as [quota|]; [|done]. destruct (_ && _); [done|].
      destruct (periodsLocked now quota (ledger s)) as [found l'] eqn:Hp.
      apply periodsLocked_spec in Hp as [[m ->] _]. by destruct found; exists m. }
    rewrite Hm. destruct Hinv as [Hst Hdisk Hflush Herr Hres Hown Hout]. by split.
  - destruct (has_store (ledger s)) eqn:Hstore; simpl; [|by intros [= <-]].
    destruct (flushing (ledger s)) eqn:Hf; [done|].
    destruct Hinv as [Hst Hdisk Hflush Herr Hres Hown Hout].
    assert (flusher s = NoFlush) as Hno.
    { unfold flush_inv in Hflush. destruct (flusher s); [done|..]; destruct Hflush; congruence. }
    rewrite Hno in Hflush. destruct Hflush as [_ Hcov]. pose proof (exact_wf _ Hst) as Hst'.
    destruct outcome as [e|]; intros [= <-]; split; simpl; rewrite ?Hno; try done.
    + split; [done|]. simpl. intros _ He. split; [done|].
      eapply covers_shrinks_valid; [done|by apply exact_shrinks|by apply Hcov].
    + by apply (persistentState_valid (exact_prepare (ledger s))).
    + split; [done|]. simpl. intros _ _. split; [done|].
      apply (persistentState_covers (exact_prepare (ledger s))).
Qed.

Lemma run_preserves `{!TzDatabase} evs s s' :
  Forall event_ok evs → sys_inv s → run evs s = Some s' → sys_inv s'.
Proof.
  revert s. induction evs as [|ev evs IH]; intros s Hok Hinv; simpl; [by intros [= <-]|].
  apply Forall_cons in Hok as [Hev Hok]. intros (s1 & H1 & H2)%bind_Some.
  eapply IH; [done| |done]. by eapply exec_preserves.
Qed.

(** *** Start-up *)

(** Byte counts read from disk are [int64]s. *)
Definition records_int64 (records : list QuotaPersistentState) : Prop :=
  ∀ id p, map_get (saved_daily records id) p ≤ int64_max ∧ map_get (saved_monthly records id) p ≤ int64_max.

Lemma newQuotaLedger_Ok records l :
  newQuotaLedger (Some (Ok records)) = Ok l ↔
  ∃ m, load_records ∅ records = Ok m ∧ l = set_states m (empty_ledger true).
Proof.
  simpl. rewrite bind_Ok. split; intros (m & H1 & H2); exists m; [by injection H2|by subst].
Qed.

Lemma boot_inv records l :
  records_int64 records → newQuotaLedger (Some (Ok records)) = Ok l → sys_inv (boot records l).
Proof.
  intros Hmax (m & Hload & ->)%newQuotaLedger_Ok. destruct (load_records_lookup _ _ _ Hload) as [Hlook Hval].
  assert (∀ id, m !! id = loaded <$> record_of records id) as Hm.
  { intros id. by rewrite Hlook, lookup_empty. }
  split; simpl; try done.
  - intros id state E. rewrite Hm in E. destruct (Hmax id "") as [_ _].
    destruct (record_of records id) as [r|] eqn:Er; [|done]. injection E as <-.
    destruct (Hval id r Er) as (Hid & Hd & Hmo). split; [done|].
    assert (∀ p, map_get (p_Daily r) p ≤ int64_max ∧ map_get (p_Monthly r) p ≤ int64_max) as Hle.
    { intros p. pose proof (Hmax id p) as H. unfold saved_daily, saved_monthly in H. by rewrite Er in H. }
    by split; split_and!; try done; intros p; destruct (Hle p).
  - split; [|by rewrite Hload]. intros id. unfold saved_daily, saved_monthly.
    destruct (record_of records id) as [r|] eqn:Er; [by apply Hval in Er as (_ & ? & ?)|].
    split; apply map_Forall_empty.
  - split; [done|]. intros _ _. split; [done|]. intros id state E. simpl in E. rewrite Hm in E.
    unfold saved_daily, saved_monthly. destruct (record_of records id) as [r|]; [|done].
    injection E as <-. simpl. split; intros; lia.
Qed.

(** Usage of a rule's period in the ledger, zero when nothing is recorded. *)
Definition used_daily (l : QuotaLedger) (id period : string) : Z :=
  map_get (dailyUsed (default newQuotaRuleUsage (states l !! id))) period.
Definition used_monthly (l : QuotaLedger) (id period : string) : Z :=
  map_get (monthlyUsed (default newQuotaRuleUsage (states l !! id))) period.

Lemma reload_used records l :
  newQuotaLedger (Some (Ok records)) = Ok l →
  ∀ id p, used_daily l id p = map_get (saved_daily records id) p ∧
          used_monthly l id p = map_get (saved_monthly records id) p.
Proof.
  intros (m & Hload & ->)%newQuotaLedger_Ok id p. destruct (load_records_lookup _ _ _ Hload) as [Hlook _].
  unfold used_daily, used_monthly, saved_daily, saved_monthly. simpl. rewrite Hlook, lookup_empty.
  by destruct (record_of records id).
Qed.

Lemma reload_ok records : records_valid records → ∃ l, newQuotaLedger (Some (Ok records)) = Ok l.
Proof.
  intros [_ (m & Hm)%is_ok_iff]. eexists. apply newQuotaLedger_Ok. by exists m.
Qed.

(** A system at rest: no save due, none running, none failed. *)
Definition settled (s : System) : Prop :=
  has_store (ledger s) = true ∧ flusher s = NoFlush ∧ flushErr (ledger s) = None.

(** *** Calendar periods in a zone without transitions *)

(** The local day number and the local month number of an instant. *)
Definition local_day (now : Z) (loc : Location) : Z := (now / second + loc_first loc) / 86400.
Definition local_month (now : Z) (loc : Location) : Z :=
  let '(y, m, _) := civil_from_days (local_day now loc) in 12 * y + (m - 1).

Lemma periods_at_fixed now loc : fixed_zone loc →
  let n := local_day now loc in
  let i := local_month now loc in
  let p := periods_at now loc in
  pd_daily p = day_key (civil_from_days n) ∧ daily_cutoff p = day_key (civil_from_days (n - 2)) ∧
  pd_monthly p = month_key (month_of i) ∧ monthly_cutoff p = month_key (month_of (i - 2)).
Proof.
  intros Hf n i p.
  assert (CivilDate (MkTime (now / second) loc) = civil_from_days n) as Hnow.
  { unfold CivilDate, local_seconds, offset_at. simpl. by rewrite lookup_fixed. }
  subst p. unfold periods_at, daily_cutoff, monthly_cutoff. rewrite Hnow.
  unfold i, local_month. fold n.
  destruct (civil_from_days n) as [[y m] d] eqn:E. pose proof (civil_range _ _ _ _ E) as [Hm _].
  pose proof (days_from_civil_of_days _ _ _ _ E) as Hn.
  assert (CivilDate (Date y m d 0 loc) = civil_from_days n) as Hday.
  { rewrite CivilDate_Date by done. rewrite Z.div_small, Z.mod_small by lia. f_equal.
    replace (m - 1 + 1) with m by lia. by rewrite Z.add_0_r. }
  assert (CivilDate (Date y m 1 0 loc) = month_of (12 * y + (m - 1))) as Hmonth.
  { rewrite CivilDate_Date by done. rewrite Z.div_small, Z.mod_small by lia.
    replace (m - 1 + 1) with m by lia. rewrite Z.add_0_r. replace (1 - 1) with 0 by lia.
    rewrite Z.add_0_r, civil_of_first by lia. unfold month_of.
    f_equal; f_equal; Z.to_euclidean_division_equations; lia. }
  pose proof (t_loc_Date y m d 0 loc) as Ld. pose proof (t_loc_Date y m 1 0 loc) as Lm.
  pose proof (Clock_Date y m d loc Hf) as Cd. pose proof (Clock_Date y m 1 loc Hf) as Cm.
  cbv zeta. cbn [pd_daily pd_monthly pd_dailyReset pd_monthlyReset].
  destruct (AddDate_days _ n 1 ltac:(by rewrite Ld) Hday Cd) as (D1 & C1 & L1).
  destruct (AddDate_days _ (n + 1) (-(2 + 1)) ltac:(by rewrite L1, Ld) D1 C1) as (D2 & _ & _).
  destruct (AddDate_months _ _ 1 ltac:(by rewrite Lm) Hmonth Cm) as (M1 & K1 & N1).
  destruct (AddDate_months _ _ (-(2 + 1)) ltac:(by rewrite N1, Lm) M1 K1) as (M2 & _ & _).
  rewrite !FormatDay_key, !FormatMonth_key, Hday, Hmonth. unfold quotaRetainedPastPeriods.
  replace (n + 1 + - (2 + 1)) with (n - 2) in D2 by lia.
  replace (12 * y + (m - 1) + 1 + - (2 + 1)) with (12 * y + (m - 1) - 2) in M2 by lia.
  rewrite D2, M2. split_and!; congruence.
Qed.

Lemma before_days n k :
  printable (civil_from_days n) → printable (civil_from_days k) →
  before (day_key (civil_from_days n)) (day_key (civil_from_days k)) = (n <? k).
Proof.
  intros. unfold before. rewrite compare_days by done. destruct (Z.compare_spec n k), (Z.ltb_spec n k); done || lia.
Qed.

Lemma before_months i j :
  printable (month_of i) → printable (month_of j) →
  before (month_key (month_of i)) (month_key (month_of j)) = (i <? j).
Proof.
  intros. unfold before. rewrite compare_months by done. destruct (Z.compare_spec i j), (Z.ltb_spec i j); done || lia.
Qed.

Lemma pruned_daily periods state k :
  map_get (dailyUsed (pruneQuotaPeriods periods state)) k =
    if (quotaRetainedPastPeriods + 1 <? Z.of_nat (size (dailyUsed state))) && before k (daily_cutoff periods)
    then 0 else map_get (dailyUsed state) k.
Proof. unfold pruneQuotaPeriods. simpl. case_match; simpl; [apply prune_get|done]. Qed.

Lemma pruned_monthly periods state k :
  map_get (monthlyUsed (pruneQuotaPeriods periods state)) k =
    if (quotaRetainedPastPeriods + 1 <? Z.of_nat (size (monthlyUsed state))) && before k (monthly_cutoff periods)
    then 0 else map_get (monthlyUsed state) k.
Proof. unfold pruneQuotaPeriods. simpl. case_match; simpl; [apply prune_get|done]. Qed.

(** *** Pruning keeps the current periods, whatever the transitions of the zone *)

Lemma local_date_bounds t lo hi : lo ≤ local_seconds t ≤ hi → lo / 86400 ≤ local_date t ≤ hi / 86400.
Proof. intros. unfold local_date. split; apply Z.div_le_mono; lia. Qed.

Lemma local_date_clock t : local_seconds t = local_date t * 86400 + Clock t ∧ 0 ≤ Clock t < 86400.
Proof. unfold local_date, Clock. Z.to_euclidean_division_equations; lia. Qed.

Lemma CivilDate_local_date t : CivilDate t = civil_from_days (local_date t).
Proof. done. Qed.

(** Two steps of [AddDate] that go one unit on and three back do not end later. *)
Lemma days_back_not_later t :
  zone_ok (t_loc t) →
  local_date t - 5 ≤ local_date (AddDate (AddDate t 0 0 1) 0 0 (-(2 + 1))) ≤ local_date t.
Proof.
  intros Hok. set (t2 := AddDate t 0 0 1).
  pose proof (AddDate_near t 0 1 Hok) as H1. fold t2 in H1.
  assert (zone_ok (t_loc t2)) as Hok2 by (unfold t2; by rewrite AddDate_loc).
  pose proof (AddDate_near t2 0 (-(2 + 1)) Hok2) as H2. cbv zeta in H1, H2. rewrite !Z.add_0_r in H1, H2.
  pose proof (local_date_clock t). pose proof (local_date_clock t2).
  pose proof (local_date_clock (AddDate t2 0 0 (-(2 + 1)))). lia.
Qed.

Lemma months_back_not_later t :
  zone_ok (t_loc t) →
  let back := AddDate (AddDate t 0 1 0) 0 (-(2 + 1)) 0 in
  month_index (local_date back) ≤ month_index (local_date t) ∧
  local_date t - 400 ≤ local_date back ≤ local_date t + 400.
Proof.
  intros Hok back. subst back. set (t2 := AddDate t 0 1 0).
  pose proof (AddDate_near t 1 0 Hok) as H1. fold t2 in H1.
  assert (zone_ok (t_loc t2)) as Hok2 by (unfold t2; by rewrite AddDate_loc).
  pose proof (AddDate_near t2 (-(2 + 1)) 0 Hok2) as H2. cbv zeta in H1, H2. rewrite !Z.add_0_r in H1, H2.
  pose proof (local_date_clock t) as C1. pose proof (local_date_clock t2) as C2.
  set (back := AddDate t2 0 (-(2 + 1)) 0) in *. pose proof (local_date_clock back) as C3.
  pose proof (month_index_spec (local_date t)) as M1. pose proof (month_index_spec (local_date t2)) as M2.
  destruct (civil_from_days (local_date t)) as [[? ?] d1], (civil_from_days (local_date t2)) as [[? ?] d2].
  set (j := month_index (local_date t)) in *. set (k := month_index (local_date t2)) in *.
  assert (k ≤ j + 2) as Hk.
  { apply month_index_le. pose proof (first_day_mono (j + 1) (j + 2 + 1)). lia. }
  pose proof (first_day_mono (k + -(2 + 1)) (j + 1)) as F1.
  pose proof (first_day_mono (k + -(2 + 1)) (j + 2 + -(2 + 1))) as F2.
  pose proof (first_day_mono (j + 2 + -(2 + 1)) (j + 1)) as F3.
  split.
  - apply month_index_le. lia.
  - assert (∀ i, first_day (i + 1) ≤ first_day i + 31) as Hup by (intros i; apply first_day_range).
    pose proof (Hup j). pose proof (Hup k). pose proof (Hup (k - 1)). pose proof (Hup (k - 2)).
    pose proof (Hup (k - 3)).
    replace (k - 1 + 1) with k in * by lia. replace (k - 2 + 1) with (k - 1) in * by lia.
    replace (k - 3 + 1) with (k - 2) in * by lia. replace (k + -(2 + 1)) with (k - 3) in * by lia.
    pose proof (first_day_range j). pose proof (first_day_mono (k - 3) k). lia.
Qed.

Lemma period_start_dates now loc :
  zone_ok loc → 0 ≤ now ≤ int64_max →
  let '(y, m, d) := CivilDate (MkTime (now / second) loc) in
  -400 ≤ local_date (Date y m d 0 loc) ≤ 200000 ∧ -400 ≤ local_date (Date y m 1 0 loc) ≤ 200000.
Proof.
  intros Hok Hnow. rewrite CivilDate_local_date. set (t := MkTime (now / second) loc).
  destruct (Hok (now / second) 0) as [Ho _].
  assert (0 ≤ now / second ≤ 9223372037) as Hs.
  { unfold second, int64_max in *. Z.to_euclidean_division_equations; lia. }
  assert (-1 ≤ local_date t ≤ 106755) as Hd.
  { pose proof (local_date_clock t). unfold local_seconds in *. simpl in *. lia. }
  pose proof (month_index_spec (local_date t)) as Hm. clearbody t.
  destruct (civil_from_days (local_date t)) as [[y m] d] eqn:E.
  pose proof (civil_range _ _ _ _ E) as [Hmm _]. destruct Hm as [_ Hdd].
  pose proof (days_from_civil_of_days _ _ _ _ E) as Hdays.
  assert (∀ day, -33 ≤ days_from_civil y m 1 + (day - 1) ≤ 106755 →
            -400 ≤ local_date (Date y m day 0 loc) ≤ 200000) as Hgen.
  { intros day Hday. pose proof (Date_near y m day 0 loc Hok) as H. cbv zeta in H.
    rewrite Z.div_small, Z.mod_small in H by lia. replace (m - 1 + 1) with m in H by lia.
    rewrite !Z.add_0_r in H. pose proof (local_date_clock (Date y m day 0 loc)). lia. }
  split; apply Hgen; lia.
Qed.

Lemma current_periods_kept now loc state :
  zone_ok loc → 0 ≤ now ≤ int64_max →
  let p := periods_at now loc in
  map_get (dailyUsed (pruneQuotaPeriods p state)) (pd_daily p) = map_get (dailyUsed state) (pd_daily p) ∧
  map_get (monthlyUsed (pruneQuotaPeriods p state)) (pd_monthly p) =
    map_get (monthlyUsed state) (pd_monthly p).
Proof.
  intros Hok Hnow. pose proof (period_start_dates now loc Hok Hnow) as Hstart.
  unfold periods_at. destruct (CivilDate (MkTime (now / second) loc)) as [[y m] d].
  set (day := Date y m d 0 loc) in *. set (month := Date y m 1 0 loc) in *. destruct Hstart as [Hd Hm].
  assert (t_loc day = loc) as Ld by apply t_loc_Date. assert (t_loc month = loc) as Lm by apply t_loc_Date.
  cbv zeta. rewrite pruned_daily, pruned_monthly. unfold daily_cutoff, monthly_cutoff. simpl.
  rewrite !FormatDay_key, !FormatMonth_key, !CivilDate_local_date. split.
  - pose proof (days_back_not_later day ltac:(by rewrite Ld)) as Hb. unfold quotaRetainedPastPeriods.
    rewrite before_days by (apply civil_printable; lia).
    rewrite (proj2 (Z.ltb_ge (local_date day) _)) by apply Hb. by rewrite andb_false_r.
  - pose proof (months_back_not_later month ltac:(by rewrite Lm)) as [Hle Hb]. unfold quotaRetainedPastPeriods.
    assert (before (month_key (civil_from_days (local_date month)))
      (month_key (civil_from_days (local_date (AddDate (AddDate month 0 1 0) 0 (-(2 + 1)) 0)))) = false) as ->;
      [|by rewrite andb_false_r].
    unfold before. pose proof (month_key_order (local_date month)
      (local_date (AddDate (AddDate month 0 1 0) 0 (-(2 + 1)) 0))) as Hord.
    destruct (String.compare _ _) eqn:Ec; [done| |done]. exfalso.
    apply Hord; [apply civil_printable; lia..|done|done].
Qed.

(** ** Properties *)

(** pruning keeps what a clock rollback could need. In a zone of constant
    offset, pruning keeps the usage of today, the two days before and every
    later day, and of this month, the two before and every later one; once more
    than three keys exist it forgets exactly the older ones. *)
Theorem prune_retention now loc state :
  fixed_zone loc →
  printable (civil_from_days (local_day now loc - 2)) → printable (month_of (local_month now loc - 2)) →
  let state' := pruneQuotaPeriods (periods_at now loc) state in
  (∀ k, printable (civil_from_days k) →
     map_get (dailyUsed state') (day_key (civil_from_days k)) =
       if (3 <? Z.of_nat (size (dailyUsed state))) && (k <? local_day now loc - 2) then 0
       else map_get (dailyUsed state) (day_key (civil_from_days k))) ∧
  (∀ i, printable (month_of i) →
     map_get (monthlyUsed state') (month_key (month_of i)) =
       if (3 <? Z.of_nat (size (monthlyUsed state))) && (i <? local_month now loc - 2) then 0
       else map_get (monthlyUsed state) (month_key (month_of i))).
Proof.
  intros Hf Hd Hm state'. destruct (periods_at_fixed now loc Hf) as (_ & Hcd & _ & Hcm). split.
  - intros k Hk. unfold state'. by rewrite pruned_daily, Hcd, before_days.
  - intros i Hi. unfold state'. by rewrite pruned_monthly, Hcm, before_months.
Qed.

(** 2024-03-01 12:00 UTC, with four days of usage. *)
Lemma prune_retention_witness :
  let used : gmap string Z :=
    {[ "2024-02-27" := 1; "2024-02-28" := 2; "2024-02-29" := 3; "2024-03-01" := 4 ]} in
  let state := {| dailyUsed := used; dailyDurable := used; monthlyUsed := ∅; monthlyDurable := ∅ |} in
  let now := 1709294400 * second in
  map_get (dailyUsed (pruneQuotaPeriods (periods_at now UTC) state)) "2024-02-28" = 2 ∧
  map_get (dailyUsed (pruneQuotaPeriods (periods_at now UTC) state)) "2024-02-27" = 0.
Proof.
  intros used state now.
  destruct (prune_retention now UTC state) as [H _]; [done|by vm_compute|by vm_compute|].
  split.
  - refine (eq_trans (H (days_from_civil 2024 2 28) _) _); by vm_compute.
  - refine (eq_trans (H (days_from_civil 2024 2 27) _) _); by vm_compute.
Defined.

(** The usage one budget records after a grant of [n]. *)
Lemma add_used_get limit used durable period n :
  pair_wf used durable → limit ≤ int64_max → 0 < limit → 0 < n ≤ limit - map_get used period →
  map_get (add_used limit period n used) period = map_get used period + n.
Proof.
  intros Hwf Hl Hpos Hn. pose proof (pair_wf_bounds used durable period Hwf) as [Hu _].
  unfold add_used. destruct (Z.ltb_spec 0 limit); [|lia].
  by rewrite map_get_insert_eq, add64_id by int64_lia.
Qed.

(** The time zone of a quota, and a cache that agrees with the zone database. *)
Definition quota_zone (quota : TrafficQuota) : string :=
  if bool_decide (q_timezone quota = "") then "UTC" else q_timezone quota.
Definition locations_ok `{!TzDatabase} (l : QuotaLedger) : Prop :=
  ∀ timezone location, locations l !! timezone = Some location → LoadLocation timezone = Some location.

Lemma periodsLocked_zone `{!TzDatabase} now quota l periods l' :
  locations_ok l → periodsLocked now quota l = (Some periods, l') →
  states l' = states l ∧ has_store l' = has_store l ∧ flushing l' = flushing l ∧
  ∃ location, LoadLocation (quota_zone quota) = Some location ∧ periods = periods_at now location.
Proof.
  intros Hl. unfold periodsLocked. fold (quota_zone quota).
  destruct (locations l !! quota_zone quota) as [location|] eqn:E.
  - intros [= <- <-]. eauto 10.
  - destruct (LoadLocation (quota_zone quota)) as [location|]; intros [= <- <-]. eauto 10.
Qed.

Lemma mark_pending_states changed l : states (mark_pending changed l).2 = states l.
Proof. unfold mark_pending. by destruct (changed && has_store l). Qed.

(** What a grant writes: the working state with the granted bytes added. *)
Lemma reserve_grant_state `{!TzDatabase} now rq quota l n r flush l' :
  locations_ok l → reserve_grant now rq quota l = (Granted n (Some r) flush, l') →
  ∃ location state',
    LoadLocation (quota_zone quota) = Some location ∧
    let periods := periods_at now location in
    let state := working_state periods (rq_ruleID rq) l in
    n = allowance quota periods state (rq_bytes rq) ∧ 0 < n ∧
    (rq_allOrNothing rq = true → rq_bytes rq ≤ n) ∧
    r = {| rv_ruleID := rq_ruleID rq; rv_daily := activePeriod (0 <? q_daily quota) (pd_daily periods);
           rv_monthly := activePeriod (0 <? q_monthly quota) (pd_monthly periods);
           rv_bytes := n; rv_done := false |} ∧
    states l' = <[rq_ruleID rq := state']> (states l) ∧
    dailyUsed state' = add_used (q_daily quota) (pd_daily periods) n (dailyUsed state) ∧
    monthlyUsed state' = add_used (q_monthly quota) (pd_monthly periods) n (monthlyUsed state).
Proof.
  intros Hl. unfold reserve_grant. destruct (periodsLocked now quota l) as [[periods|] l0] eqn:Hp; [|done].
  apply (periodsLocked_zone now quota l periods l0 Hl) in Hp as (Hst & _ & _ & location & Hload & ->).
  rewrite Hst. fold (working_state (periods_at now location) (rq_ruleID rq) l).
  remember (periods_at now location) as periods eqn:Hperiods.
  remember (working_state periods (rq_ruleID rq) l) as state eqn:Hstate.
  remember (allowance quota periods state (rq_bytes rq)) as allowed eqn:Hallowed.
  destruct (_ || _) eqn:Hrefuse; [done|]. apply orb_false_iff in Hrefuse as [Ha%Z.leb_gt Hall].
  destruct (apply_grant _ _ _ _ _) as [changed state'] eqn:Hg.
  destruct (mark_pending _ _) as [flush' l1] eqn:Hmark.
  intros [= <- <- _ <-]. exists location, state'. split; [done|]. cbv zeta. rewrite <- Hperiods, <- Hstate.
  pose proof (f_equal (states ∘ snd) Hmark) as Hm. simpl in Hm. rewrite mark_pending_states in Hm.
  simpl in Hm. split_and!; [done|done| |done|by rewrite <- Hm| |]; clear Hallowed.
  - intros Hb. rewrite Hb in Hall. by apply Z.ltb_ge in Hall.
  - unfold apply_grant in Hg. by destruct (grow (q_daily quota) _ _ _ _ _), (grow (q_monthly quota) _ _ _ _ _); simplify_eq.
  - unfold apply_grant in Hg. by destruct (grow (q_daily quota) _ _ _ _ _), (grow (q_monthly quota) _ _ _ _ _); simplify_eq.
Qed.

Lemma mark_pending_locations changed l : locations (mark_pending changed l).2 = locations l.
Proof. unfold mark_pending. by destruct (changed && has_store l). Qed.

Lemma reserve_grant_locations `{!TzDatabase} now rq quota l :
  locations (reserve_grant now rq quota l).2 = locations (periodsLocked now quota l).2.
Proof.
  unfold reserve_grant. destruct (periodsLocked now quota l) as [[periods|] l0]; [|done].
  destruct (_ || _); [done|]. destruct (apply_grant _ _ _ _ _) as [changed state].
  pose proof (mark_pending_locations changed (set_states (<[rq_ruleID rq := state]> (states l0)) l0)) as H'.
  by destruct (mark_pending _ _).
Qed.

Lemma periodsLocked_locations `{!TzDatabase} now quota l :
  locations_ok l → locations_ok (periodsLocked now quota l).2.
Proof.
  intros Hl. unfold periodsLocked. fold (quota_zone quota).
  destruct (locations l !! quota_zone quota) as [location|] eqn:E; [done|].
  destruct (LoadLocation (quota_zone quota)) as [location|] eqn:E'; [|done].
  intros timezone loc. simpl. intros [[<- <-]|[_ ?]]%lookup_insert_Some; [done|by apply Hl].
Qed.

Lemma reserve_enter_locations `{!TzDatabase} now rq l :
  locations_ok l → locations_ok (reserve_enter now rq l).2.
Proof.
  intros Hl. unfold reserve_enter. destruct (unlimited rq), (rq_quota rq) as [quota|]; try done.
  destruct (flushErr l); [destruct (_ <? _); [done|by destruct (flushing l)]|].
  unfold locations_ok. rewrite reserve_grant_locations. by apply periodsLocked_locations.
Qed.

Lemma reserve_enter_granted `{!TzDatabase} now rq quota l n r flush l' :
  rq_quota rq = Some quota → reserve_enter now rq l = (Granted n (Some r) flush, l') →
  flushErr l = None ∧ reserve_grant now rq quota l = (Granted n (Some r) flush, l').
Proof.
  intros Hq. unfold reserve_enter. rewrite Hq. destruct (unlimited rq); [done|].
  destruct (flushErr l); [|done]. destruct (_ <? _); [done|by destruct (flushing l)].
Qed.

(** C15: a grant never exceeds a budget. When [reserve] grants [n] bytes, at once
    or to a call that flushed for itself, [n] is positive, at most what was
    requested and all of it in all-or-nothing mode, and a call that did not flush
    found no save error outstanding. The usage recorded before the call for the
    current day and month of the quota's time zone (before anything was pruned)
    grows by exactly [n] in every limited period and stays within its limit; the
    reservation names that rule and those periods, and no other rule's state
    changes. The zone's offsets lie within a day of each other, and in a zone of
    constant offset the keys are the local date's. *)
Theorem grant_within_limits `{!TzDatabase} now rq quota l n r flush l' :
  states_wf (states l) → locations_ok l → request_ok rq → rq_quota rq = Some quota →
  0 ≤ now ≤ int64_max →
  reserve_enter now rq l = (Granted n (Some r) flush, l') ∨
    reserve_grant now rq quota l = (Granted n (Some r) flush, l') →
  (reserve_enter now rq l = (Granted n (Some r) flush, l') → flushErr l = None) ∧
  0 < n ≤ rq_bytes rq ∧ (rq_allOrNothing rq = true → n = rq_bytes rq) ∧
  rv_bytes r = n ∧ rv_ruleID r = rq_ruleID rq ∧
  (∀ id, id ≠ rq_ruleID rq → states l' !! id = states l !! id) ∧
  ∃ location, LoadLocation (quota_zone quota) = Some location ∧
    let day := pd_daily (periods_at now location) in
    let month := pd_monthly (periods_at now location) in
    (fixed_zone location →
       day = day_key (civil_from_days (local_day now location)) ∧
       month = month_key (month_of (local_month now location))) ∧
    (zone_ok location →
       (0 < q_daily quota →
          rv_daily r = day ∧
          used_daily l' (rq_ruleID rq) day = used_daily l (rq_ruleID rq) day + n ∧
          used_daily l' (rq_ruleID rq) day ≤ q_daily quota) ∧
       (0 < q_monthly quota →
          rv_monthly r = month ∧
          used_monthly l' (rq_ruleID rq) month = used_monthly l (rq_ruleID rq) month + n ∧
          used_monthly l' (rq_ruleID rq) month ≤ q_monthly quota)).
Proof.
  intros Hwf Hloc (Hid & Hmax & Hlim) Hq Hnow Hgrant. rewrite Hq in Hlim.
  split; [by intros [? _]%(reserve_enter_granted _ _ _ _ _ _ _ _ Hq)|].
  assert (reserve_grant now rq quota l = (Granted n (Some r) flush, l')) as Hg.
  { destruct Hgrant as [Hg|Hg]; [|done]. by apply (reserve_enter_granted _ _ _ _ _ _ _ _ Hq) in Hg as [_ ?]. }
  apply reserve_grant_state in Hg as (location & state' & Hload & Hg); [|done]. cbv zeta in Hg.
  set (periods := periods_at now location) in *. set (state := working_state _ _ _) in *.
  destruct Hg as (Hn & Hpos & Hall & -> & Hst & Hd & Hm).
  pose proof (working_state_wf periods (rq_ruleID rq) l Hwf) as Hws. fold state in Hws.
  pose proof (allowance_spec quota periods state (rq_bytes rq) Hlim Hws) as (Hreq & Hcd & Hcm).
  rewrite <- Hn in Hreq, Hcd, Hcm. destruct Hws as [Hwd Hwm], Hlim as [Hld Hlm].
  split_and!; [done|done| |done|done| |].
  - intros Hb. specialize (Hall Hb). lia.
  - intros id Hne. rewrite Hst. by rewrite lookup_insert_ne.
  - exists location. split; [done|]. cbv zeta. fold periods. split.
    { intros Hf. pose proof (periods_at_fixed now location Hf) as (E1 & _ & E2 & _). by fold periods in E1, E2. }
    intros Hok. pose proof (current_periods_kept now location
      (default newQuotaRuleUsage (states l !! rq_ruleID rq)) Hok Hnow) as [Kd Km].
    fold periods in Kd, Km. fold (working_state periods (rq_ruleID rq) l) in Kd, Km. fold state in Kd, Km.
    unfold used_daily, used_monthly. rewrite Hst, lookup_insert_eq.
    change (default newQuotaRuleUsage (Some state')) with state'. rewrite <- Kd, <- Km, Hd, Hm. split.
    + intros Hp. specialize (Hcd Hpos Hp). rewrite (add_used_get _ _ _ _ _ Hwd) by (done || lia).
      unfold activePeriod. destruct (Z.ltb_spec 0 (q_daily quota)); [|lia]. split_and!; [done|done|lia].
    + intros Hp. specialize (Hcm Hpos Hp). rewrite (add_used_get _ _ _ _ _ Hwm) by (done || lia).
      unfold activePeriod. destruct (Z.ltb_spec 0 (q_monthly quota)); [|lia]. split_and!; [done|done|lia].
Qed.

(** A rule with a daily budget of 1000 bytes asks for 600 twice. *)
Definition sample_quota : TrafficQuota :=
  {| q_daily := 1000; q_monthly := 0; q_timezone := "UTC"; q_action := "block" |}.
Definition sample_request (bytes : Z) : Request :=
  {| rq_ruleID := "web"; rq_quota := Some sample_quota; rq_bytes := bytes;
     rq_allOrNothing := false; rq_chunk := 100 |}.

Lemma sample_request_ok bytes : bytes ≤ int64_max → request_ok (sample_request bytes).
Proof. intros. by split_and!. Qed.

Lemma first_request_wf `{!TzDatabase} now bytes :
  bytes ≤ int64_max → states_wf (states (reserve_enter now (sample_request bytes) (empty_ledger true)).2).
Proof.
  intros Hb. unfold reserve_enter. destruct (unlimited _); [apply map_Forall_empty|]. simpl.
  destruct (reserve_grant _ _ _ _) as [o l] eqn:E.
  eapply (ge_wf _ _ _ (reserve_grant_effect _ _ _ _ _ _ _ _ _ _ E)).
  Unshelve. all: done || apply map_Forall_empty.
Qed.

Lemma grant_within_limits_witness :
  let l := (@reserve_enter utc_database 0 (sample_request 600) (empty_ledger true)).2 in
  let out := @reserve_enter utc_database 0 (sample_request 600) l in
  let r := {| rv_ruleID := "web"; rv_daily := "1970-01-01"; rv_monthly := ""; rv_bytes := 400;
              rv_done := false |} in
  out.1 = Granted 400 (Some r) false ∧
  used_daily out.2 "web" "1970-01-01" = used_daily l "web" "1970-01-01" + 400 ∧
  used_daily out.2 "web" "1970-01-01" ≤ 1000.
Proof.
  intros l out r. assert (out.1 = Granted 400 (Some r) false) as E by by vm_compute.
  split; [exact E|].
  destruct (@grant_within_limits utc_database 0 (sample_request 600) sample_quota l 400 r false out.2)
    as (_ & _ & _ & _ & _ & _ & location & Hload & _ & H).
  - by apply first_request_wf.
  - apply reserve_enter_locations. by intros ? ?.
  - by apply sample_request_ok.
  - done.
  - int64_lia.
  - left. rewrite <-E. apply surjective_pairing.
  - injection Hload as <-. by apply H; [apply UTC_zone_ok|].
Defined.

Lemma covered_usage s id p :
  sys_inv s → settled s →
  used_daily (ledger s) id p ≤ map_get (saved_daily (disk s) id) p ∧
  used_monthly (ledger s) id p ≤ map_get (saved_monthly (disk s) id) p.
Proof.
  intros Hinv (Hst & Hno & Herr). pose proof (si_flush s Hinv) as Hf. rewrite Hno in Hf.
  destruct Hf as [_ Hf]. destruct (Hf Hst Herr) as [_ Hcov]. unfold used_daily, used_monthly.
  destruct (states (ledger s) !! id) as [state|] eqn:E; simpl.
  - destruct (Hcov id state E) as [Hd Hm].
    apply (si_states s Hinv) in E as (_ & (_ & _ & Hd') & (_ & _ & Hm')).
    split; [etrans; [apply Hd'|apply Hd]|etrans; [apply Hm'|apply Hm]].
  - rewrite map_get_empty. destruct (si_disk s Hinv) as [Hv _].
    split; apply periods_valid_get, Hv.
Qed.

(** C14: a restart at rest never re-opens allowance. Start from any loadable
    state file, run any interleaving of reserves, flush rounds that succeed or
    fail, refunds, snapshots and exact saves; whenever no save is due, running
    or failed, the file on disk loads, and every rule's usage of every period
    after loading is at least what the ledger had recorded. *)
Theorem restart_keeps_usage `{!TzDatabase} records l0 evs s :
  records_int64 records → newQuotaLedger (Some (Ok records)) = Ok l0 →
  Forall event_ok evs → run evs (boot records l0) = Some s → settled s →
  ∃ l, newQuotaLedger (Some (Ok (disk s))) = Ok l ∧
    ∀ id p, used_daily (ledger s) id p ≤ used_daily l id p ∧
            used_monthly (ledger s) id p ≤ used_monthly l id p.
Proof.
  intros Hmax Hl0 Hok Hrun Hset. pose proof (boot_inv _ _ Hmax Hl0) as Hboot.
  pose proof (run_preserves _ _ _ Hok Hboot Hrun) as Hinv.
  destruct (reload_ok (disk s)) as [l Hl]; [apply Hinv|]. exists l. split; [done|].
  intros id p. destruct (reload_used _ _ Hl id p) as [-> ->]. by apply covered_usage.
Qed.

Lemma no_records_int64 : records_int64 [].
Proof. intros id p. by vm_compute. Qed.

(** A grant, its flush, and the restart. *)
Definition sample_events : list Event :=
  [EvReserve 0 (sample_request 600); EvFlushBegin; EvSaved; EvFlushBegin].

Lemma sample_events_ok : Forall event_ok sample_events.
Proof. repeat (apply Forall_cons; split); [by apply sample_request_ok|done..|apply Forall_nil; done]. Qed.

Lemma restart_keeps_usage_witness :
  ∃ s, @run utc_database sample_events (boot [] (empty_ledger true)) = Some s ∧
    used_daily (ledger s) "web" "1970-01-01" = 600 ∧
    ∃ l, newQuotaLedger (Some (Ok (disk s))) = Ok l ∧
      ∀ id p, used_daily (ledger s) id p ≤ used_daily l id p ∧
              used_monthly (ledger s) id p ≤ used_monthly l id p.
Proof.
  destruct (@run utc_database sample_events (boot [] (empty_ledger true))) as [s|] eqn:E;
    [|exfalso; by vm_compute in E].
  exists s. split; [done|].
  assert ((λ s, used_daily (ledger s) "web" "1970-01-01") <$>
            @run utc_database sample_events (boot [] (empty_ledger true)) = Some 600) as Hu by by vm_compute.
  assert ((λ s, (has_store (ledger s), flushing (ledger s), flushErr (ledger s))) <$>
            @run utc_database sample_events (boot [] (empty_ledger true)) = Some (true, false, None))
    as Hs by by vm_compute.
  rewrite E in Hu, Hs. simpl in Hu, Hs. injection Hu as Hu. injection Hs as Hs1 Hs2 Hs3.
  split; [exact Hu|].
  apply (@restart_keeps_usage utc_database [] (empty_ledger true) sample_events s).
  - apply no_records_int64.
  - done.
  - apply sample_events_ok.
  - done.
  - split_and!; [done| |done].
    assert (sys_inv s) as Hinv.
    { eapply run_preserves; [apply sample_events_ok| |exact E].
      by apply boot_inv; [apply no_records_int64|]. }
    pose proof (si_flush s Hinv) as Hf. destruct (flusher s); [done|..]; destruct Hf; congruence.
Defined.

(** [l'] records no more usage than [l]. *)
Definition usage_le (l' l : QuotaLedger) : Prop :=
  ∀ id p, used_daily l' id p ≤ used_daily l id p ∧ used_monthly l' id p ≤ used_monthly l id p.

Lemma usage_le_states l' l : states l' = states l → usage_le l' l.
Proof. intros E id p. unfold used_daily, used_monthly. rewrite E. lia. Qed.

Lemma refund_le period amount used durable p :
  pair_wf used durable → map_get (refundQuotaPeriod period amount used) p ≤ map_get used p.
Proof.
  intros Hwf. pose proof (pair_wf_bounds used durable period Hwf) as [Hu _].
  unfold refundQuotaPeriod. destruct (_ || _) eqn:E; [lia|]. apply orb_false_iff in E as [_ Ha%Z.leb_gt].
  destruct (decide (period = p)) as [<-|Hne];
    destruct (Z.ltb_spec amount (map_get used period));
    rewrite ?map_get_insert_eq, ?map_get_insert_ne by done; try lia.
  rewrite sub64_id by int64_lia. lia.
Qed.

Lemma finish_usage_le written r l : states_wf (states l) → usage_le (finish written r l).2 l.
Proof.
  intros Hwf. unfold finish. destruct (rv_done r); [by apply usage_le_states|].
  destruct (_ =? 0); [by apply usage_le_states|].
  destruct (states l !! rv_ruleID r) as [state|] eqn:E; [|by apply usage_le_states].
  destruct (Hwf _ _ E) as (_ & Hd & Hm). intros id p. unfold used_daily, used_monthly. simpl.
  destruct (decide (rv_ruleID r = id)) as [<-|Hne].
  - rewrite lookup_insert_eq, E. simpl. split; eapply refund_le; done.
  - rewrite lookup_insert_ne by done. lia.
Qed.

Lemma exact_usage_le (l : QuotaLedger) : usage_le (exact_prepare l) l.
Proof.
  intros id p. unfold used_daily, used_monthly. simpl. rewrite lookup_fmap.
  destruct (states l !! id); simpl; lia.
Qed.

(** The gate: what a call does to the ledger while a save error is outstanding. *)
Lemma gated_reserve `{!TzDatabase} now rq l e :
  flushErr l = Some e → unlimited rq = false →
  (reserve_enter now rq l = (MustFlush, set_flush true (Some e) true (flushFailAt l) l) ∧
     flushing l = false ∧ quotaPersistRetryCooldown ≤ now - flushFailAt l) ∨
  ∃ l', reserve_enter now rq l = (Refused (PersistFailed e), l') ∧ states l' = states l ∧
    (now - flushFailAt l < quotaPersistRetryCooldown → l' = l).
Proof.
  intros He Hu. destruct (unlimited_quota rq Hu) as [quota Hq].
  unfold reserve_enter. rewrite Hu, Hq, He.
  destruct (Z.ltb_spec (now - flushFailAt l) quotaPersistRetryCooldown); [right; eauto|].
  destruct (flushing l) eqn:Hf; [right|left; done]. eexists. split_and!; [done|done|lia].
Qed.

(** C16: a failed save closes the gate for new calls. In any reachable system
    with a save error outstanding, no step of any goroutine records more usage for
    any rule and period, except that of a call that had passed the gate before: it
    flushed for itself successfully and goes on without looking again
    ([resumed_call_passes_gate]). A new call with a budget to account gets no
    reservation: within the cooldown it changes nothing, after it at most one call
    at a time is told to run the flush. *)
Theorem failed_save_gates `{!TzDatabase} records l0 evs s e ev s' :
  records_int64 records → newQuotaLedger (Some (Ok records)) = Ok l0 →
  Forall event_ok evs → run evs (boot records l0) = Some s →
  flushErr (ledger s) = Some e → event_ok ev → exec ev s = Some s' →
  ((∀ index now, ev ≠ EvResume index now) → usage_le (ledger s') (ledger s)) ∧
  ∀ now rq, ev = EvReserve now rq → unlimited rq = false →
    outstanding s' = outstanding s ∧
    (now - flushFailAt (ledger s) < quotaPersistRetryCooldown → s' = s) ∧
    (flusher s' = flusher s ∨ flusher s = NoFlush ∧ flusher s' = FlushReady (Some rq)).
Proof.
  intros Hmax Hl0 Hok Hrun He Hev Hexec.
  pose proof (run_preserves _ _ _ Hok (boot_inv _ _ Hmax Hl0) Hrun) as Hinv. split.
  - intros Hres. destruct ev as [now rq| | |now e'|index now|index written|now id quota|outcome]; simpl in Hexec.
    + injection Hexec as <-. destruct (unlimited rq) eqn:Hu.
      { unfold reserve_enter. rewrite Hu. by apply usage_le_states. }
      destruct (gated_reserve now rq (ledger s) e He Hu) as [(-> & _)|(l' & -> & Hl' & _)];
        by apply usage_le_states.
    + destruct (flusher s); [done| |done]. unfold flush_begin in Hexec.
      destruct (flushPending (ledger s)); simpl in Hexec; injection Hexec as <-; by apply usage_le_states.
    + destruct (flusher s); [done..|]. injection Hexec as <-. by apply usage_le_states.
    + destruct (flusher s); [done..|]. injection Hexec as <-. by apply usage_le_states.
    + by destruct (Hres index now).
    + destruct (outstanding s !! index) as [r|]; [|done].
      pose proof (finish_usage_le written r (ledger s) (si_states _ Hinv)) as Hle.
      destruct (finish written r (ledger s)) as [r' l']. by injection Hexec as <-.
    + injection Hexec as <-. apply usage_le_states. unfold quota_snapshot. simpl.
      destruct quota as [quota|]; [|done]. destruct (_ && _); [done|].
      destruct (periodsLocked now quota (ledger s)) as [found l'] eqn:Hp.
      apply periodsLocked_spec in Hp as [[m ->] _]. by destruct found.
    + destruct (negb _); [injection Hexec as <-; by apply usage_le_states|].
      destruct (flushing _); [done|].
      destruct outcome; injection Hexec as <-; apply exact_usage_le.
  - intros now rq -> Hu. simpl in Hexec. injection Hexec as <-.
    assert (s = {| ledger := ledger s; disk := disk s; flusher := flusher s; resumed := resumed s;
                   outstanding := outstanding s |}) as Hs by by destruct s.
    destruct (gated_reserve now rq (ledger s) e He Hu) as [(-> & Hf & Hc)|(l' & -> & _ & Hl')]; simpl.
    + split; [done|]. split; [lia|]. right. split; [|done].
      pose proof (si_flush s Hinv) as Hfl. destruct (flusher s); [done|..]; destruct Hfl; congruence.
    + split; [done|]. split; [|by left]. intros Hlt. by rewrite (Hl' Hlt), <-Hs.
Qed.

(** The first save fails; a reserve within the cooldown changes nothing. *)
Lemma failed_save_gates_witness :
  let evs := [EvReserve 0 (sample_request 600); EvFlushBegin; EvSaveFailed 5 "disk full"] in
  ∃ s, @run utc_database evs (boot [] (empty_ledger true)) = Some s ∧
    @exec utc_database (EvReserve 100 (sample_request 10)) s = Some s.
Proof.
  intros evs. destruct (@run utc_database evs (boot [] (empty_ledger true))) as [s|] eqn:E;
    [|exfalso; by vm_compute in E].
  exists s. split; [done|].
  assert ((λ s, (flushErr (ledger s), flushFailAt (ledger s))) <$>
    @run utc_database evs (boot [] (empty_ledger true)) = Some (Some "disk full", 5)) as Hs by by vm_compute.
  rewrite E in Hs. simpl in Hs. injection Hs as He Hat.
  destruct (@exec utc_database (EvReserve 100 (sample_request 10)) s) as [s'|] eqn:E'; [|done].
  destruct (@failed_save_gates utc_database [] (empty_ledger true) evs s "disk full"
    (EvReserve 100 (sample_request 10)) s') as [_ H]; [apply no_records_int64|reflexivity| |exact E|exact He|by apply sample_request_ok|exact E'|].
  - repeat constructor; by apply sample_request_ok.
  - destruct (H 100 (sample_request 10) eq_refl eq_refl) as (_ & Heq & _).
    rewrite Heq; [done|]. rewrite Hat. by vm_compute.
Defined.

(** a save that succeeds lifts the gate. From any reachable system whose
    flush is about to start, if the store accepts the save and no other goroutine
    runs in between, the round drains: the system is at rest, the error is
    cleared, the saved file covers the ledger, and a caller that ran the flush
    for itself is ready to go on. *)
Theorem flush_recovers `{!TzDatabase} records l0 evs s owner :
  records_int64 records → newQuotaLedger (Some (Ok records)) = Ok l0 →
  Forall event_ok evs → run evs (boot records l0) = Some s → flusher s = FlushReady owner →
  ∃ s', run (if flushPending (ledger s) then [EvFlushBegin; EvSaved; EvFlushBegin] else [EvFlushBegin]) s
          = Some s' ∧
    settled s' ∧ covers (disk s') (states (ledger s')) ∧ states (ledger s') = states (ledger s) ∧
    resumed s' = match owner with Some rq => resumed s ++ [rq] | None => resumed s end.
Proof.
  intros Hmax Hl0 Hok Hrun Hready.
  pose proof (run_preserves _ _ _ Hok (boot_inv _ _ Hmax Hl0) Hrun) as Hinv.
  pose proof (si_flush s Hinv) as Hf. rewrite Hready in Hf. destruct Hf as (H1 & H2 & H3).
  destruct (flushPending (ledger s)) eqn:Hp.
  - eexists. split.
    { simpl. rewrite Hready. unfold flush_begin. rewrite Hp. simpl. reflexivity. }
    split; [done|split; [|by split]]. exact (persistentState_covers (ledger s)).
  - eexists. split.
    { simpl. rewrite Hready. unfold flush_begin. rewrite Hp. simpl. reflexivity. }
    split; [done|split; [|by split]]. by apply H3.
Qed.

Lemma flush_recovers_witness :
  ∃ s, @run utc_database [EvReserve 0 (sample_request 600)] (boot [] (empty_ledger true)) = Some s ∧
  ∃ s', @run utc_database [EvFlushBegin; EvSaved; EvFlushBegin] s = Some s' ∧ settled s'.
Proof.
  destruct (@run utc_database [EvReserve 0 (sample_request 600)] (boot [] (empty_ledger true)))
    as [s|] eqn:E; [|exfalso; by vm_compute in E].
  exists s. split; [done|].
  assert ((λ s, (match flusher s with FlushReady None => true | _ => false end, flushPending (ledger s))) <$>
    @run utc_database [EvReserve 0 (sample_request 600)] (boot [] (empty_ledger true)) = Some (true, true))
    as Hs by by vm_compute.
  rewrite E in Hs. simpl in Hs. injection Hs as Hf Hp.
  destruct (@flush_recovers utc_database [] (empty_ledger true) [EvReserve 0 (sample_request 600)] s None)
    as (s' & Hrun & Hset & _); [apply no_records_int64|done| |done| |].
  - apply Forall_singleton. by apply sample_request_ok.
  - by destruct (flusher s) as [|[?|]|].
  - rewrite Hp in Hrun. by exists s'.
Defined.

(** the exact save loses nothing and keeps nothing extra. After a successful
    [SaveExact], a restart restores for every rule and period exactly the usage
    recorded in memory, without the conservative marks of the write-behind, and
    the persistence gate is open. *)
Theorem exact_save_roundtrip `{!TzDatabase} records l0 evs s s' :
  records_int64 records → newQuotaLedger (Some (Ok records)) = Ok l0 →
  Forall event_ok evs → run evs (boot records l0) = Some s →
  has_store (ledger s) = true → exec (EvSaveExact None) s = Some s' →
  flushErr (ledger s') = None ∧ flushPending (ledger s') = false ∧
  ∃ l, newQuotaLedger (Some (Ok (disk s'))) = Ok l ∧
    ∀ id p, used_daily l id p = used_daily (ledger s) id p ∧
            used_monthly l id p = used_monthly (ledger s) id p.
Proof.
  intros Hmax Hl0 Hok Hrun Hstore Hsave.
  pose proof (run_preserves _ _ _ Hok (boot_inv _ _ Hmax Hl0) Hrun) as Hinv.
  pose proof (exec_preserves (EvSaveExact None) s s' I Hinv Hsave) as Hinv'.
  simpl in Hsave. rewrite Hstore in Hsave. destruct (flushing (ledger s)); [done|].
  injection Hsave as <-. split; [done|]. split; [done|].
  destruct (reload_ok _ (si_disk _ Hinv')) as [l Hl]. exists l. split; [done|].
  intros id p. destruct (reload_used _ _ Hl id p) as [-> ->].
  unfold saved_daily, saved_monthly, used_daily, used_monthly. simpl.
  rewrite record_of_persistentState. simpl. rewrite lookup_fmap.
  by destruct (states (ledger s) !! id).
Qed.

(** The same start, saved exactly: 600 bytes, although the mark was larger. *)
Lemma exact_save_roundtrip_witness :
  ∃ s s', @run utc_database sample_events (boot [] (empty_ledger true)) = Some s ∧
    @exec utc_database (EvSaveExact None) s = Some s' ∧
    ∃ l, newQuotaLedger (Some (Ok (disk s'))) = Ok l ∧
      ∀ id p, used_daily l id p = used_daily (ledger s) id p ∧
              used_monthly l id p = used_monthly (ledger s) id p.
Proof.
  destruct (@run utc_database sample_events (boot [] (empty_ledger true))) as [s|] eqn:E;
    [|exfalso; by vm_compute in E].
  assert ((λ s, (has_store (ledger s), flushing (ledger s))) <$>
            @run utc_database sample_events (boot [] (empty_ledger true)) = Some (true, false))
    as Hs by by vm_compute.
  rewrite E in Hs. simpl in Hs. injection Hs as Hs1 Hs2.
  destruct (@exec utc_database (EvSaveExact None) s) as [s'|] eqn:E';
    [|exfalso; simpl in E'; by rewrite Hs1, Hs2 in E'].
  exists s, s'. split; [done|]. split; [done|].
  apply (@exact_save_roundtrip utc_database [] (empty_ledger true) sample_events s s');
    [apply no_records_int64|done|apply sample_events_ok|done|done|done].
Defined.

Lemma refund_get period amount used :
  period ≠ "" → 0 ≤ amount ≤ map_get used period → map_get used period ≤ int64_max →
  ∀ p, map_get (refundQuotaPeriod period amount used) p =
    if bool_decide (p = period) then map_get used p - amount else map_get used p.
Proof.
  intros Hp Ha Hmax p. unfold refundQuotaPeriod. rewrite bool_decide_eq_false_2 by done. simpl.
  destruct (Z.leb_spec amount 0).
  { case_bool_decide; subst; lia. }
  case_bool_decide as E.
  - subst p. destruct (Z.ltb_spec amount (map_get used period)); rewrite map_get_insert_eq; [|lia].
    by rewrite sub64_id by int64_lia.
  - destruct (Z.ltb_spec amount (map_get used period)); by rewrite map_get_insert_ne.
Qed.

(** finishing a reservation charges exactly the bytes written, once. When
    the rule's budgets still hold the reserved bytes, [finish] leaves in every
    budget of the reservation the bytes that were written (clamped to the
    reservation) instead of the bytes reserved, touches no other period and no
    durable mark; a second [finish] of the same reservation does nothing. *)
Theorem finish_charges_written written r l state :
  reservation_wf r → rv_done r = false → states_wf (states l) →
  states l !! rv_ruleID r = Some state →
  (rv_daily r ≠ "" → rv_bytes r ≤ map_get (dailyUsed state) (rv_daily r)) →
  (rv_monthly r ≠ "" → rv_bytes r ≤ map_get (monthlyUsed state) (rv_monthly r)) →
  let '(r', l') := finish written r l in
  let charged := Z.max 0 (Z.min (rv_bytes r) written) in
  (∃ state', states l' !! rv_ruleID r = Some state' ∧
     dailyDurable state' = dailyDurable state ∧ monthlyDurable state' = monthlyDurable state ∧
     (∀ p, map_get (dailyUsed state') p =
        if bool_decide (p = rv_daily r ∧ rv_daily r ≠ "")
        then map_get (dailyUsed state) p - rv_bytes r + charged else map_get (dailyUsed state) p) ∧
     (∀ p, map_get (monthlyUsed state') p =
        if bool_decide (p = rv_monthly r ∧ rv_monthly r ≠ "")
        then map_get (monthlyUsed state) p - rv_bytes r + charged else map_get (monthlyUsed state) p)) ∧
  ∀ again, finish again r' l' = (r', l').
Proof.
  intros Hr Hdone Hwf Hst Hd Hm. pose proof (Hwf _ _ Hst) as (_ & Hwd & Hwm).
  destruct (finish written r l) as [r' l'] eqn:Hfin. cbv zeta.
  unfold finish in Hfin. rewrite Hdone in Hfin. unfold reservation_wf in Hr.
  pose proof (clamp_range (rv_bytes r) written ltac:(lia)) as Hc.
  assert (clamp_written (rv_bytes r) written = Z.max 0 (Z.min (rv_bytes r) written)) as Hcl.
  { unfold clamp_written. repeat case_match; bool_to_prop; lia. }
  rewrite Hcl in Hfin, Hc. rewrite sub64_id in Hfin by int64_lia. rewrite Hst in Hfin.
  set (charged := Z.max 0 (Z.min (rv_bytes r) written)) in *.
  assert (∀ used durable period, pair_wf used durable → (period ≠ "" → rv_bytes r ≤ map_get used period) →
    ∀ p, map_get (refundQuotaPeriod period (rv_bytes r - charged) used) p =
      if bool_decide (p = period ∧ period ≠ "") then map_get used p - rv_bytes r + charged
      else map_get used p) as Hget.
  { intros used durable period Hw Hle p. pose proof (pair_wf_bounds used durable period Hw) as [Hu _].
    destruct (decide (period = "")) as [->|Hne].
    - rewrite bool_decide_eq_false_2 by naive_solver. done.
    - specialize (Hle Hne). rewrite refund_get by (done || lia).
      destruct (decide (p = period)) as [->|Hp].
      + rewrite !bool_decide_eq_true_2 by done. lia.
      + by rewrite !bool_decide_eq_false_2 by naive_solver. }
  destruct (Z.eqb_spec (rv_bytes r - charged) 0) as [Hz|Hz]; injection Hfin as <- <-.
  - split; [|done]. exists state. split_and!; try done; intros p; case_bool_decide; lia.
  - split; [|done]. simpl. rewrite lookup_insert_eq. eexists. split; [done|]. simpl.
    split_and!; [done|done|by eapply Hget|by eapply Hget].
Qed.

Lemma finish_charges_written_witness :
  let used : gmap string Z := {[ "2024-03-01" := 70 ]} in
  let state := {| dailyUsed := used; dailyDurable := used; monthlyUsed := ∅; monthlyDurable := ∅ |} in
  let l := set_states {[ "web" := state ]} (empty_ledger true) in
  let r := {| rv_ruleID := "web"; rv_daily := "2024-03-01"; rv_monthly := ""; rv_bytes := 50;
              rv_done := false |} in
  used_daily (finish 20 r l).2 "web" "2024-03-01" = 40 ∧
  ∀ again, finish again (finish 20 r l).1 (finish 20 r l).2 = finish 20 r l.
Proof.
  intros used state l r. split; [by vm_compute|].
  assert (pair_wf used used) as Hu.
  { split_and!; [by apply map_Forall_singleton|by apply map_Forall_singleton|].
    intros p. unfold used, map_get. destruct (decide (p = "2024-03-01")) as [->|Hne].
    - rewrite lookup_singleton_eq. simpl. int64_lia.
    - rewrite lookup_singleton_ne by done. simpl. int64_lia. }
  assert (reservation_wf r) as Hr by by vm_compute.
  assert (states l !! rv_ruleID r = Some state) as Hl by apply lookup_singleton_eq.
  pose proof (finish_charges_written 20 r l state Hr eq_refl) as H.
  destruct (finish 20 r l) as [r' l']. apply H; [|exact Hl| |].
  - apply map_Forall_singleton. split; [done|]. split; [exact Hu|apply newQuotaRuleUsage_wf].
  - intros _. by vm_compute.
  - intros Hne. by destruct Hne.
Defined.

Lemma cap_positive limit used period allowed :
  0 ≤ map_get used period ≤ int64_max → limit ≤ int64_max → 0 < allowed →
  cap limit used period allowed ≤ 0 ↔ 0 < limit ∧ limit ≤ map_get used period.
Proof. intros. rewrite cap_spec by done. destruct (Z.ltb_spec 0 limit); lia. Qed.

Lemma cap_nonpositive limit used period allowed :
  allowed ≤ 0 → 0 ≤ map_get used period ≤ int64_max → limit ≤ int64_max →
  cap limit used period allowed ≤ 0.
Proof. intros. rewrite cap_spec by done. destruct (Z.ltb_spec 0 limit); lia. Qed.

(** [allowance] of a positive request is zero exactly when a budget is used up. *)
Lemma allowance_zero quota periods state requested :
  limits_ok quota → usage_wf state → 0 < requested →
  allowance quota periods state requested ≤ 0 ↔
    (0 < q_daily quota ∧ q_daily quota ≤ map_get (dailyUsed state) (pd_daily periods)) ∨
    (0 < q_monthly quota ∧ q_monthly quota ≤ map_get (monthlyUsed state) (pd_monthly periods)).
Proof.
  intros [Hld Hlm] [Hd Hm] Hreq. unfold allowance.
  pose proof (pair_wf_bounds _ _ (pd_daily periods) Hd) as [? _].
  pose proof (pair_wf_bounds _ _ (pd_monthly periods) Hm) as [? _].
  set (inner := cap (q_daily quota) _ _ _).
  pose proof (cap_positive (q_daily quota) (dailyUsed state) (pd_daily periods) requested) as Hi.
  fold inner in Hi. destruct (Z.le_gt_cases inner 0) as [Hle|Hgt].
  - split; [intros _; left; by apply Hi|]. intros _. by apply cap_nonpositive.
  - rewrite cap_positive by done.
    assert (¬ (0 < q_daily quota ∧ q_daily quota ≤ map_get (dailyUsed state) (pd_daily periods))).
    { intros Hx. apply Hi in Hx; [lia|done..]. }
    tauto.
Qed.

(** the [blocked] flag tells exactly whether traffic would be refused. For a
    rule in a zone of constant offset, [blocked] (the check on new connections)
    is true if and only if a partial reserve of any positive size would be
    refused at that moment; when a zone is unknown both refuse. *)
Theorem blocked_iff_refused `{!TzDatabase} now rq quota l :
  states_wf (states l) → request_ok rq → rq_quota rq = Some quota → unlimited rq = false →
  rq_allOrNothing rq = false →
  (∀ periods, (periodsLocked now quota l).1 = Some periods →
     ∃ zone, periods = periods_at now zone ∧ fixed_zone zone ∧
       printable (civil_from_days (local_day now zone)) ∧
       printable (civil_from_days (local_day now zone - 2)) ∧
       printable (month_of (local_month now zone)) ∧ printable (month_of (local_month now zone - 2))) →
  (blocked now (rq_ruleID rq) (Some quota) l).1 = true ↔
  ∃ e, (reserve_grant now rq quota l).1 = Refused e.
Proof.
  intros Hwf (Hid & Hmax & Hlim) Hq Hu Hall Hzone. rewrite Hq in Hlim.
  unfold unlimited in Hu. rewrite Hq in Hu. apply orb_false_iff in Hu as [Hpos Hlimits].
  apply Z.leb_gt in Hpos. unfold blocked, quota_snapshot, reserve_grant. rewrite Hlimits.
  destruct (periodsLocked now quota l) as [found l0] eqn:Hp.
  pose proof (periodsLocked_spec _ _ _ _ _ Hp) as [[m ->] Hfound].
  destruct found as [periods|]; [|simpl; split; [intros _; by eexists|done]]. clear Hfound.
  destruct (Hzone periods eq_refl) as (zone & -> & Hfix & P1 & P2 & P3 & P4). clear Hzone.
  destruct (periods_at_fixed now zone Hfix) as (E1 & E2 & E3 & E4).
  set (state := default newQuotaRuleUsage (states l !! rq_ruleID rq)).
  assert (usage_wf state) as Hws.
  { unfold state. destruct (states l !! rq_ruleID rq) eqn:E; simpl;
      [by apply Hwf in E as [_ ?]|apply newQuotaRuleUsage_wf]. }
  pose proof (allowance_zero quota (periods_at now zone)
    (pruneQuotaPeriods (periods_at now zone) state) (rq_bytes rq) Hlim
    (pruneQuotaPeriods_wf _ _ Hws) ltac:(lia)) as Hz.
  rewrite pruned_daily, pruned_monthly, E1, E2, E3, E4, before_days, before_months in Hz by done.
  rewrite (proj2 (Z.ltb_ge (local_day now zone) _)), (proj2 (Z.ltb_ge (local_month now zone) _)) in Hz by lia.
  rewrite !andb_false_r, <-E1, <-E3 in Hz. cbv zeta. cbn [states set_locations]. fold state.
  assert (∀ b p, periodUsage (states l !! rq_ruleID rq) b p =
            map_get (if b then dailyUsed state else monthlyUsed state) p) as Hpu.
  { intros b p. unfold periodUsage, state. by destruct (states l !! rq_ruleID rq), b. }
  rewrite !Hpu, Hall, andb_false_l, orb_false_r.
  set (allowed := allowance _ _ _ _) in *. clearbody allowed. clear E1 E2 E3 E4.
  set (p := periods_at now zone) in *. clearbody p.
  transitivity (allowed ≤ 0).
  - rewrite Hz. simpl. rewrite orb_true_iff. unfold exhausted, quotaPeriodSnapshot.
    destruct (Z.ltb_spec 0 (q_daily quota)), (Z.ltb_spec 0 (q_monthly quota)); simpl;
      rewrite ?Z.leb_le; intuition (lia || done).
  - destruct (Z.leb_spec allowed 0); simpl; [split; [by eexists|done]|].
    destruct (apply_grant _ _ _ _ _). destruct (mark_pending _ _). simpl.
    split; [lia|]. by intros [? ?].
Qed.

Lemma blocked_iff_refused_witness :
  let now := 1709294400 * second in
  let l := empty_ledger true in
  (@blocked utc_database now "web" (Some sample_quota) l).1 = true ↔
  ∃ e, (@reserve_grant utc_database now (sample_request 5) sample_quota l).1 = Refused e.
Proof.
  intros now l. apply (@blocked_iff_refused utc_database now (sample_request 5) sample_quota l);
    [apply map_Forall_empty|by apply sample_request_ok|done|done|done|].
  - intros periods E. exists UTC. split_and!; [|done|by vm_compute..].
    pose proof (eq_refl : (@periodsLocked utc_database now sample_quota l).1 = Some (periods_at now UTC)) as E'.
    rewrite E' in E. by injection E as <-.
Defined.

(** ** Executions that show what the durability contract does not promise *)

(** Three reserves, the last two while the first save is still running. *)
Definition slow_save_events : list Event :=
  [EvReserve 0 (sample_request 100); EvFlushBegin;
   EvReserve 1 (sample_request 100); EvReserve 2 (sample_request 100)].

(** a slow save can lose more than one durable chunk. With a chunk of 100
    bytes, three reserves are granted 300 bytes while the first save is in
    flight; a crash at that point leaves nothing on disk, so the usage lost is
    three chunks for one rule and one period. *)
Theorem slow_save_loses_chunks :
  (λ s, (match flusher s with Saving _ _ => true | _ => false end,
         used_daily (ledger s) "web" "1970-01-01", disk s)) <$>
    @run utc_database slow_save_events (boot [] (empty_ledger true)) = Some (true, 300, []).
Proof. by vm_compute. Qed.

(** The retrying caller [A] flushes successfully; before it resumes, another
    reserve raises a flush that fails. *)
Definition overtaken_events : list Event :=
  let t1 := 2 * second in
  [EvReserve 0 (sample_request 100); EvFlushBegin; EvSaveFailed 0 "down";
   EvReserve t1 (sample_request 50); EvFlushBegin; EvSaved; EvFlushBegin;
   EvReserve t1 (sample_request 200); EvFlushBegin; EvSaveFailed t1 "down"].

(** a caller that flushed for itself does not look at the gate again. After
    its own flush succeeded and a later save failed, the resumed call is still
    granted its 50 bytes although a save error is outstanding. *)
Theorem resumed_call_passes_gate :
  (λ s, (flushErr (ledger s), used_daily (ledger s) "web" "1970-01-01")) <$>
    @run utc_database overtaken_events (boot [] (empty_ledger true)) = Some (Some "down", 300) ∧
  (λ s, (flushErr (ledger s), used_daily (ledger s) "web" "1970-01-01")) <$>
    @run utc_database (overtaken_events ++ [EvResume 0 (2 * second)]) (boot [] (empty_ledger true))
    = Some (Some "down", 350).
Proof. split; by vm_compute. Qed.

(** A zone three hours behind UTC whose clocks skip from 00:00 to 01:00 at
    03:00 UTC on 2018-11-04 (Brasilia). *)
Definition midnight_transition_zone : Location := MkLocation (-10800) [(1541300400, -7200)].

(** on a day that starts with a clock change, the daily period is the
    previous day's. Where clocks skip the hour after midnight, midnight does not
    exist and [time.Date] answers 23:00 of the day before, so at noon the ledger
    still accounts to the previous day, whose budget may be used up, and reports
    the next reset at 23:00 of the current day. *)
Theorem skipped_midnight_reuses_day :
  let noon := 1541340000 * second in
  CivilDate (MkTime (noon / second) midnight_transition_zone) = (2018, 11, 4) ∧
  pd_daily (periods_at noon midnight_transition_zone) = "2018-11-03" ∧
  let reset := pd_dailyReset (periods_at noon midnight_transition_zone) in
  CivilDate reset = (2018, 11, 4) ∧ Clock reset = 23 * 3600.
Proof. split_and!; by vm_compute. Qed.
