(* ===== verification/Traffic.v ===== *)
(** * Rule traffic controllers (engine/traffic_control.go)

    The bandwidth and quota parameters of a rule and the FIFO queue of its rate
    limiters.  The token arithmetic of [sharedRateLimiter.wait] is [float64] and
    is not modelled: a limiter here is its queue, and "enough tokens" is the
    environment's choice. *)

From S2P Require Import Prelude GoStrings Calendar SourceIP Limits Rule Quota.

Definition minimumTrafficBurst : Z := 64 * 2 ^ 10.
Definition maximumTrafficBurst : Z := 4 * 2 ^ 20.

Definition automaticTrafficBurst (rate : Z) : Z :=
  if rate <=? 0 then 0
  else Z.min (Z.max (Z.quot rate 10) minimumTrafficBurst) maximumTrafficBurst.

(** The smallest positive limit of a quota, 0 when there is none. *)
Definition smaller_limit (smallest limit : Z) : Z :=
  if (0 <? limit) && ((smallest =? 0) || (limit <? smallest)) then limit else smallest.
Definition smallest_limit (quota : option TrafficQuota) : Z :=
  match quota with
  | None => 0
  | Some quota => foldl smaller_limit 0 [q_daily quota; q_monthly quota]
  end.

Definition durableQuotaChunk (upload download : Z) (quota : option TrafficQuota) : Z :=
  let chunk := Z.max (add64 upload download) (8 * 2 ^ 20) in
  let chunk := Z.min (Z.max chunk (2 ^ 20)) (64 * 2 ^ 20) in
  let smallest := smallest_limit quota in
  if 0 <? smallest then Z.min chunk (Z.max (64 * 2 ^ 10) (Z.quot smallest 100)) else chunk.

(** [newSharedRateLimiter]: rate and burst; [None] means unlimited. *)
Definition newSharedRateLimiter (rate burst : Z) : option (Z * Z) :=
  if rate <=? 0 then None else Some (rate, Z.max burst minimumTrafficBurst).

Record ruleTrafficController := {
  tc_ruleID : string;
  tc_quota : option TrafficQuota;
  tc_upload : option (Z * Z);
  tc_download : option (Z * Z);
  tc_durableChunk : Z
}.

Definition newRuleTrafficController (rule : Rule) : ruleTrafficController :=
  match Bandwidth rule with
  | Some limit =>
      let upload := UploadBytesPerSecond limit in
      let download := DownloadBytesPerSecond limit in
      {| tc_ruleID := RuleID rule; tc_quota := Quota rule;
         tc_upload := newSharedRateLimiter upload (automaticTrafficBurst upload);
         tc_download := newSharedRateLimiter download (automaticTrafficBurst download);
         tc_durableChunk := durableQuotaChunk upload download (Quota rule) |}
  | None =>
      {| tc_ruleID := RuleID rule; tc_quota := Quota rule; tc_upload := None; tc_download := None;
         tc_durableChunk := durableQuotaChunk 0 0 (Quota rule) |}
  end.

Inductive trafficDirection := trafficUpload | trafficDownload.

Definition rateLimited (direction : trafficDirection) (tc : ruleTrafficController) : bool :=
  match direction with
  | trafficUpload => bool_decide (is_Some (tc_upload tc))
  | trafficDownload => bool_decide (is_Some (tc_download tc))
  end.

(** [controller.reserve]: the request handed to the ledger. *)
Definition controller_request (bytes : Z) (allOrNothing : bool) (tc : ruleTrafficController) : Request :=
  {| rq_ruleID := tc_ruleID tc; rq_quota := tc_quota tc; rq_bytes := bytes;
     rq_allOrNothing := allOrNothing; rq_chunk := tc_durableChunk tc |}.

Definition quotaBlocked `{!TzDatabase} (now : Z) (tc : ruleTrafficController) (l : QuotaLedger)
    : bool * QuotaLedger := blocked now (tc_ruleID tc) (tc_quota tc) l.

(** ** The queue of a limiter *)

(** A waiter is the identity of its [turn] channel; [turns] holds the channels
    already closed.  Closing a closed channel panics: [None]. *)
Record waitQueue := { queue : list positive; turns : gset positive }.

Definition close_turn (w : positive) (q : waitQueue) : option waitQueue :=
  if decide (w ∈ turns q) then None
  else Some {| queue := queue q; turns := {[ w ]} ∪ turns q |}.

Definition close_head (q : waitQueue) : option waitQueue :=
  match queue q with [] => Some q | w :: _ => close_turn w q end.

Definition set_queue l (q : waitQueue) : waitQueue := {| queue := l; turns := turns q |}.

(** [wait]: a fresh waiter joins the queue. *)
Definition enqueue (w : positive) (q : waitQueue) : option waitQueue :=
  let q := set_queue (queue q ++ [w]) q in
  if decide (length (queue q) = 1%nat) then close_turn w q else Some q.

Fixpoint remove_first (w : positive) (l : list positive) : list positive :=
  match l with
  | [] => []
  | x :: l => if decide (x = w) then l else x :: remove_first w l
  end.

(** [cancel]: the waiter gave up; a new head gets its turn. *)
Definition cancel (w : positive) (q : waitQueue) : option waitQueue :=
  if decide (w ∈ queue q) then
    let wasHead := bool_decide (head (queue q) = Some w) in
    let q := set_queue (remove_first w (queue q)) q in
    if wasHead then close_head q else Some q
  else Some q.

(** [popHeadLocked]: the head took its tokens. *)
Definition popHead (w : positive) (q : waitQueue) : option waitQueue :=
  match queue q with
  | x :: rest => if decide (x = w) then close_head (set_queue rest q) else Some q
  | [] => Some q
  end.

Inductive QueueEvent :=
| Joins (w : positive)       (* a new call of [wait] *)
| GivesUp (w : positive)     (* its context is done *)
| Takes (w : positive).      (* it has its turn and enough tokens *)

(** A waiter joins once, and only takes tokens once its turn channel is closed. *)
Definition queue_step (ev : QueueEvent) (q : waitQueue) : option waitQueue :=
  match ev with
  | Joins w => enqueue w q
  | GivesUp w => cancel w q
  | Takes w => popHead w q
  end.

Definition queue_event_ok (joined : gset positive) (ev : QueueEvent) (q : waitQueue) : Prop :=
  match ev with
  | Joins w => w ∉ joined
  | GivesUp w => True
  | Takes w => w ∈ queue q ∧ w ∈ turns q
  end.

(** ** The invariant: exactly the head of the queue has its turn *)

Record queue_inv (joined : gset positive) (q : waitQueue) : Prop := {
  qi_nodup : NoDup (queue q);
  qi_joined : ∀ w, w ∈ queue q ∨ w ∈ turns q → w ∈ joined;
  qi_head : ∀ w rest, queue q = w :: rest → w ∈ turns q;
  qi_rest : ∀ w x rest, queue q = w :: rest → x ∈ rest → x ∉ turns q;
}.

Definition joined_after (joined : gset positive) (ev : QueueEvent) : gset positive :=
  match ev with Joins w => {[ w ]} ∪ joined | _ => joined end.

Lemma close_head_inv joined w rest q :
  NoDup (w :: rest) → queue q = w :: rest → w ∈ turns q →
  (∀ x, x ∈ rest → x ∉ turns q) → (∀ x, x ∈ queue q ∨ x ∈ turns q → x ∈ joined) →
  ∃ q', close_head (set_queue rest q) = Some q' ∧ queue q' = rest ∧ queue_inv joined q'.
Proof.
  intros [Hw Hnd]%NoDup_cons Hq Hturn Hrest Hj. unfold close_head. simpl. destruct rest as [|x rest].
  - eexists. split; [done|]. split; [done|]. split; simpl; try done.
    intros y [Hy|Hy]; [by apply elem_of_nil in Hy|]. apply Hj. by right.
  - unfold close_turn. simpl. rewrite decide_False by (apply Hrest; by left).
    eexists. split; [done|]. split; [done|]. apply NoDup_cons in Hnd as Hnd'. destruct Hnd' as [Hx _].
    split; simpl; [done| | |].
    + intros y Hy. apply Hj. rewrite Hq. set_solver.
    + intros y r [= <- <-]. set_solver.
    + intros y z r [= <- <-] Hz. assert (z ∉ turns q) by (apply Hrest; by right).
      assert (z ≠ x) by (by intros ->). set_solver.
Qed.

Lemma remove_first_notin w l : w ∉ l → remove_first w l = l.
Proof.
  induction l as [|x l IH]; simpl; [done|]. intros Hw.
  rewrite decide_False by (intros ->; apply Hw; by left). rewrite IH; [done|].
  intros ?. apply Hw. by right.
Qed.

Lemma remove_first_sub w l x : x ∈ remove_first w l → x ∈ l.
Proof.
  induction l as [|y l IH]; simpl; [done|]. case_decide; [by right|].
  rewrite !elem_of_cons. naive_solver.
Qed.

Lemma remove_first_NoDup w l : NoDup l → NoDup (remove_first w l).
Proof.
  induction l as [|y l IH]; simpl; [done|]. intros [Hy Hl]%NoDup_cons. case_decide; [done|].
  apply NoDup_cons. split; [|by apply IH]. intros ?%remove_first_sub. done.
Qed.

Lemma queue_step_inv joined ev q :
  queue_inv joined q → queue_event_ok joined ev q →
  ∃ q', queue_step ev q = Some q' ∧ queue_inv (joined_after joined ev) q'.
Proof.
  intros Hinv Hok. pose proof Hinv as [Hnd Hj Hh Hr]. destruct ev as [w|w|w]; simpl in *.
  - assert (w ∉ queue q ∧ w ∉ turns q) as [Hwq Hwt] by naive_solver. unfold enqueue. simpl.
    assert (NoDup (queue q ++ [w])) as Hnd'.
    { apply NoDup_app. split_and!; [done| |apply NoDup_singleton]. intros x Hx Hx'. set_solver. }
    case_decide as Hlen.
    + rewrite length_app in Hlen. simpl in Hlen. assert (queue q = []) as Hnil
        by (apply length_zero_iff_nil; lia). unfold close_turn. simpl.
      rewrite decide_False by done. eexists. split; [done|]. rewrite Hnil in *.
      split; simpl; [done|set_solver| |].
      * intros x r [= <- <-]. set_solver.
      * intros x y r [= <- <-] Hy. by apply elem_of_nil in Hy.
    + eexists. split; [done|]. split; simpl; [done|set_solver| |].
      * intros x r E. destruct (queue q) as [|y l] eqn:Eq; [done|]. injection E as <- <-. by eapply Hh.
      * intros x y r E Hy. destruct (queue q) as [|z l] eqn:Eq; [done|]. injection E as <- <-.
        apply elem_of_app in Hy as [Hy|Hy]; [by eapply Hr|]. set_solver.
  - unfold cancel. case_decide as Hin; [|by exists q].
    destruct (queue q) as [|x rest] eqn:Eq; [by apply elem_of_nil in Hin|]. simpl.
    destruct (decide (x = w)) as [->|Hne].
    + rewrite bool_decide_eq_true_2 by done.
      destruct (close_head_inv joined w rest q Hnd Eq) as (q' & E & _ & Hq');
        [by eapply Hh|by intros y; eapply Hr|by rewrite Eq|]. by exists q'.
    + rewrite bool_decide_eq_false_2 by congruence. eexists. split; [done|].
      apply NoDup_cons in Hnd as [Hx Hnd]. split; simpl.
      * apply NoDup_cons. split; [by intros ?%remove_first_sub|by apply remove_first_NoDup].
      * intros y Hy. apply Hj. destruct Hy as [Hy|Hy]; [left|by right].
        apply elem_of_cons in Hy as [->|Hy]; [by left|right; by eapply remove_first_sub].
      * intros y r [= <- <-]. by eapply Hh.
      * intros y z r [= <- <-] Hz. eapply Hr; [done|]. by eapply remove_first_sub.
  - destruct Hok as [Hin Hturn]. unfold popHead.
    destruct (queue q) as [|x rest] eqn:Eq; [by apply elem_of_nil in Hin|].
    case_decide as E; [|by exists q]. subst x.
    destruct (close_head_inv joined w rest q Hnd Eq) as (q' & E & _ & Hq');
      [by eapply Hh|by intros y; eapply Hr|by rewrite Eq|]. by exists q'.
Qed.

(** ** Histories

    The log of a limiter in the order of its lock: who arrived, who was served. *)
Definition arrivals (log : list QueueEvent) : list positive :=
  omap (λ ev, match ev with Joins w => Some w | _ => None end) log.
Definition served (log : list QueueEvent) : list positive :=
  omap (λ ev, match ev with Takes w => Some w | _ => None end) log.

Inductive queue_run : list QueueEvent → waitQueue → Prop :=
| run_start : queue_run [] {| queue := []; turns := ∅ |}
| run_event log q ev q' :
    queue_run log q → queue_event_ok (list_to_set (arrivals log)) ev q → queue_step ev q = Some q' →
    queue_run (log ++ [ev]) q'.

Lemma arrivals_snoc log ev :
  arrivals (log ++ [ev]) = arrivals log ++ match ev with Joins w => [w] | _ => [] end.
Proof. unfold arrivals. rewrite omap_app. by destruct ev. Qed.

Lemma served_snoc log ev :
  served (log ++ [ev]) = served log ++ match ev with Takes w => [w] | _ => [] end.
Proof. unfold served. rewrite omap_app. by destruct ev. Qed.

Lemma joined_after_arrivals log ev :
  joined_after (list_to_set (arrivals log)) ev = list_to_set (arrivals (log ++ [ev])).
Proof. apply leibniz_equiv. rewrite arrivals_snoc. destruct ev; simpl; set_solver. Qed.

Lemma queue_run_inv log q : queue_run log q → queue_inv (list_to_set (arrivals log)) q.
Proof.
  induction 1 as [|log q ev q' _ IH Hok Hstep].
  - split; simpl; try done; [apply NoDup_nil; done|]. set_solver.
  - destruct (queue_step_inv _ ev q IH Hok) as (q'' & E & Hinv). simplify_eq.
    by rewrite <- joined_after_arrivals.
Qed.

Lemma arrivals_NoDup log q : queue_run log q → NoDup (arrivals log).
Proof.
  induction 1 as [|log q ev q' _ IH Hok _]; [by apply NoDup_nil|]. rewrite arrivals_snoc.
  destruct ev as [w|w|w]; rewrite ?app_nil_r; [|done..]. simpl in Hok. apply NoDup_app. split_and!;
    [done| |apply NoDup_singleton]. intros x Hx ->%list_elem_of_singleton. set_solver.
Qed.

Lemma set_queue_close_head rest q q' : close_head (set_queue rest q) = Some q' → queue q' = rest.
Proof. unfold close_head, close_turn. simpl. intros. by repeat case_match; simplify_eq/=. Qed.

(** What each event does to the line. *)
Lemma queue_step_line ev q q' :
  queue_step ev q = Some q' →
  queue q' = match ev with
             | Joins w => queue q ++ [w]
             | GivesUp w => remove_first w (queue q)
             | Takes w => if decide (head (queue q) = Some w) then tail (queue q) else queue q
             end.
Proof.
  destruct ev as [w|w|w]; simpl.
  - unfold enqueue, close_turn. intros. by repeat case_decide; simplify_eq/=.
  - unfold cancel. case_decide as Hin; [case_bool_decide|]; intros E.
    + by apply set_queue_close_head in E.
    + by simplify_eq/=.
    + simplify_eq. by rewrite remove_first_notin.
  - unfold popHead. destruct (queue q) as [|x rest] eqn:Eq; simpl; intros E.
    { simplify_eq. by rewrite Eq. }
    case_decide as Hx; case_decide; simplify_eq; try done; try congruence.
    by apply set_queue_close_head in E.
Qed.

Lemma remove_first_sublist w l : sublist (remove_first w l) l.
Proof.
  induction l as [|x l IH]; simpl; [done|]. case_decide; [by apply sublist_cons|by apply sublist_skip].
Qed.

Lemma remove_first_or x w l : x ∈ l → x ∈ remove_first w l ∨ x = w.
Proof.
  induction l as [|y l IH]; simpl; [by intros ?%elem_of_nil|]. intros [->|Hx]%elem_of_cons; case_decide;
    subst; rewrite ?elem_of_cons; naive_solver.
Qed.

Lemma queue_head_turn joined q w :
  queue_inv joined q → w ∈ queue q ∧ w ∈ turns q ↔ head (queue q) = Some w.
Proof.
  intros [Hnd _ Hh Hr]. destruct (queue q) as [|x rest] eqn:Eq; simpl.
  - split; [intros [Hin _]; by apply elem_of_nil in Hin|done].
  - split.
    + intros [[->|Hin]%elem_of_cons Ht]; [done|]. by destruct (Hr x w rest eq_refl Hin).
    + intros [= <-]. split; [by left|by eapply Hh].
Qed.

Lemma served_then_waiting log q : queue_run log q → sublist (served log ++ queue q) (arrivals log).
Proof.
  induction 1 as [|log q ev q' Hrun IH Hok Hstep]; [done|].
  rewrite served_snoc, arrivals_snoc, (queue_step_line _ _ _ Hstep).
  destruct ev as [w|w|w]; rewrite ?app_nil_r.
  - rewrite (assoc_L (++)). by apply sublist_app.
  - etrans; [|exact IH]. apply sublist_app; [done|]. apply remove_first_sublist.
  - apply (queue_head_turn _ _ _ (queue_run_inv _ _ Hrun)) in Hok. rewrite decide_True by done.
    destruct (queue q) as [|x rest]; simplify_eq/=. by rewrite <- (assoc_L (++)).
Qed.

Lemma no_arrival_lost log q w :
  queue_run log q → w ∈ arrivals log → w ∈ served log ∨ w ∈ queue q ∨ GivesUp w ∈ log.
Proof.
  induction 1 as [|log q ev q' Hrun IH Hok Hstep]; [by intros ?%elem_of_nil|].
  rewrite served_snoc, arrivals_snoc, (queue_step_line _ _ _ Hstep), !elem_of_app. intros Hw.
  destruct ev as [x|x|x].
  - rewrite !elem_of_app. destruct Hw as [Hw| ->%list_elem_of_singleton]; [|by right; left; right; left].
    destruct (IH Hw) as [?|[?|?]]; tauto.
  - destruct Hw as [Hw|[]%elem_of_nil]. destruct (IH Hw) as [?|[Hq|?]]; [tauto| |tauto].
    destruct (remove_first_or w x (queue q) Hq) as [?| ->]; [tauto|]. right; right; right. by left.
  - destruct Hw as [Hw|[]%elem_of_nil].
    apply (queue_head_turn _ _ _ (queue_run_inv _ _ Hrun)) in Hok. rewrite decide_True by done.
    destruct (IH Hw) as [?|[Hq|?]]; [tauto| |tauto]. destruct (queue q) as [|y rest]; simplify_eq/=.
    apply elem_of_cons in Hq as [->|?]; [|tauto]. left; right. by left.
Qed.

(** ** Properties *)

(** C40: the rate limiter queue is first in, first out. In every history of
    arrivals, cancellations and departures the calls served so far followed by
    the calls still in line stand in the order in which they arrived; a call
    that arrived was served, is in line or gave up, and no call is served twice.
    The waiter that may take tokens is always and only the head of the line, and
    no event closes a channel twice. *)
Theorem limiter_queue_fifo log q :
  queue_run log q →
  sublist (served log ++ queue q) (arrivals log) ∧ NoDup (arrivals log) ∧
  (∀ w, w ∈ arrivals log → w ∈ served log ∨ w ∈ queue q ∨ GivesUp w ∈ log) ∧
  (∀ w, w ∈ queue q ∧ w ∈ turns q ↔ head (queue q) = Some w) ∧
  (∀ ev, queue_event_ok (list_to_set (arrivals log)) ev q → ∃ q', queue_step ev q = Some q').
Proof.
  intros Hrun. pose proof (queue_run_inv _ _ Hrun) as Hinv. split_and!.
  - by apply served_then_waiting.
  - by eapply arrivals_NoDup.
  - intros w. by apply no_arrival_lost.
  - intros w. by eapply queue_head_turn.
  - intros ev Hok. destruct (queue_step_inv _ ev q Hinv Hok) as (q' & E & _). by exists q'.
Qed.

(** Three calls, the second gives up, the first is served: the third is next. *)
Lemma limiter_queue_fifo_witness :
  let log := [Joins 1; Joins 2; Joins 3; GivesUp 2; Takes 1]%positive in
  ∃ q, queue_run log q ∧ served log = [1%positive] ∧ queue q = [3%positive] ∧
    sublist (served log ++ queue q) (arrivals log).
Proof.
  intros log.
  assert (∃ q, queue_run log q ∧ queue q = [3%positive]) as (q & Hrun & Hq).
  { eexists. split.
    - eapply (run_event [Joins 1; Joins 2; Joins 3; GivesUp 2]%positive _ (Takes 1%positive)).
      + eapply (run_event [Joins 1; Joins 2; Joins 3]%positive _ (GivesUp 2%positive)).
        * eapply (run_event [Joins 1; Joins 2]%positive _ (Joins 3%positive)).
          -- eapply (run_event [Joins 1]%positive _ (Joins 2%positive)).
             ++ eapply (run_event [] _ (Joins 1%positive)); [apply run_start| |by vm_compute].
                simpl. set_solver.
             ++ simpl. set_solver.
             ++ done.
          -- simpl. set_solver.
          -- done.
        * done.
        * done.
      + simpl. set_solver.
      + done.
    - done. }
  exists q. split_and!; [done..|]. by apply (limiter_queue_fifo log q).
Defined.

(** a rule's traffic parameters are in range. Bursts are zero for an
    unlimited direction and otherwise between 64 KiB and 4 MiB; the durable
    chunk is between 64 KiB and 64 MiB even when the sum of the two rates
    overflows, and with a quota it is at most 1% of the smallest limit or the
    64 KiB minimum. *)
Theorem traffic_parameters_in_range upload download quota :
  in_int64 upload → in_int64 download →
  (upload ≤ 0 → automaticTrafficBurst upload = 0) ∧
  (0 < upload → minimumTrafficBurst ≤ automaticTrafficBurst upload ≤ maximumTrafficBurst) ∧
  64 * 2 ^ 10 ≤ durableQuotaChunk upload download quota ≤ 64 * 2 ^ 20 ∧
  (∀ q, quota = Some q → ∀ limit, limit ∈ [q_daily q; q_monthly q] → 0 < limit →
     durableQuotaChunk upload download quota ≤ Z.max (64 * 2 ^ 10) (limit / 100)).
Proof.
  intros Hu Hd. unfold automaticTrafficBurst, minimumTrafficBurst, maximumTrafficBurst.
  assert (64 * 2 ^ 10 ≤ durableQuotaChunk upload download quota ≤ 64 * 2 ^ 20) as Hrange.
  { unfold durableQuotaChunk. destruct (0 <? _); lia. }
  split_and!; [| |lia|lia|].
  - intros. by destruct (Z.leb_spec upload 0); [|lia].
  - intros. destruct (Z.leb_spec upload 0); lia.
  - intros q -> limit Hin Hpos. unfold durableQuotaChunk, smallest_limit. simpl.
    assert (0 < smaller_limit (smaller_limit 0 (q_daily q)) (q_monthly q) ≤ limit) as Hs.
    { unfold smaller_limit. apply elem_of_cons in Hin as [->|Hin];
        [|apply list_elem_of_singleton in Hin as ->]; repeat case_match; lia. }
    destruct (Z.ltb_spec 0 (smaller_limit (smaller_limit 0 (q_daily q)) (q_monthly q))); [|lia].
    rewrite Z.quot_div_nonneg by lia.
    pose proof (Z.div_le_mono (smaller_limit (smaller_limit 0 (q_daily q)) (q_monthly q)) limit 100). lia.
Qed.

Lemma traffic_parameters_in_range_witness :
  64 * 2 ^ 10 ≤ durableQuotaChunk int64_max int64_max (Some sample_quota) ≤ 64 * 2 ^ 20.
Proof.
  apply (traffic_parameters_in_range int64_max int64_max (Some sample_quota)); int64_lia.
Defined.
