(* ===== verification/UDP.v ===== *)
(** * UDP forwarding (engine/udp.go)

    One runner: the session table, the packet queue of each session and the
    goroutines that serve them.  A session is an object of its own ([u_heap]);
    the table maps a client address to it, and goroutines keep the object after
    it has left the table.  Each section under [runner.mu] and each channel or
    atomic operation is one step; what a goroutine holds between two steps
    ([ReaderState], [us_uploader], [us_download]) is part of the state.  What
    the network, the rate limiters and the quota ledger answer is a parameter of
    the step. *)

From S2P Require Import Prelude GoStrings Calendar NetIP SourceIP Limits Rule Stats Quota Traffic.

Record AddrPort := { ap_addr : Addr; ap_port : Z }.
#[export] Instance AddrPort_eq_dec : EqDecision AddrPort.
Proof. solve_decision. Defined.
#[export] Instance AddrPort_countable : Countable AddrPort.
Proof.
  refine (inj_countable' (λ a, (ap_addr a, ap_port a)) (λ x, {| ap_addr := x.1; ap_port := x.2 |}) _).
  by intros [].
Defined.

Definition udpMaxDatagramSize : Z := 64 * 1024.
Definition udpUploadQueueCapacity : nat := 64.
Definition udpUploadQueueMaxBytes : Z := udpMaxDatagramSize.

Notation Payload := (list ascii) (only parsing).
Definition size_of (payload : Payload) : Z := Z.of_nat (length payload).

Record udpQueuedPacket := { pk_data : Payload; pk_accountedBytes : Z }.

(** The upload goroutine of a session with a queue. *)
Inductive Uploader :=
| UpNone                           (* the session has no queue *)
| UpIdle                           (* waiting in its select *)
| UpBusy (packet : udpQueuedPacket)
| UpDraining
| UpExited.

Record udpSession := {
  us_client : AddrPort;
  us_lastSeen : Z;
  us_closed : bool;
  us_cancelled : bool;             (* its context; the runner's is [u_cancelled] *)
  us_queue : list udpQueuedPacket;
  us_queuedBytes : Z;
  us_pendingDownload : Z;
  us_uploader : Uploader;
  us_download : option Payload;    (* the datagram readFromTarget is relaying *)
}.

(** What [readLoop] is doing with the packet it read. *)
Inductive ReaderState :=
| RdIdle
| RdEnqueue (sid : positive) (payload : Payload)
| RdOffer (sid : positive) (packet : udpQueuedPacket)
| RdWrite (key : AddrPort) (sid : positive) (payload : Payload).

Record udpState := {
  u_cancelled : bool;
  u_sessions : gmap AddrPort positive;
  u_heap : gmap positive udpSession;
  u_next : positive;
  u_reader : ReaderState;
  u_budget : udpSessionBudget;
  u_stats : Collector;
  u_ledger : QuotaLedger;
  u_sent : list (positive * Payload);       (* datagrams written to targets *)
  u_delivered : list (AddrPort * Payload);  (* datagrams written to clients *)
}.

(** ** Field updates *)

Definition set_sessions sessions heap st : udpState := {|
  u_cancelled := u_cancelled st; u_sessions := sessions; u_heap := heap; u_next := u_next st;
  u_reader := u_reader st; u_budget := u_budget st; u_stats := u_stats st; u_ledger := u_ledger st;
  u_sent := u_sent st; u_delivered := u_delivered st |}.
Definition set_reader r st : udpState := {|
  u_cancelled := u_cancelled st; u_sessions := u_sessions st; u_heap := u_heap st; u_next := u_next st;
  u_reader := r; u_budget := u_budget st; u_stats := u_stats st; u_ledger := u_ledger st;
  u_sent := u_sent st; u_delivered := u_delivered st |}.
Definition set_budget b st : udpState := {|
  u_cancelled := u_cancelled st; u_sessions := u_sessions st; u_heap := u_heap st; u_next := u_next st;
  u_reader := u_reader st; u_budget := b; u_stats := u_stats st; u_ledger := u_ledger st;
  u_sent := u_sent st; u_delivered := u_delivered st |}.
Definition set_stats c st : udpState := {|
  u_cancelled := u_cancelled st; u_sessions := u_sessions st; u_heap := u_heap st; u_next := u_next st;
  u_reader := u_reader st; u_budget := u_budget st; u_stats := c; u_ledger := u_ledger st;
  u_sent := u_sent st; u_delivered := u_delivered st |}.
Definition set_ledger l st : udpState := {|
  u_cancelled := u_cancelled st; u_sessions := u_sessions st; u_heap := u_heap st; u_next := u_next st;
  u_reader := u_reader st; u_budget := u_budget st; u_stats := u_stats st; u_ledger := l;
  u_sent := u_sent st; u_delivered := u_delivered st |}.
Definition set_output sent delivered st : udpState := {|
  u_cancelled := u_cancelled st; u_sessions := u_sessions st; u_heap := u_heap st; u_next := u_next st;
  u_reader := u_reader st; u_budget := u_budget st; u_stats := u_stats st; u_ledger := u_ledger st;
  u_sent := sent; u_delivered := delivered |}.

Definition alter_session (sid : positive) (f : udpSession → udpSession) st : udpState :=
  set_sessions (u_sessions st) (alter f sid (u_heap st)) st.

Definition touch now s : udpSession := {|
  us_client := us_client s; us_lastSeen := now; us_closed := us_closed s; us_cancelled := us_cancelled s;
  us_queue := us_queue s; us_queuedBytes := us_queuedBytes s; us_pendingDownload := us_pendingDownload s;
  us_uploader := us_uploader s; us_download := us_download s |}.
Definition shut s : udpSession := {|
  us_client := us_client s; us_lastSeen := us_lastSeen s; us_closed := true; us_cancelled := true;
  us_queue := us_queue s; us_queuedBytes := us_queuedBytes s; us_pendingDownload := us_pendingDownload s;
  us_uploader := us_uploader s; us_download := us_download s |}.
(** [queuedBytes.Add(delta)]. *)
Definition add_queued delta s : udpSession := {|
  us_client := us_client s; us_lastSeen := us_lastSeen s; us_closed := us_closed s;
  us_cancelled := us_cancelled s; us_queue := us_queue s;
  us_queuedBytes := add64 (us_queuedBytes s) delta; us_pendingDownload := us_pendingDownload s;
  us_uploader := us_uploader s; us_download := us_download s |}.
Definition set_queue q s : udpSession := {|
  us_client := us_client s; us_lastSeen := us_lastSeen s; us_closed := us_closed s;
  us_cancelled := us_cancelled s; us_queue := q; us_queuedBytes := us_queuedBytes s;
  us_pendingDownload := us_pendingDownload s; us_uploader := us_uploader s; us_download := us_download s |}.
Definition set_uploader u s : udpSession := {|
  us_client := us_client s; us_lastSeen := us_lastSeen s; us_closed := us_closed s;
  us_cancelled := us_cancelled s; us_queue := us_queue s; us_queuedBytes := us_queuedBytes s;
  us_pendingDownload := us_pendingDownload s; us_uploader := u; us_download := us_download s |}.
(** [pendingDownload.Add(delta)], and the datagram in hand. *)
Definition set_download delta d s : udpSession := {|
  us_client := us_client s; us_lastSeen := us_lastSeen s; us_closed := us_closed s;
  us_cancelled := us_cancelled s; us_queue := us_queue s; us_queuedBytes := us_queuedBytes s;
  us_pendingDownload := add64 (us_pendingDownload s) delta; us_uploader := us_uploader s; us_download := d |}.

Definition udpQueuedPacketCapacity (size : Z) : Z :=
  if size <=? 256 then 256
  else if size <=? 1024 then 1024
  else if size <=? 4096 then 4096
  else if size <=? 16 * 1024 then 16 * 1024
  else if size <=? udpMaxDatagramSize then udpMaxDatagramSize
  else size.

(** The pooled buffer has the capacity of its class; the copy of the payload is
    what it holds. *)
Definition acquireUDPQueuedPacket (payload : Payload) : udpQueuedPacket :=
  {| pk_data := payload; pk_accountedBytes := udpQueuedPacketCapacity (size_of payload) |}.

Section runner.
Context {tzdb : TzDatabase}.
(** The fields of the runner that never change. *)
Context (rule : Rule) (stats : boundRuleStats) (matcher : option sourceIPMatcher).
Notation traffic := (newRuleTrafficController rule).

(** Counters store Unix seconds; [now] is in nanoseconds. *)
Definition unix (now : Z) : Z := now / second.
Definition count (op : boundRuleStats → Collector → Collector) st : udpState :=
  set_stats (op stats (u_stats st)) st.

Definition sessionLimit : Z :=
  if 0 <? MaxConn rule then MaxConn rule else DefaultUDPRuleMaxSessions.

Definition needs_queue : bool :=
  (0 <? SpeedLimit rule) || rateLimited trafficUpload traffic || bool_decide (is_Some (Quota rule)).

(** [session.ctx.Done()]. *)
Definition session_done (s : udpSession) st : bool := us_cancelled s || u_cancelled st.

(** *** Closing *)

Definition closeSessionLocked (now : Z) (key : AddrPort) (sid : positive) st : udpState :=
  match u_sessions st !! key, u_heap st !! sid with
  | Some current, Some s =>
      if negb (bool_decide (current = sid)) || us_closed s then st
      else
        let st := set_sessions (delete key (u_sessions st)) (alter shut sid (u_heap st)) st in
        let st := set_budget (release (u_budget st)) st in
        count (decConns (unix now)) st
  | _, _ => st
  end.

Definition removeSession (now : Z) (key : AddrPort) (expected : positive) st : udpState :=
  match u_sessions st !! key with
  | Some sid => if bool_decide (sid = expected) then closeSessionLocked now key sid st else st
  | None => st
  end.

(** *** Packets from clients *)

Definition new_session (client : AddrPort) (now : Z) : udpSession := {|
  us_client := client; us_lastSeen := now; us_closed := false; us_cancelled := false; us_queue := [];
  us_queuedBytes := 0; us_pendingDownload := 0;
  us_uploader := if needs_queue then UpIdle else UpNone; us_download := None |}.

(** Lines 197-241: a new session for [client], unless a limit or the dial is
    against it. *)
Definition open_session (now : Z) (client : AddrPort) (dialed : bool) st : option positive * udpState :=
  if u_cancelled st then (None, st)
  else if sessionLimit <=? Z.of_nat (size (u_sessions st)) then
    (None, count (incUDPSessionRejected (unix now)) st)
  else
    let '(acquired, b) := tryAcquire (u_budget st) in
    if negb acquired then (None, count (incUDPSessionRejected (unix now)) st)
    else if negb dialed then (None, set_budget (release b) st)
    else
      let sid := u_next st in
      let st := {|
        u_cancelled := u_cancelled st; u_sessions := <[client := sid]> (u_sessions st);
        u_heap := <[sid := new_session client now]> (u_heap st); u_next := Pos.succ sid;
        u_reader := u_reader st; u_budget := b; u_stats := u_stats st; u_ledger := u_ledger st;
        u_sent := u_sent st; u_delivered := u_delivered st |} in
      (Some sid, count (incConns (unix now)) st).

(** [handlePacket] up to the end of its critical section. *)
Definition handlePacket (now : Z) (client : AddrPort) (payload : Payload) (dialed : bool) st : udpState :=
  if negb (Netip.IsValid (ap_addr client)) then st
  else if negb (allows matcher (ap_addr client)) then count (incSourceIPDenied (unix now)) st
  else
    let '(blk, l) := quotaBlocked now traffic (u_ledger st) in
    let st := set_ledger l st in
    if blk then count (λ h, addQuotaRejectedBytes (unix now) h (size_of payload)) st
    else
      let '(found, st) := match u_sessions st !! client with
                          | Some sid => (Some sid, st)
                          | None => open_session now client dialed st
                          end in
      match found with
      | None => st
      | Some sid =>
          let st := alter_session sid (touch now) st in
          set_reader (match u_heap st !! sid with
                      | Some s => match us_uploader s with
                                  | UpNone => RdWrite client sid payload
                                  | _ => RdEnqueue sid payload
                                  end
                      | None => RdIdle
                      end) st
      end.

(** The compare-and-swap loop of [enqueueUpload], which ends with the swap or
    with the packet dropped. *)
Definition enqueue_account (now : Z) (sid : positive) (payload : Payload) (s : udpSession) st : udpState :=
  let accounted := udpQueuedPacketCapacity (size_of payload) in
  if udpUploadQueueMaxBytes <? add64 (us_queuedBytes s) accounted then
    set_reader RdIdle (count (incUDPPacketsDropped (unix now)) st)
  else
    set_reader (RdOffer sid (acquireUDPQueuedPacket payload)) (alter_session sid (add_queued accounted) st).

(** The select: a cancelled session and a queue with room may both be ready, and
    then Go chooses either ([prefer_done]). *)
Definition enqueue_offer (now : Z) (prefer_done : bool) (sid : positive) (packet : udpQueuedPacket)
    (s : udpSession) st : udpState :=
  let gone := session_done s st in
  let room := (length (us_queue s) <? udpUploadQueueCapacity)%nat in
  let back := add_queued (- pk_accountedBytes packet) in
  set_reader RdIdle
    (if gone && (prefer_done || negb room) then alter_session sid back st
     else if room then alter_session sid (λ s, set_queue (us_queue s ++ [packet]) s) st
     else count (incUDPPacketsDropped (unix now)) (alter_session sid back st)).

(** A session without a queue: the packet is written at once. *)
Definition write_now (now : Z) (key : AddrPort) (sid : positive) (payload : Payload) (ok : bool) st : udpState :=
  set_reader RdIdle
    (if ok then
       count (λ h, addUpload (unix now) h (size_of payload))
         (set_output (u_sent st ++ [(sid, payload)]) (u_delivered st) st)
     else removeSession now key sid st).

(** *** The upload goroutine *)

(** What the limiters, the quota and the network answer for one datagram. *)
Record Answers := {
  an_limiter : bool;                                             (* [true]: no error *)
  an_reserve : result QuotaError (Z * option quotaReservation);
  an_write : bool;
}.

Definition finish_opt (written : Z) (r : option quotaReservation) st : udpState :=
  match r with
  | Some r => set_ledger (finish written r (u_ledger st)).2 st
  | None => st
  end.

(** The body of the loop once a packet is received; [true]: the loop goes on. *)
Definition upload_packet (now : Z) (key : AddrPort) (sid : positive) (packet : udpQueuedPacket)
    (a : Answers) st : bool * udpState :=
  let payload := pk_data packet in
  let back := alter_session sid (add_queued (- pk_accountedBytes packet)) in
  let rejected st := count (λ h, addQuotaRejectedBytes (unix now) h (size_of payload)) st in
  if negb (an_limiter a) then (false, back st)
  else match an_reserve a with
  | Err (PersistFailed _) => (false, removeSession now key sid (back st))
  | Err _ => (true, rejected (back st))
  | Ok (allowed, reservation) =>
      if negb (allowed =? size_of payload) then (true, back (rejected st))
      else if negb (an_write a) then
        (false, removeSession now key sid (back (finish_opt 0 reservation st)))
      else
        let st := finish_opt (size_of payload) reservation
                    (set_output (u_sent st ++ [(sid, payload)]) (u_delivered st) st) in
        let st := count (λ h, addUpload (unix now) h (size_of payload)) st in
        (true, back (alter_session sid (touch now) st))
  end.

(** *** Packets from the target *)

Definition download_packet (now : Z) (key : AddrPort) (sid : positive) (payload : Payload)
    (a : Answers) st : udpState :=
  let n := size_of payload in
  let back := alter_session sid (set_download (-1) None) in
  let rejected st := count (λ h, addQuotaRejectedBytes (unix now) h n) st in
  if negb (an_limiter a) then removeSession now key sid (back st)
  else match an_reserve a with
  | Err (PersistFailed _) => removeSession now key sid (back st)
  | Err _ => rejected (back st)
  | Ok (allowed, reservation) =>
      if negb (allowed =? n) then back (rejected st)
      else if negb (an_write a) then removeSession now key sid (back (finish_opt 0 reservation st))
      else
        let st := finish_opt n reservation
                    (set_output (u_sent st) (u_delivered st ++ [(key, payload)]) st) in
        let st := count (λ h, addDownload (unix now) h n) st in
        back (alter_session sid (touch now) st)
  end.

(** *** Reaping and stopping *)

Definition idle_session (deadline : Z) (s : udpSession) : bool :=
  negb ((0 <? us_queuedBytes s) || (0 <? us_pendingDownload s)) && (us_lastSeen s <? deadline).

Definition cleanup_one (now deadline : Z) st (entry : AddrPort * positive) : udpState :=
  let '(key, sid) := entry in
  match u_heap st !! sid with
  | Some s => if idle_session deadline s then closeSessionLocked now key sid st else st
  | None => st
  end.

Definition cleanupIdleSessions (now ttl : Z) st : udpState :=
  foldl (cleanup_one now (now - ttl)) st (map_to_list (u_sessions st)).

Definition close_entry (now : Z) st (entry : AddrPort * positive) : udpState :=
  closeSessionLocked now entry.1 entry.2 st.

(** [Stop] cancels the context, then closes every session under the lock. *)
Definition stop_cancel st : udpState := {|
  u_cancelled := true; u_sessions := u_sessions st; u_heap := u_heap st; u_next := u_next st;
  u_reader := u_reader st; u_budget := u_budget st; u_stats := u_stats st; u_ledger := u_ledger st;
  u_sent := u_sent st; u_delivered := u_delivered st |}.
Definition stop_sessions (now : Z) st : udpState :=
  foldl (close_entry now) st (map_to_list (u_sessions st)).

(** *** The runner as a state machine *)

Inductive UDPEvent :=
| EvPacket (now : Z) (client : AddrPort) (payload : Payload) (dialed : bool)
| EvAccount (now : Z)
| EvOffer (now : Z) (prefer_done : bool)
| EvWriteNow (now : Z) (ok : bool)
| EvReceive (sid : positive)
| EvUpload (now : Z) (sid : positive) (a : Answers)
| EvUploadDone (sid : positive)
| EvDrain (sid : positive)
| EvTargetRead (sid : positive) (payload : Payload)
| EvDownload (now : Z) (sid : positive) (a : Answers)
| EvTargetFailed (now : Z) (sid : positive)
| EvCleanup (now ttl : Z)
| EvCancel
| EvStop (now : Z)
| EvOtherAcquire
| EvOtherRelease
| EvSetLimit (limit : Z).

(** [None]: the step is not enabled.  A datagram of the network is at most
    [udpMaxDatagramSize] long, the size of the read buffers. *)
Definition fits (payload : Payload) : bool := size_of payload <=? udpMaxDatagramSize.

Definition step_reader (ev : UDPEvent) st : option udpState :=
  match ev, u_reader st with
  | EvPacket now client payload dialed, RdIdle =>
      if fits payload then Some (handlePacket now client payload dialed st) else None
  | EvAccount now, RdEnqueue sid payload =>
      s ← u_heap st !! sid; Some (enqueue_account now sid payload s st)
  | EvOffer now prefer_done, RdOffer sid packet =>
      s ← u_heap st !! sid; Some (enqueue_offer now prefer_done sid packet s st)
  | EvWriteNow now ok, RdWrite key sid payload => Some (write_now now key sid payload ok st)
  | _, _ => None
  end.

Definition step_uploader (ev : UDPEvent) st : option udpState :=
  match ev with
  | EvReceive sid =>
      s ← u_heap st !! sid;
      match us_uploader s, us_queue s with
      | UpIdle, packet :: q => Some (alter_session sid (λ s, set_uploader (UpBusy packet) (set_queue q s)) st)
      | _, _ => None
      end
  | EvUpload now sid a =>
      s ← u_heap st !! sid;
      match us_uploader s with
      | UpBusy packet =>
          let '(continue, st) := upload_packet now (us_client s) sid packet a st in
          Some (alter_session sid (set_uploader (if continue then UpIdle else UpDraining)) st)
      | _ => None
      end
  | EvUploadDone sid =>
      s ← u_heap st !! sid;
      match us_uploader s with
      | UpIdle => if session_done s st then Some (alter_session sid (set_uploader UpDraining) st) else None
      | _ => None
      end
  | EvDrain sid =>
      s ← u_heap st !! sid;
      match us_uploader s, us_queue s with
      | UpDraining, packet :: q =>
          Some (alter_session sid (λ s, add_queued (- pk_accountedBytes packet) (set_queue q s)) st)
      | UpDraining, [] => Some (alter_session sid (set_uploader UpExited) st)
      | _, _ => None
      end
  | _ => None
  end.

Definition step_target (ev : UDPEvent) st : option udpState :=
  match ev with
  | EvTargetRead sid payload =>
      s ← u_heap st !! sid;
      match us_download s with
      | None => if fits payload then Some (alter_session sid (set_download 1 (Some payload)) st) else None
      | Some _ => None
      end
  | EvDownload now sid a =>
      s ← u_heap st !! sid;
      match us_download s with
      | Some payload => Some (download_packet now (us_client s) sid payload a st)
      | None => None
      end
  | EvTargetFailed now sid =>
      s ← u_heap st !! sid; Some (removeSession now (us_client s) sid st)
  | _ => None
  end.

Definition udp_step (ev : UDPEvent) st : option udpState :=
  match ev with
  | EvPacket _ _ _ _ | EvAccount _ | EvOffer _ _ | EvWriteNow _ _ => step_reader ev st
  | EvReceive _ | EvUpload _ _ _ | EvUploadDone _ | EvDrain _ => step_uploader ev st
  | EvTargetRead _ _ | EvDownload _ _ _ | EvTargetFailed _ _ => step_target ev st
  | EvCleanup now ttl => Some (cleanupIdleSessions now ttl st)
  | EvCancel => Some (stop_cancel st)
  | EvStop now => if u_cancelled st then Some (stop_sessions now st) else None
  | EvOtherAcquire =>
      let '(ok, b) := tryAcquire (u_budget st) in if ok then Some (set_budget b st) else None
  | EvOtherRelease =>
      if Z.of_nat (size (u_sessions st)) <? b_active (u_budget st)
      then Some (set_budget (release (u_budget st)) st) else None
  | EvSetLimit limit => Some (set_budget (setLimit limit (u_budget st)) st)
  end.

Definition udp_run (evs : list UDPEvent) st : option udpState :=
  foldl (λ acc ev, st ← acc; udp_step ev st) (Some st) evs.

(** [newUDPRunner…] and a successful [Start]. *)
Definition new_udp (budget : udpSessionBudget) (collector : Collector) (ledger : QuotaLedger) : udpState := {|
  u_cancelled := false; u_sessions := ∅; u_heap := ∅; u_next := 1; u_reader := RdIdle;
  u_budget := budget; u_stats := collector; u_ledger := ledger; u_sent := []; u_delivered := [] |}.
End runner.
