(* ===== verification/RuleSpec.v ===== *)
(** * What rules promise (engine/rule.go, engine/source_ip.go)

    Validation accepts exactly the well-formed rules; a source policy admits
    exactly the addresses of its entries; two rules the manager treats as equal
    behave alike for every client. *)

From S2P Require Import Prelude GoStrings Calendar NetIP SourceIP Limits Rule Stats Quota Traffic UDP.

(** ** Source policies *)

(** The address lies in the block of one of the entries. *)
Definition listed (values : list string) (addr : Addr) : Prop :=
  ∃ v p, v ∈ values ∧ ParseSourceIPPrefix v = Ok p ∧ Netip.in_prefix p addr.

Lemma listed_existsb values addr :
  existsb (λ v, entry_matches v addr) values = true ↔ listed values addr.
Proof.
  rewrite existsb_exists. unfold entry_matches, listed. split.
  - intros (v & Hv%list_elem_of_In & Hm). destruct (ParseSourceIPPrefix v) as [p|] eqn:E; [|done].
    exists v, p. by rewrite <-Netip.Contains_spec.
  - intros (v & p & Hv & Hp & Hin). exists v. split; [by apply list_elem_of_In|]. rewrite Hp.
    by apply Netip.Contains_spec.
Qed.

Lemma build_matcher_mode mode u : m_mode (build_matcher mode u) = mode.
Proof. done. Qed.

(** a compiled source policy decides by the union of its entries: without
    a mode every peer is admitted; an allowlist admits a valid address iff, with
    its zone dropped and an IPv4-mapped form unmapped, it lies in the block of
    some entry; a denylist admits exactly the other valid addresses. *)
Theorem source_policy_exact mode values o addr :
  compileSourceIPMatcher mode values = Ok o →
  allows o addr = true ↔
    normalizeSourceIPMode mode = "" ∨ normalizeSourceIPMode mode = SourceIPModeOff ∨
    Netip.IsValid addr = true ∧
      (normalizeSourceIPMode mode = SourceIPModeAllowlist ∧ listed values (canonical addr) ∨
       normalizeSourceIPMode mode = SourceIPModeDenylist ∧ ¬ listed values (canonical addr)).
Proof.
  intros Hc. destruct o as [m|].
  - pose proof Hc as (u & Hu & Hm & _ & _ & Hmode)%compile_Some.
    assert (m_mode m = normalizeSourceIPMode mode) as Hmm by (by rewrite Hm).
    destruct (Netip.IsValid addr) eqn:Hv.
    + rewrite (allows_matched _ _ _ _ Hc Hv), Hmm, <-listed_existsb.
      destruct Hmode as [->| ->]; simpl; destruct (existsb _ values); naive_solver.
    + unfold allows. rewrite Hv. simpl. destruct Hmode as [->| ->]; naive_solver.
  - split; [|done]. intros _. unfold compileSourceIPMatcher in Hc.
    repeat case_match; try discriminate Hc;
      match goal with H : _ || _ = true |- _ => apply orb_true_iff in H as [?|?] end; bool_to_prop; auto.
    all: apply bind_Ok in Hc as (? & _ & Hc); discriminate Hc.
Qed.

(** ** Validation *)

(** [Validate] accepts exactly the rules whose standard form is
    well-formed, standardizing is idempotent, and validating a standardized rule
    gives the same answer, error included. *)
Theorem validate_exact `{!TzDatabase} rule :
  (is_ok (Validate rule) = true ↔ rule_wf (Standardize rule)) ∧
  Standardize (Standardize rule) = Standardize rule ∧
  Validate (Standardize rule) = Validate rule.
Proof. split; [apply Validate_wf|]. split; [apply Standardize_Standardize|apply Validate_Standardize]. Qed.

(** ** Rules the manager does not restart *)

(** What the runners of a rule do with a peer. *)
Definition admits (rule : Rule) (addr : Addr) : bool :=
  match compileSourceIPMatcher (SourceIPMode rule) (SourceIPs rule) with
  | Ok o => allows o addr
  | Err _ => false
  end.

Lemma policies_equal_matcher mode1 ips1 mode2 ips2 :
  policies_equal mode1 ips1 mode2 ips2 = true →
  ∃ o, compileSourceIPMatcher mode1 ips1 = Ok o ∧ compileSourceIPMatcher mode2 ips2 = Ok o.
Proof.
  unfold policies_equal. intros H.
  destruct (compileSourceIPMatcher mode1 ips1) as [[l|]|] eqn:El; [| |done];
    destruct (compileSourceIPMatcher mode2 ips2) as [[r|]|] eqn:Er; try done; [|by exists None].
  bool_to_prop. exists (Some l). split; [done|].
  apply compile_Some in El as (u1 & _ & -> & _). apply compile_Some in Er as (u2 & _ & -> & _).
  unfold build_matcher in *. simpl in *. congruence.
Qed.

Lemma runtime_session_limit left right :
  Proto left = Proto right → runtimeMaxConn left = runtimeMaxConn right →
  sessionLimit left = sessionLimit right.
Proof.
  unfold runtimeMaxConn, sessionLimit, DefaultUDPRuleMaxSessions, DefaultUDPGlobalMaxSessions.
  intros ->. repeat case_match; bool_to_prop; lia.
Qed.

(** *** The service of a rule

    What the clients of a rule can tell: where it listens, where it forwards, its
    limits and whom it admits.  Stated on the fields, without the code's own
    comparison; names, remarks and bookkeeping are not part of it. *)
Definition host_key (host : string) : string := TrimSpace (ToLower host).
Definition any_host (host : string) : Prop := host_key host ∈ [""; "0.0.0.0"; "::"].
Definition same_host (a b : string) : Prop := host_key a = host_key b ∨ (any_host a ∧ any_host b).

Record same_service (r s : Rule) : Prop := {
  sv_id : RuleID r = RuleID s;
  sv_proto : Proto r = Proto s;
  sv_listen : same_host (ListenAddr r) (ListenAddr s) ∧ ListenPort r = ListenPort s;
  sv_target : ToLower (TargetAddr r) = ToLower (TargetAddr s) ∧ TargetPort r = TargetPort s;
  sv_enabled : Enabled r = Enabled s;
  sv_limits : SpeedLimit r = SpeedLimit s ∧ Bandwidth r = Bandwidth s ∧ Rule.Quota r = Rule.Quota s;
  sv_idle : IdleTimeout r = IdleTimeout s;
  sv_tcp_conns : Proto r ≠ ProtocolUDP → MaxConn r = MaxConn s;
  sv_udp_sessions : sessionLimit r = sessionLimit s;
  sv_admits : ∀ addr, admits r addr = admits s addr;
}.

Lemma any_host_key a b : host_key a = host_key b → any_host a → any_host b.
Proof. unfold any_host. by intros ->. Qed.

#[export] Instance same_service_equivalence : Equivalence same_service.
Proof.
  split.
  - intros r. split; try done. split; [by left|done].
  - intros r s [? ? [Hh ?] [? ?] ? (? & ? & ?) ? Hm ? ?]. split; try done.
    + split; [|done]. destruct Hh as [?|[? ?]]; [by left|by right].
    + intros Hu. symmetry. apply Hm. congruence.
  - intros r s t [? ? [Hh ?] [? ?] ? (? & ? & ?) ? Hm ? Ha] [? ? [Hh' ?] [? ?] ? (? & ? & ?) ? Hm' ? Ha'].
    split; try congruence.
    + split; [|congruence]. destruct Hh as [E|[Ha1 Ha2]], Hh' as [E'|[Ha1' Ha2']].
      * left. congruence.
      * right. split; [|done]. by apply (any_host_key (ListenAddr s)).
      * right. split; [done|]. by apply (any_host_key (ListenAddr s)).
      * by right.
    + split; congruence.
    + split_and!; congruence.
    + intros Hu. rewrite Hm by done. apply Hm'. congruence.
Qed.

Lemma canonical_same_host a b : canonicalListenAddr a = canonicalListenAddr b → same_host a b.
Proof.
  assert (∀ h, canonicalListenAddr h = if decide (any_host h) then "" else host_key h) as Hc.
  { intros h. unfold canonicalListenAddr, any_host. fold (host_key h).
    destruct (decide _) as [H|H]; rewrite !elem_of_cons, elem_of_nil in H; repeat case_bool_decide; simpl; tauto. }
  rewrite !Hc. unfold same_host. repeat case_decide; try tauto; intros E; exfalso;
    match goal with H : ¬ any_host ?x |- _ => apply H; unfold any_host; rewrite E || rewrite <- E; by left end.
Qed.

(** The code keeps a rule running only for the same service. *)
Lemma RuntimeEqual_same_service r s :
  Standardize r = r → Standardize s = s → RuleID r = RuleID s → RuntimeEqual r s = true → same_service r s.
Proof.
  intros Hr Hs Hid H. unfold RuntimeEqual in H. cbv zeta in H. rewrite Hr, Hs in H.
  bool_to_prop. unfold bandwidthLimitsEqual, trafficQuotasEqual, sourceIPPoliciesEqual, EqualFold in *. bool_to_prop.
  match goal with Hp : policies_equal _ _ _ _ = true |- _ =>
    apply policies_equal_matcher in Hp as (o & Hl & Hm) end.
  split; try done.
  - split; [by apply canonical_same_host|done].
  - by apply Bool.eqb_prop.
  - intros Hu. match goal with E : runtimeMaxConn _ = _ |- _ => revert E end. unfold runtimeMaxConn.
    rewrite !bool_decide_eq_false_2 by congruence. done.
  - by apply runtime_session_limit.
  - intros addr. unfold admits. by rewrite Hl, Hm.
Qed.

(** when the manager keeps a rule running because [RuntimeEqual] holds,
    nothing a client can observe depends on which of the two rules runs: both
    listen and forward at the same place, carry the same limits, timeouts,
    quotas and UDP session limit, and admit the same addresses. *)
Theorem runtime_equal_sound rule other :
  RuntimeEqual rule other = true →
  let left := Standardize rule in
  let right := Standardize other in
  Proto left = Proto right ∧
  canonicalListenAddr (ListenAddr left) = canonicalListenAddr (ListenAddr right) ∧
  ListenPort left = ListenPort right ∧ EqualFold (TargetAddr left) (TargetAddr right) = true ∧
  TargetPort left = TargetPort right ∧ Enabled left = Enabled right ∧
  SpeedLimit left = SpeedLimit right ∧ IdleTimeout left = IdleTimeout right ∧
  sessionLimit left = sessionLimit right ∧ (∀ addr, admits left addr = admits right addr) ∧
  (RuleID left = RuleID right → newRuleTrafficController left = newRuleTrafficController right).
Proof.
  intros H. unfold RuntimeEqual in H. cbv zeta in H |- *.
  set (left := Standardize rule) in *. set (right := Standardize other) in *. clearbody left right.
  bool_to_prop. unfold bandwidthLimitsEqual, trafficQuotasEqual, sourceIPPoliciesEqual in *. bool_to_prop.
  match goal with Hp : policies_equal _ _ _ _ = true |- _ =>
    apply policies_equal_matcher in Hp as (o & Hl & Hr) end.
  split_and!; try done.
  - by apply Bool.eqb_prop.
  - by apply runtime_session_limit.
  - intros addr. unfold admits. by rewrite Hl, Hr.
  - intros Hid. unfold newRuleTrafficController.
    repeat match goal with E : _ left = _ right |- _ => rewrite E; clear E end. done.
Qed.

(** ** Witnesses *)

Definition sample_entries : list string := ["10.0.0.0/8"; "::1"].
Definition sample_policy : option sourceIPMatcher :=
  match compileSourceIPMatcher "Allowlist" sample_entries with Ok o => o | Err _ => None end.

(** The IPv4-mapped form of 10.0.0.1. *)
Lemma source_policy_exact_witness :
  listed sample_entries (canonical (Addr6 (Z.shiftl 65535 32 + 167772161) "")).
Proof.
  assert (compileSourceIPMatcher "Allowlist" sample_entries = Ok sample_policy) as E by by vm_compute.
  assert (allows sample_policy (Addr6 (Z.shiftl 65535 32 + 167772161) "") = true) as Ha by by vm_compute.
  apply (source_policy_exact _ _ _ _ E) in Ha.
  assert (normalizeSourceIPMode "Allowlist" = SourceIPModeAllowlist) as Hn by by vm_compute.
  rewrite Hn in Ha. destruct Ha as [Ha|[Ha|[_ [[_ Ha]|[Ha _]]]]]; [discriminate Ha..|exact Ha|discriminate Ha].
Defined.

Definition plain_rule (listen target mode : string) (ips : list string) (max : Z) : Rule := {|
  RuleID := "r"; Name := "r"; Proto := "udp"; ListenAddr := listen; ListenPort := 53; TargetAddr := target;
  TargetPort := 53; Enabled := true; SpeedLimit := 0; Bandwidth := None; Quota := None; MaxConn := max;
  IdleTimeout := 0; SourceIPMode := mode; SourceIPs := ips; Domains := []; Remark := ""; Revision := 1;
  CreatedTime := 0; UpdatedTime := 0 |}.

Lemma runtime_equal_sound_witness :
  admits (Standardize (plain_rule "0.0.0.0" "Dns.Local" "allowlist" ["10.1.2.3/8"; "::1"] 0)) (Addr4 167772161)
  = admits (Standardize (plain_rule "::" "dns.local" "Allowlist" ["::1"; "10.0.0.0/8"] 256)) (Addr4 167772161).
Proof.
  destruct (runtime_equal_sound (plain_rule "0.0.0.0" "Dns.Local" "allowlist" ["10.1.2.3/8"; "::1"] 0)
    (plain_rule "::" "dns.local" "Allowlist" ["::1"; "10.0.0.0/8"] 256))
    as (_ & _ & _ & _ & _ & _ & _ & _ & _ & Hadm & _); [by vm_compute|apply Hadm].
Defined.
