(* ===== verification/Manager.v ===== *)
(** * The rule manager (engine/manager.go)

    [Manager] owns the running rules, starts and stops their runners, and
    applies snapshots of rules, either rule by rule ([ApplySnapshot]) or as one
    transaction with an undo journal ([applySnapshotTransactionalLocked]).

    The operating system is the parameter [Net]: what [Start] and [Stop] of a
    runner do to it, and the clock.  The public methods serialize on
    [applyMu], so each is one function on the manager's state.  [live] is a
    ghost: the runners that were started and not stopped since. *)

From S2P Require Import Prelude GoStrings Calendar SourceIP Limits Rule Stats Quota.

(** ** Runners and the operating system *)

Inductive RunnerKind := TCPRunner | UDPRunner | HTTPProxyRunner | HTTPSRunner.
#[export] Instance RunnerKind_eq_dec : EqDecision RunnerKind.
Proof. solve_decision. Defined.

(** What a runner captured when it was built: its rule and its counter block. *)
Record Runner := { rn_kind : RunnerKind; rn_rule : Rule; rn_stats : boundRuleStats }.
#[export] Instance Runner_eq_dec : EqDecision Runner.
Proof. solve_decision. Defined.

Notation NetError := string (only parsing).

Class Net := {
  World : Type;
  net_now : World → Z;                                   (* Unix seconds *)
  net_start : Runner → World → option NetError * World;  (* listen; [Some] is an error *)
  net_stop : Runner → World → World;
}.

Record managedRule := { mr_rule : Rule; mr_runners : list Runner }.

Section manager.
Context `{!TzDatabase, !Net}.

Record Manager := {
  running : gmap string managedRule;
  collector : Collector;
  udpBudget : udpSessionBudget;
  quotaLedger : QuotaLedger;
  world : World;
  live : list Runner;
}.

Definition set_running r (m : Manager) : Manager := {|
  running := r; collector := collector m; udpBudget := udpBudget m; quotaLedger := quotaLedger m;
  world := world m; live := live m |}.
Definition set_collector c (m : Manager) : Manager := {|
  running := running m; collector := c; udpBudget := udpBudget m; quotaLedger := quotaLedger m;
  world := world m; live := live m |}.
Definition set_net w l (m : Manager) : Manager := {|
  running := running m; collector := collector m; udpBudget := udpBudget m;
  quotaLedger := quotaLedger m; world := w; live := l |}.

Definition now (m : Manager) : Z := net_now (world m).

(** [NewManagerWithOptions] with the collector and the ledger it was given. *)
Definition NewManagerWithOptions (c : option Collector) (udpMax : Z) (ledger : option QuotaLedger)
    (w : World) : Manager := {|
  running := ∅; collector := default NewCollector c; udpBudget := newUDPSessionBudget udpMax;
  quotaLedger := default (empty_ledger false) ledger; world := w; live := [] |}.

Definition SetUDPMaxSessions (limit : Z) (m : Manager) : Manager := {|
  running := running m; collector := collector m; udpBudget := setLimit limit (udpBudget m);
  quotaLedger := quotaLedger m; world := world m; live := live m |}.
Definition UDPMaxSessions (m : Manager) : Z * Z := budget_snapshot (udpBudget m).

(** *** Errors *)

#[warnings="-register-all"] Inductive ManagerError :=
| MissingID
| DuplicateID
| InvalidRule (e : RuleError)
| AlreadyRunning (id : string)
| BadProtocol (p : Protocol)
| PolicyFailed (e : SourceIPError)
| StartFailed (e : NetError)
| RestartFailed (applyErr : ManagerError) (rollbackErr : option ManagerError).

(** *** Starting and stopping runner sets *)

Fixpoint remove_one (r : Runner) (l : list Runner) : list Runner :=
  match l with
  | [] => []
  | x :: l => if decide (x = r) then l else x :: remove_one r l
  end.

Definition start_runner (r : Runner) (m : Manager) : result ManagerError () * Manager :=
  match rn_kind r, compileSourceIPMatcher (SourceIPMode (rn_rule r)) (SourceIPs (rn_rule r)) with
  | (TCPRunner | UDPRunner), Err e => (Err (PolicyFailed e), m)
  | _, _ =>
      match net_start r (world m) with
      | (None, w) => (Ok (), set_net w (live m ++ [r]) m)
      | (Some e, w) => (Err (StartFailed e), set_net w (live m) m)
      end
  end.

Definition stop_runner (m : Manager) (r : Runner) : Manager :=
  set_net (net_stop r (world m)) (remove_one r (live m)) m.

Definition stopRunnerSet (runners : list Runner) (m : Manager) : Manager :=
  foldl stop_runner m runners.

Fixpoint start_all (started runners : list Runner) (m : Manager) : result ManagerError () * Manager :=
  match runners with
  | [] => (Ok (), m)
  | r :: rest =>
      match start_runner r m with
      | (Ok _, m) => start_all (started ++ [r]) rest m
      | (Err e, m) => (Err e, stopRunnerSet started m)
      end
  end.
Definition startRunnerSet (runners : list Runner) (m : Manager) : result ManagerError () * Manager :=
  start_all [] runners m.

(** *** Building runners: constructing one binds its counter block *)

Definition runner_kinds (p : Protocol) : option (list RunnerKind) :=
  if bool_decide (p = ProtocolTCP) then Some [TCPRunner]
  else if bool_decide (p = ProtocolUDP) then Some [UDPRunner]
  else if bool_decide (p = ProtocolTCPUDP) then Some [TCPRunner; UDPRunner]
  else if bool_decide (p = ProtocolHTTP) then Some [HTTPProxyRunner]
  else if bool_decide (p = ProtocolHTTPS) then Some [HTTPSRunner]
  else None.

Definition new_runner (kind : RunnerKind) (rule : Rule) (m : Manager) : Runner * Manager :=
  match kind with
  | TCPRunner | UDPRunner =>
      let '(h, c) := bindRule (now m) (RuleID rule) (collector m) in
      ({| rn_kind := kind; rn_rule := rule; rn_stats := h |}, set_collector c m)
  | HTTPProxyRunner | HTTPSRunner =>
      ({| rn_kind := kind; rn_rule := rule; rn_stats := None |}, m)
  end.

Fixpoint new_runners (kinds : list RunnerKind) (rule : Rule) (m : Manager) : list Runner * Manager :=
  match kinds with
  | [] => ([], m)
  | k :: kinds =>
      let '(r, m) := new_runner k rule m in
      let '(rs, m) := new_runners kinds rule m in (r :: rs, m)
  end.

Definition buildRunners (rule : Rule) (m : Manager) : result ManagerError (list Runner) * Manager :=
  match runner_kinds (Proto rule) with
  | None => (Err (BadProtocol (Proto rule)), m)
  | Some kinds => let '(rs, m) := new_runners kinds rule m in (Ok rs, m)
  end.

(** *** Small helpers *)

Definition ensureRuleMetadata (rule : Rule) (m : Manager) : Manager :=
  set_collector
    (SetQuotaPolicy (RuleID rule) (Quota rule)
      (SetBandwidthPolicy (RuleID rule) (Bandwidth rule)
        (EnsureRuleProtocol (now m) (RuleID rule) (Proto rule) (collector m)))) m.

Definition detachRule (id : string) (m : Manager) : option managedRule * Manager :=
  (running m !! id, set_running (delete id (running m)) m).

Definition runningRule (id : string) (m : Manager) : option managedRule := running m !! id.

Definition updateRule (rule : Rule) (m : Manager) : Manager :=
  match running m !! RuleID rule with
  | None => m
  | Some mr =>
      set_running (<[RuleID rule := {| mr_rule := rule; mr_runners := mr_runners mr |}]> (running m)) m
  end.

Definition runningRuleIDs (m : Manager) : list string := sorted_keys (running m).
Definition knownRuleIDs (m : Manager) : list string := sorted_keys (RuleProtocols (collector m)).

Definition setConnsZero (id : string) (m : Manager) : Manager :=
  set_collector (SetConns (now m) id 0 (collector m)) m.

(** *** Start, stop, restart *)

Definition publish (rule : Rule) (runners : list Runner) (m : Manager) : Manager :=
  set_running (<[RuleID rule := {| mr_rule := rule; mr_runners := runners |}]> (running m)) m.

Definition startRuleInternal (rawRule : Rule) (m : Manager) : result ManagerError () * Manager :=
  let rule := Standardize rawRule in
  match Validate rule with
  | Err e => (Err (InvalidRule e), m)
  | Ok _ =>
    if negb (Enabled rule) then
      (Ok (), if bool_decide (is_Some (runningRule (RuleID rule) m)) then m
              else ensureRuleMetadata rule m)
    else if bool_decide (is_Some (running m !! RuleID rule)) then (Err (AlreadyRunning (RuleID rule)), m)
    else
      let m := ensureRuleMetadata rule m in
      match buildRunners rule m with
      | (Err e, m) => (Err e, m)
      | (Ok runners, m) =>
        match startRunnerSet runners m with
        | (Err e, m) => (Err e, m)
        | (Ok _, m) =>
          if bool_decide (is_Some (running m !! RuleID rule)) then
            (Err (AlreadyRunning (RuleID rule)), stopRunnerSet runners m)
          else (Ok (), publish rule runners m)
        end
      end
  end.

Definition stopRuleInternal (rawID : string) (m : Manager) : Manager :=
  let id := TrimSpace rawID in
  if bool_decide (id = "") then m
  else
    let '(current, m) := detachRule id m in
    let m := match current with Some mr => stopRunnerSet (mr_runners mr) m | None => m end in
    setConnsZero id m.

Definition restoreRuleAfterRestartFailure (previous : option managedRule) (applyErr : ManagerError)
    (m : Manager) : ManagerError * Manager :=
  match previous with
  | None => (applyErr, m)
  | Some previous =>
      let m := ensureRuleMetadata (mr_rule previous) m in
      match buildRunners (mr_rule previous) m with
      | (Err e, m) => (RestartFailed applyErr (Some e), m)
      | (Ok runners, m) =>
        match startRunnerSet runners m with
        | (Err e, m) => (RestartFailed applyErr (Some e), m)
        | (Ok _, m) => (RestartFailed applyErr None, publish (mr_rule previous) runners m)
        end
      end
  end.

Definition restartRuleInternal (rawRule : Rule) (m : Manager) : result ManagerError () * Manager :=
  let rule := Standardize rawRule in
  match Validate rule with
  | Err e => (Err (InvalidRule e), m)
  | Ok _ =>
    if negb (Enabled rule) then
      (Ok (), stopRuleInternal (RuleID rule) (ensureRuleMetadata rule m))
    else
      match buildRunners rule m with
      | (Err e, m) => (Err e, m)
      | (Ok runners, m) =>
        let '(current, m) := detachRule (RuleID rule) m in
        let m := match current with
                 | Some mr => setConnsZero (RuleID rule) (stopRunnerSet (mr_runners mr) m)
                 | None => m
                 end in
        let m := ensureRuleMetadata rule m in
        match startRunnerSet runners m with
        | (Err e, m) => let '(e, m) := restoreRuleAfterRestartFailure current e m in (Err e, m)
        | (Ok _, m) =>
          if bool_decide (is_Some (running m !! RuleID rule)) then
            let '(e, m) := restoreRuleAfterRestartFailure current (AlreadyRunning (RuleID rule))
                             (stopRunnerSet runners m) in (Err e, m)
          else (Ok (), publish rule runners m)
        end
      end
  end.

Definition StartRule := startRuleInternal.
Definition RestartRule := restartRuleInternal.
Definition StopRule := stopRuleInternal.

Definition removeFromCollector (id : string) (m : Manager) : Manager :=
  set_collector (Stats.RemoveRule id (collector m)) m.
Definition RemoveRule (id : string) (m : Manager) : Manager :=
  removeFromCollector id (stopRuleInternal id m).

(** [StopAll] ranges over the map in the order [entries]. *)
Definition stop_entry (m : Manager) (mr : managedRule) : Manager :=
  setConnsZero (RuleID (mr_rule mr)) (stopRunnerSet (mr_runners mr) m).
Definition StopAll (m : Manager) : Manager :=
  foldl stop_entry (set_running ∅ m) (snd <$> map_to_list (running m)).

(** *** Views *)

Definition RunningRules (m : Manager) : list Rule :=
  omap (λ id, Standardize ∘ mr_rule <$> running m !! id) (runningRuleIDs m).
Definition RunningCount (m : Manager) : nat := size (running m).

(** [Snapshot] and [SnapshotAll] join the counters with the quota state; the
    ledger only caches time zones on the way. *)
Definition Snapshot (id : string) (m : Manager) : TrafficSnapshot * option TrafficQuotaSnapshot :=
  (Stats.Snapshot id (collector m),
   (quota_snapshot (now m * second) id (QuotaPolicy id (collector m)) (quotaLedger m)).1).
Definition SnapshotAll (m : Manager) : list (TrafficSnapshot * option TrafficQuotaSnapshot) :=
  (λ s, (s, (quota_snapshot (now m * second) (s_RuleID s)
               (QuotaPolicy (s_RuleID s) (collector m)) (quotaLedger m)).1))
    <$> Stats.SnapshotAll (collector m).

(** *** Apply results *)

Record ApplyItemResult := {
  it_RuleID : string; it_Revision : Z; it_Action : ApplyAction; it_Error : option ManagerError
}.
Record ApplyResult := {
  AppliedRules : Z; StoppedRules : Z; FailedRules : Z; TotalRules : Z; Items : list ApplyItemResult
}.
Record ApplyFailure := { af_RuleID : string; af_Revision : Z; af_Error : ManagerError }.
Record RollbackItemResult := {
  rb_RuleID : string; rb_Action : ApplyAction; rb_Error : option ManagerError
}.
Record RollbackResult := { Attempted : bool; rb_Failed : bool; rb_Items : list RollbackItemResult }.
Record TransactionalApplyResult := {
  Apply : ApplyResult; tx_Failure : option ApplyFailure; Rollback : RollbackResult
}.

(** Status "ok" is [it_Error = None]; "failed" carries the error. *)
Definition item (rule : Rule) (action : ApplyAction) (e : option ManagerError) : ApplyItemResult :=
  {| it_RuleID := RuleID rule; it_Revision := Revision rule; it_Action := action; it_Error := e |}.
Definition removed_item (id : string) : ApplyItemResult :=
  {| it_RuleID := id; it_Revision := 0; it_Action := ActionRemoved; it_Error := None |}.

Definition add_item (applied stopped failed : Z) (i : ApplyItemResult) (r : ApplyResult) : ApplyResult :=
  {| AppliedRules := AppliedRules r + applied; StoppedRules := StoppedRules r + stopped;
     FailedRules := FailedRules r + failed; TotalRules := TotalRules r; Items := Items r ++ [i] |}.
Definition fail_item (rule : Rule) (e : ManagerError) : ApplyResult → ApplyResult :=
  add_item 0 0 1 (item rule ActionFailed (Some e)).

Definition empty_result (total : nat) : ApplyResult :=
  {| AppliedRules := 0; StoppedRules := 0; FailedRules := 0; TotalRules := Z.of_nat total;
     Items := [] |}.

(** *** [ApplySnapshot]: rule by rule *)

Definition apply_rule (rawRule : Rule) (acc : gset string * ApplyResult * Manager)
    : gset string * ApplyResult * Manager :=
  let '(seen, res, m) := acc in
  let rule := Standardize rawRule in
  if bool_decide (RuleID rule = "") then (seen, fail_item rule MissingID res, m)
  else if bool_decide (RuleID rule ∈ seen) then (seen, fail_item rule DuplicateID res, m)
  else
    let seen := {[ RuleID rule ]} ∪ seen in
    match Validate rule with
    | Err e => (seen, fail_item rule (InvalidRule e) res, m)
    | Ok _ =>
      let current := runningRule (RuleID rule) m in
      if negb (Enabled rule) then
        let m := ensureRuleMetadata rule m in
        match current with
        | Some _ => (seen, add_item 0 1 0 (item rule ActionStopped None) res,
                     stopRuleInternal (RuleID rule) m)
        | None => (seen, add_item 0 0 0 (item rule ActionUnchanged None) res, m)
        end
      else
        let equal := match current with Some mr => RuntimeEqual (mr_rule mr) rule | None => false end in
        if equal then
          (seen, add_item 0 0 0 (item rule ActionUnchanged None) res,
           ensureRuleMetadata rule (updateRule rule m))
        else
          let '(action, (out, m)) :=
            match current with
            | Some _ => (ActionRestarted, restartRuleInternal rule m)
            | None => (ActionStarted, startRuleInternal rule m)
            end in
          match out with
          | Err e => (seen, fail_item rule e res, m)
          | Ok _ => (seen, add_item 1 0 0 (item rule action None) res, m)
          end
    end.

Definition remove_unseen (seen : gset string) (id : string) (acc : ApplyResult * Manager)
    : ApplyResult * Manager :=
  let '(res, m) := acc in
  if bool_decide (id ∈ seen) then (res, m)
  else (add_item 0 1 0 (removed_item id) res, removeFromCollector id (stopRuleInternal id m)).

Definition ApplySnapshot (rules : list Rule) (ReplaceAll : bool) (m : Manager) : ApplyResult * Manager :=
  let '(seen, res, m) :=
    foldl (λ acc r, apply_rule r acc) (∅, empty_result (length rules), m) rules in
  if ReplaceAll then foldl (λ acc id, remove_unseen seen id acc) (res, m) (runningRuleIDs m)
  else (res, m).

(** *** Validation of a transactional snapshot *)

Definition validate_step (rawRule : Rule)
    (acc : list Rule * gset string * ApplyResult * option ApplyFailure)
    : list Rule * gset string * ApplyResult * option ApplyFailure :=
  let '(desired, seen, res, failure) := acc in
  let rule := Standardize rawRule in
  let '(seen, err) :=
    if bool_decide (RuleID rule = "") then (seen, Some MissingID)
    else if bool_decide (RuleID rule ∈ seen) then (seen, Some DuplicateID)
    else ({[ RuleID rule ]} ∪ seen,
          match Validate rule with Err e => Some (InvalidRule e) | Ok _ => None end) in
  match err with
  | None => (desired ++ [rule], seen, res, failure)
  | Some e =>
      (desired ++ [rule], seen, fail_item rule e res,
       match failure with
       | Some _ => failure
       | None => Some {| af_RuleID := RuleID rule; af_Revision := Revision rule; af_Error := e |}
       end)
  end.

Definition validateTransactionalSnapshot (rules : list Rule)
    : list Rule * ApplyResult * option ApplyFailure :=
  let '(desired, _, res, failure) :=
    foldl (λ acc r, validate_step r acc) ([], ∅, empty_result (length rules), None) rules in
  (desired, res, failure).

Definition transactionalApplyError (e : ManagerError) : ManagerError :=
  match e with RestartFailed applyErr _ => applyErr | _ => e end.

(** *** The undo journal *)

(** The closures of the code, with what they captured. *)
Inductive Undo :=
| UndoStart (previous : Rule)      (* startRuleInternal(previous) *)
| UndoUpdate (previous : Rule)     (* updateRule(previous) *)
| UndoRestart (previous : Rule)    (* restartRuleInternal(previous) *)
| UndoStop (id : string).          (* stopRuleInternal(id) *)

Record rollbackStep := { step_ruleID : string; step_action : ApplyAction; step_undo : Undo }.

Definition run_undo (u : Undo) (m : Manager) : result ManagerError () * Manager :=
  match u with
  | UndoStart previous => startRuleInternal previous m
  | UndoUpdate previous => (Ok (), updateRule previous m)
  | UndoRestart previous => restartRuleInternal previous m
  | UndoStop id => (Ok (), stopRuleInternal id m)
  end.

(** *** Snapshots of the collector *)

Record ruleCounterState := { cs_counter : loc; cs_values : ruleCounter }.
Record collectorStateSnapshot := {
  ss_counters : gmap string ruleCounterState;
  ss_protocols : gmap string Protocol;
  ss_bandwidths : gmap string BandwidthLimit;
  ss_quotas : gmap string TrafficQuota;
}.

Definition snapshotCollectorState (c : Collector) : collectorStateSnapshot := {|
  ss_counters := (λ l, {| cs_counter := l; cs_values := default (new_counter 0) (heap c !! l) |})
                   <$> counters c;
  ss_protocols := protocols c; ss_bandwidths := bandwidths c; ss_quotas := quotas c |}.

(** The additions of lines 829-834: history is merged, the live connection
    count and the timestamp are left alone. *)
Definition merge_counter (s k : ruleCounter) : ruleCounter := {|
  uploadTotal := add64 (uploadTotal k) (uploadTotal s);
  downloadTotal := add64 (downloadTotal k) (downloadTotal s);
  conns := conns k;
  sourceIPDenied := add64 (sourceIPDenied k) (sourceIPDenied s);
  udpSessionRejected := add64 (udpSessionRejected k) (udpSessionRejected s);
  udpPacketsDropped := add64 (udpPacketsDropped k) (udpPacketsDropped s);
  quotaRejectedBytes := add64 (quotaRejectedBytes k) (quotaRejectedBytes s);
  updatedAtUnix := updatedAtUnix k |}.

Definition restore_one (c : Collector) (entry : string * ruleCounterState) : Collector :=
  let '(id, state) := entry in
  let merge l c := set_heap (alter (merge_counter (cs_values state)) l (heap c)) c in
  match counters c !! id with
  | Some l => if decide (l = cs_counter state) then c else merge l c
  | None =>
      (* [&ruleCounter{}]: a zero block, its timestamp included *)
      merge (next_loc c) (allocate 0 id c)
  end.

Definition restoreCollectorState (s : collectorStateSnapshot) (c : Collector) : Collector :=
  let kept := filter (λ kv, is_Some (ss_counters s !! kv.1)) (counters c) in
  let c := foldl restore_one (set_counters kept c) (map_to_list (ss_counters s)) in
  set_quotas (ss_quotas s) (set_bandwidths (ss_bandwidths s) (set_protocols (ss_protocols s) c)).

(** *** Rolling back *)

Definition rollback_item (id : string) (action : ApplyAction) (out : result ManagerError ())
    (r : RollbackResult) : RollbackResult :=
  let e := match out with Ok _ => None | Err e => Some e end in
  {| Attempted := Attempted r; rb_Failed := rb_Failed r || negb (is_ok out);
     rb_Items := rb_Items r ++ [{| rb_RuleID := id; rb_Action := action; rb_Error := e |}] |}.

Fixpoint undo_all (steps : list rollbackStep) (r : RollbackResult) (m : Manager)
    : RollbackResult * Manager :=
  match steps with
  | [] => (r, m)
  | s :: steps =>
      let '(out, m) := run_undo (step_undo s) m in
      undo_all steps (rollback_item (step_ruleID s) (step_action s) out r) m
  end.

Definition rollbackSteps (journal : list rollbackStep) (before : collectorStateSnapshot)
    (r : RollbackResult) (m : Manager) : RollbackResult * Manager :=
  let '(r, m) := undo_all (reverse journal) r m in
  let m := set_collector (restoreCollectorState before (collector m)) m in
  (r, foldl (λ m rule, ensureRuleMetadata rule m) m (RunningRules m)).

Definition no_rollback : RollbackResult := {| Attempted := false; rb_Failed := false; rb_Items := [] |}.

Definition rollbackTransaction (journal : list rollbackStep) (before : collectorStateSnapshot)
    (failedID : string) (applyErr : ManagerError) (m : Manager) : RollbackResult * Manager :=
  let r := {| Attempted := true; rb_Failed := false; rb_Items := [] |} in
  let r := match applyErr with
           | RestartFailed _ rollbackErr =>
               rollback_item failedID ActionRestarted
                 (match rollbackErr with None => Ok () | Some e => Err e end) r
           | _ => r
           end in
  rollbackSteps journal before r m.

(** *** The transactional apply *)

(** The outcome of one rule of the loop: the journal and the item, or the error. *)
Definition tx_rule (rule : Rule) (m : Manager)
    : result ManagerError (list rollbackStep * (ApplyResult → ApplyResult)) * Manager :=
  let journaled action undo := [{| step_ruleID := RuleID rule; step_action := action; step_undo := undo |}] in
  let current := runningRule (RuleID rule) m in
  if negb (Enabled rule) then
    let m := ensureRuleMetadata rule m in
    match current with
    | Some mr =>
        (Ok (journaled ActionStopped (UndoStart (mr_rule mr)),
             add_item 0 1 0 (item rule ActionStopped None)), stopRuleInternal (RuleID rule) m)
    | None => (Ok ([], add_item 0 0 0 (item rule ActionUnchanged None)), m)
    end
  else match current with
  | Some mr =>
      if RuntimeEqual (mr_rule mr) rule then
        (Ok (journaled ActionUnchanged (UndoUpdate (mr_rule mr)),
             add_item 0 0 0 (item rule ActionUnchanged None)),
         ensureRuleMetadata rule (updateRule rule m))
      else
        match restartRuleInternal rule m with
        | (Ok _, m) => (Ok (journaled ActionRestarted (UndoRestart (mr_rule mr)),
                            add_item 1 0 0 (item rule ActionRestarted None)), m)
        | (Err e, m) => (Err e, m)
        end
  | None =>
      match startRuleInternal rule m with
      | (Ok _, m) => (Ok (journaled ActionStarted (UndoStop (RuleID rule)),
                          add_item 1 0 0 (item rule ActionStarted None)), m)
      | (Err e, m) => (Err e, m)
      end
  end.

(** The loop, until the first failure. *)
Fixpoint tx_loop (desired : list Rule) (journal : list rollbackStep) (res : ApplyResult) (m : Manager)
    : option (Rule * ManagerError) * list rollbackStep * ApplyResult * Manager :=
  match desired with
  | [] => (None, journal, res, m)
  | rule :: desired =>
      match tx_rule rule m with
      | (Ok (steps, record), m) => tx_loop desired (journal ++ steps) (record res) m
      | (Err e, m) =>
          (Some (rule, e), journal, fail_item rule (transactionalApplyError e) res, m)
      end
  end.

(** [ReplaceAll]: rules that run but are not desired, then counters only. *)
Fixpoint tx_remove (ids : list string) (journal : list rollbackStep) (res : ApplyResult) (m : Manager)
    : list rollbackStep * ApplyResult * Manager :=
  match ids with
  | [] => (journal, res, m)
  | id :: ids =>
      match runningRule id m with
      | None => tx_remove ids journal res m
      | Some mr =>
          tx_remove ids
            (journal ++ [{| step_ruleID := id; step_action := ActionRemoved;
                            step_undo := UndoStart (mr_rule mr) |}])
            (add_item 0 1 0 (removed_item id) res)
            (removeFromCollector id (stopRuleInternal id m))
      end
  end.

Definition tx_forget (skip : gset string) (ids : list string) (res : ApplyResult) (m : Manager)
    : ApplyResult * Manager :=
  foldl (λ '(res, m) id,
    if bool_decide (id ∈ skip) then (res, m)
    else (add_item 0 1 0 (removed_item id) res, removeFromCollector id m)) (res, m) ids.

Definition applySnapshotTransactionalLocked (rules : list Rule) (ReplaceAll : bool) (m : Manager)
    : TransactionalApplyResult * list rollbackStep * option collectorStateSnapshot * Manager :=
  let '(desired, res, failure) := validateTransactionalSnapshot rules in
  match failure with
  | Some f => ({| Apply := res; tx_Failure := Some f; Rollback := no_rollback |}, [], None, m)
  | None =>
    let before := snapshotCollectorState (collector m) in
    let '(failed, journal, res, m) := tx_loop desired [] res m in
    match failed with
    | Some (rule, e) =>
        let '(rollback, m) := rollbackTransaction journal before (RuleID rule) e m in
        ({| Apply := res;
            tx_Failure := Some {| af_RuleID := RuleID rule; af_Revision := Revision rule;
                                  af_Error := transactionalApplyError e |};
            Rollback := rollback |}, [], None, m)
    | None =>
      if ReplaceAll then
        let seen : gset string := list_to_set (RuleID <$> desired) in
        let unseen := filter (λ id, id ∉ seen) (runningRuleIDs m) in
        let '(journal, res, m) := tx_remove unseen journal res m in
        let '(res, m) := tx_forget (seen ∪ list_to_set unseen) (knownRuleIDs m) res m in
        ({| Apply := res; tx_Failure := None; Rollback := no_rollback |}, journal, Some before, m)
      else ({| Apply := res; tx_Failure := None; Rollback := no_rollback |}, journal, Some before, m)
    end
  end.

(** A pending transaction: the journal and the counters; it holds [applyMu]
    until [Commit] or [Rollback] closes it. *)
Record SnapshotApplyTransaction := {
  tr_journal : list rollbackStep; tr_before : collectorStateSnapshot; tr_closed : bool
}.

Definition BeginApplySnapshotTransactional (rules : list Rule) (ReplaceAll : bool) (m : Manager)
    : option SnapshotApplyTransaction * TransactionalApplyResult * Manager :=
  let '(result, journal, before, m) := applySnapshotTransactionalLocked rules ReplaceAll m in
  match tx_Failure result, before with
  | None, Some before =>
      (Some {| tr_journal := journal; tr_before := before; tr_closed := false |}, result, m)
  | _, _ => (None, result, m)
  end.

Definition Commit (t : SnapshotApplyTransaction) : SnapshotApplyTransaction :=
  {| tr_journal := tr_journal t; tr_before := tr_before t; tr_closed := true |}.

Definition RollbackTransaction (t : SnapshotApplyTransaction) (m : Manager)
    : RollbackResult * SnapshotApplyTransaction * Manager :=
  if tr_closed t then (no_rollback, t, m)
  else
    let '(r, m) := rollbackSteps (tr_journal t) (tr_before t)
                     {| Attempted := true; rb_Failed := false; rb_Items := [] |} m in
    (r, Commit t, m).

Definition ApplySnapshotTransactional (rules : list Rule) (ReplaceAll : bool) (m : Manager)
    : TransactionalApplyResult * Manager :=
  let '(_, result, m) := BeginApplySnapshotTransactional rules ReplaceAll m in (result, m).
End manager.
