(* ===== verification/ManagerSpec.v ===== *)
(** * What the rule manager guarantees (engine/manager.go)

    The abstract state of a manager is the map of running rules ([rules_of]).
    This file proves what every operation does to it on every path, that no
    listener leaks, and that a rolled back transaction restores it. *)

From S2P Require Import Prelude GoStrings Calendar SourceIP Limits Rule Stats Quota RuleSpec Manager.

Section manager_spec.
Context `{!TzDatabase, !Net}.
Implicit Types (m : Manager) (rule previous : Rule) (id : string).

Definition rules_of m : gmap string Rule := mr_rule <$> running m.

(** The runners the running rules own. *)
Definition owned (r : gmap string managedRule) : list Runner := map_to_list r ≫= (mr_runners ∘ snd).

(** ** The invariant *)

Record running_rule_ok (id : string) (rule : Rule) : Prop := {
  ro_id : RuleID rule = id;
  ro_standard : Standardize rule = rule;
  ro_valid : is_ok (Validate rule) = true;
  ro_enabled : Enabled rule = true;
}.

(** The listeners of a running rule: one per transport of its protocol, each
    built from a rule of the same service. *)
Definition transport (p : Protocol) (kind : RunnerKind) : Prop :=
  match kind with
  | TCPRunner => p = "tcp" ∨ p = "tcp+udp"
  | UDPRunner => p = "udp" ∨ p = "tcp+udp"
  | HTTPProxyRunner | HTTPSRunner => False
  end.
Record rule_served (mr : managedRule) : Prop := {
  rs_once : NoDup (rn_kind <$> mr_runners mr);
  rs_kinds : ∀ kind, kind ∈ rn_kind <$> mr_runners mr ↔ transport (Proto (mr_rule mr)) kind;
  rs_service : ∀ r, r ∈ mr_runners mr → same_service (rn_rule r) (mr_rule mr);
}.

Record mgr_inv m : Prop := {
  mi_rules : ∀ id rule, rules_of m !! id = Some rule → running_rule_ok id rule;
  mi_served : ∀ id mr, running m !! id = Some mr → rule_served mr;
  mi_live : live m ≡ₚ owned (running m);
}.

(** What the clients get: the runners alive now are the listeners of the rules
    of [g], each rule with all of its transports, and nothing else. *)
Definition serving m (g : gmap string Rule) : Prop :=
  (∀ id rule kind, g !! id = Some rule → transport (Proto rule) kind →
     ∃ r, r ∈ live m ∧ rn_kind r = kind ∧ same_service (rn_rule r) rule) ∧
  (∀ r, r ∈ live m →
     ∃ id rule, g !! id = Some rule ∧ transport (Proto rule) (rn_kind r) ∧ same_service (rn_rule r) rule).

(** ** Frames: operations that do not touch the running rules *)

Definition same_running m m' : Prop := running m' = running m.

Lemma running_stop_runner r m : running (stop_runner m r) = running m.
Proof. done. Qed.

Lemma running_stopRunnerSet rs m : running (stopRunnerSet rs m) = running m.
Proof. unfold stopRunnerSet. revert m. induction rs as [|r rs IH]; intros m; [done|]. simpl. by rewrite IH. Qed.

Lemma running_start_runner r m : running (start_runner r m).2 = running m.
Proof.
  unfold start_runner. destruct (rn_kind r); try destruct (compileSourceIPMatcher _ _); try done;
    by destruct (net_start r (world m)) as [[?|] ?].
Qed.

Lemma running_start_all started rs m : running (start_all started rs m).2 = running m.
Proof.
  revert started m. induction rs as [|r rs IH]; intros started m; [done|]. simpl.
  pose proof (running_start_runner r m) as Hr. destruct (start_runner r m) as [[?|?] m']; simpl in Hr |- *.
  - by rewrite IH.
  - by rewrite running_stopRunnerSet.
Qed.

Lemma running_startRunnerSet rs m : running (startRunnerSet rs m).2 = running m.
Proof. apply running_start_all. Qed.

Lemma new_runners_frame kinds rule m :
  running (new_runners kinds rule m).2 = running m ∧ live (new_runners kinds rule m).2 = live m.
Proof.
  revert m. induction kinds as [|k kinds IH]; intros m; [done|]. simpl.
  destruct (new_runner k rule m) as [r m'] eqn:E.
  assert (running m' = running m ∧ live m' = live m) as [<- <-].
  { unfold new_runner in E. destruct k; try destruct (bindRule _ _ _); by simplify_eq. }
  specialize (IH m'). by destruct (new_runners kinds rule m').
Qed.

Lemma buildRunners_frame rule m :
  running (buildRunners rule m).2 = running m ∧ live (buildRunners rule m).2 = live m.
Proof.
  unfold buildRunners. destruct (runner_kinds (Proto rule)) as [kinds|]; [|done].
  pose proof (new_runners_frame kinds rule m). by destruct (new_runners kinds rule m).
Qed.

(** ** Live runners *)

Lemma remove_one_Permutation r l : r ∈ l → l ≡ₚ r :: remove_one r l.
Proof.
  induction l as [|x l IH]; simpl; [by intros ?%elem_of_nil|]. case_decide as E; [by subst|].
  intros [->|Hin]%elem_of_cons; [done|]. by rewrite (IH Hin) at 1; rewrite Permutation_swap.
Qed.

Lemma live_stopRunnerSet rs rest m : live m ≡ₚ rs ++ rest → live (stopRunnerSet rs m) ≡ₚ rest.
Proof.
  unfold stopRunnerSet. revert m. induction rs as [|r rs IH]; intros m Hl; [done|]. simpl.
  apply IH. simpl. assert (r ∈ live m) as Hin by (rewrite Hl; by left).
  apply remove_one_Permutation in Hin. rewrite Hin in Hl. by apply Permutation_cons_inv in Hl.
Qed.

Lemma live_start_runner r m :
  match start_runner r m with
  | (Ok _, m') => live m' = live m ++ [r]
  | (Err e, m') => live m' = live m
  end.
Proof.
  unfold start_runner. destruct (rn_kind r); try destruct (compileSourceIPMatcher _ _); try done;
    by destruct (net_start r (world m)) as [[?|] ?].
Qed.

(** Errors of starting a runner are not restart errors. *)
Definition plain_error (e : ManagerError) : Prop :=
  match e with RestartFailed _ _ => False | _ => True end.

Lemma start_all_effect started rs rest m :
  live m ≡ₚ started ++ rest →
  match start_all started rs m with
  | (Ok _, m') => live m' ≡ₚ started ++ rs ++ rest
  | (Err e, m') => live m' ≡ₚ rest ∧ plain_error e
  end.
Proof.
  revert started m. induction rs as [|r rs IH]; intros started m Hl; [done|]. simpl.
  pose proof (live_start_runner r m) as Hr.
  assert (∀ e, (start_runner r m).1 = Err e → plain_error e) as He.
  { unfold start_runner. intros e. destruct (rn_kind r); try destruct (compileSourceIPMatcher _ _);
      try (by intros [= <-]); destruct (net_start r (world m)) as [[?|] ?]; by intros [= <-]. }
  destruct (start_runner r m) as [[?|e] m'].
  - specialize (IH (started ++ [r]) m'). rewrite <-!app_assoc in IH. simpl in IH. apply IH.
    rewrite Hr, Hl, <-app_assoc. f_equiv. by rewrite Permutation_app_comm.
  - split; [|by apply He]. apply live_stopRunnerSet. by rewrite Hr.
Qed.

Lemma startRunnerSet_effect rs m :
  match startRunnerSet rs m with
  | (Ok _, m') => running m' = running m ∧ live m' ≡ₚ rs ++ live m
  | (Err e, m') => running m' = running m ∧ live m' ≡ₚ live m ∧ plain_error e
  end.
Proof.
  pose proof (running_startRunnerSet rs m) as Hrun. unfold startRunnerSet in *.
  pose proof (start_all_effect [] rs (live m) m) as Hst. simpl in Hst. specialize (Hst ltac:(done)).
  destruct (start_all [] rs m) as [[?|e] m']; simpl in *; [done|]. by destruct Hst.
Qed.

(** ** Owned runners *)

Lemma owned_insert r id mr : r !! id = None → owned (<[id := mr]> r) ≡ₚ mr_runners mr ++ owned r.
Proof. intros Hid. unfold owned. by rewrite map_to_list_insert. Qed.

Lemma owned_delete r id mr : r !! id = Some mr → owned r ≡ₚ mr_runners mr ++ owned (delete id r).
Proof. intros Hid. unfold owned. by rewrite <-(map_to_list_delete r id mr Hid). Qed.

Lemma owned_replace r id mr mr' :
  r !! id = Some mr → mr_runners mr' = mr_runners mr → owned (<[id := mr']> r) ≡ₚ owned r.
Proof.
  intros Hid Heq. rewrite (owned_delete r id mr Hid). rewrite <-insert_delete_eq.
  rewrite owned_insert by apply lookup_delete_eq. by rewrite Heq.
Qed.

(** ** Effects of the operations on the running rules *)

Lemma rules_of_lookup m id : rules_of m !! id = mr_rule <$> running m !! id.
Proof. apply lookup_fmap. Qed.

Lemma mgr_inv_frame m m' : running m' = running m → live m' ≡ₚ live m → mgr_inv m → mgr_inv m'.
Proof.
  intros Hr Hl [Hrules Hserved Hlive]. split.
  - intros id rule. unfold rules_of. rewrite Hr. apply Hrules.
  - by rewrite Hr.
  - by rewrite Hr, Hl.
Qed.

Lemma elem_of_owned r g : r ∈ owned g ↔ ∃ id mr, g !! id = Some mr ∧ r ∈ mr_runners mr.
Proof.
  unfold owned. rewrite list_elem_of_bind. split.
  - intros ([id mr] & Hr & Hin%elem_of_map_to_list). eauto.
  - intros (id & mr & E & Hr). exists (id, mr). split; [done|by apply elem_of_map_to_list].
Qed.

(** The invariant says what clients get. *)
Lemma mgr_inv_serving m : mgr_inv m → serving m (rules_of m).
Proof.
  intros [_ Hserved Hlive]. split.
  - intros id rule kind. rewrite rules_of_lookup. destruct (running m !! id) as [mr|] eqn:E; [|done].
    intros [= <-] Hk. apply Hserved in E as Hs. apply (rs_kinds _ Hs) in Hk.
    apply list_elem_of_fmap in Hk as (r & -> & Hr). exists r. split_and!; [|done|by apply Hs].
    rewrite Hlive. apply elem_of_owned. eauto.
  - intros r. rewrite Hlive. intros (id & mr & E & Hr)%elem_of_owned. apply Hserved in E as Hs.
    exists id, (mr_rule mr). rewrite rules_of_lookup, E. split_and!; [done| |by apply Hs].
    apply (rs_kinds _ Hs). by apply list_elem_of_fmap_2.
Qed.

(** Building the runners of a checked rule gives its listeners. *)
Lemma new_runners_built kinds rule m :
  let rs := (new_runners kinds rule m).1 in
  rn_kind <$> rs = kinds ∧ ∀ r, r ∈ rs → rn_rule r = rule.
Proof.
  revert m. induction kinds as [|k kinds IH]; intros m; simpl; [split; [done|by intros r []%elem_of_nil]|].
  destruct (new_runner k rule m) as [r m'] eqn:E.
  assert (rn_kind r = k ∧ rn_rule r = rule) as [Hk Hr].
  { unfold new_runner in E. destruct k; try destruct (bindRule _ _ _); by simplify_eq. }
  specialize (IH m'). destruct (new_runners kinds rule m') as [rs m'']. simpl in *. destruct IH as [IHk IHr].
  split; [by rewrite <- IHk, <- Hk|]. intros x [->|Hx]%elem_of_cons; [done|by apply IHr].
Qed.

Lemma buildRunners_served rule m rs m' :
  rule_wf rule → buildRunners rule m = (Ok rs, m') → rule_served {| mr_rule := rule; mr_runners := rs |}.
Proof.
  intros Hwf. unfold buildRunners. destruct (runner_kinds (Proto rule)) as [kinds|] eqn:Ek; [|done].
  pose proof (new_runners_built kinds rule m) as Hb. destruct (new_runners kinds rule m) as [rs' m1].
  intros [= <- _]. simpl in Hb. destruct Hb as [Hk Hr]. unfold runner_kinds in Ek.
  destruct (wf_proto _ Hwf) as [Hp|[Hp|Hp]]; rewrite Hp in Ek; vm_compute in Ek; injection Ek as <-;
    (split; simpl; rewrite ?Hk, ?Hp;
      [by repeat constructor; rewrite ?elem_of_cons, ?elem_of_nil; naive_solver
      |intros kind; destruct kind; simpl; rewrite ?elem_of_cons, ?elem_of_nil; naive_solver
      |intros r Hin; by rewrite (Hr r Hin)]).
Qed.

Lemma running_ok_wf id rule : running_rule_ok id rule → rule_wf rule.
Proof. intros [_ Hs Hv _]. apply Validate_wf in Hv. by rewrite Hs in Hv. Qed.

Lemma rules_of_frame m m' : running m' = running m → rules_of m' = rules_of m.
Proof. unfold rules_of. by intros ->. Qed.

(** [publish] of a checked rule whose runners have just been started. *)
Lemma publish_effect rule rs m :
  running_rule_ok (RuleID rule) rule → running m !! RuleID rule = None →
  rule_served {| mr_rule := rule; mr_runners := rs |} →
  (∀ id r, rules_of m !! id = Some r → running_rule_ok id r) →
  (∀ id mr, running m !! id = Some mr → rule_served mr) →
  live m ≡ₚ rs ++ owned (running m) →
  rules_of (publish rule rs m) = <[RuleID rule := rule]> (rules_of m) ∧ mgr_inv (publish rule rs m).
Proof.
  intros Hok Hnone Hnew Hrules Hserved Hlive.
  assert (rules_of (publish rule rs m) = <[RuleID rule := rule]> (rules_of m)) as Heq.
  { unfold rules_of, publish. simpl. by rewrite fmap_insert. }
  split; [done|]. split.
  - rewrite Heq. intros id r [[<- <-]|[_ Hr]]%lookup_insert_Some; [done|by apply Hrules].
  - intros id mr. simpl. intros [[<- <-]|[_ Hr]]%lookup_insert_Some; [done|by eapply Hserved].
  - simpl. by rewrite owned_insert.
Qed.

Lemma ok_standardized raw u :
  Validate (Standardize raw) = Ok u → Enabled (Standardize raw) = true →
  running_rule_ok (RuleID (Standardize raw)) (Standardize raw).
Proof. intros Hv He. split; [done|apply Standardize_Standardize|by rewrite Hv|done]. Qed.

(** Ids of standardized rules are trimmed; ids of valid rules are not empty. *)
Lemma standard_id rule : Standardize rule = rule → TrimSpace (RuleID rule) = RuleID rule.
Proof. intros Hs. rewrite <-Hs. simpl. apply TrimSpace_idemp. Qed.

Lemma valid_id rule : Standardize rule = rule → is_ok (Validate rule) = true → RuleID rule ≠ "".
Proof. intros Hs Hv. apply Validate_wf in Hv. rewrite Hs in Hv. by destruct Hv. Qed.

Lemma stopRule_effect raw m :
  mgr_inv m →
  rules_of (stopRuleInternal raw m) = (if bool_decide (TrimSpace raw = "") then rules_of m
                                       else delete (TrimSpace raw) (rules_of m)) ∧
  mgr_inv (stopRuleInternal raw m).
Proof.
  intros Hinv. pose proof Hinv as [Hrules Hserved Hlive]. unfold stopRuleInternal. cbv zeta.
  set (id := TrimSpace raw). case_bool_decide; [done|]. simpl.
  set (m1 := set_running (delete id (running m)) m).
  assert (rules_of m1 = delete id (rules_of m)) as Hm1.
  { unfold rules_of, m1. simpl. by rewrite fmap_delete. }
  assert (∀ i r, delete id (rules_of m) !! i = Some r → running_rule_ok i r) as Hr'.
  { intros i r [_ Hi]%lookup_delete_Some. by apply Hrules. }
  destruct (running m !! id) as [mr|] eqn:E.
  - assert (running (stopRunnerSet (mr_runners mr) m1) = delete id (running m)) as Hrun
      by apply running_stopRunnerSet.
    split; [by rewrite <-Hm1; apply rules_of_frame; simpl; rewrite Hrun|]. split; simpl.
    + intros i r Hi. apply Hr'. rewrite <-Hm1. unfold rules_of in *. simpl in Hi. by rewrite Hrun in Hi.
    + rewrite Hrun. intros i r [_ Hi]%lookup_delete_Some. by eapply Hserved.
    + rewrite Hrun. apply live_stopRunnerSet. simpl. by rewrite Hlive, (owned_delete _ id mr).
  - split; [by rewrite <-Hm1|]. split; simpl.
    + intros i r Hi. apply Hr'. by rewrite <-Hm1.
    + by rewrite delete_id.
    + by rewrite delete_id.
Qed.

Lemma startRule_effect raw m :
  mgr_inv m →
  match startRuleInternal raw m with
  | (Ok _, m') =>
      rules_of m' = (if Enabled (Standardize raw)
                     then <[RuleID (Standardize raw) := Standardize raw]> (rules_of m) else rules_of m) ∧
      (Enabled (Standardize raw) = true → rules_of m !! RuleID (Standardize raw) = None) ∧ mgr_inv m'
  | (Err e, m') => rules_of m' = rules_of m ∧ mgr_inv m' ∧ plain_error e
  end.
Proof.
  intros Hinv. pose proof Hinv as [Hrules Hserved Hlive]. unfold startRuleInternal. cbv zeta.
  set (rule := Standardize raw). destruct (Validate rule) as [u|e] eqn:Hv; [|done].
  destruct (Enabled rule) eqn:He; simpl.
  2: { split; [by case_bool_decide|]. split; [done|]. case_bool_decide; [done|].
       by apply (mgr_inv_frame m). }
  case_bool_decide as Hrun; [done|]. apply eq_None_not_Some in Hrun.
  set (m1 := ensureRuleMetadata rule m).
  pose proof (buildRunners_frame rule m1) as [Hb1 Hb2].
  destruct (buildRunners rule m1) as [[rs|e] m2] eqn:Eb; simpl in Hb1, Hb2.
  2: { split; [by apply rules_of_frame|]. split; [by apply (mgr_inv_frame m); rewrite ?Hb2|].
       unfold buildRunners in Eb. destruct (runner_kinds _); [by destruct (new_runners _ _ _)|].
       by simplify_eq. }
  pose proof (startRunnerSet_effect rs m2) as Hst.
  destruct (startRunnerSet rs m2) as [[?|e] m3].
  2: { destruct Hst as (Hr & Hl & Hp). split; [by apply rules_of_frame; rewrite Hr, Hb1|].
       split; [|done]. apply (mgr_inv_frame m); [by rewrite Hr, Hb1|by rewrite Hl, Hb2|done]. }
  destruct Hst as [Hr Hl]. rewrite bool_decide_eq_false_2 by (rewrite Hr, Hb1; simpl; rewrite Hrun; by intros [? ?]).
  assert (rules_of m3 = rules_of m) as Hsame by (apply rules_of_frame; by rewrite Hr, Hb1).
  destruct (publish_effect rule rs m3) as [Hp Hinv'].
  - by eapply ok_standardized.
  - by rewrite Hr, Hb1.
  - eapply buildRunners_served; [|exact Eb]. eapply running_ok_wf. by eapply ok_standardized.
  - by rewrite Hsame.
  - by rewrite Hr, Hb1.
  - rewrite Hl, Hr, Hb1, Hb2. by rewrite Hlive.
  - rewrite Hp, Hsame. split; [done|]. split; [|done]. intros _. by rewrite rules_of_lookup, Hrun.
Qed.

Lemma restore_effect id mr applyErr m :
  mgr_inv m → running m !! id = None → running_rule_ok id (mr_rule mr) →
  let '(e, m') := restoreRuleAfterRestartFailure (Some mr) applyErr m in
  mgr_inv m' ∧
  match e with
  | RestartFailed _ None => rules_of m' = <[id := mr_rule mr]> (rules_of m)
  | RestartFailed _ (Some _) => rules_of m' = rules_of m
  | _ => False
  end.
Proof.
  intros Hinv Hnone Hok. pose proof Hinv as [Hrules Hserved Hlive]. unfold restoreRuleAfterRestartFailure.
  set (m1 := ensureRuleMetadata (mr_rule mr) m).
  pose proof (buildRunners_frame (mr_rule mr) m1) as [Hb1 Hb2].
  destruct (buildRunners (mr_rule mr) m1) as [[rs|e] m2] eqn:Eb; simpl in Hb1, Hb2.
  2: { split; [by apply (mgr_inv_frame m); rewrite ?Hb2|by apply rules_of_frame]. }
  pose proof (startRunnerSet_effect rs m2) as Hst.
  destruct (startRunnerSet rs m2) as [[?|e] m3].
  2: { destruct Hst as (Hr & Hl & _). split; [|by apply rules_of_frame; rewrite Hr, Hb1].
       apply (mgr_inv_frame m); [by rewrite Hr, Hb1|by rewrite Hl, Hb2|done]. }
  destruct Hst as [Hr Hl]. assert (rules_of m3 = rules_of m) as Hsame
    by (apply rules_of_frame; by rewrite Hr, Hb1).
  pose proof (ro_id _ _ Hok) as Hid.
  destruct (publish_effect (mr_rule mr) rs m3) as [Hp Hinv'].
  - by rewrite Hid.
  - by rewrite Hr, Hb1, Hid.
  - eapply buildRunners_served; [|exact Eb]. by eapply running_ok_wf.
  - by rewrite Hsame.
  - by rewrite Hr, Hb1.
  - rewrite Hl, Hr, Hb1, Hb2. by rewrite Hlive.
  - by rewrite Hp, Hsame, Hid.
Qed.

(** Detaching a rule and stopping its runners, as a restart does. *)
Lemma detach_effect id m :
  mgr_inv m →
  let m1 := set_running (delete id (running m)) m in
  let m2 := match running m !! id with
            | Some mr => setConnsZero id (stopRunnerSet (mr_runners mr) m1)
            | None => m1
            end in
  mgr_inv m2 ∧ rules_of m2 = delete id (rules_of m) ∧ running m2 = delete id (running m).
Proof.
  intros [Hrules Hserved Hlive] m1 m2.
  assert (running m2 = delete id (running m)) as Hrun.
  { unfold m2. destruct (running m !! id); [|done]. simpl. by rewrite running_stopRunnerSet. }
  assert (rules_of m2 = delete id (rules_of m)) as Heq.
  { unfold rules_of. by rewrite Hrun, fmap_delete. }
  split_and!; [|done|done]. split.
  - rewrite Heq. intros i r [_ Hi]%lookup_delete_Some. by apply Hrules.
  - rewrite Hrun. intros i r [_ Hi]%lookup_delete_Some. by eapply Hserved.
  - rewrite Hrun. unfold m2. destruct (running m !! id) as [mr|] eqn:E.
    + simpl. apply live_stopRunnerSet. simpl. by rewrite Hlive, (owned_delete _ id mr).
    + simpl. by rewrite delete_id.
Qed.

Lemma restartRule_effect raw m :
  mgr_inv m →
  match restartRuleInternal raw m with
  | (Ok _, m') =>
      rules_of m' = (if Enabled (Standardize raw)
                     then <[RuleID (Standardize raw) := Standardize raw]> (rules_of m)
                     else delete (RuleID (Standardize raw)) (rules_of m)) ∧ mgr_inv m'
  | (Err e, m') =>
      mgr_inv m' ∧
      match e with
      | RestartFailed _ (Some _) => rules_of m' = delete (RuleID (Standardize raw)) (rules_of m)
      | _ => rules_of m' = rules_of m
      end
  end.
Proof.
  intros Hinv. unfold restartRuleInternal. cbv zeta.
  set (rule := Standardize raw). destruct (Validate rule) as [u|e] eqn:Hv; [|done].
  assert (TrimSpace (RuleID rule) = RuleID rule ∧ RuleID rule ≠ "") as [Htrim Hne].
  { split; [apply standard_id, Standardize_Standardize|].
    apply valid_id; [apply Standardize_Standardize|by rewrite Hv]. }
  destruct (Enabled rule) eqn:He; cbn [negb].
  2: { destruct (stopRule_effect (RuleID rule) (ensureRuleMetadata rule m)) as [Hs Hi];
         [by apply (mgr_inv_frame m)|].
       rewrite Htrim, bool_decide_eq_false_2 in Hs by done. by rewrite Hs. }
  pose proof (buildRunners_frame rule m) as [Hb1 Hb2].
  destruct (buildRunners rule m) as [[rs|e] m1] eqn:Eb; simpl in Hb1, Hb2.
  2: { split; [by apply (mgr_inv_frame m); rewrite ?Hb2|].
       unfold buildRunners in Eb. destruct (runner_kinds _); [by destruct (new_runners _ _ _)|].
       simplify_eq. by apply rules_of_frame. }
  assert (mgr_inv m1) as Hinv1 by (by apply (mgr_inv_frame m); rewrite ?Hb2).
  pose proof (detach_effect (RuleID rule) m1 Hinv1) as Hdet. cbv zeta in Hdet.
  unfold detachRule. cbv beta iota zeta.
  set (m2 := match running m1 !! RuleID rule with Some _ => _ | None => _ end) in *.
  destruct Hdet as (Hinv2 & Hrules2 & Hrun2). rewrite (rules_of_frame m m1 Hb1) in Hrules2.
  set (m3 := ensureRuleMetadata rule m2).
  assert (mgr_inv m3 ∧ rules_of m3 = rules_of m2 ∧ running m3 = running m2) as (Hinv3 & Hrules3 & Hrun3)
    by (split_and!; [by apply (mgr_inv_frame m2)|done|done]).
  pose proof (startRunnerSet_effect rs m3) as Hst.
  destruct (startRunnerSet rs m3) as [[?|e] m4].
  - destruct Hst as [Hr Hl].
    rewrite bool_decide_eq_false_2 by (rewrite Hr, Hrun3, Hrun2, lookup_delete_eq; by intros [? ?]).
    assert (rules_of m4 = delete (RuleID rule) (rules_of m)) as Hsame.
    { by rewrite <-Hrules2, <-Hrules3; apply rules_of_frame. }
    destruct (publish_effect rule rs m4) as [Hp Hinv4].
    + by eapply ok_standardized.
    + by rewrite Hr, Hrun3, Hrun2, lookup_delete_eq.
    + eapply buildRunners_served; [|exact Eb]. eapply running_ok_wf. by eapply ok_standardized.
    + rewrite Hsame. intros i r [_ Hi]%lookup_delete_Some. by apply (mi_rules m Hinv).
    + rewrite Hr. apply (mi_served m3 Hinv3).
    + rewrite Hl, Hr. by rewrite (mi_live m3 Hinv3).
    + rewrite Hp, Hsame, insert_delete_eq. done.
  - destruct Hst as (Hr & Hl & Hplain).
    assert (mgr_inv m4) as Hinv4 by (by apply (mgr_inv_frame m3)).
    assert (rules_of m4 = delete (RuleID rule) (rules_of m)) as Hsame.
    { by rewrite <-Hrules2, <-Hrules3; apply rules_of_frame. }
    destruct (running m1 !! RuleID rule) as [mr|] eqn:Ecur.
    + assert (rules_of m !! RuleID rule = Some (mr_rule mr)) as Hprev
        by (rewrite rules_of_lookup, <-Hb1, Ecur; done).
      pose proof (restore_effect (RuleID rule) mr e m4 Hinv4
        ltac:(by rewrite Hr, Hrun3, Hrun2, lookup_delete_eq) (mi_rules m Hinv _ _ Hprev)) as Hres.
      destruct (restoreRuleAfterRestartFailure (Some mr) e m4) as [e' m5].
      destruct Hres as [Hinv5 Hres]. split; [done|].
      destruct e' as [| | | | | | |a [b|]]; try done; [by rewrite Hres|].
      by rewrite Hres, Hsame, insert_delete_eq, insert_id.
    + simpl. split; [done|].
      assert (rules_of m4 = rules_of m) as Hm4.
      { rewrite Hsame. apply delete_id. by rewrite rules_of_lookup, <-Hb1, Ecur. }
      by destruct e as [| | | | | | |a [b|]].
Qed.

(** ** Undo steps *)

(** What an undo step that succeeds does to the abstract state. *)
Definition undo_rules (u : Undo) (g : gmap string Rule) : gmap string Rule :=
  match u with
  | UndoStart previous | UndoRestart previous => <[RuleID previous := previous]> g
  | UndoUpdate previous =>
      match g !! RuleID previous with Some _ => <[RuleID previous := previous]> g | None => g end
  | UndoStop id => delete id g
  end.

Definition undo_ok (u : Undo) : Prop :=
  match u with
  | UndoStart previous | UndoRestart previous | UndoUpdate previous =>
      running_rule_ok (RuleID previous) previous
  | UndoStop id => TrimSpace id = id ∧ id ≠ ""
  end.

(** An update in place fits while the listeners of the id serve that rule. *)
Definition undo_fits (g : gmap string Rule) (u : Undo) : Prop :=
  match u with
  | UndoUpdate previous => ∀ r, g !! RuleID previous = Some r → same_service r previous
  | _ => True
  end.

Definition undo_id (u : Undo) : string :=
  match u with
  | UndoStart previous | UndoRestart previous | UndoUpdate previous => RuleID previous
  | UndoStop id => id
  end.

(** Nothing changes but the rule [id]. *)
Definition only_at (id : string) (g g' : gmap string Rule) : Prop := ∀ i, i ≠ id → g' !! i = g !! i.

Lemma only_at_insert id rule g : only_at id g (<[id := rule]> g).
Proof. intros i Hi. by apply lookup_insert_ne. Qed.
Lemma only_at_delete id g : only_at id g (delete id g).
Proof. intros i Hi. by apply lookup_delete_ne. Qed.

Lemma undo_fits_only_at id u g g' : undo_id u ≠ id → only_at id g g' → undo_fits g u → undo_fits g' u.
Proof. intros Hne Hg. destruct u; simpl in *; try done. intros Hf r. rewrite Hg by done. apply Hf. Qed.

Lemma rule_served_update mr rule :
  same_service (mr_rule mr) rule → rule_served mr →
  rule_served {| mr_rule := rule; mr_runners := mr_runners mr |}.
Proof.
  intros Hs [Hn Hk Hr]. split; simpl; [done| |].
  - intros kind. by rewrite Hk, (sv_proto _ _ Hs).
  - intros r Hin. etrans; [by apply Hr|done].
Qed.

Lemma updateRule_effect rule m :
  mgr_inv m → running_rule_ok (RuleID rule) rule →
  (∀ r, rules_of m !! RuleID rule = Some r → same_service r rule) →
  rules_of (updateRule rule m) =
    match rules_of m !! RuleID rule with
    | Some _ => <[RuleID rule := rule]> (rules_of m) | None => rules_of m
    end ∧ mgr_inv (updateRule rule m).
Proof.
  intros Hinv Hok Hsame. unfold updateRule. rewrite rules_of_lookup in Hsame |- *.
  destruct (running m !! RuleID rule) as [mr|] eqn:E; [|done]. simpl.
  set (mr' := {| mr_rule := rule; mr_runners := mr_runners mr |}).
  assert (rules_of (set_running (<[RuleID rule := mr']> (running m)) m) =
          <[RuleID rule := rule]> (rules_of m)) as Heq.
  { unfold rules_of. simpl. by rewrite fmap_insert. }
  split; [done|]. split.
  - rewrite Heq. intros i r [[<- <-]|[_ Hr]]%lookup_insert_Some; [done|by apply (mi_rules m Hinv)].
  - simpl. intros i r [[<- <-]|[_ Hr]]%lookup_insert_Some; [|by eapply mi_served].
    apply rule_served_update; [by apply Hsame|by eapply mi_served].
  - simpl. by rewrite (owned_replace _ _ mr mr'), (mi_live m Hinv).
Qed.

Lemma running_ok_standard id rule : running_rule_ok id rule → Standardize rule = rule.
Proof. by intros []. Qed.

Lemma run_undo_effect u m :
  mgr_inv m → undo_ok u → undo_fits (rules_of m) u →
  match run_undo u m with
  | (Ok _, m') => rules_of m' = undo_rules u (rules_of m) ∧ mgr_inv m'
  | (Err _, m') => only_at (undo_id u) (rules_of m) (rules_of m') ∧ mgr_inv m'
  end.
Proof.
  intros Hinv Hok Hfit. destruct u as [prev|prev|prev|id]; simpl.
  - pose proof (startRule_effect prev m Hinv) as Hs. destruct Hok as [_ Hstd _ Hen].
    rewrite !Hstd, Hen in Hs. destruct (startRuleInternal prev m) as [[?|e] m'].
    + by destruct Hs as (? & _ & ?).
    + destruct Hs as (-> & ? & _). done.
  - destruct (updateRule_effect prev m Hinv Hok Hfit) as [-> ?]. done.
  - pose proof (restartRule_effect prev m Hinv) as Hs. destruct Hok as [_ Hstd _ Hen].
    rewrite !Hstd, Hen in Hs. destruct (restartRuleInternal prev m) as [[?|e] m']; [done|].
    destruct Hs as [? Hs]. split; [|done]. destruct e as [| | | | | | |a [b|]]; rewrite Hs; try done. apply only_at_delete.
  - destruct Hok as [Ht Hne]. destruct (stopRule_effect id m Hinv) as [Hs ?].
    by rewrite Ht, bool_decide_eq_false_2 in Hs.
Qed.

Lemma undo_rules_only_at u g : only_at (undo_id u) g (undo_rules u g).
Proof.
  destruct u as [prev|prev|prev|id]; simpl; [apply only_at_insert| |apply only_at_insert|apply only_at_delete].
  destruct (g !! RuleID prev); [apply only_at_insert|done].
Qed.

Definition undo_all_rules (steps : list rollbackStep) (g : gmap string Rule) : gmap string Rule :=
  foldl (λ g s, undo_rules (step_undo s) g) g steps.

(** A journal that can be run at [g]: at most one step for a rule. *)
Record journal_ok (g : gmap string Rule) (steps : list rollbackStep) : Prop := {
  jo_steps : Forall (λ s, undo_ok (step_undo s)) steps;
  jo_once : NoDup ((undo_id ∘ step_undo) <$> steps);
  jo_fits : Forall (λ s, undo_fits g (step_undo s)) steps;
}.

Lemma journal_ok_only_at id g g' steps :
  only_at id g g' → id ∉ (undo_id ∘ step_undo) <$> steps → journal_ok g steps → journal_ok g' steps.
Proof.
  intros Hg Hid [Hs Hn Hf]. split; [done|done|]. rewrite Forall_forall in Hf |- *. intros s Hin.
  apply (undo_fits_only_at id _ g); [|done|by apply Hf]. intros <-. apply Hid.
  by apply (list_elem_of_fmap_2 (undo_id ∘ step_undo)).
Qed.

Lemma journal_ok_reverse g steps : journal_ok g steps → journal_ok g (reverse steps).
Proof.
  intros [Hs Hn Hf]. split; [by apply Forall_reverse| |by apply Forall_reverse].
  by rewrite fmap_reverse, reverse_Permutation.
Qed.

Lemma journal_ok_cons g s steps :
  journal_ok g (s :: steps) →
  undo_ok (step_undo s) ∧ undo_fits g (step_undo s) ∧ undo_id (step_undo s) ∉ (undo_id ∘ step_undo) <$> steps ∧
  journal_ok g steps.
Proof.
  intros [Hs Hn Hf]. rewrite fmap_cons in Hn. apply NoDup_cons in Hn as [Hn1 Hn2].
  apply Forall_cons in Hs as [Hs1 Hs2], Hf as [Hf1 Hf2]. split_and!; try done.
Qed.

Lemma undo_all_effect steps r m :
  mgr_inv m → journal_ok (rules_of m) steps →
  let '(r', m') := undo_all steps r m in
  mgr_inv m' ∧ (rb_Failed r' = false →
    rb_Failed r = false ∧ rules_of m' = undo_all_rules steps (rules_of m)).
Proof.
  revert r m. induction steps as [|s steps IH]; intros r m Hinv Hall; [done|]. simpl.
  apply journal_ok_cons in Hall as (Hs & Hfit & Hid & Hall).
  pose proof (run_undo_effect (step_undo s) m Hinv Hs Hfit) as Hu.
  destruct (run_undo (step_undo s) m) as [out m1].
  assert (mgr_inv m1 ∧ only_at (undo_id (step_undo s)) (rules_of m) (rules_of m1)) as [Hinv1 Hat].
  { destruct out; [|by destruct Hu]. destruct Hu as [-> ?]. split; [done|apply undo_rules_only_at]. }
  specialize (IH (rollback_item (step_ruleID s) (step_action s) out r) m1 Hinv1
    (journal_ok_only_at _ _ _ _ Hat Hid Hall)).
  destruct (undo_all steps _ m1) as [r' m']. destruct IH as [Hinv' Hf]. split; [done|].
  intros Hfail. destruct (Hf Hfail) as [Hr Hrules]. simpl in Hr.
  apply orb_false_iff in Hr as [Hr Hout]. split; [done|].
  destruct out as [?|e]; [|done]. destruct Hu as [Hu _]. by rewrite Hrules, Hu.
Qed.

Lemma metadata_frame rules m :
  running (foldl (λ m rule, ensureRuleMetadata rule m) m rules) = running m ∧
  live (foldl (λ m rule, ensureRuleMetadata rule m) m rules) = live m.
Proof.
  revert m. induction rules as [|r rules IH]; intros m; [done|]. simpl. by destruct (IH (ensureRuleMetadata r m)).
Qed.

Lemma rollbackSteps_effect journal before r m :
  mgr_inv m → journal_ok (rules_of m) journal →
  let '(r', m') := rollbackSteps journal before r m in
  mgr_inv m' ∧ (rb_Failed r' = false →
    rb_Failed r = false ∧ rules_of m' = undo_all_rules (reverse journal) (rules_of m)).
Proof.
  intros Hinv Hall. unfold rollbackSteps.
  pose proof (undo_all_effect (reverse journal) r m Hinv (journal_ok_reverse _ _ Hall)) as Hu.
  destruct (undo_all (reverse journal) r m) as [r' m1]. destruct Hu as [Hinv1 Hu].
  set (m2 := set_collector (restoreCollectorState before (collector m1)) m1).
  destruct (metadata_frame (RunningRules m2) m2) as [Hrun Hlive].
  set (m3 := foldl (λ m rule, ensureRuleMetadata rule m) m2 (RunningRules m2)) in *.
  split; [by apply (mgr_inv_frame m1); rewrite ?Hlive|]. intros Hf.
  destruct (Hu Hf) as [Hr <-]. split; [done|]. by apply rules_of_frame.
Qed.

(** The journal brings the rules of [m] back to [g0]. *)
Definition journal_inverts (g0 : gmap string Rule) (journal : list rollbackStep) m : Prop :=
  journal_ok (rules_of m) journal ∧ undo_all_rules (reverse journal) (rules_of m) = g0.

Definition journal_ids (journal : list rollbackStep) : list string := (undo_id ∘ step_undo) <$> journal.

Lemma journal_same m m' : rules_of m' = rules_of m → journal_inverts (rules_of m) [] m'.
Proof. intros Hr. split; [|done]. split; [by apply Forall_nil|by apply NoDup_nil|by apply Forall_nil]. Qed.

(** One more rule: [steps] is empty or the one step of a rule not touched yet. *)
Lemma journal_extend g0 journal id steps m m' :
  journal_inverts g0 journal m → journal_inverts (rules_of m) steps m' → only_at id (rules_of m) (rules_of m') →
  id ∉ journal_ids journal → journal_ids steps ⊆ [id] →
  journal_inverts g0 (journal ++ steps) m'.
Proof.
  intros [Hj Hu] [Hs Hu'] Hat Hid Hsub.
  pose proof (journal_ok_only_at _ _ _ _ Hat Hid Hj) as [Hj1 Hj2 Hj3]. destruct Hs as [Hs1 Hs2 Hs3]. split.
  - split; [by apply Forall_app| |by apply Forall_app]. rewrite fmap_app. apply NoDup_app. split_and!; [done| |done].
    intros x Hx Hx'. apply Hsub in Hx'. apply list_elem_of_singleton in Hx' as ->. done.
  - unfold undo_all_rules in *. rewrite reverse_app, foldl_app. by rewrite Hu'.
Qed.

Lemma journal_one m m' id action u :
  undo_ok u → undo_fits (rules_of m') u → undo_rules u (rules_of m') = rules_of m →
  journal_inverts (rules_of m) [{| step_ruleID := id; step_action := action; step_undo := u |}] m'.
Proof.
  intros Hok Hf Hu. split; [|done].
  split; [by apply Forall_singleton|by apply NoDup_singleton|by apply Forall_singleton].
Qed.

(** ** One rule of a transaction *)

Definition checked rule : Prop := Standardize rule = rule ∧ is_ok (Validate rule) = true.

(** What one rule leaves behind, with the journal that takes it back. *)
Definition tx_settled rule m (steps : list rollbackStep) m' : Prop :=
  mgr_inv m' ∧ journal_inverts (rules_of m) steps m' ∧ journal_ids steps ⊆ [RuleID rule] ∧
  rules_of m' = if Enabled rule then <[RuleID rule := rule]> (rules_of m)
                else delete (RuleID rule) (rules_of m).

Lemma tx_settled_one rule m m' action u :
  mgr_inv m' → undo_ok u → undo_id u = RuleID rule → undo_fits (rules_of m') u →
  undo_rules u (rules_of m') = rules_of m →
  rules_of m' = (if Enabled rule then <[RuleID rule := rule]> (rules_of m) else delete (RuleID rule) (rules_of m)) →
  tx_settled rule m [{| step_ruleID := RuleID rule; step_action := action; step_undo := u |}] m'.
Proof.
  intros Hinv Hok Hid Hf Hu Hr. split_and!; [done|by apply journal_one| |done].
  unfold journal_ids. simpl. by rewrite Hid.
Qed.

Lemma tx_settled_only_at rule m steps m' :
  tx_settled rule m steps m' → only_at (RuleID rule) (rules_of m) (rules_of m').
Proof. intros (_ & _ & _ & ->). destruct (Enabled rule); [apply only_at_insert|apply only_at_delete]. Qed.

Lemma running_rule_facts m rule mr :
  mgr_inv m → running m !! RuleID rule = Some mr →
  rules_of m !! RuleID rule = Some (mr_rule mr) ∧ running_rule_ok (RuleID (mr_rule mr)) (mr_rule mr) ∧
  RuleID (mr_rule mr) = RuleID rule.
Proof.
  intros Hinv E. assert (rules_of m !! RuleID rule = Some (mr_rule mr)) as Hl by (by rewrite rules_of_lookup, E).
  pose proof (mi_rules m Hinv _ _ Hl) as Hok. pose proof (ro_id _ _ Hok) as Hid. by rewrite Hid.
Qed.

(** A rule left running: its listeners serve the new one. *)
Lemma kept_running_effect rule m mr :
  mgr_inv m → running_rule_ok (RuleID rule) rule → running m !! RuleID rule = Some mr →
  RuntimeEqual (mr_rule mr) rule = true →
  same_service (mr_rule mr) rule ∧ mgr_inv (updateRule rule m) ∧
  rules_of (updateRule rule m) = <[RuleID rule := rule]> (rules_of m).
Proof.
  intros Hinv Hok E Heq. destruct (running_rule_facts m rule mr Hinv E) as (Hl & Hmr & Hid).
  assert (same_service (mr_rule mr) rule) as Hs.
  { apply RuntimeEqual_same_service; [apply Hmr|apply Hok|done|done]. }
  destruct (updateRule_effect rule m Hinv Hok) as [Hu Hinv']; [by intros r; rewrite Hl; intros [= <-]|].
  by rewrite Hl in Hu.
Qed.

Lemma tx_rule_effect rule m :
  mgr_inv m → checked rule →
  match tx_rule rule m with
  | (Ok (steps, _), m') => tx_settled rule m steps m'
  | (Err e, m') =>
      mgr_inv m' ∧ only_at (RuleID rule) (rules_of m) (rules_of m') ∧
      match e with RestartFailed _ (Some _) => True | _ => rules_of m' = rules_of m end
  end.
Proof.
  intros Hinv [Hstd Hvalid]. pose proof (standard_id rule Hstd) as Htrim.
  pose proof (valid_id rule Hstd Hvalid) as Hne. unfold tx_rule, runningRule. cbv zeta.
  destruct (Enabled rule) eqn:He; cbn [negb].
  - destruct (running m !! RuleID rule) as [mr|] eqn:E.
    + destruct (running_rule_facts m rule mr Hinv E) as (Hl & Hok & Hid). destruct (RuntimeEqual _ _) eqn:Heq.
      * destruct (kept_running_effect rule m mr Hinv) as (Hs & Hinv' & Hr); [by split|done|done|].
        change (rules_of (updateRule rule m)) with (rules_of (ensureRuleMetadata rule (updateRule rule m))) in Hr.
        apply tx_settled_one; [by apply (mgr_inv_frame (updateRule rule m))|done|done| | |by rewrite He].
        -- intros r. simpl. rewrite Hr, Hid, lookup_insert_eq. intros [= <-]. by symmetry.
        -- simpl. rewrite Hr, Hid, lookup_insert_eq. by rewrite insert_insert_eq, insert_id.
      * pose proof (restartRule_effect rule m Hinv) as Hs. rewrite !Hstd, He in Hs.
        destruct (restartRuleInternal rule m) as [[?|e] m'].
        -- destruct Hs as [Hr ?]. apply tx_settled_one; [done|done|done|done| |by rewrite He]. simpl.
           by rewrite Hr, Hid, insert_insert_eq, insert_id.
        -- destruct Hs as [? Hs]. split; [done|].
           destruct e as [| | | | | | |? [?|]]; rewrite Hs; (split; [first [done|apply only_at_delete]|done]).
    + assert (rules_of m !! RuleID rule = None) as Hl by (by rewrite rules_of_lookup, E).
      pose proof (startRule_effect rule m Hinv) as Hs. rewrite !Hstd, He in Hs.
      destruct (startRuleInternal rule m) as [[?|e] m'].
      * destruct Hs as (Hr & _ & ?). apply tx_settled_one; [done|done|done|done| |by rewrite He]. simpl.
        by rewrite Hr, delete_insert_id.
      * destruct Hs as (Hr & ? & Hp). rewrite Hr. split; [done|]. split; [done|]. by destruct e.
  - set (m1 := ensureRuleMetadata rule m). assert (mgr_inv m1) as Hinv1 by (by apply (mgr_inv_frame m)).
    destruct (running m !! RuleID rule) as [mr|] eqn:E.
    + destruct (running_rule_facts m rule mr Hinv E) as (Hl & Hok & Hid).
      destruct (stopRule_effect (RuleID rule) m1 Hinv1) as [Hs Hinv'].
      rewrite Htrim, bool_decide_eq_false_2 in Hs by done. change (rules_of m1) with (rules_of m) in Hs.
      apply tx_settled_one; [done|done|done|done| |by rewrite He]. simpl.
      by rewrite Hs, Hid, insert_delete_id.
    + split; [done|]. split; [by apply journal_same|]. split; [by intros ? []%elem_of_nil|]. rewrite He.
      symmetry. change (rules_of m1) with (rules_of m). apply delete_id. by rewrite rules_of_lookup, E.
Qed.

(** ** The desired rules *)

Definition desired_step (g : gmap string Rule) rule : gmap string Rule :=
  if Enabled rule then <[RuleID rule := rule]> g else delete (RuleID rule) g.
Definition desired_rules (g : gmap string Rule) (desired : list Rule) : gmap string Rule :=
  foldl desired_step g desired.

Lemma desired_rules_lookup g desired id rule :
  NoDup (RuleID <$> desired) →
  desired_rules g desired !! id = Some rule ↔
    (rule ∈ desired ∧ RuleID rule = id ∧ Enabled rule = true) ∨
    (id ∉ RuleID <$> desired ∧ g !! id = Some rule).
Proof.
  revert g. induction desired as [|r desired IH]; intros g Hnd.
  - simpl. split; [intros Hg; right; by split; [apply not_elem_of_nil|]|].
    by intros [[Hin _]|[_ Hg]]; [apply elem_of_nil in Hin|].
  - rewrite fmap_cons in Hnd. apply NoDup_cons in Hnd as [Hr Hnd]. simpl. rewrite IH by done.
    assert (∀ x, x ∈ desired → RuleID x ≠ RuleID r) as Hne.
    { intros x Hx E. apply Hr. rewrite <-E. by apply list_elem_of_fmap_2. }
    change (RuleID <$> r :: desired) with (RuleID r :: (RuleID <$> desired)).
    rewrite not_elem_of_cons, elem_of_cons. unfold desired_step.
    destruct (decide (id = RuleID r)) as [->|Hid].
    + assert ((if Enabled r then <[RuleID r := r]> g else delete (RuleID r) g) !! RuleID r =
              if Enabled r then Some r else None) as ->.
      { destruct (Enabled r); [apply lookup_insert_eq|apply lookup_delete_eq]. }
      split.
      * intros [(Hin & Hx & _)|[_ Hx]]; [by destruct (Hne rule Hin)|].
        destruct (Enabled r) eqn:He; [|done]. injection Hx as <-. left. by split; [left|].
      * intros [([->|Hin] & Hx & He)|[[Hx _] _]]; [|by destruct (Hne rule Hin)|done].
        right. by rewrite He.
    + assert ((if Enabled r then <[RuleID r := r]> g else delete (RuleID r) g) !! id = g !! id) as ->.
      { destruct (Enabled r); [by apply lookup_insert_ne|by apply lookup_delete_ne]. }
      split.
      * intros [(Hin & Hx & He)|[Hni Hx]]; [left; by split; [right|]|right; by split].
      * intros [([->|Hin] & Hx & He)|[[_ Hni] Hx]]; [by destruct Hid|left; by split|right; by split].
Qed.

(** ** Validation *)

Lemma validate_failed rules desired seen res f :
  ∃ d s r, foldl (λ acc r, validate_step r acc) (desired, seen, res, Some f) rules = (d, s, r, Some f).
Proof.
  revert desired seen res. induction rules as [|raw rules IH]; intros desired seen res; [by eexists _, _, _|].
  simpl. destruct (bool_decide (TrimSpace (RuleID raw) = "")); [apply IH|].
  destruct (bool_decide _); [apply IH|]. destruct (Validate (Standardize raw)); apply IH.
Qed.

Lemma validate_fold rules desired seen res d s r :
  foldl (λ acc r, validate_step r acc) (desired, seen, res, None) rules = (d, s, r, None) →
  d = desired ++ (Standardize <$> rules) ∧ r = res ∧ Forall checked (Standardize <$> rules) ∧
  NoDup (RuleID <$> (Standardize <$> rules)) ∧
  (∀ id, id ∈ RuleID <$> (Standardize <$> rules) → id ∉ seen).
Proof.
  revert desired seen res. induction rules as [|raw rules IH]; intros desired seen res.
  - intros [= <- <- <-]. rewrite app_nil_r. split_and!; [done|done|by apply Forall_nil|apply NoDup_nil; done|].
    by intros id ?%elem_of_nil.
  - change (Standardize <$> raw :: rules) with (Standardize raw :: (Standardize <$> rules)).
    set (rule := Standardize raw). rewrite fmap_cons.
    cbn [foldl]. unfold validate_step at 2. cbv zeta. fold rule.
    assert (∀ D S R f, foldl (λ acc r, validate_step r acc) (D, S, R, Some f) rules = (d, s, r, None) → False)
      as Hfail.
    { intros D S R f E. destruct (validate_failed rules D S R f) as (? & ? & ? & E'). congruence. }
    case_bool_decide; [by intros ?%Hfail|]. case_bool_decide as Hseen; [by intros ?%Hfail|].
    destruct (Validate rule) eqn:Hv; [|by intros ?%Hfail].
    intros E. apply IH in E as (-> & -> & Hall & Hnd & Hns). rewrite <-app_assoc. simpl.
    split_and!; [done|done| | |].
    + apply Forall_cons. split; [|done]. split; [apply Standardize_Standardize|by rewrite Hv].
    + apply NoDup_cons. split; [|done]. intros Hin. apply (Hns _ Hin). set_solver.
    + intros id [->|Hin]%elem_of_cons; [done|]. specialize (Hns id Hin). set_solver.
Qed.

Lemma validate_spec rules desired res :
  validateTransactionalSnapshot rules = (desired, res, None) →
  desired = Standardize <$> rules ∧ res = empty_result (length rules) ∧
  Forall checked desired ∧ NoDup (RuleID <$> desired).
Proof.
  unfold validateTransactionalSnapshot.
  destruct (foldl _ _ rules) as [[[d s] r] f] eqn:E. intros [= <- <- ->].
  apply validate_fold in E as (-> & -> & Hall & Hnd & _). done.
Qed.

(** ** The loops of a transaction *)

Lemma tx_loop_effect desired journal res m g0 :
  mgr_inv m → journal_inverts g0 journal m → Forall checked desired → NoDup (RuleID <$> desired) →
  (∀ id, id ∈ journal_ids journal → id ∉ RuleID <$> desired) →
  let '(failed, journal', _, m') := tx_loop desired journal res m in
  mgr_inv m' ∧ journal_ok (rules_of m') journal' ∧
  (∀ id, id ∈ journal_ids journal' → id ∈ journal_ids journal ∨ id ∈ RuleID <$> desired) ∧
  match failed with
  | None => journal_inverts g0 journal' m' ∧ rules_of m' = desired_rules (rules_of m) desired
  | Some (_, RestartFailed _ (Some _)) => True
  | Some _ => journal_inverts g0 journal' m'
  end.
Proof.
  revert journal res m. induction desired as [|rule desired IH]; intros journal res m Hinv Hj Hall Hnd Hdis.
  - simpl. split; [done|]. split; [apply Hj|]. split; [by left|done].
  - apply Forall_cons in Hall as [Hck Hall]. rewrite fmap_cons in Hnd, Hdis |- *.
    apply NoDup_cons in Hnd as [Hr Hnd]. simpl.
    assert (RuleID rule ∉ journal_ids journal) as Hfresh by (intros Hin; apply (Hdis _ Hin); by left).
    pose proof (tx_rule_effect rule m Hinv Hck) as Ht.
    destruct (tx_rule rule m) as [[[steps record]|e] m'].
    + pose proof (tx_settled_only_at _ _ _ _ Ht) as Hat. destruct Ht as (Hinv' & Hj' & Hsub & Hr').
      assert (∀ id, id ∈ journal_ids (journal ++ steps) → id ∈ journal_ids journal ∨ id = RuleID rule) as Hids.
      { unfold journal_ids in *. intros id. rewrite fmap_app. intros [?|Hin]%elem_of_app; [by left|right].
        apply Hsub in Hin. by apply list_elem_of_singleton in Hin. }
      specialize (IH (journal ++ steps) (record res) m' Hinv'
        (journal_extend _ _ _ _ _ _ Hj Hj' Hat Hfresh Hsub) Hall Hnd).
      destruct (tx_loop desired _ _ m') as [[[failed j'] res'] m''].
      destruct IH as (? & ? & Hids' & IH).
      { intros id [Hin| ->]%Hids; [|done]. intros Hd. apply (Hdis id Hin). by right. }
      split; [done|]. split; [done|]. split.
      { intros id [Hin|?]%Hids'; [apply Hids in Hin as [?| ->]; [by left|right; by left]|right; by right]. }
      destruct failed as [[r [| | | | | | |a [b|]]]|]; try done. unfold desired_step. by rewrite <-Hr'.
    + destruct Ht as (Hinv' & Hat & Ht). split; [done|].
      assert (journal_ok (rules_of m') journal) as Hjok by (by eapply journal_ok_only_at; [..|apply Hj]).
      split; [done|]. split; [by left|].
      assert (rules_of m' = rules_of m → journal_inverts g0 journal m') as Hk.
      { intros Hg. split; [done|]. rewrite Hg. apply Hj. }
      destruct e as [| | | | | | |a [b|]]; try done; by apply Hk.
Qed.

Lemma tx_remove_effect ids journal res m g0 :
  mgr_inv m → journal_inverts g0 journal m → NoDup ids → (∀ id, id ∈ journal_ids journal → id ∉ ids) →
  let '(journal', _, m') := tx_remove ids journal res m in
  mgr_inv m' ∧ journal_inverts g0 journal' m' ∧
  rules_of m' = foldl (λ g id, delete id g) (rules_of m) ids.
Proof.
  revert journal res m. induction ids as [|id ids IH]; intros journal res m Hinv Hj Hnd Hdis; [done|]. simpl.
  apply NoDup_cons in Hnd as [Hni Hnd].
  unfold runningRule. destruct (running m !! id) as [mr|] eqn:E.
  - assert (rules_of m !! id = Some (mr_rule mr)) as Hl by (by rewrite rules_of_lookup, E).
    pose proof (mi_rules m Hinv _ _ Hl) as Hok. pose proof (ro_id _ _ Hok) as Hid.
    destruct (stopRule_effect id m Hinv) as [Hs Hinv'].
    assert (TrimSpace id = id ∧ id ≠ "") as [Htrim Hne].
    { rewrite <-Hid. split; [apply standard_id, Hok|apply valid_id; apply Hok]. }
    rewrite Htrim, bool_decide_eq_false_2 in Hs by done.
    set (m1 := removeFromCollector id (stopRuleInternal id m)).
    assert (mgr_inv m1) as Hinv1 by (by apply (mgr_inv_frame (stopRuleInternal id m))).
    assert (rules_of m1 = delete id (rules_of m)) as Hr1 by done.
    rewrite <-Hr1. apply IH; [done| |done|].
    + eapply (journal_extend _ _ id); [done| | | |].
      * apply journal_one; [simpl; by rewrite Hid|done|]. simpl. by rewrite Hr1, Hid, insert_delete_id.
      * rewrite Hr1. apply only_at_delete.
      * intros Hin. apply (Hdis _ Hin). by left.
      * unfold journal_ids. simpl. by rewrite Hid.
    + unfold journal_ids in *. intros i. rewrite fmap_app. intros [Hin|Hin]%elem_of_app.
      * intros Hi. apply (Hdis i Hin). by right.
      * simpl in Hin. rewrite Hid in Hin. by apply list_elem_of_singleton in Hin as ->.
  - assert (delete id (rules_of m) = rules_of m) as ->.
    { apply delete_id. by rewrite rules_of_lookup, E. }
    apply IH; [done|done|done|]. intros i Hin Hi. apply (Hdis i Hin). by right.
Qed.

Lemma tx_forget_frame skip ids res m :
  running (tx_forget skip ids res m).2 = running m ∧ live (tx_forget skip ids res m).2 = live m.
Proof.
  unfold tx_forget. revert res m. induction ids as [|id ids IH]; intros res m; [done|]. simpl.
  case_bool_decide; [apply IH|]. apply (IH _ (removeFromCollector id m)).
Qed.

Lemma delete_all_lookup (g : gmap string Rule) ids id :
  foldl (λ g id, delete id g) g ids !! id = if decide (id ∈ ids) then None else g !! id.
Proof.
  revert g. induction ids as [|i ids IH]; intros g; [done|]. simpl. rewrite IH.
  destruct (decide (id ∈ ids)) as [Hin|Hni].
  - by rewrite decide_True by by right.
  - destruct (decide (id = i)) as [->|Hne].
    + rewrite lookup_delete_eq. by rewrite decide_True by by left.
    + rewrite lookup_delete_ne by done. rewrite decide_False; [done|].
      by intros [?|?]%elem_of_cons.
Qed.

(** ** The transactional apply as a whole *)

Lemma runningRuleIDs_rules m id : id ∈ runningRuleIDs m ↔ is_Some (rules_of m !! id).
Proof. unfold runningRuleIDs. by rewrite elem_of_sorted_keys, rules_of_lookup, fmap_is_Some. Qed.

(** The rules of a successful apply: the desired ones that are enabled and, unless
    everything is replaced, the running ones the snapshot does not mention. *)
Definition applied_rules (rules : list Rule) (ReplaceAll : bool) (before after : gmap string Rule) : Prop :=
  ∀ id rule, after !! id = Some rule ↔
    (rule ∈ Standardize <$> rules ∧ RuleID rule = id ∧ Enabled rule = true) ∨
    (ReplaceAll = false ∧ id ∉ RuleID <$> (Standardize <$> rules) ∧ before !! id = Some rule).

Lemma apply_locked_effect rules ReplaceAll m :
  mgr_inv m →
  let '(result, journal, before, m') := applySnapshotTransactionalLocked rules ReplaceAll m in
  mgr_inv m' ∧
  match tx_Failure result with
  | None => is_Some before ∧ journal_inverts (rules_of m) journal m' ∧
            applied_rules rules ReplaceAll (rules_of m) (rules_of m')
  | Some _ => before = None ∧ (Attempted (Rollback result) = false → m' = m) ∧
              (rb_Failed (Rollback result) = false → rules_of m' = rules_of m)
  end.
Proof.
  intros Hinv. unfold applySnapshotTransactionalLocked.
  destruct (validateTransactionalSnapshot rules) as [[desired res] [f|]] eqn:Hval; [done|].
  apply validate_spec in Hval as (-> & -> & Hall & Hnd). cbv zeta.
  set (desired := Standardize <$> rules) in *.
  pose proof (tx_loop_effect desired [] (empty_result (length rules)) m (rules_of m) Hinv
    (journal_same m m eq_refl) Hall Hnd ltac:(by intros id []%elem_of_nil)) as Hloop.
  destruct (tx_loop desired [] _ m) as [[[failed journal] res] m1]. destruct Hloop as (Hinv1 & Hjok & Hids & Hloop).
  destruct failed as [[rule e]|].
  - unfold rollbackTransaction. set (r0 := match e with RestartFailed _ _ => _ | _ => _ end).
    pose proof (rollbackSteps_effect journal (snapshotCollectorState (collector m)) r0 m1 Hinv1 Hjok) as Hrb.
    destruct (rollbackSteps journal _ r0 m1) as [rollback m2] eqn:Erb. destruct Hrb as [Hinv2 Hrb].
    split; [done|]. simpl. split; [done|]. split.
    + intros Hat. exfalso.
      assert (∀ steps r m, Attempted (undo_all steps r m).1 = Attempted r) as Hun.
      { clear. intros steps. induction steps as [|s steps IH]; intros r m; [done|]. simpl.
        destruct (run_undo (step_undo s) m). by rewrite IH. }
      unfold rollbackSteps in Erb. specialize (Hun (reverse journal) r0 m1).
      destruct (undo_all (reverse journal) r0 m1) as [r1 m3]. simpl in Hun. injection Erb as -> _.
      rewrite Hun in Hat. unfold r0 in Hat. by destruct e as [| | | | | | |a [b|]].
    + intros Hf. destruct (Hrb Hf) as [Hr0 ->].
      assert (journal_inverts (rules_of m) journal m1) as [_ Hj]; [|done].
      destruct e as [| | | | | | |a [b|]]; done.
  - destruct Hloop as [Hj Hrules]. destruct ReplaceAll; simpl.
    + set (seen := list_to_set (RuleID <$> desired) : gset string).
      set (unseen := filter (λ id, id ∉ seen) (runningRuleIDs m1)).
      pose proof (tx_remove_effect unseen journal res m1 (rules_of m) Hinv1 Hj) as Hrem.
      specialize (Hrem ltac:(apply NoDup_filter, NoDup_sorted_keys)).
      assert (∀ id, id ∈ journal_ids journal → id ∉ unseen) as Hapart.
      { intros id Hin [Hns _]%list_elem_of_filter. apply Hns, elem_of_list_to_set.
        by destruct (Hids id Hin) as [[]%elem_of_nil|]. }
      specialize (Hrem Hapart).
      destruct (tx_remove unseen journal res m1) as [[journal' res'] m2]. destruct Hrem as (Hinv2 & Hj2 & Hr2).
      destruct (tx_forget_frame (seen ∪ list_to_set unseen) (knownRuleIDs m2) res' m2) as [Hrun Hlive].
      destruct (tx_forget _ _ res' m2) as [res'' m3]. simpl in *.
      split; [by apply (mgr_inv_frame m2); rewrite ?Hlive|]. split; [by eexists|].
      assert (rules_of m3 = rules_of m2) as Hsame by by apply rules_of_frame.
      split; [destruct Hj2; split; by rewrite Hsame|]. intros id rule.
      rewrite Hsame, Hr2, delete_all_lookup, Hrules. unfold unseen, seen.
      destruct (decide _) as [Hin|Hni].
      * apply list_elem_of_filter in Hin as [Hns _]. rewrite elem_of_list_to_set in Hns.
        split; [done|]. intros [(Hd & <- & _)|[? _]]; [|done].
        destruct Hns. by apply list_elem_of_fmap_2.
      * rewrite list_elem_of_filter, elem_of_list_to_set, runningRuleIDs_rules, Hrules in Hni.
        rewrite desired_rules_lookup by done. split; [|by intros [?|[? _]]; [left|]].
        intros Hx. left. destruct Hx as [?|[Hns Hg]]; [done|]. exfalso. apply Hni. split; [done|].
        exists rule. apply desired_rules_lookup; [done|]. by right.
    + split; [done|]. split; [by eexists|]. split; [done|]. intros id rule.
      rewrite Hrules, desired_rules_lookup by done. naive_solver.
Qed.

(** ** [ApplySnapshot] and [StopAll] *)

Lemma apply_rule_effect raw seen res m :
  mgr_inv m → 
  let '(seen', res', m') := apply_rule raw (seen, res, m) in
  mgr_inv m' ∧ FailedRules res ≤ FailedRules res' ∧
  (FailedRules res' = FailedRules res →
     checked (Standardize raw) ∧ RuleID (Standardize raw) ∉ seen ∧
     seen' = {[ RuleID (Standardize raw) ]} ∪ seen ∧
     rules_of m' = desired_step (rules_of m) (Standardize raw)).
Proof.
  intros Hinv. unfold apply_rule. cbv zeta. set (rule := Standardize raw).
  assert (Standardize rule = rule) as Hstd by apply Standardize_Standardize.
  case_bool_decide; [by simpl; split_and!; [|lia|lia]|].
  case_bool_decide; [by simpl; split_and!; [|lia|lia]|].
  destruct (Validate rule) as [u|e] eqn:Hv; [|by simpl; split_and!; [|lia|lia]].
  assert (checked rule) as Hck by (split; [done|by rewrite Hv]). destruct Hck as [_ Hval].
  pose proof (standard_id rule Hstd) as Htrim. pose proof (valid_id rule Hstd Hval) as Hne.
  unfold runningRule, desired_step. destruct (Enabled rule) eqn:He; cbn [negb].
  - destruct (match running m !! RuleID rule with Some mr => RuntimeEqual (mr_rule mr) rule | None => false end)
      eqn:Heq.
    + destruct (running m !! RuleID rule) as [mr|] eqn:E; [|done].
      destruct (kept_running_effect rule m mr Hinv) as (_ & Hinv' & Hu); [by split|done|done|]. simpl.
      split; [by apply (mgr_inv_frame (updateRule rule m))|]. split; [lia|]. by intros _; split_and!.
    + destruct (running m !! RuleID rule) as [mr|] eqn:E.
      * pose proof (restartRule_effect rule m Hinv) as Hs. rewrite !Hstd, He in Hs.
        destruct (restartRuleInternal rule m) as [[?|e] m']; simpl.
        -- destruct Hs as [Hr ?]. split; [done|]. split; [lia|]. by intros _; split_and!.
        -- destruct Hs as [? _]. by split_and!; [|lia|lia].
      * pose proof (startRule_effect rule m Hinv) as Hs. rewrite !Hstd, He in Hs.
        destruct (startRuleInternal rule m) as [[?|e] m']; simpl.
        -- destruct Hs as (Hr & _ & ?). split; [done|]. split; [lia|]. by intros _; split_and!.
        -- destruct Hs as (_ & ? & _). by split_and!; [|lia|lia].
  - set (m1 := ensureRuleMetadata rule m). assert (mgr_inv m1) as Hinv1 by (by apply (mgr_inv_frame m)).
    destruct (running m !! RuleID rule) as [mr|] eqn:E; cbn [FailedRules add_item].
    + destruct (stopRule_effect (RuleID rule) m1 Hinv1) as [Hs Hinv'].
      rewrite Htrim, bool_decide_eq_false_2 in Hs by done. change (rules_of m1) with (rules_of m) in Hs.
      split; [done|]. split; [lia|]. by intros _; split_and!.
    + split; [done|]. split; [lia|]. intros _. split_and!; [by split|done|done|].
      symmetry. change (rules_of m1) with (rules_of m). apply delete_id. by rewrite rules_of_lookup, E.
Qed.

Lemma apply_rules_effect rules seen res m :
  mgr_inv m →
  let '(seen', res', m') := foldl (λ acc r, apply_rule r acc) (seen, res, m) rules in
  mgr_inv m' ∧ FailedRules res ≤ FailedRules res' ∧
  (FailedRules res' = FailedRules res →
     NoDup (RuleID <$> (Standardize <$> rules)) ∧
     (∀ id, id ∈ RuleID <$> (Standardize <$> rules) → id ∉ seen) ∧
     seen' = list_to_set (RuleID <$> (Standardize <$> rules)) ∪ seen ∧
     rules_of m' = desired_rules (rules_of m) (Standardize <$> rules)).
Proof.
  revert seen res m. induction rules as [|raw rules IH]; intros seen res m Hinv.
  - simpl. split_and!; [done|lia|]. intros _. split_and!; [apply NoDup_nil; done| |set_solver|done].
    by intros id ?%elem_of_nil.
  - change (Standardize <$> raw :: rules) with (Standardize raw :: (Standardize <$> rules)).
    rewrite fmap_cons. cbn [foldl]. pose proof (apply_rule_effect raw seen res m Hinv) as H1r.
    destruct (apply_rule raw (seen, res, m)) as [[seen1 res1] m1]. destruct H1r as (Hinv1 & Hle1 & H1r).
    specialize (IH seen1 res1 m1 Hinv1). destruct (foldl _ (seen1, res1, m1) rules) as [[seen' res'] m'].
    destruct IH as (Hinv' & Hle' & IH). split; [done|]. split; [lia|]. intros Hf.
    destruct (H1r ltac:(lia)) as (Hck & Hns & -> & Hr1). destruct (IH ltac:(lia)) as (Hnd & Hns' & -> & Hr').
    split_and!.
    + apply NoDup_cons. split; [|done]. intros Hin. apply (Hns' _ Hin). set_solver.
    + intros id [->|Hin]%elem_of_cons; [done|]. specialize (Hns' id Hin). set_solver.
    + rewrite list_to_set_cons. generalize (list_to_set (RuleID <$> (Standardize <$> rules)) : gset string).
      generalize (RuleID (Standardize raw)). clear. intros x X. set_solver.
    + by rewrite Hr', Hr1.
Qed.

Lemma remove_unseen_effect seen ids res m :
  mgr_inv m → (∀ id, id ∈ ids → TrimSpace id = id ∧ id ≠ "") →
  let '(res', m') := foldl (λ acc id, remove_unseen seen id acc) (res, m) ids in
  mgr_inv m' ∧ FailedRules res' = FailedRules res ∧
  ∀ id, rules_of m' !! id = if decide (id ∈ ids ∧ id ∉ seen) then None else rules_of m !! id.
Proof.
  revert res m. induction ids as [|i ids IH]; intros res m Hinv Hids.
  - cbn [foldl]. split_and!; [done|done|]. intros id. by destruct (decide _) as [[?%elem_of_nil _]|].
  - cbn [foldl remove_unseen]. destruct (Hids i ltac:(by left)) as [Htrim Hne].
    assert (∀ id, id ∈ ids → TrimSpace id = id ∧ id ≠ "") as Hids' by (intros id ?; apply Hids; by right).
    case_bool_decide as Hseen.
    + specialize (IH res m Hinv Hids'). destruct (foldl _ (res, m) ids) as [res' m'].
      destruct IH as (? & ? & Hlook). split_and!; [done|done|]. intros id. rewrite Hlook.
      apply decide_ext. set_solver.
    + destruct (stopRule_effect i m Hinv) as [Hs Hinv1].
      rewrite Htrim, bool_decide_eq_false_2 in Hs by done.
      set (m1 := removeFromCollector i (stopRuleInternal i m)).
      specialize (IH (add_item 0 1 0 (removed_item i) res) m1
        ltac:(by apply (mgr_inv_frame (stopRuleInternal i m))) Hids').
      destruct (foldl _ (add_item 0 1 0 (removed_item i) res, m1) ids) as [res' m'].
      destruct IH as (? & Hf & Hlook). split_and!; [done|by rewrite Hf; simpl; lia|].
      intros id. rewrite Hlook. change (rules_of m1) with (rules_of (stopRuleInternal i m)). rewrite Hs.
      destruct (decide (id = i)) as [->|Hni].
      * rewrite lookup_delete_eq. destruct (decide (i ∈ ids ∧ i ∉ seen)), (decide (i ∈ i :: ids ∧ i ∉ seen)) as [|Hn]; try done;
          destruct Hn; (split; [by left|done]).
      * rewrite lookup_delete_ne by done. apply decide_ext. set_solver.
Qed.

Lemma running_ids_trimmed m id : mgr_inv m → id ∈ runningRuleIDs m → TrimSpace id = id ∧ id ≠ "".
Proof.
  intros Hinv [rule Hr]%runningRuleIDs_rules. pose proof (mi_rules m Hinv _ _ Hr) as Hok.
  rewrite <-(ro_id _ _ Hok). split; [apply standard_id, Hok|apply valid_id; apply Hok].
Qed.

Lemma stop_entries_live entries m rest :
  live m ≡ₚ (entries ≫= mr_runners) ++ rest →
  live (foldl stop_entry m entries) ≡ₚ rest ∧
  running (foldl stop_entry m entries) = running m.
Proof.
  revert m. induction entries as [|mr entries IH]; intros m Hl; [done|]. simpl.
  rewrite bind_cons, <-app_assoc in Hl.
  destruct (IH (stop_entry m mr)) as [? Hr].
  { unfold stop_entry. simpl. by apply live_stopRunnerSet. }
  split; [done|]. rewrite Hr. unfold stop_entry. simpl. apply running_stopRunnerSet.
Qed.

Lemma StopAll_effect m : mgr_inv m → running (StopAll m) = ∅ ∧ live (StopAll m) = [] ∧ mgr_inv (StopAll m).
Proof.
  intros Hinv. unfold StopAll.
  destruct (stop_entries_live (snd <$> map_to_list (running m)) (set_running ∅ m) []) as [Hl Hr].
  { simpl. rewrite app_nil_r, (mi_live m Hinv). unfold owned. by rewrite list_fmap_bind. }
  apply Permutation_nil_r in Hl. split; [done|]. split; [done|]. split.
  - intros id rule. unfold rules_of. by rewrite Hr.
  - intros id mr. by rewrite Hr.
  - by rewrite Hl, Hr.
Qed.

(** ** Histories *)

Inductive ManagerOp :=
| OpStart rule | OpRestart rule | OpStop id | OpRemove id | OpStopAll | OpSetUDPMax (limit : Z)
| OpApply (rules : list Rule) (ReplaceAll : bool)
| OpApplyTransactional (rules : list Rule) (ReplaceAll : bool)
| OpApplyThenRollback (rules : list Rule) (ReplaceAll : bool).

Definition manager_step (op : ManagerOp) m : Manager :=
  match op with
  | OpStart rule => (StartRule rule m).2
  | OpRestart rule => (RestartRule rule m).2
  | OpStop id => StopRule id m
  | OpRemove id => RemoveRule id m
  | OpStopAll => StopAll m
  | OpSetUDPMax limit => SetUDPMaxSessions limit m
  | OpApply rules b => (ApplySnapshot rules b m).2
  | OpApplyTransactional rules b => (ApplySnapshotTransactional rules b m).2
  | OpApplyThenRollback rules b =>
      match BeginApplySnapshotTransactional rules b m with
      | (Some t, _, m) => (RollbackTransaction t m).2
      | (None, _, m) => m
      end
  end.

Lemma ApplySnapshot_effect rules ReplaceAll m :
  mgr_inv m →
  let '(res, m') := ApplySnapshot rules ReplaceAll m in
  mgr_inv m' ∧ (FailedRules res = 0 → applied_rules rules ReplaceAll (rules_of m) (rules_of m')).
Proof.
  intros Hinv. unfold ApplySnapshot.
  pose proof (apply_rules_effect rules ∅ (empty_result (length rules)) m Hinv) as Ha.
  destruct (foldl _ (∅, empty_result (length rules), m) rules) as [[seen res] m1].
  destruct Ha as (Hinv1 & Hle & Ha). simpl in Hle, Ha. rewrite union_empty_r_L in Ha.
  assert (∀ g, (∀ id rule, g !! id = Some rule ↔ desired_rules (rules_of m) (Standardize <$> rules) !! id = Some rule) →
    NoDup (RuleID <$> (Standardize <$> rules)) → applied_rules rules false (rules_of m) g) as Hplain.
  { intros g Hg Hnd id rule. rewrite Hg, desired_rules_lookup by done. naive_solver. }
  destruct ReplaceAll.
  - pose proof (remove_unseen_effect seen (runningRuleIDs m1) res m1 Hinv1
      (λ id, running_ids_trimmed m1 id Hinv1)) as Hrem.
    destruct (foldl _ (res, m1) (runningRuleIDs m1)) as [res' m2]. destruct Hrem as (Hinv2 & Hf & Hlook).
    split; [done|]. intros Hz. destruct (Ha ltac:(lia)) as (Hnd & _ & -> & Hr). intros id rule.
    rewrite Hlook. destruct (decide _) as [[_ Hns]|Hk].
    + rewrite elem_of_list_to_set in Hns. split; [done|]. intros [(Hd & <- & _)|[? _]]; [|done]. destruct Hns. by apply list_elem_of_fmap_2.
    + rewrite elem_of_list_to_set, runningRuleIDs_rules in Hk. rewrite Hr in *.
      rewrite desired_rules_lookup by done. split; [|by intros [?|[? _]]; [left|]].
      intros Hx. left. destruct Hx as [?|[Hns Hg]]; [done|]. exfalso. apply Hk. split; [|done].
      exists rule. apply desired_rules_lookup; [done|]. by right.
  - split; [done|]. intros Hz. destruct (Ha ltac:(lia)) as (Hnd & _ & _ & Hr).
    apply Hplain; [|done]. intros id rule. by rewrite Hr.
Qed.

Lemma RollbackTransaction_effect t m :
  mgr_inv m → journal_ok (rules_of m) (tr_journal t) → mgr_inv (RollbackTransaction t m).2.
Proof.
  intros Hinv Hj. unfold RollbackTransaction. destruct (tr_closed t); [done|].
  pose proof (rollbackSteps_effect (tr_journal t) (tr_before t)
    {| Attempted := true; rb_Failed := false; rb_Items := [] |} m Hinv Hj) as Hr.
  destruct (rollbackSteps _ _ _ m). by destruct Hr.
Qed.

Lemma manager_step_inv op m : mgr_inv m → mgr_inv (manager_step op m).
Proof.
  intros Hinv. destruct op as [rule|rule|id|id| |limit|rules b|rules b|rules b]; simpl.
  - pose proof (startRule_effect rule m Hinv) as Hs. unfold StartRule.
    by destruct (startRuleInternal rule m) as [[?|?] ?]; destruct Hs as (? & ? & ?).
  - pose proof (restartRule_effect rule m Hinv) as Hs. unfold RestartRule.
    by destruct (restartRuleInternal rule m) as [[?|?] ?]; destruct Hs as (? & ?).
  - by apply stopRule_effect.
  - destruct (stopRule_effect id m Hinv) as [_ ?]. by apply (mgr_inv_frame (stopRuleInternal id m)).
  - by apply StopAll_effect.
  - by apply (mgr_inv_frame m).
  - pose proof (ApplySnapshot_effect rules b m Hinv) as Hs. destruct (ApplySnapshot rules b m). by destruct Hs.
  - unfold ApplySnapshotTransactional, BeginApplySnapshotTransactional.
    pose proof (apply_locked_effect rules b m Hinv) as Hs.
    destruct (applySnapshotTransactionalLocked rules b m) as [[[result j] before] m'].
    destruct Hs as [? _]. by destruct (tx_Failure result), before.
  - unfold BeginApplySnapshotTransactional. pose proof (apply_locked_effect rules b m Hinv) as Hs.
    destruct (applySnapshotTransactionalLocked rules b m) as [[[result j] before] m'].
    destruct Hs as [Hinv' Hs]. destruct (tx_Failure result), before; simpl in *; try done.
    apply RollbackTransaction_effect; [done|]. simpl. by destruct Hs as (_ & [? _] & _).
Qed.

Lemma NewManager_inv c udpMax ledger w : mgr_inv (NewManagerWithOptions c udpMax ledger w).
Proof.
  split; [| |done].
  - intros id rule. unfold rules_of. simpl. by rewrite fmap_empty, lookup_empty.
  - intros id mr. simpl. by rewrite lookup_empty.
Qed.

Definition run_manager (ops : list ManagerOp) m : Manager := foldl (λ m op, manager_step op m) m ops.

Lemma run_manager_inv ops m : mgr_inv m → mgr_inv (run_manager ops m).
Proof.
  revert m. induction ops as [|op ops IH]; intros m Hinv; [done|]. by apply IH, manager_step_inv.
Qed.
End manager_spec.

(** ** Restoring the collector *)

Section restore.
Implicit Types (c : Collector) (id : string) (s : ruleCounterState).

(** What a restore leaves under an id of the snapshot. *)
Definition restored_value (s : ruleCounterState) (found : option loc) (value : option ruleCounter)
    : option ruleCounter :=
  match found with
  | Some l => if decide (l = cs_counter s) then value else merge_counter (cs_values s) <$> value
  | None => Some (merge_counter (cs_values s) (new_counter 0))
  end.

Lemma restore_one_effect c id s :
  collector_wf c →
  let c' := restore_one c (id, s) in
  collector_wf c' ∧ (∀ i, i ≠ id → counters c' !! i = counters c !! i ∧ counter_of c' i = counter_of c i) ∧
  counter_of c' id = restored_value s (counters c !! id) (counter_of c id) ∧
  is_Some (counters c' !! id).
Proof.
  intros Hwf c'. unfold c', restore_one, restored_value.
  destruct (counters c !! id) as [l|] eqn:E.
  - case_decide; [by split_and!; [| |done|eexists]|].
    change (set_heap (alter (merge_counter (cs_values s)) l (heap c)) c)
      with (update (Some l) (merge_counter (cs_values s)) c).
    split_and!; [by apply update_wf| | |by eexists].
    + intros i Hi. split; [done|]. rewrite <-!lookup_view, (view_update id) by done.
      by rewrite lookup_alter_ne.
    + rewrite <-!lookup_view, (view_update id) by done. by rewrite lookup_alter_eq.
  - set (c1 := allocate 0 id c). pose proof (allocate_wf 0 id c Hwf) as Hwf1.
    assert (counters c1 !! id = Some (next_loc c)) as E1 by apply lookup_insert_eq.
    change (set_heap (alter (merge_counter (cs_values s)) (next_loc c) (heap c1)) c1)
      with (update (Some (next_loc c)) (merge_counter (cs_values s)) c1).
    split_and!; [by apply update_wf| | |by eexists].
    + intros i Hi. split; [by simpl; rewrite lookup_insert_ne|].
      rewrite <-!lookup_view, (view_update id) by done.
      rewrite lookup_alter_ne by done. unfold c1. rewrite view_allocate by done.
      by rewrite lookup_insert_ne.
    + rewrite <-lookup_view, (view_update id) by done. rewrite lookup_alter_eq.
      unfold c1. rewrite view_allocate by done. by rewrite lookup_insert_eq.
Qed.

Lemma restore_all_effect entries c :
  collector_wf c → NoDup entries.*1 →
  let c' := foldl restore_one c entries in
  collector_wf c' ∧
  (∀ i, i ∉ entries.*1 → counters c' !! i = counters c !! i ∧ counter_of c' i = counter_of c i) ∧
  (∀ i s, (i, s) ∈ entries → counter_of c' i = restored_value s (counters c !! i) (counter_of c i) ∧
     is_Some (counters c' !! i)).
Proof.
  revert c. induction entries as [|[id s] entries IH]; intros c Hwf Hnd; cbv zeta; cbn [foldl].
  - split_and!; [done|done|]. by intros i s ?%elem_of_nil.
  - rewrite fmap_cons in Hnd. apply NoDup_cons in Hnd as [Hid Hnd]. simpl in Hid.
    destruct (restore_one_effect c id s Hwf) as (Hwf1 & Hne1 & Hv1 & Hs1).
    destruct (IH (restore_one c (id, s)) Hwf1 Hnd) as (Hwf' & Hne' & Hv'). split_and!; [done| |].
    + intros i Hi. change (i ∉ id :: entries.*1) in Hi. apply not_elem_of_cons in Hi as [Hi1 Hi2].
      destruct (Hne' i Hi2) as [-> ->]. by apply Hne1.
    + intros i s' [[= -> ->]|Hin]%elem_of_cons.
      * destruct (Hne' id Hid) as [-> ->]. done.
      * assert (i ≠ id) as Hi by (intros ->; apply Hid; by apply (list_elem_of_fmap_2' fst) with (x := (id, s'))).
        destruct (Hne1 i Hi) as [E1 E2]. rewrite <-E1, <-E2. by apply Hv'.
Qed.
End restore.

(** ** Properties *)

Section properties.
Context `{!TzDatabase, !Net}.

(** C1: a successful transaction puts exactly the desired rules in service. From
    any manager reachable by its public methods, when
    [BeginApplySnapshotTransactional] returns a transaction, a rule runs
    afterwards if and only if it is an enabled rule of the (standardized)
    snapshot or, unless everything is replaced, it ran before and the snapshot
    does not name it; and the listeners alive are those of these rules: each rule
    has a listener on every transport of its protocol, built from a rule of the
    same service, and no other listener is alive. *)
Theorem transaction_applies_desired ops c udpMax ledger w rules ReplaceAll t result m' :
  let m := run_manager ops (NewManagerWithOptions c udpMax ledger w) in
  BeginApplySnapshotTransactional rules ReplaceAll m = (Some t, result, m') →
  tx_Failure result = None ∧ applied_rules rules ReplaceAll (rules_of m) (rules_of m') ∧
  serving m' (rules_of m').
Proof.
  intros m. pose proof (run_manager_inv ops _ (NewManager_inv c udpMax ledger w)) as Hinv. fold m in Hinv.
  unfold BeginApplySnapshotTransactional. pose proof (apply_locked_effect rules ReplaceAll m Hinv) as Ha.
  destruct (applySnapshotTransactionalLocked rules ReplaceAll m) as [[[res j] before] m1].
  destruct Ha as [Hinv' Ha]. destruct (tx_Failure res) eqn:Hf; [by destruct before|].
  destruct Ha as ([b ->] & _ & Happ). intros [= _ <- <-]. split_and!; [done|done|by apply mgr_inv_serving].
Qed.

(** C2: a failed transaction is all or nothing. When no transaction is returned,
    either the snapshot did not validate and the manager is untouched, or a rule
    failed to start and, if no rollback item failed, the rules that run are
    exactly those that ran before and the listeners alive serve exactly them. Even
    a rollback that failed leaves no listener without its rule. *)
Theorem failed_transaction_restores ops c udpMax ledger w rules ReplaceAll result m' :
  let m := run_manager ops (NewManagerWithOptions c udpMax ledger w) in
  BeginApplySnapshotTransactional rules ReplaceAll m = (None, result, m') →
  is_Some (tx_Failure result) ∧ (Attempted (Rollback result) = false → m' = m) ∧
  (rb_Failed (Rollback result) = false → rules_of m' = rules_of m ∧ serving m' (rules_of m)) ∧
  serving m' (rules_of m').
Proof.
  intros m. pose proof (run_manager_inv ops _ (NewManager_inv c udpMax ledger w)) as Hinv. fold m in Hinv.
  unfold BeginApplySnapshotTransactional. pose proof (apply_locked_effect rules ReplaceAll m Hinv) as Ha.
  destruct (applySnapshotTransactionalLocked rules ReplaceAll m) as [[[res j] before] m1].
  destruct Ha as [Hinv' Ha]. apply mgr_inv_serving in Hinv' as Hserve. destruct (tx_Failure res) eqn:Hf.
  - destruct Ha as (-> & Hat & Hrb). intros [= <- <-]. rewrite Hf. split_and!; [by eexists|done| |done].
    intros E. specialize (Hrb E). by rewrite Hrb in Hserve.
  - by destruct Ha as ([b ->] & _ & _).
Qed.

(** rolling back an open transaction restores the rules that ran before it,
    whenever no undo step failed; a committed or already rolled back transaction
    is left alone. *)
Theorem rollback_restores_rules ops c udpMax ledger w rules ReplaceAll t result m1 :
  let m := run_manager ops (NewManagerWithOptions c udpMax ledger w) in
  BeginApplySnapshotTransactional rules ReplaceAll m = (Some t, result, m1) →
  let '(r, t', m2) := RollbackTransaction t m1 in
  Attempted r = true ∧ (rb_Failed r = false → rules_of m2 = rules_of m) ∧
  RollbackTransaction t' m2 = (no_rollback, t', m2) ∧
  RollbackTransaction (Commit t) m1 = (no_rollback, Commit t, m1).
Proof.
  intros m. pose proof (run_manager_inv ops _ (NewManager_inv c udpMax ledger w)) as Hinv. fold m in Hinv.
  unfold BeginApplySnapshotTransactional. pose proof (apply_locked_effect rules ReplaceAll m Hinv) as Ha.
  destruct (applySnapshotTransactionalLocked rules ReplaceAll m) as [[[res j] before] m3].
  destruct Ha as [Hinv' Ha]. destruct (tx_Failure res) eqn:Hf; [by destruct before|].
  destruct Ha as ([b ->] & [Hj1 Hj2] & _). intros [= <- _ <-]. unfold RollbackTransaction. simpl.
  set (r0 := {| Attempted := true; rb_Failed := false; rb_Items := [] |}).
  pose proof (rollbackSteps_effect j b r0 m3 Hinv' Hj1) as Hr.
  assert (∀ steps r m, Attempted (undo_all steps r m).1 = Attempted r) as Hun.
  { clear. intros steps. induction steps as [|s steps IH]; intros r m; [done|]. simpl.
    destruct (run_undo (step_undo s) m). by rewrite IH. }
  assert (Attempted (rollbackSteps j b r0 m3).1 = true) as Hatt.
  { unfold rollbackSteps. specialize (Hun (reverse j) r0 m3).
    by destruct (undo_all (reverse j) r0 m3). }
  destruct (rollbackSteps j b r0 m3) as [r m4]. destruct Hr as [_ Hr]. simpl in *.
  split_and!; [done| |done|done]. intros Hfail. destruct (Hr Hfail) as [_ ->]. done.
Qed.

(** C3: no listener leaks and none is lost. After any sequence of starts, stops,
    restarts, removals, snapshot applies, transactions and rollbacks, on a
    network where any start may fail, the runners that were started and not
    stopped are exactly the runners of the running rules; every running rule is
    standardized, valid, enabled and filed under its own id; and [StopAll]
    leaves nothing live. *)
Theorem no_listener_leak ops c udpMax ledger w :
  let m := run_manager ops (NewManagerWithOptions c udpMax ledger w) in
  live m ≡ₚ owned (running m) ∧
  (∀ id mr, running m !! id = Some mr → running_rule_ok id (mr_rule mr)) ∧
  live (StopAll m) = [] ∧ running (StopAll m) = ∅.
Proof.
  intros m. pose proof (run_manager_inv ops _ (NewManager_inv c udpMax ledger w)) as Hinv. fold m in Hinv.
  destruct (StopAll_effect m Hinv) as (Hr & Hl & _). split_and!; [apply Hinv| |done|done].
  intros id mr E. apply (mi_rules m Hinv). by rewrite rules_of_lookup, E.
Qed.

(** the non-transactional [ApplySnapshot] reaches the same rules. When it
    reports no failed rule, the rules that run are the enabled desired ones and,
    unless everything is replaced, the running rules it does not name. *)
Theorem apply_snapshot_without_failures ops c udpMax ledger w rules ReplaceAll res m' :
  let m := run_manager ops (NewManagerWithOptions c udpMax ledger w) in
  ApplySnapshot rules ReplaceAll m = (res, m') → FailedRules res = 0 →
  applied_rules rules ReplaceAll (rules_of m) (rules_of m').
Proof.
  intros m. pose proof (run_manager_inv ops _ (NewManager_inv c udpMax ledger w)) as Hinv. fold m in Hinv.
  intros Ha. pose proof (ApplySnapshot_effect rules ReplaceAll m Hinv) as He. rewrite Ha in He. by destruct He.
Qed.

(** a restart falls back to the previous rule. A restart that succeeds puts
    the new rule (or, for a disabled rule, nothing) under its id; a restart that
    fails leaves every running rule as it was, with the single exception that the
    previous rule of this id is gone when the error says that restoring it failed
    too. *)
Theorem restart_falls_back ops c udpMax ledger w raw :
  let m := run_manager ops (NewManagerWithOptions c udpMax ledger w) in
  let rule := Standardize raw in
  let '(out, m') := RestartRule raw m in
  match out with
  | Ok _ => rules_of m' = if Enabled rule then <[RuleID rule := rule]> (rules_of m)
                          else delete (RuleID rule) (rules_of m)
  | Err (RestartFailed _ (Some _)) => rules_of m' = delete (RuleID rule) (rules_of m)
  | Err _ => rules_of m' = rules_of m
  end.
Proof.
  intros m rule. pose proof (run_manager_inv ops _ (NewManager_inv c udpMax ledger w)) as Hinv. fold m in Hinv.
  pose proof (restartRule_effect raw m Hinv) as Hs. unfold RestartRule. fold rule in Hs.
  destruct (restartRuleInternal raw m) as [[?|e] m']; [by destruct Hs|]. by destruct Hs as [_ Hs].
Qed.
End properties.

(** restoring the collector keeps the history and the live traffic. Given the
    snapshot taken before a transaction, restoring forgets the rules that did not
    exist then; a counter block that survived keeps what it counted since; a rule
    whose block was replaced gets the old totals added to the new ones; and the
    protocols, bandwidth and quota policies are those of the snapshot. *)
Theorem restore_keeps_history before c id :
  collector_wf before → collector_wf c →
  let s := snapshotCollectorState before in
  let c' := restoreCollectorState s c in
  collector_wf c' ∧
  protocols c' = protocols before ∧ bandwidths c' = bandwidths before ∧ quotas c' = quotas before ∧
  match counters before !! id with
  | None => counter_of c' id = None
  | Some l0 =>
      ∃ old, heap before !! l0 = Some old ∧
      counter_of c' id =
        match counters c !! id with
        | Some l => if decide (l = l0) then heap c !! l else merge_counter old <$> heap c !! l
        | None => Some (merge_counter old (new_counter 0))
        end
  end.
Proof.
  intros Hb Hc s c'. unfold c', restoreCollectorState.
  set (kept := filter _ (counters c)).
  assert (collector_wf (set_counters kept c)) as Hk.
  { destruct Hc as [Hn Hbl Hi]. split; simpl; [done| |].
    - intros i l [El _]%map_lookup_filter_Some. eauto.
    - intros i i' l [El _]%map_lookup_filter_Some [El' _]%map_lookup_filter_Some. eauto. }
  destruct (restore_all_effect (map_to_list (ss_counters s)) (set_counters kept c) Hk
    (NoDup_fst_map_to_list _)) as (Hwf & Hne & Hv).
  set (c1 := foldl restore_one (set_counters kept c) (map_to_list (ss_counters s))) in *.
  split; [by eapply wf_same_store; [..|exact Hwf]|]. split; [done|]. split; [done|]. split; [done|].
  change (counter_of (set_quotas _ _) id) with (counter_of c1 id).
  assert (ss_counters s !! id = (λ l, {| cs_counter := l; cs_values := default (new_counter 0) (heap before !! l) |})
            <$> counters before !! id) as Es by apply lookup_fmap.
  destruct (counters before !! id) as [l0|] eqn:E0; simpl in Es.
  - destruct (wf_block before Hb id l0 E0) as [old Hold]. exists old. split; [done|].
    apply elem_of_map_to_list in Es. apply Hv in Es as [-> _]. unfold restored_value, counter_of. simpl.
    rewrite Hold. simpl. unfold kept.
    destruct (counters c !! id) as [l|] eqn:El.
    + rewrite (proj2 (map_lookup_filter_Some _ _ id l)); [done|]. split; [done|]. simpl.
      unfold s. simpl. by rewrite lookup_fmap, E0; eexists.
    + by rewrite (proj2 (map_lookup_filter_None _ _ id)); [|left].
  - assert (id ∉ (map_to_list (ss_counters s)).*1) as Hnin.
    { intros [[i v] [Hi Hin]]%list_elem_of_fmap. simpl in Hi. subst i.
      apply elem_of_map_to_list in Hin. discriminate (eq_trans (eq_sym Hin) Es). }
    destruct (Hne id Hnin) as [_ ->]. unfold counter_of. simpl. unfold kept.
    destruct (filter _ (counters c) !! id) as [l|] eqn:Ef; [|done].
    apply map_lookup_filter_Some in Ef as [_ [v Hvv]]. discriminate (eq_trans (eq_sym Hvv) Es).
Qed.

(** ** A concrete network for the witnesses

    The world is the list of bound sockets (protocol, port); a start fails when
    its socket is taken. *)

Definition socket (r : Runner) : bool * Z :=
  (bool_decide (rn_kind r = UDPRunner), ListenPort (rn_rule r)).

Definition port_net : Net := {|
  World := list (bool * Z);
  net_now _ := 1000;
  net_start r w := if decide (socket r ∈ w) then (Some "address already in use", w) else (None, socket r :: w);
  net_stop r w := filter (λ s, s ≠ socket r) w
|}.

Definition sample_rule (id : string) (port : Z) : Rule := {|
  RuleID := id; Name := id; Proto := "tcp"; ListenAddr := "0.0.0.0"; ListenPort := port;
  TargetAddr := "10.0.0.1"; TargetPort := 80; Enabled := true; SpeedLimit := 0; Bandwidth := None;
  Quota := None; MaxConn := 0; IdleTimeout := 0; SourceIPMode := ""; SourceIPs := []; Domains := [];
  Remark := ""; Revision := 1; CreatedTime := 0; UpdatedTime := 0 |}.

(** A manager that serves port 8080. *)
Definition sample_ops : list ManagerOp := [OpStart (sample_rule "web" 8080)].
Definition sample_manager : @Manager port_net :=
  @run_manager utc_database port_net sample_ops
    (@NewManagerWithOptions port_net None 0 None ([] : @World port_net)).

(** "web" moves to port 9000: its one listener is there. *)
Lemma transaction_applies_desired_witness :
  let rules := [sample_rule "web" 9000] in
  ∃ t result m',
    @BeginApplySnapshotTransactional utc_database port_net rules true sample_manager = (Some t, result, m') ∧
    applied_rules rules true (rules_of sample_manager) (rules_of m') ∧
    (∀ r, r ∈ live m' → ListenPort (rn_rule r) = 9000) ∧ length (live m') = 1%nat.
Proof.
  intros rules.
  assert ((λ o, (bool_decide (is_Some o.1.1), length (live o.2)))
    (@BeginApplySnapshotTransactional utc_database port_net rules true sample_manager) = (true, 1%nat)) as Hs
    by by vm_compute.
  destruct (@BeginApplySnapshotTransactional utc_database port_net rules true sample_manager)
    as [[[t|] result] m'] eqn:E; [|discriminate Hs].
  exists t, result, m'. split; [done|]. injection Hs as Hl.
  destruct (@transaction_applies_desired utc_database port_net sample_ops None 0 None [] rules true
    t result m' E) as (_ & Happ & _ & Hserve).
  split_and!; [exact Happ| |exact Hl]. intros r Hr. destruct (Hserve r Hr) as (id & rule & Hg & _ & Hsame).
  apply Happ in Hg as [(Hin & _ & _)|[Hf _]]; [|discriminate Hf].
  apply list_elem_of_singleton in Hin as ->. by destruct (sv_listen _ _ Hsame).
Defined.

(** The second rule of the snapshot wants a port the first one has just taken;
    "web" listens on 8080 again. *)
Lemma failed_transaction_restores_witness :
  let rules := [sample_rule "web" 9000; sample_rule "api" 9000] in
  ∃ result m',
    @BeginApplySnapshotTransactional utc_database port_net rules true sample_manager = (None, result, m') ∧
    rules_of m' = rules_of sample_manager ∧ serving m' (rules_of sample_manager).
Proof.
  intros rules.
  assert (bool_decide (is_Some (@BeginApplySnapshotTransactional utc_database port_net rules true
            sample_manager).1.1) = false ∧
          rb_Failed (Rollback (@BeginApplySnapshotTransactional utc_database port_net rules true
            sample_manager).1.2) = false) as [Hs Hf] by by vm_compute.
  destruct (@BeginApplySnapshotTransactional utc_database port_net rules true sample_manager)
    as [[[t|] result] m'] eqn:E; [discriminate Hs|].
  exists result, m'. split; [done|].
  destruct (@failed_transaction_restores utc_database port_net sample_ops None 0 None []
    rules true result m' E) as (_ & _ & H & _). exact (H Hf).
Defined.

Lemma rollback_restores_rules_witness :
  let rules := [sample_rule "ssh" 2222] in
  ∃ t result m1,
    @BeginApplySnapshotTransactional utc_database port_net rules true sample_manager = (Some t, result, m1) ∧
    rules_of (@RollbackTransaction utc_database port_net t m1).2 = rules_of sample_manager.
Proof.
  intros rules.
  assert (match @BeginApplySnapshotTransactional utc_database port_net rules true sample_manager with
          | (Some t, _, m1) => rb_Failed (@RollbackTransaction utc_database port_net t m1).1.1 = false
          | _ => False
          end) as Hf by by vm_compute.
  destruct (@BeginApplySnapshotTransactional utc_database port_net rules true sample_manager)
    as [[[t|] result] m1] eqn:E; [|destruct Hf].
  exists t, result, m1. split; [reflexivity|].
  pose proof (@rollback_restores_rules utc_database port_net sample_ops None 0 None [] rules true t result m1 E) as H.
  destruct (@RollbackTransaction utc_database port_net t m1) as [[r t'] m2].
  exact (proj1 (proj2 H) Hf).
Defined.

Lemma apply_snapshot_without_failures_witness :
  let rules := [sample_rule "web" 8080; sample_rule "ssh" 2222] in
  ∃ res m', @ApplySnapshot utc_database port_net rules true sample_manager = (res, m') ∧
    applied_rules rules true (rules_of sample_manager) (rules_of m').
Proof.
  intros rules.
  assert (FailedRules (@ApplySnapshot utc_database port_net rules true sample_manager).1 = 0) as Hf
    by by vm_compute.
  destruct (@ApplySnapshot utc_database port_net rules true sample_manager) as [res m'] eqn:E.
  exists res, m'. split; [done|].
  exact (@apply_snapshot_without_failures utc_database port_net sample_ops None 0 None [] rules true
    res m' E Hf).
Defined.

(** "web" was removed and created again, and has counted 5 bytes since. *)
Lemma restore_keeps_history_witness :
  let before := run_collector [(1, OpAddUpload "web" 100)] NewCollector in
  let c := run_collector [(2, OpRemoveRule "web"); (3, OpAddUpload "web" 5)] before in
  uploadTotal <$> counter_of (restoreCollectorState (snapshotCollectorState before) c) "web" = Some 105 ∧
  collector_wf (restoreCollectorState (snapshotCollectorState before) c).
Proof.
  intros before c. split; [by vm_compute|].
  apply (restore_keeps_history before c "web").
  - apply run_refines, NewCollector_wf.
  - apply run_refines, run_refines, NewCollector_wf.
Defined.
