(* ===== verification/Precheck.v ===== *)
(** * Configuration precheck (precheck/precheck.go)

    [CheckConfig] walks the rules of a configuration and reports errors and
    warnings: duplicate ids, invalid rules, listen conflicts, endpoints that
    cannot be bound, redundant source prefixes and forwarding loops.  What the
    operating system answers ([net.Listen], name resolution) is the parameter
    [Probe].  A message is kept as the values it prints ([Detail]). *)

From S2P Require Import Prelude GoStrings Calendar NetIP SourceIP Limits Rule.

Inductive Severity := SeverityError | SeverityWarning.
#[export] Instance Severity_eq_dec : EqDecision Severity.
Proof. solve_decision. Defined.

Record endpoint := { ep_Network : string; ep_Addr : string; ep_Port : Z; ep_RuleID : string }.
#[export] Instance endpoint_eq_dec : EqDecision endpoint.
Proof. solve_decision. Defined.

Inductive Detail :=
| DuplicateIdDetail
| InvalidDetail (e : RuleError)
| PrivilegedDetail (port : Z)
| ConflictDetail (ep existing : endpoint)
| BindDetail (ep : endpoint) (e : string)
| ResolveDetail (target : string) (port : Z) (e : string)
| SourceDuplicateDetail (index previous : nat)
| SourceRedundantDetail (index covering : nat)
| DomainDetail (domain : string)
| AcmeAddrDetail (addr : string)
| AcmeConflictDetail (addr : string) (existing : endpoint)
| UnknownFieldDetail (field : string)
| LoopDetail (chain : list string)
| ConfigLoadDetail.                                        (* built by the control API *)

Record Item := { i_Severity : Severity; i_Check : string; i_RuleID : string; i_Detail : Detail }.

(** The part of [config.File] the precheck reads. *)
Record ConfigView := { cv_Rules : list Rule; cv_UnknownFields : list string; cv_AcmeHTTP01Addr : string }.

Record Options := { CheckBind : bool; CheckTargetResolve : bool }.
Definition DefaultOptions : Options := {| CheckBind := true; CheckTargetResolve := true |}.

Class Probe := {
  bind_error : string → string → Z → option string;       (* network, address, port *)
  resolve_error : string → string → Z → option string;    (* network, host, port *)
}.

(** ** Endpoints *)

Definition normalizeAddr (addr : string) : string :=
  let addr := TrimSpace (ToLower addr) in
  if bool_decide (addr = "0.0.0.0") || bool_decide (addr = "::") then "" else addr.

Definition forwardedNetworks (p : Protocol) : option (list string) :=
  if bool_decide (p = ProtocolTCP) || bool_decide (p = ProtocolHTTP) || bool_decide (p = ProtocolHTTPS)
  then Some ["tcp"]
  else if bool_decide (p = ProtocolUDP) then Some ["udp"]
  else if bool_decide (p = ProtocolTCPUDP) then Some ["tcp"; "udp"]
  else None.

Definition endpointsForRule (rule : Rule) : list endpoint :=
  if negb (Enabled rule) then []
  else match forwardedNetworks (Proto rule) with
  | None => []
  | Some networks =>
      (λ n, {| ep_Network := n; ep_Addr := normalizeAddr (ListenAddr rule);
               ep_Port := ListenPort rule; ep_RuleID := RuleID rule |}) <$> networks
  end.

Record endpointBucket := {
  bk_first : option endpoint; bk_wildcard : option endpoint; bk_byAddr : gmap string endpoint
}.
Definition endpointIndex : Type := gmap (string * Z) endpointBucket.
Definition empty_bucket : endpointBucket := {| bk_first := None; bk_wildcard := None; bk_byAddr := ∅ |}.

Definition index_conflict (index : endpointIndex) (ep : endpoint) : option endpoint :=
  match index !! (ep_Network ep, ep_Port ep) with
  | None => None
  | Some bucket =>
      let addr := normalizeAddr (ep_Addr ep) in
      if bool_decide (addr = "") then bk_first bucket
      else match bk_wildcard bucket with
      | Some wildcard => Some wildcard
      | None => bk_byAddr bucket !! addr
      end
  end.

Definition index_add (ep : endpoint) (index : endpointIndex) : endpointIndex :=
  let ep := {| ep_Network := ep_Network ep; ep_Addr := normalizeAddr (ep_Addr ep);
               ep_Port := ep_Port ep; ep_RuleID := ep_RuleID ep |} in
  let group := (ep_Network ep, ep_Port ep) in
  let bucket := default empty_bucket (index !! group) in
  let first := match bk_first bucket with None => Some ep | f => f end in
  let bucket :=
    if bool_decide (ep_Addr ep = "") then
      {| bk_first := first;
         bk_wildcard := match bk_wildcard bucket with None => Some ep | w => w end;
         bk_byAddr := bk_byAddr bucket |}
    else
      {| bk_first := first; bk_wildcard := bk_wildcard bucket;
         bk_byAddr := match bk_byAddr bucket !! ep_Addr ep with
                      | None => <[ep_Addr ep := ep]> (bk_byAddr bucket)
                      | Some _ => bk_byAddr bucket
                      end |} in
  <[group := bucket]> index.

(** Network, normalized address, port and rule id of what already runs. *)
Definition runningKey (ep : endpoint) : string * string * Z * string :=
  (ep_Network ep, normalizeAddr (ep_Addr ep), ep_Port ep, ep_RuleID ep).
Definition indexRunningEndpoints (running : list Rule) : gset (string * string * Z * string) :=
  list_to_set (runningKey <$> (running ≫= (endpointsForRule ∘ Standardize))).

(** ** The checker *)

Record checker := {
  ck_seen : gset string;
  ck_endpoints : endpointIndex;
  ck_items : list Item;
  ck_errors : Z;
  ck_warnings : Z;
}.

Definition addError (check rule : string) (d : Detail) (c : checker) : checker := {|
  ck_seen := ck_seen c; ck_endpoints := ck_endpoints c;
  ck_items := ck_items c ++ [{| i_Severity := SeverityError; i_Check := check; i_RuleID := rule; i_Detail := d |}];
  ck_errors := ck_errors c + 1; ck_warnings := ck_warnings c |}.
Definition addWarning (check rule : string) (d : Detail) (c : checker) : checker := {|
  ck_seen := ck_seen c; ck_endpoints := ck_endpoints c;
  ck_items := ck_items c ++ [{| i_Severity := SeverityWarning; i_Check := check; i_RuleID := rule; i_Detail := d |}];
  ck_errors := ck_errors c; ck_warnings := ck_warnings c + 1 |}.

Definition checkUnknownFields (fields : list string) (c : checker) : checker :=
  foldl (λ c f, addWarning "unknown_config_key" "" (UnknownFieldDetail f) c) c fields.

(** *** Source policies: duplicates, then prefixes covered by a shorter one *)

Fixpoint source_entries (rule : string) (index : nat) (raws : list string)
    (seen : list (Prefix * nat)) (entries : list (nat * Prefix)) (c : checker)
    : list (nat * Prefix) * checker :=
  match raws with
  | [] => (entries, c)
  | raw :: raws =>
    match ParseSourceIPPrefix raw with
    | Err _ => source_entries rule (S index) raws seen entries c
    | Ok prefix =>
      match list_find (λ e, e.1 = prefix) seen with
      | Some (_, (_, previous)) =>
          source_entries rule (S index) raws seen entries
            (addWarning "source_ip_duplicate" rule (SourceDuplicateDetail index previous) c)
      | None =>
          source_entries rule (S index) raws ((prefix, index) :: seen) (entries ++ [(index, prefix)]) c
      end
    end
  end.

Definition covers_entry (candidate covering : nat * Prefix) : bool :=
  negb (bool_decide (candidate.1 = covering.1))
  && (Netip.BitLen (pfx_addr candidate.2) =? Netip.BitLen (pfx_addr covering.2))
  && (pfx_bits covering.2 <? pfx_bits candidate.2)
  && Netip.Contains covering.2 (pfx_addr candidate.2).

Definition checkSourceIPPolicy (rule : Rule) (c : checker) : checker :=
  let '(entries, c) := source_entries (RuleID rule) 0 (SourceIPs rule) [] [] c in
  foldl (λ c candidate,
    match list_find (λ covering, covers_entry candidate covering = true) entries with
    | Some (_, covering) =>
        addWarning "source_ip_redundant" (RuleID rule)
          (SourceRedundantDetail candidate.1 covering.1) c
    | None => c
    end) c entries.

Definition checkEndpointConflict (ep : endpoint) (c : checker) : checker :=
  let c := match index_conflict (ck_endpoints c) ep with
           | Some existing => addError "listen_conflict" (ep_RuleID ep) (ConflictDetail ep existing) c
           | None => c
           end in
  {| ck_seen := ck_seen c; ck_endpoints := index_add ep (ck_endpoints c); ck_items := ck_items c;
     ck_errors := ck_errors c; ck_warnings := ck_warnings c |}.

(** [strings.ContainsAny(domain, " \t\r\n/")]. *)
Definition bad_domain_char (x : ascii) : bool :=
  let n := nat_of_ascii x in (n =? 32)%nat || (n =? 9)%nat || (n =? 13)%nat || (n =? 10)%nat || (n =? 47)%nat.

Definition checkHTTPSDomains (rule : Rule) (c : checker) : checker :=
  snd (foldl (λ '(seen, c) raw,
    let domain := ToLower (TrimSpace raw) in
    if bool_decide (domain = "") then (seen, addError "https_domain" (RuleID rule) (DomainDetail raw) c)
    else if existsb bad_domain_char (to_list domain) then
      (seen, addError "https_domain" (RuleID rule) (DomainDetail raw) c)
    else
      ({[ domain ]} ∪ seen,
       if bool_decide (domain ∈ seen) then addWarning "https_domain" (RuleID rule) (DomainDetail domain) c else c))
    ((∅ : gset string), c) (Domains rule)).

(** *** Forwarding loops *)

Record flowNode := { fn_Network : string; fn_Addr : string; fn_Port : Z }.
#[export] Instance flowNode_eq_dec : EqDecision flowNode.
Proof. solve_decision. Defined.
#[export] Instance flowNode_countable : Countable flowNode.
Proof.
  refine (inj_countable' (λ n, (fn_Network n, fn_Addr n, fn_Port n))
    (λ '(a, b, c), {| fn_Network := a; fn_Addr := b; fn_Port := c |}) _).
  by intros [].
Defined.

Record loopRule := { lr_ruleID : string; lr_target : flowNode }.

Inductive loopVisitState := loopUnvisited | loopOnPath | loopDone.
#[export] Instance loopVisitState_eq_dec : EqDecision loopVisitState.
Proof. solve_decision. Defined.

Record loopDetector := {
  ld_state : gmap flowNode loopVisitState;
  ld_pathNodes : list flowNode;
  ld_pathRules : list loopRule;
  ld_reported : gset string;
  ld_checker : checker;
}.

Section detector.
Context (byNode : gmap flowNode (list loopRule)).

Definition rules_at (n : flowNode) : list loopRule := default [] (byNode !! n).
Definition state_of (n : flowNode) (d : loopDetector) : loopVisitState := default loopUnvisited (ld_state d !! n).

Definition servingListener (target : flowNode) : list flowNode :=
  if bool_decide (rules_at target ≠ []) then [target]
  else
    let wildcard := {| fn_Network := fn_Network target; fn_Addr := ""; fn_Port := fn_Port target |} in
    if bool_decide (rules_at wildcard ≠ []) then [wildcard] else [].

Fixpoint index_of (entry : flowNode) (nodes : list flowNode) : nat :=
  match nodes with
  | [] => 0
  | n :: nodes => if decide (n = entry) then 0 else S (index_of entry nodes)
  end.

(** The position of [entry] on the path, 0 when it is not there. *)
Definition path_start (entry : flowNode) (nodes : list flowNode) : nat :=
  if decide (entry ∈ nodes) then index_of entry nodes else 0.

Fixpoint blame (rules : list loopRule) (reported : gset string) (blamed : list string)
    : gset string * list string :=
  match rules with
  | [] => (reported, blamed)
  | r :: rules =>
      if decide (lr_ruleID r ∈ reported) then blame rules reported blamed
      else blame rules ({[ lr_ruleID r ]} ∪ reported) (blamed ++ [lr_ruleID r])
  end.

Definition reportCycle (entry : flowNode) (d : loopDetector) : loopDetector :=
  let suffix := drop (path_start entry (ld_pathNodes d)) (ld_pathRules d) in
  let '(reported, blamed) := blame suffix (ld_reported d) [] in
  let chain := lr_ruleID <$> suffix in
  let chain := chain ++ take 1 chain in
  {| ld_state := ld_state d; ld_pathNodes := ld_pathNodes d; ld_pathRules := ld_pathRules d;
     ld_reported := reported;
     ld_checker := foldl (λ c id, addError "forwarding_loop" id (LoopDetail chain) c) (ld_checker d) blamed |}.

Definition set_state (n : flowNode) (s : loopVisitState) (d : loopDetector) : loopDetector := {|
  ld_state := <[n := s]> (ld_state d); ld_pathNodes := ld_pathNodes d; ld_pathRules := ld_pathRules d;
  ld_reported := ld_reported d; ld_checker := ld_checker d |}.
Definition set_path (nodes : list flowNode) (rules : list loopRule) (d : loopDetector) : loopDetector := {|
  ld_state := ld_state d; ld_pathNodes := nodes; ld_pathRules := rules;
  ld_reported := ld_reported d; ld_checker := ld_checker d |}.

Definition follow (visit : flowNode → loopDetector → loopDetector) (d : loopDetector) (listener : flowNode)
    : loopDetector :=
  match state_of listener d with
  | loopOnPath => reportCycle listener d
  | loopUnvisited => visit listener d
  | loopDone => d
  end.

Definition visit_rule (visit : flowNode → loopDetector → loopDetector) (d : loopDetector) (rule : loopRule)
    : loopDetector :=
  let d := set_path (ld_pathNodes d) (ld_pathRules d ++ [rule]) d in
  let d := foldl (follow visit) d (servingListener (lr_target rule)) in
  set_path (ld_pathNodes d) (take (length (ld_pathRules d) - 1) (ld_pathRules d)) d.

(** [fuel] bounds the depth of the recursion; the number of nodes is enough. *)
Fixpoint visit (fuel : nat) (node : flowNode) (d : loopDetector) : loopDetector :=
  match fuel with
  | O => d
  | S fuel =>
      if decide (state_of node d = loopUnvisited) then
        let d := set_state node loopOnPath d in
        let d := set_path (ld_pathNodes d ++ [node]) (ld_pathRules d) d in
        let d := foldl (visit_rule (visit fuel)) d (rules_at node) in
        let d := set_path (take (length (ld_pathNodes d) - 1) (ld_pathNodes d)) (ld_pathRules d) d in
        set_state node loopDone d
      else d
  end.

(** The map range: [order] lists the nodes in the order Go happened to choose. *)
Definition visit_all (order : list flowNode) (d : loopDetector) : loopDetector :=
  foldl (λ d n, visit (S (size byNode)) n d) d order.
End detector.

Section precheck.
Context `{!TzDatabase, !Probe}.

Definition add_flow (byNode : gmap flowNode (list loopRule)) (rawRule : Rule)
    : gmap flowNode (list loopRule) :=
  let rule := Standardize rawRule in
  if negb (Enabled rule) || negb (is_ok (Validate rule)) then byNode
  else match forwardedNetworks (Proto rule) with
  | None => byNode
  | Some networks =>
      foldl (λ m network,
        let node := {| fn_Network := network; fn_Addr := normalizeAddr (ListenAddr rule);
                       fn_Port := ListenPort rule |} in
        let flow := {| lr_ruleID := RuleID rule;
                       lr_target := {| fn_Network := network; fn_Addr := normalizeAddr (TargetAddr rule);
                                       fn_Port := TargetPort rule |} |} in
        <[node := default [] (m !! node) ++ [flow]]> m) byNode networks
  end.

Definition flow_graph (rules : list Rule) : gmap flowNode (list loopRule) := foldl add_flow ∅ rules.

Definition new_detector (c : checker) : loopDetector := {|
  ld_state := ∅; ld_pathNodes := []; ld_pathRules := []; ld_reported := ∅; ld_checker := c |}.

Definition checkForwardingLoops (order : list flowNode) (rules : list Rule) (c : checker) : checker :=
  let byNode := flow_graph rules in
  if bool_decide (byNode = ∅) then c
  else ld_checker (visit_all byNode order (new_detector c)).

(** *** Rules *)

Definition checkBind (ep : endpoint) (c : checker) : checker :=
  if bool_decide (ep_Network ep = "tcp") || bool_decide (ep_Network ep = "udp") then
    match bind_error (ep_Network ep) (ep_Addr ep) (ep_Port ep) with
    | Some e => addError "listen_bind" (ep_RuleID ep) (BindDetail ep e) c
    | None => c
    end
  else c.

Definition checkTargetResolve (rule : Rule) (c : checker) : checker :=
  let resolve network :=
    match resolve_error network (TargetAddr rule) (TargetPort rule) with
    | Some e => addError "target_resolve" (RuleID rule)
                  (ResolveDetail (TargetAddr rule) (TargetPort rule) e) c
    | None => c
    end in
  if bool_decide (Proto rule = ProtocolHTTP) then c
  else if bool_decide (Proto rule = ProtocolUDP) then resolve "udp"
  else resolve "tcp".

Definition mark_seen (id : string) (c : checker) : checker :=
  if bool_decide (id = "") then c
  else {| ck_seen := {[ id ]} ∪ ck_seen c; ck_endpoints := ck_endpoints c; ck_items := ck_items c;
          ck_errors := ck_errors c; ck_warnings := ck_warnings c |}.

Definition check_endpoint (opts : Options) (running : gset (string * string * Z * string)) (rule : Rule)
    (c : checker) (ep : endpoint) : checker :=
  let c := checkEndpointConflict ep c in
  if CheckBind opts && Enabled rule && negb (bool_decide (runningKey ep ∈ running))
  then checkBind ep c else c.

(** The part of the loop body after a rule has validated, lines 152-171. *)
Definition check_valid_rule (opts : Options) (running : gset (string * string * Z * string))
    (rule : Rule) (c : checker) : checker :=
  let c := checkSourceIPPolicy rule c in
  let c := if (0 <? ListenPort rule) && (ListenPort rule <? 1024) && Enabled rule
           then addWarning "privileged_port" (RuleID rule) (PrivilegedDetail (ListenPort rule)) c else c in
  let c := if bool_decide (Proto rule = ProtocolHTTPS) then checkHTTPSDomains rule c else c in
  let c := foldl (check_endpoint opts running rule) c (endpointsForRule rule) in
  if CheckTargetResolve opts && Enabled rule then checkTargetResolve rule c else c.

Definition check_rule (opts : Options) (running : gset (string * string * Z * string))
    (c : checker) (rawRule : Rule) : checker :=
  let rule := Standardize rawRule in
  let c := if bool_decide (RuleID rule ∈ ck_seen c) && negb (bool_decide (RuleID rule = ""))
           then addError "duplicate_rule_id" (RuleID rule) DuplicateIdDetail c else c in
  let c := mark_seen (RuleID rule) c in
  match Validate rule with
  | Err e => addError "rule_validate" (RuleID rule) (InvalidDetail e) c
  | Ok _ => check_valid_rule opts running rule c
  end.

Definition checkRules (opts : Options) (running : gset (string * string * Z * string))
    (rules : list Rule) (c : checker) : checker := foldl (check_rule opts running) c rules.

(** *** The ACME listener *)

Definition checkACME (opts : Options) (cfg : ConfigView) (c : checker) : checker :=
  let hasHTTPS := existsb (λ r, bool_decide (Proto (Standardize r) = ProtocolHTTPS) && Enabled r) (cv_Rules cfg) in
  let addr := TrimSpace (cv_AcmeHTTP01Addr cfg) in
  if negb hasHTTPS || bool_decide (addr = "") then c
  else match SplitHostPort addr with
  | None => addError "acme_http01_addr" "" (AcmeAddrDetail addr) c
  | Some (host, portValue) =>
      match ParseInt portValue with
      | None => addError "acme_http01_addr" "" (AcmeAddrDetail addr) c
      | Some port =>
          if port_out_of_range port then addError "acme_http01_addr" "" (AcmeAddrDetail addr) c
          else
            let ep := {| ep_Network := "tcp"; ep_Addr := normalizeAddr host; ep_Port := port; ep_RuleID := "" |} in
            let c := match index_conflict (ck_endpoints c) ep with
                     | Some existing => addError "acme_http01_addr" "" (AcmeConflictDetail addr existing) c
                     | None => c
                     end in
            if CheckBind opts then checkBind ep c else c
      end
  end.

(** *** The whole check *)

Record Result := {
  OK : bool; ErrorCount : Z; WarningCount : Z; CheckedRules : nat; ResultItems : list Item
}.

Definition empty_checker : checker :=
  {| ck_seen := ∅; ck_endpoints := ∅; ck_items := []; ck_errors := 0; ck_warnings := 0 |}.

Definition CheckConfig (order : list flowNode) (cfg : ConfigView) (running : list Rule) (opts : Options) : Result :=
  let c := checkUnknownFields (cv_UnknownFields cfg) empty_checker in
  let c := checkRules opts (indexRunningEndpoints running) (cv_Rules cfg) c in
  let c := checkForwardingLoops order (cv_Rules cfg) c in
  let c := checkACME opts cfg c in
  {| OK := ck_errors c =? 0; ErrorCount := ck_errors c; WarningCount := ck_warnings c;
     CheckedRules := length (cv_Rules cfg); ResultItems := ck_items c |}.
End precheck.
