(* ===== verification/LoopSpec.v ===== *)
(** * The forwarding-loop detector (precheck/precheck.go, lines 371-546)

    The listeners of a configuration form a graph: a listener leads to the
    listener that serves the target of one of its rules.  The depth-first search
    of the detector adds an error iff this graph has a cycle, and when no two
    rules share a listener the rules it blames are exactly those on a cycle,
    whatever order the map of listeners is ranged over. *)

From S2P Require Import Prelude GoStrings Calendar NetIP SourceIP Limits Rule Precheck.
From stdpp Require Import relations.
Local Open Scope Z_scope.

Section graph.
Context (byNode : gmap flowNode (list loopRule)).

Definition edge (n m : flowNode) : Prop :=
  ∃ r, r ∈ rules_at byNode n ∧ m ∈ servingListener byNode (lr_target r).

(** A rule on a cycle: the listener it leads to comes back to its own. *)
Definition on_cycle (n : flowNode) (r : loopRule) : Prop :=
  r ∈ rules_at byNode n ∧ ∃ m, m ∈ servingListener byNode (lr_target r) ∧ rtc edge m n.

Definition cycle_id (id : string) : Prop := ∃ n r, on_cycle n r ∧ lr_ruleID r = id.

(** No two rules share a listener. *)
Definition one_rule : Prop := ∀ n, (length (rules_at byNode n) ≤ 1)%nat.

Lemma servingListener_unique t m m' :
  m ∈ servingListener byNode t → m' ∈ servingListener byNode t → m = m'.
Proof.
  unfold servingListener. repeat case_bool_decide; rewrite ?list_elem_of_singleton; try congruence.
  by intros ?%elem_of_nil.
Qed.

Lemma servingListener_rules t m : m ∈ servingListener byNode t → rules_at byNode m ≠ [].
Proof.
  unfold servingListener. repeat case_bool_decide; rewrite ?list_elem_of_singleton; try congruence.
  by intros ?%elem_of_nil.
Qed.

Lemma rules_at_dom n : rules_at byNode n ≠ [] → n ∈ dom byNode.
Proof. unfold rules_at. rewrite elem_of_dom. by destruct (byNode !! n). Qed.

Lemma one_rule_eq n r r' :
  one_rule → r ∈ rules_at byNode n → r' ∈ rules_at byNode n → r = r'.
Proof.
  intros H. specialize (H n). destruct (rules_at byNode n) as [|x [|]]; simpl in *; [|..|lia].
  - by intros ?%elem_of_nil.
  - rewrite !list_elem_of_singleton. congruence.
Qed.

(** ** Paths of listeners and rules *)

Definition first_of (steps : list (flowNode * loopRule)) (m : flowNode) : flowNode :=
  match steps with [] => m | (n, _) :: _ => n end.

(** [steps] leads to the listener [m]. *)
Fixpoint chain (steps : list (flowNode * loopRule)) (m : flowNode) : Prop :=
  match steps with
  | [] => True
  | (n, r) :: steps =>
      r ∈ rules_at byNode n ∧ first_of steps m ∈ servingListener byNode (lr_target r) ∧ chain steps m
  end.

Lemma chain_snoc steps n r m :
  chain steps n → r ∈ rules_at byNode n → m ∈ servingListener byNode (lr_target r) →
  chain (steps ++ [(n, r)]) m.
Proof.
  induction steps as [|[k rk] steps IH]; simpl; [done|]. intros (Hr & Hs & Hc) ??.
  split; [done|]. split; [by destruct steps as [|[]]|auto].
Qed.

Lemma chain_app_r l1 l2 m : chain (l1 ++ l2) m → chain l2 m.
Proof. induction l1 as [|[] l1 IH]; simpl; [done|]. intros (_ & _ & ?); auto. Qed.

Lemma chain_rtc steps m : chain steps m → rtc edge (first_of steps m) m.
Proof.
  induction steps as [|[n r] steps IH]; simpl; [by intros|]. intros (Hr & Hs & Hc).
  eapply rtc_l; [by exists r|auto].
Qed.

Lemma chain_reach steps m n r : chain steps m → (n, r) ∈ steps → rtc edge (first_of steps m) n.
Proof.
  induction steps as [|[k rk] steps IH]; simpl; [by intros _ ?%elem_of_nil|].
  intros (Hr & Hs & Hc) [[= -> ->]|Hin]%elem_of_cons; [done|].
  eapply rtc_l; [by exists rk|auto].
Qed.

(** Every rule of a closed chain is on a cycle. *)
Lemma chain_cycle steps m n r :
  chain steps m → first_of steps m = m → (n, r) ∈ steps → on_cycle n r.
Proof.
  intros Hc Hm Hin. pose proof (chain_reach _ _ _ _ Hc Hin) as Hreach. rewrite Hm in Hreach.
  apply list_elem_of_split in Hin as (l1 & l2 & ->). apply chain_app_r in Hc.
  destruct Hc as (Hr & Hs & Hc). split; [done|]. eexists; split; [exact Hs|].
  etrans; [by apply chain_rtc|done].
Qed.

(** With one rule per listener, a closed chain holds everything reachable. *)
Lemma chain_closed steps m k :
  one_rule → steps ≠ [] → chain steps m → first_of steps m = m → rtc edge m k →
  ∃ r, (k, r) ∈ steps.
Proof.
  intros Hone Hne Hc Hm Hk. assert (∃ r, (m, r) ∈ steps) as Hstart.
  { destruct steps as [|[n r] steps]; [done|]. simpl in Hm; subst. exists r. by constructor. }
  assert (∀ k k', (∃ r, (k, r) ∈ steps) → edge k k' → ∃ r, (k', r) ∈ steps) as Hstep.
  { clear k Hk. intros k k' (r & Hin) (r' & Hr' & Hk').
    apply list_elem_of_split in Hin as (l1 & l2 & ->). pose proof (chain_app_r _ _ _ Hc) as Hc'.
    destruct Hc' as (Hr & Hs & Hc'). rewrite (one_rule_eq _ _ _ Hone Hr' Hr) in Hk'.
    rewrite (servingListener_unique _ _ _ Hk' Hs).
    destruct l2 as [|[n2 r2] l2]; simpl; [done|]. exists r2. set_solver. }
  revert Hstart. clear Hm Hc. induction Hk as [|k k' k'' Hk _ IH]; [done|]. intros H.
  by apply IH, (Hstep k).
Qed.

(** ** What the detector has established *)

(** The path of the search: listeners and the rules followed out of them. *)
Definition on_path (steps : list (flowNode * loopRule)) (d : loopDetector) : Prop :=
  ld_pathNodes d = fst <$> steps ∧ ld_pathRules d = snd <$> steps.

(** Everything reachable from [m] has its rules reported. *)
Definition covered (m : flowNode) (d : loopDetector) : Prop :=
  ∀ k r, rtc edge m k → r ∈ rules_at byNode k → lr_ruleID r ∈ ld_reported d.

Definition loop_item (it : Item) : Prop :=
  i_Severity it = SeverityError ∧ i_Check it = "forwarding_loop".

Context (c0 : checker).

Record settled_items (d : loopDetector) (its : list Item) : Prop := {
  si_items : ck_items (ld_checker d) = ck_items c0 ++ its;
  si_errors : ck_errors (ld_checker d) = ck_errors c0 + Z.of_nat (length its);
  si_frame : ck_warnings (ld_checker d) = ck_warnings c0 ∧
             ck_seen (ld_checker d) = ck_seen c0 ∧ ck_endpoints (ld_checker d) = ck_endpoints c0;
  si_kind : Forall loop_item its;
  si_once : NoDup (i_RuleID <$> its);
  si_reported : ∀ id, id ∈ i_RuleID <$> its ↔ id ∈ ld_reported d;
}.

Record det_inv (d : loopDetector) : Prop := {
  di_grey : ∀ n, state_of n d = loopOnPath ↔ n ∈ ld_pathNodes d;
  di_nodup : NoDup (ld_pathNodes d);
  di_dom : ∀ n, n ∈ ld_pathNodes d → n ∈ dom byNode;
  di_acc : ld_reported d = ∅ → ∀ n, state_of n d = loopDone → Acc (flip edge) n;
  di_sound : ∀ id, id ∈ ld_reported d → cycle_id id;
  di_complete : one_rule → ∀ n, state_of n d = loopDone → tc edge n n → covered n d;
  di_items : ∃ its, settled_items d its;
}.

Record extends (d d' : loopDetector) : Prop := {
  ex_nodes : ld_pathNodes d' = ld_pathNodes d;
  ex_rules : ld_pathRules d' = ld_pathRules d;
  ex_done : ∀ n, state_of n d = loopDone → state_of n d' = loopDone;
  ex_reported : ld_reported d ⊆ ld_reported d';
}.

Lemma extends_refl d : extends d d.
Proof. by split. Qed.

Lemma extends_trans d1 d2 d3 : extends d1 d2 → extends d2 d3 → extends d1 d3.
Proof. intros [] []. split; [congruence|congruence|auto|set_solver]. Qed.

Lemma extends_path steps d d' : extends d d' → on_path steps d → on_path steps d'.
Proof. intros [] []. split; congruence. Qed.

(** A listener the search is finished with, or found on a reported cycle. *)
Definition handled (m : flowNode) (d : loopDetector) : Prop :=
  state_of m d = loopDone ∨ (ld_reported d ≠ ∅ ∧ (one_rule → covered m d)).

Lemma covered_mono m d d' : ld_reported d ⊆ ld_reported d' → covered m d → covered m d'.
Proof. intros Hs Hc k r Hk Hr. by eapply Hs, Hc. Qed.

Lemma handled_mono m d d' : extends d d' → handled m d → handled m d'.
Proof.
  intros He [Hd|[Hr Hc]]; [left; by apply He|right]. pose proof (ex_reported _ _ He).
  split; [set_solver|]. intros Ho. by apply (covered_mono m d), Hc.
Qed.

(** ** Reporting a cycle *)

Lemma blame_spec rules rep acc rep' bl :
  blame rules rep acc = (rep', bl) →
  ∃ new, bl = acc ++ new ∧ NoDup new ∧ (∀ id, id ∈ new → id ∉ rep) ∧
    (∀ id, id ∈ rep' ↔ id ∈ rep ∨ id ∈ lr_ruleID <$> rules) ∧
    (∀ id, id ∈ rep' ↔ id ∈ rep ∨ id ∈ new).
Proof.
  revert rep acc. induction rules as [|r rules IH]; simpl; intros rep acc.
  - intros [= <- <-]. exists []. rewrite app_nil_r. split_and!; [done|constructor|set_solver..].
  - case_decide as Hr.
    + intros (new & -> & Hn & Hd & H1 & H2)%IH. exists new. split_and!; [done..| |done].
      intros id. rewrite H1. set_solver.
    + intros (new & -> & Hn & Hd & H1 & H2)%IH. exists (lr_ruleID r :: new).
      rewrite <-app_assoc. split_and!; [done| | | |].
      * constructor; [|done]. intros Hin%Hd. set_solver.
      * intros id [->|Hin]%elem_of_cons; [done|]. apply Hd in Hin. set_solver.
      * intros id. rewrite H1. set_solver.
      * intros id. rewrite H2. set_solver.
Qed.

Lemma fold_errors chain ids c :
  let c' := foldl (λ c id, addError "forwarding_loop" id (LoopDetail chain) c) c ids in
  ∃ its, ck_items c' = ck_items c ++ its ∧ ck_errors c' = ck_errors c + Z.of_nat (length its) ∧
    ck_warnings c' = ck_warnings c ∧ ck_seen c' = ck_seen c ∧ ck_endpoints c' = ck_endpoints c ∧
    Forall loop_item its ∧ i_RuleID <$> its = ids.
Proof.
  cbv zeta. revert c. induction ids as [|id ids IH]; intros c.
  - exists []. simpl. rewrite app_nil_r. split_and!; done || lia.
  - cbn [foldl]. destruct (IH (addError "forwarding_loop" id (LoopDetail chain) c))
      as (its & Hi & He & Hw & Hs & Hp & Hk & Hid).
    eexists (_ :: its). cbn [fmap list_fmap]. rewrite Hi, He, Hw, Hs, Hp. simpl.
    rewrite <-app_assoc. split_and!; [done|lia|done..| |by rewrite <-Hid].
    by constructor.
Qed.

Lemma path_start_split (l1 : list (flowNode * loopRule)) m r l2 :
  m ∉ fst <$> l1 → path_start m (fst <$> l1 ++ (m, r) :: l2) = length l1.
Proof.
  intros Hm. unfold path_start. rewrite decide_True.
  2: { rewrite fmap_app. apply elem_of_app. right. by constructor. }
  revert Hm. induction l1 as [|[k rk] l1 IH]; simpl; intros Hm.
  - by rewrite decide_True.
  - apply not_elem_of_cons in Hm as [? ?]. rewrite decide_False by done. f_equal. by apply IH.
Qed.

Lemma drop_suffix (l1 l2 : list (flowNode * loopRule)) :
  drop (length l1) (snd <$> l1 ++ l2) = snd <$> l2.
Proof. rewrite fmap_app. by rewrite drop_app_length' by (by rewrite length_fmap). Qed.

Lemma first_occurrence m (l : list (flowNode * loopRule)) :
  m ∈ fst <$> l → ∃ l1 r l2, l = l1 ++ (m, r) :: l2 ∧ m ∉ fst <$> l1.
Proof.
  induction l as [|[k rk] l IH]; [by intros ?%elem_of_nil|]. intros H.
  destruct (decide (k = m)) as [->|Hne].
  - exists [], rk, l. split; [done|]. apply not_elem_of_nil.
  - apply elem_of_cons in H as [->|H]; [done|]. destruct (IH H) as (l1 & r & l2 & -> & Hn).
    exists ((k, rk) :: l1), r, l2. split; [done|]. by apply not_elem_of_cons.
Qed.

Lemma reportCycle_spec steps d m :
  det_inv d → on_path steps d → chain steps m → m ∈ fst <$> steps →
  det_inv (reportCycle m d) ∧ extends d (reportCycle m d) ∧ handled m (reportCycle m d).
Proof.
  intros Hinv [Hn Hr] Hc Hm. destruct (first_occurrence _ _ Hm) as (l1 & r & l2 & -> & Hfirst).
  apply chain_app_r in Hc. unfold reportCycle. rewrite Hn, Hr, path_start_split, drop_suffix by done.
  set (cyc := (m, r) :: l2) in *.
  destruct (blame (snd <$> cyc) (ld_reported d) []) as [rep bl] eqn:Eb.
  destruct (blame_spec _ _ _ _ _ Eb) as (new & -> & Hnew & Hfresh & Hrep & Hrep'). clear Eb.
  cbn [app]. cbv zeta. set (names := lr_ruleID <$> _) in *. set (full := names ++ take 1 names).
  destruct (fold_errors full new (ld_checker d)) as (its' & Hi & He & Hw & Hs & Hp & Hk & Hid).
  destruct Hinv as [Hg Hnd Hdom Hacc Hsound Hcomp (its & [Hi0 He0 (Hw0 & Hs0 & Hp0) Hk0 Ho0 Hr0])].
  rewrite Hn in Hg, Hnd, Hdom.
  assert (ld_reported d ⊆ rep) as Hsub by (intros id ?; apply Hrep; auto).
  assert (lr_ruleID r ∈ rep) as Hin by (apply Hrep; right; by constructor).
  split; [split|split].
  - exact Hg.
  - exact Hnd.
  - exact Hdom.
  - simpl. intros Hz. set_solver.
  - simpl. intros id [Hid'|Hid']%Hrep; [auto|].
    apply list_elem_of_fmap in Hid' as (x & -> & Hx).
    apply list_elem_of_fmap in Hx as ([k rk] & -> & Hx). exists k, rk. split; [|done].
    by apply (chain_cycle cyc m).
  - simpl. intros Hone n Hd Ht. apply (covered_mono n d); [done|]. by apply Hcomp.
  - exists (its ++ its'). split; simpl; [|..|intros id].
    + by rewrite Hi, Hi0, app_assoc.
    + rewrite He, He0, length_app. lia.
    + by rewrite Hw, Hs, Hp.
    + by apply Forall_app.
    + rewrite fmap_app, Hid. apply NoDup_app. split; [done|]. split; [|done].
      intros id Hid0 Hin'. apply (Hfresh id Hin'), Hr0, Hid0.
    + rewrite fmap_app, elem_of_app, Hid, Hr0. symmetry. apply Hrep'.
  - by split.
  - right. simpl. split; [set_solver|]. intros Hone k rk Hk' Hrk.
    destruct (chain_closed cyc m k Hone) as (rk' & Hin'); [done..|].
    pose proof (chain_cycle cyc m k rk' Hc eq_refl Hin') as [Hrk' _].
    rewrite (one_rule_eq _ _ _ Hone Hrk Hrk'). simpl. apply Hrep. right.
    apply list_elem_of_fmap. exists rk'. split; [done|]. apply list_elem_of_fmap.
    by exists (k, rk').
Qed.

(** ** The search *)

(** What [visit] does when it is called at the end of a path. *)
Definition visit_ok (steps : list (flowNode * loopRule)) (go : flowNode → loopDetector → loopDetector) : Prop :=
  ∀ n d, det_inv d → on_path steps d → chain steps n → rules_at byNode n ≠ [] →
    det_inv (go n d) ∧ extends d (go n d) ∧
    (state_of n d ≠ loopOnPath → state_of n (go n d) = loopDone).

Lemma follow_spec steps go d m :
  visit_ok steps go → det_inv d → on_path steps d → chain steps m → rules_at byNode m ≠ [] →
  det_inv (follow go d m) ∧ extends d (follow go d m) ∧ handled m (follow go d m).
Proof.
  intros Hgo Hinv Hp Hc Hne. unfold follow. destruct (state_of m d) eqn:Es.
  - destruct (Hgo m d) as (? & ? & Hd); [done..|]. split_and!; [done..|].
    left. apply Hd. by rewrite Es.
  - apply (reportCycle_spec steps); [done..|]. destruct Hp as [<- _]. by apply (di_grey d).
  - split_and!; [done|apply extends_refl|by left].
Qed.

(** Changing the rules of the path only. *)
Lemma set_path_inv nodes rules d : nodes = ld_pathNodes d → det_inv d → det_inv (set_path nodes rules d).
Proof.
  intros -> [Hg Hnd Hdom Hacc Hsound Hcomp (its & [])]. split; try done. by exists its.
Qed.

Lemma take_pred_snoc {A} (l : list A) x : take (length (l ++ [x]) - 1) (l ++ [x]) = l.
Proof. rewrite length_app. simpl. rewrite take_app_length'; [done|lia]. Qed.

Lemma visit_rule_spec steps n go d r :
  (∀ r', visit_ok (steps ++ [(n, r')]) go) → chain steps n → r ∈ rules_at byNode n →
  det_inv d → ld_pathNodes d = (fst <$> steps) ++ [n] → ld_pathRules d = snd <$> steps →
  let d' := visit_rule byNode go d r in
  det_inv d' ∧ extends d d' ∧ ∀ m, m ∈ servingListener byNode (lr_target r) → handled m d'.
Proof.
  intros Hgo Hc Hr Hinv Hn Hp. cbv zeta. unfold visit_rule.
  set (d1 := set_path (ld_pathNodes d) (ld_pathRules d ++ [r]) d).
  assert (det_inv d1) as H1 by (by apply set_path_inv).
  assert (on_path (steps ++ [(n, r)]) d1) as Hp1.
  { split; simpl; rewrite fmap_app; simpl; [done|by rewrite Hp]. }
  assert (∃ d2, foldl (follow go) d1 (servingListener byNode (lr_target r)) = d2 ∧ det_inv d2 ∧
            extends d1 d2 ∧ ∀ m, m ∈ servingListener byNode (lr_target r) → handled m d2)
    as (d2 & -> & H2 & Hx & Hh).
  { pose proof (servingListener_unique (lr_target r)) as Hu.
    pose proof (servingListener_rules (lr_target r)) as Hne.
    assert (∀ m, m ∈ servingListener byNode (lr_target r) → chain (steps ++ [(n, r)]) m) as Hch
      by (intros; by apply chain_snoc).
    assert (length (servingListener byNode (lr_target r)) ≤ 1)%nat as Hl
      by (unfold servingListener; repeat case_bool_decide; simpl; lia).
    destruct (servingListener byNode (lr_target r)) as [|m [|]]; simpl in *; [| |lia].
    - exists d1. split_and!; [done|done|apply extends_refl|by intros ? ?%elem_of_nil].
    - eexists; split; [done|]. destruct (follow_spec (steps ++ [(n, r)]) go d1 m) as (? & ? & ?);
        [by auto|done|done|apply Hch; by constructor|apply Hne; by constructor|].
      split_and!; [done..|]. by intros ? ->%list_elem_of_singleton. }
  assert (ld_pathRules d2 = ld_pathRules d ++ [r]) as Er2 by (by rewrite (ex_rules _ _ Hx)).
  assert (ld_pathNodes d2 = ld_pathNodes d) as En2 by (by rewrite (ex_nodes _ _ Hx)).
  rewrite Er2, take_pred_snoc. split_and!.
  - by apply set_path_inv.
  - destruct Hx. by split.
  - intros m Hm. apply Hh, Hm.
Qed.

Lemma path_bounded d : det_inv d → (length (ld_pathNodes d) ≤ size (dom byNode))%nat.
Proof.
  intros Hinv. rewrite <-(size_list_to_set (C := gset flowNode)) by apply Hinv.
  apply subseteq_size. intros n. rewrite elem_of_list_to_set. apply Hinv.
Qed.

Lemma state_of_insert n s d k :
  state_of k (set_state n s d) = if decide (k = n) then s else state_of k d.
Proof.
  unfold state_of, set_state. simpl. case_decide as E.
  - subst. by rewrite lookup_insert_eq.
  - by rewrite lookup_insert_ne.
Qed.

(** Entering a listener. *)
Lemma enter_inv n d :
  det_inv d → n ∈ dom byNode → state_of n d = loopUnvisited →
  det_inv (set_path (ld_pathNodes d ++ [n]) (ld_pathRules d) (set_state n loopOnPath d)).
Proof.
  intros [Hg Hnd Hdom Hacc Hsound Hcomp (its & Hi)] Hn Hs.
  assert (n ∉ ld_pathNodes d) as Hnew by (rewrite <-Hg, Hs; done).
  assert (∀ k, state_of k (set_path (ld_pathNodes d ++ [n]) (ld_pathRules d) (set_state n loopOnPath d)) =
    if decide (k = n) then loopOnPath else state_of k d) as Hst by (intros k; apply state_of_insert).
  split.
  - intros k. rewrite Hst. simpl. rewrite elem_of_app, list_elem_of_singleton, <-Hg.
    case_decide; naive_solver.
  - simpl. apply NoDup_app. split; [done|]. split; [|apply NoDup_singleton].
    by intros k Hk ->%list_elem_of_singleton.
  - simpl. intros k [Hk| ->%list_elem_of_singleton]%elem_of_app; auto.
  - intros Hz k. rewrite Hst. case_decide; [done|]. by apply Hacc.
  - exact Hsound.
  - intros Hone k. rewrite Hst. case_decide; [done|]. by apply Hcomp.
  - exists its. by destruct Hi.
Qed.

(** Leaving a listener whose successors are all handled. *)
Lemma leave_inv n nodes d :
  det_inv d → ld_pathNodes d = nodes ++ [n] →
  (∀ m, edge n m → handled m d) →
  det_inv (set_state n loopDone (set_path nodes (ld_pathRules d) d)).
Proof.
  intros [Hg Hnd Hdom Hacc Hsound Hcomp (its & Hi)] Hn Hsucc.
  assert (∀ k, state_of k (set_state n loopDone (set_path nodes (ld_pathRules d) d)) =
    if decide (k = n) then loopDone else state_of k d) as Hst
    by (intros k; rewrite state_of_insert; reflexivity).
  rewrite Hn in Hg, Hnd, Hdom. apply NoDup_app in Hnd as (Hnd & Hfresh & _). split.
  - intros k. rewrite Hst. simpl. specialize (Hg k). rewrite elem_of_app, list_elem_of_singleton in Hg.
    case_decide as Ek; [|naive_solver]. subst. split; [done|]. intros Hk.
    destruct (Hfresh n Hk). by constructor.
  - exact Hnd.
  - intros k Hk. apply Hdom, elem_of_app. by left.
  - simpl. intros Hz k. rewrite Hst. case_decide as Ek; [|by apply Hacc]. intros _. subst k.
    constructor. intros m Hm. destruct (Hsucc m Hm) as [Hd|[Hr _]]; [by apply Hacc|done].
  - exact Hsound.
  - intros Hone k. rewrite Hst. case_decide as Ek; [|by apply Hcomp]. subst k.
    intros _ Hcyc.
    assert (∀ m, edge n m → rtc edge m n → covered m d) as Hall.
    { intros m Hm Hback. destruct (Hsucc m Hm) as [Hd|[_ Hc]]; [|by apply Hc].
      apply Hcomp; [done..|]. by eapply tc_rtc_l, tc_once. }
    intros k rk Hk Hrk. simpl. assert (∃ m, edge n m ∧ rtc edge m n) as (m & Hm & Hback).
    { inversion Hcyc as [? ? Hm|? m ? Hm Hback]; subst; [by exists n|].
      exists m. split; [done|]. by apply tc_rtc. }
    apply (Hall m Hm Hback k rk); [|done]. by etrans.
  - exists its. by destruct Hi.
Qed.

(** Following every rule of a listener handles every successor. *)
Lemma visit_rules_spec steps n go rules d :
  (∀ r', visit_ok (steps ++ [(n, r')]) go) → chain steps n → Forall (λ r, r ∈ rules_at byNode n) rules →
  det_inv d → ld_pathNodes d = (fst <$> steps) ++ [n] → ld_pathRules d = snd <$> steps →
  let d' := foldl (visit_rule byNode go) d rules in
  det_inv d' ∧ extends d d' ∧
  ∀ r m, r ∈ rules → m ∈ servingListener byNode (lr_target r) → handled m d'.
Proof.
  intros Hgo Hc Hall. cbv zeta. revert d. induction Hall as [|r rules Hr _ IH]; intros d Hinv Hn Hp.
  - split_and!; [done|apply extends_refl|]. by intros r m ?%elem_of_nil.
  - cbn [foldl]. destruct (visit_rule_spec steps n go d r) as (Hinv1 & Hx1 & Hh1); [done..|].
    destruct (IH (visit_rule byNode go d r)) as (Hinv2 & Hx2 & Hh2);
      [done|by rewrite (ex_nodes _ _ Hx1)|by rewrite (ex_rules _ _ Hx1)|].
    split_and!; [done|by eapply extends_trans|]. intros r' m [->|Hin]%elem_of_cons Hm; [|by eapply Hh2].
    eapply handled_mono; [exact Hx2|]. by apply Hh1.
Qed.

Lemma visit_spec fuel steps :
  (size (dom byNode) < fuel + length steps)%nat → visit_ok steps (visit byNode fuel).
Proof.
  revert steps. induction fuel as [|fuel IH]; intros steps Hfuel n d Hinv [Hn Hp] Hc Hne.
  { pose proof (path_bounded d Hinv) as Hb. rewrite Hn, length_fmap in Hb. lia. }
  cbn [visit]. case_decide as Hs.
  2: { split_and!; [done|apply extends_refl|]. intros ?. by destruct (state_of n d). }
  assert (n ∈ dom byNode) as Hdom by (by apply rules_at_dom).
  set (d1 := set_path (ld_pathNodes d ++ [n]) (ld_pathRules d) (set_state n loopOnPath d)).
  assert (det_inv d1) as Hinv1 by (by apply enter_inv).
  change (set_path (ld_pathNodes (set_state n loopOnPath d) ++ [n])
            (ld_pathRules (set_state n loopOnPath d)) (set_state n loopOnPath d)) with d1.
  destruct (visit_rules_spec steps n (visit byNode fuel) (rules_at byNode n) d1) as (Hinv2 & Hx & Hh).
  { intros r'. apply IH. rewrite length_app. simpl. lia. }
  { done. } { by apply Forall_forall. } { done. } { simpl. by rewrite Hn. } { done. }
  set (d2 := foldl (visit_rule byNode (visit byNode fuel)) d1 (rules_at byNode n)) in *.
  assert (ld_pathNodes d2 = ld_pathNodes d ++ [n]) as En by (by rewrite (ex_nodes _ _ Hx)).
  rewrite En, take_pred_snoc.
  assert (det_inv (set_state n loopDone (set_path (ld_pathNodes d) (ld_pathRules d2) d2))) as Hinv3.
  { apply leave_inv; [done..|]. intros m (r & Hr & Hm). by apply (Hh r). }
  split; [done|]. split.
  - split; [done|exact (ex_rules _ _ Hx)| |apply (ex_reported _ _ Hx)].
    intros k Hk. rewrite state_of_insert. case_decide as Ek; [done|].
    apply (ex_done _ _ Hx). rewrite <-Hk. unfold d1.
    etrans; [apply (state_of_insert n loopOnPath d k)|]. by rewrite decide_False.
  - intros _. rewrite state_of_insert. by rewrite decide_True.
Qed.

(** Ranging over all listeners. *)
Lemma visit_all_spec order d :
  Forall (λ n, rules_at byNode n ≠ []) order → det_inv d → on_path [] d →
  let d' := visit_all byNode order d in
  det_inv d' ∧ extends d d' ∧ ∀ n, n ∈ order → state_of n d' = loopDone.
Proof.
  intros Hall. cbv zeta. unfold visit_all. revert d.
  induction Hall as [|n order Hn _ IH]; intros d Hinv Hp.
  - split_and!; [done|apply extends_refl|]. by intros n ?%elem_of_nil.
  - cbn [foldl].
    assert (visit_ok [] (visit byNode (S (size byNode)))) as Hgo.
    { apply visit_spec. rewrite size_dom. simpl. lia. }
    destruct (Hgo n d) as (Hinv1 & Hx1 & Hd1); [done..|].
    destruct (IH (visit byNode (S (size byNode)) n d)) as (Hinv2 & Hx2 & Hd2);
      [done|by apply (extends_path [] d)|].
    split_and!; [done|by eapply extends_trans|]. intros k [->|Hk]%elem_of_cons; [|by apply Hd2].
    apply (ex_done _ _ Hx2), Hd1. destruct Hp as [Hp _]. simpl in Hp.
    rewrite (di_grey d Hinv), Hp. apply not_elem_of_nil.
Qed.
End graph.

(** ** The graph of a configuration *)

Section flow.
Context `{!TzDatabase}.
Implicit Types (rules : list Rule) (order : list flowNode) (c : checker).

(** [order] is some order of Go's map range over the listeners. *)
Definition ranges order rules : Prop := order ≡ₚ elements (dom (flow_graph rules)).

Lemma add_flow_nonempty m rule :
  map_Forall (λ _ l, l ≠ []) m → map_Forall (λ _ l, l ≠ []) (add_flow m rule).
Proof.
  intros Hm. unfold add_flow. case_match; [done|]. destruct (forwardedNetworks _) as [ns|]; [|done].
  revert m Hm. induction ns as [|n ns IH]; intros m Hm; [done|]. cbn [foldl].
  apply IH. apply map_Forall_insert_2; [|done]. by intros [_ ?]%app_nil.
Qed.

Lemma flow_graph_nonempty rules : map_Forall (λ _ l, l ≠ []) (flow_graph rules).
Proof.
  unfold flow_graph. assert (∀ m, map_Forall (λ _ l, l ≠ []) m →
    map_Forall (λ _ l, l ≠ []) (foldl add_flow m rules)) as Hfold.
  { induction rules as [|r rules IH]; intros m Hm; [done|]. by apply IH, add_flow_nonempty. }
  apply Hfold, map_Forall_empty.
Qed.

Lemma ranges_rules order rules :
  ranges order rules → Forall (λ n, rules_at (flow_graph rules) n ≠ []) order.
Proof.
  intros Ho. apply Forall_forall. intros n. rewrite Ho, elem_of_elements, elem_of_dom.
  intros [l Hl]. unfold rules_at. rewrite Hl. by apply (flow_graph_nonempty rules n).
Qed.

Lemma ranges_complete order rules n :
  ranges order rules → rules_at (flow_graph rules) n ≠ [] → n ∈ order.
Proof. intros Ho Hn. rewrite Ho, elem_of_elements. by apply rules_at_dom. Qed.

Lemma new_detector_inv byNode c : det_inv byNode c (new_detector c).
Proof.
  split.
  - intros n. split; [|by intros ?%elem_of_nil]. unfold state_of. simpl. by rewrite lookup_empty.
  - constructor.
  - by intros n ?%elem_of_nil.
  - intros _ n. unfold state_of. simpl. by rewrite lookup_empty.
  - intros id Hid. simpl in Hid. set_solver.
  - intros _ n. unfold state_of. simpl. by rewrite lookup_empty.
  - exists []. split; simpl; [by rewrite app_nil_r|lia|done|done|constructor|set_solver].
Qed.

(** What the search ends with. *)
Lemma checkForwardingLoops_spec order rules c :
  ranges order rules →
  ∃ its (reported : gset string), ck_items (checkForwardingLoops order rules c) = ck_items c ++ its ∧
    ck_errors (checkForwardingLoops order rules c) = ck_errors c + Z.of_nat (length its) ∧
    ck_warnings (checkForwardingLoops order rules c) = ck_warnings c ∧
    ck_endpoints (checkForwardingLoops order rules c) = ck_endpoints c ∧
    Forall loop_item its ∧ NoDup (i_RuleID <$> its) ∧
    (∀ id, id ∈ i_RuleID <$> its ↔ id ∈ reported) ∧
    (∀ id, id ∈ reported → cycle_id (flow_graph rules) id) ∧
    (reported = ∅ → ∀ n, Acc (flip (edge (flow_graph rules))) n) ∧
    (one_rule (flow_graph rules) → ∀ id, cycle_id (flow_graph rules) id → id ∈ reported).
Proof.
  intros Ho. unfold checkForwardingLoops. set (g := flow_graph rules) in *.
  destruct (visit_all_spec g c order (new_detector c)) as (Hinv & _ & Hd);
    [by apply ranges_rules|apply new_detector_inv|done|].
  set (d := visit_all g order (new_detector c)) in *.
  assert (∀ n, rules_at g n ≠ [] → state_of n d = loopDone) as Hdone
    by (intros n Hn; by apply Hd, ranges_complete with rules).
  assert (∃ its, settled_items c d its ∧ ck_items (if bool_decide (g = ∅) then c else ld_checker d) =
    ck_items (ld_checker d) ∧ ck_errors (if bool_decide (g = ∅) then c else ld_checker d) =
    ck_errors (ld_checker d) ∧ ck_warnings (if bool_decide (g = ∅) then c else ld_checker d) =
    ck_warnings (ld_checker d) ∧ ck_endpoints (if bool_decide (g = ∅) then c else ld_checker d) =
    ck_endpoints (ld_checker d)) as (its & [Hi He (Hw & _ & Hp) Hk Hnd Hr] & -> & -> & -> & ->).
  { destruct (di_items g c d Hinv) as (its & Hi). exists its. split; [done|].
    case_bool_decide as Hg; [|done]. unfold d. rewrite Hg.
    assert (order = []) as ->; [|done]. apply Permutation_nil_r. rewrite Ho. fold g. by rewrite Hg. }
  exists its, (ld_reported d). split_and!; [done..|apply Hinv| |].
  - intros Hz n. destruct (decide (rules_at g n = [])) as [Hn|Hn].
    + constructor. intros m (r & Hm & _). rewrite Hn in Hm. by apply elem_of_nil in Hm.
    + apply (di_acc g c d Hinv Hz). auto.
  - intros Hone id (n & r & (Hr' & m & Hm & Hback) & <-).
    assert (rules_at g n ≠ []) as Hn by (intros Hn; rewrite Hn in Hr'; by apply elem_of_nil in Hr').
    apply (di_complete g c d Hinv Hone n) with n; [auto| |done|done].
    eapply tc_rtc_r; [apply tc_once; by exists r|done].
Qed.

(** An error is added iff there is a cycle. *)
Lemma loop_error order rules c :
  ranges order rules →
  ck_errors c ≤ ck_errors (checkForwardingLoops order rules c) ∧
  (ck_errors (checkForwardingLoops order rules c) ≠ ck_errors c ↔
   ∃ n, tc (edge (flow_graph rules)) n n).
Proof.
  intros Ho. destruct (checkForwardingLoops_spec order rules c Ho)
    as (its & rep & _ & He & _ & _ & _ & _ & Hr & Hs & Hwf & _). rewrite He. split; [lia|]. split.
  - intros Hne. destruct its as [|it its]; [simpl in Hne; lia|].
    destruct (Hs (i_RuleID it)) as (n & r & (Hr' & m & Hm & Hback) & _).
    { apply Hr. by constructor. }
    exists n. eapply tc_rtc_r; [apply tc_once; by exists r|done].
  - intros (n & Hn) Heq. assert (its = []) as -> by (destruct its; simpl in *; [done|lia]).
    assert (rep = ∅) as Hz by (apply leibniz_equiv; intros id; rewrite <-Hr; simpl; set_solver).
    specialize (Hwf Hz n). clear -Hn Hwf. induction Hwf as [n _ IH].
    inversion Hn as [? ? Hm|? m ? Hm Hback]; subst; [by apply (IH n)|].
    apply (IH m Hm). by eapply tc_r.
Qed.

(** C28: the detector adds an error exactly when the listeners of the
    configuration form a cycle, in whatever order the map of listeners is ranged
    over. *)
Theorem loop_error_iff_cycle order rules c :
  ranges order rules →
  ck_errors (checkForwardingLoops order rules c) ≠ ck_errors c ↔
  ∃ n, tc (edge (flow_graph rules)) n n.
Proof. apply loop_error. Qed.

(** when no two rules share a listener, the rules blamed are exactly the
    rules on a cycle, each blamed once, in whatever order the listeners are
    visited. *)
Theorem blamed_rules_are_the_cycles order rules c :
  ranges order rules → one_rule (flow_graph rules) →
  ∃ its, ck_items (checkForwardingLoops order rules c) = ck_items c ++ its ∧
    Forall loop_item its ∧ NoDup (i_RuleID <$> its) ∧
    ∀ id, id ∈ i_RuleID <$> its ↔ cycle_id (flow_graph rules) id.
Proof.
  intros Ho Hone. destruct (checkForwardingLoops_spec order rules c Ho)
    as (its & rep & Hi & _ & _ & _ & Hk & Hnd & Hr & Hs & _ & Hc).
  exists its. split_and!; [done..|]. intros id. rewrite Hr. split; [apply Hs|by apply Hc].
Qed.
End flow.

(** Two rules that forward to each other, and one that does not. *)
Definition loop_rule (id : string) (port target : Z) : Rule := {|
  RuleID := id; Name := id; Proto := "tcp"; ListenAddr := "127.0.0.1"; ListenPort := port;
  TargetAddr := "127.0.0.1"; TargetPort := target; Enabled := true; SpeedLimit := 0; Bandwidth := None;
  Quota := None; MaxConn := 0; IdleTimeout := 0; SourceIPMode := ""; SourceIPs := []; Domains := [];
  Remark := ""; Revision := 1; CreatedTime := 0; UpdatedTime := 0 |}.
Definition loop_rules : list Rule :=
  [loop_rule "a" 7001 7002; loop_rule "b" 7002 7001; loop_rule "c" 7003 7001].
Definition loop_order : list flowNode := elements (dom (@flow_graph utc_database loop_rules)).

Lemma loop_error_iff_cycle_witness :
  ∃ n, tc (edge (@flow_graph utc_database loop_rules)) n n.
Proof.
  apply (@loop_error_iff_cycle utc_database loop_order loop_rules empty_checker); [exact (Permutation_refl _)|].
  apply Z.eqb_neq. by vm_compute.
Defined.

Lemma blamed_rules_are_the_cycles_witness :
  cycle_id (@flow_graph utc_database loop_rules) "a".
Proof.
  destruct (@blamed_rules_are_the_cycles utc_database loop_order loop_rules empty_checker)
    as (its & Hi & _ & _ & Hids); [exact (Permutation_refl _)| |].
  - intros n. unfold rules_at. destruct (flow_graph loop_rules !! n) as [l|] eqn:E; [|simpl; lia].
    assert (map_Forall (λ _ l, length l ≤ 1)%nat (@flow_graph utc_database loop_rules)) as Hall
      by (refine (bool_decide_unpack _ _); by vm_compute).
    exact (Hall n l E).
  - apply Hids. simpl in Hi. rewrite <-Hi. refine (bool_decide_unpack _ _). by vm_compute.
Defined.
