(* ===== verification/PrecheckSpec.v ===== *)
(** * What the precheck guarantees (precheck/precheck.go)

    The endpoint index finds a conflict exactly when two endpoints overlap; a
    configuration that passes is accepted by the manager's validation; the loop
    detector blames exactly the rules on a cycle of listeners. *)

From S2P Require Import Prelude GoStrings Calendar NetIP SourceIP Limits Rule Stats Quota Manager.
From S2P Require Import ManagerSpec Precheck LoopSpec.

(** ** The endpoint index *)

Definition normalized (e : endpoint) : endpoint :=
  {| ep_Network := ep_Network e; ep_Addr := normalizeAddr (ep_Addr e); ep_Port := ep_Port e;
     ep_RuleID := ep_RuleID e |}.

(** Two endpoints that cannot both be bound: same network and port, and the same
    address or a wildcard. *)
Definition overlap (e e' : endpoint) : Prop :=
  ep_Network e = ep_Network e' ∧ ep_Port e = ep_Port e' ∧
  (normalizeAddr (ep_Addr e) = "" ∨ normalizeAddr (ep_Addr e') = "" ∨
   normalizeAddr (ep_Addr e) = normalizeAddr (ep_Addr e')).

Definition build_index (eps : list endpoint) : endpointIndex :=
  foldl (λ index e, index_add e index) ∅ eps.

Definition in_group (g : string * Z) (e : endpoint) : Prop := (ep_Network e, ep_Port e) = g.
#[export] Instance in_group_dec g e : Decision (in_group g e).
Proof. unfold in_group. apply _. Defined.

(** The endpoints of a group, normalized, in the order they were added. *)
Definition group_of (g : string * Z) (eps : list endpoint) : list endpoint :=
  filter (in_group g) (normalized <$> eps).
Definition at_addr (a : string) (eps : list endpoint) : list endpoint :=
  filter (λ e, ep_Addr e = a) eps.

Record bucket_ok (eps : list endpoint) (b : endpointBucket) : Prop := {
  bo_first : bk_first b = head eps;
  bo_wildcard : bk_wildcard b = head (at_addr "" eps);
  bo_byAddr : ∀ a, a ≠ "" → bk_byAddr b !! a = head (at_addr a eps);
}.

Lemma head_snoc {A} (l : list A) x :
  head (l ++ [x]) = match head l with None => Some x | h => h end.
Proof. by destruct l. Qed.

Lemma at_addr_snoc a eps e :
  at_addr a (eps ++ [e]) = if decide (ep_Addr e = a) then at_addr a eps ++ [e] else at_addr a eps.
Proof.
  unfold at_addr. rewrite filter_app. destruct (decide (ep_Addr e = a)) as [E|E].
  - by rewrite (filter_cons_True _ e []).
  - by rewrite (filter_cons_False _ e []); [rewrite app_nil_r|].
Qed.

Lemma group_of_snoc g eps e :
  group_of g (eps ++ [e]) =
    if decide (in_group g (normalized e)) then group_of g eps ++ [normalized e] else group_of g eps.
Proof.
  unfold group_of. rewrite fmap_app, filter_app. simpl fmap.
  destruct (decide (in_group g (normalized e))) as [E|E].
  - by rewrite (filter_cons_True _ (normalized e) []).
  - by rewrite (filter_cons_False _ (normalized e) []); [rewrite app_nil_r|].
Qed.

Lemma bucket_add eps b e :
  bucket_ok eps b →
  bucket_ok (eps ++ [e])
    (let first := match bk_first b with None => Some e | f => f end in
     if bool_decide (ep_Addr e = "") then
       {| bk_first := first; bk_wildcard := match bk_wildcard b with None => Some e | w => w end;
          bk_byAddr := bk_byAddr b |}
     else
       {| bk_first := first; bk_wildcard := bk_wildcard b;
          bk_byAddr := match bk_byAddr b !! ep_Addr e with
                       | None => <[ep_Addr e := e]> (bk_byAddr b)
                       | Some _ => bk_byAddr b
                       end |}).
Proof.
  intros [Hf Hw Ha]. cbv zeta. case_bool_decide as E; split; simpl; rewrite ?at_addr_snoc, ?head_snoc.
  - by rewrite <-Hf.
  - rewrite decide_True by done. by rewrite head_snoc, <-Hw.
  - intros a Hne. rewrite at_addr_snoc, decide_False by congruence. by apply Ha.
  - by rewrite <-Hf.
  - by rewrite decide_False.
  - intros a Hne. rewrite at_addr_snoc. destruct (decide (ep_Addr e = a)) as [<-|Hna].
    + rewrite head_snoc, <-Ha by done. destruct (bk_byAddr b !! ep_Addr e) eqn:Eb; [done|].
      apply lookup_insert_eq.
    + rewrite <-Ha by done. destruct (bk_byAddr b !! ep_Addr e); [done|]. by apply lookup_insert_ne.
Qed.

Lemma normalizeAddr_idemp a : normalizeAddr (normalizeAddr a) = normalizeAddr a.
Proof.
  unfold normalizeAddr. set (n := TrimSpace (ToLower a)).
  destruct (bool_decide (n = "0.0.0.0") || bool_decide (n = "::")) eqn:E; [by vm_compute|].
  assert (TrimSpace (ToLower n) = n) as Hn.
  { unfold n. by rewrite ToLower_TrimSpace_ToLower, TrimSpace_idemp. }
  by rewrite Hn, E.
Qed.

Lemma normalized_addr e : normalizeAddr (ep_Addr (normalized e)) = ep_Addr (normalized e).
Proof. apply normalizeAddr_idemp. Qed.

Definition index_ok (eps : list endpoint) (index : endpointIndex) : Prop :=
  ∀ g, match index !! g with
       | None => group_of g eps = []
       | Some b => bucket_ok (group_of g eps) b
       end.

Lemma empty_bucket_ok : bucket_ok [] empty_bucket.
Proof. split; [done|done|]. intros a _. apply lookup_empty. Qed.

Lemma index_add_ok eps index e : index_ok eps index → index_ok (eps ++ [e]) (index_add e index).
Proof.
  intros Hok g. rewrite group_of_snoc. unfold index_ok, index_add, endpointIndex in *. cbv zeta.
  cbn [ep_Network ep_Addr ep_Port].
  set (g' := (ep_Network e, ep_Port e)).
  destruct (decide (in_group g (normalized e))) as [E|E].
  - assert (g' = g) as <- by exact E. rewrite lookup_insert_eq.
    apply (bucket_add _ _ (normalized e)). specialize (Hok g').
    destruct (index !! g') as [b|]; simpl; [exact Hok|]. rewrite Hok. apply empty_bucket_ok.
  - rewrite lookup_insert_ne by exact E. apply Hok.
Qed.

Lemma build_index_ok eps : index_ok eps (build_index eps).
Proof.
  induction eps as [|e eps IH] using rev_ind.
  - intros g. unfold build_index, endpointIndex. simpl. by rewrite lookup_empty.
  - unfold build_index. rewrite foldl_app. apply index_add_ok, IH.
Qed.

Lemma elem_of_group_of g eps n :
  n ∈ group_of g eps ↔ ∃ e, e ∈ eps ∧ n = normalized e ∧ in_group g e.
Proof.
  unfold group_of. rewrite list_elem_of_filter, list_elem_of_fmap. split.
  - intros (Hg & e & -> & He). by exists e.
  - intros (e & He & -> & Hg). split; [done|]. by exists e.
Qed.

Lemma head_elem_of {A} (l : list A) x : head l = Some x → x ∈ l.
Proof. destruct l; [done|]. intros [= ->]. by constructor. Qed.

Lemma head_at_addr a eps n : head (at_addr a eps) = Some n → n ∈ eps ∧ ep_Addr n = a.
Proof. intros H%head_elem_of. apply list_elem_of_filter in H as [? ?]. done. Qed.

Lemma head_at_addr_None a eps n : head (at_addr a eps) = None → n ∈ eps → ep_Addr n ≠ a.
Proof.
  intros H Hn Ha. assert (n ∈ at_addr a eps) as Hin by (by apply list_elem_of_filter).
  destruct (at_addr a eps); [by apply elem_of_nil in Hin|done].
Qed.

Lemma index_conflict_sound eps index e n :
  index_ok eps index → index_conflict index e = Some n →
  ∃ e', e' ∈ eps ∧ overlap e e' ∧ n = normalized e'.
Proof.
  intros Hok. unfold index_ok, index_conflict, endpointIndex in *. specialize (Hok (ep_Network e, ep_Port e)).
  destruct (index !! (ep_Network e, ep_Port e)) as [b|]; [|done].
  destruct Hok as [Hf Hw Ha]. set (g := (ep_Network e, ep_Port e)) in *.
  assert (∀ n, n ∈ group_of g eps → (normalizeAddr (ep_Addr e) = "" ∨ ep_Addr n = "" ∨
            ep_Addr n = normalizeAddr (ep_Addr e)) →
          ∃ e', e' ∈ eps ∧ overlap e e' ∧ n = normalized e') as Hend.
  { intros m Hm Hcase. apply elem_of_group_of in Hm as (e' & He' & -> & Hg).
    injection Hg as Hn Hp. exists e'. split; [done|]. split; [|done].
    simpl in Hcase. repeat split; [by rewrite Hn|by rewrite Hp|]. naive_solver. }
  case_bool_decide as Hz.
  - rewrite Hf. intros H%head_elem_of. apply Hend; auto.
  - destruct (bk_wildcard b) eqn:Ew.
    + intros [= <-]. symmetry in Hw. apply head_at_addr in Hw as [? ?]. apply Hend; auto.
    + rewrite Ha by done. intros [? ?]%head_at_addr. apply Hend; auto.
Qed.

Lemma index_conflict_complete eps index e e' :
  index_ok eps index → e' ∈ eps → overlap e e' → is_Some (index_conflict index e).
Proof.
  intros Hok He' (Hn & Hp & Ho). unfold index_ok, index_conflict, endpointIndex in *. specialize (Hok (ep_Network e, ep_Port e)).
  set (g := (ep_Network e, ep_Port e)) in *.
  assert (normalized e' ∈ group_of g eps) as Hin.
  { apply elem_of_group_of. exists e'. unfold in_group, g. by rewrite Hn, Hp. }
  destruct (index !! g) as [b|]; [|rewrite Hok in Hin; by apply elem_of_nil in Hin].
  destruct Hok as [Hf Hw Ha]. case_bool_decide as Hz.
  - rewrite Hf. by destruct (group_of g eps); [apply elem_of_nil in Hin|].
  - destruct (bk_wildcard b) eqn:Ew; [done|]. rewrite Ha by done.
    symmetry in Hw. destruct Ho as [?|[Ho|Ho]]; [done| |].
    + by destruct (head_at_addr_None _ _ _ Hw Hin).
    + destruct (head (at_addr (normalizeAddr (ep_Addr e)) _)) eqn:Eh; [done|].
      by destruct (head_at_addr_None _ _ _ Eh Hin).
Qed.

(** the grouped index answers exactly like a search through every
    endpoint added before: it reports a conflict iff an earlier endpoint has the
    same network and port and the same address or a wildcard on either side, and
    what it reports is such an endpoint. *)
Theorem endpoint_index_exact (earlier : list endpoint) (ep : endpoint) :
  (is_Some (index_conflict (build_index earlier) ep) ↔ ∃ e, e ∈ earlier ∧ overlap ep e) ∧
  (∀ n, index_conflict (build_index earlier) ep = Some n →
     ∃ e, e ∈ earlier ∧ overlap ep e ∧ n = normalized e).
Proof.
  pose proof (build_index_ok earlier) as Hok. split; [split|].
  - intros [n Hn]. destruct (index_conflict_sound _ _ _ _ Hok Hn) as (e & ? & ? & _). eauto.
  - intros (e & He & Ho). by apply (index_conflict_complete earlier _ ep e).
  - intros n. by apply index_conflict_sound.
Qed.

(** ** Counting errors *)

(** A part of the check that leaves the tables alone, and reports an error
    unless [P]. *)
Record reports (P : Prop) (c c' : checker) : Prop := {
  rp_le : ck_errors c ≤ ck_errors c';
  rp_iff : ck_errors c' = ck_errors c ↔ P;
  rp_seen : ck_seen c' = ck_seen c;
  rp_endpoints : ck_endpoints c' = ck_endpoints c;
}.

Lemma reports_refl c : reports True c c.
Proof. by split. Qed.

Lemma reports_warning check id d c : reports True c (addWarning check id d c).
Proof. by split. Qed.

Lemma reports_error check id d c : reports False c (addError check id d c).
Proof. split; simpl; [lia|lia|done..]. Qed.

Lemma reports_iff P Q c c' : P ↔ Q → reports P c c' → reports Q c c'.
Proof. intros HPQ [? Hi ? ?]. split; [done|by rewrite Hi|done..]. Qed.

Lemma reports_trans P Q c1 c2 c3 : reports P c1 c2 → reports Q c2 c3 → reports (P ∧ Q) c1 c3.
Proof.
  intros [? H1 ? ?] [? H2 ? ?]. split; [lia| |congruence..]. rewrite <-H1, <-H2. lia.
Qed.

Lemma reports_silent c1 c2 c3 P : reports True c1 c2 → reports P c2 c3 → reports P c1 c3.
Proof. intros H1 H2. eapply reports_iff; [|by eapply reports_trans]. naive_solver. Qed.

Lemma reports_fold {X} (P : X → Prop) (f : checker → X → checker) l c :
  (∀ c x, reports (P x) c (f c x)) → reports (Forall P l) c (foldl f c l).
Proof.
  intros Hf. revert c. induction l as [|x l IH]; intros c; cbn [foldl].
  - eapply reports_iff; [|apply reports_refl]. by rewrite Forall_nil.
  - eapply reports_iff; [|by eapply reports_trans]. by rewrite Forall_cons.
Qed.

Lemma reports_fold_silent {X} (f : checker → X → checker) l c :
  (∀ c x, reports True c (f c x)) → reports True c (foldl f c l).
Proof.
  intros Hf. eapply reports_iff; [|by apply (reports_fold (λ _, True))].
  split; [done|]. intros _. by apply Forall_true.
Qed.

Create HintDb precheck discriminated.
#[export] Hint Resolve reports_refl reports_warning reports_error : precheck.

Lemma source_entries_silent rule i raws seen entries c :
  reports True c (source_entries rule i raws seen entries c).2.
Proof.
  revert i seen entries c. induction raws as [|raw raws IH]; intros i seen entries c; simpl.
  - apply reports_refl.
  - destruct (ParseSourceIPPrefix raw) as [p|e]; [|by apply IH].
    destruct (list_find _ seen) as [[? [? previous]]|]; [|by apply IH].
    eapply reports_silent; [apply reports_warning|apply IH].
Qed.

Lemma checkSourceIPPolicy_silent rule c : reports True c (checkSourceIPPolicy rule c).
Proof.
  unfold checkSourceIPPolicy.
  pose proof (source_entries_silent (RuleID rule) 0 (SourceIPs rule) [] [] c) as H.
  destruct (source_entries _ _ _ _ _ _) as [entries c']. eapply reports_silent; [exact H|].
  apply reports_fold_silent. intros c1 x. destruct (list_find _ entries) as [[? ?]|];
    auto with precheck.
Qed.

(** Whatever a domain list holds, checking it only adds to the report. *)
Lemma checkHTTPSDomains_grows rule c : ∃ P, reports P c (checkHTTPSDomains rule c).
Proof.
  unfold checkHTTPSDomains. match goal with |- context [foldl ?f] => set (step := f) end.
  generalize (∅ : gset string). intros s. revert s c.
  induction (Domains rule) as [|raw l IH]; intros s c; [by exists True; apply reports_refl|].
  cbn [foldl]. assert (∃ s' c' P, step (s, c) raw = (s', c') ∧ reports P c c') as (s' & c' & P & -> & HP).
  { unfold step. cbv zeta. repeat case_match; do 3 eexists; split; done || auto with precheck. }
  destruct (IH s' c') as [Q HQ]. exists (P ∧ Q). by eapply reports_trans.
Qed.

(** ** What a clean report means *)

(** No endpoint overlaps one of [eps], nor one before it. *)
Fixpoint fresh (eps l : list endpoint) : Prop :=
  match l with
  | [] => True
  | e :: l => ¬ (∃ e', e' ∈ eps ∧ overlap e e') ∧ fresh (eps ++ [e]) l
  end.

(** No two endpoints of a list overlap. *)
Definition separate (l : list endpoint) : Prop :=
  ∀ i j e e', l !! i = Some e → l !! j = Some e' → (i < j)%nat → ¬ overlap e' e.

Lemma fresh_app eps l1 l2 : fresh eps (l1 ++ l2) ↔ fresh eps l1 ∧ fresh (eps ++ l1) l2.
Proof.
  revert eps. induction l1 as [|e l1 IH]; intros eps; simpl; [rewrite app_nil_r; naive_solver|].
  rewrite IH, <-app_assoc. simpl. naive_solver.
Qed.

Lemma fresh_separate l : fresh [] l ↔ separate l.
Proof.
  induction l as [|x l IH] using rev_ind; [by split; [intros _ ????|]|].
  rewrite fresh_app, IH. simpl. split.
  - intros (Hs & Hx & _) i j e e' Hi Hj Hij.
    apply lookup_snoc_Some in Hj as [[Hlj Hj]|[-> <-]].
    + rewrite lookup_app_l in Hi by lia. by apply (Hs i j).
    + rewrite lookup_app_l in Hi by lia. intros Ho. apply Hx. exists e.
      split; [by apply list_elem_of_lookup_2 in Hi|done].
  - intros Hs. split_and!; [| |done].
    + intros i j e e' Hi Hj. by apply (Hs i j); apply lookup_app_l_Some.
    + intros (e & He & Ho). apply list_elem_of_lookup in He as [i Hi].
      refine (Hs i (length l) e x _ _ _ Ho).
      * by apply lookup_app_l_Some.
      * by rewrite lookup_app_r, Nat.sub_diag by lia.
      * by apply lookup_lt_Some in Hi.
Qed.

Section report.
Context {tzdb : TzDatabase} {probe : Probe}.
Context (opts : Options) (running : list Rule).
Notation owned := (indexRunningEndpoints running).

(** The operating system lets the endpoint be bound. *)
Definition bindable (ep : endpoint) : Prop :=
  ep_Network ep = "tcp" ∨ ep_Network ep = "udp" →
  bind_error (ep_Network ep) (ep_Addr ep) (ep_Port ep) = None.

Definition resolvable (rule : Rule) : Prop :=
  Proto rule ≠ ProtocolHTTP →
  resolve_error (if bool_decide (Proto rule = ProtocolUDP) then "udp" else "tcp")
    (TargetAddr rule) (TargetPort rule) = None.

(** The probes of a rule succeed, as far as the options ask for them. *)
Definition endpoint_clean (rule : Rule) (ep : endpoint) : Prop :=
  CheckBind opts = true → Enabled rule = true → runningKey ep ∉ owned → bindable ep.
Definition rule_clean (rule : Rule) : Prop :=
  Forall (endpoint_clean rule) (endpointsForRule rule) ∧
  (CheckTargetResolve opts = true → Enabled rule = true → resolvable rule).

(** A probe that answers with an optional error. *)
Lemma probe_reports (answer : option string) check id (d : string → Detail) (P : Prop) c :
  (P ↔ answer = None) →
  reports P c (match answer with Some e => addError check id (d e) c | None => c end).
Proof.
  intros HP. destruct answer as [e|].
  - eapply reports_iff; [|apply reports_error]. rewrite HP. done.
  - eapply reports_iff; [|apply reports_refl]. by rewrite HP.
Qed.

Lemma checkBind_reports ep c : reports (bindable ep) c (checkBind ep c).
Proof.
  unfold checkBind, bindable.
  destruct (bool_decide (ep_Network ep = "tcp") || bool_decide (ep_Network ep = "udp")) eqn:E.
  - apply probe_reports. rewrite orb_true_iff, !bool_decide_eq_true in E. naive_solver.
  - eapply reports_iff; [|apply reports_refl]. bool_to_prop. split; [|done]. by intros _ [].
Qed.

Lemma checkTargetResolve_reports rule c : reports (resolvable rule) c (checkTargetResolve rule c).
Proof.
  unfold checkTargetResolve, resolvable.
  destruct (bool_decide (Proto rule = ProtocolHTTP)) eqn:E1;
    [|destruct (bool_decide (Proto rule = ProtocolUDP)) eqn:E2]; bool_to_prop.
  - eapply reports_iff; [|apply reports_refl]. done.
  - apply probe_reports. naive_solver.
  - apply probe_reports. naive_solver.
Qed.

(** A part of the check that adds the endpoints [l]. *)
Definition adds (P : Prop) (eps l : list endpoint) (c c' : checker) : Prop :=
  ck_errors c ≤ ck_errors c' ∧ (ck_errors c' = ck_errors c ↔ P) ∧ ck_seen c' = ck_seen c ∧
  index_ok (eps ++ l) (ck_endpoints c').

Lemma conflict_adds eps ep c :
  index_ok eps (ck_endpoints c) →
  adds (¬ ∃ e, e ∈ eps ∧ overlap ep e) eps [ep] c (checkEndpointConflict ep c).
Proof.
  intros Hok. unfold checkEndpointConflict, adds.
  pose proof (index_conflict_complete eps (ck_endpoints c) ep) as Hcomp.
  destruct (index_conflict (ck_endpoints c) ep) as [n|] eqn:E; simpl.
  - apply (index_conflict_sound eps) in E as (e & He & Ho & _); [|done].
    split_and!; [lia| |done|by apply index_add_ok]. split; [lia|]. intros []. eauto.
  - split_and!; [done| |done|by apply index_add_ok]. split; [|done]. intros _ (e & He & Ho).
    by destruct (Hcomp e Hok He Ho).
Qed.

Lemma check_endpoint_adds rule eps ep c :
  index_ok eps (ck_endpoints c) →
  adds ((¬ ∃ e, e ∈ eps ∧ overlap ep e) ∧ endpoint_clean rule ep) eps [ep] c
    (check_endpoint opts owned rule c ep).
Proof.
  intros Hok. destruct (conflict_adds eps ep c Hok) as (Hle & Hiff & Hs & Hix).
  unfold check_endpoint, adds, endpoint_clean. set (c1 := checkEndpointConflict ep c) in *. cbv zeta.
  destruct (CheckBind opts), (Enabled rule); cbn [andb]; try (split_and!; naive_solver).
  case_bool_decide as Hr; cbn [negb]; [split_and!; naive_solver|].
  destruct (checkBind_reports ep c1) as [Hle' Hiff' Hs' He']. rewrite Hs', He'.
  split_and!; [lia| |done|done]. rewrite <-Hiff. split.
  - intros Heq. assert (ck_errors c1 = ck_errors c) by lia. split; [done|].
    intros _ _ _. apply Hiff'. lia.
  - intros [H1 H2]. rewrite <-H1. apply Hiff'. auto.
Qed.

Lemma check_endpoints_adds rule l eps c :
  index_ok eps (ck_endpoints c) →
  adds (fresh eps l ∧ Forall (endpoint_clean rule) l) eps l c (foldl (check_endpoint opts owned rule) c l).
Proof.
  revert eps c. induction l as [|ep l IH]; intros eps c Hok; cbn [foldl fresh].
  - unfold adds. rewrite app_nil_r, Forall_nil. by split_and!.
  - destruct (check_endpoint_adds rule eps ep c Hok) as (Hle & Hiff & Hs & Hix).
    destruct (IH (eps ++ [ep]) _ Hix) as (Hle' & Hiff' & Hs' & Hix').
    rewrite <-app_assoc in Hix'. split_and!; [lia| |congruence|done].
    rewrite Forall_cons. split.
    + intros Heq. assert (ck_errors (check_endpoint opts owned rule c ep) = ck_errors c) as H1 by lia.
      pose proof (proj1 Hiff H1).
      assert (fresh (eps ++ [ep]) l ∧ Forall (endpoint_clean rule) l) by (apply Hiff'; congruence).
      naive_solver.
    + intros ([H1 H2] & H3 & H4). rewrite <-(proj2 Hiff) by done. apply Hiff'. done.
Qed.

Lemma valid_rule raw :
  is_ok (Validate (Standardize raw)) = true →
  RuleID (Standardize raw) ≠ "" ∧ Proto (Standardize raw) ≠ ProtocolHTTPS.
Proof.
  rewrite Validate_wf, Standardize_Standardize. intros Hwf. split; [apply Hwf|].
  by destruct (wf_proto _ Hwf) as [->|[->| ->]].
Qed.

Lemma check_valid_rule_adds rule eps c :
  Proto rule ≠ ProtocolHTTPS → index_ok eps (ck_endpoints c) →
  adds (fresh eps (endpointsForRule rule) ∧ rule_clean rule) eps (endpointsForRule rule) c
    (check_valid_rule opts owned rule c).
Proof.
  intros Hp Hok. unfold check_valid_rule. rewrite (bool_decide_eq_false_2 _ Hp). cbv zeta.
  set (c2 := if _ && _ && _ then _ else _).
  assert (reports True c c2) as [Hle Hiff Hs He].
  { eapply reports_silent; [apply checkSourceIPPolicy_silent|]. unfold c2.
    destruct (_ && _ && _); auto with precheck. }
  clearbody c2. rewrite <-He in Hok.
  destruct (check_endpoints_adds rule (endpointsForRule rule) eps c2 Hok) as (Hle' & Hiff' & Hs' & Hix).
  set (c3 := foldl (check_endpoint opts owned rule) c2 (endpointsForRule rule)) in *.
  assert (reports (CheckTargetResolve opts = true → Enabled rule = true → resolvable rule) c3
    (if CheckTargetResolve opts && Enabled rule then checkTargetResolve rule c3 else c3))
    as [Hle4 Hiff4 Hs4 He4].
  { destruct (CheckTargetResolve opts), (Enabled rule); cbn [andb];
      eapply reports_iff; try apply reports_refl; try apply checkTargetResolve_reports; naive_solver. }
  set (c4 := if CheckTargetResolve opts && Enabled rule then checkTargetResolve rule c3 else c3) in *.
  unfold adds. rewrite He4, Hs4, Hs', Hs. split_and!; [lia| |done|done].
  assert (ck_errors c2 = ck_errors c) as H2 by (by apply Hiff). unfold rule_clean.
  rewrite (assoc (∧)), <-Hiff4, <-Hiff', <-H2. lia.
Qed.

(** What one rule contributes to the report. *)
Lemma check_rule_spec raw eps c :
  index_ok eps (ck_endpoints c) →
  let rule := Standardize raw in let c' := check_rule opts owned c raw in
  ck_errors c ≤ ck_errors c' ∧
  (ck_errors c' = ck_errors c ↔
     RuleID rule ∉ ck_seen c ∧ is_ok (Validate rule) = true ∧ fresh eps (endpointsForRule rule) ∧
     rule_clean rule) ∧
  ∃ eps', index_ok eps' (ck_endpoints c') ∧
    (is_ok (Validate rule) = true → eps' = eps ++ endpointsForRule rule ∧
       ck_seen c' = {[ RuleID rule ]} ∪ ck_seen c).
Proof.
  intros Hok. cbv zeta. unfold check_rule. pose proof (valid_rule raw) as Hval.
  set (rule := Standardize raw) in *. cbv zeta.
  set (c1 := if bool_decide (RuleID rule ∈ ck_seen c) && negb (bool_decide (RuleID rule = "")) then _ else c).
  assert (reports (RuleID rule ∈ ck_seen c → RuleID rule = "") c c1) as [Hle Hiff Hs He].
  { unfold c1. repeat case_bool_decide; simpl;
      (eapply reports_iff; [|apply reports_error]) || (eapply reports_iff; [|apply reports_refl]); naive_solver. }
  clearbody c1.
  assert (ck_errors (mark_seen (RuleID rule) c1) = ck_errors c1 ∧
          ck_endpoints (mark_seen (RuleID rule) c1) = ck_endpoints c1 ∧
          (RuleID rule ≠ "" → ck_seen (mark_seen (RuleID rule) c1) = {[ RuleID rule ]} ∪ ck_seen c1))
    as (Em & Pm & Sm).
  { unfold mark_seen. by case_bool_decide. }
  set (c2 := mark_seen (RuleID rule) c1) in *. clearbody c2.
  destruct (Validate rule) as [u|e] eqn:Ev; cbn [is_ok] in *.
  - destruct Hval as [Hid Hp]; [done|]. rewrite <-He, <-Pm in Hok.
    destruct (check_valid_rule_adds rule eps c2 Hp Hok) as (Hle' & Hiff' & Hs' & Hix').
    split; [lia|]. split; [|exists (eps ++ endpointsForRule rule); split; [done|]].
    + split.
      * intros Heq. assert (ck_errors c1 = ck_errors c) as H1 by lia.
        pose proof (proj1 Hiff H1) as Hdup.
        assert (fresh eps (endpointsForRule rule) ∧ rule_clean rule) as H2 by (apply Hiff'; lia).
        split_and!; [|done|apply H2..]. intros Hin. by apply Hid, Hdup.
      * intros (H1 & _ & H2). rewrite (proj2 Hiff'), Em by done. by apply Hiff.
    + intros _. split; [done|]. rewrite Hs', Sm, Hs; done.
  - simpl. split; [lia|]. split; [split; [lia|naive_solver]|]. exists eps.
    rewrite Pm, He. split; [done|]. intros H. discriminate H.
Qed.

Definition rules_valid (rules : list Rule) : Prop :=
  Forall (λ r, is_ok (Validate (Standardize r)) = true) rules.
Definition ids_of (rules : list Rule) : list string := (RuleID ∘ Standardize) <$> rules.
Definition endpoints_of (rules : list Rule) : list endpoint := rules ≫= (endpointsForRule ∘ Standardize).

Lemma checkRules_spec rules eps c :
  index_ok eps (ck_endpoints c) →
  let c' := checkRules opts owned rules c in
  ck_errors c ≤ ck_errors c' ∧
  (ck_errors c' = ck_errors c ↔
     rules_valid rules ∧ (NoDup (ids_of rules) ∧ ∀ id, id ∈ ids_of rules → id ∉ ck_seen c) ∧
     fresh eps (endpoints_of rules) ∧ Forall (rule_clean ∘ Standardize) rules).
Proof.
  cbv zeta. unfold checkRules, rules_valid, ids_of, endpoints_of.
  revert eps c. induction rules as [|raw rules IH]; intros eps c Hok; cbn [foldl fmap list_fmap mbind list_bind].
  { split; [done|]. split; [|done]. intros _. split_and!; try constructor. by intros id ?%elem_of_nil. }
  destruct (check_rule_spec raw eps c Hok) as (Hle & Hiff & eps' & Hok' & Hext).
  destruct (IH eps' _ Hok') as (Hle' & Hiff'). clear IH.
  set (c1 := check_rule opts owned c raw) in *. set (c2 := foldl (check_rule opts owned) c1 rules) in *.
  clearbody c2. rewrite !Forall_cons, NoDup_cons, fresh_app. unfold compose in *.
  split; [lia|]. split.
  - intros Heq. assert (ck_errors c1 = ck_errors c) as H1 by lia.
    assert (ck_errors c2 = ck_errors c1) as H2 by lia.
    apply (proj1 Hiff) in H1 as (Hid & Hv & Hf & Hc).
    apply (proj1 Hiff') in H2 as (Hvs & (Hnd & Hids) & Hfs & Hcs).
    destruct (Hext Hv) as [-> Hseen]. rewrite Hseen in Hids.
    assert (∀ id, id ∈ ((λ x, RuleID (Standardize x)) <$> rules) → id ≠ RuleID (Standardize raw) ∧ id ∉ ck_seen c)
      as Hids' by (intros id Hin; specialize (Hids id Hin); set_solver).
    split_and!; [done..| |done| |done|done|done|done].
    + intros Hin. by destruct (Hids' _ Hin).
    + intros id [->|Hin]%elem_of_cons; [done|]. by apply Hids'.
  - intros ((Hv & Hvs) & ((Hid & Hnd) & Hids) & (Hf & Hfs) & (Hc & Hcs)).
    destruct (Hext Hv) as [-> Hseen]. rewrite (proj2 Hiff'); [apply Hiff; split_and!; [|done..]|].
    + apply Hids. constructor.
    + rewrite Hseen. split_and!; [done..| |done|done]. intros id Hin.
      assert (id ∉ ck_seen c) by (apply Hids; by constructor). assert (id ≠ RuleID (Standardize raw)) by congruence.
      set_solver.
Qed.

(** A configuration without a fault. *)
Record config_ok (cfg : ConfigView) : Prop := {
  co_valid : rules_valid (cv_Rules cfg);
  co_ids : NoDup (ids_of (cv_Rules cfg));
  co_separate : separate (endpoints_of (cv_Rules cfg));
  co_probes : Forall (rule_clean ∘ Standardize) (cv_Rules cfg);
  co_acyclic : ¬ ∃ n, tc (edge (flow_graph (cv_Rules cfg))) n n;
}.

(** No valid rule is an HTTPS rule, so the ACME listener is never checked. *)
Lemma checkACME_unreached cfg c :
  rules_valid (cv_Rules cfg) → checkACME opts cfg c = c.
Proof.
  intros Hv. unfold checkACME. cbv zeta.
  replace (existsb _ (cv_Rules cfg)) with false; [done|]. symmetry.
  induction Hv as [|r rules Hr _ IH]; [done|]. cbn [existsb]. rewrite IH, orb_false_r.
  destruct (valid_rule r Hr) as [_ Hp]. by rewrite (bool_decide_eq_false_2 _ Hp).
Qed.

Lemma checkACME_grows cfg c : ck_errors c ≤ ck_errors (checkACME opts cfg c).
Proof.
  unfold checkACME. cbv zeta.
  assert (∀ ep c, ck_errors c ≤ ck_errors (checkBind ep c)) as Hb by (intros; apply checkBind_reports).
  destruct (_ || _); [done|]. destruct (SplitHostPort _) as [[host v]|]; [|simpl; lia].
  destruct (ParseInt v) as [port|]; [|simpl; lia]. destruct (port_out_of_range port); [simpl; lia|].
  match goal with |- context [index_conflict ?i ?e] => destruct (index_conflict i e) end;
    destruct (CheckBind opts); try (etrans; [|apply Hb]); simpl; lia.
Qed.

Lemma unknown_fields_silent fields c : reports True c (checkUnknownFields fields c).
Proof. apply reports_fold_silent. auto with precheck. Qed.

Lemma check_config_ok order cfg :
  ranges order (cv_Rules cfg) →
  OK (CheckConfig order cfg running opts) = true ↔ config_ok cfg.
Proof.
  intros Ho. unfold CheckConfig. cbn [OK]. rewrite Z.eqb_eq.
  destruct (unknown_fields_silent (cv_UnknownFields cfg) empty_checker) as [_ Hu Hs He].
  set (c1 := checkUnknownFields (cv_UnknownFields cfg) empty_checker) in *.
  assert (index_ok [] (ck_endpoints c1)) as Hok by (rewrite He; apply (build_index_ok [])).
  assert (ck_errors c1 = 0) as H0 by (by apply Hu). clearbody c1.
  destruct (checkRules_spec (cv_Rules cfg) [] c1 Hok) as [Hle Hiff]. rewrite Hs in Hiff.
  set (c2 := checkRules opts owned (cv_Rules cfg) c1) in *. clearbody c2.
  pose proof (loop_error order (cv_Rules cfg) c2 Ho) as [Hle3 Hloop].
  set (c3 := checkForwardingLoops order (cv_Rules cfg) c2) in *. clearbody c3.
  pose proof (checkACME_grows cfg c3) as Hle4. split.
  - intros Hz. assert (ck_errors c2 = ck_errors c1) as (? & (? & _) & ? & ?)%Hiff by lia.
    split; [done..|by apply fresh_separate|done|].
    intros Hc%Hloop. lia.
  - intros [Hv Hn Hsep Hp Hc]. rewrite checkACME_unreached by done.
    assert (ck_errors c2 = ck_errors c1) as H2.
    { apply Hiff. split_and!; [done..| |by apply fresh_separate|done]. intros id _. apply not_elem_of_empty. }
    destruct (decide (ck_errors c3 = ck_errors c2)) as [H3|H3]; [lia|]. by apply Hloop in H3.
Qed.

(** C29: [CheckConfig] passes exactly the configurations whose rules are all
    valid, have distinct ids and pairwise disjoint listen endpoints, succeed in
    the bind and resolve probes the options ask for, and do not forward in a
    circle. *)
Theorem check_config_exact order cfg :
  ranges order (cv_Rules cfg) →
  OK (CheckConfig order cfg running opts) = true ↔ config_ok cfg.
Proof. apply check_config_ok. Qed.
End report.

(** ** Agreement with the manager *)

Section manager.
Context {tzdb : TzDatabase}.

Lemma validate_step_ok raw desired seen res :
  is_ok (Validate (Standardize raw)) = true → RuleID (Standardize raw) ∉ seen →
  validate_step raw (desired, seen, res, None) =
    (desired ++ [Standardize raw], {[ RuleID (Standardize raw) ]} ∪ seen, res, None).
Proof.
  intros Hv Hs. unfold validate_step. destruct (valid_rule raw Hv) as [Hid _].
  cbv zeta. rewrite !bool_decide_eq_false_2 by done. by destruct (Validate (Standardize raw)).
Qed.

Lemma validate_snapshot_ok rules :
  rules_valid rules → NoDup (ids_of rules) →
  validateTransactionalSnapshot rules = (Standardize <$> rules, empty_result (length rules), None).
Proof.
  intros Hv Hn. unfold validateTransactionalSnapshot. generalize (empty_result (length rules)). intros res.
  assert (∀ desired seen, (∀ id, id ∈ ids_of rules → id ∉ seen) →
    ∃ seen', foldl (λ acc r, validate_step r acc) (desired, seen, res, None) rules =
      (desired ++ (Standardize <$> rules), seen', res, None)) as Hfold.
  { revert Hv Hn. unfold ids_of. induction rules as [|raw rules IH]; cbn [foldl fmap list_fmap];
      intros Hv Hn desired seen Hs.
    - exists seen. by rewrite app_nil_r.
    - apply Forall_cons in Hv as [Hv Hvs]. apply NoDup_cons in Hn as [Hid Hn].
      rewrite validate_step_ok; [|done|apply Hs; by constructor].
      destruct (IH Hvs Hn (desired ++ [Standardize raw]) ({[ RuleID (Standardize raw) ]} ∪ seen))
        as [seen' ->].
      + intros id Hin. assert (id ∉ seen) by (apply Hs; by constructor).
        assert (id ≠ RuleID (Standardize raw)) by (intros ->; done). set_solver.
      + exists seen'. by rewrite <-app_assoc. }
  destruct (Hfold [] ∅) as [seen' ->]; [intros id _; apply not_elem_of_empty|done].
Qed.

(** a configuration that passes the precheck is accepted by the manager's
    validation of a transactional snapshot, which starts from exactly its
    standardized rules. *)
Theorem precheck_passes_manager_validation `{!Probe} order cfg running opts :
  ranges order (cv_Rules cfg) →
  OK (CheckConfig order cfg running opts) = true →
  validateTransactionalSnapshot (cv_Rules cfg) =
    (Standardize <$> cv_Rules cfg, empty_result (length (cv_Rules cfg)), None).
Proof.
  intros Ho Hok. pose proof (check_config_ok opts running order cfg Ho) as Hiff.
  apply Hiff in Hok as [Hv Hn _ _ _]. by apply validate_snapshot_ok.
Qed.

(** A rule that listens on every address and forwards to its own port number
    somewhere else. *)
Lemma wildcard_graph rule :
  Enabled (Standardize rule) = true → is_ok (Validate (Standardize rule)) = true →
  Proto (Standardize rule) = ProtocolTCP → normalizeAddr (ListenAddr (Standardize rule)) = "" →
  TargetPort (Standardize rule) = ListenPort (Standardize rule) →
  ∃ n, edge (flow_graph [rule]) n n.
Proof.
  intros He Hv Hp Hl Ht. unfold flow_graph. cbn [foldl]. unfold add_flow. cbv zeta.
  rewrite He, Hv, Hp, Hl, Ht. cbn [orb negb].
  change (forwardedNetworks ProtocolTCP) with (Some ["tcp"]). cbn [foldl].
  set (node := {| fn_Network := "tcp"; fn_Addr := ""; fn_Port := ListenPort (Standardize rule) |}).
  rewrite lookup_empty. cbn [default app]. set (flow := {| lr_ruleID := _ |}).
  exists node. exists flow. unfold rules_at. rewrite lookup_insert_eq. split; [by constructor|].
  unfold servingListener, rules_at. case_bool_decide as Ha.
  - destruct (decide (lr_target flow = node)) as [->|Hne]; [by constructor|].
    rewrite lookup_insert_ne, lookup_empty in Ha by done. done.
  - cbn [fn_Network fn_Port lr_target flow].
    rewrite bool_decide_eq_true_2; [by constructor|]. by rewrite lookup_insert_eq.
Qed.

(** (finding) a rule that listens on a wildcard address and forwards to
    the same port number of any other host, by address or by host name, is
    rejected as a forwarding loop. *)
Theorem wildcard_rule_is_blamed `{!Probe} rule order unknown acme running opts :
  Enabled (Standardize rule) = true → is_ok (Validate (Standardize rule)) = true →
  Proto (Standardize rule) = ProtocolTCP → normalizeAddr (ListenAddr (Standardize rule)) = "" →
  TargetPort (Standardize rule) = ListenPort (Standardize rule) →
  ranges order [rule] →
  OK (CheckConfig order {| cv_Rules := [rule]; cv_UnknownFields := unknown; cv_AcmeHTTP01Addr := acme |}
        running opts) = false.
Proof.
  intros He Hv Hp Hl Ht Ho. destruct (OK _) eqn:E; [|done].
  pose proof (check_config_ok opts running order {| cv_Rules := [rule]; cv_UnknownFields := unknown;
    cv_AcmeHTTP01Addr := acme |} Ho) as Hiff. apply Hiff in E as [_ _ _ _ Hc].
  destruct (wildcard_graph rule) as [n Hn]; [done..|]. destruct Hc. exists n. by apply tc_once.
Qed.
End manager.

(** ** Witnesses *)

Definition quiet_probe : Probe := {| bind_error _ _ _ := None; resolve_error _ _ _ := None |}.
Definition clean_config : ConfigView := {|
  cv_Rules := [loop_rule "a" 7001 7002; loop_rule "b" 7002 7003]; cv_UnknownFields := ["extra"];
  cv_AcmeHTTP01Addr := "" |}.
Definition order_of (rules : list Rule) : list flowNode := elements (dom (@flow_graph utc_database rules)).

Lemma order_of_ranges rules : @ranges utc_database (order_of rules) rules.
Proof. exact (Permutation_refl _). Qed.

Lemma check_config_exact_witness :
  @config_ok utc_database quiet_probe DefaultOptions [] clean_config.
Proof.
  apply (@check_config_exact utc_database quiet_probe DefaultOptions [] (order_of (cv_Rules clean_config)));
    [apply order_of_ranges|by vm_compute].
Defined.

Lemma precheck_passes_manager_validation_witness :
  (@validateTransactionalSnapshot utc_database (cv_Rules clean_config)).2 = None.
Proof.
  rewrite (@precheck_passes_manager_validation utc_database quiet_probe (order_of (cv_Rules clean_config))
    clean_config [] DefaultOptions); [done|apply order_of_ranges|by vm_compute].
Defined.

(** A host name in another network, on the port the rule listens on. *)
Definition remote_rule : Rule := {|
  RuleID := "web"; Name := "web"; Proto := "tcp"; ListenAddr := "0.0.0.0"; ListenPort := 8080;
  TargetAddr := "backend.example.com"; TargetPort := 8080; Enabled := true; SpeedLimit := 0;
  Bandwidth := None; Quota := None; MaxConn := 0; IdleTimeout := 0; SourceIPMode := ""; SourceIPs := [];
  Domains := []; Remark := ""; Revision := 1; CreatedTime := 0; UpdatedTime := 0 |}.

Lemma wildcard_rule_is_blamed_witness :
  OK (@CheckConfig utc_database quiet_probe (order_of [remote_rule])
    {| cv_Rules := [remote_rule]; cv_UnknownFields := []; cv_AcmeHTTP01Addr := "" |} [] DefaultOptions) = false.
Proof.
  apply (@wildcard_rule_is_blamed utc_database quiet_probe); [by vm_compute..|apply order_of_ranges].
Defined.
