(* ===== verification/TCP.v ===== *)
(** * TCP forwarding (engine/tcp.go)

    The accept loop with its connection slots, the handlers of accepted
    connections, the copy loop of one direction and the loop that joins the two
    directions.  Goroutines are interleaved at their atomic operations; what
    the network, the rate limiters and the quota ledger answer is a parameter
    of the step. *)

From S2P Require Import Prelude GoStrings Calendar NetIP SourceIP Limits Rule Stats Quota Traffic.

(** Counters store Unix seconds; times are in nanoseconds. *)
Definition unix_seconds (now : Z) : Z := now / second.

Definition DefaultTCPIdleTimeout : Z := 5 * 60 * second.
Definition effectiveIdleTimeout (rule : Rule) : Z :=
  if 0 <? IdleTimeout rule then wrap64 (IdleTimeout rule * second) else DefaultTCPIdleTimeout.

(** ** Accepting connections *)

(** A handler, from its [go] statement to its last deferred call. *)
Inductive HandlerPhase :=
| HSpawned                       (* holds a slot *)
| HRunning (dialed : bool)       (* tracked and counted; the target is tracked when dialed *)
| HClosing                       (* untracked, about to release its slot *)
| HReleased.                     (* about to leave the gauge *)

Inductive Acceptor :=
| AcIdle
| AcReserving (conn : positive)                 (* in [reserveConnSlot], before the load *)
| AcLoaded (conn : positive) (current : Z).     (* before the compare-and-swap *)

Record tcpState := {
  t_cancelled : bool;
  t_active : Z;                                 (* activeConn *)
  t_acceptor : Acceptor;
  t_handlers : gmap positive HandlerPhase;
  t_next : positive;
  t_conns : gset (positive * bool);             (* tracked: client [false], target [true] *)
  t_stats : Collector;
  t_ledger : QuotaLedger;
}.

Definition t_set active acceptor handlers conns stats st : tcpState := {|
  t_cancelled := t_cancelled st; t_active := active; t_acceptor := acceptor; t_handlers := handlers;
  t_next := t_next st; t_conns := conns; t_stats := stats; t_ledger := t_ledger st |}.

Section accept.
Context {tzdb : TzDatabase}.
Context (rule : Rule) (stats : boundRuleStats) (matcher : option sourceIPMatcher).
Notation traffic := (newRuleTrafficController rule).

(** One turn of [acceptLoop], up to [reserveConnSlot]. *)
Definition acceptConn (now : Z) (peer : NetAddr) st : tcpState :=
  let denied := match matcher with
                | None => false
                | Some _ => let '(clientIP, valid) := sourceIPFromNetAddr peer in
                            negb valid || negb (allows matcher clientIP)
                end in
  if denied then
    t_set (t_active st) AcIdle (t_handlers st) (t_conns st)
      (incSourceIPDenied (unix_seconds now) stats (t_stats st)) st
  else
    let '(blk, l) := quotaBlocked now traffic (t_ledger st) in
    {| t_cancelled := t_cancelled st; t_active := t_active st;
       t_acceptor := if blk then AcIdle else AcReserving (t_next st);
       t_handlers := t_handlers st; t_next := Pos.succ (t_next st); t_conns := t_conns st;
       t_stats := t_stats st; t_ledger := l |}.

Definition spawn conn st : tcpState :=
  t_set (add64 (t_active st) 1) AcIdle (<[conn := HSpawned]> (t_handlers st)) (t_conns st) (t_stats st) st.

(** [reserveConnSlot]: without a limit one atomic add; else load, then
    compare-and-swap, again from the load when another goroutine came between. *)
Definition slot_load conn st : tcpState :=
  if MaxConn rule <=? 0 then spawn conn st
  else if MaxConn rule <=? t_active st then
    t_set (t_active st) AcIdle (t_handlers st) (t_conns st) (t_stats st) st
  else t_set (t_active st) (AcLoaded conn (t_active st)) (t_handlers st) (t_conns st) (t_stats st) st.
Definition slot_swap conn current st : tcpState :=
  if t_active st =? current then spawn conn st
  else t_set (t_active st) (AcReserving conn) (t_handlers st) (t_conns st) (t_stats st) st.

Inductive TCPEvent :=
| EvAccept (now : Z) (peer : NetAddr)
| EvSlotLoad
| EvSlotSwap
| EvHandle (now : Z) (conn : positive)
| EvDialed (conn : positive)
| EvHandlerClose (conn : positive)
| EvHandlerRelease (conn : positive)
| EvHandlerDec (now : Z) (conn : positive)
| EvStopTCP.

Definition tcp_step (ev : TCPEvent) st : option tcpState :=
  match ev with
  | EvAccept now peer =>
      match t_acceptor st with AcIdle => Some (acceptConn now peer st) | _ => None end
  | EvSlotLoad =>
      match t_acceptor st with AcReserving conn => Some (slot_load conn st) | _ => None end
  | EvSlotSwap =>
      match t_acceptor st with AcLoaded conn current => Some (slot_swap conn current st) | _ => None end
  | EvHandle now conn =>
      match t_handlers st !! conn with
      | Some HSpawned =>
          Some (t_set (t_active st) (t_acceptor st) (<[conn := HRunning false]> (t_handlers st))
                  ({[(conn, false)]} ∪ t_conns st) (incConns (unix_seconds now) stats (t_stats st)) st)
      | _ => None
      end
  | EvDialed conn =>
      match t_handlers st !! conn with
      | Some (HRunning false) =>
          Some (t_set (t_active st) (t_acceptor st) (<[conn := HRunning true]> (t_handlers st))
                  ({[(conn, true)]} ∪ t_conns st) (t_stats st) st)
      | _ => None
      end
  | EvHandlerClose conn =>
      match t_handlers st !! conn with
      | Some (HRunning _) =>
          Some (t_set (t_active st) (t_acceptor st) (<[conn := HClosing]> (t_handlers st))
                  (t_conns st ∖ {[(conn, true); (conn, false)]}) (t_stats st) st)
      | _ => None
      end
  | EvHandlerRelease conn =>
      match t_handlers st !! conn with
      | Some HClosing =>
          Some (t_set (add64 (t_active st) (-1)) (t_acceptor st) (<[conn := HReleased]> (t_handlers st))
                  (t_conns st) (t_stats st) st)
      | _ => None
      end
  | EvHandlerDec now conn =>
      match t_handlers st !! conn with
      | Some HReleased =>
          Some (t_set (t_active st) (t_acceptor st) (delete conn (t_handlers st)) (t_conns st)
                  (decConns (unix_seconds now) stats (t_stats st)) st)
      | _ => None
      end
  | EvStopTCP =>
      Some {| t_cancelled := true; t_active := t_active st; t_acceptor := t_acceptor st;
              t_handlers := t_handlers st; t_next := t_next st; t_conns := t_conns st;
              t_stats := t_stats st; t_ledger := t_ledger st |}
  end.

Definition tcp_run (evs : list TCPEvent) st : option tcpState :=
  foldl (λ acc ev, st ← acc; tcp_step ev st) (Some st) evs.

Definition new_tcp (collector : Collector) (ledger : QuotaLedger) : tcpState := {|
  t_cancelled := false; t_active := 0; t_acceptor := AcIdle; t_handlers := ∅; t_next := 1;
  t_conns := ∅; t_stats := collector; t_ledger := ledger |}.
End accept.

(** ** Copying one direction *)

Inductive ReadError := ReadEOF | ReadFailed.

(** What the environment answers in one turn of [copyWithTrafficOptions]. *)
Record Turn := {
  tn_now : Z;
  tn_data : list ascii;                                          (* what Read returned *)
  tn_readErr : option ReadError;
  tn_limiter : bool;                                             (* [true]: no error *)
  tn_reserve : result QuotaError (Z * option quotaReservation);
  tn_written : Z;                                                (* what Write returned *)
  tn_writeOk : bool;
}.

Inductive CopyOutcome :=
| CopyDone                       (* nil: the source is at its end *)
| CopyLimited                    (* the context ended while waiting for a limiter *)
| CopyQuota (e : QuotaError)
| CopyWriteFailed
| CopyQuotaExceeded              (* [ErrTrafficQuotaExceeded] after a partial grant *)
| CopyShortWrite
| CopyReadFailed.

Record CopyState := {
  cp_total : Z;
  cp_output : list ascii;        (* the bytes the destination took *)
  cp_stats : Collector;
  cp_ledger : QuotaLedger;
}.

Section copy.
Context (stats : boundRuleStats) (direction : trafficDirection).

(** [onBytes] and [onQuotaRejected] of [relayConn]. *)
Definition onBytes (now n : Z) (c : Collector) : Collector :=
  match direction with
  | trafficUpload => addUpload (unix_seconds now) stats n c
  | trafficDownload => addDownload (unix_seconds now) stats n c
  end.
Definition onQuotaRejected (now n : Z) (c : Collector) : Collector :=
  addQuotaRejectedBytes (unix_seconds now) stats n c.

Definition reject (now n : Z) (st : CopyState) : CopyState := {|
  cp_total := cp_total st; cp_output := cp_output st;
  cp_stats := onQuotaRejected now n (cp_stats st); cp_ledger := cp_ledger st |}.

(** The state after [dst.Write] took [nw] bytes of the turn. *)
Definition wrote (tn : Turn) (reservation : option quotaReservation) (st : CopyState) : CopyState :=
  let nw := tn_written tn in
  let l := match reservation with
           | Some r => (finish nw r (cp_ledger st)).2
           | None => cp_ledger st
           end in
  if 0 <? nw then
    {| cp_total := add64 (cp_total st) nw; cp_output := cp_output st ++ take (Z.to_nat nw) (tn_data tn);
       cp_stats := onBytes (tn_now tn) nw (cp_stats st); cp_ledger := l |}
  else {| cp_total := cp_total st; cp_output := cp_output st; cp_stats := cp_stats st; cp_ledger := l |}.

Definition read_end (tn : Turn) : option CopyOutcome :=
  match tn_readErr tn with
  | None => None
  | Some ReadEOF => Some CopyDone
  | Some ReadFailed => Some CopyReadFailed
  end.

(** One turn; [None] as the outcome means the loop goes on. *)
Definition copy_turn (tn : Turn) (st : CopyState) : option CopyOutcome * CopyState :=
  let nr := Z.of_nat (length (tn_data tn)) in
  if nr <=? 0 then (read_end tn, st)
  else if negb (tn_limiter tn) then (Some CopyLimited, st)
  else match tn_reserve tn with
  | Err e =>
      (Some (CopyQuota e),
       match e with PersistFailed _ => st | _ => reject (tn_now tn) nr st end)
  | Ok (allowed, reservation) =>
      let st := wrote tn reservation st in
      if negb (tn_writeOk tn) then (Some CopyWriteFailed, st)
      else if tn_written tn =? nr then (read_end tn, st)
      else if (tn_written tn =? allowed) && (allowed <? nr) then
        (Some CopyQuotaExceeded, reject (tn_now tn) (sub64 nr allowed) st)
      else (Some CopyShortWrite, st)
  end.

(** The loop over the turns of the environment. *)
Fixpoint copy_loop (turns : list Turn) (st : CopyState) : option CopyOutcome * CopyState :=
  match turns with
  | [] => (None, st)
  | tn :: turns =>
      match copy_turn tn st with
      | (Some out, st) => (Some out, st)
      | (None, st) => copy_loop turns st
      end
  end.
End copy.

(** ** Joining the two directions *)

Inductive Side := ClientSide | TargetSide.
#[export] Instance Side_eq_dec : EqDecision Side.
Proof. solve_decision. Defined.

(** [dst] names the connection a copy writes to; [rl_copies] are the copies that
    have not reported yet. *)
Record RelayState := {
  rl_copies : list Side;
  rl_closing : bool;
  rl_ctxArmed : bool;
  rl_idleArmed : bool;
  rl_halfClosed : list Side;     (* CloseWrite, oldest first *)
}.

Inductive RelayEvent :=
| RlResult (dst : Side) (failed : bool)
| RlCtxDone
| RlIdle (pending : bool) (idleFor : Z).

Definition new_relay (idle : Z) : RelayState := {|
  rl_copies := [TargetSide; ClientSide]; rl_closing := false; rl_ctxArmed := true;
  rl_idleArmed := 0 <? idle; rl_halfClosed := [] |}.

(** Cancels the context and closes both connections, once. *)
Definition closeBoth (st : RelayState) : RelayState :=
  if rl_closing st then st
  else {| rl_copies := rl_copies st; rl_closing := true; rl_ctxArmed := false; rl_idleArmed := false;
          rl_halfClosed := rl_halfClosed st |}.

Definition reported (dst : Side) (st : RelayState) : RelayState := {|
  rl_copies := filter (λ s, s ≠ dst) (rl_copies st); rl_closing := rl_closing st;
  rl_ctxArmed := rl_ctxArmed st; rl_idleArmed := rl_idleArmed st; rl_halfClosed := rl_halfClosed st |}.
Definition closeTCPWrite (dst : Side) (st : RelayState) : RelayState := {|
  rl_copies := rl_copies st; rl_closing := rl_closing st; rl_ctxArmed := rl_ctxArmed st;
  rl_idleArmed := rl_idleArmed st; rl_halfClosed := rl_halfClosed st ++ [dst] |}.

(** One turn of the loop of [relayConn]; [None]: the event cannot be selected,
    or the loop has ended ([remaining] is the number of copies left). *)
Definition relay_step (idle : Z) (ev : RelayEvent) (st : RelayState) : option RelayState :=
  match rl_copies st with
  | [] => None
  | _ =>
    match ev with
    | RlResult dst failed =>
        if bool_decide (dst ∈ rl_copies st) then
          let st := reported dst st in
          Some (if rl_closing st then st
                else if failed then closeBoth st
                else closeTCPWrite dst st)
        else None
    | RlCtxDone => if rl_ctxArmed st then Some (closeBoth st) else None
    | RlIdle pending idleFor =>
        if rl_idleArmed st then
          Some (if pending then st else if idle <=? idleFor then closeBoth st else st)
        else None
    end
  end.

Fixpoint relay_run (idle : Z) (evs : list RelayEvent) (st : RelayState) : option RelayState :=
  match evs with
  | [] => Some st
  | ev :: evs => st ← relay_step idle ev st; relay_run idle evs st
  end.
