(* ===== verification/TCPSpec.v ===== *)
(** * What TCP forwarding guarantees (engine/tcp.go)

    The connection slots never exceed the rule's limit and are all given back;
    the copy loop loses, invents and double-counts nothing; the relay loop waits
    for both directions and closes both connections exactly when it must. *)

From S2P Require Import Prelude GoStrings Calendar NetIP SourceIP Limits Rule Stats Quota Traffic TCP.

(** ** Counting handlers *)

Definition tally (f : HandlerPhase → bool) (m : gmap positive HandlerPhase) : Z :=
  Z.of_nat (size (filter (λ e, f e.2 = true) m)).

Lemma tally_empty f : tally f ∅ = 0.
Proof. done. Qed.

Lemma tally_delete f m k : tally f (delete k m) =
  tally f m - match m !! k with Some v => Z.b2z (f v) | None => 0 end.
Proof.
  unfold tally. rewrite map_filter_delete. destruct (m !! k) as [v|] eqn:E.
  - destruct (f v) eqn:Ef; simpl.
    + rewrite map_size_delete_Some by (exists v; by apply map_lookup_filter_Some).
      assert (size (filter (λ e, f e.2 = true) m) ≠ 0%nat) as Hz.
      { intros Hz%map_size_empty_inv. assert (filter (λ e, f e.2 = true) m !! k = Some v) as Hk
          by (by apply map_lookup_filter_Some). rewrite Hz, lookup_empty in Hk. done. }
      lia.
    + rewrite delete_id; [lia|]. apply map_lookup_filter_None. right. intros x Hx. rewrite E in Hx.
      injection Hx as <-. simpl. by rewrite Ef.
  - rewrite delete_id; [lia|]. apply map_lookup_filter_None. by left.
Qed.

Lemma tally_insert f m k v : tally f (<[k:=v]> m) = tally f (delete k m) + Z.b2z (f v).
Proof.
  rewrite <-insert_delete_eq. unfold tally. destruct (f v) eqn:Ef; simpl.
  - rewrite map_filter_insert_True by done. rewrite map_size_insert_None; [lia|].
    apply map_lookup_filter_None. left. apply lookup_delete_eq.
  - rewrite map_filter_insert_False by (simpl; by rewrite Ef). rewrite delete_delete_eq. lia.
Qed.

(** Holding a slot; counted by the gauge. *)
Definition has_slot (p : HandlerPhase) : bool := match p with HReleased => false | _ => true end.
Definition counted (p : HandlerPhase) : bool := match p with HSpawned => false | _ => true end.

Section tcp.
Context {tzdb : TzDatabase}.
Context (rule : Rule) (stats : boundRuleStats) (matcher : option sourceIPMatcher).
Implicit Types (st : tcpState).

Definition slots st : Z := tally has_slot (t_handlers st).

Record tcp_inv (gauge : Z) st : Prop := {
  tc_fresh : ∀ conn, is_Some (t_handlers st !! conn) → (conn < t_next st)%positive;
  tc_acceptor : match t_acceptor st with
                | AcIdle => True
                | AcReserving conn => t_handlers st !! conn = None ∧ (conn < t_next st)%positive
                | AcLoaded conn current =>
                    t_handlers st !! conn = None ∧ (conn < t_next st)%positive ∧ current < MaxConn rule
                end;
  tc_active : t_active st = wrap64 (slots st);
  tc_limit : 0 < MaxConn rule → slots st ≤ MaxConn rule;
  tc_gauge : ∀ l k, stats = Some l → heap (t_stats st) !! l = Some k →
    conns k = wrap64 (gauge + tally counted (t_handlers st));
  tc_tracked : ∀ conn side, (conn, side) ∈ t_conns st ↔
    ∃ dialed, t_handlers st !! conn = Some (HRunning dialed) ∧ (side = true → dialed = true);
}.

Lemma slots_nonneg st : 0 ≤ slots st.
Proof. unfold slots, tally. lia. Qed.

(** A handler that moves from one phase to another. *)
Lemma tally_move f st conn p p' :
  t_handlers st !! conn = Some p →
  tally f (<[conn := p']> (t_handlers st)) = tally f (t_handlers st) - Z.b2z (f p) + Z.b2z (f p').
Proof. intros Hp. by rewrite tally_insert, tally_delete, Hp. Qed.

Lemma spawn_inv gauge conn st :
  in_int64 (MaxConn rule) → tcp_inv gauge st →
  t_handlers st !! conn = None → (conn < t_next st)%positive →
  (0 < MaxConn rule → slots st < MaxConn rule) → tcp_inv gauge (spawn conn st).
Proof.
  intros Hint [H1 H2 H3 H4 H5 H6] Hnew Hlt Hroom.
  assert (∀ f, tally f (<[conn:=HSpawned]> (t_handlers st)) = tally f (t_handlers st) + Z.b2z (f HSpawned)) as Ht
    by (intros f; rewrite tally_insert, tally_delete, Hnew; lia).
  split; unfold slots; simpl; rewrite ?Ht; simpl.
  - intros k [v Hk]. apply lookup_insert_Some in Hk as [[<- _]|[_ Hk]]; eauto.
  - done.
  - unfold add64. rewrite H3. unfold slots. by rewrite wrap64_add_l.
  - intros Hm. specialize (Hroom Hm). unfold slots in Hroom. lia.
  - intros l k Hl Hk. rewrite Z.add_0_r. by apply (H5 l).
  - intros k side. rewrite H6. destruct (decide (conn = k)) as [<-|Hne].
    + rewrite lookup_insert_eq, Hnew. split; intros (? & ? & ?); done.
    + by rewrite lookup_insert_ne.
Qed.

Lemma accept_inv gauge now peer st :
  t_acceptor st = AcIdle → tcp_inv gauge st → tcp_inv gauge (acceptConn rule stats matcher now peer st).
Proof.
  intros Hidle [H1 H2 H3 H4 H5 H6]. unfold acceptConn.
  destruct (match matcher with None => false | _ => _ end).
  - split; try done. simpl. intros l k Hl. unfold incSourceIPDenied, update. rewrite Hl. simpl.
    rewrite lookup_alter_eq. destruct (heap (t_stats st) !! l) as [k0|] eqn:E; [|done].
    intros [= <-]. simpl. by apply (H5 l).
  - destruct (quotaBlocked _ _ _) as [blk l].
    assert (t_handlers st !! t_next st = None) as Hfresh.
    { destruct (t_handlers st !! t_next st) eqn:E; [|done]. pose proof (H1 (t_next st)) as Hlt.
      rewrite E in Hlt. specialize (Hlt ltac:(done)). lia. }
    split; simpl; try done.
    + intros conn Hc. apply H1 in Hc. lia.
    + destruct blk; [done|]. split; [done|lia].
Qed.

(** A handler [conn] that goes from phase [p] to [p'] with the matching updates. *)
Lemma move_inv gauge conn p p' active conns' c' st :
  t_handlers st !! conn = Some p → tcp_inv gauge st →
  active = wrap64 (slots st - Z.b2z (has_slot p) + Z.b2z (has_slot p')) →
  has_slot p || negb (has_slot p') = true →
  (∀ l k', stats = Some l → heap c' !! l = Some k' → ∃ k, heap (t_stats st) !! l = Some k ∧
     conns k' = add64 (conns k) (Z.b2z (counted p') - Z.b2z (counted p))) →
  (∀ side, (conn, side) ∈ conns' ↔ ∃ d, p' = HRunning d ∧ (side = true → d = true)) →
  (∀ k side, k ≠ conn → (k, side) ∈ conns' ↔ (k, side) ∈ t_conns st) →
  tcp_inv gauge (t_set active (t_acceptor st) (<[conn := p']> (t_handlers st)) conns' c' st).
Proof.
  intros Hp [H1 H2 H3 H4 H5 H6] Hact Hs Hg Hc Hc'. split; unfold slots in *; simpl.
  - intros k [v Hk]. apply lookup_insert_Some in Hk as [[<- _]|[_ Hk]]; eauto.
  - destruct (t_acceptor st) as [|k|k cur]; [done|..].
    + destruct H2 as [Hk Hlt]. rewrite lookup_insert_ne; [done|]. intros <-. by rewrite Hp in Hk.
    + destruct H2 as (Hk & Hlt & Hcur). rewrite lookup_insert_ne; [done|]. intros <-. by rewrite Hp in Hk.
  - by rewrite (tally_move _ _ _ _ _ Hp).
  - intros Hm. rewrite (tally_move _ _ _ _ _ Hp). specialize (H4 Hm).
    destruct (has_slot p), (has_slot p'); simpl in *; try done; lia.
  - intros l k' Hl Hk'. destruct (Hg l k' Hl Hk') as (k & Hk & ->).
    rewrite (H5 l k Hl Hk), (tally_move _ _ _ _ _ Hp). unfold add64. rewrite wrap64_add_l. f_equal. lia.
  - intros k side. destruct (decide (k = conn)) as [->|Hne].
    + rewrite Hc, lookup_insert_eq. naive_solver.
    + by rewrite Hc', H6, lookup_insert_ne.
Qed.

(** An update of the handle that adds [n] to the connection gauge. *)
Lemma gauge_update f n c l k' :
  (∀ k, conns (f k) = add64 (conns k) n) → stats = Some l → heap (update stats f c) !! l = Some k' →
  ∃ k, heap c !! l = Some k ∧ conns k' = add64 (conns k) n.
Proof.
  intros Hf Hl. unfold update. rewrite Hl. simpl. rewrite lookup_alter_eq.
  destruct (heap c !! l) as [k|]; simpl; [|done]. intros [= <-]. by exists k.
Qed.

Lemma tcp_step_inv gauge ev st st' :
  in_int64 (MaxConn rule) → tcp_step rule stats matcher ev st = Some st' →
  tcp_inv gauge st → tcp_inv gauge st'.
Proof.
  intros Hint Hstep Hinv. pose proof Hinv as [H1 H2 H3 H4 H5 H6].
  assert (∀ l k', stats = Some l → heap (t_stats st) !! l = Some k' →
    ∃ k, heap (t_stats st) !! l = Some k ∧ conns k' = add64 (conns k) 0) as Hsame.
  { intros l k' Hl Hk. exists k'. split; [done|]. unfold add64. rewrite Z.add_0_r.
    rewrite (H5 l k' Hl Hk). by rewrite wrap64_idemp. }
  destruct ev as [now peer| | |now conn|conn|conn|conn|now conn|]; simpl in Hstep.
  - destruct (t_acceptor st) eqn:Ea; try discriminate Hstep. injection Hstep as <-. by apply accept_inv.
  - destruct (t_acceptor st) as [|conn|] eqn:Ea; try discriminate Hstep. injection Hstep as <-.
    destruct H2 as [Hn Hlt]. unfold slot_load.
    destruct (MaxConn rule <=? 0) eqn:Em; [|destruct (MaxConn rule <=? t_active st) eqn:El]; bool_to_prop.
    + apply spawn_inv; [done..|lia].
    + by split.
    + by split.
  - destruct (t_acceptor st) as [| |conn cur] eqn:Ea; try discriminate Hstep. injection Hstep as <-.
    destruct H2 as (Hn & Hlt & Hcur). unfold slot_swap. destruct (t_active st =? cur) eqn:Ec; bool_to_prop.
    + apply spawn_inv; [done..|]. intros Hm. specialize (H4 Hm). pose proof (slots_nonneg st).
      rewrite H3, wrap64_id in Ec; [lia|]. unfold in_int64, int64_min, int64_max in *. lia.
    + by split.
  - destruct (t_handlers st !! conn) as [[]|] eqn:E; try discriminate Hstep. injection Hstep as <-.
    apply (move_inv gauge conn HSpawned); [done|done| |done| | |].
    + rewrite H3. f_equal. simpl. lia.
    + intros l k' Hl. by apply (gauge_update _ 1).
    + intros side. rewrite elem_of_union, elem_of_singleton, H6. split.
      * intros [[= ->]|(d & Hd & _)]; [by exists false|]. by rewrite E in Hd.
      * intros (d & [= <-] & Hs). left. destruct side; [by discriminate Hs|done].
    + intros k side Hne. set_solver.
  - destruct (t_handlers st !! conn) as [[|[]| |]|] eqn:E; try discriminate Hstep. injection Hstep as <-.
    apply (move_inv gauge conn (HRunning false)); [done|done| |done|done| |].
    + rewrite H3. f_equal. simpl. lia.
    + intros side. rewrite elem_of_union, elem_of_singleton, H6. split.
      * intros _. by exists true.
      * intros _. destruct side; [by left|]. right. by exists false.
    + intros k side Hne. set_solver.
  - destruct (t_handlers st !! conn) as [[|d| |]|] eqn:E; try discriminate Hstep. injection Hstep as <-.
    apply (move_inv gauge conn (HRunning d)); [done|done| |done|done| |].
    + rewrite H3. f_equal. simpl. lia.
    + intros side. split; [|by intros (? & ? & ?)]. destruct side; set_solver.
    + intros k side Hne. set_solver.
  - destruct (t_handlers st !! conn) as [[]|] eqn:E; try discriminate Hstep. injection Hstep as <-.
    apply (move_inv gauge conn HClosing); [done|done| |done|done| |].
    + unfold add64. rewrite H3, wrap64_add_l. f_equal. simpl. lia.
    + intros side. rewrite H6, E. split; [by intros (? & ? & ?)|by intros (? & ? & ?)].
    + done.
  - destruct (t_handlers st !! conn) as [[]|] eqn:E; try discriminate Hstep. injection Hstep as <-.
    assert (∀ f, tally f (delete conn (t_handlers st)) = tally f (t_handlers st) - Z.b2z (f HReleased)) as Ht
      by (intros f; by rewrite tally_delete, E).
    split; unfold slots in *; simpl; rewrite ?Ht; simpl.
    + intros k [v Hk]. apply lookup_delete_Some in Hk as [_ Hk]. eauto.
    + destruct (t_acceptor st) as [|k|k cur]; [done|..].
      * destruct H2 as [Hk Hlt]. rewrite lookup_delete_ne; [done|]. intros <-. by rewrite E in Hk.
      * destruct H2 as (Hk & Hlt & Hcur). rewrite lookup_delete_ne; [done|]. intros <-. by rewrite E in Hk.
    + rewrite H3. f_equal. lia.
    + intros Hm. specialize (H4 Hm). lia.
    + intros l k' Hl Hk'. unfold decConns in Hk'.
      apply (gauge_update _ (-1)) in Hk' as (k & Hk & ->); [|done|done].
      unfold add64. rewrite (H5 l k Hl Hk), wrap64_add_l. f_equal. lia.
    + intros k side. rewrite H6. destruct (decide (k = conn)) as [->|Hne].
      * rewrite lookup_delete_eq, E. split; by intros (? & ? & ?).
      * by rewrite lookup_delete_ne.
  - injection Hstep as <-. by split.
Qed.

Lemma tcp_run_inv gauge evs st st' :
  in_int64 (MaxConn rule) → tcp_run rule stats matcher evs st = Some st' →
  tcp_inv gauge st → tcp_inv gauge st'.
Proof.
  intros Hint. unfold tcp_run. revert st. induction evs as [|ev evs IH]; intros st; cbn [foldl].
  - by intros [= <-].
  - simpl. destruct (tcp_step rule stats matcher ev st) as [st1|] eqn:E.
    + intros Hrun Hinv. apply (IH st1 Hrun). by apply (tcp_step_inv _ ev st).
    + intros Hrun. exfalso. clear -Hrun. induction evs; [done|by apply IHevs].
Qed.

(** C37: the connection slots of a TCP rule are exact under any interleaving
    of the accept loop with its handlers: the number of connections holding a
    slot never exceeds [max_conn], [activeConn] counts them, the gauge counts
    the handlers that have begun and not ended, and a handler's connections are
    tracked exactly while it runs; when no handler is left all of them are zero. *)
Theorem tcp_slots_exact gauge c l evs st :
  in_int64 (MaxConn rule) →
  (∀ l k, stats = Some l → heap c !! l = Some k → conns k = wrap64 gauge) →
  tcp_run rule stats matcher evs (new_tcp c l) = Some st →
  (0 < MaxConn rule → slots st ≤ MaxConn rule) ∧
  t_active st = wrap64 (slots st) ∧
  (∀ l k, stats = Some l → heap (t_stats st) !! l = Some k →
     conns k = wrap64 (gauge + tally counted (t_handlers st))) ∧
  (∀ conn side, (conn, side) ∈ t_conns st ↔
     ∃ dialed, t_handlers st !! conn = Some (HRunning dialed) ∧ (side = true → dialed = true)) ∧
  (t_handlers st = ∅ → t_active st = 0 ∧ t_conns st = ∅).
Proof.
  intros Hint Hg Hrun.
  assert (tcp_inv gauge (new_tcp c l)) as H0.
  { split; simpl; try done.
    - intros k Hk. rewrite lookup_empty in Hk. by destruct Hk.
    - unfold slots. simpl. rewrite tally_empty. lia.
    - rewrite tally_empty, Z.add_0_r. exact Hg.
    - intros k side. rewrite lookup_empty. split; [set_solver|]. by intros (? & ? & ?). }
  destruct (tcp_run_inv gauge evs _ _ Hint Hrun H0) as [H1 H2 H3 H4 H5 H6].
  split_and!; [done..|]. intros He. split.
  - rewrite H3. unfold slots. rewrite He, tally_empty. done.
  - apply set_eq. intros [k side]. rewrite H6, He, lookup_empty. split; [|set_solver].
    by intros (? & ? & ?).
Qed.
End tcp.

(** ** The copy loop *)

Section copy_spec.
Context (stats : boundRuleStats) (direction : trafficDirection).
Implicit Types (tn : Turn) (st : CopyState).

(** What [io.Writer] and a granting reservation promise: between one byte and
    all of the chunk is granted, at most that is written, and a short write
    reports an error. *)
Definition turn_ok tn : Prop :=
  0 ≤ tn_written tn ∧
  ∀ allowed r, tn_reserve tn = Ok (allowed, r) →
    allowed ≤ Z.of_nat (length (tn_data tn)) ∧ tn_written tn ≤ allowed ∧
    (tn_written tn < allowed → tn_writeOk tn = false) ∧
    Z.of_nat (length (tn_data tn)) ≤ int64_max.

Definition dir_total (k : ruleCounter) : Z :=
  match direction with trafficUpload => uploadTotal k | trafficDownload => downloadTotal k end.

(** The handle's counters moved by [n] forwarded and [rej] rejected bytes. *)
Definition counted_bytes (n rej : Z) (c c' : Collector) : Prop :=
  ∀ l k', stats = Some l → heap c' !! l = Some k' → ∃ k, heap c !! l = Some k ∧
    wrap64 (dir_total k') = wrap64 (dir_total k + n) ∧
    wrap64 (quotaRejectedBytes k') = wrap64 (quotaRejectedBytes k + rej).

Lemma counted_refl c : counted_bytes 0 0 c c.
Proof. intros l k' Hl Hk. exists k'. by rewrite !Z.add_0_r. Qed.

Lemma wrap64_add_trans a b c x y :
  wrap64 b = wrap64 (a + x) → wrap64 c = wrap64 (b + y) → wrap64 c = wrap64 (a + (x + y)).
Proof. intros Hb ->. by rewrite <-(wrap64_add_l b), Hb, wrap64_add_l, Z.add_assoc. Qed.

Lemma counted_trans n1 r1 n2 r2 c1 c2 c3 :
  counted_bytes n1 r1 c1 c2 → counted_bytes n2 r2 c2 c3 → counted_bytes (n1 + n2) (r1 + r2) c1 c3.
Proof.
  intros H1 H2 l k3 Hl H3. destruct (H2 l k3 Hl H3) as (k2 & Hk2 & Hd2 & Hr2).
  destruct (H1 l k2 Hl Hk2) as (k1 & Hk1 & Hd1 & Hr1). exists k1. split; [done|].
  split; by eapply wrap64_add_trans.
Qed.

Lemma counted_onBytes now n c : 0 < n → counted_bytes n 0 c (onBytes stats direction now n c).
Proof.
  intros Hn l k' Hl. unfold onBytes, addUpload, addDownload.
  assert ((n <=? 0) = false) as -> by (apply Z.leb_gt; lia). unfold update. rewrite Hl.
  destruct direction eqn:Ed; simpl; rewrite lookup_alter_eq; destruct (heap c !! l) as [k|]; simpl;
    try done; intros [= <-]; exists k; unfold dir_total; rewrite Ed; simpl;
    unfold add64; by rewrite wrap64_idemp, Z.add_0_r.
Qed.

Lemma counted_reject now n c : 0 < n → counted_bytes 0 n c (onQuotaRejected stats now n c).
Proof.
  intros Hn l k' Hl. unfold onQuotaRejected, addQuotaRejectedBytes.
  assert ((n <=? 0) = false) as -> by (apply Z.leb_gt; lia). unfold update. rewrite Hl. simpl.
  rewrite lookup_alter_eq. destruct (heap c !! l) as [k|]; simpl; [|done]. intros [= <-].
  exists k. unfold dir_total, add64. destruct direction; simpl; by rewrite wrap64_idemp, Z.add_0_r.
Qed.

(** The bytes [w] went through, [rej] were refused by the quota. *)
Definition moved (w : list ascii) (rej : Z) st st' : Prop :=
  cp_output st' = cp_output st ++ w ∧
  wrap64 (cp_total st') = wrap64 (cp_total st + Z.of_nat (length w)) ∧
  counted_bytes (Z.of_nat (length w)) rej (cp_stats st) (cp_stats st').

Lemma moved_refl st : moved [] 0 st st.
Proof. split; [by rewrite app_nil_r|]. split; [simpl; by rewrite Z.add_0_r|apply counted_refl]. Qed.

Lemma moved_trans w1 r1 w2 r2 st1 st2 st3 :
  moved w1 r1 st1 st2 → moved w2 r2 st2 st3 → moved (w1 ++ w2) (r1 + r2) st1 st3.
Proof.
  intros (Ho1 & Ht1 & Hc1) (Ho2 & Ht2 & Hc2). unfold moved. rewrite length_app, Nat2Z.inj_add.
  split; [by rewrite Ho2, Ho1, app_assoc|]. split; [by eapply wrap64_add_trans|by eapply counted_trans].
Qed.

Lemma moved_reject now n st : 0 < n → moved [] n st (reject stats now n st).
Proof.
  intros Hn. split; [simpl; by rewrite app_nil_r|]. split; [simpl; by rewrite Z.add_0_r|].
  by apply counted_reject.
Qed.

Lemma moved_wrote tn r st :
  0 ≤ tn_written tn ≤ Z.of_nat (length (tn_data tn)) →
  moved (take (Z.to_nat (tn_written tn)) (tn_data tn)) 0 st (wrote stats direction tn r st).
Proof.
  intros Hw. unfold wrote. destruct (0 <? tn_written tn) eqn:E; bool_to_prop.
  - unfold moved. simpl. rewrite length_take_le by lia. rewrite Z2Nat.id by lia.
    split; [done|]. split; [unfold add64; apply wrap64_idemp|by apply counted_onBytes].
  - replace (tn_written tn) with 0 by lia. split; [simpl; by rewrite app_nil_r|].
    split; [simpl; by rewrite Z.add_0_r|]. apply counted_refl.
Qed.

(** The bytes a turn refuses for lack of quota. *)
Definition refused (out : option CopyOutcome) (unforwarded : Z) : Z :=
  match out with
  | Some (CopyQuota (PersistFailed _)) => 0
  | Some (CopyQuota _) | Some CopyQuotaExceeded => unforwarded
  | _ => 0
  end.
(** All that was read went through. *)
Definition complete (out : option CopyOutcome) : bool :=
  match out with None | Some CopyDone | Some CopyReadFailed => true | _ => false end.

Lemma copy_turn_spec tn st out st' :
  turn_ok tn → copy_turn stats direction tn st = (out, st') →
  ∃ w, w `prefix_of` tn_data tn ∧ (complete out = true → w = tn_data tn) ∧
    (out = None → tn_readErr tn = None) ∧ (out = Some CopyDone → tn_readErr tn = Some ReadEOF) ∧
    moved w (refused out (Z.of_nat (length (tn_data tn)) - Z.of_nat (length w))) st st'.
Proof.
  intros [Hw Hres] Hturn. unfold copy_turn in Hturn.
  assert (refused (read_end tn) 0 = 0 ∧ complete (read_end tn) = true ∧
    (read_end tn = None → tn_readErr tn = None) ∧
    (read_end tn = Some CopyDone → tn_readErr tn = Some ReadEOF)) as (Hr0 & Hc0 & Hn0 & Hd0)
    by (unfold read_end; by destruct (tn_readErr tn) as [[]|]).
  destruct (_ <=? 0) eqn:E0; bool_to_prop.
  { injection Hturn as <- <-. assert (tn_data tn = []) as -> by (destruct (tn_data tn); simpl in *; [done|lia]).
    exists []. rewrite Z.sub_diag, Hr0. split_and!; [done..|apply moved_refl]. }
  destruct (tn_limiter tn); simpl in Hturn.
  2: { injection Hturn as <- <-. exists []. split_and!; [by exists (tn_data tn)|done..|apply moved_refl]. }
  destruct (tn_reserve tn) as [[allowed r]|e].
  - destruct (Hres allowed r eq_refl) as (Ha & Hwa & Hshort & Hmax).
    pose proof (moved_wrote tn r st ltac:(lia)) as Hm.
    set (w := take (Z.to_nat (tn_written tn)) (tn_data tn)) in *.
    assert (w `prefix_of` tn_data tn) as Hpre by apply prefix_take.
    assert (Z.of_nat (length w) = tn_written tn) as Hlen by (unfold w; rewrite length_take_le; lia).
    assert (tn_written tn = Z.of_nat (length (tn_data tn)) → w = tn_data tn) as Hfull
      by (intros; unfold w; apply take_ge; lia).
    set (st1 := wrote stats direction tn r st) in *. clearbody st1 w.
    destruct (tn_writeOk tn); simpl in Hturn; [|injection Hturn as <- <-; exists w; by split_and!].
    destruct (tn_written tn =? _) eqn:Ef; bool_to_prop.
    + injection Hturn as <- <-. rewrite (Hfull Ef) in Hm. exists (tn_data tn). rewrite Z.sub_diag, Hr0. by split_and!.
    + destruct ((_ =? allowed) && _) eqn:Eq; bool_to_prop.
      * injection Hturn as <- <-. exists w. split_and!; [done..|]. simpl. rewrite Hlen.
        assert (sub64 (Z.of_nat (length (tn_data tn))) allowed
          = Z.of_nat (length (tn_data tn)) - tn_written tn) as ->.
        { rewrite sub64_id by (unfold in_int64, int64_min in *; lia). lia. }
        rewrite <-(app_nil_r w). rewrite <-(Z.add_0_l (_ - _)).
        eapply moved_trans; [exact Hm|]. apply moved_reject. lia.
      * injection Hturn as <- <-. exists w. by split_and!.
  - injection Hturn as <- <-. exists []. split_and!; [by exists (tn_data tn)|done..|].
    simpl. rewrite Z.sub_0_r. destruct e; [apply moved_reject; lia|apply moved_refl|apply moved_reject; lia].
Qed.

(** the copy loop forwards a prefix of what it read, in order, and counts
    it once: after any number of turns the destination has received exactly the
    bytes that the total and the rule's upload or download counter report; when
    the loop goes on, ends at the end of the source or with a read error nothing
    read was lost; and when the quota ends it, the rejected bytes are exactly
    those read and not forwarded. *)
Theorem copy_conserves turns st out st' :
  Forall turn_ok turns → copy_loop stats direction turns st = (out, st') →
  ∃ used rest w, turns = used ++ rest ∧ w `prefix_of` concat (tn_data <$> used) ∧
    (complete out = true → w = concat (tn_data <$> used)) ∧
    (out = None → rest = []) ∧
    (out = Some CopyDone → ∃ tn, last used = Some tn ∧ tn_readErr tn = Some ReadEOF) ∧
    moved w (refused out (Z.of_nat (length (concat (tn_data <$> used))) - Z.of_nat (length w))) st st'.
Proof.
  intros Hall. revert st. induction Hall as [|tn turns Htn _ IH]; intros st Hloop; simpl in Hloop.
  - injection Hloop as <- <-. exists [], [], []. simpl. split_and!; [done..|apply moved_refl].
  - destruct (copy_turn stats direction tn st) as [o st1] eqn:Et.
    destruct (copy_turn_spec tn st o st1 Htn Et) as (w & Hpre & Hcomp & Hnone & Hdone & Hm).
    destruct o as [o|].
    + injection Hloop as <- <-. exists [tn], turns, w. simpl. rewrite app_nil_r.
      split_and!; [done..| |done]. intros Ho. exists tn. auto.
    + rewrite (Hcomp eq_refl) in Hm. destruct (IH st1 Hloop) as (used & rest & w2 & -> & Hpre2 & Hc2 & Hn2 & Hd2 & Hm2).
      exists (tn :: used), rest, (tn_data tn ++ w2). simpl. rewrite !length_app, !Nat2Z.inj_add.
      split_and!; [done|by apply prefix_app|intros Ho; f_equal; auto|done| |].
      * intros Ho. destruct (Hd2 Ho) as (tn' & Hl & He). exists tn'. split; [|done].
        by destruct used; [|rewrite last_cons_cons].
      * pose proof (moved_trans _ _ _ _ _ _ _ Hm Hm2) as Hm3. cbn [refused] in Hm3.
        rewrite Z.add_0_l in Hm3. match type of Hm3 with moved _ (refused _ ?x) _ _ =>
          match goal with |- moved _ (refused _ ?y) _ _ => replace y with x; [exact Hm3|] end end.
        change (list_fmap Turn (list ascii) tn_data used) with (tn_data <$> used). lia.
Qed.
End copy_spec.

(** ** The relay loop *)

(** What ends a relay early: a copy that failed, the end of the context, or a
    timer that finds no pending data and the connection idle for long enough. *)
Definition cause (idle : Z) (ev : RelayEvent) : bool :=
  match ev with
  | RlResult _ failed => failed
  | RlCtxDone => true
  | RlIdle pending idleFor => negb pending && (idle <=? idleFor)
  end.

Definition results (evs : list RelayEvent) : list Side :=
  omap (λ ev, match ev with RlResult dst _ => Some dst | _ => None end) evs.

Fixpoint before_cause (idle : Z) (evs : list RelayEvent) : list RelayEvent :=
  match evs with
  | [] => []
  | ev :: evs => if cause idle ev then [] else ev :: before_cause idle evs
  end.

Lemma relay_run_closing idle evs st st' :
  relay_run idle evs st = Some st' → rl_closing st = true →
  rl_closing st' = true ∧ rl_halfClosed st' = rl_halfClosed st.
Proof.
  revert st. induction evs as [|ev evs IH]; intros st; [by intros [= <-]|].
  simpl. destruct (relay_step idle ev st) as [st1|] eqn:E; [|done]. intros Hrun Hc.
  assert (rl_closing st1 = true ∧ rl_halfClosed st1 = rl_halfClosed st) as [Hc1 Hh1].
  { unfold relay_step, closeBoth in E. rewrite Hc in E. simpl in E. rewrite Hc in E.
    repeat case_match; simplify_eq/=; done. }
  rewrite <-Hh1. by apply IH.
Qed.

Lemma relay_run_spec idle evs st st' :
  relay_run idle evs st = Some st' → rl_closing st = false → NoDup (rl_copies st) →
  rl_closing st' = existsb (cause idle) evs ∧
  rl_halfClosed st' = rl_halfClosed st ++ results (before_cause idle evs).
Proof.
  revert st. induction evs as [|ev evs IH]; intros st.
  { intros [= <-] Hc _. simpl. by rewrite app_nil_r. }
  simpl. destruct (relay_step idle ev st) as [st1|] eqn:E; [|done]. intros Hrun Hc Hnd.
  destruct (cause idle ev) eqn:Ec.
  - assert (rl_closing st1 = true ∧ rl_halfClosed st1 = rl_halfClosed st) as [Hc1 Hh1].
    { unfold relay_step, closeBoth in E. destruct (rl_copies st); [done|].
      destruct ev as [dst failed| |pending t]; simpl in Ec.
      - subst failed. case_bool_decide; [|done]. simpl in E. rewrite Hc in E. by injection E as <-.
      - destruct (rl_ctxArmed st); [|done]. rewrite Hc in E. by injection E as <-.
      - destruct (rl_idleArmed st); [|done]. apply andb_true_iff in Ec as [Ep Et].
        destruct pending; [done|]. rewrite Et, Hc in E. by injection E as <-. }
    destruct (relay_run_closing _ _ _ _ Hrun Hc1) as [-> ->]. simpl. by rewrite app_nil_r, Hh1.
  - assert (rl_closing st1 = false ∧ NoDup (rl_copies st1) ∧
      rl_halfClosed st1 = rl_halfClosed st ++ results [ev]) as (Hc1 & Hnd1 & Hh1).
    { unfold relay_step in E. destruct (rl_copies st) eqn:Ecp; [done|].
      destruct ev as [dst failed| |pending t]; simpl in Ec; [| done|].
      - subst failed. case_bool_decide; [|done]. simpl in E. rewrite Hc in E. injection E as <-. simpl.
        split_and!; [done| |done]. apply NoDup_filter. by rewrite Ecp.
      - destruct (rl_idleArmed st); [|done]. simpl. rewrite app_nil_r.
        apply andb_false_iff in Ec as [Ep|Et].
        + destruct pending; [|done]. injection E as <-. by rewrite Ecp.
        + rewrite Et in E. destruct pending; injection E as <-; by rewrite Ecp. }
    destruct (IH st1 Hrun Hc1 Hnd1) as [-> ->]. split; [done|]. rewrite Hh1, <-app_assoc. f_equal.
    unfold results. by destruct ev.
Qed.

Lemma relay_copies idle evs st st' :
  relay_run idle evs st = Some st' → NoDup (rl_copies st) →
  rl_copies st ≡ₚ results evs ++ rl_copies st'.
Proof.
  revert st. induction evs as [|ev evs IH]; intros st; [by intros [= <-]|].
  simpl. destruct (relay_step idle ev st) as [st1|] eqn:E; [|done]. intros Hrun Hnd.
  unfold relay_step in E. destruct (rl_copies st) as [|x xs] eqn:Ecp; [done|]. rewrite <-Ecp in *.
  destruct ev as [dst failed| |pending t].
  - case_bool_decide as Hin; [|done]. injection E as E.
    assert (rl_copies st1 = filter (λ s, s ≠ dst) (rl_copies st)) as Hcp
      by (subst st1; unfold closeBoth; by repeat case_match).
    apply IH in Hrun; [|rewrite Hcp; by apply NoDup_filter].
    change (results (RlResult dst failed :: evs)) with (dst :: results evs).
    rewrite <-app_comm_cons, <-Hrun, Hcp. clear -Hin Hnd. apply NoDup_Permutation; [done| |].
    + constructor; [by intros [? _]%list_elem_of_filter|by apply NoDup_filter].
    + intros y. rewrite elem_of_cons, list_elem_of_filter. destruct (decide (y = dst)); naive_solver.
  - destruct (rl_ctxArmed st); [|done]. injection E as E.
    assert (rl_copies st1 = rl_copies st) as Hcp by (subst st1; unfold closeBoth; by case_match).
    apply IH in Hrun; [by rewrite Hcp in Hrun|by rewrite Hcp].
  - destruct (rl_idleArmed st); [|done]. injection E as E.
    assert (rl_copies st1 = rl_copies st) as Hcp by (subst st1; unfold closeBoth; by repeat case_match).
    apply IH in Hrun; [by rewrite Hcp in Hrun|by rewrite Hcp].
Qed.

(** a relay ends exactly when both directions have reported, each once;
    both connections are closed early iff a copy failed, the context ended, or
    the idle timer found the connection idle with nothing pending; and before
    that every direction that ends cleanly is half-closed, in order. *)
Theorem relay_ends_once idle evs st :
  relay_run idle evs (new_relay idle) = Some st →
  [TargetSide; ClientSide] ≡ₚ results evs ++ rl_copies st ∧
  rl_closing st = existsb (cause idle) evs ∧
  rl_halfClosed st = results (before_cause idle evs).
Proof.
  intros Hrun. assert (NoDup (rl_copies (new_relay idle))) as Hnd
    by (refine (bool_decide_unpack _ _); by vm_compute).
  split; [exact (relay_copies idle evs _ _ Hrun Hnd)|]. by apply (relay_run_spec idle evs (new_relay idle)).
Qed.

(** ** Idle timeouts *)

Definition idle_rule (timeout : Z) : Rule := {|
  RuleID := "r"; Name := "r"; Proto := "tcp"; ListenAddr := ""; ListenPort := 8080;
  TargetAddr := "10.0.0.1"; TargetPort := 80; Enabled := true; SpeedLimit := 0; Bandwidth := None;
  Quota := None; MaxConn := 2; IdleTimeout := timeout; SourceIPMode := ""; SourceIPs := []; Domains := [];
  Remark := ""; Revision := 1; CreatedTime := 0; UpdatedTime := 0 |}.

(** (finding) the conversion of [idle_timeout] to nanoseconds wraps
    around and validation has no upper bound: a valid rule with 18446744074
    seconds reaps connections after 290 milliseconds, one with 9223372037 never
    arms the idle timer. *)
Theorem idle_timeout_wraps :
  is_ok (@Validate utc_database (idle_rule 18446744074)) = true ∧
  effectiveIdleTimeout (idle_rule 18446744074) = 290448384 ∧
  is_ok (@Validate utc_database (idle_rule 9223372037)) = true ∧
  rl_idleArmed (new_relay (effectiveIdleTimeout (idle_rule 9223372037))) = false.
Proof. by vm_compute. Qed.

(** ** Witnesses *)

Definition tcp_collector : Collector := (bindRule 0 "r" NewCollector).2.

Lemma tcp_collector_gauge l k :
  (Some 1%positive : boundRuleStats) = Some l → heap tcp_collector !! l = Some k → conns k = wrap64 0.
Proof.
  intros [= <-] Hk. assert (heap tcp_collector !! 1%positive = Some (new_counter 0)) as Hc by by vm_compute.
  rewrite Hc in Hk. by injection Hk as <-.
Qed.

(** A release between the load and the compare-and-swap makes the swap fail. *)
Definition tcp_traffic : list TCPEvent :=
  [EvAccept 0 NilAddr; EvSlotLoad; EvSlotSwap; EvHandle 0 1; EvAccept 0 NilAddr; EvSlotLoad;
   EvHandlerClose 1; EvHandlerRelease 1; EvSlotSwap; EvSlotLoad; EvSlotSwap].

Lemma tcp_slots_exact_witness :
  ∃ st, @tcp_run utc_database (idle_rule 0) (Some 1%positive) None tcp_traffic
          (new_tcp tcp_collector (empty_ledger false)) = Some st ∧
    slots st = 1 ∧ t_active st = wrap64 (slots st).
Proof.
  set (r := @tcp_run utc_database (idle_rule 0) (Some 1%positive) None tcp_traffic
    (new_tcp tcp_collector (empty_ledger false))).
  assert ((slots <$> r) = Some 1) as Hs by by vm_compute.
  destruct r as [st|] eqn:E; [|discriminate Hs]. injection Hs as Hs. exists st.
  split; [done|]. split; [exact Hs|].
  apply (@tcp_slots_exact utc_database (idle_rule 0) (Some 1%positive) None 0 tcp_collector
    (empty_ledger false) tcp_traffic st); [|exact tcp_collector_gauge|exact E].
  unfold in_int64, int64_min, int64_max. simpl. lia.
Defined.

(** Three bytes, of which the quota allows two. *)
Definition sample_turns : list Turn :=
  [{| tn_now := 0; tn_data := ["a"%char]; tn_readErr := None; tn_limiter := true;
      tn_reserve := Ok (1, None); tn_written := 1; tn_writeOk := true |};
   {| tn_now := 0; tn_data := ["b"%char; "c"%char]; tn_readErr := None; tn_limiter := true;
      tn_reserve := Ok (1, None); tn_written := 1; tn_writeOk := true |}].

Lemma copy_conserves_witness :
  let st := {| cp_total := 0; cp_output := []; cp_stats := tcp_collector; cp_ledger := empty_ledger false |} in
  let '(out, st') := copy_loop (Some 1%positive) trafficUpload sample_turns st in
  out = Some CopyQuotaExceeded ∧ cp_output st' = ["a"%char; "b"%char] ∧
  ∃ used rest w, sample_turns = used ++ rest ∧ w `prefix_of` concat (tn_data <$> used) ∧ cp_output st' = w.
Proof.
  intros st. destruct (copy_loop (Some 1%positive) trafficUpload sample_turns st) as [out st'] eqn:E.
  assert ((copy_loop (Some 1%positive) trafficUpload sample_turns st).1 = Some CopyQuotaExceeded ∧
    cp_output (copy_loop (Some 1%positive) trafficUpload sample_turns st).2 = ["a"%char; "b"%char])
    as [H1 H2] by (split; by vm_compute).
  rewrite E in H1, H2. split; [exact H1|]. split; [exact H2|].
  destruct (copy_conserves (Some 1%positive) trafficUpload sample_turns st out st')
    as (used & rest & w & Hu & Hp & _ & _ & _ & (Ho & _)); [|exact E|].
  - apply Forall_cons. split; [|apply Forall_cons; split; [|apply Forall_nil; exact I]];
      (split; [simpl; lia|]); intros allowed r [= <- <-]; unfold int64_max; simpl; lia.
  - exists used, rest, w. split; [exact Hu|]. split; [exact Hp|exact Ho].
Defined.

Definition sample_relay : list RelayEvent :=
  [RlIdle false 5; RlResult TargetSide false; RlIdle false 60; RlResult ClientSide true].

Lemma relay_ends_once_witness :
  ∃ st, relay_run 60 sample_relay (new_relay 60) = Some st ∧
    rl_closing st = true ∧ rl_halfClosed st = [TargetSide].
Proof.
  set (st := {| rl_copies := []; rl_closing := true; rl_ctxArmed := false; rl_idleArmed := false;
    rl_halfClosed := [TargetSide] |}).
  assert (relay_run 60 sample_relay (new_relay 60) = Some st) as Hrun by by vm_compute.
  exists st. split; [exact Hrun|].
  destruct (relay_ends_once 60 sample_relay st Hrun) as (_ & Hc & Hh).
  split; [exact Hc|exact Hh].
Defined.
