(* ===== verification/UDPSpec.v ===== *)
(** * What a UDP runner guarantees (engine/udp.go)

    Invariants of every run of the state machine of [UDP]: the table holds
    exactly the open sessions, within the rule's limit, each with one unit of
    the shared budget and one of the connection gauge; the byte count of a
    session's queue is what the queue and the goroutines hold; a stopped runner
    has given everything back. *)

From S2P Require Import Prelude GoStrings Calendar NetIP SourceIP Limits Rule Stats Quota Traffic UDP.

Section udp.
Context {tzdb : TzDatabase}.
Context (rule : Rule) (stats : boundRuleStats) (matcher : option sourceIPMatcher).
Implicit Types (st : udpState) (s : udpSession) (sid : positive).

(** ** The table, the budget and the gauge *)

(** Units of the budget taken by the other rules. *)
Definition other_units (ev : UDPEvent) : Z :=
  match ev with EvOtherAcquire => 1 | EvOtherRelease => -1 | _ => 0 end.
Definition others (evs : list UDPEvent) : Z := foldr (λ ev n, other_units ev + n) 0 evs.

Definition open_count st : Z := Z.of_nat (size (u_sessions st)).

Record table_inv (units gauge : Z) st : Prop := {
  ti_table : ∀ key sid, u_sessions st !! key = Some sid →
    ∃ s, u_heap st !! sid = Some s ∧ us_client s = key ∧ us_closed s = false;
  ti_open : ∀ sid s, u_heap st !! sid = Some s → us_closed s = false →
    u_sessions st !! us_client s = Some sid;
  ti_next : ∀ sid s, u_heap st !! sid = Some s → (sid < u_next st)%positive;
  ti_limit : open_count st ≤ sessionLimit rule;
  ti_units : b_active (u_budget st) = units + open_count st;
  ti_pos : 0 ≤ units;
  ti_gauge : ∀ l k, stats = Some l → heap (u_stats st) !! l = Some k →
    conns k = wrap64 (gauge + open_count st);
}.

(** Changes of a session object that the table does not see. *)
Definition inert (f : udpSession → udpSession) : Prop :=
  ∀ s, us_client (f s) = us_client s ∧ us_closed (f s) = us_closed s.

(** The connection gauge of the handle is untouched. *)
Definition same_gauge (c c' : Collector) : Prop :=
  ∀ l k', stats = Some l → heap c' !! l = Some k' → ∃ k, heap c !! l = Some k ∧ conns k' = conns k.

Lemma same_gauge_refl c : same_gauge c c.
Proof. intros l k' _ Hk. by exists k'. Qed.

Lemma same_gauge_trans c1 c2 c3 : same_gauge c1 c2 → same_gauge c2 c3 → same_gauge c1 c3.
Proof.
  intros H1 H2 l k3 Hl H3. destruct (H2 l k3 Hl H3) as (k2 & Hk2 & ->).
  by apply H1.
Qed.

Lemma update_same_gauge f c : (∀ k, conns (f k) = conns k) → same_gauge c (update stats f c).
Proof.
  intros Hf l k' Hl. unfold update. rewrite Hl. simpl. rewrite lookup_alter_eq.
  destruct (heap c !! l) as [k|]; simpl; [|done]. intros [= <-]. by exists k.
Qed.

Lemma table_frame units gauge st st' :
  u_sessions st' = u_sessions st → u_heap st' = u_heap st → u_next st' = u_next st →
  b_active (u_budget st') = b_active (u_budget st) → same_gauge (u_stats st) (u_stats st') →
  table_inv units gauge st → table_inv units gauge st'.
Proof.
  intros Hs Hh Hn Hb Hg [H1 H2 H3 H4 H5 H6 H7].
  split; unfold open_count in *; rewrite ?Hs, ?Hh, ?Hn, ?Hb; try done.
  intros l k' Hl Hk. destruct (Hg l k' Hl Hk) as (k & Hk1 & ->). by apply (H7 l).
Qed.

Lemma table_alter units gauge sid f st :
  inert f → table_inv units gauge st → table_inv units gauge (alter_session sid f st).
Proof.
  intros Hf [H1 H2 H3 H4 H5 H6 H7]. split; simpl; try done.
  - intros key sid' Hk. destruct (H1 key sid' Hk) as (s & Hs & Hc & Hcl).
    destruct (decide (sid = sid')) as [->|Hne].
    + exists (f s). rewrite lookup_alter_eq, Hs. destruct (Hf s) as [-> ->]. done.
    + exists s. by rewrite lookup_alter_ne.
  - intros sid' s' Hs Hc. destruct (decide (sid = sid')) as [->|Hne].
    + rewrite lookup_alter_eq in Hs. destruct (u_heap st !! sid') as [s|] eqn:E; [|done].
      injection Hs as <-. destruct (Hf s) as [Hc1 Hc2]. rewrite Hc1. rewrite Hc2 in Hc. by apply H2.
    + rewrite lookup_alter_ne in Hs by done. by apply H2.
  - intros sid' s' Hs. destruct (decide (sid = sid')) as [->|Hne].
    + rewrite lookup_alter_eq in Hs. destruct (u_heap st !! sid') as [s|] eqn:E; [|done]. by apply (H3 _ s).
    + rewrite lookup_alter_ne in Hs by done. by apply (H3 _ s').
Qed.

Lemma inert_compose f g : inert f → inert g → inert (λ s, f (g s)).
Proof. intros Hf Hg s. destruct (Hf (g s)) as [-> ->]. apply Hg. Qed.

Lemma touch_inert now : inert (touch now). Proof. done. Qed.
Lemma add_queued_inert d : inert (add_queued d). Proof. done. Qed.
Lemma set_queue_inert (q : udpSession → list udpQueuedPacket) : inert (λ s, set_queue (q s) s).
Proof. done. Qed.
Lemma set_uploader_inert u : inert (set_uploader u). Proof. done. Qed.
Lemma set_download_inert d p : inert (set_download d p). Proof. done. Qed.

(** *** Closing a session *)

Lemma budget_release b : 0 < b_active b → b_active (release b) = b_active b - 1.
Proof. intros Hb. unfold release. apply Z.ltb_lt in Hb. by rewrite Hb. Qed.

(** What closing does, when the session is the one in the table. *)
Lemma close_spec units gauge now key sid st :
  table_inv units gauge st → u_sessions st !! key = Some sid →
  let st' := closeSessionLocked stats now key sid st in
  table_inv units gauge st' ∧ u_sessions st' = delete key (u_sessions st) ∧
  u_heap st' = alter shut sid (u_heap st) ∧ u_reader st' = u_reader st ∧
  u_cancelled st' = u_cancelled st.
Proof.
  intros [H1 H2 H3 H4 H5 H6 H7] Hk. destruct (H1 key sid Hk) as (s & Hs & Hc & Hcl).
  cbv zeta. unfold closeSessionLocked. rewrite Hk, Hs, (bool_decide_eq_true_2 _ eq_refl), Hcl.
  cbn [negb orb]. split; [|done].
  assert (Z.of_nat (size (u_sessions st)) = Z.of_nat (size (delete key (u_sessions st))) + 1) as Hsz.
  { rewrite <-(insert_delete_id (u_sessions st) key sid Hk) at 1.
    rewrite map_size_insert_None by apply lookup_delete_eq. lia. }
  unfold open_count in *. split; unfold open_count; simpl.
  - intros k sid' [Hne Hk']%lookup_delete_Some. destruct (H1 k sid' Hk') as (s' & Hs' & Hc' & Hcl').
    exists s'. rewrite lookup_alter_ne; [done|]. intros <-. rewrite Hs in Hs'. by simplify_eq.
  - intros sid' s' Hs' Hcl'. destruct (decide (sid = sid')) as [<-|Hne].
    + rewrite lookup_alter_eq, Hs in Hs'. injection Hs' as <-. discriminate Hcl'.
    + rewrite lookup_alter_ne in Hs' by done. pose proof (H2 sid' s' Hs' Hcl') as Hin.
      rewrite lookup_delete_ne; [done|]. intros E. rewrite <-E, Hk in Hin. by simplify_eq.
  - intros sid' s' Hs'. destruct (decide (sid = sid')) as [<-|Hne]; [by apply (H3 _ s)|].
    rewrite lookup_alter_ne in Hs' by done. by apply (H3 _ s').
  - lia.
  - rewrite budget_release; lia.
  - done.
  - intros l k' Hl. unfold decConns, update. rewrite Hl. simpl. rewrite lookup_alter_eq.
    destruct (heap (u_stats st) !! l) as [k|] eqn:E; simpl; [|done]. intros [= <-]. simpl.
    unfold add64. rewrite (H7 l k Hl E), wrap64_add_l. f_equal. lia.
Qed.

Lemma remove_spec units gauge now key sid st :
  table_inv units gauge st →
  let st' := removeSession stats now key sid st in
  table_inv units gauge st' ∧ u_sessions st' ⊆ u_sessions st ∧ u_reader st' = u_reader st ∧
  u_cancelled st' = u_cancelled st ∧ (u_heap st' = u_heap st ∨ u_heap st' = alter shut sid (u_heap st)).
Proof.
  intros Hinv. cbv zeta. unfold removeSession. destruct (u_sessions st !! key) as [sid'|] eqn:E.
  - case_bool_decide as Hs; [|by split_and!; auto]. subst sid'.
    destruct (close_spec units gauge now key sid st Hinv E) as (H1 & H2 & H3 & H4 & H5).
    split_and!; [done| |done|done|by right]. rewrite H2. apply delete_subseteq.
  - by split_and!; auto.
Qed.

(** *** Opening a session *)

Lemma open_spec units gauge now client dialed st r st' :
  table_inv units gauge st → u_sessions st !! client = None →
  open_session rule stats now client dialed st = (r, st') →
  table_inv units gauge st' ∧ u_reader st' = u_reader st ∧ u_cancelled st' = u_cancelled st ∧
  match r with
  | None => u_sessions st' = u_sessions st ∧ u_heap st' = u_heap st
  | Some sid => u_cancelled st = false ∧ sid = u_next st ∧
      u_sessions st' = <[client := sid]> (u_sessions st) ∧
      u_heap st' = <[sid := new_session rule client now]> (u_heap st)
  end.
Proof.
  intros Hinv Hnone. unfold open_session. destruct (u_cancelled st) eqn:Ec; [by intros [= <- <-]|].
  assert (table_inv units gauge (count stats (incUDPSessionRejected (unix now)) st)) as Hrej.
  { apply (table_frame _ _ st); [done..| |exact Hinv]. by apply update_same_gauge. }
  destruct (sessionLimit rule <=? Z.of_nat (size (u_sessions st))) eqn:El; [by intros [= <- <-]|].
  destruct (tryAcquire (u_budget st)) as [[] b] eqn:Eb; cbn [negb]; [|by intros [= <- <-]].
  apply tryAcquire_true in Eb as (Hb1 & Hb2 & Hb3).
  destruct dialed; cbn [negb]; intros [= <- <-].
  2: { split; [|done]. apply (table_frame _ _ st); [done..| |apply same_gauge_refl|exact Hinv]. simpl.
       pose proof (ti_units _ _ _ Hinv). pose proof (ti_pos _ _ _ Hinv). unfold open_count in *.
       rewrite budget_release; lia. }
  split; [|done]. destruct Hinv as [H1 H2 H3 H4 H5 H6 H7].
  assert (u_heap st !! u_next st = None) as Hfresh.
  { destruct (u_heap st !! u_next st) as [s|] eqn:E; [|done]. apply H3 in E. lia. }
  split; unfold open_count; simpl.
  - intros key sid. rewrite lookup_insert_Some. intros [[<- <-]|[Hne Hk]].
    + exists (new_session rule client now). by rewrite lookup_insert_eq.
    + destruct (H1 key sid Hk) as (s & Hs & Hc & Hcl). exists s. rewrite lookup_insert_ne; [done|].
      intros <-. congruence.
  - intros sid s. rewrite lookup_insert_Some. intros [[<- <-]|[Hne Hs]] Hcl.
    + apply lookup_insert_eq.
    + pose proof (H2 sid s Hs Hcl) as Hin. rewrite lookup_insert_ne; [done|]. intros E. congruence.
  - intros sid s. rewrite lookup_insert_Some. intros [[<- _]|[_ Hs]]; [lia|]. apply H3 in Hs. lia.
  - rewrite map_size_insert_None by done. bool_to_prop. lia.
  - rewrite map_size_insert_None by done. unfold open_count in *. lia.
  - done.
  - intros l k' Hl. unfold incConns, update. rewrite Hl. simpl. rewrite lookup_alter_eq.
    destruct (heap (u_stats st) !! l) as [k|] eqn:E; simpl; [|done]. intros [= <-]. simpl.
    unfold add64. rewrite (H7 l k Hl E), wrap64_add_l, map_size_insert_None by done.
    unfold open_count. f_equal. lia.
Qed.

(** *** Every step *)

Lemma table_count units gauge op st :
  (∀ c, same_gauge c (op stats c)) → table_inv units gauge st → table_inv units gauge (count stats op st).
Proof. intros Hg Hinv. by apply (table_frame _ _ st); [done..|apply Hg|]. Qed.

Lemma table_reader units gauge r st : table_inv units gauge st → table_inv units gauge (set_reader r st).
Proof. intros Hinv. by apply (table_frame _ _ st); [done..|apply same_gauge_refl|]. Qed.

Lemma table_ledger units gauge l st : table_inv units gauge st → table_inv units gauge (set_ledger l st).
Proof. intros Hinv. by apply (table_frame _ _ st); [done..|apply same_gauge_refl|]. Qed.

Lemma table_output units gauge a b st : table_inv units gauge st → table_inv units gauge (set_output a b st).
Proof. intros Hinv. by apply (table_frame _ _ st); [done..|apply same_gauge_refl|]. Qed.

Lemma table_finish units gauge n r st : table_inv units gauge st → table_inv units gauge (finish_opt n r st).
Proof. destruct r; [apply table_ledger|done]. Qed.

Lemma table_remove units gauge now key sid st :
  table_inv units gauge st → table_inv units gauge (removeSession stats now key sid st).
Proof. intros Hinv. by apply remove_spec. Qed.

Lemma gauge_denied now c : same_gauge c (incSourceIPDenied now stats c).
Proof. by apply update_same_gauge. Qed.
Lemma gauge_rejected now c : same_gauge c (incUDPSessionRejected now stats c).
Proof. by apply update_same_gauge. Qed.
Lemma gauge_dropped now c : same_gauge c (incUDPPacketsDropped now stats c).
Proof. by apply update_same_gauge. Qed.
Lemma gauge_quota now n c : same_gauge c (addQuotaRejectedBytes now stats n c).
Proof. unfold addQuotaRejectedBytes. case_match; [apply same_gauge_refl|by apply update_same_gauge]. Qed.
Lemma gauge_upload now n c : same_gauge c (addUpload now stats n c).
Proof. unfold addUpload. case_match; [apply same_gauge_refl|by apply update_same_gauge]. Qed.
Lemma gauge_download now n c : same_gauge c (addDownload now stats n c).
Proof. unfold addDownload. case_match; [apply same_gauge_refl|by apply update_same_gauge]. Qed.

#[local] Hint Resolve table_count table_reader table_ledger table_output table_finish table_remove table_alter
  gauge_denied gauge_rejected gauge_dropped gauge_quota gauge_upload gauge_download
  touch_inert add_queued_inert set_queue_inert set_uploader_inert set_download_inert : core.

Lemma table_handlePacket units gauge now client payload dialed st :
  table_inv units gauge st →
  table_inv units gauge (handlePacket rule stats matcher now client payload dialed st).
Proof.
  intros Hinv. unfold handlePacket. case_match; [done|]. case_match; [by auto|].
  destruct (quotaBlocked _ _ _) as [blk l]. destruct blk; [by auto 6|].
  destruct (u_sessions (set_ledger l st) !! client) as [sid|] eqn:E; [by auto 6|].
  destruct (open_session _ _ _ _ _ _) as [[sid|] st'] eqn:Eo;
    (eapply open_spec in Eo; [|by apply table_ledger|done]); destruct Eo as (? & _); auto 6.
Qed.

Lemma table_upload units gauge now key sid packet a st :
  table_inv units gauge st →
  table_inv units gauge (upload_packet stats now key sid packet a st).2.
Proof.
  intros Hinv. unfold upload_packet. case_match; simpl; [by auto|].
  destruct (an_reserve a) as [[allowed r]|[|e|]]; simpl; [|by auto 6..].
  case_match; simpl; [by auto 6|]. case_match; simpl; auto 10.
Qed.

Lemma table_download units gauge now key sid payload a st :
  table_inv units gauge st →
  table_inv units gauge (download_packet stats now key sid payload a st).
Proof.
  intros Hinv. unfold download_packet. case_match; [by auto|].
  destruct (an_reserve a) as [[allowed r]|[|e|]]; simpl; [|by auto 6..].
  case_match; [by auto 6|]. case_match; simpl; auto 10.
Qed.

Lemma table_close units gauge now key sid st :
  table_inv units gauge st → table_inv units gauge (closeSessionLocked stats now key sid st).
Proof.
  intros Hinv. destruct (decide (u_sessions st !! key = Some sid)) as [E|E].
  - by apply close_spec.
  - unfold closeSessionLocked. destruct (u_sessions st !! key) as [cur|]; [|done].
    destruct (u_heap st !! sid); [|done]. by rewrite bool_decide_eq_false_2 by congruence.
Qed.

Lemma table_fold {X} units gauge (f : udpState → X → udpState) l st :
  (∀ st x, table_inv units gauge st → table_inv units gauge (f st x)) →
  table_inv units gauge st → table_inv units gauge (foldl f st l).
Proof. intros Hf. revert st. induction l as [|x l IH]; intros st Hinv; [done|]. by apply IH, Hf. Qed.

Lemma table_reader_step units gauge ev st st' :
  step_reader rule stats matcher ev st = Some st' → table_inv units gauge st → table_inv units gauge st'.
Proof.
  intros Hstep Hinv. unfold step_reader in Hstep.
  destruct ev; try discriminate Hstep; destruct (u_reader st); try discriminate Hstep.
  - destruct (fits payload); [|discriminate Hstep]. injection Hstep as <-. by apply table_handlePacket.
  - destruct (u_heap st !! sid) as [s|]; [|discriminate Hstep]. injection Hstep as <-.
    unfold enqueue_account. case_match; auto 6.
  - destruct (u_heap st !! sid) as [s|]; [|discriminate Hstep]. injection Hstep as <-.
    unfold enqueue_offer. repeat case_match; auto 6.
  - injection Hstep as <-. unfold write_now. case_match; auto 6.
Qed.

Lemma table_uploader_step units gauge ev st st' :
  step_uploader stats ev st = Some st' → table_inv units gauge st → table_inv units gauge st'.
Proof.
  intros Hstep Hinv. unfold step_uploader in Hstep. destruct ev; try discriminate Hstep;
    destruct (u_heap st !! sid) as [s|]; try discriminate Hstep; simpl in Hstep;
    destruct (us_uploader s); try discriminate Hstep.
  - destruct (us_queue s) as [|p q]; [discriminate Hstep|]. injection Hstep as <-. by apply table_alter.
  - pose proof (table_upload units gauge now (us_client s) sid packet a st Hinv) as Hup.
    destruct (upload_packet _ _ _ _ _ _ _) as [continue st1]. injection Hstep as <-. by apply table_alter.
  - destruct (session_done s st); [|discriminate Hstep]. injection Hstep as <-. by apply table_alter.
  - destruct (us_queue s) as [|p q]; injection Hstep as <-; by apply table_alter.
Qed.

Lemma table_target_step units gauge ev st st' :
  step_target stats ev st = Some st' → table_inv units gauge st → table_inv units gauge st'.
Proof.
  intros Hstep Hinv. unfold step_target in Hstep. destruct ev; try discriminate Hstep;
    destruct (u_heap st !! sid) as [s|]; try discriminate Hstep; simpl in Hstep.
  - destruct (us_download s); [discriminate Hstep|]. destruct (fits payload); [|discriminate Hstep].
    injection Hstep as <-. by apply table_alter.
  - destruct (us_download s); [|discriminate Hstep]. injection Hstep as <-. by apply table_download.
  - injection Hstep as <-. by apply table_remove.
Qed.

Lemma table_step units gauge ev st st' :
  udp_step rule stats matcher ev st = Some st' → table_inv units gauge st →
  table_inv (units + other_units ev) gauge st'.
Proof.
  intros Hstep Hinv.
  destruct ev; cbn [other_units]; rewrite ?Z.add_0_r; cbn [udp_step] in Hstep;
    try (by eapply table_reader_step); try (by eapply table_uploader_step);
    try (by eapply table_target_step).
  - injection Hstep as <-. apply table_fold; [|done]. intros st1 [key sid] H1. unfold cleanup_one.
    destruct (u_heap st1 !! sid); [|done]. case_match; [by apply table_close|done].
  - injection Hstep as <-. by apply (table_frame _ _ st); [done..|apply same_gauge_refl|].
  - destruct (u_cancelled st); [|discriminate Hstep]. injection Hstep as <-.
    apply table_fold; [|done]. intros st1 x H1. by apply table_close.
  - destruct (tryAcquire (u_budget st)) as [[] b] eqn:Eb; [|discriminate Hstep]. injection Hstep as <-.
    apply tryAcquire_true in Eb as (Hb1 & Hb2 & Hb3). destruct Hinv as [H1 H2 H3 H4 H5 H6 H7].
    split; unfold open_count in *; simpl; try done; lia.
  - case_match eqn:El; [|discriminate Hstep]. injection Hstep as <-. bool_to_prop.
    destruct Hinv as [H1 H2 H3 H4 H5 H6 H7].
    split; unfold open_count in *; simpl; try done; rewrite ?budget_release; lia.
  - injection Hstep as <-. by apply (table_frame _ _ st); [done..|apply same_gauge_refl|].
Qed.

Lemma table_run units gauge evs st st' :
  udp_run rule stats matcher evs st = Some st' → table_inv units gauge st →
  table_inv (units + others evs) gauge st'.
Proof.
  unfold udp_run. revert units st. induction evs as [|ev evs IH]; intros units st; cbn [foldl others foldr].
  - intros [= <-]. by rewrite Z.add_0_r.
  - simpl. destruct (udp_step rule stats matcher ev st) as [st1|] eqn:E.
    + intros Hrun Hinv. rewrite Z.add_assoc. apply (IH (units + other_units ev) st1 Hrun).
      by apply (table_step _ _ _ st).
    + intros Hrun. exfalso. clear -Hrun. induction evs; [done|by apply IHevs].
Qed.

(** ** The byte count of a queue *)

Definition bytes_of (l : list udpQueuedPacket) : Z := foldr (λ p n, pk_accountedBytes p + n) 0 l.
Definition held (u : Uploader) : list udpQueuedPacket := match u with UpBusy p => [p] | _ => [] end.
(** The packet [readLoop] has accounted for and not sent to the queue yet. *)
Definition offered (r : ReaderState) sid : list udpQueuedPacket :=
  match r with RdOffer sid' p => if decide (sid' = sid) then [p] else [] | _ => [] end.

Definition packet_ok (p : udpQueuedPacket) : Prop :=
  pk_accountedBytes p = udpQueuedPacketCapacity (size_of (pk_data p)) ∧
  size_of (pk_data p) ≤ udpMaxDatagramSize.

Record session_ok (extra : list udpQueuedPacket) s : Prop := {
  so_sum : us_queuedBytes s = bytes_of (us_queue s ++ held (us_uploader s) ++ extra);
  so_packets : Forall packet_ok (us_queue s ++ held (us_uploader s) ++ extra);
  so_max : us_queuedBytes s ≤ udpUploadQueueMaxBytes;
  so_cap : (length (us_queue s) ≤ udpUploadQueueCapacity)%nat;
  so_pending : us_pendingDownload s = match us_download s with Some _ => 1 | None => 0 end;
}.

Definition reader_ok st : Prop :=
  match u_reader st with
  | RdIdle => True
  | RdEnqueue sid payload | RdWrite _ sid payload =>
      is_Some (u_heap st !! sid) ∧ size_of payload ≤ udpMaxDatagramSize
  | RdOffer sid _ => is_Some (u_heap st !! sid)
  end.

Record account_inv st : Prop := {
  ai_sessions : ∀ sid s, u_heap st !! sid = Some s → session_ok (offered (u_reader st) sid) s;
  ai_reader : reader_ok st;
}.

Lemma bytes_of_app l1 l2 : bytes_of (l1 ++ l2) = bytes_of l1 + bytes_of l2.
Proof. induction l1 as [|p l1 IH]; simpl; [done|]. rewrite IH. lia. Qed.

Lemma capacity_bounds n : 0 ≤ n ≤ udpMaxDatagramSize → n ≤ udpQueuedPacketCapacity n ≤ udpMaxDatagramSize.
Proof.
  unfold udpQueuedPacketCapacity, udpMaxDatagramSize. intros Hn.
  repeat case_match; bool_to_prop; lia.
Qed.

Lemma packet_bytes p : packet_ok p → 0 ≤ pk_accountedBytes p ≤ udpMaxDatagramSize.
Proof.
  intros [-> Hp]. assert (0 ≤ size_of (pk_data p)) by (unfold size_of; lia).
  pose proof (capacity_bounds (size_of (pk_data p))). lia.
Qed.

Lemma bytes_nonneg l : Forall packet_ok l → 0 ≤ bytes_of l.
Proof.
  induction 1 as [|p l Hp _ IH]; simpl; [lia|]. pose proof (packet_bytes p Hp). lia.
Qed.

(** A packet that leaves is subtracted without wrap-around. *)
Lemma give_back (q : Z) (p : udpQueuedPacket) :
  packet_ok p → 0 ≤ q ≤ udpUploadQueueMaxBytes → pk_accountedBytes p ≤ q →
  add64 q (- pk_accountedBytes p) = q - pk_accountedBytes p.
Proof.
  intros Hp Hq Hle. pose proof (packet_bytes p Hp). rewrite add64_id; [lia|].
  unfold in_int64, int64_min, int64_max, udpUploadQueueMaxBytes, udpMaxDatagramSize in *. lia.
Qed.

(** Replacing the packets of a session: [gone] leave, the rest stay. *)
Lemma session_gone extra extra' s q u p :
  session_ok extra s →
  us_queue s ++ held (us_uploader s) ++ extra ≡ₚ p :: (q ++ held u ++ extra') →
  (length q ≤ udpUploadQueueCapacity)%nat →
  session_ok extra' (set_uploader u (set_queue q (add_queued (- pk_accountedBytes p) s))).
Proof.
  intros [Hsum Hall Hmax Hcap Hpend] Hperm Hq. rewrite Hperm in Hall.
  apply Forall_cons in Hall as [Hp Hall].
  assert (us_queuedBytes s = pk_accountedBytes p + bytes_of (q ++ held u ++ extra')) as Hsum'.
  { rewrite Hsum. clear -Hperm. change (pk_accountedBytes p + bytes_of (q ++ held u ++ extra'))
      with (bytes_of (p :: (q ++ held u ++ extra'))).
    induction Hperm; simpl; lia. }
  pose proof (bytes_nonneg _ Hall). pose proof (packet_bytes p Hp).
  split; simpl; [|done| |done|done].
  - rewrite give_back; [lia|done|lia|lia].
  - rewrite give_back; [lia|done|lia|lia].
Qed.

(** *** What a step does to the accounts of one session *)

(** Equal up to the fields the accounts do not mention. *)
Definition acct_like s1 s2 : Prop :=
  us_queue s1 = us_queue s2 ∧ us_queuedBytes s1 = us_queuedBytes s2 ∧
  us_pendingDownload s1 = us_pendingDownload s2 ∧ us_uploader s1 = us_uploader s2 ∧
  us_download s1 = us_download s2.

Definition respects (g : udpSession → udpSession) : Prop :=
  ∀ s1 s2, acct_like s1 s2 → acct_like (g s1) (g s2).

(** [st'] is [st] with session [sid] changed by [g], up to [acct_like]. *)
Definition effect sid (g : udpSession → udpSession) st st' : Prop :=
  u_reader st' = u_reader st ∧
  ∃ f, u_heap st' = alter f sid (u_heap st) ∧ ∀ s, acct_like (f s) (g s).

Lemma acct_like_refl s : acct_like s s.
Proof. done. Qed.

Lemma acct_like_trans s1 s2 s3 : acct_like s1 s2 → acct_like s2 s3 → acct_like s1 s3.
Proof. unfold acct_like. naive_solver congruence. Qed.

Lemma acct_like_ok extra s1 s2 : acct_like s1 s2 → session_ok extra s2 → session_ok extra s1.
Proof.
  intros (E1 & E2 & E3 & E4 & E5) [H1 H2 H3 H4 H5].
  split; rewrite ?E1, ?E2, ?E3, ?E4, ?E5; done.
Qed.

Lemma effect_id sid st st' :
  u_reader st' = u_reader st → u_heap st' = u_heap st → effect sid id st st'.
Proof.
  intros Hr Hh. split; [done|]. exists id. rewrite Hh. split; [|done].
  symmetry. by apply alter_id.
Qed.

Lemma effect_alter sid g st : effect sid g st (alter_session sid g st).
Proof. split; [done|]. by exists g. Qed.

Lemma effect_trans sid g1 g2 st1 st2 st3 :
  respects g2 → effect sid g1 st1 st2 → effect sid g2 st2 st3 → effect sid (λ s, g2 (g1 s)) st1 st3.
Proof.
  intros Hg (Hr1 & f1 & Hh1 & H1) (Hr2 & f2 & Hh2 & H2). split; [congruence|].
  exists (f2 ∘ f1). split.
  { rewrite Hh2, Hh1. apply map_eq. intros i. destruct (decide (sid = i)) as [->|Hne].
    - rewrite !lookup_alter_eq. by destruct (u_heap st1 !! i).
    - by rewrite !lookup_alter_ne. }
  intros s. apply (acct_like_trans _ (g2 (f1 s))); [apply H2|by apply Hg].
Qed.

Lemma effect_silent sid g st1 st2 st3 : effect sid g st1 st2 → effect sid id st2 st3 → effect sid g st1 st3.
Proof.
  intros H1 H2. refine (effect_trans sid g id _ st2 _ _ H1 H2). by intros ? ? ?.
Qed.

Lemma effect_before sid g st1 st2 st3 :
  respects g → effect sid id st1 st2 → effect sid g st2 st3 → effect sid g st1 st3.
Proof. intros Hg H1 H2. exact (effect_trans sid id g _ st2 _ Hg H1 H2). Qed.

Lemma effect_close now key sid st : effect sid id st (closeSessionLocked stats now key sid st).
Proof.
  unfold closeSessionLocked. destruct (u_sessions st !! key); [|by apply effect_id].
  destruct (u_heap st !! sid); [|by apply effect_id]. case_match; [by apply effect_id|].
  split; [done|]. by exists shut.
Qed.

Lemma effect_remove now key sid st : effect sid id st (removeSession stats now key sid st).
Proof.
  unfold removeSession. destruct (u_sessions st !! key) as [sid'|] eqn:E; [|by apply effect_id].
  case_bool_decide as Hs; [|by apply effect_id]. subst. apply effect_close.
Qed.

Lemma effect_finish sid n r st : effect sid id st (finish_opt n r st).
Proof. destruct r; by apply effect_id. Qed.

Lemma effect_touch now sid st : effect sid id st (alter_session sid (touch now) st).
Proof. split; [done|]. by exists (touch now). Qed.
Lemma effect_count op sid st : effect sid id st (count stats op st).
Proof. by apply effect_id. Qed.
Lemma effect_output x y sid st : effect sid id st (set_output x y st).
Proof. by apply effect_id. Qed.

Lemma add_queued_respects d : respects (add_queued d).
Proof. intros s1 s2 (? & H & ? & ? & ?). split_and!; simpl; congruence. Qed.
Lemma set_download_respects d p : respects (set_download d p).
Proof. intros s1 s2 (? & H & ? & ? & ?). split_and!; simpl; congruence. Qed.

Lemma effect_upload now key sid p a st :
  effect sid (add_queued (- pk_accountedBytes p)) st (upload_packet stats now key sid p a st).2.
Proof.
  pose proof (add_queued_respects (- pk_accountedBytes p)) as Hg. unfold upload_packet.
  case_match; simpl; [apply effect_alter|].
  destruct (an_reserve a) as [[allowed r]|[|e|]]; simpl.
  - case_match; simpl; [by eapply effect_before, effect_alter; [|apply effect_count]|].
    case_match; simpl.
    + eapply effect_silent; [|apply effect_remove].
      by eapply effect_before, effect_alter; [|apply effect_finish].
    + eapply effect_before; [done| |apply effect_alter].
      eapply effect_silent; [|apply effect_touch].
      eapply effect_silent; [|by apply effect_count].
      eapply effect_silent; [by apply effect_output|apply effect_finish].
  - eapply effect_silent; [apply effect_alter|apply effect_count].
  - eapply effect_silent; [apply effect_alter|apply effect_remove].
  - eapply effect_silent; [apply effect_alter|apply effect_count].
Qed.

Lemma effect_download now key sid payload a st :
  effect sid (set_download (-1) None) st (download_packet stats now key sid payload a st).
Proof.
  pose proof (set_download_respects (-1) None) as Hg. unfold download_packet.
  case_match; simpl; [eapply effect_silent; [apply effect_alter|apply effect_remove]|].
  destruct (an_reserve a) as [[allowed r]|[|e|]]; simpl.
  - case_match; simpl; [by eapply effect_before, effect_alter; [|apply effect_count]|].
    case_match; simpl.
    + eapply effect_silent; [|apply effect_remove].
      by eapply effect_before, effect_alter; [|apply effect_finish].
    + eapply effect_before; [done| |apply effect_alter].
      eapply effect_silent; [|apply effect_touch].
      eapply effect_silent; [|by apply effect_count].
      eapply effect_silent; [by apply effect_output|apply effect_finish].
  - eapply effect_silent; [apply effect_alter|apply effect_count].
  - eapply effect_silent; [apply effect_alter|apply effect_remove].
  - eapply effect_silent; [apply effect_alter|apply effect_count].
Qed.

(** *** Preservation *)

Lemma account_effect sid g st st' :
  effect sid g st st' →
  (∀ s, u_heap st !! sid = Some s → session_ok (offered (u_reader st) sid) s →
        session_ok (offered (u_reader st) sid) (g s)) →
  account_inv st → account_inv st'.
Proof.
  intros (Hr & f & Hh & Hf) Hg [Hs Hrd]. split.
  - rewrite Hr, Hh. intros sid' s' Hs'. destruct (decide (sid = sid')) as [<-|Hne].
    + rewrite lookup_alter_eq in Hs'. destruct (u_heap st !! sid) as [s|] eqn:E; [|done].
      injection Hs' as <-. apply (acct_like_ok _ _ (g s)); [apply Hf|]. by apply Hg, Hs.
    + rewrite lookup_alter_ne in Hs' by done. by apply Hs.
  - unfold reader_ok in *. rewrite Hr, Hh. destruct (u_reader st); rewrite ?lookup_alter_is_Some; done.
Qed.

Lemma account_silent sid st st' : effect sid id st st' → account_inv st → account_inv st'.
Proof. intros He. by apply (account_effect sid id st). Qed.

Lemma account_count op st : account_inv st → account_inv (count stats op st).
Proof. apply (account_silent 1), effect_count. Qed.

(** The reader goes on with something else than an offer. *)
Lemma account_reader r st :
  (∀ sid p, u_reader st ≠ RdOffer sid p) → (∀ sid p, r ≠ RdOffer sid p) →
  reader_ok (set_reader r st) → account_inv st → account_inv (set_reader r st).
Proof.
  intros H1 H2 Hrd [Hs _]. split; [|done]. intros sid s Hsid. simpl in *.
  specialize (Hs sid s Hsid). destruct (u_reader st), r; naive_solver.
Qed.

Lemma account_handlePacket now client payload dialed st :
  u_reader st = RdIdle → size_of payload ≤ udpMaxDatagramSize → account_inv st →
  account_inv (handlePacket rule stats matcher now client payload dialed st).
Proof.
  intros Hidle Hfit Hinv. unfold handlePacket. case_match; [done|]. case_match; [by apply account_count|].
  destruct (quotaBlocked _ _ _) as [blk l].
  assert (account_inv (set_ledger l st)) as Hinv1 by (by apply (account_silent 1 st), Hinv; apply effect_id).
  destruct blk; [by apply account_count|].
  destruct (match u_sessions (set_ledger l st) !! client with Some sid => _ | None => _ end)
    as [found st1] eqn:E.
  assert (account_inv st1 ∧ u_reader st1 = RdIdle) as [Hinv2 Hidle2].
  { destruct (u_sessions (set_ledger l st) !! client) as [sid|]; [by injection E as _ <-|].
    unfold open_session in E. simpl in E.
    destruct (u_cancelled st); [by injection E as _ <-|].
    destruct (_ <=? _); [injection E as _ <-; split; [by apply account_count|done]|].
    destruct (tryAcquire (u_budget st)) as [[] b]; cbn [negb] in E;
      [|injection E as _ <-; split; [by apply account_count|done]].
    destruct dialed; cbn [negb] in E; injection E as _ <-.
    - split; [|done]. apply account_count. split; simpl.
      + rewrite Hidle. intros sid s. rewrite lookup_insert_Some. intros [[<- <-]|[_ Hs]].
        * split; simpl; try (by destruct (needs_queue rule)); unfold udpUploadQueueMaxBytes,
            udpUploadQueueCapacity, udpMaxDatagramSize; try lia;
            destruct (needs_queue rule); simpl; done || constructor.
        * destruct Hinv as [Hi _]. rewrite Hidle in Hi. by apply (Hi sid).
      + unfold reader_ok. simpl. by rewrite Hidle.
    - split; [|done]. apply (account_silent 1 (set_ledger l st)); [by apply effect_id|done]. }
  destruct found as [sid|]; [|done].
  assert (account_inv (alter_session sid (touch now) st1)) as Hinv3
    by (by apply (account_silent sid st1), Hinv2; apply effect_touch).
  apply account_reader; [|by repeat case_match| |done]; [by simpl; rewrite Hidle2|].
  unfold reader_ok. simpl.
  destruct (alter (touch now) sid (u_heap st1) !! sid) eqn:Es; [|done].
  destruct (us_uploader _); rewrite Es; done.
Qed.

Lemma reader_mono r st sid f : reader_ok (set_reader r st) → reader_ok (set_reader r (alter_session sid f st)).
Proof. unfold reader_ok. simpl. destruct r; rewrite ?lookup_alter_is_Some; done. Qed.

(** The packet of the reader is accounted for. *)
Lemma account_accounted now sid payload s st :
  u_reader st = RdEnqueue sid payload → u_heap st !! sid = Some s → account_inv st →
  account_inv (enqueue_account stats now sid payload s st).
Proof.
  intros Hrd Hs Hinv. pose proof (ai_reader st Hinv) as Hfit. unfold reader_ok in Hfit.
  rewrite Hrd in Hfit. destruct Hfit as [_ Hfit]. unfold enqueue_account.
  set (p := acquireUDPQueuedPacket payload).
  change (udpQueuedPacketCapacity (size_of payload)) with (pk_accountedBytes p).
  assert (packet_ok p) as Hp by done. pose proof (packet_bytes p Hp) as Hb. clearbody p.
  pose proof (ai_sessions st Hinv sid s Hs) as [Hsum Hall Hmax Hcap Hpend].
  pose proof (bytes_nonneg _ Hall) as Hpos. rewrite Hrd in *. rewrite <-Hsum in Hpos.
  assert (add64 (us_queuedBytes s) (pk_accountedBytes p) = us_queuedBytes s + pk_accountedBytes p) as Hadd.
  { apply add64_id. unfold in_int64, int64_min, int64_max, udpUploadQueueMaxBytes, udpMaxDatagramSize in *. lia. }
  rewrite Hadd. destruct (_ <? _) eqn:El; bool_to_prop.
  - apply account_reader; [by simpl; rewrite Hrd|done|done|]. by apply account_count.
  - split; [|unfold reader_ok; simpl; by rewrite lookup_alter_is_Some, Hs].
    simpl. intros sid' s' Hs'. destruct (decide (sid = sid')) as [<-|Hne].
    + rewrite lookup_alter_eq, Hs in Hs'. injection Hs' as <-. simpl in Hsum, Hall.
      rewrite app_nil_r in Hsum, Hall. split; simpl; try done.
      * rewrite Hadd, Hsum, app_assoc, (bytes_of_app _ [p]). simpl. lia.
      * rewrite app_assoc. apply Forall_app. split; [done|]. by constructor.
      * rewrite Hadd. lia.
    + rewrite lookup_alter_ne in Hs' by done. pose proof (ai_sessions st Hinv sid' s' Hs') as Hok.
      by rewrite Hrd in Hok.
Qed.

Lemma account_offered now prefer sid p s st :
  u_reader st = RdOffer sid p → u_heap st !! sid = Some s → account_inv st →
  account_inv (enqueue_offer stats now prefer sid p s st).
Proof.
  intros Hrd Hs Hinv. unfold enqueue_offer.
  assert (∀ f, (session_ok [p] s → session_ok [] (f s)) →
    account_inv (set_reader RdIdle (alter_session sid f st))) as Hdone.
  { intros f Hf. split; [|done]. simpl. intros sid' s' Hs'.
    destruct (decide (sid = sid')) as [<-|Hne].
    - rewrite lookup_alter_eq, Hs in Hs'. injection Hs' as <-. apply Hf.
      pose proof (ai_sessions st Hinv sid s Hs) as Hok. rewrite Hrd in Hok. simpl in Hok.
      by rewrite decide_True in Hok.
    - rewrite lookup_alter_ne in Hs' by done. pose proof (ai_sessions st Hinv sid' s' Hs') as Hok.
      rewrite Hrd in Hok. simpl in Hok. by rewrite decide_False in Hok. }
  assert (session_ok [p] s → session_ok [] (add_queued (- pk_accountedBytes p) s)) as Hback.
  { intros Hok. apply (acct_like_ok _ _ (set_uploader (us_uploader s) (set_queue (us_queue s)
      (add_queued (- pk_accountedBytes p) s)))); [done|].
    apply (session_gone [p]); [done| |apply Hok]. rewrite app_nil_r, app_assoc.
    symmetry. apply Permutation_cons_append. }
  destruct (session_done s st && _); [by apply Hdone|].
  destruct (_ <? _)%nat eqn:El.
  - apply Hdone. intros [Hsum Hall Hmax Hcap Hpend]. apply Nat.ltb_lt in El.
    assert (us_queue s ++ held (us_uploader s) ++ [p] ≡ₚ (us_queue s ++ [p]) ++ held (us_uploader s) ++ [])
      as Hperm.
    { rewrite app_nil_r, <-app_assoc. by rewrite (Permutation_app_comm (held _)). }
    split; simpl; [| |done| |done].
    + rewrite Hsum, !bytes_of_app. simpl. lia.
    + by rewrite <-Hperm.
    + rewrite length_app. simpl. lia.
  - apply (account_silent 1 (set_reader RdIdle (alter_session sid (add_queued (- pk_accountedBytes p)) st)));
      [by apply effect_id|]. by apply Hdone.
Qed.

Lemma account_reader_step ev st st' :
  step_reader rule stats matcher ev st = Some st' → account_inv st → account_inv st'.
Proof.
  intros Hstep Hinv. unfold step_reader in Hstep.
  destruct ev; try discriminate Hstep; destruct (u_reader st) eqn:Hrd; try discriminate Hstep.
  - destruct (fits payload) eqn:Hf; [|discriminate Hstep]. injection Hstep as <-.
    unfold fits in Hf. bool_to_prop. by apply account_handlePacket.
  - destruct (u_heap st !! sid) as [s|] eqn:Hs; [|discriminate Hstep]. injection Hstep as <-.
    by apply account_accounted.
  - destruct (u_heap st !! sid) as [s|] eqn:Hs; [|discriminate Hstep]. injection Hstep as <-.
    by apply account_offered.
  - injection Hstep as <-. unfold write_now. apply account_reader; [|done|done|].
    + destruct ok; simpl; [by rewrite Hrd|].
      destruct (effect_remove now key sid st) as [-> _]. by rewrite Hrd.
    + destruct ok; [|by apply (account_silent sid st), Hinv; apply effect_remove].
      apply account_count. by apply (account_silent sid st), Hinv; apply effect_output.
Qed.

Lemma account_uploader_step ev st st' :
  step_uploader stats ev st = Some st' → account_inv st → account_inv st'.
Proof.
  intros Hstep Hinv. unfold step_uploader in Hstep. destruct ev; try discriminate Hstep;
    destruct (u_heap st !! sid) as [s|] eqn:Hs; try discriminate Hstep; simpl in Hstep;
    destruct (us_uploader s) as [| |p| |] eqn:Hu; try discriminate Hstep.
  - destruct (us_queue s) as [|p q] eqn:Hq; [discriminate Hstep|]. injection Hstep as <-.
    apply (account_effect sid _ st _ (effect_alter _ _ _)); [|done]. intros s1 Hs1. simplify_eq.
    intros [Hsum Hall Hmax Hcap Hpend]. rewrite Hq, Hu in *. simpl in *.
    split; simpl; [|rewrite <-Permutation_middle; done|done|lia|done].
    rewrite Hsum. rewrite !bytes_of_app. simpl. lia.
  - pose proof (effect_upload now (us_client s) sid p a st) as He.
    destruct (upload_packet _ _ _ _ _ _ _) as [continue st1]. injection Hstep as <-. simpl in He.
    assert (effect sid (λ s, set_uploader (if continue then UpIdle else UpDraining)
      (add_queued (- pk_accountedBytes p) s)) st (alter_session sid
      (set_uploader (if continue then UpIdle else UpDraining)) st1)) as He2.
    { eapply effect_trans; [|exact He|apply effect_alter].
      intros s1 s2 (? & ? & ? & ? & ?). by split_and!. }
    apply (account_effect sid _ st _ He2); [|done]. intros s1 Hs1 Hok. simplify_eq.
    apply (acct_like_ok _ _ (set_uploader (if continue then UpIdle else UpDraining)
      (set_queue (us_queue s) (add_queued (- pk_accountedBytes p) s)))); [done|].
    apply (session_gone (offered (u_reader st) sid)); [done| |apply Hok].
    rewrite Hu. destruct continue; simpl; by rewrite Permutation_middle.
  - destruct (session_done s st); [|discriminate Hstep]. injection Hstep as <-.
    apply (account_effect sid _ st _ (effect_alter _ _ _)); [|done]. intros s1 Hs1. simplify_eq.
    intros [Hsum Hall Hmax Hcap Hpend]. by rewrite Hu in *.
  - destruct (us_queue s) as [|p q] eqn:Hq; injection Hstep as <-;
      (apply (account_effect sid _ st _ (effect_alter _ _ _)); [|done]); intros s1 Hs1 Hok; simplify_eq.
    + destruct Hok as [Hsum Hall Hmax Hcap Hpend]. by rewrite Hu in *.
    + apply (acct_like_ok _ _ (set_uploader UpDraining (set_queue q
        (add_queued (- pk_accountedBytes p) s)))); [by split_and!|].
      apply (session_gone (offered (u_reader st) sid)); [done|by rewrite Hq, Hu|].
      pose proof (so_cap _ _ Hok) as Hcap. rewrite Hq in Hcap. simpl in Hcap. lia.
Qed.

Lemma account_target_step ev st st' :
  step_target stats ev st = Some st' → account_inv st → account_inv st'.
Proof.
  intros Hstep Hinv. unfold step_target in Hstep. destruct ev; try discriminate Hstep;
    destruct (u_heap st !! sid) as [s|] eqn:Hs; try discriminate Hstep; simpl in Hstep.
  - destruct (us_download s) eqn:Hd; [discriminate Hstep|]. destruct (fits payload); [|discriminate Hstep].
    injection Hstep as <-. apply (account_effect sid _ st _ (effect_alter _ _ _)); [|done].
    intros s1 Hs1. simplify_eq. intros [Hsum Hall Hmax Hcap Hpend]. rewrite Hd in Hpend.
    split; simpl; try done. by rewrite Hpend.
  - destruct (us_download s) eqn:Hd; [|discriminate Hstep]. injection Hstep as <-.
    apply (account_effect sid _ st _ (effect_download _ _ _ _ _ _)); [|done].
    intros s1 Hs1. simplify_eq. intros [Hsum Hall Hmax Hcap Hpend]. rewrite Hd in Hpend.
    split; simpl; try done. by rewrite Hpend.
  - injection Hstep as <-. by apply (account_silent sid st), Hinv; apply effect_remove.
Qed.

Lemma account_step ev st st' :
  udp_step rule stats matcher ev st = Some st' → account_inv st → account_inv st'.
Proof.
  intros Hstep Hinv. destruct ev; cbn [udp_step] in Hstep;
    try (by eapply account_reader_step); try (by eapply account_uploader_step);
    try (by eapply account_target_step).
  - injection Hstep as <-. unfold cleanupIdleSessions.
    generalize (map_to_list (u_sessions st)). intros l. revert st Hinv.
    induction l as [|[key sid] l IH]; intros st Hinv; [done|].
    cbn [foldl]. apply IH. unfold cleanup_one. destruct (u_heap st !! sid); [|done].
    case_match; [|done]. by apply (account_silent sid st), Hinv; apply effect_close.
  - injection Hstep as <-. by apply (account_silent 1 st), Hinv; apply effect_id.
  - destruct (u_cancelled st); [|discriminate Hstep]. injection Hstep as <-. unfold stop_sessions.
    generalize (map_to_list (u_sessions st)). intros l. revert st Hinv.
    induction l as [|[key sid] l IH]; intros st Hinv; [done|].
    cbn [foldl]. apply IH. by apply (account_silent sid st), Hinv; apply effect_close.
  - destruct (tryAcquire (u_budget st)) as [[] b]; [|discriminate Hstep]. injection Hstep as <-.
    by apply (account_silent 1 st), Hinv; apply effect_id.
  - destruct (_ <? _); [|discriminate Hstep]. injection Hstep as <-.
    by apply (account_silent 1 st), Hinv; apply effect_id.
  - injection Hstep as <-. by apply (account_silent 1 st), Hinv; apply effect_id.
Qed.

(** ** Runs *)

Lemma udp_run_cons ev evs st :
  udp_run rule stats matcher (ev :: evs) st =
    match udp_step rule stats matcher ev st with
    | Some st1 => udp_run rule stats matcher evs st1
    | None => None
    end.
Proof.
  unfold udp_run. cbn [foldl]. simpl. destruct (udp_step _ _ _ _ _); [done|].
  induction evs; [done|]. by apply IHevs.
Qed.

Lemma udp_run_app evs1 evs2 st st' :
  udp_run rule stats matcher (evs1 ++ evs2) st = Some st' →
  ∃ st1, udp_run rule stats matcher evs1 st = Some st1 ∧ udp_run rule stats matcher evs2 st1 = Some st'.
Proof.
  revert st. induction evs1 as [|ev evs1 IH]; intros st; [by exists st|].
  rewrite <-app_comm_cons, !udp_run_cons. destruct (udp_step _ _ _ _ _); [|done]. apply IH.
Qed.

(** An invariant of the steps is one of the runs. *)
Lemma udp_run_ind (I : udpState → Prop) evs st st' :
  (∀ ev st st', udp_step rule stats matcher ev st = Some st' → I st → I st') →
  udp_run rule stats matcher evs st = Some st' → I st → I st'.
Proof.
  intros Hstep. revert st. induction evs as [|ev evs IH]; intros st; [by intros [= <-]|].
  rewrite udp_run_cons. destruct (udp_step _ _ _ ev st) as [st1|] eqn:E; [|done]. eauto.
Qed.

(** The handle's gauge reads [gauge] when the runner starts. *)
Definition gauge_is (gauge : Z) (c : Collector) : Prop :=
  ∀ l k, stats = Some l → heap c !! l = Some k → conns k = wrap64 gauge.

Lemma new_table gauge b c l :
  0 ≤ b_active b → gauge_is gauge c → table_inv (b_active b) gauge (new_udp b c l).
Proof.
  intros Hb Hg. split; unfold open_count; simpl; try done; try lia.
  - unfold sessionLimit, DefaultUDPRuleMaxSessions, DefaultUDPGlobalMaxSessions.
    rewrite map_size_empty. case_match; bool_to_prop; lia.
  - rewrite map_size_empty. lia.
  - intros l' k Hl Hk. rewrite map_size_empty, Z.add_0_r. by apply (Hg l').
Qed.

Lemma new_account b c l : account_inv (new_udp b c l).
Proof. split; [|done]. intros sid s Hs. simpl in Hs. by rewrite lookup_empty in Hs. Qed.

(** C32: in every run of a runner the table holds exactly the open sessions,
    each under its client's address; their number stays within the rule's
    limit; and the runner's share of the shared budget and of the connection
    gauge is the number of open sessions, whatever other rules do to the budget. *)
Theorem udp_sessions_accounted gauge b c l evs st :
  0 ≤ b_active b → gauge_is gauge c →
  udp_run rule stats matcher evs (new_udp b c l) = Some st →
  (∀ key sid, u_sessions st !! key = Some sid ↔
     ∃ s, u_heap st !! sid = Some s ∧ us_client s = key ∧ us_closed s = false) ∧
  open_count st ≤ sessionLimit rule ∧
  b_active (u_budget st) = b_active b + others evs + open_count st ∧
  gauge_is (gauge + open_count st) (u_stats st).
Proof.
  intros Hb Hg Hrun.
  destruct (table_run _ gauge _ _ _ Hrun (new_table gauge b c l Hb Hg)) as [H1 H2 H3 H4 H5 H6 H7].
  split_and!; [|done|lia|exact H7]. intros key sid. split; [apply H1|].
  intros (s & Hs & <- & Hcl). by apply H2.
Qed.

(** the byte count of a session is always what its queue, its upload
    goroutine and the reader hold for it, at least the bytes of the payloads
    themselves, and never more than 64 KiB; the queue never exceeds its 64
    slots; and the reaper's [pendingDownload] is 1 exactly while a datagram is
    being relayed. *)
Theorem udp_queue_accounted b c l evs st sid s :
  udp_run rule stats matcher evs (new_udp b c l) = Some st →
  u_heap st !! sid = Some s →
  let packets := us_queue s ++ held (us_uploader s) ++ offered (u_reader st) sid in
  us_queuedBytes s = bytes_of packets ∧
  foldr (λ p n, size_of (pk_data p) + n) 0 packets ≤ us_queuedBytes s ≤ udpUploadQueueMaxBytes ∧
  (length (us_queue s) ≤ udpUploadQueueCapacity)%nat ∧
  us_pendingDownload s = match us_download s with Some _ => 1 | None => 0 end.
Proof.
  intros Hrun Hs. pose proof (udp_run_ind account_inv _ _ _ account_step Hrun (new_account b c l)) as Hinv.
  destruct (ai_sessions st Hinv sid s Hs) as [Hsum Hall Hmax Hcap Hpend].
  cbv zeta. split_and!; [done| |done|done|done]. rewrite Hsum. clear -Hall.
  induction Hall as [|p ps [Hp Hfit] _ IH]; simpl; [done|].
  assert (0 ≤ size_of (pk_data p)) by (unfold size_of; lia).
  pose proof (capacity_bounds (size_of (pk_data p))). lia.
Qed.

(** ** Reaping and stopping *)

(** Closing, one after the other, the sessions of [l] that [doomed] names. *)
Definition close_if (doomed : option udpSession → bool) now st (entry : AddrPort * positive) : udpState :=
  if doomed (u_heap st !! entry.2) then closeSessionLocked stats now entry.1 entry.2 st else st.

Lemma close_all_spec units gauge doomed now l st :
  table_inv units gauge st → NoDup l.*1 → (∀ e, e ∈ l → u_sessions st !! e.1 = Some e.2) →
  let st' := foldl (close_if doomed now) st l in
  u_cancelled st' = u_cancelled st ∧
  ∀ key, u_sessions st' !! key =
    match u_sessions st !! key with
    | Some sid => if decide ((key, sid) ∈ l) then
                    if doomed (u_heap st !! sid) then None else Some sid
                  else Some sid
    | None => None
    end.
Proof.
  cbv zeta. revert st. induction l as [|[k sid] l IH]; intros st Hinv Hnd Hin.
  { split; [done|]. intros key. cbn [foldl]. destruct (u_sessions st !! key); [|done].
    rewrite decide_False; [done|]. apply not_elem_of_nil. }
  cbn [foldl]. cbn [fmap list_fmap] in Hnd. apply NoDup_cons in Hnd as [Hk Hnd].
  pose proof (Hin (k, sid) ltac:(by constructor)) as Hks. simpl in Hks, Hk.
  assert (∀ sid', (k, sid') ∉ l) as Hnot.
  { intros sid' Hl. apply Hk. apply list_elem_of_fmap. by exists (k, sid'). }
  unfold close_if at 2 4. cbn [fst snd]. destruct (doomed (u_heap st !! sid)) eqn:Ed.
  - destruct (close_spec units gauge now k sid st Hinv Hks) as (Hinv' & Hs' & Hh' & _ & Hc').
    set (st1 := closeSessionLocked stats now k sid st) in *. clearbody st1.
    destruct (IH st1 Hinv' Hnd) as [Hc IHl].
    { intros [k' sid'] He. rewrite Hs'. cbn [fst snd]. rewrite lookup_delete_ne.
      - apply (Hin (k', sid')). by apply list_elem_of_further.
      - intros <-. by apply (Hnot sid'). }
    split; [congruence|]. intros key. rewrite IHl, Hs'. destruct (decide (k = key)) as [<-|Hne].
    + rewrite lookup_delete_eq, Hks. cbn iota. rewrite decide_True by constructor. by rewrite Ed.
    + rewrite lookup_delete_ne by done. destruct (u_sessions st !! key) as [sid'|] eqn:Ek; [|done].
      assert (sid ≠ sid') as Hsid.
      { intros <-. destruct (ti_table _ _ _ Hinv _ _ Hks) as (s1 & Hs1 & Hc1 & _).
        destruct (ti_table _ _ _ Hinv _ _ Ek) as (s2 & Hs2 & Hc2 & _). congruence. }
      rewrite Hh', lookup_alter_ne by done.
      destruct (decide ((key, sid') ∈ l)) as [Hl|Hl].
      * rewrite decide_True; [done|]. by apply list_elem_of_further.
      * rewrite decide_False; [done|]. intros [[= -> _]|?]%elem_of_cons; done.
  - destruct (IH st Hinv Hnd) as [Hc IHl]; [intros e He; apply Hin; by constructor|].
    split; [done|]. intros key. rewrite IHl. destruct (u_sessions st !! key) as [sid'|] eqn:Ek; [|done].
    destruct (decide ((key, sid') ∈ l)) as [Hl|Hl].
    + rewrite decide_True; [done|]. by apply list_elem_of_further.
    + destruct (decide ((key, sid') ∈ (k, sid) :: l)) as [[[= -> ->]|?]%elem_of_cons|]; [|done..].
      by rewrite Ed.
Qed.

Lemma close_table_spec units gauge doomed now st :
  table_inv units gauge st →
  let st' := foldl (close_if doomed now) st (map_to_list (u_sessions st)) in
  u_cancelled st' = u_cancelled st ∧
  u_sessions st' = filter (λ e, doomed (u_heap st !! e.2) = false) (u_sessions st).
Proof.
  intros Hinv. cbv zeta.
  destruct (close_all_spec units gauge doomed now (map_to_list (u_sessions st)) st Hinv) as [Hc Hl].
  - apply NoDup_fst_map_to_list.
  - intros [k sid]. apply elem_of_map_to_list.
  - split; [done|]. apply map_eq. intros key. rewrite Hl.
    destruct (u_sessions st !! key) as [sid|] eqn:E.
    + rewrite decide_True by (by apply elem_of_map_to_list).
      destruct (doomed (u_heap st !! sid)) eqn:Ed; symmetry.
      * apply map_lookup_filter_None. right. intros x Hx. rewrite E in Hx. injection Hx as <-.
        simpl. by rewrite Ed.
      * by apply map_lookup_filter_Some.
    + symmetry. apply map_lookup_filter_None. by left.
Qed.

(** the reaper closes exactly the sessions that are idle: a session
    survives a sweep iff it has packets queued or a datagram in relay, or was
    active within the time to live. *)
Theorem cleanup_closes_exactly_idle gauge b c l evs st now ttl key sid s :
  0 ≤ b_active b → gauge_is gauge c →
  udp_run rule stats matcher evs (new_udp b c l) = Some st →
  u_sessions st !! key = Some sid → u_heap st !! sid = Some s →
  u_sessions (cleanupIdleSessions stats now ttl st) !! key = Some sid ↔
  0 < us_queuedBytes s ∨ 0 < us_pendingDownload s ∨ now - ttl ≤ us_lastSeen s.
Proof.
  intros Hb Hg Hrun Hk Hs.
  pose proof (table_run _ gauge _ _ _ Hrun (new_table gauge b c l Hb Hg)) as Hinv.
  set (doomed := λ o : option udpSession, match o with Some s => idle_session (now - ttl) s | None => false end).
  assert (cleanupIdleSessions stats now ttl st =
    foldl (close_if doomed now) st (map_to_list (u_sessions st))) as ->.
  { unfold cleanupIdleSessions. generalize (map_to_list (u_sessions st)). intros es.
    clear. revert st. induction es as [|[k x] es IH]; intros st; [done|]. cbn [foldl]. rewrite IH. f_equal.
    unfold cleanup_one, close_if, doomed. simpl. by destruct (u_heap st !! x). }
  destruct (close_table_spec _ _ doomed now st Hinv) as [_ ->].
  rewrite map_lookup_filter_Some. simpl. rewrite Hs. simpl. unfold idle_session.
  rewrite andb_false_iff, negb_false_iff, orb_true_iff, !Z.ltb_lt, Z.ltb_ge. naive_solver.
Qed.

(** *** Stopped runners stay empty *)

Definition keeps st st' : Prop := u_cancelled st' = u_cancelled st ∧ u_sessions st' ⊆ u_sessions st.

Lemma keeps_refl st : keeps st st.
Proof. done. Qed.
Lemma keeps_trans st1 st2 st3 : keeps st1 st2 → keeps st2 st3 → keeps st1 st3.
Proof. intros [? H1] [? H2]. split; [congruence|by etrans]. Qed.
Lemma keeps_same st st' : u_cancelled st' = u_cancelled st → u_sessions st' = u_sessions st → keeps st st'.
Proof. intros Hc Hs. split; [done|by rewrite Hs]. Qed.

Lemma keeps_close now key sid st : keeps st (closeSessionLocked stats now key sid st).
Proof.
  unfold closeSessionLocked. repeat case_match; try apply keeps_refl.
  split; [done|]. apply delete_subseteq.
Qed.

(** The operations a step is made of, applied after [st]. *)
Lemma keeps_alter st st' sid f : keeps st st' → keeps st (alter_session sid f st').
Proof. done. Qed.
Lemma keeps_count st st' op : keeps st st' → keeps st (count stats op st').
Proof. done. Qed.
Lemma keeps_reader st st' r : keeps st st' → keeps st (set_reader r st').
Proof. done. Qed.
Lemma keeps_ledger st st' l : keeps st st' → keeps st (set_ledger l st').
Proof. done. Qed.
Lemma keeps_output st st' a b : keeps st st' → keeps st (set_output a b st').
Proof. done. Qed.
Lemma keeps_finish st st' n r : keeps st st' → keeps st (finish_opt n r st').
Proof. by destruct r. Qed.
Lemma keeps_remove st st' now key sid : keeps st st' → keeps st (removeSession stats now key sid st').
Proof.
  intros Hkeep. apply (keeps_trans _ st'); [done|]. unfold removeSession.
  repeat case_match; try apply keeps_refl. apply keeps_close.
Qed.
#[local] Hint Resolve keeps_refl keeps_alter keeps_count keeps_reader keeps_ledger keeps_output keeps_finish
  keeps_remove : core.

Lemma keeps_upload now key sid p a st : keeps st (upload_packet stats now key sid p a st).2.
Proof. unfold upload_packet. repeat case_match; simpl; auto 10. Qed.
Lemma keeps_download now key sid payload a st : keeps st (download_packet stats now key sid payload a st).
Proof. unfold download_packet. repeat case_match; simpl; auto 10. Qed.

Lemma keeps_cancelled_packet units gauge now client payload dialed st :
  table_inv units gauge st → u_cancelled st = true →
  keeps st (handlePacket rule stats matcher now client payload dialed st).
Proof.
  intros Hinv Hc. unfold handlePacket. case_match; [auto|]. case_match; [auto|].
  destruct (quotaBlocked _ _ _) as [blk l]. destruct blk; [auto|].
  destruct (u_sessions (set_ledger l st) !! client) as [sid|] eqn:E; [auto 6|].
  unfold open_session. simpl. rewrite Hc. auto.
Qed.

(** Once the context is cancelled no step opens a session. *)
Lemma keeps_cancelled_step units gauge ev st st' :
  udp_step rule stats matcher ev st = Some st' → table_inv units gauge st → u_cancelled st = true →
  keeps st st'.
Proof.
  intros Hstep Hinv Hc. destruct ev; cbn [udp_step] in Hstep;
    unfold step_reader, step_uploader, step_target in Hstep.
  - destruct (u_reader st); try discriminate Hstep. destruct (fits payload); [|discriminate Hstep].
    injection Hstep as <-. by apply (keeps_cancelled_packet units gauge).
  - destruct (u_reader st); try discriminate Hstep. destruct (u_heap st !! sid); [|discriminate Hstep].
    injection Hstep as <-. unfold enqueue_account. case_match; auto.
  - destruct (u_reader st); try discriminate Hstep. destruct (u_heap st !! sid); [|discriminate Hstep].
    injection Hstep as <-. unfold enqueue_offer. repeat case_match; auto.
  - destruct (u_reader st); try discriminate Hstep. injection Hstep as <-. unfold write_now.
    case_match; auto 6.
  - destruct (u_heap st !! sid) as [s|]; [|discriminate Hstep]. simpl in Hstep.
    repeat case_match; try discriminate Hstep. injection Hstep as <-. auto.
  - destruct (u_heap st !! sid) as [s|]; [|discriminate Hstep]. simpl in Hstep.
    destruct (us_uploader s); try discriminate Hstep.
    pose proof (keeps_upload now (us_client s) sid packet a st).
    destruct (upload_packet _ _ _ _ _ _ _). injection Hstep as <-. auto.
  - destruct (u_heap st !! sid) as [s|]; [|discriminate Hstep]. simpl in Hstep.
    repeat case_match; try discriminate Hstep. injection Hstep as <-. auto.
  - destruct (u_heap st !! sid) as [s|]; [|discriminate Hstep]. simpl in Hstep.
    repeat case_match; try discriminate Hstep; injection Hstep as <-; auto.
  - destruct (u_heap st !! sid) as [s|]; [|discriminate Hstep]. simpl in Hstep.
    repeat case_match; try discriminate Hstep; injection Hstep as <-; auto.
  - destruct (u_heap st !! sid) as [s|]; [|discriminate Hstep]. simpl in Hstep.
    destruct (us_download s); [|discriminate Hstep]. injection Hstep as <-. apply keeps_download.
  - destruct (u_heap st !! sid) as [s|]; [|discriminate Hstep]. simpl in Hstep.
    injection Hstep as <-. auto.
  - injection Hstep as <-. unfold cleanupIdleSessions. generalize (map_to_list (u_sessions st)).
    intros l. clear. revert st. induction l as [|[key sid] l IH]; intros st; [apply keeps_refl|].
    cbn [foldl]. eapply keeps_trans; [|apply IH]. unfold cleanup_one.
    repeat case_match; try apply keeps_refl. apply keeps_close.
  - injection Hstep as <-. by apply keeps_same.
  - rewrite Hc in Hstep. injection Hstep as <-. unfold stop_sessions.
    generalize (map_to_list (u_sessions st)). intros l. clear. revert st.
    induction l as [|[key sid] l IH]; intros st; [apply keeps_refl|].
    cbn [foldl]. eapply keeps_trans; [|apply IH]. apply keeps_close.
  - destruct (tryAcquire (u_budget st)) as [[] b]; [|discriminate Hstep]. injection Hstep as <-.
    by apply keeps_same.
  - destruct (_ <? _); [|discriminate Hstep]. injection Hstep as <-. by apply keeps_same.
  - injection Hstep as <-. by apply keeps_same.
Qed.

Lemma cancelled_run units gauge evs st st' :
  udp_run rule stats matcher evs st = Some st' → table_inv units gauge st → u_cancelled st = true →
  keeps st st'.
Proof.
  revert units st. induction evs as [|ev evs IH]; intros units st Hrun Hinv Hc.
  - injection Hrun as <-. apply keeps_refl.
  - rewrite udp_run_cons in Hrun. destruct (udp_step _ _ _ ev st) as [st1|] eqn:E; [|done].
    pose proof (keeps_cancelled_step _ _ _ _ _ E Hinv Hc) as H1.
    eapply keeps_trans; [exact H1|]. apply (IH _ st1 Hrun (table_step _ _ _ _ _ E Hinv)).
    destruct H1 as [-> _]. done.
Qed.

(** [Stop] leaves nothing behind. Once it has cancelled the context and
    swept the table, the runner has no session, holds no unit of the shared
    budget, its part of the connection gauge is gone, every session object is
    closed, and this stays so whatever packets its goroutines still handle. *)
Theorem udp_stop_releases_everything gauge b c l evs now late st :
  0 ≤ b_active b → gauge_is gauge c →
  udp_run rule stats matcher (evs ++ [EvCancel; EvStop now] ++ late) (new_udp b c l) = Some st →
  u_sessions st = ∅ ∧ b_active (u_budget st) = b_active b + others (evs ++ late) ∧
  gauge_is gauge (u_stats st) ∧ ∀ sid s, u_heap st !! sid = Some s → us_closed s = true.
Proof.
  intros Hb Hg Hrun. pose proof (table_run _ gauge _ _ _ Hrun (new_table gauge b c l Hb Hg)) as Hinv.
  apply udp_run_app in Hrun as (st1 & Hrun1 & Hrun).
  pose proof (table_run _ gauge _ _ _ Hrun1 (new_table gauge b c l Hb Hg)) as Hinv1.
  cbn [app] in Hrun. rewrite udp_run_cons in Hrun. cbn [udp_step] in Hrun.
  set (st2 := stop_cancel st1) in *. rewrite udp_run_cons in Hrun. cbn [udp_step] in Hrun. change (u_cancelled st2) with true in Hrun. cbn iota in Hrun.
  assert (table_inv (b_active b + others evs) gauge st2) as Hinv2
    by (by apply (table_frame _ _ st1); [done..|apply same_gauge_refl|]).
  assert (table_inv (b_active b + others evs) gauge (stop_sessions stats now st2)) as Hinv3.
  { apply table_fold; [|done]. intros st3 x H3. by apply table_close. }
  destruct (close_table_spec _ _ (λ _, true) now st2 Hinv2) as [Hc3 Hs3].
  change (foldl (close_if (λ _, true) now) st2 (map_to_list (u_sessions st2)))
    with (stop_sessions stats now st2) in Hc3, Hs3.
  destruct (cancelled_run _ _ _ _ _ Hrun Hinv3) as [_ Hsub]; [by rewrite Hc3|].
  assert (u_sessions st = ∅) as Hempty.
  { apply map_empty. intros key. destruct (u_sessions st !! key) as [sid|] eqn:E; [|done].
    eapply lookup_weaken in E; [|exact Hsub]. rewrite Hs3 in E.
    apply map_lookup_filter_Some in E as [_ E]. discriminate E. }
  assert (open_count st = 0) as Hz by (unfold open_count; by rewrite Hempty, map_size_empty).
  assert (∀ l1 l2, others (l1 ++ [EvCancel; EvStop now] ++ l2) = others (l1 ++ l2)) as Hoth.
  { intros l1 l2. unfold others. induction l1 as [|ev l1 IH]; [done|]. simpl in *. by rewrite IH. }
  split_and!; [done| | |].
  - rewrite (ti_units _ _ _ Hinv), Hz, Hoth. lia.
  - intros l' k Hl Hk. rewrite (ti_gauge _ _ _ Hinv l' k Hl Hk), Hz, Z.add_0_r. done.
  - intros sid s Hs. destruct (us_closed s) eqn:E; [done|].
    apply (ti_open _ _ _ Hinv) in Hs; [|done]. by rewrite Hempty, lookup_empty in Hs.
Qed.
End udp.

(** ** Witnesses *)

(** A rate-limited rule, so that sessions have a queue, with room for one session. *)
Definition udp_rule : Rule := {|
  RuleID := "dns"; Name := "dns"; Proto := "udp"; ListenAddr := ""; ListenPort := 5353;
  TargetAddr := "10.0.0.53"; TargetPort := 53; Enabled := true; SpeedLimit := 1000; Bandwidth := None;
  Quota := None; MaxConn := 1; IdleTimeout := 0; SourceIPMode := ""; SourceIPs := []; Domains := [];
  Remark := ""; Revision := 1; CreatedTime := 0; UpdatedTime := 0 |}.
Definition udp_client (n : Z) : AddrPort := {| ap_addr := Addr4 (167772160 + n); ap_port := 4000 |}.
Definition udp_budget : udpSessionBudget := newUDPSessionBudget 8.
Definition udp_collector : Collector := (bindRule 0 "dns" NewCollector).2.
Definition udp_handle : boundRuleStats := (bindRule 0 "dns" NewCollector).1.
Definition udp_start : udpState := new_udp udp_budget udp_collector (empty_ledger false).
Notation run_udp evs := (@udp_run utc_database udp_rule udp_handle None evs udp_start).

(** A second client is refused, another rule takes a unit, one datagram waits. *)
Definition udp_traffic : list UDPEvent :=
  [EvPacket 5 (udp_client 1) ["a"%char; "b"%char] true; EvAccount 5; EvOffer 5 false;
   EvPacket 6 (udp_client 2) ["c"%char] true; EvOtherAcquire].

Lemma bool_is_Some {A} (o : option A) : bool_decide (is_Some o) = true → ∃ x, o = Some x.
Proof. intros H. by apply bool_decide_eq_true in H. Qed.

Lemma udp_gauge : gauge_is udp_handle 0 udp_collector.
Proof.
  intros l k Hl Hk. assert (udp_handle = Some 1%positive) as Hh by by vm_compute.
  rewrite Hh in Hl. injection Hl as <-. assert (heap udp_collector !! 1%positive = Some (new_counter 0)) as Hc by by vm_compute.
  rewrite Hc in Hk. by injection Hk as <-.
Qed.

Lemma udp_sessions_accounted_witness :
  ∃ st, run_udp udp_traffic = Some st ∧ open_count st = 1 ∧ b_active (u_budget st) = 0 + 1 + 1.
Proof.
  destruct (bool_is_Some (run_udp udp_traffic)) as [st E]; [by vm_compute|].
  exists st. split; [done|].
  assert ((open_count <$> run_udp udp_traffic) = Some 1) as Hc by by vm_compute.
  rewrite E in Hc. injection Hc as Hc. split; [exact Hc|].
  destruct (@udp_sessions_accounted utc_database udp_rule udp_handle None 0 udp_budget udp_collector
    (empty_ledger false) udp_traffic st) as (_ & _ & -> & _);
    [by vm_compute|exact udp_gauge|exact E|]. rewrite Hc. by vm_compute.
Defined.

Lemma udp_queue_accounted_witness :
  ∃ st s, run_udp udp_traffic = Some st ∧ u_heap st !! 1%positive = Some s ∧
    us_queuedBytes s = 256 ∧ us_queuedBytes s ≤ udpUploadQueueMaxBytes.
Proof.
  destruct (bool_is_Some (run_udp udp_traffic)) as [st E]; [by vm_compute|].
  assert ((us_queuedBytes <$> (st ← run_udp udp_traffic; u_heap st !! 1%positive)) = Some 256) as Hc
    by by vm_compute.
  rewrite E in Hc. simpl in Hc. destruct (u_heap st !! 1%positive) as [s|] eqn:Es; [|discriminate Hc].
  injection Hc as Hc. exists st, s. split_and!; [done..|exact Hc|].
  apply (@udp_queue_accounted utc_database udp_rule udp_handle None udp_budget udp_collector
    (empty_ledger false) udp_traffic st 1%positive s E Es).
Defined.

Lemma cleanup_closes_exactly_idle_witness :
  ∃ st s, run_udp udp_traffic = Some st ∧ u_heap st !! 1%positive = Some s ∧
    u_sessions (cleanupIdleSessions udp_handle 1000 60 st) !! udp_client 1 = Some 1%positive.
Proof.
  destruct (bool_is_Some (run_udp udp_traffic)) as [st E]; [by vm_compute|].
  assert ((us_queuedBytes <$> (st ← run_udp udp_traffic; u_heap st !! 1%positive)) = Some 256 ∧
    (st ← run_udp udp_traffic; u_sessions st !! udp_client 1) = Some 1%positive) as [Hc Hk]
    by (split; by vm_compute).
  rewrite E in Hc, Hk. simpl in Hc, Hk.
  destruct (u_heap st !! 1%positive) as [s|] eqn:Es; [|discriminate Hc]. injection Hc as Hc.
  exists st, s. split_and!; [done..|].
  apply (@cleanup_closes_exactly_idle utc_database udp_rule udp_handle None 0 udp_budget udp_collector
    (empty_ledger false) udp_traffic st 1000 60 (udp_client 1) 1%positive s);
    [by vm_compute|exact udp_gauge|exact E|exact Hk|exact Es|left; rewrite Hc; lia].
Defined.

Lemma udp_stop_releases_everything_witness :
  ∃ st, run_udp (udp_traffic ++ [EvCancel; EvStop 9] ++ [EvPacket 10 (udp_client 1) ["d"%char] true]) = Some st ∧
    u_sessions st = ∅.
Proof.
  destruct (bool_is_Some (run_udp (udp_traffic ++ [EvCancel; EvStop 9] ++ [EvPacket 10 (udp_client 1) ["d"%char] true]))) as [st E]; [by vm_compute|].
  exists st. split; [done|].
  apply (@udp_stop_releases_everything utc_database udp_rule udp_handle None 0 udp_budget udp_collector
    (empty_ledger false) udp_traffic 9 [EvPacket 10 (udp_client 1) ["d"%char] true] st);
    [by vm_compute|exact udp_gauge|exact E].
Defined.
