(* ===== verification/ControlAuth.v ===== *)
(** * Authentication of the control API (controlapi/auth.go, controlapi/ratelimit.go)

    Bearer tokens and the throttle of failed attempts per address, with the
    middleware that joins them (controlapi/server.go, [withMiddleware]).  Times
    are in nanoseconds; the zero [time.Time] of [until] is [None].  Each method
    of the limiter runs under its mutex and is one step; a request takes two of
    them, [locked] before and [note] after the token is checked. *)

From S2P Require Import Prelude GoStrings Config.

(** ** The throttle *)

Definition authFailMax : Z := 10.
Definition authFailWindow : Z := 60 * second.
Definition authFailCool : Z := 60 * second.

Record ipFail := { if_first : Z; if_count : Z; if_until : option Z }.
Definition ipLimiter : Type := gmap string ipFail.
Definition newIPLimiter : ipLimiter := ∅.

Definition locked (now : Z) (ip : string) (l : ipLimiter) : bool :=
  if bool_decide (ip = "") then false
  else match l !! ip with
  | None => false
  | Some st => match if_until st with Some until => now <? until | None => false end
  end.

Definition stale (now : Z) (st : ipFail) : bool :=
  (authFailWindow <=? now - if_first st) &&
  match if_until st with None => true | Some until => until <? now end.

Definition gcLocked (now : Z) (l : ipLimiter) : ipLimiter := filter (λ e, stale now e.2 = false) l.

Definition note (now : Z) (ip : string) (success : bool) (l : ipLimiter) : ipLimiter :=
  if bool_decide (ip = "") then l
  else
    let l := gcLocked now l in
    if success then delete ip l
    else
      let fresh := {| if_first := now; if_count := 0; if_until := None |} in
      let st := match l !! ip with
                | None => fresh
                | Some st => if authFailWindow <=? now - if_first st then fresh else st
                end in
      let count := if_count st + 1 in
      let until := if (authFailMax <=? count) && bool_decide (if_until st = None)
                   then Some (now + authFailCool) else if_until st in
      <[ip := {| if_first := if_first st; if_count := count; if_until := until |}]> l.

(** ** Tokens *)

Definition RoleAdmin : string := "admin".
Definition RoleViewer : string := "viewer".

Record AuthInfo := { ai_Name : string; ai_Role : string }.
Record authRule := { ar_name : string; ar_token : string; ar_role : string }.
Record Authenticator := { a_enabled : bool; a_rules : list authRule }.

Definition token_rule (item : AuthToken) : option authRule :=
  if bool_decide (TrimSpace (at_Token item) = "") then None
  else
    let role := ToLower (TrimSpace (at_Role item)) in
    Some {| ar_name := TrimSpace (at_Name item); ar_token := TrimSpace (at_Token item);
            ar_role := if bool_decide (role = "") then RoleAdmin else role |}.

Definition NewAuthenticator (cfg : AuthConfig) : Authenticator :=
  {| a_enabled := ac_Enabled cfg; a_rules := omap token_rule (ac_Tokens cfg) |}.

(** The token an [Authorization] header presents. *)
Definition bearer (header : string) : option string :=
  let value := to_list (TrimSpace header) in
  if (length value <? 7)%nat || negb (EqualFold (of_list (take 7 value)) "Bearer ") then None
  else
    let provided := TrimSpace (of_list (drop 7 value)) in
    if bool_decide (provided = "") then None else Some provided.

Definition info_of (rule : authRule) : AuthInfo :=
  {| ai_Name := if bool_decide (ar_name rule = "") then "token" else ar_name rule;
     ai_Role := if bool_decide (ar_role rule = "") then RoleAdmin else ar_role rule |}.

Definition Authenticate (a : Authenticator) (header : string) : option AuthInfo :=
  if negb (a_enabled a) then Some {| ai_Name := "anonymous"; ai_Role := RoleAdmin |}
  else
    provided ← bearer header;
    '(_, rule) ← list_find (λ rule, ar_token rule = provided) (a_rules a);
    Some (info_of rule).

Definition canWrite (info : AuthInfo) : bool := bool_decide (ai_Role info = RoleAdmin).

(** ** The middleware: 429, 401, or the caller *)

Inductive Admission := RateLimited | Unauthorized | Accepted (info : AuthInfo).

(** A request handled without interleaving. *)
Definition middleware (a : Authenticator) (now : Z) (ip header : string) (l : ipLimiter)
    : Admission * ipLimiter :=
  if locked now ip l then (RateLimited, l)
  else
    let info := Authenticate a header in
    let l := note now ip (bool_decide (is_Some info)) l in
    (match info with Some info => Accepted info | None => Unauthorized end, l).

Record ApiRequest := { ar_now : Z; ar_ip : string; ar_header : string }.
Fixpoint serve (a : Authenticator) (reqs : list ApiRequest) (l : ipLimiter) : list Admission * ipLimiter :=
  match reqs with
  | [] => ([], l)
  | r :: reqs =>
      let '(out, l) := middleware a (ar_now r) (ar_ip r) (ar_header r) l in
      let '(outs, l) := serve a reqs l in (out :: outs, l)
  end.

(** ** Lemmas *)

Lemma gc_keeps now l ip st :
  l !! ip = Some st → stale now st = false → gcLocked now l !! ip = Some st.
Proof. intros Hl Hs. by apply map_lookup_filter_Some. Qed.

Lemma note_other now ip ip' success l st :
  ip ≠ ip' → l !! ip = Some st → stale now st = false → note now ip' success l !! ip = Some st.
Proof.
  intros Hne Hl Hs. unfold note, ipLimiter in *. case_bool_decide; [done|]. pose proof (gc_keeps now l ip st Hl Hs) as Hgc.
  cbv zeta. destruct success; [by rewrite lookup_delete_ne|by rewrite lookup_insert_ne].
Qed.

Lemma locked_entry now ip l :
  locked now ip l = true ↔ ip ≠ "" ∧ ∃ st until, l !! ip = Some st ∧ if_until st = Some until ∧ now < until.
Proof.
  unfold locked. case_bool_decide as Hip; [naive_solver|]. split.
  - intros H. split; [done|]. destruct (l !! ip) as [st|]; [|done].
    destruct (if_until st) as [until|] eqn:Hu; [|done]. bool_to_prop. eauto.
  - intros (_ & st & until & -> & -> & Hlt). by apply Z.ltb_lt.
Qed.

Lemma locked_not_stale now until st : if_until st = Some until → now ≤ until → stale now st = false.
Proof. intros Hu Hlt. unfold stale. rewrite Hu. apply andb_false_iff. right. by apply Z.ltb_ge. Qed.

(** A lockout that is not over is kept by every request of the middleware. *)
Lemma middleware_keeps_lock a r l ip st until :
  ip ≠ "" → l !! ip = Some st → if_until st = Some until → ar_now r < until →
  (middleware a (ar_now r) (ar_ip r) (ar_header r) l).2 !! ip = Some st ∧
  (ar_ip r = ip → (middleware a (ar_now r) (ar_ip r) (ar_header r) l).1 = RateLimited).
Proof.
  intros Hip Hl Hu Hlt. unfold middleware. destruct (locked (ar_now r) (ar_ip r) l) eqn:El; [done|].
  assert (ar_ip r ≠ ip) as Hne.
  { intros E. rewrite E in El. assert (locked (ar_now r) ip l = true) as Hlk by (apply locked_entry; eauto 6).
    by rewrite Hlk in El. }
  simpl. split; [|done]. apply note_other; [done..|]. by apply (locked_not_stale _ until); [|lia].
Qed.

(** requests handled one after the other respect a lockout in full: as
    long as the lockout of an address is not over, every request from it is
    answered 429, whatever it and all other addresses send in between. *)
Theorem lockout_lasts a reqs l ip st until :
  ip ≠ "" → l !! ip = Some st → if_until st = Some until →
  Forall (λ r, ar_now r < until) reqs →
  ∀ i r, reqs !! i = Some r → ar_ip r = ip → (serve a reqs l).1 !! i = Some RateLimited.
Proof.
  intros Hip Hl Hu Hall. revert l Hl.
  induction Hall as [|r reqs Hr _ IH]; intros l Hl i r' Hi Hr'; [done|].
  destruct (middleware_keeps_lock a r l ip st until Hip Hl Hu Hr) as [Hkeep Hlim]. simpl.
  destruct (middleware a (ar_now r) (ar_ip r) (ar_header r) l) as [out l1] eqn:Em. simpl in *.
  destruct (serve a reqs l1) as [outs l2] eqn:Es. destruct i as [|i]; simpl in *.
  - injection Hi as ->. by rewrite Hlim.
  - pose proof (IH l1 Hkeep i r' Hi Hr') as Hout. by rewrite Es in Hout.
Qed.

(** What a configured token grants. *)
Definition granted (item : AuthToken) : AuthInfo := {|
  ai_Name := if bool_decide (TrimSpace (at_Name item) = "") then "token" else TrimSpace (at_Name item);
  ai_Role := if bool_decide (ToLower (TrimSpace (at_Role item)) = "") then RoleAdmin
             else ToLower (TrimSpace (at_Role item)) |}.

Lemma token_rule_info item rule : token_rule item = Some rule →
  ar_token rule = TrimSpace (at_Token item) ∧ info_of rule = granted item.
Proof.
  unfold token_rule. case_bool_decide as Ht; [done|]. intros [= <-]. split; [done|].
  unfold info_of, granted. simpl. f_equal.
  destruct (bool_decide (ToLower (TrimSpace (at_Role item)) = "")) eqn:Hr; [reflexivity|by rewrite Hr].
Qed.

Lemma bearer_nonempty header provided : bearer header = Some provided → provided ≠ "".
Proof. unfold bearer. repeat case_match; [done..|]. intros [= <-]. by bool_to_prop. Qed.

Lemma find_token tokens provided info :
  provided ≠ "" →
  (list_find (λ rule, ar_token rule = provided) (omap token_rule tokens)
     ≫= λ '(_, rule), Some (info_of rule)) = Some info ↔
  ∃ before item rest, tokens = before ++ item :: rest ∧ TrimSpace (at_Token item) = provided ∧
    Forall (λ t, TrimSpace (at_Token t) ≠ provided) before ∧ info = granted item.
Proof.
  intros Hne. induction tokens as [|item tokens IH]; [split; [done|]; by intros ([]&?&?&?&?)|].
  destruct (decide (TrimSpace (at_Token item) = provided)) as [E|E].
  - destruct (token_rule item) as [rule|] eqn:Et.
    2: { unfold token_rule in Et. rewrite bool_decide_eq_false_2 in Et by congruence. done. }
    apply token_rule_info in Et as Hi. destruct Hi as [Htok Hinfo].
    simpl. rewrite Et. simpl. rewrite decide_True by congruence. simpl. rewrite Hinfo. split.
    + intros [= <-]. by exists [], item, tokens.
    + intros (before & item' & rest & Heq & Ht & Hall & ->). destruct before as [|x before].
      * by injection Heq as ->.
      * injection Heq as -> _. by apply Forall_cons in Hall as [? _].
  - assert ((list_find (λ rule, ar_token rule = provided) (omap token_rule (item :: tokens))
      ≫= λ '(_, rule), Some (info_of rule)) =
      (list_find (λ rule, ar_token rule = provided) (omap token_rule tokens)
      ≫= λ '(_, rule), Some (info_of rule))) as ->.
    { simpl. destruct (token_rule item) as [rule|] eqn:Et; [|done].
      apply token_rule_info in Et as [Ht _]. simpl. rewrite decide_False by congruence.
      by destruct (list_find _ _) as [[]|]. }
    rewrite IH. split.
    + intros (before & item' & rest & -> & Ht & Hall & ->). exists (item :: before), item', rest.
      split_and!; [done..| |done]. by constructor.
    + intros (before & item' & rest & Heq & Ht & Hall & ->). destruct before as [|x before].
      * by injection Heq as -> _.
      * injection Heq as _ ->. apply Forall_cons in Hall as [_ Hall]. eauto 8.
Qed.

(** with authentication enabled a request is accepted iff its header
    presents the trimmed value of a configured token that is not blank; the
    caller's name and role are those of the first such token of the
    configuration. *)
Theorem authenticate_exact cfg header info :
  ac_Enabled cfg = true →
  Authenticate (NewAuthenticator cfg) header = Some info ↔
  ∃ provided before item rest, bearer header = Some provided ∧
    ac_Tokens cfg = before ++ item :: rest ∧ TrimSpace (at_Token item) = provided ∧
    Forall (λ t, TrimSpace (at_Token t) ≠ provided) before ∧
    info = granted item.
Proof.
  intros He. unfold Authenticate. simpl. rewrite He. simpl.
  destruct (bearer header) as [provided|] eqn:Eb; simpl; [|naive_solver].
  rewrite find_token by (by apply (bearer_nonempty header)). naive_solver.
Qed.

(** *** Requests in flight *)

(** The two steps of a failed request whose check and note are apart. *)
Fixpoint fails (n : nat) (now : Z) (ip : string) (l : ipLimiter) : ipLimiter :=
  match n with O => l | S n => fails n now ip (note now ip false l) end.

(** (finding) a failed request that passed the [locked] check before a
    lockout began and is noted after the counting window has elapsed replaces
    the entry: the one-minute lockout ends at once, here 49 seconds early. *)
Theorem late_note_lifts_lockout :
  let ip := "192.0.2.7" in
  let before := fails 8 (49 * second) ip (note 0 ip false newIPLimiter) in
  let l := note (50 * second) ip false before in
  locked (49 * second) ip before = false ∧
  locked (51 * second) ip l = true ∧ locked (109 * second) ip l = true ∧
  locked (61 * second) ip (note (60 * second) ip false l) = false.
Proof. by vm_compute. Qed.

(** ** Witnesses *)

Definition api_config : AuthConfig := {|
  ac_Enabled := true;
  ac_Tokens := [{| at_Name := ""; at_Token := " "; at_Role := "" |};
                {| at_Name := " ops "; at_Token := "s3cret "; at_Role := "Viewer" |}] |}.

Lemma lockout_lasts_witness :
  let l := fails 10 0 "192.0.2.7" newIPLimiter in
  let reqs := [{| ar_now := second; ar_ip := "192.0.2.8"; ar_header := "" |};
               {| ar_now := 59 * second; ar_ip := "192.0.2.7"; ar_header := "bearer s3cret" |}] in
  (serve (NewAuthenticator api_config) reqs l).1 !! 1%nat = Some RateLimited.
Proof.
  intros l reqs.
  apply (lockout_lasts (NewAuthenticator api_config) reqs l "192.0.2.7"
    {| if_first := 0; if_count := 10; if_until := Some (60 * second) |} (60 * second)) with
    {| ar_now := 59 * second; ar_ip := "192.0.2.7"; ar_header := "bearer s3cret" |};
    [done|by vm_compute|done| |done|done].
  repeat constructor.
Defined.

Lemma authenticate_exact_witness :
  Authenticate (NewAuthenticator api_config) "bearer s3cret" = Some {| ai_Name := "ops"; ai_Role := "viewer" |}.
Proof.
  apply authenticate_exact; [done|].
  exists "s3cret", [{| at_Name := ""; at_Token := " "; at_Role := "" |}],
    {| at_Name := " ops "; at_Token := "s3cret "; at_Role := "Viewer" |}, [].
  split_and!; [by vm_compute|done|by vm_compute| |by vm_compute].
  constructor; [|constructor]. apply (bool_decide_unpack _). by vm_compute.
Defined.
