(* ===== verification/ConfigSpec.v ===== *)
(** * What the configuration parser guarantees

    Which documents [normalize] accepts and what the result looks like: the
    normalized form is a fixed point, and the tokens it lets through identify
    their callers. *)

From S2P Require Import Prelude GoStrings Duration Calendar NetIP SourceIP Limits Rule Config ControlAuth.

(** ** Text defaults *)

Lemma or_default_id d v : or_default d (or_default d v) = or_default d v.
Proof. unfold or_default. repeat case_bool_decide; congruence. Qed.

Lemma or_default_nonempty d v : d ≠ "" → or_default d v ≠ "".
Proof. unfold or_default. by case_bool_decide. Qed.

Lemma or_default_fix d v (f : string → string) : f d = d → f v = v → f (or_default d v) = or_default d v.
Proof. unfold or_default. by case_bool_decide. Qed.

Definition lowered (s : string) : string := ToLower (TrimSpace s).

Lemma lowered_default d v : lowered d = d → lowered (or_default d (lowered v)) = or_default d (lowered v).
Proof. intros Hd. apply or_default_fix; [done|]. unfold lowered. by autorewrite with vmflow. Qed.

(** The sets of seen texts. *)
Lemma fresh_after v x (seen : gset string) : v ∉ {[ x ]} ∪ seen ↔ v ≠ x ∧ v ∉ seen.
Proof. set_solver. Qed.
Lemma seen_cons x (seen s : gset string) : {[ x ]} ∪ seen ∪ s = seen ∪ ({[ x ]} ∪ s).
Proof. set_solver. Qed.

(** ** Rules *)

Section rules.
Context {tz : TzDatabase}.

Definition rule_id (rule : Rule) : string := RuleID (Standardize rule).

Lemma normalize_rules_iff index seen rules out :
  normalize_rules index seen rules = Ok out ↔
  out = Standardize <$> rules ∧ Forall (λ r, is_ok (Validate r) = true) rules ∧
  NoDup (rule_id <$> rules) ∧ Forall (λ r, rule_id r ∉ seen) rules.
Proof.
  revert index seen out. induction rules as [|rule rules IH]; intros index seen out; cbn [normalize_rules].
  { rewrite !Forall_nil. split; [intros [= <-]; by split_and!; [| |constructor|]|by intros (-> & _)]. }
  rewrite Validate_Standardize. rewrite !fmap_cons, NoDup_cons, !Forall_cons. fold (rule_id rule).
  destruct (Validate rule) as [u|e]; simpl is_ok; [|split; [done|naive_solver]].
  rewrite guard_Ok, bool_decide_eq_false, bind_Ok. setoid_rewrite IH. split.
  - intros (Hs & rest & (-> & Hall & Hnd & Hfresh) & [= <-]). split_and!; try done.
    + intros (r & Hr & Hin)%list_elem_of_fmap. rewrite Forall_forall in Hfresh.
      apply (Hfresh r Hin). rewrite <-Hr. by apply elem_of_union_l, elem_of_singleton.
    + eapply Forall_impl; [exact Hfresh|]. intros r [_ Hr]%fresh_after. done.
  - intros (-> & [_ Hall] & [Hnew Hnd] & Hs & Hfresh). split; [done|]. eexists. split_and!; [done..| |done].
    rewrite Forall_forall in *. intros r Hin. pose proof (Hfresh r Hin).
    apply fresh_after. split; [|done]. intros E. apply Hnew. rewrite <-E. by apply list_elem_of_fmap_2.
Qed.
End rules.

(** ** Tokens *)

Definition token_value (t : AuthToken) : string := TrimSpace (at_Token t).
Definition token_role (t : AuthToken) : string := or_default AuthRoleAdmin (lowered (at_Role t)).
Definition nonblank (tokens : list AuthToken) : list string :=
  filter (λ v, v ≠ "") (token_value <$> tokens).
Definition clean_token (index : nat) (t : AuthToken) : AuthToken := {|
  at_Name := if bool_decide (token_value t = "") then TrimSpace (at_Name t)
             else or_default ("token-" +:+ FormatInt (Z.of_nat index + 1)) (TrimSpace (at_Name t));
  at_Token := token_value t; at_Role := token_role t |}.

Definition role_ok (t : AuthToken) : Prop := token_role t = AuthRoleAdmin ∨ token_role t = AuthRoleViewer.

Lemma normalize_tokens_iff enabled index seen tokens out seen' :
  normalize_tokens enabled index seen tokens = Ok (out, seen') ↔
  out = imap (λ k, clean_token (index + k)) tokens ∧ Forall role_ok tokens ∧
  (enabled = true → Forall (λ t, token_value t ≠ "") tokens) ∧
  NoDup (nonblank tokens) ∧ Forall (.∉ seen) (nonblank tokens) ∧ seen' = seen ∪ list_to_set (nonblank tokens).
Proof.
  revert index seen out seen'. induction tokens as [|t tokens IH]; intros index seen out seen'; cbn [normalize_tokens].
  { unfold nonblank. simpl. split.
    - intros [= <- <-]. split_and!; try done; [constructor|set_solver].
    - intros (-> & _ & _ & _ & _ & ->). f_equal. f_equal. set_solver. }
  fold (token_value t). fold (lowered (at_Role t)). fold (token_role t). cbv zeta.
  rewrite guard_Ok, andb_false_iff, !negb_false_iff, !bool_decide_eq_true. rewrite Forall_cons.
  change (token_role t = AuthRoleAdmin ∨ token_role t = AuthRoleViewer) with (role_ok t).
  assert (imap (λ k, clean_token (index + k)) (t :: tokens)
    = clean_token index t :: imap (λ k, clean_token (S index + k)) tokens) as Himap.
  { simpl. rewrite Nat.add_0_r. f_equal. apply imap_ext. intros k x _. simpl. by rewrite Nat.add_succ_r. }
  destruct (decide (token_value t = "")) as [Hblank|Hblank].
  - rewrite bool_decide_eq_true_2 by done. rewrite guard_Ok.
    assert (nonblank (t :: tokens) = nonblank tokens) as ->.
    { unfold nonblank. rewrite fmap_cons. by rewrite filter_cons_False by auto. }
    assert (clean_token index t = {| at_Name := TrimSpace (at_Name t); at_Token := token_value t; at_Role := token_role t |})
      as Hc by (unfold clean_token; by rewrite bool_decide_eq_true_2).
    rewrite bind_Ok. split.
    + intros (Hr & He & [rest seen1] & Hrest & [= <- <-]).
      apply IH in Hrest as (-> & ? & ? & ? & ? & ?). split_and!; try done.
      * by rewrite Himap, Hc.
      * by rewrite He.
    + intros (-> & [Hr Hall] & He & Hnd & Hf & ->). split_and!; [done| |].
      { destruct enabled; [|done]. by destruct (proj1 (Forall_cons _ _ _) (He eq_refl)). }
      eexists (_, _). split; [apply IH; split_and!; [done|done| |done..]|by rewrite Himap, Hc].
      intros E. by apply He, Forall_cons in E as [_ ?].
  - rewrite bool_decide_eq_false_2 by done. rewrite guard_Ok, bool_decide_eq_false.
    assert (nonblank (t :: tokens) = token_value t :: nonblank tokens) as ->.
    { unfold nonblank. rewrite fmap_cons. by rewrite filter_cons_True. }
    assert (clean_token index t = {| at_Name := or_default ("token-" +:+ FormatInt (Z.of_nat index + 1)) (TrimSpace (at_Name t));
      at_Token := token_value t; at_Role := token_role t |}) as Hc by (unfold clean_token; by rewrite bool_decide_eq_false_2).
    rewrite bind_Ok, NoDup_cons, (Forall_cons (.∉ seen)). split.
    + intros (Hr & Hs & [rest seen1] & Hrest & [= <- <-]).
      apply IH in Hrest as (-> & Hall & He & Hnd & Hf & ->). rewrite Forall_forall in Hf.
      split_and!; try done.
      * by rewrite Himap, Hc.
      * intros E. constructor; auto.
      * intros [Hin _]%Hf%fresh_after. done.
      * apply Forall_forall. intros v [_ Hv]%Hf%fresh_after. done.
      * by rewrite seen_cons.
    + intros (-> & [Hr Hall] & He & [Hnew Hnd] & [Hs Hf] & ->). split_and!; [done..|].
      rewrite Forall_forall in Hf.
      eexists (_, _). split; [apply IH; split_and!; [done|done| |done| |done]|].
      * intros E. by apply He, Forall_cons in E as [_ ?].
      * apply Forall_forall. intros v Hv. apply fresh_after. split; [by intros ->|by apply Hf].
      * by rewrite Himap, Hc, seen_cons.
Qed.

(** ** Accepted documents *)

(** The conditions on a decoded document, field by field. *)
Record tls_ok (t : ControlTLSConfig) : Prop := {
  tls_pair : TrimSpace (tls_CertFile t) = "" ↔ TrimSpace (tls_KeyFile t) = "";
  tls_client_ca : TrimSpace (tls_ClientCAFile t) ≠ "" → TrimSpace (tls_CertFile t) ≠ "";
  tls_version : TrimSpace (tls_MinVersion t) ∈ [""; "1.2"; "1.3"];
}.

Definition flush_ok (s : StatsConfig) : Prop :=
  TrimSpace (sc_FlushInterval s) = "" ∨
  ∃ interval, ParseDuration (TrimSpace (sc_FlushInterval s)) = Some interval ∧ second ≤ interval.

Record auth_ok (a : AuthConfig) : Prop := {
  auth_roles : Forall role_ok (ac_Tokens a);
  auth_unique : NoDup (nonblank (ac_Tokens a));
  auth_enabled : ac_Enabled a = true → ac_Tokens a ≠ [] ∧ Forall (λ t, token_value t ≠ "") (ac_Tokens a);
}.

(** The control port: either of the two fields, the deprecated one only with a
    loopback host. *)
Definition port_ok (f : File) (port : Z) : Prop :=
  let legacy := TrimSpace (cf_DeprecatedControlListenAddr f) in
  1 ≤ port ≤ 65535 ∧
  ((legacy = "" ∧ port = (if cf_ControlPort f =? 0 then DefaultControlPort else cf_ControlPort f)) ∨
   (legacy ≠ "" ∧ cf_ControlPort f = 0 ∧ ∃ host text, SplitHostPort legacy = Some (host, text) ∧
      isLoopbackHost host = true ∧ ParseInt text = Some port)).

Record accepted {tz : TzDatabase} (f : File) : Prop := {
  acc_version : cf_Version f = 0 ∨ cf_Version f = 1;
  acc_port : ∃ port, port_ok f port;
  acc_sessions : 0 ≤ cf_UDPMaxSessions f ≤ MaxUDPGlobalMaxSessions;
  acc_stats : flush_ok (cf_Stats f);
  acc_tls : tls_ok (cf_ControlTLS f);
  acc_auth : auth_ok (cf_Auth f);
  acc_rules : Forall (λ r, is_ok (Validate r) = true) (cf_Rules f);
  acc_ids : NoDup (rule_id <$> cf_Rules f);
}.

Lemma one_of_spec v l : one_of v l = true ↔ v ∈ l.
Proof.
  unfold one_of. rewrite existsb_exists. setoid_rewrite bool_decide_eq_true.
  setoid_rewrite <-list_elem_of_In. naive_solver.
Qed.

Lemma bool_decide_iff (P Q : Prop) `{Decision P, Decision Q} :
  bool_decide P = bool_decide Q ↔ (P ↔ Q).
Proof. repeat case_bool_decide; naive_solver. Qed.

Lemma validate_tls_iff t u : validateControlTLS (normalizeControlTLS t) = Ok u ↔ tls_ok t.
Proof.
  unfold validateControlTLS, normalizeControlTLS. simpl.
  rewrite !guard_Ok, check_Ok, !negb_false_iff, one_of_spec, Bool.eqb_true_iff.
  rewrite andb_false_iff, orb_false_iff, !bool_decide_eq_false. split.
  - intros (Hp & Hc & Hv). apply bool_decide_iff in Hp. split; [done| |done].
    intros Hca. destruct Hc as [Hc|[Hc _]]; [|done]. by destruct Hc.
  - intros [Hp Hc Hv]. split_and!; [by apply bool_decide_iff| |done].
    destruct (decide (TrimSpace (tls_ClientCAFile t) = "")) as [E|E]; [by left; intros H|right].
    split; [by auto|]. intros Hk. apply (Hc E). by apply Hp.
Qed.

Lemma stats_iff s out : normalizeStats s = Ok out ↔ flush_ok s ∧ out = {|
  sc_Persist := sc_Persist s; sc_Path := TrimSpace (sc_Path s); sc_FlushInterval := TrimSpace (sc_FlushInterval s) |}.
Proof.
  unfold normalizeStats, flush_ok. simpl. case_bool_decide as E; [naive_solver|].
  destruct (ParseDuration (TrimSpace (sc_FlushInterval s))) as [interval|]; [|naive_solver].
  rewrite guard_Ok, Z.ltb_ge. naive_solver.
Qed.

Lemma auth_iff a out : normalizeAuth a = Ok out ↔ auth_ok a ∧ out = {|
  ac_Enabled := ac_Enabled a; ac_Tokens := imap clean_token (ac_Tokens a) |}.
Proof.
  unfold normalizeAuth. rewrite bind_Ok. split.
  - intros ([tokens seen] & Ht & H). apply guard_Ok in H as [Hno [= <-]].
    apply normalize_tokens_iff in Ht as (-> & Hr & He & Hnd & _ & ->). split; [|done].
    split; [done..|]. intros E. split; [|by auto]. rewrite E in Hno. simpl in Hno.
    apply bool_decide_eq_false in Hno. intros Hnil. apply Hno. by rewrite Hnil.
  - intros [[Hr Hnd He] ->]. eexists (_, _). split.
    + apply normalize_tokens_iff. split_and!; [done|done| |done| |done].
      * intros E. by apply He.
      * apply Forall_true. intros v. apply not_elem_of_empty.
    + rewrite guard_Ok, andb_false_iff, bool_decide_eq_false. split; [|done].
      destruct (ac_Enabled a); [right|by left]. destruct (He eq_refl) as [Hne Hall].
      destruct (ac_Tokens a) as [|t ts]; [done|]. apply Forall_cons in Hall as [Hv _].
      unfold nonblank. rewrite fmap_cons, filter_cons_True by done. simpl. set_solver.
Qed.

Lemma port_iff f port legacy used : normalizeControlPort f = Ok (port, legacy, used) ↔
  port_ok f port ∧
  (legacy, used) = (if decide (TrimSpace (cf_DeprecatedControlListenAddr f) = "")
                    then (cf_DeprecatedControlListenAddr f, cf_UsedDeprecatedControlListenAddr f) else ("", true)).
Proof.
  unfold normalizeControlPort, port_ok. case_bool_decide as E; simpl.
  - rewrite decide_True by done. rewrite guard_Ok, orb_false_iff, !Z.ltb_ge. naive_solver.
  - rewrite decide_False by done. rewrite bind_Ok. split.
    + intros ([[p l] us] & H & Hr). apply guard_Ok in H as [Hz%negb_false_iff%Z.eqb_eq H].
      destruct (SplitHostPort _) as [[host text]|] eqn:Es; [|done].
      apply guard_Ok in H as [Hl%negb_false_iff H]. destruct (ParseInt text) as [q|] eqn:Ep; [|done].
      apply guard_Ok in H as [Hq [= <- <- <-]]. apply guard_Ok in Hr as [Hr [= <- <- <-]].
      apply orb_false_iff in Hq as [Hq1%Z.ltb_ge Hq2%Z.ltb_ge].
      assert (q =? 0 = false) as -> by (apply Z.eqb_neq; lia). split; [|done]. split; [lia|]. right. eauto 8.
    + intros [[Hp [[? _]|(_ & Hz & host & text & Hs & Hl & Ht)]] [= -> ->]]; [done|].
      rewrite Hz, Hs, Hl, Ht. simpl.
      assert ((port <? 1) || (65535 <? port) = false) as Hr by (apply orb_false_iff; rewrite !Z.ltb_ge; lia).
      exists (port, "", true). rewrite Hr. split; [done|].
      assert (port =? 0 = false) as -> by (apply Z.eqb_neq; lia). by rewrite Hr.
Qed.

Section parse.
Context {tz : TzDatabase}.
Implicit Types f g : File.

(** What a successful pass returns, field by field. *)
Record normal_form f g : Prop := {
  nf_version : cf_Version g = 1;
  nf_language : (cf_Language g, cf_InvalidLanguage g) = normalizeLanguage (cf_Language f);
  nf_port : port_ok f (cf_ControlPort g);
  nf_legacy : (cf_DeprecatedControlListenAddr g, cf_UsedDeprecatedControlListenAddr g) =
    (if decide (TrimSpace (cf_DeprecatedControlListenAddr f) = "")
     then (cf_DeprecatedControlListenAddr f, cf_UsedDeprecatedControlListenAddr f) else ("", true));
  nf_sessions : cf_UDPMaxSessions g =
    (if cf_UDPMaxSessions f =? 0 then DefaultUDPGlobalMaxSessions else cf_UDPMaxSessions f);
  nf_tls : cf_ControlTLS g = normalizeControlTLS (cf_ControlTLS f);
  nf_log : cf_Log g = normalizeLog (cf_Log f);
  nf_auth : cf_Auth g = {| ac_Enabled := ac_Enabled (cf_Auth f); ac_Tokens := imap clean_token (ac_Tokens (cf_Auth f)) |};
  nf_stats : cf_Stats g = {| sc_Persist := sc_Persist (cf_Stats f); sc_Path := TrimSpace (sc_Path (cf_Stats f));
                             sc_FlushInterval := TrimSpace (sc_FlushInterval (cf_Stats f)) |};
  nf_rules : cf_Rules g = Standardize <$> cf_Rules f;
  nf_rest : cf_BotToken g = cf_BotToken f ∧ cf_BotChat g = cf_BotChat f ∧ cf_BotControlToken g = cf_BotControlToken f ∧
    cf_AcmeChallenge g = cf_AcmeChallenge f ∧ cf_AcmeHTTP01Addr g = cf_AcmeHTTP01Addr f ∧
    cf_AcmeCacheDir g = cf_AcmeCacheDir f ∧ cf_AcmeDNS01 g = cf_AcmeDNS01 f ∧ cf_CertCacheDir g = cf_CertCacheDir f ∧
    cf_CertReview g = cf_CertReview f ∧ cf_UnknownFields g = cf_UnknownFields f;
}.

Lemma normalize_inv f g : normalize f = Ok g → accepted f ∧ normal_form f g.
Proof.
  unfold normalize. cbv zeta. rewrite guard_Ok, negb_false_iff. intros [Hv H].
  destruct (normalizeLanguage (cf_Language f)) as [lang inv] eqn:El.
  apply bind_Ok in H as ([[port legacy] used] & Hp & H). apply port_iff in Hp as [Hp Hl].
  apply guard_Ok in H as [Hs H]. apply bind_Ok in H as (stats & Hst & H). apply stats_iff in Hst as [Hst ->].
  apply bind_Ok in H as (u & Ht & H). apply validate_tls_iff in Ht.
  apply bind_Ok in H as (auth & Ha & H). apply auth_iff in Ha as [Ha ->].
  apply bind_Ok in H as (rules & Hr & [= <-]). apply normalize_rules_iff in Hr as (-> & Hr & Hid & _).
  apply Z.eqb_eq in Hv. apply orb_false_iff in Hs as [Hs1%Z.ltb_ge Hs2%Z.ltb_ge].
  split; split; simpl; try done.
  - destruct (Z.eqb_spec (cf_Version f) 0); lia.
  - by exists port.
  - unfold MaxUDPGlobalMaxSessions, DefaultUDPGlobalMaxSessions in *. destruct (Z.eqb_spec (cf_UDPMaxSessions f) 0); lia.
Qed.

Lemma normalize_total f : accepted f → ∃ g, normalize f = Ok g.
Proof.
  intros [Hv [port Hp] Hs Hst Ht Ha Hr Hid]. unfold normalize. cbv zeta.
  destruct (normalizeLanguage (cf_Language f)) as [lang inv].
  assert ((if cf_Version f =? 0 then 1 else cf_Version f) = 1) as -> by (by destruct Hv as [-> | ->]).
  assert (∃ legacy used, normalizeControlPort f = Ok (port, legacy, used)) as (legacy & used & ->).
  { setoid_rewrite port_iff. case_decide; eauto. }
  rewrite (proj2 (stats_iff _ _) (conj Hst eq_refl)), (proj2 (auth_iff _ _) (conj Ha eq_refl)).
  rewrite (proj2 (validate_tls_iff _ ()) Ht).
  rewrite (proj2 (normalize_rules_iff 0 ∅ _ _) ltac:(split_and!; [reflexivity|done..|]; apply Forall_true; set_solver)).
  simpl. unfold MaxUDPGlobalMaxSessions, DefaultUDPGlobalMaxSessions in *.
  destruct (Z.eqb_spec (cf_UDPMaxSessions f) 0); simpl; [by eexists|].
  replace ((cf_UDPMaxSessions f <? 0) || (4096 <? cf_UDPMaxSessions f)) with false by lia.
  by eexists.
Qed.

(** C30: a decoded document is accepted exactly when its version is 1 (or
    absent), one of the two control addresses gives a port in range (the
    deprecated one a loopback host), the session limit is in range, the flush
    interval is at least a second, the TLS files come in pairs, every token has
    a known role and no other token's value, authentication is not enabled
    without tokens or with a blank one, every rule is valid and no two rules
    have the same trimmed id. *)
Theorem config_accepts_exactly f : is_ok (normalize f) = true ↔ accepted f.
Proof.
  rewrite is_ok_iff. split; [intros [g Hg]; by apply (normalize_inv f g)|apply normalize_total].
Qed.

(** ** The normalized document *)

Record file_wf g : Prop := {
  fw_version : cf_Version g = 1;
  fw_language : cf_Language g = English ∨ cf_Language g = SimplifiedChinese;
  fw_port : 1 ≤ cf_ControlPort g ≤ 65535;
  fw_legacy : TrimSpace (cf_DeprecatedControlListenAddr g) = "";
  fw_sessions : 1 ≤ cf_UDPMaxSessions g ≤ MaxUDPGlobalMaxSessions;
  fw_log : log_Level (cf_Log g) ≠ "" ∧ log_Format (cf_Log g) ≠ "";
  fw_tokens : Forall (λ t, (at_Role t = AuthRoleAdmin ∨ at_Role t = AuthRoleViewer) ∧
    (at_Token t ≠ "" → at_Name t ≠ "")) (ac_Tokens (cf_Auth g));
  fw_enabled : ac_Enabled (cf_Auth g) = true → ac_Tokens (cf_Auth g) ≠ [] ∧
    Forall (λ t, at_Token t ≠ "") (ac_Tokens (cf_Auth g));
  fw_unique : NoDup (filter (λ v, v ≠ "") (at_Token <$> ac_Tokens (cf_Auth g)));
  fw_rules : Forall (λ r, standard r ∧ rule_wf r) (cf_Rules g);
  fw_ids : NoDup (RuleID <$> cf_Rules g);
}.

Lemma MatchLocale_supported value locale : MatchLocale value = Some locale → locale ∈ supportedLocales.
Proof.
  unfold MatchLocale, supportedLocales. repeat case_match; try done; intros [= <-]; set_solver.
Qed.

Lemma language_supported value : (normalizeLanguage value).1 ∈ supportedLocales.
Proof.
  unfold normalizeLanguage. case_bool_decide; [set_solver|].
  destruct (MatchLocale _) as [l|] eqn:E; [by apply MatchLocale_supported in E|set_solver].
Qed.

Lemma clean_token_value k t : at_Token (clean_token k t) = token_value t.
Proof. done. Qed.

Lemma clean_values tokens k : at_Token <$> imap (λ i, clean_token (k + i)) tokens = token_value <$> tokens.
Proof.
  revert k. induction tokens as [|t tokens IH]; intros k; [done|]. simpl. f_equal.
  etrans; [|apply (IH (S k))]. f_equal. apply imap_ext. intros i x _. simpl. by rewrite Nat.add_succ_r.
Qed.

Lemma clean_values0 tokens : at_Token <$> imap clean_token tokens = token_value <$> tokens.
Proof. apply (clean_values tokens 0). Qed.

Lemma Forall_imap_clean (P Q : AuthToken → Prop) tokens :
  Forall P tokens → (∀ k t, P t → Q (clean_token k t)) → Forall Q (imap clean_token tokens).
Proof.
  intros Hall HPQ. apply Forall_lookup. intros i x Hi. apply list_lookup_imap_Some in Hi as (t & Ht & ->).
  apply HPQ. by apply (Forall_lookup_1 _ _ _ _ Hall Ht).
Qed.

Lemma token_name_nonempty k : "token-" +:+ FormatInt k ≠ "".
Proof. done. Qed.

(** a document that passes is well formed: every number is in its range,
    the language is supported, the log settings are set, every role is known,
    every token in use has a name and a value of its own, and the rules are
    standardized, valid and have distinct ids. *)
Theorem parsed_config_well_formed f g : normalize f = Ok g → file_wf g.
Proof.
  intros [Hacc Hnf]%normalize_inv. destruct Hacc as [_ _ Hs _ _ [Hroles Huniq Hen] Hr Hid], Hnf.
  assert (at_Token <$> ac_Tokens (cf_Auth g) = token_value <$> ac_Tokens (cf_Auth f)) as Hvals.
  { rewrite nf_auth0. apply clean_values0. }
  split; try done.
  - pose proof (language_supported (cf_Language f)) as Hl. rewrite <-nf_language0 in Hl. simpl in Hl.
    unfold supportedLocales in Hl. set_solver.
  - by destruct nf_port0.
  - case_decide as E; injection nf_legacy0 as -> _; [done|]. by vm_compute.
  - rewrite nf_sessions0. unfold MaxUDPGlobalMaxSessions, DefaultUDPGlobalMaxSessions in *.
    destruct (Z.eqb_spec (cf_UDPMaxSessions f) 0); lia.
  - rewrite nf_log0. simpl. split; by apply or_default_nonempty.
  - rewrite nf_auth0. simpl. apply (Forall_imap_clean role_ok); [done|]. intros k t Hr'. split; [done|].
    simpl. intros Hne. rewrite bool_decide_eq_false_2 by done. apply or_default_nonempty, token_name_nonempty.
  - rewrite nf_auth0. simpl. intros E. destruct (Hen E) as [Hne Hall]. split.
    + by destruct (ac_Tokens (cf_Auth f)).
    + by apply (Forall_imap_clean (λ t, token_value t ≠ "")).
  - by rewrite Hvals.
  - rewrite nf_rules0. apply Forall_fmap. eapply Forall_impl; [exact Hr|]. intros r Hv. split.
    + apply Standardize_standard.
    + by apply validate_standardized_iff.
  - by rewrite nf_rules0, <-list_fmap_compose.
Qed.

(** ** The fixed point *)

Lemma port_ok_functional f p q : port_ok f p → port_ok f q → p = q.
Proof. unfold port_ok. naive_solver. Qed.

Lemma normal_form_functional f g h : normal_form f g → normal_form f h → g = h.
Proof.
  intros [] []. destruct g, h; simpl in *. destruct_and!.
  repeat match goal with
  | E : (_, _) = ?x, E' : (_, _) = ?x |- _ => rewrite <-E in E'; clear E; injection E' as -> ->
  | P : port_ok f _, Q : port_ok f _ |- _ => pose proof (port_ok_functional f _ _ P Q) as ->; clear Q
  end.
  by subst.
Qed.

Lemma normalize_intro f g : accepted f → normal_form f g → normalize f = Ok g.
Proof.
  intros Ha Hg. destruct (normalize_total f Ha) as [h Hh]. rewrite Hh. f_equal.
  apply normalize_inv in Hh as [_ Hh]. by apply (normal_form_functional f).
Qed.

(** The document a normalized configuration prints: the fields without a yaml
    name are left out. *)
Definition persisted (g : File) : File := {|
  cf_Version := cf_Version g; cf_Language := cf_Language g; cf_InvalidLanguage := "";
  cf_ControlPort := cf_ControlPort g; cf_DeprecatedControlListenAddr := cf_DeprecatedControlListenAddr g;
  cf_UsedDeprecatedControlListenAddr := false; cf_UDPMaxSessions := cf_UDPMaxSessions g;
  cf_ControlTLS := cf_ControlTLS g; cf_Log := cf_Log g; cf_Auth := cf_Auth g; cf_BotToken := cf_BotToken g;
  cf_BotChat := cf_BotChat g; cf_BotControlToken := cf_BotControlToken g; cf_AcmeChallenge := cf_AcmeChallenge g;
  cf_AcmeHTTP01Addr := cf_AcmeHTTP01Addr g; cf_AcmeCacheDir := cf_AcmeCacheDir g; cf_AcmeDNS01 := cf_AcmeDNS01 g;
  cf_CertCacheDir := cf_CertCacheDir g; cf_CertReview := cf_CertReview g; cf_Stats := cf_Stats g;
  cf_Rules := cf_Rules g; cf_UnknownFields := [] |}.

Lemma digit_plain_end c : is_digit c = true → plain_ends "t"%char c = true.
Proof.
  assert (forallb (λ n, implb (is_digit (ascii_of_nat n)) (plain_ends "t" (ascii_of_nat n))) (seq 0 256) = true)
    as Hall by by vm_compute.
  intros Hc. rewrite forallb_forall in Hall. specialize (Hall (nat_of_ascii c)).
  rewrite ascii_nat_embedding, Hc in Hall. apply Hall, list_elem_of_In, elem_of_seq.
  pose proof (nat_ascii_bounded c). lia.
Qed.

Lemma last_string_app s t : t ≠ "" → list.last (to_list (s +:+ t)) = list.last (to_list t).
Proof.
  intros Ht. induction s as [|c s IH]; [done|]. simpl. change (to_list (String.append s t)) with (to_list (s +:+ t)).
  rewrite last_cons, IH. destruct (list.last (to_list t)) eqn:E; [done|]. apply last_None in E. by destruct t.
Qed.

(** The generated token names are trimmed. *)
Lemma token_name_trimmed k : 0 ≤ k → TrimSpace ("token-" +:+ FormatInt k) = "token-" +:+ FormatInt k.
Proof.
  intros Hk. destruct (FormatInt_digits k Hk) as [Hd Hne].
  assert (is_Some (dec_value 0 (FormatInt k))) as Hall%dec_value_digits by eauto.
  destruct (list.last (to_list (FormatInt k))) as [c|] eqn:Hl.
  2: { apply last_None in Hl. by destruct (FormatInt k). }
  apply (TrimSpace_plain_ends _ "t" c); [done|by rewrite last_string_app|]. apply digit_plain_end.
  apply (forallb_forall is_digit (to_list (FormatInt k))); [done|]. apply list_elem_of_In. by apply last_Some_elem_of.
Qed.

Lemma token_value_clean k t : token_value (clean_token k t) = token_value t.
Proof. unfold token_value at 1. simpl. unfold token_value. apply TrimSpace_idemp. Qed.

Lemma token_role_clean k t : token_role (clean_token k t) = token_role t.
Proof.
  unfold token_role at 1. simpl. unfold token_role.
  rewrite lowered_default by by vm_compute. apply or_default_id.
Qed.

Lemma clean_token_idemp k t : clean_token k (clean_token k t) = clean_token k t.
Proof.
  unfold clean_token at 1. rewrite token_value_clean, token_role_clean. unfold clean_token. f_equal. simpl.
  case_bool_decide as E; [apply TrimSpace_idemp|].
  rewrite (or_default_fix _ _ TrimSpace); [apply or_default_id|apply token_name_trimmed; lia|apply TrimSpace_idemp].
Qed.

Lemma nonblank_clean tokens : nonblank (imap clean_token tokens) = nonblank tokens.
Proof.
  unfold nonblank. f_equal. apply list_eq. intros i. rewrite !list_lookup_fmap, list_lookup_imap.
  destruct (tokens !! i); [|done]. simpl. by rewrite token_value_clean.
Qed.

Lemma normalizeLanguage_fix value : normalizeLanguage (normalizeLanguage value).1 = ((normalizeLanguage value).1, "").
Proof.
  pose proof (language_supported value) as H. unfold supportedLocales in H.
  rewrite !elem_of_cons, elem_of_nil in H. destruct H as [->|[->|[]]]; by vm_compute.
Qed.

Lemma legacy_cleared f g : normal_form f g → TrimSpace (cf_DeprecatedControlListenAddr g) = "".
Proof. intros []. case_decide; injection nf_legacy0 as -> _; [done|by vm_compute]. Qed.

Lemma port_kept f g : normal_form f g → port_ok (persisted g) (cf_ControlPort g).
Proof.
  intros H. pose proof (legacy_cleared f g H) as Hl. destruct H as [_ _ [Hr _] _ _ _ _ _ _ _ _].
  split; [done|]. left. split; [done|]. simpl. by replace (cf_ControlPort g =? 0) with false by lia.
Qed.

Lemma auth_kept a : auth_ok a → auth_ok {| ac_Enabled := ac_Enabled a; ac_Tokens := imap clean_token (ac_Tokens a) |}.
Proof.
  intros [Hr Hu He]. split; simpl.
  - apply (Forall_imap_clean role_ok); [done|]. intros k t. unfold role_ok. by rewrite token_role_clean.
  - by rewrite nonblank_clean.
  - intros E. destruct (He E) as [Hne Hall]. split; [by destruct (ac_Tokens a)|].
    apply (Forall_imap_clean (λ t, token_value t ≠ "")); [done|]. intros k t. by rewrite token_value_clean.
Qed.

Lemma persisted_accepted f g : accepted f → normal_form f g → accepted (persisted g).
Proof.
  intros [_ _ Hs Hst Ht Ha Hr Hid] H. pose proof (port_kept f g H) as Hp. destruct H. split; simpl.
  - by right.
  - by eexists.
  - rewrite nf_sessions0. unfold MaxUDPGlobalMaxSessions, DefaultUDPGlobalMaxSessions in *.
    destruct (Z.eqb_spec (cf_UDPMaxSessions f) 0); lia.
  - rewrite nf_stats0. unfold flush_ok in *. simpl. by rewrite TrimSpace_idemp.
  - rewrite nf_tls0. destruct Ht. split; simpl; by rewrite ?TrimSpace_idemp.
  - rewrite nf_auth0. by apply auth_kept.
  - rewrite nf_rules0. apply Forall_fmap. eapply Forall_impl; [exact Hr|]. intros r Hv. simpl. by rewrite Validate_Standardize.
  - rewrite nf_rules0, <-list_fmap_compose.
    erewrite list_fmap_ext; [exact Hid|]. intros ? r _. apply (f_equal RuleID), Standardize_Standardize.
Qed.

Lemma persisted_normal f g : normal_form f g → normal_form (persisted g) (persisted g).
Proof.
  intros H. pose proof (port_kept f g H) as Hp. pose proof (legacy_cleared f g H) as Hl. destruct H.
  split; simpl; try done.
  - assert (cf_Language g = (normalizeLanguage (cf_Language f)).1) as -> by by rewrite <-nf_language0.
    by rewrite normalizeLanguage_fix.
  - by rewrite decide_True.
  - unfold DefaultUDPGlobalMaxSessions in *. destruct (Z.eqb_spec (cf_UDPMaxSessions g) 0) as [E|E]; [|done].
    rewrite nf_sessions0 in E. by destruct (Z.eqb_spec (cf_UDPMaxSessions f) 0).
  - rewrite nf_tls0. unfold normalizeControlTLS. simpl. by rewrite !TrimSpace_idemp.
  - rewrite nf_log0. unfold normalizeLog. simpl. fold (lowered (log_Level (cf_Log f))) (lowered (log_Format (cf_Log f))).
    f_equal; (rewrite <-or_default_id at 1; f_equal; symmetry; apply lowered_default; by vm_compute).
  - rewrite nf_auth0. simpl. f_equal. apply list_eq. intros i. rewrite !list_lookup_imap.
    destruct (ac_Tokens (cf_Auth f) !! i); [|done]. simpl. by rewrite clean_token_idemp.
  - rewrite nf_stats0. simpl. by rewrite !TrimSpace_idemp.
  - rewrite nf_rules0, <-list_fmap_compose. apply list_fmap_ext. intros ? r _. symmetry. apply Standardize_Standardize.
Qed.

(** reading back what a normalized configuration prints changes nothing:
    it is accepted again and its normal form is itself. *)
Theorem normalized_config_is_fixed f g : normalize f = Ok g → normalize (persisted g) = Ok (persisted g).
Proof.
  intros [Ha Hn]%normalize_inv. apply normalize_intro; [by apply (persisted_accepted f)|by apply (persisted_normal f)].
Qed.

Lemma NoDup_filter_fmap_inj {A B} (h : A → B) (P : B → Prop) `{∀ b, Decision (P b)} l x y :
  NoDup (filter P (h <$> l)) → x ∈ l → y ∈ l → h x = h y → P (h x) → x = y.
Proof.
  induction l as [|z l IH]; [by intros _ ?%elem_of_nil|].
  assert (∀ u, u ∈ l → h u = h z → P (h u) → NoDup (filter P (h <$> z :: l)) → False) as Hdup.
  { intros u Hu Hz HP Hnd. rewrite fmap_cons, filter_cons_True in Hnd by (by rewrite <-Hz).
    apply NoDup_cons in Hnd as [Hnin _]. apply Hnin, list_elem_of_filter. rewrite <-Hz. split; [done|].
    by apply list_elem_of_fmap_2. }
  intros Hnd Hx Hy Heq HP. apply elem_of_cons in Hx as [->|Hx], Hy as [->|Hy]; [done| | |].
  - exfalso. apply (Hdup y); [done|done|by rewrite <-Heq|done].
  - exfalso. by apply (Hdup x).
  - apply IH; try done. rewrite fmap_cons in Hnd. destruct (decide (P (h z))).
    + rewrite filter_cons_True in Hnd by done. by apply NoDup_cons in Hnd as [_ ?].
    + by rewrite filter_cons_False in Hnd.
Qed.

(** What a token of a normalized configuration grants. *)
Lemma granted_clean k t : token_value t ≠ "" → role_ok t →
  granted (clean_token k t) = {| ai_Name := at_Name (clean_token k t); ai_Role := at_Role (clean_token k t) |}.
Proof.
  intros Hv Hr. assert (TrimSpace (at_Name (clean_token k t)) = at_Name (clean_token k t)) as Hn.
  { pose proof (clean_token_idemp k t) as E. apply (f_equal at_Name) in E. simpl in E |- *.
    rewrite token_value_clean, bool_decide_eq_false_2 in E by done. rewrite bool_decide_eq_false_2 by done.
    apply or_default_fix; [apply token_name_trimmed; lia|apply TrimSpace_idemp]. }
  assert (lowered (at_Role (clean_token k t)) = at_Role (clean_token k t)) as Hl.
  { simpl. apply lowered_default. by vm_compute. }
  unfold granted. fold (lowered (at_Role (clean_token k t))). rewrite Hn, Hl. f_equal.
  - simpl. rewrite (bool_decide_eq_false_2 (token_value t = "")) by done.
    by rewrite bool_decide_eq_false_2 by (apply or_default_nonempty, token_name_nonempty).
  - simpl. rewrite bool_decide_eq_false_2; [done|]. by apply or_default_nonempty.
Qed.

(** the tokens of an accepted configuration identify their callers: a
    request that presents the value of a token in use is given that token's own
    name and role, and a request that presents any other value is refused. *)
Theorem config_tokens_identify f g header provided :
  normalize f = Ok g → ac_Enabled (cf_Auth g) = true → bearer header = Some provided →
  (∀ t, t ∈ ac_Tokens (cf_Auth g) → at_Token t = provided →
     Authenticate (NewAuthenticator (cf_Auth g)) header = Some {| ai_Name := at_Name t; ai_Role := at_Role t |}) ∧
  ((∀ t, t ∈ ac_Tokens (cf_Auth g) → at_Token t ≠ provided) →
     Authenticate (NewAuthenticator (cf_Auth g)) header = None).
Proof.
  intros Hn He Hb. apply (bearer_nonempty header) in Hb as Hne. apply normalize_inv in Hn as [[_ _ _ _ _ Ha _ _] Hf].
  destruct (nf_auth f g Hf) as []. destruct Ha as [Hr Hu Hen].
  rewrite (nf_auth f g Hf) in He |- *. cbn [ac_Enabled ac_Tokens] in *.
  destruct (Hen He) as [_ Hnb]. set (tokens := ac_Tokens (cf_Auth f)) in *.
  assert (Forall (λ t, TrimSpace (at_Token t) = at_Token t ∧
    granted t = {| ai_Name := at_Name t; ai_Role := at_Role t |}) (imap clean_token tokens)) as Hclean.
  { apply (Forall_imap_clean (λ t, token_value t ≠ "" ∧ role_ok t)); [by apply Forall_and|].
    intros k t [Hv Hro]. split; [apply TrimSpace_idemp|by apply granted_clean]. }
  rewrite Forall_forall in Hclean.
  unfold Authenticate, NewAuthenticator. cbn [a_enabled a_rules ac_Enabled ac_Tokens]. rewrite He, Hb. cbn [negb mbind option_bind].
  split.
  - intros t Ht Hv. apply find_token; [done|].
    destruct (list_find (λ t, TrimSpace (at_Token t) = provided) (imap clean_token tokens)) as [[i item]|] eqn:Ef.
    + apply list_find_Some in Ef as (Hi & Hp & Hfirst).
      assert (item ∈ imap clean_token tokens) as Hin by by apply list_elem_of_lookup_2 in Hi.
      destruct (Hclean item Hin) as [Htr Hg]. assert (item = t) as ->.
      { apply (NoDup_filter_fmap_inj at_Token (λ v, v ≠ "") (imap clean_token tokens)); try done.
        - by rewrite clean_values0.
        - congruence.
        - congruence. }
      exists (take i (imap clean_token tokens)), t, (drop (S i) (imap clean_token tokens)).
      split_and!; [by rewrite take_drop_middle|done| |done].
      apply Forall_lookup. intros j x Hj. apply lookup_take_Some in Hj as [Hj Hlt]. by apply (Hfirst j).
    + apply list_find_None in Ef. rewrite Forall_forall in Ef. destruct (Hclean t Ht). destruct (Ef t Ht). congruence.
  - intros Hnone. destruct (list_find _ _ ≫= _) as [info|] eqn:Ef; [|done].
    apply find_token in Ef as (before & item & rest & Heq & Hv & _); [|done].
    assert (item ∈ imap clean_token tokens) as Hin by (rewrite Heq; set_solver).
    destruct (Hclean item Hin) as [Htr _]. destruct (Hnone item Hin). congruence.
Qed.
End parse.

(** ** Unknown keys *)

Definition scalar (value : string) : ynode := YNode ScalarNode value "" [].
Definition mapping (content : list ynode) : ynode := YNode MappingNode "" "" content.

(** (finding) A misspelled key of a top-level section is not reported, while
    one at the top level or inside a rule's policy is. *)
Example section_typo_is_silent :
  collectUnknownFields (mapping [scalar "log"; mapping [scalar "levle"; scalar "debug"]]) = [] ∧
  collectUnknownFields (mapping [scalar "lgo"; mapping [scalar "level"; scalar "debug"]]) = ["lgo"] ∧
  collectUnknownFields (mapping [scalar "rules"; YNode SequenceNode "" "" [
    mapping [scalar "bandwidth_limit"; mapping [scalar "rat"; scalar "1 MB/s"]]]]) = ["rules[0].bandwidth_limit.rat"].
Proof. by vm_compute. Qed.

(** ** Witnesses *)

#[local] Existing Instance utc_database.

Definition sample_rule (id : string) : Rule := {|
  RuleID := id; Name := "web"; Proto := "TCP"; ListenAddr := ""; ListenPort := 8080; TargetAddr := " 10.0.0.2 ";
  TargetPort := 80; Enabled := true; SpeedLimit := 0; Bandwidth := None;
  Quota := Some {| q_daily := 1000; q_monthly := 0; q_timezone := ""; q_action := "" |}; MaxConn := 0;
  IdleTimeout := 0; SourceIPMode := ""; SourceIPs := []; Domains := []; Remark := ""; Revision := 0;
  CreatedTime := 0; UpdatedTime := 0 |}.

Definition sample_file : File := {|
  cf_Version := 0; cf_Language := "zh_CN.UTF-8"; cf_InvalidLanguage := ""; cf_ControlPort := 0;
  cf_DeprecatedControlListenAddr := "[::1]:9000"; cf_UsedDeprecatedControlListenAddr := false; cf_UDPMaxSessions := 0;
  cf_ControlTLS := {| tls_CertFile := " c.pem"; tls_KeyFile := "k.pem"; tls_ClientCAFile := ""; tls_MinVersion := "1.3" |};
  cf_Log := {| log_Level := "DEBUG"; log_Format := "" |};
  cf_Auth := {| ac_Enabled := true; ac_Tokens := [
    {| at_Name := ""; at_Token := " s3cret"; at_Role := "" |};
    {| at_Name := "panel"; at_Token := "other"; at_Role := "Viewer" |}] |};
  cf_BotToken := ""; cf_BotChat := 0; cf_BotControlToken := ""; cf_AcmeChallenge := ""; cf_AcmeHTTP01Addr := "";
  cf_AcmeCacheDir := ""; cf_AcmeDNS01 := zero_dns01; cf_CertCacheDir := "";
  cf_CertReview := {| cr_WarningDays := 0; cr_CriticalDays := 0; cr_MinRSABits := 0 |};
  cf_Stats := {| sc_Persist := true; sc_Path := ""; sc_FlushInterval := "1m30s" |};
  cf_Rules := [sample_rule "a"; sample_rule "b "]; cf_UnknownFields := ["lgo"] |}.

Definition sample_parsed : File := match normalize sample_file with Ok g => g | Err _ => sample_file end.

Lemma sample_normalizes : normalize sample_file = Ok sample_parsed.
Proof. by vm_compute. Qed.

Lemma parsed_config_well_formed_witness : file_wf sample_parsed.
Proof. apply (parsed_config_well_formed sample_file), sample_normalizes. Defined.

Lemma normalized_config_is_fixed_witness : normalize (persisted sample_parsed) = Ok (persisted sample_parsed).
Proof. apply (normalized_config_is_fixed sample_file), sample_normalizes. Defined.

Lemma config_tokens_identify_witness :
  Authenticate (NewAuthenticator (cf_Auth sample_parsed)) "Bearer s3cret" =
    Some {| ai_Name := "token-1"; ai_Role := "admin" |}.
Proof.
  destruct (config_tokens_identify sample_file sample_parsed "Bearer s3cret" "s3cret") as [Hgrant _];
    [apply sample_normalizes|by vm_compute|by vm_compute|].
  apply (Hgrant {| at_Name := "token-1"; at_Token := "s3cret"; at_Role := "admin" |}); [|reflexivity].
  vm_compute. left.
Defined.
