(* ===== verification/YamlMerge.v ===== *)
(** * Editing the configuration document (controlapi/config_store.go)

    [renderManagedConfig] edits the YAML tree of the file in place so that
    comments and keys it does not manage survive.  The tree is a store of nodes
    that point to each other: an alias node points to the node with the anchor,
    so one node can be reached twice.  A document is a list of nodes, a pointer
    is a position; a new node goes to the end.  The library that parses, prints
    and encodes is the parameter [YamlNodes]. *)

From S2P Require Import Prelude GoStrings Calendar SourceIP Limits Rule Config.

(** ** Nodes *)

Notation nref := nat (only parsing).

Record Node := {
  nd_Kind : YamlKind; nd_Style : Z; nd_Tag : string; nd_Value : string; nd_Anchor : string;
  nd_Alias : option nref; nd_Content : list nref; nd_Head : string; nd_Line : string; nd_Foot : string
}.
#[export] Instance Node_eq_dec : EqDecision Node.
Proof. solve_decision. Defined.

Notation Nodes := (list Node) (only parsing).

Definition FlowStyle : Z := 32.

Definition zero_node : Node := {|
  nd_Kind := DocumentNode; nd_Style := 0; nd_Tag := ""; nd_Value := ""; nd_Anchor := ""; nd_Alias := None;
  nd_Content := []; nd_Head := ""; nd_Line := ""; nd_Foot := "" |}.
Definition node_at (h : Nodes) (l : nref) : Node := default zero_node (h !! l).

Definition with_content (content : list nref) (n : Node) : Node := {|
  nd_Kind := nd_Kind n; nd_Style := nd_Style n; nd_Tag := nd_Tag n; nd_Value := nd_Value n; nd_Anchor := nd_Anchor n;
  nd_Alias := nd_Alias n; nd_Content := content; nd_Head := nd_Head n; nd_Line := nd_Line n; nd_Foot := nd_Foot n |}.
Definition with_comments (head line foot : string) (n : Node) : Node := {|
  nd_Kind := nd_Kind n; nd_Style := nd_Style n; nd_Tag := nd_Tag n; nd_Value := nd_Value n; nd_Anchor := nd_Anchor n;
  nd_Alias := nd_Alias n; nd_Content := nd_Content n; nd_Head := head; nd_Line := line; nd_Foot := foot |}.
Definition with_style (style : Z) (n : Node) : Node := {|
  nd_Kind := nd_Kind n; nd_Style := style; nd_Tag := nd_Tag n; nd_Value := nd_Value n; nd_Anchor := nd_Anchor n;
  nd_Alias := nd_Alias n; nd_Content := nd_Content n; nd_Head := nd_Head n; nd_Line := nd_Line n; nd_Foot := nd_Foot n |}.
Definition with_anchor (anchor : string) (n : Node) : Node := {|
  nd_Kind := nd_Kind n; nd_Style := nd_Style n; nd_Tag := nd_Tag n; nd_Value := nd_Value n; nd_Anchor := anchor;
  nd_Alias := nd_Alias n; nd_Content := nd_Content n; nd_Head := nd_Head n; nd_Line := nd_Line n; nd_Foot := nd_Foot n |}.

Definition nonempty_or (value fallback : string) : string := if bool_decide (value ≠ "") then value else fallback.

(** ** Encoded values *)

(** The Go values that are encoded to nodes. *)
Inductive yaml_value :=
| VString (s : string) | VInt (z : Z) | VBool (b : bool) | VStrings (l : list string)
| VBandwidth (b : option BandwidthLimit) | VQuota (q : option TrafficQuota)
| VRule (r : Rule) | VRules (l : list Rule).
#[export] Instance yaml_value_eq_dec : EqDecision yaml_value.
Proof. solve_decision. Defined.

(** What [node.Encode] produces: a tree without anchors, aliases or comments. *)
#[warnings="-register-all"] Inductive ytree :=
  YTree (kind : YamlKind) (style : Z) (tag value : string) (content : list ytree).

(** Place a tree in the store; its root comes last. *)
Fixpoint place (t : ytree) (h : Nodes) : nref * Nodes :=
  let 'YTree kind style tag value content := t in
  let '(refs, h) :=
    (fix go (ts : list ytree) (h : Nodes) : list nref * Nodes :=
       match ts with
       | [] => ([], h)
       | t :: ts => let '(r, h) := place t h in let '(rs, h) := go ts h in (r :: rs, h)
       end) content h in
  (length h, h ++ [{| nd_Kind := kind; nd_Style := style; nd_Tag := tag; nd_Value := value; nd_Anchor := "";
                      nd_Alias := None; nd_Content := refs; nd_Head := ""; nd_Line := ""; nd_Foot := "" |}]).

(** The library.  [yaml_first] is the first document of a text with the position
    of its document node, [yaml_next] what a second [Decode] answers. *)
Inductive NextDocument := NextEOF | NextFound | NextError (e : string).
Class YamlNodes := {
  yaml_first : string → result string (Nodes * nref);
  yaml_next : string → NextDocument;
  yaml_print : Nodes → nref → result string string;
  yaml_encode : yaml_value → result string ytree;
  decode_rule_id : Nodes → nref → result string string;
}.

Inductive YamlError :=
| LibraryError (e : string) | RootNotMapping | MultipleDocuments
| RulesAlias | RulesNotSequence | RuleIdentity (e : string) | RuleIdMissing
| DuplicateIdInYaml (id : string) | DuplicateIdInDraft (id : string) | RuleSourceMismatch (id : string)
| RuleAliasEdited (id : string) | RuleNotMapping (id : string).

(** The fields of a rule with their yaml names, in the order of the struct. *)
Definition managedRuleYAMLFields : list (string * (Rule → yaml_value)) := [
  ("rule_id", λ r, VString (RuleID r)); ("name", λ r, VString (Name r)); ("protocol", λ r, VString (Proto r));
  ("listen_addr", λ r, VString (ListenAddr r)); ("listen_port", λ r, VInt (ListenPort r));
  ("target_addr", λ r, VString (TargetAddr r)); ("target_port", λ r, VInt (TargetPort r));
  ("enabled", λ r, VBool (Enabled r)); ("speed_limit", λ r, VInt (SpeedLimit r));
  ("bandwidth_limit", λ r, VBandwidth (Bandwidth r)); ("traffic_quota", λ r, VQuota (Quota r));
  ("max_conn", λ r, VInt (MaxConn r)); ("idle_timeout", λ r, VInt (IdleTimeout r));
  ("source_ip_mode", λ r, VString (SourceIPMode r)); ("source_ips", λ r, VStrings (SourceIPs r));
  ("domains", λ r, VStrings (Domains r)); ("remark", λ r, VString (Remark r));
  ("revision", λ r, VInt (Revision r)); ("created_time", λ r, VInt (CreatedTime r));
  ("updated_time", λ r, VInt (UpdatedTime r))].

(** The hot-reloadable configuration. *)
Record rulesConfigDraft := { dr_Rules : list Rule; dr_UDPMaxSessions : Z }.

Section merge.
Context `{!YamlNodes}.

Definition lib {A} (r : result string A) : result YamlError A :=
  match r with Ok a => Ok a | Err e => Err (LibraryError e) end.

Definition encodeYAMLNode (value : yaml_value) (h : Nodes) : result YamlError (nref * Nodes) :=
  t ← lib (yaml_encode value); Ok (place t h).

(** ** Mappings *)

Definition key_is (h : Nodes) (key : string) (p : nref * nref) : Prop := nd_Value (node_at h p.1) = key.
#[global] Instance key_is_dec h key p : Decision (key_is h key p).
Proof. unfold key_is. apply _. Defined.

Definition yamlMappingValue (h : Nodes) (mapping : nref) (key : string) : option nref :=
  if bool_decide (nd_Kind (node_at h mapping) = MappingNode)
  then (λ '(_, p), p.2) <$> list_find (key_is h key) (pairs (nd_Content (node_at h mapping)))
  else None.

(** The node that stands for the value from now on. *)
Definition replaceYAMLNode (previous replacement : nref) (h : Nodes) : nref * Nodes :=
  let p := node_at h previous in
  let r := node_at h replacement in
  let headComment := nonempty_or (nd_Head r) (nd_Head p) in
  let lineComment := nonempty_or (nd_Line r) (nd_Line p) in
  let footComment := nonempty_or (nd_Foot r) (nd_Foot p) in
  if bool_decide (nd_Kind p = AliasNode) then
    (replacement, <[replacement := with_comments headComment lineComment footComment r]> h)
  else
    let n := with_comments headComment lineComment footComment r in
    let n := if bool_decide (nd_Kind n = nd_Kind p) then with_style (nd_Style p) n else n in
    let n := if (bool_decide (nd_Kind n = SequenceNode) || bool_decide (nd_Kind n = MappingNode))
                && bool_decide (nd_Content n = []) then with_style FlowStyle n else n in
    let n := if bool_decide (nd_Anchor n = "") then with_anchor (nd_Anchor p) n else n in
    (previous, <[previous := n]> h).

Definition set_content (mapping : nref) (content : list nref) (h : Nodes) : Nodes :=
  alter (with_content content) mapping h.

Definition key_node (key : string) : Node := {|
  nd_Kind := ScalarNode; nd_Style := 0; nd_Tag := "!!str"; nd_Value := key; nd_Anchor := ""; nd_Alias := None;
  nd_Content := []; nd_Head := ""; nd_Line := ""; nd_Foot := "" |}.

(** The line comment of a key moves to a replacement that has none. *)
Definition move_line_comment (keyNode previous replacement : nref) (h : Nodes) : Nodes :=
  let k := node_at h keyNode in
  if bool_decide (nd_Line k ≠ "") && bool_decide (nd_Line (node_at h previous) = "")
     && bool_decide (nd_Line (node_at h replacement) = "") then
    let h := alter (λ r, with_comments (nd_Head r) (nd_Line k) (nd_Foot r) r) replacement h in
    alter (λ k, with_comments (nd_Head k) "" (nd_Foot k) k) keyNode h
  else h.

Definition setYAMLMappingNode (mapping : nref) (key : string) (replacement : nref) (h : Nodes) : Nodes :=
  let content := nd_Content (node_at h mapping) in
  match list_find (key_is h key) (pairs content) with
  | Some (index, (keyNode, previous)) =>
      let h := move_line_comment keyNode previous replacement h in
      let '(value, h) := replaceYAMLNode previous replacement h in
      set_content mapping (<[S (2 * index) := value]> (nd_Content (node_at h mapping))) h
  | None =>
      let h := h ++ [key_node key] in
      set_content mapping (content ++ [pred (length h); replacement]) h
  end.

Definition setTopLevelYAMLNode (root : nref) (key : string) (replacement : nref) (h : Nodes) : Nodes :=
  setYAMLMappingNode root key replacement h.

(** ** Rules *)

Definition merge_field (node : nref) (current desired : Rule) (field : string * (Rule → yaml_value)) (h : Nodes)
    : result YamlError Nodes :=
  let after := field.2 desired in
  if bool_decide (field.2 current = after) then Ok h
  else
    '(replacement, h) ← encodeYAMLNode after h;
    Ok (setYAMLMappingNode node field.1 replacement h).

Fixpoint merge_fields (fields : list (string * (Rule → yaml_value))) (node : nref) (current desired : Rule) (h : Nodes)
    : result YamlError Nodes :=
  match fields with
  | [] => Ok h
  | field :: fields => h ← merge_field node current desired field h; merge_fields fields node current desired h
  end.
Definition mergeRuleYAML (node : nref) (current desired : Rule) (h : Nodes) : result YamlError Nodes :=
  merge_fields managedRuleYAMLFields node current desired h.

Definition yamlRuleID (h : Nodes) (node : nref) : result YamlError string :=
  match decode_rule_id h node with
  | Err e => Err (RuleIdentity e)
  | Ok id => let id := TrimSpace id in check (bool_decide (id = "")) RuleIdMissing ≫= λ _, Ok id
  end.

Fixpoint node_by_id (h : Nodes) (content : list nref) (byID : gmap string nref) : result YamlError (gmap string nref) :=
  match content with
  | [] => Ok byID
  | node :: content =>
      id ← yamlRuleID h node;
      check (bool_decide (is_Some (byID !! id))) (DuplicateIdInYaml id) ≫= λ _,
      node_by_id h content (<[id := node]> byID)
  end.

Definition by_id (rules : list Rule) : gmap string Rule := foldl (λ m r, <[RuleID r := r]> m) ∅ rules.

(** One desired rule: the node that carries it. *)
Definition merge_rule (currentByID : gmap string Rule) (nodeByID : gmap string nref) (rule : Rule) (h : Nodes)
    : result YamlError (nref * Nodes) :=
  let ruleID := TrimSpace (RuleID rule) in
  match currentByID !! ruleID, nodeByID !! ruleID with
  | None, None => encodeYAMLNode (VRule rule) h
  | Some currentRule, Some node =>
      if bool_decide (nd_Kind (node_at h node) = AliasNode) then
        check (bool_decide (currentRule ≠ rule)) (RuleAliasEdited ruleID) ≫= λ _, Ok (node, h)
      else
        check (bool_decide (nd_Kind (node_at h node) ≠ MappingNode)) (RuleNotMapping ruleID) ≫= λ _,
        h ← mergeRuleYAML node currentRule rule h; Ok (node, h)
  | _, _ => Err (RuleSourceMismatch ruleID)
  end.

Fixpoint merge_rules (currentByID : gmap string Rule) (nodeByID : gmap string nref) (seen : gset string)
    (desired : list Rule) (h : Nodes) : result YamlError (list nref * Nodes) :=
  match desired with
  | [] => Ok ([], h)
  | rule :: desired =>
      let ruleID := TrimSpace (RuleID rule) in
      check (bool_decide (ruleID ∈ seen)) (DuplicateIdInDraft ruleID) ≫= λ _,
      '(node, h) ← merge_rule currentByID nodeByID rule h;
      '(merged, h) ← merge_rules currentByID nodeByID ({[ ruleID ]} ∪ seen) desired h;
      Ok (node :: merged, h)
  end.

Definition mergeRulesYAML (root : nref) (current desired : list Rule) (h : Nodes) : result YamlError Nodes :=
  let replace_all :=
    '(replacement, h) ← encodeYAMLNode (VRules desired) h;
    Ok (setTopLevelYAMLNode root "rules" replacement h) in
  match yamlMappingValue h root "rules" with
  | None => replace_all
  | Some rulesNode =>
      let n := node_at h rulesNode in
      check (bool_decide (nd_Kind n = AliasNode)) RulesAlias ≫= λ _,
      if bool_decide (nd_Kind n = ScalarNode) && bool_decide (nd_Tag n = "!!null") && bool_decide (current = [])
      then replace_all
      else
        check (bool_decide (nd_Kind n ≠ SequenceNode)) RulesNotSequence ≫= λ _,
        nodeByID ← node_by_id h (nd_Content n) ∅;
        '(merged, h) ← merge_rules (by_id current) nodeByID ∅ desired h;
        Ok (set_content rulesNode merged h)
  end.

(** ** The document *)

Definition rulesYAMLEqual (current desired : list Rule) : bool := bool_decide (current = desired).

(** The store, the document node and its root mapping. *)
Definition parseYAMLDocument (raw : string) : result YamlError (Nodes * nref * nref) :=
  '(h, document) ← lib (yaml_first raw);
  match bool_decide (nd_Kind (node_at h document) = DocumentNode), nd_Content (node_at h document) with
  | true, [root] =>
      check (bool_decide (nd_Kind (node_at h root) ≠ MappingNode)) RootNotMapping ≫= λ _,
      match yaml_next raw with
      | NextEOF => Ok (h, document, root)
      | NextFound => Err MultipleDocuments
      | NextError e => Err (LibraryError e)
      end
  | _, _ => Err RootNotMapping
  end.

Definition renderManagedConfig (source : string) (current desired : rulesConfigDraft) : result YamlError string :=
  let rulesChanged := negb (rulesYAMLEqual (dr_Rules current) (dr_Rules desired)) in
  let udpChanged := negb (dr_UDPMaxSessions current =? dr_UDPMaxSessions desired) in
  if negb rulesChanged && negb udpChanged then Ok source
  else
    '(h, document, root) ← parseYAMLDocument source;
    h ← (if rulesChanged then mergeRulesYAML root (dr_Rules current) (dr_Rules desired) h else Ok h);
    h ← (if udpChanged then
           '(udpNode, h) ← encodeYAMLNode (VInt (dr_UDPMaxSessions desired)) h;
           Ok (setTopLevelYAMLNode root "udp_max_sessions" udpNode h)
         else Ok h);
    lib (yaml_print h document).
End merge.
