(* ===== verification/YamlMergeSpec.v ===== *)
(** * What an edit of the configuration document changes

    [setYAMLMappingNode] puts the new value under its key and nothing else
    moves; [mergeRuleYAML] therefore writes exactly the fields that differ.
    Both need the mapping not to share nodes with itself; what happens when an
    alias elsewhere shares a replaced node is the finding at the end. *)

From S2P Require Import Prelude GoStrings Calendar SourceIP Limits Rule Config YamlMerge.

(** ** Pairs *)

Section pairs.
Context {A : Type}.
Implicit Types l : list A.

Lemma pairs_lookup l k a b : pairs l !! k = Some (a, b) ↔ l !! (2 * k)%nat = Some a ∧ l !! S (2 * k) = Some b.
Proof.
  revert l. induction k as [|k IH]; intros l.
  - destruct l as [|x [|y l]]; simpl; naive_solver.
  - replace (2 * S k)%nat with (S (S (2 * k))) by lia. destruct l as [|x [|y l]]; [simpl; naive_solver..|]. apply IH.
Qed.

Lemma pairs_insert l k a b v : pairs l !! k = Some (a, b) → pairs (<[S (2 * k):=v]> l) = <[k:=(a, v)]> (pairs l).
Proof.
  revert l. induction k as [|k IH]; intros [|x [|y l]]; try done.
  - simpl. by intros [= -> ->].
  - replace (2 * S k)%nat with (S (S (2 * k))) by lia. cbn [pairs lookup list_lookup]. intros H.
    change (<[S (S (S (2 * k))):=v]> (x :: y :: l)) with (x :: y :: <[S (2 * k):=v]> l). cbn [pairs].
    by rewrite IH.
Qed.

Lemma pairs_app l a b : Nat.Even (length l) → pairs (l ++ [a; b]) = pairs l ++ [(a, b)].
Proof.
  intros [n Hn]. revert l Hn. induction n as [|n IH]; intros [|x [|y l]] Hn; simpl in Hn; try lia; [done|].
  cbn [pairs app]. by rewrite IH by lia.
Qed.

Lemma elem_of_pairs l a b : (a, b) ∈ pairs l → a ∈ l ∧ b ∈ l.
Proof. intros [k [H1 H2]%pairs_lookup]%list_elem_of_lookup_1. split; by eapply list_elem_of_lookup_2. Qed.
End pairs.

Section replaced.
Context {A : Type}.
Implicit Types l : list A.

Lemma elem_of_insert_inv l i x y : y ∈ <[i:=x]> l → y = x ∨ y ∈ l.
Proof.
  intros [j Hj]%list_elem_of_lookup_1. destruct (decide (i = j)) as [->|Hne].
  - destruct (decide (j < length l)%nat); [rewrite list_lookup_insert_eq in Hj by done; left; congruence|].
    rewrite list_insert_ge in Hj by lia. right. by eapply list_elem_of_lookup_2.
  - rewrite list_lookup_insert_ne in Hj by done. right. by eapply list_elem_of_lookup_2.
Qed.

Lemma NoDup_insert l i x : NoDup l → l !! i = Some x ∨ x ∉ l → NoDup (<[i:=x]> l).
Proof.
  intros Hnd [Hi|Hx]; [by rewrite list_insert_id|]. apply NoDup_alt. intros j j' y Hj Hj'.
  assert (∀ j, <[i:=x]> l !! j = Some y → (j = i ∧ y = x) ∨ (j ≠ i ∧ l !! j = Some y)) as Hinv.
  { intros k Hk. destruct (decide (k = i)) as [->|Hne].
    - left. assert (i < length l)%nat by (rewrite <-(length_insert l i x); by eapply lookup_lt_Some).
      rewrite list_lookup_insert_eq in Hk by done. naive_solver.
    - right. by rewrite list_lookup_insert_ne in Hk. }
  apply Hinv in Hj as [[-> ->]|[? Hj]], Hj' as [[-> ?]|[? Hj']]; subst; [done|..].
  - destruct Hx. by eapply list_elem_of_lookup_2.
  - destruct Hx. by eapply list_elem_of_lookup_2.
  - by eapply (NoDup_lookup l).
Qed.
End replaced.

(** ** Stores *)

Lemma node_at_Some (h : Nodes) l n : h !! l = Some n → node_at h l = n.
Proof. unfold node_at. by intros ->. Qed.

Lemma node_at_lookup (h h' : Nodes) l : h' !! l = h !! l → node_at h' l = node_at h l.
Proof. unfold node_at. by intros ->. Qed.

(** The same value: kind, tag, text and children; comments, style and anchor
    may differ. *)
Record same_value (a b : Node) : Prop := {
  sv_Kind : nd_Kind a = nd_Kind b; sv_Tag : nd_Tag a = nd_Tag b;
  sv_Value : nd_Value a = nd_Value b; sv_Content : nd_Content a = nd_Content b;
}.
#[export] Instance same_value_equivalence : Equivalence same_value.
Proof. split; [done|by intros ? ? []|]. intros ? ? ? [] []. split; congruence. Qed.

Definition content_of (h : Nodes) (m : nref) : list nref := nd_Content (node_at h m).
Definition keys_of (h : Nodes) (m : nref) : list string :=
  (λ p, nd_Value (node_at h p.1)) <$> pairs (content_of h m).

(** A mapping whose keys are distinct and whose nodes are its own. *)
Record mapping_wf (h : Nodes) (m : nref) : Prop := {
  mw_kind : nd_Kind (node_at h m) = MappingNode;
  mw_valid : Forall (λ l, l < length h)%nat (m :: content_of h m);
  mw_own : NoDup (m :: content_of h m);
  mw_even : Nat.Even (length (content_of h m));
  mw_keys : NoDup (keys_of h m);
}.

(** Value [key] of the mapping is node [l]. *)
Definition value_at (h : Nodes) (m : nref) (key : string) (l : nref) : Prop :=
  ∃ k, (k, l) ∈ pairs (content_of h m) ∧ nd_Value (node_at h k) = key.

Lemma find_key (h : Nodes) (key : string) (ps : list (nref * nref)) :
  NoDup ((λ p, nd_Value (node_at h p.1)) <$> ps) →
  ∀ k l, nd_Value (node_at h k) = key → (k, l) ∈ ps → ∃ i, list_find (key_is h key) ps = Some (i, (k, l)).
Proof.
  intros Hnd k l Hk Hin. apply list_elem_of_lookup_1 in Hin as [i Hi]. exists i. apply list_find_Some. split_and!; [done|done|].
  intros j [k' l'] Hj Hlt Hkey. unfold key_is in Hkey. simpl in Hkey.
  assert (j = i); [|lia]. eapply (NoDup_lookup _ j i key Hnd).
  - by rewrite list_lookup_fmap, Hj, <-Hkey.
  - by rewrite list_lookup_fmap, Hi, <-Hk.
Qed.

Lemma mapping_value_iff h m key l : mapping_wf h m → yamlMappingValue h m key = Some l ↔ value_at h m key l.
Proof.
  intros [Hk _ _ _ Hkeys]. unfold yamlMappingValue, value_at. rewrite bool_decide_eq_true_2 by done.
  fold (content_of h m). rewrite fmap_Some. split.
  - intros ([i [k l']] & (Hi & Hkey & _)%list_find_Some & ->). exists k. split; [|done]. by eapply list_elem_of_lookup_2.
  - intros (k & Hin & Hkey). destruct (find_key h key _ Hkeys k l Hkey Hin) as [i Hf]. by exists (i, (k, l)).
Qed.

(** ** Setting a key *)

Lemma node_at_insert_eq (h : Nodes) l n : (l < length h)%nat → node_at (<[l:=n]> h) l = n.
Proof. intros. unfold node_at. by rewrite list_lookup_insert_eq. Qed.
Lemma node_at_insert_ne (h : Nodes) l l' n : l ≠ l' → node_at (<[l:=n]> h) l' = node_at h l'.
Proof. intros. unfold node_at. by rewrite list_lookup_insert_ne. Qed.
Lemma node_at_alter_eq (h : Nodes) f l : (l < length h)%nat → node_at (alter f l h) l = f (node_at h l).
Proof.
  intros Hl. unfold node_at. rewrite list_lookup_alter_eq. by destruct (lookup_lt_is_Some_2 h l Hl) as [n ->].
Qed.
Lemma node_at_alter_ne (h : Nodes) f l l' : l ≠ l' → node_at (alter f l h) l' = node_at h l'.
Proof. intros. unfold node_at. by rewrite list_lookup_alter_ne. Qed.
Lemma node_at_app (h h' : Nodes) l : (l < length h)%nat → node_at (h ++ h') l = node_at h l.
Proof. intros. unfold node_at. by rewrite lookup_app_l. Qed.

(** What an encoded value never has. *)
Definition bare (n : Node) : Prop := nd_Head n = "" ∧ nd_Line n = "" ∧ nd_Foot n = "" ∧ nd_Anchor n = "".

(** What is written next to a value survives its replacement: [l] stands for [p]
    behind the key [k].  A line comment that the key carried is the value's from
    now on, when the value had none.  A value that is no alias is replaced in its
    own node, keeps its anchor and, when it stays of its kind, its style. *)
Record decorated (h h' : Nodes) (k p l : nref) : Prop := {
  dc_head : nd_Head (node_at h' l) = nd_Head (node_at h p);
  dc_foot : nd_Foot (node_at h' l) = nd_Foot (node_at h p);
  dc_line : nd_Line (node_at h' l) = nonempty_or (nd_Line (node_at h p)) (nd_Line (node_at h k));
  dc_own : nd_Kind (node_at h p) ≠ AliasNode → l = p ∧ nd_Anchor (node_at h' l) = nd_Anchor (node_at h p);
  dc_style : nd_Kind (node_at h p) ≠ AliasNode → nd_Kind (node_at h' l) = nd_Kind (node_at h p) →
    nd_Kind (node_at h' l) = ScalarNode ∨ nd_Content (node_at h' l) ≠ [] → nd_Style (node_at h' l) = nd_Style (node_at h p);
  dc_key : node_at h' k = with_comments (nd_Head (node_at h k))
    (if bool_decide (nd_Line (node_at h p) = "") then "" else nd_Line (node_at h k)) (nd_Foot (node_at h k)) (node_at h k);
}.

(** Only the comments of the key and of the replacement are touched. *)
Lemma move_line_comment_effect k p r h l :
  length (move_line_comment k p r h) = length h ∧
  (∃ line, node_at (move_line_comment k p r h) l = with_comments (nd_Head (node_at h l)) line (nd_Foot (node_at h l)) (node_at h l)) ∧
  (l ≠ k → l ≠ r → node_at (move_line_comment k p r h) l = node_at h l).
Proof.
  assert (∀ n, n = with_comments (nd_Head n) (nd_Line n) (nd_Foot n) n) as Hid by by intros [].
  assert (∀ h f l', ∃ line, node_at (alter (λ n, with_comments (nd_Head n) (f n) (nd_Foot n) n) l' h) l =
    with_comments (nd_Head (node_at h l)) line (nd_Foot (node_at h l)) (node_at h l)) as Hone.
  { intros h0 f l'. destruct (decide (l = l')) as [->|Hne].
    - destruct (decide (l' < length h0)%nat); [eexists; by rewrite node_at_alter_eq|].
      unfold node_at. rewrite list_lookup_alter_eq, lookup_ge_None_2 by lia. simpl. by exists "".
    - rewrite node_at_alter_ne by done. eexists. apply Hid. }
  unfold move_line_comment. destruct (_ && _); [|split_and!; [done|eexists; apply Hid|done]]. cbv zeta. split_and!.
  - by rewrite !length_alter.
  - destruct (Hone (alter (λ n, with_comments (nd_Head n) (nd_Line (node_at h k)) (nd_Foot n) n) r h) (λ _, "") k) as [line1 ->].
    destruct (Hone h (λ _, nd_Line (node_at h k)) r) as [line2 ->]. by exists line1.
  - intros. by rewrite !node_at_alter_ne.
Qed.

Lemma with_comments_id n : with_comments (nd_Head n) (nd_Line n) (nd_Foot n) n = n.
Proof. by destruct n. Qed.

(** The line comment of the key goes to a bare replacement of a value without one. *)
Lemma move_line_comment_bare k p r h : (k < length h)%nat → (r < length h)%nat → k ≠ r → nd_Line (node_at h r) = "" →
  let h' := move_line_comment k p r h in
  nd_Line (node_at h' r) = (if bool_decide (nd_Line (node_at h p) = "") then nd_Line (node_at h k) else "") ∧
  node_at h' k = with_comments (nd_Head (node_at h k))
    (if bool_decide (nd_Line (node_at h p) = "") then "" else nd_Line (node_at h k)) (nd_Foot (node_at h k)) (node_at h k).
Proof.
  intros Hk Hr Hkr Hline h'. unfold h', move_line_comment. cbv zeta. rewrite Hline, (bool_decide_eq_true_2 ("" = "")), andb_true_r by done.
  destruct (decide (nd_Line (node_at h p) = "")) as [Hp|Hp].
  - rewrite !(bool_decide_eq_true_2 _ Hp), andb_true_r. case_bool_decide as Hkl.
    + rewrite node_at_alter_ne, node_at_alter_eq by done. rewrite node_at_alter_eq by by rewrite length_alter.
      by rewrite node_at_alter_ne.
    + destruct (decide (nd_Line (node_at h k) = "")) as [E|]; [|done]. rewrite E. split; [done|]. by rewrite <-E, with_comments_id.
  - rewrite !(bool_decide_eq_false_2 _ Hp), andb_false_r. split; [done|]. by rewrite with_comments_id.
Qed.

Lemma same_value_comments n head line foot : same_value (with_comments head line foot n) n.
Proof. done. Qed.

Lemma replace_effect p r (h : Nodes) : (p < length h)%nat → (r < length h)%nat →
  ∃ v h', replaceYAMLNode p r h = (v, h') ∧ (v = p ∨ v = r) ∧ length h' = length h ∧
    same_value (node_at h' v) (node_at h r) ∧ ∀ l, l ≠ v → node_at h' l = node_at h l.
Proof.
  intros Hp Hr. unfold replaceYAMLNode. cbv zeta. case_bool_decide.
  - eexists _, _. split; [done|]. split_and!; [by right|by rewrite length_insert| |].
    + by rewrite node_at_insert_eq.
    + intros. by rewrite node_at_insert_ne.
  - eexists _, _. split; [done|]. split_and!; [by left|by rewrite length_insert| |].
    + rewrite node_at_insert_eq by done. by repeat (case_match; simpl).
    + intros. by rewrite node_at_insert_ne.
Qed.

(** What is next to the value that is replaced. *)
Lemma replace_decor p r (h : Nodes) v h' : (p < length h)%nat → (r < length h)%nat → replaceYAMLNode p r h = (v, h') →
  nd_Head (node_at h' v) = nonempty_or (nd_Head (node_at h r)) (nd_Head (node_at h p)) ∧
  nd_Line (node_at h' v) = nonempty_or (nd_Line (node_at h r)) (nd_Line (node_at h p)) ∧
  nd_Foot (node_at h' v) = nonempty_or (nd_Foot (node_at h r)) (nd_Foot (node_at h p)) ∧
  (nd_Kind (node_at h p) ≠ AliasNode → v = p ∧
   (nd_Anchor (node_at h r) = "" → nd_Anchor (node_at h' v) = nd_Anchor (node_at h p)) ∧
   (nd_Kind (node_at h' v) = nd_Kind (node_at h p) → nd_Kind (node_at h' v) = ScalarNode ∨ nd_Content (node_at h' v) ≠ [] →
    nd_Style (node_at h' v) = nd_Style (node_at h p))).
Proof.
  intros Hp Hr. unfold replaceYAMLNode. cbv zeta. case_bool_decide as Ha.
  - intros [= <- <-]. by rewrite node_at_insert_eq.
  - intros [= <- <-]. rewrite node_at_insert_eq by done. set (r' := node_at h r). set (p' := node_at h p).
    split_and!; [by repeat (case_match; simpl)..|]. intros _. split; [done|]. split.
    + intros E. repeat (case_match; simpl in *); try done; by repeat case_bool_decide.
    + repeat case_bool_decide; simpl in *; try done; try (by intros -> [|]); by intros ? [|]; naive_solver congruence.
Qed.

(** The effect of setting [key] to the value of [r]. *)
Record set_effect (h : Nodes) (m : nref) (key : string) (r : nref) (h' : Nodes) : Prop := {
  se_length : (length h ≤ length h')%nat;
  se_wf : mapping_wf h' m;
  se_set : ∃ l, value_at h' m key l ∧ same_value (node_at h' l) (node_at h r);
  se_decorated : bare (node_at h r) → ∀ i k p, pairs (content_of h m) !! i = Some (k, p) → nd_Value (node_at h k) = key →
    ∃ l, pairs (content_of h' m) !! i = Some (k, l) ∧ decorated h h' k p l;
  (* the other pairs keep their place and their nodes *)
  se_kept : ∀ i k l, pairs (content_of h m) !! i = Some (k, l) → nd_Value (node_at h k) ≠ key →
    pairs (content_of h' m) !! i = Some (k, l) ∧ node_at h' k = node_at h k ∧ node_at h' l = node_at h l;
  (* no other node of the document changes *)
  se_frame : ∀ l, (l < length h)%nat → l ∉ m :: content_of h m → l ≠ r → node_at h' l = node_at h l;
  se_content : ∀ l, l ∈ content_of h' m → l ∈ content_of h m ∨ l = r ∨ (length h ≤ l)%nat;
  se_keys : ∀ key', key' ∈ keys_of h' m → key' ∈ keys_of h m ∨ key' = key;
}.

Lemma mapping_parts h m i k l : mapping_wf h m → pairs (content_of h m) !! i = Some (k, l) →
  (m < length h)%nat ∧ (k < length h)%nat ∧ (l < length h)%nat ∧ k ≠ m ∧ l ≠ m ∧ k ≠ l ∧
  k ∈ content_of h m ∧ l ∈ content_of h m.
Proof.
  intros [_ Hv Ho _ _] Hi. apply list_elem_of_lookup_2 in Hi as Hin. apply elem_of_pairs in Hin as [Hk Hl].
  apply Forall_cons in Hv as [Hm Hv]. apply NoDup_cons in Ho as [Hnm Ho]. rewrite Forall_forall in Hv.
  split_and!; auto; try (by intros ->). intros ->. apply pairs_lookup in Hi as [H1 H2].
  pose proof (NoDup_lookup _ _ _ _ Ho H1 H2). lia.
Qed.

(** Different pairs share no node. *)
Lemma pairs_apart h m i j k l k' l' : mapping_wf h m → i ≠ j →
  pairs (content_of h m) !! i = Some (k, l) → pairs (content_of h m) !! j = Some (k', l') →
  k ≠ k' ∧ k ≠ l' ∧ l ≠ k' ∧ l ≠ l'.
Proof.
  intros [_ _ Ho _ _] Hne [H1 H2]%pairs_lookup [H3 H4]%pairs_lookup. apply NoDup_cons in Ho as [_ Ho].
  split_and!; intros ->.
  - pose proof (NoDup_lookup _ _ _ _ Ho H1 H3). lia.
  - pose proof (NoDup_lookup _ _ _ _ Ho H1 H4). lia.
  - pose proof (NoDup_lookup _ _ _ _ Ho H2 H3). lia.
  - pose proof (NoDup_lookup _ _ _ _ Ho H2 H4). lia.
Qed.

Lemma content_set h m content : (m < length h)%nat → content_of (set_content m content h) m = content.
Proof. intros. unfold content_of, set_content. by rewrite node_at_alter_eq. Qed.

Lemma set_content_frame h m content l : l ≠ m → node_at (set_content m content h) l = node_at h l.
Proof. intros. unfold set_content. by rewrite node_at_alter_ne. Qed.

(** The key is there: its value is replaced. *)
Lemma set_present h m key r i k p :
  mapping_wf h m → (r < length h)%nat → r ∉ m :: content_of h m →
  pairs (content_of h m) !! i = Some (k, p) → nd_Value (node_at h k) = key →
  set_effect h m key r (setYAMLMappingNode m key r h).
Proof.
  intros Hwf Hr Hfresh Hi Hkey. pose proof (mapping_parts h m i k p Hwf Hi) as (Hm & Hk & Hp & Hkm & Hpm & Hkp & Hkc & Hpc).
  apply not_elem_of_cons in Hfresh as [Hrm Hrc]. pose proof Hwf as [Hkind Hvalid Hown Heven Hkeys].
  unfold setYAMLMappingNode. cbv zeta. fold (content_of h m).
  destruct (find_key h key _ Hkeys k p Hkey) as [i' Hf]; [by eapply list_elem_of_lookup_2|].
  rewrite Hf. apply list_find_Some in Hf as (Hi' & _). assert (i' = i) as ->.
  { destruct (decide (i' = i)) as [|Hne]; [done|]. by destruct (pairs_apart h m i' i k p k p Hwf Hne Hi' Hi) as [? _]. }
  set (h1 := move_line_comment k p r h).
  assert (length h1 = length h) as Hlen1 by apply (move_line_comment_effect k p r h 0).
  assert (∀ l, l ≠ k → l ≠ r → node_at h1 l = node_at h l) as Hf1 by (intros l; apply move_line_comment_effect).
  assert (∀ l, nd_Value (node_at h1 l) = nd_Value (node_at h l)) as Hval1.
  { intros l. destruct (move_line_comment_effect k p r h l) as (_ & [line E] & _). unfold h1. by rewrite E. }
  assert (same_value (node_at h1 r) (node_at h r)) as Hsame1.
  { destruct (move_line_comment_effect k p r h r) as (_ & [line E] & _). unfold h1. by rewrite E. }
  destruct (replace_effect p r h1) as (v & h2 & Hrep & Hv & Hlen2 & Hsame2 & Hf2); [lia..|]. rewrite Hrep.
  assert (node_at h2 m = node_at h m) as Hm2.
  { rewrite Hf2, Hf1; [done|done|done|destruct Hv; congruence]. }
  rewrite Hm2. fold (content_of h m). set (content' := <[S (2 * i):=v]> (content_of h m)).
  assert (m < length h2)%nat as Hm2' by lia.
  assert (∀ l, l ≠ m → l ≠ k → l ≠ v → l ≠ r → node_at (set_content m content' h2) l = node_at h l) as Hframe.
  { intros l ? ? ? ?. by rewrite set_content_frame, Hf2, Hf1. }
  assert (k ≠ v ∧ k ≠ r) as [Hkv Hkr] by (split; intros ->; destruct Hv as [->| ->]; done).
  assert (v ≠ m) as Hvm by (destruct Hv; congruence).
  assert (pairs content' = <[i:=(k, v)]> (pairs (content_of h m))) as Hpairs by by apply (pairs_insert _ i k p).
  assert (∀ l, nd_Value (node_at (set_content m content' h2) l) = nd_Value (node_at h l) ∨ l = v ∨ l = m) as Hvals.
  { intros l. destruct (decide (l = m)); [by right; right|]. destruct (decide (l = v)); [by right; left|]. left.
    by rewrite set_content_frame, Hf2, Hval1. }
  pose proof (content_set h2 m content' Hm2') as Hcs.
  assert (keys_of (set_content m content' h2) m = keys_of h m) as Hkeys'.
  { unfold keys_of. rewrite Hcs, Hpairs. apply list_eq. intros j. rewrite !list_lookup_fmap.
    destruct (decide (j = i)) as [->|Hne].
    - rewrite list_lookup_insert_eq by (by eapply lookup_lt_Some). rewrite Hi. simpl. f_equal.
      by destruct (Hvals k) as [->|[?|?]].
    - rewrite list_lookup_insert_ne by done. destruct (pairs (content_of h m) !! j) as [[k' l']|] eqn:Hj; [|done]. simpl. f_equal.
      destruct (mapping_parts h m j k' l' Hwf Hj) as (_ & _ & _ & ? & _ & _ & Hk'c & _).
      destruct (pairs_apart h m j i k' l' k p Hwf Hne Hj Hi) as (_ & ? & _).
      destruct (Hvals k') as [->|[->|?]]; [done| |done]. destruct Hv as [->| ->]; done. }
  assert (∀ j k' l', pairs (content_of h m) !! j = Some (k', l') → nd_Value (node_at h k') ≠ key →
    j ≠ i ∧ k' ≠ k ∧ k' ≠ v ∧ l' ≠ k ∧ l' ≠ v ∧ k' ≠ r ∧ l' ≠ r ∧ k' ≠ m ∧ l' ≠ m) as Hother.
  { intros j k' l' Hj Hne. destruct (mapping_parts h m j k' l' Hwf Hj) as (_ & _ & _ & ? & ? & _ & Hk'c & Hl'c).
    assert (j ≠ i) as Hji by (intros ->; rewrite Hi in Hj; congruence).
    destruct (pairs_apart h m j i k' l' k p Hwf Hji Hj Hi) as (? & ? & ? & ?).
    assert (k' ≠ r ∧ l' ≠ r) as [? ?] by (split; by intros ->). destruct Hv as [->| ->]; split_and!; done. }
  assert (length (set_content m content' h2) = length h) as Hlen by (unfold set_content; rewrite length_alter; lia).
  assert (v ∈ content_of (set_content m content' h2) m) as Hvin.
  { rewrite Hcs. apply list_elem_of_insert. apply pairs_lookup in Hi as [_ Hi]. by eapply lookup_lt_Some. }
  split.
  - lia.
  - split.
    + unfold set_content. rewrite node_at_alter_eq by done. simpl. by rewrite Hm2.
    + rewrite Hlen, Hcs. constructor; [done|]. apply Forall_cons in Hvalid as [_ Hvalid].
      apply Forall_insert; [done|]. by destruct Hv as [->| ->].
    + rewrite Hcs. apply NoDup_cons in Hown as [Hmc Hown]. apply NoDup_cons. split.
      * by intros [?|?]%elem_of_insert_inv.
      * apply NoDup_insert; [done|]. apply pairs_lookup in Hi as [_ Hi]. destruct Hv as [->| ->]; [by left|by right].
    + rewrite Hcs. unfold content'. by rewrite length_insert.
    + by rewrite Hkeys'.
  - exists v. split.
    + exists k. rewrite Hcs, Hpairs. split; [by eapply list_elem_of_lookup_2, list_lookup_insert_eq, lookup_lt_Some|].
      by destruct (Hvals k) as [->|[?|?]].
    + rewrite set_content_frame by done. by rewrite Hsame2, Hsame1.
  - intros (Hbh & Hbl & Hbf & Hba) i0 k0 p0 Hi0 Hkey0. assert (i0 = i) as ->.
    { eapply (NoDup_lookup _ i0 i key Hkeys); unfold keys_of; rewrite list_lookup_fmap, ?Hi0, ?Hi; simpl; congruence. }
    rewrite Hi in Hi0. injection Hi0 as <- <-. exists v. split.
    { rewrite Hcs, Hpairs. by eapply list_lookup_insert_eq, lookup_lt_Some. }
    assert (p ≠ r) as Hpr by (by intros ->).
    destruct (move_line_comment_bare k p r h Hk Hr Hkr Hbl) as [Hline Hknode]. fold h1 in Hline, Hknode.
    assert (nd_Head (node_at h1 r) = "" ∧ nd_Foot (node_at h1 r) = "" ∧ nd_Anchor (node_at h1 r) = "") as (Hrh & Hrf & Hra).
    { destruct (move_line_comment_effect k p r h r) as (_ & [line E] & _). fold h1 in E. rewrite E. by split_and!. }
    destruct (replace_decor p r h1 v h2 ltac:(lia) ltac:(lia) Hrep) as (Hdh & Hdl & Hdf & Hdo).
    rewrite Hrh in Hdh. rewrite Hrf in Hdf. rewrite Hline in Hdl. specialize (Hf1 p ltac:(done) Hpr). rewrite Hf1 in *.
    split; rewrite ?(set_content_frame _ _ _ v) by done.
    + by rewrite Hdh.
    + by rewrite Hdf.
    + rewrite Hdl. by destruct (nd_Line (node_at h p)), (nd_Line (node_at h k)).
    + intros Hal. destruct (Hdo Hal) as (-> & Hanc & _). split; [done|]. by apply Hanc.
    + intros Hal. by apply Hdo.
    + rewrite set_content_frame, Hf2 by done. exact Hknode.
  - intros j k' l' Hj Hne. destruct (Hother j k' l' Hj Hne) as (? & ? & ? & ? & ? & ? & ? & ? & ?).
    rewrite Hcs, Hpairs, list_lookup_insert_ne by done. split_and!; [done|by apply Hframe..].
  - intros l Hl [Hlm Hlc]%not_elem_of_cons Hlr. apply Hframe; [done| | |done]; intros ->; [done|].
    destruct Hv as [->| ->]; done.
  - rewrite Hcs. intros l [->|Hin]%elem_of_insert_inv; [|by left]. destruct Hv as [->| ->]; [by left|by right; left].
  - rewrite Hkeys'. by left.
Qed.

(** The key is not there: a new pair goes to the end. *)
Lemma set_absent h m key r :
  mapping_wf h m → (r < length h)%nat → r ∉ m :: content_of h m → key ∉ keys_of h m →
  set_effect h m key r (setYAMLMappingNode m key r h).
Proof.
  intros Hwf Hr Hfresh Hkey. pose proof Hwf as [Hkind Hvalid Hown Heven Hkeys].
  apply not_elem_of_cons in Hfresh as [Hrm Hrc]. apply Forall_cons in Hvalid as [Hm Hvalid].
  unfold setYAMLMappingNode. cbv zeta. fold (content_of h m).
  destruct (list_find (key_is h key) (pairs (content_of h m))) as [[i [k p]]|] eqn:Hf.
  { exfalso. apply list_find_Some in Hf as (Hi & Hk & _). apply Hkey. rewrite <-Hk. unfold keys_of.
    apply list_elem_of_fmap. exists (k, p). split; [done|]. by eapply list_elem_of_lookup_2. }
  set (h1 := h ++ [key_node key]). set (n := length h).
  assert (pred (length h1) = n) as -> by (unfold h1; rewrite length_app; simpl; lia).
  set (content' := content_of h m ++ [n; r]).
  assert (length h1 = S n) as Hlen1 by (unfold h1; rewrite length_app; simpl; lia).
  assert (content_of (set_content m content' h1) m = content') as Hcs by (apply content_set; lia).
  assert (∀ l, (l < n)%nat → l ≠ m → node_at (set_content m content' h1) l = node_at h l) as Hframe.
  { intros l Hl ?. rewrite set_content_frame by done. by apply node_at_app. }
  assert (node_at (set_content m content' h1) n = key_node key) as Hkn.
  { rewrite set_content_frame by lia. unfold node_at, h1. by rewrite lookup_app_r, Nat.sub_diag by done. }
  assert (pairs content' = pairs (content_of h m) ++ [(n, r)]) as Hpairs by by apply pairs_app.
  assert (∀ j k l, pairs (content_of h m) !! j = Some (k, l) →
    (k < n)%nat ∧ (l < n)%nat ∧ k ≠ m ∧ l ≠ m ∧ node_at (set_content m content' h1) k = node_at h k ∧
    node_at (set_content m content' h1) l = node_at h l) as Hold.
  { intros j k l Hj. destruct (mapping_parts h m j k l Hwf Hj) as (_ & ? & ? & ? & ? & _).
    split_and!; [done..|by apply Hframe|by apply Hframe]. }
  assert (keys_of (set_content m content' h1) m = keys_of h m ++ [key]) as Hkeys'.
  { unfold keys_of. rewrite Hcs, Hpairs, fmap_app. simpl. rewrite Hkn. f_equal. apply list_eq. intros j.
    rewrite !list_lookup_fmap. destruct (pairs (content_of h m) !! j) as [[k l]|] eqn:Hj; [|done]. simpl.
    by destruct (Hold j k l Hj) as (_ & _ & _ & _ & -> & _). }
  assert (length (set_content m content' h1) = S n) as Hlen by (unfold set_content; by rewrite length_alter).
  apply NoDup_cons in Hown as [Hmc Hown].
  split.
  - rewrite Hlen. lia.
  - split.
    + unfold set_content. rewrite node_at_alter_eq by lia. simpl. unfold h1. by rewrite node_at_app.
    + rewrite Hlen, Hcs. constructor; [lia|]. apply Forall_app. split; [eapply Forall_impl; [exact Hvalid|]; simpl; lia|].
      constructor; [lia|]. constructor; [lia|constructor].
    + rewrite Hcs. rewrite Forall_forall in Hvalid. apply NoDup_cons. split.
      * intros [?|[->|[->|[]%elem_of_nil]%elem_of_cons]%elem_of_cons]%elem_of_app; [done|lia|done].
      * apply NoDup_app. split_and!; [done| |].
        -- intros x Hx [->|[->|[]%elem_of_nil]%elem_of_cons]%elem_of_cons; [apply Hvalid in Hx; lia|done].
        -- apply NoDup_cons. split; [|apply NoDup_singleton]. intros E%list_elem_of_singleton. lia.
    + rewrite Hcs. unfold content'. rewrite length_app. simpl. destruct Heven as [q ->]. exists (S q). lia.
    + rewrite Hkeys'. apply NoDup_app. split_and!; [done| |apply NoDup_singleton]. intros x Hx ->%list_elem_of_singleton. done.
  - exists r. split; [|by rewrite Hframe]. exists n. rewrite Hcs, Hpairs, Hkn. split; [|done].
    apply elem_of_app. right. by apply list_elem_of_singleton.
  - intros _ i k p Hi Hk. destruct Hkey. rewrite <-Hk. unfold keys_of. apply list_elem_of_fmap.
    exists (k, p). split; [done|]. by eapply list_elem_of_lookup_2.
  - intros j k l Hj _. destruct (Hold j k l Hj) as (_ & _ & _ & _ & -> & ->). split; [|done].
    rewrite Hcs, Hpairs. by apply lookup_app_l_Some.
  - intros l Hl [? _]%not_elem_of_cons _. by apply Hframe.
  - rewrite Hcs. intros l [?|[->|[->|[]%elem_of_nil]%elem_of_cons]%elem_of_cons]%elem_of_app; auto.
  - rewrite Hkeys'. intros key' [?|E%list_elem_of_singleton]%elem_of_app; [by left|by right].
Qed.

(** Setting a key of a mapping does that, and only that. *)
Lemma setYAMLMappingNode_effect h m key r :
  mapping_wf h m → (r < length h)%nat → r ∉ m :: content_of h m →
  set_effect h m key r (setYAMLMappingNode m key r h).
Proof.
  intros Hwf Hr Hfresh. destruct (decide (key ∈ keys_of h m)) as [Hin|]; [|by apply set_absent].
  unfold keys_of in Hin. apply list_elem_of_fmap in Hin as ([k p] & -> & Hin).
  apply list_elem_of_lookup_1 in Hin as [i Hi]. by apply (set_present h m _ r i k p).
Qed.

(** ** Encoded trees in the store *)

Section ytree_ind.
Variable P : ytree → Prop.
Hypothesis step : ∀ kind style tag value ts, Forall P ts → P (YTree kind style tag value ts).

Fixpoint ytree_ind' (t : ytree) : P t :=
  match t with
  | YTree kind style tag value ts =>
      step kind style tag value ts
        ((fix go (ts : list ytree) : Forall P ts :=
            match ts with [] => Forall_nil_2 _ | t :: ts => Forall_cons_2 _ t ts (ytree_ind' t) (go ts) end) ts)
  end.
End ytree_ind.

(** Node [l] and its children carry the tree; every child satisfies [P]. *)
Inductive tree_at (P : nref → Prop) (h : Nodes) : ytree → nref → Prop :=
| TreeAt kind style tag value ts l :
    P l → nd_Kind (node_at h l) = kind → nd_Tag (node_at h l) = tag → nd_Value (node_at h l) = value →
    Forall2 (tree_at P h) ts (content_of h l) → tree_at P h (YTree kind style tag value ts) l.

Definition holds (P : nref → Prop) (h : Nodes) (t : ytree) (l : nref) : Prop :=
  let 'YTree kind _ tag value ts := t in
  nd_Kind (node_at h l) = kind ∧ nd_Tag (node_at h l) = tag ∧ nd_Value (node_at h l) = value ∧
  Forall2 (tree_at P h) ts (content_of h l).

Lemma tree_at_mono (P Q : nref → Prop) h h' t l :
  (∀ c, P c → Q c ∧ node_at h' c = node_at h c) → tree_at P h t l → tree_at Q h' t l.
Proof.
  intros HPQ. revert l. induction t as [kind style tag value ts IH] using ytree_ind'. intros l Ht.
  inversion Ht as [? ? ? ? ? ? HP Hk Htag Hv Hts]; subst. destruct (HPQ l HP) as [HQ E].
  constructor; try done; rewrite ?E; try done. unfold content_of. rewrite E. fold (content_of h l).
  clear Ht. induction Hts as [|t c ts cs Htc Hts IHts]; [done|]. apply Forall_cons in IH as [IHt IH]. auto.
Qed.

Lemma holds_mono (P Q : nref → Prop) h h' t l l' :
  (∀ c, P c → Q c ∧ node_at h' c = node_at h c) → same_value (node_at h' l') (node_at h l) →
  holds P h t l → holds Q h' t l'.
Proof.
  intros HPQ [Ek Et Ev Ec]. destruct t as [kind style tag value ts]. unfold holds, content_of. rewrite Ek, Et, Ev, Ec.
  intros (? & ? & ? & Hts). split_and!; [done..|]. eapply Forall2_impl; [exact Hts|]. intros ? ?. by apply tree_at_mono.
Qed.

Lemma tree_holds P h t l : tree_at P h t l → holds P h t l.
Proof. by inversion 1; subst. Qed.

(** [place] extends the store by the nodes of the tree. *)
Lemma place_spec t h r h' : place t h = (r, h') →
  ∃ ext, h' = h ++ ext ∧ (length h ≤ r < length h')%nat ∧
    holds (λ c, length h ≤ c < r)%nat h' t r ∧ bare (node_at h' r).
Proof.
  revert h r h'. induction t as [kind style tag value ts IH] using ytree_ind'. intros h r h'. cbn [place].
  set (go := fix go (ts : list ytree) (h : Nodes) : list nref * Nodes :=
       match ts with
       | [] => ([], h)
       | t :: ts => let '(r, h) := place t h in let '(rs, h) := go ts h in (r :: rs, h)
       end).
  assert (∀ h refs h1, go ts h = (refs, h1) → ∃ ext, h1 = h ++ ext ∧
    Forall2 (tree_at (λ c, length h ≤ c < length h1)%nat h1) ts refs) as Hgo.
  { clear h r h'. induction IH as [|t ts IHt _ IHts]; intros h refs h1; cbn [go].
    - intros [= <- <-]. exists []. by rewrite app_nil_r.
    - destruct (place t h) as [r0 h0] eqn:Et. destruct (IHt _ _ _ Et) as (ext0 & E0 & Hr0 & Ht0 & _).
      fold go. destruct (go ts h0) as [rs h2] eqn:Eg. intros [= <- <-].
      destruct (IHts _ _ _ Eg) as (ext1 & E1 & Hts).
      exists (ext0 ++ ext1). split; [by rewrite app_assoc, <-E0|].
      assert (length h ≤ length h0 ≤ length h2)%nat as Hlen by (rewrite E1, E0, !length_app; lia).
      constructor.
      + apply (tree_at_mono (λ c, length h ≤ c < length h0)%nat _ h0).
        { intros c Hc. split; [lia|]. rewrite E1. apply node_at_app. lia. }
        destruct t as [kind' style' tag' value' ts']. destruct Ht0 as (? & ? & ? & Hch).
        constructor; [lia|done..|]. eapply Forall2_impl; [exact Hch|]. intros t c Hc.
        eapply tree_at_mono; [|exact Hc]. simpl. intros. split; [lia|done].
      + eapply Forall2_impl; [exact Hts|]. intros t' c. apply tree_at_mono. intros c' Hc'. split; [lia|done]. }
  destruct (go ts h) as [refs h1] eqn:Eg. intros [= <- <-]. destruct (Hgo _ _ _ Eg) as (ext & E1 & Hts).
  set (n := {| nd_Kind := kind; nd_Style := style; nd_Tag := tag; nd_Value := value; nd_Anchor := "";
               nd_Alias := None; nd_Content := refs; nd_Head := ""; nd_Line := ""; nd_Foot := "" |}).
  exists (ext ++ [n]). split; [by rewrite app_assoc, <-E1|].
  assert (length h ≤ length h1)%nat by (rewrite E1, length_app; lia).
  split; [rewrite length_app; simpl; lia|].
  assert (node_at (h1 ++ [n]) (length h1) = n) as En by (unfold node_at; by rewrite lookup_app_r, Nat.sub_diag by done).
  split; [|by rewrite En]. unfold holds, content_of. rewrite En. split_and!; [done..|]. simpl. eapply Forall2_impl; [exact Hts|]. intros t c.
  apply tree_at_mono. intros c' Hc'. split; [done|]. apply node_at_app. lia.
Qed.

(** ** Merging the fields of a rule *)

Section merge.
Context {lib : YamlNodes}.
Implicit Types (current desired : Rule) (fields : list (string * (Rule → yaml_value))).

(** A node of the document that the mapping does not own. *)
Definition detached (h : Nodes) (m : nref) (c : nref) : Prop := (c < length h)%nat ∧ c ∉ m :: content_of h m.

Record fields_effect fields current desired (m : nref) (h h' : Nodes) : Prop := {
  fe_length : (length h ≤ length h')%nat;
  fe_wf : mapping_wf h' m;
  (* a field that differs is written *)
  fe_written : ∀ f, f ∈ fields → f.2 current ≠ f.2 desired →
    ∃ t l, yaml_encode (f.2 desired) = Ok t ∧ value_at h' m f.1 l ∧
      holds (λ c, (length h ≤ c)%nat ∧ detached h' m c) h' t l;
  (* where the field was, with what is next to it *)
  fe_decorated : ∀ f i k p, f ∈ fields → f.2 current ≠ f.2 desired →
    pairs (content_of h m) !! i = Some (k, p) → nd_Value (node_at h k) = f.1 →
    ∃ l, pairs (content_of h' m) !! i = Some (k, l) ∧ decorated h h' k p l;
  (* every other pair keeps its place, its key node and its value node *)
  fe_kept : ∀ i k l, pairs (content_of h m) !! i = Some (k, l) →
    (∀ f, f ∈ fields → f.1 = nd_Value (node_at h k) → f.2 current = f.2 desired) →
    pairs (content_of h' m) !! i = Some (k, l) ∧ node_at h' k = node_at h k ∧ node_at h' l = node_at h l;
  (* the rest of the document is untouched *)
  fe_frame : ∀ l, detached h m l → detached h' m l ∧ node_at h' l = node_at h l;
  fe_content : ∀ l, l ∈ content_of h' m → l ∈ content_of h m ∨ (length h ≤ l)%nat;
  fe_keys : ∀ key, key ∈ keys_of h' m → key ∈ keys_of h m ∨ ∃ f, f ∈ fields ∧ f.1 = key ∧ f.2 current ≠ f.2 desired;
}.

(** Only the nodes of the pair matter. *)
Lemma decorated_from h0 h h' k p l : node_at h0 k = node_at h k → node_at h0 p = node_at h p →
  decorated h0 h' k p l → decorated h h' k p l.
Proof. intros Ek Ep [? ? ? ? ? ?]. split; rewrite <-?Ek, <-?Ep; done. Qed.
Lemma decorated_to h h1 h' k p l : node_at h' k = node_at h1 k → node_at h' l = node_at h1 l →
  decorated h h1 k p l → decorated h h' k p l.
Proof. intros Ek El [? ? ? ? ? ?]. split; rewrite ?Ek, ?El; done. Qed.

(** Allocating nodes leaves the mapping alone. *)
Lemma mapping_wf_app h ext m : mapping_wf h m →
  mapping_wf (h ++ ext) m ∧ content_of (h ++ ext) m = content_of h m ∧ keys_of (h ++ ext) m = keys_of h m.
Proof.
  intros Hwf. pose proof Hwf as [Hk Hv Ho He Hkeys]. apply Forall_cons in Hv as [Hm Hv].
  assert (node_at (h ++ ext) m = node_at h m) as En by by apply node_at_app.
  assert (content_of (h ++ ext) m = content_of h m) as Ec by (unfold content_of; by rewrite En).
  assert (keys_of (h ++ ext) m = keys_of h m) as Eks.
  { unfold keys_of. rewrite Ec. apply list_eq. intros i. rewrite !list_lookup_fmap.
    destruct (pairs (content_of h m) !! i) as [[k l]|] eqn:Hi; [|done]. simpl. f_equal. f_equal.
    destruct (mapping_parts h m i k l Hwf Hi) as (_ & ? & _). by apply node_at_app. }
  split; [|done]. split; rewrite ?En, ?Ec, ?Eks, ?length_app; try done.
  constructor; [lia|]. eapply Forall_impl; [exact Hv|]. simpl. lia.
Qed.

Lemma content_detached h m l : mapping_wf h m → (length h ≤ l)%nat → l ∉ m :: content_of h m.
Proof. intros [_ Hv _ _ _] Hl Hin. rewrite Forall_forall in Hv. apply Hv in Hin. lia. Qed.

(** One field, written. *)
Lemma merge_field_effect f current desired m h h' :
  mapping_wf h m → merge_field m current desired f h = Ok h' → fields_effect [f] current desired m h h'.
Proof.
  intros Hwf. unfold merge_field. case_bool_decide as Heq.
  { intros [= <-]. split; try done.
    - by intros ? ->%list_elem_of_singleton.
    - by intros ? ? ? ? ->%list_elem_of_singleton.
    - by left.
    - by left. }
  intros ([r h1] & He & [= <-])%bind_Ok. unfold encodeYAMLNode, YamlMerge.lib in He.
  apply bind_Ok in He as (t & Ht & [= He]). destruct (yaml_encode (f.2 desired)) as [t'|] eqn:Ete; [|done].
  injection Ht as ->. destruct (place_spec t h r h1 He) as (ext & -> & Hr & Hholds & Hbare).
  destruct (mapping_wf_app h ext m Hwf) as (Hwf1 & Hc1 & Hk1).
  assert (r ∉ m :: content_of (h ++ ext) m) as Hrm by (rewrite Hc1; apply content_detached; [done|lia]).
  destruct (setYAMLMappingNode_effect (h ++ ext) m f.1 r Hwf1 ltac:(lia) Hrm) as [Hlen Hwf2 (l & Hval & Hsame) Hdec Hkept Hframe Hcont Hkeys].
  set (h2 := setYAMLMappingNode m f.1 r (h ++ ext)) in *. rewrite length_app in Hlen, Hcont.
  assert (∀ c, (c < length h + length ext)%nat → c ∉ m :: content_of h m → c ≠ r → detached h2 m c ∧ node_at h2 c = node_at (h ++ ext) c) as Hdet.
  { intros c Hc Hcm Hcr. rewrite <-Hc1 in Hcm. split; [|apply Hframe; [rewrite length_app; lia|done|done]]. split; [lia|].
    apply not_elem_of_cons in Hcm as [? Hcm]. apply not_elem_of_cons. split; [done|].
    intros [?|[?|?]]%Hcont; [done|done|lia]. }
  split; try done.
  - lia.
  - intros ? ->%list_elem_of_singleton _. exists t, l. split_and!; [done|done|].
    eapply holds_mono; [|exact Hsame|exact Hholds]. simpl. intros c Hc. destruct (Hdet c); [rewrite length_app in Hr; lia| |lia|by split_and!; [lia|..]].
    apply content_detached; [done|lia].
  - intros ? i k p ->%list_elem_of_singleton _ Hi Hkv. destruct (mapping_parts h m i k p Hwf Hi) as (_ & Hk & Hp & _).
    assert (node_at (h ++ ext) k = node_at h k) as Ek by by apply node_at_app.
    assert (node_at (h ++ ext) p = node_at h p) as Ep by by apply node_at_app.
    destruct (Hdec Hbare i k p) as (v & Hv & Hd); [by rewrite Hc1|by rewrite Ek|]. exists v. split; [done|].
    by apply (decorated_from (h ++ ext)).
  - intros i k v Hi Hsk. destruct (mapping_parts h m i k v Hwf Hi) as (_ & Hk & Hv & _).
    assert (node_at (h ++ ext) k = node_at h k) as Ek by by apply node_at_app.
    assert (node_at (h ++ ext) v = node_at h v) as Ev by by apply node_at_app. rewrite <-Ek, <-Ev. apply Hkept; [by rewrite Hc1|].
    rewrite Ek. intros E. apply Heq, Hsk; [by apply list_elem_of_singleton|done].
  - intros c [Hc Hcm]. rewrite <-(node_at_app h ext c Hc). apply Hdet; [lia|done|lia].
  - intros l' [Hin|[->|?]]%Hcont; [left; by rewrite <-Hc1|right; lia..].
  - intros key [?| ->]%Hkeys; [left; by rewrite <-Hk1|right]. exists f. split_and!; [by apply list_elem_of_singleton|done|done].
Qed.

(** One field after the other; no name occurs twice. *)
Lemma merge_fields_effect fields current desired m h h' :
  NoDup fields.*1 → mapping_wf h m → merge_fields fields m current desired h = Ok h' →
  fields_effect fields current desired m h h'.
Proof.
  revert h. induction fields as [|f fields IH]; intros h; cbn [merge_fields].
  { intros _ Hwf [= <-]. split; try done; [by intros ? []%elem_of_nil|by intros ? ? ? ? []%elem_of_nil|by left|by left]. }
  intros [Hnew Hnd]%NoDup_cons Hwf (h1 & H1 & H2)%bind_Ok.
  apply merge_field_effect in H1 as [Hl1 Hwf1 Hw1 Hdec1 Hk1 Hf1 Hc1 Hks1]; [|done].
  destruct (IH h1 Hnd Hwf1 H2) as [Hl2 Hwf2 Hw2 Hdec2 Hk2 Hf2 Hc2 Hks2].
  assert (∀ g, g ∈ fields → g.1 ≠ f.1) as Hne.
  { intros g Hg E. apply Hnew. rewrite <-E. by apply list_elem_of_fmap_2. }
  split; [lia|done| | | | | |].
  - intros g [->|Hg]%elem_of_cons Hdiff.
    2: { destruct (Hw2 g Hg Hdiff) as (t & l & ? & ? & Hh). exists t, l. split_and!; [done..|].
         eapply holds_mono; [|done|exact Hh]. simpl. intros c [? ?]. split_and!; [lia|done|done]. }
    destruct (Hw1 f ltac:(by apply list_elem_of_singleton) Hdiff) as (t & l & Ht & (k & Hin & Hkey) & Hh).
    apply list_elem_of_lookup_1 in Hin as [i Hi].
    destruct (Hk2 i k l Hi) as (Hi2 & Ek & El). { intros g Hg E. destruct (Hne g Hg). congruence. }
    exists t, l. split_and!; [done| |].
    + exists k. split; [by eapply list_elem_of_lookup_2|congruence].
    + eapply holds_mono; [|by rewrite El|exact Hh]. simpl. intros c [? Hd]. destruct (Hf2 c Hd). by split_and!.
  - intros g i k p [->|Hg]%elem_of_cons Hdiff Hi Hkey.
    + destruct (Hdec1 f i k p ltac:(by apply list_elem_of_singleton) Hdiff Hi Hkey) as (l & Hil & Hdl).
      assert (nd_Value (node_at h1 k) = f.1) as Hkey1 by (by rewrite (dc_key _ _ _ _ _ Hdl)).
      destruct (Hk2 i k l Hil) as (Hi2 & Ek & El). { intros g Hg E. destruct (Hne g Hg). congruence. }
      exists l. split; [done|]. by apply (decorated_to h h1).
    + destruct (Hk1 i k p Hi) as (Hi1 & Ek & Ep). { intros ? ->%list_elem_of_singleton E. destruct (Hne g Hg). congruence. }
      destruct (Hdec2 g i k p Hg Hdiff Hi1) as (l & Hil & Hdl); [congruence|]. exists l. split; [done|].
      by apply (decorated_from h1).
  - intros i k l Hi Hsk. destruct (Hk1 i k l Hi) as (Hi1 & Ek & El).
    { intros g ->%list_elem_of_singleton. apply Hsk. left. }
    destruct (Hk2 i k l Hi1) as (Hi2 & Ek2 & El2); [|split_and!; congruence].
    intros g Hg. rewrite Ek. apply Hsk. by right.
  - intros l Hd. destruct (Hf1 l Hd) as [Hd1 E1]. destruct (Hf2 l Hd1) as [Hd2 E2]. split; [done|congruence].
  - intros l [[?|?]%Hc1|?]%Hc2; [by left|right; lia..].
  - intros key [[?|(g & ->%list_elem_of_singleton & ? & ?)]%Hks1|(g & ? & ? & ?)]%Hks2; [by left|right..].
    + exists f. split_and!; [left|done|done].
    + exists g. split_and!; [by right|done|done].
Qed.

(** editing a rule of the file writes exactly the fields that differ.
    After [mergeRuleYAML] every field whose value changed is found under its key
    with the encoded value; every other pair of the rule, custom keys included,
    is where it was with the same nodes, comments included; and no node outside
    the rule's own mapping is touched. *)
Theorem merge_rule_exact h m current desired h' :
  mapping_wf h m → mergeRuleYAML m current desired h = Ok h' →
  fields_effect managedRuleYAMLFields current desired m h h'.
Proof.
  intros. apply merge_fields_effect; [|done|done]. apply (bool_decide_unpack _). by vm_compute.
Qed.

(** ** Merging the list of rules *)

Definition owned_nodes (h : Nodes) (m : nref) : list nref := m :: content_of h m.

(** The nodes of the rules whose ids are not in [seen]: each is an alias or a
    mapping of its own, and no two of them share a node. *)
Record rules_apart (seen : gset string) (nodes : gmap string nref) (h : Nodes) : Prop := {
  ra_node : ∀ id n, id ∉ seen → nodes !! id = Some n →
    (∀ l, l ∈ owned_nodes h n → (l < length h)%nat) ∧ (nd_Kind (node_at h n) = MappingNode → mapping_wf h n);
  ra_apart : ∀ id1 id2 n1 n2 l, id1 ∉ seen → id2 ∉ seen → nodes !! id1 = Some n1 → nodes !! id2 = Some n2 →
    l ∈ owned_nodes h n1 → l ∈ owned_nodes h n2 → id1 = id2;
}.

(** A desired rule that differs from the one its node carries. *)
Definition edits (cur : gmap string Rule) (nodes : gmap string nref) (rule : Rule) (n : nref) : Prop :=
  ∃ old, cur !! TrimSpace (RuleID rule) = Some old ∧ nodes !! TrimSpace (RuleID rule) = Some n ∧ old ≠ rule.

(** The node of a rule: the one the file had for its id, or a new one that
    carries the encoded rule. *)
Definition placed (h h' : Nodes) (nodes : gmap string nref) (rule : Rule) (node : nref) : Prop :=
  match nodes !! TrimSpace (RuleID rule) with
  | Some n => node = n
  | None => (length h ≤ node < length h')%nat ∧
      ∃ t, yaml_encode (VRule rule) = Ok t ∧ holds (λ c, length h ≤ c < length h')%nat h' t node
  end.

(** The edit of one field is in the document. *)
Definition field_written (h h' : Nodes) (n : nref) (rule : Rule) (f : string * (Rule → yaml_value)) : Prop :=
  ∃ t l, yaml_encode (f.2 rule) = Ok t ∧ value_at h' n f.1 l ∧ (l ∈ content_of h n ∨ (length h ≤ l)%nat) ∧
    holds (λ c, length h ≤ c < length h')%nat h' t l.

(** What became of a rule's mapping: the fields that differ are written in
    their places, what was next to them is kept, and so is every other pair; no
    other key appears. *)
Record rule_edited (h h' : Nodes) (n : nref) (old rule : Rule) : Prop := {
  re_wf : mapping_wf h' n;
  re_written : ∀ f, f ∈ managedRuleYAMLFields → f.2 old ≠ f.2 rule → field_written h h' n rule f;
  re_decorated : ∀ f i k p, f ∈ managedRuleYAMLFields → f.2 old ≠ f.2 rule →
    pairs (content_of h n) !! i = Some (k, p) → nd_Value (node_at h k) = f.1 →
    ∃ l, pairs (content_of h' n) !! i = Some (k, l) ∧ decorated h h' k p l;
  re_kept : ∀ i k l, pairs (content_of h n) !! i = Some (k, l) →
    (∀ f, f ∈ managedRuleYAMLFields → f.1 = nd_Value (node_at h k) → f.2 old = f.2 rule) →
    pairs (content_of h' n) !! i = Some (k, l) ∧ node_at h' k = node_at h k ∧ node_at h' l = node_at h l;
  re_keys : ∀ key, key ∈ keys_of h' n → key ∈ keys_of h n ∨ ∃ f, f ∈ managedRuleYAMLFields ∧ f.1 = key ∧ f.2 old ≠ f.2 rule;
  re_content : ∀ l, l ∈ content_of h' n → l ∈ content_of h n ∨ (length h ≤ l)%nat;
}.

(** The nodes of a mapping are the same in two stores. *)
Definition same_owned (h h' : Nodes) (n : nref) : Prop := ∀ l, l ∈ owned_nodes h n → node_at h' l = node_at h l.
Lemma same_owned_content h h' n : same_owned h h' n → content_of h' n = content_of h n ∧ keys_of h' n = keys_of h n.
Proof.
  intros Hs. assert (content_of h' n = content_of h n) as Ec by (unfold content_of; f_equal; apply Hs; left).
  split; [done|]. unfold keys_of. rewrite Ec. apply list_eq. intros i. rewrite !list_lookup_fmap.
  destruct (pairs (content_of h n) !! i) as [[k l]|] eqn:Hi; [|done]. simpl. f_equal. f_equal.
  apply Hs. right. by apply list_elem_of_lookup_2, elem_of_pairs in Hi as [? _].
Qed.
Lemma mapping_wf_same h h' n : (length h ≤ length h')%nat → same_owned h h' n → mapping_wf h n → mapping_wf h' n.
Proof.
  intros Hlen Hs [Hk Hv Ho He Hks]. destruct (same_owned_content h h' n Hs) as [Ec Ek].
  split; rewrite ?Ec, ?Ek; try done; [by rewrite (Hs n) by left|]. eapply Forall_impl; [exact Hv|]. simpl. lia.
Qed.

Lemma rule_edited_fields h h' n old rule : fields_effect managedRuleYAMLFields old rule n h h' → rule_edited h h' n old rule.
Proof.
  intros [Hl Hwf Hw Hd Hk Hf Hc Hks]. split; try done.
  - intros f Hin Hdiff. destruct (Hw f Hin Hdiff) as (t & l & Ht & Hv & Hh). exists t, l. split_and!; try done.
    + destruct Hv as (k & Hin' & _). by apply elem_of_pairs in Hin' as [_ ?%Hc].
    + eapply holds_mono; [|done|exact Hh]. simpl. intros c (? & ? & _). split; [lia|done].
Qed.

(** What other steps leave alone keeps. *)
Lemma rule_edited_later h h1 h' n old rule :
  (length h1 ≤ length h')%nat → same_owned h1 h' n → (∀ l, (length h ≤ l < length h1)%nat → node_at h' l = node_at h1 l) →
  rule_edited h h1 n old rule → rule_edited h h' n old rule.
Proof.
  intros Hlen Hs Hnew [Hwf Hw Hd Hk Hks Hc]. destruct (same_owned_content h1 h' n Hs) as [Ec Ek].
  assert (∀ i k l, pairs (content_of h1 n) !! i = Some (k, l) → node_at h' k = node_at h1 k ∧ node_at h' l = node_at h1 l) as Hpair.
  { intros i k l Hi%list_elem_of_lookup_2. apply elem_of_pairs in Hi as [? ?]. split; apply Hs; by right. }
  split; rewrite ?Ec, ?Ek; try done.
  - by eapply mapping_wf_same.
  - intros f Hf Hdiff. destruct (Hw f Hf Hdiff) as (t & l & Ht & (k & Hin & Hkey) & Hl & Hh).
    apply elem_of_pairs in Hin as Hkl. destruct Hkl as [Hkc Hlc].
    exists t, l. split_and!; [done| |done|].
    + exists k. rewrite Ec, (Hs k) by (by right). done.
    + eapply holds_mono; [|by rewrite (Hs l) by (by right)|exact Hh]. simpl. intros c Hc'. split; [lia|by apply Hnew].
  - intros f i k p Hf Hdiff Hi Hkey. destruct (Hd f i k p Hf Hdiff Hi Hkey) as (l & Hil & Hdl). exists l. split; [done|].
    destruct (Hpair i k l Hil). by apply (decorated_to h h1).
  - intros i k l Hi Hsk. destruct (Hk i k l Hi Hsk) as (Hi1 & Ek1 & El1). destruct (Hpair i k l Hi1). split_and!; [done|congruence..].
Qed.
Lemma rule_edited_earlier h h1 h' n old rule :
  (length h ≤ length h1)%nat → same_owned h h1 n → rule_edited h1 h' n old rule → rule_edited h h' n old rule.
Proof.
  intros Hlen Hs [Hwf Hw Hd Hk Hks Hc]. destruct (same_owned_content h h1 n Hs) as [Ec Ek]. rewrite Ec in *. rewrite Ek in *.
  assert (∀ i k l, pairs (content_of h n) !! i = Some (k, l) → node_at h1 k = node_at h k ∧ node_at h1 l = node_at h l) as Hpair.
  { intros i k l Hi%list_elem_of_lookup_2. apply elem_of_pairs in Hi as [? ?]. split; apply Hs; by right. }
  split; try done.
  - intros f Hf Hdiff. destruct (Hw f Hf Hdiff) as (t & l & Ht & Hv & Hl & Hh). rewrite Ec in Hl. exists t, l. split_and!; [done..| |].
    + destruct Hl; [by left|right; lia].
    + eapply holds_mono; [|done|exact Hh]. simpl. intros c ?. split; [lia|done].
  - intros f i k p Hf Hdiff Hi Hkey. destruct (Hpair i k p Hi) as [Ekn Epn].
    destruct (Hd f i k p Hf Hdiff Hi) as (l & Hil & Hdl); [congruence|]. exists l. split; [done|]. by apply (decorated_from h1).
  - intros i k l Hi Hsk. destruct (Hpair i k l Hi) as [Ekn Eln]. rewrite <-Ekn in Hsk.
    destruct (Hk i k l Hi Hsk) as (? & ? & ?). split_and!; [done|congruence..].
  - intros l [?|?]%Hc; [by left|right; lia].
Qed.

Lemma rules_apart_frame seen seen' nodes h h' :
  (length h ≤ length h')%nat → seen ⊆ seen' → rules_apart seen nodes h →
  (∀ id n l, id ∉ seen' → nodes !! id = Some n → l ∈ owned_nodes h n → (l < length h)%nat → node_at h' l = node_at h l) →
  rules_apart seen' nodes h'.
Proof.
  intros Hlen Hsub [Hn Ha] Hsame.
  assert (∀ id n, id ∉ seen' → nodes !! id = Some n → same_owned h h' n) as Hs.
  { intros id n Hid Hin l Hl. eapply Hsame; [done..|]. destruct (Hn id n ltac:(set_solver) Hin) as [Hlt _]. by apply Hlt. }
  assert (∀ id n, id ∉ seen' → nodes !! id = Some n → content_of h' n = content_of h n) as Hc.
  { intros id n Hid Hin. by eapply same_owned_content, Hs. }
  split.
  - intros id n Hid Hin. destruct (Hn id n ltac:(set_solver) Hin) as [Hlt Hwf].
    split; [unfold owned_nodes; rewrite (Hc id n Hid Hin); intros l Hl%Hlt; lia|].
    rewrite (Hs id n Hid Hin n) by left. intros Hk. eapply mapping_wf_same; [done|by eapply Hs|by apply Hwf].
  - intros id1 id2 n1 n2 l H1 H2 Hn1 Hn2. unfold owned_nodes. rewrite (Hc id1), (Hc id2) by done.
    apply Ha; [set_solver..|done|done].
Qed.

(** One rule: its node, and what the edit does to the store. *)
Lemma merge_rule_effect cur nodes seen rule h node h' :
  TrimSpace (RuleID rule) ∉ seen → rules_apart seen nodes h → merge_rule cur nodes rule h = Ok (node, h') →
  (length h ≤ length h')%nat ∧ placed h h' nodes rule node ∧
  (∀ l, (l < length h)%nat → (∀ n, edits cur nodes rule n → l ∉ owned_nodes h n) → node_at h' l = node_at h l) ∧
  (∀ n, edits cur nodes rule n → fields_effect managedRuleYAMLFields (default rule (cur !! TrimSpace (RuleID rule))) rule n h h').
Proof.
  intros Hid Hra. unfold merge_rule, placed, edits. cbv zeta. set (id := TrimSpace (RuleID rule)) in *.
  destruct (cur !! id) as [old|] eqn:Hcur, (nodes !! id) as [n|] eqn:Hn; try done.
  - destruct (ra_node _ _ _ Hra id n Hid Hn) as [Hlt Hwf]. simpl.
    case_bool_decide as Hal.
    { rewrite guard_Ok, bool_decide_eq_false. intros [Heq [= <- <-]].
      split_and!; [lia|done|done|]. intros n' (old' & [= <-] & _ & Hne). by destruct Heq. }
    rewrite guard_Ok, bool_decide_eq_false. intros [Hk H]. apply bind_Ok in H as (h1 & Hm & [= <- <-]).
    assert (mapping_wf h n) as Hwf' by (apply Hwf; destruct (decide (nd_Kind (node_at h n) = MappingNode)); naive_solver).
    destruct (decide (old = rule)) as [->|Hne].
    + assert (h1 = h) as ->.
      { clear -Hm. unfold mergeRuleYAML in Hm. induction managedRuleYAMLFields as [|f fs IH]; [by injection Hm|].
        cbn [merge_fields] in Hm. unfold merge_field in Hm. rewrite bool_decide_eq_true_2 in Hm by done. by apply IH. }
      split_and!; [lia|done|done|]. by intros n' (old' & [= <-] & _ & Hne).
    + pose proof (merge_fields_effect managedRuleYAMLFields old rule n h h1
        ltac:(apply (bool_decide_unpack _); by vm_compute) Hwf' Hm) as Hfe.
      split_and!; [apply Hfe|done| |].
      * intros l Hl Hout. eapply (fe_frame _ _ _ _ _ _ Hfe). split; [done|]. apply Hout. eauto.
      * by intros n' (old' & [= <-] & [= <-] & _).
  - unfold encodeYAMLNode, YamlMerge.lib. destruct (yaml_encode _) as [t|]; [|done]. intros [= H].
    destruct (place_spec t h node h' H) as (ext & -> & Hr & Hh & _). split_and!; [rewrite length_app; lia|lia|lia| | |].
    + exists t. split; [done|]. eapply holds_mono; [|done|exact Hh]. simpl. intros c ?. split; [lia|done].
    + intros l Hl _. by apply node_at_app.
    + by intros n (old & ? & _).
Qed.

Lemma edits_apart cur nodes rule seen h id n n' l :
  rules_apart seen nodes h → id ∉ seen → TrimSpace (RuleID rule) ∉ seen → nodes !! id = Some n → TrimSpace (RuleID rule) ≠ id →
  edits cur nodes rule n' → l ∈ owned_nodes h n → l ∉ owned_nodes h n'.
Proof. intros Hra ? ? Hn Hne (old & _ & Hn' & _) Hl Hl'. apply Hne. by eapply (ra_apart _ _ _ Hra _ id n' n l). Qed.

(** The other rules leave a new node alone. *)
Lemma placed_later h h1 h' nodes rule node : (length h1 ≤ length h')%nat →
  (∀ l, (length h ≤ l < length h1)%nat → node_at h' l = node_at h1 l) →
  placed h h1 nodes rule node → placed h h' nodes rule node.
Proof.
  intros Hlen Hnew. unfold placed. case_match; [done|]. intros [Hn (t & Ht & Hh)]. split; [lia|]. exists t. split; [done|].
  eapply holds_mono; [|by rewrite Hnew|exact Hh]. simpl. intros c ?. split; [lia|by apply Hnew].
Qed.
Lemma placed_earlier h h1 h' nodes rule node : (length h ≤ length h1)%nat → placed h1 h' nodes rule node → placed h h' nodes rule node.
Proof.
  intros Hlen. unfold placed. case_match; [done|]. intros [Hn (t & Ht & Hh)]. split; [lia|]. exists t. split; [done|].
  eapply holds_mono; [|done|exact Hh]. simpl. intros c ?. split; [lia|done].
Qed.

Lemma merge_rules_effect cur nodes seen (desired : list Rule) h merged h' :
  rules_apart seen nodes h → merge_rules cur nodes seen desired h = Ok (merged, h') →
  (length h ≤ length h')%nat ∧ Forall2 (placed h h' nodes) desired merged ∧
  Forall (λ rule, TrimSpace (RuleID rule) ∉ seen) desired ∧
  (∀ l, (l < length h)%nat → (∀ rule n, rule ∈ desired → edits cur nodes rule n → l ∉ owned_nodes h n) →
    node_at h' l = node_at h l) ∧
  (∀ rule n old, rule ∈ desired → edits cur nodes rule n → cur !! TrimSpace (RuleID rule) = Some old →
    rule_edited h h' n old rule).
Proof.
  revert seen h merged. induction desired as [|rule desired IH]; intros seen h merged; cbn [merge_rules].
  { intros _ [= <- <-]. split_and!; [done|constructor|constructor|done|by intros ? ? ? []%elem_of_nil]. }
  set (id := TrimSpace (RuleID rule)). intros Hra. rewrite guard_Ok, bool_decide_eq_false. intros [Hid H].
  apply bind_Ok in H as ([node h1] & H1 & H). apply bind_Ok in H as ([rest h2] & H2 & [= <- <-]).
  destruct (merge_rule_effect cur nodes seen rule h node h1 Hid Hra H1) as (Hl1 & Hp1 & Hf1 & He1).
  assert (∀ id' n, id' ∉ {[id]} ∪ seen → nodes !! id' = Some n → same_owned h h1 n) as Hother.
  { intros id' n [? ?]%not_elem_of_union Hn l Hl. apply Hf1; [by apply (ra_node _ _ _ Hra id' n)|].
    intros n' Hed. apply (edits_apart cur nodes rule seen h id' n n' l); try done. set_solver. }
  assert (rules_apart ({[id]} ∪ seen) nodes h1) as Hra1.
  { apply (rules_apart_frame seen _ _ h); [done|apply union_subseteq_r|done|]. intros id' n l ? ? ? _. by apply (Hother id' n). }
  destruct (IH _ _ _ Hra1 H2) as (Hl2 & Hp2 & Hids & Hf2 & Hw2). rewrite Forall_forall in Hids.
  assert (∀ r n, r ∈ desired → edits cur nodes r n → same_owned h h1 n) as Hsame.
  { intros r n Hr (old & _ & Hn & _). by eapply Hother, Hn; apply Hids. }
  assert (∀ r n, r ∈ desired → edits cur nodes r n → owned_nodes h1 n = owned_nodes h n) as Hown.
  { intros r n Hr Hed. unfold owned_nodes. f_equal. by eapply same_owned_content, Hsame. }
  assert (∀ l, (length h ≤ l < length h1)%nat → node_at h2 l = node_at h1 l) as Hnew.
  { intros l Hl. apply Hf2; [lia|]. intros r n Hr Hed. rewrite (Hown r n Hr Hed). intros Hin.
    destruct Hed as (_ & _ & Hn & _). pose proof (Hids r Hr) as [_ Hsn]%not_elem_of_union.
    apply (ra_node _ _ _ Hra _ n Hsn Hn) in Hin. lia. }
  split_and!.
  - lia.
  - constructor; [by apply (placed_later h h1)|]. eapply Forall2_impl; [exact Hp2|]. intros r n. by apply placed_earlier.
  - constructor; [done|]. apply Forall_forall. intros r Hr%Hids. set_solver.
  - intros l Hl Hout. rewrite Hf2; [apply Hf1; [done|]|lia|].
    + intros n. apply (Hout rule). left.
    + intros r n Hr Hed. rewrite (Hown r n Hr Hed). apply (Hout r); [by right|done].
  - intros r n old [->|Hr]%elem_of_cons Hed Hold; [|by apply (rule_edited_earlier h h1), Hw2; [|eapply Hsame|..]].
    pose proof (He1 n Hed) as Hfe. rewrite Hold in Hfe. simpl in Hfe. apply rule_edited_fields in Hfe.
    apply (rule_edited_later h h1); [done| |done|done]. intros x Hx. pose proof Hed as (_ & _ & Hn & _).
    pose proof (mw_valid _ _ (re_wf _ _ _ _ _ Hfe)) as Hv. rewrite Forall_forall in Hv.
    assert (x ∈ owned_nodes h n ∨ (length h ≤ x)%nat) as [Hold'|?]; [|  |by apply Hnew; split; [|apply Hv]].
    { apply elem_of_cons in Hx as [->|Hx]; [left; left|]. destruct (re_content _ _ _ _ _ Hfe x Hx); [left; by right|by right]. }
    apply Hf2; [by apply Hv|]. intros r' n' Hr' Hed'. rewrite (Hown r' n' Hr' Hed').
    pose proof (Hids r' Hr') as [Hne Hsn]%not_elem_of_union. rewrite not_elem_of_singleton in Hne.
    by eapply (edits_apart cur nodes r' seen h id).
Qed.

(** C31: editing the list of rules keeps the document, when its rules share no
    nodes.  The sequence lists the desired rules in their order, each by the node
    the file already had for its id or by a new node that carries the encoded
    rule; every node outside the rules that are edited, comments and unknown keys
    included, is the one the file had; and an edited rule has its differing
    fields written in their places, where comments, anchors and styles stay,
    while its other pairs, unknown keys included, are the ones it had and no
    other key appears. *)
Theorem merge_rules_exact h root rulesNode byID (current desired : list Rule) h' :
  yamlMappingValue h root "rules" = Some rulesNode → nd_Kind (node_at h rulesNode) = SequenceNode →
  node_by_id h (content_of h rulesNode) ∅ = Ok byID → rules_apart ∅ byID h → (rulesNode < length h)%nat →
  (∀ id n, byID !! id = Some n → rulesNode ∉ owned_nodes h n) →
  mergeRulesYAML root current desired h = Ok h' →
  Forall2 (placed h h' byID) desired (content_of h' rulesNode) ∧
  (∀ l, (l < length h)%nat → l ≠ rulesNode →
    (∀ rule n, rule ∈ desired → edits (by_id current) byID rule n → l ∉ owned_nodes h n) → node_at h' l = node_at h l) ∧
  node_at h' rulesNode = with_content (content_of h' rulesNode) (node_at h rulesNode) ∧
  (∀ rule n old, rule ∈ desired → edits (by_id current) byID rule n → by_id current !! TrimSpace (RuleID rule) = Some old →
    rule_edited h h' n old rule).
Proof.
  intros Hroot Hkind Hby Hra Hlt Hown. unfold mergeRulesYAML. cbv zeta. rewrite Hroot, Hkind. simpl.
  fold (content_of h rulesNode). rewrite Hby. simpl. intros ([merged h1] & Hm & [= <-])%bind_Ok.
  destruct (merge_rules_effect _ _ _ _ _ _ _ Hra Hm) as (Hl & Hp & _ & Hf & Hw).
  assert (rulesNode < length h1)%nat as Hlt1 by lia.
  assert (length (set_content rulesNode merged h1) = length h1) as Hlen by apply length_alter.
  assert (∀ l, (length h ≤ l < length h1)%nat → node_at (set_content rulesNode merged h1) l = node_at h1 l) as Hnew.
  { intros l ?. apply set_content_frame. lia. }
  assert (∀ rule n, rule ∈ desired → edits (by_id current) byID rule n → rulesNode ∉ owned_nodes h n) as Hnot.
  { intros rule n _ (_ & _ & Hn & _). by eapply Hown. }
  split_and!.
  - rewrite content_set by done. eapply Forall2_impl; [exact Hp|]. intros rule n. by apply placed_later; [lia|].
  - intros l Hl' Hne Hout. rewrite set_content_frame by done. by apply Hf.
  - rewrite content_set by done. unfold set_content. rewrite node_at_alter_eq by done. by rewrite (Hf rulesNode Hlt Hnot).
  - intros rule n old Hr Hed Hold. pose proof (Hw rule n old Hr Hed Hold) as He.
    apply (rule_edited_later h h1); [lia| |done|done]. intros x Hx. apply set_content_frame. intros ->.
    apply elem_of_cons in Hx as [->|[Hx|?]%(re_content _ _ _ _ _ He)]; [|by apply (Hnot rule n Hr Hed); right|lia].
    apply (Hnot rule n Hr Hed). left.
Qed.
End merge.

(** ** An alias shares the node that is edited *)

Definition doc_node (kind : YamlKind) (value anchor : string) (alias : option nref) (content : list nref) : Node := {|
  nd_Kind := kind; nd_Style := 0; nd_Tag := ""; nd_Value := value; nd_Anchor := anchor; nd_Alias := alias;
  nd_Content := content; nd_Head := ""; nd_Line := ""; nd_Foot := "" |}.

(** A library that encodes a bandwidth limit as its rate and a rule as its id. *)
Definition rate_library : YamlNodes := {|
  yaml_first _ := Err "unused"; yaml_next _ := NextEOF; yaml_print _ _ := Err "unused";
  yaml_encode v :=
    match v with
    | VBandwidth (Some b) =>
        Ok (YTree MappingNode 0 "" "" [YTree ScalarNode 0 "" "rate" []; YTree ScalarNode 0 "" (FormatInt (bw_rate b)) []])
    | VInt z => Ok (YTree ScalarNode 0 "" (FormatInt z) [])
    | VRule r => Ok (YTree MappingNode 0 "" "" [YTree ScalarNode 0 "" "rule_id" []; YTree ScalarNode 0 "" (RuleID r) []])
    | _ => Err "unused"
    end;
  decode_rule_id h n := match nd_Content (node_at h n) with _ :: v :: _ => Ok (nd_Value (node_at h v)) | _ => Err "no id" end |}.
#[local] Existing Instance rate_library.

(** rules, with comments at the limit and at its key:
      - {rule_id: a, bandwidth_limit: &bw {rate: 1000}}
      - {rule_id: b, bandwidth_limit: *bw} *)
Definition anchored_doc : Nodes := [
  doc_node DocumentNode "" "" None [1%nat];
  doc_node MappingNode "" "" None [2; 3]%nat; doc_node ScalarNode "rules" "" None [];
  doc_node SequenceNode "" "" None [4; 11]%nat;
  doc_node MappingNode "" "" None [5; 6; 7; 8]%nat; doc_node ScalarNode "rule_id" "" None []; doc_node ScalarNode "a" "" None [];
  with_comments "" "# bytes" "" (doc_node ScalarNode "bandwidth_limit" "" None []);
  with_comments "# slow line" "" "" (doc_node MappingNode "" "bw" None [9; 10]%nat);
  doc_node ScalarNode "rate" "" None []; doc_node ScalarNode "1000" "" None [];
  doc_node MappingNode "" "" None [12; 13; 14; 15]%nat; doc_node ScalarNode "rule_id" "" None []; doc_node ScalarNode "b" "" None [];
  doc_node ScalarNode "bandwidth_limit" "" None []; doc_node AliasNode "bw" "" (Some 8%nat) []].

Definition limited (id : string) (rate : Z) : Rule := {|
  RuleID := id; Name := id; Proto := "tcp"; ListenAddr := ""; ListenPort := 8080; TargetAddr := "10.0.0.2";
  TargetPort := 80; Enabled := true; SpeedLimit := 0;
  Bandwidth := Some {| bw_rate := rate; bw_upload := 0; bw_download := 0 |}; Quota := None; MaxConn := 0;
  IdleTimeout := 0; SourceIPMode := ""; SourceIPs := []; Domains := []; Remark := ""; Revision := 0;
  CreatedTime := 0; UpdatedTime := 0 |}.

(** The rate of the rule at a node, read through aliases. *)
Definition rate_of (h : Nodes) (rule : nref) : option string :=
  v ← yamlMappingValue h rule "bandwidth_limit";
  let target := default v (nd_Alias (node_at h v)) in
  r ← yamlMappingValue h target "rate"; Some (nd_Value (node_at h r)).

(** (finding) an edit of one rule changes another: rule a carries the
    anchor of its bandwidth limit and rule b refers to it.  The draft changes
    the rate of rule a only; the edited document gives the new rate to rule b
    as well, and the edit reports success. *)
Theorem anchored_edit_changes_other_rule :
  rate_of anchored_doc 11 = Some "1000" ∧
  match mergeRulesYAML 1 [limited "a" 1000; limited "b" 1000] [limited "a" 2000; limited "b" 1000] anchored_doc with
  | Ok h => rate_of h 4 = Some "2000" ∧ rate_of h 11 = Some "2000"
  | Err _ => False
  end.
Proof. by vm_compute. Qed.

(** ** Witnesses *)

Lemma anchored_rule_wf n : n ∈ [4; 11]%nat → mapping_wf anchored_doc n.
Proof.
  intros Hn. rewrite !elem_of_cons, elem_of_nil in Hn. destruct Hn as [->|[->|[]]].
  all: split; [by vm_compute|by apply (bool_decide_unpack _); vm_compute..|by exists 2%nat|
               by apply (bool_decide_unpack _); vm_compute].
Qed.

Definition edited_doc : Nodes :=
  match mergeRuleYAML 4 (limited "a" 1000) (limited "a" 2000) anchored_doc with Ok h => h | Err _ => [] end.

Lemma merge_rule_exact_witness :
  fields_effect managedRuleYAMLFields (limited "a" 1000) (limited "a" 2000) 4 anchored_doc edited_doc.
Proof. apply merge_rule_exact; [apply anchored_rule_wf; left|by vm_compute]. Defined.

Definition anchored_ids : gmap string nref := <["b" := 11%nat]> (<["a" := 4%nat]> ∅).

Lemma anchored_ids_inv id n : anchored_ids !! id = Some n → (id = "a" ∧ n = 4%nat) ∨ (id = "b" ∧ n = 11%nat).
Proof.
  unfold anchored_ids. intros [[<- <-]|[_ H]]%lookup_insert_Some; [by right|].
  apply lookup_insert_Some in H as [[<- <-]|[_ H]]; [by left|]. by rewrite lookup_empty in H.
Qed.

Lemma anchored_apart : rules_apart ∅ anchored_ids anchored_doc.
Proof.
  split.
  - intros id n _ [[_ ->]|[_ ->]]%anchored_ids_inv.
    all: split; [|intros _; apply anchored_rule_wf; vm_compute; set_solver].
    all: apply (proj1 (Forall_forall (λ l, (l < length anchored_doc)%nat) _)), (bool_decide_unpack _); by vm_compute.
  - intros id1 id2 n1 n2 l _ _ [[-> ->]|[-> ->]]%anchored_ids_inv [[-> ->]|[-> ->]]%anchored_ids_inv; try done.
    all: intros H1 H2; exfalso; revert l H1 H2.
    + apply (proj1 (Forall_forall (.∉ owned_nodes anchored_doc 11) _)), (bool_decide_unpack _). by vm_compute.
    + apply (proj1 (Forall_forall (.∉ owned_nodes anchored_doc 4) _)), (bool_decide_unpack _). by vm_compute.
Qed.

(** Rule a gets another rate, a rule c comes between: the limit keeps its anchor
    and comments, and c is a new node that carries c. *)
Lemma merge_rules_exact_witness :
  let desired := [limited "b" 1000; limited "c" 5; limited "a" 2000] in
  let h := match mergeRulesYAML 1 [limited "a" 1000; limited "b" 1000] desired anchored_doc with Ok h => h | Err _ => [] end in
  Forall2 (placed anchored_doc h anchored_ids) desired (content_of h 3) ∧ node_at h 11 = node_at anchored_doc 11 ∧
  rule_edited anchored_doc h 4 (limited "a" 1000) (limited "a" 2000) ∧
  nd_Head (node_at h 8) = "# slow line" ∧ nd_Line (node_at h 8) = "# bytes" ∧ nd_Anchor (node_at h 8) = "bw".
Proof.
  intros desired h. destruct (merge_rules_exact anchored_doc 1 3 anchored_ids [limited "a" 1000; limited "b" 1000] desired h)
    as (Hplaced & Hkept & _ & Hedited); [by vm_compute|by vm_compute|by vm_compute|apply anchored_apart|by vm_compute; lia| |by vm_compute|].
  { intros id n [[_ ->]|[_ ->]]%anchored_ids_inv; apply (bool_decide_unpack _); by vm_compute. }
  assert (limited "a" 2000 ∈ desired) as Ha by (right; right; left).
  assert (edits (by_id [limited "a" 1000; limited "b" 1000]) anchored_ids (limited "a" 2000) 4) as Hed.
  { exists (limited "a" 1000). split_and!; [by vm_compute..|discriminate]. }
  pose proof (Hedited _ _ _ Ha Hed ltac:(by vm_compute)) as He.
  destruct (re_decorated _ _ _ _ _ He ("bandwidth_limit", λ r, VBandwidth (Bandwidth r)) 1 7 8) as (l & Hl & Hd).
  { by apply (list_elem_of_lookup_2 _ 9). }
  { discriminate. }
  { by vm_compute. }
  { by vm_compute. }
  destruct Hd as [Hhead _ Hline Hown _ _]. destruct Hown as [-> Hanchor]; [by vm_compute|].
  split_and!; [exact Hplaced| |exact He|rewrite Hhead; reflexivity|rewrite Hline; reflexivity|rewrite Hanchor; reflexivity].
  apply Hkept; [by vm_compute; lia|discriminate|]. intros rule n Hr (old & Hold & Hn & Hne).
  destruct (anchored_ids_inv _ _ Hn) as [[_ ->]|[Hid ->]].
  - apply (bool_decide_unpack _). by vm_compute.
  - exfalso. apply Hne. assert (Forall (λ r, TrimSpace (RuleID r) = "b" → r = limited "b" 1000) desired) as Hb.
    { unfold desired. rewrite !Forall_cons, Forall_nil. split_and!; [reflexivity|..|exact I]; intros E; vm_compute in E; discriminate E. }
    rewrite Forall_forall in Hb. rewrite (Hb rule Hr Hid) in *.
    assert (by_id [limited "a" 1000; limited "b" 1000] !! TrimSpace (RuleID (limited "b" 1000)) = Some (limited "b" 1000)) as E
      by (by vm_compute).
    rewrite E in Hold. by injection Hold as <-.
Defined.
