(* ===== verification/Store.v ===== *)
(** * The configuration store (controlapi/config_store.go)

    A document is loaded, edited to a candidate, staged as a temporary file in
    the same directory and committed by a rename.  The disk holds the entry at
    the configuration path and the temporary files; between any two system
    calls another process may replace the entry, and any call may fail.  What
    happens is recorded in an environment ([ReadEnv], [StageEnv], ...): the
    replacement entries and the errors, in the order of the calls.  A read of an
    open file is atomic.  SHA-256 and the YAML library are parameters. *)

From S2P Require Import Prelude GoStrings Calendar SourceIP Limits Rule Config YamlMerge.

(** ** The disk *)

Notation inode := Z (only parsing).

(** What the configuration path names. *)
Inductive entry :=
| Missing
| Special                                  (* neither a regular file nor a link *)
| Symlink (target : option (inode * string))
| Regular (ino : inode) (raw : string).
#[export] Instance entry_eq_dec : EqDecision entry.
Proof. solve_decision. Defined.

(** [d_replaced] is a ghost: the entries our renames took the place of. *)
Record Disk := { d_config : entry; d_temps : gmap inode string; d_replaced : list entry }.

Definition set_entry (e : entry) (d : Disk) : Disk :=
  {| d_config := e; d_temps := d_temps d; d_replaced := d_replaced d |}.
Definition set_temps (t : gmap inode string) (d : Disk) : Disk :=
  {| d_config := d_config d; d_temps := t; d_replaced := d_replaced d |}.

(** Another process may have replaced the entry. *)
Definition external (change : option entry) (d : Disk) : Disk :=
  match change with Some e => set_entry e d | None => d end.

(** ** Reading *)

Inductive ReadError := NotExist | PathChanged | IOError (e : string).
#[export] Instance ReadError_eq_dec : EqDecision ReadError.
Proof. solve_decision. Defined.

Definition isConfigPathChange (e : ReadError) : bool :=
  match e with NotExist | PathChanged => true | IOError _ => false end.

Record ReadEnv := {
  re_before : option entry; re_lstat : option string;     (* before and at [os.Lstat] *)
  re_between : option entry; re_open : option string;     (* before and at [os.Open] *)
  re_stat : option string; re_read : option string;
}.

Definition io {A} (failure : option string) (k : result ReadError A) : result ReadError A :=
  match failure with Some e => Err (IOError e) | None => k end.

(** What [os.Open] opens: the file behind a link as well. *)
Definition opened (e : entry) : option (option (inode * string)) :=
  match e with
  | Missing | Symlink None => None
  | Special => Some None
  | Symlink (Some file) => Some (Some file)
  | Regular ino raw => Some (Some (ino, raw))
  end.

Definition readRegularConfig (env : ReadEnv) (d : Disk) : result ReadError (string * inode) * Disk :=
  let d := external (re_before env) d in
  match re_lstat env with
  | Some e => (Err (IOError e), d)
  | None =>
    match d_config d with
    | Missing => (Err NotExist, d)
    | Symlink _ | Special => (Err PathChanged, d)
    | Regular ino _ =>
        let d := external (re_between env) d in
        match re_open env with
        | Some e => (Err (IOError e), d)
        | None =>
          match opened (d_config d) with
          | None => (Err NotExist, d)
          | Some None => (io (re_stat env) (Err PathChanged), d)
          | Some (Some (ino', raw)) =>
              (io (re_stat env) (if ino =? ino' then io (re_read env) (Ok (raw, ino')) else Err PathChanged), d)
          end
        end
    end
  end.

(** ** Documents and candidates *)

Record configDocument := { doc_Config : File; doc_Revision : string; doc_path : string; doc_raw : string }.
Record configCandidate := {
  cand_Config : File; cand_Revision : string; cand_path : string; cand_raw : string; cand_sourceRevision : string
}.

Inductive StoreError :=
| NoConfigPath | StoreRead (e : ReadError) | StoreParse (e : ConfigError) | StoreYaml (e : YamlError)
| InvalidSource | RevisionConflict | StageFailed (call : string) (e : string).

Section store.
Context `{!TzDatabase, !YamlLib, !YamlNodes, !Sha256}.

Definition configRevision (raw : string) : string := "sha256:" +:+ sha256 raw.

(** The document read through [env]. *)
Definition loadConfigDocument (env : ReadEnv) (path : string) (d : Disk) : result StoreError configDocument * Disk :=
  let path := TrimSpace path in
  if bool_decide (path = "") then (Err NoConfigPath, d)
  else
    let '(read, d) := readRegularConfig env d in
    (match read with
     | Err e => Err (StoreRead e)
     | Ok (raw, _) =>
         match Parse raw with
         | Err e => Err (StoreParse e)
         | Ok cfg =>
             match parseYAMLDocument raw with
             | Err e => Err (StoreYaml e)
             | Ok _ => Ok {| doc_Config := cfg; doc_Revision := configRevision raw; doc_path := path; doc_raw := raw |}
             end
         end
     end, d).

Definition yaml_step {A} (r : result YamlError A) : result StoreError A :=
  match r with Ok a => Ok a | Err e => Err (StoreYaml e) end.
Definition parse_step {A} (r : result ConfigError A) : result StoreError A :=
  match r with Ok a => Ok a | Err e => Err (StoreParse e) end.

(** The draft is rendered, normalized by a parse, and rendered again. *)
Definition BuildCandidate (document : configDocument) (draft : rulesConfigDraft) : result StoreError configCandidate :=
  check (bool_decide (TrimSpace (doc_path document) = "") || bool_decide (doc_raw document = "")) InvalidSource ≫= λ _,
  let source := {| dr_Rules := cf_Rules (doc_Config document); dr_UDPMaxSessions := cf_UDPMaxSessions (doc_Config document) |} in
  firstRaw ← yaml_step (renderManagedConfig (doc_raw document) source draft);
  firstConfig ← parse_step (Parse firstRaw);
  let normalized := {| dr_Rules := cf_Rules firstConfig; dr_UDPMaxSessions := cf_UDPMaxSessions firstConfig |} in
  raw ← yaml_step (renderManagedConfig (doc_raw document) source normalized);
  cfg ← parse_step (Parse raw);
  Ok {| cand_Config := cfg; cand_Revision := configRevision raw; cand_path := doc_path document; cand_raw := raw;
        cand_sourceRevision := doc_Revision document |}.

(** ** Staging *)

Record StageEnv := {
  st_read : ReadEnv;
  st_create : result string inode;                        (* [os.CreateTemp] *)
  st_write : option string; st_metadata : option string; st_sync : option string; st_stat : option string;
  st_close : option string; st_removed : bool             (* whether [os.Remove] of a cleanup succeeds *)
}.

(** The info of the temporary file is its inode. *)
Record stagedConfig := {
  sg_temp : option inode;                                  (* [None]: [tempPath] is empty *)
  sg_sourceRevision : string; sg_target : inode; sg_tempInfo : inode; sg_done : bool; sg_committed : bool
}.

Definition remove_temp (removed : bool) (ino : inode) (d : Disk) : Disk :=
  if removed then set_temps (delete ino (d_temps d)) d else d.

Definition Stage (env : StageEnv) (candidate : configCandidate) (d : Disk) : result StoreError stagedConfig * Disk :=
  if bool_decide (TrimSpace (cand_path candidate) = "") || bool_decide (cand_raw candidate = "") then (Err InvalidSource, d)
  else
    let '(read, d) := readRegularConfig (st_read env) d in
    match read with
    | Err e => (Err (if isConfigPathChange e then RevisionConflict else StoreRead e), d)
    | Ok (currentRaw, target) =>
      if negb (bool_decide (configRevision currentRaw = cand_sourceRevision candidate)) then (Err RevisionConflict, d)
      else match st_create env with
      | Err e => (Err (StageFailed "create temporary file" e), d)
      | Ok ino =>
          let d := set_temps (<[ino := ""]> (d_temps d)) d in
          let cleanup := remove_temp (st_removed env) ino in
          match st_write env with
          | Some e => (Err (StageFailed "write temporary file" e), cleanup d)
          | None =>
              let d := set_temps (<[ino := cand_raw candidate]> (d_temps d)) d in
              match st_metadata env, st_sync env, st_stat env, st_close env with
              | Some e, _, _, _ => (Err (StageFailed "preserve config metadata" e), cleanup d)
              | _, Some e, _, _ => (Err (StageFailed "sync temporary file" e), cleanup d)
              | _, _, Some e, _ => (Err (StageFailed "inspect temporary file" e), cleanup d)
              | _, _, _, Some e => (Err (StageFailed "close temporary file" e), cleanup d)
              | None, None, None, None =>
                  (Ok {| sg_temp := Some ino; sg_sourceRevision := cand_sourceRevision candidate; sg_target := target;
                         sg_tempInfo := ino; sg_done := false; sg_committed := false |}, d)
              end
          end
      end
    end.

(** ** Committing *)

(** An [Lstat] or [Stat] of the temporary file: its inode if it is regular. *)
Notation file_info := (result string (option inode)) (only parsing).

Record RefreshEnv := {
  rf_lstat : file_info; rf_open : option string; rf_opened : file_info; rf_metadata : option string;
  rf_sync : option string; rf_stat : result string inode
}.
Record CommitEnv := {
  cm_read : ReadEnv; cm_refresh : RefreshEnv; cm_lstat : file_info;
  cm_window : option entry;                                (* a change after the checks, before the rename *)
  cm_rename : option string; cm_syncdir : option string
}.

Inductive CommitError :=
| StagedClosed | CommitRead (e : ReadError) | CommitConflict | RefreshFailed (e : string) | TempChanged (e : string)
| ReplaceFailed (e : string)
| DirectorySyncFailed (e : string).                        (* after the rename: [Committed] is true *)

Definition same_regular (expected : inode) (info : option inode) : bool := bool_decide (info = Some expected).

Definition refreshStagedConfigMetadata (env : RefreshEnv) (expected : inode) : result string inode :=
  pathInfo ← rf_lstat env;
  check (negb (same_regular expected pathInfo)) "temporary file changed before metadata refresh" ≫= λ _,
  match rf_open env with
  | Some e => Err e
  | None =>
      openedInfo ← rf_opened env;
      check (negb (same_regular expected openedInfo)) "temporary file changed while refreshing metadata" ≫= λ _,
      match rf_metadata env, rf_sync env with
      | Some e, _ | None, Some e => Err e
      | None, None => rf_stat env
      end
  end.

Definition with_temp_info (info : inode) (s : stagedConfig) : stagedConfig := {|
  sg_temp := sg_temp s; sg_sourceRevision := sg_sourceRevision s; sg_target := sg_target s; sg_tempInfo := info;
  sg_done := sg_done s; sg_committed := sg_committed s |}.
Definition close_staged (committed : bool) (s : stagedConfig) : stagedConfig := {|
  sg_temp := None; sg_sourceRevision := sg_sourceRevision s; sg_target := sg_target s; sg_tempInfo := sg_tempInfo s;
  sg_done := true; sg_committed := committed |}.

(** [os.Rename] of the temporary file over the configuration path. *)
Definition rename_temp (ino : inode) (d : Disk) : Disk := {|
  d_config := Regular ino (default "" (d_temps d !! ino)); d_temps := delete ino (d_temps d);
  d_replaced := d_replaced d ++ [d_config d] |}.

Definition CommitStaged (env : CommitEnv) (s : stagedConfig) (d : Disk) : option CommitError * stagedConfig * Disk :=
  match sg_done s, sg_temp s with
  | true, _ | _, None => (Some StagedClosed, s, d)
  | false, Some temp =>
    let '(read, d) := readRegularConfig (cm_read env) d in
    match read with
    | Err e => (Some (if isConfigPathChange e then CommitConflict else CommitRead e), s, d)
    | Ok (currentRaw, current) =>
      if negb (bool_decide (configRevision currentRaw = sg_sourceRevision s)) || negb (sg_target s =? current)
      then (Some CommitConflict, s, d)
      else match refreshStagedConfigMetadata (cm_refresh env) (sg_tempInfo s) with
      | Err e => (Some (RefreshFailed e), s, d)
      | Ok info =>
        let s := with_temp_info info s in
        match cm_lstat env with
        | Err e => (Some (TempChanged e), s, d)
        | Ok tempInfo =>
          if negb (same_regular info tempInfo) then (Some (TempChanged "temporary file changed after staging"), s, d)
          else
            let d := external (cm_window env) d in
            match cm_rename env with
            | Some e => (Some (ReplaceFailed e), s, d)
            | None =>
                ((λ e, DirectorySyncFailed e) <$> cm_syncdir env, close_staged true s, rename_temp temp d)
            end
        end
      end
    end
  end.

(** [Committed] and [Discard]; the error of a discard is ignored by its callers. *)
Definition Committed (s : stagedConfig) : bool := sg_committed s.
Definition Discard (removed : bool) (s : stagedConfig) (d : Disk) : stagedConfig * Disk :=
  match sg_done s, sg_temp s with
  | true, _ | _, None => (s, d)
  | false, Some temp => if removed then (close_staged (sg_committed s) s, remove_temp true temp d) else (s, d)
  end.
End store.
