(* ===== verification/StoreSpec.v ===== *)
(** * What the configuration store does to the disk

    One lemma per operation: who changes the entry at the configuration path,
    what a commit replaces, and which temporary files are left. *)

From S2P Require Import Prelude GoStrings Calendar SourceIP Limits Rule Config YamlMerge Store.

Section store.
Context {tz : TzDatabase} {yl : YamlLib} {yn : YamlNodes} {sha : Sha256}.
Implicit Types d : Disk.

(** The entries other processes put at the path. *)
Definition read_changes (env : ReadEnv) : list entry := option_list (re_before env) ++ option_list (re_between env).
Definition commit_changes (env : CommitEnv) : list entry := read_changes (cm_read env) ++ option_list (cm_window env).

(** Nothing but what others did: the entry is the old one or one of [changes]. *)
Record outside (changes : list entry) d d' : Prop := {
  out_config : d_config d' = d_config d ∨ d_config d' ∈ changes;
  out_replaced : d_replaced d' = d_replaced d;
  out_temps : d_temps d' = d_temps d;
}.

Lemma outside_refl changes d : outside changes d d.
Proof. split; auto. Qed.

Lemma outside_trans c1 c2 d1 d2 d3 : outside c1 d1 d2 → outside c2 d2 d3 → outside (c1 ++ c2) d1 d3.
Proof.
  intros [H1 ? ?] [H2 ? ?]. split; [|congruence..]. rewrite elem_of_app.
  destruct H2 as [H2|]; [|by right; right]. rewrite H2. destruct H1; [by left|by right; left].
Qed.

Lemma outside_mono c1 c2 d d' : c1 ⊆ c2 → outside c1 d d' → outside c2 d d'.
Proof. intros Hsub [[?|Hin] ? ?]; split; auto. Qed.

Lemma external_outside change d : outside (option_list change) d (external change d).
Proof. destruct change; split; try done; [right; simpl; by left|by left]. Qed.

Lemma read_effect env d read d' : readRegularConfig env d = (read, d') →
  outside (read_changes env) d d' ∧ (∀ raw ino, read = Ok (raw, ino) → opened (d_config d') = Some (Some (ino, raw))).
Proof.
  unfold readRegularConfig. set (d1 := external (re_before env) d).
  assert (outside (read_changes env) d d1) as H1.
  { eapply outside_mono; [|apply external_outside]. intros x Hx. by apply elem_of_app; left. }
  destruct (re_lstat env); [by intros [= <- <-]|]. destruct (d_config d1) eqn:He; try by intros [= <- <-].
  set (d2 := external (re_between env) d1).
  assert (outside (read_changes env) d d2) as H2 by (eapply outside_trans; apply external_outside).
  destruct (re_open env); [by intros [= <- <-]|]. destruct (opened (d_config d2)) as [[[ino' raw']|]|] eqn:Ho.
  - intros [= <- <-]. split; [done|]. intros raw0 ino0. unfold io.
    destruct (re_stat env); [done|]. destruct (ino =? ino'); [|done]. destruct (re_read env); [done|]. by intros [= -> ->].
  - intros [= <- <-]. split; [done|]. unfold io. by destruct (re_stat env).
  - by intros [= <- <-].
Qed.

Lemma load_effect env path d loaded d' : loadConfigDocument env path d = (loaded, d') →
  outside (read_changes env) d d' ∧ ∀ document, loaded = Ok document →
    Parse (doc_raw document) = Ok (doc_Config document) ∧ doc_Revision document = configRevision (doc_raw document) ∧
    doc_path document = TrimSpace path ∧ TrimSpace path ≠ "" ∧ doc_raw document ≠ "".
Proof.
  unfold loadConfigDocument. cbv zeta. case_bool_decide as Hp; [intros [= <- <-]; split; [apply outside_refl|done]|].
  destruct (readRegularConfig env d) as [read d1] eqn:Hr. apply read_effect in Hr as [Hout _]. intros [= <- <-].
  split; [done|]. intros document. destruct read as [[raw ino]|]; [|done]. destruct (Parse raw) as [cfg|] eqn:Hparse; [|done].
  destruct (parseYAMLDocument raw); [|done]. intros [= <-]. simpl. split_and!; try done.
  intros ->. done.
Qed.

Lemma stage_effect env candidate d staged d' : Stage env candidate d = (staged, d') →
  (d_config d' = d_config d ∨ d_config d' ∈ read_changes (st_read env)) ∧ d_replaced d' = d_replaced d ∧
  match staged with
  | Ok s => ∃ ino, st_create env = Ok ino ∧ d_temps d' = <[ino := cand_raw candidate]> (d_temps d) ∧
      sg_temp s = Some ino ∧ sg_sourceRevision s = cand_sourceRevision candidate ∧ sg_done s = false ∧ sg_committed s = false
  | Err _ => st_removed env = true → (∀ ino, st_create env = Ok ino → d_temps d !! ino = None) → d_temps d' = d_temps d
  end.
Proof.
  unfold Stage. case_match; [intros [= <- <-]; auto|].
  destruct (readRegularConfig (st_read env) d) as [read d1] eqn:Hr. apply read_effect in Hr as [[Hc Hrep Ht] _].
  destruct read as [[raw target]|e]; [|by intros [= <- <-]]. case_match; [by intros [= <- <-]|].
  destruct (st_create env) as [ino|e] eqn:Hcreate; [|by intros [= <- <-]].
  assert (∀ t x, t = <[ino:=x]> (d_temps d1) ∨ t = <[ino:=x]> (<[ino:="" ]> (d_temps d1)) → st_removed env = true →
    (∀ i, Ok (E:=string) ino = Ok i → d_temps d !! i = None) → delete ino t = d_temps d) as Hdel.
  { intros t x Heq _ Hfresh. rewrite Ht in Heq. specialize (Hfresh ino eq_refl).
    destruct Heq as [-> | ->]; rewrite ?insert_insert_eq; by rewrite delete_insert_id. }
  destruct (st_write env).
  { intros [= <- <-]. unfold remove_temp. destruct (st_removed env) eqn:Hrm; split_and!; try done.
    intros. simpl. eapply Hdel; [by left|done|done]. }
  destruct (st_metadata env), (st_sync env), (st_stat env), (st_close env).
  all: intros [= <- <-].
  all: try (unfold remove_temp; destruct (st_removed env) eqn:Hrm; split_and!; try done;
            intros; simpl; eapply Hdel; [by right|done|done]).
  split_and!; [done|done|]. exists ino. simpl. by rewrite insert_insert_eq, Ht.
Qed.

(** A commit either replaces the document it was staged over, or nothing. *)
Lemma commit_effect env s ino raw d out s' d' :
  sg_done s = false → sg_temp s = Some ino → sg_committed s = false → d_temps d !! ino = Some raw →
  CommitStaged env s d = (out, s', d') →
  if Committed s' then
    (out = None ∨ ∃ e, out = Some (DirectorySyncFailed e)) ∧ sg_done s' = true ∧
    d_config d' = Regular ino raw ∧ d_temps d' = delete ino (d_temps d) ∧
    ∃ e, d_replaced d' = d_replaced d ++ [e] ∧
      (cm_window env = None → ∃ raw0, opened e = Some (Some (sg_target s, raw0)) ∧ configRevision raw0 = sg_sourceRevision s)
  else is_Some out ∧ outside (commit_changes env) d d' ∧ sg_done s' = false ∧ sg_temp s' = Some ino.
Proof.
  intros Hd Ht Hcom Hraw. unfold CommitStaged. rewrite Hd, Ht.
  destruct (readRegularConfig (cm_read env) d) as [read d1] eqn:Hr. apply read_effect in Hr as [Hout Hok].
  assert (outside (commit_changes env) d d1) as H1.
  { eapply outside_mono; [|exact Hout]. intros x Hx. by apply elem_of_app; left. }
  assert (∀ x, (Some x : option CommitError, s, d1) = (out, s', d') →
    if Committed s' then False else is_Some out ∧ outside (commit_changes env) d d' ∧ sg_done s' = false ∧ sg_temp s' = Some ino) as Hfail.
  { intros x [= <- <- <-]. unfold Committed. rewrite Hcom. by split_and!. }
  assert (∀ P : Prop, (if Committed s' then False else P) → if Committed s' then
    (out = None ∨ ∃ e, out = Some (DirectorySyncFailed e)) ∧ sg_done s' = true ∧
    d_config d' = Regular ino raw ∧ d_temps d' = delete ino (d_temps d) ∧
    ∃ e, d_replaced d' = d_replaced d ++ [e] ∧
      (cm_window env = None → ∃ raw0, opened e = Some (Some (sg_target s, raw0)) ∧ configRevision raw0 = sg_sourceRevision s)
    else P) as Hlift by (intros P; by destruct (Committed s')).
  destruct read as [[currentRaw current]|e]; [|intros H; by apply Hlift, (Hfail _ H)].
  destruct (negb (bool_decide _) || _) eqn:Hrev; [intros H; by apply Hlift, (Hfail _ H)|].
  apply orb_false_iff in Hrev as [Hrev%negb_false_iff%bool_decide_eq_true Hino%negb_false_iff%Z.eqb_eq].
  destruct (refreshStagedConfigMetadata _ _) as [info|e]; [|intros H; by apply Hlift, (Hfail _ H)].
  destruct (cm_lstat env) as [tempInfo|e].
  2: { intros [= <- <- <-]. unfold Committed. simpl. rewrite Hcom. by split_and!. }
  destruct (negb (same_regular _ _)).
  { intros [= <- <- <-]. unfold Committed. simpl. rewrite Hcom. by split_and!. }
  assert (outside (commit_changes env) d (external (cm_window env) d1)) as H2 by (eapply outside_trans; [exact Hout|apply external_outside]).
  destruct (cm_rename env).
  { intros [= <- <- <-]. unfold Committed. simpl. rewrite Hcom. by split_and!. }
  intros [= <- <- <-]. simpl. destruct H2 as [_ Hrep2 Htemps2]. split_and!; try done.
  - destruct (cm_syncdir env); simpl; eauto.
  - by rewrite Htemps2, Hraw.
  - by rewrite Htemps2.
  - eexists. split; [by rewrite Hrep2|]. intros ->. simpl. exists currentRaw. split; [|done].
    rewrite Hino. by apply Hok.
Qed.

Lemma discard_effect removed s ino d s' d' : sg_done s = false → sg_temp s = Some ino → Discard removed s d = (s', d') →
  d_config d' = d_config d ∧ d_replaced d' = d_replaced d ∧ (removed = true → d_temps d' = delete ino (d_temps d)).
Proof. intros Hd Ht. unfold Discard. rewrite Hd, Ht. by destruct removed; intros [= <- <-]. Qed.

Lemma discard_closed removed s d : sg_done s = true → Discard removed s d = (s, d).
Proof. intros Hd. unfold Discard. by rewrite Hd. Qed.

(** ** Building the candidate *)

(** What a candidate holds parses to its configuration. *)
Lemma build_effect document draft candidate : BuildCandidate document draft = Ok candidate →
  Parse (cand_raw candidate) = Ok (cand_Config candidate) ∧ cand_sourceRevision candidate = doc_Revision document ∧
  cand_Revision candidate = configRevision (cand_raw candidate).
Proof.
  unfold BuildCandidate. rewrite guard_Ok. intros [_ H]. apply bind_Ok in H as (r1 & _ & H).
  apply bind_Ok in H as (c1 & _ & H). apply bind_Ok in H as (r2 & _ & H). apply bind_Ok in H as (c2 & Hc & [= <-]).
  simpl. unfold parse_step in Hc. destruct (Parse r2); [|done]. by injection Hc as ->.
Qed.

(** A draft that says what the document says is rendered to the same bytes. *)
Lemma build_same document : Parse (doc_raw document) = Ok (doc_Config document) →
  TrimSpace (doc_path document) ≠ "" → doc_raw document ≠ "" →
  ∃ candidate, BuildCandidate document {| dr_Rules := cf_Rules (doc_Config document);
      dr_UDPMaxSessions := cf_UDPMaxSessions (doc_Config document) |} = Ok candidate ∧
    cand_raw candidate = doc_raw document ∧ cand_Config candidate = doc_Config document ∧
    cand_path candidate = doc_path document ∧ cand_sourceRevision candidate = doc_Revision document.
Proof.
  intros Hparse Hpath Hraw. unfold BuildCandidate.
  assert (∀ s, renderManagedConfig (doc_raw document) s s = Ok (doc_raw document)) as Hrender.
  { intros s. unfold renderManagedConfig, rulesYAMLEqual. by rewrite bool_decide_eq_true_2, Z.eqb_refl. }
  rewrite (bool_decide_eq_false_2 (TrimSpace _ = "")), (bool_decide_eq_false_2 (doc_raw document = "")) by done. simpl.
  rewrite Hrender. simpl. rewrite Hparse. simpl. rewrite Hrender. simpl. rewrite Hparse. simpl. by eexists.
Qed.
End store.
