(* ===== verification/Management.v ===== *)
(** * Managing the configuration at run time (controlapi/config_management.go,
    controlapi/config_bot.go, controlapi/server.go)

    The handlers that rewrite the configuration file and bring the running
    daemon in line with it: [putRulesConfig], [Reload], [putBotConfig] and the
    read-only ones.  They run under [reloadMu], one at a time; the transaction
    of the manager holds its own lock from begin to end, so a request is one
    function on the daemon's state [Runtime] and the [Disk].  What other
    processes and the operating system do meanwhile is the environment of the
    request.  JSON bodies are given decoded; logging and metrics are left out. *)

From S2P Require Import Prelude GoStrings Calendar NetIP SourceIP Limits Rule Config YamlMerge Stats Quota Manager Precheck ControlAuth Store.

(** ** Rules of a request *)

Definition with_bookkeeping (revision created updated : Z) (r : Rule) : Rule := {|
  RuleID := RuleID r; Name := Name r; Proto := Proto r; ListenAddr := ListenAddr r; ListenPort := ListenPort r;
  TargetAddr := TargetAddr r; TargetPort := TargetPort r; Enabled := Enabled r; SpeedLimit := SpeedLimit r;
  Bandwidth := Bandwidth r; Quota := Rule.Quota r; MaxConn := MaxConn r; IdleTimeout := IdleTimeout r;
  SourceIPMode := SourceIPMode r; SourceIPs := SourceIPs r; Domains := Domains r; Remark := Remark r;
  Revision := revision; CreatedTime := created; UpdatedTime := updated |}.

Definition with_enabled (enabled : bool) (r : Rule) : Rule := {|
  RuleID := RuleID r; Name := Name r; Proto := Proto r; ListenAddr := ListenAddr r; ListenPort := ListenPort r;
  TargetAddr := TargetAddr r; TargetPort := TargetPort r; Enabled := enabled; SpeedLimit := SpeedLimit r;
  Bandwidth := Bandwidth r; Quota := Rule.Quota r; MaxConn := MaxConn r; IdleTimeout := IdleTimeout r;
  SourceIPMode := SourceIPMode r; SourceIPs := SourceIPs r; Domains := Domains r; Remark := Remark r;
  Revision := Revision r; CreatedTime := CreatedTime r; UpdatedTime := UpdatedTime r |}.

Definition ruleConfigEqual (left right : Rule) : bool :=
  bool_decide (with_bookkeeping 0 0 0 (Standardize left) = with_bookkeeping 0 0 0 (Standardize right)).

Definition prepare_rule (current : gmap string Rule) (timestamp : Z) (incoming : Rule) : Rule :=
  let incoming := with_bookkeeping 0 0 0 (Standardize incoming) in
  match current !! RuleID incoming with
  | None => with_bookkeeping 1 timestamp timestamp incoming
  | Some old =>
      if ruleConfigEqual old incoming then
        with_bookkeeping (Revision old) (CreatedTime old) (UpdatedTime old) incoming
      else
        let revision := add64 (Revision old) 1 in
        let revision := if revision <? 1 then 1 else revision in
        let created := if CreatedTime old =? 0 then timestamp else CreatedTime old in
        with_bookkeeping revision created timestamp incoming
  end.
Definition prepareManagedRules (current desired : list Rule) (timestamp : Z) : list Rule :=
  prepare_rule (by_id current) timestamp <$> desired.

Inductive ConfigAction := AddAction | DeleteAction | UpdateAction.
Inductive RuntimeAction := NoAction | StartAction | StopAction | RestartAction | RemoveAction.
Record configRuleDiff := { df_RuleID : string; df_ConfigAction : ConfigAction; df_RuntimeAction : RuntimeAction }.
#[export] Instance ConfigAction_eq_dec : EqDecision ConfigAction.
Proof. solve_decision. Defined.
#[export] Instance RuntimeAction_eq_dec : EqDecision RuntimeAction.
Proof. solve_decision. Defined.
#[export] Instance configRuleDiff_eq_dec : EqDecision configRuleDiff.
Proof. solve_decision. Defined.

Definition diff_rule (id : string) (old new : option Rule) : option configRuleDiff :=
  let item c r := Some {| df_RuleID := id; df_ConfigAction := c; df_RuntimeAction := r |} in
  match old, new with
  | None, None => None
  | None, Some newRule => item AddAction (if Enabled newRule then StartAction else NoAction)
  | Some oldRule, None => item DeleteAction (if Enabled oldRule then RemoveAction else NoAction)
  | Some oldRule, Some newRule =>
      if ruleConfigEqual oldRule newRule then None
      else item UpdateAction
        (if Enabled oldRule && negb (Enabled newRule) then StopAction
         else if negb (Enabled oldRule) && Enabled newRule then StartAction
         else if Enabled oldRule && Enabled newRule && negb (RuntimeEqual oldRule newRule) then RestartAction
         else NoAction)
  end.

Definition diffConfiguredRules (current desired : list Rule) : list configRuleDiff :=
  let before := by_id current in
  let after := by_id desired in
  omap (λ id, diff_rule id (before !! id) (after !! id)) (sort_strings (elements (dom before ∪ dom after))).

(** ** Requests *)

Inductive RevisionHeaderError := MissingIfMatch | WeakIfMatch | InvalidIfMatch.

Definition is_hex (c : ascii) : bool := bool_decide (is_Some (Netip.hex_digit c)).
Definition quote : ascii := ascii_of_nat 34.

(** [requestRevision] of the [If-Match] header. *)
Definition requestRevision (header : string) : result RevisionHeaderError string :=
  let value := to_list (TrimSpace header) in
  check (bool_decide (value = [])) MissingIfMatch ≫= λ _,
  check (bool_decide (to_list "W/" `prefix_of` value) || has_char "," value || bool_decide (value = ["*"%char]))
    WeakIfMatch ≫= λ _,
  value ← (if bool_decide ([quote] `prefix_of` value) || bool_decide ([quote] `suffix_of` value) then
             check ((length value <? 2)%nat || negb (bool_decide (head value = Some quote))
                    || negb (bool_decide (list.last value = Some quote))) InvalidIfMatch ≫= λ _,
             Ok (take (length value - 2) (drop 1 value))
           else Ok value);
  check (negb (bool_decide (to_list "sha256:" `prefix_of` value)) || negb (length value =? 71)%nat) InvalidIfMatch ≫= λ _,
  check (negb (forallb is_hex (drop 7 value))) InvalidIfMatch ≫= λ _,
  Ok (of_list value).

Inductive BodyError := BodyTooLarge | BadBody (e : string).
Record rulesConfigRequest := { rc_UDPMaxSessions : option Z; rc_Rules : option (list Rule) }.

Definition decodeRulesConfigRequest (body : result BodyError rulesConfigRequest) : result BodyError rulesConfigDraft :=
  request ← body;
  match rc_UDPMaxSessions request, rc_Rules request with
  | None, _ => Err (BadBody "missing udp_max_sessions")
  | _, None => Err (BadBody "missing rules")
  | Some sessions, Some rules => Ok {| dr_Rules := rules; dr_UDPMaxSessions := sessions |}
  end.

(** ** The bot *)

Record BotSettings := { bs_Token : string; bs_ChatID : Z; bs_ControlToken : string }.
#[export] Instance BotSettings_eq_dec : EqDecision BotSettings.
Proof. solve_decision. Defined.

Inductive BotError := BotValidationError | BotUnavailableError.

(** The controller is implemented by the bot package. *)
Class BotController := {
  Bot : Type;
  bot_apply : BotSettings → Bot → option BotError * Bot;
  bot_stop : Bot → option BotError * Bot;
  bot_running : Bot → bool;
}.

Definition normalizeBotSettings (s : BotSettings) : BotSettings :=
  {| bs_Token := TrimSpace (bs_Token s); bs_ChatID := bs_ChatID s; bs_ControlToken := TrimSpace (bs_ControlToken s) |}.
Definition botSettingsFromConfig (cfg : File) : BotSettings :=
  normalizeBotSettings {| bs_Token := cf_BotToken cfg; bs_ChatID := cf_BotChat cfg; bs_ControlToken := cf_BotControlToken cfg |}.

Definition maskedBotSecret : string := "__vmflow_masked__".
Definition maskBotSecret (value : string) : string :=
  if bool_decide (TrimSpace value = "") then "" else maskedBotSecret.

Definition decodeBotConfigRequest (body : result BodyError BotSettings) : result BodyError BotSettings :=
  req ← body;
  check (bool_decide (TrimSpace (bs_Token req) = maskedBotSecret) || bool_decide (TrimSpace (bs_ControlToken req) = maskedBotSecret))
    (BadBody "masked bot token placeholder cannot be saved") ≫= λ _, Ok req.

(** ** Fields a reload cannot change (controlapi/server.go) *)

Definition restartRequiredFields (startup : option File) (next : File) : list string :=
  match startup with
  | None => []
  | Some current =>
      let field (differs : bool) (name : string) := if differs then [name] else [] in
      let currentBot := botSettingsFromConfig current in
      let nextBot := botSettingsFromConfig next in
      field (negb (cf_ControlPort current =? cf_ControlPort next)) "control_port" ++
      field (bool_decide (cf_ControlTLS current ≠ cf_ControlTLS next)) "control_tls" ++
      field (bool_decide (cf_Log current ≠ cf_Log next)) "log" ++
      field (bool_decide (cf_Auth current ≠ cf_Auth next)) "auth" ++
      field (bool_decide (bs_Token currentBot ≠ bs_Token nextBot)) "bot_token" ++
      field (negb (bs_ChatID currentBot =? bs_ChatID nextBot)) "bot_chat" ++
      field (bool_decide (bs_ControlToken currentBot ≠ bs_ControlToken nextBot)) "bot_control_token" ++
      field (bool_decide (cf_AcmeChallenge current ≠ cf_AcmeChallenge next)
             || bool_decide (cf_AcmeHTTP01Addr current ≠ cf_AcmeHTTP01Addr next)
             || bool_decide (cf_AcmeCacheDir current ≠ cf_AcmeCacheDir next)
             || bool_decide (cf_AcmeDNS01 current ≠ cf_AcmeDNS01 next)) "acme" ++
      field (bool_decide (cf_CertCacheDir current ≠ cf_CertCacheDir next)) "cert_cache_dir" ++
      field (bool_decide (cf_CertReview current ≠ cf_CertReview next)) "cert_review" ++
      field (bool_decide (cf_Stats current ≠ cf_Stats next)) "stats"
  end.

(** ** The daemon *)

Section management.
Context `{!TzDatabase, !Net, !Probe, !YamlLib, !YamlNodes, !Sha256, !BotController}.

Record Runtime := {
  rt_ConfigPath : string; rt_Manager : Manager; rt_Auth : Authenticator; rt_PrecheckOptions : option Options;
  rt_Bot : option Bot; rt_StartupConfig : option File; rt_degraded : bool; rt_degradedCause : string
}.

Definition set_manager (m : Manager) (rt : Runtime) : Runtime := {|
  rt_ConfigPath := rt_ConfigPath rt; rt_Manager := m; rt_Auth := rt_Auth rt; rt_PrecheckOptions := rt_PrecheckOptions rt;
  rt_Bot := rt_Bot rt; rt_StartupConfig := rt_StartupConfig rt; rt_degraded := rt_degraded rt;
  rt_degradedCause := rt_degradedCause rt |}.
Definition set_bot (b : option Bot) (startup : option File) (rt : Runtime) : Runtime := {|
  rt_ConfigPath := rt_ConfigPath rt; rt_Manager := rt_Manager rt; rt_Auth := rt_Auth rt;
  rt_PrecheckOptions := rt_PrecheckOptions rt; rt_Bot := b; rt_StartupConfig := startup;
  rt_degraded := rt_degraded rt; rt_degradedCause := rt_degradedCause rt |}.
Definition set_degraded (degraded : bool) (cause : string) (rt : Runtime) : Runtime := {|
  rt_ConfigPath := rt_ConfigPath rt; rt_Manager := rt_Manager rt; rt_Auth := rt_Auth rt;
  rt_PrecheckOptions := rt_PrecheckOptions rt; rt_Bot := rt_Bot rt; rt_StartupConfig := rt_StartupConfig rt;
  rt_degraded := degraded; rt_degradedCause := cause |}.

Definition markDegraded (cause : string) (rt : Runtime) : Runtime := set_degraded true (TrimSpace cause) rt.
Definition clearDegraded (rt : Runtime) : Runtime := set_degraded false "" rt.

Definition precheckOptions (rt : Runtime) : Options := default DefaultOptions (rt_PrecheckOptions rt).

(** What the precheck reads of a configuration. *)
Definition config_view (cfg : File) : ConfigView :=
  {| cv_Rules := cf_Rules cfg; cv_UnknownFields := cf_UnknownFields cfg; cv_AcmeHTTP01Addr := cf_AcmeHTTP01Addr cfg |}.

(** ** Responses *)

Inductive Body :=
| MessageBody (message : string)
| RevisionBody (current : string)                          (* configuration revision changed *)
| InvalidRulesBody (detail : StoreError)
| PrecheckBody (revision : string) (sessionsChanged : bool) (diff : list configRuleDiff) (check : Result)
| TransactionBody (transaction : TransactionalApplyResult)
| CommittedBody (revision : string)                        (* committed, durability not confirmed *)
| CommitFailedBody (rollback : option RollbackResult) (rollback_ok : bool)
| RulesBody (revision : string) (writable : bool) (sessions : Z) (rules : list Rule) (applied : option ApplyResult)
| BotBody (revision : string) (settings : BotSettings) (running : bool).

Record Response := { rs_status : Z; rs_ETag : option string; rs_body : Body }.
Definition respond (status : Z) (body : Body) : Response := {| rs_status := status; rs_ETag := None; rs_body := body |}.

Definition configETag (revision : string) : string :=
  of_list ([quote] ++ to_list (TrimSpace revision) ++ [quote]).
Definition respond_tagged (status : Z) (revision : string) (body : Body) : Response :=
  {| rs_status := status; rs_ETag := Some (configETag revision); rs_body := body |}.

Definition authorizeWrite (info : option AuthInfo) : option Response :=
  match info with
  | Some info => if canWrite info then None else Some (respond 403 (MessageBody "forbidden"))
  | None => Some (respond 403 (MessageBody "forbidden"))
  end.
Definition authorizeConfigWrite (rt : Runtime) (info : option AuthInfo) : option Response :=
  if negb (a_enabled (rt_Auth rt))
  then Some (respond 403 (MessageBody "configuration management requires authentication"))
  else authorizeWrite info.

Definition writeRevisionHeaderError (e : RevisionHeaderError) : Response :=
  match e with
  | MissingIfMatch => respond 428 (MessageBody "missing If-Match header")
  | WeakIfMatch => respond 400 (MessageBody "If-Match must contain one strong configuration revision")
  | InvalidIfMatch => respond 400 (MessageBody "invalid If-Match configuration revision")
  end.
Definition writeRulesRequestError (e : BodyError) : Response :=
  match e with
  | BodyTooLarge => respond 413 (MessageBody "request body exceeds 1 MiB")
  | BadBody e => respond 400 (MessageBody e)
  end.

(** ** Candidates *)

Inductive CandidateError :=
| RevisionMismatch (expected actual : string)
| RulesValidation (e : StoreError)
| CandidateStore (e : StoreError).

Definition writeRulesCandidateError (e : CandidateError) : Response :=
  match e with
  | RevisionMismatch _ actual => respond 412 (RevisionBody actual)
  | CandidateStore RevisionConflict => respond 412 (MessageBody "configuration revision changed")
  | RulesValidation e => respond 422 (InvalidRulesBody e)
  | CandidateStore _ => respond 500 (MessageBody "configuration operation failed")
  end.

(** What the world does during one request: the reads and writes of the store,
    the clock (Unix seconds) and the order in which the precheck visits its map. *)
Record RequestEnv := {
  pe_load : ReadEnv; pe_now : Z; pe_order : list flowNode; pe_stage : StageEnv; pe_commit : CommitEnv; pe_discard : bool
}.

Definition prepareRulesCandidate (env : RequestEnv) (revision : string) (draft : rulesConfigDraft) (rt : Runtime) (d : Disk)
    : result CandidateError (configDocument * configCandidate * Result) * Disk :=
  let '(loaded, d) := loadConfigDocument (pe_load env) (rt_ConfigPath rt) d in
  (match loaded with
   | Err e => Err (CandidateStore e)
   | Ok document =>
       check (bool_decide (doc_Revision document ≠ revision)) (RevisionMismatch revision (doc_Revision document)) ≫= λ _,
       let draft := {| dr_Rules := prepareManagedRules (cf_Rules (doc_Config document)) (dr_Rules draft) (pe_now env);
                       dr_UDPMaxSessions := dr_UDPMaxSessions draft |} in
       match BuildCandidate document draft with
       | Err e => Err (RulesValidation e)
       | Ok candidate =>
           Ok (document, candidate, CheckConfig (pe_order env) (config_view (cand_Config candidate))
                                      (RunningRules (rt_Manager rt)) (precheckOptions rt))
       end
   end, d).

Definition precheck_body (document : configDocument) (candidate : configCandidate) (check : Result) : Body :=
  PrecheckBody (doc_Revision document)
    (negb (cf_UDPMaxSessions (doc_Config document) =? cf_UDPMaxSessions (cand_Config candidate)))
    (diffConfiguredRules (cf_Rules (doc_Config document)) (cf_Rules (cand_Config candidate))) check.

(** ** Rules: the write *)

(** After the candidate is staged: apply, commit, and settle. *)
Definition apply_and_commit (env : RequestEnv) (candidate : configCandidate) (staged : stagedConfig) (rt : Runtime) (d : Disk)
    : Response * Runtime * stagedConfig * Disk :=
  let sessions := cf_UDPMaxSessions (cand_Config candidate) in
  let m := rt_Manager rt in
  let previousLimit := (UDPMaxSessions m).1 in
  let m := if sessions <? previousLimit then SetUDPMaxSessions sessions m else m in
  let '(pending, transaction, m) := BeginApplySnapshotTransactional (cf_Rules (cand_Config candidate)) true m in
  match tx_Failure transaction, pending with
  | Some _, _ | None, None =>
      let rt := set_manager (SetUDPMaxSessions previousLimit m) rt in
      let failed := rb_Failed (Rollback transaction) in
      (respond (if failed then 503 else 500) (TransactionBody transaction),
       if failed then markDegraded "rule apply rollback failed" rt else rt, staged, d)
  | None, Some pending =>
      let '(out, staged, d) := CommitStaged (pe_commit env) staged d in
      match out with
      | None =>
          let rt := clearDegraded (set_manager (SetUDPMaxSessions sessions m) rt) in
          (respond_tagged 200 (cand_Revision candidate)
             (RulesBody (cand_Revision candidate) true sessions (cf_Rules (cand_Config candidate)) (Some (Apply transaction))),
           rt, staged, d)
      | Some e =>
          if Committed staged then
            let rt := markDegraded "configuration committed but durability sync failed"
                        (set_manager (SetUDPMaxSessions sessions m) rt) in
            (respond_tagged 503 (cand_Revision candidate) (CommittedBody (cand_Revision candidate)), rt, staged, d)
          else
            let '(rollback, _, m) := RollbackTransaction pending m in
            let rt := set_manager (SetUDPMaxSessions previousLimit m) rt in
            let conflict := match e with CommitConflict => true | _ => false end in
            (respond (if rb_Failed rollback then 503 else if conflict then 412 else 500)
               (CommitFailedBody (Some rollback) (negb (rb_Failed rollback))),
             if rb_Failed rollback then markDegraded "configuration commit and runtime rollback failed" rt else rt,
             staged, d)
      end
  end.

Definition putRulesConfig (env : RequestEnv) (info : option AuthInfo) (ifMatch : string)
    (body : result BodyError rulesConfigRequest) (rt : Runtime) (d : Disk) : Response * Runtime * Disk :=
  match authorizeConfigWrite rt info with
  | Some denied => (denied, rt, d)
  | None =>
    match requestRevision ifMatch with
    | Err e => (writeRevisionHeaderError e, rt, d)
    | Ok revision =>
      match decodeRulesConfigRequest body with
      | Err e => (writeRulesRequestError e, rt, d)
      | Ok draft =>
        let '(prepared, d) := prepareRulesCandidate env revision draft rt d in
        match prepared with
        | Err e => (writeRulesCandidateError e, rt, d)
        | Ok (document, candidate, checkResult) =>
          if negb (OK checkResult) then (respond 422 (precheck_body document candidate checkResult), rt, d)
          else
            let '(staged, d) := Stage (pe_stage env) candidate d in
            match staged with
            | Err e => (writeRulesCandidateError (CandidateStore e), rt, d)
            | Ok staged =>
                let '(response, rt, staged, d) := apply_and_commit env candidate staged rt d in
                (response, rt, (Discard (pe_discard env) staged d).2)
            end
        end
      end
    end
  end.

(** ** Rules: reads *)

Definition getRulesConfig (env : ReadEnv) (info : option AuthInfo) (rt : Runtime) (d : Disk) : Response * Disk :=
  let '(loaded, d) := loadConfigDocument env (rt_ConfigPath rt) d in
  match loaded with
  | Err _ => (respond 500 (MessageBody "configuration could not be loaded"), d)
  | Ok document =>
      let writable := a_enabled (rt_Auth rt) && match info with Some info => canWrite info | None => false end in
      (respond_tagged 200 (doc_Revision document)
         (RulesBody (doc_Revision document) writable (cf_UDPMaxSessions (doc_Config document)) (cf_Rules (doc_Config document)) None), d)
  end.

Definition handleRulesConfigPrecheck (env : RequestEnv) (info : option AuthInfo) (ifMatch : string)
    (body : result BodyError rulesConfigRequest) (rt : Runtime) (d : Disk) : Response * Disk :=
  match authorizeConfigWrite rt info with
  | Some denied => (denied, d)
  | None =>
    match requestRevision ifMatch with
    | Err e => (writeRevisionHeaderError e, d)
    | Ok revision =>
      match decodeRulesConfigRequest body with
      | Err e => (writeRulesRequestError e, d)
      | Ok draft =>
        let '(prepared, d) := prepareRulesCandidate env revision draft rt d in
        match prepared with
        | Err e => (writeRulesCandidateError e, d)
        | Ok (document, candidate, check) =>
            (respond_tagged (if OK check then 200 else 422) (doc_Revision document) (precheck_body document candidate check), d)
        end
      end
    end
  end.

(** ** Reload (controlapi/server.go) *)

(** [os.ReadFile] follows links. *)
Record FileEnv := { fe_before : option entry; fe_error : option string }.
Definition read_file (env : FileEnv) (d : Disk) : result string string :=
  match fe_error env, opened (d_config d) with
  | Some e, _ => Err e
  | None, Some (Some (_, raw)) => Ok raw
  | None, _ => Err "no such file or not a regular file"
  end.

Record ReloadEnv := { rl_file : FileEnv; rl_order : list flowNode }.

Definition PrecheckRuntime (env : ReloadEnv) (rt : Runtime) (d : Disk) : result ConfigError (File * Result) * Disk :=
  let d := external (fe_before (rl_file env)) d in
  (cfg ← Load (λ _, read_file (rl_file env) d) (rt_ConfigPath rt);
   Ok (cfg, CheckConfig (rl_order env) (config_view cfg) (RunningRules (rt_Manager rt)) (precheckOptions rt)), d).

Inductive ReloadError :=
| ReloadLoad (e : ConfigError) | ReloadPrecheck (check : Result) | RestartRequired (fields : list string)
| ReloadApply (transaction : TransactionalApplyResult).

Definition Reload (env : ReloadEnv) (rt : Runtime) (d : Disk) : result ReloadError (File * ApplyResult) * Runtime * Disk :=
  let '(checked, d) := PrecheckRuntime env rt d in
  match checked with
  | Err e => (Err (ReloadLoad e), rt, d)
  | Ok (cfg, checkResult) =>
    if negb (OK checkResult) then (Err (ReloadPrecheck checkResult), rt, d)
    else match restartRequiredFields (rt_StartupConfig rt) cfg with
    | (_ :: _) as fields => (Err (RestartRequired fields), rt, d)
    | [] =>
      let m := rt_Manager rt in
      let previousLimit := (UDPMaxSessions m).1 in
      let limitLoweredBeforeApply := cf_UDPMaxSessions cfg <? previousLimit in
      let m := if limitLoweredBeforeApply then SetUDPMaxSessions (cf_UDPMaxSessions cfg) m else m in
      let '(transaction, m) := ApplySnapshotTransactional (cf_Rules cfg) true m in
      match tx_Failure transaction with
      | Some _ =>
          let m := if limitLoweredBeforeApply then SetUDPMaxSessions previousLimit m else m in
          let cause := if rb_Failed (Rollback transaction) then "reload rule rollback failed"
                       else "configuration reload was not applied; previous runtime restored" in
          (Err (ReloadApply transaction), markDegraded cause (set_manager m rt), d)
      | None =>
          let m := if previousLimit <? cf_UDPMaxSessions cfg then SetUDPMaxSessions (cf_UDPMaxSessions cfg) m else m in
          (Ok (cfg, Apply transaction), clearDegraded (set_manager m rt), d)
      end
    end
  end.

(** The status of POST /v1/reload. *)
Definition reload_status (info : option AuthInfo) (out : result ReloadError (File * ApplyResult)) : Z :=
  match authorizeWrite info with
  | Some denied => rs_status denied
  | None =>
      match out with
      | Ok _ => 200
      | Err (ReloadPrecheck _) => 400
      | Err (RestartRequired _) => 409
      | Err (ReloadApply transaction) => if rb_Failed (Rollback transaction) then 503 else 500
      | Err (ReloadLoad _) => 500
      end
  end.

(** ** The bot's settings (controlapi/config_bot.go) *)

(** The three nodes are encoded first; encoding only adds nodes. *)
Definition renderBotConfig (source : string) (settings : BotSettings) : result YamlError string :=
  '(h, document, root) ← parseYAMLDocument source;
  '(tokenNode, h) ← encodeYAMLNode (VString (bs_Token settings)) h;
  '(chatNode, h) ← encodeYAMLNode (VInt (bs_ChatID settings)) h;
  '(controlNode, h) ← encodeYAMLNode (VString (bs_ControlToken settings)) h;
  let h := setTopLevelYAMLNode root "bot_token" tokenNode h in
  let h := setTopLevelYAMLNode root "bot_chat" chatNode h in
  let h := setTopLevelYAMLNode root "bot_control_token" controlNode h in
  lib (yaml_print h document).

Definition BuildBotCandidate (document : configDocument) (settings : BotSettings) : result StoreError configCandidate :=
  check (bool_decide (TrimSpace (doc_path document) = "") || bool_decide (doc_raw document = "")) InvalidSource ≫= λ _,
  raw ← yaml_step (renderBotConfig (doc_raw document) settings);
  cfg ← parse_step (Parse raw);
  Ok {| cand_Config := cfg; cand_Revision := configRevision raw; cand_path := doc_path document; cand_raw := raw;
        cand_sourceRevision := doc_Revision document |}.

Definition config_bot_settings (cfg : File) : BotSettings :=
  {| bs_Token := cf_BotToken cfg; bs_ChatID := cf_BotChat cfg; bs_ControlToken := cf_BotControlToken cfg |}.

Definition getBotConfig (env : ReadEnv) (info : option AuthInfo) (rt : Runtime) (d : Disk) : Response * Disk :=
  match authorizeWrite info with
  | Some denied => (denied, d)
  | None =>
    let '(loaded, d) := loadConfigDocument env (rt_ConfigPath rt) d in
    match loaded with
    | Err _ => (respond 500 (MessageBody "configuration could not be loaded"), d)
    | Ok document =>
        let running := match rt_Bot rt with Some b => bot_running b | None => false end in
        let shown := config_bot_settings (doc_Config document) in
        let shown := if a_enabled (rt_Auth rt) then shown
                     else {| bs_Token := maskBotSecret (bs_Token shown); bs_ChatID := bs_ChatID shown;
                             bs_ControlToken := maskBotSecret (bs_ControlToken shown) |} in
        (respond_tagged 200 (doc_Revision document) (BotBody (doc_Revision document) shown running), d)
    end
  end.

(** [restoreBotRuntime] once the new settings were applied. *)
Definition restoreBotRuntime (settings : BotSettings) (wasRunning : bool) (b : Bot) : option BotError * Bot :=
  if wasRunning then bot_apply settings b else bot_stop b.

Definition updateBotBaseline (cfg : File) (startup : option File) : option File :=
  (λ f, {|
    cf_Version := cf_Version f; cf_Language := cf_Language f; cf_InvalidLanguage := cf_InvalidLanguage f;
    cf_ControlPort := cf_ControlPort f; cf_DeprecatedControlListenAddr := cf_DeprecatedControlListenAddr f;
    cf_UsedDeprecatedControlListenAddr := cf_UsedDeprecatedControlListenAddr f;
    cf_UDPMaxSessions := cf_UDPMaxSessions f; cf_ControlTLS := cf_ControlTLS f; cf_Log := cf_Log f; cf_Auth := cf_Auth f;
    cf_BotToken := cf_BotToken cfg; cf_BotChat := cf_BotChat cfg; cf_BotControlToken := cf_BotControlToken cfg;
    cf_AcmeChallenge := cf_AcmeChallenge f; cf_AcmeHTTP01Addr := cf_AcmeHTTP01Addr f;
    cf_AcmeCacheDir := cf_AcmeCacheDir f; cf_AcmeDNS01 := cf_AcmeDNS01 f; cf_CertCacheDir := cf_CertCacheDir f;
    cf_CertReview := cf_CertReview f; cf_Stats := cf_Stats f; cf_Rules := cf_Rules f;
    cf_UnknownFields := cf_UnknownFields f |}) <$> startup.

Definition bot_error_status (e : BotError) : Z := match e with BotValidationError => 422 | BotUnavailableError => 503 end.

(** After the candidate is staged: apply the settings, commit, and settle. *)
Definition bot_apply_and_commit (env : RequestEnv) (document : configDocument) (candidate : configCandidate)
    (settings : BotSettings) (b : Bot) (staged : stagedConfig) (rt : Runtime) (d : Disk)
    : Response * Runtime * stagedConfig * Disk :=
  let previousSettings := botSettingsFromConfig (doc_Config document) in
  let previousRunning := bot_running b in
  match bot_apply settings b with
  | (Some e, b) =>
      (respond (bot_error_status e) (MessageBody "bot settings could not be applied"),
       set_bot (Some b) (rt_StartupConfig rt) rt, staged, d)
  | (None, b) =>
      let '(out, staged, d) := CommitStaged (pe_commit env) staged d in
      let committed := set_bot (Some b) (updateBotBaseline (cand_Config candidate) (rt_StartupConfig rt)) rt in
      match out with
      | None =>
          (respond_tagged 200 (cand_Revision candidate)
             (BotBody (cand_Revision candidate) (config_bot_settings (cand_Config candidate)) (bot_running b)), committed, staged, d)
      | Some e =>
          if Committed staged then
            (respond_tagged 503 (cand_Revision candidate) (CommittedBody (cand_Revision candidate)),
             markDegraded "bot configuration committed but durability sync failed" committed, staged, d)
          else
            let '(rollbackErr, b) := restoreBotRuntime previousSettings previousRunning b in
            let rt := set_bot (Some b) (rt_StartupConfig rt) rt in
            match rollbackErr with
            | Some _ => (respond 503 (CommitFailedBody None false),
                         markDegraded "bot configuration commit and runtime rollback failed" rt, staged, d)
            | None => (respond (match e with CommitConflict => 412 | _ => 500 end) (CommitFailedBody None true), rt, staged, d)
            end
      end
  end.

Definition putBotConfig (env : RequestEnv) (info : option AuthInfo) (ifMatch : string)
    (body : result BodyError BotSettings) (rt : Runtime) (d : Disk) : Response * Runtime * Disk :=
  match authorizeConfigWrite rt info with
  | Some denied => (denied, rt, d)
  | None =>
    match requestRevision ifMatch with
    | Err e => (writeRevisionHeaderError e, rt, d)
    | Ok revision =>
      match decodeBotConfigRequest body with
      | Err e => (respond 400 (MessageBody match e with BadBody e => e | BodyTooLarge => "request body too large" end), rt, d)
      | Ok draft =>
        let settings := normalizeBotSettings draft in
        match rt_Bot rt with
        | None => (respond 503 (MessageBody "bot controller unavailable"), rt, d)
        | Some b =>
          let '(loaded, d) := loadConfigDocument (pe_load env) (rt_ConfigPath rt) d in
          match loaded with
          | Err _ => (respond 500 (MessageBody "configuration could not be loaded"), rt, d)
          | Ok document =>
            if negb (bool_decide (doc_Revision document = revision)) then (respond 412 (RevisionBody (doc_Revision document)), rt, d)
            else match BuildBotCandidate document settings with
            | Err _ => (respond 500 (MessageBody "configuration could not be prepared"), rt, d)
            | Ok candidate =>
              let '(staged, d) := Stage (pe_stage env) candidate d in
              match staged with
              | Err _ => (respond 412 (MessageBody "configuration changed before write"), rt, d)
              | Ok staged =>
                  let '(response, rt, staged, d) := bot_apply_and_commit env document candidate settings b staged rt d in
                  (response, rt, (Discard (pe_discard env) staged d).2)
              end
            end
          end
        end
      end
    end
  end.

Definition handleBotStart (env : ReadEnv) (info : option AuthInfo) (rt : Runtime) (d : Disk) : Z * Runtime * Disk :=
  match authorizeConfigWrite rt info, rt_Bot rt with
  | Some denied, _ => (rs_status denied, rt, d)
  | None, None => (503, rt, d)
  | None, Some b =>
    let '(loaded, d) := loadConfigDocument env (rt_ConfigPath rt) d in
    match loaded with
    | Err _ => (500, rt, d)
    | Ok document =>
        let '(e, b) := bot_apply (botSettingsFromConfig (doc_Config document)) b in
        (match e with Some e => bot_error_status e | None => 200 end, set_bot (Some b) (rt_StartupConfig rt) rt, d)
    end
  end.

Definition handleBotStop (info : option AuthInfo) (rt : Runtime) : Z * Runtime :=
  match authorizeConfigWrite rt info, rt_Bot rt with
  | Some denied, _ => (rs_status denied, rt)
  | None, None => (503, rt)
  | None, Some b =>
      let '(e, b) := bot_stop b in
      (match e with Some _ => 503 | None => 200 end, set_bot (Some b) (rt_StartupConfig rt) rt)
  end.
End management.
