(* ===== verification/ManagementSpec.v ===== *)
(** * What a configuration request guarantees

    The write of the rules is atomic: file and daemon take the new rules
    together or keep the old ones together.  Only the document the client read
    is replaced, temporary files are cleaned up, a reload follows the file, and
    what was read can be saved back unchanged. *)

From S2P Require Import Prelude GoStrings Calendar NetIP SourceIP Limits Rule Config YamlMerge Stats Quota Manager Precheck ControlAuth Store StoreSpec Management ManagerSpec ConfigSpec.

(** ** The session limit of the manager *)

Section budget.
Context {tz : TzDatabase} {net : Net}.
Implicit Types m : Manager.

Lemma budget_stopRunnerSet rs m : udpBudget (stopRunnerSet rs m) = udpBudget m.
Proof. revert m. induction rs as [|r rs IH]; intros m; [done|]. simpl. by rewrite IH. Qed.

Lemma budget_start_runner r m : udpBudget (start_runner r m).2 = udpBudget m.
Proof. unfold start_runner. repeat case_match; done. Qed.

Lemma budget_start_all started rs m : udpBudget (start_all started rs m).2 = udpBudget m.
Proof.
  revert started m. induction rs as [|r rs IH]; intros started m; [done|]. simpl.
  pose proof (budget_start_runner r m) as H. destruct (start_runner r m) as [[] m']; simpl in *.
  - by rewrite IH.
  - by rewrite budget_stopRunnerSet.
Qed.

Lemma budget_buildRunners rule m : udpBudget (buildRunners rule m).2 = udpBudget m.
Proof.
  unfold buildRunners. destruct (runner_kinds _) as [kinds|]; [|done].
  assert (udpBudget (new_runners kinds rule m).2 = udpBudget m) as H.
  { revert m. induction kinds as [|k kinds IH]; intros m; [done|]. simpl.
    destruct (new_runner k rule m) as [r m1] eqn:Er. specialize (IH m1). destruct (new_runners kinds rule m1) as [rs m2].
    simpl in *. rewrite IH. unfold new_runner in Er. destruct k; try (by injection Er as _ <-);
    destruct (bindRule _ _ _); by injection Er as _ <-. }
  by destruct (new_runners kinds rule m).
Qed.

(** Rewrite the pairs an operation returns. *)
Ltac budget_step :=
  match goal with
  | H : buildRunners ?r ?m = (_, _) |- _ =>
      pose proof (budget_buildRunners r m); rewrite H in *; clear H; simpl in *
  | H : startRunnerSet ?r ?m = (_, _) |- _ =>
      pose proof (budget_start_all [] r m); unfold startRunnerSet in H; rewrite H in *; clear H; simpl in *
  end.

Lemma budget_ensure rule m : udpBudget (ensureRuleMetadata rule m) = udpBudget m.
Proof. done. Qed.

Lemma budget_startRule rule m : udpBudget (startRuleInternal rule m).2 = udpBudget m.
Proof.
  unfold startRuleInternal. cbv zeta. destruct (Validate _); [|done]. destruct (negb _); simpl; [by case_match|].
  case_match; [done|]. destruct (buildRunners _ _) as [[rs|e] m1] eqn:Hb; [|by budget_step].
  destruct (startRunnerSet rs m1) as [[u|e] m2] eqn:Hs; [|by repeat budget_step; congruence].
  case_match; simpl; rewrite ?budget_stopRunnerSet; repeat budget_step; congruence.
Qed.

Lemma budget_stopRule id m : udpBudget (stopRuleInternal id m) = udpBudget m.
Proof.
  unfold stopRuleInternal, detachRule. cbv zeta. case_match; [done|]. destruct (running m !! _); simpl; [|done].
  by rewrite budget_stopRunnerSet.
Qed.

Lemma budget_restore previous e m : udpBudget (restoreRuleAfterRestartFailure previous e m).2 = udpBudget m.
Proof.
  unfold restoreRuleAfterRestartFailure. destruct previous as [mr|]; [|done].
  destruct (buildRunners _ _) as [[rs|e'] m1] eqn:Hb; [|by budget_step].
  destruct (startRunnerSet rs m1) as [[u|e'] m2] eqn:Hs; simpl; repeat budget_step; congruence.
Qed.

Lemma budget_restartRule rule m : udpBudget (restartRuleInternal rule m).2 = udpBudget m.
Proof.
  unfold restartRuleInternal. cbv zeta. destruct (Validate _); [|done]. destruct (negb _).
  { simpl. by rewrite budget_stopRule. }
  destruct (buildRunners _ _) as [[rs|e] m1] eqn:Hb; [|by budget_step]. unfold detachRule. 
  set (m2 := match running m1 !! _ with Some _ => _ | None => _ end).
  assert (udpBudget m2 = udpBudget m1) as H2.
  { unfold m2. destruct (running m1 !! _); [|done]. simpl. by rewrite budget_stopRunnerSet. }
  destruct (startRunnerSet rs _) as [[u|e] m3] eqn:Hs.
  - case_match.
    + pose proof (budget_restore (running m1 !! RuleID (Standardize rule)) (AlreadyRunning (RuleID (Standardize rule))) (stopRunnerSet rs m3)) as Hr.
      destruct (restoreRuleAfterRestartFailure _ _ _). simpl in *. rewrite Hr, budget_stopRunnerSet. repeat budget_step; congruence.
    + simpl. repeat budget_step; congruence.
  - pose proof (budget_restore (running m1 !! RuleID (Standardize rule)) e m3) as Hr.
    destruct (restoreRuleAfterRestartFailure _ _ _). simpl in *. rewrite Hr. repeat budget_step; congruence.
Qed.

Lemma budget_updateRule rule m : udpBudget (updateRule rule m) = udpBudget m.
Proof. unfold updateRule. by case_match. Qed.

Lemma budget_undo u m : udpBudget (run_undo u m).2 = udpBudget m.
Proof.
  destruct u; simpl; [apply budget_startRule|apply budget_updateRule|apply budget_restartRule|apply budget_stopRule].
Qed.

Lemma budget_rollbackSteps journal before r m : udpBudget (rollbackSteps journal before r m).2 = udpBudget m.
Proof.
  assert (∀ steps r m, udpBudget (undo_all steps r m).2 = udpBudget m) as Hall.
  { clear. intros steps. induction steps as [|s steps IH]; intros r m; [done|]. simpl.
    pose proof (budget_undo (step_undo s) m) as Hu. destruct (run_undo (step_undo s) m) as [out m1]. simpl in *. by rewrite IH. }
  assert (∀ rules m, udpBudget (foldl (λ m rule, ensureRuleMetadata rule m) m rules) = udpBudget m) as Hens.
  { clear. intros rules. induction rules as [|rule rules IH]; intros m; [done|]. simpl. by rewrite IH. }
  unfold rollbackSteps. specialize (Hall (reverse journal) r m). destruct (undo_all _ r m) as [r1 m1]. simpl in *.
  by rewrite Hens.
Qed.

Lemma budget_tx_rule rule m : udpBudget (tx_rule rule m).2 = udpBudget m.
Proof.
  unfold tx_rule. cbv zeta. destruct (negb _).
  { destruct (runningRule _ m); simpl; [|done]. by rewrite budget_stopRule. }
  destruct (runningRule _ m).
  - case_match; simpl; [by rewrite budget_updateRule|].
    pose proof (budget_restartRule rule m). by destruct (restartRuleInternal rule m) as [[] ?].
  - pose proof (budget_startRule rule m). by destruct (startRuleInternal rule m) as [[] ?].
Qed.

Lemma budget_tx_loop desired journal res m : udpBudget (tx_loop desired journal res m).2 = udpBudget m.
Proof.
  revert journal res m. induction desired as [|rule desired IH]; intros journal res m; [done|]. simpl.
  pose proof (budget_tx_rule rule m) as H. destruct (tx_rule rule m) as [[[steps record]|e] m1]; simpl in *; [|done].
  by rewrite IH.
Qed.

Lemma budget_tx_remove ids journal res m : udpBudget (tx_remove ids journal res m).2 = udpBudget m.
Proof.
  revert journal res m. induction ids as [|id ids IH]; intros journal res m; [done|]. simpl.
  destruct (runningRule id m); [|by rewrite IH]. rewrite IH. unfold removeFromCollector. simpl. by rewrite budget_stopRule.
Qed.

Lemma budget_tx_forget skip ids res m : udpBudget (tx_forget skip ids res m).2 = udpBudget m.
Proof.
  unfold tx_forget. revert res m. induction ids as [|id ids IH]; intros res m; [done|]. simpl.
  case_bool_decide; rewrite IH; done.
Qed.

Lemma budget_Begin rules all m : udpBudget (BeginApplySnapshotTransactional rules all m).2 = udpBudget m.
Proof.
  assert (udpBudget (applySnapshotTransactionalLocked rules all m).2 = udpBudget m) as H.
  { unfold applySnapshotTransactionalLocked. destruct (validateTransactionalSnapshot rules) as [[desired res] [f|]]; [done|]. cbv zeta.
    pose proof (budget_tx_loop desired [] res m) as Hl. destruct (tx_loop desired [] res m) as [[[failed journal] res1] m1]. simpl in Hl.
    destruct failed as [[rule e]|].
    - unfold rollbackTransaction. set (r0 := match e with RestartFailed _ _ => _ | _ => _ end).
      pose proof (budget_rollbackSteps journal (snapshotCollectorState (collector m)) r0 m1) as Hr.
      destruct (rollbackSteps _ _ r0 m1). simpl in *. congruence.
    - destruct all; [|done].
      set (unseen := filter _ (runningRuleIDs m1)). pose proof (budget_tx_remove unseen journal res1 m1) as Hr.
      destruct (tx_remove unseen journal res1 m1) as [[journal' res2] m2]. simpl in Hr.
      set (skip := _ ∪ _). pose proof (budget_tx_forget skip (knownRuleIDs m2) res2 m2) as Hf.
      destruct (tx_forget skip _ res2 m2). simpl in *. congruence. }
  unfold BeginApplySnapshotTransactional. destruct (applySnapshotTransactionalLocked rules all m) as [[[result journal] before] m1].
  simpl in H. by destruct (tx_Failure result), before.
Qed.

(** ** Beginning and rolling back, in one step *)

(** The limit is one the manager accepts. *)
Definition limit_ok m : Prop := 1 ≤ b_limit (udpBudget m) ≤ MaxUDPGlobalMaxSessions.
Definition limit_of m : Z := (UDPMaxSessions m).1.

Lemma normalize_limit_id n : 1 ≤ n ≤ MaxUDPGlobalMaxSessions → normalizeUDPGlobalMaxSessions n = n.
Proof. unfold normalizeUDPGlobalMaxSessions. intros ?. by repeat (case_match; bool_to_prop; try lia). Qed.

Lemma set_limit n m : 1 ≤ n ≤ MaxUDPGlobalMaxSessions → mgr_inv m →
  mgr_inv (SetUDPMaxSessions n m) ∧ limit_ok (SetUDPMaxSessions n m) ∧ limit_of (SetUDPMaxSessions n m) = n ∧
  rules_of (SetUDPMaxSessions n m) = rules_of m.
Proof.
  intros Hn Hinv. unfold limit_ok, limit_of. simpl. rewrite normalize_limit_id by done. split_and!; [|lia|lia|done..].
  by apply (mgr_inv_frame m).
Qed.

(** A transaction that is open: what committing keeps and what rolling back restores. *)
Lemma Begin_effect rules m : mgr_inv m →
  let '(pending, transaction, m1) := BeginApplySnapshotTransactional rules true m in
  mgr_inv m1 ∧ limit_of m1 = limit_of m ∧
  match tx_Failure transaction, pending with
  | None, Some t =>
      applied_rules rules true (rules_of m) (rules_of m1) ∧
      let '(rollback, _, m2) := RollbackTransaction t m1 in
      mgr_inv m2 ∧ (rb_Failed rollback = false → rules_of m2 = rules_of m)
  | Some _, _ => rb_Failed (Rollback transaction) = false → rules_of m1 = rules_of m
  | None, None => False
  end.
Proof.
  intros Hinv. pose proof (budget_Begin rules true m) as Hbudget. pose proof (apply_locked_effect rules true m Hinv) as Ha.
  unfold BeginApplySnapshotTransactional in *.
  destruct (applySnapshotTransactionalLocked rules true m) as [[[result journal] before] m1]. destruct Ha as [Hinv1 Ha].
  assert (udpBudget m1 = udpBudget m) as Hb by (by destruct (tx_Failure result), before).
  assert (limit_of m1 = limit_of m) as Hl by (unfold limit_of, UDPMaxSessions; by rewrite Hb).
  destruct (tx_Failure result) as [f|] eqn:Hf; [rewrite Hf; by destruct Ha as (_ & _ & ?)|].
  destruct Ha as ([b ->] & [Hj1 Hj2] & Happ). rewrite Hf. split_and!; [done..|]. unfold RollbackTransaction. simpl.
  set (r0 := {| Attempted := true; rb_Failed := false; rb_Items := [] |}).
  pose proof (rollbackSteps_effect journal b r0 m1 Hinv1 Hj1) as Hr.
  destruct (rollbackSteps journal b r0 m1) as [r m2]. destruct Hr as [Hinv2 Hr]. split; [done|].
  intros Hfail. destruct (Hr Hfail) as [_ ->]. done.
Qed.
End budget.

(** ** The write of the rules *)

Section management.
Context {tz : TzDatabase} {net : Net} {probe : Probe} {yl : YamlLib} {yn : YamlNodes} {sha : Sha256} {bot : BotController}.
Implicit Types (rt : Runtime) (d : Disk).

Lemma Parse_normal raw cfg : Parse raw = Ok cfg → ∃ f, normalize f = Ok cfg.
Proof.
  unfold Parse. rewrite guard_Ok. intros [_ H]. destruct (yaml_parse raw) as [[value|]|]; [|eauto|done].
  apply bind_Ok in H as (f & _ & H). eauto.
Qed.

Lemma Parse_limit raw cfg : Parse raw = Ok cfg → 1 ≤ cf_UDPMaxSessions cfg ≤ MaxUDPGlobalMaxSessions.
Proof.
  intros (f & [Ha Hn]%normalize_inv)%Parse_normal. destruct Ha as [_ _ Hs _ _ _ _ _]. rewrite (nf_sessions _ _ Hn).
  unfold MaxUDPGlobalMaxSessions, DefaultUDPGlobalMaxSessions in *. destruct (Z.eqb_spec (cf_UDPMaxSessions f) 0); lia.
Qed.

(** A daemon in order. *)
Definition runtime_ok rt : Prop := mgr_inv (rt_Manager rt) ∧ limit_ok (rt_Manager rt).

(** The daemon serves the configuration: its running rules are the enabled ones
    of the file, its live listeners are exactly theirs, and its session limit is
    the file's. *)
Definition serves (cfg : File) rt : Prop :=
  (∀ id rule, rules_of (rt_Manager rt) !! id = Some rule ↔
     rule ∈ Standardize <$> cf_Rules cfg ∧ RuleID rule = id ∧ Enabled rule = true) ∧
  serving (rt_Manager rt) (rules_of (rt_Manager rt)) ∧ limit_of (rt_Manager rt) = cf_UDPMaxSessions cfg.

Lemma applied_serves cfg before rt :
  mgr_inv (rt_Manager rt) → applied_rules (cf_Rules cfg) true before (rules_of (rt_Manager rt)) →
  limit_of (rt_Manager rt) = cf_UDPMaxSessions cfg → serves cfg rt.
Proof.
  intros Hinv Happ Hl. split_and!; [|by apply mgr_inv_serving|done]. intros id rule. rewrite (Happ id rule).
  split; [by intros [?|[? _]]|by left].
Qed.

(** The daemon is as it was, or it reports that it could not go back. *)
Definition unchanged_or_degraded rt rt' (status : Z) : Prop :=
  limit_of (rt_Manager rt') = limit_of (rt_Manager rt) ∧
  ((rules_of (rt_Manager rt') = rules_of (rt_Manager rt) ∧ serving (rt_Manager rt') (rules_of (rt_Manager rt)) ∧
    rt_degraded rt' = rt_degraded rt) ∨
   (status = 503 ∧ rt_degraded rt' = true)).

Lemma apply_and_commit_effect env candidate s rt d response rt' s' d' ino raw :
  runtime_ok rt → 1 ≤ cf_UDPMaxSessions (cand_Config candidate) ≤ MaxUDPGlobalMaxSessions →
  sg_done s = false → sg_temp s = Some ino → sg_committed s = false → d_temps d !! ino = Some raw →
  apply_and_commit env candidate s rt d = (response, rt', s', d') →
  runtime_ok rt' ∧
  if Committed s' then
    serves (cand_Config candidate) rt' ∧ sg_done s' = true ∧
    ((rs_status response = 200 ∧ rt_degraded rt' = false) ∨ (rs_status response = 503 ∧ rt_degraded rt' = true)) ∧
    d_config d' = Regular ino raw ∧ d_temps d' = delete ino (d_temps d) ∧
    ∃ e, d_replaced d' = d_replaced d ++ [e] ∧
      (cm_window (pe_commit env) = None →
       ∃ raw0, opened e = Some (Some (sg_target s, raw0)) ∧ configRevision raw0 = sg_sourceRevision s)
  else
    unchanged_or_degraded rt rt' (rs_status response) ∧ rs_status response ≠ 200 ∧
    outside (commit_changes (pe_commit env)) d d' ∧ sg_done s' = false ∧ sg_temp s' = Some ino.
Proof.
  intros [Hinv Hlim] Hs Hd Ht Hc Hraw. unfold apply_and_commit. cbv zeta.
  set (sessions := cf_UDPMaxSessions (cand_Config candidate)) in *. set (m := rt_Manager rt) in *.
  assert (1 ≤ limit_of m ≤ MaxUDPGlobalMaxSessions) as Hprev by exact Hlim.
  fold (limit_of m). set (m0 := if sessions <? limit_of m then SetUDPMaxSessions sessions m else m).
  assert (mgr_inv m0 ∧ rules_of m0 = rules_of m) as [Hinv0 Hr0].
  { unfold m0. destruct (sessions <? limit_of m); [|done]. by destruct (set_limit sessions m Hs Hinv) as (? & _ & _ & ?). }
  pose proof (Begin_effect (cf_Rules (cand_Config candidate)) m0 Hinv0) as Hb.
  destruct (BeginApplySnapshotTransactional _ true m0) as [[pending transaction] m1]. destruct Hb as (Hinv1 & _ & Hb).
  destruct (set_limit (limit_of m) m1 Hprev Hinv1) as (Hi1 & Hl1 & Hlo1 & Hr1).
  assert (∀ cause (rt1 : Runtime), (∃ t, tx_Failure transaction = Some t) → rt1 = set_manager (SetUDPMaxSessions (limit_of m) m1) rt →
    (respond (if rb_Failed (Rollback transaction) then 503 else 500) (TransactionBody transaction),
     if rb_Failed (Rollback transaction) then markDegraded cause rt1 else rt1, s, d) = (response, rt', s', d') →
    runtime_ok rt' ∧ Committed s' = false ∧ unchanged_or_degraded rt rt' (rs_status response) ∧ rs_status response ≠ 200 ∧ s' = s ∧ d' = d)
    as Hfailed.
  { intros cause rt1 [t Hf] -> [= <- <- <- <-]. rewrite Hf in Hb. unfold unchanged_or_degraded, runtime_ok.
    destruct (rb_Failed (Rollback transaction)); simpl; split_and!; try done; [by right|].
    left. assert (rules_of (SetUDPMaxSessions (limit_of m) m1) = rules_of m) as E by (rewrite Hr1, Hb; done).
    split_and!; [exact E|fold m; rewrite <- E; by apply mgr_inv_serving|done]. }
  destruct (tx_Failure transaction) as [f|] eqn:Hf.
  { intros H. edestruct Hfailed as (? & -> & ? & ? & -> & ->); [eauto|reflexivity|exact H|]. split; [done|].
    split_and!; try done. apply outside_refl. }
  destruct pending as [t|]; [|done]. destruct Hb as [Happ Hrb]. rewrite Hr0 in Happ, Hrb.
  destruct (CommitStaged (pe_commit env) s d) as [[out s1] d1] eqn:Hcommit.
  pose proof (commit_effect _ _ _ _ _ _ _ _ Hd Ht Hc Hraw Hcommit) as Hce.
  destruct (set_limit sessions m1 Hs Hinv1) as (Hi2 & Hl2 & Hlo2 & Hr2).
  assert (∀ rt1, rt_Manager rt1 = SetUDPMaxSessions sessions m1 → serves (cand_Config candidate) rt1 ∧ runtime_ok rt1) as Hserves.
  { intros rt1 E. split; [|unfold runtime_ok; by rewrite E].
    apply (applied_serves _ (rules_of m)); by rewrite E, ?Hr2. }
  destruct out as [e|].
  - destruct (Committed s1) eqn:Hcs.
    + intros [= <- <- <- <-]. rewrite Hcs. destruct Hce as (_ & Hdone & Hce).
      edestruct Hserves as [Hsv Hok]; [|split; [exact Hok|]; split_and!; [exact Hsv|done| |apply Hce..]]; [done|by right].
    + destruct (RollbackTransaction t m1) as [[rollback t'] m2]. destruct Hrb as [Hinv2 Hrb].
      destruct (set_limit (limit_of m) m2 Hprev Hinv2) as (Hi3 & Hl3 & Hlo3 & Hr3).
      intros [= <- <- <- <-]. rewrite Hcs. destruct Hce as (_ & Hout & Hdone & Htemp). unfold runtime_ok, unchanged_or_degraded.
      destruct (rb_Failed rollback) eqn:Hrf; simpl.
      * split_and!; try done. by right.
      * assert (rules_of (SetUDPMaxSessions (limit_of m) m2) = rules_of m) as E by (rewrite Hr3; by apply Hrb).
        split_and!; try done; [left; split_and!; [exact E|fold m; rewrite <- E; by apply mgr_inv_serving|done]|by destruct e].
  - destruct (Committed s1) eqn:Hcs; [|by destruct Hce as [[? ?] _]].
    intros [= <- <- <- <-]. rewrite Hcs. destruct Hce as (_ & Hdone & Hce).
    edestruct Hserves as [Hsv Hok]; [|split; [exact Hok|]; split_and!; [exact Hsv|done| |apply Hce..]]; [done|by left].
Qed.

(** Everything other processes do to the entry during a request. *)
Definition request_changes (env : RequestEnv) : list entry :=
  read_changes (pe_load env) ++ read_changes (st_read (pe_stage env)) ++ commit_changes (pe_commit env).

(** Temporary files can be removed and a new one has a name of its own. *)
Definition temps_work (env : RequestEnv) d : Prop :=
  st_removed (pe_stage env) = true ∧ pe_discard env = true ∧
  ∀ ino, st_create (pe_stage env) = Ok ino → d_temps d !! ino = None.

(** The candidate says what the request asks for, in a document of the revision. *)
Definition candidate_of (env : RequestEnv) (body : result BodyError rulesConfigRequest) (revision : string) (candidate : configCandidate) : Prop :=
  ∃ document draft, doc_Revision document = revision ∧ configRevision (doc_raw document) = revision ∧
    Parse (doc_raw document) = Ok (doc_Config document) ∧ decodeRulesConfigRequest body = Ok draft ∧
    BuildCandidate document {|
      dr_Rules := prepareManagedRules (cf_Rules (doc_Config document)) (dr_Rules draft) (pe_now env);
      dr_UDPMaxSessions := dr_UDPMaxSessions draft |} = Ok candidate.

(** How a write of the rules can end. *)
Inductive put_outcome (env : RequestEnv) (ifMatch : string) (body : result BodyError rulesConfigRequest) rt d (response : Response) rt' d' : Prop :=
| PutCommitted candidate revision ino replaced :
    requestRevision ifMatch = Ok revision → candidate_of env body revision candidate → Parse (cand_raw candidate) = Ok (cand_Config candidate) →
    serves (cand_Config candidate) rt' →
    ((rs_status response = 200 ∧ rt_degraded rt' = false) ∨ (rs_status response = 503 ∧ rt_degraded rt' = true)) →
    d_config d' = Regular ino (cand_raw candidate) → d_replaced d' = d_replaced d ++ [replaced] →
    (cm_window (pe_commit env) = None →
     ∃ ino0 raw0, opened replaced = Some (Some (ino0, raw0)) ∧ configRevision raw0 = revision) →
    put_outcome env ifMatch body rt d response rt' d'
| PutRefused :
    unchanged_or_degraded rt rt' (rs_status response) → rs_status response ≠ 200 →
    d_config d' = d_config d ∨ d_config d' ∈ request_changes env → d_replaced d' = d_replaced d →
    put_outcome env ifMatch body rt d response rt' d'.

Lemma refuse_unchanged rt status : runtime_ok rt → unchanged_or_degraded rt rt status.
Proof. intros [? _]. split; [done|]. left. split_and!; [done|by apply mgr_inv_serving|done]. Qed.

(** A request that ends before the candidate is staged. *)
Lemma put_early env ifMatch body rt d response d' :
  rs_status response ≠ 200 → (d_config d' = d_config d ∨ d_config d' ∈ request_changes env) → d_replaced d' = d_replaced d →
  (temps_work env d → d_temps d' = d_temps d) → runtime_ok rt →
  runtime_ok rt ∧ put_outcome env ifMatch body rt d response rt d' ∧ (temps_work env d → d_temps d' = d_temps d).
Proof. intros. split_and!; [done| |done]. apply PutRefused; try done. by apply refuse_unchanged. Qed.

Lemma denied_status rt info denied : authorizeConfigWrite rt info = Some denied → rs_status denied ≠ 200.
Proof. unfold authorizeConfigWrite, authorizeWrite. repeat case_match; by intros [= <-]. Qed.

Lemma put_effect env info ifMatch body rt d response rt' d' :
  runtime_ok rt → putRulesConfig env info ifMatch body rt d = (response, rt', d') →
  runtime_ok rt' ∧ put_outcome env ifMatch body rt d response rt' d' ∧ (temps_work env d → d_temps d' = d_temps d).
Proof.
  intros Hrt. unfold putRulesConfig.
  destruct (authorizeConfigWrite rt info) as [denied|] eqn:Ha.
  { intros [= <- <- <-]. apply put_early; auto. by eapply denied_status. }
  destruct (requestRevision ifMatch) as [revision|e] eqn:Hrev; [|intros [= <- <- <-]; apply put_early; auto; by destruct e].
  destruct (decodeRulesConfigRequest body) as [draft|e] eqn:Hdraft; [|intros [= <- <- <-]; apply put_early; auto; by destruct e].
  unfold prepareRulesCandidate. destruct (loadConfigDocument _ _ d) as [loaded d1] eqn:Hl.
  apply load_effect in Hl as [[Hc1 Hr1 Ht1] Hdoc].
  assert (d_config d1 = d_config d ∨ d_config d1 ∈ request_changes env) as Hc1'.
  { destruct Hc1; [by left|right]. by apply elem_of_app; left. }
  destruct loaded as [document|e]; [|intros [= <- <- <-]; apply put_early; auto; by destruct e].
  destruct (Hdoc document eq_refl) as (Hdparse & Hdrev & _ & _ & _).
  case_bool_decide as Hne; [by intros [= <- <- <-]; apply put_early; auto|]. simpl.
  destruct (BuildCandidate document _) as [candidate|e] eqn:Hb;
    [|by intros [= <- <- <-]; apply put_early; auto].
  pose proof (build_effect _ _ _ Hb) as (Hparse & Hsrc & _).
  assert (doc_Revision document = revision) as Hdr by (destruct (decide (doc_Revision document = revision)); [done|by destruct Hne]).
  case_match; [intros [= <- <- <-]; by apply put_early; auto|].
  destruct (Stage (pe_stage env) candidate d1) as [staged d2] eqn:Hst. apply stage_effect in Hst as (Hc2 & Hr2 & Hst).
  assert (d_config d2 = d_config d ∨ d_config d2 ∈ request_changes env) as Hc2'.
  { destruct Hc2 as [->|]; [done|right]. apply elem_of_app. right. apply elem_of_app. by left. }
  destruct staged as [s|e].
  2: { intros [= <- <- <-]. apply put_early; auto; [by destruct e|congruence|].
       intros (Hrm & _ & Hfr). rewrite <-Ht1. apply Hst; [done|]. by rewrite Ht1. }
  destruct Hst as (ino & Hcreate & Ht2 & Htemp & Hsgs & Hdone & Hcom).
  destruct (apply_and_commit env candidate s rt d2) as [[[response' rt1] s1] d3] eqn:Hac.
  apply (apply_and_commit_effect _ _ _ _ _ _ _ _ _ ino (cand_raw candidate)) in Hac as [Hok Hac];
    [|done|by eapply Parse_limit|done|done|done|by rewrite Ht2, lookup_insert_eq].
  intros [= <- <- <-]. split; [done|].
  assert (temps_work env d → delete ino (d_temps d2) = d_temps d) as Hclean.
  { intros (_ & _ & Hfr). rewrite Ht2, Ht1. apply delete_insert_id. by apply Hfr. }
  destruct (Committed s1).
  - destruct Hac as (Hserves & Hd1 & Hstatus & Hcfg & Htemps & e & Hrep & Hwin).
    rewrite discard_closed by done. split; [|intros Hw; simpl; rewrite Htemps; by apply Hclean].
    eapply (PutCommitted _ _ _ _ _ _ _ _ candidate revision ino e); try done.
    + exists document, draft. split_and!; congruence.
    + simpl. by rewrite Hrep, Hr2, Hr1.
    + intros Hno. destruct (Hwin Hno) as (raw0 & Hop & Hrw). exists (sg_target s), raw0. split; [done|].
      rewrite Hrw, Hsgs, Hsrc. destruct (decide (doc_Revision document = revision)); [done|]. by destruct Hne.
  - destruct Hac as (Hun & Hne200 & [Hc3 Hr3 Ht3] & Hd1 & Htemp1).
    destruct (Discard (pe_discard env) s1 d3) as [s2 d4] eqn:Hdis.
    destruct (discard_effect _ _ ino _ _ _ Hd1 Htemp1 Hdis) as (Hc4 & Hr4 & Ht4). simpl. split.
    + apply PutRefused; try done; [|congruence]. rewrite Hc4.
      destruct Hc3 as [->|]; [done|right]. apply elem_of_app. right. apply elem_of_app. by right.
    + intros Hw. rewrite Ht4 by apply Hw. rewrite Ht3. by apply Hclean.
Qed.

(** C4: how a write of the rules can end, whatever other processes do to the file
    and whichever system call or rule fails. (1) Committed: the file holds the
    document rendered for this request, it parses, and the daemon serves it: its
    enabled rules run, the live listeners are exactly theirs, the session limit is
    the file's; the answer is 200, or 503 and degraded when only the durability is
    in doubt. (2) Refused: the server wrote nothing to the file, the answer is not
    200, and the daemon runs the rules, listeners and limit it had. (3) Refused
    with a rollback that failed: nothing was written and the limit is the previous
    one, but some rule may be missing; the answer is 503 and the daemon is marked
    degraded. *)
Theorem put_rules_atomic env info ifMatch body rt d response rt' d' :
  runtime_ok rt → putRulesConfig env info ifMatch body rt d = (response, rt', d') →
  let unwritten := d_replaced d' = d_replaced d ∧ (d_config d' = d_config d ∨ d_config d' ∈ request_changes env) in
  let limit_kept := limit_of (rt_Manager rt') = limit_of (rt_Manager rt) in
  runtime_ok rt' ∧
  ((∃ revision candidate ino, requestRevision ifMatch = Ok revision ∧ candidate_of env body revision candidate ∧
      d_config d' = Regular ino (cand_raw candidate) ∧ Parse (cand_raw candidate) = Ok (cand_Config candidate) ∧
      serves (cand_Config candidate) rt' ∧
      ((rs_status response = 200 ∧ rt_degraded rt' = false) ∨ (rs_status response = 503 ∧ rt_degraded rt' = true))) ∨
   (unwritten ∧ limit_kept ∧ rs_status response ≠ 200 ∧ rt_degraded rt' = rt_degraded rt ∧
      rules_of (rt_Manager rt') = rules_of (rt_Manager rt) ∧ serving (rt_Manager rt') (rules_of (rt_Manager rt))) ∨
   (unwritten ∧ limit_kept ∧ rs_status response = 503 ∧ rt_degraded rt' = true)).
Proof.
  intros Hrt H. destruct (put_effect _ _ _ _ _ _ _ _ _ Hrt H) as (Hok & Hout & _). split; [done|].
  destruct Hout as [candidate revision ino replaced|[Hl [(Hr & Hs & Hd)|[Hs Hd]]] Hst Hc Hrep]; [left|right; left|right; right].
  - exists revision, candidate, ino. by split_and!.
  - by split_and!.
  - by split_and!.
Qed.

(** C5: a write loses no update, as long as no other process changes the file
    between the server's last check and its rename (see [late_edit_is_overwritten]
    for what happens then). It replaces at most one document, the one whose
    revision the client named in [If-Match]; and no temporary file is left behind
    when temporary files can be removed. *)
Theorem put_rules_no_lost_update env info ifMatch body rt d response rt' d' :
  runtime_ok rt → putRulesConfig env info ifMatch body rt d = (response, rt', d') → cm_window (pe_commit env) = None →
  (d_replaced d' = d_replaced d ∨
   ∃ replaced ino raw revision, d_replaced d' = d_replaced d ++ [replaced] ∧ opened replaced = Some (Some (ino, raw)) ∧
     requestRevision ifMatch = Ok revision ∧ configRevision raw = revision) ∧
  (temps_work env d → d_temps d' = d_temps d).
Proof.
  intros Hrt H Hw. destruct (put_effect _ _ _ _ _ _ _ _ _ Hrt H) as (_ & Hout & Htemps). split; [|done].
  destruct Hout as [candidate revision ino replaced Hrev _ _ _ _ _ Hrep Hwin|]; [right|by left].
  destruct (Hwin Hw) as (ino0 & raw0 & ? & ?). eauto 10.
Qed.

(** ** Reload *)

(** The settings a running daemon cannot change, by the name a reload reports,
    with what it takes for each to be unchanged. *)
Definition startup_settings (current next : File) : list (string * Prop) := [
  ("control_port", cf_ControlPort current = cf_ControlPort next);
  ("control_tls", cf_ControlTLS current = cf_ControlTLS next);
  ("log", cf_Log current = cf_Log next);
  ("auth", cf_Auth current = cf_Auth next);
  ("bot_token", TrimSpace (cf_BotToken current) = TrimSpace (cf_BotToken next));
  ("bot_chat", cf_BotChat current = cf_BotChat next);
  ("bot_control_token", TrimSpace (cf_BotControlToken current) = TrimSpace (cf_BotControlToken next));
  ("acme", cf_AcmeChallenge current = cf_AcmeChallenge next ∧ cf_AcmeHTTP01Addr current = cf_AcmeHTTP01Addr next ∧
           cf_AcmeCacheDir current = cf_AcmeCacheDir next ∧ cf_AcmeDNS01 current = cf_AcmeDNS01 next);
  ("cert_cache_dir", cf_CertCacheDir current = cf_CertCacheDir next);
  ("cert_review", cf_CertReview current = cf_CertReview next);
  ("stats", cf_Stats current = cf_Stats next)].

Lemma field_exact (b : bool) (name f : string) (kept : Prop) :
  (b = true ↔ ¬ kept) → f ∈ (if b then [name] else []) ↔ name = f ∧ ¬ kept.
Proof.
  intros Hb. destruct b.
  - rewrite list_elem_of_singleton. split; [intros ->; split; [done|by apply Hb]|by intros [-> _]].
  - rewrite elem_of_nil. split; [done|]. intros [_ Hk]. by apply Hb in Hk.
Qed.

(** The reported names are exactly those of the settings that differ. *)
Lemma restart_fields_exact current next name :
  name ∈ restartRequiredFields (Some current) next ↔
    Exists (λ setting, setting.1 = name ∧ ¬ setting.2) (startup_settings current next).
Proof.
  assert (∀ (P : Prop) `{Decision P}, bool_decide (¬ P) = true ↔ ¬ P) as Hdiff.
  { intros P ?. by rewrite bool_decide_eq_true. }
  assert (∀ a b : Z, negb (a =? b) = true ↔ a ≠ b) as Hz.
  { intros a b. rewrite negb_true_iff. apply Z.eqb_neq. }
  unfold restartRequiredFields, startup_settings, botSettingsFromConfig, normalizeBotSettings. simpl.
  rewrite !Exists_cons, Exists_nil, !elem_of_app. simpl.
  rewrite (field_exact _ "control_port" name _ (Hz _ _)), (field_exact _ "control_tls" name _ (Hdiff _ _)),
    (field_exact _ "log" name _ (Hdiff _ _)), (field_exact _ "auth" name _ (Hdiff _ _)),
    (field_exact _ "bot_token" name _ (Hdiff _ _)), (field_exact _ "bot_chat" name _ (Hz _ _)),
    (field_exact _ "bot_control_token" name _ (Hdiff _ _)), (field_exact _ "cert_cache_dir" name _ (Hdiff _ _)),
    (field_exact _ "cert_review" name _ (Hdiff _ _)), (field_exact _ "stats" name _ (Hdiff _ _)).
  rewrite (field_exact _ "acme" name
    (cf_AcmeChallenge current = cf_AcmeChallenge next ∧ cf_AcmeHTTP01Addr current = cf_AcmeHTTP01Addr next ∧
     cf_AcmeCacheDir current = cf_AcmeCacheDir next ∧ cf_AcmeDNS01 current = cf_AcmeDNS01 next)).
  - tauto.
  - rewrite !orb_true_iff, !bool_decide_eq_true.
    destruct (decide (cf_AcmeChallenge current = cf_AcmeChallenge next)),
      (decide (cf_AcmeHTTP01Addr current = cf_AcmeHTTP01Addr next)),
      (decide (cf_AcmeCacheDir current = cf_AcmeCacheDir next)),
      (decide (cf_AcmeDNS01 current = cf_AcmeDNS01 next)); tauto.
Qed.

Lemma restart_fields_none startup next :
  restartRequiredFields startup next = [] →
  ∀ current, startup = Some current → Forall (λ setting, setting.2) (startup_settings current next).
Proof.
  intros Hf current ->.
  assert (∀ (P : Prop) `{Decision P}, P ∨ ¬ P) as Hdec by (intros P ?; destruct (decide P); [by left|by right]).
  assert (Forall (λ setting, setting.2 ∨ ¬ setting.2) (startup_settings current next)) as Hor.
  { unfold startup_settings. repeat (apply Forall_cons_2; [simpl; apply Hdec; apply _|]). by apply Forall_nil. }
  rewrite Forall_forall in Hor |- *. intros [name kept] Hin. destruct (Hor _ Hin) as [Hk|Hk]; [done|]. exfalso.
  assert (name ∈ restartRequiredFields (Some current) next) as Hn.
  { apply restart_fields_exact, Exists_exists. by exists (name, kept). }
  rewrite Hf in Hn. by apply elem_of_nil in Hn.
Qed.

(** How a reload can end; [loaded] is what the file says at that moment. *)
Definition reload_result (loaded : result ConfigError File) rt rt' (out : result ReloadError (File * ApplyResult)) : Prop :=
  match out with
  | Ok (cfg, _) =>
      loaded = Ok cfg ∧ serves cfg rt' ∧ rt_degraded rt' = false ∧
      ∀ current, rt_StartupConfig rt = Some current → Forall (λ setting, setting.2) (startup_settings current cfg)
  | Err (ReloadLoad e) => loaded = Err e ∧ rt' = rt
  | Err (ReloadPrecheck check) => OK check = false ∧ rt' = rt
  | Err (RestartRequired fields) =>
      rt' = rt ∧ fields ≠ [] ∧ ∃ current cfg, rt_StartupConfig rt = Some current ∧ loaded = Ok cfg ∧
      ∀ name, name ∈ fields ↔ Exists (λ setting, setting.1 = name ∧ ¬ setting.2) (startup_settings current cfg)
  | Err (ReloadApply transaction) =>
      is_Some (tx_Failure transaction) ∧ limit_of (rt_Manager rt') = limit_of (rt_Manager rt) ∧ rt_degraded rt' = true ∧
      (rb_Failed (Rollback transaction) = false →
         rules_of (rt_Manager rt') = rules_of (rt_Manager rt) ∧ serving (rt_Manager rt') (rules_of (rt_Manager rt)))
  end.

Lemma Load_limit readFile path cfg : Load readFile path = Ok cfg → 1 ≤ cf_UDPMaxSessions cfg ≤ MaxUDPGlobalMaxSessions.
Proof.
  unfold Load. cbv zeta. rewrite guard_Ok. intros [_ H]. destruct (readFile _) as [raw|]; [|done]. by eapply Parse_limit.
Qed.

(** What the file says when a reload reads it. *)
Definition loaded_file (env : ReloadEnv) rt d : result ConfigError File :=
  Load (λ _, read_file (rl_file env) (external (fe_before (rl_file env)) d)) (rt_ConfigPath rt).

Lemma PrecheckRuntime_effect env rt d checked d' : PrecheckRuntime env rt d = (checked, d') →
  d' = external (fe_before (rl_file env)) d ∧
  match checked with
  | Ok (cfg, check) => loaded_file env rt d = Ok cfg
  | Err e => loaded_file env rt d = Err e
  end.
Proof.
  unfold PrecheckRuntime. intros [= <- <-]. split; [done|]. unfold loaded_file.
  by destruct (Load _ _).
Qed.

(** Applying the rules of the file with its limit. *)
Lemma reload_apply_effect cfg rt m1 transaction :
  let m := rt_Manager rt in
  let lowered := cf_UDPMaxSessions cfg <? limit_of m in
  let m0 := if lowered then SetUDPMaxSessions (cf_UDPMaxSessions cfg) m else m in
  runtime_ok rt → 1 ≤ cf_UDPMaxSessions cfg ≤ MaxUDPGlobalMaxSessions →
  ApplySnapshotTransactional (cf_Rules cfg) true m0 = (transaction, m1) →
  mgr_inv m1 ∧ limit_ok m1 ∧ limit_of m1 = limit_of m0 ∧
  match tx_Failure transaction with
  | None => applied_rules (cf_Rules cfg) true (rules_of m) (rules_of m1)
  | Some _ => rb_Failed (Rollback transaction) = false → rules_of m1 = rules_of m
  end.
Proof.
  intros m lowered m0 [Hinv Hlim] Hs.
  assert (mgr_inv m0 ∧ limit_ok m0 ∧ rules_of m0 = rules_of m) as (Hinv0 & Hlim0 & Hr0).
  { unfold m0. destruct lowered; [|done]. by destruct (set_limit _ m Hs Hinv) as (? & ? & _ & ?). }
  pose proof (Begin_effect (cf_Rules cfg) m0 Hinv0) as Hb. unfold ApplySnapshotTransactional.
  destruct (BeginApplySnapshotTransactional (cf_Rules cfg) true m0) as [[pending t] m1'].
  intros [= -> ->]. destruct Hb as (Hinv1 & Hl1 & Hb).
  assert (limit_ok m1) as Hlim1. { unfold limit_ok, limit_of in *. simpl in Hl1. by rewrite Hl1. }
  rewrite Hr0 in Hb. split_and!; [done..|].
  destruct (tx_Failure transaction); [done|]. destruct pending; [|done]. by destruct Hb.
Qed.

Lemma set_limit_when (b : bool) n m : 1 ≤ n ≤ MaxUDPGlobalMaxSessions → mgr_inv m → limit_ok m →
  let m' := if b then SetUDPMaxSessions n m else m in
  mgr_inv m' ∧ limit_ok m' ∧ limit_of m' = (if b then n else limit_of m) ∧ rules_of m' = rules_of m.
Proof. intros Hn Hinv Hl m'. unfold m'. destruct b; [by apply set_limit|done]. Qed.

Lemma reload_effect env rt d out rt' d' :
  runtime_ok rt → Reload env rt d = (out, rt', d') →
  runtime_ok rt' ∧ d' = external (fe_before (rl_file env)) d ∧ reload_result (loaded_file env rt d) rt rt' out.
Proof.
  intros Hrt. unfold Reload. destruct (PrecheckRuntime env rt d) as [checked d1] eqn:Hp.
  apply PrecheckRuntime_effect in Hp as [-> Hload].
  destruct checked as [[cfg checkResult]|e]; [|by intros [= <- <- <-]].
  destruct (OK checkResult) eqn:Hok; [|by intros [= <- <- <-]]. cbn [negb].
  destruct (restartRequiredFields _ cfg) as [|f fs] eqn:Hfields.
  2: { intros [= <- <- <-]. split; [done|]. split; [done|]. split; [done|]. split; [done|].
       destruct (rt_StartupConfig rt) as [current|] eqn:Hc; [|done]. exists current, cfg. split; [done|]. split; [done|].
       intros name. rewrite <- Hfields. apply restart_fields_exact. }
  pose proof (restart_fields_none _ _ Hfields) as Hkept.
  pose proof Hload as Hs. unfold loaded_file in Hs. apply Load_limit in Hs. cbv zeta. fold (limit_of (rt_Manager rt)).
  destruct (ApplySnapshotTransactional _ true _) as [transaction m1] eqn:Happly.
  destruct (reload_apply_effect cfg rt m1 transaction Hrt Hs Happly) as (Hinv1 & Hlim1 & Hl1 & Hres).
  pose proof (proj2 Hrt : 1 ≤ limit_of (rt_Manager rt) ≤ MaxUDPGlobalMaxSessions) as Hprev.
  destruct (set_limit_when (cf_UDPMaxSessions cfg <? limit_of (rt_Manager rt)) _ _ Hs (proj1 Hrt) (proj2 Hrt)) as (_ & _ & Hl0 & _).
  rewrite Hl0 in Hl1. destruct (tx_Failure transaction) as [f|] eqn:Hf.
  - destruct (set_limit_when (cf_UDPMaxSessions cfg <? limit_of (rt_Manager rt)) _ m1 Hprev Hinv1 Hlim1) as (Hi & Hlk & Hlo & Hru).
    intros [= <- <- <-]. split; [done|]. split; [done|]. simpl. rewrite Hf. split_and!; [by eexists| |done|].
    + rewrite Hlo. destruct (_ <? _); [done|]. by rewrite Hl1.
    + intros E. specialize (Hres E). rewrite <- Hres, <- Hru. split; [done|by apply mgr_inv_serving].
  - destruct (set_limit_when (limit_of (rt_Manager rt) <? cf_UDPMaxSessions cfg) _ m1 Hs Hinv1 Hlim1) as (Hi & Hlk & Hlo & Hru).
    intros [= <- <- <-]. split; [done|]. split; [done|]. simpl. split_and!; [done| |done|done].
    apply (applied_serves _ (rules_of (rt_Manager rt))); simpl; [done|by rewrite Hru|]. rewrite Hlo, Hl1.
    destruct (Z.ltb_spec (limit_of (rt_Manager rt)) (cf_UDPMaxSessions cfg)), (Z.ltb_spec (cf_UDPMaxSessions cfg) (limit_of (rt_Manager rt))); lia.
Qed.


(** ** The bot's settings *)

Lemma named_field (b : bool) (name f : string) : f ∈ (if b then [name] else []) → f = name ∧ b = true.
Proof. destruct b; [by intros ->%list_elem_of_singleton|by intros []%elem_of_nil]. Qed.

Definition bot_fields : list string := ["bot_token"; "bot_chat"; "bot_control_token"].

(** With the baseline updated, a reload of the committed file does not ask for a
    restart because of the bot. *)
Lemma baseline_bot_fields cfg startup f :
  f ∈ bot_fields → f ∉ restartRequiredFields (updateBotBaseline cfg startup) cfg.
Proof.
  intros Hf. destruct startup as [file|]; [|by intros []%elem_of_nil]. simpl.
  assert (∀ (b1 b2 b3 b4 b5 b6 b7 b8 : bool), f ∉
    (if b1 then ["control_port"] else []) ++ (if b2 then ["control_tls"] else []) ++ (if b3 then ["log"] else []) ++
    (if b4 then ["auth"] else []) ++ [] ++ [] ++ [] ++ (if b5 then ["acme"] else []) ++ (if b6 then ["cert_cache_dir"] else []) ++
    (if b7 then ["cert_review"] else []) ++ (if b8 then ["stats"] else [])) as Hnot.
  { intros. rewrite !elem_of_app. unfold bot_fields in Hf. rewrite !elem_of_cons, elem_of_nil in Hf.
    destruct Hf as [->|[->|[->|[]]]]; intros H;
      repeat (destruct H as [H|H]; [first [by apply named_field in H as [H _]|by apply elem_of_nil in H]|]); by apply named_field in H as [H _]. }
  unfold botSettingsFromConfig, normalizeBotSettings. simpl. rewrite !(bool_decide_eq_false_2 (TrimSpace _ ≠ TrimSpace _)), !Z.eqb_refl by naive_solver.
  apply Hnot.
Qed.

(** The settings that a request names. *)
Definition requested (body : result BodyError BotSettings) (settings : BotSettings) : Prop :=
  ∃ draft, decodeBotConfigRequest body = Ok draft ∧ settings = normalizeBotSettings draft.

(** The bot after a write that did not commit; [previous] is the file of the
    revision the client named. *)
Inductive bot_kept (ifMatch : string) (body : result BodyError BotSettings) (b b' : Bot) (response : Response) rt' : Prop :=
| BotUntouched : b' = b → bot_kept ifMatch body b b' response rt'
| BotRejected settings e : requested body settings → bot_apply settings b = (Some e, b') →
    rs_status response = bot_error_status e → bot_kept ifMatch body b b' response rt'
| BotRestored settings b1 raw previous out : requested body settings → bot_apply settings b = (None, b1) →
    requestRevision ifMatch = Ok (configRevision raw) → Parse raw = Ok previous →
    restoreBotRuntime (botSettingsFromConfig previous) (bot_running b) b1 = (out, b') →
    (out ≠ None → rs_status response = 503 ∧ rt_degraded rt' = true) → bot_kept ifMatch body b b' response rt'.

(** How a write of the bot's settings ends. *)
Definition bot_settled ifMatch rt d (b : Bot) body (response : Response) rt' d' : Prop :=
  rt_Manager rt' = rt_Manager rt ∧ ∃ b', rt_Bot rt' = Some b' ∧
  ((∃ settings ino raw cfg, requested body settings ∧ bot_apply settings b = (None, b') ∧
      (rs_status response = 200 ∨ (rs_status response = 503 ∧ rt_degraded rt' = true)) ∧
      d_config d' = Regular ino raw ∧ Parse raw = Ok cfg ∧
      ∀ f, f ∈ bot_fields → f ∉ restartRequiredFields (rt_StartupConfig rt') cfg) ∨
   (d_replaced d' = d_replaced d ∧ rs_status response ≠ 200 ∧ rt_StartupConfig rt' = rt_StartupConfig rt ∧
    bot_kept ifMatch body b b' response rt')).

Lemma bot_refused ifMatch rt d b body response d' : rt_Bot rt = Some b → rs_status response ≠ 200 → d_replaced d' = d_replaced d →
  bot_settled ifMatch rt d b body response rt d'.
Proof. intros. split; [done|]. exists b. split; [done|]. right. split_and!; [done..|]. by apply BotUntouched. Qed.

(** The part under the lock, once the candidate is staged. *)
Lemma bot_apply_and_commit_effect ifMatch env document candidate body settings b s rt d0 d response rt' s' d' ino :
  requested body settings → requestRevision ifMatch = Ok (configRevision (doc_raw document)) →
  Parse (doc_raw document) = Ok (doc_Config document) →
  Parse (cand_raw candidate) = Ok (cand_Config candidate) →
  sg_done s = false → sg_temp s = Some ino → sg_committed s = false → d_temps d !! ino = Some (cand_raw candidate) →
  d_replaced d = d_replaced d0 →
  bot_apply_and_commit env document candidate settings b s rt d = (response, rt', s', d') →
  bot_settled ifMatch rt d0 b body response rt' (Discard (pe_discard env) s' d').2.
Proof.
  intros Hreq Hrev Hdoc Hparse Hdone Htemp Hcom Ht2 Hr0. unfold bot_apply_and_commit. cbv zeta.
  destruct (bot_apply settings b) as [[e|] b1] eqn:Happ.
  { intros [= <- <- <- <-]. split; [done|]. exists b1. split; [done|]. right.
    destruct (discard_effect (pe_discard env) s ino d _ _ Hdone Htemp (surjective_pairing _)) as (_ & Hr3 & _).
    split_and!; [congruence|by destruct e|done|]. by apply (BotRejected _ _ _ _ _ _ settings e). }
  destruct (CommitStaged (pe_commit env) s d) as [[out s1] d1] eqn:Hcommit.
  pose proof (commit_effect _ _ _ (cand_raw candidate) _ _ _ _ Hdone Htemp Hcom Ht2 Hcommit) as Hce.
  destruct (Committed s1) eqn:Hcs.
  - destruct Hce as (_ & Hdone1 & Hcfg & _).
    destruct out as [e|]; intros [= <- <- <- <-]; rewrite discard_closed by done; (split; [done|]); exists b1;
      (split; [done|]); left; exists settings, ino, (cand_raw candidate), (cand_Config candidate);
      split_and!; try done; try (by left); try (by right); intros f; apply baseline_bot_fields.
  - destruct Hce as (Hsome & [_ Hr3 _] & Hdone1 & Htemp1). destruct out as [e|]; [|by destruct Hsome].
    destruct (restoreBotRuntime (botSettingsFromConfig (doc_Config document)) (bot_running b) b1) as [re b2] eqn:Hre.
    destruct (discard_effect (pe_discard env) s1 ino d1 _ _ Hdone1 Htemp1 (surjective_pairing _)) as (_ & Hr4 & _).
    destruct re as [e'|]; intros [= <- <- <- <-]; (split; [done|]); exists b2; (split; [done|]); right;
      split_and!; try done; try congruence; try (by destruct e);
      by eapply (BotRestored _ _ _ _ _ _ settings b1 (doc_raw document) (doc_Config document) _).
Qed.

(** Saving the bot's settings keeps file, bot and baseline together.
    Either the file holds a new document, the bot has accepted the settings, and
    a reload of that document does not ask for a restart because of the bot; or
    the server wrote nothing, the baseline is unchanged, and the bot is the one
    it was, the one that rejected the settings, or the one restored to the
    previous settings (stopped, when it was not running). The rules are not
    touched. *)
Theorem put_bot_commits_or_restores env info ifMatch body rt d b response rt' d' :
  rt_Bot rt = Some b → putBotConfig env info ifMatch body rt d = (response, rt', d') →
  bot_settled ifMatch rt d b body response rt' d'.
Proof.
  intros Hbot. unfold putBotConfig.
  destruct (authorizeConfigWrite rt info) as [denied|] eqn:Ha.
  { intros [= <- <- <-]. apply bot_refused; [done|by eapply denied_status|done]. }
  destruct (requestRevision ifMatch) as [revision|e] eqn:Hrevision; [|intros [= <- <- <-]; apply bot_refused; [done|by destruct e|done]].
  destruct (decodeBotConfigRequest body) as [draft|e] eqn:Hdec; [|by intros [= <- <- <-]; apply bot_refused].
  rewrite Hbot. cbv zeta.
  destruct (loadConfigDocument _ _ d) as [loaded d1] eqn:Hl. apply load_effect in Hl as [[_ Hr1 _] Hdoc].
  destruct loaded as [document|e]; [|by intros [= <- <- <-]; apply bot_refused]. destruct (bool_decide (doc_Revision document = revision)) eqn:Hsame; [|by intros [= <- <- <-]; apply bot_refused].
  apply bool_decide_eq_true in Hsame. cbn [negb].
  destruct (BuildBotCandidate document _) as [candidate|e] eqn:Hb; [|by intros [= <- <- <-]; apply bot_refused].
  destruct (Stage (pe_stage env) candidate d1) as [staged d2] eqn:Hst. apply stage_effect in Hst as (_ & Hr2 & Hst).
  destruct staged as [s|e]; [|intros [= <- <- <-]; apply bot_refused; [done|done|congruence]].
  destruct Hst as (ino & _ & Ht2 & Htemp & _ & Hdone & Hcom).
  assert (Parse (cand_raw candidate) = Ok (cand_Config candidate)) as Hparse.
  { unfold BuildBotCandidate in Hb. apply guard_Ok in Hb as [_ Hb]. apply bind_Ok in Hb as (r & _ & Hb).
    apply bind_Ok in Hb as (c & Hc & [= <-]). simpl. unfold parse_step in Hc. destruct (Parse r); [|done]. by injection Hc as ->. }
  destruct (bot_apply_and_commit env document candidate _ b s rt d2) as [[[response' rt1] s1] d3] eqn:Hac.
  intros [= <- <- <-].
  apply (bot_apply_and_commit_effect ifMatch env document candidate body (normalizeBotSettings draft) b s rt d d2 response' rt1 s1 d3 ino);
    [by exists draft|rewrite Hrevision, <- Hsame; f_equal; by destruct (Hdoc document eq_refl) as (_ & ? & _)|by destruct (Hdoc document eq_refl)|done..|by rewrite Ht2, lookup_insert_eq|congruence|done].
Qed.
End management.

(** ** A concrete daemon

    The file is the text "one" or "two"; saving another session limit turns the
    first into the second. *)

#[local] Existing Instance utc_database.
#[local] Existing Instance port_net.

Definition managed_file (sessions : Z) : File := {|
  cf_Version := 1; cf_Language := ""; cf_InvalidLanguage := ""; cf_ControlPort := 0; cf_DeprecatedControlListenAddr := "";
  cf_UsedDeprecatedControlListenAddr := false; cf_UDPMaxSessions := sessions;
  cf_ControlTLS := {| tls_CertFile := ""; tls_KeyFile := ""; tls_ClientCAFile := ""; tls_MinVersion := "" |};
  cf_Log := {| log_Level := ""; log_Format := "" |}; cf_Auth := {| ac_Enabled := false; ac_Tokens := [] |};
  cf_BotToken := ""; cf_BotChat := 0; cf_BotControlToken := ""; cf_AcmeChallenge := ""; cf_AcmeHTTP01Addr := "";
  cf_AcmeCacheDir := ""; cf_AcmeDNS01 := zero_dns01; cf_CertCacheDir := "";
  cf_CertReview := {| cr_WarningDays := 0; cr_CriticalDays := 0; cr_MinRSABits := 0 |};
  cf_Stats := {| sc_Persist := false; sc_Path := ""; sc_FlushInterval := "" |};
  cf_Rules := [ManagerSpec.sample_rule "web" 8080]; cf_UnknownFields := [] |}.

Definition two_texts : YamlLib := {|
  yaml_parse raw := Ok (Some (YNode ScalarNode raw "" []));
  yaml_decode n :=
    if bool_decide (yn_Value n = "one") then Ok (managed_file 100)
    else if bool_decide (yn_Value n = "two") then Ok (managed_file 200) else Err "not a document" |}.
Definition two_prints : YamlNodes := {|
  yaml_first _ :=
    let node kind content := {| nd_Kind := kind; nd_Style := 0; nd_Tag := ""; nd_Value := ""; nd_Anchor := ""; nd_Alias := None;
                                nd_Content := content; nd_Head := ""; nd_Line := ""; nd_Foot := "" |} in
    Ok ([node DocumentNode [1%nat]; node MappingNode []], 0%nat);
  yaml_next _ := NextEOF; yaml_print _ _ := Ok "two"; yaml_encode _ := Ok (YTree ScalarNode 0 "" "" []);
  decode_rule_id _ _ := Err "no rule" |}.
Fixpoint repeat_char (n : nat) (c : ascii) : string := match n with O => "" | S n => String c (repeat_char n c) end.
Definition two_digests : Sha256 := {| sha256 raw := repeat_char 64 (if bool_decide (raw = "one") then "1" else "2") |}.
Definition quiet_probe : Probe := {| bind_error _ _ _ := None; resolve_error _ _ _ := None |}.
Definition switch_bot : BotController := {|
  Bot := option BotSettings; bot_apply s _ := (None, Some s); bot_stop _ := (None, None);
  bot_running b := bool_decide (is_Some b) |}.
#[local] Existing Instance two_texts.
#[local] Existing Instance two_prints.
#[local] Existing Instance two_digests.
#[local] Existing Instance quiet_probe.
#[local] Existing Instance switch_bot.

Definition quiet_read : ReadEnv := {|
  re_before := None; re_lstat := None; re_between := None; re_open := None; re_stat := None; re_read := None |}.
Definition quiet_stage : StageEnv := {|
  st_read := quiet_read; st_create := Ok 7; st_write := None; st_metadata := None; st_sync := None; st_stat := None;
  st_close := None; st_removed := true |}.
Definition commit_env (window : option entry) (rename : option string) : CommitEnv := {|
  cm_read := quiet_read;
  cm_refresh := {| rf_lstat := Ok (Some 7); rf_open := None; rf_opened := Ok (Some 7); rf_metadata := None; rf_sync := None;
                   rf_stat := Ok 7 |};
  cm_lstat := Ok (Some 7); cm_window := window; cm_rename := rename; cm_syncdir := None |}.
Definition request_env (window : option entry) (rename : option string) : RequestEnv := {|
  pe_load := quiet_read; pe_now := 1000; pe_order := []; pe_stage := quiet_stage; pe_commit := commit_env window rename;
  pe_discard := true |}.

Definition daemon : Runtime := {|
  rt_ConfigPath := "vmflow.yaml"; rt_Manager := NewManagerWithOptions None 100 None ([] : @World port_net);
  rt_Auth := {| a_enabled := true; a_rules := [] |}; rt_PrecheckOptions := None; rt_Bot := Some (None : @Bot switch_bot);
  rt_StartupConfig := Some (managed_file 100); rt_degraded := false; rt_degradedCause := "" |}.
Definition disk : Disk := {| d_config := Regular 3 "one"; d_temps := ∅; d_replaced := [] |}.
Definition admin : option AuthInfo := Some {| ai_Name := "ops"; ai_Role := RoleAdmin |}.
Definition read_etag : string := configETag (configRevision "one").
Definition save_limit : result BodyError rulesConfigRequest :=
  Ok {| rc_UDPMaxSessions := Some 200; rc_Rules := Some [ManagerSpec.sample_rule "web" 8080] |}.

Lemma daemon_ok : runtime_ok daemon.
Proof. split; [apply NewManager_inv|]. unfold limit_ok. vm_compute. by split. Qed.

Definition saved (window : option entry) (rename : option string) : Response * Runtime * Disk :=
  putRulesConfig (request_env window rename) admin read_etag save_limit daemon disk.

(** (finding) a change of the file that falls between the last check and
    the rename is overwritten without a conflict: the write is answered 200
    although the document it replaced has another revision. *)
Theorem late_edit_is_overwritten :
  let '(response, _, d) := saved (Some (Regular 9 "theirs")) None in
  rs_status response = 200 ∧ d_config d = Regular 7 "two" ∧ d_replaced d = [Regular 9 "theirs"] ∧
  configRevision "theirs" ≠ configRevision "one".
Proof. vm_compute. split_and!; done. Qed.

(** (finding) A write of the bot's settings that cannot create its temporary
    file is answered 412, as if the configuration had changed; the write of the
    rules answers 500. *)
Example bot_write_reports_io_as_conflict :
  let full := {| st_read := quiet_read; st_create := Err "no space left on device"; st_write := None; st_metadata := None;
                 st_sync := None; st_stat := None; st_close := None; st_removed := true |} in
  let env := {| pe_load := quiet_read; pe_now := 1000; pe_order := []; pe_stage := full; pe_commit := commit_env None None;
                pe_discard := true |} in
  let settings := {| bs_Token := "t"; bs_ChatID := 1; bs_ControlToken := "" |} in
  rs_status (putBotConfig env admin read_etag (Ok settings) daemon disk).1.1 = 412 ∧
  rs_status (putRulesConfig env admin read_etag save_limit daemon disk).1.1 = 500.
Proof. by vm_compute. Qed.

(** ** Witnesses *)

(** A rename that fails: the daemon goes back to what it was. *)
Lemma put_rules_atomic_witness :
  let '(response, rt, d) := saved None (Some "permission denied") in
  rs_status response = 500 ∧ rules_of (rt_Manager rt) = rules_of (rt_Manager daemon) ∧
  serving (rt_Manager rt) (rules_of (rt_Manager daemon)).
Proof.
  assert (rs_status (saved None (Some "permission denied")).1.1 = 500) as Hs by by vm_compute.
  destruct (saved None (Some "permission denied")) as [[response rt] d] eqn:E. simpl in Hs. unfold saved in E.
  destruct (put_rules_atomic (request_env None (Some "permission denied")) admin read_etag save_limit daemon disk response rt d
    daemon_ok E) as [_ [(r & c & i & _ & _ & _ & _ & _ & [[H _]|[H _]])|[(_ & _ & _ & _ & Hr & Hserve)|(_ & _ & H & _)]]];
    [rewrite Hs in H; discriminate H..|by split_and!|rewrite Hs in H; discriminate H].
Defined.

Lemma put_rules_no_lost_update_witness : d_temps (saved None None).2 = ∅.
Proof.
  destruct (saved None None) as [[response rt] d] eqn:E. unfold saved in E.
  destruct (put_rules_no_lost_update (request_env None None) admin read_etag save_limit daemon disk response rt d
    daemon_ok E eq_refl) as [_ Htemps].
  apply Htemps. by split_and!.
Defined.


Lemma put_bot_commits_or_restores_witness :
  let settings := {| bs_Token := " t "; bs_ChatID := 1; bs_ControlToken := "" |} in
  ∃ response rt d, bot_settled read_etag daemon disk None (Ok settings) response rt d.
Proof.
  intros settings. destruct (putBotConfig (request_env None None) admin read_etag (Ok settings) daemon disk) as [[response rt] d] eqn:E.
  exists response, rt, d.
  by apply (put_bot_commits_or_restores (request_env None None) admin read_etag (Ok settings) daemon disk None response rt d).
Defined.
