(* ===== verification/RequestSpec.v ===== *)
(** * What happens to the rules of a request

    Bookkeeping of revisions and times, the diff shown before a write and what
    the write then does, saving back what was read, and the revision header. *)

From S2P Require Import Prelude GoStrings Calendar NetIP SourceIP Limits Rule Config YamlMerge Stats Quota Manager Precheck ControlAuth Store StoreSpec Management ManagerSpec ConfigSpec ManagementSpec.

Section requests.
Context {tz : TzDatabase} {net : Net} {yl : YamlLib} {yn : YamlNodes} {sha : Sha256}.

(** ** Saving what was read *)

Lemma by_id_go rules (m : gmap string Rule) id :
  foldl (λ m r, <[RuleID r := r]> m) m rules !! id =
  match list.last (filter (λ r, RuleID r = id) rules) with Some r => Some r | None => m !! id end.
Proof.
  revert m. induction rules as [|r rules IH]; intros m; [done|]. cbn [foldl]. rewrite IH.
  destruct (decide (RuleID r = id)) as [<-|Hne].
  - rewrite filter_cons_True by done. rewrite last_cons, lookup_insert_eq. by destruct (list.last _).
  - rewrite filter_cons_False by done. by rewrite lookup_insert_ne by done.
Qed.

Lemma by_id_lookup rules id rule : NoDup (RuleID <$> rules) → rule ∈ rules → RuleID rule = id → by_id rules !! id = Some rule.
Proof.
  intros Hnd Hin Hid. unfold by_id. rewrite by_id_go.
  assert (filter (λ r, RuleID r = id) rules = [rule]) as ->; [|done].
  induction rules as [|r rules IH]; [by apply elem_of_nil in Hin|]. apply NoDup_cons in Hnd as [Hnew Hnd].
  assert (∀ x, x ∈ rules → RuleID x ≠ RuleID r) as Hne.
  { intros x Hx E. apply Hnew. change (RuleID r ∈ RuleID <$> rules). rewrite <-E. by apply list_elem_of_fmap_2. }
  apply elem_of_cons in Hin as [->|Hin].
  - rewrite filter_cons_True by done. f_equal. destruct (filter _ rules) as [|x l] eqn:E; [done|]. exfalso.
    assert (x ∈ filter (λ r0, RuleID r0 = id) rules) as [Hx Hxr]%list_elem_of_filter by (rewrite E; left).
    apply (Hne x Hxr). congruence.
  - rewrite filter_cons_False; [by apply IH|]. intros E. apply (Hne rule Hin). congruence.
Qed.

Lemma bookkeeping_id r : with_bookkeeping (Revision r) (CreatedTime r) (UpdatedTime r) r = r.
Proof. by destruct r. Qed.
Lemma bookkeeping_bookkeeping a b c a' b' c' r :
  with_bookkeeping a b c (with_bookkeeping a' b' c' r) = with_bookkeeping a b c r.
Proof. done. Qed.
Lemma Standardize_bookkeeping a b c r : Standardize (with_bookkeeping a b c r) = with_bookkeeping a b c (Standardize r).
Proof. done. Qed.

(** Rules sent back as they were read are left alone. *)
Lemma prepare_unchanged rules timestamp : Forall standard rules → NoDup (RuleID <$> rules) →
  prepareManagedRules rules rules timestamp = rules.
Proof.
  intros Hstd Hnd. unfold prepareManagedRules. apply list_eq. intros i. rewrite list_lookup_fmap.
  destruct (rules !! i) as [r|] eqn:Hi; [|done]. simpl. f_equal.
  rewrite Forall_forall in Hstd. apply list_elem_of_lookup_2 in Hi. pose proof (Hstd r Hi) as Hs. unfold standard in Hs.
  unfold prepare_rule. cbv zeta. rewrite Hs. rewrite (by_id_lookup rules _ r); [|done|done|done].
  unfold ruleConfigEqual. rewrite Standardize_bookkeeping, Hs, bookkeeping_bookkeeping, bool_decide_eq_true_2 by done.
  rewrite bookkeeping_bookkeeping. apply bookkeeping_id.
Qed.

(** C39: saving what was read changes nothing. A client that sends back the
    rules and the session limit of the document it was shown gets a candidate
    that is byte for byte the file, with the same configuration: comments,
    formatting and the revision survive. *)
Theorem saving_unchanged_is_identity env path d document d' timestamp :
  loadConfigDocument env path d = (Ok document, d') →
  ∃ candidate,
    BuildCandidate document {|
      dr_Rules := prepareManagedRules (cf_Rules (doc_Config document)) (cf_Rules (doc_Config document)) timestamp;
      dr_UDPMaxSessions := cf_UDPMaxSessions (doc_Config document) |} = Ok candidate ∧
    cand_raw candidate = doc_raw document ∧ cand_Config candidate = doc_Config document ∧
    cand_sourceRevision candidate = doc_Revision document.
Proof.
  intros [_ Hdoc]%load_effect. destruct (Hdoc _ eq_refl) as (Hparse & _ & Hpath & Hne & Hraw).
  destruct (Parse_normal _ _ Hparse) as (f & [Ha Hn]%normalize_inv).
  rewrite prepare_unchanged.
  - destruct (build_same document Hparse) as (c & ? & ? & ? & _ & ?); [rewrite Hpath, TrimSpace_idemp; done|done|]. by exists c.
  - rewrite (nf_rules _ _ Hn). apply Forall_fmap, Forall_true. intros r. apply Standardize_standard.
  - rewrite (nf_rules _ _ Hn), <-list_fmap_compose. apply (acc_ids _ Ha).
Qed.
(** ** Bookkeeping *)

Lemma by_id_inv rules id r : by_id rules !! id = Some r → r ∈ rules ∧ RuleID r = id.
Proof.
  unfold by_id. rewrite by_id_go. destruct (list.last _) as [x|] eqn:E; [|by rewrite lookup_empty].
  intros [= ->]. apply last_Some_elem_of, list_elem_of_filter in E. naive_solver.
Qed.

Lemma prepare_rule_id m t r : RuleID (prepare_rule m t r) = TrimSpace (RuleID r).
Proof. unfold prepare_rule. cbv zeta. by repeat case_match. Qed.

Lemma prepare_rule_config m t r :
  with_bookkeeping 0 0 0 (prepare_rule m t r) = with_bookkeeping 0 0 0 (Standardize r).
Proof. unfold prepare_rule. cbv zeta. by repeat case_match. Qed.

(** the daemon keeps the books of a managed rule. Whatever revision and
    times a client sends are ignored; a new rule starts at revision 1 with both
    times set to now; a rule whose configuration did not change keeps its
    revision and times; a rule that changed gets the next revision (1 after an
    overflow), a new update time, and keeps its creation time. *)
Theorem managed_bookkeeping current desired now i rule out :
  desired !! i = Some rule → prepareManagedRules current desired now !! i = Some out →
  with_bookkeeping 0 0 0 out = with_bookkeeping 0 0 0 (Standardize rule) ∧
  match by_id current !! RuleID out with
  | None => Revision out = 1 ∧ CreatedTime out = now ∧ UpdatedTime out = now
  | Some old =>
      if ruleConfigEqual old rule then
        Revision out = Revision old ∧ CreatedTime out = CreatedTime old ∧ UpdatedTime out = UpdatedTime old
      else
        1 ≤ Revision out ∧ (0 ≤ Revision old < int64_max → Revision out = Revision old + 1) ∧
        UpdatedTime out = now ∧ CreatedTime out = (if CreatedTime old =? 0 then now else CreatedTime old)
  end.
Proof.
  unfold prepareManagedRules. rewrite list_lookup_fmap. intros -> [= <-]. split; [apply prepare_rule_config|].
  rewrite prepare_rule_id. unfold prepare_rule. cbv zeta.
  change (RuleID (with_bookkeeping 0 0 0 (Standardize rule))) with (TrimSpace (RuleID rule)).
  destruct (by_id current !! _) as [old|]; [|done].
  assert (ruleConfigEqual old (with_bookkeeping 0 0 0 (Standardize rule)) = ruleConfigEqual old rule) as ->.
  { unfold ruleConfigEqual. by rewrite Standardize_bookkeeping, Standardize_Standardize. }
  destruct (ruleConfigEqual old rule); [done|]. simpl. split_and!; [|intros Hr|done|done].
  - destruct (Z.ltb_spec (add64 (Revision old) 1) 1); lia.
  - rewrite add64_id by int64_lia. destruct (Z.ltb_spec (Revision old + 1) 1); lia.
Qed.

(** ** The diff *)

(** The runtime action the diff announces for a rule. *)
Definition planned (diff : list configRuleDiff) (id : string) : RuntimeAction :=
  match list_find (λ d, df_RuleID d = id) diff with Some (_, d) => df_RuntimeAction d | None => NoAction end.

Lemma diff_rule_id id old new d : diff_rule id old new = Some d → df_RuleID d = id.
Proof. unfold diff_rule. repeat case_match; by intros [= <-]. Qed.

Lemma planned_spec current desired id :
  planned (diffConfiguredRules current desired) id =
  match diff_rule id (by_id current !! id) (by_id desired !! id) with Some d => df_RuntimeAction d | None => NoAction end.
Proof.
  unfold planned. destruct (list_find _ _) as [[i d]|] eqn:Hf.
  - apply list_find_Some in Hf as (Hi & Hid & _). apply list_elem_of_lookup_2 in Hi. unfold diffConfiguredRules in Hi.
    apply list_elem_of_omap in Hi as (k & _ & Hk). pose proof (diff_rule_id _ _ _ _ Hk) as Hk'.
    assert (k = id) as -> by congruence. by rewrite Hk.
  - apply list_find_None in Hf. rewrite Forall_forall in Hf. destruct (diff_rule id _ _) as [d|] eqn:Hd; [|done].
    destruct (Hf d); [|by eapply diff_rule_id]. unfold diffConfiguredRules. apply list_elem_of_omap.
    exists id. split; [|done]. apply elem_of_sort_strings, elem_of_elements, elem_of_union. rewrite !elem_of_dom.
    destruct (by_id current !! id), (by_id desired !! id); [left|left|right|done]; eauto.
Qed.

Lemma RuntimeEqual_same_config old new :
  ruleConfigEqual old new = true → is_ok (Validate new) = true → RuntimeEqual old new = true.
Proof.
  unfold ruleConfigEqual. rewrite bool_decide_eq_true. intros E Hv. apply validate_standardized_iff in Hv as [].
  apply is_ok_iff in wf_source as [mt Hm]. unfold RuntimeEqual. cbv zeta.
  assert (∀ {A} (f : Rule → A), (∀ r, f (with_bookkeeping 0 0 0 r) = f r) → f (Standardize old) = f (Standardize new)) as Hf.
  { intros A f Hfr. rewrite <-(Hfr (Standardize old)), <-(Hfr (Standardize new)). by rewrite E. }
  unfold sourceIPPoliciesEqual, bandwidthLimitsEqual, trafficQuotasEqual.
  rewrite (Hf _ Proto), (Hf _ ListenAddr), (Hf _ ListenPort), (Hf _ TargetAddr), (Hf _ TargetPort), (Hf _ Enabled),
    (Hf _ SpeedLimit), (Hf _ Bandwidth), (Hf _ Quota), (Hf _ runtimeMaxConn), (Hf _ IdleTimeout), (Hf _ SourceIPMode),
    (Hf _ SourceIPs) by done.
  rewrite (policies_equal_refl _ _ _ Hm), !bool_decide_eq_true_2, !Z.eqb_refl, eqb_reflx by done.
  unfold EqualFold. by rewrite bool_decide_eq_true_2.
Qed.

(** The daemon runs what the configuration enables. *)
Definition in_sync (rules : list Rule) (running : gmap string Rule) : Prop :=
  ∀ id r, running !! id = Some r ↔ r ∈ rules ∧ RuleID r = id ∧ Enabled r = true.

Lemma in_sync_lookup rules running id : in_sync rules running → NoDup (RuleID <$> rules) →
  running !! id = match by_id rules !! id with Some r => if Enabled r then Some r else None | None => None end.
Proof.
  intros Hs Hnd. apply option_eq. intros r. rewrite (Hs id r). split.
  - intros (Hin & Hid & He). rewrite (by_id_lookup rules id r) by done. by rewrite He.
  - destruct (by_id rules !! id) as [x|] eqn:Hx; [|done]. apply by_id_inv in Hx as [? ?].
    destruct (Enabled x) eqn:He; [|done]. by intros [= <-].
Qed.

(** the diff tells what a write will do to the running rules. When the
    daemon serves the current configuration and then serves the desired one, a
    rule announced as started was not running and runs, one announced as stopped
    or removed ran and is gone, one announced as restarted runs with a different
    runtime configuration, and every other rule either does not run before and
    after or keeps an equal runtime configuration. *)
Theorem diff_predicts_runtime current desired before after id :
  NoDup (RuleID <$> current) → NoDup (RuleID <$> desired) →
  Forall (λ r, is_ok (Validate r) = true) desired →
  in_sync current before → in_sync desired after →
  match planned (diffConfiguredRules current desired) id, before !! id, after !! id with
  | StartAction, None, Some _ => True
  | (StopAction | RemoveAction), Some _, None => True
  | RestartAction, Some old, Some new => RuntimeEqual old new = false
  | NoAction, None, None => True
  | NoAction, Some old, Some new => RuntimeEqual old new = true
  | _, _, _ => False
  end.
Proof.
  intros Hnc Hnd Hv Hb Ha. rewrite planned_spec.
  rewrite (in_sync_lookup current before id Hb Hnc), (in_sync_lookup desired after id Ha Hnd).
  unfold diff_rule. destruct (by_id current !! id) as [old|] eqn:Hold, (by_id desired !! id) as [new|] eqn:Hnew; try done.
  - apply by_id_inv in Hnew as [Hin _]. rewrite Forall_forall in Hv. specialize (Hv new Hin).
    destruct (ruleConfigEqual old new) eqn:Heq.
    + pose proof (RuntimeEqual_same_config old new Heq Hv) as Hr.
      assert (Enabled old = Enabled new) as ->.
      { unfold ruleConfigEqual in Heq. apply bool_decide_eq_true, (f_equal Enabled) in Heq. exact Heq. }
      by destruct (Enabled new).
    + destruct (Enabled old), (Enabled new); cbn [andb negb df_RuntimeAction]; [|exact I..].
      destruct (RuntimeEqual old new) eqn:Hr; cbn [negb]; reflexivity.
  - by destruct (Enabled old).
  - by destruct (Enabled new).
Qed.

(** ** The revision header *)

Lemma hex_plain c : is_hex c = true → plain_ends "s"%char c = true.
Proof.
  assert (forallb (λ n, implb (is_hex (ascii_of_nat n)) (plain_ends "s" (ascii_of_nat n))) (seq 0 256) = true)
    as Hall by by vm_compute.
  intros Hc. rewrite forallb_forall in Hall. specialize (Hall (nat_of_ascii c)).
  rewrite ascii_nat_embedding, Hc in Hall. apply Hall, list_elem_of_In, elem_of_seq.
  pose proof (nat_ascii_bounded c). lia.
Qed.

Lemma not_comma_hex l : forallb is_hex l = true → has_char "," l = false.
Proof.
  intros Hl. unfold has_char. apply not_true_iff_false. rewrite existsb_exists. intros (c & Hin & Hc).
  apply bool_decide_eq_true in Hc as ->. rewrite forallb_forall in Hl. by specialize (Hl _ Hin).
Qed.

(** the revision a response carries in its [ETag] is accepted as
    [If-Match] and read back as the same revision. SHA-256 digests print as 64
    hexadecimal digits. *)
Theorem etag_roundtrip raw :
  String.length (sha256 raw) = 64%nat → forallb is_hex (to_list (sha256 raw)) = true →
  requestRevision (configETag (configRevision raw)) = Ok (configRevision raw).
Proof.
  intros Hlen Hhex. unfold configRevision. set (digest := sha256 raw) in *. set (D := to_list digest) in *.
  assert (length D = 64%nat) as Hl by (unfold D; by rewrite length_list_ascii).
  assert (to_list ("sha256:" +:+ digest) = to_list "sha256:" ++ D) as Hrev by done.
  set (R := to_list "sha256:" ++ D) in *. assert (length R = 71%nat) as HlR by (unfold R; rewrite length_app, Hl; done).
  assert (TrimSpace ("sha256:" +:+ digest) = "sha256:" +:+ digest) as Htrim.
  { destruct (list.last D) as [c|] eqn:Hc; [|apply last_None in Hc; by rewrite Hc in Hl].
    apply (TrimSpace_plain_ends _ "s" c); [by rewrite Hrev|rewrite Hrev; unfold R; by rewrite last_app, Hc|].
    apply hex_plain. rewrite forallb_forall in Hhex. apply Hhex, list_elem_of_In. by apply last_Some_elem_of. }
  unfold configETag. rewrite Htrim, Hrev. set (V := [quote] ++ R ++ [quote]).
  assert (list.last V = Some quote) as Hlast by (unfold V; by rewrite app_assoc, last_snoc).
  assert (length V = 73%nat) as HlV by (unfold V; rewrite !length_app, HlR; done).
  assert (has_char "," V = false) as Hcomma.
  { unfold V, has_char. rewrite !existsb_app. apply orb_false_iff. split; [done|]. apply orb_false_iff. split; [|done].
    unfold R. rewrite existsb_app. apply orb_false_iff. split; [done|by apply not_comma_hex]. }
  unfold requestRevision. rewrite (TrimSpace_plain_ends _ quote quote); [|by rewrite to_of_list..|by vm_compute].
  cbv zeta. rewrite to_of_list, Hcomma, HlV, Hlast.
  rewrite (bool_decide_eq_false_2 (V = [])), (bool_decide_eq_false_2 (V = ["*"%char])),
    (bool_decide_eq_false_2 (to_list "W/" `prefix_of` V)), (bool_decide_eq_true_2 ([quote] `prefix_of` V)),
    (bool_decide_eq_true_2 (head V = Some quote)), (bool_decide_eq_true_2 (Some quote = Some quote)); try done.
  2: { by exists (R ++ [quote]). }
  2: { by intros [k Hk]. }
  assert (take (73 - 2) (drop 1 V) = R) as ->.
  { replace (73 - 2)%nat with (length R) by by rewrite HlR. change (drop 1 V) with (R ++ [quote]). apply take_app_length. }
  cbn [check mbind result_bind orb negb Nat.ltb Nat.leb].
  rewrite (bool_decide_eq_true_2 (to_list "sha256:" `prefix_of` R)), HlR by (by exists D).
  assert (drop 7 R = D) as -> by done. rewrite Hhex. cbn [check mbind result_bind orb negb Nat.eqb].
  by rewrite <-Hrev, of_to_list.
Qed.
End requests.

(** ** Witnesses *)

#[local] Existing Instance utc_database.
#[local] Existing Instance two_texts.
#[local] Existing Instance two_prints.
#[local] Existing Instance two_digests.

Definition web (port revision : Z) (enabled : bool) : Rule := {|
  RuleID := "web"; Name := "web"; Proto := "tcp"; ListenAddr := ""; ListenPort := port; TargetAddr := "10.0.0.1";
  TargetPort := 80; Enabled := enabled; SpeedLimit := 0; Bandwidth := None; Quota := None; MaxConn := 0; IdleTimeout := 0;
  SourceIPMode := ""; SourceIPs := []; Domains := []; Remark := ""; Revision := revision; CreatedTime := 5; UpdatedTime := 6 |}.

Lemma managed_bookkeeping_witness :
  ∃ out, prepareManagedRules [web 8080 7 true] [web 9090 99 true] 1000 !! 0%nat = Some out ∧
    Revision out = 8 ∧ CreatedTime out = 5 ∧ UpdatedTime out = 1000.
Proof.
  eexists. split; [reflexivity|].
  pose proof (managed_bookkeeping [web 8080 7 true] [web 9090 99 true] 1000 0 (web 9090 99 true) _ eq_refl eq_refl) as [_ H].
  rewrite prepare_rule_id in H.
  assert (by_id [web 8080 7 true] !! TrimSpace (RuleID (web 9090 99 true)) = Some (web 8080 7 true)) as E by (vm_compute; reflexivity).
  rewrite E in H. assert (ruleConfigEqual (web 8080 7 true) (web 9090 99 true) = false) as E2 by (vm_compute; reflexivity). rewrite E2 in H.
  destruct H as (_ & Hr & Hu & Hc). split_and!; [|by rewrite Hc|exact Hu].
  rewrite Hr; [reflexivity|]. simpl. int64_lia.
Defined.

Lemma in_sync_singleton r : Enabled r = true → in_sync [r] {[RuleID r := r]}.
Proof.
  intros He id r'. rewrite lookup_singleton_Some, list_elem_of_singleton. split.
  - by intros [<- <-].
  - by intros (-> & <- & _).
Qed.

Lemma diff_predicts_runtime_witness :
  planned (diffConfiguredRules [web 8080 1 true] [web 9090 2 true]) "web" = RestartAction ∧
  RuntimeEqual (web 8080 1 true) (web 9090 2 true) = false.
Proof.
  assert (planned (diffConfiguredRules [web 8080 1 true] [web 9090 2 true]) "web" = RestartAction) as Hp by (vm_compute; reflexivity).
  split; [exact Hp|].
  pose proof (diff_predicts_runtime [web 8080 1 true] [web 9090 2 true] {["web" := web 8080 1 true]} {["web" := web 9090 2 true]} "web"
    ltac:(apply NoDup_singleton) ltac:(apply NoDup_singleton)
    ltac:(apply Forall_singleton; vm_compute; reflexivity) (in_sync_singleton (web 8080 1 true) eq_refl) (in_sync_singleton (web 9090 2 true) eq_refl)) as H.
  rewrite Hp, !lookup_singleton_eq in H. exact H.
Defined.

Lemma saving_unchanged_is_identity_witness :
  ∃ document candidate, (loadConfigDocument quiet_read "vmflow.yaml" disk).1 = Ok document ∧
    cand_raw candidate = doc_raw document ∧ cand_sourceRevision candidate = doc_Revision document.
Proof.
  destruct (loadConfigDocument quiet_read "vmflow.yaml" disk) as [[document|e] d] eqn:E.
  - destruct (saving_unchanged_is_identity quiet_read "vmflow.yaml" disk document d 1000 E) as (c & _ & ? & _ & ?).
    exists document, c. by split_and!.
  - exfalso. assert (is_ok (loadConfigDocument quiet_read "vmflow.yaml" disk).1 = true) as H by (vm_compute; reflexivity).
    rewrite E in H. discriminate H.
Defined.

Lemma etag_roundtrip_witness : requestRevision (configETag (configRevision "one")) = Ok (configRevision "one").
Proof. apply etag_roundtrip; by vm_compute. Defined.
