(* ===== verification/RuntimeFacade.v ===== *)
(** * The embedding facade (runtime.go)

    [Runtime] guards a manager by a [closed] flag.  Every method is two critical
    sections: [activeManager] reads the flag under the facade's lock, the call
    itself runs under the manager's own lock.  [Close] sets the flag, stops all
    rules and saves the quota state.  Calls run concurrently: a state holds one
    phase per call, and an event performs the next critical section of one call.

    The nil receiver, the certificate provider and the resolver are left out;
    the manager's ledger has no flush in flight when [Close] saves it. *)

From S2P Require Import Prelude GoStrings Calendar Limits Rule Stats Quota Manager ManagerSpec.

Section facade.
Context {tz : TzDatabase} {net : Net}.

(** ** Calls and answers *)

Inductive FacadeCall :=
| CallApplySnapshot (rules : list Rule) (ReplaceAll : bool)
| CallStartRule (rule : Rule)
| CallRestartRule (rule : Rule)
| CallStopRule (id : string)
| CallRemoveRule (id : string)
| CallStopAll
| CallRunningRules
| CallRunningCount
| CallSnapshot (id : string)
| CallSnapshotAll
| CallClose.

(** [Apply] and [Shutdown]. *)
Definition CallApply (rules : list Rule) : FacadeCall := CallApplySnapshot rules true.
Definition CallShutdown : FacadeCall := CallClose.

Inductive FacadeError :=
| ErrRuntimeClosed
| FromManager (e : ManagerError)
| FromStore (e : StoreError).

(** The result of an apply on a closed runtime: every item failed with
    [ErrRuntimeClosed]; an item is its rule id and revision. *)
Record ClosedApplyResult := { ca_FailedRules : Z; ca_TotalRules : Z; ca_Items : list (string * Z) }.

Inductive FacadeAnswer :=
| AnsApply (r : ApplyResult)
| AnsClosedApply (r : ClosedApplyResult)
| AnsError (e : option FacadeError)
| AnsUnit
| AnsRules (rules : list Rule)
| AnsCount (n : nat)
| AnsSnapshot (s : TrafficSnapshot * option TrafficQuotaSnapshot)
| AnsSnapshots (l : list (TrafficSnapshot * option TrafficQuotaSnapshot)).

Definition closedApplyResult (rules : list Rule) : ClosedApplyResult := {|
  ca_FailedRules := Z.of_nat (length rules); ca_TotalRules := Z.of_nat (length rules);
  ca_Items := (λ rule, let rule := Standardize rule in (RuleID rule, Revision rule)) <$> rules |}.

Definition empty_snapshot (id : string) : TrafficSnapshot := {|
  s_RuleID := id; s_UploadBytes := 0; s_DownloadBytes := 0; s_Conns := 0; s_SourceIPDenied := 0;
  s_UDPSessionRejected := 0; s_UDPPacketsDropped := 0; s_QuotaRejectedBytes := 0; s_UpdatedTime := 0 |}.

(** What a method answers when [activeManager] finds the runtime closed. *)
Definition closed_answer (call : FacadeCall) : FacadeAnswer :=
  match call with
  | CallApplySnapshot rules _ => AnsClosedApply (closedApplyResult rules)
  | CallStartRule _ | CallRestartRule _ => AnsError (Some ErrRuntimeClosed)
  | CallStopRule _ | CallRemoveRule _ | CallStopAll => AnsUnit
  | CallRunningRules => AnsRules []
  | CallRunningCount => AnsCount 0
  | CallSnapshot id => AnsSnapshot (empty_snapshot id, None)
  | CallSnapshotAll => AnsSnapshots []
  | CallClose => AnsError None
  end.

Definition manager_error (r : result ManagerError ()) : FacadeAnswer :=
  AnsError match r with Ok _ => None | Err e => Some (FromManager e) end.

(** The call on the manager. *)
Definition run_call (call : FacadeCall) (m : Manager) : FacadeAnswer * Manager :=
  match call with
  | CallApplySnapshot rules b => let '(r, m) := ApplySnapshot rules b m in (AnsApply r, m)
  | CallStartRule rule => let '(r, m) := StartRule rule m in (manager_error r, m)
  | CallRestartRule rule => let '(r, m) := RestartRule rule m in (manager_error r, m)
  | CallStopRule id => (AnsUnit, StopRule id m)
  | CallRemoveRule id => (AnsUnit, RemoveRule id m)
  | CallStopAll => (AnsUnit, StopAll m)
  | CallRunningRules => (AnsRules (RunningRules m), m)
  | CallRunningCount => (AnsCount (RunningCount m), m)
  | CallSnapshot id => (AnsSnapshot (Manager.Snapshot id m), m)
  | CallSnapshotAll => (AnsSnapshots (Manager.SnapshotAll m), m)
  | CallClose => (AnsError None, m)
  end.

Definition set_quota_ledger l (m : Manager) : Manager := {|
  running := running m; collector := collector m; udpBudget := udpBudget m; quotaLedger := l;
  world := world m; live := live m |}.

(** [Manager.SaveQuotaStateExact]: [saved] is what the store answers. *)
Definition SaveQuotaStateExact (saved : option StoreError) (m : Manager) : option FacadeError * Manager :=
  if negb (has_store (quotaLedger m)) then (None, m)
  else
    let l := exact_prepare (quotaLedger m) in
    match saved with
    | Some e => (Some (FromStore e), set_quota_ledger l m)
    | None => (None, set_quota_ledger (exact_done l) m)
    end.

(** ** Interleaved calls *)

(** How far a call has got.  [Entered]: past [activeManager]; [Marked]: [Close]
    has set the flag; [Stopped]: it has stopped the rules as well. *)
Inductive Phase :=
| Called (call : FacadeCall)
| Entered (call : FacadeCall)
| Marked
| Stopped
| Returned (answer : FacadeAnswer).

Record FacadeState := { fs_manager : Manager; fs_closed : bool; fs_calls : list Phase }.

(** [NewRuntime]. *)
Definition NewRuntime (c : option Collector) (udpMax : Z) (ledger : option QuotaLedger) (w : World) : FacadeState := {|
  fs_manager := NewManagerWithOptions c udpMax ledger w; fs_closed := false; fs_calls := [] |}.

(** The next critical section of a call. *)
Definition advance (saved : option StoreError) (p : Phase) (m : Manager) (closed : bool) : Phase * Manager * bool :=
  match p with
  | Called CallClose => if closed then (Returned (AnsError None), m, closed) else (Marked, m, true)
  | Called call => if closed then (Returned (closed_answer call), m, closed) else (Entered call, m, closed)
  | Entered call => let '(answer, m) := run_call call m in (Returned answer, m, closed)
  | Marked => (Stopped, StopAll m, closed)
  | Stopped => let '(e, m) := SaveQuotaStateExact saved m in (Returned (AnsError e), m, closed)
  | Returned answer => (p, m, closed)
  end.

Inductive FacadeEvent :=
| Invoke (call : FacadeCall)
| Advance (i : nat) (saved : option StoreError).

Definition facade_step (e : FacadeEvent) (s : FacadeState) : FacadeState :=
  match e with
  | Invoke call => {| fs_manager := fs_manager s; fs_closed := fs_closed s; fs_calls := fs_calls s ++ [Called call] |}
  | Advance i saved =>
      match fs_calls s !! i with
      | None => s
      | Some p =>
          let '(p, m, closed) := advance saved p (fs_manager s) (fs_closed s) in
          {| fs_manager := m; fs_closed := closed; fs_calls := <[i := p]> (fs_calls s) |}
      end
  end.
Definition facade_run (events : list FacadeEvent) (s : FacadeState) : FacadeState :=
  foldl (λ s e, facade_step e s) s events.

(** ** Lemmas *)

Lemma run_call_inv call m : mgr_inv m → mgr_inv (run_call call m).2.
Proof.
  intros Hm. destruct call as [rules b|rule|rule|id|id| | | |id| |]; simpl; try done.
  - pose proof (manager_step_inv (OpApply rules b) m Hm) as H. simpl in H. by destruct (ApplySnapshot rules b m).
  - pose proof (manager_step_inv (OpStart rule) m Hm) as H. simpl in H. by destruct (StartRule rule m).
  - pose proof (manager_step_inv (OpRestart rule) m Hm) as H. simpl in H. by destruct (RestartRule rule m).
  - by apply (manager_step_inv (OpStop id)).
  - by apply (manager_step_inv (OpRemove id)).
  - by apply (manager_step_inv OpStopAll).
Qed.

Lemma save_frame saved m :
  running (SaveQuotaStateExact saved m).2 = running m ∧ live (SaveQuotaStateExact saved m).2 = live m.
Proof. unfold SaveQuotaStateExact. by destruct (negb _), saved. Qed.

Lemma advance_inv saved p m closed : mgr_inv m → mgr_inv (advance saved p m closed).1.2.
Proof.
  intros Hm. destruct p as [call|call| | |answer]; simpl; try done.
  - by destruct call, closed.
  - pose proof (run_call_inv call m Hm). by destruct (run_call call m).
  - by apply StopAll_effect.
  - destruct (save_frame saved m) as [Hr Hl]. destruct (SaveQuotaStateExact saved m) as [e m']; simpl in *.
    apply (mgr_inv_frame m); [done|by rewrite Hl|done].
Qed.

Lemma facade_step_inv e s : mgr_inv (fs_manager s) → mgr_inv (fs_manager (facade_step e s)).
Proof.
  intros Hm. destruct e as [call|i saved]; simpl; [done|].
  destruct (fs_calls s !! i) as [p|]; [|done]. pose proof (advance_inv saved p (fs_manager s) (fs_closed s) Hm).
  by destruct (advance saved p (fs_manager s) (fs_closed s)) as [[??]?].
Qed.

Lemma facade_run_ind (P : FacadeState → Prop) events s :
  P s → (∀ e s, P s → P (facade_step e s)) → P (facade_run events s).
Proof.
  intros Hs Hstep. revert s Hs. induction events as [|e events IH]; intros s Hs; [done|]. by apply IH, Hstep.
Qed.

(** A call that has not read the flag stays refused once the flag is set. *)
Definition refused (j : nat) (call : FacadeCall) (s : FacadeState) : Prop :=
  fs_closed s = true ∧
  (fs_calls s !! j = Some (Called call) ∨ fs_calls s !! j = Some (Returned (closed_answer call))).

Lemma refused_step j call e s : refused j call s → refused j call (facade_step e s).
Proof.
  intros [Hc Hj]. destruct e as [new|i saved]; simpl.
  - split; [done|]. simpl. destruct Hj as [Hj|Hj]; [left|right]; by apply lookup_app_l_Some.
  - destruct (fs_calls s !! i) as [p|] eqn:Hi; [|done]. unfold refused.
    destruct (decide (i = j)) as [->|Hne].
    + rewrite Hi in Hj. apply lookup_lt_Some in Hi.
      destruct Hj as [[= ->]|[= ->]]; simpl; rewrite ?Hc; [destruct call|];
        (split; [done|]); right; by apply list_lookup_insert_eq.
    + assert (fs_closed s = true → (advance saved p (fs_manager s) (fs_closed s)).2 = true) as Hset.
      { intros Hx. rewrite Hx. destruct p as [c|c| | |]; simpl; try done.
        - by destruct c.
        - by destruct (run_call c (fs_manager s)).
        - by destruct (SaveQuotaStateExact saved (fs_manager s)). }
      destruct (advance saved p (fs_manager s) (fs_closed s)) as [[p' m'] closed']; simpl in *.
      split; [by apply Hset|]. by rewrite list_lookup_insert_ne by done.
Qed.

(** The runtime is closed and no call is between its check and its action. *)
Definition shut (s : FacadeState) : Prop :=
  fs_closed s = true ∧ ∀ j call, fs_calls s !! j ≠ Some (Entered call).

Definition stopped_at (i : nat) (s : FacadeState) : Prop :=
  fs_calls s !! i = Some Marked ∨ (rules_of (fs_manager s) = ∅ ∧ live (fs_manager s) = []).

Lemma StopAll_rules m : mgr_inv m → rules_of (StopAll m) = ∅ ∧ live (StopAll m) = [].
Proof.
  intros (Hr & Hl & _)%StopAll_effect. split; [|done]. unfold rules_of. by rewrite Hr, fmap_empty.
Qed.

Lemma shut_step i e s :
  mgr_inv (fs_manager s) → shut s → stopped_at i s → shut (facade_step e s) ∧ stopped_at i (facade_step e s).
Proof.
  intros Hm [Hc Hn] Hi. destruct e as [new|k saved]; simpl.
  - split; [split; [done|]|].
    + intros j call. simpl. intros [Hj|[_ Hj]]%lookup_app_Some; [by eapply Hn|].
      by apply list_lookup_singleton_Some in Hj as [_ ?].
    + destruct Hi as [Hi|?]; [left; simpl; by apply lookup_app_l_Some|by right].
  - destruct (fs_calls s !! k) as [p|] eqn:Hk; [|done].
    assert (∃ p' m', advance saved p (fs_manager s) (fs_closed s) = (p', m', true) ∧
      (∀ call, p' ≠ Entered call) ∧ (p' = Marked → m' = fs_manager s ∧ p ≠ Marked) ∧
      (p = Marked → rules_of m' = ∅ ∧ live m' = []) ∧
      (rules_of (fs_manager s) = ∅ ∧ live (fs_manager s) = [] → rules_of m' = ∅ ∧ live m' = []))
      as (p' & m' & -> & Hp' & _ & Hmk & Hkeep).
    { rewrite Hc. destruct p as [call|call| | |answer]; simpl.
      - destruct call; simpl; eexists _, _; by split_and!.
      - by destruct (Hn k call).
      - eexists _, _. split_and!; try done; intros; by apply StopAll_rules.
      - pose proof (save_frame saved (fs_manager s)) as [Hr Hl].
        destruct (SaveQuotaStateExact saved (fs_manager s)) as [err m']; simpl in *.
        eexists _, _. split_and!; try done. unfold rules_of. by rewrite Hr, Hl.
      - eexists _, _. by split_and!. }
    split; [split; [done|]|]; simpl.
    + intros j call. destruct (decide (k = j)) as [->|?].
      * rewrite list_lookup_insert_eq by (by apply lookup_lt_Some in Hk). intros [=]. by eapply Hp'.
      * rewrite list_lookup_insert_ne by done. by apply Hn.
    + destruct Hi as [Hi|Hi]; [|right; by apply Hkeep]. destruct (decide (k = i)) as [->|?].
      * rewrite Hk in Hi. injection Hi as ->. right. by apply Hmk.
      * left. simpl. by rewrite list_lookup_insert_ne.
Qed.

(** ** Properties *)

(** [Close] is final when no call is in flight. Take any history up to
    the moment a [Close] sets the flag; if no other call was then between its
    check and its action, then in every continuation the rules are stopped once
    that [Close] has stopped them, no rule and no listener ever runs again, and
    every call that had not read the flag, or is made later, is refused. *)
Theorem close_is_final c udpMax ledger w before i saved after :
  let s := facade_run before (NewRuntime c udpMax ledger w) in
  let s1 := facade_step (Advance i saved) s in
  let s2 := facade_run after s1 in
  fs_calls s !! i = Some (Called CallClose) → fs_closed s = false →
  (∀ j call, fs_calls s !! j ≠ Some (Entered call)) →
  (fs_calls s2 !! i = Some Marked ∨ (rules_of (fs_manager s2) = ∅ ∧ live (fs_manager s2) = [])) ∧
  (∀ j call, fs_calls s1 !! j = Some (Called call) →
     fs_calls s2 !! j = Some (Called call) ∨ fs_calls s2 !! j = Some (Returned (closed_answer call))).
Proof.
  intros s s1 s2 Hi Hopen Hnone.
  assert (mgr_inv (fs_manager s)) as Hm.
  { apply (facade_run_ind (λ s, mgr_inv (fs_manager s))); [apply NewManager_inv|apply facade_step_inv]. }
  assert (s1 = {| fs_manager := fs_manager s; fs_closed := true; fs_calls := <[i := Marked]> (fs_calls s) |}) as Hs1.
  { unfold s1. simpl. by rewrite Hi, Hopen. }
  assert (fs_closed s1 = true) as Hclosed by (by rewrite Hs1). split.
  - assert (mgr_inv (fs_manager s2) ∧ shut s2 ∧ stopped_at i s2) as (_ & _ & H); [|done].
    apply (facade_run_ind (λ s, mgr_inv (fs_manager s) ∧ shut s ∧ stopped_at i s)).
    + rewrite Hs1. apply lookup_lt_Some in Hi. split; [done|]. split; [split; [done|]|left; by apply list_lookup_insert_eq].
      intros j call. simpl. destruct (decide (i = j)) as [->|?]; [by rewrite list_lookup_insert_eq|].
      rewrite list_lookup_insert_ne by done. apply Hnone.
    + intros e st (? & ? & ?). split; [by apply facade_step_inv|by apply shut_step].
  - intros j call Hj.
    assert (refused j call s2) as [_ H]; [|done].
    apply (facade_run_ind (refused j call)); [by split; [|left]|apply refused_step].
Qed.
End facade.

(** ** A call that overlaps [Close] *)

(** [StartRule] has read the flag when [Close] runs to its end. *)
Definition late_start : list FacadeEvent :=
  [Invoke (CallStartRule (sample_rule "web" 8080)); Advance 0 None; Invoke CallClose;
   Advance 1 None; Advance 1 None; Advance 1 None; Advance 0 None; Invoke CallStopAll; Advance 2 None].
Definition fresh_runtime : @FacadeState port_net := @NewRuntime port_net None 0 None ([] : @World port_net).
Definition late_state : @FacadeState port_net := @facade_run utc_database port_net late_start fresh_runtime.

(** (finding) a rule survives [Close]. A [StartRule] that has read the
    flag when [Close] sets it starts its rule after [Close] has returned: all
    calls have returned, the runtime is closed, and the rule runs with its
    listener open; a later [StopAll] is refused and does not stop it. *)
Theorem late_start_survives_close :
  fs_closed late_state = true ∧ forallb (λ p, match p with Returned _ => true | _ => false end) (fs_calls late_state) = true ∧
  fs_calls late_state !! 0%nat = Some (Returned (AnsError None)) ∧
  fs_calls late_state !! 1%nat = Some (Returned (AnsError None)) ∧
  RuleID <$> @RunningRules port_net (fs_manager late_state) = ["web"] ∧
  length (live (fs_manager late_state)) = 1%nat.
Proof. vm_compute. split_and!; reflexivity. Qed.

(** ** Witness *)

(** A rule runs, [Close] is called and stops it, a later start is refused. *)
Definition before_close : list FacadeEvent :=
  [Invoke (CallStartRule (sample_rule "web" 8080)); Advance 0 None; Advance 0 None;
   Invoke CallClose; Invoke CallStopAll].
Definition after_close : list FacadeEvent :=
  [Advance 1 None; Advance 1 None; Advance 2 None; Invoke (CallStartRule (sample_rule "ssh" 2222)); Advance 3 None].

Lemma close_is_final_witness :
  let s := @facade_run utc_database port_net before_close fresh_runtime in
  let s2 := @facade_run utc_database port_net after_close (@facade_step utc_database port_net (Advance 1 None) s) in
  RuleID <$> @RunningRules port_net (fs_manager s) = ["web"] ∧
  @rules_of port_net (fs_manager s2) = ∅ ∧ fs_calls s2 !! 2%nat = Some (Returned AnsUnit).
Proof.
  intros s s2. split; [vm_compute; reflexivity|].
  assert (fs_calls s !! 1%nat = Some (Called CallClose)) as Hi by (vm_compute; reflexivity).
  assert (fs_closed s = false) as Hc by (vm_compute; reflexivity).
  assert (∀ j call, fs_calls s !! j ≠ Some (Entered call)) as Hn.
  { intros j call. assert (forallb (λ p, match p with Entered _ => false | _ => true end) (fs_calls s) = true) as Hf
      by (vm_compute; reflexivity).
    intros Hj%list_elem_of_lookup_2%list_elem_of_In. by pose proof (proj1 (forallb_forall _ _) Hf _ Hj). }
  destruct (@close_is_final utc_database port_net None 0 None [] before_close 1 None after_close Hi Hc Hn) as [Hstop Href].
  split.
  - destruct Hstop as [Hm|[Hr _]]; [|done]. revert Hm. vm_compute. discriminate.
  - destruct (Href 2%nat CallStopAll) as [H|H]; [vm_compute; reflexivity| |done].
    revert H. vm_compute. discriminate.
Defined.
