(* ===== verification/Resolver.v ===== *)
(** * Name resolution with failover (dnsresolver/resolver.go)

    A resolver asks its sources in order, the operating system first.  A source
    that fails is left out until its cooldown is over; the end of the cooldown
    is an atomic integer that concurrent lookups read and write.  The answers of
    the sources, the clock and the state of the context are what the environment
    gives at each attempt. *)

From S2P Require Import Prelude GoStrings NetIP.

Definition defaultQueryTimeout : Z := 2 * second.
Definition defaultFailureCooldown : Z := 30 * second.
Definition builtInFallbackEndpoints : list string := ["223.5.5.5:53"; "119.29.29.29:53"].

(** The sources are known by their names; [rs_health] is [unhealthyUntil] of
    each of them, in nanoseconds. *)
Record Resolver := {
  rs_sources : list string;
  rs_health : list Z;
  rs_queryTimeout : Z;
  rs_failureCooldown : Z;
}.

Definition newResolver (sources : list string) (health : list Z) (queryTimeout failureCooldown : Z) : Resolver := {|
  rs_sources := sources; rs_health := health;
  rs_queryTimeout := if queryTimeout <=? 0 then defaultQueryTimeout else queryTimeout;
  rs_failureCooldown := if failureCooldown <=? 0 then defaultFailureCooldown else failureCooldown |}.
Definition New : Resolver :=
  newResolver ("system" :: builtInFallbackEndpoints) (replicate (S (length builtInFallbackEndpoints)) 0)
    defaultQueryTimeout defaultFailureCooldown.

Definition set_health (health : list Z) (r : Resolver) : Resolver := {|
  rs_sources := rs_sources r; rs_health := health; rs_queryTimeout := rs_queryTimeout r;
  rs_failureCooldown := rs_failureCooldown r |}.

(** ** One attempt *)

(** An error of a source; [de_IsNotFound] is [dnsNameNotFound]. *)
Record DNSError := { de_Text : string; de_IsNotFound : bool }.
Definition errNoRecords : DNSError := {| de_Text := "DNS response contained no records"; de_IsNotFound := false |}.
Notation CtxError := string (only parsing).

(** What one source meets: the clock at the check, the context before and after
    the query, the reply, and the clock when a failure is noted. *)
Record Attempt (T : Type) := {
  at_check : Z;
  at_before : option CtxError;
  at_values : list T;
  at_err : option DNSError;
  at_after : option CtxError;
  at_fail : Z;
}.
Arguments at_check {T}.
Arguments at_before {T}.
Arguments at_values {T}.
Arguments at_err {T}.
Arguments at_after {T}.
Arguments at_fail {T}.

Definition available (unhealthyUntil now : Z) : bool := unhealthyUntil <=? now.

Inductive Verdict (T : Type) :=
| Give (values : list T)
| Cancelled (e : CtxError)
| NameMissing (e : DNSError)
| TryNext (e : DNSError).
Arguments Give {T}.
Arguments Cancelled {T}.
Arguments NameMissing {T}.
Arguments TryNext {T}.

Definition judge {T} (a : Attempt T) : Verdict T :=
  match at_err a, at_values a with
  | None, _ :: _ => Give (at_values a)
  | _, _ =>
      match at_after a with
      | Some e => Cancelled e
      | None =>
          let err := default errNoRecords (at_err a) in
          if de_IsNotFound err then NameMissing err else TryNext err
      end
  end.

(** The store the verdict makes: [markHealthy], [markUnhealthy] or none. *)
Definition mark {T} (cooldown : Z) (a : Attempt T) : option Z :=
  match judge a with
  | Give _ | NameMissing _ => Some 0
  | Cancelled _ => None
  | TryNext _ => Some (add64 (at_fail a) cooldown)
  end.

(** ** The loop *)

Inductive LookupError :=
| MissingName
| CtxDone (e : CtxError)
| NotFoundVia (name source : string) (e : DNSError)
| AllCoolingDown (name : string)
| FailedVia (name : string) (used : list string) (failures : list (string * DNSError))
| NoAddressFor (host network : string)
| BadEndpoint (address : string)
| BadPort
| DialError (e : string)
| DialFailed (address : string) (failures : list (string * string)).

Section lookup.
Context {T : Type}.

Fixpoint failover_loop (cooldown : Z) (name : string) (env : nat → Attempt T) (i : nat) (sources : list string)
    (eligible : nat) (used : list string) (failures : list (string * DNSError)) (health : list Z)
    : result LookupError (list T) * list Z :=
  match sources with
  | [] =>
      (Err (if (eligible =? 0)%nat then AllCoolingDown name else FailedVia name used failures), health)
  | source :: sources =>
      let a := env i in
      if negb (available (nth i health 0) (at_check a))
      then failover_loop cooldown name env (S i) sources eligible used failures health
      else match at_before a with
      | Some e => (Err (CtxDone e), health)
      | None =>
          let used := used ++ [source] in
          let health := match mark cooldown a with Some v => <[i := v]> health | None => health end in
          match judge a with
          | Give values => (Ok values, health)
          | Cancelled e => (Err (CtxDone e), health)
          | NameMissing e => (Err (NotFoundVia name source e), health)
          | TryNext e => failover_loop cooldown name env (S i) sources (S eligible) used (failures ++ [(source, e)]) health
          end
      end
  end.

(** A resolver without sources is replaced by a new one for this lookup. *)
Definition lookupWithFailover (name : string) (env : nat → Attempt T) (r : Resolver)
    : result LookupError (list T) * Resolver :=
  let used := if bool_decide (rs_sources r = []) then New else r in
  let '(out, health) := failover_loop (rs_failureCooldown used) name env 0 (rs_sources used) 0 [] [] (rs_health used) in
  (out, if bool_decide (rs_sources r = []) then r else set_health health r).
End lookup.

(** ** Addresses *)

(** [net.IPAddr]; the zone is part of the address. *)
Notation IPAddr := Addr (only parsing).

(** [net.IPAddr.String]: IPv4-mapped addresses print as IPv4. *)
Definition IPString (a : IPAddr) : string :=
  match Netip.Unmap a with
  | InvalidAddr => ""
  | Addr4 v => Netip.string4 v
  | Addr6 v _ => Netip.string6 v ""
  end +:+ (if bool_decide (Netip.Zone a = "") then "" else "%" +:+ Netip.Zone a).
Definition is_To4 (a : IPAddr) : bool := match Netip.Unmap a with Addr4 _ => true | _ => false end.

Definition LookupIPAddr (env : nat → Attempt IPAddr) (host : string) (r : Resolver)
    : result LookupError (list IPAddr) * Resolver :=
  let host := TrimSpace host in
  if bool_decide (host = "") then (Err MissingName, r)
  else match Netip.ParseAddr host with
  | Some address => (Ok [address], r)
  | None => lookupWithFailover host env r
  end.

Definition LookupTXT (env : nat → Attempt string) (name : string) (r : Resolver)
    : result LookupError (list string) * Resolver :=
  let name := TrimSpace name in
  if bool_decide (name = "") then (Err MissingName, r) else lookupWithFailover name env r.

Fixpoint dedup_text (seen : gset string) (addresses : list IPAddr) : list string :=
  match addresses with
  | [] => []
  | a :: addresses =>
      let value := IPString a in
      if bool_decide (value ∈ seen) then dedup_text seen addresses
      else value :: dedup_text ({[ value ]} ∪ seen) addresses
  end.

Definition LookupHost (env : nat → Attempt IPAddr) (host : string) (r : Resolver)
    : result LookupError (list string) * Resolver :=
  let '(out, r) := LookupIPAddr env host r in (dedup_text ∅ <$> out, r).

Definition networkAcceptsIP (network : string) (a : IPAddr) : bool :=
  if HasSuffix network "4" then is_To4 a
  else if HasSuffix network "6" then negb (is_To4 a) else true.

Definition splitEndpoint (address : string) : result LookupError (string * Z) :=
  match SplitHostPort (TrimSpace address) with
  | None => Err (BadEndpoint address)
  | Some (host, portText) =>
      match ParseInt portText with
      | None => Err BadPort
      | Some port => check ((port <? 1) || (65535 <? port)) BadPort ≫= λ _, Ok (TrimSpace host, port)
      end
  end.

Definition firstIP (env : nat → Attempt IPAddr) (network host : string) (r : Resolver)
    : result LookupError IPAddr * Resolver :=
  let '(out, r) := LookupIPAddr env host r in
  (match out with
   | Err e => Err e
   | Ok addresses =>
       match list_find (λ a, networkAcceptsIP network a = true) addresses with
       | Some (_, a) => Ok a
       | None => Err (NoAddressFor host network)
       end
   end, r).

(** [ResolveTCPAddr] and [ResolveUDPAddr]. *)
Definition ResolveAddr (env : nat → Attempt IPAddr) (network address : string) (r : Resolver)
    : result LookupError (IPAddr * Z) * Resolver :=
  match splitEndpoint address with
  | Err e => (Err e, r)
  | Ok (host, port) => let '(out, r) := firstIP env network host r in ((λ ip, (ip, port)) <$> out, r)
  end.

(** ** Dialing *)

(** The deadline of the dial: the dialer's own, or its timeout from now. *)
Definition dialContext (deadline : option Z) (timeout now : Z) : option Z :=
  if 0 <? timeout then
    match deadline with
    | None => Some (now + timeout)
    | Some d => Some (if now + timeout <? d then now + timeout else d)
    end
  else deadline.

(** The loop over the addresses; [dial i endpoint] is what dialing the [i]-th
    address gives: an error or nothing.  The result names the endpoint of the
    connection. *)
Fixpoint dial_loop (network port : string) (dial : nat → string → option string) (i : nat) (addresses : list IPAddr)
    (failures : list (string * string)) : string + list (string * string) :=
  match addresses with
  | [] => inr failures
  | ip :: addresses =>
      if negb (networkAcceptsIP network ip) then dial_loop network port dial (S i) addresses failures
      else
        let endpoint := JoinHostPort (IPString ip) port in
        match dial i endpoint with
        | None => inl endpoint
        | Some e => dial_loop network port dial (S i) addresses (failures ++ [(endpoint, e)])
        end
  end.

Definition DialContext (env : nat → Attempt IPAddr) (dial : nat → string → option string)
    (network address : string) (r : Resolver) : result LookupError string * Resolver :=
  match SplitHostPort (TrimSpace address) with
  | None => (Err (BadEndpoint address), r)
  | Some (host, portText) =>
      if bool_decide (is_Some (Netip.ParseAddr host)) || bool_decide (host = "") then
        (match dial 0%nat address with None => Ok address | Some e => Err (DialError e) end, r)
      else
        let '(out, r) := LookupIPAddr env host r in
        match out with
        | Err e => (Err e, r)
        | Ok addresses =>
            (match dial_loop network portText dial 0 addresses [] with
             | inl endpoint => Ok endpoint
             | inr [] => Err (NoAddressFor host network)
             | inr failures => Err (DialFailed address failures)
             end, r)
        end
  end.

(** ** Concurrent lookups

    The loop in steps: the check of a source and the query with its store are
    the accesses to the shared health.  [lk_log] records the stores, the latest
    first: [None] for [markHealthy], [Some t] for a failure noted at time [t]. *)

Section concurrent.
Context {T : Type}.

Record LookupRun := { lr_index : nat; lr_eligible : nat; lr_used : list string; lr_failures : list (string * DNSError) }.
Inductive LookupPhase :=
| Checking (run : LookupRun)
| Asking (run : LookupRun)
| Finished (out : result LookupError (list T)).
Record LookupState := { lk_health : list Z; lk_log : list (nat * option Z); lk_lookups : list LookupPhase }.

Definition start_run : LookupRun := {| lr_index := 0; lr_eligible := 0; lr_used := []; lr_failures := [] |}.
Definition skip_source (run : LookupRun) : LookupRun := {|
  lr_index := S (lr_index run); lr_eligible := lr_eligible run; lr_used := lr_used run; lr_failures := lr_failures run |}.
Definition next_source (source : string) (e : DNSError) (run : LookupRun) : LookupRun := {|
  lr_index := S (lr_index run); lr_eligible := S (lr_eligible run); lr_used := lr_used run ++ [source];
  lr_failures := lr_failures run ++ [(source, e)] |}.

Definition check_source (name : string) (sources : list string) (a : Attempt T) (health : list Z) (run : LookupRun)
    : LookupPhase :=
  match sources !! lr_index run with
  | None => Finished (Err (if (lr_eligible run =? 0)%nat then AllCoolingDown name
                           else FailedVia name (lr_used run) (lr_failures run)))
  | Some _ =>
      if negb (available (nth (lr_index run) health 0) (at_check a)) then Checking (skip_source run)
      else match at_before a with Some e => Finished (Err (CtxDone e)) | None => Asking run end
  end.

Definition ask_source (name : string) (sources : list string) (a : Attempt T) (run : LookupRun) : LookupPhase :=
  let source := nth (lr_index run) sources "" in
  match judge a with
  | Give values => Finished (Ok values)
  | Cancelled e => Finished (Err (CtxDone e))
  | NameMissing e => Finished (Err (NotFoundVia name source e))
  | TryNext e => Checking (next_source source e run)
  end.

Definition log_entry (a : Attempt T) : option (option Z) :=
  match judge a with
  | Give _ | NameMissing _ => Some None
  | Cancelled _ => None
  | TryNext _ => Some (Some (at_fail a))
  end.

(** One step of the [k]-th lookup, which looks up [name]. *)
Definition lookup_step (r : Resolver) (name : string) (k : nat) (a : Attempt T) (s : LookupState) : LookupState :=
  match lk_lookups s !! k with
  | Some (Checking run) =>
      {| lk_health := lk_health s; lk_log := lk_log s;
         lk_lookups := <[k := check_source name (rs_sources r) a (lk_health s) run]> (lk_lookups s) |}
  | Some (Asking run) =>
      {| lk_health := match mark (rs_failureCooldown r) a with
                      | Some v => <[lr_index run := v]> (lk_health s) | None => lk_health s end;
         lk_log := match log_entry a with Some e => (lr_index run, e) :: lk_log s | None => lk_log s end;
         lk_lookups := <[k := ask_source name (rs_sources r) a run]> (lk_lookups s) |}
  | _ => s
  end.

Inductive LookupEvent :=
| BeginLookup
| StepLookup (name : string) (k : nat) (a : Attempt T).
Definition lookup_event (r : Resolver) (e : LookupEvent) (s : LookupState) : LookupState :=
  match e with
  | BeginLookup =>
      {| lk_health := lk_health s; lk_log := lk_log s; lk_lookups := lk_lookups s ++ [Checking start_run] |}
  | StepLookup name k a => lookup_step r name k a s
  end.
Definition lookup_run (r : Resolver) (events : list LookupEvent) (s : LookupState) : LookupState :=
  foldl (λ s e, lookup_event r e s) s events.
Definition fresh_lookups (r : Resolver) : LookupState :=
  {| lk_health := rs_health r; lk_log := []; lk_lookups := [] |}.

(** The last store to source [i]. *)
Definition last_store (i : nat) (log : list (nat * option Z)) : option (option Z) :=
  (λ x, x.2.2) <$> list_find (λ e, e.1 = i) log.
End concurrent.
