(* ===== verification/ResolverSpec.v ===== *)
(** * Properties of the failover resolver

    The loop against a reference that first selects the sources to ask, the
    shared health under interleaved lookups, and the choice of an address. *)

From S2P Require Import Prelude GoStrings NetIP Resolver.

(** ** The loop against its reference *)

Section reference.
Context {T : Type} (name : string) (all : list string) (cooldown : Z) (env : nat → Attempt T).

(** The answer a source settles the lookup with, if it does. *)
Definition decided (i : nat) : option (result LookupError (list T)) :=
  match at_before (env i), judge (env i) with
  | Some e, _ => Some (Err (CtxDone e))
  | None, Give values => Some (Ok values)
  | None, Cancelled e => Some (Err (CtxDone e))
  | None, NameMissing e => Some (Err (NotFoundVia name (nth i all "") e))
  | None, TryNext _ => None
  end.

(** The sources that are not cooling down, in order. *)
Definition eligible_sources (health : list Z) (i n : nat) : list nat :=
  filter (λ i, available (nth i health 0) (at_check (env i)) = true) (seq i n).

Definition failure_of (i : nat) : string * DNSError :=
  (nth i all "", match judge (env i) with TryNext e => e | _ => errNoRecords end).

Fixpoint first_decided (l : list nat) : option (result LookupError (list T)) :=
  match l with
  | [] => None
  | i :: l => match decided i with Some out => Some out | None => first_decided l end
  end.

(** The sources that are asked: up to the first that decides. *)
Fixpoint asked (l : list nat) : list nat :=
  match l with
  | [] => []
  | i :: l => i :: match decided i with Some _ => [] | None => asked l end
  end.

Definition note_health (health : list Z) (i : nat) : list Z :=
  match at_before (env i), mark cooldown (env i) with
  | None, Some v => <[i := v]> health
  | _, _ => health
  end.

(** What the lookup answers, and the health it leaves. *)
Definition reference (health : list Z) : result LookupError (list T) * list Z :=
  let l := eligible_sources health 0 (length all) in
  (match first_decided l with
   | Some out => out
   | None => Err (if bool_decide (l = []) then AllCoolingDown name
                  else FailedVia name ((λ i, nth i all "") <$> l) (failure_of <$> l))
   end, foldl note_health health (asked l)).

Lemma eligible_cons health i n :
  eligible_sources health i (S n) =
  if available (nth i health 0) (at_check (env i)) then i :: eligible_sources health (S i) n
  else eligible_sources health (S i) n.
Proof. unfold eligible_sources. simpl. rewrite filter_cons. by destruct (available _ _). Qed.

Lemma eligible_insert health i v n : eligible_sources (<[i := v]> health) (S i) n = eligible_sources health (S i) n.
Proof.
  assert (∀ k, (i < k)%nat → nth k (<[i := v]> health) 0 = nth k health 0) as Hk.
  { intros k ?. rewrite !nth_lookup, list_lookup_insert_ne by lia. done. }
  unfold eligible_sources. assert (∀ k, k ∈ seq (S i) n → (i < k)%nat) as Hseq by (intros k ?%elem_of_seq; lia).
  revert Hseq. induction (seq (S i) n) as [|k l IH]; intros Hseq; [done|].
  rewrite !filter_cons, Hk by (apply Hseq; left). rewrite IH; [done|]. intros j ?. apply Hseq. by right.
Qed.

Lemma eligible_note health i n : eligible_sources (note_health health i) (S i) n = eligible_sources health (S i) n.
Proof. unfold note_health. destruct (at_before (env i)), (mark cooldown (env i)); try done. apply eligible_insert. Qed.

Lemma loop_reference sources i eligible used failures health :
  drop i all = sources → length used = eligible →
  failover_loop cooldown name env i sources eligible used failures health =
  let l := eligible_sources health i (length sources) in
  (match first_decided l with
   | Some out => out
   | None => Err (if bool_decide (l = []) && (eligible =? 0)%nat then AllCoolingDown name
                  else FailedVia name (used ++ ((λ i, nth i all "") <$> l)) (failures ++ (failure_of <$> l)))
   end, foldl note_health health (asked l)).
Proof.
  revert i eligible used failures health.
  induction sources as [|source sources IH]; intros i eligible used failures health Hdrop Hused; simpl.
  { by rewrite !app_nil_r. }
  assert (nth i all "" = source ∧ drop (S i) all = sources) as [Hname Hrest].
  { rewrite <-(Nat.add_1_r i), <-drop_drop, Hdrop, nth_lookup, <-(Nat.add_0_r i), <-lookup_drop, Hdrop. done. }
  rewrite eligible_cons. destruct (available _ _) eqn:Ha; simpl; [|by apply IH].
  unfold decided, note_health at 2. destruct (at_before (env i)) as [e|] eqn:Hb; [done|].
  assert (match mark cooldown (env i) with Some v => <[i := v]> health | None => health end = note_health health i) as ->.
  { unfold note_health. by rewrite Hb. }
  destruct (judge (env i)) as [values|e|e|e] eqn:Hj; simpl; try by rewrite ?Hname.
  rewrite IH by (done || rewrite length_app; simpl; lia). cbv zeta.
  rewrite eligible_note. unfold failure_of at 2. rewrite Hj, Hname, <-!app_assoc. simpl. by rewrite andb_false_r.
Qed.
End reference.

(** ** What a lookup promises

    In terms of what the sources, the clock and the context gave, and of nothing
    of the code. *)

(** What became of a source's turn: it gave records; the lookup's context had
    ended; it denied that the name exists; or it failed, an empty answer being a
    failure as well. *)
Inductive Fate (T : Type) := Records (values : list T) | Ended (e : CtxError) | Denied (e : DNSError) | Failed (e : DNSError).
Arguments Records {T}.
Arguments Ended {T}.
Arguments Denied {T}.
Arguments Failed {T}.

Inductive fate {T} (a : Attempt T) : Fate T → Prop :=
| fate_not_asked e : at_before a = Some e → fate a (Ended e)
| fate_records value values :
    at_before a = None → at_err a = None → at_values a = value :: values → fate a (Records (value :: values))
| fate_ended e :
    at_before a = None → at_err a ≠ None ∨ at_values a = [] → at_after a = Some e → fate a (Ended e)
| fate_denied text :
    at_before a = None → at_after a = None → at_err a = Some {| de_Text := text; de_IsNotFound := true |} →
    fate a (Denied {| de_Text := text; de_IsNotFound := true |})
| fate_failed text :
    at_before a = None → at_after a = None → at_err a = Some {| de_Text := text; de_IsNotFound := false |} →
    fate a (Failed {| de_Text := text; de_IsNotFound := false |})
| fate_empty :
    at_before a = None → at_after a = None → at_err a = None → at_values a = [] →
    fate a (Failed {| de_Text := "DNS response contained no records"; de_IsNotFound := false |}).

Section promise.
Context {T : Type} (env : nat → Attempt T) (r : Resolver).

(** A source whose cooldown is over when it is looked at. *)
Definition rested (i : nat) : Prop := nth i (rs_health r) 0 ≤ at_check (env i).
Definition rested_sources : list nat := filter rested (seq 0 (length (rs_sources r))).
(** The lookup comes to source [i] when every rested source before it failed. *)
Definition reached (i : nat) : Prop :=
  (i < length (rs_sources r))%nat ∧ rested i ∧ ∀ k, (k < i)%nat → rested k → ∃ e, fate (env k) (Failed e).
(** A source that answers is healthy, also when it answers that there is no such
    name; one that fails has to rest; the end of the context says nothing. *)
Definition new_health (i : nat) (f : Fate T) (old : Z) : Z :=
  match f with
  | Records _ | Denied _ => 0
  | Ended _ => old
  | Failed _ => add64 (at_fail (env i)) (rs_failureCooldown r)
  end.
Definition settles (name : string) (i : nat) (f : Fate T) : option (result LookupError (list T)) :=
  match f with
  | Records values => Some (Ok values)
  | Ended e => Some (Err (CtxDone e))
  | Denied e => Some (Err (NotFoundVia name (nth i (rs_sources r) "") e))
  | Failed _ => None
  end.

Implicit Types (i k : nat) (f : Fate T).

Lemma fate_decided name i f : fate (env i) f → decided name (rs_sources r) env i = settles name i f.
Proof.
  unfold decided, judge. destruct 1 as [e Hb|v vs Hb He Hv|e Hb Hn Ha|t Hb Ha He|t Hb Ha He|Hb Ha He Hv].
  - by rewrite Hb.
  - by rewrite Hb, He, Hv.
  - rewrite Hb, Ha. destruct (at_err (env i)), (at_values (env i)); try done. by destruct Hn.
  - by rewrite Hb, Ha, He.
  - by rewrite Hb, Ha, He.
  - by rewrite Hb, Ha, He, Hv.
Qed.
Lemma fate_total i : ∃ f, fate (env i) f.
Proof.
  destruct (at_before (env i)) as [e|] eqn:Hb; [by eexists; apply fate_not_asked|].
  destruct (at_after (env i)) as [e|] eqn:Ha, (at_err (env i)) as [[t []]|] eqn:He, (at_values (env i)) as [|v vs] eqn:Hv;
    eexists; first [by eapply fate_records|by eapply fate_ended; [|left; rewrite He|]|by eapply fate_ended; [|right|]|
                    by eapply fate_denied|by eapply fate_failed|by eapply fate_empty].
Qed.
Lemma decided_failed name i : decided name (rs_sources r) env i = None ↔ ∃ e, fate (env i) (Failed e).
Proof.
  split; [|by intros [e ->%(fate_decided name)]]. intros Hd. destruct (fate_total i) as [f Hf].
  rewrite (fate_decided name i f Hf) in Hd. destruct f; try done. by exists e.
Qed.
Lemma failed_judge i e : fate (env i) (Failed e) → judge (env i) = TryNext e.
Proof. unfold judge. by inversion 1 as [| | | |t Hb Ha He|Hb Ha He Hv]; rewrite ?He, ?Hv, ?Ha. Qed.

(** The store of a source's turn. *)
Definition noted (i : nat) (old : Z) : Z :=
  match at_before (env i), mark (rs_failureCooldown r) (env i) with None, Some v => v | _, _ => old end.
Lemma noted_idemp i old : noted i (noted i old) = noted i old.
Proof. unfold noted. by destruct (at_before (env i)), (mark (rs_failureCooldown r) (env i)). Qed.
Lemma fate_noted i f old : fate (env i) f → noted i old = new_health i f old.
Proof.
  unfold noted, mark, judge. destruct 1 as [e Hb|v vs Hb He Hv|e Hb Hn Ha|t Hb Ha He|t Hb Ha He|Hb Ha He Hv]; rewrite Hb.
  - done.
  - by rewrite He, Hv.
  - rewrite Ha. destruct (at_err (env i)), (at_values (env i)); try done. by destruct Hn.
  - by rewrite Ha, He.
  - by rewrite Ha, He.
  - by rewrite Ha, He, Hv.
Qed.

Lemma note_health_lookup health i k :
  note_health (rs_failureCooldown r) env health i !! k = (λ old, if decide (k = i) then noted i old else old) <$> health !! k.
Proof.
  assert ((λ old : Z, old) <$> health !! k = health !! k) as Hid by apply option_fmap_id.
  unfold note_health, noted. destruct (at_before (env i)), (mark (rs_failureCooldown r) (env i)) as [v|]; case_decide; try done; subst.
  - rewrite list_lookup_insert. by destruct (health !! i) eqn:E; [rewrite decide_True by (by apply lookup_lt_Some in E)|rewrite decide_False by (intros [_ ?]; by apply lookup_ge_None in E; lia)].
  - rewrite Hid. by apply list_lookup_insert_ne.
Qed.
Lemma note_all_lookup l k : ∀ health, foldl (note_health (rs_failureCooldown r) env) health l !! k =
  (λ old, if decide (k ∈ l) then noted k old else old) <$> health !! k.
Proof.
  induction l as [|i l IH]; intros health; simpl; [by rewrite option_fmap_id|].
  rewrite IH, note_health_lookup, <-option_fmap_compose. apply option_fmap_ext. intros old. simpl.
  destruct (decide (k = i)) as [->|Hne].
  - rewrite (decide_True (P := i ∈ i :: l)) by (by left). case_decide; [apply noted_idemp|done].
  - destruct (decide (k ∈ l)); [by rewrite decide_True by (by right)|]. rewrite decide_False; [done|]. by intros [?|?]%elem_of_cons.
Qed.

(** The rested sources from [i] on. *)
Lemma eligible_rested : eligible_sources env (rs_health r) 0 (length (rs_sources r)) = rested_sources.
Proof. unfold eligible_sources, rested_sources. apply list_filter_iff. intros k. unfold available, rested. apply Z.leb_le. Qed.
Lemma available_rested k : available (nth k (rs_health r) 0) (at_check (env k)) = true ↔ rested k.
Proof. apply Z.leb_le. Qed.

Lemma first_reached name n : ∀ i k out, (i ≤ k < i + n)%nat → rested k →
  (∀ j, (i ≤ j < k)%nat → rested j → decided name (rs_sources r) env j = None) →
  decided name (rs_sources r) env k = Some out →
  first_decided name (rs_sources r) env (eligible_sources env (rs_health r) i n) = Some out.
Proof.
  induction n as [|n IH]; intros i k out Hk Hr Hj Hd; [lia|]. rewrite eligible_cons.
  destruct (decide (k = i)) as [->|].
  - rewrite (proj2 (available_rested i) Hr). simpl. by rewrite Hd.
  - assert (first_decided name (rs_sources r) env (eligible_sources env (rs_health r) (S i) n) = Some out) as Hrec.
    { apply (IH _ k); [lia|done| |done]. intros j ?. apply Hj. lia. }
    destruct (available _ _) eqn:Ha; [|done]. simpl. rewrite Hj; [done|lia|by apply available_rested].
Qed.
Lemma none_decided name n : ∀ i, (∀ j, (i ≤ j < i + n)%nat → rested j → decided name (rs_sources r) env j = None) →
  first_decided name (rs_sources r) env (eligible_sources env (rs_health r) i n) = None.
Proof.
  induction n as [|n IH]; intros i Hj; [done|]. rewrite eligible_cons.
  assert (first_decided name (rs_sources r) env (eligible_sources env (rs_health r) (S i) n) = None) as Hrec.
  { apply IH. intros j ?. apply Hj. lia. }
  destruct (available _ _) eqn:Ha; [|done]. simpl. rewrite Hj; [done|lia|by apply available_rested].
Qed.
Lemma asked_reached name n : ∀ i k, k ∈ asked name (rs_sources r) env (eligible_sources env (rs_health r) i n) ↔
  (i ≤ k < i + n)%nat ∧ rested k ∧ ∀ j, (i ≤ j < k)%nat → rested j → decided name (rs_sources r) env j = None.
Proof.
  induction n as [|n IH]; intros i k; [split; [by intros ?%elem_of_nil|lia]|]. rewrite eligible_cons.
  assert ((i ≤ k < i + S n)%nat ↔ k = i ∨ (S i ≤ k < S i + n)%nat) as Hrange by lia. rewrite Hrange.
  destruct (available _ _) eqn:Ha.
  - apply available_rested in Ha. simpl. rewrite elem_of_cons. destruct (decided _ _ _ i) as [out|] eqn:Hd.
    + split; [intros [->|[]%elem_of_nil]; split_and!; [by left|done|lia]|].
      intros ([->|Hk] & _ & Hj); [by left|]. rewrite Hj in Hd by (done || lia). done.
    + rewrite IH. split.
      * intros [->|(Hk & Hr & Hj)]; [split_and!; [by left|done|lia]|]. split_and!; [by right|done|]. intros j Hlt Hrj.
        destruct (decide (j = i)) as [->|]; [done|]. apply Hj; [lia|done].
      * intros ([->|Hk] & Hr & Hj); [by left|]. right. split_and!; try done; try lia. intros j ?. apply Hj. lia.
  - assert (¬ rested i) as Hni by (rewrite <-available_rested; congruence). rewrite IH. split.
    + intros (Hk & Hr & Hj). split_and!; [by right|done|]. intros j Hlt Hrj. destruct (decide (j = i)) as [->|]; [done|]. apply Hj; [lia|done].
    + intros ([->|Hk] & Hr & Hj); [done|]. split_and!; try done; try lia. intros j ?. apply Hj. lia.
Qed.
End promise.

(** C19: a lookup asks the sources in order and leaves out those that are
    cooling down. It is settled by the first of the others that does not fail:
    by its records, by its denial of the name, or by the end of the context; an
    answer without records is a failure. When all of them fail, the error lists
    exactly these sources with their failures, in order; when there is none, it
    says that all are cooling down. The health of the sources the lookup came to
    is cleared by an answer or a denial, put off by the cooldown by a failure
    and kept when the context had ended; nothing else changes. *)
Theorem failover_exact {T} name (env : nat → Attempt T) r :
  rs_sources r ≠ [] →
  let '(out, r') := lookupWithFailover name env r in
  (∀ i f settled, reached env r i → fate (env i) f → settles r name i f = Some settled → out = settled) ∧
  (rested_sources env r = [] → out = Err (AllCoolingDown name)) ∧
  (rested_sources env r ≠ [] → (∀ i, i ∈ rested_sources env r → ∃ e, fate (env i) (Failed e)) →
   ∃ failures, out = Err (FailedVia name ((λ i, nth i (rs_sources r) "") <$> rested_sources env r) failures) ∧
     Forall2 (λ i x, x.1 = nth i (rs_sources r) "" ∧ fate (env i) (Failed x.2)) (rested_sources env r) failures) ∧
  (∀ i f, reached env r i → fate (env i) f → rs_health r' !! i = new_health env r i f <$> rs_health r !! i) ∧
  (∀ i, ¬ reached env r i → rs_health r' !! i = rs_health r !! i) ∧
  r' = set_health (rs_health r') r.
Proof.
  intros Hne. unfold lookupWithFailover. rewrite !bool_decide_eq_false_2 by done.
  rewrite (loop_reference name (rs_sources r)) by done. cbv zeta. simpl. rewrite andb_true_r, eligible_rested.
  assert (∀ i, reached env r i ↔ i ∈ asked name (rs_sources r) env (rested_sources env r)) as Hreached.
  { intros i. rewrite <-eligible_rested, asked_reached. unfold reached. split.
    - intros (? & ? & Hj). split_and!; [lia..|done|]. intros j ? Hr. apply decided_failed, Hj; [lia|done].
    - intros (? & ? & Hj). split_and!; [lia|done|]. intros j ? Hr. eapply decided_failed, Hj; [lia|done]. }
  split_and!.
  - intros i f settled (Hi & Hr & Hj) Hf Hs. rewrite <-eligible_rested.
    rewrite (first_reached env r name _ 0 i settled); [done|lia|done| |by rewrite (fate_decided env r name i f)].
    intros j ? ?. apply decided_failed, Hj; [lia|done].
  - intros ->. done.
  - intros Hnil Hall. assert (first_decided name (rs_sources r) env (rested_sources env r) = None) as ->.
    { rewrite <-eligible_rested. apply none_decided. intros j Hj Hr. apply decided_failed, Hall.
      apply list_elem_of_filter. split; [done|]. apply elem_of_seq. lia. }
    rewrite bool_decide_eq_false_2 by done. eexists. split; [done|]. apply Forall2_fmap_r, Forall_Forall2_diag, Forall_forall.
    intros i Hi. split; [done|]. destruct (Hall i Hi) as [e He]. unfold failure_of. by rewrite (failed_judge env i e He).
  - intros i f Hi Hf. rewrite note_all_lookup. apply option_fmap_ext. intros old.
    rewrite decide_True by (by apply Hreached). by apply fate_noted.
  - intros i Hi. rewrite note_all_lookup. destruct (rs_health r !! i) as [old|]; [|done]. simpl.
    by rewrite decide_False by (by rewrite <-Hreached).
  - done.
Qed.

(** ** Interleaved lookups *)

Definition resolver_wf (r : Resolver) : Prop := length (rs_health r) = length (rs_sources r).

Section concurrent.
Context {T : Type} (r : Resolver).
Implicit Types (s : @LookupState T) (a : Attempt T).
Let n := length (rs_sources r).

(** The value [unhealthyUntil] of source [i] after the stores of the log. *)
Definition stored (i : nat) (log : list (nat * option Z)) : Z :=
  match last_store i log with
  | None => nth i (rs_health r) 0
  | Some None => 0
  | Some (Some t) => add64 t (rs_failureCooldown r)
  end.

Record lookups_ok s : Prop := {
  lo_length : length (lk_health s) = n;
  lo_health : ∀ i, (i < n)%nat → nth i (lk_health s) 0 = stored i (lk_log s);
  lo_asking : ∀ k run, lk_lookups s !! k = Some (Asking run) → (lr_index run < n)%nat;
}.

Lemma last_store_cons i j e log : last_store i ((j, e) :: log) = if decide (j = i) then Some e else last_store i log.
Proof.
  unfold last_store. simpl. destruct (decide (j = i)); simpl; [done|]. by destruct (list_find _ log) as [[??]|].
Qed.

Lemma mark_log a :
  mark (rs_failureCooldown r) a =
  (λ e : option Z, match e with None => 0 | Some t => add64 t (rs_failureCooldown r) end) <$> log_entry a.
Proof. unfold mark, log_entry. by destruct (judge a). Qed.

Lemma check_asking name a health run run' :
  check_source name (rs_sources r) a health run = Asking run' → run' = run ∧ (lr_index run < n)%nat.
Proof.
  unfold check_source. destruct (rs_sources r !! lr_index run) eqn:Hi; [|done].
  destruct (negb _); [done|]. destruct (at_before a); [done|]. intros [= <-]. split; [done|]. by apply lookup_lt_Some in Hi.
Qed.

Lemma ask_not_asking name a run run' : ask_source name (rs_sources r) a run ≠ Asking run'.
Proof. unfold ask_source. by destruct (judge a). Qed.

Lemma lookups_event e s : lookups_ok s → lookups_ok (lookup_event r e s).
Proof.
  intros [Hl Hh Ha]. destruct e as [|name k a]; simpl.
  - split; try done. intros k run. simpl. intros [Hk|[_ Hk]]%lookup_app_Some; [by eapply Ha|].
    by apply list_lookup_singleton_Some in Hk as [_ ?].
  - unfold lookup_step. destruct (lk_lookups s !! k) as [[run|run|out]|] eqn:Hk; try done.
    + split; try done. simpl. intros j run'. destruct (decide (k = j)) as [->|?].
      * rewrite list_lookup_insert_eq by (by apply lookup_lt_Some in Hk). by intros [= [-> ?]%check_asking].
      * rewrite list_lookup_insert_ne by done. apply Ha.
    + assert (lr_index run < n)%nat as Hi by (by eapply Ha). rewrite mark_log. split; simpl.
      * destruct (log_entry a); simpl; [by rewrite length_insert|done].
      * intros i Hin. destruct (log_entry a) as [e|]; simpl; [|by apply Hh].
        unfold stored. rewrite last_store_cons. rewrite nth_lookup. destruct (decide (lr_index run = i)) as [->|?].
        { rewrite list_lookup_insert_eq by lia. simpl. by destruct e. }
        rewrite list_lookup_insert_ne by done. rewrite <-nth_lookup. by apply Hh.
      * intros j run'. destruct (decide (k = j)) as [->|?].
        { rewrite list_lookup_insert_eq by (by apply lookup_lt_Some in Hk). by intros [= []%ask_not_asking]. }
        rewrite list_lookup_insert_ne by done. apply Ha.
Qed.

Lemma lookups_run events : resolver_wf r → lookups_ok (lookup_run r events (fresh_lookups r)).
Proof.
  intros Hwf. unfold lookup_run. assert (lookups_ok (fresh_lookups r)) as Hs by (by split).
  revert Hs. generalize (@fresh_lookups T r). induction events as [|e events IH]; intros s Hs; [done|].
  by apply IH, lookups_event.
Qed.

(** How many steps of its own a lookup has left at most. *)
Definition steps_left (p : @LookupPhase T) : nat :=
  match p with
  | Checking run => S (2 * (n - lr_index run))
  | Asking run => 2 * (n - lr_index run)
  | Finished _ => 0
  end.

Definition own_step (k : nat) (e : @LookupEvent T) : bool :=
  match e with StepLookup _ j _ => bool_decide (j = k) | BeginLookup => false end.

Lemma steps_left_event k e s p :
  lookups_ok s → lk_lookups s !! k = Some p →
  ∃ p', lk_lookups (lookup_event r e s) !! k = Some p' ∧
    (steps_left p' + (if own_step k e then 1 else 0) ≤ Nat.max (steps_left p) (if own_step k e then 1 else 0))%nat.
Proof.
  intros Hok Hk. assert (k < length (lk_lookups s))%nat as Hlt by (by apply lookup_lt_Some in Hk).
  destruct e as [|name j a]; simpl; [exists p; split; [by apply lookup_app_l_Some|lia]|].
  destruct (decide (j = k)) as [->|Hne].
  - rewrite bool_decide_eq_true_2 by done. unfold lookup_step. rewrite Hk. destruct p as [run|run|out]; simpl.
    + eexists. rewrite list_lookup_insert_eq by done. split; [done|]. unfold check_source.
      destruct (rs_sources r !! lr_index run) eqn:Hi; [|simpl; lia].
      assert (lr_index run < n)%nat by (by apply lookup_lt_Some in Hi).
      destruct (negb _); simpl; [lia|]. destruct (at_before a); simpl; lia.
    + eexists. rewrite list_lookup_insert_eq by done. split; [done|]. pose proof (lo_asking s Hok k run Hk).
      unfold ask_source. destruct (judge a); simpl; lia.
    + exists (Finished out). split; [done|]. simpl. lia.
  - rewrite bool_decide_eq_false_2 by done. exists p. split; [|lia]. unfold lookup_step.
    destruct (lk_lookups s !! j) as [[run|run|out]|]; simpl; try done; by rewrite list_lookup_insert_ne.
Qed.

Lemma steps_left_run k events s p :
  lookups_ok s → lk_lookups s !! k = Some p →
  ∃ p', lk_lookups (lookup_run r events s) !! k = Some p' ∧
    (steps_left p' ≤ steps_left p - length (filter (λ e, own_step k e = true) events))%nat.
Proof.
  revert s p. induction events as [|e events IH]; intros s p Hok Hk; [exists p; simpl; split; [done|lia]|].
  destruct (steps_left_event k e s p Hok Hk) as (p1 & Hk1 & Hle).
  destruct (IH _ p1 (lookups_event e s Hok) Hk1) as (p2 & Hk2 & Hle2). exists p2. split; [done|].
  rewrite filter_cons. destruct (own_step k e); simpl in *; lia.
Qed.
End concurrent.

(** however lookups overlap, a lookup asks a source exactly when that
    source is not in cooldown: the latest store to its health, by whichever
    lookup, was an answer, or a failure whose cooldown has ended. Otherwise it
    goes on to the next source. *)
Theorem source_asked_iff_healthy {T} r (events : list (@LookupEvent T)) name k run source (a : Attempt T) :
  let s := lookup_run r events (fresh_lookups r) in
  resolver_wf r → lk_lookups s !! k = Some (Checking run) → rs_sources r !! lr_index run = Some source → at_before a = None →
  lk_lookups (lookup_event r (StepLookup name k a) s) !! k =
  Some (if match last_store (lr_index run) (lk_log s) with
           | None => nth (lr_index run) (rs_health r) 0 <=? at_check a
           | Some None => 0 <=? at_check a
           | Some (Some failed) => add64 failed (rs_failureCooldown r) <=? at_check a
           end then Asking run else Checking (skip_source run)).
Proof.
  intros s Hwf Hk Hsource Hbefore. pose proof (lookups_run r events Hwf) as Hok. fold s in Hok.
  simpl. unfold lookup_step. rewrite Hk. simpl. rewrite list_lookup_insert_eq by (by apply lookup_lt_Some in Hk).
  unfold check_source. rewrite Hsource, Hbefore.
  assert (lr_index run < length (rs_sources r))%nat as Hi by (by apply lookup_lt_Some in Hsource).
  rewrite (lo_health r s Hok) by done. unfold stored, available.
  by destruct (last_store _ _) as [[t|]|], (_ <=? _).
Qed.

(** C20: no lookup waits for another: with [n] sources, a lookup is finished
    after [2 n + 1] of its own steps, whatever the other lookups do meanwhile
    and whatever the sources answer. *)
Theorem lookup_wait_free {T} r (before after : list (@LookupEvent T)) k :
  let s := lookup_run r before (fresh_lookups r) in
  resolver_wf r → lk_lookups s !! k = Some (Checking start_run) →
  (S (2 * length (rs_sources r)) ≤ length (filter (λ e, own_step k e = true) after))%nat →
  ∃ out, lk_lookups (lookup_run r after s) !! k = Some (Finished out).
Proof.
  intros s Hwf Hk Hn. destruct (steps_left_run r k after s (Checking start_run)) as (p & Hp & Hle); [by apply lookups_run|done|].
  rewrite Hp. destruct p as [run|run|out]; simpl in Hle; [lia| |by exists out].
  pose proof (lookups_run r (before ++ after) Hwf) as Hok. unfold lookup_run in Hok. rewrite foldl_app in Hok.
  pose proof (lo_asking r _ Hok k run Hp). lia.
Qed.

(** A lookup that runs alone does what [lookupWithFailover] says: the steps
    refine the function. *)
Section solo.
Context {T : Type} (r : Resolver) (name : string) (env : nat → Attempt T) (k : nat).

Definition reaches (s : @LookupState T) (out : result LookupError (list T)) (health : list Z) : Prop :=
  ∃ events, forallb (own_step k) events = true ∧
    lk_lookups (lookup_run r events s) !! k = Some (Finished out) ∧ lk_health (lookup_run r events s) = health.

Lemma reaches_step a s out health : reaches (lookup_step r name k a s) out health → reaches s out health.
Proof.
  intros (events & ? & ? & ?). exists (StepLookup name k a :: events). simpl. by rewrite bool_decide_eq_true_2.
Qed.

Lemma reaches_done s out : lk_lookups s !! k = Some (Finished out) → reaches s out (lk_health s).
Proof. by exists []. Qed.

Lemma solo_loop sources run s :
  drop (lr_index run) (rs_sources r) = sources → lk_lookups s !! k = Some (Checking run) →
  let '(out, health) := failover_loop (rs_failureCooldown r) name env (lr_index run) sources (lr_eligible run)
                          (lr_used run) (lr_failures run) (lk_health s) in
  reaches s out health.
Proof.
  revert run s. induction sources as [|source sources IH]; intros run s Hdrop Hk;
    assert (k < length (lk_lookups s))%nat as Hlt by (by apply lookup_lt_Some in Hk);
    assert (rs_sources r !! lr_index run = drop (lr_index run) (rs_sources r) !! 0%nat) as Hsrc
      by (by rewrite lookup_drop, Nat.add_0_r); rewrite Hdrop in Hsrc; simpl in *.
  { apply (reaches_step (env 0%nat)). unfold lookup_step. rewrite Hk. unfold check_source. rewrite Hsrc.
    by apply (reaches_done {| lk_health := _; lk_log := _; lk_lookups := _ |}), list_lookup_insert_eq. }
  assert (drop (S (lr_index run)) (rs_sources r) = sources) as Hrest.
  { rewrite <-(Nat.add_1_r (lr_index run)), <-drop_drop, Hdrop. done. }
  set (a := env (lr_index run)).
  destruct (negb (available _ _)) eqn:Hav.
  - pose proof (IH (skip_source run) {| lk_health := lk_health s; lk_log := lk_log s;
      lk_lookups := <[k := Checking (skip_source run)]> (lk_lookups s) |} Hrest
      (list_lookup_insert_eq _ _ _ Hlt)) as Hrec. simpl in Hrec.
    destruct (failover_loop _ _ _ _ _ _ _ _ _) as [out health]. apply (reaches_step a).
    unfold lookup_step. rewrite Hk. unfold check_source. by rewrite Hsrc, Hav.
  - destruct (at_before _) as [e|] eqn:Hb.
    { apply (reaches_step a). unfold lookup_step. rewrite Hk. unfold check_source. rewrite Hsrc, Hav. subst a. rewrite Hb.
      by apply (reaches_done {| lk_health := _; lk_log := _; lk_lookups := _ |}), list_lookup_insert_eq. }
    assert (∀ out health,
      reaches (lookup_step r name k a {| lk_health := lk_health s; lk_log := lk_log s;
        lk_lookups := <[k := Asking run]> (lk_lookups s) |}) out health → reaches s out health) as Hask.
    { intros out health ?. apply (reaches_step a). unfold lookup_step at 1. rewrite Hk. unfold check_source.
      rewrite Hsrc, Hav. subst a. rewrite Hb. by apply (reaches_step (env (lr_index run))). }
    unfold lookup_step in Hask. simpl in Hask. rewrite list_lookup_insert_eq, list_insert_insert_eq in Hask by done.
    unfold ask_source in Hask. rewrite nth_lookup, Hsrc in Hask. simpl in Hask. fold a.
    destruct (judge a) as [values|e|e|e] eqn:Hj; cbn beta iota.
    1-3: by apply Hask, (reaches_done {| lk_health := _; lk_log := _; lk_lookups := _ |}), list_lookup_insert_eq.
    pose proof (IH (next_source source e run) {| lk_health := match mark (rs_failureCooldown r) a with
        Some v => <[lr_index run := v]> (lk_health s) | None => lk_health s end;
        lk_log := match log_entry a with Some e => (lr_index run, e) :: lk_log s | None => lk_log s end;
        lk_lookups := <[k := Checking (next_source source e run)]> (lk_lookups s) |} Hrest
        (list_lookup_insert_eq _ _ _ Hlt)) as Hrec. simpl in Hrec.
    destruct (failover_loop _ _ _ _ _ _ _ _ _) as [out health]. by apply Hask.
Qed.

End solo.

Theorem solo_lookup {T} r name (env : nat → Attempt T) out r' :
  rs_sources r ≠ [] → lookupWithFailover name env r = (out, r') →
  reaches r 0 (lookup_event r BeginLookup (fresh_lookups r)) out (rs_health r').
Proof.
  intros Hne Hl. unfold lookupWithFailover in Hl. rewrite !bool_decide_eq_false_2 in Hl by done.
  pose proof (solo_loop r name env 0 (rs_sources r) start_run (lookup_event r BeginLookup (fresh_lookups r))
    eq_refl eq_refl) as H.
  simpl in H. destruct (failover_loop _ _ _ _ _ _ _ _ _). injection Hl as <- <-. done.
Qed.

(** ** Dialing *)

Section dial.
Context (network port : string) (dial : nat → string → option string).

Definition endpoint_of (ip : Addr) : string := JoinHostPort (IPString ip) port.

(** The [i]-th address accepts a connection. *)
Definition dials (i : nat) (ip : Addr) : Prop :=
  networkAcceptsIP network ip = true ∧ dial i (endpoint_of ip) = None.
(** The [i]-th address was no use: of the other family, or the dial failed. *)
Definition fails (i : nat) (ip : Addr) : Prop :=
  networkAcceptsIP network ip = false ∨ is_Some (dial i (endpoint_of ip)).

Lemma dial_loop_spec i addresses failures :
  match dial_loop network port dial i addresses failures with
  | inl endpoint => ∃ j ip, addresses !! j = Some ip ∧ dials (i + j) ip ∧ endpoint = endpoint_of ip ∧
      ∀ j' ip', (j' < j)%nat → addresses !! j' = Some ip' → fails (i + j') ip'
  | inr out => (∀ j ip, addresses !! j = Some ip → fails (i + j) ip) ∧
      ∃ errors, out = failures ++ zip (endpoint_of <$> filter (λ ip, networkAcceptsIP network ip = true) addresses) errors ∧
        length errors = length (filter (λ ip, networkAcceptsIP network ip = true) addresses)
  end.
Proof.
  revert i failures. induction addresses as [|ip addresses IH]; intros i failures; simpl.
  { split; [by intros|]. exists []. by rewrite app_nil_r. }
  rewrite filter_cons. destruct (networkAcceptsIP network ip) eqn:Ha; simpl.
  - fold (endpoint_of ip). destruct (dial i (endpoint_of ip)) as [e|] eqn:Hd.
    + assert (fails (i + 0) ip) as Hf by (right; by rewrite Nat.add_0_r, Hd).
      specialize (IH (S i) (failures ++ [(endpoint_of ip, e)])). destruct (dial_loop _ _ _ _ _ _).
      * destruct IH as (j & ip' & Hj & Hdj & -> & Hlt). exists (S j), ip'. rewrite <-Nat.add_succ_comm. split_and!; try done.
        intros [|j'] ip'' ?; simpl; [by intros [= <-]|]. rewrite <-Nat.add_succ_comm. apply Hlt. lia.
      * destruct IH as (Hall & errors & -> & Hlen). split.
        { intros [|j] ip'; simpl; [by intros [= <-]|]. rewrite <-Nat.add_succ_comm. apply Hall. }
        exists (e :: errors). simpl. rewrite <-app_assoc. simpl. by rewrite Hlen.
    + exists 0%nat, ip. rewrite Nat.add_0_r. split_and!; try done. lia.
  - assert (fails (i + 0) ip) as Hf by (by left).
    specialize (IH (S i) failures). destruct (dial_loop _ _ _ _ _ _).
    + destruct IH as (j & ip' & Hj & Hdj & -> & Hlt). exists (S j), ip'. rewrite <-Nat.add_succ_comm. split_and!; try done.
      intros [|j'] ip'' ?; simpl; [by intros [= <-]|]. rewrite <-Nat.add_succ_comm. apply Hlt. lia.
    + destruct IH as (Hall & errors & -> & Hlen). split; [|by exists errors].
      intros [|j] ip'; simpl; [by intros [= <-]|]. rewrite <-Nat.add_succ_comm. apply Hall.
Qed.
End dial.

(** dialing a host name connects to the first address of the answer, in
    its order, that the network accepts and that can be dialed; every earlier
    address was of the other family or failed. It fails only when no address
    can be dialed, and then reports one failure for each accepted address, or
    that there is none. *)
Theorem dial_connects_first env dial network address r out r' host port addresses :
  SplitHostPort (TrimSpace address) = Some (host, port) → Netip.ParseAddr host = None → host ≠ "" →
  LookupIPAddr env host r = (Ok addresses, r') → DialContext env dial network address r = (out, r') →
  match out with
  | Ok endpoint => ∃ j ip, addresses !! j = Some ip ∧ dials network port dial j ip ∧ endpoint = endpoint_of port ip ∧
      ∀ j' ip', (j' < j)%nat → addresses !! j' = Some ip' → fails network port dial j' ip'
  | Err e => (∀ j ip, addresses !! j = Some ip → fails network port dial j ip) ∧
      let accepted := filter (λ ip, networkAcceptsIP network ip = true) addresses in
      (accepted = [] ∧ e = NoAddressFor host network ∨
       accepted ≠ [] ∧ ∃ errors, e = DialFailed address (zip (endpoint_of port <$> accepted) errors) ∧
         length errors = length accepted)
  end.
Proof.
  intros Hsplit Hname Hhost Hlookup. unfold DialContext. rewrite Hsplit, Hname, Hlookup.
  rewrite !bool_decide_eq_false_2 by (done || intros [? [=]]). simpl.
  pose proof (dial_loop_spec network port dial 0 addresses []) as H.
  destruct (dial_loop _ _ _ _ _ _) as [endpoint|failures]; intros [= <-]; [done|].
  destruct H as (Hall & errors & -> & Hlen). simpl.
  destruct (filter _ addresses) as [|ip l] eqn:Hf; destruct errors as [|e errors]; try done; simpl.
  - split; [done|]. by left.
  - split; [done|]. right. split; [done|]. by exists (e :: errors).
Qed.

(** ** Witnesses *)

(** The system resolver times out at second 5, the first fallback answers. *)
Definition timeout_error : DNSError := {| de_Text := "i/o timeout"; de_IsNotFound := false |}.
Definition sample_attempt (i : nat) : Attempt Addr := {|
  at_check := 3 * second; at_before := None; at_values := if (i =? 0)%nat then [] else [Addr6 1 ""; Addr4 167772161];
  at_err := if (i =? 0)%nat then Some timeout_error else None; at_after := None; at_fail := 5 * second |}.
(** A reply at second [t] of a lookup that came later. *)
Definition attempt_at (t : Z) : Attempt Addr := {|
  at_check := t * second; at_before := None; at_values := [Addr4 1]; at_err := None; at_after := None; at_fail := t * second |}.

Lemma failover_exact_witness :
  rs_sources New ≠ [] ∧ reached sample_attempt New 1 ∧ ¬ reached sample_attempt New 2 ∧
  lookupWithFailover "example.org" sample_attempt New =
  (Ok [Addr6 1 ""; Addr4 167772161], set_health [35 * second; 0; 0] New).
Proof.
  assert (fate (sample_attempt 0) (Failed timeout_error)) as Hfail by (by apply fate_failed).
  assert (fate (sample_attempt 1) (Records [Addr6 1 ""; Addr4 167772161])) as Hrec by (by eapply fate_records).
  assert (reached sample_attempt New 0) as H0 by (split_and!; [simpl; lia|done|lia]).
  assert (reached sample_attempt New 1) as H1.
  { split_and!; [simpl; lia|done|]. intros [|k] ? _; [by exists timeout_error|lia]. }
  assert (¬ reached sample_attempt New 2) as H2.
  { intros (_ & _ & Hk). destruct (Hk 1%nat ltac:(lia)) as [e He]; [done|]. inversion He; discriminate. }
  split_and!; [done..|]. pose proof (failover_exact "example.org" sample_attempt New ltac:(done)) as H.
  destruct (lookupWithFailover "example.org" sample_attempt New) as [out r']. destruct H as (Hout & _ & _ & Hasked & Hrest & Hr').
  rewrite (Hout 1%nat _ _ H1 Hrec eq_refl). f_equal. rewrite Hr'. f_equal.
  pose proof (Hasked 0%nat _ H0 Hfail) as E0. pose proof (Hasked 1%nat _ H1 Hrec) as E1.
  apply list_eq. intros [|[|k]]; [exact E0|exact E1|]. rewrite (Hrest (S (S k))).
  - by destruct k.
  - intros (_ & _ & Hk). destruct (Hk 1%nat ltac:(lia)) as [e He]; [done|]. inversion He; discriminate.
Defined.

(** The second lookup finds the system resolver in cooldown until second 35. *)
Definition one_failure : list (@LookupEvent Addr) :=
  [BeginLookup; BeginLookup; StepLookup "example.org" 0 (sample_attempt 0); StepLookup "example.org" 0 (sample_attempt 0)].

Lemma source_asked_iff_healthy_witness :
  let s := lookup_run New one_failure (fresh_lookups New) in
  last_store 0 (lk_log s) = Some (Some (5 * second)) ∧
  lk_lookups (lookup_event New (StepLookup "a.net" 1 (attempt_at 34)) s) !! 1%nat = Some (Checking (skip_source start_run)) ∧
  lk_lookups (lookup_event New (StepLookup "a.net" 1 (attempt_at 35)) s) !! 1%nat = Some (Asking start_run).
Proof.
  intros s. split; [vm_compute; reflexivity|].
  assert (resolver_wf New) as Hwf by done.
  assert (lk_lookups s !! 1%nat = Some (Checking start_run)) as Hk by (vm_compute; reflexivity).
  split.
  - exact (source_asked_iff_healthy New one_failure "a.net" 1 start_run "system" (attempt_at 34) Hwf Hk eq_refl eq_refl).
  - exact (source_asked_iff_healthy New one_failure "a.net" 1 start_run "system" (attempt_at 35) Hwf Hk eq_refl eq_refl).
Defined.

Lemma lookup_wait_free_witness :
  let s := lookup_run New one_failure (fresh_lookups New) in
  let own := replicate 7 (StepLookup "a.net" 1 (attempt_at 1)) in
  ∃ out, lk_lookups (lookup_run New own s) !! 1%nat = Some (Finished out).
Proof.
  intros s own. apply (lookup_wait_free New one_failure own 1); [done|vm_compute; reflexivity|].
  assert (length (filter (λ e, own_step 1 e = true) own) = 7%nat) as -> by (vm_compute; reflexivity). simpl. lia.
Defined.

Lemma dial_connects_first_witness :
  let dial (i : nat) (endpoint : string) := if bool_decide (endpoint = "10.0.0.1:80") then None else Some "refused" in
  ∃ j, [Addr6 1 ""; Addr4 167772161] !! j = Some (Addr4 167772161) ∧
    DialContext sample_attempt dial "tcp4" "example.org:80" New = (Ok "10.0.0.1:80", set_health [35 * second; 0; 0] New).
Proof.
  intros dial.
  assert (DialContext sample_attempt dial "tcp4" "example.org:80" New =
    (Ok "10.0.0.1:80", set_health [35 * second; 0; 0] New)) as Hd by (vm_compute; reflexivity).
  destruct (dial_connects_first sample_attempt dial "tcp4" "example.org:80" New _ _ "example.org" "80"
    [Addr6 1 ""; Addr4 167772161] eq_refl eq_refl ltac:(discriminate) (eq_refl : _ = (_, set_health [35 * second; 0; 0] New)) Hd)
    as (j & ip & Hj & [Hacc _] & _).
  exists j. split; [|done]. rewrite Hj. destruct j as [|[|j]]; simpl in Hj; [|by injection Hj as <-|done].
  injection Hj as <-. by vm_compute in Hacc.
Defined.
