(* ===== verification/TunnelConfig.v ===== *)
(** * Reverse tunnels: configuration, protocol messages and access control
    (tunnel/config.go, tunnel/protocol.go, tunnel/reload.go, tunnel/client.go)

    The pure part of the tunnels: the two configuration files and their
    normalization, the messages of the control connection, the access rules of a
    client, and the reconnect delay.  Decoding of YAML and JSON is third-party or
    an answer of the peer; a configuration and a message are given decoded. *)

From S2P Require Import Prelude GoStrings Duration NetIP Config.

(** ** The documents *)

Definition DefaultServerListenAddr : string := "0.0.0.0:18080".
Definition DefaultTunnelControlListenAddr : string := "127.0.0.1:19091".
Definition DefaultDialTimeout : string := "10s".
Definition DefaultOpenTimeout : string := "10s".
Definition DefaultReconnectMin : string := "1s".
Definition DefaultReconnectMax : string := "30s".

Record TLSConfig := {
  tc_Enabled : bool; tc_CertFile : string; tc_KeyFile : string; tc_ServerName : string; tc_InsecureSkipVerify : bool
}.
Record AllowConfig := { al_Protocols : list string; al_RemotePorts : list Z; al_MaxTunnels : Z }.
Record ServerClientACL := { acl_ClientID : string; acl_Token : string; acl_Allow : AllowConfig }.
Record TunnelServerConfig := {
  ts_Enabled : bool; ts_ListenAddr : string; ts_TLS : TLSConfig; ts_OpenTimeout : string; ts_Clients : list ServerClientACL
}.
Record ServerConfig := {
  sv_Version : Z; sv_ControlListenAddr : string; sv_Log : LogConfig; sv_Auth : AuthConfig; sv_TunnelServer : TunnelServerConfig
}.
Record TunnelSpec := {
  sp_TunnelID : string; sp_Protocol : string; sp_RemoteListenAddr : string; sp_RemoteListenPort : Z;
  sp_LocalAddr : string; sp_LocalPort : Z; sp_MaxConn : Z; sp_SpeedLimit : Z; sp_Remark : string
}.
Record TunnelClientConfig := {
  tcl_Enabled : bool; tcl_ServerAddr : string; tcl_TLS : TLSConfig; tcl_ClientID : string; tcl_Token : string;
  tcl_DialTimeout : string; tcl_ReconnectMin : string; tcl_ReconnectMax : string; tcl_Tunnels : list TunnelSpec
}.
Record ClientConfig := { cl_Version : Z; cl_Log : LogConfig; cl_TunnelClient : TunnelClientConfig }.

#[export] Instance TLSConfig_eq_dec : EqDecision TLSConfig.
Proof. solve_decision. Defined.
#[export] Instance AllowConfig_eq_dec : EqDecision AllowConfig.
Proof. solve_decision. Defined.
#[export] Instance ServerClientACL_eq_dec : EqDecision ServerClientACL.
Proof. solve_decision. Defined.
#[export] Instance TunnelSpec_eq_dec : EqDecision TunnelSpec.
Proof. solve_decision. Defined.

Inductive TunnelError :=
| BadTunnelVersion (v : Z)
| BadControlAddr (addr : string)
| BadServerListenAddr (addr : string)
| TLSFilesMissing
| ClientIDMissing (index : nat)
| ClientTokenMissing (index : nat)
| DuplicateClientID (id : string)
| ServerAddrMissing
| BadServerAddr (addr : string)
| OwnIDMissing
| OwnTokenMissing
| NoTunnels
| TunnelInvalid (index : nat) (e : TunnelError)
| DuplicateTunnelID (id : string)
| SameRemoteListener (first second key : string)
| TunnelIDMissing
| UnsupportedProtocol (p : string)
| RemotePortRange
| LocalAddrMissing
| LocalPortRange
| MaxConnNegative
| SpeedLimitNegative
| TokenRoleInvalid (index : nat) (role : string)
| TokenValueMissing (index : nat)
| TokenValueDuplicate (index : nat)
| NoAuthTokens
| ProtocolNotAllowed (p : string)
| RemotePortNotAllowed (port : Z).

(** ** Tunnels *)

Definition normalizeTunnelSpec (spec : TunnelSpec) : TunnelSpec := {|
  sp_TunnelID := TrimSpace (sp_TunnelID spec);
  sp_Protocol := or_default "tcp" (ToLower (TrimSpace (sp_Protocol spec)));
  sp_RemoteListenAddr := or_default "0.0.0.0" (TrimSpace (sp_RemoteListenAddr spec));
  sp_RemoteListenPort := sp_RemoteListenPort spec;
  sp_LocalAddr := or_default "127.0.0.1" (TrimSpace (sp_LocalAddr spec));
  sp_LocalPort := sp_LocalPort spec; sp_MaxConn := sp_MaxConn spec; sp_SpeedLimit := sp_SpeedLimit spec;
  sp_Remark := TrimSpace (sp_Remark spec) |}.

Definition validateTunnelSpec (spec : TunnelSpec) : result TunnelError () :=
  check (bool_decide (sp_TunnelID spec = "")) TunnelIDMissing ≫= λ _,
  check (bool_decide (sp_Protocol spec ≠ "tcp") && bool_decide (sp_Protocol spec ≠ "udp"))
    (UnsupportedProtocol (sp_Protocol spec)) ≫= λ _,
  check ((sp_RemoteListenPort spec <=? 0) || (65535 <? sp_RemoteListenPort spec)) RemotePortRange ≫= λ _,
  check (bool_decide (sp_LocalAddr spec = "")) LocalAddrMissing ≫= λ _,
  check ((sp_LocalPort spec <=? 0) || (65535 <? sp_LocalPort spec)) LocalPortRange ≫= λ _,
  check (sp_MaxConn spec <? 0) MaxConnNegative ≫= λ _,
  check (sp_SpeedLimit spec <? 0) SpeedLimitNegative.

Definition remoteListenKey (spec : TunnelSpec) : string :=
  ToLower (TrimSpace (sp_Protocol spec)) +:+ ":" +:+
  JoinHostPort (TrimSpace (sp_RemoteListenAddr spec)) (FormatInt (sp_RemoteListenPort spec)).

Definition sort_ints (l : list Z) : list Z := merge_sort Z.le l.
Definition normalizeAllow (allow : AllowConfig) : AllowConfig := {|
  al_Protocols := sort_strings ((λ p, ToLower (TrimSpace p)) <$> al_Protocols allow);
  al_RemotePorts := sort_ints (al_RemotePorts allow); al_MaxTunnels := al_MaxTunnels allow |}.

(** ** The server's file *)

Fixpoint normalize_tunnel_tokens (enabled : bool) (index : nat) (seen : gset string) (tokens : list AuthToken)
    : result TunnelError (list AuthToken * gset string) :=
  match tokens with
  | [] => Ok ([], seen)
  | token :: tokens =>
      let name := TrimSpace (at_Name token) in
      let value := TrimSpace (at_Token token) in
      let role := or_default AuthRoleAdmin (ToLower (TrimSpace (at_Role token))) in
      check (negb (bool_decide (role = AuthRoleAdmin)) && negb (bool_decide (role = AuthRoleViewer)))
        (TokenRoleInvalid index role) ≫= λ _,
      if bool_decide (value = "") then
        check enabled (TokenValueMissing index) ≫= λ _,
        '(rest, seen) ← normalize_tunnel_tokens enabled (S index) seen tokens;
        Ok ({| at_Name := name; at_Token := value; at_Role := role |} :: rest, seen)
      else
        check (bool_decide (value ∈ seen)) (TokenValueDuplicate index) ≫= λ _,
        let name := or_default ("token-" +:+ FormatInt (Z.of_nat index + 1)) name in
        '(rest, seen) ← normalize_tunnel_tokens enabled (S index) ({[ value ]} ∪ seen) tokens;
        Ok ({| at_Name := name; at_Token := value; at_Role := role |} :: rest, seen)
  end.

Definition normalizeTunnelAuth (auth : AuthConfig) : result TunnelError AuthConfig :=
  '(tokens, seen) ← normalize_tunnel_tokens (ac_Enabled auth) 0 ∅ (ac_Tokens auth);
  check (ac_Enabled auth && bool_decide (seen = ∅)) NoAuthTokens ≫= λ _,
  Ok {| ac_Enabled := ac_Enabled auth; ac_Tokens := tokens |}.

Definition normalize_tunnel_tls (t : TLSConfig) : result TunnelError TLSConfig :=
  if tc_Enabled t || bool_decide (tc_CertFile t ≠ "") || bool_decide (tc_KeyFile t ≠ "") then
    let t := {| tc_Enabled := true; tc_CertFile := TrimSpace (tc_CertFile t); tc_KeyFile := TrimSpace (tc_KeyFile t);
                tc_ServerName := tc_ServerName t; tc_InsecureSkipVerify := tc_InsecureSkipVerify t |} in
    check (bool_decide (tc_CertFile t = "") || bool_decide (tc_KeyFile t = "")) TLSFilesMissing ≫= λ _, Ok t
  else Ok t.

Fixpoint normalize_clients (index : nat) (seen : gset string) (clients : list ServerClientACL)
    : result TunnelError (list ServerClientACL) :=
  match clients with
  | [] => Ok []
  | client :: clients =>
      let id := TrimSpace (acl_ClientID client) in
      let token := TrimSpace (acl_Token client) in
      check (bool_decide (id = "")) (ClientIDMissing index) ≫= λ _,
      check (bool_decide (token = "")) (ClientTokenMissing index) ≫= λ _,
      check (bool_decide (id ∈ seen)) (DuplicateClientID id) ≫= λ _,
      rest ← normalize_clients (S index) ({[ id ]} ∪ seen) clients;
      Ok ({| acl_ClientID := id; acl_Token := token; acl_Allow := normalizeAllow (acl_Allow client) |} :: rest)
  end.

Definition normalizeServerConfig (cfg : ServerConfig) : result TunnelError ServerConfig :=
  let version := if sv_Version cfg =? 0 then 1 else sv_Version cfg in
  check (negb (version =? 1)) (BadTunnelVersion version) ≫= λ _,
  let control := or_default DefaultTunnelControlListenAddr (TrimSpace (sv_ControlListenAddr cfg)) in
  check (bool_decide (SplitHostPort control = None)) (BadControlAddr control) ≫= λ _,
  auth ← normalizeTunnelAuth (sv_Auth cfg);
  let t := sv_TunnelServer cfg in
  let listen := or_default DefaultServerListenAddr (TrimSpace (ts_ListenAddr t)) in
  check (bool_decide (SplitHostPort listen = None)) (BadServerListenAddr listen) ≫= λ _,
  let timeout := or_default DefaultOpenTimeout (TrimSpace (ts_OpenTimeout t)) in
  tls ← normalize_tunnel_tls (ts_TLS t);
  clients ← normalize_clients 0 ∅ (ts_Clients t);
  Ok {| sv_Version := version; sv_ControlListenAddr := control; sv_Log := sv_Log cfg; sv_Auth := auth;
        sv_TunnelServer := {| ts_Enabled := ts_Enabled t; ts_ListenAddr := listen; ts_TLS := tls;
                              ts_OpenTimeout := timeout; ts_Clients := clients |} |}.

(** ** The client's file *)

Fixpoint normalize_tunnels (index : nat) (seen : gset string) (remote : gmap string string) (specs : list TunnelSpec)
    : result TunnelError (list TunnelSpec) :=
  match specs with
  | [] => Ok []
  | spec :: specs =>
      let spec := normalizeTunnelSpec spec in
      match validateTunnelSpec spec with
      | Err e => Err (TunnelInvalid index e)
      | Ok _ =>
          check (bool_decide (sp_TunnelID spec ∈ seen)) (DuplicateTunnelID (sp_TunnelID spec)) ≫= λ _,
          let key := remoteListenKey spec in
          match remote !! key with
          | Some other => Err (SameRemoteListener other (sp_TunnelID spec) key)
          | None =>
              rest ← normalize_tunnels (S index) ({[ sp_TunnelID spec ]} ∪ seen) (<[key := sp_TunnelID spec]> remote) specs;
              Ok (spec :: rest)
          end
      end
  end.

Definition normalizeClientConfig (cfg : ClientConfig) : result TunnelError ClientConfig :=
  let version := if cl_Version cfg =? 0 then 1 else cl_Version cfg in
  check (negb (version =? 1)) (BadTunnelVersion version) ≫= λ _,
  let c := cl_TunnelClient cfg in
  let addr := TrimSpace (tcl_ServerAddr c) in
  check (bool_decide (addr = "")) ServerAddrMissing ≫= λ _,
  check (bool_decide (SplitHostPort addr = None)) (BadServerAddr addr) ≫= λ _,
  let id := TrimSpace (tcl_ClientID c) in
  let token := TrimSpace (tcl_Token c) in
  check (bool_decide (id = "")) OwnIDMissing ≫= λ _,
  check (bool_decide (token = "")) OwnTokenMissing ≫= λ _,
  let t := tcl_TLS c in
  let host := match SplitHostPort addr with Some (host, _) => host | None => "" end in
  let tls := {| tc_Enabled := tc_Enabled t; tc_CertFile := tc_CertFile t; tc_KeyFile := tc_KeyFile t;
                tc_ServerName := or_default host (tc_ServerName t); tc_InsecureSkipVerify := tc_InsecureSkipVerify t |} in
  check (bool_decide (tcl_Tunnels c = [])) NoTunnels ≫= λ _,
  tunnels ← normalize_tunnels 0 ∅ ∅ (tcl_Tunnels c);
  Ok {| cl_Version := version; cl_Log := cl_Log cfg;
        cl_TunnelClient := {| tcl_Enabled := tcl_Enabled c; tcl_ServerAddr := addr; tcl_TLS := tls; tcl_ClientID := id;
          tcl_Token := token; tcl_DialTimeout := or_default DefaultDialTimeout (TrimSpace (tcl_DialTimeout c));
          tcl_ReconnectMin := or_default DefaultReconnectMin (TrimSpace (tcl_ReconnectMin c));
          tcl_ReconnectMax := or_default DefaultReconnectMax (TrimSpace (tcl_ReconnectMax c));
          tcl_Tunnels := tunnels |} |}.

(** ** Messages *)

Definition ProtocolVersion : Z := 1.
Record Message := {
  msg_Type : string; msg_Version : Z; msg_ClientID : string; msg_Token : string; msg_SessionID : string;
  msg_TunnelID : string; msg_ConnID : string; msg_Tunnels : list TunnelSpec; msg_OK : bool; msg_Error : string; msg_Time : Z
}.

Definition normalizeMessage (msg : Message) : Message := {|
  msg_Type := ToLower (TrimSpace (msg_Type msg));
  msg_Version := if msg_Version msg =? 0 then ProtocolVersion else msg_Version msg;
  msg_ClientID := TrimSpace (msg_ClientID msg); msg_Token := TrimSpace (msg_Token msg);
  msg_SessionID := TrimSpace (msg_SessionID msg); msg_TunnelID := TrimSpace (msg_TunnelID msg);
  msg_ConnID := TrimSpace (msg_ConnID msg); msg_Tunnels := msg_Tunnels msg; msg_OK := msg_OK msg;
  msg_Error := msg_Error msg; msg_Time := msg_Time msg |}.

Inductive MessageError := BadVersion (v : Z) | MissingType.

(** [readMessageLine] from the decoded line on. *)
Definition read_message (decoded : Message) : result MessageError Message :=
  let msg := normalizeMessage decoded in
  check (negb (msg_Version msg =? ProtocolVersion)) (BadVersion (msg_Version msg)) ≫= λ _,
  check (bool_decide (msg_Type msg = "")) MissingType ≫= λ _, Ok msg.

(** [writeMessage] up to the encoder: [now] is the clock. *)
Definition write_message (now : Z) (msg : Message) : Message :=
  let msg := normalizeMessage msg in
  if msg_Time msg =? 0 then
    {| msg_Type := msg_Type msg; msg_Version := msg_Version msg; msg_ClientID := msg_ClientID msg;
       msg_Token := msg_Token msg; msg_SessionID := msg_SessionID msg; msg_TunnelID := msg_TunnelID msg;
       msg_ConnID := msg_ConnID msg; msg_Tunnels := msg_Tunnels msg; msg_OK := msg_OK msg;
       msg_Error := msg_Error msg; msg_Time := now |}
  else msg.

Definition pendingKey (clientID tunnelID connID : string) : string :=
  TrimSpace clientID +:+ ":" +:+ TrimSpace tunnelID +:+ ":" +:+ TrimSpace connID.

(** ** Access control *)

Definition clientACL (cfg : ServerConfig) (clientID : string) : option ServerClientACL :=
  let clientID := TrimSpace clientID in
  snd <$> list_find (λ acl, acl_ClientID acl = clientID) (ts_Clients (sv_TunnelServer cfg)).

(** [Server.authenticate]. *)
Definition authenticate (cfg : ServerConfig) (clientID token : string) : option ServerClientACL :=
  let clientID := TrimSpace clientID in
  let token := TrimSpace token in
  snd <$> list_find (λ acl, acl_ClientID acl = clientID ∧ acl_Token acl = token) (ts_Clients (sv_TunnelServer cfg)).

Definition aclAllows (allow : AllowConfig) (spec : TunnelSpec) : result TunnelError () :=
  check (bool_decide (al_Protocols allow ≠ []) && negb (existsb (λ p, EqualFold p (sp_Protocol spec)) (al_Protocols allow)))
    (ProtocolNotAllowed (sp_Protocol spec)) ≫= λ _,
  check (bool_decide (al_RemotePorts allow ≠ []) && negb (bool_decide (sp_RemoteListenPort spec ∈ al_RemotePorts allow)))
    (RemotePortNotAllowed (sp_RemoteListenPort spec)).

Definition too_many (allow : AllowConfig) (tunnels : list TunnelSpec) : bool :=
  (0 <? al_MaxTunnels allow) && (al_MaxTunnels allow <? Z.of_nat (length tunnels)).

(** [sessionAllowedByConfig] of a session's client, token and tunnels. *)
Definition sessionAllowedByConfig (cfg : ServerConfig) (clientID token : string) (tunnels : list TunnelSpec) : bool :=
  match clientACL cfg clientID with
  | None => false
  | Some acl =>
      bool_decide (acl_Token acl = token) && negb (too_many (acl_Allow acl) tunnels) &&
      forallb (λ spec, is_ok (aclAllows (acl_Allow acl) spec)) tunnels
  end.

(** ** The client *)

(** [Client.findTunnel]. *)
Definition findTunnel (c : TunnelClientConfig) (tunnelID : string) : option TunnelSpec :=
  let tunnelID := TrimSpace tunnelID in
  snd <$> list_find (λ spec, sp_TunnelID spec = tunnelID) (tcl_Tunnels c).

Definition parseDurationOrDefault (value : string) (fallback : Z) : Z :=
  let value := TrimSpace value in
  if bool_decide (value = "") then fallback
  else match ParseDuration value with
  | Some d => if d <=? 0 then fallback else d
  | None => fallback
  end.

(** [Client.Run]: the delays between two connections. *)
Definition reconnect_bounds (c : TunnelClientConfig) : Z * Z :=
  let minDelay := parseDurationOrDefault (tcl_ReconnectMin c) second in
  let maxDelay := parseDurationOrDefault (tcl_ReconnectMax c) (30 * second) in
  (minDelay, if maxDelay <? minDelay then minDelay else maxDelay).
Definition next_delay (maxDelay delay : Z) : Z :=
  let delay := wrap64 (delay * 2) in
  if maxDelay <? delay then maxDelay else delay.
(** The delay after the [n]-th disconnection. *)
Definition reconnect_delay (c : TunnelClientConfig) (n : nat) : Z :=
  let '(minDelay, maxDelay) := reconnect_bounds c in Nat.iter n (next_delay maxDelay) minDelay.
