(* ===== verification/TunnelConfigSpec.v ===== *)
(** * Properties of the tunnel configuration and access rules *)

From S2P Require Import Prelude GoStrings Duration NetIP Config ConfigSpec TunnelConfig.

(** ** Tokens: the tunnel's copy of the pass agrees with the configuration's *)

Lemma tunnel_tokens_iff enabled index seen tokens out :
  normalize_tunnel_tokens enabled index seen tokens = Ok out ↔ normalize_tokens enabled index seen tokens = Ok out.
Proof.
  revert index seen out. induction tokens as [|t tokens IH]; intros index seen out; simpl.
  { split; by intros [= <-]. }
  rewrite !guard_Ok. apply and_iff_compat_l. destruct (bool_decide (TrimSpace (at_Token t) = ""));
    rewrite !guard_Ok, !bind_Ok; apply and_iff_compat_l, exist_proper; intros [rest seen']; rewrite IH;
    apply and_iff_compat_l; split; by intros [= <-].
Qed.

Lemma tunnel_auth_iff a out : normalizeTunnelAuth a = Ok out ↔ normalizeAuth a = Ok out.
Proof.
  unfold normalizeTunnelAuth, normalizeAuth. rewrite !bind_Ok. apply exist_proper. intros [tokens seen].
  rewrite tunnel_tokens_iff, !guard_Ok. apply and_iff_compat_l, and_iff_compat_l. split; by intros [= <-].
Qed.

(** ** Lists that are sorted already *)

Lemma sort_strings_id l : Sorted String.le l → sort_strings l = l.
Proof.
  intros Hs. apply (Sorted_unique String.le); [apply sort_strings_Sorted|done|apply sort_strings_Permutation].
Qed.

Lemma sort_ints_idemp l : sort_ints (sort_ints l) = sort_ints l.
Proof.
  unfold sort_ints. apply (Sorted_unique Z.le); [apply (Sorted_merge_sort _)|apply (Sorted_merge_sort _)|].
  apply merge_sort_Permutation.
Qed.

Lemma fmap_id_in {A} (f : A → A) (l : list A) : (∀ x, x ∈ l → f x = x) → f <$> l = l.
Proof. intros H. rewrite <-(list_fmap_id l) at 2. apply list_fmap_ext. intros i x Hx. apply H. by eapply list_elem_of_lookup_2. Qed.

Lemma normalizeAllow_idemp a : normalizeAllow (normalizeAllow a) = normalizeAllow a.
Proof.
  unfold normalizeAllow. simpl. rewrite sort_ints_idemp. f_equal.
  rewrite fmap_id_in; [apply sort_strings_id, sort_strings_Sorted|].
  intros p. rewrite elem_of_sort_strings. intros (q & -> & _)%list_elem_of_fmap. by autorewrite with vmflow.
Qed.

(** ** The server's file *)

Definition clean_client (c : ServerClientACL) : ServerClientACL := {|
  acl_ClientID := TrimSpace (acl_ClientID c); acl_Token := TrimSpace (acl_Token c);
  acl_Allow := normalizeAllow (acl_Allow c) |}.

Lemma clean_client_idemp c : clean_client (clean_client c) = clean_client c.
Proof. unfold clean_client. simpl. by rewrite !TrimSpace_idemp, normalizeAllow_idemp. Qed.

(** The clients of a file: each has an id and a token, and the ids differ. *)
Definition client_named (c : ServerClientACL) : Prop := TrimSpace (acl_ClientID c) ≠ "" ∧ TrimSpace (acl_Token c) ≠ "".
Definition client_ids (cs : list ServerClientACL) : list string := (λ c, TrimSpace (acl_ClientID c)) <$> cs.

Lemma clients_iff index seen cs out :
  normalize_clients index seen cs = Ok out ↔
  out = clean_client <$> cs ∧ Forall client_named cs ∧ NoDup (client_ids cs) ∧ Forall (.∉ seen) (client_ids cs).
Proof.
  revert index seen out. induction cs as [|c cs IH]; intros index seen out; simpl.
  { split; [intros [= <-]; split_and!; (done || constructor)|by intros (-> & _)]. }
  rewrite !guard_Ok, !bool_decide_eq_false, bind_Ok, Forall_cons, NoDup_cons, (Forall_cons (.∉ seen)). unfold client_named.
  split.
  - intros (? & ? & ? & rest & (-> & ? & ? & Hf)%IH & [= <-]). rewrite Forall_forall in Hf.
    split_and!; try done; [intros Hin; set_solver|]. apply Forall_forall. intros v Hv. apply Hf in Hv. set_solver.
  - intros (-> & [[? ?] ?] & [Hnew ?] & ? & Hf). split_and!; try done. eexists. split; [|done]. apply IH. split_and!; try done.
    rewrite Forall_forall in Hf |- *. intros v Hv. apply fresh_after. split; [by intros ->|by apply Hf].
Qed.

Definition tls_given (t : TLSConfig) : bool :=
  tc_Enabled t || bool_decide (tc_CertFile t ≠ "") || bool_decide (tc_KeyFile t ≠ "").
Definition clean_tls (t : TLSConfig) : TLSConfig :=
  if tls_given t then
    {| tc_Enabled := true; tc_CertFile := TrimSpace (tc_CertFile t); tc_KeyFile := TrimSpace (tc_KeyFile t);
       tc_ServerName := tc_ServerName t; tc_InsecureSkipVerify := tc_InsecureSkipVerify t |}
  else t.
Definition tls_complete (t : TLSConfig) : Prop :=
  tls_given t = true → TrimSpace (tc_CertFile t) ≠ "" ∧ TrimSpace (tc_KeyFile t) ≠ "".

Lemma tunnel_tls_iff t out : normalize_tunnel_tls t = Ok out ↔ tls_complete t ∧ out = clean_tls t.
Proof.
  unfold normalize_tunnel_tls, tls_complete, clean_tls. fold (tls_given t). destruct (tls_given t); simpl.
  - rewrite guard_Ok, orb_false_iff, !bool_decide_eq_false. split; [intros [? [= <-]]|intros [? ->]]; naive_solver.
  - split; [by intros [= <-]|by intros [_ ->]].
Qed.

Lemma clean_tls_idemp t : clean_tls (clean_tls t) = clean_tls t.
Proof.
  unfold clean_tls. destruct (tls_given t) eqn:E; [|by rewrite E]. by simpl; rewrite !TrimSpace_idemp.
Qed.

(** The settings a server's file must have. *)
Record server_accepted (cfg : ServerConfig) : Prop := {
  sa_version : sv_Version cfg = 0 ∨ sv_Version cfg = 1;
  sa_control : SplitHostPort (or_default DefaultTunnelControlListenAddr (TrimSpace (sv_ControlListenAddr cfg))) ≠ None;
  sa_auth : auth_ok (sv_Auth cfg);
  sa_listen : SplitHostPort (or_default DefaultServerListenAddr (TrimSpace (ts_ListenAddr (sv_TunnelServer cfg)))) ≠ None;
  sa_tls : tls_complete (ts_TLS (sv_TunnelServer cfg));
  sa_clients : Forall client_named (ts_Clients (sv_TunnelServer cfg));
  sa_ids : NoDup (client_ids (ts_Clients (sv_TunnelServer cfg)));
}.

Definition clean_server (cfg : ServerConfig) : ServerConfig :=
  let t := sv_TunnelServer cfg in {|
  sv_Version := 1; sv_ControlListenAddr := or_default DefaultTunnelControlListenAddr (TrimSpace (sv_ControlListenAddr cfg));
  sv_Log := sv_Log cfg;
  sv_Auth := {| ac_Enabled := ac_Enabled (sv_Auth cfg); ac_Tokens := imap clean_token (ac_Tokens (sv_Auth cfg)) |};
  sv_TunnelServer := {| ts_Enabled := ts_Enabled t; ts_ListenAddr := or_default DefaultServerListenAddr (TrimSpace (ts_ListenAddr t));
    ts_TLS := clean_tls (ts_TLS t); ts_OpenTimeout := or_default DefaultOpenTimeout (TrimSpace (ts_OpenTimeout t));
    ts_Clients := clean_client <$> ts_Clients t |} |}.

Lemma server_iff cfg out : normalizeServerConfig cfg = Ok out ↔ server_accepted cfg ∧ out = clean_server cfg.
Proof.
  unfold normalizeServerConfig. rewrite !guard_Ok, bind_Ok.
  assert ((if sv_Version cfg =? 0 then 1 else sv_Version cfg) = 1 ↔ sv_Version cfg = 0 ∨ sv_Version cfg = 1) as Hv.
  { destruct (Z.eqb_spec (sv_Version cfg) 0); lia. }
  rewrite negb_false_iff, Z.eqb_eq, Hv, !bool_decide_eq_false.
  split.
  - intros (Hver & Hc & auth & [Ha ->]%tunnel_auth_iff%auth_iff & H).
    rewrite guard_Ok, bind_Ok, bool_decide_eq_false in H. destruct H as (Hl & tls & [Ht ->]%tunnel_tls_iff & H).
    rewrite bind_Ok in H. destruct H as (clients & (-> & ? & ? & _)%clients_iff & [= <-]).
    split; [by split|]. unfold clean_server. f_equal. by apply Hv.
  - intros [[Hver Hc Ha Hl Ht Hcl Hid] ->]. split; [done|]. split; [done|].
    eexists. split; [by apply tunnel_auth_iff, auth_iff|]. rewrite guard_Ok, bool_decide_eq_false. split; [done|].
    rewrite bind_Ok. eexists. split; [by apply tunnel_tls_iff|]. rewrite bind_Ok. eexists. split.
    { apply clients_iff. split_and!; try done. apply Forall_true. intros v. apply not_elem_of_empty. }
    unfold clean_server. f_equal. f_equal. by apply Hv.
Qed.

Lemma clean_server_accepted cfg : server_accepted cfg → server_accepted (clean_server cfg).
Proof.
  intros [Hver Hc Ha Hl Ht Hcl Hid]. split; simpl.
  - by right.
  - by rewrite or_default_fix, or_default_id by (by rewrite ?TrimSpace_idemp).
  - by apply auth_kept.
  - by rewrite or_default_fix, or_default_id by (by rewrite ?TrimSpace_idemp).
  - revert Ht. unfold tls_complete, clean_tls. destruct (tls_given (ts_TLS (sv_TunnelServer cfg))) eqn:E; [|by rewrite E].
    simpl. rewrite !TrimSpace_idemp. auto.
  - apply Forall_fmap. eapply Forall_impl; [exact Hcl|]. intros c. unfold client_named. simpl. by rewrite !TrimSpace_idemp.
  - unfold client_ids in *. rewrite <-list_fmap_compose. erewrite list_fmap_ext; [exact Hid|].
    intros i c _. simpl. apply TrimSpace_idemp.
Qed.

Lemma imap_clean_idemp tokens : imap clean_token (imap clean_token tokens) = imap clean_token tokens.
Proof.
  apply list_eq. intros i. rewrite !list_lookup_imap. destruct (tokens !! i); simpl; [|done]. by rewrite clean_token_idemp.
Qed.

Lemma clean_server_idemp cfg : clean_server (clean_server cfg) = clean_server cfg.
Proof.
  unfold clean_server. simpl. rewrite clean_tls_idemp, imap_clean_idemp, <-list_fmap_compose.
  rewrite !(or_default_fix _ _ TrimSpace), !or_default_id by (by rewrite ?TrimSpace_idemp).
  f_equal. f_equal. apply list_fmap_ext. intros i c _. apply clean_client_idemp.
Qed.

(** the tunnel server's configuration is accepted exactly when its
    version is 1 (or absent), its two addresses have a port, its tokens are
    sound, TLS has both files when it has one, and every client has an id of its
    own and a token; and normalizing the result again changes nothing. *)
Theorem server_config_exact cfg :
  (is_ok (normalizeServerConfig cfg) = true ↔ server_accepted cfg) ∧
  ∀ g, normalizeServerConfig cfg = Ok g → normalizeServerConfig g = Ok g.
Proof.
  split.
  - rewrite is_ok_iff. setoid_rewrite server_iff. naive_solver.
  - intros g [Ha ->]%server_iff. apply server_iff. split; [by apply clean_server_accepted|by rewrite clean_server_idemp].
Qed.

(** ** Admission *)

(** What [handleHello] asks of a client, with the configuration it reads. *)
Definition admits (cfg : ServerConfig) (clientID token : string) (tunnels : list TunnelSpec) : bool :=
  match authenticate cfg clientID token with
  | None => false
  | Some acl => negb (too_many (acl_Allow acl) tunnels) && forallb (λ spec, is_ok (aclAllows (acl_Allow acl) spec)) tunnels
  end.

Lemma list_find_cons {A} (P : A → Prop) `{∀ x, Decision (P x)} x l :
  snd <$> list_find P (x :: l) = if decide (P x) then Some x else snd <$> list_find P l.
Proof. simpl. destruct (decide (P x)); [done|]. by destruct (list_find P l) as [[??]|]. Qed.

Lemma find_id_token (cs : list ServerClientACL) id token :
  NoDup (acl_ClientID <$> cs) →
  snd <$> list_find (λ acl, acl_ClientID acl = id ∧ acl_Token acl = token) cs =
  match snd <$> list_find (λ acl, acl_ClientID acl = id) cs with
  | Some acl => if decide (acl_Token acl = token) then Some acl else None
  | None => None
  end.
Proof.
  induction cs as [|c cs IH]; [done|]. rewrite fmap_cons, NoDup_cons, !list_find_cons. intros [Hnew Hnd].
  destruct (decide (acl_ClientID c = id)) as [<-|Hne].
  - destruct (decide (acl_Token c = token)) as [Ht|Ht]; [by rewrite decide_True|].
    rewrite decide_False by naive_solver. rewrite IH by done.
    destruct (list_find (λ acl, acl_ClientID acl = acl_ClientID c) cs) as [[i acl]|] eqn:E; simpl; [|done].
    exfalso. apply list_find_Some in E as (Hi & Hid & _).
    destruct Hnew. rewrite <-Hid. by eapply list_elem_of_fmap_2, list_elem_of_lookup_2.
  - rewrite decide_False by naive_solver. by apply IH.
Qed.

Lemma clean_ids cs : acl_ClientID <$> (clean_client <$> cs) = client_ids cs.
Proof. unfold client_ids. by rewrite <-list_fmap_compose. Qed.

(** the handshake and the reload agree. Under a normalized configuration
    a session's client, token and tunnels pass the checks of [handleHello]
    exactly when a reload of that configuration lets the session stay, so a
    reload disconnects nobody the server would admit again. *)
Theorem admission_agrees_with_reload cfg g clientID token tunnels :
  normalizeServerConfig cfg = Ok g → TrimSpace token = token →
  admits g clientID token tunnels = sessionAllowedByConfig g clientID token tunnels.
Proof.
  intros [Ha ->]%server_iff Ht. unfold admits, sessionAllowedByConfig, authenticate, clientACL. simpl. rewrite Ht.
  rewrite find_id_token by (rewrite clean_ids; by apply (sa_ids cfg)).
  destruct (snd <$> list_find _ _) as [acl|]; [|done]. 
  destruct (decide (acl_Token acl = token)); [by rewrite bool_decide_eq_true_2|by rewrite bool_decide_eq_false_2].
Qed.

(** A client is admitted by the first entry with its id and token. *)
Lemma authenticate_Some cfg clientID token acl :
  authenticate cfg clientID token = Some acl →
  acl ∈ ts_Clients (sv_TunnelServer cfg) ∧ acl_ClientID acl = TrimSpace clientID ∧ acl_Token acl = TrimSpace token.
Proof.
  unfold authenticate. intros H. apply fmap_Some in H as ([i a] & (Hi & [? ?] & _)%list_find_Some & ->).
  split; [by eapply list_elem_of_lookup_2|done].
Qed.

(** What a client's access rules let through. *)
Definition tunnel_allowed (allow : AllowConfig) (spec : TunnelSpec) : Prop :=
  (al_Protocols allow = [] ∨ ∃ p, p ∈ al_Protocols allow ∧ ToLower p = ToLower (sp_Protocol spec)) ∧
  (al_RemotePorts allow = [] ∨ sp_RemoteListenPort spec ∈ al_RemotePorts allow).

Lemma not_nil_false {A} `{EqDecision A} (l : list A) : bool_decide (l ≠ []) = false ↔ l = [].
Proof. rewrite bool_decide_eq_false. destruct l; naive_solver. Qed.

Lemma existsb_fold l (p : string) : existsb (λ q, EqualFold q p) l = true ↔ ∃ q, q ∈ l ∧ ToLower q = ToLower p.
Proof.
  rewrite existsb_exists. unfold EqualFold. split.
  - intros (q & ?%list_elem_of_In & ?%bool_decide_eq_true). by exists q.
  - intros (q & ?%list_elem_of_In & ?). exists q. by rewrite bool_decide_eq_true.
Qed.

Lemma aclAllows_exact allow spec : is_ok (aclAllows allow spec) = true ↔ tunnel_allowed allow spec.
Proof.
  assert (is_ok (aclAllows allow spec) = true ↔ aclAllows allow spec = Ok ()) as ->.
  { destruct (aclAllows allow spec) as [[]|]; naive_solver. }
  unfold aclAllows, tunnel_allowed. rewrite guard_Ok, check_Ok, !andb_false_iff, !negb_false_iff, !not_nil_false.
  by rewrite bool_decide_eq_true, existsb_fold.
Qed.

(** ** The client's tunnels *)

Lemma normalizeTunnelSpec_idemp spec : normalizeTunnelSpec (normalizeTunnelSpec spec) = normalizeTunnelSpec spec.
Proof.
  unfold normalizeTunnelSpec. simpl. fold (lowered (sp_Protocol spec)).
  assert (ToLower (TrimSpace (or_default "tcp" (lowered (sp_Protocol spec)))) = or_default "tcp" (lowered (sp_Protocol spec))) as ->.
  { by apply lowered_default. }
  rewrite !(or_default_fix _ _ TrimSpace), !or_default_id, !TrimSpace_idemp by (by rewrite ?TrimSpace_idemp). done.
Qed.

Definition tunnel_ids (specs : list TunnelSpec) : list string := sp_TunnelID ∘ normalizeTunnelSpec <$> specs.
Definition remote_keys (specs : list TunnelSpec) : list string := remoteListenKey ∘ normalizeTunnelSpec <$> specs.

(** The tunnels a client's file may have. *)
Record tunnels_accepted (specs : list TunnelSpec) : Prop := {
  ta_valid : Forall (λ s, is_ok (validateTunnelSpec (normalizeTunnelSpec s)) = true) specs;
  ta_ids : NoDup (tunnel_ids specs);
  ta_keys : NoDup (remote_keys specs);
}.

Lemma tunnels_iff index seen remote specs out :
  normalize_tunnels index seen remote specs = Ok out ↔
  out = normalizeTunnelSpec <$> specs ∧ tunnels_accepted specs ∧
  Forall (.∉ seen) (tunnel_ids specs) ∧ Forall (λ k, remote !! k = None) (remote_keys specs).
Proof.
  revert index seen remote out. induction specs as [|s specs IH]; intros index seen remote out; cbn [normalize_tunnels].
  { split; [intros [= <-]|by intros (-> & _)]. split; [done|]. split; [split; constructor|by split]. }
  cbv zeta. set (n := normalizeTunnelSpec s).
  assert (tunnel_ids (s :: specs) = sp_TunnelID n :: tunnel_ids specs) as -> by done.
  assert (remote_keys (s :: specs) = remoteListenKey n :: remote_keys specs) as -> by done.
  rewrite (Forall_cons (.∉ seen)), (Forall_cons (λ k, remote !! k = None)).
  assert (tunnels_accepted (s :: specs) ↔ is_ok (validateTunnelSpec n) = true ∧ sp_TunnelID n ∉ tunnel_ids specs ∧
    remoteListenKey n ∉ remote_keys specs ∧ tunnels_accepted specs) as ->.
  { split.
    - intros [Hv Hi Hk]. apply Forall_cons in Hv as [? ?]. apply NoDup_cons in Hi as [? ?].
      apply NoDup_cons in Hk as [? ?]. by split_and!.
    - intros (? & ? & ? & [? ? ?]). split; [by constructor|by apply NoDup_cons|by apply NoDup_cons]. }
  destruct (validateTunnelSpec n) as [u|e]; [|split; [done|naive_solver]].
  rewrite guard_Ok, bool_decide_eq_false. destruct (remote !! remoteListenKey n) as [other|] eqn:Hr.
  { split; [by intros [_ ?]|naive_solver]. }
  rewrite bind_Ok. split.
  - intros (Hs & rest & (-> & Hacc & Hf & Hm)%IH & [= <-]). rewrite Forall_forall in Hf, Hm. split_and!; try done.
    + intros Hin. apply Hf in Hin. set_solver.
    + intros Hin. apply Hm in Hin. by rewrite lookup_insert_eq in Hin.
    + apply Forall_forall. intros v Hv. apply Hf in Hv. set_solver.
    + apply Forall_forall. intros k Hk. apply Hm in Hk. by apply lookup_insert_None in Hk as [? _].
  - intros (-> & (_ & Hnew & Hnewk & Hacc) & [Hs Hf] & [_ Hm]). rewrite Forall_forall in Hf, Hm.
    split; [done|]. eexists. split; [|done]. apply IH. split_and!; try done; apply Forall_forall.
    + intros v Hv. apply fresh_after. split; [by intros ->|by apply Hf].
    + intros k Hk. apply lookup_insert_None. split; [by apply Hm|by intros <-].
Qed.

(** a client's tunnels are accepted exactly when each one is valid after
    its defaults are filled in, no two have the same id, and no two ask the
    server for the same remote listener; the accepted list is the normalized
    one, and normalizing it again changes nothing. *)
Theorem client_tunnels_exact specs :
  (is_ok (normalize_tunnels 0 ∅ ∅ specs) = true ↔ tunnels_accepted specs) ∧
  ∀ out, normalize_tunnels 0 ∅ ∅ specs = Ok out →
    out = normalizeTunnelSpec <$> specs ∧ normalize_tunnels 0 ∅ ∅ out = Ok out.
Proof.
  assert (∀ specs out, normalize_tunnels 0 ∅ ∅ specs = Ok out ↔ out = normalizeTunnelSpec <$> specs ∧ tunnels_accepted specs) as Hiff.
  { intros l out. rewrite tunnels_iff. split; [by intros (? & ? & _)|]. intros [? ?]. split_and!; try done.
    - apply Forall_true. intros v. apply not_elem_of_empty.
    - apply Forall_true. intros k. apply lookup_empty. }
  split.
  - rewrite is_ok_iff. split; [by intros [out [_ ?]%Hiff]|]. intros ?. exists (normalizeTunnelSpec <$> specs). by apply Hiff.
  - intros out [-> [Hv Hi Hk]]%Hiff. split; [done|]. apply Hiff.
    assert (normalizeTunnelSpec <$> (normalizeTunnelSpec <$> specs) = normalizeTunnelSpec <$> specs) as Hidem.
    { rewrite <-list_fmap_compose. apply list_fmap_ext. intros i s _. apply normalizeTunnelSpec_idemp. }
    split; [done|]. unfold tunnel_ids, remote_keys in *. split.
    + apply Forall_fmap. eapply Forall_impl; [exact Hv|]. intros s. simpl. by rewrite normalizeTunnelSpec_idemp.
    + unfold tunnel_ids. by rewrite !list_fmap_compose, Hidem, <-list_fmap_compose.
    + unfold remote_keys. by rewrite !list_fmap_compose, Hidem, <-list_fmap_compose.
Qed.

(** ** The reconnect delay *)

Lemma reconnect_bounds_ok c : let '(minDelay, maxDelay) := reconnect_bounds c in 0 < minDelay ≤ maxDelay.
Proof.
  unfold reconnect_bounds.
  assert (∀ v d, 0 < d → 0 < parseDurationOrDefault v d) as Hpos.
  { intros v d ?. unfold parseDurationOrDefault. case_bool_decide; [done|].
    destruct (ParseDuration _) as [x|]; [|done]. destruct (Z.leb_spec x 0); lia. }
  pose proof (Hpos (tcl_ReconnectMin c) second ltac:(unfold second; lia)).
  destruct (Z.ltb_spec (parseDurationOrDefault (tcl_ReconnectMax c) (30 * second)) (parseDurationOrDefault (tcl_ReconnectMin c) second)); lia.
Qed.

(** the client waits longer after each disconnection, doubling from the
    smallest to the largest delay and never leaving these bounds, as long as the
    largest one is below 2^62 nanoseconds (146 years). *)
Theorem reconnect_backoff c n minDelay maxDelay :
  reconnect_bounds c = (minDelay, maxDelay) → maxDelay < 2 ^ 62 →
  reconnect_delay c n = Z.min maxDelay (minDelay * 2 ^ Z.of_nat n) ∧ minDelay ≤ reconnect_delay c n ≤ maxDelay.
Proof.
  intros Hb Hmax. pose proof (reconnect_bounds_ok c) as Hok. rewrite Hb in Hok.
  assert (reconnect_delay c n = Z.min maxDelay (minDelay * 2 ^ Z.of_nat n)) as Heq.
  { unfold reconnect_delay. rewrite Hb. induction n as [|n IH]; [simpl; lia|]. rewrite Nat.iter_succ, IH.
    unfold next_delay. rewrite wrap64_id by int64_lia.
    rewrite Nat2Z.inj_succ, Z.pow_succ_r by lia.
    destruct (Z.ltb_spec maxDelay (Z.min maxDelay (minDelay * 2 ^ Z.of_nat n) * 2)); lia. }
  split; [done|]. rewrite Heq. assert (1 ≤ 2 ^ Z.of_nat n) by (pose proof (Z.pow_pos_nonneg 2 (Z.of_nat n)); lia). nia.
Qed.

(** ** Witnesses *)

Definition sample_tunnel (id : string) (port : Z) : TunnelSpec := {|
  sp_TunnelID := id; sp_Protocol := " TCP "; sp_RemoteListenAddr := ""; sp_RemoteListenPort := port;
  sp_LocalAddr := ""; sp_LocalPort := 80; sp_MaxConn := 0; sp_SpeedLimit := 0; sp_Remark := "" |}.
Definition sample_acl (id : string) (ports : list Z) : ServerClientACL := {|
  acl_ClientID := id; acl_Token := " secret "; acl_Allow := {| al_Protocols := ["UDP"; "tcp"]; al_RemotePorts := ports; al_MaxTunnels := 1 |} |}.
Definition sample_server_file : ServerConfig := {|
  sv_Version := 0; sv_ControlListenAddr := ""; sv_Log := {| log_Level := ""; log_Format := "" |};
  sv_Auth := {| ac_Enabled := false; ac_Tokens := [] |};
  sv_TunnelServer := {| ts_Enabled := true; ts_ListenAddr := ""; ts_OpenTimeout := "";
    ts_TLS := {| tc_Enabled := false; tc_CertFile := ""; tc_KeyFile := ""; tc_ServerName := ""; tc_InsecureSkipVerify := false |};
    ts_Clients := [sample_acl " home " [9002; 9001]; sample_acl "office" []] |} |}.
Definition sample_server : ServerConfig := clean_server sample_server_file.

Lemma sample_server_normal : normalizeServerConfig sample_server_file = Ok sample_server.
Proof. vm_compute. reflexivity. Qed.

Lemma server_config_exact_witness : normalizeServerConfig sample_server = Ok sample_server.
Proof. exact (proj2 (server_config_exact sample_server_file) sample_server sample_server_normal). Defined.

Lemma admission_agrees_with_reload_witness :
  let tunnels := [normalizeTunnelSpec (sample_tunnel "web" 9001)] in
  admits sample_server "home" "secret" tunnels = true ∧ sessionAllowedByConfig sample_server "home" "secret" tunnels = true.
Proof.
  intros tunnels. assert (admits sample_server "home" "secret" tunnels = true) as H by (vm_compute; reflexivity).
  split; [exact H|]. rewrite <-(admission_agrees_with_reload sample_server_file sample_server "home" "secret" tunnels
    sample_server_normal eq_refl). exact H.
Defined.

Lemma client_tunnels_exact_witness :
  let out := [normalizeTunnelSpec (sample_tunnel "web" 9001); normalizeTunnelSpec (sample_tunnel "ssh" 9002)] in
  normalize_tunnels 0 ∅ ∅ out = Ok out.
Proof.
  intros out. apply (proj2 (client_tunnels_exact [sample_tunnel "web" 9001; sample_tunnel "ssh" 9002]) out).
  vm_compute. reflexivity.
Defined.

Definition sample_client : TunnelClientConfig := {|
  tcl_Enabled := true; tcl_ServerAddr := "relay.example:18080"; tcl_TLS := ts_TLS (sv_TunnelServer sample_server);
  tcl_ClientID := "home"; tcl_Token := "secret"; tcl_DialTimeout := "10s"; tcl_ReconnectMin := "1s"; tcl_ReconnectMax := "30s";
  tcl_Tunnels := [] |}.

Lemma reconnect_backoff_witness : reconnect_delay sample_client 3 = 8 * second ∧ reconnect_delay sample_client 9 = 30 * second.
Proof.
  assert (reconnect_bounds sample_client = (second, 30 * second)) as Hb by (vm_compute; reflexivity).
  split.
  - rewrite (proj1 (reconnect_backoff sample_client 3 _ _ Hb ltac:(unfold second; lia))). vm_compute. reflexivity.
  - rewrite (proj1 (reconnect_backoff sample_client 9 _ _ Hb ltac:(unfold second; lia))). vm_compute. reflexivity.
Defined.
