(* ===== verification/Threads.v ===== *)
(** * Goroutines

    A pool of goroutines is the list of what each has left to do.  Here are the
    facts about the bag of all instructions left that the invariants of the
    tunnel server's registry and of its UDP sessions share. *)

From S2P Require Import Prelude.

Lemma mjoin_insert {A} (ll : list (list A)) k x y rest :
  ll !! k = Some (x :: rest) → mjoin ll ≡ₚ x :: (rest ++ mjoin (delete k ll)) ∧
  mjoin (<[k := y ++ rest]> ll) ≡ₚ y ++ (rest ++ mjoin (delete k ll)).
Proof.
  intros Hk. pose proof (take_drop_middle _ _ _ Hk) as Heq.
  assert (length (take k ll) = k) as Hlen by (apply length_take_le; apply lookup_lt_Some in Hk; lia).
  assert (delete k ll = take k ll ++ drop (S k) ll) as -> by apply delete_take_drop.
  split.
  - rewrite <-Heq at 1. rewrite !join_app. simpl. solve_Permutation.
  - rewrite <-Heq at 1. rewrite <-Hlen at 1. rewrite insert_app_r_alt by lia.
    rewrite Nat.sub_diag. simpl. rewrite !join_app. simpl. solve_Permutation.
Qed.

(** How many instructions of a kind are left. *)
Definition count_of {A} (f : A → bool) (l : list A) : nat := length (filter (λ i, f i = true) l).
Lemma count_cons {A} (f : A → bool) i l : count_of f (i :: l) = ((if f i then 1 else 0) + count_of f l)%nat.
Proof. unfold count_of. rewrite filter_cons. by destruct (f i). Qed.
Lemma count_app {A} (f : A → bool) l1 l2 : count_of f (l1 ++ l2) = (count_of f l1 + count_of f l2)%nat.
Proof. unfold count_of. by rewrite filter_app, length_app. Qed.
Lemma count_perm {A} (f : A → bool) l1 l2 : l1 ≡ₚ l2 → count_of f l1 = count_of f l2.
Proof. unfold count_of. by intros ->. Qed.
Lemma count_zero {A} (f : A → bool) l : Forall (λ i, f i = false) l → count_of f l = 0%nat.
Proof. induction 1 as [|i l Hi _ IH]; [done|]. by rewrite count_cons, Hi, IH. Qed.

Lemma count_zero_iff {A} (f : A → bool) l : count_of f l = 0%nat ↔ ∀ x, x ∈ l → f x = false.
Proof.
  rewrite <-Forall_forall. split; [|apply count_zero]. induction l as [|y l IH]; [by constructor|].
  rewrite count_cons. destruct (f y) eqn:E; [done|]. constructor; [done|]. by apply IH.
Qed.
Lemma count_pos {A} (f : A → bool) l : (0 < count_of f l)%nat → ∃ x, x ∈ l ∧ f x = true.
Proof.
  induction l as [|y l IH]; [simpl; unfold count_of; simpl; lia|]. rewrite count_cons. destruct (f y) eqn:E.
  - intros _. exists y. split; [by left|done].
  - intros (x & ? & ?)%IH. exists x. split; [by right|done].
Qed.

(** One goroutine is left. *)
Lemma join_only {A} (ll : list (list A)) k t :
  ll !! k = Some t → (∀ j t', ll !! j = Some t' → j ≠ k → t' = []) → mjoin ll = t.
Proof.
  revert k. induction ll as [|t0 ll IH]; intros [|k] Hk Hother; simpl in *; try done.
  - injection Hk as ->. assert (mjoin ll = []) as ->; [|by rewrite app_nil_r].
    assert (∀ j t', ll !! j = Some t' → t' = []) as H by (intros j t' Hj; by apply (Hother (S j))).
    clear -H. induction ll as [|t1 ll IH]; [done|]. simpl. rewrite (H 0%nat t1 eq_refl). apply IH. intros j. apply (H (S j)).
  - rewrite (Hother 0%nat t0 eq_refl) by done. simpl. apply (IH k); [done|]. intros j t' Hj Hne. apply (Hother (S j)); [done|lia].
Qed.

Lemma count_one {A} (f : A → bool) ll j t : ll !! j = Some t → (count_of f t ≤ count_of f (mjoin ll))%nat.
Proof.
  revert j. induction ll as [|t0 ll IH]; intros [|j] Hj; simpl in *; try done; rewrite count_app.
  - injection Hj as ->. lia.
  - specialize (IH j Hj). lia.
Qed.
Lemma count_two {A} (f : A → bool) ll j k t t' :
  ll !! j = Some t → ll !! k = Some t' → j ≠ k → (count_of f t + count_of f t' ≤ count_of f (mjoin ll))%nat.
Proof.
  revert j k. induction ll as [|t0 ll IH]; intros [|j] [|k] Hj Hk Hne; simpl in *; try done; rewrite count_app.
  - injection Hj as ->. pose proof (count_one f ll k t' Hk). lia.
  - injection Hk as ->. pose proof (count_one f ll j t Hj). lia.
  - specialize (IH j k Hj Hk ltac:(congruence)). lia.
Qed.
