(* ===== verification/TunnelServer.v ===== *)
(** * The tunnel server (tunnel/server.go, tunnel/reload.go)

    The server's registry of clients, remote listeners and pending connections,
    and the goroutines that share it.  A goroutine is the list of the instructions
    it has left; each instruction is one section under the server's lock, one
    operation on a channel or an atomic, or one call of the operating system, and
    a step of the server executes the next instruction of one goroutine.  What
    the network, the peers and the clock answer is the [Answer] of the step.

    The sessions of a UDP listener are in TunnelUDP.v; here a UDP listener is its
    socket.  Logging, deadlines and TLS are left out. *)

From S2P Require Import Prelude GoStrings NetIP Config Rule Stats TunnelConfig.

(** ** State *)

(** [serverClientSession]: immutable once created; a reference is its index. *)
Record ClientSession := {
  ss_clientID : string; ss_sessionID : string; ss_token : string; ss_tunnels : list TunnelSpec; ss_conn : nat
}.

(** [remoteListener] and [udpRemoteListener]. [rl_inflight] is the part of its
    wait group that counts the handlers. *)
Record RemoteListener := {
  rl_clientID : string; rl_spec : TunnelSpec; rl_open : bool; rl_cancelled : bool; rl_active : Z; rl_inflight : nat
}.
Definition rl_key (l : RemoteListener) : string := remoteListenKey (rl_spec l).
Definition is_udp (spec : TunnelSpec) : bool := bool_decide (sp_Protocol spec = "udp").

(** A pending channel of capacity one: [Some None] holds [nil]. [pc_key] is the
    key it was made for. *)
Record PendingChan := { pc_key : string; pc_buffer : option (option nat) }.

(** A connection to the server or to a remote listener. [cn_auth] remembers the
    client, tunnel and connection id a data connection authenticated for. *)
Record ConnState := { cn_open : bool; cn_auth : option (string * string * string) }.

(** An "open" message: the session it is written to, the public connection it
    asks a data connection for, and the three ids it carries. *)
Record OpenRequest := { op_session : nat; op_public : nat; op_clientID : string; op_tunnelID : string; op_connID : string }.

Inductive HelloError :=
| FirstMessage
| AuthenticationFailed
| HelloWithoutTunnels
| TooManyTunnels
| TunnelRejected (index : nat) (e : TunnelError)
| ListenerInUse (key : string)
| ListenFailed (key : string).
Inductive Reply := Accepted (sessionID : string) | Rejected (e : HelloError).

Inductive Instr :=
(* a connection to the server *)
| Dispatch (c : nat) (msg : Message)
| Hello (c : nat) (msg : Message)
| RegisterPrevious (s : nat)
| RegisterSpecs (s : nat) (rest : list TunnelSpec) (started : list string)
| Listen (s : nat) (spec : TunnelSpec) (rest : list TunnelSpec) (started : list string)
| AddRemote (r s : nat) (rest : list TunnelSpec) (started : list string)
| Publish (s : nat)
| Reject (s : nat) (e : HelloError)
| SendAccept (s : nat)
| ControlLoop (s : nat)
| CancelPending (key : string)
| OfferNil (ch : nat)
(* stopping *)
| Unregister (clientID : string) (s : nat)
| CloseConn (c : nat)
| StopTCP (key : string)
| StopUDP (key : string)
| CloseRemote (r : nat)
| WaitRemote (r : nat)
| ResetConns (r : nat)
(* a public connection *)
| HandlePublic (r p : nat)
| PubSession (r p : nat)
| AddPending (key : string) (ch : nat)
| SendOpen (r p ch s : nat) (connID : string)
| PubWait (r p ch : nat)
| PubPipe (r p d : nat)
| RemovePending (key : string)
| PubDone (r : nat)
(* a data connection *)
| DataAuth (c : nat) (msg : Message)
| DataLookup (c : nat) (key : string)
| DataOffer (c ch : nat)
(* reload and shutdown *)
| ReloadRead (next : ServerConfig)
| SetConfig (cfg : ServerConfig)
| DisconnectInvalid (cfg : ServerConfig)
| StopAllScan.

Record TunnelServer := {
  tv_cfg : ServerConfig;
  tv_clients : gmap string nat;
  tv_sessions : list ClientSession;
  tv_listeners : gmap string nat;
  tv_udpListeners : gmap string nat;
  tv_remotes : list RemoteListener;
  tv_pending : gmap string nat;
  tv_chans : list PendingChan;
  tv_conns : list ConnState;
  tv_replies : list (nat * Reply);
  tv_opens : list OpenRequest;          (* the "open" messages written to the clients *)
  tv_collector : Collector;
  tv_done : bool;                       (* the context of [Run] has ended *)
}.

(** ** Field updates *)

Definition with_cfg v st : TunnelServer := {|
  tv_cfg := v; tv_clients := tv_clients st; tv_sessions := tv_sessions st; tv_listeners := tv_listeners st;
  tv_udpListeners := tv_udpListeners st; tv_remotes := tv_remotes st; tv_pending := tv_pending st; tv_chans := tv_chans st;
  tv_conns := tv_conns st; tv_replies := tv_replies st; tv_opens := tv_opens st; tv_collector := tv_collector st;
  tv_done := tv_done st |}.
Definition with_clients v st : TunnelServer := {|
  tv_cfg := tv_cfg st; tv_clients := v; tv_sessions := tv_sessions st; tv_listeners := tv_listeners st;
  tv_udpListeners := tv_udpListeners st; tv_remotes := tv_remotes st; tv_pending := tv_pending st; tv_chans := tv_chans st;
  tv_conns := tv_conns st; tv_replies := tv_replies st; tv_opens := tv_opens st; tv_collector := tv_collector st;
  tv_done := tv_done st |}.
Definition with_sessions v st : TunnelServer := {|
  tv_cfg := tv_cfg st; tv_clients := tv_clients st; tv_sessions := v; tv_listeners := tv_listeners st;
  tv_udpListeners := tv_udpListeners st; tv_remotes := tv_remotes st; tv_pending := tv_pending st; tv_chans := tv_chans st;
  tv_conns := tv_conns st; tv_replies := tv_replies st; tv_opens := tv_opens st; tv_collector := tv_collector st;
  tv_done := tv_done st |}.
Definition with_maps tcp udp st : TunnelServer := {|
  tv_cfg := tv_cfg st; tv_clients := tv_clients st; tv_sessions := tv_sessions st; tv_listeners := tcp;
  tv_udpListeners := udp; tv_remotes := tv_remotes st; tv_pending := tv_pending st; tv_chans := tv_chans st;
  tv_conns := tv_conns st; tv_replies := tv_replies st; tv_opens := tv_opens st; tv_collector := tv_collector st;
  tv_done := tv_done st |}.
Definition with_remotes v st : TunnelServer := {|
  tv_cfg := tv_cfg st; tv_clients := tv_clients st; tv_sessions := tv_sessions st; tv_listeners := tv_listeners st;
  tv_udpListeners := tv_udpListeners st; tv_remotes := v; tv_pending := tv_pending st; tv_chans := tv_chans st;
  tv_conns := tv_conns st; tv_replies := tv_replies st; tv_opens := tv_opens st; tv_collector := tv_collector st;
  tv_done := tv_done st |}.
Definition with_pending v chans st : TunnelServer := {|
  tv_cfg := tv_cfg st; tv_clients := tv_clients st; tv_sessions := tv_sessions st; tv_listeners := tv_listeners st;
  tv_udpListeners := tv_udpListeners st; tv_remotes := tv_remotes st; tv_pending := v; tv_chans := chans;
  tv_conns := tv_conns st; tv_replies := tv_replies st; tv_opens := tv_opens st; tv_collector := tv_collector st; tv_done := tv_done st |}.
Definition with_conns v st : TunnelServer := {|
  tv_cfg := tv_cfg st; tv_clients := tv_clients st; tv_sessions := tv_sessions st; tv_listeners := tv_listeners st;
  tv_udpListeners := tv_udpListeners st; tv_remotes := tv_remotes st; tv_pending := tv_pending st; tv_chans := tv_chans st;
  tv_conns := v; tv_replies := tv_replies st; tv_opens := tv_opens st; tv_collector := tv_collector st; tv_done := tv_done st |}.
Definition with_reply c reply st : TunnelServer := {|
  tv_cfg := tv_cfg st; tv_clients := tv_clients st; tv_sessions := tv_sessions st; tv_listeners := tv_listeners st;
  tv_udpListeners := tv_udpListeners st; tv_remotes := tv_remotes st; tv_pending := tv_pending st; tv_chans := tv_chans st;
  tv_conns := tv_conns st; tv_replies := tv_replies st ++ [(c, reply)]; tv_opens := tv_opens st; tv_collector := tv_collector st; tv_done := tv_done st |}.
Definition with_collector f st : TunnelServer := {|
  tv_cfg := tv_cfg st; tv_clients := tv_clients st; tv_sessions := tv_sessions st; tv_listeners := tv_listeners st;
  tv_udpListeners := tv_udpListeners st; tv_remotes := tv_remotes st; tv_pending := tv_pending st; tv_chans := tv_chans st;
  tv_conns := tv_conns st; tv_replies := tv_replies st; tv_opens := tv_opens st; tv_collector := f (tv_collector st); tv_done := tv_done st |}.

Definition with_open o st : TunnelServer := {|
  tv_cfg := tv_cfg st; tv_clients := tv_clients st; tv_sessions := tv_sessions st; tv_listeners := tv_listeners st;
  tv_udpListeners := tv_udpListeners st; tv_remotes := tv_remotes st; tv_pending := tv_pending st; tv_chans := tv_chans st;
  tv_conns := tv_conns st; tv_replies := tv_replies st; tv_opens := tv_opens st ++ [o]; tv_collector := tv_collector st;
  tv_done := tv_done st |}.
Definition with_done v st : TunnelServer := {|
  tv_cfg := tv_cfg st; tv_clients := tv_clients st; tv_sessions := tv_sessions st; tv_listeners := tv_listeners st;
  tv_udpListeners := tv_udpListeners st; tv_remotes := tv_remotes st; tv_pending := tv_pending st; tv_chans := tv_chans st;
  tv_conns := tv_conns st; tv_replies := tv_replies st; tv_opens := tv_opens st; tv_collector := tv_collector st; tv_done := v |}.

Definition NewServer (cfg : ServerConfig) : TunnelServer := {|
  tv_cfg := cfg; tv_clients := ∅; tv_sessions := []; tv_listeners := ∅; tv_udpListeners := ∅; tv_remotes := [];
  tv_pending := ∅; tv_chans := []; tv_conns := []; tv_replies := []; tv_opens := []; tv_collector := NewCollector; tv_done := false |}.

Definition close_conn (c : nat) st : TunnelServer :=
  with_conns (alter (λ n, {| cn_open := false; cn_auth := cn_auth n |}) c (tv_conns st)) st.
Definition authenticated (c : nat) (auth : string * string * string) st : TunnelServer :=
  with_conns (alter (λ n, {| cn_open := cn_open n; cn_auth := Some auth |}) c (tv_conns st)) st.
Definition set_buffer (ch : nat) (v : option (option nat)) st : TunnelServer :=
  with_pending (tv_pending st) (alter (λ p, {| pc_key := pc_key p; pc_buffer := v |}) ch (tv_chans st)) st.
Definition alter_remote (f : RemoteListener → RemoteListener) (r : nat) st : TunnelServer :=
  with_remotes (alter f r (tv_remotes st)) st.
Definition shut_remote (l : RemoteListener) : RemoteListener := {|
  rl_clientID := rl_clientID l; rl_spec := rl_spec l; rl_open := false; rl_cancelled := true; rl_active := rl_active l;
  rl_inflight := rl_inflight l |}.
Definition add_active (d : Z) (l : RemoteListener) : RemoteListener := {|
  rl_clientID := rl_clientID l; rl_spec := rl_spec l; rl_open := rl_open l; rl_cancelled := rl_cancelled l;
  rl_active := add64 (rl_active l) d; rl_inflight := rl_inflight l |}.
Definition set_inflight (f : nat → nat) (l : RemoteListener) : RemoteListener := {|
  rl_clientID := rl_clientID l; rl_spec := rl_spec l; rl_open := rl_open l; rl_cancelled := rl_cancelled l;
  rl_active := rl_active l; rl_inflight := f (rl_inflight l) |}.

(** ** Answers of the environment *)

Inductive PubChoice :=
| Received                              (* a value is taken from the channel *)
| TimedOut
| ListenerDone.                         (* the listener's context ended *)
Inductive ControlChoice :=
| Ping
| CloseMessage (clientID tunnelID connID : string)
| OtherMessage
| ReadEnded.

Record Answer := {
  an_now : Z;
  an_ok : bool;                         (* the system call succeeded *)
  an_id : string;                       (* [newID] *)
  an_pub : PubChoice;
  an_control : ControlChoice;
  an_ended : bool;                      (* a pipe is over *)
  an_up : Z;                            (* bytes a pipe has moved *)
  an_down : Z;
}.

(** ** The handlers, one instruction each *)

Definition remote_with (st : TunnelServer) (r : nat) {A} (d : A) (f : RemoteListener → A) : A :=
  match tv_remotes st !! r with Some l => f l | None => d end.
Definition session_with (st : TunnelServer) (s : nat) {A} (d : A) (f : ClientSession → A) : A :=
  match tv_sessions st !! s with Some x => f x | None => d end.

Definition getSession (st : TunnelServer) (clientID : string) : option nat := tv_clients st !! clientID.
Definition key_in_use (st : TunnelServer) (key : string) : bool :=
  bool_decide (is_Some (tv_listeners st !! key)) || bool_decide (is_Some (tv_udpListeners st !! key)).
(** A socket can only be bound when no open one has the same address. *)
Definition address_free (st : TunnelServer) (key : string) : bool :=
  forallb (λ l, negb (rl_open l && bool_decide (rl_key l = key))) (tv_remotes st).

Definition stopAnyRemoteListener (key : string) : list Instr := [StopTCP key; StopUDP key].
Definition stop_keys (keys : list string) : list Instr := keys ≫= stopAnyRemoteListener.

(** [handleTunnelConn] after the first message. *)
Definition handleTunnelConn (c : nat) (msg : Message) (st : TunnelServer) : list Instr * TunnelServer :=
  if bool_decide (msg_Type msg = "hello") then ([Hello c msg], st)
  else if bool_decide (msg_Type msg = "data") then ([DataAuth c msg], st)
  else ([], close_conn c (with_reply c (Rejected FirstMessage) st)).

(** The checks of [handleHello]: the normalized tunnels, or the first fault. *)
Fixpoint check_tunnels (allow : AllowConfig) (index : nat) (specs : list TunnelSpec) : result HelloError (list TunnelSpec) :=
  match specs with
  | [] => Ok []
  | spec :: specs =>
      let spec := normalizeTunnelSpec spec in
      match validateTunnelSpec spec with
      | Err e => Err (TunnelRejected index e)
      | Ok _ =>
          match aclAllows allow spec with
          | Err e => Err (TunnelRejected index e)
          | Ok _ => rest ← check_tunnels allow (S index) specs; Ok (spec :: rest)
          end
      end
  end.
Definition check_hello (cfg : ServerConfig) (msg : Message) : result HelloError (list TunnelSpec) :=
  match authenticate cfg (msg_ClientID msg) (msg_Token msg) with
  | None => Err AuthenticationFailed
  | Some acl =>
      check (bool_decide (msg_Tunnels msg = [])) HelloWithoutTunnels ≫= λ _,
      check (too_many (acl_Allow acl) (msg_Tunnels msg)) TooManyTunnels ≫= λ _,
      check_tunnels (acl_Allow acl) 0 (msg_Tunnels msg)
  end.

Definition handleHello (c : nat) (msg : Message) (sessionID : string) (st : TunnelServer) : list Instr * TunnelServer :=
  match check_hello (tv_cfg st) msg with
  | Err e => ([], close_conn c (with_reply c (Rejected e) st))
  | Ok tunnels =>
      let session := {| ss_clientID := msg_ClientID msg; ss_sessionID := sessionID; ss_token := msg_Token msg;
                        ss_tunnels := tunnels; ss_conn := c |} in
      ([RegisterPrevious (length (tv_sessions st))], with_sessions (tv_sessions st ++ [session]) st)
  end.

(** [registerSession]: the previous session of the client goes first. *)
Definition register_previous (s : nat) (st : TunnelServer) : list Instr :=
  session_with st s [] (λ session,
    let register := RegisterSpecs s (ss_tunnels session) [] in
    match getSession st (ss_clientID session) with
    | None => [register]
    | Some previous =>
        [Unregister (ss_clientID session) previous; CloseConn (session_with st previous 0%nat ss_conn); register]
    end).
Definition register_specs (s : nat) (rest : list TunnelSpec) (started : list string) (st : TunnelServer) : list Instr :=
  match rest with
  | [] => [Publish s]
  | spec :: rest =>
      let key := remoteListenKey spec in
      if key_in_use st key then stop_keys started ++ [Reject s (ListenerInUse key)]
      else [Listen s spec rest started]
  end.

(** [startRemoteListener] and [startUDPRemoteListener]: the socket, then the
    entry of the map.  [None]: the answer is impossible. *)
Definition listen_remote (ok : bool) (s : nat) (spec : TunnelSpec) (rest : list TunnelSpec) (started : list string)
    (st : TunnelServer) : option (list Instr * TunnelServer) :=
  let key := remoteListenKey spec in
  if ok then
    if address_free st key then
      let remote := {| rl_clientID := session_with st s "" ss_clientID; rl_spec := spec; rl_open := true;
                       rl_cancelled := false; rl_active := 0; rl_inflight := 0 |} in
      Some ([AddRemote (length (tv_remotes st)) s rest started], with_remotes (tv_remotes st ++ [remote]) st)
    else None
  else Some (stop_keys started ++ [Reject s (ListenFailed key)], st).
Definition add_remote (now : Z) (r s : nat) (rest : list TunnelSpec) (started : list string) (st : TunnelServer)
    : list Instr * TunnelServer :=
  remote_with st r ([], st) (λ l,
    let st := if is_udp (rl_spec l) then with_maps (tv_listeners st) (<[rl_key l := r]> (tv_udpListeners st)) st
              else with_maps (<[rl_key l := r]> (tv_listeners st)) (tv_udpListeners st) st in
    ([RegisterSpecs s rest (started ++ [rl_key l])], with_collector (EnsureRule now (sp_TunnelID (rl_spec l))) st)).

Definition publish_session (s : nat) (st : TunnelServer) : list Instr * TunnelServer :=
  session_with st s ([], st) (λ session,
    ([SendAccept s; ControlLoop s], with_clients (<[ss_clientID session := s]> (tv_clients st)) st)).

(** The remote listeners of a client. *)
Definition owned_keys (st : TunnelServer) (clientID : string) (m : gmap string nat) : list string :=
  fst <$> filter (λ e, remote_with st e.2 false (λ l, bool_decide (rl_clientID l = clientID)) = true) (map_to_list m).

Definition unregisterSession (clientID : string) (s : nat) (st : TunnelServer) : list Instr * TunnelServer :=
  if bool_decide (getSession st clientID = Some s) then
    let keys := owned_keys st clientID (tv_listeners st) ++ owned_keys st clientID (tv_udpListeners st) in
    (stop_keys keys, with_clients (delete clientID (tv_clients st)) st)
  else ([], st).

(** [stopRemoteListener] and [stopUDPRemoteListener]: the entry, the socket, the
    wait for the handlers, the gauge. *)
Definition stop_remote (r : nat) : list Instr := [CloseRemote r; WaitRemote r; ResetConns r].
Definition stopRemoteListener (key : string) (st : TunnelServer) : list Instr * TunnelServer :=
  match tv_listeners st !! key with
  | Some r => (stop_remote r, with_maps (delete key (tv_listeners st)) (tv_udpListeners st) st)
  | None => ([], st)
  end.
Definition stopUDPRemoteListener (key : string) (st : TunnelServer) : list Instr * TunnelServer :=
  match tv_udpListeners st !! key with
  | Some r => (stop_remote r, with_maps (tv_listeners st) (delete key (tv_udpListeners st)) st)
  | None => ([], st)
  end.

(** [controlReadLoop]: one message, or the end of the connection. *)
Definition controlReadLoop (s : nat) (choice : ControlChoice) (st : TunnelServer) : list Instr :=
  match choice with
  | Ping | OtherMessage => [ControlLoop s]
  | CloseMessage clientID tunnelID connID => [CancelPending (pendingKey clientID tunnelID connID); ControlLoop s]
  | ReadEnded =>
      session_with st s [] (λ session, [Unregister (ss_clientID session) s; CloseConn (ss_conn session)])
  end.
Definition cancelPending (key : string) (st : TunnelServer) : list Instr :=
  match tv_pending st !! key with Some ch => [OfferNil ch] | None => [] end.
(** [ch <- v] with a default: whether the channel had room. *)
Definition offer (ch : nat) (v : option nat) (st : TunnelServer) : bool * TunnelServer :=
  match pc_buffer <$> tv_chans st !! ch with
  | Some None => (true, set_buffer ch (Some v) st)
  | _ => (false, st)
  end.

(** [handlePublicConn]. *)
Definition public_session (r p : nat) (id : string) (st : TunnelServer) : list Instr * TunnelServer :=
  remote_with st r ([], st) (λ l,
    match getSession st (rl_clientID l) with
    | None => ([], close_conn p st)
    | Some s =>
        let key := pendingKey (rl_clientID l) (sp_TunnelID (rl_spec l)) id in
        let ch := length (tv_chans st) in
        ([AddPending key ch; SendOpen r p ch s id; RemovePending key],
         with_pending (tv_pending st) (tv_chans st ++ [{| pc_key := key; pc_buffer := None |}]) st)
    end).
(** [client.write] of the "open" message. *)
Definition send_open (ok : bool) (r p ch s : nat) (id : string) (st : TunnelServer) : list Instr * TunnelServer :=
  remote_with st r ([], st) (λ l,
    if ok then ([PubWait r p ch],
                with_open {| op_session := s; op_public := p; op_clientID := rl_clientID l;
                             op_tunnelID := sp_TunnelID (rl_spec l); op_connID := id |} st)
    else ([], close_conn p st)).
Definition public_wait (r p ch : nat) (choice : PubChoice) (st : TunnelServer) : option (list Instr * TunnelServer) :=
  match choice with
  | Received =>
      match pc_buffer <$> tv_chans st !! ch with
      | Some (Some v) =>
          let st := set_buffer ch None st in
          Some (match v with Some d => ([PubPipe r p d], st) | None => ([], close_conn p st) end)
      | _ => None
      end
  | TimedOut => Some ([], close_conn p st)
  | ListenerDone => if tv_done st || remote_with st r false rl_cancelled then Some ([], close_conn p st) else None
  end.
(** [pipePair] counts as it copies and closes both ends once one is done. *)
Definition public_pipe (a : Answer) (r p d : nat) (st : TunnelServer) : list Instr * TunnelServer :=
  let id := remote_with st r "" (λ l, sp_TunnelID (rl_spec l)) in
  let st := with_collector (λ c, AddDownload (an_now a) id (an_down a) (AddUpload (an_now a) id (an_up a) c)) st in
  if an_ended a then ([], close_conn d (close_conn p st)) else ([PubPipe r p d], st).

(** [handleDataConn]; a connection it does not hand over is closed by its caller. *)
Definition data_auth (c : nat) (msg : Message) (st : TunnelServer) : list Instr * TunnelServer :=
  match authenticate (tv_cfg st) (msg_ClientID msg) (msg_Token msg) with
  | None => ([], close_conn c st)
  | Some _ =>
      if bool_decide (msg_TunnelID msg = "") || bool_decide (msg_ConnID msg = "") then ([], close_conn c st)
      else ([DataLookup c (pendingKey (msg_ClientID msg) (msg_TunnelID msg) (msg_ConnID msg))],
            authenticated c (msg_ClientID msg, msg_TunnelID msg, msg_ConnID msg) st)
  end.
Definition data_lookup (c : nat) (key : string) (st : TunnelServer) : list Instr * TunnelServer :=
  match tv_pending st !! key with
  | None => ([], close_conn c st)
  | Some ch => ([DataOffer c ch], st)
  end.
Definition data_offer (c ch : nat) (st : TunnelServer) : TunnelServer :=
  let '(taken, st) := offer ch (Some c) st in if taken then st else close_conn c st.

(** [ReloadConfig]: what a reload may change, and the sessions it ends. *)
Definition runtime_config (current next : ServerConfig) : ServerConfig :=
  let t := sv_TunnelServer next in
  let c := sv_TunnelServer current in {|
  sv_Version := sv_Version next;
  sv_ControlListenAddr := if bool_decide (TrimSpace (sv_ControlListenAddr current) ≠ "") then sv_ControlListenAddr current
                          else sv_ControlListenAddr next;
  sv_Log := sv_Log next; sv_Auth := sv_Auth next;
  sv_TunnelServer := {| ts_Enabled := ts_Enabled t;
    ts_ListenAddr := if bool_decide (TrimSpace (ts_ListenAddr c) ≠ "") then ts_ListenAddr c else ts_ListenAddr t;
    ts_TLS := ts_TLS c; ts_OpenTimeout := ts_OpenTimeout t; ts_Clients := ts_Clients t |} |}.
Definition reload_read (next : ServerConfig) (st : TunnelServer) : list Instr :=
  match normalizeServerConfig next with
  | Err _ => []
  | Ok next => let cfg := runtime_config (tv_cfg st) next in [SetConfig cfg; DisconnectInvalid cfg]
  end.
Definition session_allowed (cfg : ServerConfig) (session : ClientSession) : bool :=
  sessionAllowedByConfig cfg (ss_clientID session) (ss_token session) (ss_tunnels session).
Definition disconnectInvalidSessions (cfg : ServerConfig) (st : TunnelServer) : list Instr :=
  (map_to_list (tv_clients st)).*2 ≫= λ s,
    session_with st s [] (λ session,
      if session_allowed cfg session then [] else [Unregister (ss_clientID session) s; CloseConn (ss_conn session)]).

Definition stopAll (st : TunnelServer) : list Instr :=
  (OfferNil <$> (map_to_list (tv_pending st)).*2) ++
  (CloseConn ∘ (λ s, session_with st s 0%nat ss_conn) <$> (map_to_list (tv_clients st)).*2) ++
  stop_keys ((map_to_list (tv_listeners st)).*1 ++ (map_to_list (tv_udpListeners st)).*1).

(** ** Steps *)

(** One instruction: what the goroutine does next instead of it, and the new
    state; [None] while it cannot run. *)
Definition exec (i : Instr) (a : Answer) (st : TunnelServer) : option (list Instr * TunnelServer) :=
  match i with
  | Dispatch c msg => Some (handleTunnelConn c msg st)
  | Hello c msg => Some (handleHello c msg (an_id a) st)
  | RegisterPrevious s => Some (register_previous s st, st)
  | RegisterSpecs s rest started => Some (register_specs s rest started st, st)
  | Listen s spec rest started => listen_remote (an_ok a) s spec rest started st
  | AddRemote r s rest started => Some (add_remote (an_now a) r s rest started st)
  | Publish s => Some (publish_session s st)
  | Reject s e =>
      let c := session_with st s 0%nat ss_conn in Some ([], close_conn c (with_reply c (Rejected e) st))
  | SendAccept s =>
      Some ([], session_with st s st (λ session, with_reply (ss_conn session) (Accepted (ss_sessionID session)) st))
  | ControlLoop s => Some (controlReadLoop s (an_control a) st, st)
  | CancelPending key => Some (cancelPending key st, st)
  | OfferNil ch => Some ([], (offer ch None st).2)
  | Unregister clientID s => Some (unregisterSession clientID s st)
  | CloseConn c => Some ([], close_conn c st)
  | StopTCP key => Some (stopRemoteListener key st)
  | StopUDP key => Some (stopUDPRemoteListener key st)
  | CloseRemote r => Some ([], alter_remote shut_remote r st)
  | WaitRemote r => if (remote_with st r 0 rl_inflight =? 0)%nat then Some ([], st) else None
  | ResetConns r =>
      Some ([], remote_with st r st (λ l, with_collector (SetConns (an_now a) (sp_TunnelID (rl_spec l)) 0) st))
  | HandlePublic r p =>
      Some ([PubSession r p; PubDone r],
            remote_with st r st (λ l, with_collector (IncConns (an_now a) (sp_TunnelID (rl_spec l)))
                                        (alter_remote (add_active 1) r st)))
  | PubSession r p => Some (public_session r p (an_id a) st)
  | AddPending key ch => Some ([], with_pending (<[key := ch]> (tv_pending st)) (tv_chans st) st)
  | SendOpen r p ch s id => Some (send_open (an_ok a) r p ch s id st)
  | PubWait r p ch => public_wait r p ch (an_pub a) st
  | PubPipe r p d => Some (public_pipe a r p d st)
  | RemovePending key => Some ([], with_pending (delete key (tv_pending st)) (tv_chans st) st)
  | PubDone r =>
      Some ([], remote_with st r st (λ l, with_collector (DecConns (an_now a) (sp_TunnelID (rl_spec l)))
                                            (alter_remote (set_inflight pred) r (alter_remote (add_active (-1)) r st))))
  | DataAuth c msg => Some (data_auth c msg st)
  | DataLookup c key => Some (data_lookup c key st)
  | DataOffer c ch => Some ([], data_offer c ch st)
  | ReloadRead next => Some (reload_read next st, st)
  | SetConfig cfg => Some ([], with_cfg cfg st)
  | DisconnectInvalid cfg => Some (disconnectInvalidSessions cfg st, st)
  | StopAllScan => Some (stopAll st, st)
  end.

(** The server with its goroutines. *)
Record ServerState := { sv_server : TunnelServer; sv_threads : list (list Instr) }.

Inductive ServerEvent :=
| Connect (msg : Message)              (* a connection whose first message is [msg] *)
| PublicConn (r : nat)                 (* a connection to remote listener [r] is accepted *)
| ReloadRequest (next : ServerConfig)
| Shutdown (cancelled : bool)          (* [Run] ends: its context has, or accepting failed *)
| Run (k : nat) (a : Answer).          (* the next instruction of goroutine [k] *)

Definition new_conn (st : TunnelServer) : TunnelServer :=
  with_conns (tv_conns st ++ [{| cn_open := true; cn_auth := None |}]) st.

(** [acceptLoop]: the check of [max_conn] and the new handler. *)
Definition accept_public (r : nat) (s : ServerState) : option ServerState :=
  let st := sv_server s in
  let p := length (tv_conns st) in
  l ← tv_remotes st !! r;
  if negb (rl_open l) || is_udp (rl_spec l) then None
  else
    let st := new_conn st in
    if (0 <? sp_MaxConn (rl_spec l)) && (sp_MaxConn (rl_spec l) <=? rl_active l)
    then Some {| sv_server := close_conn p st; sv_threads := sv_threads s |}
    else Some {| sv_server := alter_remote (set_inflight S) r st; sv_threads := sv_threads s ++ [[HandlePublic r p]] |}.

Definition server_step (e : ServerEvent) (s : ServerState) : option ServerState :=
  let st := sv_server s in
  let spawn st i := Some {| sv_server := st; sv_threads := sv_threads s ++ [[i]] |} in
  match e with
  | Connect msg => spawn (new_conn st) (Dispatch (length (tv_conns st)) msg)
  | PublicConn r => accept_public r s
  | ReloadRequest next => spawn st (ReloadRead next)
  | Shutdown cancelled => spawn (with_done (tv_done st || cancelled) st) StopAllScan
  | Run k a =>
      match sv_threads s !! k with
      | Some (i :: rest) =>
          '(instrs, st) ← exec i a st;
          Some {| sv_server := st; sv_threads := <[k := instrs ++ rest]> (sv_threads s) |}
      | _ => None
      end
  end.

Definition new_server (cfg : ServerConfig) : ServerState := {| sv_server := NewServer cfg; sv_threads := [] |}.

(** The states the server can reach from its start. *)
Inductive reachable (cfg : ServerConfig) : ServerState → Prop :=
| reach_start : reachable cfg (new_server cfg)
| reach_step e s s' : reachable cfg s → server_step e s = Some s' → reachable cfg s'.

Fixpoint server_run (events : list ServerEvent) (s : ServerState) : option ServerState :=
  match events with [] => Some s | e :: events => server_step e s ≫= server_run events end.
