(* ===== verification/TunnelServerSpec.v ===== *)
(** * Properties of the tunnel server

    Invariants of the registry under every interleaving of its goroutines: who
    owns the open ports, how the handlers are counted, and where a data
    connection goes. *)

From S2P Require Import Prelude GoStrings NetIP Config Rule Stats TunnelConfig TunnelConfigSpec Threads TunnelServer.

Definition instrs_of (s : ServerState) : list Instr := mjoin (sv_threads s).

(** An invariant of the server and the bag of instructions its goroutines have
    left is proved by one case per kind of step. *)
Section invariant.
Context (P : TunnelServer → list Instr → Prop).

Record preserved : Prop := {
  pv_perm st l l' : l ≡ₚ l' → P st l → P st l';
  pv_connect st l msg : P st l → P (new_conn st) (Dispatch (length (tv_conns st)) msg :: l);
  pv_reload st l next : P st l → P st (ReloadRead next :: l);
  pv_shutdown st l done : P st l → P (with_done done st) (StopAllScan :: l);
  pv_refused st l : P st l → P (close_conn (length (tv_conns st)) (new_conn st)) l;
  pv_public st l r x : tv_remotes st !! r = Some x → rl_open x = true → P st l →
    P (alter_remote (set_inflight S) r (new_conn st)) (HandlePublic r (length (tv_conns st)) :: l);
  pv_exec i a st l new st' : P st (i :: l) → exec i a st = Some (new, st') → P st' (new ++ l);
}.

Lemma reachable_preserved cfg s :
  preserved → P (NewServer cfg) [] → reachable cfg s → P (sv_server s) (instrs_of s).
Proof.
  intros HP H0. induction 1 as [|e s s' _ IH Hstep]; [done|].
  assert (∀ i, mjoin (sv_threads s ++ [[i]]) ≡ₚ i :: instrs_of s) as Hspawn.
  { intros i. unfold instrs_of. rewrite join_app. simpl. solve_Permutation. }
  unfold server_step in Hstep. destruct e as [msg|r|next|cancelled|k a].
  - injection Hstep as <-. eapply (pv_perm HP); [symmetry; apply Hspawn|]. by apply (pv_connect HP).
  - unfold accept_public in Hstep. destruct (tv_remotes (sv_server s) !! r) as [x|] eqn:Hr; [|done]. simpl in Hstep.
    destruct (rl_open x) eqn:Ho; simpl in Hstep; [|done]. destruct (is_udp _); [done|].
    destruct (_ && _); injection Hstep as <-.
    + by apply (pv_refused HP).
    + eapply (pv_perm HP); [symmetry; apply Hspawn|]. by eapply (pv_public HP).
  - injection Hstep as <-. eapply (pv_perm HP); [symmetry; apply Hspawn|]. by apply (pv_reload HP).
  - injection Hstep as <-. eapply (pv_perm HP); [symmetry; apply Hspawn|]. by apply (pv_shutdown HP).
  - destruct (sv_threads s !! k) as [[|i rest]|] eqn:Hk; [done| |done].
    destruct (exec i a (sv_server s)) as [[new st']|] eqn:He; [|done]. injection Hstep as <-.
    destruct (mjoin_insert (sv_threads s) k i new rest Hk) as [Hbefore Hafter].
    eapply (pv_perm HP); [symmetry; exact Hafter|]. eapply (pv_exec HP); [|exact He].
    eapply (pv_perm HP); [exact Hbefore|exact IH].
Qed.
End invariant.

(** ** Who owns the open ports *)

Definition listener_map (st : TunnelServer) (udp : bool) : gmap string nat :=
  if udp then tv_udpListeners st else tv_listeners st.
Definition client_is (st : TunnelServer) (s : nat) (id : string) : Prop :=
  ∃ x, tv_sessions st !! s = Some x ∧ ss_clientID x = id.

(** Listeners whose socket is open but which are not in a map yet, and listeners
    that have left the map but whose socket is still to be closed. *)
Definition adds (l : list Instr) : list nat := omap (λ i, match i with AddRemote r _ _ _ => Some r | _ => None end) l.
Definition closes (l : list Instr) : list nat := omap (λ i, match i with CloseRemote r => Some r | _ => None end) l.

(** The instruction is part of a registration of client [id] that has started
    the listener [key], or is going to stop it. *)
Definition answers_for (st : TunnelServer) (udp : bool) (key id : string) (i : Instr) : Prop :=
  match i with
  | RegisterSpecs s _ started | Listen s _ _ started | AddRemote _ s _ started => key ∈ started ∧ client_is st s id
  | Publish s => client_is st s id
  | StopTCP k => k = key ∧ udp = false
  | StopUDP k => k = key ∧ udp = true
  | _ => False
  end.

Definition valid_instr (st : TunnelServer) (i : Instr) : Prop :=
  match i with
  | RegisterPrevious s | RegisterSpecs s _ _ | Listen s _ _ _ | Publish s => is_Some (tv_sessions st !! s)
  | AddRemote r s _ _ => ∃ x, tv_remotes st !! r = Some x ∧ client_is st s (rl_clientID x)
  | CloseRemote r => is_Some (tv_remotes st !! r)
  | _ => True
  end.

Record registry_ok (st : TunnelServer) (l : list Instr) : Prop := {
  rg_map : ∀ udp key r, listener_map st udp !! key = Some r →
    ∃ x, tv_remotes st !! r = Some x ∧ rl_open x = true ∧ rl_key x = key ∧ is_udp (rl_spec x) = udp ∧
      r ∉ adds l ∧ r ∉ closes l;
  rg_adds : ∀ r, r ∈ adds l → (∃ x, tv_remotes st !! r = Some x ∧ rl_open x = true) ∧ r ∉ closes l;
  rg_nodup : NoDup (adds l);
  rg_unique : ∀ r1 r2 x1 x2, tv_remotes st !! r1 = Some x1 → tv_remotes st !! r2 = Some x2 →
    rl_open x1 = true → rl_open x2 = true → rl_key x1 = rl_key x2 → r1 = r2;
  rg_open : ∀ r x, tv_remotes st !! r = Some x → rl_open x = true →
    r ∈ adds l ∨ r ∈ closes l ∨ listener_map st (is_udp (rl_spec x)) !! rl_key x = Some r;
  rg_valid : ∀ i, i ∈ l → valid_instr st i;
  rg_owner : ∀ udp key r x, listener_map st udp !! key = Some r → tv_remotes st !! r = Some x →
    is_Some (tv_clients st !! rl_clientID x) ∨ ∃ i, i ∈ l ∧ answers_for st udp key (rl_clientID x) i;
}.

(** The part of a listener that does not change while it is open. *)
Definition skeleton (x : RemoteListener) : string * TunnelSpec * bool := (rl_clientID x, rl_spec x, rl_open x).
Definition same_remotes (st st' : TunnelServer) : Prop := skeleton <$> tv_remotes st' = skeleton <$> tv_remotes st.

Lemma same_remotes_lookup st st' r x' :
  same_remotes st st' → tv_remotes st' !! r = Some x' →
  ∃ x, tv_remotes st !! r = Some x ∧ rl_clientID x = rl_clientID x' ∧ rl_spec x = rl_spec x' ∧ rl_open x = rl_open x'.
Proof.
  intros Hs Hr. assert ((skeleton <$> tv_remotes st') !! r = Some (skeleton x')) as H by (by rewrite list_lookup_fmap, Hr).
  rewrite Hs, list_lookup_fmap in H. destruct (tv_remotes st !! r) as [x|]; [|done]. exists x. by injection H.
Qed.

Lemma same_remotes_sym st st' : same_remotes st st' → same_remotes st' st.
Proof. done. Qed.

Lemma same_remotes_alter f r st : (∀ x, skeleton (f x) = skeleton x) → same_remotes st (alter_remote f r st).
Proof.
  intros Hf. unfold same_remotes, alter_remote. simpl. apply list_eq. intros k. rewrite !list_lookup_fmap.
  destruct (decide (k = r)) as [->|?].
  - rewrite list_lookup_alter_eq. destruct (tv_remotes st !! r); simpl; [|done]. by rewrite Hf.
  - by rewrite list_lookup_alter_ne.
Qed.

Lemma elem_of_adds r l : r ∈ adds l ↔ ∃ s rest started, AddRemote r s rest started ∈ l.
Proof.
  unfold adds. rewrite list_elem_of_omap. split.
  - intros (i & Hi & He). destruct i; try done. injection He as ->. by eexists _, _, _.
  - intros (s & rest & started & Hi). by eexists.
Qed.
Lemma elem_of_closes r l : r ∈ closes l ↔ CloseRemote r ∈ l.
Proof.
  unfold closes. rewrite list_elem_of_omap. split.
  - intros (i & Hi & He). destruct i; try done. by injection He as ->.
  - intros Hi. by eexists.
Qed.
Lemma adds_app l1 l2 : adds (l1 ++ l2) = adds l1 ++ adds l2.
Proof. apply omap_app. Qed.
Lemma closes_app l1 l2 : closes (l1 ++ l2) = closes l1 ++ closes l2.
Proof. apply omap_app. Qed.

Lemma registry_perm st l l' : l ≡ₚ l' → registry_ok st l → registry_ok st l'.
Proof.
  intros Hp []. assert (adds l ≡ₚ adds l') as Ha by (unfold adds; by rewrite Hp).
  assert (closes l ≡ₚ closes l') as Hc by (unfold closes; by rewrite Hp).
  split; try done.
  - intros udp key r Hr. setoid_rewrite <-Ha. setoid_rewrite <-Hc. by apply rg_map0.
  - intros r. rewrite <-Ha, <-Hc. apply rg_adds0.
  - by rewrite <-Ha.
  - intros r x. rewrite <-Ha, <-Hc. apply rg_open0.
  - intros i. rewrite <-Hp. apply rg_valid0.
  - intros udp key r x Hm Hr. destruct (rg_owner0 udp key r x Hm Hr) as [?|(i & Hi & ?)]; [by left|right].
    exists i. by rewrite <-Hp.
Qed.

(** A step that leaves the registry alone: it consumes [gone], whose
    instructions answer for no listener, and adds [new], which opens and closes
    none. *)
Definition inert (i : Instr) : bool :=
  match i with
  | RegisterSpecs _ _ _ | Listen _ _ _ _ | AddRemote _ _ _ _ | Publish _ | StopTCP _ | StopUDP _ | CloseRemote _ => false
  | _ => true
  end.

Lemma client_is_prefix st st' s id :
  tv_sessions st `prefix_of` tv_sessions st' → client_is st s id → client_is st' s id.
Proof. intros [k Hk] (x & Hx & ?). exists x. split; [|done]. rewrite Hk. by apply lookup_app_l_Some. Qed.

Lemma valid_prefix st st' i :
  tv_sessions st `prefix_of` tv_sessions st' → same_remotes st st' → valid_instr st i → valid_instr st' i.
Proof.
  intros Hp Hs. assert (∀ s, is_Some (tv_sessions st !! s) → is_Some (tv_sessions st' !! s)) as Hsome.
  { intros s [x Hx]. destruct Hp as [k ->]. exists x. by apply lookup_app_l_Some. }
  destruct i; simpl; auto.
  - intros (x & Hx & Hc).
    destruct (same_remotes_lookup st' st r x (same_remotes_sym _ _ Hs) Hx) as (x' & Hx' & He & _).
    exists x'. split; [done|]. rewrite He. by apply (client_is_prefix st).
  - intros [x Hx]. destruct (same_remotes_lookup st' st r x (same_remotes_sym _ _ Hs) Hx) as (x' & Hx' & _). by exists x'.
Qed.

Lemma registry_frame st st' gone new l :
  registry_ok st (gone ++ l) → Forall (λ i, inert i = true) gone →
  tv_clients st' = tv_clients st → tv_listeners st' = tv_listeners st → tv_udpListeners st' = tv_udpListeners st →
  tv_sessions st `prefix_of` tv_sessions st' → same_remotes st st' →
  adds new = [] → closes new = [] → Forall (valid_instr st') new →
  registry_ok st' (new ++ l).
Proof.
  intros [Hmap Hadds Hnd Huniq Hopen Hvalid Hown] Hgone Hcl Hl Hu Hpre Hsame Hna Hnc Hnv.
  assert (adds gone = [] ∧ closes gone = []) as [Hga Hgc].
  { clear -Hgone. induction Hgone as [|i gone Hi _ [IHa IHc]]; [done|]. by destruct i. }
  rewrite adds_app, closes_app, Hga, Hgc in *. simpl in *.
  assert (∀ udp, listener_map st' udp = listener_map st udp) as Hlm by (intros []; simpl; congruence).
  split; rewrite ?adds_app, ?closes_app, ?Hna, ?Hnc; simpl.
  - intros udp key r. rewrite Hlm. intros (x & Hx & ? & Hk & Hudp & ? & ?)%Hmap.
    destruct (same_remotes_lookup st' st r x (same_remotes_sym _ _ Hsame) Hx) as (x' & Hx' & ? & Hspec & ?).
    exists x'. unfold rl_key in *. rewrite Hspec. split_and!; try done. congruence.
  - intros r [(x & Hx & ?) ?]%Hadds. split; [|done].
    destruct (same_remotes_lookup st' st r x (same_remotes_sym _ _ Hsame) Hx) as (x' & Hx' & ? & ? & ?).
    exists x'. split; [done|congruence].
  - done.
  - intros r1 r2 x1 x2 H1 H2 ? ? ?.
    destruct (same_remotes_lookup st st' r1 x1 Hsame H1) as (y1 & ? & ? & Hs1 & ?).
    destruct (same_remotes_lookup st st' r2 x2 Hsame H2) as (y2 & ? & ? & Hs2 & ?).
    unfold rl_key in *. apply (Huniq r1 r2 y1 y2); try done; congruence.
  - intros r x Hx ?. destruct (same_remotes_lookup st st' r x Hsame Hx) as (y & Hy & ? & Hs & ?).
    rewrite Hlm. unfold rl_key in *. rewrite <-Hs. apply Hopen; [done|congruence].
  - intros i [Hi|Hi]%elem_of_app; [by eapply Forall_forall in Hnv|].
    apply (valid_prefix st); [done..|]. apply Hvalid, elem_of_app. by right.
  - intros udp key r x. rewrite Hlm, Hcl. intros Hm Hx.
    destruct (same_remotes_lookup st st' r x Hsame Hx) as (y & Hy & He & _). rewrite <-He.
    destruct (Hown udp key r y Hm Hy) as [?|(i & Hi & Ha)]; [by left|right].
    apply elem_of_app in Hi as [Hi|Hi].
    { eapply Forall_forall in Hgone; [|exact Hi]. by destruct i. }
    exists i. split; [by apply elem_of_app; right|].
    destruct i; simpl in *; try done; try (destruct Ha; split; [done|]); by apply (client_is_prefix st).
Qed.

Lemma stop_keys_adds keys : adds (stop_keys keys) = [] ∧ closes (stop_keys keys) = [].
Proof. induction keys as [|k keys [IHa IHc]]; [done|]. by split. Qed.
Lemma stop_keys_valid st keys : Forall (valid_instr st) (stop_keys keys).
Proof. induction keys as [|k keys IH]; [constructor|]. by repeat constructor. Qed.
Lemma elem_of_stop_keys key keys : key ∈ keys → StopTCP key ∈ stop_keys keys ∧ StopUDP key ∈ stop_keys keys.
Proof. intros Hk. unfold stop_keys. rewrite !list_elem_of_bind. split; exists key; (split; [|done]); unfold stopAnyRemoteListener; set_solver. Qed.

Definition plain (l : list Instr) : Prop := adds l = [] ∧ closes l = [].
Lemma plain_app l1 l2 : plain l1 → plain l2 → plain (l1 ++ l2).
Proof. intros [Ha1 Hc1] [Ha2 Hc2]. split; [by rewrite adds_app, Ha1, Ha2|by rewrite closes_app, Hc1, Hc2]. Qed.
Lemma plain_map {A} (f : A → Instr) (l : list A) : (∀ x, plain [f x]) → plain (f <$> l).
Proof. intros Hf. induction l as [|x l IH]; [done|]. rewrite fmap_cons. change (plain ([f x] ++ (f <$> l))). apply plain_app; auto. Qed.
Lemma plain_bind {A} (f : A → list Instr) (l : list A) : (∀ x, plain (f x)) → plain (l ≫= f).
Proof. intros Hf. induction l as [|x l IH]; [done|]. rewrite bind_cons. by apply plain_app. Qed.

(** What a step on the registry's rim leaves alone. *)
Record rim (st : TunnelServer) (new : list Instr) (st' : TunnelServer) : Prop := {
  rm_clients : tv_clients st' = tv_clients st;
  rm_listeners : tv_listeners st' = tv_listeners st;
  rm_udp : tv_udpListeners st' = tv_udpListeners st;
  rm_sessions : tv_sessions st `prefix_of` tv_sessions st';
  rm_remotes : same_remotes st st';
  rm_plain : plain new;
  rm_valid : Forall (valid_instr st') new;
}.

Lemma offer_rim ch v st : rim st [] (offer ch v st).2.
Proof. unfold offer. destruct (pc_buffer <$> _) as [[?|]|]; split; try done. Qed.

Ltac rim := split; [done|done|done|done|done|done|repeat constructor].

Lemma inert_exec i a st new st' :
  inert i = true → (∀ id s, i ≠ Unregister id s) → valid_instr st i → exec i a st = Some (new, st') → rim st new st'.
Proof.
  intros Hi Hun Hv He. destruct i; try discriminate Hi; cbn [exec] in He; try (injection He as He1; subst).
  - unfold handleTunnelConn in He1. destruct (bool_decide _); [by injection He1 as <- <-; rim|].
    destruct (bool_decide _); injection He1 as <- <-; rim.
  - unfold handleHello in He1. destruct (check_hello _ _) as [tunnels|e]; injection He1 as <- <-; [|rim].
    split; try done; [by apply prefix_app_r|]. repeat constructor. simpl. rewrite lookup_app_r, Nat.sub_diag by done. by eexists.
  - subst. unfold register_previous, session_with. simpl in Hv. destruct Hv as [x Hx]. rewrite Hx. destruct (getSession _ _);
      split; try done; repeat constructor; simpl; by rewrite Hx.
  - rim.
  - unfold session_with. destruct (tv_sessions st !! s); rim.
  - unfold controlReadLoop. destruct (an_control a); try rim. unfold session_with. destruct (tv_sessions _ !! s); rim.
  - unfold cancelPending. destruct (tv_pending _ !! key); rim.
  - apply offer_rim.
  - by destruct (Hun clientID s).
  - rim.
  - destruct (_ =? 0)%nat; [|done]. injection He as <- <-. rim.
  - unfold remote_with. destruct (tv_remotes st !! r); rim.
  - unfold remote_with. destruct (tv_remotes st !! r); [|rim]. split; try done; [by apply same_remotes_alter|]. by repeat constructor.
  - unfold public_session, remote_with in He1. destruct (tv_remotes st !! r); [|injection He1 as <- <-; rim].
    destruct (getSession _ _); injection He1 as <- <-; rim.
  - rim.
  - unfold send_open, remote_with in He1. destruct (tv_remotes st !! r); [destruct (an_ok a)|]; injection He1 as <- <-; rim.
  - unfold public_wait in He. destruct (an_pub a).
    + destruct (pc_buffer <$> _) as [[v|]|]; try done. destruct v; injection He as <- <-; rim.
    + injection He as <- <-. rim.
    + destruct (tv_done st || _); [|done]. injection He as <- <-. rim.
  - unfold public_pipe in He1. destruct (an_ended a); injection He1 as <- <-; rim.
  - rim.
  - unfold remote_with. destruct (tv_remotes st !! r); [|rim]. split; try done.
    etransitivity; [|apply (same_remotes_alter (add_active (-1)) r st); done].
    by apply (same_remotes_alter (set_inflight pred) r (alter_remote (add_active (-1)) r st)).
  - unfold data_auth in He1. destruct (authenticate _ _ _); [|injection He1 as <- <-; rim].
    destruct (_ || _); injection He1 as <- <-; rim.
  - unfold data_lookup in He1. destruct (tv_pending st !! key); injection He1 as <- <-; rim.
  - unfold data_offer. destruct (offer_rim ch (Some c) st). destruct (offer ch (Some c) st) as [[] st']; simpl in *; by split.
  - unfold reload_read. destruct (normalizeServerConfig next); rim.
  - rim.
  - assert (∀ s, plain (session_with st' s [] (λ session, if session_allowed cfg session then []
      else [Unregister (ss_clientID session) s; CloseConn (ss_conn session)])) ∧
      Forall (valid_instr st') (session_with st' s [] (λ session, if session_allowed cfg session then []
      else [Unregister (ss_clientID session) s; CloseConn (ss_conn session)]))) as Hs.
    { intros s. unfold session_with. destruct (tv_sessions st' !! s); [|by split]. destruct (session_allowed _ _); by repeat constructor. }
    split; try done; [by apply plain_bind, Hs|]. unfold disconnectInvalidSessions. apply Forall_bind, Forall_forall. intros s _. apply Hs.
  - split; try done.
    + apply plain_app; [|apply plain_app]; [by apply plain_map|by apply plain_map|by apply stop_keys_adds].
    + apply Forall_app. split; [by apply Forall_fmap, Forall_true|]. apply Forall_app.
      split; [by apply Forall_fmap, Forall_true|apply stop_keys_valid].
Qed.

(** An instruction that is replaced by others answering for the same keys. *)
Lemma registry_swap st i new l :
  registry_ok st (i :: l) → plain [i] → plain new → Forall (valid_instr st) new →
  (∀ udp key id, answers_for st udp key id i → ∃ j, j ∈ new ∧ answers_for st udp key id j) →
  registry_ok st (new ++ l).
Proof.
  intros [Hmap Hadds Hnd Huniq Hopen Hvalid Hown] [Hia Hic] [Hna Hnc] Hnv Hans.
  change (i :: l) with ([i] ++ l) in *. rewrite adds_app, closes_app, Hia, Hic in *. simpl in *.
  split; rewrite ?adds_app, ?closes_app, ?Hna, ?Hnc; simpl; try done.
  - intros j [Hj|Hj]%elem_of_app; [by eapply Forall_forall in Hnv|]. apply Hvalid. by right.
  - intros udp key r x Hm Hr. destruct (Hown udp key r x Hm Hr) as [?|(j & Hj & Ha)]; [by left|right].
    apply elem_of_cons in Hj as [->|Hj]; [|exists j; split; [apply elem_of_app; by right|done]].
    destruct (Hans _ _ _ Ha) as (j' & ? & ?). exists j'. split; [apply elem_of_app; by left|done].
Qed.

Lemma answers_stop_keys st udp key id started :
  key ∈ started → ∃ j, j ∈ stop_keys started ∧ answers_for st udp key id j.
Proof.
  intros [H1 H2]%elem_of_stop_keys. destruct udp; [by exists (StopUDP key)|by exists (StopTCP key)].
Qed.

Lemma registry_specs st s rest started l :
  registry_ok st (RegisterSpecs s rest started :: l) → registry_ok st (register_specs s rest started st ++ l).
Proof.
  intros H. assert (is_Some (tv_sessions st !! s)) as Hs by (apply (rg_valid _ _ H (RegisterSpecs s rest started)); by left).
  eapply registry_swap; [exact H|done|..]; destruct rest as [|spec rest]; simpl.
  - done.
  - destruct (key_in_use _ _); [|done]. apply plain_app; [apply stop_keys_adds|done].
  - by repeat constructor.
  - destruct (key_in_use _ _); [|by repeat constructor]. apply Forall_app. split; [apply stop_keys_valid|by repeat constructor].
  - intros udp key id [_ ?]. exists (Publish s). split; [by left|done].
  - intros udp key id [Hk ?]. destruct (key_in_use _ _).
    + destruct (answers_stop_keys st udp key id started Hk) as (j & ? & ?). exists j. split; [apply elem_of_app; by left|done].
    + exists (Listen s spec rest started). split; [by left|done].
Qed.

Lemma address_free_spec st key r x :
  address_free st key = true → tv_remotes st !! r = Some x → rl_open x = true → rl_key x ≠ key.
Proof.
  intros Hf Hr Ho Hk. unfold address_free in Hf. rewrite forallb_forall in Hf.
  specialize (Hf x). rewrite Ho, bool_decide_eq_true_2 in Hf by done.
  by discriminate Hf; eapply list_elem_of_In, list_elem_of_lookup_2.
Qed.

Lemma registry_listen st ok s spec rest started l new st' :
  registry_ok st (Listen s spec rest started :: l) → listen_remote ok s spec rest started st = Some (new, st') →
  registry_ok st' (new ++ l).
Proof.
  intros H. assert (is_Some (tv_sessions st !! s)) as Hs by (apply (rg_valid _ _ H (Listen s spec rest started)); by left).
  unfold listen_remote. destruct ok; cycle 1.
  { intros [= <- <-]. eapply registry_swap; [exact H|done| | |].
    - apply plain_app; [apply stop_keys_adds|done].
    - apply Forall_app. split; [apply stop_keys_valid|by repeat constructor].
    - intros udp key id [Hk ?]. destruct (answers_stop_keys st udp key id started Hk) as (j & ? & ?).
      exists j. split; [apply elem_of_app; by left|done]. }
  destruct (address_free st (remoteListenKey spec)) eqn:Hfree; [|done]. intros [= <- <-].
  destruct Hs as [x Hx]. set (n := length (tv_remotes st)).
  set (remote := {| rl_clientID := session_with st s "" ss_clientID; rl_spec := spec; rl_open := true;
                    rl_cancelled := false; rl_active := 0; rl_inflight := 0 |}).
  destruct H as [Hmap Hadds Hnd Huniq Hopen Hvalid Hown]. simpl in *.
  assert (∀ r y, (tv_remotes st ++ [remote]) !! r = Some y → tv_remotes st !! r = Some y ∨ (r = n ∧ y = remote)) as Hlook.
  { intros r y [?|[? Hy]]%lookup_app_Some; [by left|]. right. apply list_lookup_singleton_Some in Hy as [? ->]. split; [|done]. unfold n. lia. }
  assert (∀ r y, tv_remotes st !! r = Some y → (tv_remotes st ++ [remote]) !! r = Some y ∧ r ≠ n) as Hold.
  { intros r y Hy. split; [by apply lookup_app_l_Some|]. apply lookup_lt_Some in Hy. unfold n. lia. }
  assert ((tv_remotes st ++ [remote]) !! n = Some remote) as Hnew by (unfold n; by rewrite lookup_app_r, Nat.sub_diag).
  assert (n ∉ closes l ∧ n ∉ adds l) as [Hnc Hna].
  { assert (tv_remotes st !! n = None) as Hnone by (unfold n; by apply lookup_ge_None). split.
    - intros Hc%elem_of_closes. destruct (Hvalid (CloseRemote n)) as [y Hy]; [by right|]. by rewrite Hnone in Hy.
    - intros Ha. destruct (Hadds n Ha) as [(y & Hy & _) _]. by rewrite Hnone in Hy. }
  assert (rl_clientID remote = ss_clientID x) as Hclient by (simpl; unfold session_with; by rewrite Hx).
  split; simpl; try done.
  - intros udp key r Hm. destruct (Hmap udp key r Hm) as (y & Hy & ? & ? & ? & ? & ?). exists y.
    destruct (Hold r y Hy) as [? ?]. split_and!; try done. set_solver.
  - intros r [->|Hr]%elem_of_cons; [split; [by exists remote|done]|]. destruct (Hadds r Hr) as [(y & Hy & ?) ?].
    split; [|done]. exists y. by split; [apply Hold|].
  - by constructor.
  - intros r1 r2 x1 x2 [H1|[-> ->]]%Hlook [H2|[-> ->]]%Hlook ? ? Hk; [by eapply Huniq| | |done].
    + by destruct (address_free_spec _ _ _ _ Hfree H1).
    + by destruct (address_free_spec _ _ _ _ Hfree H2).
  - intros r y [Hy|[-> ->]]%Hlook Ho; [|left; by left]. destruct (Hopen r y Hy Ho) as [?|[?|?]]; [left; by right|right; by left|right; by right].
  - intros i [->|Hi]%elem_of_cons.
    + exists remote. split; [done|]. rewrite Hclient. by exists x.
    + assert (valid_instr st i) as Hv by (apply Hvalid; by right). destruct i; simpl in *; try done.
      * destruct Hv as (y & Hy & ?). exists y. by split; [apply Hold|].
      * destruct Hv as [y Hy]. exists y. by apply Hold.
  - intros udp key r y Hm Hy. destruct (Hmap udp key r Hm) as (y' & Hy' & _).
    destruct (Hold r y' Hy') as [Hy'' _]. rewrite Hy in Hy''. injection Hy'' as <-.
    destruct (Hown udp key r y Hm Hy') as [?|(i & [->|Hi]%elem_of_cons & Ha)]; [by left| |].
    + right. exists (AddRemote n s rest started). split; [by left|done].
    + right. exists i. split; [by right|]. by destruct i.
Qed.

Lemma listener_map_maps st tcp udp b : listener_map (with_maps tcp udp st) b = if b then udp else tcp.
Proof. by destruct b. Qed.

(** The map a listener goes to. *)
Definition insert_remote (x : RemoteListener) (r : nat) (st : TunnelServer) : TunnelServer :=
  if is_udp (rl_spec x) then with_maps (tv_listeners st) (<[rl_key x := r]> (tv_udpListeners st)) st
  else with_maps (<[rl_key x := r]> (tv_listeners st)) (tv_udpListeners st) st.
Lemma insert_remote_map x r st b :
  listener_map (insert_remote x r st) b =
  if decide (is_udp (rl_spec x) = b) then <[rl_key x := r]> (listener_map st b) else listener_map st b.
Proof. unfold insert_remote. by destruct (is_udp (rl_spec x)), b. Qed.

Lemma registry_add st now r s rest started l new st' :
  registry_ok st (AddRemote r s rest started :: l) → add_remote now r s rest started st = (new, st') →
  registry_ok st' (new ++ l).
Proof.
  intros [Hmap Hadds Hnd Huniq Hopen Hvalid Hown].
  assert (valid_instr st (AddRemote r s rest started)) as (x & Hx & Hc) by (apply Hvalid; by left).
  unfold add_remote, remote_with. rewrite Hx. fold (insert_remote x r st). intros [= <- <-].
  simpl in Hnd. apply NoDup_cons in Hnd as [Hra Hnd].
  destruct (Hadds r) as [(x' & Hx' & Hxo) Hrc]; [by left|]. rewrite Hx in Hx'. injection Hx' as <-. simpl in Hrc.
  set (st' := with_collector _ _).
  assert (∀ b, listener_map st' b = if decide (is_udp (rl_spec x) = b) then <[rl_key x := r]> (listener_map st b) else listener_map st b) as Hlm.
  { intros b. rewrite <-insert_remote_map. by destruct b. }
  assert (tv_remotes st' = tv_remotes st ∧ tv_clients st' = tv_clients st ∧ tv_sessions st' = tv_sessions st) as (Hr' & Hc' & Hs').
  { unfold st', insert_remote. by destruct (is_udp _). }
  assert (∀ udp key k, listener_map st' udp !! key = Some k →
    (k = r ∧ key = rl_key x ∧ udp = is_udp (rl_spec x)) ∨ listener_map st udp !! key = Some k) as Hin.
  { intros udp key k. rewrite Hlm. case_decide as E; [|by right]. intros [[<- <-]|[_ ?]]%lookup_insert_Some; [by left|by right]. }
  assert (∀ i, valid_instr st i → valid_instr st' i) as Hv'.
  { intros i. unfold valid_instr, client_is. by rewrite Hr', Hs'. }
  assert (∀ udp key id i, answers_for st udp key id i → answers_for st' udp key id i) as Ha'.
  { intros udp key id i. unfold answers_for, client_is. by rewrite Hs'. }
  clearbody st'. split; simpl; rewrite ?Hr', ?Hc'; try done.
  - intros udp key k [(-> & -> & ->)|Hm]%Hin; [by exists x|].
    destruct (Hmap udp key k Hm) as (y & ? & ? & ? & ? & Hna & ?). exists y. simpl in Hna. set_solver.
  - intros k Hk. destruct (Hadds k) as [? ?]; [by right|]. done.
  - intros k y Hy Ho. rewrite Hlm. destruct (Hopen k y Hy Ho) as [Hk|[?|Hm]]; [|right; by left|].
    + simpl in Hk. apply elem_of_cons in Hk as [->|?]; [|by left]. rewrite Hx in Hy. injection Hy as <-.
      right. right. by rewrite decide_True, lookup_insert_eq.
    + right. right. case_decide; [|done]. destruct (decide (rl_key x = rl_key y)) as [E|?]; [|by rewrite lookup_insert_ne].
      rewrite E, lookup_insert_eq. f_equal. by apply (Huniq r k x y).
  - intros i [->|Hi]%elem_of_cons; [|apply Hv', Hvalid; by right]. simpl. destruct Hc as (z & Hz & _). rewrite Hs'. by exists z.
  - intros udp key k y Hk Hy. apply Hin in Hk as [(-> & -> & ->)|Hm].
    + right. exists (RegisterSpecs s rest (started ++ [rl_key x])). split; [by left|]. rewrite Hx in Hy. injection Hy as <-.
      split; [set_solver|]. unfold client_is. by rewrite Hs'.
    + destruct (Hown udp key k y Hm Hy) as [?|(i & [->|Hi]%elem_of_cons & Ha)]; [by left| |]; right.
      * eexists. split; [by left|]. destruct Ha as [? ?]. split; [set_solver|]. unfold client_is. by rewrite Hs'.
      * exists i. split; [by right|by apply Ha'].
Qed.

Lemma registry_publish st s l new st' :
  registry_ok st (Publish s :: l) → publish_session s st = (new, st') → registry_ok st' (new ++ l).
Proof.
  intros [Hmap Hadds Hnd Huniq Hopen Hvalid Hown].
  assert (valid_instr st (Publish s)) as [x Hx] by (apply Hvalid; by left).
  unfold publish_session, session_with. rewrite Hx. intros [= <- <-].
  split; simpl; try done.
  - intros i [->|[->|Hi]%elem_of_cons]%elem_of_cons; [done|done|]. apply Hvalid. by right.
  - intros udp key r y Hm Hy. destruct (decide (ss_clientID x = rl_clientID y)) as [E|Hne].
    { left. rewrite E, lookup_insert_eq. by eexists. }
    rewrite lookup_insert_ne by done. destruct (Hown udp key r y Hm Hy) as [?|(i & [->|Hi]%elem_of_cons & Ha)]; [by left| |].
    + destruct Ha as (z & Hz & E). rewrite Hx in Hz. injection Hz as <-. done.
    + right. exists i. split; [set_solver|done].
Qed.

Lemma elem_of_owned_keys st id m key r x :
  m !! key = Some r → tv_remotes st !! r = Some x → rl_clientID x = id → key ∈ owned_keys st id m.
Proof.
  intros Hm Hx Hc. unfold owned_keys. apply list_elem_of_fmap. exists (key, r). split; [done|].
  apply list_elem_of_filter. split; [|by apply elem_of_map_to_list]. simpl. unfold remote_with. rewrite Hx.
  by apply bool_decide_eq_true.
Qed.

Lemma registry_unregister st id s l new st' :
  registry_ok st (Unregister id s :: l) → unregisterSession id s st = (new, st') → registry_ok st' (new ++ l).
Proof.
  intros H. unfold unregisterSession. case_bool_decide; intros [= <- <-]; cycle 1.
  { by apply (registry_swap st (Unregister id s) [] l). }
  set (keys := owned_keys st id (tv_listeners st) ++ owned_keys st id (tv_udpListeners st)).
  assert (registry_ok st (stop_keys keys ++ l)) as [Hmap Hadds Hnd Huniq Hopen Hvalid Hown].
  { apply (registry_swap st (Unregister id s)); [done|done|apply stop_keys_adds|apply stop_keys_valid|done]. }
  split; try done. intros udp key r x Hm Hx. destruct (decide (rl_clientID x = id)) as [E|Hne].
  - right. assert (key ∈ keys) as Hk.
    { unfold keys. apply elem_of_app. destruct udp; [right|left]; by eapply elem_of_owned_keys. }
    destruct (answers_stop_keys (with_clients (delete id (tv_clients st)) st) udp key (rl_clientID x) keys Hk) as (j & ? & ?).
    exists j. split; [by apply elem_of_app; left|done].
  - destruct (Hown udp key r x Hm Hx) as [?|?]; [left|by right]. simpl. by rewrite lookup_delete_ne.
Qed.

(** Taking a listener out of its map. *)
Lemma registry_stop st (udp : bool) key l new st' :
  registry_ok st ((if udp then StopUDP key else StopTCP key) :: l) →
  (if udp then stopUDPRemoteListener key st else stopRemoteListener key st) = (new, st') → registry_ok st' (new ++ l).
Proof.
  intros H Hs. assert (listener_map st udp !! key = None ∧ new = [] ∧ st' = st ∨
    ∃ r, listener_map st udp !! key = Some r ∧ new = stop_remote r ∧
      st' = with_maps (if udp then tv_listeners st else delete key (tv_listeners st))
                      (if udp then delete key (tv_udpListeners st) else tv_udpListeners st) st) as Hcase.
  { destruct udp; unfold stopUDPRemoteListener, stopRemoteListener in Hs; simpl.
    - destruct (tv_udpListeners st !! key); injection Hs as <- <-; [right; by eexists|by left].
    - destruct (tv_listeners st !! key); injection Hs as <- <-; [right; by eexists|by left]. }
  assert (adds ((if udp then StopUDP key else StopTCP key) :: l) = adds l ∧
          closes ((if udp then StopUDP key else StopTCP key) :: l) = closes l) as [Ea Ec] by (by destruct udp).
  destruct H as [Hmap Hadds Hnd Huniq Hopen Hvalid Hown]. rewrite Ea in *.
  assert (∀ udp' key' r x, listener_map st udp' !! key' = Some r → tv_remotes st !! r = Some x → (udp', key') ≠ (udp, key) →
    is_Some (tv_clients st !! rl_clientID x) ∨ ∃ i, i ∈ l ∧ answers_for st udp' key' (rl_clientID x) i) as Hown'.
  { intros udp' key' r x Hm Hx Hne. destruct (Hown udp' key' r x Hm Hx) as [?|(i & [->|Hi]%elem_of_cons & Ha)]; [by left| |].
    - destruct udp, udp'; by destruct Ha as [-> ?].
    - right. by exists i. }
  destruct Hcase as [(Hnone & -> & ->)|(r & Hr & -> & ->)].
  { split; simpl; try done.
    - intros udp' key' r Hm. destruct (Hmap udp' key' r Hm) as (x & ? & ? & ? & ? & ? & Hnc). exists x. by rewrite Ec in Hnc.
    - intros r Hr'. destruct (Hadds r Hr') as [? Hnc]. by rewrite Ec in Hnc.
    - intros r x Hx Ho. rewrite <-Ec. by apply Hopen.
    - intros i Hi. apply Hvalid. by right.
    - intros udp' key' r x Hm Hx. apply (Hown' _ _ r); [done..|]. intros [= -> ->]. by rewrite Hnone in Hm. }
  destruct (Hmap udp key r Hr) as (x & Hx & Hxo & Hxk & Hxu & Hna & Hnc). rewrite Ec in *.
  set (st' := with_maps _ _ st).
  assert (∀ udp' key', listener_map st' udp' !! key' = if decide ((udp', key') = (udp, key)) then None else listener_map st udp' !! key') as Hlm.
  { intros udp' key'. unfold st'. rewrite listener_map_maps. case_decide as E.
    - injection E as -> ->. destruct udp; apply lookup_delete_eq.
    - destruct udp, udp'; simpl; try done; rewrite lookup_delete_ne; congruence. }
  assert (∀ udp' key' k, listener_map st' udp' !! key' = Some k → listener_map st udp' !! key' = Some k ∧ (udp', key') ≠ (udp, key)) as Hin.
  { intros udp' key' k. rewrite Hlm. by case_decide. }
  split; simpl; try done.
  - intros udp' key' k [Hm Hne]%Hin. destruct (Hmap udp' key' k Hm) as (y & Hy & ? & Hyk & Hyu & ? & Hync). exists y.
    split_and!; try done. intros [->|?]%elem_of_cons; [|done]. rewrite Hx in Hy. injection Hy as <-. congruence.
  - intros k Hk. destruct (Hadds k Hk) as [? Hkc]. split; [done|]. intros [->|?]%elem_of_cons; done.
  - intros k y Hy Ho. destruct (Hopen k y Hy Ho) as [?|[?|Hm]]; [by left|right; left; by right|].
    rewrite Hlm. case_decide as E; [|right; by right]. injection E as E1 E2. rewrite E1, E2, Hr in Hm. injection Hm as ->. right. left. by left.
  - intros i [->|[->|[->|Hi]%elem_of_cons]%elem_of_cons]%elem_of_cons; [by exists x|done|done|]. apply (Hvalid i). by right.
  - intros udp' key' k y [Hm Hne]%Hin Hy. destruct (Hown' udp' key' k y Hm Hy Hne) as [?|(i & Hi & Ha)]; [by left|right].
    exists i. split; [do 3 right; done|done].
Qed.

Lemma registry_close st r l :
  registry_ok st (CloseRemote r :: l) → registry_ok (alter_remote shut_remote r st) l.
Proof.
  intros [Hmap Hadds Hnd Huniq Hopen Hvalid Hown]. simpl in *.
  assert (valid_instr st (CloseRemote r)) as [x Hx] by (apply Hvalid; by left).
  assert (∀ k y, alter shut_remote r (tv_remotes st) !! k = Some y →
    (k = r ∧ y = shut_remote x) ∨ (k ≠ r ∧ tv_remotes st !! k = Some y)) as Hlook.
  { intros k y. destruct (decide (k = r)) as [->|Hne].
    - rewrite list_lookup_alter_eq, Hx. intros [= <-]. by left.
    - rewrite list_lookup_alter_ne by done. by right. }
  assert (∀ k y, tv_remotes st !! k = Some y → k ≠ r → alter shut_remote r (tv_remotes st) !! k = Some y) as Hkeep.
  { intros k y Hy Hne. by rewrite list_lookup_alter_ne. }
  assert (alter shut_remote r (tv_remotes st) !! r = Some (shut_remote x)) as Hshut by (by rewrite list_lookup_alter_eq, Hx).
  split; simpl; try done.
  - intros udp key k Hm. destruct (Hmap udp key k Hm) as (y & ? & ? & ? & ? & ? & Hc). exists y.
    split_and!; try done; [apply Hkeep; [done|]; intros ->; apply Hc; by left|]. intros ?. apply Hc. by right.
  - intros k Hk. destruct (Hadds k Hk) as [(y & Hy & ?) Hc]. split.
    + exists y. split; [|done]. apply Hkeep; [done|]. intros ->. apply Hc. by left.
    + intros ?. apply Hc. by right.
  - intros r1 r2 x1 x2 [[_ ->]|[? ?]]%Hlook [[_ ->]|[? ?]]%Hlook ? ? ?; try done. by eapply Huniq.
  - intros k y [[_ ->]|[? Hy]]%Hlook Ho; [done|]. destruct (Hopen k y Hy Ho) as [?|[Hc|?]]; [by left| |right; by right].
    right. left. by apply elem_of_cons in Hc as [->|?].
  - intros i Hi. assert (valid_instr st i) as Hv by (apply Hvalid; by right). destruct i; simpl in *; try done.
    + destruct Hv as (y & Hy & ?). destruct (decide (r0 = r)) as [->|?]; [|exists y; split; [by apply Hkeep|done]].
      exists (shut_remote x). split; [done|]. rewrite Hx in Hy. by injection Hy as <-.
    + destruct Hv as [y Hy]. destruct (decide (r0 = r)) as [->|?]; [by eexists|]. exists y. by apply Hkeep.
  - intros udp key k y Hm Hy. destruct (Hmap udp key k Hm) as (y' & Hy' & _ & _ & _ & _ & Hc).
    assert (y = y') as ->.
    { apply Hlook in Hy as [[-> _]|[_ Hy]]; [destruct Hc; by left|congruence]. }
    destruct (Hown udp key k y' Hm Hy') as [?|(i & [->|Hi]%elem_of_cons & Ha)]; [by left|done|right].
    exists i. split; [done|]. by destruct i.
Qed.

Lemma registry_preserved : preserved registry_ok.
Proof.
  split.
  - intros st l l' Hp. by apply registry_perm.
  - intros st l msg H. apply (registry_frame st (new_conn st) [] [_] l H); done || by repeat constructor.
  - intros st l next H. apply (registry_frame st st [] [_] l H); done || by repeat constructor.
  - intros st l d H. apply (registry_frame st (with_done d st) [] [_] l H); done || by repeat constructor.
  - intros st l H. apply (registry_frame st _ [] [] l H); done || by repeat constructor.
  - intros st l r x _ _ H. apply (registry_frame st _ [] [_] l H); try done || by repeat constructor.
    by apply (same_remotes_alter (set_inflight S) r (new_conn st)).
  - intros i a st l new st' H He. destruct (inert i) eqn:Hi.
    + assert ((∃ id s, i = Unregister id s) ∨ ∀ id s, i ≠ Unregister id s) as [(id & s & ->)|Hne].
      { destruct i; (by right) || (left; by eexists _, _). }
      * injection He as He. by apply (registry_unregister st id s).
      * destruct (inert_exec i a st new st' Hi Hne (rg_valid _ _ H i ltac:(by left)) He) as [? ? ? ? ? [? ?] ?].
        apply (registry_frame st st' [i] new l); try done. by constructor.
    + destruct i; try discriminate Hi; cbn [exec] in He.
      * injection He as <- <-. by apply registry_specs.
      * by apply (registry_listen st (an_ok a) s spec rest started).
      * injection He as He. by apply (registry_add st (an_now a) r s rest started).
      * injection He as He. by apply (registry_publish st s).
      * injection He as He. by apply (registry_stop st false key).
      * injection He as He. by apply (registry_stop st true key).
      * injection He as <- <-. by apply registry_close.
Qed.

Lemma registry_reachable cfg s : reachable cfg s → registry_ok (sv_server s) (instrs_of s).
Proof.
  apply (reachable_preserved registry_ok); [apply registry_preserved|].
  assert (∀ udp key r, listener_map (NewServer cfg) udp !! key ≠ Some r) as Hm by (by intros []).
  split; simpl; try done; [by intros ??? ?%Hm|by intros ? ?%elem_of_nil|apply NoDup_nil_2|by intros ? ?%elem_of_nil].
Qed.

(** No goroutine is registering a client or stopping a listener. *)
Definition settled (s : ServerState) : Prop := Forall (λ i, inert i = true) (instrs_of s).

(** C17: an open public port always has an owner. In every interleaving, the
    socket of a remote listener is open only while the listener is in the map of
    its protocol, under its own address, or a goroutine is about to add it or to
    close it; and its client is connected, or a goroutine is registering that
    client, or is about to stop the listener. So whenever no registration and no
    stop is under way, the open ports are exactly those of the maps, each one
    belongs to a connected client, and no address is bound twice. *)
Theorem open_ports_have_owners cfg s :
  reachable cfg s → settled s →
  let st := sv_server s in
  (∀ r x, tv_remotes st !! r = Some x → rl_open x = true →
     listener_map st (is_udp (rl_spec x)) !! rl_key x = Some r ∧ is_Some (tv_clients st !! rl_clientID x)) ∧
  (∀ udp key r, listener_map st udp !! key = Some r →
     ∃ x, tv_remotes st !! r = Some x ∧ rl_open x = true ∧ rl_key x = key ∧ is_udp (rl_spec x) = udp) ∧
  (∀ r1 r2 x1 x2, tv_remotes st !! r1 = Some x1 → tv_remotes st !! r2 = Some x2 →
     rl_open x1 = true → rl_open x2 = true → rl_key x1 = rl_key x2 → r1 = r2).
Proof.
  intros Hreach Hset st. destruct (registry_reachable cfg s Hreach) as [Hmap Hadds Hnd Huniq Hopen Hvalid Hown].
  unfold settled in Hset. rewrite Forall_forall in Hset. split_and!; [|by intros udp key r (x & ? & ? & ? & ? & _)%Hmap; exists x|done].
  intros r x Hx Ho. destruct (Hopen r x Hx Ho) as [(? & ? & ? & Hi%Hset)%elem_of_adds|[Hi%elem_of_closes%Hset|Hm]]; try done.
  split; [done|]. destruct (Hown _ _ r x Hm Hx) as [?|(i & Hi%Hset & Ha)]; [done|]. by destruct i.
Qed.

(** ** Counting the handlers *)

(** Handlers that have not started, and handlers that are running. *)
Definition starting (r : nat) (i : Instr) : bool := match i with HandlePublic k _ => bool_decide (k = r) | _ => false end.
Definition running_handler (r : nat) (i : Instr) : bool := match i with PubDone k => bool_decide (k = r) | _ => false end.
Definition handler_of (i : Instr) : option nat := match i with HandlePublic r _ | PubDone r => Some r | _ => None end.

Record counted (st : TunnelServer) (l : list Instr) : Prop := {
  ct_active : ∀ r x, tv_remotes st !! r = Some x → rl_active x = wrap64 (Z.of_nat (count_of (running_handler r) l));
  ct_inflight : ∀ r x, tv_remotes st !! r = Some x →
    rl_inflight x = (count_of (starting r) l + count_of (running_handler r) l)%nat;
  ct_known : ∀ i r, i ∈ l → handler_of i = Some r → (r < length (tv_remotes st))%nat;
}.

Definition tally (x : RemoteListener) : Z * nat := (rl_active x, rl_inflight x).
Definition calm (l : list Instr) : Prop := Forall (λ i, handler_of i = None) l.

Lemma calm_starting r l : calm l → count_of (starting r) l = 0%nat.
Proof. intros H. apply count_zero. eapply Forall_impl; [exact H|]. by intros []. Qed.
Lemma calm_running r l : calm l → count_of (running_handler r) l = 0%nat.
Proof. intros H. apply count_zero. eapply Forall_impl; [exact H|]. by intros []. Qed.

Lemma tally_lookup st st' r x' :
  tally <$> tv_remotes st' = tally <$> tv_remotes st → tv_remotes st' !! r = Some x' →
  ∃ x, tv_remotes st !! r = Some x ∧ rl_active x = rl_active x' ∧ rl_inflight x = rl_inflight x'.
Proof.
  intros Hs Hr. assert ((tally <$> tv_remotes st') !! r = Some (tally x')) as H by (by rewrite list_lookup_fmap, Hr).
  rewrite Hs, list_lookup_fmap in H. destruct (tv_remotes st !! r) as [x|]; [|done]. exists x. by injection H.
Qed.

Lemma counted_frame st st' gone new l :
  counted st (gone ++ l) → calm gone → calm new → tally <$> tv_remotes st' = tally <$> tv_remotes st →
  counted st' (new ++ l).
Proof.
  intros [Ha Hi Hk] Hgone Hnew Hs. split.
  - intros r x' (x & Hx & <- & _)%(tally_lookup st); [|done]. rewrite (Ha r x Hx), !count_app, (calm_running r gone), (calm_running r new) by done. done.
  - intros r x' (x & Hx & _ & <-)%(tally_lookup st); [|done]. rewrite (Hi r x Hx), !count_app.
    rewrite (calm_running r gone), (calm_running r new), (calm_starting r gone), (calm_starting r new) by done. done.
  - intros i r [Hin|Hin]%elem_of_app Hh.
    { eapply Forall_forall in Hnew; [|exact Hin]. by rewrite Hh in Hnew. }
    assert (length (tv_remotes st') = length (tv_remotes st)) as ->
      by (rewrite <-(length_fmap tally (tv_remotes st')), Hs; by rewrite length_fmap).
    eapply Hk; [|exact Hh]. apply elem_of_app. by right.
Qed.

Lemma tally_alter f r st : (∀ x, tally (f x) = tally x) → tally <$> tv_remotes (alter_remote f r st) = tally <$> tv_remotes st.
Proof.
  intros Hf. apply list_eq. intros k. simpl. rewrite !list_lookup_fmap. destruct (decide (k = r)) as [->|?].
  - rewrite list_lookup_alter_eq. destruct (tv_remotes st !! r); simpl; [|done]. by rewrite Hf.
  - by rewrite list_lookup_alter_ne.
Qed.

Lemma calm_stop_keys keys : calm (stop_keys keys).
Proof. induction keys as [|k keys IH]; [constructor|]. by repeat constructor. Qed.

(** The instructions that touch no handler. *)
Definition aside (i : Instr) : bool :=
  match i with HandlePublic _ _ | PubDone _ | Listen _ _ _ _ => false | _ => true end.

Ltac aside := split; [by repeat constructor|done].

Lemma aside_exec i a st new st' :
  aside i = true → exec i a st = Some (new, st') → calm new ∧ tally <$> tv_remotes st' = tally <$> tv_remotes st.
Proof.
  intros Hi He. destruct i; try discriminate Hi; cbn [exec] in He; try (injection He as He1; subst).
  - unfold handleTunnelConn in He1. destruct (bool_decide _); [by injection He1 as <- <-; aside|].
    destruct (bool_decide _); injection He1 as <- <-; aside.
  - unfold handleHello in He1. destruct (check_hello _ _); injection He1 as <- <-; aside.
  - unfold register_previous, session_with. destruct (tv_sessions st' !! s); [|aside]. destruct (getSession _ _); aside.
  - unfold register_specs. destruct rest; [aside|]. destruct (key_in_use _ _); [|aside]. split; [|done].
    apply Forall_app. split; [apply calm_stop_keys|by repeat constructor].
  - unfold add_remote, remote_with in He1. destruct (tv_remotes st !! r); [|injection He1 as <- <-; aside].
    injection He1 as <- <-. split; [by repeat constructor|]. by destruct (is_udp _).
  - unfold publish_session, session_with in He1. destruct (tv_sessions st !! s); injection He1 as <- <-; aside.
  - aside.
  - unfold session_with. destruct (tv_sessions st !! s); aside.
  - unfold controlReadLoop. destruct (an_control a); try aside. unfold session_with. destruct (tv_sessions _ !! s); aside.
  - unfold cancelPending. destruct (tv_pending _ !! key); aside.
  - unfold offer. destruct (pc_buffer <$> _) as [[?|]|]; aside.
  - unfold unregisterSession in He1. destruct (bool_decide _); injection He1 as <- <-; [|aside]. split; [apply calm_stop_keys|done].
  - aside.
  - unfold stopRemoteListener in He1. destruct (tv_listeners st !! key); injection He1 as <- <-; aside.
  - unfold stopUDPRemoteListener in He1. destruct (tv_udpListeners st !! key); injection He1 as <- <-; aside.
  - split; [by repeat constructor|]. by apply tally_alter.
  - destruct (_ =? 0)%nat; [|done]. injection He as <- <-. aside.
  - unfold remote_with. destruct (tv_remotes st !! r); aside.
  - unfold public_session, remote_with in He1. destruct (tv_remotes st !! r); [|injection He1 as <- <-; aside].
    destruct (getSession _ _); injection He1 as <- <-; aside.
  - aside.
  - unfold send_open, remote_with in He1. destruct (tv_remotes st !! r); [destruct (an_ok a)|]; injection He1 as <- <-; aside.
  - unfold public_wait in He. destruct (an_pub a).
    + destruct (pc_buffer <$> _) as [[v|]|]; try done. destruct v; injection He as <- <-; aside.
    + injection He as <- <-. aside.
    + destruct (tv_done st || _); [|done]. injection He as <- <-. aside.
  - unfold public_pipe in He1. destruct (an_ended a); injection He1 as <- <-; aside.
  - aside.
  - unfold data_auth in He1. destruct (authenticate _ _ _); [|injection He1 as <- <-; aside].
    destruct (_ || _); injection He1 as <- <-; aside.
  - unfold data_lookup in He1. destruct (tv_pending st !! key); injection He1 as <- <-; aside.
  - unfold data_offer, offer. destruct (pc_buffer <$> _) as [[?|]|]; aside.
  - unfold reload_read. destruct (normalizeServerConfig next); aside.
  - aside.
  - split; [|done]. unfold disconnectInvalidSessions. apply Forall_bind, Forall_forall. intros s _.
    simpl. unfold session_with. destruct (tv_sessions st' !! s); [|by repeat constructor].
    destruct (session_allowed _ _); by repeat constructor.
  - split; [|done]. unfold stopAll. apply Forall_app. split; [by apply Forall_fmap, Forall_true|]. apply Forall_app.
    split; [by apply Forall_fmap, Forall_true|apply calm_stop_keys].
Qed.

Lemma wrap64_of_nat_S n : add64 (wrap64 (Z.of_nat n)) 1 = wrap64 (Z.of_nat (S n)).
Proof. unfold add64. rewrite wrap64_add_l. f_equal. lia. Qed.
Lemma wrap64_of_nat_pred n : add64 (wrap64 (Z.of_nat (S n))) (-1) = wrap64 (Z.of_nat n).
Proof. unfold add64. rewrite wrap64_add_l. f_equal. lia. Qed.

(** The listener [r] of a step, and the others. *)
Lemma remotes_alter f r st k y :
  alter f r (tv_remotes st) !! k = Some y →
  (k = r ∧ ∃ x, tv_remotes st !! r = Some x ∧ y = f x) ∨ (k ≠ r ∧ tv_remotes st !! k = Some y).
Proof.
  destruct (decide (k = r)) as [->|Hne].
  - rewrite list_lookup_alter_eq. intros (x & -> & ->)%fmap_Some. left. split; [done|]. by exists x.
  - rewrite list_lookup_alter_ne by done. by right.
Qed.

Ltac count := repeat rewrite count_cons; simpl; rewrite ?bool_decide_eq_true_2 by done; rewrite ?bool_decide_eq_false_2 by done; simpl.

Lemma counted_start st r p l a :
  counted st (HandlePublic r p :: l) →
  counted (remote_with st r st (λ x, with_collector (IncConns a (sp_TunnelID (rl_spec x))) (alter_remote (add_active 1) r st)))
    ([PubSession r p; PubDone r] ++ l).
Proof.
  intros [Ha Hi Hk]. assert (r < length (tv_remotes st))%nat as Hr by (by eapply Hk; [left|]).
  apply lookup_lt_is_Some in Hr as [x Hx]. unfold remote_with. rewrite Hx. split; simpl.
  - intros k y [[-> (x' & Hx' & ->)]|[Hne Hy]]%remotes_alter.
    + count. simpl. rewrite (Ha r x' Hx'). count. apply wrap64_of_nat_S.
    + rewrite (Ha k y Hy). by count.
  - intros k y [[-> (x' & Hx' & ->)]|[Hne Hy]]%remotes_alter.
    + simpl. rewrite (Hi r x' Hx'). count. lia.
    + rewrite (Hi k y Hy). by count.
  - rewrite length_alter. intros i k [->|[->|Hin]%elem_of_cons]%elem_of_cons Hh; [done|by eapply (Hk (HandlePublic r p)); [left|]|].
    eapply Hk; [|exact Hh]. by right.
Qed.

Lemma counted_done st r l a :
  counted st (PubDone r :: l) →
  counted (remote_with st r st (λ x, with_collector (DecConns a (sp_TunnelID (rl_spec x)))
             (alter_remote (set_inflight pred) r (alter_remote (add_active (-1)) r st)))) l.
Proof.
  intros [Ha Hi Hk]. assert (r < length (tv_remotes st))%nat as Hr by (by eapply Hk; [left|]).
  apply lookup_lt_is_Some in Hr as [x Hx]. unfold remote_with. rewrite Hx.
  assert (∀ k y, alter (set_inflight pred) r (alter (add_active (-1)) r (tv_remotes st)) !! k = Some y →
    (k = r ∧ y = set_inflight pred (add_active (-1) x)) ∨ (k ≠ r ∧ tv_remotes st !! k = Some y)) as Hlook.
  { intros k y. destruct (decide (k = r)) as [->|Hne].
    - rewrite !list_lookup_alter_eq, Hx. intros [= <-]. by left.
    - rewrite !list_lookup_alter_ne by done. by right. }
  split; simpl.
  - intros k y [[-> ->]|[Hne Hy]]%Hlook.
    + simpl. rewrite (Ha r x Hx). count. apply wrap64_of_nat_pred.
    + rewrite (Ha k y Hy). by count.
  - intros k y [[-> ->]|[Hne Hy]]%Hlook.
    + simpl. rewrite (Hi r x Hx). count. lia.
    + rewrite (Hi k y Hy). by count.
  - rewrite !length_alter. intros i k Hin Hh. eapply Hk; [|exact Hh]. by right.
Qed.

Lemma counted_preserved : preserved counted.
Proof.
  split.
  - intros st l l' Hp [Ha Hi Hk]. split; intros *; rewrite <-?(count_perm _ l l') by done; auto. rewrite <-Hp. apply Hk.
  - intros st l msg H. apply (counted_frame st (new_conn st) [] [_] l H); done || by repeat constructor.
  - intros st l next H. apply (counted_frame st st [] [_] l H); done || by repeat constructor.
  - intros st l d H. apply (counted_frame st (with_done d st) [] [_] l H); done || by repeat constructor.
  - intros st l H. apply (counted_frame st _ [] [] l H); done || by repeat constructor.
  - intros st l r x Hx _ [Ha Hi Hk]. split; simpl.
    + intros k y [[-> (x' & Hx' & ->)]|[Hne Hy]]%(remotes_alter _ _ (new_conn st)); count; [by apply Ha|by apply Ha].
    + intros k y [[-> (x' & Hx' & ->)]|[Hne Hy]]%(remotes_alter _ _ (new_conn st)); count; [|by apply Hi].
      by rewrite (Hi r x' Hx').
    + rewrite length_alter. intros i k [->|Hin]%elem_of_cons Hh; [injection Hh as <-; by apply lookup_lt_Some in Hx|]. by eapply Hk.
  - intros i a st l new st' H He. destruct (aside i) eqn:Has.
    + destruct (aside_exec i a st new st' Has He) as [? ?]. apply (counted_frame st st' [i] new l); try done.
      constructor; [|constructor]. by destruct i.
    + destruct i; try discriminate Has; cbn [exec] in He.
      * unfold listen_remote in He. destruct (an_ok a).
        -- destruct (address_free _ _); [|done]. injection He as <- <-. destruct H as [Ha Hi Hk].
           assert (∀ f, f (Listen s spec rest started) = false → f (AddRemote (length (tv_remotes st)) s rest started) = false →
             count_of f (AddRemote (length (tv_remotes st)) s rest started :: l) = count_of f (Listen s spec rest started :: l)) as Heq.
           { intros f H1 H2. by rewrite !count_cons, H1, H2. }
           assert (∀ f, (∀ i, f i = true → handler_of i = Some (length (tv_remotes st))) → count_of f l = 0%nat) as Hfresh.
           { intros f Hf. apply count_zero, Forall_forall. intros i Hin. destruct (f i) eqn:E; [|done].
             pose proof (Hk i _ ltac:(by right) (Hf i E)). lia. }
           split; simpl.
           ++ intros r y [Hy|[Hle Hy]]%lookup_app_Some; [rewrite (Ha r y Hy); f_equal; f_equal; by rewrite !count_cons|].
              apply list_lookup_singleton_Some in Hy as [Hr <-]. count. rewrite Hfresh; [done|].
              intros i Hi'. destruct i; try done. apply bool_decide_eq_true in Hi' as ->. simpl. f_equal. lia.
           ++ intros r y [Hy|[Hle Hy]]%lookup_app_Some; [rewrite (Hi r y Hy); by rewrite !count_cons|].
              apply list_lookup_singleton_Some in Hy as [Hr <-]. count. rewrite !Hfresh; [done| |];
                intros i Hi'; destruct i; try done; apply bool_decide_eq_true in Hi' as ->; simpl; f_equal; lia.
           ++ rewrite length_app. simpl. intros i r [->|Hin]%elem_of_cons Hh; [done|].
              pose proof (Hk i r ltac:(by right) Hh). lia.
        -- injection He as <- <-. apply (counted_frame st st [_] _ l H); [by repeat constructor| |done].
           apply Forall_app. split; [apply calm_stop_keys|by repeat constructor].
      * injection He as <- <-. by apply counted_start.
      * injection He as <- <-. by apply counted_done.
Qed.

Lemma counted_reachable cfg s : reachable cfg s → counted (sv_server s) (instrs_of s).
Proof.
  apply (reachable_preserved counted); [apply counted_preserved|]. split; [done|done|]. by intros i r ?%elem_of_nil.
Qed.

(** the handlers of a remote listener are counted exactly. In every
    interleaving its count of active connections is the number of handlers that
    run, its wait group covers these and the ones accepted but not started, and
    stopping it goes on exactly when no handler is left. *)
Theorem handlers_counted cfg s r x a :
  reachable cfg s → tv_remotes (sv_server s) !! r = Some x →
  rl_active x = wrap64 (Z.of_nat (count_of (running_handler r) (instrs_of s))) ∧
  rl_inflight x = (count_of (starting r) (instrs_of s) + count_of (running_handler r) (instrs_of s))%nat ∧
  (is_Some (exec (WaitRemote r) a (sv_server s)) ↔ ∀ i, i ∈ instrs_of s → handler_of i ≠ Some r).
Proof.
  intros Hreach Hx. destruct (counted_reachable cfg s Hreach) as [Ha Hi _]. split_and!; [by apply Ha|by apply Hi|].
  cbn [exec]. unfold remote_with. rewrite Hx. rewrite (Hi r x Hx).
  destruct (Nat.eqb_spec (count_of (starting r) (instrs_of s) + count_of (running_handler r) (instrs_of s)) 0) as [E|E].
  - split; [|by intros _; eexists]. intros _ i Hin Hh.
    destruct i; try done; injection Hh as ->.
    + assert (count_of (starting r) (instrs_of s) = 0%nat) as Hz by lia. apply count_zero_iff with (x := HandlePublic r p) in Hz; [|done].
      simpl in Hz. by rewrite bool_decide_eq_true_2 in Hz.
    + assert (count_of (running_handler r) (instrs_of s) = 0%nat) as Hz by lia. apply count_zero_iff with (x := PubDone r) in Hz; [|done].
      simpl in Hz. by rewrite bool_decide_eq_true_2 in Hz.
  - split; [by intros [??]|]. intros Hnone. exfalso. apply E.
    rewrite (proj2 (count_zero_iff (starting r) _)), (proj2 (count_zero_iff (running_handler r) _)); [done| |];
      intros i Hin%Hnone; destruct i; try done; simpl; apply bool_decide_eq_false; intros ->; by apply Hin.
Qed.

(** ** Where a data connection goes *)

(** The connections a goroutine is about to hand over or is using. *)
Definition holders (l : list Instr) : list nat :=
  omap (λ i, match i with
             | Dispatch c _ | DataAuth c _ | DataLookup c _ | DataOffer c _ => Some c
             | PubPipe _ _ d => Some d
             | _ => None
             end) l.
Definition buffered (p : PendingChan) : option nat := match pc_buffer p with Some (Some d) => Some d | _ => None end.
Definition buffers (st : TunnelServer) : list nat := omap buffered (tv_chans st).

(** The public connections that have not asked yet, and those that did. *)
Definition askers (l : list Instr) : list nat :=
  omap (λ i, match i with HandlePublic _ p | PubSession _ p | SendOpen _ p _ _ _ => Some p | _ => None end) l.
Definition asked (st : TunnelServer) : list nat := op_public <$> tv_opens st.

(** The key a data connection has authenticated for. *)
Definition auth_key (st : TunnelServer) (c : nat) : option string :=
  (λ a : string * string * string, pendingKey a.1.1 a.1.2 a.2) <$> (tv_conns st !! c ≫= cn_auth).

(** Listener [r] serves a tunnel of a client; an "open" message that was sent for
    the public connection [p] of listener [r]. *)
Definition serves (st : TunnelServer) (r : nat) (clientID tunnelID : string) : Prop :=
  ∃ x, tv_remotes st !! r = Some x ∧ rl_clientID x = clientID ∧ sp_TunnelID (rl_spec x) = tunnelID.
Definition requested (st : TunnelServer) (r p : nat) (o : OpenRequest) : Prop :=
  o ∈ tv_opens st ∧ op_public o = p ∧ serves st r (op_clientID o) (op_tunnelID o).
Definition open_key (o : OpenRequest) : string := pendingKey (op_clientID o) (op_tunnelID o) (op_connID o).
Definition chan_key (st : TunnelServer) (ch : nat) (key : string) : Prop :=
  ∃ p, tv_chans st !! ch = Some p ∧ pc_key p = key.

Definition key_ok (st : TunnelServer) (i : Instr) : Prop :=
  match i with
  | AddPending key ch => chan_key st ch key
  | SendOpen r _ ch _ id => ∃ c t, serves st r c t ∧ chan_key st ch (pendingKey c t id)
  | PubWait r p ch => ∃ o, requested st r p o ∧ chan_key st ch (open_key o)
  | PubPipe r p d => ∃ o, requested st r p o ∧ auth_key st d = Some (open_key o)
  | DataLookup c key => auth_key st c = Some key
  | DataOffer c ch => ∃ key, auth_key st c = Some key ∧ chan_key st ch key
  | _ => True
  end.
Definition unknown (st : TunnelServer) (i : Instr) : Prop :=
  match i with Dispatch c _ | DataAuth c _ => auth_key st c = None | _ => True end.

Record handed (st : TunnelServer) (l : list Instr) : Prop := {
  hd_nodup : NoDup (holders l ++ buffers st);
  hd_known : ∀ c, c ∈ holders l ++ buffers st → (c < length (tv_conns st))%nat;
  hd_pending : ∀ key ch, tv_pending st !! key = Some ch → chan_key st ch key;
  hd_buffer : ∀ ch p d, tv_chans st !! ch = Some p → buffered p = Some d → auth_key st d = Some (pc_key p);
  hd_keys : ∀ i, i ∈ l → key_ok st i;
  hd_unknown : ∀ i, i ∈ l → unknown st i;
  hd_once : NoDup (askers l ++ asked st);
  hd_public : ∀ p, p ∈ askers l ++ asked st → (p < length (tv_conns st))%nat;
}.

(** A step that may move connections between goroutines and channels, and
    authenticates only those its own goroutine holds. *)
Record moves (st st' : TunnelServer) (gone new : list Instr) : Prop := {
  mv_held : holders new ++ buffers st' ⊆+ holders gone ++ buffers st;
  mv_length : (length (tv_conns st) ≤ length (tv_conns st'))%nat;
  mv_chans : ∀ ch key, chan_key st ch key → chan_key st' ch key;
  mv_remotes : ∀ r c t, serves st r c t → serves st' r c t;
  mv_opens : ∀ o, o ∈ tv_opens st → o ∈ tv_opens st';
  mv_auth : ∀ c, (c < length (tv_conns st))%nat → auth_key st' c = auth_key st c ∨ (c ∈ holders gone ∧ auth_key st c = None);
  mv_pending : ∀ key ch, tv_pending st' !! key = Some ch → tv_pending st !! key = Some ch ∨ chan_key st' ch key;
  mv_buffer : ∀ ch p d, tv_chans st' !! ch = Some p → buffered p = Some d →
    (∃ q, tv_chans st !! ch = Some q ∧ buffered q = Some d ∧ pc_key q = pc_key p) ∨ auth_key st' d = Some (pc_key p);
  mv_keys : Forall (key_ok st') new;
  mv_unknown : Forall (unknown st') new;
  mv_asked : askers new ++ asked st' ⊆+ askers gone ++ asked st;
}.

Lemma holders_app l1 l2 : holders (l1 ++ l2) = holders l1 ++ holders l2.
Proof. apply omap_app. Qed.

Lemma askers_app l1 l2 : askers (l1 ++ l2) = askers l1 ++ askers l2.
Proof. apply omap_app. Qed.

Lemma auth_known st c key : auth_key st c = Some key → (c < length (tv_conns st))%nat.
Proof. unfold auth_key. destruct (tv_conns st !! c) eqn:E; [|done]. intros _. by apply lookup_lt_Some in E. Qed.

Lemma handed_moves st st' gone new l : handed st (gone ++ l) → moves st st' gone new → handed st' (new ++ l).
Proof.
  intros [Hnd Hkn Hpe Hbu Hke Hun Hon Hpu] [Mheld Mlen Mch Mre Mop Mau Mpe Mbu Mke Mun Mas].
  assert (∀ c key, auth_key st c = Some key → auth_key st' c = Some key) as Hauth.
  { intros c key Hc. destruct (Mau c (auth_known _ _ _ Hc)) as [->|[_ Hn]]; [done|by rewrite Hn in Hc]. }
  assert (∀ m n m' n' k : list nat, m' ++ n' ⊆+ m ++ n → (m' ++ k) ++ n' ⊆+ (m ++ k) ++ n) as Hmid.
  { intros m n m' n' k Hs. trans (k ++ (m' ++ n')); [apply Permutation_submseteq; solve_Permutation|].
    trans (k ++ (m ++ n)); [by apply submseteq_app|apply Permutation_submseteq; solve_Permutation]. }
  assert (holders (new ++ l) ++ buffers st' ⊆+ holders (gone ++ l) ++ buffers st) as Hsub by (rewrite !holders_app; by apply Hmid).
  assert (askers (new ++ l) ++ asked st' ⊆+ askers (gone ++ l) ++ asked st) as Hask by (rewrite !askers_app; by apply Hmid).
  assert (∀ m n : list nat, m ⊆+ n → NoDup n → NoDup m) as Hnodup.
  { intros m n [k Hk]%submseteq_Permutation Hn. rewrite Hk in Hn. by apply NoDup_app in Hn as [? _]. }
  split.
  - by eapply Hnodup.
  - intros c Hc. eapply elem_of_submseteq in Hc; [|exact Hsub]. apply Hkn in Hc. lia.
  - intros key ch Hp. destruct (Mpe key ch Hp) as [?|?]; [by apply Mch, Hpe|done].
  - intros ch p d Hp Hb. destruct (Mbu ch p d Hp Hb) as [(q & Hq & Hqb & <-)|?]; [|done]. apply Hauth. by eapply Hbu.
  - intros i [Hi|Hi]%elem_of_app; [by eapply Forall_forall in Mke|].
    assert (key_ok st i) as Hk by (apply Hke, elem_of_app; by right). destruct i; simpl in *; try done.
    + by apply Mch.
    + destruct Hk as (c & t & ? & ?). exists c, t. auto.
    + destruct Hk as (o & (? & ? & ?) & ?). exists o. unfold requested. auto.
    + destruct Hk as (o & (? & ? & ?) & ?). exists o. unfold requested. auto.
    + by apply Hauth.
    + destruct Hk as (key & ? & ?). exists key. auto.
  - intros i [Hi|Hi]%elem_of_app; [by eapply Forall_forall in Mun|].
    assert (unknown st i) as Hu by (apply Hun, elem_of_app; by right).
    rewrite holders_app, <-app_assoc in Hnd. apply NoDup_app in Hnd as (_ & Hdis & _).
    assert (∀ c, c ∈ holders l → auth_key st c = None → auth_key st' c = None) as Hnone.
    { intros c Hc Hn. destruct (Mau c) as [->|[Hg _]]; [|done|].
      - apply Hkn. rewrite holders_app. set_solver.
      - destruct (Hdis c Hg). set_solver. }
    destruct i; simpl in *; try done; apply Hnone; try done; apply list_elem_of_omap; by eexists.
  - by eapply Hnodup.
  - intros p Hp. eapply elem_of_submseteq in Hp; [|exact Hask]. apply Hpu in Hp. lia.
Qed.

(** A step that moves no connection. *)
Definition still (l : list Instr) : Prop := Forall (λ i, holders [i] = [] ∧ askers [i] = [] ∧ ∀ st, key_ok st i) l.
Lemma still_holders l : still l → holders l = [].
Proof. induction 1 as [|i l [Hi _] _ IH]; [done|]. change (holders ([i] ++ l) = []). by rewrite holders_app, Hi, IH. Qed.
Lemma still_askers l : still l → askers l = [].
Proof. induction 1 as [|i l (_ & Hi & _) _ IH]; [done|]. change (askers ([i] ++ l) = []). by rewrite askers_app, Hi, IH. Qed.
Lemma still_keys st l : still l → Forall (key_ok st) l.
Proof. intros H. eapply Forall_impl; [exact H|]. by intros i (_ & _ & ?). Qed.
Lemma still_unknown st l : still l → Forall (unknown st) l.
Proof. intros H. eapply Forall_impl; [exact H|]. by intros [] [? _]. Qed.

Lemma serves_skeleton st st' : same_remotes st st' → ∀ r c t, serves st r c t → serves st' r c t.
Proof.
  intros Hs r c t (x & Hx & <- & <-). destruct (same_remotes_lookup st' st r x (same_remotes_sym _ _ Hs) Hx) as (x' & ? & Hc & Hsp & _).
  exists x'. by rewrite Hc, Hsp.
Qed.

(** The connections: closed ones keep what they authenticated for. *)
Definition same_auth (st st' : TunnelServer) : Prop := cn_auth <$> tv_conns st' = cn_auth <$> tv_conns st.
Lemma auth_same st st' c : same_auth st st' → auth_key st' c = auth_key st c.
Proof.
  intros Hs. unfold auth_key. assert ((cn_auth <$> tv_conns st') !! c = (cn_auth <$> tv_conns st) !! c) as H by (by rewrite Hs).
  rewrite !list_lookup_fmap in H. destruct (tv_conns st !! c), (tv_conns st' !! c); simpl in *; try done. injection H as ->. done.
Qed.
Lemma close_same_auth c st0 st : tv_conns st = tv_conns st0 → same_auth st0 (close_conn c st).
Proof.
  intros Heq. unfold same_auth, close_conn. simpl. rewrite <-Heq. apply list_eq. intros k. rewrite !list_lookup_fmap. destruct (decide (k = c)) as [->|?].
  - rewrite list_lookup_alter_eq. by destruct (tv_conns st !! c).
  - by rewrite list_lookup_alter_ne.
Qed.
Lemma same_auth_length st st' : same_auth st st' → length (tv_conns st') = length (tv_conns st).
Proof. intros H. by rewrite <-(length_fmap cn_auth), H, length_fmap. Qed.

Lemma moves_still st st' i new :
  still new → tv_chans st' = tv_chans st → (∀ key ch, tv_pending st' !! key = Some ch → tv_pending st !! key = Some ch) →
  (∀ r c t, serves st r c t → serves st' r c t) → tv_opens st' = tv_opens st → same_auth st st' → moves st st' [i] new.
Proof.
  intros Hnew Hch Hpe Hre Hop Hau. split.
  - rewrite still_holders by done. unfold buffers. rewrite Hch. simpl. apply submseteq_inserts_l. done.
  - by rewrite (same_auth_length st st').
  - intros ch key. unfold chan_key. by rewrite Hch.
  - done.
  - by rewrite Hop.
  - intros c _. left. by apply auth_same.
  - intros key ch ?. left. by apply Hpe.
  - intros ch p d. rewrite Hch. intros ? ?. left. by exists p.
  - by apply still_keys.
  - by apply still_unknown.
  - rewrite still_askers by done. unfold asked. rewrite Hop. simpl. by apply submseteq_inserts_l.
Qed.

Lemma still_stop_keys keys : still (stop_keys keys).
Proof. induction keys as [|k keys IH]; [constructor|]. by repeat constructor. Qed.

(** The instructions that leave connections and channels alone. *)
Definition bystander (i : Instr) : bool :=
  match i with
  | Dispatch _ _ | OfferNil _ | HandlePublic _ _ | PubSession _ _ | AddPending _ _ | SendOpen _ _ _ _ _ | PubWait _ _ _ | PubPipe _ _ _
  | DataAuth _ _ | DataLookup _ _ | DataOffer _ _ => false
  | _ => true
  end.

Ltac bystand := apply moves_still; [by repeat constructor|done|done|first [done|by apply serves_skeleton]|done|first [done|by apply close_same_auth]].

Lemma bystander_exec i a st new st' :
  bystander i = true → exec i a st = Some (new, st') → moves st st' [i] new.
Proof.
  intros Hi He. destruct i; try discriminate Hi; cbn [exec] in He; try (injection He as He1; subst).
  - unfold handleHello in He1. destruct (check_hello _ _); injection He1 as <- <-; bystand.
  - unfold register_previous, session_with. destruct (tv_sessions st' !! s); [|bystand]. destruct (getSession _ _); bystand.
  - apply moves_still; try done. unfold register_specs. destruct rest; [by repeat constructor|].
    destruct (key_in_use _ _); [|by repeat constructor]. apply Forall_app. split; [apply still_stop_keys|by repeat constructor].
  - unfold listen_remote in He. destruct (an_ok a); [destruct (address_free _ _); [|done]|]; injection He as <- <-.
    + apply moves_still; try done; [by repeat constructor|]. intros r c t (x & Hx & ?). exists x. simpl.
      split; [by apply lookup_app_l_Some|done].
    + apply moves_still; try done. apply Forall_app. split; [apply still_stop_keys|by repeat constructor].
  - unfold add_remote, remote_with in He1. destruct (tv_remotes st !! r); [|injection He1 as <- <-; bystand].
    injection He1 as <- <-. destruct (is_udp _); bystand.
  - unfold publish_session, session_with in He1. destruct (tv_sessions st !! s); injection He1 as <- <-; bystand.
  - bystand.
  - unfold session_with. destruct (tv_sessions st !! s); bystand.
  - unfold controlReadLoop. destruct (an_control a); try bystand. unfold session_with. destruct (tv_sessions _ !! s); bystand.
  - unfold cancelPending. destruct (tv_pending _ !! key); bystand.
  - unfold unregisterSession in He1. destruct (bool_decide _); injection He1 as <- <-; [|bystand].
    apply moves_still; try done. apply still_stop_keys.
  - bystand.
  - unfold stopRemoteListener in He1. destruct (tv_listeners st !! key); injection He1 as <- <-; bystand.
  - unfold stopUDPRemoteListener in He1. destruct (tv_udpListeners st !! key); injection He1 as <- <-; bystand.
  - apply moves_still; try done; [by repeat constructor|]. intros k c t (x & Hx & ?). simpl.
    destruct (decide (k = r)) as [->|?].
    + exists (shut_remote x). simpl. by rewrite list_lookup_alter_eq, Hx.
    + exists x. simpl. by rewrite list_lookup_alter_ne.
  - destruct (_ =? 0)%nat; [|done]. injection He as <- <-. bystand.
  - unfold remote_with. destruct (tv_remotes st !! r); bystand.
  - apply moves_still; try done; [by repeat constructor|]. intros k ch Hk. simpl in Hk. by apply lookup_delete_Some in Hk as [_ ?].
  - unfold remote_with. destruct (tv_remotes st !! r); [|bystand]. apply moves_still; try done; [by repeat constructor|].
    apply serves_skeleton. etransitivity; [|by apply (same_remotes_alter (add_active (-1)) r st)].
    by apply (same_remotes_alter (set_inflight pred) r (alter_remote (add_active (-1)) r st)).
  - apply moves_still; try done. unfold reload_read. destruct (normalizeServerConfig next); by repeat constructor.
  - bystand.
  - apply moves_still; try done. unfold disconnectInvalidSessions. apply Forall_bind, Forall_forall. intros s _. simpl.
    unfold session_with. destruct (tv_sessions st' !! s); [|by repeat constructor]. destruct (session_allowed _ _); by repeat constructor.
  - apply moves_still; try done. unfold stopAll. apply Forall_app. split; [by apply Forall_fmap, Forall_true|].
    apply Forall_app. split; [by apply Forall_fmap, Forall_true|apply still_stop_keys].
Qed.

(** A channel's buffer changes. *)
Lemma buffers_set ch v st p :
  tv_chans st !! ch = Some p →
  buffers st ≡ₚ option_list (buffered p) ++ omap buffered (delete ch (tv_chans st)) ∧
  buffers (set_buffer ch v st) ≡ₚ option_list (v ≫= id) ++ omap buffered (delete ch (tv_chans st)).
Proof.
  intros Hp. unfold buffers, set_buffer. simpl. pose proof (take_drop_middle _ _ _ Hp) as Heq.
  assert (length (take ch (tv_chans st)) = ch) as Hlen by (apply length_take_le; apply lookup_lt_Some in Hp; lia).
  rewrite delete_take_drop, omap_app. split.
  - rewrite <-Heq at 1. rewrite omap_app. simpl. destruct (buffered p); simpl; solve_Permutation.
  - rewrite <-Heq at 1. rewrite alter_app_r_alt, Hlen, Nat.sub_diag by lia. rewrite omap_app. simpl.
    destruct v as [[d|]|]; simpl; solve_Permutation.
Qed.

Lemma set_buffer_chan st ch v k key : chan_key st k key → chan_key (set_buffer ch v st) k key.
Proof.
  intros (p & Hp & <-). unfold chan_key, set_buffer. simpl. destruct (decide (k = ch)) as [->|?].
  - rewrite list_lookup_alter_eq, Hp. by eexists.
  - rewrite list_lookup_alter_ne by done. by exists p.
Qed.

Lemma set_buffer_lookup st ch v k q d :
  tv_chans (set_buffer ch v st) !! k = Some q → buffered q = Some d →
  (k = ch ∧ v = Some (Some d) ∧ ∃ p, tv_chans st !! ch = Some p ∧ pc_key q = pc_key p) ∨ tv_chans st !! k = Some q.
Proof.
  unfold set_buffer. simpl. destruct (decide (k = ch)) as [->|?].
  - rewrite list_lookup_alter_eq. intros (p & Hp & ->)%fmap_Some Hb. left. split; [done|].
    unfold buffered in Hb. simpl in Hb. split; [destruct v as [[]|]; simplify_eq; done|]. by exists p.
  - rewrite list_lookup_alter_ne by done. by right.
Qed.

(** The channels stay as they are. *)
Lemma moves_keep st st' i new :
  holders new ⊆+ holders [i] → tv_chans st' = tv_chans st → tv_pending st' = tv_pending st → same_remotes st st' →
  tv_opens st ⊆ tv_opens st' → same_auth st st' → Forall (key_ok st') new → Forall (unknown st') new →
  askers new ++ asked st' ⊆+ askers [i] ++ asked st → moves st st' [i] new.
Proof.
  intros Hh Hch Hpe Hre Hop Hau Hk Hu Has. split; try done.
  - unfold buffers. rewrite Hch. by apply submseteq_skips_r.
  - by rewrite (same_auth_length st st').
  - intros ch key. unfold chan_key. by rewrite Hch.
  - by apply serves_skeleton.
  - intros c _. left. by apply auth_same.
  - intros key ch. rewrite Hpe. by left.
  - intros ch p d. rewrite Hch. left. by exists p.
Qed.

Lemma moves_buffer st ch v p i new :
  tv_chans st !! ch = Some p → holders new ++ option_list (v ≫= id) ⊆+ holders [i] ++ option_list (buffered p) →
  (∀ d, v = Some (Some d) → auth_key st d = Some (pc_key p)) →
  Forall (key_ok (set_buffer ch v st)) new → Forall (unknown (set_buffer ch v st)) new → askers new = [] →
  moves st (set_buffer ch v st) [i] new.
Proof.
  intros Hp Hh Hv Hk Hu Has. destruct (buffers_set ch v st p Hp) as [Hb Hb']. split; try done.
  - rewrite Hb, Hb', !(assoc_L (++)). by apply submseteq_skips_r.
  - intros k key. by apply set_buffer_chan.
  - by left.
  - by left.
  - intros k q d Hq Hd. destruct (set_buffer_lookup st ch v k q d Hq Hd) as [(-> & -> & p' & Hp' & Hpk)|Hk'].
    + right. rewrite Hp in Hp'. injection Hp' as <-. rewrite Hpk. by apply Hv.
    + left. by exists q.
  - rewrite Has. by apply submseteq_inserts_l.
Qed.

Ltac keep := apply moves_keep; [|done|done|done|done|first [done|by apply close_same_auth]|repeat constructor|repeat constructor|by apply submseteq_inserts_l];
  try done; try (by apply submseteq_nil_l).

Lemma mover_exec i a st new st' l :
  bystander i = false → handed st (i :: l) → exec i a st = Some (new, st') → moves st st' [i] new.
Proof.
  intros Hi H He. assert (key_ok st i) as Hkey by (apply (hd_keys _ _ H); by left).
  assert (unknown st i) as Hun by (apply (hd_unknown _ _ H); by left).
  destruct i; try discriminate Hi; cbn [exec] in He; try (injection He as He1; subst).
  - unfold handleTunnelConn in He1. destruct (bool_decide _); [injection He1 as <- <-; keep|].
    destruct (bool_decide _); injection He1 as <- <-; keep.
  - unfold offer. destruct (tv_chans st !! ch) as [p|] eqn:Hp; simpl; [|keep]. destruct (pc_buffer p) as [b|] eqn:Hb; simpl; [keep|].
    apply (moves_buffer st ch (Some None) p); try done; [|repeat constructor..]. unfold buffered. by rewrite Hb.
  - apply moves_keep; unfold remote_with; destruct (tv_remotes st !! r); try done; repeat constructor; try done.
    by apply (same_remotes_alter (add_active 1) r st).
  - unfold public_session, remote_with in He1. destruct (tv_remotes st !! r) as [x|] eqn:Hx; [|injection He1 as <- <-; keep].
    destruct (getSession _ _); injection He1 as <- <-; [|keep].
    assert (∀ k q, tv_chans st !! k = Some q → ∀ v, (tv_chans st ++ [v]) !! k = Some q) as Hold by (intros; by apply lookup_app_l_Some).
    split; simpl; try done.
    + unfold buffers. simpl. by rewrite omap_app, app_nil_r.
    + intros k key (q & Hq & ?). exists q. split; [by apply Hold|done].
    + by left.
    + by left.
    + intros k q d [Hq|[_ Hq]]%lookup_app_Some Hd; [left; by exists q|].
      apply list_lookup_singleton_Some in Hq as [_ <-]. done.
    + repeat constructor.
      * eexists. split; [simpl; by rewrite lookup_app_r, Nat.sub_diag|done].
      * exists (rl_clientID x), (sp_TunnelID (rl_spec x)). split; [by exists x|].
        eexists. split; [simpl; by rewrite lookup_app_r, Nat.sub_diag|done].
    + repeat constructor.
  - split; simpl; try done; [by left| |by left; eexists].
    intros k ch' [[<- <-]|[_ ?]]%lookup_insert_Some; [by right|by left].
  - destruct Hkey as (c & t & (x & Hx & <- & <-) & Hch). unfold send_open, remote_with in He1. rewrite Hx in He1.
    destruct (an_ok a); injection He1 as <- <-; [|keep].
    apply moves_keep; try done; [simpl; set_solver| |repeat constructor|].
    2:{ unfold asked. simpl. rewrite fmap_app. simpl. apply Permutation_submseteq. solve_Permutation. }
    repeat constructor.
    eexists. split; [split_and!; [simpl; apply elem_of_app; right; by left|done|by exists x]|exact Hch].
  - unfold public_wait in He. destruct (an_pub a).
    + destruct (tv_chans st !! ch) as [q|] eqn:Hq; [|done]. simpl in He. destruct (pc_buffer q) as [[d|]|] eqn:Hb; [| |done].
      * injection He as <- <-. destruct Hkey as (o & Hask & (q' & Hq' & Hk)). rewrite Hq in Hq'. injection Hq' as <-.
        apply (moves_buffer st ch None q); try done; [unfold buffered; by rewrite Hb| |repeat constructor].
        repeat constructor. exists o. split; [done|]. rewrite <-Hk. apply (hd_buffer _ _ H ch); [done|].
        unfold buffered. by rewrite Hb.
      * injection He as <- <-. assert (moves st (set_buffer ch None st) [PubWait r p ch] []) as [].
        { apply (moves_buffer st ch None q); try done; [|repeat constructor..]. by apply submseteq_nil_l. }
        pose proof (close_same_auth p (set_buffer ch None st) (set_buffer ch None st) eq_refl) as Hs.
        split; try done; [by rewrite (same_auth_length _ _ Hs)| |].
        -- intros c Hc. left. by rewrite (auth_same _ _ c Hs).
        -- intros k q' d Hq' Hd. destruct (mv_buffer0 k q' d Hq' Hd) as [?|?]; [by left|right; by rewrite (auth_same _ _ d Hs)].
    + injection He as <- <-. keep.
    + destruct (tv_done st || _); [|done]. injection He as <- <-. keep.
  - unfold public_pipe in He1. destruct (an_ended a); injection He1 as <- <-; [|by keep].
    apply moves_keep; try done; [by apply submseteq_nil_l|].
    etransitivity; [by apply (close_same_auth d (close_conn p st))|]. by apply close_same_auth.
  - unfold data_auth in He1. destruct (authenticate _ _ _); [|injection He1 as <- <-; keep].
    destruct (_ || _); injection He1 as <- <-; [keep|].
    assert (c < length (tv_conns st))%nat as Hc.
    { apply (hd_known _ _ H). simpl. by left. }
    apply lookup_lt_is_Some in Hc as [n Hn].
    assert (∀ auth, auth_key (authenticated c auth st) c = Some (pendingKey auth.1.1 auth.1.2 auth.2)) as Hself.
    { intros auth. unfold auth_key, authenticated. simpl. by rewrite list_lookup_alter_eq, Hn. }
    split; simpl; try done.
    + by rewrite length_alter.
    + intros k Hk. destruct (decide (k = c)) as [->|Hne]; [right; split; [by left|done]|left].
      unfold auth_key, authenticated. simpl. by rewrite list_lookup_alter_ne.
    + by left.
    + intros k q d Hq Hd. left. by exists q.
    + repeat constructor. simpl. by rewrite Hself.
    + repeat constructor.
  - unfold data_lookup in He1. destruct (tv_pending st !! key) as [ch|] eqn:Hp; injection He1 as <- <-; keep.
    exists key. split; [done|]. by apply (hd_pending _ _ H).
  - unfold data_offer, offer. destruct Hkey as (key & Hk & (p & Hp & Hpk)). rewrite Hp. simpl.
    destruct (pc_buffer p) as [b|] eqn:Hb; simpl; [keep|].
    apply (moves_buffer st ch (Some (Some c)) p); try done; [|intros d [= <-]; by rewrite Hpk|repeat constructor..].
    unfold buffered. by rewrite Hb.
Qed.

(** A new connection that no goroutine of the server's side holds. *)
Lemma moves_spawn st st' new :
  still new → tv_chans st' = tv_chans st → tv_pending st' = tv_pending st →
  (∀ r c t, serves st r c t → serves st' r c t) → tv_opens st' = tv_opens st → (length (tv_conns st) ≤ length (tv_conns st'))%nat →
  (∀ c, (c < length (tv_conns st))%nat → auth_key st' c = auth_key st c) → moves st st' [] new.
Proof.
  intros Hnew Hch Hpe Hre Hop Hlen Hau. split; try done.
  - rewrite still_holders by done. unfold buffers. by rewrite Hch.
  - intros ch key. unfold chan_key. by rewrite Hch.
  - by rewrite Hop.
  - intros c Hc. left. by apply Hau.
  - intros key ch. rewrite Hpe. by left.
  - intros ch p d. rewrite Hch. left. by exists p.
  - by apply still_keys.
  - by apply still_unknown.
  - rewrite still_askers by done. unfold asked. by rewrite Hop.
Qed.

(** A public connection that has not asked for anything joins. *)
Lemma handed_public st l r p :
  handed st l → p ∉ askers l ++ asked st → (p < length (tv_conns st))%nat → handed st (HandlePublic r p :: l).
Proof.
  intros [Hnd Hkn Hpe Hbu Hke Hun Hon Hpu] Hp Hlt. split; try done.
  - intros i [->|Hi]%elem_of_cons; [done|by apply Hke].
  - intros i [->|Hi]%elem_of_cons; [done|by apply Hun].
  - simpl. by apply NoDup_cons.
  - simpl. intros q [->|Hq]%elem_of_cons; [done|by apply Hpu].
Qed.

Lemma new_conn_auth st c : (c < length (tv_conns st))%nat → auth_key (new_conn st) c = auth_key st c.
Proof. intros Hc. unfold auth_key, new_conn. simpl. by rewrite lookup_app_l. Qed.

Lemma handed_preserved : preserved handed.
Proof.
  split.
  - intros st l l' Hp [Hnd Hkn Hpe Hbu Hke Hun Hon Hpu]. assert (holders l ≡ₚ holders l') as Hh by (unfold holders; by rewrite Hp).
    assert (askers l ≡ₚ askers l') as Ha by (unfold askers; by rewrite Hp).
    split; try done; [by rewrite <-Hh|intros c; rewrite <-Hh; apply Hkn|intros i; rewrite <-Hp; apply Hke|intros i; rewrite <-Hp; apply Hun|by rewrite <-Ha|
      intros p; rewrite <-Ha; apply Hpu].
  - intros st l msg [Hnd Hkn Hpe Hbu Hke Hun Hon Hpu]. set (c := length (tv_conns st)).
    assert (∀ k, (k < c)%nat → auth_key (new_conn st) k = auth_key st k) as Hauth.
    { intros k Hk. unfold auth_key, new_conn. simpl. by rewrite lookup_app_l. }
    assert (∀ k key, auth_key st k = Some key → auth_key (new_conn st) k = Some key) as Hsome.
    { intros k key Hk. rewrite Hauth; [done|]. by eapply auth_known. }
    split; simpl; try done.
    + apply NoDup_cons. split; [|done]. intros Hc%Hkn. unfold c in Hc. lia.
    + rewrite length_app. simpl. intros k [->|Hk]%elem_of_cons; [unfold c; lia|]. apply Hkn in Hk. lia.
    + intros ch p d Hp Hd. apply Hsome. by eapply Hbu.
    + intros i [->|Hi]%elem_of_cons; [done|]. apply Hke in Hi. destruct i; simpl in *; try done.
      * destruct Hi as (o & ? & ?). exists o. auto.
      * by apply Hsome.
      * destruct Hi as (key & ? & ?). exists key. auto.
    + intros i [->|Hi]%elem_of_cons.
      { simpl. unfold auth_key, new_conn. simpl. unfold c. by rewrite lookup_app_r, Nat.sub_diag. }
      assert (∀ k, k ∈ holders l → auth_key st k = None → auth_key (new_conn st) k = None) as Hnone.
      { intros k Hk Hn. rewrite Hauth; [done|]. apply Hkn. apply elem_of_app. by left. }
      pose proof (Hun i Hi) as Hu. destruct i; simpl in *; try done; apply Hnone; try done; apply list_elem_of_omap; by eexists.
    + rewrite length_app. simpl. intros p Hp%Hpu. lia.
  - intros st l next H. apply (handed_moves st st [] [_] l H), moves_spawn; try done. by repeat constructor.
  - intros st l d H. apply (handed_moves st (with_done d st) [] [_] l H), moves_spawn; try done. by repeat constructor.
  - intros st l H. apply (handed_moves st _ [] [] l H), moves_spawn; try done; [by repeat constructor| |].
    + simpl. rewrite length_alter, length_app. lia.
    + intros c Hc. rewrite (auth_same (new_conn st)) by (by apply close_same_auth). by apply new_conn_auth.
  - intros st l r x _ _ H. apply (handed_public _ l r (length (tv_conns st))).
    + apply (handed_moves st _ [] [] l H), moves_spawn; try done; [by repeat constructor| | |].
      * apply (serves_skeleton (new_conn st)). by apply same_remotes_alter.
      * simpl. rewrite length_app. lia.
      * intros c Hc. by apply (new_conn_auth st c).
    + intros Hp%(hd_public _ _ H). lia.
    + simpl. rewrite length_app. simpl. lia.
  - intros i a st l new st' H He. apply (handed_moves st st' [i] new l); [done|].
    destruct (bystander i) eqn:Hb; [by apply (bystander_exec i a)|by apply (mover_exec i a st new st' l)].
Qed.

Lemma handed_reachable cfg s : reachable cfg s → handed (sv_server s) (instrs_of s).
Proof.
  apply (reachable_preserved handed); [apply handed_preserved|].
  split; simpl; try done; [apply NoDup_nil_2|by intros c ?%elem_of_nil|by intros i ?%elem_of_nil|by intros i ?%elem_of_nil|
    apply NoDup_nil_2|by intros p ?%elem_of_nil].
Qed.

(** Texts around a separator that the first ones do not contain. *)
Lemma sep_inj (c : ascii) (l1 l2 r1 r2 : list ascii) :
  c ∉ l1 → c ∉ l2 → l1 ++ c :: r1 = l2 ++ c :: r2 → l1 = l2 ∧ r1 = r2.
Proof.
  revert l2. induction l1 as [|a l1 IH]; intros [|b l2] H1 H2 Heq; simpl in Heq; simplify_eq; [done|set_solver..|].
  destruct (IH l2) as [-> ->]; [set_solver..|done|done].
Qed.
Definition no_colon (s : string) : Prop := ":"%char ∉ to_list (TrimSpace s).
Lemma pendingKey_inj c1 t1 i1 c2 t2 i2 : no_colon c1 → no_colon t1 → no_colon c2 → no_colon t2 →
  pendingKey c1 t1 i1 = pendingKey c2 t2 i2 →
  TrimSpace c1 = TrimSpace c2 ∧ TrimSpace t1 = TrimSpace t2 ∧ TrimSpace i1 = TrimSpace i2.
Proof.
  intros Hc1 Ht1 Hc2 Ht2 Heq%(f_equal to_list). unfold pendingKey in Heq. rewrite !to_list_app in Heq.
  change (to_list ":") with [":"%char] in Heq. simpl in Heq.
  apply sep_inj in Heq as [Hc Heq]; [|done..]. apply sep_inj in Heq as [Ht Hi]; [|done..].
  apply (f_equal of_list) in Hc, Ht, Hi. rewrite !of_to_list in *. done.
Qed.


(** ** The hello *)

Definition acceptable (allow : AllowConfig) (spec : TunnelSpec) : Prop :=
  validateTunnelSpec spec = Ok () ∧ aclAllows allow spec = Ok ().

Lemma check_tunnels_ok allow specs : ∀ index out,
  check_tunnels allow index specs = Ok out ↔
  out = normalizeTunnelSpec <$> specs ∧ Forall (acceptable allow) out.
Proof.
  induction specs as [|spec specs IH]; intros index out; simpl.
  - split; [intros [= <-]; done|by intros [-> _]].
  - unfold acceptable. destruct (validateTunnelSpec _) as [[]|e] eqn:Hv; [|split; [done|intros [-> [[H _] _]%Forall_cons]; congruence]].
    destruct (aclAllows _ _) as [[]|e] eqn:Ha; [|split; [done|intros [-> [[_ H] _]%Forall_cons]; congruence]].
    destruct (check_tunnels allow (S index) specs) as [rest|e] eqn:Hr; simpl.
    + apply IH in Hr as [-> Hall]. split; [by intros [= <-]; auto|by intros [-> _]].
    + split; [done|]. intros [-> [_ Hall]%Forall_cons].
      pose proof (proj2 (IH (S index) _) (conj eq_refl Hall)). congruence.
Qed.

Lemma check_tunnels_err allow specs : ∀ index k e,
  check_tunnels allow index specs = Err (TunnelRejected k e) →
  ∃ n spec, k = (index + n)%nat ∧ specs !! n = Some spec ∧
    Forall (acceptable allow) (normalizeTunnelSpec <$> take n specs) ∧
    let spec := normalizeTunnelSpec spec in
    validateTunnelSpec spec = Err e ∨ validateTunnelSpec spec = Ok () ∧ aclAllows allow spec = Err e.
Proof.
  induction specs as [|spec specs IH]; intros index k e; simpl; [done|].
  destruct (validateTunnelSpec _) as [[]|e'] eqn:Hv.
  - destruct (aclAllows _ _) as [[]|e'] eqn:Ha.
    + destruct (check_tunnels _ _ _) as [|e'] eqn:Hr; [done|]. intros [= ->].
      apply IH in Hr as (n & spec' & -> & ? & ? & ?). exists (S n), spec'. split_and!; try done; [lia|]. by constructor.
    + intros [= <- <-]. exists 0%nat, spec. split; [lia|]. split; [done|]. split; [constructor|]. by right.
  - intros [= <- <-]. exists 0%nat, spec. split; [lia|]. split; [done|]. split; [constructor|]. by left.
Qed.

Lemma acceptable_forallb allow specs :
  Forall (acceptable allow) specs ↔
  Forall (λ spec, validateTunnelSpec spec = Ok ()) specs ∧ forallb (λ spec, is_ok (aclAllows allow spec)) specs = true.
Proof.
  unfold acceptable. rewrite Forall_and.
  assert (Forall (λ spec, aclAllows allow spec = Ok ()) specs ↔ forallb (λ spec, is_ok (aclAllows allow spec)) specs = true) as ->; [|done].
  induction specs as [|spec specs IH]; simpl; [by split|]. rewrite Forall_cons, IH, andb_true_iff.
  destruct (aclAllows allow spec) as [[]|]; simpl; naive_solver.
Qed.

(** what a hello is answered with. It is accepted exactly when it offers at
    least one tunnel and the normalized tunnels are all valid and the client is
    admitted with them; and when a tunnel is refused, the answer names the first
    one at fault and its fault. *)
Theorem hello_exact cfg msg :
  (∀ tunnels, check_hello cfg msg = Ok tunnels ↔
     tunnels = normalizeTunnelSpec <$> msg_Tunnels msg ∧ tunnels ≠ [] ∧
     Forall (λ spec, validateTunnelSpec spec = Ok ()) tunnels ∧
     admits cfg (msg_ClientID msg) (msg_Token msg) tunnels = true) ∧
  (∀ n e, check_hello cfg msg = Err (TunnelRejected n e) →
     ∃ acl spec, authenticate cfg (msg_ClientID msg) (msg_Token msg) = Some acl ∧ msg_Tunnels msg !! n = Some spec ∧
       Forall (acceptable (acl_Allow acl)) (normalizeTunnelSpec <$> take n (msg_Tunnels msg)) ∧
       let spec := normalizeTunnelSpec spec in
       validateTunnelSpec spec = Err e ∨ validateTunnelSpec spec = Ok () ∧ aclAllows (acl_Allow acl) spec = Err e).
Proof.
  unfold check_hello, admits. destruct (authenticate _ _ _) as [acl|]; [|split; [|done]; by intros ?; split; [|intros (_ & _ & _ & ?)]].
  assert (∀ tunnels, tunnels = normalizeTunnelSpec <$> msg_Tunnels msg →
    too_many (acl_Allow acl) tunnels = too_many (acl_Allow acl) (msg_Tunnels msg)) as Hmany
    by (intros ? ->; unfold too_many; by rewrite length_fmap).
  unfold check. case_bool_decide as Hnil; simpl.
  { split; [|done]. intros ?; split; [done|]. rewrite Hnil. by intros (-> & ? & _). }
  destruct (too_many (acl_Allow acl) (msg_Tunnels msg)) eqn:Htm; simpl.
  { split; [|done]. intros ?; split; [done|]. intros (Ht & _ & _ & Ha). by rewrite (Hmany _ Ht) in Ha. }
  split.
  - intros tunnels. rewrite check_tunnels_ok, acceptable_forallb. split.
    + intros (Ht & Hv & Ha). split_and!; [done| |done|by rewrite (Hmany _ Ht)]. intros ->. by destruct (msg_Tunnels msg).
    + intros (Ht & _ & Hv & Ha). by rewrite (Hmany _ Ht) in Ha.
  - intros n e (k & spec & -> & ? & ? & ?)%check_tunnels_err. by exists acl, spec.
Qed.

(** ** Concrete runs *)

Lemma run_reachable cfg events s s' : reachable cfg s → server_run events s = Some s' → reachable cfg s'.
Proof.
  revert s. induction events as [|e events IH]; simpl; intros s Hs Hrun; [by injection Hrun as <-|].
  destruct (server_step e s) as [s1|] eqn:He; [|done]. apply (IH s1); [|done]. by eapply reach_step.
Qed.

Definition after (cfg : ServerConfig) (events : list ServerEvent) : ServerState :=
  default (new_server cfg) (server_run events (new_server cfg)).
Lemma after_reachable cfg events : reachable cfg (after cfg events).
Proof.
  unfold after. destruct (server_run events (new_server cfg)) as [s|] eqn:Hs; simpl; [|apply reach_start].
  eapply run_reachable; [apply reach_start|exact Hs].
Qed.

Definition usual : Answer := {|
  an_now := 0; an_ok := true; an_id := "id"; an_pub := Received; an_control := Ping; an_ended := false; an_up := 3; an_down := 5 |}.
Definition times_out : Answer := {|
  an_now := 0; an_ok := true; an_id := "id"; an_pub := TimedOut; an_control := ReadEnded; an_ended := true; an_up := 0; an_down := 0 |}.
(** Goroutine [k] runs its next [n] instructions. *)
Definition runs (k n : nat) : list ServerEvent := replicate n (Run k usual).
Definition first_message (kind client connID : string) (tunnels : list TunnelSpec) : Message := {|
  msg_Type := kind; msg_Version := 1; msg_ClientID := client; msg_Token := "secret"; msg_SessionID := ""; msg_TunnelID := "web";
  msg_ConnID := connID; msg_Tunnels := tunnels; msg_OK := false; msg_Error := ""; msg_Time := 0 |}.
Definition hello (client : string) (port : Z) : Message := first_message "hello" client "" [sample_tunnel "web" port].
Definition data (client : string) : Message := first_message "data" client "id" [].
Definition no_clients : ServerConfig := {|
  sv_Version := 1; sv_ControlListenAddr := ""; sv_Log := {| log_Level := ""; log_Format := "" |};
  sv_Auth := {| ac_Enabled := false; ac_Tokens := [] |};
  sv_TunnelServer := {| ts_Enabled := true; ts_ListenAddr := ""; ts_OpenTimeout := ""; ts_TLS := ts_TLS (sv_TunnelServer sample_server);
    ts_Clients := [sample_acl "office" []] |} |}.

(** A client registers, a public connection arrives, and the client answers. *)
Definition connected : list ServerEvent := Connect (hello "home" 9001) :: runs 0 9.
Definition joined : list ServerEvent :=
  connected ++ [PublicConn 0] ++ runs 1 4 ++ [Connect (data "home")] ++ runs 2 4 ++ runs 1 1.

Lemma open_ports_have_owners_witness :
  let s := after sample_server joined in settled s ∧ listener_map (sv_server s) false !! "tcp:0.0.0.0:9001" = Some 0%nat.
Proof.
  intros s. assert (settled s) as Hset by (apply (bool_decide_unpack _); vm_compute; exact I).
  destruct (open_ports_have_owners sample_server s (after_reachable _ _) Hset) as (Hopen & _ & _). split; [exact Hset|].
  destruct (tv_remotes (sv_server s) !! 0%nat) as [x|] eqn:Hx; [|vm_compute in Hx; discriminate].
  destruct (Hopen 0%nat x Hx) as [Hm _]; [vm_compute in Hx; injection Hx as <-; reflexivity|].
  vm_compute in Hx. injection Hx as <-. exact Hm.
Defined.

Lemma handlers_counted_witness :
  let s := after sample_server joined in exec (WaitRemote 0) usual (sv_server s) = None.
Proof.
  intros s. destruct (tv_remotes (sv_server s) !! 0%nat) as [x|] eqn:Hx; [|vm_compute in Hx; discriminate].
  destruct (handlers_counted sample_server s 0 x usual (after_reachable _ _) Hx) as (_ & _ & Hwait).
  destruct (exec (WaitRemote 0) usual (sv_server s)) as [p|] eqn:He; [|reflexivity]. exfalso.
  apply (proj1 Hwait) with (i := PubDone 0); [eexists; reflexivity| |reflexivity].
  apply (list_elem_of_lookup_2 _ 3). vm_compute. reflexivity.
Defined.

(** Two public connections at once: each is joined to the data connection that
    named its own id, whichever order the client opens them in. *)
Definition named (id : string) : Answer := {|
  an_now := 0; an_ok := true; an_id := id; an_pub := Received; an_control := Ping; an_ended := false; an_up := 3; an_down := 5 |}.
Definition two_public : list ServerEvent :=
  connected ++ [PublicConn 0; PublicConn 0] ++ replicate 4 (Run 1 (named "conn-1")) ++ replicate 4 (Run 2 (named "conn-2")) ++
  [Connect (first_message "data" "home" "conn-2" []); Connect (first_message "data" "home" "conn-1" [])] ++
  runs 3 4 ++ runs 4 4 ++ runs 1 1 ++ runs 2 1.


(** ** Interleavings the server does not guard against *)

(** a data connection can be left open with no owner. When the wait of a
    public connection times out between the lookup of its channel and the send,
    the connection lands in the channel's buffer, where nothing reads it and
    nothing closes it: only the client's control loop is left, and no key leads
    to the channel. *)
Theorem late_data_conn_leaks : ∃ s c n,
  reachable sample_server s ∧ tv_conns (sv_server s) !! c = Some n ∧ cn_open n = true ∧ is_Some (cn_auth n) ∧
  tv_pending (sv_server s) = ∅ ∧ instrs_of s = [ControlLoop 0] ∧ (ss_conn <$> tv_sessions (sv_server s)) = [0%nat] ∧ c ≠ 0%nat.
Proof.
  eexists (after sample_server (connected ++ [PublicConn 0] ++ runs 1 4 ++ [Connect (data "home")] ++ runs 2 3 ++
    [Run 1 times_out] ++ runs 2 1 ++ runs 1 2)), 2%nat, _.
  split; [apply after_reachable|]. split; [vm_compute; reflexivity|]. split_and!; try (vm_compute; reflexivity); [by eexists|done].
Qed.

(** a client a reload revokes can stay connected. A hello checked against
    the configuration before the reload registers after the pass that
    disconnects: when both are over the client is connected and the new
    configuration does not know it. *)
Theorem revoked_client_registers : ∃ s k session,
  reachable sample_server s ∧ instrs_of s = [ControlLoop 0] ∧ tv_clients (sv_server s) !! "home" = Some k ∧
  tv_sessions (sv_server s) !! k = Some session ∧ session_allowed (tv_cfg (sv_server s)) session = false.
Proof.
  eexists (after sample_server ([Connect (hello "home" 9001)] ++ runs 0 2 ++ [ReloadRequest no_clients] ++ runs 1 3 ++ runs 0 7)), 0%nat, _.
  split; [apply after_reachable|]. split; [vm_compute; reflexivity|]. split; [vm_compute; reflexivity|].
  split; [vm_compute; reflexivity|]. vm_compute. reflexivity.
Qed.

(** [max_conn] does not bound a burst. Two connections accepted before
    either handler has counted itself are both served by a listener for one. *)
Theorem burst_exceeds_max_conn : ∃ s x,
  reachable sample_server s ∧ tv_remotes (sv_server s) !! 0%nat = Some x ∧ sp_MaxConn (rl_spec x) = 1 ∧ rl_active x = 2.
Proof.
  eexists (after sample_server ([Connect (first_message "hello" "home" "" [{|
      sp_TunnelID := "web"; sp_Protocol := "tcp"; sp_RemoteListenAddr := ""; sp_RemoteListenPort := 9001;
      sp_LocalAddr := ""; sp_LocalPort := 80; sp_MaxConn := 1; sp_SpeedLimit := 0; sp_Remark := "" |}])] ++ runs 0 9 ++
    [PublicConn 0; PublicConn 0] ++ runs 1 1 ++ runs 2 1)), _.
  split; [apply after_reachable|]. split; [vm_compute; reflexivity|]. split; reflexivity.
Qed.

(** stopping one client's tunnel resets the count of another's. The
    statistics are kept by tunnel id, which is unique for one client only: after
    the tunnel of one client stops, the statistics show no connection while the
    other client's tunnel of the same id serves one. *)
Theorem shared_gauge_is_reset : ∃ s x,
  reachable sample_server s ∧ tv_remotes (sv_server s) !! 1%nat = Some x ∧ rl_open x = true ∧ rl_clientID x = "office" ∧
  sp_TunnelID (rl_spec x) = "web" ∧ rl_active x = 1 ∧ conns <$> counter_of (tv_collector (sv_server s)) "web" = Some 0.
Proof.
  eexists (after sample_server (connected ++ [Connect (hello "office" 9100)] ++ runs 1 9 ++ [PublicConn 0; PublicConn 1] ++
    runs 2 1 ++ runs 3 1 ++ [Run 0 times_out] ++ runs 0 3 ++ runs 2 2 ++ runs 0 2)), _.
  split; [apply after_reachable|]. split; [vm_compute; reflexivity|]. by split_and!.
Qed.

(** A pipe that goes on changes the statistics only. *)
Lemma pipe_goes_on k r p d rest s :
  sv_threads s !! k = Some (PubPipe r p d :: rest) →
  ∃ s', server_step (Run k usual) s = Some s' ∧ sv_threads s' = sv_threads s ∧
    tv_remotes (sv_server s') = tv_remotes (sv_server s) ∧ tv_conns (sv_server s') = tv_conns (sv_server s).
Proof.
  intros Hk. eexists. split; [unfold server_step; rewrite Hk; reflexivity|]. simpl. split; [by apply list_insert_id|].
  done.
Qed.

(** a reload waits for the connections of the clients it revokes, and does
    not end them. There is a state where the revoked client is gone from the
    registry and the reload waits for its listener, and however long the pipe of
    that client goes on, its connections stay open and the reload cannot move. *)
Theorem reload_waits_for_pipes : ∃ s,
  reachable sample_server s ∧ tv_clients (sv_server s) !! "home" = None ∧ clientACL (tv_cfg (sv_server s)) "home" = None ∧
  (∃ rest, sv_threads s !! 3%nat = Some (WaitRemote 0 :: rest)) ∧
  ∀ n, ∃ s', server_run (runs 1 n) s = Some s' ∧ (∀ a, server_step (Run 3 a) s' = None) ∧
    ∀ c, c = 1%nat ∨ c = 2%nat → cn_open <$> tv_conns (sv_server s') !! c = Some true.
Proof.
  set (s := after sample_server (joined ++ [ReloadRequest no_clients] ++ runs 3 6)).
  assert (∃ rest, sv_threads s !! 1%nat = Some (PubPipe 0 1 2 :: rest)) as [rest Hpipe] by (eexists; vm_compute; reflexivity).
  assert (∃ rest, sv_threads s !! 3%nat = Some (WaitRemote 0 :: rest)) as [rest' Hwait] by (eexists; vm_compute; reflexivity).
  assert (rl_inflight <$> tv_remotes (sv_server s) !! 0%nat = Some 1%nat) as Hin by (vm_compute; reflexivity).
  assert (∀ c, c = 1%nat ∨ c = 2%nat → cn_open <$> tv_conns (sv_server s) !! c = Some true) as Hopen
    by (intros c [->| ->]; vm_compute; reflexivity).
  exists s. split; [apply after_reachable|]. split; [vm_compute; reflexivity|]. split; [vm_compute; reflexivity|].
  split; [by eexists|]. clearbody s. intros n. revert s Hpipe Hwait Hin Hopen. induction n as [|n IH]; intros s Hpipe Hwait Hin Hopen.
  - exists s. split; [done|]. split; [|done]. intros a. unfold server_step. rewrite Hwait. cbn [exec]. unfold remote_with.
    destruct (tv_remotes (sv_server s) !! 0%nat) as [x|]; [|done]. injection Hin as Hx. by rewrite Hx.
  - destruct (pipe_goes_on _ _ _ _ _ _ Hpipe) as (s1 & Hs1 & Hth & Hre & Hco). 
    destruct (IH s1) as (s' & Hrun & Hs'); [by rewrite ?Hth, ?Hre, ?Hco..|]. exists s'. split; [|done].
    change (server_step (Run 1 usual) s ≫= server_run (runs 1 n) = Some s'). by rewrite Hs1.
Qed.

Lemma hello_exact_witness : check_hello sample_server (hello "home" 9001) = Ok [normalizeTunnelSpec (sample_tunnel "web" 9001)].
Proof.
  apply (hello_exact sample_server (hello "home" 9001)). split_and!; [vm_compute; reflexivity|done| |vm_compute; reflexivity].
  repeat constructor; vm_compute; reflexivity.
Defined.
