(* ===== verification/TunnelUDP.v ===== *)
(** * The UDP sessions of a tunnel (tunnel/udp.go)

    A remote UDP listener keeps a session per public address and one data
    connection per session.  Its goroutines are lists of the instructions they
    have left, as in TunnelServer.v: the reader of the socket and the cleanup
    loop, one goroutine per datagram, one reader per session, and the one that
    stops the listener.  How a data connection is asked for and handed over is
    in TunnelServer.v; here it is the answer [Opened] or its absence. *)

From S2P Require Import Prelude GoStrings Stats TunnelConfig.

Definition defaultUDPSessionIdle : Z := 60 * second.

(** [udpMessage] as decoded: [um_Payload] is the length of the decoded payload,
    [None] when it is not base64. *)
Record udpMessage := { um_Type : string; um_Version : Z; um_Payload : option Z }.
(** [readUDPMessage] of a decoded line; [None] is an error. *)
Definition readUDPMessage (msg : udpMessage) : option udpMessage :=
  let msg := {| um_Type := ToLower (TrimSpace (um_Type msg));
                um_Version := if um_Version msg =? 0 then ProtocolVersion else um_Version msg;
                um_Payload := um_Payload msg |} in
  if negb (um_Version msg =? ProtocolVersion) then None else Some msg.

Record udpServerSession := { us_key : string; us_conn : nat; us_lastSeen : Z; us_done : bool }.

(** [udpRemoteListener]. [ul_registered]: it is in the map of the server.
    [ul_conns]: whether each data connection it received is open. *)
Record udpRemoteListener := {
  ul_spec : TunnelSpec;
  ul_registered : bool;
  ul_socket : bool;
  ul_done : bool;
  ul_sessions : gmap string nat;
  ul_made : list udpServerSession;
  ul_conns : list bool;
  ul_wg : nat;
  ul_collector : Collector;
}.

Inductive UInstr :=
(* a datagram of [n] bytes from [key] *)
| ULookup (key : string) (n : Z)
| UOpen (key : string) (n : Z)
| UInsert (key : string) (c : nat) (n : Z)
| UCount (s : nat)
| UStart (s : nat)
| UWrite (s : nat) (n : Z)
(* the reader of a session *)
| URead (s : nat)
(* closing a session *)
| UCloseSession (key : string)
| UFinish (s : nat)
| UUncount
(* the loops of the listener *)
| UReadLoop
| UCleanupLoop
| UCloseIdle (now : Z)
| UDone
(* stopping *)
| UCancel
| UCloseSocket
| UCloseAll
| UWait
| UReset.

Inductive UChoice :=
| Nothing                              (* the call fails, or the loop ends *)
| Datagram (key : string) (n : Z)
| Opened                               (* the data connection arrives *)
| Written
| Line (msg : udpMessage)
| Tick.
Record UAnswer := { ua_now : Z; ua_choice : UChoice }.

(** ** Field updates *)

Definition with_table v ul : udpRemoteListener := {|
  ul_spec := ul_spec ul; ul_registered := ul_registered ul; ul_socket := ul_socket ul; ul_done := ul_done ul;
  ul_sessions := v; ul_made := ul_made ul; ul_conns := ul_conns ul; ul_wg := ul_wg ul; ul_collector := ul_collector ul |}.
Definition with_made v ul : udpRemoteListener := {|
  ul_spec := ul_spec ul; ul_registered := ul_registered ul; ul_socket := ul_socket ul; ul_done := ul_done ul;
  ul_sessions := ul_sessions ul; ul_made := v; ul_conns := ul_conns ul; ul_wg := ul_wg ul; ul_collector := ul_collector ul |}.
Definition with_uconns v ul : udpRemoteListener := {|
  ul_spec := ul_spec ul; ul_registered := ul_registered ul; ul_socket := ul_socket ul; ul_done := ul_done ul;
  ul_sessions := ul_sessions ul; ul_made := ul_made ul; ul_conns := v; ul_wg := ul_wg ul; ul_collector := ul_collector ul |}.
Definition with_wg v ul : udpRemoteListener := {|
  ul_spec := ul_spec ul; ul_registered := ul_registered ul; ul_socket := ul_socket ul; ul_done := ul_done ul;
  ul_sessions := ul_sessions ul; ul_made := ul_made ul; ul_conns := ul_conns ul; ul_wg := v; ul_collector := ul_collector ul |}.
Definition with_ucollector f ul : udpRemoteListener := {|
  ul_spec := ul_spec ul; ul_registered := ul_registered ul; ul_socket := ul_socket ul; ul_done := ul_done ul;
  ul_sessions := ul_sessions ul; ul_made := ul_made ul; ul_conns := ul_conns ul; ul_wg := ul_wg ul;
  ul_collector := f (ul_collector ul) |}.
Definition with_life registered socket done ul : udpRemoteListener := {|
  ul_spec := ul_spec ul; ul_registered := registered; ul_socket := socket; ul_done := done;
  ul_sessions := ul_sessions ul; ul_made := ul_made ul; ul_conns := ul_conns ul; ul_wg := ul_wg ul; ul_collector := ul_collector ul |}.

Definition touch (now : Z) (x : udpServerSession) : udpServerSession :=
  {| us_key := us_key x; us_conn := us_conn x; us_lastSeen := now; us_done := us_done x |}.
Definition finish (x : udpServerSession) : udpServerSession :=
  {| us_key := us_key x; us_conn := us_conn x; us_lastSeen := us_lastSeen x; us_done := true |}.
Definition touch_session (now : Z) (s : nat) ul : udpRemoteListener := with_made (alter (touch now) s (ul_made ul)) ul.
Definition close_uconn (c : nat) ul : udpRemoteListener := with_uconns (<[c := false]> (ul_conns ul)) ul.
Definition u_id (ul : udpRemoteListener) : string := sp_TunnelID (ul_spec ul).
Definition session_of (ul : udpRemoteListener) (s : nat) {A} (d : A) (f : udpServerSession → A) : A :=
  match ul_made ul !! s with Some x => f x | None => d end.

(** ** The instructions *)

Definition UStep : Type := list UInstr * list (list UInstr) * udpRemoteListener.
Definition go (instrs : list UInstr) (ul : udpRemoteListener) : UStep := (instrs, [], ul).

(** [getOrOpenSession]: the table, the data connection, the table again. *)
Definition getSession_udp (now : Z) (key : string) (n : Z) (ul : udpRemoteListener) : UStep :=
  match ul_sessions ul !! key with
  | Some s => go [UWrite s n] (touch_session now s ul)
  | None =>
      if (0 <? sp_MaxConn (ul_spec ul)) && (sp_MaxConn (ul_spec ul) <=? Z.of_nat (size (ul_sessions ul)))
      then go [] ul else go [UOpen key n] ul
  end.
Definition openSession (choice : UChoice) (key : string) (n : Z) (ul : udpRemoteListener) : option UStep :=
  match choice with
  | Opened => Some (go [UInsert key (length (ul_conns ul)) n] (with_uconns (ul_conns ul ++ [true]) ul))
  | Nothing => Some (go [] ul)
  | _ => None
  end.
Definition insertSession (now : Z) (key : string) (c : nat) (n : Z) (ul : udpRemoteListener) : UStep :=
  match ul_sessions ul !! key with
  | Some s => go [UWrite s n] (close_uconn c ul)
  | None =>
      let s := length (ul_made ul) in
      let session := {| us_key := key; us_conn := c; us_lastSeen := now; us_done := false |} in
      go [UCount s; UStart s; UWrite s n] (with_table (<[key := s]> (ul_sessions ul)) (with_made (ul_made ul ++ [session]) ul))
  end.
(** The rest of [handleDatagram]. A closed connection cannot be written. *)
Definition writeDatagram (a : UAnswer) (s : nat) (n : Z) (ul : udpRemoteListener) : option UStep :=
  session_of ul s None (λ x,
    match ua_choice a with
    | Written =>
        if bool_decide (ul_conns ul !! us_conn x = Some true)
        then Some (go [] (with_ucollector (AddUpload (ua_now a) (u_id ul) n) ul)) else None
    | Nothing => Some (go [UCloseSession (us_key x)] ul)
    | _ => None
    end).

(** [udpSessionReadLoop]: one line. *)
Definition udpSessionReadLoop (a : UAnswer) (s : nat) (ul : udpRemoteListener) : option UStep :=
  session_of ul s None (λ x,
    match ua_choice a with
    | Line msg =>
        match readUDPMessage msg with
        | None => Some (go [UCloseSession (us_key x)] ul)
        | Some msg =>
            if negb (bool_decide (um_Type msg = "udp")) then Some (go [URead s] ul)
            else match um_Payload msg with
                 | None => Some (go [URead s] ul)
                 | Some n =>
                     Some (go [URead s] (touch_session (ua_now a) s (with_ucollector (AddDownload (ua_now a) (u_id ul) n) ul)))
                 end
        end
    | Nothing => Some (go [UCloseSession (us_key x)] ul)
    | _ => None
    end).

(** [closeSession]: the table, then once per session the connection and the count. *)
Definition closeSession_udp (key : string) (ul : udpRemoteListener) : UStep :=
  match ul_sessions ul !! key with
  | None => go [] ul
  | Some s => go [UFinish s] (with_table (delete key (ul_sessions ul)) ul)
  end.
Definition finishSession (s : nat) (ul : udpRemoteListener) : UStep :=
  session_of ul s (go [] ul) (λ x,
    if us_done x then go [] ul
    else go [UUncount] (close_uconn (us_conn x) (with_made (alter finish s (ul_made ul)) ul))).

Definition idle_session (now : Z) (ul : udpRemoteListener) (s : nat) : bool :=
  session_of ul s false (λ x, defaultUDPSessionIdle <? now - us_lastSeen x).
Definition closeIdleSessions (now : Z) (ul : udpRemoteListener) : list UInstr :=
  UCloseSession <$> (filter (λ e, idle_session now ul e.2 = true) (map_to_list (ul_sessions ul))).*1.
Definition closeAllSessions (ul : udpRemoteListener) : list UInstr :=
  UCloseSession <$> (map_to_list (ul_sessions ul)).*1.

(** [readLoop]: one datagram, or a failed read once the context is done. *)
Definition readLoop (choice : UChoice) (ul : udpRemoteListener) : option UStep :=
  match choice with
  | Datagram key n =>
      if ul_socket ul then Some ([UReadLoop], [[ULookup key n; UDone]], with_wg (S (ul_wg ul)) ul) else None
  | Nothing => Some (if ul_done ul then go [] ul else go [UReadLoop] ul)
  | _ => None
  end.
Definition cleanupLoop (a : UAnswer) (ul : udpRemoteListener) : option UStep :=
  match ua_choice a with
  | Tick => Some (go [UCloseIdle (ua_now a); UCleanupLoop] ul)
  | Nothing => if ul_done ul then Some (go [] ul) else None
  | _ => None
  end.

Definition uexec (i : UInstr) (a : UAnswer) (ul : udpRemoteListener) : option UStep :=
  match i with
  | ULookup key n => Some (getSession_udp (ua_now a) key n ul)
  | UOpen key n => openSession (ua_choice a) key n ul
  | UInsert key c n => Some (insertSession (ua_now a) key c n ul)
  | UCount s => Some (go [] (with_ucollector (IncConns (ua_now a) (u_id ul)) ul))
  | UStart s => Some ([], [[URead s; UDone]], with_wg (S (ul_wg ul)) ul)
  | UWrite s n => writeDatagram a s n ul
  | URead s => udpSessionReadLoop a s ul
  | UCloseSession key => Some (closeSession_udp key ul)
  | UFinish s => Some (finishSession s ul)
  | UUncount => Some (go [] (with_ucollector (DecConns (ua_now a) (u_id ul)) ul))
  | UReadLoop => readLoop (ua_choice a) ul
  | UCleanupLoop => cleanupLoop a ul
  | UCloseIdle now => Some (go (closeIdleSessions now ul) ul)
  | UDone => Some (go [] (with_wg (pred (ul_wg ul)) ul))
  | UCancel => Some (go [] (with_life (ul_registered ul) (ul_socket ul) true ul))
  | UCloseSocket => Some (go [] (with_life (ul_registered ul) false (ul_done ul) ul))
  | UCloseAll => Some (go (closeAllSessions ul) ul)
  | UWait => if (ul_wg ul =? 0)%nat then Some (go [] ul) else None
  | UReset => Some (go [] (with_ucollector (SetConns (ua_now a) (u_id ul) 0) ul))
  end.

(** ** The listener with its goroutines *)

Record UState := { uv_listener : udpRemoteListener; uv_threads : list (list UInstr) }.

Definition start_threads : list (list UInstr) := [[UReadLoop; UDone]; [UCleanupLoop; UDone]].
(** [startUDPRemoteListener], once the socket is open. *)
Definition startUDPRemoteListener (now : Z) (spec : TunnelSpec) (c : Collector) : UState := {|
  uv_listener := {| ul_spec := spec; ul_registered := true; ul_socket := true; ul_done := false; ul_sessions := ∅;
                    ul_made := []; ul_conns := []; ul_wg := 2; ul_collector := EnsureRule now (sp_TunnelID spec) c |};
  uv_threads := start_threads |}.

Definition stop_thread : list UInstr := [UCancel; UCloseSocket; UCloseAll; UWait; UReset].

Inductive UEvent :=
| StopUDP_                             (* [stopUDPRemoteListener] *)
| ContextDone                          (* the server's context ends *)
| URun (k : nat) (a : UAnswer).

Definition udp_step (e : UEvent) (s : UState) : option UState :=
  let ul := uv_listener s in
  match e with
  | StopUDP_ =>
      if ul_registered ul
      then Some {| uv_listener := with_life false (ul_socket ul) (ul_done ul) ul; uv_threads := uv_threads s ++ [stop_thread] |}
      else None
  | ContextDone => Some {| uv_listener := with_life (ul_registered ul) (ul_socket ul) true ul; uv_threads := uv_threads s |}
  | URun k a =>
      match uv_threads s !! k with
      | Some (i :: rest) =>
          '(instrs, spawned, ul) ← uexec i a ul;
          Some {| uv_listener := ul; uv_threads := <[k := instrs ++ rest]> (uv_threads s) ++ spawned |}
      | _ => None
      end
  end.

Section reachable.
Context (now : Z) (spec : TunnelSpec) (c : Collector).

(** The states the listener can reach from its start. *)
Inductive udp_reachable : UState → Prop :=
| udp_start : udp_reachable (startUDPRemoteListener now spec c)
| udp_next e s s' : udp_reachable s → udp_step e s = Some s' → udp_reachable s'.
End reachable.

Fixpoint udp_events (events : list UEvent) (s : UState) : option UState :=
  match events with [] => Some s | e :: events => udp_step e s ≫= udp_events events end.
