(* ===== verification/TunnelUDPSpec.v ===== *)
(** * Properties of the UDP sessions of a tunnel

    Invariants under every interleaving of the listener's goroutines: where an
    open data connection is, what the connection gauge shows, and what is left
    when the listener has stopped. *)

From S2P Require Import Prelude GoStrings Stats TunnelConfig TunnelConfigSpec Threads TunnelUDP.

Definition uinstrs (s : UState) : list UInstr := mjoin (uv_threads s).

Section invariant.
Context (P : udpRemoteListener → list UInstr → Prop).

Record upreserved : Prop := {
  up_perm ul l l' : l ≡ₚ l' → P ul l → P ul l';
  up_stop ul l : ul_registered ul = true → P ul l →
    P (with_life false (ul_socket ul) (ul_done ul) ul) (stop_thread ++ l);
  up_context ul l : P ul l → P (with_life (ul_registered ul) (ul_socket ul) true ul) l;
  up_exec i a ul l new spawned ul' : P ul (i :: l) → uexec i a ul = Some (new, spawned, ul') →
    P ul' ((new ++ mjoin spawned) ++ l);
}.

Lemma udp_preserved now spec c s :
  upreserved → P (uv_listener (startUDPRemoteListener now spec c)) (mjoin start_threads) →
  udp_reachable now spec c s → P (uv_listener s) (uinstrs s).
Proof.
  intros HP H0. induction 1 as [|e s s' _ IH Hstep]; [done|]. unfold uinstrs in *. destruct e as [| |k a]; simpl in Hstep.
  - destruct (ul_registered (uv_listener s)) eqn:Hr; [|done]. injection Hstep as <-. simpl.
    eapply (up_perm HP); [|by apply (up_stop HP)]. rewrite join_app. simpl. solve_Permutation.
  - injection Hstep as <-. by apply (up_context HP).
  - destruct (uv_threads s !! k) as [[|i rest]|] eqn:Hk; [done| |done].
    destruct (uexec i a (uv_listener s)) as [[[new spawned] ul']|] eqn:He; [|done]. injection Hstep as <-. simpl.
    destruct (mjoin_insert (uv_threads s) k i new rest Hk) as [Hbefore Hafter].
    eapply (up_perm HP); [|eapply (up_exec HP); [|exact He]; eapply (up_perm HP); [exact Hbefore|exact IH]].
    rewrite join_app, Hafter. solve_Permutation.
Qed.
End invariant.

(** ** Where the sessions and their connections are *)

Definition finishing (s : nat) (i : UInstr) : bool := match i with UFinish k => bool_decide (k = s) | _ => false end.
Definition in_table (ul : udpRemoteListener) (s : nat) (x : udpServerSession) : bool :=
  bool_decide (ul_sessions ul !! us_key x = Some s).

Record sessions_ok (ul : udpRemoteListener) (l : list UInstr) : Prop := {
  so_table key s : ul_sessions ul !! key = Some s → ∃ x, ul_made ul !! s = Some x ∧ us_key x = key;
  (* a session is in the table, about to be finished, or done; only one of them *)
  so_once s x : ul_made ul !! s = Some x →
    (Nat.b2n (in_table ul s x) + count_of (finishing s) l + Nat.b2n (us_done x) = 1)%nat;
  so_known s : UFinish s ∈ l → (s < length (ul_made ul))%nat;
  (* an open data connection is held by a goroutine or belongs to a session *)
  so_open c : ul_conns ul !! c = Some true →
    (∃ key n, UInsert key c n ∈ l) ∨ ∃ s x, ul_made ul !! s = Some x ∧ us_conn x = c ∧ us_done x = false;
  (* a session of the table has its reader *)
  so_reader key s : ul_sessions ul !! key = Some s → UStart s ∈ l ∨ URead s ∈ l ∨ UCloseSession key ∈ l;
}.

(** What the invariant sees of a session. *)
Definition frozen (x : udpServerSession) : string * nat * bool := (us_key x, us_conn x, us_done x).
Definition same_made (ul ul' : udpRemoteListener) : Prop := frozen <$> ul_made ul' = frozen <$> ul_made ul.
Lemma same_made_lookup ul ul' s x' :
  same_made ul ul' → ul_made ul' !! s = Some x' → ∃ x, ul_made ul !! s = Some x ∧ frozen x' = frozen x.
Proof.
  intros H Hx. assert ((frozen <$> ul_made ul') !! s = Some (frozen x')) as Hf by (by rewrite list_lookup_fmap, Hx).
  rewrite H, list_lookup_fmap in Hf. destruct (ul_made ul !! s) as [x|]; [|done]. injection Hf as E. exists x. split; [done|].
  unfold frozen. congruence.
Qed.
Lemma same_made_length ul ul' : same_made ul ul' → length (ul_made ul') = length (ul_made ul).
Proof. intros H%(f_equal length). by rewrite !length_fmap in H. Qed.
Lemma same_made_sym ul ul' : same_made ul ul' → same_made ul' ul.
Proof. by unfold same_made. Qed.
Lemma touch_same now s ul : same_made ul (touch_session now s ul).
Proof.
  unfold same_made, touch_session. simpl. apply list_eq. intros k. rewrite !list_lookup_fmap.
  destruct (decide (k = s)) as [->|]; [|by rewrite list_lookup_alter_ne].
  rewrite list_lookup_alter_eq. by destruct (ul_made ul !! s).
Qed.

Definition is_carrier (i : UInstr) : bool :=
  match i with UInsert _ _ _ | UFinish _ | UStart _ | URead _ | UCloseSession _ => true | _ => false end.
Definition adds_none (l : list UInstr) : Prop := Forall (λ i, match i with UInsert _ _ _ | UFinish _ => False | _ => True end) l.

(** A step that moves no session and no connection keeps the invariant. *)
Lemma sessions_frame ul ul' gone new l :
  sessions_ok ul (gone ++ l) → ul_sessions ul' = ul_sessions ul → same_made ul ul' → ul_conns ul' = ul_conns ul →
  Forall (λ i, is_carrier i = true → i ∈ new) gone → adds_none gone → adds_none new → sessions_ok ul' (new ++ l).
Proof.
  intros [Ht Ho Hk Hop Hr] Hs Hm Hc Hgone Hag Han.
  assert (∀ i, is_carrier i = true → i ∈ gone ++ l → i ∈ new ++ l) as Hstay.
  { intros i Hi [Hin|Hin]%elem_of_app; apply elem_of_app; [|by right]. rewrite Forall_forall in Hgone. left. by apply Hgone. }
  assert (∀ l' s, adds_none l' → count_of (finishing s) l' = 0%nat) as Hzero.
  { intros l' s Hl. apply count_zero. eapply Forall_impl; [exact Hl|]. by intros []. }
  split.
  - intros key s Hts. rewrite Hs in Hts. destruct (Ht key s Hts) as (x & Hx & <-).
    destruct (same_made_lookup ul' ul s x (same_made_sym _ _ Hm) Hx) as (x' & Hx' & [=]). by exists x'.
  - intros s x' (x & Hx & [= E1 E2 E3])%(same_made_lookup ul ul' s x' Hm). specialize (Ho s x Hx).
    unfold in_table in *. rewrite E1, E3, Hs. rewrite count_app, Hzero in Ho |- * by done. done.
  - intros s [Hin|Hin]%elem_of_app; [unfold adds_none in Han; rewrite Forall_forall in Han; by destruct (Han _ Hin)|].
    rewrite (same_made_length _ _ Hm). apply Hk. apply elem_of_app. by right.
  - intros c Hco. rewrite Hc in Hco. destruct (Hop c Hco) as [(key & n & Hin)|(s & x & Hx & <- & Hd)].
    + left. exists key, n. by apply Hstay.
    + right. destruct (same_made_lookup ul' ul s x (same_made_sym _ _ Hm) Hx) as (x' & Hx' & [=]). exists s, x'. split; [done|]. split; congruence.
  - intros key s Hts. rewrite Hs in Hts. destruct (Hr key s Hts) as [?|[?|?]];
      [left|right; left|right; right]; by apply Hstay.
Qed.

Lemma sessions_perm ul l l' : l ≡ₚ l' → sessions_ok ul l → sessions_ok ul l'.
Proof.
  intros Hp [Ht Ho Hk Hop Hr]. split; [done| | | |].
  - intros s x Hx. rewrite <-(count_perm _ l l') by done. by apply Ho.
  - intros s. rewrite <-Hp. apply Hk.
  - intros c Hc. setoid_rewrite <-Hp. by apply Hop.
  - intros key s Hs. rewrite <-!Hp. by apply Hr.
Qed.

(** The reader of a session goes on, or is about to close its key. *)
Lemma sessions_reader ul ul' s i new l :
  sessions_ok ul (i :: l) → i = UStart s ∨ i = URead s →
  ul_sessions ul' = ul_sessions ul → same_made ul ul' → ul_conns ul' = ul_conns ul → adds_none new →
  URead s ∈ new ∨ (∃ x, ul_made ul !! s = Some x ∧ UCloseSession (us_key x) ∈ new) → sessions_ok ul' (new ++ l).
Proof.
  intros Hok Hi Hs Hm Hc Han Hnext.
  assert (sessions_ok ul (new ++ i :: l)) as Hboth.
  { apply (sessions_frame ul ul [i] (new ++ [i]) l) in Hok as H; try done.
    - by rewrite <-app_assoc in H.
    - constructor; [|constructor]. intros _. apply elem_of_app. right. by left.
    - constructor; [|constructor]. by destruct Hi as [-> | ->].
    - apply Forall_app. split; [done|]. constructor; [|constructor]. by destruct Hi as [-> | ->]. }
  assert (∀ j, j ∈ new ++ i :: l → j = i ∨ j ∈ new ++ l) as Hin by (intros j; rewrite !elem_of_app, elem_of_cons; tauto).
  assert (sessions_ok ul (new ++ l)) as [Ht Ho Hk Hop Hr].
  { destruct Hboth as [Ht Ho Hk Hop Hr]. split; [done| | | |].
    - intros k x Hx. specialize (Ho k x Hx). rewrite count_app, count_cons in Ho. rewrite count_app. by destruct Hi as [-> | ->].
    - intros k Hf. apply Hk. revert Hf. rewrite !elem_of_app, elem_of_cons. tauto.
    - intros c Hco. destruct (Hop c Hco) as [(key & n & [E|?]%Hin)|?]; [subst i; by destruct Hi|left; by exists key, n|by right].
    - intros key k Hk'. destruct (Ht key k Hk') as (x & Hx & <-).
      assert (k = s → URead s ∈ new ++ l ∨ UCloseSession (us_key x) ∈ new ++ l) as Hks.
      { intros ->. destruct Hnext as [?|(x' & Hx' & ?)]; [left; apply elem_of_app; by left|].
        rewrite Hx in Hx'. injection Hx' as <-. right. apply elem_of_app. by left. }
      destruct (Hr _ k Hk') as [[E|?]%Hin|[[E|?]%Hin|[E|?]%Hin]]; try tauto.
      + subst i. destruct Hi as [[= <-]|]; [|done]. destruct (Hks eq_refl); tauto.
      + subst i. destruct Hi as [|[= <-]]; [done|]. destruct (Hks eq_refl); tauto.
      + subst i. by destruct Hi. }
  apply (sessions_frame ul ul' new new l); try done. by apply Forall_forall.
Qed.

Lemma sessions_open ul key n l :
  sessions_ok ul (UOpen key n :: l) →
  sessions_ok (with_uconns (ul_conns ul ++ [true]) ul) (UInsert key (length (ul_conns ul)) n :: l).
Proof.
  intros [Ht Ho Hk Hop Hr]. split; [done| | | |].
  - intros s x Hx. specialize (Ho s x Hx). by rewrite !count_cons in *.
  - intros s [?|?]%elem_of_cons; [done|]. apply Hk. by right.
  - intros c. simpl. intros [Hc|[Hc [Hz _]%list_lookup_singleton_Some]]%lookup_app_Some.
    + destruct (Hop c Hc) as [(k & m & [?|?]%elem_of_cons)|?]; [done| |by right]. left. exists k, m. by right.
    + left. exists key, n. assert (c = length (ul_conns ul)) as -> by lia. by left.
  - intros k s Hs. destruct (Hr k s Hs) as [H|[H|H]]; apply elem_of_cons in H as [|H]; try done;
      [left|right; left|right; right]; by right.
Qed.

Lemma sessions_insert ul now key c n l new spawned ul' :
  sessions_ok ul (UInsert key c n :: l) → insertSession now key c n ul = (new, spawned, ul') →
  sessions_ok ul' ((new ++ mjoin spawned) ++ l).
Proof.
  intros [Ht Ho Hk Hop Hr] He. unfold insertSession in He. destruct (ul_sessions ul !! key) as [s|] eqn:Hkey; injection He as <- <- <-.
  - split; [done| | | |].
    + intros k x Hx. specialize (Ho k x Hx). by rewrite !count_cons in *.
    + intros k [?|?]%elem_of_cons; [done|]. apply Hk. by right.
    + intros d. simpl. rewrite list_lookup_insert_Some. intros [(_ & ? & _)|[Hne Hd]]; [done|].
      destruct (Hop d Hd) as [(k & m & [[= -> -> ->]|?]%elem_of_cons)|?]; [done| |by right]. left. exists k, m. by right.
    + intros k s' Hs. destruct (Hr k s' Hs) as [H|[H|H]]; apply elem_of_cons in H as [|H]; try done;
        [left|right; left|right; right]; by right.
  - set (s := length (ul_made ul)) in *.
    assert (∀ k x, ul_made ul !! k = Some x → k ≠ s) as Hold by (intros k x ?%lookup_lt_Some; unfold s; lia).
    split; simpl.
    + intros k r. rewrite lookup_insert_Some. intros [[<- <-]|[Hne Hr']].
      * eexists. split; [by rewrite lookup_app_r, Nat.sub_diag|done].
      * destruct (Ht k r Hr') as (x & Hx & <-). exists x. split; [|done]. by apply lookup_app_l_Some.
    + intros k x [Hx|[Hle [Hz <-]%list_lookup_singleton_Some]]%lookup_app_Some.
      * specialize (Ho k x Hx). rewrite !count_cons in *. simpl in *. rewrite <-Ho. do 2 f_equal. unfold in_table. simpl.
        f_equal. apply bool_decide_ext. rewrite lookup_insert_Some. pose proof (Hold k x Hx). split; [|intros Hin; right; split; [|done]].
        -- intros [[_ <-]|[_ ?]]; done.
        -- intros E. rewrite <-E in Hin. congruence.
      * assert (k = s) as -> by (unfold s; lia). unfold in_table. simpl. rewrite lookup_insert_eq, bool_decide_eq_true_2 by done.
        rewrite !count_cons. simpl. rewrite count_zero; [done|]. apply Forall_forall. intros i Hi. destruct i; try done. simpl.
        apply bool_decide_eq_false. intros ->. specialize (Hk s ltac:(by right)). unfold s in Hk. lia.
    + intros k Hin. rewrite length_app. apply Nat.lt_lt_add_r, Hk. rewrite !elem_of_cons in Hin. right. naive_solver.
    + intros d Hd. destruct (Hop d Hd) as [(k & m & [[= -> -> ->]|Hin]%elem_of_cons)|(k & x & Hx & ? & ?)].
      * right. exists s. eexists. split; [by rewrite lookup_app_r, Nat.sub_diag|done].
      * left. exists k, m. by do 3 right.
      * right. exists k, x. split; [|done]. by apply lookup_app_l_Some.
    + intros k r. rewrite lookup_insert_Some. intros [[<- <-]|[Hne Hr']].
      * left. right. by left.
      * destruct (Hr k r Hr') as [H|[H|H]]; apply elem_of_cons in H as [|H]; try done;
          [left|right; left|right; right]; by do 3 right.
Qed.

Lemma sessions_close ul key l new spawned ul' :
  sessions_ok ul (UCloseSession key :: l) → closeSession_udp key ul = (new, spawned, ul') →
  sessions_ok ul' ((new ++ mjoin spawned) ++ l).
Proof.
  intros [Ht Ho Hk Hop Hr] He. unfold closeSession_udp in He. destruct (ul_sessions ul !! key) as [s|] eqn:Hkey; injection He as <- <- <-.
  - destruct (Ht key s Hkey) as (x0 & Hx0 & Hkx). split; simpl.
    + intros k r [_ Hr']%lookup_delete_Some. by apply Ht.
    + intros k x Hx. specialize (Ho k x Hx). rewrite !count_cons in *. unfold in_table in *. simpl in *.
      destruct (decide (k = s)) as [->|Hne].
      * rewrite Hx0 in Hx. injection Hx as <-. rewrite Hkx in *. rewrite Hkey, (bool_decide_eq_true_2 (Some s = Some s)) in Ho by done.
        rewrite lookup_delete_eq, bool_decide_eq_false_2, bool_decide_eq_true_2 by done. simpl in *. lia.
      * rewrite (bool_decide_eq_false_2 (s = k)) by done.
        assert (bool_decide (delete key (ul_sessions ul) !! us_key x = Some k) = bool_decide (ul_sessions ul !! us_key x = Some k)) as ->; [|lia].
        apply bool_decide_ext. rewrite lookup_delete_Some. split; [tauto|]. intros H. split; [|done]. intros E. rewrite <-E in H. congruence.
    + intros k [[= <-]|?]%elem_of_cons; [by eapply lookup_lt_Some|]. apply Hk. by right.
    + intros d Hd. destruct (Hop d Hd) as [(k & m & [?|?]%elem_of_cons)|?]; [done| |by right]. left. exists k, m. by right.
    + intros k r [Hne Hr']%lookup_delete_Some. destruct (Hr k r Hr') as [H|[H|H]]; apply elem_of_cons in H as [E|H]; try done;
        [left|right; left| |right; right]; try (by right). congruence.
  - split; [done| | | |].
    + intros k x Hx. specialize (Ho k x Hx). by rewrite !count_cons in *.
    + intros k ?. apply Hk. by right.
    + intros d Hd. destruct (Hop d Hd) as [(k & m & [?|?]%elem_of_cons)|?]; [done| |by right]. left. by exists k, m.
    + intros k r Hr'. destruct (Hr k r Hr') as [H|[H|H]]; apply elem_of_cons in H as [E|H]; try done;
        [by left|by right; left| |by right; right]. congruence.
Qed.

(** A session is finished once. *)
Lemma finishing_once ul s l : sessions_ok ul (UFinish s :: l) → ∃ x, ul_made ul !! s = Some x ∧ us_done x = false.
Proof.
  intros [_ Ho Hk _ _]. destruct (lookup_lt_is_Some_2 (ul_made ul) s) as [x Hx]; [apply Hk; by left|]. exists x. split; [done|].
  specialize (Ho s x Hx). rewrite count_cons in Ho. simpl in Ho. rewrite bool_decide_eq_true_2 in Ho by done.
  destruct (us_done x); [simpl in Ho; lia|done].
Qed.

Lemma sessions_finish ul s l new spawned ul' :
  sessions_ok ul (UFinish s :: l) → finishSession s ul = (new, spawned, ul') →
  sessions_ok ul' ((new ++ mjoin spawned) ++ l).
Proof.
  intros Hok He. destruct (finishing_once _ _ _ Hok) as (x0 & Hx0 & Hd0). destruct Hok as [Ht Ho Hk Hop Hr].
  unfold finishSession, session_of in He. rewrite Hx0, Hd0 in He. injection He as <- <- <-. split; simpl.
  - intros k r Hr'. destruct (Ht k r Hr') as (x & Hx & <-). destruct (decide (r = s)) as [->|].
    + exists (finish x). by rewrite list_lookup_alter_eq, Hx.
    + exists x. by rewrite list_lookup_alter_ne.
  - intros k x Hx. destruct (decide (k = s)) as [->|].
    + rewrite list_lookup_alter_eq, Hx0 in Hx. injection Hx as <-. specialize (Ho s x0 Hx0).
      rewrite count_cons in *. simpl in *. rewrite bool_decide_eq_true_2 in Ho by done. rewrite Hd0 in Ho. simpl in Ho.
      unfold in_table in *. simpl. lia.
    + rewrite list_lookup_alter_ne in Hx by done. specialize (Ho k x Hx). rewrite count_cons in *. simpl in *.
      by rewrite bool_decide_eq_false_2 in Ho by done.
  - intros k [?|?]%elem_of_cons; [done|]. rewrite length_alter. apply Hk. by right.
  - intros d. rewrite list_lookup_insert_Some. intros [(_ & ? & _)|[Hne Hd]]; [done|].
    destruct (Hop d Hd) as [(k & m & [?|?]%elem_of_cons)|(k & x & Hx & Hc & Hdx)]; [done| |].
    + left. exists k, m. by right.
    + right. exists k, x. rewrite list_lookup_alter_ne; [done|]. intros ->. congruence.
  - intros k r Hr'. destruct (Hr k r Hr') as [H|[H|H]]; apply elem_of_cons in H as [E|H]; try done;
      [left|right; left|right; right]; by right.
Qed.

Lemma adds_none_close keys : adds_none (UCloseSession <$> keys).
Proof. induction keys; by constructor. Qed.

(** The instructions that concern no session of the table. *)
Lemma sessions_still i a ul l new spawned ul' :
  is_carrier i = false → (∀ key n, i ≠ UOpen key n) → sessions_ok ul (i :: l) → uexec i a ul = Some (new, spawned, ul') →
  sessions_ok ul' ((new ++ mjoin spawned) ++ l).
Proof.
  intros Hi Hne Hok He.
  assert (ul_sessions ul' = ul_sessions ul ∧ same_made ul ul' ∧ ul_conns ul' = ul_conns ul ∧ adds_none (new ++ mjoin spawned))
    as (? & ? & ? & ?).
  { destruct i; try done; cbn [uexec] in He.
    - unfold getSession_udp in He. destruct (ul_sessions ul !! key); [|destruct (_ && _)]; injection He as <- <- <-;
        split_and!; try done; try (by repeat constructor). apply touch_same.
    - by destruct (Hne key n).
    - injection He as <- <- <-. split_and!; done || by repeat constructor.
    - unfold writeDatagram, session_of in He. destruct (ul_made ul !! s); [|done]. destruct (ua_choice a); try done.
      + injection He as <- <- <-. split_and!; done || by repeat constructor.
      + case_bool_decide; [|done]. injection He as <- <- <-. split_and!; done || by repeat constructor.
    - injection He as <- <- <-. split_and!; done || by repeat constructor.
    - unfold readLoop in He. destruct (ua_choice a); try done; [destruct (ul_done ul)|destruct (ul_socket ul); [|done]];
        injection He as <- <- <-; split_and!; done || by repeat constructor.
    - unfold cleanupLoop in He. destruct (ua_choice a); try done; [destruct (ul_done ul); [|done]|];
        injection He as <- <- <-; split_and!; done || by repeat constructor.
    - injection He as <- <- <-. split_and!; try done. rewrite app_nil_r. apply adds_none_close.
    - injection He as <- <- <-. split_and!; done || by repeat constructor.
    - injection He as <- <- <-. split_and!; done || by repeat constructor.
    - injection He as <- <- <-. split_and!; done || by repeat constructor.
    - injection He as <- <- <-. split_and!; try done. rewrite app_nil_r. apply adds_none_close.
    - destruct (ul_wg ul =? 0)%nat; [|done]. injection He as <- <- <-. split_and!; done || by repeat constructor.
    - injection He as <- <- <-. split_and!; done || by repeat constructor. }
  apply (sessions_frame ul ul' [i] _ l); try done; (constructor; [|constructor]); [by rewrite Hi|by destruct i].
Qed.

Lemma sessions_preserved : upreserved sessions_ok.
Proof.
  split.
  - intros ul l l'. apply sessions_perm.
  - intros ul l _ H. apply (sessions_frame ul _ [] stop_thread l); done || by repeat constructor.
  - intros ul l H. apply (sessions_frame ul _ [] [] l); done || by repeat constructor.
  - intros i a ul l new spawned ul' Hok He. destruct (is_carrier i) eqn:Hi.
    + destruct i; try discriminate Hi; cbn [uexec] in He.
      * injection He as He. by eapply sessions_insert.
      * injection He as <- <- <-. eapply (sessions_reader ul _ s); try done; [by left|by repeat constructor|left; by left].
      * unfold udpSessionReadLoop, session_of in He. destruct (ul_made ul !! s) as [x|] eqn:Hx; [|done].
        assert (∀ new ul', new = [URead s] ∨ new = [UCloseSession (us_key x)] → ul_sessions ul' = ul_sessions ul →
          same_made ul ul' → ul_conns ul' = ul_conns ul → sessions_ok ul' ((new ++ []) ++ l)) as Hnext.
        { intros new' ul'' Hnew ? ? ?. eapply (sessions_reader ul _ s); try done; [by right| |].
          - destruct Hnew as [-> | ->]; by repeat constructor.
          - destruct Hnew as [-> | ->]; [left; by left|right]. exists x. split; [done|by left]. }
        destruct (ua_choice a); try done; [injection He as <- <- <-; apply Hnext; auto; done|].
        destruct (readUDPMessage msg) as [msg'|]; [|injection He as <- <- <-; apply Hnext; auto; done].
        destruct (negb _); [injection He as <- <- <-; apply Hnext; auto; done|].
        destruct (um_Payload msg'); injection He as <- <- <-; apply Hnext; auto; try done.
        by apply (touch_same _ _ (with_ucollector _ ul)).
      * injection He as He. by eapply sessions_close.
      * injection He as He. by eapply sessions_finish.
    + assert ((∃ key n, i = UOpen key n) ∨ ∀ key n, i ≠ UOpen key n) as [(key & n & ->)|Hne].
      { destruct i; (by right) || (left; by eexists _, _). }
      * cbn [uexec] in He. unfold openSession in He. destruct (ua_choice a); try done; injection He as <- <- <-.
        -- apply (sessions_frame ul _ [UOpen key n] [] l); done || by repeat constructor.
        -- by apply sessions_open.
      * by eapply sessions_still.
Qed.

Lemma sessions_reachable now spec c s : udp_reachable now spec c s → sessions_ok (uv_listener s) (uinstrs s).
Proof.
  apply (udp_preserved sessions_ok); [apply sessions_preserved|]. split; simpl; try done.
  - intros s'. rewrite !elem_of_cons, elem_of_nil. naive_solver.
Qed.

(** ** The counts *)

(** The connection gauge of a tunnel. *)
Definition gauge_of (id : string) (c : Collector) : Z := default 0 (conns <$> view c !! TrimSpace id).

Lemma gauge_bound now id f g c :
  collector_wf c → (∀ k, conns (f k) = g (conns k)) →
  collector_wf (bound now id (λ h, update h f) c) ∧ gauge_of id (bound now id (λ h, update h f) c) = g (gauge_of id c).
Proof.
  intros Hwf Hf. destruct (bound_refines now id f c Hwf) as [Hw Hv]. split; [done|].
  unfold gauge_of. rewrite Hv. unfold spec_modify. rewrite lookup_insert_eq. simpl. rewrite Hf. f_equal.
  by destruct (view c !! TrimSpace id).
Qed.
Lemma gauge_traffic now id n c :
  collector_wf c →
  (collector_wf (AddUpload now id n c) ∧ gauge_of id (AddUpload now id n c) = gauge_of id c) ∧
  (collector_wf (AddDownload now id n c) ∧ gauge_of id (AddDownload now id n c) = gauge_of id c).
Proof.
  intros Hwf. unfold AddUpload, AddDownload, addUpload, addDownload. destruct (n <=? 0); [done|].
  split; by apply (gauge_bound now id _ (λ z, z)).
Qed.

Definition is_done (i : UInstr) : bool := match i with UDone => true | _ => false end.
Definition is_reset (i : UInstr) : bool := match i with UReset => true | _ => false end.
(** What an instruction still owes the gauge. *)
Definition weight (i : UInstr) : Z := match i with UFinish _ | UUncount => 1 | UCount _ => -1 | _ => 0 end.
Definition weigh (l : list UInstr) : Z := foldr (λ i z, weight i + z) 0 l.
Lemma weigh_app l1 l2 : weigh (l1 ++ l2) = weigh l1 + weigh l2.
Proof. induction l1 as [|i l1 IH]; simpl; [done|]. rewrite IH. lia. Qed.
Lemma weigh_perm l l' : l ≡ₚ l' → weigh l = weigh l'.
Proof. induction 1; simpl; lia. Qed.
Lemma weigh_zero l : Forall (λ i, weight i = 0) l → weigh l = 0.
Proof. induction 1; simpl; lia. Qed.

Record counts_ok (g0 : Z) (ul : udpRemoteListener) (l : list UInstr) : Prop := {
  co_wg : ul_wg ul = count_of is_done l;
  co_reset : (count_of is_reset l + Nat.b2n (ul_registered ul) ≤ 1)%nat;
  co_wf : collector_wf (ul_collector ul);
  co_gauge : ul_registered ul = true ∨ UReset ∈ l →
    gauge_of (u_id ul) (ul_collector ul) = wrap64 (g0 + Z.of_nat (size (ul_sessions ul)) + weigh l);
}.

(** A step keeps the counts when what it does to the gauge, the table and the
    wait group is what its instructions owe. *)
Lemma counts_step g0 ul ul' i new l :
  counts_ok g0 ul (i :: l) → i ≠ UReset → i ≠ UDone → Forall (λ j, is_reset j = false) new →
  ul_registered ul' = ul_registered ul → u_id ul' = u_id ul → (ul_wg ul' = ul_wg ul + count_of is_done new)%nat →
  (collector_wf (ul_collector ul) → collector_wf (ul_collector ul') ∧ ∃ d,
     (∀ z, gauge_of (u_id ul) (ul_collector ul) = wrap64 z → gauge_of (u_id ul) (ul_collector ul') = wrap64 (z + d)) ∧
     d = Z.of_nat (size (ul_sessions ul')) + weigh new - (Z.of_nat (size (ul_sessions ul)) + weight i)) →
  counts_ok g0 ul' (new ++ l).
Proof.
  intros [Hw Hr Hwf Hg] Hi1 Hi2 Hnew Hreg Hid Hwg Hc. destruct (Hc Hwf) as (Hwf' & d & Hgd & Hd).
  rewrite count_cons in Hw, Hr. assert (is_reset i = false ∧ is_done i = false) as [E1 E2] by (by destruct i).
  rewrite E2 in Hw. rewrite E1 in Hr. split.
  - rewrite count_app. lia.
  - rewrite count_app, (count_zero _ new), Hreg by done. exact Hr.
  - done.
  - rewrite Hreg, Hid. intros Hor. rewrite (Hgd (g0 + Z.of_nat (size (ul_sessions ul)) + weigh (i :: l))).
    + rewrite weigh_app. change (weigh (i :: l)) with (weight i + weigh l). f_equal. lia.
    + apply Hg. destruct Hor as [?|[Hin|?]%elem_of_app]; [by left| |right; by right].
      rewrite Forall_forall in Hnew. by apply Hnew in Hin.
Qed.

Lemma weigh_keys keys : weigh (UCloseSession <$> keys) = 0.
Proof. apply weigh_zero. induction keys; by constructor. Qed.
Lemma counts_keys keys : count_of is_done (UCloseSession <$> keys) = 0%nat.
Proof. apply count_zero. induction keys; by constructor. Qed.
Lemma reset_keys keys : Forall (λ j, is_reset j = false) (UCloseSession <$> keys).
Proof. induction keys; by constructor. Qed.

(** A step that does not touch the gauge. *)
Lemma counts_quiet g0 ul ul' i new l :
  counts_ok g0 ul (i :: l) → i ≠ UReset → i ≠ UDone → Forall (λ j, is_reset j = false) new →
  ul_registered ul' = ul_registered ul → u_id ul' = u_id ul → (ul_wg ul' = ul_wg ul + count_of is_done new)%nat →
  (collector_wf (ul_collector ul) → collector_wf (ul_collector ul') ∧
     gauge_of (u_id ul) (ul_collector ul') = gauge_of (u_id ul) (ul_collector ul)) →
  Z.of_nat (size (ul_sessions ul')) + weigh new = Z.of_nat (size (ul_sessions ul)) + weight i → counts_ok g0 ul' (new ++ l).
Proof.
  intros ? ? ? ? ? ? ? Hc ?. apply (counts_step g0 ul ul' i); try done. intros Hwf. destruct (Hc Hwf) as [? Heq].
  split; [done|]. exists 0. split; [|lia]. intros z Hz. by rewrite Heq, Z.add_0_r.
Qed.

Ltac quiet ul i := apply (counts_quiet _ ul _ i); [done|done|done|..];
  unfold go; rewrite ?app_nil_r, ?counts_keys, ?weigh_keys; try apply reset_keys; unfold count_of; simpl; try done; try lia; try by repeat constructor.

Lemma counts_exec g0 i a ul l new spawned ul' :
  sessions_ok ul (i :: l) → counts_ok g0 ul (i :: l) → uexec i a ul = Some (new, spawned, ul') →
  counts_ok g0 ul' ((new ++ mjoin spawned) ++ l).
Proof.
  intros Hs Hc He. destruct i; cbn [uexec] in He.
  - unfold getSession_udp in He. destruct (ul_sessions ul !! key); [|destruct (_ && _)]; injection He as <- <- <-;
      quiet ul (ULookup key n).
  - unfold openSession in He. destruct (ua_choice a); try done; injection He as <- <- <-; quiet ul (UOpen key n).
  - unfold insertSession in He. destruct (ul_sessions ul !! key) eqn:Hkey; injection He as <- <- <-; quiet ul (UInsert key c n).
    rewrite map_size_insert_None by done. lia.
  - injection He as <- <- <-. apply (counts_step _ ul _ (UCount s)); try done.
    intros Hwf. destruct (gauge_bound (ua_now a) (u_id ul) (λ k, set_conns (add64 (conns k) 1) (ua_now a) k) (λ z, add64 z 1) _ Hwf) as [? Hg]; [done|].
    split; [done|]. exists 1. split; [|simpl; lia]. intros z Hz. etrans; [exact Hg|]. unfold add64. rewrite Hz. apply wrap64_add_l.
  - injection He as <- <- <-. quiet ul (UStart s).
  - unfold writeDatagram, session_of in He. destruct (ul_made ul !! s); [|done]. destruct (ua_choice a); try done.
    + injection He as <- <- <-. quiet ul (UWrite s n).
    + case_bool_decide; [|done]. injection He as <- <- <-. quiet ul (UWrite s n). intros Hwf. by apply gauge_traffic.
  - unfold udpSessionReadLoop, session_of in He. destruct (ul_made ul !! s) as [x|] eqn:Hx; [|done].
    destruct (ua_choice a); try done; [injection He as <- <- <-; quiet ul (URead s)|].
    destruct (readUDPMessage msg) as [msg'|]; [|injection He as <- <- <-; quiet ul (URead s)].
    destruct (negb _); [injection He as <- <- <-; quiet ul (URead s)|].
    destruct (um_Payload msg'); injection He as <- <- <-; quiet ul (URead s). intros Hwf. by apply gauge_traffic.
  - unfold closeSession_udp in He. destruct (ul_sessions ul !! key) eqn:Hkey; injection He as <- <- <-; quiet ul (UCloseSession key).
    rewrite map_size_delete_Some by (by eexists).
    assert (size (ul_sessions ul) ≠ 0%nat) by (intros E%map_size_empty_inv; by rewrite E in Hkey). lia.
  - destruct (finishing_once _ _ _ Hs) as (x & Hx & Hd). unfold finishSession, session_of in He. rewrite Hx, Hd in He.
    injection He as <- <- <-. quiet ul (UFinish s).
  - injection He as <- <- <-. apply (counts_step _ ul _ UUncount); try done.
    intros Hwf. destruct (gauge_bound (ua_now a) (u_id ul) (λ k, set_conns (add64 (conns k) (-1)) (ua_now a) k) (λ z, add64 z (-1)) _ Hwf) as [? Hg]; [done|].
    split; [done|]. exists (-1). split; [|simpl; lia]. intros z Hz. etrans; [exact Hg|]. unfold add64. rewrite Hz. apply wrap64_add_l.
  - unfold readLoop in He. destruct (ua_choice a); try done; [destruct (ul_done ul)|destruct (ul_socket ul); [|done]];
      injection He as <- <- <-; quiet ul UReadLoop.
  - unfold cleanupLoop in He. destruct (ua_choice a); try done; [destruct (ul_done ul); [|done]|];
      injection He as <- <- <-; quiet ul UCleanupLoop.
  - injection He as <- <- <-. unfold closeIdleSessions. quiet ul (UCloseIdle now).
  - injection He as <- <- <-. destruct Hc as [Hw Hr Hwf Hg]. rewrite count_cons in Hw, Hr. simpl in *. split; simpl; try done; [by rewrite Hw|].
    intros Hor. etrans; [apply Hg|done]. destruct Hor; [by left|right; by right].
  - injection He as <- <- <-. quiet ul UCancel.
  - injection He as <- <- <-. quiet ul UCloseSocket.
  - injection He as <- <- <-. unfold closeAllSessions. quiet ul UCloseAll.
  - destruct (ul_wg ul =? 0)%nat; [|done]. injection He as <- <- <-. quiet ul UWait.
  - injection He as <- <- <-. destruct Hc as [Hw Hr Hwf _]. rewrite count_cons in Hw, Hr. simpl in Hw, Hr. split; simpl; try done; [lia| |].
    + by apply (gauge_bound (ua_now a) (u_id ul) _ (λ _, 0)).
    + intros [E|Hin]; exfalso.
      * rewrite E in Hr. simpl in Hr. lia.
      * assert (count_of is_reset l = 0%nat) as Hz by lia. by apply (proj1 (count_zero_iff _ _) Hz) in Hin.
Qed.

Lemma udp_invariant now spec c g0 s :
  collector_wf c → gauge_of (sp_TunnelID spec) c = wrap64 g0 →
  udp_reachable now spec c s → sessions_ok (uv_listener s) (uinstrs s) ∧ counts_ok g0 (uv_listener s) (uinstrs s).
Proof.
  intros Hwf Hg. apply (udp_preserved (λ ul l, sessions_ok ul l ∧ counts_ok g0 ul l)).
  - split.
    + intros ul l l' Hp [Hs [Hw Hr Hc Hgg]]. split; [by eapply sessions_perm|].
      split; [by rewrite <-(count_perm _ l l')|by rewrite <-(count_perm _ l l')|done|]. by rewrite <-(weigh_perm l l'), <-Hp.
    + intros ul l Hreg [Hs [Hw Hr Hc Hgg]]. split; [by apply (up_stop _ sessions_preserved)|].
      rewrite Hreg in Hr. simpl in Hr. split; [by rewrite count_app|rewrite count_app; unfold count_of in *; simpl; lia|done|].
      intros _. rewrite weigh_app. by apply Hgg; left.
    + intros ul l [Hs [Hw Hr Hc Hgg]]. split; [by apply (up_context _ sessions_preserved)|]. by split.
    + intros i a ul l new spawned ul' [Hs Hc] He. split; [by eapply (up_exec _ sessions_preserved)|by eapply counts_exec].
  - destruct (EnsureRule_refines now (sp_TunnelID spec) c Hwf) as [Hw Hv]. split.
    + split; simpl; try done. intros s'. rewrite !elem_of_cons, elem_of_nil. naive_solver.
    + split; simpl; [done|unfold count_of; simpl; lia|done|]. intros _. rewrite Z.add_0_r, Z.add_0_r. unfold u_id. simpl. rewrite <-Hg.
      unfold gauge_of. rewrite Hv. unfold spec_modify. rewrite lookup_insert_eq. by destruct (view c !! _).
Qed.

(** no data connection of a UDP tunnel is lost, and the gauge counts the
    sessions. In every interleaving an open data connection is held by the
    goroutine that is about to insert it or belongs to a session that is not
    done, and that session is in the table or a goroutine is about to finish it;
    and until the listener's count is reset at the stop, the connection gauge is
    what it was at the start, plus the sessions of the table, plus those removed
    and not yet taken off it, minus those inserted and not yet counted. *)
Theorem udp_connections_owned now spec c g0 s :
  collector_wf c → gauge_of (sp_TunnelID spec) c = wrap64 g0 → udp_reachable now spec c s →
  let ul := uv_listener s in
  (∀ d, ul_conns ul !! d = Some true →
     (∃ key n, UInsert key d n ∈ uinstrs s) ∨
     ∃ k x, ul_made ul !! k = Some x ∧ us_conn x = d ∧ (ul_sessions ul !! us_key x = Some k ∨ UFinish k ∈ uinstrs s)) ∧
  (ul_registered ul = true ∨ UReset ∈ uinstrs s →
     gauge_of (u_id ul) (ul_collector ul) = wrap64 (g0 + Z.of_nat (size (ul_sessions ul)) + weigh (uinstrs s))).
Proof.
  intros Hwf Hg Hreach ul. destruct (udp_invariant now spec c g0 s Hwf Hg Hreach) as [[Ht Ho Hk Hop Hr] [_ _ _ Hgauge]]. split; [|done].
  intros d [?|(k & x & Hx & Hc & Hd)]%Hop; [by left|]. right. exists k, x. split; [done|]. split; [done|].
  specialize (Ho k x Hx). fold ul in Ho. unfold in_table in Ho. case_bool_decide as Htab; [by left|]. right.
  rewrite Hd in Ho. simpl in Ho. destruct (count_pos (finishing k) (uinstrs s)) as (i & Hi & Hf); [lia|].
  destruct i; try done. simpl in Hf. apply bool_decide_eq_true in Hf as <-. done.
Qed.

(** ** Stopping *)

Definition working (i : UInstr) : bool :=
  match i with UDone | UCancel | UCloseSocket | UCloseAll | UWait | UReset => false | _ => true end.
Definition closing (i : UInstr) : bool := match i with UCloseSession _ | UFinish _ | UUncount => true | _ => false end.

(** A goroutine of the wait group ends with [UDone]; the one that stops the
    listener has a rest of the stop before it, after the sessions it closes. *)
Inductive shape : list UInstr → Prop :=
| shape_over : shape []
| shape_worker w : Forall (λ i, working i = true) w → shape (w ++ [UDone])
| shape_stop w k : Forall (λ i, closing i = true) w → (k < 5)%nat → k = 3%nat ∨ w = [] → shape (w ++ drop k stop_thread).

Lemma shape_uncons i rest :
  shape (i :: rest) →
  (i = UDone ∧ rest = []) ∨ (working i = true ∧ ∃ w, rest = w ++ [UDone] ∧ Forall (λ i, working i = true) w) ∨
  (closing i = true ∧ ∃ w, rest = w ++ drop 3 stop_thread ∧ Forall (λ i, closing i = true) w) ∨
  (∃ k, (k < 5)%nat ∧ stop_thread !! k = Some i ∧ rest = drop (S k) stop_thread).
Proof.
  intros H. inversion H as [|w Hw E|w k Hw Hk Hor E].
  - destruct w as [|j w]; simpl in E; injection E as <- <-; [by left|]. apply Forall_cons in Hw as [? ?]. right. left.
    split; [done|]. by exists w.
  - right. right. destruct w as [|j w]; simpl in E.
    + right. exists k. split; [done|]. do 5 (destruct k as [|k]; [by injection E as <- <-|]). lia.
    + left. injection E as <- <-. apply Forall_cons in Hw as [? ?]. split; [done|]. exists w. split; [|done].
      destruct Hor as [-> | ?]; done.
Qed.

Lemma closing_next i a ul new spawned ul' :
  closing i = true → uexec i a ul = Some (new, spawned, ul') → Forall (λ i, closing i = true) new ∧ spawned = [].
Proof.
  intros Hi He. destruct i; try discriminate Hi; cbn [uexec] in He.
  - unfold closeSession_udp in He. destruct (ul_sessions ul !! key); injection He as <- <- <-; by repeat constructor.
  - unfold finishSession, session_of in He. destruct (ul_made ul !! s) as [x|]; [destruct (us_done x)|]; injection He as <- <- <-; by repeat constructor.
  - injection He as <- <- <-. by repeat constructor.
Qed.

Lemma working_next i a ul new spawned ul' :
  working i = true → uexec i a ul = Some (new, spawned, ul') → Forall (λ i, working i = true) new ∧ Forall shape spawned.
Proof.
  assert (∀ w, Forall (λ i, working i = true) w → Forall shape [w ++ [UDone]]) as Hsp.
  { intros w Hw. constructor; [by apply shape_worker|constructor]. }
  intros Hi He. destruct (closing i) eqn:Hcl.
  { destruct (closing_next _ _ _ _ _ _ Hcl He) as [Hall ->]. split; [|constructor]. eapply Forall_impl; [exact Hall|]. by intros []. }
  destruct i; try discriminate Hi; try discriminate Hcl; cbn [uexec] in He.
  - unfold getSession_udp in He. destruct (ul_sessions ul !! key); [|destruct (_ && _)]; injection He as <- <- <-; by repeat constructor.
  - unfold openSession in He. destruct (ua_choice a); try done; injection He as <- <- <-; by repeat constructor.
  - unfold insertSession in He. destruct (ul_sessions ul !! key); injection He as <- <- <-; by repeat constructor.
  - injection He as <- <- <-. by repeat constructor.
  - injection He as <- <- <-. split; [constructor|]. apply (Hsp [URead s]). by repeat constructor.
  - unfold writeDatagram, session_of in He. destruct (ul_made ul !! s); [|done]. destruct (ua_choice a); try done.
    + injection He as <- <- <-. by repeat constructor.
    + case_bool_decide; [|done]. injection He as <- <- <-. by repeat constructor.
  - unfold udpSessionReadLoop, session_of in He. destruct (ul_made ul !! s) as [x|]; [|done].
    destruct (ua_choice a); try done; [injection He as <- <- <-; by repeat constructor|].
    destruct (readUDPMessage msg) as [msg'|]; [destruct (negb _); [|destruct (um_Payload msg')]|]; injection He as <- <- <-; by repeat constructor.
  - unfold readLoop in He. destruct (ua_choice a); try done; [destruct (ul_done ul)|destruct (ul_socket ul); [|done]];
      injection He as <- <- <-; (split; [by repeat constructor|]); try constructor.
    + apply (shape_worker [ULookup key n]). by repeat constructor.
    + constructor.
  - unfold cleanupLoop in He. destruct (ua_choice a); try done; [destruct (ul_done ul); [|done]|];
      injection He as <- <- <-; by repeat constructor.
  - injection He as <- <- <-. split; [|constructor]. unfold closeIdleSessions. apply Forall_fmap, Forall_forall. done.
Qed.

Lemma shape_next i rest a ul new spawned ul' :
  shape (i :: rest) → uexec i a ul = Some (new, spawned, ul') → shape (new ++ rest) ∧ Forall shape spawned.
Proof.
  intros [[-> ->]|[(Hi & w & -> & Hw)|[(Hi & w & -> & Hw)|(k & Hk & Hki & ->)]]]%shape_uncons He.
  - injection He as <- <- <-. split; constructor.
  - destruct (working_next _ _ _ _ _ _ Hi He) as [? ?]. split; [|done]. rewrite app_assoc. apply shape_worker. by apply Forall_app.
  - destruct (closing_next _ _ _ _ _ _ Hi He) as [? ->]. split; [|constructor]. rewrite app_assoc. apply shape_stop; [by apply Forall_app|lia|by left].
  - destruct k as [|[|[|[|[|k]]]]]; [..|lia]; simpl in Hki; injection Hki as <-; cbn [uexec] in He.
    + injection He as <- <- <-. split; [|constructor]. apply (shape_stop [] 1); [constructor|lia|by right].
    + injection He as <- <- <-. split; [|constructor]. apply (shape_stop [] 2); [constructor|lia|by right].
    + injection He as <- <- <-. split; [|constructor]. apply (shape_stop _ 3); [|lia|by left].
      unfold closeAllSessions. apply Forall_fmap, Forall_forall. done.
    + destruct (ul_wg ul =? 0)%nat; [|done]. injection He as <- <- <-. split; [|constructor]. apply (shape_stop [] 4); [constructor|lia|by right].
    + injection He as <- <- <-. split; [|constructor]. constructor.
Qed.

Lemma shapes_reachable now spec c s : udp_reachable now spec c s → Forall shape (uv_threads s).
Proof.
  induction 1 as [|e s s' _ IH Hstep]; simpl.
  - repeat constructor; [by apply (shape_worker [UReadLoop]); repeat constructor|by apply (shape_worker [UCleanupLoop]); repeat constructor].
  - destruct e as [| |k a]; simpl in Hstep.
    + destruct (ul_registered _); [|done]. injection Hstep as <-. simpl. apply Forall_app. split; [done|].
      constructor; [|constructor]. apply (shape_stop [] 0); [constructor|lia|by right].
    + by injection Hstep as <-.
    + destruct (uv_threads s !! k) as [[|i rest]|] eqn:Hk; [done| |done].
      destruct (uexec i a (uv_listener s)) as [[[new spawned] ul']|] eqn:He; [|done]. injection Hstep as <-. simpl.
      assert (shape (i :: rest)) as Hsh by (eapply Forall_lookup_1; [exact IH|exact Hk]).
      destruct (shape_next _ _ _ _ _ _ _ Hsh He) as [? ?]. apply Forall_app. split; [|done]. by apply Forall_insert.
Qed.

(** At the end of the wait the goroutine that stops the listener is alone. *)
Lemma udp_alone now spec c g0 s k rest :
  udp_reachable now spec c s → counts_ok g0 (uv_listener s) (uinstrs s) →
  uv_threads s !! k = Some (UWait :: rest) → ul_wg (uv_listener s) = 0%nat →
  rest = [UReset] ∧ ∀ j t, uv_threads s !! j = Some t → j ≠ k → t = [].
Proof.
  intros Hreach [Hw Hres _ _] Hk E. pose proof (shapes_reachable now spec c s Hreach) as Hshape. rewrite Forall_lookup in Hshape.
  assert (rest = [UReset]) as ->.
  { destruct (shape_uncons _ _ (Hshape _ _ Hk)) as [[? _]|[[? _]|[[? _]|(m & Hm & Hmi & ->)]]]; try done.
    by destruct m as [|[|[|[|[|m]]]]]; [..|lia]. }
  split; [done|]. intros j t Hj Hne.
  pose proof (count_two is_done _ _ _ _ _ Hj Hk Hne) as Hd. pose proof (count_two is_reset _ _ _ _ _ Hj Hk Hne) as Hr.
  unfold uinstrs in *. destruct (Hshape _ _ Hj) as [|w Hww|w m Hww Hm Hor]; [done| |]; exfalso; rewrite count_app in Hd, Hr.
  - unfold count_of in *. simpl in *. lia.
  - assert (1 ≤ count_of is_reset (drop m stop_thread))%nat by (destruct m as [|[|[|[|[|m]]]]]; unfold count_of; simpl; lia).
    unfold count_of in *. simpl in *. lia.
Qed.

(** a stopped UDP listener has left nothing behind. When the stop gets past
    its wait, every other goroutine of the listener is over, no session is in the
    table, every session is done and no data connection is open; the stop ends
    with the gauge at zero. *)
Theorem udp_stop_leaves_nothing now spec c g0 s k rest a s' :
  collector_wf c → gauge_of (sp_TunnelID spec) c = wrap64 g0 → udp_reachable now spec c s →
  uv_threads s !! k = Some (UWait :: rest) → udp_step (URun k a) s = Some s' →
  uinstrs s' = [UReset] ∧ ul_sessions (uv_listener s') = ∅ ∧
  (∀ d, ul_conns (uv_listener s') !! d ≠ Some true) ∧
  (∀ j x, ul_made (uv_listener s') !! j = Some x → us_done x = true) ∧
  ∀ b s'', udp_step (URun k b) s' = Some s'' → uinstrs s'' = [] ∧ gauge_of (u_id (uv_listener s'')) (ul_collector (uv_listener s'')) = 0.
Proof.
  intros Hwf Hg Hreach Hk Hstep. destruct (udp_invariant now spec c g0 s Hwf Hg Hreach) as [[Ht Ho Hkn Hop Hr] Hcounts].
  simpl in Hstep. rewrite Hk in Hstep. cbn [uexec] in Hstep. destruct (Nat.eqb_spec (ul_wg (uv_listener s)) 0) as [E|]; [|done].
  injection Hstep as <-. destruct (udp_alone now spec c g0 s k rest Hreach Hcounts Hk E) as [-> Halone].
  assert (uinstrs s = [UWait; UReset]) as Hinstrs by (by apply (join_only _ k)).
  assert (∀ t, mjoin (<[k := t]> (uv_threads s)) = t) as Hjoin.
  { intros t. apply (join_only _ k); [apply list_lookup_insert_eq; by eapply lookup_lt_Some|].
    intros j t' Hj Hne. rewrite list_lookup_insert_ne in Hj by done. by eapply Halone. }
  rewrite Hinstrs in Ho, Hop, Hr. simpl. unfold uinstrs. simpl. rewrite app_nil_r, Hjoin.
  assert (ul_sessions (uv_listener s) = ∅) as Htab.
  { apply map_empty. intros key. apply eq_None_not_Some. intros [j Hj]. destruct (Hr key j Hj) as [H|[H|H]];
      rewrite !elem_of_cons, elem_of_nil in H; naive_solver. }
  assert (∀ j x, ul_made (uv_listener s) !! j = Some x → us_done x = true) as Hdone.
  { intros j x Hx. specialize (Ho j x Hx). unfold in_table in Ho. rewrite Htab, lookup_empty, bool_decide_eq_false_2 in Ho by done.
    unfold count_of in Ho. simpl in Ho. by destruct (us_done x). }
  split_and!; try done.
  - intros d [(key & n & H)|(j & x & Hx & _ & Hd)]%Hop; [rewrite !elem_of_cons, elem_of_nil in H; naive_solver|].
    rewrite (Hdone j x Hx) in Hd. done.
  - intros b s''. rewrite list_lookup_insert_eq by (by eapply lookup_lt_Some). cbn [uexec]. intros H. simpl in H. injection H as <-. simpl.
    rewrite app_nil_r, list_insert_insert_eq, Hjoin. split; [done|]. destruct Hcounts as [_ _ Hcw _].
    by apply (gauge_bound (ua_now b) (u_id (uv_listener s)) _ (λ _, 0)).
Qed.

(** ** Concrete runs *)

Definition udp_tunnel : TunnelSpec := normalizeTunnelSpec {|
  sp_TunnelID := "dns"; sp_Protocol := "udp"; sp_RemoteListenAddr := ""; sp_RemoteListenPort := 5300;
  sp_LocalAddr := ""; sp_LocalPort := 53; sp_MaxConn := 1; sp_SpeedLimit := 0; sp_Remark := "" |}.
Definition u_after (events : list UEvent) : UState :=
  let start := startUDPRemoteListener 0 udp_tunnel NewCollector in default start (udp_events events start).

Lemma u_after_reachable events : udp_reachable 0 udp_tunnel NewCollector (u_after events).
Proof.
  unfold u_after. set (start := startUDPRemoteListener 0 udp_tunnel NewCollector).
  assert (∀ s s', udp_reachable 0 udp_tunnel NewCollector s → udp_events events s = Some s' →
    udp_reachable 0 udp_tunnel NewCollector s') as Hrun.
  { induction events as [|e events IH]; simpl; intros s s' Hs H; [by injection H as <-|].
    destruct (udp_step e s) as [s1|] eqn:He; [|done]. apply (IH s1); [|done]. by eapply udp_next. }
  destruct (udp_events events start) as [s|] eqn:Hs; simpl; [|apply udp_start]. eapply Hrun; [apply udp_start|exact Hs].
Qed.

Definition does (k : nat) (choices : list UChoice) : list UEvent := (λ ch, URun k {| ua_now := 0; ua_choice := ch |}) <$> choices.
(** Goroutine [k] serves its datagram over a new session. *)
Definition serves (k : nat) : list UEvent := does k [Nothing; Opened; Nothing; Nothing; Nothing; Written; Nothing].
Definition stopped (k : nat) : list UEvent :=
  [StopUDP_] ++ does k (replicate 6 Nothing) ++ does 3 (replicate 3 Nothing) ++ does 0 [Nothing; Nothing] ++ does 1 [Nothing; Nothing].

Lemma no_gauge : gauge_of (sp_TunnelID udp_tunnel) NewCollector = wrap64 0.
Proof. vm_compute. reflexivity. Qed.

Lemma udp_connections_owned_witness :
  let s := u_after (does 0 [Datagram "a" 4] ++ serves 2) in
  gauge_of (u_id (uv_listener s)) (ul_collector (uv_listener s)) = 1 ∧ ul_conns (uv_listener s) = [true].
Proof.
  intros s. destruct (udp_connections_owned 0 udp_tunnel NewCollector 0 s NewCollector_wf no_gauge (u_after_reachable _)) as [_ Hg].
  split; [|vm_compute; reflexivity]. etrans; [apply Hg; left; vm_compute; reflexivity|]. vm_compute. reflexivity.
Defined.

Lemma udp_stop_leaves_nothing_witness :
  let s := u_after (does 0 [Datagram "a" 4] ++ serves 2 ++ stopped 4) in
  ∃ s', udp_step (URun 4 {| ua_now := 0; ua_choice := Nothing |}) s = Some s' ∧ ul_sessions (uv_listener s') = ∅ ∧ uinstrs s' = [UReset].
Proof.
  intros s. destruct (udp_step (URun 4 {| ua_now := 0; ua_choice := Nothing |}) s) as [s'|] eqn:Hs'; [|vm_compute in Hs'; discriminate].
  exists s'. split; [reflexivity|].
  destruct (udp_stop_leaves_nothing 0 udp_tunnel NewCollector 0 s 4 [UReset] {| ua_now := 0; ua_choice := Nothing |} s'
    NewCollector_wf no_gauge (u_after_reachable _) ltac:(vm_compute; reflexivity) Hs') as (? & ? & _). split; assumption.
Defined.

(** ** Interleavings the listener does not guard against *)

(** the reader of an old session closes the new session of its address. A
    session is closed by its key: once an idle session is cleaned up and a
    datagram has opened another for the same address, the old reader, whose
    connection was closed, closes the new one, which nothing was wrong with. *)
Theorem stale_reader_closes_successor : ∃ s s',
  udp_reachable 0 udp_tunnel NewCollector s ∧ (us_done <$> ul_made (uv_listener s)) = [true; false] ∧
  ul_sessions (uv_listener s) !! "a" = Some 1%nat ∧ ul_conns (uv_listener s) !! 1%nat = Some true ∧
  uv_threads s !! 3%nat = Some [URead 0; UDone] ∧ uv_threads s !! 5%nat = Some [URead 1; UDone] ∧
  udp_events (does 3 [Nothing; Nothing; Nothing]) s = Some s' ∧
  ul_sessions (uv_listener s') !! "a" = None ∧ ul_conns (uv_listener s') !! 1%nat = Some false ∧
  uv_threads s' !! 5%nat = Some [URead 1; UDone].
Proof.
  eexists (u_after (does 0 [Datagram "a" 4] ++ serves 2 ++ [URun 1 {| ua_now := 61 * second; ua_choice := Tick |}] ++
    does 1 [Nothing; Nothing; Nothing; Nothing] ++ does 0 [Datagram "a" 4] ++ serves 4)), _.
  split; [apply u_after_reachable|]. do 5 (split; [vm_compute; reflexivity|]). split; [vm_compute; reflexivity|]. by split_and!.
Qed.

(** [max_conn] does not bound the sessions of a burst. Two addresses whose
    datagrams arrive before either session is inserted both get one, on a
    listener for one session. *)
Theorem udp_burst_exceeds_max_conn : ∃ s,
  udp_reachable 0 udp_tunnel NewCollector s ∧ sp_MaxConn (ul_spec (uv_listener s)) = 1 ∧ size (ul_sessions (uv_listener s)) = 2%nat.
Proof.
  exists (u_after (does 0 [Datagram "a" 4; Datagram "b" 4] ++ does 2 [Nothing] ++ does 3 [Nothing] ++
    does 2 [Opened; Nothing] ++ does 3 [Opened; Nothing])).
  split; [apply u_after_reachable|]. by split; vm_compute.
Qed.

(** a stop can wait for a session it did not see. A session inserted after
    the stop closed the sessions of the table keeps the stop waiting: it is
    open, every loop of the listener is over, and the stop moves only when its
    reader ends. *)
Theorem stop_waits_for_late_session : ∃ s,
  udp_reachable 0 udp_tunnel NewCollector s ∧ ul_conns (uv_listener s) = [true] ∧
  ul_sessions (uv_listener s) !! "a" = Some 0%nat ∧
  uv_threads s = [[]; []; []; [UWait; UReset]; [URead 0; UDone]] ∧ ∀ b, udp_step (URun 3 b) s = None.
Proof.
  eexists (u_after (does 0 [Datagram "a" 4] ++ does 2 [Nothing; Opened] ++ [StopUDP_] ++ does 3 [Nothing; Nothing; Nothing] ++
    does 2 [Nothing; Nothing; Nothing; Written; Nothing] ++ does 0 [Nothing; Nothing] ++ does 1 [Nothing; Nothing])).
  split; [apply u_after_reachable|]. do 3 (split; [vm_compute; reflexivity|]). intros b. vm_compute. reflexivity.
Qed.
