(* ===== verification/StatsStore.v ===== *)
(** * Saved counters and quota state (internal/statsstore, cmd/vmflow/main.go)

    The two state files of the daemon.  A save is the same sequence of system
    calls for both: a temporary file is written, synced, closed and renamed over
    the old one, and the directory is synced.  Here it is a machine that makes
    one call at a time, so that a crash can fall between any two; a file system
    keeps, besides what a reader sees, what the entry may be after a crash.  The
    content of a file is the document it decodes to, or unreadable.  The paths
    (path/filepath), a store without a path, which does nothing, and the Windows
    variant of the replacement are left out. *)

From S2P Require Import Prelude GoStrings Duration Calendar SourceIP Limits Rule Stats Quota.

(** ** Files and crashes *)

Section files.
Context {D : Type}.

Inductive Content := Doc (d : D) | Garbled.
Record StateFile := { sf_content : Content; sf_synced : bool }.

(** [dr_entry]: the file at the path; [dr_crash]: what a crash may leave there;
    [dr_temp]: the temporary file of the save under way. *)
Record Directory := { dr_entry : option StateFile; dr_crash : list (option StateFile); dr_temp : option StateFile }.

(** What the path may hold when the machine comes up again: the data of a file
    that was not synced may be anything. *)
Definition crashed (d : Directory) (content : option Content) : Prop :=
  ∃ e, e ∈ dr_crash d ∧ match e with
                         | None => content = None
                         | Some f => ∃ c, content = Some c ∧ (sf_synced f = true → c = sf_content f)
                         end.
(** The directory after the crash. *)
Definition recovered (content : option Content) : Directory :=
  let e := (λ c, {| sf_content := c; sf_synced := true |}) <$> content in
  {| dr_entry := e; dr_crash := [e]; dr_temp := None |}.

(** ** [Save] and [SaveQuotaState] *)

Inductive SaveError := MkdirFailed | CreateFailed | WriteFailed | SyncFailed | CloseFailed | ReplaceFailed | SyncDirFailed.
Inductive SavePhase :=
| SvMkdir
| SvCreate
| SvWrite
| SvSync
| SvClose
| SvReplace
| SvRemove (e : SaveError)             (* [cleanup], or [os.Remove] alone *)
| SvSyncDir
| SvDone (e : option SaveError).

(** The next call; [ok]: it succeeds. *)
Definition save_step (doc : D) (ok : bool) (s : SavePhase * Directory) : SavePhase * Directory :=
  let '(phase, d) := s in
  let temp t := {| dr_entry := dr_entry d; dr_crash := dr_crash d; dr_temp := t |} in
  match phase with
  | SvMkdir => (if ok then SvCreate else SvDone (Some MkdirFailed), d)
  | SvCreate =>
      if ok then (SvWrite, temp (Some {| sf_content := Garbled; sf_synced := false |})) else (SvDone (Some CreateFailed), d)
  | SvWrite =>
      if ok then (SvSync, temp (Some {| sf_content := Doc doc; sf_synced := false |})) else (SvRemove WriteFailed, d)
  | SvSync =>
      if ok then (SvClose, temp ((λ f, {| sf_content := sf_content f; sf_synced := true |}) <$> dr_temp d))
      else (SvRemove SyncFailed, d)
  | SvClose => (if ok then SvReplace else SvRemove CloseFailed, d)
  | SvReplace =>
      if ok then (SvSyncDir, {| dr_entry := dr_temp d; dr_crash := dr_temp d :: dr_crash d; dr_temp := None |})
      else (SvRemove ReplaceFailed, d)
  | SvRemove e => (SvDone (Some e), if ok then temp None else d)
  | SvSyncDir =>
      if ok then (SvDone None, {| dr_entry := dr_entry d; dr_crash := [dr_entry d]; dr_temp := dr_temp d |})
      else (SvDone (Some SyncDirFailed), d)
  | SvDone e => (SvDone e, d)
  end.
(** The calls of one save with their outcomes; fewer than eight may be a crash. *)
Definition save_calls (doc : D) (oks : list bool) (d : Directory) : SavePhase * Directory :=
  foldl (λ s ok, save_step doc ok s) (SvMkdir, d) oks.
End files.
Arguments Content : clear implicits.
Arguments StateFile : clear implicits.
Arguments Directory : clear implicits.

(** ** Reading *)

Inductive LoadError := ReadFailed | ParseFailed | UnsupportedVersion (v : Z).

(** [read]: [os.ReadFile] meets no error other than a missing file. *)
Definition load_file {D R} (version : D → Z) (rules : D → list R) (current : Z) (read : bool) (entry : option (Content D))
    : result LoadError (list R) :=
  if negb read then Err ReadFailed
  else match entry with
  | None => Ok []
  | Some Garbled => Err ParseFailed
  | Some (Doc d) => check (negb (version d =? current)) (UnsupportedVersion (version d)) ≫= λ _, Ok (rules d)
  end.

(** ** The counters (statsstore.go) *)

Definition documentVersion : Z := 1.
Record record := {
  rc_RuleID : string; rc_UploadBytes : Z; rc_DownloadBytes : Z; rc_SourceIPDenied : Z; rc_UDPSessionRejected : Z;
  rc_UDPPacketsDropped : Z; rc_QuotaRejectedBytes : Z
}.
Record document := { dc_Version : Z; dc_UpdatedAt : Z; dc_Rules : list record }.

Definition toRecords (snapshots : list TrafficSnapshot) : list record :=
  (λ s, {| rc_RuleID := s_RuleID s; rc_UploadBytes := s_UploadBytes s; rc_DownloadBytes := s_DownloadBytes s;
           rc_SourceIPDenied := s_SourceIPDenied s; rc_UDPSessionRejected := s_UDPSessionRejected s;
           rc_UDPPacketsDropped := s_UDPPacketsDropped s; rc_QuotaRejectedBytes := s_QuotaRejectedBytes s |}) <$> snapshots.
Definition fromRecords (records : list record) : list TrafficSnapshot :=
  (λ r, {| s_RuleID := rc_RuleID r; s_UploadBytes := rc_UploadBytes r; s_DownloadBytes := rc_DownloadBytes r; s_Conns := 0;
           s_SourceIPDenied := rc_SourceIPDenied r; s_UDPSessionRejected := rc_UDPSessionRejected r;
           s_UDPPacketsDropped := rc_UDPPacketsDropped r; s_QuotaRejectedBytes := rc_QuotaRejectedBytes r;
           s_UpdatedTime := 0 |}) <$> records.
Definition stats_document (now : Z) (snapshots : list TrafficSnapshot) : document :=
  {| dc_Version := documentVersion; dc_UpdatedAt := now; dc_Rules := toRecords snapshots |}.

Definition Load (read : bool) (entry : option (Content document)) : result LoadError (list TrafficSnapshot) :=
  fromRecords <$> load_file dc_Version dc_Rules documentVersion read entry.

(** ** The quota state (quota.go) *)

Definition quotaDocumentVersion : Z := 1.
Record quotaDocument := { qd_Version : Z; qd_UpdatedAt : Z; qd_Rules : list QuotaPersistentState }.
Definition quota_document (now : Z) (records : list QuotaPersistentState) : quotaDocument :=
  {| qd_Version := quotaDocumentVersion; qd_UpdatedAt := now; qd_Rules := records |}.
Definition LoadQuotaState (read : bool) (entry : option (Content quotaDocument)) : result LoadError (list QuotaPersistentState) :=
  load_file qd_Version qd_Rules quotaDocumentVersion read entry.

(** ** The daemon's use of the counters (cmd/vmflow/main.go) *)

Definition configured_ids (rules : list Rule) : gset string :=
  list_to_set (filter (λ id, id ≠ "") ((λ rule, TrimSpace (RuleID rule)) <$> rules)).
Definition configuredStats (snapshots : list TrafficSnapshot) (rules : list Rule) : list TrafficSnapshot * nat :=
  let known s := bool_decide (TrimSpace (s_RuleID s) ∈ configured_ids rules) in
  (filter (λ s, known s = true) snapshots, length (filter (λ s, known s = false) snapshots)).

(** The start of [runServe]: the collector the manager is given. *)
Definition start_collector (now : Z) (read : bool) (entry : option (Content document)) (rules : list Rule) : Collector :=
  match Load read entry with
  | Err _ => NewCollector
  | Ok snapshots => Restore now (configuredStats snapshots rules).1 NewCollector
  end.

(** [statsFlushInterval]. *)
Definition statsFlushInterval (value : string) : Z :=
  let s := TrimSpace value in
  if bool_decide (s = "") then 60 * second
  else match ParseDuration s with
  | Some d => if second <=? d then d else 60 * second
  | None => 60 * second
  end.

(** The collector and the file while the daemon runs: traffic changes the
    counters, the flusher and the shutdown save them, and a save can be cut off
    anywhere. *)
Record StatsDaemon := { sd_collector : Collector; sd_dir : Directory document }.
Inductive StatsEvent :=
| Count (now : Z) (op : CollectorOp)
| Flush (now : Z) (oks : list bool).
Definition stats_step (s : StatsDaemon) (e : StatsEvent) : StatsDaemon :=
  match e with
  | Count now op => {| sd_collector := collector_step now op (sd_collector s); sd_dir := sd_dir s |}
  | Flush now oks =>
      {| sd_collector := sd_collector s;
         sd_dir := (save_calls (stats_document now (SnapshotAll (sd_collector s))) oks (sd_dir s)).2 |}
  end.
Definition stats_run (events : list StatsEvent) (s : StatsDaemon) : StatsDaemon := foldl stats_step s events.
