(* ===== verification/StatsStoreSpec.v ===== *)
(** * What the state files keep

    A save is atomic at every crash point, the counters come back from the file
    as they were saved, and a crash loses at most what was counted since the
    last save that succeeded. *)

From S2P Require Import Prelude GoStrings Duration Calendar SourceIP Limits Rule Stats Quota StatsStore.

(** ** One save *)

Section save.
Context {D : Type}.
Implicit Types d : Directory D.

(** Whatever a crash may leave at the path has been synced. *)
Record dir_ok d : Prop := {
  dk_synced e f : e ∈ dr_crash d → e = Some f → sf_synced f = true;
  dk_entry : dr_entry d ∈ dr_crash d;
}.

Definition saved (doc : D) : option (StateFile D) := Some {| sf_content := Doc doc; sf_synced := true |}.
Definition untouched d d' : Prop := dr_entry d' = dr_entry d ∧ dr_crash d' = dr_crash d.

(** Where a save has got. *)
Definition save_inv (doc : D) d (phase : SavePhase) d' : Prop :=
  match phase with
  | SvMkdir | SvCreate | SvWrite => untouched d d'
  | SvSync => untouched d d' ∧ ∃ b, dr_temp d' = Some {| sf_content := Doc doc; sf_synced := b |}
  | SvClose | SvReplace => untouched d d' ∧ dr_temp d' = saved doc
  | SvRemove e => untouched d d' ∧ e ≠ SyncDirFailed
  | SvSyncDir => dr_entry d' = saved doc ∧ dr_crash d' = saved doc :: dr_crash d
  | SvDone None => dr_entry d' = saved doc ∧ dr_crash d' = [saved doc]
  | SvDone (Some SyncDirFailed) => dr_entry d' = saved doc ∧ dr_crash d' = saved doc :: dr_crash d
  | SvDone (Some _) => untouched d d'
  end.

Lemma save_step_inv doc d ok phase d' :
  save_inv doc d phase d' → let '(phase', d'') := save_step doc ok (phase, d') in save_inv doc d phase' d''.
Proof.
  destruct phase as [| | | | | |e| |e]; simpl; try (destruct ok; simpl; unfold untouched; naive_solver).
  - intros [Hu [b Ht]]. destruct ok; simpl; [|by split]. split; [done|]. by rewrite Ht.
  - intros [[He Hc] Ht]. destruct ok; simpl; [|by split]. by rewrite Ht, Hc.
  - intros [Hu Hne]. destruct ok, e; simpl; done.
  - intros [He Hc]. destruct ok; simpl; [|done]. by rewrite He.
Qed.

Lemma save_calls_inv doc oks d : let '(phase, d') := save_calls doc oks d in save_inv doc d phase d'.
Proof.
  unfold save_calls. assert (save_inv doc d SvMkdir d) as H by done. revert H. generalize SvMkdir, d at 2 3.
  induction oks as [|ok oks IH]; intros phase d' H; [done|]. cbn [foldl].
  pose proof (save_step_inv doc d ok phase d' H) as Hstep. destruct (save_step doc ok (phase, d')) as [p d'']. by apply IH.
Qed.

(** How many calls a save has left at most. *)
Definition calls_left (phase : @SavePhase) : nat :=
  match phase with
  | SvMkdir => 7 | SvCreate => 6 | SvWrite => 5 | SvSync => 4 | SvClose => 3 | SvReplace => 2 | SvRemove _ | SvSyncDir => 1
  | SvDone _ => 0
  end.
Lemma save_ends doc oks phase d :
  (calls_left phase ≤ length oks)%nat → ∃ e, (foldl (λ s ok, save_step doc ok s) (phase, d) oks).1 = SvDone e.
Proof.
  revert phase d. induction oks as [|ok oks IH]; intros phase d Hlen; simpl in *.
  - destruct phase; simpl in Hlen; try lia. by eexists.
  - change (∃ e, (foldl (λ s ok, save_step doc ok s) (save_step doc ok (phase, d)) oks).1 = SvDone e).
    destruct (save_step doc ok (phase, d)) as [p d'] eqn:Hs. apply IH.
    destruct phase, ok; simpl in *; injection Hs as <- <-; simpl; lia.
Qed.

(** All seven calls succeed. *)
Definition succeeds (oks : list bool) : bool := bool_decide (take 7 oks = replicate 7 true).
Lemma done_stays doc oks e d : foldl (λ s ok, save_step doc ok s) (SvDone e, d) oks = (SvDone e, d).
Proof. by induction oks. Qed.
Lemma succeeds_done doc oks d : succeeds oks = true → (save_calls doc oks d).1 = SvDone None.
Proof.
  unfold succeeds. rewrite bool_decide_eq_true. intros H. unfold save_calls.
  do 7 (destruct oks as [|[] oks]; try discriminate H). simpl. by rewrite done_stays.
Qed.

Lemma crashed_extend doc d content : dr_entry d ∈ dr_crash d →
  (∃ e, e ∈ saved doc :: dr_crash d ∧ match e with
     | None => content = None | Some f => ∃ c, content = Some c ∧ (sf_synced f = true → c = sf_content f) end) →
  crashed d content ∨ content = Some (Doc doc).
Proof.
  intros _ (e & [->|He]%elem_of_cons & H); [right|left; by exists e].
  destruct H as (c & -> & Hc). by rewrite Hc.
Qed.

Lemma crashed_one doc content :
  crashed {| dr_entry := saved doc; dr_crash := [saved doc]; dr_temp := None |} content ↔ content = Some (Doc doc).
Proof.
  split.
  - intros (e & He%list_elem_of_singleton & H). simpl in *. subst e. destruct H as (c & -> & Hc). by rewrite Hc.
  - intros ->. exists (saved doc). split; [by left|]. by exists (Doc doc).
Qed.

Lemma crashed_same d d' content : dr_crash d' = dr_crash d → crashed d' content ↔ crashed d content.
Proof. unfold crashed. by intros ->. Qed.

(** What the invariant of a save says about a crash in it. *)
Lemma save_inv_crash doc d phase d' :
  dir_ok d → save_inv doc d phase d' →
  dir_ok d' ∧ (∀ content, crashed d' content → crashed d content ∨ content = Some (Doc doc)).
Proof.
  intros [Hs He] H.
  assert (untouched d d' → dir_ok d' ∧ ∀ content, crashed d' content → crashed d content ∨ content = Some (Doc doc)) as Hsame.
  { intros [E1 E2]. split; [split; rewrite E2; [done|by rewrite E1]|]. intros content. rewrite (crashed_same d d') by done. by left. }
  assert (dr_entry d' = saved doc ∧ dr_crash d' = saved doc :: dr_crash d →
    dir_ok d' ∧ ∀ content, crashed d' content → crashed d content ∨ content = Some (Doc doc)) as Hboth.
  { intros [E1 E2]. split; [split; rewrite E2|].
    - intros e f [->|?]%elem_of_cons; [by intros [= <-]|by eapply Hs].
    - rewrite E1. by left.
    - intros content H'. apply crashed_extend; [done|]. unfold crashed in H'. by rewrite E2 in H'. }
  destruct phase as [| | | | | |e| |[[]|]]; simpl in H; try (by apply Hsame); try (by apply Hboth); try (by apply Hsame, H).
  destruct H as [E1 E2]. split; [split; rewrite E2|].
  - intros e f ->%list_elem_of_singleton. by intros [= <-].
  - rewrite E1. by left.
  - intros content H'. right. rewrite (crashed_same {| dr_entry := saved doc; dr_crash := [saved doc]; dr_temp := None |}) in H' by done.
    by apply crashed_one.
Qed.

(** a save is atomic. At any point of it, after any failures, a crash
    leaves at the path what a crash before the save could have left, or the new
    document in full. A save that reports success has put the document there for
    good; one that reports a failure before the directory was synced has changed
    nothing; and a save makes at most seven calls. *)
Theorem save_is_atomic doc oks d :
  dir_ok d →
  let '(phase, d') := save_calls doc oks d in
  dir_ok d' ∧ (∀ content, crashed d' content → crashed d content ∨ content = Some (Doc doc)) ∧
  (phase = SvDone None → dr_entry d' = saved doc ∧ ∀ content, crashed d' content ↔ content = Some (Doc doc)) ∧
  (∀ e, phase = SvDone (Some e) → e ≠ SyncDirFailed → dr_entry d' = dr_entry d ∧ dr_crash d' = dr_crash d) ∧
  (7 ≤ length oks → ∃ e, phase = SvDone e)%nat.
Proof.
  intros Hok. pose proof (save_calls_inv doc oks d) as Hinv. pose proof (save_ends doc oks SvMkdir d) as Hends. fold (save_calls doc oks d) in Hends.
  destruct (save_calls doc oks d) as [phase d']. destruct (save_inv_crash doc d phase d' Hok Hinv) as [Hok' Hcrash].
  split; [done|]. split; [done|]. split; [|split; [|done]].
  - intros ->. destruct Hinv as [E1 E2]. split; [done|]. intros content. rewrite <-crashed_one. by apply crashed_same.
  - intros e -> Hne. by destruct e.
Qed.
End save.

(** ** The counters *)

(** What a restart keeps of a counter. *)
Definition restarted (now : Z) (k : ruleCounter) : ruleCounter := {|
  uploadTotal := uploadTotal k; downloadTotal := downloadTotal k; conns := 0; sourceIPDenied := sourceIPDenied k;
  udpSessionRejected := udpSessionRejected k; udpPacketsDropped := udpPacketsDropped k;
  quotaRejectedBytes := quotaRejectedBytes k; updatedAtUnix := now |}.

(** The ids of a collector are trimmed. *)
Definition ids_trimmed (m : gmap string ruleCounter) : Prop := ∀ id, is_Some (m !! id) → TrimSpace id = id.
Lemma modify_trimmed now id f m : ids_trimmed m → ids_trimmed (spec_modify now id f m).
Proof.
  intros Hm i. unfold spec_modify. rewrite lookup_insert_is_Some. intros [<-|[_ ?]]; [apply TrimSpace_idemp|by apply Hm].
Qed.
Lemma step_trimmed now op m : ids_trimmed m → ids_trimmed (collector_spec now op m).
Proof.
  intros Hm. destruct op as [| | | | | | | | | | | | | |snapshots]; simpl; unfold spec_add; try case_bool_decide; try destruct (_ <=? 0); try done;
    try by apply modify_trimmed.
  - intros i [_ ?]%lookup_delete_is_Some. by apply Hm.
  - revert m Hm. induction snapshots as [|s l IH]; intros m Hm; [done|]. by apply IH, modify_trimmed.
Qed.
Lemma run_trimmed ops m : ids_trimmed m → ids_trimmed (run_spec ops m).
Proof. revert m. induction ops as [|[now op] ops IH]; intros m Hm; [done|]. by apply IH, step_trimmed. Qed.
Lemma collector_trimmed ops : collector_wf (run_collector ops NewCollector) ∧ ids_trimmed (view (run_collector ops NewCollector)).
Proof.
  destruct (run_refines ops NewCollector NewCollector_wf) as [Hwf ->]. split; [done|]. apply run_trimmed.
  intros id. rewrite lookup_view. by intros [? ?].
Qed.

Definition restore_all (now : Z) (l : list TrafficSnapshot) (m : gmap string ruleCounter) : gmap string ruleCounter :=
  foldl (λ m s, spec_modify now (s_RuleID s) (restore_counter now s) m) m l.
Lemma restore_other now l m id : (∀ s, s ∈ l → TrimSpace (s_RuleID s) ≠ id) → restore_all now l m !! id = m !! id.
Proof.
  revert m. induction l as [|s l IH]; intros m H; [done|].
  etrans; [apply IH; intros s' ?; apply H; by right|].
  unfold spec_modify. apply lookup_insert_ne, H. by left.
Qed.
Lemma restore_one now l m s :
  NoDup ((λ s, TrimSpace (s_RuleID s)) <$> l) → s ∈ l →
  restore_all now l m !! TrimSpace (s_RuleID s) = Some (restore_counter now s (default (new_counter now) (m !! TrimSpace (s_RuleID s)))).
Proof.
  revert m. induction l as [|s' l IH]; intros m Hnd Hin; [by apply elem_of_nil in Hin|]. simpl in Hnd. apply NoDup_cons in Hnd as [Hn Hnd].
  assert (∀ s, s ∈ l → TrimSpace (s_RuleID s) ≠ TrimSpace (s_RuleID s')) as Hne.
  { intros s0 Hs0 E. apply Hn. rewrite <-E. by apply (list_elem_of_fmap_2 (λ s, TrimSpace (s_RuleID s))). }
  apply elem_of_cons in Hin as [->|Hin]; simpl.
  - etrans; [by apply restore_other|]. unfold spec_modify. apply lookup_insert_eq.
  - etrans; [by apply IH|]. unfold spec_modify. rewrite lookup_insert_ne; [done|]. by apply not_eq_sym, Hne.
Qed.

Lemma records_roundtrip l :
  fromRecords (toRecords l) = (λ s, {| s_RuleID := s_RuleID s; s_UploadBytes := s_UploadBytes s; s_DownloadBytes := s_DownloadBytes s;
    s_Conns := 0; s_SourceIPDenied := s_SourceIPDenied s; s_UDPSessionRejected := s_UDPSessionRejected s;
    s_UDPPacketsDropped := s_UDPPacketsDropped s; s_QuotaRejectedBytes := s_QuotaRejectedBytes s; s_UpdatedTime := 0 |}) <$> l.
Proof. unfold fromRecords, toRecords. by rewrite <-list_fmap_compose. Qed.

(** The saved snapshot of one counter. *)
Definition stored_snapshot (c : Collector) (id : string) : TrafficSnapshot :=
  let s := snapshotCounter id (counter_of c id) in {|
  s_RuleID := s_RuleID s; s_UploadBytes := s_UploadBytes s; s_DownloadBytes := s_DownloadBytes s;
  s_Conns := 0; s_SourceIPDenied := s_SourceIPDenied s; s_UDPSessionRejected := s_UDPSessionRejected s;
  s_UDPPacketsDropped := s_UDPPacketsDropped s; s_QuotaRejectedBytes := s_QuotaRejectedBytes s; s_UpdatedTime := 0 |}.
Lemma stored_id c id : s_RuleID (stored_snapshot c id) = id.
Proof. unfold stored_snapshot, snapshotCounter. by destruct (counter_of c id). Qed.

Lemma load_saved now c :
  Load true (Some (Doc (stats_document now (SnapshotAll c)))) = Ok (stored_snapshot c <$> sorted_keys (counters c)).
Proof. unfold Load, load_file. simpl. rewrite records_roundtrip. unfold SnapshotAll. by rewrite <-list_fmap_compose. Qed.

Lemma counters_view c id : collector_wf c → is_Some (counters c !! id) ↔ is_Some (view c !! id).
Proof.
  intros Hwf. rewrite lookup_view. unfold counter_of. split.
  - intros [l Hl]. rewrite Hl. simpl. by eapply wf_block.
  - intros [k Hk]. apply bind_Some in Hk as (l & Hl & _). by exists l.
Qed.

(** What the daemon starts with, read from a saved collector. *)
Lemma start_saved now t c rules id :
  collector_wf c → ids_trimmed (view c) →
  view (start_collector now true (Some (Doc (stats_document t (SnapshotAll c)))) rules) !! id =
  if bool_decide (id ∈ configured_ids rules) then restarted now <$> view c !! id else None.
Proof.
  intros Hwf Htrim. unfold start_collector. rewrite load_saved. cbv iota.
  destruct (Restore_refines now (configuredStats (stored_snapshot c <$> sorted_keys (counters c)) rules).1 NewCollector NewCollector_wf) as [_ ->].
  fold (restore_all now (configuredStats (stored_snapshot c <$> sorted_keys (counters c)) rules).1 (view NewCollector)). simpl.
  assert (∀ i, i ∈ sorted_keys (counters c) → TrimSpace i = i) as Hkeys.
  { intros i Hi%elem_of_sorted_keys. apply Htrim. by apply counters_view. }
  set (l := filter _ _).
  assert (∀ s, s ∈ l ↔ ∃ i, s = stored_snapshot c i ∧ i ∈ sorted_keys (counters c) ∧ i ∈ configured_ids rules) as Hl.
  { intros s. unfold l. rewrite list_elem_of_filter, list_elem_of_fmap. split.
    - intros (Hb%bool_decide_eq_true & i & -> & Hi). exists i. rewrite stored_id, Hkeys in Hb by done. done.
    - intros (i & -> & Hi & Hc). split; [|by exists i]. rewrite stored_id, Hkeys by done. by apply bool_decide_eq_true. }
  assert (NoDup ((λ s, TrimSpace (s_RuleID s)) <$> l)) as Hnd.
  { apply (NoDup_fmap_2_strong _ l).
    - intros s1 s2 (i1 & -> & H1 & _)%Hl (i2 & -> & H2 & _)%Hl. rewrite !stored_id, !Hkeys by done. by intros ->.
    - apply NoDup_filter. apply NoDup_fmap_2_strong; [|apply NoDup_sorted_keys]. intros i1 i2 _ _ E%(f_equal s_RuleID). by rewrite !stored_id in E. }
  assert (view NewCollector !! id = None) as Hnone by (by rewrite lookup_view).
  destruct (decide (is_Some (view c !! id) ∧ id ∈ configured_ids rules)) as [[[k Hk] Hc]|Hno].
  - assert (id ∈ sorted_keys (counters c)) as Hid by (apply elem_of_sorted_keys, counters_view; [done|by exists k]).
    assert (stored_snapshot c id ∈ l) as Hin by (apply Hl; by exists id).
    pose proof (restore_one now l (view NewCollector) _ Hnd Hin) as H. rewrite stored_id, (Hkeys id Hid), Hnone in H. rewrite H.
    rewrite bool_decide_eq_true_2, Hk by done. simpl. f_equal.
    rewrite lookup_view in Hk. unfold restore_counter, stored_snapshot, restarted, snapshotCounter. by rewrite Hk.
  - rewrite restore_other, Hnone.
    + case_bool_decide; [|done]. destruct (view c !! id); [|done]. exfalso. apply Hno. split; [by eexists|done].
    + intros s (i & -> & Hi & Hc)%Hl. rewrite stored_id, (Hkeys i Hi). intros <-. apply Hno. split; [|done].
      apply counters_view; [done|]. by apply elem_of_sorted_keys.
Qed.

(** ** The daemon and its file *)

Lemma stats_run_app l1 l2 s : stats_run (l1 ++ l2) s = stats_run l2 (stats_run l1 s).
Proof. apply foldl_app. Qed.

(** The collector does not look at the file. *)
Definition counted (events : list StatsEvent) : list (Z * CollectorOp) :=
  omap (λ e, match e with Count now op => Some (now, op) | Flush _ _ => None end) events.
Lemma stats_collector events s : sd_collector (stats_run events s) = run_collector (counted events) (sd_collector s).
Proof. revert s. induction events as [|e events IH]; intros s; [done|]. etrans; [apply (IH (stats_step s e))|]. by destruct e. Qed.

(** No flush of these events succeeds. *)
Definition all_fail (events : list StatsEvent) : Prop :=
  Forall (λ e, match e with Flush _ oks => succeeds oks = false | Count _ _ => True end) events.

Lemma crash_history events s :
  dir_ok (sd_dir s) →
  dir_ok (sd_dir (stats_run events s)) ∧
  ∀ content, crashed (sd_dir (stats_run events s)) content →
    (crashed (sd_dir s) content ∧ all_fail events) ∨
    ∃ before now oks after, events = before ++ Flush now oks :: after ∧ all_fail after ∧
      content = Some (Doc (stats_document now (SnapshotAll (sd_collector (stats_run before s))))).
Proof.
  intros Hok. induction events as [|e events [IHok IH]] using rev_ind.
  - split; [done|]. intros content H. left. split; [done|constructor].
  - assert (∀ content, (crashed (sd_dir (stats_run events s)) content → all_fail [e] →
      (crashed (sd_dir s) content ∧ all_fail (events ++ [e])) ∨
      ∃ before now oks after, events ++ [e] = before ++ Flush now oks :: after ∧ all_fail after ∧
        content = Some (Doc (stats_document now (SnapshotAll (sd_collector (stats_run before s))))))) as Hkeep.
    { intros content [[Hc Hf]|(before & now & oks & after & -> & Hf & ->)]%IH He; [left|right].
      - split; [done|]. by apply Forall_app.
      - exists before, now, oks, (after ++ [e]). rewrite <-app_assoc. split; [done|]. split; [by apply Forall_app|done]. }
    rewrite stats_run_app. destruct e as [now op|now oks]; simpl.
    + split; [done|]. intros content Hc. apply Hkeep; [done|by repeat constructor].
    + set (doc := stats_document now (SnapshotAll (sd_collector (stats_run events s)))).
      pose proof (save_calls_inv doc oks (sd_dir (stats_run events s))) as Hinv.
      pose proof (succeeds_done doc oks (sd_dir (stats_run events s))) as Hsucc.
      destruct (save_calls doc oks (sd_dir (stats_run events s))) as [phase d'].
      destruct (save_inv_crash doc _ phase d' IHok Hinv) as [Hok' Hcrash]. split; [done|]. intros content Hc.
      assert (content = Some (Doc doc) → ∃ before now' oks' after, events ++ [Flush now oks] = before ++ Flush now' oks' :: after ∧
        all_fail after ∧ content = Some (Doc (stats_document now' (SnapshotAll (sd_collector (stats_run before s)))))) as Hnew.
      { intros ->. exists events, now, oks, []. split; [done|]. split; [constructor|done]. }
      destruct (succeeds oks) eqn:Hs.
      * right. apply Hnew. specialize (Hsucc eq_refl). simpl in Hsucc. subst phase. destruct Hinv as [_ E].
        rewrite (crashed_same {| dr_entry := saved doc; dr_crash := [saved doc]; dr_temp := None |}) in Hc by done. by apply crashed_one.
      * destruct (Hcrash content Hc) as [Hold|?]; [|by right; apply Hnew]. apply Hkeep; [done|]. by repeat constructor.
Qed.

(** C21: a crash loses at most what was counted since the last save that
    succeeded. Whenever the daemon dies, also inside a save, the file holds the
    counters as they were at one of its saves, and no later save succeeded; or no
    save succeeded and it holds what it held before. In the first case the daemon
    starts again with exactly the saved totals of every configured rule, without
    connections and without the rules that are no longer configured. *)
Theorem crash_keeps_saved_totals ops events d content now' rules :
  let s := {| sd_collector := run_collector ops NewCollector; sd_dir := d |} in
  dir_ok d → crashed (sd_dir (stats_run events s)) content →
  (crashed d content ∧ all_fail events) ∨
  ∃ before after, (∃ now oks, events = before ++ Flush now oks :: after) ∧ all_fail after ∧
    ∀ id, view (start_collector now' true content rules) !! id =
      if bool_decide (id ∈ configured_ids rules)
      then restarted now' <$> view (sd_collector (stats_run before s)) !! id else None.
Proof.
  intros s Hok Hc. destruct (crash_history events s Hok) as [_ H].
  destruct (H content Hc) as [?|(before & now & oks & after & -> & Hf & ->)]; [by left|]. right.
  exists before, after. split; [by eexists _, _|]. split; [done|]. intros id.
  assert (∃ ops', sd_collector (stats_run before s) = run_collector ops' NewCollector) as [ops' Hops].
  { exists (ops ++ counted before). rewrite stats_collector. unfold run_collector, s. simpl. by rewrite foldl_app. }
  rewrite Hops. destruct (collector_trimmed ops'). by apply start_saved.
Qed.

(** ** Witnesses *)

Definition no_file {D} : Directory D := {| dr_entry := None; dr_crash := [None]; dr_temp := None |}.
Lemma no_file_ok {D} : dir_ok (@no_file D).
Proof. split; [by intros e f ->%list_elem_of_singleton|by left]. Qed.

Lemma save_is_atomic_witness :
  (save_calls (stats_document 1 []) (replicate 7 true) no_file).1 = SvDone None ∧
  ∀ content, crashed (save_calls (stats_document 1 []) (replicate 7 true) no_file).2 content ↔ content = Some (Doc (stats_document 1 [])).
Proof.
  pose proof (save_is_atomic (stats_document 1 []) (replicate 7 true) no_file no_file_ok) as H.
  destruct (save_calls (stats_document 1 []) (replicate 7 true) no_file) as [phase d'] eqn:Hs. simpl.
  assert (phase = SvDone None) as -> by (vm_compute in Hs; injection Hs as <- _; reflexivity).
  destruct H as (_ & _ & H & _). split; [reflexivity|]. exact (proj2 (H eq_refl)).
Defined.

(** Seven bytes counted and saved, three more, and a crash. *)
Definition counted_twice : list StatsEvent :=
  [Count 1 (OpAddUpload "web" 7); Flush 2 (replicate 7 true); Count 3 (OpAddUpload "web" 3)].
Definition web_rule : Rule := {|
  RuleID := " web "; Name := ""; Proto := "tcp"; ListenAddr := ""; ListenPort := 80; TargetAddr := "10.0.0.1";
  TargetPort := 80; Enabled := true; SpeedLimit := 0; Bandwidth := None; Quota := None; MaxConn := 0;
  IdleTimeout := 0; SourceIPMode := ""; SourceIPs := []; Domains := []; Remark := ""; Revision := 1;
  CreatedTime := 0; UpdatedTime := 0 |}.
Lemma crash_keeps_saved_totals_witness :
  let s := {| sd_collector := NewCollector; sd_dir := no_file |} in
  ∃ content, crashed (sd_dir (stats_run counted_twice s)) content ∧
    uploadTotal <$> view (start_collector 9 true content [web_rule]) !! "web" = Some 7.
Proof.
  intros s. set (content := Some (Doc (stats_document 2 (SnapshotAll (collector_step 1 (OpAddUpload "web" 7) NewCollector))))).
  exists content. assert (crashed (sd_dir (stats_run counted_twice s)) content) as Hc.
  { eexists. split; [left|]. eexists. split; [reflexivity|]. intros _. vm_compute. reflexivity. }
  split; [exact Hc|].
  destruct (crash_keeps_saved_totals [] counted_twice no_file content 9 [web_rule] no_file_ok Hc) as [[_ Hf]|(before & after & (now & oks & He) & _ & Hview)].
  - exfalso. apply Forall_cons in Hf as [_ [Hf _]%Forall_cons]. vm_compute in Hf. discriminate.
  - rewrite (Hview "web"). destruct before as [|e1 [|e2 [|e3 [|e4 before]]]]; try discriminate He. injection He as <- _ _ _.
    vm_compute. reflexivity.
Defined.
