(* ===== verification/FileIO.v ===== *)
(** * Files (os, path/filepath) and functions that call the system

    Go functions that make system calls, as a state and error monad over a
    [World]: the file system and what the environment will answer.  Each call
    consumes one [Event]: whether the call succeeds, and what other processes did
    to the file system before it; when the events have run out, calls succeed and
    nobody interferes.  A call that fails has no effect.  Paths are the lists of
    components of a cleaned absolute path; a node is found under the path it is
    reached by.  Files made by [os.CreateTemp] have names nothing else uses, so
    they live apart until they are renamed. *)

From S2P Require Import Prelude GoStrings.

(** ** The monad *)

Definition IO (S E A : Type) : Type := S → result E A * S.

#[export] Instance io_ret {S E} : MRet (IO S E) := λ A a s, (Ok a, s).
#[export] Instance io_bind {S E} : MBind (IO S E) := λ A B f m s,
  match m s with
  | (Ok a, s') => f a s'
  | (Err e, s') => (Err e, s')
  end.

Definition fail {S E A} (e : E) : IO S E A := λ s, (Err e, s).
Definition lift {S E A} (r : result E A) : IO S E A := λ s, (r, s).
(** [x, err := f()] whose error the code inspects itself. *)
Definition try {S E E' A} (m : IO S E A) : IO S E' (result E A) := λ s, let '(r, s') := m s in (Ok r, s').
Definition map_err {S E E' A} (f : E → E') (m : IO S E A) : IO S E' A := λ s,
  let '(r, s') := m s in (match r with Ok a => Ok a | Err e => Err (f e) end, s').
(** [if err := f(); err != nil { cleanup(); return err }]. *)
Definition or_cleanup {S E A} (m : IO S E A) (cleanup : IO S E ()) : IO S E A := λ s,
  match m s with
  | (Ok a, s') => (Ok a, s')
  | (Err e, s') => (Err e, (cleanup s').2)
  end.

(** [defer cleanup()]: afterwards, whatever the outcome. *)
Definition finally {S E A} (m : IO S E A) (cleanup : S → S) : IO S E A := λ s, let '(r, s') := m s in (r, cleanup s').
Definition get {S E} : IO S E S := λ s, (Ok s, s).
Definition modify {S E} (f : S → S) : IO S E () := λ s, (Ok (), f s).
(** [for _, x := range l], left at the first error. *)
Fixpoint each {S E A} (f : A → IO S E ()) (l : list A) : IO S E () :=
  match l with
  | [] => mret ()
  | x :: l => f x ≫= λ _, each f l
  end.
(** Run on a part of the state. *)
Definition zoom {S T E A} (part : S → T) (set : T → S → S) (m : IO T E A) : IO S E A := λ s,
  let '(r, t) := m (part s) in (r, set t s).

(** What holds of the outcome and the state afterwards. *)
Definition wp {S E A} (m : IO S E A) (Q : result E A → S → Prop) (s : S) : Prop := Q (m s).1 (m s).2.

Section wp.
Context {S E : Type}.

Lemma wp_consequence {A} (m : IO S E A) (P Q : result E A → S → Prop) s :
  wp m P s → (∀ r s', P r s' → Q r s') → wp m Q s.
Proof. unfold wp. auto. Qed.

Lemma wp_bind {A B} (m : IO S E A) (f : A → IO S E B) Q s :
  wp m (λ r s', match r with Ok a => wp (f a) Q s' | Err e => Q (Err e) s' end) s → wp (m ≫= f) Q s.
Proof. unfold wp, mbind, io_bind. by destruct (m s) as [[a|e] s']. Qed.

Lemma wp_ret {A} (a : A) (Q : result E A → S → Prop) s : Q (Ok a) s → wp (mret a) Q s.
Proof. done. Qed.

Lemma wp_fail {A} (e : E) (Q : result E A → S → Prop) s : Q (Err e) s → wp (fail e) Q s.
Proof. done. Qed.

Lemma wp_lift {A} (r : result E A) (Q : result E A → S → Prop) s : Q r s → wp (lift r) Q s.
Proof. done. Qed.

Lemma wp_try {E' A} (m : IO S E A) (Q : result E' (result E A) → S → Prop) s :
  wp m (λ r, Q (Ok r)) s → wp (try m) Q s.
Proof. unfold wp, try. by destruct (m s). Qed.

Lemma wp_map_err {E' A} (f : E → E') (m : IO S E A) Q s :
  wp m (λ r, Q (match r with Ok a => Ok a | Err e => Err (f e) end)) s → wp (map_err f m) Q s.
Proof. unfold wp, map_err. by destruct (m s). Qed.

Lemma wp_or_cleanup {A} (m : IO S E A) (cleanup : IO S E ()) Q s :
  wp m (λ r s', match r with Ok a => Q (Ok a) s' | Err e => wp cleanup (λ _, Q (Err e)) s' end) s →
  wp (or_cleanup m cleanup) Q s.
Proof. unfold wp, or_cleanup. by destruct (m s) as [[a|e] s']. Qed.

Lemma wp_zoom {T A} (part : S → T) (set : T → S → S) (m : IO T E A) Q s :
  wp m (λ r t, Q r (set t s)) (part s) → wp (zoom part set m) Q s.
Proof. unfold wp, zoom. by destruct (m (part s)). Qed.

Lemma wp_finally {A} (m : IO S E A) (cleanup : S → S) Q s : wp m (λ r s', Q r (cleanup s')) s → wp (finally m cleanup) Q s.
Proof. unfold wp, finally. by destruct (m s). Qed.

Lemma wp_modify (f : S → S) (Q : result E () → S → Prop) s : Q (Ok ()) (f s) → wp (modify f) Q s.
Proof. done. Qed.
Lemma wp_get (Q : result E S → S → Prop) s : Q (Ok s) s → wp get Q s.
Proof. done. Qed.

(** An invariant of the loop body is one of the loop. *)
Lemma wp_each {A} (f : A → IO S E ()) (I : S → Prop) l (Q : result E () → S → Prop) s :
  I s → (∀ x s', x ∈ l → I s' → wp (f x) (λ r s'', match r with Ok _ => I s'' | Err e => Q (Err e) s'' end) s') →
  (∀ s', I s' → Q (Ok ()) s') → wp (each f l) Q s.
Proof.
  intros HI Hf HQ. revert s HI. induction l as [|x l IH]; intros s HI; [by apply HQ|].
  apply wp_bind. eapply wp_consequence; [apply (Hf x s); [by left|done]|].
  intros [[]|e] s' H; [|done]. apply IH; [|done]. intros y s'' ?. apply Hf. by right.
Qed.
End wp.

(** ** The file system *)

Notation Path := (list string).

Inductive Node :=
| RegularFile (id : nat) (mode : Z) (data : string)
| Directory
| SymLink (target : Path)
| Special.                        (* a device, a pipe, a socket *)

#[export] Instance node_eq_dec : EqDecision Node.
Proof. solve_decision. Defined.

Record FS := { fs_nodes : gmap Path Node; fs_temps : gmap nat Node; fs_next : nat }.
Definition empty_fs : FS := {| fs_nodes := ∅; fs_temps := ∅; fs_next := 0 |}.
Definition set_node (p : Path) (n : option Node) (d : FS) : FS :=
  {| fs_nodes := partial_alter (λ _, n) p (fs_nodes d); fs_temps := fs_temps d; fs_next := fs_next d |}.
Definition set_temp (id : nat) (n : option Node) (d : FS) : FS :=
  {| fs_nodes := fs_nodes d; fs_temps := partial_alter (λ _, n) id (fs_temps d); fs_next := fs_next d |}.

Record Event := { ev_ok : bool; ev_other : FS → FS }.
Record World := { w_fs : FS; w_events : list Event }.

Inductive SysError := ENOENT | EOTHER (call : string).
#[export] Instance sys_error_eq_dec : EqDecision SysError.
Proof. solve_decision. Defined.

(** One system call with the effect [f] on the file system. *)
Definition syscall {A} (call : string) (f : FS → result SysError A * FS) : IO World SysError A := λ w,
  match w_events w with
  | [] => let '(r, d) := f (w_fs w) in (r, {| w_fs := d; w_events := [] |})
  | e :: events =>
      let d := ev_other e (w_fs w) in
      if ev_ok e then let '(r, d') := f d in (r, {| w_fs := d'; w_events := events |})
      else (Err (EOTHER call), {| w_fs := d; w_events := events |})
  end.

(** ** The calls *)

Definition Lstat (p : Path) : IO World SysError Node :=
  syscall "lstat" (λ d, (match fs_nodes d !! p with Some n => Ok n | None => Err ENOENT end, d)).

(** Following symbolic links, at most 40 of them. *)
Fixpoint follow (fuel : nat) (d : FS) (p : Path) : result SysError Node :=
  match fs_nodes d !! p with
  | None => Err ENOENT
  | Some (SymLink target) => match fuel with O => Err (EOTHER "too many links") | S fuel => follow fuel d target end
  | Some n => Ok n
  end.
Arguments follow : simpl never.
Definition Stat (p : Path) : IO World SysError Node := syscall "stat" (λ d, (follow 40 d p, d)).
(** The file opened, with what reading it gives. *)
Definition Open (p : Path) : IO World SysError Node := syscall "open" (λ d, (follow 40 d p, d)).
(** [os.ReadFile]; reading anything but a regular file is an error. *)
Definition read_node (n : Node) : result SysError string :=
  match n with RegularFile _ _ data => Ok data | _ => Err (EOTHER "read") end.
Definition ReadFile (p : Path) : IO World SysError string := syscall "read" (λ d, (n ← follow 40 d p; read_node n, d)).

(** [filepath.EvalSymlinks] of an absolute path: at most [fuel] links. *)
Fixpoint eval_links (fuel : nat) (d : FS) : Path → Path → result SysError Path :=
  fix walk (done todo : Path) :=
    match todo with
    | [] => Ok done
    | c :: rest =>
        match fs_nodes d !! (done ++ [c]) with
        | None => Err ENOENT
        | Some (SymLink target) =>
            match fuel with O => Err (EOTHER "too many links") | S fuel => eval_links fuel d [] (target ++ rest) end
        | Some Directory => walk (done ++ [c]) rest
        | Some _ => match rest with [] => Ok (done ++ [c]) | _ => Err (EOTHER "not a directory") end
        end
    end.
Definition EvalSymlinks (p : Path) : IO World SysError Path := syscall "evalsymlinks" (λ d, (eval_links 255 d [] p, d)).

(** [file.Stat], [file.Close], [file.Chmod] and reads of a handle: may fail. *)
Definition on_handle (call : string) : IO World SysError () := syscall call (λ d, (Ok (), d)).

Definition make_dir (p : Path) (d : FS) : FS :=
  match fs_nodes d !! p with None => set_node p (Some Directory) d | Some _ => d end.
Fixpoint mkdirs (done todo : Path) (d : FS) : result SysError () * FS :=
  let d' := make_dir done d in
  match follow 40 d' done with
  | Ok Directory =>
      match todo with
      | [] => (Ok (), d')
      | c :: todo => mkdirs (done ++ [c]) todo d'
      end
  | _ => (Err (EOTHER "mkdir"), d')
  end.
Definition MkdirAll (p : Path) : IO World SysError () := syscall "mkdir" (mkdirs [] p).

(** [os.ReadDir]: the names in the directory, sorted, with their nodes. *)
Definition child (p q : Path) : option string :=
  match reverse q with
  | name :: rev_dir => if bool_decide (reverse rev_dir = p) then Some name else None
  | [] => None
  end.
Definition dir_names (p : Path) (d : FS) : list string :=
  sort_strings (omap (λ '(q, _), child p q) (map_to_list (fs_nodes d))).
Definition dir_entries (p : Path) (d : FS) : list (string * Node) :=
  omap (λ name, (λ n, (name, n)) <$> fs_nodes d !! (p ++ [name])) (dir_names p d).
Definition ReadDir (p : Path) : IO World SysError (list (string * Node)) :=
  syscall "readdir" (λ d, (match follow 40 d p with
                           | Ok Directory => Ok (dir_entries p d)
                           | Ok _ => Err (EOTHER "readdir")
                           | Err e => Err e
                           end, d)).

(** [os.CreateTemp] in a directory: the identity of the new, empty file. *)
Definition CreateTemp (dir : Path) : IO World SysError nat :=
  syscall "createtemp" (λ d, match follow 40 d dir with
    | Ok Directory =>
        (Ok (fs_next d), {| fs_nodes := fs_nodes d;
                            fs_temps := <[fs_next d := RegularFile (fs_next d) 384 ""]> (fs_temps d);
                            fs_next := S (fs_next d) |})
    | Ok _ => (Err (EOTHER "createtemp"), d)
    | Err e => (Err e, d)
    end).
Definition ChmodTemp (id : nat) (mode : Z) : IO World SysError () :=
  syscall "chmod" (λ d, (Ok (), match fs_temps d !! id with
    | Some (RegularFile i _ data) => set_temp id (Some (RegularFile i mode data)) d
    | _ => d end)).
Definition WriteTemp (id : nat) (data : string) : IO World SysError () :=
  syscall "write" (λ d, (Ok (), match fs_temps d !! id with
    | Some (RegularFile i mode old) => set_temp id (Some (RegularFile i mode (old +:+ data))) d
    | _ => d end)).
Definition RemoveTemp (id : nat) : IO World SysError () := syscall "remove" (λ d, (Ok (), set_temp id None d)).
(** [os.Rename] of a temporary file. *)
Definition RenameTemp (id : nat) (p : Path) : IO World SysError () :=
  syscall "rename" (λ d, match fs_temps d !! id, fs_nodes d !! p with
    | None, _ => (Err ENOENT, d)
    | Some _, Some Directory => (Err (EOTHER "rename"), d)
    | Some n, _ => (Ok (), set_temp id None (set_node p (Some n) d))
    end).

(** [os.WriteFile]: the file is emptied or created, then written.  Links are followed. *)
Fixpoint final_path (fuel : nat) (d : FS) (p : Path) : Path :=
  match fs_nodes d !! p, fuel with
  | Some (SymLink target), S fuel => final_path fuel d target
  | _, _ => p
  end.
Definition open_truncated (p : Path) (mode : Z) : IO World SysError (nat * Path) :=
  syscall "open" (λ d,
    let q := final_path 40 d p in
    match fs_nodes d !! q with
    | Some (RegularFile id mode _) => (Ok (id, q), set_node q (Some (RegularFile id mode "")) d)
    | None => match follow 40 d (take (length q - 1) q) with
              | Ok Directory =>
                  (Ok (fs_next d, q), {| fs_nodes := <[q := RegularFile (fs_next d) mode ""]> (fs_nodes d); fs_temps := fs_temps d;
                                         fs_next := S (fs_next d) |})
              | Ok _ => (Err (EOTHER "open"), d)
              | Err e => (Err e, d)
              end
    | Some _ => (Err (EOTHER "open"), d)
    end).
Definition write_handle (h : nat * Path) (data : string) : IO World SysError () :=
  syscall "write" (λ d, (Ok (), match fs_nodes d !! h.2 with
    | Some (RegularFile id mode _) => if (id =? h.1)%nat then set_node h.2 (Some (RegularFile id mode data)) d else d
    | _ => d end)).
Definition WriteFile (p : Path) (data : string) (mode : Z) : IO World SysError () :=
  open_truncated p mode ≫= λ h, write_handle h data.

(** [os.Remove]: a file, a link or an empty directory. *)
Definition has_children (p : Path) (d : FS) : bool := negb (bool_decide (dir_names p d = [])).
Definition Remove (p : Path) : IO World SysError () :=
  syscall "remove" (λ d, match fs_nodes d !! p with
    | None => (Err ENOENT, d)
    | Some Directory => if has_children p d then (Err (EOTHER "not empty"), d) else (Ok (), set_node p None d)
    | Some _ => (Ok (), set_node p None d)
    end).
(** [os.RemoveAll]: also everything below; nothing there is no error. *)
Definition RemoveAll (p : Path) : IO World SysError () :=
  syscall "removeall" (λ d, (Ok (), {| fs_nodes := filter (λ '(q, _), ¬ p `prefix_of` q) (fs_nodes d);
                                       fs_temps := fs_temps d; fs_next := fs_next d |})).
(** Opening and syncing a directory. *)
Definition SyncDir (p : Path) : IO World SysError () :=
  syscall "open" (λ d, (match follow 40 d p with Ok _ => Ok () | Err e => Err e end, d)) ≫= λ _, on_handle "sync".

(** ** Nobody interferes *)

Definition calm (w : World) : Prop := Forall (λ e, ∀ d, ev_other e d = d) (w_events w).

Lemma calm_nil d : calm {| w_fs := d; w_events := [] |}.
Proof. constructor. Qed.

(** A call either fails and changes nothing, or has its effect. *)
Lemma wp_syscall {A} call (f : FS → result SysError A * FS) Q w :
  calm w →
  (∀ w', calm w' → w_fs w' = w_fs w → w_events w ≠ [] → Q (Err (EOTHER call)) w') →
  (∀ w', calm w' → w_fs w' = (f (w_fs w)).2 → (w_events w = [] → w_events w' = []) → Q (f (w_fs w)).1 w') →
  wp (syscall call f) Q w.
Proof.
  intros Hcalm Hfail Hok. destruct w as [d events]. unfold wp, syscall, calm in *. simpl in *.
  destruct events as [|e events].
  - destruct (f d) as [r d'] eqn:Hf. simpl in *. by apply Hok.
  - apply Forall_cons in Hcalm as [He Hcalm]. rewrite He. destruct (ev_ok e).
    + destruct (f d) as [r d'] eqn:Hf. simpl in *. by apply Hok.
    + simpl. by apply Hfail.
Qed.

Lemma set_node_eq p n d : fs_nodes (set_node p n d) !! p = n.
Proof. simpl. by rewrite lookup_partial_alter_eq. Qed.
Lemma set_node_ne p q n d : p ≠ q → fs_nodes (set_node p n d) !! q = fs_nodes d !! q.
Proof. intros. simpl. by rewrite lookup_partial_alter_ne. Qed.
Lemma set_temp_nodes id n d : fs_nodes (set_temp id n d) = fs_nodes d.
Proof. done. Qed.
Lemma set_temp_eq id n d : fs_temps (set_temp id n d) !! id = n.
Proof. simpl. by rewrite lookup_partial_alter_eq. Qed.
#[export] Hint Rewrite set_node_eq set_temp_nodes : vmflow.

(** [prefix_of] on component lists, for the tests of paths. *)
Lemma child_Some p q name : child p q = Some name ↔ q = p ++ [name].
Proof.
  unfold child. destruct (reverse q) as [|n r] eqn:Hr.
  - apply (f_equal reverse) in Hr. rewrite reverse_involutive in Hr. subst q.
    split; [done|]. intros H. by destruct p.
  - apply (f_equal reverse) in Hr. rewrite reverse_involutive, reverse_cons in Hr. subst q.
    case_bool_decide as Hp; split.
    + intros [= ->]. by rewrite Hp.
    + intros [_ [= ->]]%app_inj_tail. done.
    + done.
    + intros [? _]%app_inj_tail. done.
Qed.
