(* ===== verification/GoPath.v ===== *)
(** * Texts of paths (path/filepath, path) on Unix

    [Clean], [IsAbs], [Join], [Dir], [Base] and [Rel], and the path the operating
    system sees for a text ([resolve], with the working directory).  A cleaned
    path is a flag, whether it is absolute, and its list of elements. *)

From S2P Require Import Prelude GoStrings NetIP FileIO.

Definition IsAbs (s : string) : bool := HasPrefix s "/".

(** One element of a path; [out] is the elements before, the last one first. *)
Definition clean_step (rooted : bool) (out : list string) (c : string) : list string :=
  if bool_decide (c = "") || bool_decide (c = ".") then out
  else if bool_decide (c = "..") then
    match out with
    | [] => if rooted then [] else [".."]
    | top :: below => if bool_decide (top = "..") then ".." :: out else below
    end
  else c :: out.
Definition clean_elements (rooted : bool) (cs : list string) : list string := reverse (foldl (clean_step rooted) [] cs).
Definition elements (s : string) : list string := clean_elements (IsAbs s) (Split s "/").
Definition render (rooted : bool) (cs : list string) : string :=
  if rooted then "/" +:+ Netip.join "/" cs else if bool_decide (cs = []) then "." else Netip.join "/" cs.
Definition Clean (s : string) : string := render (IsAbs s) (elements s).

(** [filepath.Join]: empty texts in front are ignored. *)
Fixpoint Join (elem : list string) : string :=
  match elem with
  | [] => ""
  | e :: rest => if bool_decide (e = "") then Join rest else Clean (Netip.join "/" elem)
  end.

(** The text up to its last separator, and what follows it. *)
Definition split_last (s : string) : string * string :=
  match Netip.cut_last "/" s with
  | Some (dir, file) => (dir +:+ "/", file)
  | None => ("", s)
  end.
Definition Dir (s : string) : string := Clean (split_last s).1.
Fixpoint trim_slashes (rev : list ascii) : list ascii :=
  match rev with
  | "/"%char :: rest => trim_slashes rest
  | _ => rev
  end.
Definition Base (s : string) : string :=
  if bool_decide (s = "") then "."
  else let s := of_list (reverse (trim_slashes (reverse (to_list s)))) in
       let file := (split_last s).2 in
       if bool_decide (file = "") then "/" else file.

(** The elements of [base] and [targ] after the common ones. *)
Fixpoint strip_common (base targ : list string) : list string * list string :=
  match base, targ with
  | b :: base', t :: targ' => if bool_decide (b = t) then strip_common base' targ' else (base, targ)
  | _, _ => (base, targ)
  end.
(** [filepath.Rel]; [None] is an error.  A relative target that is the directory
    itself keeps its element [.]. *)
Definition FileRel (base targ : string) : option string :=
  if bool_decide (Clean base = Clean targ) then Some "."
  else if negb (Bool.eqb (IsAbs base) (IsAbs targ)) then None
  else
    let ts := if bool_decide (Clean targ = ".") then ["."] else elements targ in
    match strip_common (elements base) ts with
    | (".." :: _, _) => None
    | (bs, ts) => Some (Netip.join "/" (((λ _, "..") <$> bs) ++ ts))
    end.

(** The path the system sees; the working directory is a path. *)
Definition resolve (cwd : Path) (s : string) : Path :=
  if IsAbs s then elements s else clean_elements true (cwd ++ Split s "/").

(** ** Elements *)

(** What an element of a cleaned path is. *)
Definition element (c : string) : Prop := c ≠ "" ∧ c ≠ "." ∧ "/"%char ∉ to_list c.
(** The elements of a cleaned path: names, and [..] in front of a relative one only. *)
Definition rooted_elements (cs : list string) : Prop := Forall (λ c, element c ∧ c ≠ "..") cs.

Lemma Split_no_sep s sep : Forall (λ c, sep ∉ to_list c) (Split s sep).
Proof.
  unfold Split. rewrite Forall_fmap. induction (to_list s) as [|c l IH]; simpl.
  - constructor; [|done]. simpl. set_solver.
  - case_bool_decide as Hc.
    + constructor; [simpl; set_solver|done].
    + destruct (split_on sep l) as [|w ws]; simpl in *.
      * constructor; [|done]. simpl. set_solver.
      * apply Forall_cons in IH as [Hw Hws]. constructor; [|done]. simpl. set_solver.
Qed.

Lemma Split_join cs sep : cs ≠ [] → Forall (λ c, sep ∉ to_list c) cs → Split (Netip.join (String sep "") cs) sep = cs.
Proof.
  assert (∀ c, sep ∉ to_list c → ∀ rest, split_on sep (to_list c ++ rest) =
      match split_on sep rest with [] => [to_list c] | w :: ws => (to_list c ++ w) :: ws end) as Hw.
  { intros c. induction (to_list c) as [|x l IH]; intros Hc rest; simpl.
    - destruct (split_on sep rest) as [|w ws] eqn:E; [|done]. exfalso. clear -E.
      destruct rest as [|y rest]; simpl in E; [done|]. case_bool_decide; [done|]. by destruct (split_on sep rest).
    - rewrite bool_decide_eq_false_2 by set_solver. rewrite IH by set_solver. by destruct (split_on sep rest). }
  assert (∀ a b, to_list (a +:+ b) = to_list a ++ to_list b) as Happ.
  { intros a b. induction a as [|x a IH]; simpl; [done|]. by rewrite IH. }
  intros Hne Hall. unfold Split. induction cs as [|c cs IH]; [done|].
  apply Forall_cons in Hall as [Hc Hall]. destruct cs as [|c' cs].
  - simpl. rewrite <-(app_nil_r (to_list c)), Hw by done. simpl. by rewrite app_nil_r, of_to_list.
  - change (Netip.join (String sep "") (c :: c' :: cs)) with (c +:+ String sep "" +:+ Netip.join (String sep "") (c' :: cs)).
    rewrite !Happ, Hw by done. simpl (to_list (String sep "") ++ _). cbn [split_on].
    rewrite bool_decide_eq_true_2 by done. rewrite app_nil_r. rewrite fmap_cons, of_to_list. f_equal. by apply IH.
Qed.

Lemma clean_step_rooted out c : "/"%char ∉ to_list c → rooted_elements out → rooted_elements (clean_step true out c).
Proof.
  intros Hc Hout. unfold clean_step. repeat case_bool_decide; simpl; try done.
  - destruct out as [|top below]; [constructor|]. apply Forall_cons in Hout as [[_ Ht] Hb].
    by rewrite bool_decide_eq_false_2.
  - constructor; [|done]. by split_and!.
Qed.

Lemma clean_elements_rooted cs : Forall (λ c, "/"%char ∉ to_list c) cs → rooted_elements (clean_elements true cs).
Proof.
  intros Hcs. unfold clean_elements. apply Forall_reverse.
  assert (∀ out, rooted_elements out → rooted_elements (foldl (clean_step true) out cs)) as H; [|by apply H; constructor].
  induction Hcs as [|c cs Hc Hcs IH]; intros out Hout; simpl; [done|]. by apply IH, clean_step_rooted.
Qed.

Lemma foldl_clean_rooted rooted cs out : rooted_elements cs → foldl (clean_step rooted) out cs = reverse cs ++ out.
Proof.
  revert out. induction cs as [|c cs IH]; intros out Hcs; [done|]. apply Forall_cons in Hcs as [[[? ?] ?] Hcs]. simpl.
  rewrite IH by done. unfold clean_step. rewrite !bool_decide_eq_false_2 by tauto. simpl.
  by rewrite reverse_cons, <-app_assoc.
Qed.

Lemma clean_elements_id rooted cs : rooted_elements cs → clean_elements rooted cs = cs.
Proof. intros. unfold clean_elements. by rewrite foldl_clean_rooted, app_nil_r, reverse_involutive. Qed.

Lemma elements_rooted s : IsAbs s = true → rooted_elements (elements s).
Proof. intros H. unfold elements. rewrite H. apply clean_elements_rooted, Split_no_sep. Qed.

Lemma rooted_no_slash cs : rooted_elements cs → Forall (λ c, "/"%char ∉ to_list c) cs.
Proof. intros H. eapply Forall_impl; [exact H|]. intros c [(_ & _ & ?) _]. done. Qed.

Lemma IsAbs_render cs : IsAbs (render true cs) = true.
Proof. done. Qed.

Lemma elements_render cs : rooted_elements cs → elements (render true cs) = cs.
Proof.
  intros Hcs. unfold elements. rewrite IsAbs_render. unfold render.
  assert (Split ("/" +:+ Netip.join "/" cs) "/" = "" :: Split (Netip.join "/" cs) "/") as -> by done.
  unfold clean_elements. simpl. change (foldl _ _ _) with (foldl (clean_step true) [] (Split (Netip.join "/" cs) "/")).
  destruct cs as [|c cs]; [done|]. rewrite Split_join; [|done|by apply rooted_no_slash].
  by apply clean_elements_id.
Qed.

(** [Clean] of an absolute path: its elements again. *)
Lemma Clean_abs s : IsAbs s = true → IsAbs (Clean s) = true ∧ elements (Clean s) = elements s.
Proof.
  intros H. unfold Clean. rewrite H. split; [done|]. by apply elements_render, elements_rooted.
Qed.
Lemma Clean_idemp_abs s : IsAbs s = true → Clean (Clean s) = Clean s.
Proof. intros H. destruct (Clean_abs s H) as [H1 H2]. unfold Clean at 1. rewrite H1, H2. unfold Clean. by rewrite H. Qed.
Lemma Clean_inj_abs s t : IsAbs s = true → IsAbs t = true → Clean s = Clean t ↔ elements s = elements t.
Proof.
  intros Hs Ht. split; intros H.
  - destruct (Clean_abs s Hs) as [_ <-], (Clean_abs t Ht) as [_ <-]. by rewrite H.
  - unfold Clean. by rewrite Hs, Ht, H.
Qed.
Lemma resolve_abs cwd s : IsAbs s = true → resolve cwd s = elements s.
Proof. intros H. unfold resolve. by rewrite H. Qed.

Lemma Clean_nonempty s : Clean s ≠ "".
Proof.
  unfold Clean, render. destruct (IsAbs s); [done|]. case_bool_decide as Hn; [done|].
  assert (∀ rooted cs out, Forall (λ c, c ≠ "") out → Forall (λ c, c ≠ "") (foldl (clean_step rooted) out cs)) as H.
  { intros rooted cs. induction cs as [|c cs IH]; intros out Hout; simpl; [done|]. apply IH. unfold clean_step.
    repeat case_bool_decide; simpl; try done.
    - destruct out as [|top below]; [destruct rooted; by repeat constructor|]. pose proof Hout as [? ?]%Forall_cons.
      case_bool_decide; [by constructor|done].
    - constructor; [|done]. intros ->. by destruct H. }
  assert (Forall (λ c, c ≠ "") (elements s)) as He by (apply Forall_reverse, H; constructor).
  destruct (elements s) as [|c [|c' cs]]; [done|by apply Forall_cons in He as [? _]|].
  apply Forall_cons in He as [Hc _]. by destruct c.
Qed.

(** The directory and the name of a cleaned absolute path. *)
Lemma cut_last_no_sep sep s : sep ∉ to_list s → Netip.cut_last sep s = None.
Proof.
  induction s as [|c s IH]; [done|]. intros H. cbn [Netip.cut_last]. rewrite IH by (simpl in H; set_solver).
  rewrite bool_decide_eq_false_2; [done|]. intros ->. apply H. by left.
Qed.
Lemma cut_last_app sep a b : sep ∉ to_list b → Netip.cut_last sep (a +:+ String sep b) = Some (a, b).
Proof.
  intros Hb. induction a as [|c a IH]; cbn [Netip.cut_last].
  - simpl. rewrite cut_last_no_sep by done. by rewrite bool_decide_eq_true_2.
  - change (String c a +:+ String sep b) with (String c (a +:+ String sep b)). cbn [Netip.cut_last]. by rewrite IH.
Qed.
Lemma join_snoc sep cs c : cs ≠ [] → Netip.join sep (cs ++ [c]) = Netip.join sep cs +:+ sep +:+ c.
Proof.
  induction cs as [|d [|d' cs] IH]; [done|done|]. intros _.
  change (Netip.join sep ((d :: d' :: cs) ++ [c])) with (d +:+ sep +:+ Netip.join sep ((d' :: cs) ++ [c])).
  rewrite IH by done. change (Netip.join sep (d :: d' :: cs)) with (d +:+ sep +:+ Netip.join sep (d' :: cs)).
  by rewrite !append_assoc.
Qed.
Lemma Dir_render cs name : rooted_elements (cs ++ [name]) → Dir (render true (cs ++ [name])) = render true cs.
Proof.
  intros Hall. pose proof Hall as [Hcs Hn]%Forall_app. apply Forall_singleton in Hn as [(_ & _ & Hs) _].
  assert (split_last (render true (cs ++ [name])) = (match cs with [] => "/" | _ => render true cs +:+ "/" end, name)) as E.
  { unfold split_last, render. destruct cs as [|c cs].
    - change ("/" +:+ Netip.join "/" ([] ++ [name])) with ("" +:+ String "/" name). by rewrite cut_last_app.
    - rewrite join_snoc, <-append_assoc by done. change ("/" +:+ name) with (String "/" name). by rewrite cut_last_app. }
  unfold Dir. rewrite E. clear E. cbn [fst]. destruct cs as [|c cs]; [by vm_compute|].
  assert (IsAbs (render true (c :: cs) +:+ "/") = true) as Habs by done.
  unfold Clean. rewrite Habs. f_equal. unfold elements. rewrite Habs.
  assert (Split (render true (c :: cs) +:+ "/") "/" = "" :: Split (Netip.join "/" (c :: cs) +:+ "/") "/") as -> by done.
  assert (Netip.join "/" (c :: cs) +:+ "/" = Netip.join "/" ((c :: cs) ++ [""])) as ->.
  { rewrite join_snoc by done. done. }
  rewrite Split_join; [|done|].
  - unfold clean_elements. cbn [foldl]. change (clean_step true [] "") with (@nil string).
    rewrite foldl_app, (foldl_clean_rooted true (c :: cs)) by exact Hcs. cbn [foldl].
    assert (∀ out, clean_step true out "" = out) as -> by done. by rewrite app_nil_r, reverse_involutive.
  - apply Forall_app. split; [by apply rooted_no_slash|]. constructor; [|done]. simpl. set_solver.
Qed.

Lemma strip_common_prefix bs ts : (strip_common bs ts).1 = [] ↔ bs `prefix_of` ts.
Proof.
  revert ts. induction bs as [|b bs IH]; intros ts; simpl.
  - split; [intros; by eexists|done].
  - destruct ts as [|t ts]; [split; [done|]; intros H; by apply prefix_nil_not in H|]. case_bool_decide as Hb.
    + subst t. rewrite IH. split; [apply prefix_cons|apply prefix_cons_inv_2].
    + split; [done|]. intros H. by apply prefix_cons_inv_1 in H.
Qed.
Lemma strip_common_suffix bs ts : (strip_common bs ts).2 `suffix_of` ts ∧ (strip_common bs ts).1 `suffix_of` bs.
Proof.
  revert ts. induction bs as [|b bs IH]; intros ts; simpl; [done|]. destruct ts as [|t ts]; [done|].
  case_bool_decide; [|done]. destruct (IH ts). split; by apply suffix_cons_r.
Qed.

Example clean_dots : Clean "/var//lib/./vmflow/../vmflow/" = "/var/lib/vmflow" ∧ Clean "../a/.." = ".." ∧ Clean "" = "."
  ∧ FileRel "/a/b" "/a/c/d" = Some "../c/d" ∧ FileRel "/a" "/a/..b" = Some "..b" ∧ Dir "/etc/vmflow/config.yaml" = "/etc/vmflow"
  ∧ Base "/a/b/" = "b".
Proof. by vm_compute. Qed.
