(* ===== verification/Appdirs.v ===== *)
(** * Locations of the configuration (internal/appdirs/appdirs.go)

    The system and the user configuration file for each operating system, from
    the environment.  [None] for a function is Go's [nil]. *)

From S2P Require Import Prelude GoStrings NetIP FileIO GoPath.

Definition ConfigFilename : string := "config.yaml".
Definition ManagedMarkerName : string := ".vmflow-managed".
Definition LinuxSystemConfigPath : string := "/etc/vmflow/config.yaml".
Definition DarwinSystemConfigPath : string := "/Library/Application Support/vmflow/config.yaml".
Definition WindowsProgramData : string := "C:\ProgramData".

Inductive Scope := User | System | OtherScope (n : nat).
#[export] Instance scope_eq_dec : EqDecision Scope.
Proof. solve_decision. Defined.

Inductive DirError :=
| HomeUnavailable | HomeFailed (e : string) | EmptyHome
| ProgramDataNotAbs (root : string) | LocalAppDataNotAbs (root : string)
| SystemUnsupported (goos : string) | UserUnsupported (goos : string) | UnknownScope (n : nat).

Definition windowsJoin (root : string) (elements : list string) : string :=
  foldl (λ result element, let element := Trim element "\/" in
           if bool_decide (element = "") then result else result +:+ "\" +:+ element)
        (TrimRightSet (TrimSpace root) "\/") elements.

Definition windowsPathIsAbs (value : string) : bool :=
  let value := TrimSpace value in
  if HasPrefix value "\\" then true
  else match to_list value with
  | _ :: c1 :: c2 :: _ => bool_decide (c1 = ":"%char) && (bool_decide (c2 = "\"%char) || bool_decide (c2 = "/"%char))
  | _ => false
  end.

Definition requiredHome (resolve : result string string) : result DirError string :=
  match resolve with
  | Err e => Err (HomeFailed e)
  | Ok home => let home := TrimSpace home in check (bool_decide (home = "")) EmptyHome ≫= λ _, Ok home
  end.

Definition configPathFor (goos : string) (scope : Scope) (getenv : option (string → string))
    (userHomeDir : option (result string string)) : result DirError string :=
  let getenv := default (λ _, "") getenv in
  let userHomeDir := default (Err "home directory is unavailable") userHomeDir in
  match scope with
  | System =>
      if bool_decide (goos = "linux") then Ok LinuxSystemConfigPath
      else if bool_decide (goos = "darwin") then Ok DarwinSystemConfigPath
      else if bool_decide (goos = "windows") then
        let root := TrimSpace (getenv "ProgramData") in
        let root := if bool_decide (root = "") then WindowsProgramData else root in
        check (negb (windowsPathIsAbs root)) (ProgramDataNotAbs root) ≫= λ _,
        Ok (windowsJoin root ["vmflow"; ConfigFilename])
      else Err (SystemUnsupported goos)
  | User =>
      if bool_decide (goos = "linux") then
        let root := TrimSpace (getenv "XDG_CONFIG_HOME") in
        let root := if bool_decide (root ≠ "") && negb (IsAbs root) then "" else root in
        root ← (if bool_decide (root = "") then home ← requiredHome userHomeDir; Ok (Join [home; ".config"]) else Ok root);
        Ok (Join [root; "vmflow"; ConfigFilename])
      else if bool_decide (goos = "darwin") then
        home ← requiredHome userHomeDir; Ok (Join [home; "Library"; "Application Support"; "vmflow"; ConfigFilename])
      else if bool_decide (goos = "windows") then
        let root := TrimSpace (getenv "LocalAppData") in
        root ← (if bool_decide (root = "") then home ← requiredHome userHomeDir; Ok (windowsJoin home ["AppData"; "Local"]) else Ok root);
        check (negb (windowsPathIsAbs root)) (LocalAppDataNotAbs root) ≫= λ _,
        Ok (windowsJoin root ["vmflow"; ConfigFilename])
      else Err (UserUnsupported goos)
  | OtherScope n => Err (UnknownScope n)
  end.

(** The operating system, the environment and the home directory of the process. *)
Class Host := { GOOS : string; Getenv : string → string; UserHomeDir : result string string }.

Section host.
Context `{!Host}.

Definition ConfigPath (scope : Scope) : result DirError string := configPathFor GOOS scope (Some Getenv) (Some UserHomeDir).
Definition UserConfigPath : result DirError string := ConfigPath User.
Definition SystemConfigPath : result DirError string := ConfigPath System.

Definition IsCanonicalConfigPath (candidate : string) (scope : Scope) : bool :=
  match ConfigPath scope with
  | Err _ => false
  | Ok expected =>
      let left := Clean (TrimSpace candidate) in
      let right := Clean expected in
      if bool_decide (GOOS = "windows") then EqualFold left right else bool_decide (left = right)
  end.

Definition ManagedMarkerPath (configPath : string) : string := Join [Dir configPath; ManagedMarkerName].
End host.

Example config_paths :
  configPathFor "linux" User (Some (λ name, if bool_decide (name = "XDG_CONFIG_HOME") then "/srv/alice/config" else "")) None
    = Ok "/srv/alice/config/vmflow/config.yaml" ∧
  configPathFor "linux" User None (Some (Ok "/home/bob/")) = Ok "/home/bob/.config/vmflow/config.yaml" ∧
  configPathFor "windows" System (Some (λ _, "D:\ProgramData\")) None = Ok "D:\ProgramData\vmflow\config.yaml" ∧
  configPathFor "windows" System (Some (λ _, "ProgramData")) None = Err (ProgramDataNotAbs "ProgramData").
Proof. by vm_compute. Qed.
