(* ===== verification/CertPath.v ===== *)
(** * The certificate directory (internal/certpath/certpath.go)

    Names of certificates, and the pair of files that holds one.  A cache
    directory is a text; [Abs] (filepath.Abs with filepath.Clean) resolves it.
    The reading limits, the checks for symbolic links and for a target that
    changed while it was written are those of the code. *)

From S2P Require Import Prelude GoStrings NetIP FileIO.

(** ** Names *)

Inductive PathError :=
| EmptyDomain | InvalidDomain | NotASCII | WildcardNotAllowed | InvalidWildcard | InvalidLength | InvalidLabel
| NoDomains | DomainAt (index : nat) (e : PathError)
| EmptyCacheDir | AbsFailed | PathEscapes
| Sys (e : SysError)
| DirectoryIsLink | NotRegular | ChangedWhileOpening | TooLarge | TargetAppeared | TargetChanged
| EmptyPEM | IncompletePair (domain : string) | NoPair
| LegacyNotRegular | MultipleLegacyCertificates | MultipleLegacyKeys | IncompleteLegacyPair
| Wrapped (what : string) (e : PathError).      (* fmt.Errorf("..: %w", err) *)

(** [errors.Is(err, os.ErrNotExist)]. *)
Fixpoint is_not_exist (e : PathError) : bool :=
  match e with
  | NoPair | Sys ENOENT => true
  | Wrapped _ e | DomainAt _ e => is_not_exist e
  | _ => false
  end.

(** [strings.ToLower], exact where its result is ASCII: two letters outside of
    ASCII have a lower case in it (U+0130 and U+212A). *)
Fixpoint lower_folds (l : list ascii) : list ascii :=
  match l with
  | [] => []
  | c1 :: l1 =>
      match l1 with
      | c2 :: l2 =>
          if bool_decide (c1 = byte 196) && bool_decide (c2 = byte 176) then "i"%char :: lower_folds l2
          else match l2 with
               | c3 :: l3 =>
                   if bool_decide (c1 = byte 226) && bool_decide (c2 = byte 132) && bool_decide (c3 = byte 170)
                   then "k"%char :: lower_folds l3 else lower_ascii c1 :: lower_folds l1
               | [] => lower_ascii c1 :: lower_folds l1
               end
      | [] => [lower_ascii c1]
      end
  end.

Definition printable (c : ascii) : bool := (33 <=? nat_of_ascii c)%nat && (nat_of_ascii c <=? 126)%nat.
Definition lower_or_digit (c : ascii) : bool :=
  is_digit c || ((97 <=? nat_of_ascii c)%nat && (nat_of_ascii c <=? 122)%nat).
(** The loop over the bytes of a label. *)
Definition label_ok (label : list ascii) : bool :=
  let n := length label in
  negb (n =? 0)%nat && (n <=? 63)%nat &&
  forallb id (imap (λ i ch, lower_or_digit ch || (bool_decide (ch = "-"%char) && (0 <? i)%nat && (i <? n - 1)%nat)) label).

Definition trim_dot (l : list ascii) : list ascii :=
  if bool_decide (list.last l = Some "."%char) then take (length l - 1) l else l.
Definition wildcard_prefix : list ascii := to_list "*.".

Definition Normalize (raw : string) (allowWildcard : bool) : result PathError string :=
  let value := lower_folds (to_list (TrimSpace raw)) in
  check (bool_decide (value = [])) EmptyDomain ≫= λ _,
  check (has_char zero value || has_char "/" value || has_char "\" value) InvalidDomain ≫= λ _,
  check (negb (forallb printable value)) NotASCII ≫= λ _,
  let value := trim_dot value in
  check (bool_decide (value = [])) EmptyDomain ≫= λ _,
  match ParseIP (of_list value) with
  | Some a => Ok (Netip.AddrString (Netip.Unmap a))
  | None =>
      let wildcard := bool_decide (wildcard_prefix `prefix_of` value) in
      check (wildcard && negb allowWildcard) WildcardNotAllowed ≫= λ _,
      let value := if wildcard then drop 2 value else value in
      check (has_char "*" value) InvalidWildcard ≫= λ _,
      check (bool_decide (value = []) || (253 <? length value)%nat) InvalidLength ≫= λ _,
      check (negb (forallb label_ok (split_on "." value))) InvalidLabel ≫= λ _,
      let value := if wildcard then wildcard_prefix ++ value else value in
      check (253 <? length value)%nat InvalidLength ≫= λ _,
      Ok (of_list value)
  end.

Fixpoint normalize_loop (index : nat) (raw : list string) (allowWildcard : bool) (out : list string) : result PathError (list string) :=
  match raw with
  | [] => Ok out
  | value :: raw =>
      match Normalize value allowWildcard with
      | Err e => Err (DomainAt (S index) e)
      | Ok domain => normalize_loop (S index) raw allowWildcard (if bool_decide (domain ∈ out) then out else out ++ [domain])
      end
  end.
Definition NormalizeAll (raw : list string) (allowWildcard : bool) : result PathError (list string) :=
  check (bool_decide (raw = [])) NoDomains ≫= λ _, normalize_loop 0 raw allowWildcard [].

(** ** Paths *)

Inductive Namespace := ACME | Manual.
#[export] Instance namespace_eq_dec : EqDecision Namespace.
Proof. solve_decision. Defined.

Record pairPaths := { directory : Path; cert : Path; key : Path }.

Class AbsPath := { Abs : string → option Path }.     (* filepath.Abs; [None] is an error *)

Definition maxCertificateFileSize : Z := Z.shiftl 16 20.
Definition maxMetadataFileSize : Z := Z.shiftl 8 20.
Definition metadataFilename : string := "certs.json".
Definition acmeIndexFilename : string := "acme-domains.json".

(** [filepath.Rel] of cleaned absolute paths never fails: what [root] has beyond
    the common part becomes [..]. *)
Fixpoint Rel (root candidate : Path) : Path :=
  match root, candidate with
  | c :: root', c' :: candidate' =>
      if bool_decide (c = c') then Rel root' candidate' else ((λ _, "..") <$> root) ++ candidate
  | _, _ => ((λ _, "..") <$> root) ++ candidate
  end.
Definition ensureContained (root candidate : Path) : result PathError () :=
  check (bool_decide (head (Rel root candidate) = Some "..")) PathEscapes.

Section certpath.
Context `{!Sha256, !AbsPath}.

Definition cleanRoot (cacheDir : string) : result PathError Path :=
  let cacheDir := TrimSpace cacheDir in
  check (bool_decide (cacheDir = "")) EmptyCacheDir ≫= λ _,
  match Abs cacheDir with Some p => Ok p | None => Err AbsFailed end.

Definition stem (canonical : string) : string := "d-" +:+ sha256 canonical.
Definition pathsFor (cacheDir : string) (namespace : Namespace) (domain : string) : result PathError (pairPaths * string) :=
  canonical ← Normalize domain true;
  root ← cleanRoot cacheDir;
  let directory := match namespace with ACME => root | Manual => root ++ ["manual"] end in
  _ ← ensureContained root directory;
  let certPath := directory ++ [stem canonical +:+ ".crt"] in
  let keyPath := directory ++ [stem canonical +:+ ".key"] in
  _ ← ensureContained directory certPath;
  _ ← ensureContained directory keyPath;
  Ok ({| directory := directory; cert := certPath; key := keyPath |}, canonical).

(** ** Files *)

Definition sys {A} (m : IO World SysError A) : IO World PathError A := map_err Sys m.

Definition ensureDirectory (path : Path) : IO World PathError () :=
  map_err (λ e, Wrapped "create" (Sys e)) (MkdirAll path) ≫= λ _,
  map_err (λ e, Wrapped "inspect" (Sys e)) (Lstat path) ≫= λ info,
  match info with Directory => mret () | _ => fail DirectoryIsLink end.

Definition regularFileExists (path : Path) : IO World PathError bool :=
  try (Lstat path) ≫= λ r,
  match r with
  | Err ENOENT => mret false
  | Err e => fail (Sys e)
  | Ok (RegularFile _ _ _) => mret true
  | Ok _ => fail NotRegular
  end.

Definition readRegularFile (path : Path) (maxSize : Z) : IO World PathError string :=
  sys (Lstat path) ≫= λ pathInfo,
  match pathInfo with
  | RegularFile id _ _ =>
      sys (Open path) ≫= λ file,
      sys (on_handle "fstat") ≫= λ _,
      match file with
      | RegularFile id' _ data =>
          if (id' =? id)%nat then
            sys (on_handle "read") ≫= λ _,
            if maxSize <? Z.of_nat (String.length data) then fail TooLarge else mret data
          else fail ChangedWhileOpening
      | _ => fail ChangedWhileOpening
      end
  | _ => fail NotRegular
  end.

Definition removeTemporary (id : nat) : IO World PathError () := try (RemoveTemp id) ≫= λ _, mret ().
Definition closeAndRemove (id : nat) : IO World PathError () := try (on_handle "close") ≫= λ _, removeTemporary id.

(** The target as it was found before and after the temporary file was written. *)
Definition target_unchanged (original : option Node) (current : result SysError Node) : result PathError () :=
  match original, current with
  | None, Ok _ => Err TargetAppeared
  | None, Err ENOENT => Ok ()
  | None, Err e => Err (Sys e)
  | Some _, Err _ => Err TargetChanged
  | Some (RegularFile id _ _), Ok (RegularFile id' _ _) => check (negb (id =? id')%nat) TargetChanged
  | Some _, Ok _ => Err TargetChanged
  end.

(** The temporary file is filled and takes the place of the target, unless that has changed. *)
Definition fill_temporary (original : option Node) (path dir : Path) (data : string) (mode : Z) (temporary : nat) : IO World PathError () :=
  or_cleanup (sys (ChmodTemp temporary mode)) (closeAndRemove temporary) ≫= λ _,
  or_cleanup (sys (WriteTemp temporary data)) (closeAndRemove temporary) ≫= λ _,
  or_cleanup (sys (on_handle "sync")) (closeAndRemove temporary) ≫= λ _,
  or_cleanup (sys (on_handle "close")) (removeTemporary temporary) ≫= λ _,
  try (Lstat path) ≫= λ current,
  or_cleanup (lift (target_unchanged original current)) (removeTemporary temporary) ≫= λ _,
  or_cleanup (sys (RenameTemp temporary path)) (removeTemporary temporary) ≫= λ _,
  sys (SyncDir dir).

Definition atomicWriteFile (path : Path) (data : string) (mode : Z) : IO World PathError () :=
  let dir := take (length path - 1) path in
  ensureDirectory dir ≫= λ _,
  try (Lstat path) ≫= λ r,
  lift (match r with
        | Ok (RegularFile _ _ _ as info) => Ok (Some info)
        | Ok _ => Err NotRegular
        | Err ENOENT => Ok None
        | Err e => Err (Sys e)
        end) ≫= λ original,
  sys (CreateTemp dir) ≫= λ temporary,
  fill_temporary original path dir data mode temporary.

Definition removeRegularFile (path : Path) : IO World PathError () :=
  try (Lstat path) ≫= λ r,
  match r with
  | Err ENOENT => mret ()
  | Err e => fail (Sys e)
  | Ok (RegularFile _ _ _) => sys (Remove path)
  | Ok _ => fail NotRegular
  end.

(** ** Pairs *)

(** The scan of the directory for files named after the domain. *)
Fixpoint scan_legacy (canonical : string) (entries : list (string * Node)) (certName keyName : option string)
    : result PathError (option string * option string) :=
  match entries with
  | [] => Ok (certName, keyName)
  | (name, entry) :: entries =>
      let consider (suffix : string) (found : result PathError (option string * option string)) :=
        match Normalize (TrimSuffix name suffix) true with
        | Ok legacyDomain =>
            if bool_decide (legacyDomain = canonical) then
              match entry with
              | SymLink _ | Directory => Err LegacyNotRegular
              | _ => found
              end ≫= λ '(certName, keyName), scan_legacy canonical entries certName keyName
            else scan_legacy canonical entries certName keyName
        | Err _ => scan_legacy canonical entries certName keyName
        end in
      if HasSuffix name ".crt" then
        consider ".crt" (match certName with Some _ => Err MultipleLegacyCertificates | None => Ok (Some name, keyName) end)
      else if HasSuffix name ".key" then
        consider ".key" (match keyName with Some _ => Err MultipleLegacyKeys | None => Ok (certName, Some name) end)
      else scan_legacy canonical entries certName keyName
  end.

Definition migrateLegacyPair (paths : pairPaths) (canonical : string) : IO World PathError bool :=
  try (ReadDir (directory paths)) ≫= λ r,
  match r with
  | Err ENOENT => mret false
  | Err e => fail (Sys e)
  | Ok entries =>
      lift (scan_legacy canonical entries None None) ≫= λ names,
      match names with
      | (None, None) => mret false
      | (Some certName, Some keyName) =>
          let legacyCertPath := directory paths ++ [certName] in
          let legacyKeyPath := directory paths ++ [keyName] in
          readRegularFile legacyCertPath maxCertificateFileSize ≫= λ certPEM,
          readRegularFile legacyKeyPath maxCertificateFileSize ≫= λ keyPEM,
          atomicWriteFile (key paths) keyPEM 384 ≫= λ _,
          atomicWriteFile (cert paths) certPEM 420 ≫= λ _,
          removeRegularFile legacyCertPath ≫= λ _,
          removeRegularFile legacyKeyPath ≫= λ _,
          sys (SyncDir (directory paths)) ≫= λ _,
          mret true
      | _ => fail IncompleteLegacyPair
      end
  end.

Definition ReadPair (cacheDir : string) (namespace : Namespace) (domain : string) : IO World PathError (string * string) :=
  lift (pathsFor cacheDir namespace domain) ≫= λ '(paths, canonical),
  regularFileExists (cert paths) ≫= λ certExists,
  regularFileExists (key paths) ≫= λ keyExists,
  (if negb certExists && negb keyExists then
     migrateLegacyPair paths canonical ≫= λ migrated,
     if negb migrated then fail NoPair else mret (true, true)
   else mret (certExists, keyExists)) ≫= λ '(certExists, keyExists),
  if negb certExists || negb keyExists then fail (IncompletePair canonical)
  else
    map_err (Wrapped "read certificate") (readRegularFile (cert paths) maxCertificateFileSize) ≫= λ certPEM,
    map_err (Wrapped "read private key") (readRegularFile (key paths) maxCertificateFileSize) ≫= λ keyPEM,
    mret (certPEM, keyPEM).

Definition WritePair (cacheDir : string) (namespace : Namespace) (domain certPEM keyPEM : string) : IO World PathError () :=
  lift (check (bool_decide (certPEM = "") || bool_decide (keyPEM = "")) EmptyPEM) ≫= λ _,
  lift (pathsFor cacheDir namespace domain) ≫= λ '(paths, canonical),
  ensureDirectory (directory paths) ≫= λ _,
  map_err (Wrapped "write private key") (atomicWriteFile (key paths) keyPEM 384) ≫= λ _,
  map_err (Wrapped "write certificate") (atomicWriteFile (cert paths) certPEM 420).

Definition RemovePair (cacheDir : string) (namespace : Namespace) (domain : string) : IO World PathError () :=
  lift (pathsFor cacheDir namespace domain) ≫= λ '(paths, canonical),
  map_err (Wrapped "inspect certificate") (regularFileExists (cert paths)) ≫= λ certExists,
  map_err (Wrapped "inspect private key") (regularFileExists (key paths)) ≫= λ keyExists,
  if negb certExists && negb keyExists then mret ()
  else
    map_err (Wrapped "remove certificate") (removeRegularFile (cert paths)) ≫= λ _,
    map_err (Wrapped "remove private key") (removeRegularFile (key paths)) ≫= λ _,
    sys (SyncDir (directory paths)).

(** ** The two documents *)

Definition writeFixedDocument (cacheDir filename data : string) : IO World PathError () :=
  lift (cleanRoot cacheDir) ≫= λ root,
  ensureDirectory root ≫= λ _,
  atomicWriteFile (root ++ [filename]) data 384.
Definition read_document (cacheDir filename : string) : IO World PathError string :=
  lift (cleanRoot cacheDir) ≫= λ root, readRegularFile (root ++ [filename]) maxMetadataFileSize.
Definition ReadMetadata (cacheDir : string) : IO World PathError string := read_document cacheDir metadataFilename.
Definition WriteMetadata (cacheDir data : string) : IO World PathError () := writeFixedDocument cacheDir metadataFilename data.
Definition ReadACMEIndex (cacheDir : string) : IO World PathError string := read_document cacheDir acmeIndexFilename.
Definition WriteACMEIndex (cacheDir data : string) : IO World PathError () := writeFixedDocument cacheDir acmeIndexFilename data.
End certpath.
