(* ===== verification/CertPathSpec.v ===== *)
(** * The certificate directory: what its operations guarantee

    The specification of the file operations when other processes leave the
    directory alone and any call may fail, and the names of certificates. *)

From S2P Require Import Prelude GoStrings NetIP FileIO CertPath.

(** ** Changes of the file system *)

(** Nothing but the files [files] changed, and directories missing on the way to
    [dir] may have been created. *)
Definition evolves (files : list Path) (dir : Path) (d d' : FS) : Prop :=
  ∀ q, q ∉ files → fs_nodes d' !! q = fs_nodes d !! q ∨
                   (q `prefix_of` dir ∧ fs_nodes d !! q = None ∧ fs_nodes d' !! q = Some Directory).

Lemma evolves_refl files dir d : evolves files dir d d.
Proof. by left. Qed.
Lemma evolves_trans files dir d1 d2 d3 : evolves files dir d1 d2 → evolves files dir d2 d3 → evolves files dir d1 d3.
Proof.
  intros H1 H2 q Hq. destruct (H1 q Hq) as [E1|(? & ? & E1)], (H2 q Hq) as [E2|(? & E2' & E2)].
  - left. congruence.
  - right. split; [done|]. split; congruence.
  - right. split; [done|]. split; [done|congruence].
  - right. split; [done|]. split; [done|congruence].
Qed.
Lemma evolves_mono files files' dir dir' d d' :
  files ⊆ files' → dir `prefix_of` dir' → evolves files dir d d' → evolves files' dir' d d'.
Proof. intros Hf Hd H q Hq. destruct (H q) as [?|(? & ?)]; [set_solver|by left|right]. split; [by etrans|done]. Qed.
Lemma evolves_set_node p n dir d : evolves [p] dir d (set_node p n d).
Proof. intros q Hq. left. apply set_node_ne. set_solver. Qed.

(** Whether the file system at the end is [d] but for temporary files. *)
Lemma evolves_nodes files dir d d' : fs_nodes d' = fs_nodes d → evolves files dir d d'.
Proof. intros H q _. left. by rewrite H. Qed.

Lemma follow_Directory fuel d p : fs_nodes d !! p = Some Directory → follow fuel d p = Ok Directory.
Proof. intros H. destruct fuel; unfold follow; by rewrite H. Qed.

Lemma make_dir_evolves p dir d : p `prefix_of` dir → evolves [] dir d (make_dir p d).
Proof.
  intros Hp q _. unfold make_dir. destruct (fs_nodes d !! p) eqn:Hn; [by left|].
  destruct (decide (q = p)) as [->|]; [right; by rewrite set_node_eq|left; apply set_node_ne; congruence].
Qed.

(** [os.MkdirAll] creates what is missing on the way and nothing else. *)
Lemma mkdirs_evolves todo done d : evolves [] (done ++ todo) d (mkdirs done todo d).2.
Proof.
  revert done d. induction todo as [|c todo IH]; intros done d; simpl.
  - assert (evolves [] (done ++ []) d (make_dir done d)) by (apply make_dir_evolves; by eexists).
    by destruct (follow _ _ _) as [[]|].
  - assert (evolves [] (done ++ c :: todo) d (make_dir done d)) as Hd by (apply make_dir_evolves; by eexists).
    destruct (follow _ _ _) as [[]|]; try done.
    eapply evolves_trans; [exact Hd|]. rewrite cons_middle, app_assoc. apply IH.
Qed.

(** Where every directory on the way is missing or real, [os.MkdirAll] succeeds. *)
Definition plain_dir (d : FS) (dir : Path) : Prop :=
  ∀ p, p `prefix_of` dir → fs_nodes d !! p = None ∨ fs_nodes d !! p = Some Directory.

Lemma make_dir_plain p d : fs_nodes d !! p = None ∨ fs_nodes d !! p = Some Directory →
  fs_nodes (make_dir p d) !! p = Some Directory.
Proof. unfold make_dir. intros [H|H]; rewrite H; [apply set_node_eq|done]. Qed.

Lemma evolves_plain_dir files dir dir' d d' :
  evolves files dir' d d' → (∀ q, q ∈ files → ¬ q `prefix_of` dir) → plain_dir d dir → plain_dir d' dir.
Proof.
  intros H Hf Hp p Hpre. destruct (H p) as [E|(_ & _ & E)].
  - intros Hin. by apply (Hf p).
  - rewrite E. auto.
  - by right.
Qed.

Lemma mkdirs_ok todo done d : plain_dir d (done ++ todo) →
  (mkdirs done todo d).1 = Ok () ∧ fs_nodes (mkdirs done todo d).2 !! (done ++ todo) = Some Directory.
Proof.
  revert done d. induction todo as [|c todo IH]; intros done d Hp; simpl.
  - rewrite app_nil_r in *. pose proof (make_dir_plain done d (Hp done ltac:(done))) as Hd.
    by rewrite (follow_Directory _ _ _ Hd).
  - pose proof (make_dir_plain done d (Hp done ltac:(by eexists))) as Hd.
    rewrite (follow_Directory _ _ _ Hd). replace (done ++ c :: todo) with ((done ++ [c]) ++ todo) by (by rewrite <-app_assoc).
    apply IH. rewrite <-app_assoc. eapply (evolves_plain_dir []); [|set_solver|exact Hp].
    apply (make_dir_evolves done (done ++ c :: todo)). by eexists.
Qed.

(** ** Calls *)

(** What an operation on the files [files] below [dir] preserves: whatever fails,
    nobody interferes, and nothing else changes. *)
Definition tame (files : list Path) (dir : Path) (w w' : World) : Prop :=
  calm w' ∧ evolves files dir (w_fs w) (w_fs w') ∧ (w_events w = [] → w_events w' = []).

Lemma tame_refl files dir w : calm w → tame files dir w w.
Proof. intros. split_and!; [done|apply evolves_refl|done]. Qed.
Lemma tame_trans files dir w1 w2 w3 : tame files dir w1 w2 → tame files dir w2 w3 → tame files dir w1 w3.
Proof. intros (? & ? & ?) (? & ? & ?). split_and!; [done|by eapply evolves_trans|auto]. Qed.
Lemma tame_calm files dir w w' : tame files dir w w' → calm w'.
Proof. by intros (? & _). Qed.
Lemma tame_mono files files' dir dir' w w' :
  files ⊆ files' → dir `prefix_of` dir' → tame files dir w w' → tame files' dir' w w'.
Proof. intros ? ? (? & ? & ?). split_and!; [done|by eapply evolves_mono|done]. Qed.
Lemma tame_node files dir w w' q :
  tame files dir w w' → q ∉ files → ¬ q `prefix_of` dir → fs_nodes (w_fs w') !! q = fs_nodes (w_fs w) !! q.
Proof. intros (_ & H & _) Hf Hd. by destruct (H q Hf) as [?|(? & _)]. Qed.
#[export] Hint Resolve tame_refl tame_calm evolves_refl : vmflow.

(** A call after which every path leads where it led before. *)
Definition quietly (w w' : World) : Prop :=
  calm w' ∧ fs_nodes (w_fs w') = fs_nodes (w_fs w) ∧ (w_events w = [] → w_events w' = []).
Lemma quietly_refl w : calm w → quietly w w.
Proof. by intros ?. Qed.
Lemma quietly_trans w1 w2 w3 : quietly w1 w2 → quietly w2 w3 → quietly w1 w3.
Proof. intros (? & H1 & ?) (? & H2 & ?). split_and!; [done|by rewrite H2|auto]. Qed.
Lemma quietly_tame files dir w w' : quietly w w' → tame files dir w w'.
Proof. intros (? & ? & ?). split_and!; [done|by apply evolves_nodes|done]. Qed.
#[export] Hint Resolve quietly_refl quietly_tame : vmflow.

(** The outcome of a call that the environment may make fail. *)
Definition answers {A} (w : World) (r expected : result SysError A) : Prop :=
  r = expected ∨ (w_events w ≠ [] ∧ ∃ call, r = Err (EOTHER call)).
Lemma answers_nil {A} w (r expected : result SysError A) : answers w r expected → w_events w = [] → r = expected.
Proof. by intros [?|[? _]]. Qed.

Lemma wp_read {A} call (f : FS → result SysError A * FS) Q w :
  calm w → (∀ d, (f d).2 = d) →
  (∀ r w', quietly w w' → w_fs w' = w_fs w → answers w r (f (w_fs w)).1 → Q r w') → wp (syscall call f) Q w.
Proof.
  intros Hc Hf HQ. apply wp_syscall; [done|..].
  - intros w' ? Hfs ?. apply HQ; [split_and!; [done|by rewrite Hfs|done]|done|right; eauto].
  - intros w' ? Hfs ?. rewrite Hf in Hfs. apply HQ; [split_and!; [done|by rewrite Hfs|done]|done|by left].
Qed.

Definition lookup_node (d : FS) (p : Path) : result SysError Node :=
  match fs_nodes d !! p with Some n => Ok n | None => Err ENOENT end.
Lemma wp_Lstat p Q w : calm w →
  (∀ r w', quietly w w' → w_fs w' = w_fs w → answers w r (lookup_node (w_fs w) p) → Q r w') → wp (Lstat p) Q w.
Proof. intros. by apply wp_read. Qed.
Lemma wp_Open p Q w : calm w →
  (∀ r w', quietly w w' → w_fs w' = w_fs w → answers w r (follow 40 (w_fs w) p) → Q r w') → wp (Open p) Q w.
Proof. intros. by apply wp_read. Qed.
Lemma wp_on_handle call Q w : calm w →
  (∀ r w', quietly w w' → w_fs w' = w_fs w → answers w r (Ok ()) → Q r w') → wp (on_handle call) Q w.
Proof. intros. by apply wp_read. Qed.
Lemma wp_ReadDir p Q w : calm w →
  (∀ r w', quietly w w' → w_fs w' = w_fs w → (∀ l, r = Ok l → l = dir_entries p (w_fs w)) → Q r w') → wp (ReadDir p) Q w.
Proof.
  intros Hc HQ. apply wp_read; [done|done|]. intros r w' Hq Hfs Hr. apply HQ; [done..|].
  intros l ->. destruct Hr as [Hr|(_ & call & Hr)]; [|done]. simpl in Hr. destruct (follow _ _ _) as [[]|]; congruence.
Qed.
Lemma wp_MkdirAll p Q w : calm w →
  (∀ r w', tame [] p w w' → (w_events w = [] → plain_dir (w_fs w) p → r = Ok ()) → 
     (plain_dir (w_fs w) p → r = Ok () → fs_nodes (w_fs w') !! p = Some Directory) → Q r w') → wp (MkdirAll p) Q w.
Proof.
  intros Hc HQ. apply wp_syscall; [done|..].
  - intros w' ? Hfs ?. apply HQ; [split_and!; [done|rewrite Hfs; apply evolves_refl|done]|done|done].
  - intros w' ? Hfs ?. apply HQ.
    + split_and!; [done|rewrite Hfs; apply (mkdirs_evolves p [])|done].
    + intros _ Hp. apply (mkdirs_ok p [] _ Hp).
    + intros Hp _. rewrite Hfs. apply (mkdirs_ok p [] _ Hp).
Qed.

(** Calls on the temporary file: [n] is what it is before, [n'] after. *)
Lemma wp_temp {A} call (f : FS → result SysError A * FS) id n n' Q w :
  calm w → fs_temps (w_fs w) !! id = n →
  (∀ d, fs_nodes (f d).2 = fs_nodes d) → (∀ d, fs_temps d !! id = n → fs_temps (f d).2 !! id = n') →
  (∀ r w', quietly w w' → answers w r (f (w_fs w)).1 → (is_ok r = true → fs_temps (w_fs w') !! id = n') → Q r w') →
  wp (syscall call f) Q w.
Proof.
  intros Hc Hn Hf Hid HQ. apply wp_syscall; [done|..].
  - intros w' ? Hfs ?. apply HQ; [split_and!; [done|by rewrite Hfs|done]|right; eauto|done].
  - intros w' ? Hfs ?. apply HQ; [split_and!; [done|by rewrite Hfs|done]|by left|]. intros _. rewrite Hfs. auto.
Qed.
Lemma wp_RemoveTemp id (Q : result SysError () → World → Prop) w : calm w → (∀ r w', quietly w w' → Q r w') → wp (RemoveTemp id) Q w.
Proof.
  intros Hc HQ. apply (wp_temp _ _ id (fs_temps (w_fs w) !! id) None); [done..| |auto].
  intros d _. simpl. apply lookup_partial_alter_eq.
Qed.
Lemma wp_removeTemporary id (Q : result PathError () → World → Prop) w : calm w → (∀ r w', quietly w w' → Q r w') → wp (removeTemporary id) Q w.
Proof. intros Hc HQ. apply wp_bind, wp_try, wp_RemoveTemp; [done|]. intros. by apply wp_ret, HQ. Qed.
Lemma wp_closeAndRemove id (Q : result PathError () → World → Prop) w : calm w → (∀ r w', quietly w w' → Q r w') → wp (closeAndRemove id) Q w.
Proof.
  intros Hc HQ. apply wp_bind, wp_try, wp_on_handle; [done|]. intros r w' Hq _ _.
  apply wp_removeTemporary; [by destruct Hq|]. intros r' w'' Hq'. apply HQ. by eapply quietly_trans.
Qed.

(** ** Operations *)

Lemma wp_ensureDirectory p Q w : calm w →
  (∀ r w', tame [] p w w' → (r = Ok () → fs_nodes (w_fs w') !! p = Some Directory) →
     (w_events w = [] → plain_dir (w_fs w) p → r = Ok ()) → Q r w') → wp (ensureDirectory p) Q w.
Proof.
  intros Hc HQ. apply wp_bind, wp_map_err, wp_MkdirAll; [done|]. intros r w1 Ht Hok Hdir.
  destruct r as [u|e].
  - apply wp_bind, wp_map_err, wp_Lstat; [by destruct Ht|]. intros r w2 Hq Hfs Hr.
    assert (tame [] p w w2) as Ht2 by (eapply tame_trans; eauto with vmflow). destruct u.
    destruct r as [info|e].
    + destruct Hr as [Hr|(_ & call & [=])]. unfold lookup_node in Hr. rewrite <-Hfs in Hr.
      destruct info; (apply wp_ret || apply wp_fail); apply HQ; try done; try congruence.
      * intros Hev Hp. rewrite Hfs, (Hdir Hp eq_refl) in Hr. congruence.
      * intros _. by destruct (fs_nodes (w_fs w2) !! p); simplify_eq.
      * intros Hev Hp. rewrite Hfs, (Hdir Hp eq_refl) in Hr. congruence.
      * intros Hev Hp. rewrite Hfs, (Hdir Hp eq_refl) in Hr. congruence.
    + apply HQ; [done|done|]. intros Hev Hp. destruct Ht as (_ & _ & Hnil).
      pose proof (answers_nil _ _ _ Hr (Hnil Hev)) as Hr'. unfold lookup_node in Hr'.
      by rewrite (Hdir Hp eq_refl) in Hr'.
  - apply HQ; [done|done|]. intros Hev Hp. by specialize (Hok Hev Hp).
Qed.

Definition dir_of (path : Path) : Path := take (length path - 1) path.
Lemma dir_of_snoc dir name : dir_of (dir ++ [name]) = dir.
Proof. unfold dir_of. rewrite length_app. simpl. by rewrite Nat.add_sub, take_app_length. Qed.

(** The target is a regular file or nothing, below real or missing directories. *)
Definition writable (d : FS) (dir : Path) (name : string) : Prop :=
  plain_dir d dir ∧ match fs_nodes d !! (dir ++ [name]) with None | Some (RegularFile _ _ _) => True | _ => False end.

Definition holds (d : FS) (p : Path) (mode : Z) (data : string) : Prop :=
  ∃ id, fs_nodes d !! p = Some (RegularFile id mode data).

Lemma snoc_not_prefix {A} (l : list A) x : ¬ (l ++ [x]) `prefix_of` l.
Proof. intros [k Hk]. apply (f_equal length) in Hk. rewrite !length_app in Hk. simpl in Hk. lia. Qed.

(** The last calls of [atomicWriteFile]: the complete temporary file takes the
    place of the target. *)
Lemma wp_replace id path dir mode data (Q : result PathError () → World → Prop) w : calm w →
  fs_temps (w_fs w) !! id = Some (RegularFile id mode data) →
  (∀ r w', tame [path] dir w w' →
     (fs_nodes (w_fs w') !! path = fs_nodes (w_fs w) !! path ∧ r ≠ Ok () ∨ holds (w_fs w') path mode data) →
     (w_events w = [] → fs_nodes (w_fs w) !! path ≠ Some Directory → fs_nodes (w_fs w) !! dir = Some Directory →
        dir ≠ path → r = Ok ()) → Q r w') →
  wp (or_cleanup (sys (RenameTemp id path)) (removeTemporary id) ≫= λ _, sys (SyncDir dir)) Q w.
Proof.
  intros Hc Htemp HQ. apply wp_bind, wp_or_cleanup, wp_map_err.
  apply wp_syscall; [done|..].
  - intros w1 Hc1 Hfs Hev. apply wp_removeTemporary; [done|]. intros _ w2 Hq.
    assert (quietly w w2) as Hq2. { eapply quietly_trans; [|exact Hq]. split_and!; [done|by rewrite Hfs|done]. }
    apply HQ; [by apply quietly_tame| |done]. left. by destruct Hq2 as (_ & -> & _).
  - intros w1 Hc1 Hfs Hev. rewrite Htemp in *.
    assert (fs_nodes (w_fs w) !! path = Some Directory ∨ fs_nodes (w_fs w) !! path ≠ Some Directory ∧
            w_fs w1 = set_temp id None (set_node path (Some (RegularFile id mode data)) (w_fs w))) as [Hd|[Hnd Hfs1]].
    { destruct (fs_nodes (w_fs w) !! path) as [[]|]; auto. }
    + rewrite Hd in *. simpl in *. apply wp_removeTemporary; [done|]. intros _ w2 Hq.
      assert (quietly w w2) as Hq2. { eapply quietly_trans; [|exact Hq]. split_and!; [done|by rewrite Hfs|done]. }
      apply HQ; [by apply quietly_tame|left|done]. split; [|done]. by destruct Hq2 as (_ & -> & _).
    + assert (tame [path] dir w w1) as Ht.
      { split_and!; [done| |done]. rewrite Hfs1. intros q Hq. left. rewrite set_temp_nodes. apply set_node_ne. set_solver. }
      assert (holds (w_fs w1) path mode data) as Hh by (exists id; rewrite Hfs1, set_temp_nodes; apply set_node_eq).
      replace (match fs_nodes (w_fs w) !! path with Some Directory => _ | _ => _ end)
        with (@Ok SysError () (), set_temp id None (set_node path (Some (RegularFile id mode data)) (w_fs w)))
        by (destruct (fs_nodes (w_fs w) !! path) as [[]|]; done).
      apply wp_map_err, wp_bind. apply wp_read; [done|done|]. intros r w2 Hq2 Hfs2 Hr2.
      assert (w_events w = [] → fs_nodes (w_fs w) !! dir = Some Directory → dir ≠ path → r = Ok ()) as Hok.
      { intros Hnil Hdir Hne. rewrite (answers_nil _ _ _ Hr2 (Hev Hnil)). simpl.
        rewrite (follow_Directory 40 (w_fs w1) dir); [done|]. rewrite Hfs1, set_temp_nodes. by rewrite set_node_ne by done. }
      destruct r as [u|e].
      * apply wp_on_handle; [by destruct Hq2|]. intros r w3 Hq3 Hfs3 Hr3. apply HQ.
        -- eapply tame_trans; [exact Ht|]. apply quietly_tame. by eapply quietly_trans.
        -- right. by rewrite Hfs3, Hfs2.
        -- intros Hnil _ _ _. destruct Hq2 as (_ & _ & Hn2). by rewrite (answers_nil _ _ _ Hr3 (Hn2 (Hev Hnil))).
      * apply HQ; [eapply tame_trans; [exact Ht|by apply quietly_tame]|right; by rewrite Hfs2|].
        intros Hnil _ Hdir Hne. by specialize (Hok Hnil Hdir Hne).
Qed.

(** One call on the temporary file, with its cleanup when it fails. *)
Lemma wp_temp_step {A B E} (inj : SysError → E) call (f : FS → result SysError A * FS) id n n' cleanup (rest : IO World E B) Q w :
  calm w → fs_temps (w_fs w) !! id = n →
  (∀ d, fs_nodes (f d).2 = fs_nodes d) → (∀ d, is_ok (f d).1 = true) →
  (∀ d, fs_temps d !! id = n → fs_temps (f d).2 !! id = n') →
  (∀ w1 Q', calm w1 → (∀ r w2, quietly w1 w2 → Q' r w2) → wp cleanup Q' w1) →
  (∀ e w', quietly w w' → w_events w ≠ [] → Q (Err e) w') →
  (∀ w', quietly w w' → fs_temps (w_fs w') !! id = n' → wp rest Q w') →
  wp (or_cleanup (map_err inj (syscall call f)) cleanup ≫= λ _, rest) Q w.
Proof.
  intros Hc Hn Hf Hok Hid Hclean Herr Hrest. apply wp_bind, wp_or_cleanup, wp_map_err.
  apply (wp_temp _ _ id n n'); [done..|]. intros r w1 Hq Hr Hid1. destruct r as [a|e].
  - auto.
  - destruct Hr as [Hr|[Hev _]]; [specialize (Hok (w_fs w)); by rewrite <-Hr in Hok|].
    apply Hclean; [by destruct Hq|]. intros _ w2 Hq2. apply Herr; [by eapply quietly_trans|done].
Qed.

Definition regular_or_none (o : option Node) : Prop := match o with None | Some (RegularFile _ _ _) => True | _ => False end.

Lemma target_unchanged_ok original (current : result SysError Node) :
  regular_or_none original → current = match original with Some n => Ok n | None => Err ENOENT end →
  target_unchanged original current = Ok ().
Proof. intros Ho ->. destruct original as [[]|]; try done. simpl. by rewrite Nat.eqb_refl. Qed.

(** What writing [data] to [path] may have led to. *)
Definition replaced (path : Path) (mode : Z) (data : string) (r : result PathError ()) (w w' : World) : Prop :=
  (fs_nodes (w_fs w') !! path = fs_nodes (w_fs w) !! path ∧ r ≠ Ok ()) ∨ holds (w_fs w') path mode data.

Lemma replaced_err path mode data e w w' : fs_nodes (w_fs w') !! path = fs_nodes (w_fs w) !! path → replaced path mode data (Err e) w w'.
Proof. by left. Qed.

Lemma wp_fill id original path dir mode data Q w : calm w →
  fs_temps (w_fs w) !! id = Some (RegularFile id 384 "") →
  (∀ r w', tame [path] dir w w' → replaced path mode data r w w' →
     (w_events w = [] → fs_nodes (w_fs w) !! path = original → regular_or_none original →
        fs_nodes (w_fs w) !! dir = Some Directory → dir ≠ path → r = Ok ()) → Q r w') →
  wp (fill_temporary original path dir data mode id) Q w.
Proof.
  intros Hc Htemp HQ.
  assert (∀ w1 e w2, quietly w w1 → quietly w1 w2 → (w_events w1 ≠ [] ∨ w_events w ≠ []) → Q (Err e) w2) as Herr.
  { intros w1 e w2 H1 H2 Hne. assert (quietly w w2) as H12 by by eapply quietly_trans.
    apply HQ; [by apply quietly_tame|apply replaced_err; by destruct H12 as (_ & -> & _)|].
    intros Hev. destruct H1 as (_ & _ & Hn). by destruct Hne as [[]|[]]; auto. }
  unfold fill_temporary.
  apply (wp_temp_step Sys _ _ id _ (Some (RegularFile id mode "")) _ _ _ _ Hc Htemp).
  { intros d. simpl. by destruct (fs_temps d !! id) as [[]|]. }
  { done. }
  { intros d Hd. rewrite Hd. apply (set_temp_eq id). }
  { intros. by apply wp_closeAndRemove. }
  { intros e w1 Hq Hne. eapply (Herr w); eauto with vmflow. }
  intros w1 Hq1 Ht1.
  apply (wp_temp_step Sys _ _ id _ (Some (RegularFile id mode data)) _ _ _ _ (proj1 Hq1) Ht1).
  { intros d. simpl. by destruct (fs_temps d !! id) as [[]|]. }
  { done. }
  { intros d Hd. rewrite Hd. apply (set_temp_eq id). }
  { intros. by apply wp_closeAndRemove. }
  { intros e w2 Hq Hne. eapply (Herr w1); eauto. }
  intros w2 Hq2 Ht2. assert (quietly w w2) as Hw2 by by eapply quietly_trans.
  apply (wp_temp_step Sys _ _ id _ (Some (RegularFile id mode data)) _ _ _ _ (proj1 Hq2) Ht2); [done..| | |].
  { intros. by apply wp_closeAndRemove. }
  { intros e w3 Hq Hne. eapply (Herr w2); eauto. }
  intros w3 Hq3 Ht3. assert (quietly w w3) as Hw3 by by eapply quietly_trans.
  apply (wp_temp_step Sys _ _ id _ (Some (RegularFile id mode data)) _ _ _ _ (proj1 Hq3) Ht3); [done..| | |].
  { intros. by apply wp_removeTemporary. }
  { intros e w4 Hq Hne. eapply (Herr w3); eauto. }
  intros w4 Hq4 Ht4. assert (quietly w w4) as Hw4 by by eapply quietly_trans.
  apply wp_bind, wp_try, wp_Lstat; [apply Hq4|]. intros r w5 Hq5 Hfs5 Hr5.
  assert (quietly w w5) as Hw5 by by eapply quietly_trans.
  apply wp_bind, wp_or_cleanup, wp_lift.
  destruct (target_unchanged original r) as [[]|e] eqn:Htu.
  - apply (wp_replace id path dir mode data); [apply Hw5|by rewrite Hfs5|].
    pose proof Hw5 as (Hc5 & Hn5 & Hev5). rewrite Hn5. intros r' w6 Ht6 Hres Hok. apply HQ.
    + eapply (tame_trans _ _ _ w5); [by apply quietly_tame|exact Ht6].
    + exact Hres.
    + intros Hev Ho Hreg Hdir Hne. apply Hok; auto. rewrite Ho. by destruct original as [[]|].
  - apply wp_removeTemporary; [apply Hw5|]. intros _ w6 Hq6. assert (quietly w w6) as Hw6 by by eapply quietly_trans.
    apply HQ; [by apply quietly_tame|apply replaced_err; by destruct Hw6 as (_ & -> & _)|].
    intros Hev Ho Hreg _ _. destruct Hw4 as (_ & Hn4 & Hev4).
    rewrite (answers_nil _ _ _ Hr5 (Hev4 Hev)) in Htu. unfold lookup_node in Htu.
    rewrite Hn4, Ho in Htu. by rewrite target_unchanged_ok in Htu by done.
Qed.

(** [atomicWriteFile]: the file holds the new content, or what it held before and
    the call reports an error; it succeeds when no call fails. *)
Lemma wp_atomicWriteFile dir name data mode Q w : calm w →
  (∀ r w', tame [dir ++ [name]] dir w w' → replaced (dir ++ [name]) mode data r w w' →
     (w_events w = [] → writable (w_fs w) dir name → r = Ok ()) → Q r w') →
  wp (atomicWriteFile (dir ++ [name]) data mode) Q w.
Proof.
  intros Hc HQ. set (path := dir ++ [name]) in *.
  assert (¬ path `prefix_of` dir) as Hpath by apply snoc_not_prefix.
  unfold atomicWriteFile. fold (dir_of path). replace (dir_of path) with dir by (symmetry; apply dir_of_snoc).
  apply wp_bind, wp_ensureDirectory; [done|]. intros r w1 Ht1 Hd1 Hok1.
  assert (fs_nodes (w_fs w1) !! path = fs_nodes (w_fs w) !! path) as Hn1 by (eapply tame_node; [done|set_solver|done]).
  assert (tame [path] dir w w1) as Ht1' by (eapply tame_mono; [| |exact Ht1]; [set_solver|done]).
  destruct r as [[]|e]; [|apply HQ; [done|by apply replaced_err|]; intros Hev [Hp _]; by specialize (Hok1 Hev Hp)].
  apply wp_bind, wp_try, wp_Lstat; [apply Ht1|]. intros r w2 Hq2 Hfs2 Hr2.
  assert (tame [path] dir w w2) as Ht2 by (eapply (tame_trans _ _ _ w1); [exact Ht1'|by apply quietly_tame]).
  apply wp_bind, wp_lift.
  set (orig := match r with Ok (RegularFile _ _ _ as info) => _ | Ok _ => _ | Err ENOENT => _ | Err e => _ end).
  assert (w_events w = [] → writable (w_fs w) dir name → orig = Ok (fs_nodes (w_fs w) !! path) ∧ regular_or_none (fs_nodes (w_fs w) !! path)) as Horig.
  { intros Hev [_ Hreg]. fold path in Hreg. destruct Ht1 as (_ & _ & Hev1). subst orig.
    rewrite (answers_nil _ _ _ Hr2 (Hev1 Hev)). unfold lookup_node. rewrite Hn1.
    by destruct (fs_nodes (w_fs w) !! path) as [[]|]. }
  destruct orig as [original|e].
  - apply wp_bind, wp_map_err. unfold CreateTemp. apply wp_syscall; [apply Ht2|..].
    + intros w3 Hc3 Hfs3 Hne. assert (tame [path] dir w w3) as Ht3.
      { eapply (tame_trans _ _ _ w2); [exact Ht2|]. apply quietly_tame. split_and!; [done|by rewrite Hfs3|done]. }
      apply HQ; [done|apply replaced_err; by rewrite Hfs3, Hfs2|].
      intros Hev. destruct Ht2 as (_ & _ & Hev2). by destruct Hne; auto.
    + intros w3 Hc3 Hfs3 Hev3. rewrite Hfs2, (follow_Directory 40 (w_fs w1) dir (Hd1 eq_refl)) in *. simpl in Hfs3.
      assert (tame [path] dir w w3) as Ht3.
      { eapply (tame_trans _ _ _ w2); [exact Ht2|]. apply quietly_tame. split_and!; [done|by rewrite Hfs3, Hfs2|done]. }
      apply (wp_fill _ original path dir mode data); [done| |].
      * rewrite Hfs3. simpl. by rewrite lookup_insert_eq.
      * intros r' w4 Ht4 Hres Hok. apply HQ.
        -- by eapply tame_trans.
        -- unfold replaced in *. rewrite Hfs3 in Hres. simpl in Hres. by rewrite Hn1 in Hres.
        -- intros Hev Hw. destruct (Horig Hev Hw) as [[= ->] Hreg]. rewrite Hfs3 in Hok. simpl in Hok.
           apply Hok; [by apply Ht3|done|done|by apply Hd1|]. intros Heq. apply Hpath. by rewrite <-Heq.
  - apply HQ; [done|apply replaced_err; by rewrite Hfs2|]. intros Hev Hw. by destruct (Horig Hev Hw).
Qed.

(** ** Pairs *)

Definition content (d : FS) (p : Path) : option string :=
  match fs_nodes d !! p with Some (RegularFile _ _ data) => Some data | _ => None end.
Lemma holds_content d p mode data : holds d p mode data → content d p = Some data.
Proof. intros [id H]. unfold content. by rewrite H. Qed.

(** No file of the directory is named after the domain, as older versions did. *)
Definition no_legacy (d : FS) (dir : Path) (canonical : string) : Prop :=
  ∀ name suffix, is_Some (fs_nodes d !! (dir ++ [name])) → HasSuffix name suffix = true →
    suffix = ".crt" ∨ suffix = ".key" → Normalize (TrimSuffix name suffix) true ≠ Ok canonical.

Lemma elem_of_dir_entries dir d name n : (name, n) ∈ dir_entries dir d → fs_nodes d !! (dir ++ [name]) = Some n.
Proof.
  unfold dir_entries. intros (x & Hx & Hf)%list_elem_of_omap.
  destruct (fs_nodes d !! (dir ++ [x])) eqn:Hn; [|done]. simpl in Hf. congruence.
Qed.

Lemma scan_no_legacy canonical entries certName keyName :
  (∀ name n suffix, (name, n) ∈ entries → HasSuffix name suffix = true → suffix = ".crt" ∨ suffix = ".key" →
     Normalize (TrimSuffix name suffix) true ≠ Ok canonical) →
  scan_legacy canonical entries certName keyName = Ok (certName, keyName).
Proof.
  induction entries as [|[name n] entries IH]; intros Hno; [done|].
  specialize (IH ltac:(intros; eapply Hno; [by right|done..])). cbn [scan_legacy].
  destruct (HasSuffix name ".crt") eqn:Hs; [|destruct (HasSuffix name ".key") eqn:Hs2; [|done]].
  - destruct (Normalize (TrimSuffix name ".crt") true) as [l|] eqn:Hn; [|done].
    case_bool_decide as Hl; [subst l|done]. exfalso. eapply Hno; [by left|exact Hs|by left|done].
  - destruct (Normalize (TrimSuffix name ".key") true) as [l|] eqn:Hn; [|done].
    case_bool_decide as Hl; [subst l|done]. exfalso. eapply Hno; [by left|exact Hs2|by right|done].
Qed.

(** Equations of outcomes that cannot hold. *)
Ltac outcome := first [done | congruence | by intros; simplify_eq].

Lemma wp_migrate_none paths canonical Q w : calm w → no_legacy (w_fs w) (directory paths) canonical →
  (∀ r w', quietly w w' → (∀ b, r = Ok b → b = false) → (∀ e, r = Err e → is_not_exist e = false ) →
     (w_events w = [] → plain_dir (w_fs w) (directory paths) → r = Ok false) → Q r w') →
  wp (migrateLegacyPair paths canonical) Q w.
Proof.
  intros Hc Hno HQ. apply wp_bind, wp_try. apply wp_read; [done|done|]. intros r w1 Hq Hfs Hr.
  destruct r as [entries|[|call]].
  - assert (entries = dir_entries (directory paths) (w_fs w)) as ->.
    { destruct Hr as [Hr|(_ & c & Hr)]; [|done]. simpl in Hr. destruct (follow _ _ _) as [[]|]; congruence. }
    apply wp_bind, wp_lift. rewrite scan_no_legacy; [|].
    + apply wp_ret, HQ; [done|outcome|done|done].
    + intros name n suffix Hin Hs Hsuf. apply Hno; [|done|done]. apply elem_of_dir_entries in Hin. by rewrite Hin.
  - apply wp_ret, HQ; [done|outcome|done|done].
  - apply wp_fail, HQ; [done|done|outcome|]. intros Hev Hp.
    pose proof (answers_nil _ _ _ Hr Hev) as Hr'. simpl in Hr'.
    destruct (Hp (directory paths) ltac:(done)) as [Hd|Hd].
    + unfold follow in Hr'. by rewrite Hd in Hr'.
    + by rewrite (follow_Directory _ _ _ Hd) in Hr'.
Qed.

Lemma wp_regularFileExists p (Q : result PathError bool → World → Prop) w : calm w →
  (∀ (r : result PathError _) w', quietly w w' → w_fs w' = w_fs w →
     (∀ b : bool, r = Ok b → (if b then is_Some (content (w_fs w) p) else fs_nodes (w_fs w) !! p = None)) →
     (∀ e, r = Err e → is_not_exist e = false) →
     (w_events w = [] → regular_or_none (fs_nodes (w_fs w) !! p) → is_ok r = true) → Q r w') →
  wp (regularFileExists p) Q w.
Proof.
  intros Hc HQ. apply wp_bind, wp_try, wp_Lstat; [done|]. intros r w1 Hq Hfs Hr. unfold lookup_node, answers in Hr.
  assert (w_events w = [] → r = match fs_nodes (w_fs w) !! p with Some n => Ok n | None => Err ENOENT end) as Hnil.
  { intros Hev. by destruct Hr as [?|[]]. }
  destruct r as [info|[|call]].
  - destruct Hr as [Hr|(_ & ? & ?)]; [|done].
    destruct (fs_nodes (w_fs w) !! p) as [n|] eqn:Hn; [|done]. injection Hr as ->.
    destruct n; (apply wp_ret || apply wp_fail); apply HQ; try done; try outcome.
    intros b [= <-]. unfold content. by rewrite Hn.
  - destruct Hr as [Hr|(_ & ? & ?)]; [|done].
    destruct (fs_nodes (w_fs w) !! p) as [n|] eqn:Hn; [done|].
    apply wp_ret, HQ; try done. by intros b [= <-].
  - apply wp_fail, HQ; try done; [outcome|]. intros Hev. specialize (Hnil Hev).
    by destruct (fs_nodes (w_fs w) !! p).
Qed.

Lemma wp_readRegularFile p max (Q : result PathError string → World → Prop) w : calm w →
  (∀ r w', quietly w w' → w_fs w' = w_fs w → (∀ data, r = Ok data → content (w_fs w) p = Some data) →
     (is_Some (content (w_fs w) p) → ∀ e, r = Err e → is_not_exist e = false) →
     (w_events w = [] → ∀ data, content (w_fs w) p = Some data → Z.of_nat (String.length data) ≤ max → r = Ok data) → Q r w') →
  wp (readRegularFile p max) Q w.
Proof.
  intros Hc HQ. unfold content in HQ. apply wp_bind, wp_map_err, wp_Lstat; [done|]. intros r w1 Hq1 Hfs1 Hr1.
  unfold lookup_node in Hr1. destruct r as [info|e].
  2:{ apply HQ; try done.
      - intros [data Hd] e' [= <-]. destruct Hr1 as [Hr|(_ & ? & [= ->])]; [|done].
        by destruct (fs_nodes (w_fs w) !! p) as [[]|]; simplify_eq.
      - intros Hev data Hd _. pose proof (answers_nil _ _ _ Hr1 Hev) as Hr. by destruct (fs_nodes (w_fs w) !! p) as [[]|]. }
  destruct Hr1 as [Hr1|(_ & ? & ?)]; [|done]. destruct (fs_nodes (w_fs w) !! p) as [n|] eqn:Hn; [|done].
  injection Hr1 as ->. destruct n as [id mode data| | |]; try (apply wp_fail; by apply HQ).
  assert (follow 40 (w_fs w) p = Ok (RegularFile id mode data)) as Hfol by (unfold follow; by rewrite Hn).
  apply wp_bind, wp_map_err, wp_Open; [apply Hq1|]. intros r w2 Hq2 Hfs2 Hr2. rewrite Hfs1, Hfol in Hr2.
  assert (quietly w w2) as Hw2 by by eapply quietly_trans.
  destruct r as [file|e].
  2:{ apply HQ; [done|outcome|done|..].
      - intros _ e' [= <-]. by destruct Hr2 as [?|(_ & ? & [= ->])].
      - intros Hev. destruct Hq1 as (_ & _ & Hev1). by pose proof (answers_nil _ _ _ Hr2 (Hev1 Hev)). }
  destruct Hr2 as [[= ->]|(_ & ? & ?)]; [|done].
  apply wp_bind, wp_map_err, wp_on_handle; [apply Hq2|]. intros r w3 Hq3 Hfs3 Hr3.
  assert (quietly w w3) as Hw3 by by eapply quietly_trans.
  destruct r as [[]|e].
  2:{ apply HQ; [done|outcome|done|..].
      - intros _ e' [= <-]. by destruct Hr3 as [?|(_ & ? & [= ->])].
      - intros Hev. destruct Hw2 as (_ & _ & Hev2). by pose proof (answers_nil _ _ _ Hr3 (Hev2 Hev)). }
  rewrite Nat.eqb_refl. apply wp_bind, wp_map_err, wp_on_handle; [apply Hq3|]. intros r w4 Hq4 Hfs4 Hr4.
  assert (quietly w w4) as Hw4 by by eapply quietly_trans.
  assert (w_fs w4 = w_fs w) as Hfs by congruence.
  destruct r as [[]|e].
  2:{ apply HQ; [done|done|done|..].
      - intros _ e' [= <-]. by destruct Hr4 as [?|(_ & ? & [= ->])].
      - intros Hev. destruct Hw3 as (_ & _ & Hev3). by pose proof (answers_nil _ _ _ Hr4 (Hev3 Hev)). }
  destruct (max <? Z.of_nat (String.length data)) eqn:Hmax; bool_to_prop.
  - apply wp_fail, HQ; [done..|outcome|]. intros _ ? [= <-]. lia.
  - apply wp_ret, HQ; [done..|outcome|done|]. outcome.
Qed.

(** [removeRegularFile]: the file is gone, or it is still there and the call failed. *)
Lemma wp_removeRegularFile p dir (Q : result PathError () → World → Prop) w : calm w →
  (∀ (r : result PathError ()) w', tame [p] dir w w' →
     (fs_nodes (w_fs w') !! p = None ∨ fs_nodes (w_fs w') !! p = fs_nodes (w_fs w) !! p ∧ r ≠ Ok ()) →
     (w_events w = [] → regular_or_none (fs_nodes (w_fs w) !! p) → r = Ok ()) → Q r w') →
  wp (removeRegularFile p) Q w.
Proof.
  intros Hc HQ. apply wp_bind, wp_try, wp_Lstat; [done|]. intros r w1 Hq Hfs Hr. unfold lookup_node in Hr.
  assert (w_events w = [] → r = match fs_nodes (w_fs w) !! p with Some n => Ok n | None => Err ENOENT end) as Hnil.
  { intros Hev. by destruct Hr as [?|[]]. }
  assert (tame [p] dir w w1) as Ht by by apply quietly_tame.
  destruct r as [info|[|call]].
  - destruct Hr as [Hr|(_ & ? & ?)]; [|done]. destruct (fs_nodes (w_fs w) !! p) as [n|] eqn:Hn; [|done].
    injection Hr as ->. destruct n as [id mode data| | |].
    2-4: apply wp_fail, HQ; [done|right; by rewrite Hfs|done].
    apply wp_map_err, wp_syscall; [apply Hq|..].
    + intros w2 Hc2 Hfs2 Hev. apply HQ.
      * eapply (tame_trans _ _ _ w1); [done|]. apply quietly_tame. split_and!; [done|by rewrite Hfs2|done].
      * right. split; [by rewrite Hfs2, Hfs|done].
      * intros Hev0. destruct Hq as (_ & _ & Hev1). by destruct Hev; auto.
    + intros w2 Hc2 Hfs2 Hev2. rewrite Hfs, Hn in *. apply HQ; [|left; rewrite Hfs2; apply set_node_eq|done].
      eapply (tame_trans _ _ _ w1); [done|]. split_and!; [done| |done]. rewrite Hfs2, Hfs. apply evolves_set_node.
  - destruct Hr as [Hr|(_ & ? & ?)]; [|done]. destruct (fs_nodes (w_fs w) !! p) as [n|] eqn:Hn; [done|].
    apply wp_ret, HQ; [done|left; by rewrite Hfs|done].
  - apply wp_fail, HQ; [done|right; by rewrite Hfs|]. intros Hev. specialize (Hnil Hev).
    by destruct (fs_nodes (w_fs w) !! p).
Qed.

(** ** The paths of a name *)

Lemma Rel_app root p : Rel root (root ++ p) = p.
Proof.
  induction root as [|c root IH]; simpl; [by destruct p|]. by rewrite bool_decide_true.
Qed.
Lemma ensureContained_app root p : head p ≠ Some ".." → ensureContained root (root ++ p) = Ok ().
Proof. intros Hp. unfold ensureContained. rewrite Rel_app. by rewrite bool_decide_false. Qed.

Section pairs.
Context {sha : Sha256} {abs : AbsPath}.

Definition namespace_dir (root : Path) (ns : Namespace) : Path :=
  match ns with ACME => root | Manual => root ++ ["manual"] end.
Definition cert_name (canonical : string) : string := stem canonical +:+ ".crt".
Definition key_name (canonical : string) : string := stem canonical +:+ ".key".
Definition paths_of (dir : Path) (canonical : string) : pairPaths :=
  {| directory := dir; cert := dir ++ [cert_name canonical]; key := dir ++ [key_name canonical] |}.

Lemma pathsFor_Ok cacheDir ns domain canonical root :
  Normalize domain true = Ok canonical → cleanRoot cacheDir = Ok root →
  pathsFor cacheDir ns domain = Ok (paths_of (namespace_dir root ns) canonical, canonical).
Proof.
  intros Hn Hr. unfold pathsFor. rewrite Hn, Hr. cbn [mbind result_bind].
  replace (ensureContained root _) with (@Ok PathError () ()).
  2:{ destruct ns; [|by rewrite ensureContained_app]. rewrite <-(app_nil_r root) at 2. by rewrite ensureContained_app. }
  cbn [mbind result_bind]. by rewrite !ensureContained_app.
Qed.

Lemma cert_key_ne dir canonical : dir ++ [cert_name canonical] ≠ dir ++ [key_name canonical].
Proof. by intros [_ [=H%(inj (String.append _))]]%app_inj_tail. Qed.

Section one_pair.
Context (cacheDir : string) (ns : Namespace) (domain canonical : string) (root : Path).
Hypothesis Hdomain : Normalize domain true = Ok canonical.
Hypothesis Hroot : cleanRoot cacheDir = Ok root.
Let dir := namespace_dir root ns.
Let certPath := dir ++ [cert_name canonical].
Let keyPath := dir ++ [key_name canonical].

Lemma wp_ReadPair (Q : result PathError (string * string) → World → Prop) w : calm w →
  (fs_nodes (w_fs w) !! certPath = None → fs_nodes (w_fs w) !! keyPath = None → no_legacy (w_fs w) dir canonical) →
  (∀ r w', quietly w w' →
     (∀ c k, r = Ok (c, k) → content (w_fs w) certPath = Some c ∧ content (w_fs w) keyPath = Some k) →
     (∀ e, r = Err e → is_not_exist e = true → fs_nodes (w_fs w) !! certPath = None ∧ fs_nodes (w_fs w) !! keyPath = None) →
     (w_events w = [] → ∀ c k, content (w_fs w) certPath = Some c → content (w_fs w) keyPath = Some k →
        Z.of_nat (String.length c) ≤ maxCertificateFileSize → Z.of_nat (String.length k) ≤ maxCertificateFileSize → r = Ok (c, k)) →
     (w_events w = [] → fs_nodes (w_fs w) !! certPath = None → fs_nodes (w_fs w) !! keyPath = None →
        plain_dir (w_fs w) dir → r = Err NoPair) →
     Q r w') →
  wp (ReadPair cacheDir ns domain) Q w.
Proof using Hdomain Hroot.
  intros Hc Hno HQ. unfold ReadPair. apply wp_bind, wp_lift. rewrite (pathsFor_Ok _ _ _ _ _ Hdomain Hroot).
  cbn [paths_of cert key directory]. fold dir certPath keyPath.
  assert (∀ p c, content (w_fs w) p = Some c → regular_or_none (fs_nodes (w_fs w) !! p)) as Hreg.
  { unfold content. intros p c. by destruct (fs_nodes (w_fs w) !! p) as [[]|]. }
  assert (∀ p c, content (w_fs w) p = Some c → fs_nodes (w_fs w) !! p ≠ None) as Hne.
  { unfold content. intros p c. by destruct (fs_nodes (w_fs w) !! p) as [[]|]. }
  apply wp_bind, wp_regularFileExists; [done|]. intros r1 w1 Hq1 Hfs1 Hok1 Herr1 Hnil1.
  destruct r1 as [certExists|e].
  2:{ apply HQ; [done|done|intros ? [= <-]; by rewrite (Herr1 e)|..].
      - intros Hev c k Hcc _. by specialize (Hnil1 Hev (Hreg _ _ Hcc)).
      - intros Hev Hn. rewrite Hn in Hnil1. by specialize (Hnil1 Hev I). }
  specialize (Hok1 _ eq_refl).
  apply wp_bind, wp_regularFileExists; [apply Hq1|]. rewrite Hfs1. intros r2 w2 Hq2 Hfs2 Hok2 Herr2 Hnil2.
  assert (quietly w w2) as Hw2 by by eapply quietly_trans.
  destruct Hq1 as (_ & _ & Hev1). destruct r2 as [keyExists|e].
  2:{ apply HQ; [done|done|intros ? [= <-]; by rewrite (Herr2 e)|..].
      - intros Hev c k _ Hk. by specialize (Hnil2 (Hev1 Hev) (Hreg _ _ Hk)).
      - intros Hev _ Hn. rewrite Hn in Hnil2. by specialize (Hnil2 (Hev1 Hev) I). }
  specialize (Hok2 _ eq_refl). apply wp_bind.
  destruct certExists, keyExists; cbn [negb andb orb].
  - apply wp_ret. cbn [negb orb]. apply wp_bind, wp_map_err, wp_readRegularFile; [apply Hw2|]. rewrite Hfs2.
    intros r3 w3 Hq3 Hfs3 Hok3 Herr3 Hnil3. assert (quietly w w3) as Hw3 by by eapply quietly_trans.
    pose proof Hw2 as (_ & _ & Hev2). destruct r3 as [c|e].
    2:{ apply HQ; [done|done|intros ? [= <-]; cbn; by rewrite (Herr3 Hok1 e)|..].
        - intros Hev c k Hcc _ Hlen _. by specialize (Hnil3 (Hev2 Hev) _ Hcc Hlen).
        - intros Hev Hn. destruct Hok1 as [c Hcc]. by apply Hne in Hcc. }
    specialize (Hok3 _ eq_refl). apply wp_bind, wp_map_err, wp_readRegularFile; [apply Hw3|]. rewrite Hfs3.
    intros r4 w4 Hq4 Hfs4 Hok4 Herr4 Hnil4. assert (quietly w w4) as Hw4 by by eapply quietly_trans.
    destruct Hw3 as (_ & _ & Hev3). destruct r4 as [k|e].
    + apply wp_ret, HQ; [done|intros ? ? [= <- <-]; auto|done|..].
      * intros Hev c' k' Hcc Hk _ _. pose proof (Hok4 _ eq_refl). congruence.
      * intros Hev Hn. by apply Hne in Hok3.
    + apply HQ; [done|done|intros ? [= <-]; cbn; by rewrite (Herr4 Hok2 e)|..].
      * intros Hev c' k' _ Hk _ Hlen. by specialize (Hnil4 (Hev3 Hev) _ Hk Hlen).
      * intros Hev Hn. by apply Hne in Hok3.
  - apply wp_ret. cbn [negb orb]. apply wp_fail, HQ; [done|done|by intros ? [= <-]|..].
    + intros _ c k _ Hk. by apply Hne in Hk.
    + intros _ Hn _ _. destruct Hok1 as [c Hcc]. by apply Hne in Hcc.
  - apply wp_ret. cbn [negb orb]. apply wp_fail, HQ; [done|done|by intros ? [= <-]|..].
    + intros _ c k Hcc _. by apply Hne in Hcc.
    + intros _ _ Hn _. destruct Hok2 as [c Hcc]. by apply Hne in Hcc.
  - apply wp_bind, wp_migrate_none; [apply Hw2|rewrite Hfs2; by apply Hno|].
    intros r3 w3 Hq3 Hok3 Herr3 Hnil3. assert (quietly w w3) as Hw3 by by eapply quietly_trans.
    destruct r3 as [migrated|e].
    + rewrite (Hok3 _ eq_refl). cbn [negb]. apply wp_fail, HQ; [done|done|by intros ? [= <-]|..].
      * intros _ c k Hcc _. by apply Hne in Hcc.
      * done.
    + apply HQ; [done|done|intros ? [= <-]; by rewrite (Herr3 e)|..].
      * intros _ c k Hcc _. by apply Hne in Hcc.
      * intros Hev _ _ Hp. rewrite Hfs2 in Hnil3. destruct Hw2 as (_ & _ & Hev2). by specialize (Hnil3 (Hev2 Hev) Hp).
Qed.

Lemma key_not_cert : keyPath ∉ [certPath].
Proof. rewrite list_elem_of_singleton. intros H. by apply (cert_key_ne dir canonical). Qed.
Lemma cert_not_key : certPath ∉ [keyPath].
Proof. rewrite list_elem_of_singleton. apply cert_key_ne. Qed.

(** Writing a pair: the key first.  A failure may leave the new key with the old
    certificate. *)
Lemma wp_WritePair certPEM keyPEM (Q : result PathError () → World → Prop) w : calm w →
  (∀ r w', tame [certPath; keyPath] dir w w' →
     replaced keyPath 384 keyPEM r w w' → replaced certPath 420 certPEM r w w' →
     (w_events w = [] → certPEM ≠ "" → keyPEM ≠ "" → writable (w_fs w) dir (cert_name canonical) →
        writable (w_fs w) dir (key_name canonical) → r = Ok ()) → Q r w') →
  wp (WritePair cacheDir ns domain certPEM keyPEM) Q w.
Proof using Hdomain Hroot.
  intros Hc HQ. unfold WritePair. apply wp_bind, wp_lift.
  destruct (check _ EmptyPEM) as [u|e] eqn:He; [apply check_Ok in He|].
  2:{ apply check_Err in He as [He _].
      apply HQ; [by apply tame_refl|by apply replaced_err|by apply replaced_err|]. intros _ Hce Hke.
      apply orb_true_iff in He as [He|He]; by apply bool_decide_eq_true in He. }
  apply wp_bind, wp_lift. rewrite (pathsFor_Ok _ _ _ _ _ Hdomain Hroot). cbn [paths_of cert key directory]. fold dir.
  apply wp_bind, wp_ensureDirectory; [done|]. intros r1 w1 Ht1 _ Hok1.
  assert (∀ name, fs_nodes (w_fs w1) !! (dir ++ [name]) = fs_nodes (w_fs w) !! (dir ++ [name])) as Hn1.
  { intros name. eapply tame_node; [done|set_solver|apply snoc_not_prefix]. }
  assert (∀ files, tame files dir w w1) as Ht1' by (intros; eapply tame_mono; [| |exact Ht1]; [set_solver|done]).
  destruct r1 as [[]|e].
  2:{ apply HQ; [done|apply replaced_err, Hn1|apply replaced_err, Hn1|]. intros Hev _ _ [Hp _] _. by specialize (Hok1 Hev Hp). }
  pose proof Ht1 as (_ & Hevo1 & Hev1).
  apply wp_bind, wp_map_err, wp_atomicWriteFile; [apply Ht1|]. fold keyPath. intros r2 w2 Ht2 Hr2 Hok2.
  assert (fs_nodes (w_fs w2) !! certPath = fs_nodes (w_fs w) !! certPath) as Hcert2.
  { etrans; [|apply Hn1]. eapply tame_node; [done|apply cert_not_key|apply snoc_not_prefix]. }
  assert (tame [certPath; keyPath] dir w w2) as Ht2'.
  { eapply tame_trans; [apply Ht1'|]. eapply tame_mono; [| |exact Ht2]; [set_solver|done]. }
  assert (w_events w = [] → writable (w_fs w) dir (key_name canonical) → writable (w_fs w1) dir (key_name canonical)) as Hwr1.
  { intros Hev [Hp Hn]. split; [by eapply evolves_plain_dir; [exact Hevo1|set_solver|]|by rewrite Hn1]. }
  destruct r2 as [[]|e].
  2:{ apply HQ; [done| |by apply replaced_err|].
      - destruct Hr2 as [[Hk _]|Hk]; [apply replaced_err; etrans; [exact Hk|apply Hn1]|by right].
      - intros Hev _ _ _ Hw. by specialize (Hok2 (Hev1 Hev) (Hwr1 Hev Hw)). }
  assert (holds (w_fs w2) keyPath 384 keyPEM) as Hk2 by (by destruct Hr2 as [[_ []]|]).
  apply wp_map_err, wp_atomicWriteFile; [apply Ht2|]. fold certPath. intros r3 w3 Ht3 Hr3 Hok3. apply HQ.
  - eapply tame_trans; [exact Ht2'|]. eapply tame_mono; [| |exact Ht3]; [set_solver|done].
  - right. destruct Hk2 as [id Hk2]. exists id. rewrite <-Hk2.
    eapply tame_node; [done|apply key_not_cert|apply snoc_not_prefix].
  - destruct Hr3 as [[Hr3 Hne]|Hr3]; [|by right]. rewrite Hcert2 in Hr3. left. split; [done|]. by destruct r3 as [[]|].
  - intros Hev _ _ [Hp Hn] _. destruct Ht2 as (_ & Hevo2 & Hev2).
    rewrite Hok3; [done|auto|]. split; [|by fold certPath; rewrite Hcert2].
    eapply evolves_plain_dir; [exact Hevo2| |].
    + intros q ->%list_elem_of_singleton. apply snoc_not_prefix.
    + by eapply evolves_plain_dir; [exact Hevo1|set_solver|].
Qed.

(** Removing a pair: the certificate first.  A failure may leave the key. *)
Definition removed (p : Path) (r : result PathError ()) (w w' : World) : Prop :=
  fs_nodes (w_fs w') !! p = None ∨ fs_nodes (w_fs w') !! p = fs_nodes (w_fs w) !! p ∧ r ≠ Ok ().

Lemma wp_RemovePair (Q : result PathError () → World → Prop) w : calm w →
  (∀ r w', tame [certPath; keyPath] dir w w' → removed certPath r w w' → removed keyPath r w w' →
     (w_events w = [] → regular_or_none (fs_nodes (w_fs w) !! certPath) → regular_or_none (fs_nodes (w_fs w) !! keyPath) →
        fs_nodes (w_fs w) !! dir = Some Directory → r = Ok ()) → Q r w') →
  wp (RemovePair cacheDir ns domain) Q w.
Proof using Hdomain Hroot.
  intros Hc HQ. unfold RemovePair. apply wp_bind, wp_lift. rewrite (pathsFor_Ok _ _ _ _ _ Hdomain Hroot).
  cbn [paths_of cert key directory]. fold dir certPath keyPath.
  assert (∀ r (w1 : World), quietly w w1 → r ≠ Ok () → removed certPath r w w1 ∧ removed keyPath r w w1) as Hsame.
  { intros r w1 (_ & Hn & _) Hne. unfold removed. rewrite Hn. tauto. }
  apply wp_bind, wp_map_err, wp_regularFileExists; [done|]. intros r1 w1 Hq1 Hfs1 Hok1 _ Hnil1.
  destruct r1 as [certExists|e].
  2:{ destruct (Hsame (Err (Wrapped "inspect certificate" e)) w1 Hq1 ltac:(done)). apply HQ; [by apply quietly_tame|done..|].
      intros Hev Hreg. by specialize (Hnil1 Hev Hreg). }
  specialize (Hok1 _ eq_refl).
  apply wp_bind, wp_map_err, wp_regularFileExists; [apply Hq1|]. rewrite Hfs1. intros r2 w2 Hq2 Hfs2 Hok2 _ Hnil2.
  assert (quietly w w2) as Hw2 by by eapply quietly_trans. destruct Hq1 as (_ & _ & Hev1).
  destruct r2 as [keyExists|e].
  2:{ destruct (Hsame (Err (Wrapped "inspect private key" e)) w2 Hw2 ltac:(done)). apply HQ; [by apply quietly_tame|done..|].
      intros Hev _ Hreg. by specialize (Hnil2 (Hev1 Hev) Hreg). }
  specialize (Hok2 _ eq_refl).
  destruct (negb certExists && negb keyExists) eqn:Hb.
  { destruct certExists, keyExists; try done. apply wp_ret, HQ; [by apply quietly_tame|left; by rewrite Hfs2..|done]. }
  apply wp_bind, wp_map_err, (wp_removeRegularFile _ dir); [apply Hw2|]. rewrite Hfs2. intros r3 w3 Ht3 Hr3 Hok3.
  assert (tame [certPath; keyPath] dir w w3) as Ht3'.
  { eapply (tame_trans _ _ _ w2); [by apply quietly_tame|]. eapply tame_mono; [| |exact Ht3]; [set_solver|done]. }
  assert (fs_nodes (w_fs w3) !! keyPath = fs_nodes (w_fs w) !! keyPath) as Hk3.
  { rewrite <-Hfs2. eapply tame_node; [done|apply key_not_cert|apply snoc_not_prefix]. }
  pose proof Hw2 as (_ & _ & Hev2). destruct r3 as [[]|e].
  2:{ apply HQ; [done| |right; by rewrite Hk3|].
      - destruct Hr3 as [Hr3|[Hr3 _]]; [by left|right; by rewrite Hr3].
      - intros Hev Hreg _ _. by specialize (Hok3 (Hev2 Hev) Hreg). }
  assert (fs_nodes (w_fs w3) !! certPath = None) as Hc3 by (by destruct Hr3 as [?|[_ []]]).
  pose proof Ht3' as (_ & _ & Hev3).
  apply wp_bind, wp_map_err, (wp_removeRegularFile _ dir); [apply Ht3|]. intros r4 w4 Ht4 Hr4 Hok4.
  assert (tame [certPath; keyPath] dir w w4) as Ht4'.
  { eapply (tame_trans _ _ _ w3); [done|]. eapply tame_mono; [| |exact Ht4]; [set_solver|done]. }
  assert (fs_nodes (w_fs w4) !! certPath = None) as Hc4.
  { rewrite <-Hc3. eapply tame_node; [done|apply cert_not_key|apply snoc_not_prefix]. }
  rewrite Hk3 in *. destruct r4 as [[]|e].
  2:{ apply HQ; [done|by left| |].
      - destruct Hr4 as [Hr4|[Hr4 _]]; [by left|right; by rewrite Hr4].
      - intros Hev _ Hreg _. by specialize (Hok4 (Hev3 Hev) Hreg). }
  assert (fs_nodes (w_fs w4) !! keyPath = None) as Hk4 by (by destruct Hr4 as [?|[_ []]]).
  pose proof Ht4' as (_ & _ & Hev4).
  apply wp_map_err, wp_bind, wp_read; [apply Ht4|done|]. intros r5 w5 Hq5 Hfs5 Hr5.
  assert (w_events w = [] → fs_nodes (w_fs w) !! dir = Some Directory → r5 = Ok ()) as Hok5.
  { intros Hev Hd. rewrite (answers_nil _ _ _ Hr5 (Hev4 Hev)). simpl.
    rewrite (follow_Directory 40 (w_fs w4) dir); [done|]. destruct Ht4' as (_ & Hevo & _).
    destruct (Hevo dir) as [E|(_ & _ & E)]; [|by rewrite E|done].
    rewrite !elem_of_cons. intros [H|[H|H%elem_of_nil]]; [..|done]; apply (snoc_not_prefix dir ""%string);
      apply (f_equal length) in H; subst certPath keyPath; rewrite length_app in H; simpl in H; lia. }
  destruct r5 as [[]|e].
  - apply wp_on_handle; [apply Hq5|]. intros r6 w6 Hq6 Hfs6 Hr6.
    assert (quietly w4 w6) as Hw6 by by eapply quietly_trans.
    apply HQ; [eapply (tame_trans _ _ _ w4); [done|by apply quietly_tame]|left; by rewrite Hfs6, Hfs5..|].
    intros Hev _ _ _. destruct Hq5 as (_ & _ & Hev5). by rewrite (answers_nil _ _ _ Hr6 (Hev5 (Hev4 Hev))).
  - apply HQ; [eapply (tame_trans _ _ _ w4); [done|by apply quietly_tame]|left; by rewrite Hfs5..|].
    intros Hev _ _ Hd. by specialize (Hok5 Hev Hd).
Qed.
End one_pair.

(** A fixed document of the directory. *)
Lemma wp_writeFixedDocument cacheDir filename data root (Q : result PathError () → World → Prop) w : calm w →
  cleanRoot cacheDir = Ok root →
  (∀ r w', tame [root ++ [filename]] root w w' → replaced (root ++ [filename]) 384 data r w w' →
     (w_events w = [] → writable (w_fs w) root filename → r = Ok ()) → Q r w') →
  wp (writeFixedDocument cacheDir filename data) Q w.
Proof.
  intros Hc Hroot HQ. unfold writeFixedDocument. apply wp_bind, wp_lift. rewrite Hroot.
  apply wp_bind, wp_ensureDirectory; [done|]. intros r1 w1 Ht1 _ Hok1.
  assert (fs_nodes (w_fs w1) !! (root ++ [filename]) = fs_nodes (w_fs w) !! (root ++ [filename])) as Hn1.
  { eapply tame_node; [done|set_solver|apply snoc_not_prefix]. }
  assert (tame [root ++ [filename]] root w w1) as Ht1' by (eapply tame_mono; [| |exact Ht1]; [set_solver|done]).
  destruct r1 as [[]|e]; [|apply HQ; [done|by apply replaced_err|]; intros Hev [Hp _]; by specialize (Hok1 Hev Hp)].
  pose proof Ht1 as (_ & Hevo1 & Hev1).
  apply wp_atomicWriteFile; [apply Ht1|]. intros r2 w2 Ht2 Hr2 Hok2. apply HQ.
  - by eapply tame_trans.
  - unfold replaced in *. by rewrite Hn1 in Hr2.
  - intros Hev [Hp Hn]. apply Hok2; [auto|]. split; [by eapply evolves_plain_dir; [exact Hevo1|set_solver|]|by rewrite Hn1].
Qed.
End pairs.

(** ** Names *)

Lemma plain_clean l : forallb printable l = true → clean spaces l.
Proof.
  intros Hl.
  assert (∀ e, e ∈ spaces → existsb (λ c, negb (printable c)) e = true) as Hsp.
  { apply Forall_forall, (bool_decide_eq_true_1 (Forall (λ e, existsb (λ c, negb (printable c)) e = true) spaces)). by vm_compute. }
  assert (∀ e l', existsb (λ c, negb (printable c)) e = true → (∀ c, c ∈ l' → printable c = true) → ¬ e `prefix_of` l') as Hno.
  { intros e l' (c & Hin & Hc)%existsb_exists Hl' [k ->]. apply list_elem_of_In in Hin.
    rewrite Hl' in Hc; [done|]. set_solver. }
  assert (∀ c, c ∈ l → printable c = true) as Hall.
  { intros c Hc%list_elem_of_In. by apply (proj1 (forallb_forall _ _) Hl). }
  unfold clean. rewrite !strip_any_None, !Forall_forall. split.
  - intros e He. apply Hno; [by apply Hsp|done].
  - intros e (e' & -> & He')%list_elem_of_fmap. apply Hno.
    + apply Hsp in He'. apply existsb_exists in He' as (c & Hc & Hp). apply existsb_exists. exists c. split; [|done].
      apply list_elem_of_In. by rewrite elem_of_reverse, list_elem_of_In.
    + intros c. rewrite elem_of_reverse. apply Hall.
Qed.

Definition name_char (c : ascii) : bool :=
  lower_or_digit c || bool_decide (c = "-"%char) || bool_decide (c = "."%char) || bool_decide (c = "*"%char).

Lemma name_char_spec c : name_char c = true →
  printable c = true ∧ lower_ascii c = c ∧ (c ≠ byte 196 ∧ c ≠ byte 226) ∧ c ≠ zero ∧ c ≠ "/"%char ∧ c ≠ "\"%char.
Proof.
  intros H.
  assert (implb (name_char c) (printable c && bool_decide (lower_ascii c = c) &&
    forallb (λ x, bool_decide (c ≠ x)) [byte 196; byte 226; zero; "/"; "\"]%char) = true) as Hc
    by (destruct c as [[] [] [] [] [] [] [] []]; reflexivity).
  rewrite H in Hc. cbn [implb forallb] in Hc. bool_to_prop. done.
Qed.

Lemma lower_folds_id l : forallb name_char l = true → lower_folds l = l.
Proof.
  induction l as [|c l IH]; [done|]. cbn [forallb]. intros [Hc Hl]%andb_true_iff. specialize (IH Hl).
  destruct (name_char_spec c Hc) as (_ & Hlow & [H1 H2] & _). cbn [lower_folds].
  destruct l as [|c2 l2]; [by rewrite Hlow|].
  rewrite (bool_decide_false _ H1), (bool_decide_false _ H2), Hlow. cbn [andb].
  destruct l2; by rewrite IH.
Qed.

Lemma has_char_false x l : (∀ c, c ∈ l → c ≠ x) → has_char x l = false.
Proof.
  intros H. unfold has_char. destruct (existsb _ l) eqn:E; [|done].
  apply existsb_exists in E as (y & Hy%list_elem_of_In & Hb%bool_decide_eq_true). by apply H in Hy.
Qed.

Lemma split_on_elem sep l c : c ∈ l → c = sep ∨ ∃ w, w ∈ split_on sep l ∧ c ∈ w.
Proof.
  induction l as [|d l IH]; [by intros ?%elem_of_nil|]. intros [->|Hc]%elem_of_cons; cbn [split_on].
  - case_bool_decide as Hd; [by left|right]. destruct (split_on sep l) as [|w ws]; [exists [d]; set_solver|].
    exists (d :: w). set_solver.
  - destruct (IH Hc) as [?|(w & Hw & Hcw)]; [by left|right]. case_bool_decide; [exists w; set_solver|].
    destruct (split_on sep l) as [|w' ws]; [by apply elem_of_nil in Hw|].
    apply elem_of_cons in Hw as [->|Hw]; [exists (d :: w')|exists w]; set_solver.
Qed.

Lemma split_on_last sep l : list.last l = Some sep → ∃ w ws, split_on sep l = w :: ws ++ [[]].
Proof.
  induction l as [|d l IH]; [done|]. intros Hl. cbn [split_on]. destruct l as [|d' l].
  - injection Hl as ->. rewrite bool_decide_true by done. by exists [], [].
  - rewrite last_cons_cons in Hl. destruct (IH Hl) as (w & ws & ->). case_bool_decide.
    + by exists [], (w :: ws).
    + by exists (d :: w), ws.
Qed.

(** A canonical name that is no address. *)
Definition dns_labels (value : list ascii) : Prop :=
  value ≠ [] ∧ (length value ≤ 253)%nat ∧ forallb label_ok (split_on "." value) = true ∧ has_char "*" value = false.
Definition dns_name (wildcard : bool) (name : list ascii) : Prop :=
  (length name ≤ 253)%nat ∧
  ∃ value, name = (if wildcard then wildcard_prefix ++ value else value) ∧ dns_labels value ∧ ParseIP (of_list name) = None.

Lemma label_ok_chars label c : label_ok label = true → c ∈ label → name_char c = true.
Proof.
  unfold label_ok. intros [_ Hall]%andb_true_iff Hc. apply list_elem_of_lookup in Hc as [i Hi].
  rewrite forallb_forall in Hall.
  assert (lower_or_digit c || (bool_decide (c = "-"%char) && (0 <? i)%nat && (i <? length label - 1)%nat) = true) as Hb.
  { apply Hall, list_elem_of_In, list_elem_of_lookup. exists i. by rewrite list_lookup_imap, Hi. }
  unfold name_char. destruct (lower_or_digit c); [done|]. simpl in Hb. bool_to_prop. subst c. done.
Qed.

Lemma dns_labels_chars value : dns_labels value → forallb name_char value = true.
Proof.
  intros (_ & _ & Hl & _). apply forallb_forall. intros c Hc%list_elem_of_In.
  destruct (split_on_elem "." value c Hc) as [->|(w & Hw & Hcw)]; [done|].
  rewrite forallb_forall in Hl. eapply label_ok_chars; [apply Hl; by apply list_elem_of_In|done].
Qed.
Lemma dns_labels_last value : dns_labels value → list.last value ≠ Some "."%char.
Proof.
  intros (_ & _ & Hl & _) Hlast. apply split_on_last in Hlast as (w & ws & Hs). rewrite Hs in Hl.
  cbn [forallb] in Hl. apply andb_true_iff in Hl as [_ Hl]. rewrite forallb_app in Hl. by apply andb_true_iff in Hl as [_ Hl].
Qed.

Lemma dns_name_chars wildcard name : dns_name wildcard name → forallb name_char name = true.
Proof.
  intros (_ & value & -> & Hd & _). apply dns_labels_chars in Hd. destruct wildcard; [|done].
  by rewrite forallb_app, Hd.
Qed.

(** What a DNS name must be, and that it is left alone. *)
Lemma Normalize_dns wildcard name allow : dns_name wildcard name → wildcard = false ∨ allow = true →
  Normalize (of_list name) allow = Ok (of_list name).
Proof.
  intros Hn Hallow. pose proof (dns_name_chars _ _ Hn) as Hchars.
  assert (∀ c, c ∈ name → name_char c = true) as Hin by (intros c Hc; rewrite forallb_forall in Hchars; by apply Hchars, list_elem_of_In).
  assert (forallb printable name = true) as Hprint.
  { apply forallb_forall. intros c Hc%list_elem_of_In. by apply name_char_spec, Hin. }
  destruct Hn as (Hlen & value & Hname & Hd & Hip).
  assert (name ≠ []) as Hne by (destruct Hd as [? _]; by destruct wildcard, value; subst).
  assert (list.last name ≠ Some "."%char) as Hlast.
  { subst name. pose proof (dns_labels_last _ Hd) as Hl. destruct Hd as [Hv _]. destruct wildcard; [|done].
    rewrite last_app. by destruct (list.last value) eqn:E; [|apply last_None in E]. }
  unfold Normalize. rewrite TrimSpace_id by (rewrite to_of_list; by apply plain_clean).
  rewrite to_of_list, lower_folds_id by done.
  rewrite (bool_decide_false _ Hne). cbn [check mbind result_bind].
  rewrite (has_char_false zero), (has_char_false "/"), (has_char_false "\")
    by (intros c Hc; by apply name_char_spec, Hin). cbn [orb check mbind result_bind].
  rewrite Hprint. cbn [negb check mbind result_bind].
  unfold trim_dot. rewrite (bool_decide_false _ Hlast), (bool_decide_false _ Hne), Hip. cbn [check mbind result_bind].
  destruct Hd as (Hv & Hvlen & Hlab & Hstar).
  assert (bool_decide (wildcard_prefix `prefix_of` name) = wildcard) as ->.
  { destruct wildcard; subst name; [apply bool_decide_true; by eexists|]. apply bool_decide_false. intros [k Hk].
    rewrite Hk in Hstar. by cbn in Hstar. }
  destruct wildcard; subst name.
  - destruct Hallow as [?| ->]; [done|]. cbn [negb andb check mbind result_bind].
    change (drop 2 (wildcard_prefix ++ value)) with value.
    rewrite Hstar, (bool_decide_false _ Hv), (proj2 (Nat.ltb_ge _ _) Hvlen), Hlab, (proj2 (Nat.ltb_ge _ _) Hlen). done.
  - cbn [negb andb check mbind result_bind].
    by rewrite Hstar, (bool_decide_false _ Hv), (proj2 (Nat.ltb_ge _ _) Hlen), Hlab.
Qed.

Lemma ParseIP_wildcard value : ParseIP (of_list (wildcard_prefix ++ value)) = None.
Proof. done. Qed.

(** The text that [Normalize] looks for an address in. *)
Definition address_in (raw : string) : option Addr :=
  ParseIP (of_list (trim_dot (lower_folds (to_list (TrimSpace raw))))).

(** The outcome of [Normalize] is the text of an address or a DNS name. *)
Lemma Normalize_cases raw allow name : Normalize raw allow = Ok name →
  (∃ a, address_in raw = Some a ∧ name = Netip.AddrString (Netip.Unmap a)) ∨
  (∃ wildcard, dns_name wildcard (to_list name) ∧ (wildcard = false ∨ allow = true)).
Proof.
  unfold Normalize. intros H. ok_inv. cbv zeta in *. set (value := trim_dot _) in *.
  destruct (ParseIP (of_list value)) as [a|] eqn:Hip; [injection H as <-; left; by exists a|right].
  ok_inv. set (wildcard := bool_decide (wildcard_prefix `prefix_of` value)) in *.
  set (v := if wildcard then drop 2 value else value) in *.
  exists wildcard. subst name. rewrite to_of_list. bool_to_prop.
  assert (dns_labels v) as Hd. { split_and!; [done| |done|done]. by apply Nat.ltb_ge. }
  split.
  - split; [by apply Nat.ltb_ge|]. exists v. split_and!; [done|done|].
    destruct wildcard eqn:Hw; [apply ParseIP_wildcard|done].
  - destruct wildcard, allow; auto.
Qed.

Lemma dns_name_no_address wildcard name : dns_name wildcard name → ParseIP (of_list name) = None.
Proof. by intros (_ & value & _ & _ & ?). Qed.

(** A name that is accepted and is no IP address becomes one of lower-case
    letters, digits, hyphens, dots and at most a leading wildcard, at most 253
    bytes long, and normalizing that again leaves it alone, so a domain that a
    caller normalized and a path function normalizes again selects one file. *)
Theorem canonical_name_stable (raw name : string) (allow : bool)
  (Hname : Normalize raw allow = Ok name) (Hip : address_in raw = None) :
  Normalize name allow = Ok name ∧ Normalize name true = Ok name ∧
  forallb name_char (to_list name) = true ∧ (String.length name ≤ 253)%nat.
Proof.
  destruct (Normalize_cases _ _ _ Hname) as [(a & Ha & _)|(wildcard & Hd & Hallow)]; [by rewrite Ha in Hip|].
  pose proof (Normalize_dns _ _ _ Hd Hallow) as H1. pose proof (Normalize_dns _ _ true Hd (or_intror eq_refl)) as H2.
  rewrite of_to_list in H1, H2. split_and!; [done|done|by eapply dns_name_chars|].
  destruct Hd as [Hlen _]. by rewrite length_list_ascii in Hlen.
Qed.

Lemma canonical_name_stable_witness :
  Normalize "*.Example.COM." true = Ok "*.example.com" ∧ Normalize "*.example.com" true = Ok "*.example.com".
Proof.
  split; [by vm_compute|]. apply (canonical_name_stable "*.Example.COM." "*.example.com" true); by vm_compute.
Defined.

(** ** A pair written is the pair read *)

Definition quiet (d : FS) : World := {| w_fs := d; w_events := [] |}.

(** When no call fails, a pair that was written is read back as it was, and
    the files of other names and the documents are untouched. *)
Theorem pair_roundtrip (sha : Sha256) (abs : AbsPath) (cacheDir domain canonical certPEM keyPEM : string) (ns : Namespace) (root : Path) (d : FS)
  (Hdomain : Normalize domain true = Ok canonical) (Hroot : cleanRoot cacheDir = Ok root)
  (Hcert : writable d (namespace_dir root ns) (cert_name canonical)) (Hkey : writable d (namespace_dir root ns) (key_name canonical))
  (Hc : 0 < Z.of_nat (String.length certPEM) ≤ maxCertificateFileSize)
  (Hk : 0 < Z.of_nat (String.length keyPEM) ≤ maxCertificateFileSize) :
  let out := WritePair cacheDir ns domain certPEM keyPEM (quiet d) in
  let w := out.2 in
  out.1 = Ok () ∧ (ReadPair cacheDir ns domain w).1 = Ok (certPEM, keyPEM) ∧
  ∀ q, q ∉ [namespace_dir root ns ++ [cert_name canonical]; namespace_dir root ns ++ [key_name canonical]] →
    is_Some (fs_nodes d !! q) → fs_nodes (w_fs w) !! q = fs_nodes d !! q.
Proof.
  enough (wp (WritePair cacheDir ns domain certPEM keyPEM) (λ written w, written = Ok () ∧ 
    (ReadPair cacheDir ns domain w).1 = Ok (certPEM, keyPEM) ∧
    ∀ q, q ∉ [namespace_dir root ns ++ [cert_name canonical]; namespace_dir root ns ++ [key_name canonical]] →
      is_Some (fs_nodes d !! q) → fs_nodes (w_fs w) !! q = fs_nodes d !! q) (quiet d)) as H by exact H.
  eapply wp_WritePair; [done|done|by constructor|]. intros r w Ht Hkr Hcr Hok.
  assert (r = Ok ()) as ->. { apply Hok; [done|intros ->; simpl in Hc; lia|intros ->; simpl in Hk; lia|done|done]. }
  assert (content (w_fs w) (namespace_dir root ns ++ [cert_name canonical]) = Some certPEM) as Hcc.
  { destruct Hcr as [[_ []]|Hh]; [done|by eapply holds_content]. }
  assert (content (w_fs w) (namespace_dir root ns ++ [key_name canonical]) = Some keyPEM) as Hkc.
  { destruct Hkr as [[_ []]|Hh]; [done|by eapply holds_content]. }
  split_and!; [done| |].
  - enough (wp (ReadPair cacheDir ns domain) (λ r _, r = Ok (certPEM, keyPEM)) w) as H by done.
    destruct Ht as (Hcalm & _ & Hev). eapply wp_ReadPair; [done|done|done| |].
    + intros Hn. unfold content in Hcc. by rewrite Hn in Hcc.
    + intros r w' _ _ _ Hread _. apply Hread; [by apply Hev|done|done|lia|lia].
  - intros q Hq [n Hn]. destruct Ht as (_ & Hevo & _). destruct (Hevo q Hq) as [?|(_ & Hnone & _)]; [done|].
    simpl in Hnone. congruence.
Qed.

(** *** A concrete directory *)

Definition plain_abs : AbsPath := {| Abs s := Some ["var"; s] |}.
Definition plain_sha : Sha256 := {| sha256 s := s |}.

Lemma pair_roundtrip_witness :
  let abs := plain_abs in let sha := plain_sha in
  let d := {| fs_nodes := {[ ["var"; "cache"; "certs.json"] := RegularFile 3 384 "[]" ]}; fs_temps := ∅; fs_next := 7 |} in
  let w := (WritePair "cache" Manual "Example.com" "CERT" "KEY" (quiet d)).2 in
  (ReadPair "cache" Manual "example.com." w).1 = Ok ("CERT", "KEY") ∧
  (WritePair "cache" Manual "Example.com" "CERT" "KEY" (quiet d)).1 = Ok () ∧
  fs_nodes (w_fs w) !! ["var"; "cache"; "certs.json"] = Some (RegularFile 3 384 "[]").
Proof.
  intros abs sha d w. split; [by vm_compute|].
  assert (∀ dir, (∀ p, p `prefix_of` dir → p ≠ ["var"; "cache"; "certs.json"]) → plain_dir d dir) as Hplain.
  { intros dir Hne p Hp. left. apply lookup_singleton_ne. symmetry. by apply Hne. }
  destruct (pair_roundtrip sha abs "cache" "Example.com" "example.com" "CERT" "KEY" Manual ["var"; "cache"] d)
    as (Hr & _ & Hq); [by vm_compute|by vm_compute| | |by vm_compute|by vm_compute|].
  - split; [|by vm_compute]. apply Hplain. intros p [k Hk] ->. done.
  - split; [|by vm_compute]. apply Hplain. intros p [k Hk] ->. done.
  - split; [exact Hr|]. apply Hq; [apply (bool_decide_eq_true_1 _); by vm_compute|by eexists].
Defined.
