(* ===== verification/Acme.v ===== *)
(** * Certificates from an ACME authority (acme/manager.go, solver.go, dns_solver.go)

    The manager's cache of certificates in memory and on disk, and the protocol
    with the certificate authority.  X.509 and PEM are the parameter [X509], the
    JSON text of the cache index is [IndexCodec], the ACME client and the DNS are
    the parameter [CA], asked by numbered requests that the state keeps a log of.
    The lock [mu] guards the two maps and is not held across a call, so an
    operation here is the sequence of its sections without other operations in
    between.  [onObtain] is the last thing [Obtain] does: it is called when the
    answer is [Ok true]. *)

From S2P Require Import Prelude GoStrings NetIP FileIO CertPath.

(** ** Certificates *)

Inductive PrivateKey := ECDSA (curve secret : string) | RSA (bits : Z) (secret : string) | OtherKey.
Record Leaf := {
  lf_SerialNumber : string; lf_CommonName : string; lf_NotBefore : Z; lf_NotAfter : Z; lf_DNSNames : list string
}.
Record TLSCert := { tc_Certificate : list string; tc_PrivateKey : PrivateKey; tc_Leaf : option Leaf }.

Class X509 := {
  X509KeyPair : string → string → option TLSCert;
  ParseCertificate : string → option Leaf;
  VerifyHostname : Leaf → string → bool;
  FormatTime : Z → string;                          (* time.RFC3339 *)
  ParseTime : string → option Z;
  CertificatePEM : string → string;                 (* one PEM block of a DER text *)
  ECPrivateKeyPEM : PrivateKey → option string
}.
Class IndexCodec := {
  index_marshal : gmap string string → string;
  index_unmarshal : string → option (gmap string string)
}.

(** ** The authority *)

Record Challenge := { ch_Type : string; ch_Token : string }.
Record Authorization := { az_URI : string; az_Challenges : list Challenge }.
Inductive CARequest :=
| Register | Authorize (domain : string) | ChallengeValue (token : string)
| DNSPresent (fqdn value : string) | DNSCleanUp (fqdn : string) | LookupTXT (fqdn : string)
| Accept (token : string) | WaitAuthorization (uri : string) | CreateCert (domains : list string).

Record CA := {
  ca_Register : nat → option string;                              (* the text of the error *)
  ca_Authorize : nat → string → option Authorization;
  ca_ChallengeValue : nat → string → option string;
  ca_Present : nat → bool;
  ca_CleanUp : nat → bool;                                        (* false: an error, the record stays *)
  ca_LookupTXT : nat → list (option (list string));               (* the polls until the deadline *)
  ca_Accept : nat → bool;
  ca_Wait : nat → bool;
  ca_CreateCert : nat → list string → option (list string * PrivateKey)  (* with the key generated for it *)
}.

Inductive AcmeError :=
| AcmePath (e : PathError) | NilHello | NoCertificate (name : string) | BadPair | BadKey | EmptyChain
| RegisterFailed (text : string) | AuthorizeFailed (domain : string) | NoChallenge | CreateFailed | CleanUpFailed.

(** ** The manager *)

Record AcmeState := {
  am_account : bool;
  am_certCache : gmap string TLSCert;
  am_cacheKeys : gmap string string;      (* requested domain -> persisted primary domain *)
  am_tokens : gmap string string;         (* HTTP01Solver.tokens *)
  am_world : World;
  am_log : list CARequest
}.
Record AcmeConfig := { ac_challengeType : string; ac_cacheDir : string }.

Definition set_world (w : World) (s : AcmeState) : AcmeState :=
  {| am_account := am_account s; am_certCache := am_certCache s; am_cacheKeys := am_cacheKeys s;
     am_tokens := am_tokens s; am_world := w; am_log := am_log s |}.
Definition set_account (s : AcmeState) : AcmeState :=
  {| am_account := true; am_certCache := am_certCache s; am_cacheKeys := am_cacheKeys s;
     am_tokens := am_tokens s; am_world := am_world s; am_log := am_log s |}.
Definition set_tokens (tokens : gmap string string) (s : AcmeState) : AcmeState :=
  {| am_account := am_account s; am_certCache := am_certCache s; am_cacheKeys := am_cacheKeys s;
     am_tokens := tokens; am_world := am_world s; am_log := am_log s |}.
(** [m.certCache[d], m.cacheKeys[d] = cert, storage]. *)
Definition cache_one (cert : TLSCert) (storage : string) (d : string) (s : AcmeState) : AcmeState :=
  {| am_account := am_account s; am_certCache := <[d := cert]> (am_certCache s);
     am_cacheKeys := <[d := storage]> (am_cacheKeys s); am_tokens := am_tokens s; am_world := am_world s; am_log := am_log s |}.
Definition cache_all (cert : TLSCert) (storage : string) (domains : list string) (s : AcmeState) : AcmeState :=
  foldl (λ s d, cache_one cert storage d s) s domains.

Definition ChallengeFQDN (domain : string) : string := "_acme-challenge." +:+ TrimSuffix domain ".".

Section acme.
Context `{!Sha256, !AbsPath, !X509, !IndexCodec}.
Context (conf : AcmeConfig) (ca : CA).

Definition on_disk {A} (m : IO World PathError A) : IO AcmeState AcmeError A := zoom am_world set_world (map_err AcmePath m).
(** A request gets a number, which the answer may depend on. *)
Definition request (r : CARequest) : IO AcmeState AcmeError nat := λ s,
  (Ok (length (am_log s)),
   {| am_account := am_account s; am_certCache := am_certCache s; am_cacheKeys := am_cacheKeys s;
      am_tokens := am_tokens s; am_world := am_world s; am_log := am_log s ++ [r] |}).
Definition some_or {A} (o : option A) (e : AcmeError) : IO AcmeState AcmeError A :=
  lift (match o with Some a => Ok a | None => Err e end).
Definition require (ok : bool) (e : AcmeError) : IO AcmeState AcmeError () := lift (check (negb ok) e).

Definition parseLeaf (derChain : list string) : option Leaf := match derChain with [] => None | der :: _ => ParseCertificate der end.
(** [cert.Leaf] after the fallback of the code. *)
Definition with_leaf (c : TLSCert) : TLSCert :=
  match tc_Leaf c with
  | Some _ => c
  | None => {| tc_Certificate := tc_Certificate c; tc_PrivateKey := tc_PrivateKey c; tc_Leaf := parseLeaf (tc_Certificate c) |}
  end.

Definition loadFromDisk (domain : string) : IO AcmeState AcmeError TLSCert :=
  on_disk (ReadPair (ac_cacheDir conf) ACME domain) ≫= λ '(certPEM, keyPEM),
  some_or (X509KeyPair certPEM keyPEM) BadPair ≫= λ c, mret (with_leaf c).

Definition persistDomainIndex : IO AcmeState AcmeError () :=
  if bool_decide (ac_cacheDir conf = "") then mret ()
  else get ≫= λ s, on_disk (WriteACMEIndex (ac_cacheDir conf) (index_marshal (am_cacheKeys s))).

Definition saveToDisk (domain : string) (cert : TLSCert) : IO AcmeState AcmeError () :=
  let certPEM := foldl (λ acc der, acc +:+ CertificatePEM der) "" (tc_Certificate cert) in
  lift (check (bool_decide (certPEM = "")) EmptyChain) ≫= λ _,
  match tc_PrivateKey cert with
  | ECDSA _ _ =>
      some_or (ECPrivateKeyPEM (tc_PrivateKey cert)) BadKey ≫= λ keyPEM,
      on_disk (WritePair (ac_cacheDir conf) ACME domain certPEM keyPEM) ≫= λ _,
      persistDomainIndex
  | _ => fail BadKey
  end.

(** A warning in the log is all that comes of an error. *)
Definition ignore {A} (m : IO AcmeState AcmeError A) : IO AcmeState AcmeError () := try m ≫= λ (_ : result AcmeError A), mret ().

Definition GetCertificate (hello : option string) : IO AcmeState AcmeError TLSCert :=
  match hello with
  | None => fail NilHello
  | Some server =>
      lift (match Normalize server true with Ok n => Ok n | Err e => Err (AcmePath e) end) ≫= λ name,
      get ≫= λ s,
      match am_certCache s !! name with
      | Some cert => mret cert
      | None =>
          if bool_decide (ac_cacheDir conf = "") then fail (NoCertificate name)
          else
            let stored := default "" (am_cacheKeys s !! name) in
            let storageDomain := if bool_decide (stored = "") then name else stored in
            try (loadFromDisk storageDomain) ≫= λ r,
            match r with
            | Ok loaded =>
                modify (cache_one loaded storageDomain name) ≫= λ _,
                ignore persistDomainIndex ≫= λ _, mret loaded
            | Err e => let _ : AcmeError := e in fail (NoCertificate name)
            end
      end
  end.

(** ** The protocol *)

(** [strings.Contains]. *)
Fixpoint contains (part : list ascii) (l : list ascii) : bool :=
  bool_decide (part `prefix_of` l) || match l with [] => false | _ :: l => contains part l end.

Definition registerAccount : IO AcmeState AcmeError () :=
  request Register ≫= λ n,
  match ca_Register ca n with
  | Some text => if contains (to_list "already") (to_list text) then modify set_account else fail (RegisterFailed text)
  | None => modify set_account
  end.

Definition PropagationWait (fqdn expectedValue domain : string) : IO AcmeState AcmeError () :=
  request (LookupTXT fqdn) ≫= λ n,
  require (existsb (λ poll, match poll with
                            | Some records => existsb (λ r, bool_decide (TrimSpace r = TrimSpace expectedValue)) records
                            | None => false
                            end) (ca_LookupTXT ca n)) (AuthorizeFailed domain).

Definition accept_and_wait (authz : Authorization) (chal : Challenge) (domain : string) : IO AcmeState AcmeError () :=
  request (Accept (ch_Token chal)) ≫= λ n,
  require (ca_Accept ca n) (AuthorizeFailed domain) ≫= λ _,
  request (WaitAuthorization (az_URI authz)) ≫= λ n,
  require (ca_Wait ca n) (AuthorizeFailed domain).

(** [DNS01Solver.CleanUp]: the provider can refuse, also because the context of
    the authorization is cancelled by then. *)
Definition CleanUp (fqdn : string) : IO AcmeState AcmeError () :=
  request (DNSCleanUp fqdn) ≫= λ n, require (ca_CleanUp ca n) CleanUpFailed.

(** [defer m.dnsSolver.CleanUp(ctx, fqdn)] drops the error of the call. *)
Definition authorize (domain : string) : IO AcmeState AcmeError () :=
  request (Authorize domain) ≫= λ n,
  some_or (ca_Authorize ca n domain) (AuthorizeFailed domain) ≫= λ authz,
  match List.find (λ c, bool_decide (ch_Type c = ac_challengeType conf)) (az_Challenges authz) with
  | None => fail NoChallenge
  | Some chal =>
      if bool_decide (ac_challengeType conf = "http-01") then
        request (ChallengeValue (ch_Token chal)) ≫= λ n,
        some_or (ca_ChallengeValue ca n (ch_Token chal)) (AuthorizeFailed domain) ≫= λ response,
        modify (λ s, set_tokens (<[ch_Token chal := response]> (am_tokens s)) s) ≫= λ _,
        finally (accept_and_wait authz chal domain) (λ s, set_tokens (delete (ch_Token chal) (am_tokens s)) s)
      else if bool_decide (ac_challengeType conf = "dns-01") then
        request (ChallengeValue (ch_Token chal)) ≫= λ n,
        some_or (ca_ChallengeValue ca n (ch_Token chal)) (AuthorizeFailed domain) ≫= λ value,
        let fqdn := ChallengeFQDN domain in
        request (DNSPresent fqdn value) ≫= λ n,
        require (ca_Present ca n) (AuthorizeFailed domain) ≫= λ _,
        finally (PropagationWait fqdn value domain ≫= λ _, accept_and_wait authz chal domain)
                (λ s, (CleanUp fqdn s).2)
      else accept_and_wait authz chal domain
  end.

(** The part of [Obtain] that talks to the authority. *)
Definition obtain_new (domains : list string) : IO AcmeState AcmeError TLSCert :=
  get ≫= λ s,
  (if am_account s then mret () else registerAccount) ≫= λ _,
  each authorize domains ≫= λ _,
  request (CreateCert domains) ≫= λ n,
  some_or (ca_CreateCert ca n domains) CreateFailed ≫= λ '(der, key),
  mret {| tc_Certificate := der; tc_PrivateKey := key; tc_Leaf := parseLeaf der |}.

Definition Obtain (domains : list string) : IO AcmeState AcmeError bool :=
  lift (match NormalizeAll domains true with Ok l => Ok l | Err e => Err (AcmePath e) end) ≫= λ domains,
  let primary := default "" (head domains) in
  (if bool_decide (ac_cacheDir conf = "") then mret None
   else try (loadFromDisk primary) ≫= λ r, mret (match r with Ok c => Some c | Err e => let _ : AcmeError := e in None end))
  ≫= λ cached,
  match cached with
  | Some loaded =>
      modify (cache_all loaded primary domains) ≫= λ _,
      ignore persistDomainIndex ≫= λ _, mret false
  | None =>
      obtain_new domains ≫= λ cert,
      modify (cache_all cert primary domains) ≫= λ _,
      (if bool_decide (ac_cacheDir conf = "") then mret () else ignore (saveToDisk primary cert)) ≫= λ _,
      mret true
  end.

(** ** Renewal *)

Definition day : Z := 24 * 3600 * second.
(** [range]: the order in which the map of domains is enumerated; [now] and
    [NotAfter] count nanoseconds. *)
Fixpoint renew_loop (now : Z) (certs : gmap string TLSCert) (range : list string) (seen : gset string) : IO AcmeState AcmeError () :=
  match range with
  | [] => mret ()
  | name :: range =>
      match certs !! name with
      | Some {| tc_Leaf := Some leaf |} =>
          if bool_decide (lf_SerialNumber leaf ∈ seen) then renew_loop now certs range seen
          else
            let seen := {[lf_SerialNumber leaf]} ∪ seen in
            if 30 * day <? lf_NotAfter leaf - now then renew_loop now certs range seen
            else
              let domainList := if bool_decide (lf_DNSNames leaf = []) then [name] else lf_DNSNames leaf in
              ignore (Obtain domainList) ≫= λ _, renew_loop now certs range seen
      | _ => renew_loop now certs range seen
      end
  end.
Definition renewExpiring (now : Z) (range : list string) : IO AcmeState AcmeError () :=
  get ≫= λ s, renew_loop now (am_certCache s) range ∅.

(** ** Preloading *)

Fixpoint preload_index (index : list (string * string)) (loaded : gmap string TLSCert) : IO AcmeState AcmeError () :=
  match index with
  | [] => mret ()
  | (rawDomain, rawStorage) :: index =>
      match Normalize rawDomain true, Normalize rawStorage true with
      | Ok domain, Ok storage =>
          match loaded !! storage with
          | Some cert => modify (cache_one cert storage domain) ≫= λ _, preload_index index loaded
          | None =>
              try (loadFromDisk storage) ≫= λ r,
              match r with
              | Ok cert => modify (cache_one cert storage domain) ≫= λ _, preload_index index (<[storage := cert]> loaded)
              | Err e => let _ : AcmeError := e in preload_index index loaded
              end
          end
      | _, _ => preload_index index loaded
      end
  end.

Definition preload_legacy (entries : list (string * Node)) : IO AcmeState AcmeError () :=
  each (λ '(name, _),
    if HasSuffix name ".crt" then
      match Normalize (TrimSuffix name ".crt") true with
      | Ok domain => ignore (GetCertificate (Some domain))
      | Err _ => mret ()
      end
    else mret ()) entries.

(** [range]: the enumeration of the index. *)
Definition Preload (range : gmap string string → list (string * string)) : IO AcmeState AcmeError () :=
  if bool_decide (ac_cacheDir conf = "") then mret ()
  else
    try (on_disk (ReadACMEIndex (ac_cacheDir conf))) ≫= λ r,
    match r with
    | Ok data =>
        match index_unmarshal data with
        | Some index => preload_index (range index) ∅
        | None => mret ()
        end
    | Err (AcmePath e) =>
        if is_not_exist e then
          match Abs (ac_cacheDir conf) with
          | Some dir =>
              try (on_disk (map_err Sys (ReadDir dir))) ≫= λ entries,
              match entries with
              | Ok entries => preload_legacy entries
              | Err e => let _ : AcmeError := e in mret ()
              end
          | None => mret ()
          end
        else mret ()
    | Err _ => mret ()
    end.

(** [LoadedDomains]. *)
Definition LoadedDomains (s : AcmeState) : list string := elements (dom (am_certCache s)).
End acme.

(** The challenge server of [HTTP01Solver.Start]: the answer to a request path. *)
Definition challengePath : string := "/.well-known/acme-challenge/".
Definition serve_challenge (tokens : gmap string string) (path : string) : option string :=
  if HasPrefix path challengePath then tokens !! TrimPrefix path challengePath else None.
