(* ===== verification/AcmeSpec.v ===== *)
(** * The ACME manager: what its operations guarantee

    The protocol with the authority (what is asked for, in which order, and what
    is taken back), the renewal of certificates and the cache across restarts. *)

From S2P Require Import Prelude GoStrings NetIP FileIO CertPath CertPathSpec Acme.

Section spec.
Context {sha : Sha256} {abs : AbsPath} {x509 : X509} {codec : IndexCodec}.
Context (conf : AcmeConfig) (ca : CA).

(** ** The protocol *)

(** Before position [i], the authority was asked to authorize the domain, and a
    wait for that authorization succeeded. *)
Definition authorized (log : list CARequest) (i : nat) (domain : string) : Prop :=
  ∃ j k authz, (j < k < i)%nat ∧ log !! j = Some (Authorize domain) ∧ ca_Authorize ca j domain = Some authz ∧
    log !! k = Some (WaitAuthorization (az_URI authz)) ∧ ca_Wait ca k = true.

(** Certificates are asked for after every domain was authorized; a record that
    was put into the DNS is the subject of a clean-up before the next record is
    put in place and before a certificate is asked for. *)
Definition issued_authorized (log : list CARequest) : Prop :=
  ∀ i domains, log !! i = Some (CreateCert domains) → ∀ d, d ∈ domains → authorized log i d.
Definition plain_request (r : CARequest) : Prop :=
  match r with CreateCert _ | DNSPresent _ _ => False | _ => True end.
Definition cleaned_at (log : list CARequest) (i j : nat) (fqdn : string) : Prop :=
  (i < j)%nat ∧ log !! j = Some (DNSCleanUp fqdn) ∧ ∀ k r, (i < k < j)%nat → log !! k = Some r → plain_request r.
Definition records_removed (log : list CARequest) : Prop :=
  ∀ i fqdn value, log !! i = Some (DNSPresent fqdn value) → ca_Present ca i = true → ∃ j, cleaned_at log i j fqdn.

(** The records the program has put into the DNS and that are still there: an
    accepted [Present] adds one, an accepted [CleanUp] takes those of its name out. *)
Definition txt_step (records : list (string * string)) (e : nat * CARequest) : list (string * string) :=
  match e.2 with
  | DNSPresent fqdn value => if ca_Present ca e.1 then records ++ [(fqdn, value)] else records
  | DNSCleanUp fqdn => if ca_CleanUp ca e.1 then filter (λ r, r.1 ≠ fqdn) records else records
  | _ => records
  end.
Definition txt_records (log : list CARequest) : list (string * string) := foldl txt_step [] (imap pair log).

(** What is still there was accepted, and no later clean-up of it was. *)
Lemma txt_records_source log fqdn value : (fqdn, value) ∈ txt_records log →
  ∃ i, log !! i = Some (DNSPresent fqdn value) ∧ ca_Present ca i = true ∧
    ∀ j, (i < j)%nat → log !! j = Some (DNSCleanUp fqdn) → ca_CleanUp ca j = false.
Proof.
  unfold txt_records. induction log as [|r log IH] using rev_ind; [by intros ?%elem_of_nil|].
  rewrite imap_app, foldl_app. cbn [imap foldl compose]. rewrite Nat.add_0_r.
  assert ((fqdn, value) ∈ foldl txt_step [] (imap pair log) → (r = DNSCleanUp fqdn → ca_CleanUp ca (length log) = false) →
    ∃ i, (log ++ [r]) !! i = Some (DNSPresent fqdn value) ∧ ca_Present ca i = true ∧
      ∀ j, (i < j)%nat → (log ++ [r]) !! j = Some (DNSCleanUp fqdn) → ca_CleanUp ca j = false) as Hold.
  { intros Hin Hr. destruct (IH Hin) as (i & Hi & Hp & Hj). exists i. split_and!; [by apply lookup_app_l_Some|done|].
    intros j Hlt [Hl|[Hge [Heq ->]%list_lookup_singleton_Some]]%lookup_app_Some; [by apply Hj|].
    replace j with (length log) by lia. by apply Hr. }
  assert (∀ v, (fqdn, value) = (fqdn, v) → r = DNSPresent fqdn v → ca_Present ca (length log) = true →
    ∃ i, (log ++ [r]) !! i = Some (DNSPresent fqdn value) ∧ ca_Present ca i = true ∧
      ∀ j, (i < j)%nat → (log ++ [r]) !! j = Some (DNSCleanUp fqdn) → ca_CleanUp ca j = false) as Hnew.
  { intros v [= <-] -> Hp. exists (length log). split_and!; [by apply list_lookup_middle|done|].
    intros j Hlt Hl%lookup_lt_Some. rewrite length_app in Hl. simpl in Hl. lia. }
  unfold txt_step at 1. cbn [fst snd]. destruct r; try (intros Hin; by apply Hold).
  - destruct (ca_Present ca (length log)) eqn:Hp; [|intros Hin; by apply Hold].
    intros [Hin|Hin%list_elem_of_singleton]%elem_of_app; [by apply Hold|]. injection Hin as -> ->. by eapply Hnew.
  - destruct (ca_CleanUp ca (length log)) eqn:Hc; [|intros Hin; by apply Hold].
    intros [Hne Hin]%list_elem_of_filter. apply Hold; [done|]. intros [= ->]. by simpl in Hne.
Qed.

Record protocol_ok (s : AcmeState) : Prop := {
  po_issued : issued_authorized (am_log s);
  po_removed : records_removed (am_log s);
  po_tokens : am_tokens s = ∅
}.

(** Positions of a longer log. *)
Lemma authorized_app log log' i d : authorized log i d → authorized (log ++ log') i d.
Proof.
  intros (j & k & authz & H & Hj & Ha & Hk & Hw). exists j, k, authz. split_and!; try done; try lia; by apply lookup_app_l_Some.
Qed.
Lemma authorized_later log i i' d : authorized log i d → (i ≤ i')%nat → authorized log i' d.
Proof. intros (j & k & authz & H & ?) ?. exists j, k, authz. split; [lia|done]. Qed.

(** What a part of the protocol appends. *)
Definition extends (s s' : AcmeState) (new : list CARequest) : Prop :=
  am_log s' = am_log s ++ new ∧ am_world s' = am_world s ∧ am_certCache s' = am_certCache s ∧ am_cacheKeys s' = am_cacheKeys s.
Lemma log_extends_refl s : extends s s [].
Proof. by split_and!; rewrite ?app_nil_r. Qed.
Lemma log_extends_trans s1 s2 s3 l1 l2 : extends s1 s2 l1 → extends s2 s3 l2 → extends s1 s3 (l1 ++ l2).
Proof. intros (E1 & ? & ? & ?) (E2 & ? & ? & ?). split_and!; [by rewrite E2, E1, app_assoc|congruence..]. Qed.

Lemma cleaned_at_app log log' i j fqdn : cleaned_at log i j fqdn → cleaned_at (log ++ log') i j fqdn.
Proof.
  intros (? & Hj & Hk). split_and!; [done|by apply lookup_app_l_Some|]. intros k r Hr Hl. eapply Hk; [done|].
  apply lookup_lt_Some in Hj. by rewrite lookup_app_l in Hl by lia.
Qed.
Lemma removed_app log new i fqdn : (∃ j, cleaned_at log i j fqdn) → ∃ j, cleaned_at (log ++ new) i j fqdn.
Proof. intros [j Hj]. exists j. by apply cleaned_at_app. Qed.

Lemma issued_plain log new : issued_authorized log → Forall plain_request new → issued_authorized (log ++ new).
Proof.
  intros H Hnew i ds Hi d Hd. apply lookup_app_Some in Hi as [Hi|[_ Hi]].
  - apply authorized_app. by eapply H.
  - by apply Forall_lookup_1 with (i := (i - length log)%nat) (x := CreateCert ds) in Hnew.
Qed.
Lemma removed_plain log new : records_removed log → Forall plain_request new → records_removed (log ++ new).
Proof.
  intros H Hnew i f v Hi Hp. apply lookup_app_Some in Hi as [Hi|[_ Hi]].
  - by eapply removed_app, H.
  - by apply Forall_lookup_1 with (i := (i - length log)%nat) (x := DNSPresent f v) in Hnew.
Qed.

Lemma protocol_ok_extends s s' new : protocol_ok s → extends s s' new → Forall plain_request new →
  am_tokens s' = am_tokens s → protocol_ok s'.
Proof.
  intros [H1 H2 H3] (Hl & _) Hnew Ht. split; [..|congruence]; rewrite Hl; [by apply issued_plain|by apply removed_plain].
Qed.

Lemma wp_request r (Q : result AcmeError nat → AcmeState → Prop) s :
  (∀ s', extends s s' [r] → am_tokens s' = am_tokens s → am_account s' = am_account s → Q (Ok (length (am_log s))) s') →
  wp (request r) Q s.
Proof. intros H. by apply H. Qed.

Lemma wp_require ok e (Q : result AcmeError () → AcmeState → Prop) s :
  (ok = true → Q (Ok ()) s) → (ok = false → Q (Err e) s) → wp (require ok e) Q s.
Proof. intros H1 H2. apply wp_lift. destruct ok; auto. Qed.
Lemma wp_some_or {A} (o : option A) e (Q : result AcmeError A → AcmeState → Prop) s :
  (∀ a, o = Some a → Q (Ok a) s) → (o = None → Q (Err e) s) → wp (some_or o e) Q s.
Proof. intros H1 H2. apply wp_lift. destruct o; auto. Qed.

(** The end of an authorization; when it succeeds, the wait did. *)
Lemma wp_accept_and_wait authz chal domain (Q : result AcmeError () → AcmeState → Prop) s :
  (∀ r s' new, extends s s' new → Forall plain_request new → am_tokens s' = am_tokens s → am_account s' = am_account s →
     (r = Ok () → ∃ k, (length (am_log s) ≤ k)%nat ∧ am_log s' !! k = Some (WaitAuthorization (az_URI authz)) ∧ ca_Wait ca k = true) →
     Q r s') →
  wp (accept_and_wait ca authz chal domain) Q s.
Proof.
  intros HQ. apply wp_bind, wp_request. intros s1 He1 Ht1 Ha1. apply wp_bind, wp_require; intros _.
  - apply wp_bind, wp_request. intros s2 He2 Ht2 Ha2.
    pose proof (log_extends_trans _ _ _ _ _ He1 He2) as He. assert (length (am_log s1) = S (length (am_log s))) as Hlen.
    { destruct He1 as [-> _]. rewrite length_app. simpl. lia. }
    apply wp_require; intros Hw; eapply (HQ _ _ _ He); try congruence; try (by repeat constructor).
    intros _. exists (length (am_log s1)). split_and!; [lia| |done].
    destruct He2 as [-> _]. by rewrite lookup_app_r, Nat.sub_diag by lia.
  - eapply (HQ _ _ _ He1); try done. by repeat constructor.
Qed.

Lemma cleanup_extends fqdn s : let s' := (CleanUp ca fqdn s).2 in
  extends s s' [DNSCleanUp fqdn] ∧ am_tokens s' = am_tokens s ∧ am_account s' = am_account s.
Proof. unfold CleanUp, require. cbn. by destruct (ca_CleanUp ca (length (am_log s))). Qed.

(** One authorization: the invariant is kept, and success means what it says. *)
Lemma wp_authorize domain (Q : result AcmeError () → AcmeState → Prop) s : protocol_ok s →
  (∀ r s' new, protocol_ok s' → extends s s' new → am_account s' = am_account s →
     (r = Ok () → authorized (am_log s') (length (am_log s')) domain) → Q r s') →
  wp (authorize conf ca domain) Q s.
Proof.
  intros Hok HQ. assert (∃ n, n = length (am_log s)) as [n0 Hn0] by eauto.
  apply wp_bind, wp_request. rewrite <-Hn0. intros s1 He1 Ht1 Ha1.
  pose proof (protocol_ok_extends _ _ _ Hok He1 ltac:(by repeat constructor) Ht1) as Hok1.
  assert (length (am_log s1) = S n0) as Hlen1 by (destruct He1 as [-> _]; rewrite length_app; simpl; lia).
  apply wp_bind, wp_some_or; [|intros _; by eapply HQ].
  intros authz Hauthz.
  (* what a successful end gives *)
  assert (∀ s2 k, (∃ new, extends s1 s2 new) → (S n0 ≤ k)%nat → am_log s2 !! k = Some (WaitAuthorization (az_URI authz)) →
    ca_Wait ca k = true → authorized (am_log s2) (length (am_log s2)) domain) as Hauth.
  { intros s2 k [new He2] Hk Hlk Hw. exists n0, k, authz. split_and!; try done; [by eapply lookup_lt_Some|].
    destruct He2 as [-> _]. apply lookup_app_l_Some. destruct He1 as [-> _].
    rewrite lookup_app_r by lia. by replace (n0 - length (am_log s))%nat with 0%nat by lia. }
  destruct (List.find _ _) as [chal|]; [|apply wp_fail; by eapply HQ].
  case_bool_decide as Hhttp; [|case_bool_decide as Hdns].
  - apply wp_bind, wp_request. intros s2 He2 Ht2 Ha2.
    pose proof (log_extends_trans _ _ _ _ _ He1 He2) as He12.
    pose proof (protocol_ok_extends _ _ _ Hok He12 ltac:(by repeat constructor) ltac:(congruence)) as Hok2.
    apply wp_bind, wp_some_or; [|intros _; eapply HQ; [done..|congruence|done]]. intros response _.
    apply wp_bind. unfold wp, modify. cbn [fst snd].
    set (s3 := set_tokens (<[ch_Token chal:=response]> (am_tokens s2)) s2).
    change (wp (finally (accept_and_wait ca authz chal domain) (λ s, set_tokens (delete (ch_Token chal) (am_tokens s)) s)) Q s3).
    apply wp_finally, wp_accept_and_wait. intros r s4 new He4 Hnew Ht4 Ha4 Hwait.
    assert (extends s (set_tokens (delete (ch_Token chal) (am_tokens s4)) s4) (([Authorize domain] ++ [ChallengeValue (ch_Token chal)]) ++ new)) as He.
    { exact (log_extends_trans s s2 s4 _ _ He12 He4). }
    eapply HQ; [|exact He|change (am_account s4 = am_account s); rewrite Ha4; change (am_account s2 = am_account s); congruence|].
    + eapply protocol_ok_extends; [exact Hok|exact He|by repeat constructor|].
      simpl. rewrite Ht4. simpl. destruct Hok2 as [_ _ Htok]. rewrite Htok. destruct Hok as [_ _ ->].
      by rewrite delete_insert_eq, delete_empty.
    + intros Hr. destruct (Hwait Hr) as (k & Hk & Hlk & Hw). eapply (Hauth (set_tokens _ s4) k); [|..|exact Hlk|exact Hw].
      * eexists. exact (log_extends_trans s1 s2 s4 _ _ He2 He4).
      * destruct He2 as [Hl2 _]. simpl in Hk. rewrite Hl2, length_app in Hk. lia.
  - apply wp_bind, wp_request. intros s2 He2 Ht2 Ha2.
    pose proof (log_extends_trans _ _ _ _ _ He1 He2) as He12.
    pose proof (protocol_ok_extends _ _ _ Hok He12 ltac:(by repeat constructor) ltac:(congruence)) as Hok2.
    apply wp_bind, wp_some_or; [|intros _; eapply HQ; [done..|congruence|done]]. intros value _.
    set (fqdn := ChallengeFQDN domain). assert (∃ n, n = length (am_log s2)) as [n2 Hn2] by eauto.
    apply wp_bind, wp_request. rewrite <-Hn2. intros s3 He3 Ht3 Ha3.
    pose proof (log_extends_trans _ _ _ _ _ He12 He3) as He13.
    assert (am_log s3 !! n2 = Some (DNSPresent fqdn value)) as Hpres.
    { destruct He3 as [-> _]. rewrite lookup_app_r by lia. by rewrite Hn2, Nat.sub_diag. }
    assert (length (am_log s3) = S n2) as Hlen3 by (destruct He3 as [-> _]; rewrite length_app; simpl; lia).
    assert (issued_authorized (am_log s3)) as Hiss3.
    { intros i ds Hi d Hd. destruct He3 as [Hl3 _]. rewrite Hl3 in *. apply lookup_app_Some in Hi as [Hi|[_ Hi]].
      - apply authorized_app. by eapply (po_issued _ Hok2).
      - by apply list_lookup_singleton_Some in Hi as [_ ?]. }
    (* the invariant after what follows the new record *)
    assert (∀ s4 new, extends s3 s4 new → Forall plain_request new → am_tokens s4 = am_tokens s3 →
      (ca_Present ca n2 = true → ∃ j, cleaned_at (am_log s4) n2 j fqdn) → protocol_ok s4) as Hfin.
    { intros s4 new He4 Hnew Ht4 Hclean. split.
      - destruct He4 as [-> _]. by apply issued_plain.
      - intros i f v Hi Hp. destruct He4 as [Hl4 _]. rewrite Hl4 in *.
        apply lookup_app_Some in Hi as [Hi|[_ Hi]]; [|by apply Forall_lookup_1 with (i := (i - length (am_log s3))%nat) (x := DNSPresent f v) in Hnew].
        destruct He3 as [Hl3 _]. rewrite Hl3 in Hi. apply lookup_app_Some in Hi as [Hi|[Hge Hi]].
        + rewrite Hl3, <-app_assoc. by eapply removed_app, (po_removed _ Hok2).
        + apply list_lookup_singleton_Some in Hi as [Hi0 [= <- <-]]. assert (i = n2) as -> by lia. by apply Hclean.
      - rewrite Ht4, Ht3. by destruct Hok2. }
    apply wp_bind, wp_require; intros Hp.
    2:{ eapply HQ; [|exact He13|congruence|done]. apply (Hfin s3 []); [apply log_extends_refl|constructor|done|congruence]. }
    apply wp_finally. 
    assert (∀ r s4 new, extends s3 s4 new → Forall plain_request new → am_tokens s4 = am_tokens s3 → am_account s4 = am_account s3 →
      (r = Ok () → ∃ k, (S n2 ≤ k)%nat ∧ am_log s4 !! k = Some (WaitAuthorization (az_URI authz)) ∧ ca_Wait ca k = true) →
      Q r (CleanUp ca fqdn s4).2) as Hend.
    { intros r s4 new He4 Hnew Ht4 Ha4 Hwait. destruct (cleanup_extends fqdn s4) as (He5 & Ht5 & Ha5). set (s5 := (CleanUp ca fqdn s4).2) in *.
      pose proof (log_extends_trans _ _ _ _ _ He4 He5) as He35.
      eapply HQ; [|exact (log_extends_trans _ _ _ _ _ He13 He35)|congruence|].
      - eapply Hfin; [exact He35|apply Forall_app_2; [done|by repeat constructor]|congruence|].
        intros _. exists (length (am_log s4)). destruct He4 as [Hl4 _], He5 as [Hl5 _]. rewrite Hl5, Hl4. split_and!.
        + rewrite length_app. lia.
        + by apply list_lookup_middle.
        + intros k r' Hk. rewrite lookup_app_l, lookup_app_r by lia. by apply Forall_lookup_1.
      - intros Hr. destruct (Hwait Hr) as (k & Hk & Hlk & Hw). eapply (Hauth s5 k); [|..|exact Hw].
        + eexists. eapply log_extends_trans; [exact (log_extends_trans _ _ _ _ _ He2 He3)|exact He35].
        + destruct He2 as [Hl2 _]. rewrite Hn2, Hl2, length_app in Hk. simpl in Hk. lia.
        + destruct He5 as [-> _]. by apply lookup_app_l_Some. }
    apply wp_bind, wp_bind, wp_request. intros s4 He4 Ht4 Ha4. apply wp_require; intros _.
    + apply wp_accept_and_wait. intros r s5 new He5 Hnew Ht5 Ha5 Hwait.
      eapply Hend; [exact (log_extends_trans _ _ _ _ _ He4 He5)|by constructor|congruence..|].
      intros Hr. destruct (Hwait Hr) as (k & Hk & ?). exists k. split; [|done].
      destruct He4 as [Hl4 _]. rewrite Hl4, length_app in Hk. lia.
    + eapply Hend; [exact He4|by repeat constructor|done|done|done].
  - apply wp_accept_and_wait. intros r s2 new He2 Hnew Ht2 Ha2 Hwait.
    pose proof (log_extends_trans _ _ _ _ _ He1 He2) as He. eapply HQ; [|exact He|congruence|].
    + eapply protocol_ok_extends; [exact Hok|exact He|by constructor|congruence].
    + intros Hr. destruct (Hwait Hr) as (k & Hk & Hlk & Hw). eapply (Hauth s2 k); [by eexists|lia|done|done].
Qed.

(** ** Operations that only use the disk and the maps *)

Definition keeps (s s' : AcmeState) : Prop := am_log s' = am_log s ∧ am_tokens s' = am_tokens s.
Lemma keeps_log_trans s1 s2 s3 : keeps s1 s2 → keeps s2 s3 → keeps s1 s3.
Proof. intros [] []. split; congruence. Qed.
Lemma keeps_protocol s s' : protocol_ok s → keeps s s' → protocol_ok s'.
Proof. intros [? ? ?] [E1 E2]. by split; rewrite ?E1, ?E2. Qed.
Definition frame {A} (m : IO AcmeState AcmeError A) : Prop := ∀ s, keeps s (m s).2.

Lemma frame_bind {A B} (m : IO AcmeState AcmeError A) (f : A → IO AcmeState AcmeError B) :
  frame m → (∀ a, frame (f a)) → frame (m ≫= f).
Proof.
  intros Hm Hf s. unfold mbind, io_bind. specialize (Hm s). destruct (m s) as [[a|e] s1]; simpl in *; [|done].
  eapply keeps_log_trans; [exact Hm|apply Hf].
Qed.
Lemma frame_ret {A} (a : A) : frame (mret a). Proof. done. Qed.
Lemma frame_fail {A} e : frame (@fail _ _ A e). Proof. done. Qed.
Lemma frame_lift {A} (r : result AcmeError A) : frame (lift r). Proof. done. Qed.
Lemma frame_try {A} (m : IO AcmeState AcmeError A) : frame m → frame (try (E' := AcmeError) m).
Proof. intros Hm s. specialize (Hm s). unfold try. by destruct (m s). Qed.
Lemma frame_get : frame get. Proof. done. Qed.
Lemma frame_on_disk {A} (m : IO World PathError A) : frame (on_disk m).
Proof. intros s. unfold on_disk, zoom. by destruct (map_err _ _ _). Qed.
Lemma frame_cache_all cert storage domains : frame (modify (cache_all cert storage domains)).
Proof.
  intros s. unfold modify, keeps. cbn [snd]. revert s. unfold cache_all. induction domains as [|d ds IH]; intros s; [done|].
  cbn [foldl]. destruct (IH (cache_one cert storage d s)) as [-> ->]. done.
Qed.
Lemma frame_cache_one cert storage d : frame (modify (cache_one cert storage d)).
Proof. done. Qed.
Hint Resolve frame_ret frame_fail frame_lift frame_get frame_on_disk frame_cache_all frame_cache_one : core.

Lemma frame_persist : frame (persistDomainIndex conf).
Proof. unfold persistDomainIndex. case_bool_decide; [done|]. by apply frame_bind. Qed.
Lemma frame_load domain : frame (loadFromDisk conf domain).
Proof. apply frame_bind; [done|]. intros [c k]. by apply frame_bind. Qed.
Lemma frame_ignore {A} (m : IO AcmeState AcmeError A) : frame m → frame (ignore m).
Proof. intros. apply frame_bind; [by apply frame_try|done]. Qed.
Lemma frame_save domain cert : frame (saveToDisk conf domain cert).
Proof.
  apply frame_bind; [done|]. intros _. destruct (tc_PrivateKey cert); try done.
  apply frame_bind; [done|]. intros k. apply frame_bind; [done|]. intros _. apply frame_persist.
Qed.
Hint Resolve frame_persist frame_load frame_ignore frame_save frame_try : core.

Lemma frame_GetCertificate hello : frame (GetCertificate conf hello).
Proof.
  destruct hello as [server|]; [|done]. apply frame_bind; [done|]. intros name. apply frame_bind; [done|]. intros s.
  destruct (am_certCache s !! name); [done|]. case_bool_decide; [done|].
  apply frame_bind; [by auto|]. intros [loaded|e]; [|done].
  apply frame_bind; [done|]. intros _. apply frame_bind; [by auto|done].
Qed.

Lemma frame_preload_index index : ∀ loaded, frame (preload_index conf index loaded).
Proof.
  induction index as [|[rawDomain rawStorage] index IH]; intros loaded; [done|]. cbn [preload_index].
  destruct (Normalize rawDomain true) as [domain|]; [|done]. destruct (Normalize rawStorage true) as [storage|]; [|done].
  destruct (loaded !! storage); [by apply frame_bind|].
  apply frame_bind; [by auto|]. intros [c|e]; [by apply frame_bind|done].
Qed.
Lemma frame_each {A} (f : A → IO AcmeState AcmeError ()) l : (∀ x, frame (f x)) → frame (each f l).
Proof. intros Hf. induction l as [|x l IH]; [done|]. by apply frame_bind. Qed.
Lemma frame_Preload range : frame (Preload conf range).
Proof.
  unfold Preload. case_bool_decide; [done|]. apply frame_bind; [by auto|]. intros [data|[]]; try done.
  - destruct (index_unmarshal data); [|done]. apply frame_preload_index.
  - destruct (is_not_exist _); [|done]. destruct (Abs _); [|done].
    apply frame_bind; [by auto|]. intros [entries|]; [|done]. apply frame_each. intros [name n].
    destruct (HasSuffix name ".crt"); [|done]. destruct (Normalize _ true); [|done]. apply frame_ignore, frame_GetCertificate.
Qed.

(** ** Obtaining *)

Lemma wp_frame {A} (m : IO AcmeState AcmeError A) (Q : result AcmeError A → AcmeState → Prop) s :
  frame m → (∀ r s', keeps s s' → Q r s') → wp m Q s.
Proof. intros Hm HQ. apply HQ, Hm. Qed.

Lemma wp_authorize_all domains : ∀ (Q : result AcmeError () → AcmeState → Prop) s, protocol_ok s →
  (∀ r s' new, protocol_ok s' → extends s s' new →
     (r = Ok () → ∀ d, d ∈ domains → authorized (am_log s') (length (am_log s')) d) → Q r s') →
  wp (each (authorize conf ca) domains) Q s.
Proof.
  induction domains as [|d domains IH]; intros Q s Hok HQ; cbn [each].
  - apply wp_ret, (HQ _ _ []); [done|apply log_extends_refl|by intros _ ? ?%elem_of_nil].
  - apply wp_bind, wp_authorize; [done|]. intros [[]|e] s1 new1 Hok1 He1 _ Hd; [|by apply (HQ _ _ new1)].
    apply IH; [done|]. intros r s2 new2 Hok2 He2 Hall.
    apply (HQ _ _ (new1 ++ new2)); [done|by eapply log_extends_trans|].
    intros Hr x [->|Hx]%elem_of_cons; [|by apply Hall]. destruct He2 as [-> _].
    apply authorized_later with (i := length (am_log s1)); [by apply authorized_app, Hd|rewrite length_app; lia].
Qed.

Lemma wp_registerAccount (Q : result AcmeError () → AcmeState → Prop) s : protocol_ok s →
  (∀ r s' new, protocol_ok s' → extends s s' new → Q r s') → wp (registerAccount ca) Q s.
Proof.
  intros Hok HQ. apply wp_bind, wp_request. intros s1 He1 Ht1 _.
  assert (protocol_ok s1) as Hok1 by (eapply protocol_ok_extends; [done|done|by repeat constructor|done]).
  assert (protocol_ok (set_account s1)) as Hok2 by (by destruct Hok1).
  destruct (ca_Register ca (length (am_log s))) as [text|].
  - destruct (contains _ _); by eapply HQ.
  - by eapply HQ.
Qed.

Lemma wp_obtain_new domains (Q : result AcmeError TLSCert → AcmeState → Prop) s : protocol_ok s →
  (∀ r s' new, protocol_ok s' → extends s s' new →
     (∀ c, r = Ok c → ∃ n der key, ca_CreateCert ca n domains = Some (der, key) ∧
        c = {| tc_Certificate := der; tc_PrivateKey := key; tc_Leaf := parseLeaf der |}) → Q r s') →
  wp (obtain_new conf ca domains) Q s.
Proof.
  intros Hok HQ. unfold obtain_new. apply wp_bind, wp_lift. cbn.
  change (wp ((if am_account s then mret () else registerAccount ca) ≫= λ _, each (authorize conf ca) domains ≫= λ _,
    request (CreateCert domains) ≫= λ n, some_or (ca_CreateCert ca n domains) CreateFailed ≫= λ '(der, key),
    mret {| tc_Certificate := der; tc_PrivateKey := key; tc_Leaf := parseLeaf der |}) Q s).
  assert (∀ (Q' : result AcmeError () → AcmeState → Prop), (∀ r s' new, protocol_ok s' → extends s s' new → Q' r s') →
    wp (if am_account s then mret () else registerAccount ca) Q' s) as Hreg.
  { intros Q' HQ'. destruct (am_account s); [apply (HQ' _ _ []); [done|apply log_extends_refl]|by apply wp_registerAccount]. }
  apply wp_bind, Hreg. intros [[]|e] s1 new1 Hok1 He1; [|by eapply HQ].
  apply wp_bind, wp_authorize_all; [done|]. intros [[]|e] s2 new2 Hok2 He2 Hauth; [|eapply HQ; [done|by eapply log_extends_trans|done]].
  pose proof (log_extends_trans _ _ _ _ _ He1 He2) as He12. specialize (Hauth eq_refl).
  apply wp_bind, wp_request. intros s3 He3 Ht3 _. pose proof (log_extends_trans _ _ _ _ _ He12 He3) as He13.
  assert (protocol_ok s3) as Hok3.
  { destruct Hok2 as [Hi Hr Htok], He3 as [Hl3 _]. split; [| |congruence]; rewrite Hl3.
    - intros i ds Hds d Hd. apply authorized_app. apply lookup_app_Some in Hds as [Hds|[Hge Hds]]; [by eapply Hi|].
      apply list_lookup_singleton_Some in Hds as [? [= <-]]. apply authorized_later with (i := length (am_log s2)); [by apply Hauth|done].
    - intros i f v Hf Hp. apply lookup_app_Some in Hf as [Hf|[_ Hf]].
      + by eapply removed_app, Hr.
      + by apply list_lookup_singleton_Some in Hf as [_ ?]. }
  apply wp_bind, wp_some_or.
  - intros [der key] Hca. apply wp_ret. eapply HQ; [done|done|]. intros c [= <-]. by eexists _, _, _.
  - intros _. by eapply HQ.
Qed.

Lemma wp_Obtain_protocol domains (Q : result AcmeError bool → AcmeState → Prop) s : protocol_ok s →
  (∀ r s', protocol_ok s' → Q r s') → wp (Obtain conf ca domains) Q s.
Proof.
  intros Hok HQ. apply wp_bind, wp_lift. destruct (NormalizeAll domains true) as [l|e]; [|by apply HQ]. cbn [default].
  apply wp_bind, wp_frame.
  { case_bool_decide; [done|]. apply frame_bind; [by auto|done]. }
  intros [[loaded|]|e] s1 Hk1; [| |by eapply HQ, keeps_protocol].
  - apply wp_frame; [apply frame_bind; [done|]; intros _; apply frame_bind; [by auto|done]|].
    intros r s2 Hk2. eapply HQ, keeps_protocol; [|exact Hk2]. by eapply keeps_protocol.
  - apply wp_bind, wp_obtain_new; [by eapply keeps_protocol|]. intros [c|e] s2 new Hok2 _ _; [|by apply HQ].
    apply wp_frame; [|intros r s3 Hk3; by eapply HQ, keeps_protocol].
    apply frame_bind; [done|]. intros _. apply frame_bind; [|done]. case_bool_decide; [done|by auto].
Qed.

Lemma wp_renew_protocol now certs range : ∀ seen (Q : result AcmeError () → AcmeState → Prop) s, protocol_ok s →
  (∀ r s', protocol_ok s' → Q r s') → wp (renew_loop conf ca now certs range seen) Q s.
Proof.
  induction range as [|name range IH]; intros seen Q s Hok HQ; cbn [renew_loop]; [by apply HQ|].
  destruct (certs !! name) as [[chain pk [leaf|]]|]; try by apply IH.
  case_bool_decide; [by apply IH|]. destruct (_ <? _); [by apply IH|].
  apply wp_bind, wp_bind, wp_try, wp_Obtain_protocol; [done|]. intros r s1 Hok1. apply wp_ret. by apply IH.
Qed.

(** ** Any sequence of operations *)

Inductive AcmeOp :=
| OpObtain (domains : list string) | OpGet (hello : option string) | OpRenew (now : Z) (range : list string)
| OpPreload (range : gmap string string → list (string * string)).
Definition acme_step (op : AcmeOp) (s : AcmeState) : AcmeState :=
  match op with
  | OpObtain domains => (Obtain conf ca domains s).2
  | OpGet hello => (GetCertificate conf hello s).2
  | OpRenew now range => (renewExpiring conf ca now range s).2
  | OpPreload range => (Preload conf range s).2
  end.
Definition acme_run (ops : list AcmeOp) (s : AcmeState) : AcmeState := foldl (λ s op, acme_step op s) s ops.

Lemma acme_step_protocol op s : protocol_ok s → protocol_ok (acme_step op s).
Proof.
  intros Hok. destruct op; simpl.
  - by apply (wp_Obtain_protocol domains (λ _, protocol_ok)).
  - eapply keeps_protocol; [done|apply frame_GetCertificate].
  - by apply (wp_renew_protocol now (am_certCache s) range ∅ (λ _, protocol_ok)).
  - eapply keeps_protocol; [done|apply frame_Preload].
Qed.
Lemma acme_run_protocol ops s : protocol_ok s → protocol_ok (acme_run ops s).
Proof. revert s. induction ops as [|op ops IH]; intros s Hok; [done|]. by apply IH, acme_step_protocol. Qed.
End spec.

(** [NewManager] and [NewManagerWithDNS]. *)
Definition NewAcme (w : World) : AcmeState :=
  {| am_account := false; am_certCache := ∅; am_cacheKeys := ∅; am_tokens := ∅; am_world := w; am_log := [] |}.

(** C24: Whatever the authority, the DNS and the disk answer, and whichever
    operations run: a certificate is asked for only after an authorization of each
    of its domains was waited for with success.  For every record that was put into
    the DNS a clean-up is requested, before another record is put in place and
    before a certificate is asked for; a record that is still in the DNS is one
    whose clean-up failed (the code drops that error), so none is left when no
    clean-up fails.  And no challenge response stays in the solver. *)
Theorem acme_protocol (sha : Sha256) (abs : AbsPath) (x509 : X509) (codec : IndexCodec) (conf : AcmeConfig) (ca : CA)
  (ops : list AcmeOp) (w : World) :
  let s := acme_run conf ca ops (NewAcme w) in let log := am_log s in
  (∀ i domains d, log !! i = Some (CreateCert domains) → d ∈ domains → authorized ca log i d) ∧
  (∀ i fqdn value, log !! i = Some (DNSPresent fqdn value) → ca_Present ca i = true →
     ∃ j, (i < j)%nat ∧ log !! j = Some (DNSCleanUp fqdn) ∧
       ∀ k r, (i < k < j)%nat → log !! k = Some r → plain_request r) ∧
  (∀ fqdn value, (fqdn, value) ∈ txt_records ca log →
     ∃ i j, (i < j)%nat ∧ log !! i = Some (DNSPresent fqdn value) ∧
       log !! j = Some (DNSCleanUp fqdn) ∧ ca_CleanUp ca j = false) ∧
  ((∀ j fqdn, log !! j = Some (DNSCleanUp fqdn) → ca_CleanUp ca j = true) → txt_records ca log = []) ∧
  am_tokens s = ∅.
Proof.
  intros s log. assert (protocol_ok ca s) as [Hi Hr Ht].
  { apply acme_run_protocol. split; [| |done]; intros i; simpl; intros; by rewrite lookup_nil in *. }
  assert (∀ fqdn value, (fqdn, value) ∈ txt_records ca log → ∃ i j, (i < j)%nat ∧ log !! i = Some (DNSPresent fqdn value) ∧
    log !! j = Some (DNSCleanUp fqdn) ∧ ca_CleanUp ca j = false) as Hleft.
  { intros f v (i & Hl & Hp & Hj)%txt_records_source. destruct (Hr i f v Hl Hp) as (j & Hlt & Hc & _). exists i, j. by auto. }
  split_and!; [|done|done| |done].
  - intros i ds d Hl Hd. by eapply Hi.
  - intros Hall. destruct (txt_records ca log) as [|[f v] l] eqn:Hrec; [done|].
    destruct (Hleft f v) as (i & j & _ & _ & Hj & Hc); [by left|]. by rewrite (Hall _ _ Hj) in Hc.
Qed.

(** ** The cache on disk *)

Lemma cache_all_state cert storage domains s :
  am_world (cache_all cert storage domains s) = am_world s ∧ am_account (cache_all cert storage domains s) = am_account s ∧
  am_log (cache_all cert storage domains s) = am_log s ∧
  ∀ d, am_certCache (cache_all cert storage domains s) !! d = (if decide (d ∈ domains) then Some cert else am_certCache s !! d) ∧
       am_cacheKeys (cache_all cert storage domains s) !! d = (if decide (d ∈ domains) then Some storage else am_cacheKeys s !! d).
Proof.
  unfold cache_all. revert s. induction domains as [|d0 ds IH]; intros s; cbn [foldl].
  { split_and!; [done..|]. intros d. rewrite !decide_False by apply not_elem_of_nil. done. }
  destruct (IH (cache_one cert storage d0 s)) as (-> & -> & -> & Hm). split_and!; [done..|]. intros d.
  destruct (Hm d) as [-> ->]. cbn [cache_one am_certCache am_cacheKeys].
  destruct (decide (d ∈ ds)); [by rewrite !decide_True by set_solver|].
  destruct (decide (d = d0)) as [->|]; [rewrite !decide_True by set_solver; by rewrite !lookup_insert_eq|].
  rewrite !decide_False by set_solver. by rewrite !lookup_insert_ne.
Qed.

Section disk.
Context {sha : Sha256} {abs : AbsPath} {x509 : X509} {codec : IndexCodec}.
Context (conf : AcmeConfig) (ca : CA) (root : Path).
Hypothesis Hcache : ac_cacheDir conf ≠ "".
Hypothesis Hroot : cleanRoot (ac_cacheDir conf) = Ok root.

Definition index_path : Path := root ++ [acmeIndexFilename].
Definition cert_path (name : string) : Path := root ++ [cert_name name].
Definition key_path (name : string) : Path := root ++ [key_name name].

(** The pair of [name] is on disk and is the certificate [c]. *)
Definition stored (d : FS) (name : string) (c : TLSCert) : Prop :=
  ∃ certPEM keyPEM c0, content d (cert_path name) = Some certPEM ∧ content d (key_path name) = Some keyPEM ∧
    Z.of_nat (String.length certPEM) ≤ maxCertificateFileSize ∧ Z.of_nat (String.length keyPEM) ≤ maxCertificateFileSize ∧
    X509KeyPair certPEM keyPEM = Some c0 ∧ c = with_leaf c0.

(** No call will fail, and only the index may have changed. *)
Definition index_only (s s' : AcmeState) : Prop :=
  evolves [index_path] root (w_fs (am_world s)) (w_fs (am_world s')) ∧ w_events (am_world s') = [].
Lemma index_only_refl s : w_events (am_world s) = [] → index_only s s.
Proof. intros. split; [apply evolves_refl|done]. Qed.
Lemma index_only_trans s1 s2 s3 : index_only s1 s2 → index_only s2 s3 → index_only s1 s3.
Proof. intros [] []. split; [by eapply evolves_trans|done]. Qed.

Lemma content_evolves files dir d d' p data : evolves files dir d d' → p ∉ files → content d p = Some data → content d' p = Some data.
Proof. unfold content. intros H Hp Hc. destruct (H p Hp) as [->|(_ & E & _)]; [done|]. by rewrite E in Hc. Qed.

Lemma cert_path_not_index name : cert_path name ∉ [index_path].
Proof. rewrite list_elem_of_singleton. by intros [_ [=]]%app_inj_tail. Qed.
Lemma key_path_not_index name : key_path name ∉ [index_path].
Proof. rewrite list_elem_of_singleton. by intros [_ [=]]%app_inj_tail. Qed.

Lemma stored_index_only s s' name c : index_only s s' → stored (w_fs (am_world s)) name c → stored (w_fs (am_world s')) name c.
Proof.
  intros [He _] (cp & kp & c0 & Hc & Hk & ?). exists cp, kp, c0. split_and!; try apply H; try done.
  - eapply content_evolves; [done|apply cert_path_not_index|done].
  - eapply content_evolves; [done|apply key_path_not_index|done].
Qed.

Lemma wp_on_disk {A} (m : IO World PathError A) (Q : result AcmeError A → AcmeState → Prop) s :
  wp m (λ r w', Q (match r with Ok a => Ok a | Err e => Err (AcmePath e) end) (set_world w' s)) (am_world s) → wp (on_disk m) Q s.
Proof. intros H. by apply wp_zoom, wp_map_err. Qed.

Lemma quiet_calm s : w_events (am_world s) = [] → calm (am_world s).
Proof. intros H. unfold calm. rewrite H. constructor. Qed.

Lemma wp_load_stored name c (Q : result AcmeError TLSCert → AcmeState → Prop) s :
  w_events (am_world s) = [] → Normalize name true = Ok name → stored (w_fs (am_world s)) name c →
  (∀ w', fs_nodes (w_fs w') = fs_nodes (w_fs (am_world s)) → w_events w' = [] → Q (Ok c) (set_world w' s)) →
  wp (loadFromDisk conf name) Q s.
Proof using Hroot.
  intros Hev Hname (cp & kp & c0 & Hc & Hk & Hcl & Hkl & Hpair & ->) HQ.
  apply wp_bind, wp_on_disk. eapply (wp_ReadPair _ ACME); [done|done|by apply quiet_calm| |].
  - intros Hn. unfold content in Hc. change (fs_nodes (w_fs (am_world s)) !! cert_path name = None) in Hn. by rewrite Hn in Hc.
  - intros r w' (_ & Hn & Hev') _ _ Hread _. rewrite (Hread Hev cp kp Hc Hk Hcl Hkl).
    apply wp_bind, wp_some_or; rewrite Hpair; [|done]. intros ? [= <-]. apply wp_ret, HQ; [done|auto].
Qed.

Lemma wp_persist (Q : result AcmeError () → AcmeState → Prop) s : w_events (am_world s) = [] →
  (∀ r w', index_only s (set_world w' s) →
     replaced index_path 384 (index_marshal (am_cacheKeys s)) (match r with Ok _ => Ok () | Err _ => Err EmptyDomain end) (am_world s) w' →
     (writable (w_fs (am_world s)) root acmeIndexFilename → r = Ok ()) → Q r (set_world w' s)) →
  wp (persistDomainIndex conf) Q s.
Proof using Hcache Hroot.
  intros Hev HQ. unfold persistDomainIndex. rewrite bool_decide_false by done.
  apply wp_bind, wp_lift. cbn. apply wp_on_disk. eapply wp_writeFixedDocument; [by apply quiet_calm|done|].
  intros r w' (_ & He & Hev') Hr Hok. apply HQ.
  - split; [exact He|auto].
  - destruct Hr as [[? ?]|?]; [left|by right]. split; [done|]. by destruct r as [[]|].
  - intros Hw. by rewrite Hok.
Qed.

Lemma wp_ignore {A} (m : IO AcmeState AcmeError A) (Q : result AcmeError () → AcmeState → Prop) s :
  wp m (λ _, Q (Ok ())) s → wp (ignore m) Q s.
Proof. intros H. apply wp_bind, wp_try. eapply wp_consequence; [exact H|]. done. Qed.

(** With the pair on disk, [Obtain] takes it from there. *)
Lemma wp_Obtain_stored domains l primary c (Q : result AcmeError bool → AcmeState → Prop) s :
  w_events (am_world s) = [] → NormalizeAll domains true = Ok l → head l = Some primary → Normalize primary true = Ok primary →
  stored (w_fs (am_world s)) primary c →
  (∀ s', index_only s s' → am_log s' = am_log s → am_account s' = am_account s →
     (∀ d, am_certCache s' !! d = if decide (d ∈ l) then Some c else am_certCache s !! d) → Q (Ok false) s') →
  wp (Obtain conf ca domains) Q s.
Proof using Hcache Hroot.
  intros Hev Hl Hhead Hprim Hst HQ. unfold Obtain. apply wp_bind, wp_lift. rewrite Hl, Hhead. cbn [default id].
  rewrite (bool_decide_false _ Hcache). apply wp_bind, wp_bind, wp_try. eapply wp_load_stored; [done..|].
  intros w1 Hn1 Hev1. apply wp_ret. apply wp_bind, wp_modify.
  set (s2 := cache_all c primary l (set_world w1 s)).
  destruct (cache_all_state c primary l (set_world w1 s)) as (Hw2 & Ha2 & Hl2 & Hm2). fold s2 in Hw2, Ha2, Hl2, Hm2.
  apply wp_bind, wp_ignore, wp_persist; [by rewrite Hw2|]. intros r w3 [He3 Hev3] _ _. apply wp_ret, HQ.
  - split; [|done]. rewrite Hw2 in He3. eapply evolves_trans; [|exact He3]. by apply evolves_nodes.
  - exact Hl2.
  - exact Ha2.
  - intros d. by destruct (Hm2 d) as [Hd _].
Qed.

(** ** Renewal *)

(** The names a certificate is renewed for, and the pair looked up for them. *)
Definition renewal_stored (d : FS) (name : string) (leaf : Leaf) : Prop :=
  ∃ l primary c, NormalizeAll (if bool_decide (lf_DNSNames leaf = []) then [name] else lf_DNSNames leaf) true = Ok l ∧
    head l = Some primary ∧ Normalize primary true = Ok primary ∧ stored d primary c.

Lemma wp_renew_stored now certs range : ∀ seen (Q : result AcmeError () → AcmeState → Prop) s,
  w_events (am_world s) = [] →
  (∀ name chain pk leaf, name ∈ range → certs !! name = Some {| tc_Certificate := chain; tc_PrivateKey := pk; tc_Leaf := Some leaf |} →
     lf_NotAfter leaf - now ≤ 30 * day → renewal_stored (w_fs (am_world s)) name leaf) →
  (∀ s', index_only s s' → am_log s' = am_log s → Q (Ok ()) s') →
  wp (renew_loop conf ca now certs range seen) Q s.
Proof using Hcache Hroot.
  induction range as [|name range IH]; intros seen Q s Hev Hst HQ; cbn [renew_loop].
  { apply wp_ret, HQ; [by apply index_only_refl|done]. }
  assert (∀ seen', wp (renew_loop conf ca now certs range seen') Q s) as Hskip.
  { intros seen'. apply IH; [done| |done]. intros n ch pk lf Hn. apply Hst. by right. }
  destruct (certs !! name) as [[chain pk [leaf|]]|] eqn:Hc; [|apply Hskip..].
  case_bool_decide; [apply Hskip|]. destruct (30 * day <? lf_NotAfter leaf - now) eqn:Hexp; [apply Hskip|]. bool_to_prop.
  destruct (Hst name chain pk leaf ltac:(by left) Hc Hexp) as (l & primary & c & Hl & Hh & Hp & Hs).
  apply wp_bind, wp_ignore. eapply wp_Obtain_stored; [exact Hev|exact Hl|exact Hh|exact Hp|exact Hs|].
  intros s1 Hidx Hlog _ _. apply IH; [by destruct Hidx| |].
  - intros n ch pk' lf Hn Hcn He. destruct (Hst n ch pk' lf ltac:(by right) Hcn He) as (l' & p' & c' & ? & ? & ? & ?).
    exists l', p', c'. split_and!; try done. by eapply stored_index_only.
  - intros s2 Hidx2 Hlog2. apply HQ; [by eapply index_only_trans|congruence].
Qed.

(** ** Restart *)

(** The pair that [saveToDisk] writes for the answer of the authority. *)
Definition saved_pair (der : list string) (pk : PrivateKey) (certPEM keyPEM : string) : Prop :=
  certPEM = foldl (λ acc d, acc +:+ CertificatePEM d) "" der ∧ (∃ curve secret, pk = ECDSA curve secret) ∧
  ECPrivateKeyPEM pk = Some keyPEM ∧
  0 < Z.of_nat (String.length certPEM) ≤ maxCertificateFileSize ∧ 0 < Z.of_nat (String.length keyPEM) ≤ maxCertificateFileSize.

(** A directory the manager can use: nothing there is in the way. *)
Definition usable (d : FS) (name : string) : Prop :=
  writable d root (cert_name name) ∧ writable d root (key_name name) ∧ writable d root acmeIndexFilename.

Lemma usable_evolves files d d' name : evolves files root d d' → (∀ q, q ∈ files → ¬ q `prefix_of` root) →
  (∀ n, root ++ [n] ∈ files → ∃ mode data, holds d' (root ++ [n]) mode data) → usable d name → usable d' name.
Proof.
  intros He Hf Hn ([Hp Hc] & [_ Hk] & [_ Hi]).
  assert (∀ n, writable d root n → writable d' root n) as Hw.
  { intros n [_ Hw]. split; [by eapply evolves_plain_dir|].
    destruct (decide (root ++ [n] ∈ files)) as [Hin|Hin].
    - destruct (Hn n Hin) as (mode & data & id & ->). done.
    - destruct (He _ Hin) as [-> |(Hpre & _)]; [done|by apply snoc_not_prefix in Hpre]. }
  split_and!; by apply Hw.
Qed.

Lemma foldl_empty_len (s : string) : s ≠ "" ↔ 0 < Z.of_nat (String.length s).
Proof. destruct s; simpl; split; try done; lia. Qed.

(** [saveToDisk] of a new certificate, no call failing. *)
Lemma wp_saveToDisk name c certPEM keyPEM (Q : result AcmeError () → AcmeState → Prop) s :
  w_events (am_world s) = [] → Normalize name true = Ok name → usable (w_fs (am_world s)) name →
  saved_pair (tc_Certificate c) (tc_PrivateKey c) certPEM keyPEM →
  (∀ w', w_events w' = [] → content (w_fs w') (cert_path name) = Some certPEM → content (w_fs w') (key_path name) = Some keyPEM →
     content (w_fs w') index_path = Some (index_marshal (am_cacheKeys s)) → Q (Ok ()) (set_world w' s)) →
  wp (saveToDisk conf name c) Q s.
Proof using Hcache Hroot.
  intros Hev Hname Hus (Hpem & (curve & secret & Hpk) & Hkp & Hcl & Hkl) HQ. unfold saveToDisk. rewrite <-Hpem.
  apply wp_bind, wp_lift. rewrite bool_decide_false by (apply foldl_empty_len; lia). cbn [negb check].
  rewrite Hpk in *. apply wp_bind, wp_some_or; rewrite Hkp; [|done]. intros ? [= <-].
  apply wp_bind, wp_on_disk. eapply (wp_WritePair _ ACME); [done|done|by apply quiet_calm|].
  change (namespace_dir root ACME) with root. fold (cert_path name) (key_path name).
  intros r w1 Ht Hk Hc Hok. destruct Hus as (Hwc & Hwk & Hwi).
  rewrite (Hok Hev ltac:(apply foldl_empty_len; lia) ltac:(apply foldl_empty_len; lia) Hwc Hwk) in *.
  destruct Hk as [[_ []]|Hk]; [done|]. destruct Hc as [[_ []]|Hc]; [done|]. destruct Ht as (_ & He & Hev1). specialize (Hev1 Hev).
  apply wp_persist; [done|]. intros r2 w2 [He2 Hev2] Hidx Hok2. simpl in He2, Hev2.
  assert (usable (w_fs w1) name) as (_ & _ & Hwi1).
  { eapply (usable_evolves [cert_path name; key_path name]); [exact He| | |done].
    - intros q [->|[->|?%elem_of_nil]%elem_of_cons]%elem_of_cons; [apply snoc_not_prefix..|done].
    - intros n [Hn|[Hn|?%elem_of_nil]%elem_of_cons]%elem_of_cons; [rewrite Hn; eauto..|done]. }
  rewrite (Hok2 Hwi1) in *. destruct Hidx as [[_ []]|Hidx]; [done|]. apply (HQ w2); [done|..].
  - eapply content_evolves; [exact He2|apply cert_path_not_index|by eapply holds_content].
  - eapply content_evolves; [exact He2|apply key_path_not_index|by eapply holds_content].
  - by eapply holds_content.
Qed.

(** What a fresh [Obtain] leaves on disk. *)
Lemma wp_Obtain_fresh domains l primary (Q : result AcmeError bool → AcmeState → Prop) s :
  protocol_ok ca s → w_events (am_world s) = [] → NormalizeAll domains true = Ok l → head l = Some primary →
  Normalize primary true = Ok primary → usable (w_fs (am_world s)) primary → no_legacy (w_fs (am_world s)) root primary →
  fs_nodes (w_fs (am_world s)) !! cert_path primary = None → fs_nodes (w_fs (am_world s)) !! key_path primary = None →
  (∀ n der pk, ca_CreateCert ca n l = Some (der, pk) → ∃ certPEM keyPEM, saved_pair der pk certPEM keyPEM) →
  (∀ r s', (r = Ok true → ∃ n der pk certPEM keyPEM, ca_CreateCert ca n l = Some (der, pk) ∧ saved_pair der pk certPEM keyPEM ∧
       w_events (am_world s') = [] ∧
       content (w_fs (am_world s')) (cert_path primary) = Some certPEM ∧ content (w_fs (am_world s')) (key_path primary) = Some keyPEM ∧
       (∀ d, am_cacheKeys s' !! d = if decide (d ∈ l) then Some primary else am_cacheKeys s !! d) ∧
       content (w_fs (am_world s')) index_path = Some (index_marshal (am_cacheKeys s'))) → Q r s') →
  wp (Obtain conf ca domains) Q s.
Proof using Hcache Hroot.
  intros Hpo Hev Hl Hhead Hprim Hus Hleg Hnc Hnk Hca HQ. unfold Obtain. apply wp_bind, wp_lift. rewrite Hl, Hhead. cbn [default id].
  rewrite (bool_decide_false _ Hcache). apply wp_bind, wp_bind, wp_try. apply wp_bind, wp_on_disk.
  eapply (wp_ReadPair _ ACME); [done|done|by apply quiet_calm|done|]. intros r w1 (_ & Hn1 & Hev1) _ _ _ Hnone.
  rewrite (Hnone Hev Hnc Hnk ltac:(by destruct Hus as ([? _] & _))). clear r Hnone. specialize (Hev1 Hev).
  apply wp_ret. apply wp_bind, wp_obtain_new; [by destruct Hpo|]. intros [c|e] s2 new Hpo2 (_ & Hw2 & _ & Hk2) Hc; [|by apply HQ].
  destruct (Hc c eq_refl) as (n & der & pk & Hcreate & ->). destruct (Hca n der pk Hcreate) as (certPEM & keyPEM & Hpair).
  set (c := {| tc_Certificate := der; tc_PrivateKey := pk; tc_Leaf := parseLeaf der |}).
  apply wp_bind, wp_modify. set (s3 := cache_all c primary l s2).
  destruct (cache_all_state c primary l s2) as (Hw3 & _ & _ & Hm3). fold s3 in Hw3, Hm3.
  apply wp_bind, wp_ignore. apply (wp_saveToDisk primary c certPEM keyPEM); [by rewrite Hw3, Hw2|done| |done|].
  - rewrite Hw3, Hw2. cbn [am_world set_world]. eapply (usable_evolves []); [by apply evolves_nodes|set_solver..|done].
  - intros w4 Hev4 Hcc Hkc Hic. apply wp_ret, HQ. intros _. exists n, der, pk, certPEM, keyPEM. split_and!; try done.
    intros d. cbn [am_cacheKeys set_world]. destruct (Hm3 d) as [_ ->]. by rewrite Hk2.
Qed.

(** The loop of [Preload] over an index whose entries are canonical and whose pair
    is on disk. *)
Lemma wp_preload_index primary c index : ∀ loaded (Q : result AcmeError () → AcmeState → Prop) s,
  w_events (am_world s) = [] → Normalize primary true = Ok primary → stored (w_fs (am_world s)) primary c →
  (∀ c', loaded !! primary = Some c' → c' = c) →
  Forall (λ e, Normalize e.1 true = Ok e.1 ∧ e.2 = primary) index →
  (∀ s', (∀ d, am_certCache s' !! d = if decide (d ∈ index.*1) then Some c else am_certCache s !! d) → Q (Ok ()) s') →
  wp (preload_index conf index loaded) Q s.
Proof using Hroot.
  induction index as [|[d0 st] index IH]; intros loaded Q s Hev Hprim Hst Hload Hall HQ; cbn [preload_index].
  { apply wp_ret, HQ. intros d. rewrite decide_False; [done|apply not_elem_of_nil]. }
  apply Forall_cons in Hall as [[Hd0 Heq] Hall]. cbn [fst snd] in Hd0, Heq. subst st. rewrite Hd0, Hprim.
  assert (∀ s' s2, am_certCache s' = <[d0 := c]> (am_certCache s) → 
    (∀ d, am_certCache s2 !! d = if decide (d ∈ index.*1) then Some c else am_certCache s' !! d) → Q (Ok ()) s2) as Hend.
  { intros s' s2 Hs' Hs2. apply HQ. intros d. rewrite Hs2, Hs'. clear. cbn [fmap list_fmap fst].
    destruct (decide (d ∈ index.*1)); [by rewrite decide_True by (by right)|].
    destruct (decide (d = d0)) as [->|]; [rewrite lookup_insert_eq; by rewrite decide_True by (by left)|].
    rewrite lookup_insert_ne by done. rewrite decide_False; [done|]. by intros [?|?]%elem_of_cons. }
  assert (loaded !! primary = Some c ∨ loaded !! primary = None) as [Hl|Hl]; [|rewrite Hl..].
  { destruct (loaded !! primary) as [c'|] eqn:Hl; [left|by right]. by rewrite (Hload c' eq_refl). }
  - apply wp_bind, wp_modify. apply IH; [done..|]. intros s2. by apply (Hend (cache_one c primary d0 s)).
  - apply wp_bind, wp_try. eapply wp_load_stored; [done..|]. intros w1 Hn1 Hev1.
    apply wp_bind, wp_modify. apply IH; [done|done| | |done|].
    + destruct Hst as (cp & kp & c0 & ? & ? & ?). exists cp, kp, c0. unfold content in *. simpl. by rewrite Hn1.
    + intros c'. rewrite lookup_insert_eq. by intros [= <-].
    + intros s2. by apply Hend.
Qed.
End disk.

(** Renewal never reaches the authority while the expiring certificates are
    in the cache directory: [renewExpiring] asks [Obtain], which takes the very
    certificate that is about to expire from the disk and reports success.  No
    request is made, and no certificate file changes. *)
Theorem renewal_reuses_expiring (sha : Sha256) (abs : AbsPath) (x509 : X509) (codec : IndexCodec) (conf : AcmeConfig) (ca : CA)
  (root : Path) (now : Z) (range : list string) (s : AcmeState)
  (Hcache : ac_cacheDir conf ≠ "") (Hroot : cleanRoot (ac_cacheDir conf) = Ok root)
  (Hquiet : w_events (am_world s) = [])
  (Hstored : ∀ name chain pk leaf,
     am_certCache s !! name = Some {| tc_Certificate := chain; tc_PrivateKey := pk; tc_Leaf := Some leaf |} →
     lf_NotAfter leaf - now ≤ 30 * day → renewal_stored root (w_fs (am_world s)) name leaf) :
  let s' := (renewExpiring conf ca now range s).2 in
  am_log s' = am_log s ∧
  ∀ q, q ≠ root ++ [acmeIndexFilename] → is_Some (fs_nodes (w_fs (am_world s)) !! q) →
    fs_nodes (w_fs (am_world s')) !! q = fs_nodes (w_fs (am_world s)) !! q.
Proof.
  apply (wp_renew_stored conf ca root Hcache Hroot now (am_certCache s) range ∅
    (λ _ s', am_log s' = am_log s ∧ ∀ q, q ≠ root ++ [acmeIndexFilename] → is_Some (fs_nodes (w_fs (am_world s)) !! q) →
       fs_nodes (w_fs (am_world s')) !! q = fs_nodes (w_fs (am_world s)) !! q) s Hquiet).
  - intros name chain pk leaf _. apply Hstored.
  - intros s' [He _] Hlog. split; [exact Hlog|]. intros q Hq [n Hn].
    destruct (He q) as [?|(_ & E & _)]; [by rewrite list_elem_of_singleton|done|congruence].
Qed.


(** The index of a manager that obtained one certificate. *)
Definition index_of (l : list string) (primary : string) : gmap string string := list_to_map ((λ n, (n, primary)) <$> l).
Lemma lookup_index_of l primary x : index_of l primary !! x = if decide (x ∈ l) then Some primary else None.
Proof.
  unfold index_of. induction l as [|y l IH]; cbn [fmap list_fmap list_to_map foldr fst snd].
  - rewrite decide_False by apply not_elem_of_nil. apply lookup_empty.
  - destruct (decide (x = y)) as [->|Hne].
    + rewrite lookup_insert_eq. by rewrite decide_True by (by left).
    + rewrite lookup_insert_ne by done. rewrite IH. clear IH. destruct (decide (x ∈ l)).
      * by rewrite decide_True by (by right).
      * rewrite decide_False; [done|]. by intros [?|?]%elem_of_cons.
Qed.

(** A certificate that was newly obtained survives a restart: when no call
    fails, a manager started afterwards on the same directory serves, for every
    domain of the request, the chain the authority issued. *)
Theorem obtained_survives_restart (sha : Sha256) (abs : AbsPath) (x509 : X509) (codec : IndexCodec) (conf : AcmeConfig) (ca : CA)
  (root : Path) (d : FS) (domains l : list string) (primary : string) (range : gmap string string → list (string * string))
  (Hcache : ac_cacheDir conf ≠ "") (Hroot : cleanRoot (ac_cacheDir conf) = Ok root)
  (Hl : NormalizeAll domains true = Ok l) (Hhead : head l = Some primary) (Hnorm : ∀ n, n ∈ l → Normalize n true = Ok n)
  (Hus : usable root d primary) (Hleg : no_legacy d root primary)
  (Hnc : fs_nodes d !! cert_path root primary = None) (Hnk : fs_nodes d !! key_path root primary = None)
  (Hca : ∀ n der pk, ca_CreateCert ca n l = Some (der, pk) → ∃ certPEM keyPEM, saved_pair der pk certPEM keyPEM)
  (Hx509 : ∀ n der pk certPEM keyPEM, ca_CreateCert ca n l = Some (der, pk) → saved_pair der pk certPEM keyPEM →
     ∃ c, X509KeyPair certPEM keyPEM = Some c ∧ tc_Certificate c = der)
  (Hcodec : ∀ m, index_unmarshal (index_marshal m) = Some m)
  (Hsize : Z.of_nat (String.length (index_marshal (index_of l primary))) ≤ maxMetadataFileSize)
  (Hrange : ∀ m, range m ≡ₚ map_to_list m) :
  let first := Obtain conf ca domains (NewAcme (quiet d)) in
  first.1 = Ok true →
  let restarted := (Preload conf range (NewAcme (am_world first.2))).2 in
  ∃ n der pk, ca_CreateCert ca n l = Some (der, pk) ∧
    ∀ name, name ∈ l → ∃ c, am_certCache restarted !! name = Some c ∧ tc_Certificate c = der.
Proof.
  cbv zeta. assert (Normalize primary true = Ok primary) as Hprim.
  { apply Hnorm. destruct l; [done|]. injection Hhead as ->. by left. }
  assert (protocol_ok ca (NewAcme (quiet d))) as Hpo by (split; [| |done]; intros i; simpl; intros; by rewrite lookup_nil in *).
  apply (wp_Obtain_fresh conf ca root Hcache Hroot domains l primary (λ r s', r = Ok true → ∃ n der pk, ca_CreateCert ca n l = Some (der, pk) ∧
    ∀ name, name ∈ l → ∃ c, am_certCache (Preload conf range (NewAcme (am_world s'))).2 !! name = Some c ∧ tc_Certificate c = der)
    _ Hpo eq_refl Hl Hhead Hprim Hus Hleg Hnc Hnk Hca).
  intros r s1 Hok Hr. destruct (Hok Hr) as (n & der & pk & cp & kp & Hcreate & Hpair & Hev & Hcc & Hkc & Hkeys & Hidx).
  exists n, der, pk. split; [done|]. destruct (Hx509 _ _ _ _ _ Hcreate Hpair) as (c & Hc & Hder).
  assert (am_cacheKeys s1 = index_of l primary) as Hmap.
  { apply map_eq. intros x. by rewrite Hkeys, lookup_index_of. }
  enough (wp (Preload conf range) (λ _ s', ∀ name, name ∈ l → am_certCache s' !! name = Some (with_leaf c)) (NewAcme (am_world s1))) as Hpre.
  { intros name Hin. exists (with_leaf c). split; [by apply Hpre|]. unfold with_leaf. by destruct (tc_Leaf c). }
  unfold Preload. rewrite (bool_decide_false _ Hcache). apply wp_bind, wp_try, wp_on_disk. unfold ReadACMEIndex, read_document.
  apply wp_bind, wp_lift. rewrite Hroot. apply wp_readRegularFile; [by apply quiet_calm|].
  intros r1 w1 (_ & Hn1 & Hev1) _ _ _ Hread. cbn [NewAcme am_world] in *.
  rewrite Hmap in Hidx. rewrite (Hread Hev _ Hidx Hsize), Hcodec. destruct Hpair as (_ & _ & _ & [_ Hcl] & [_ Hkl]).
  apply (wp_preload_index conf root Hroot primary (with_leaf c)); [by apply Hev1|done|..].
  - exists cp, kp, c. unfold content in *. cbn [set_world am_world]. by rewrite Hn1.
  - intros c'. by rewrite lookup_empty.
  - rewrite Hrange. apply Forall_forall. intros [k v] Hkv%elem_of_map_to_list. cbn [fst snd]. rewrite lookup_index_of in Hkv.
    case_decide; [|done]. injection Hkv as <-. by split; [apply Hnorm|].
  - intros s' Hs' name Hin. rewrite Hs', decide_True; [done|]. rewrite Hrange.
    apply list_elem_of_fmap. exists (name, primary). split; [done|]. apply elem_of_map_to_list. by rewrite lookup_index_of, decide_True.
Qed.

(** *** A concrete manager *)

Definition demo_leaf (der : string) : Leaf :=
  {| lf_SerialNumber := der; lf_CommonName := "CA"; lf_NotBefore := 0; lf_NotAfter := 20 * day; lf_DNSNames := ["example.com"] |}.
Definition demo_x509 : X509 := {|
  X509KeyPair c k := Some {| tc_Certificate := [c]; tc_PrivateKey := ECDSA "P-256" k; tc_Leaf := Some (demo_leaf c) |};
  ParseCertificate der := Some (demo_leaf der);
  VerifyHostname _ name := bool_decide (name = "example.com");
  FormatTime z := FormatInt z;
  ParseTime := ParseInt;
  CertificatePEM der := der;
  ECPrivateKeyPEM pk := match pk with ECDSA _ secret => Some secret | _ => None end
|}.
(** A text for a number, and back. *)
Fixpoint pos_text (p : positive) : string :=
  match p with xH => "" | xO p => String "0" (pos_text p) | xI p => String "1" (pos_text p) end.
Fixpoint text_pos (s : string) : positive :=
  match s with EmptyString => xH | String c s => if bool_decide (c = "0"%char) then xO (text_pos s) else xI (text_pos s) end.
Lemma text_pos_text p : text_pos (pos_text p) = p.
Proof. induction p as [p IH|p IH|]; simpl; by rewrite ?IH. Qed.

Definition demo_codec : IndexCodec := {|
  index_marshal m := pos_text (encode m);
  index_unmarshal s := decode (text_pos s)
|}.
Lemma demo_codec_law (m : gmap string string) : @index_unmarshal demo_codec (@index_marshal demo_codec m) = Some m.
Proof. cbn. rewrite text_pos_text. apply decode_encode. Qed.

Definition demo_conf : AcmeConfig := {| ac_challengeType := "http-01"; ac_cacheDir := "cache" |}.
Definition demo_ca : CA := {|
  ca_Register _ := None;
  ca_Authorize _ d := Some {| az_URI := d; az_Challenges := [{| ch_Type := "dns-01"; ch_Token := "t0" |}; {| ch_Type := "http-01"; ch_Token := "t1" |}] |};
  ca_ChallengeValue _ t := Some t;
  ca_Present _ := true;
  ca_CleanUp _ := true;
  ca_LookupTXT _ := [];
  ca_Accept _ := true;
  ca_Wait _ := true;
  ca_CreateCert _ _ := Some (["NEW"], ECDSA "P-256" "SECRET")
|}.
Definition demo_cert : TLSCert :=
  {| tc_Certificate := ["OLD"]; tc_PrivateKey := ECDSA "P-256" "SECRET"; tc_Leaf := Some (demo_leaf "OLD") |}.
Definition demo_disk : FS :=
  {| fs_nodes := <[["var"; "cache"; "d-example.com.crt"] := RegularFile 1 420 "OLD"]>
                 {[ ["var"; "cache"; "d-example.com.key"] := RegularFile 2 384 "SECRET" ]};
     fs_temps := ∅; fs_next := 3 |}.

(** A clean-up that the provider refuses: the certificate is issued all the same
    and the record stays; when it is accepted, nothing stays. *)
Definition dns_ca (cleans : bool) : CA := {|
  ca_Register _ := None;
  ca_Authorize := ca_Authorize demo_ca;
  ca_ChallengeValue := ca_ChallengeValue demo_ca;
  ca_Present _ := true;
  ca_CleanUp _ := cleans;
  ca_LookupTXT _ := [None; Some ["t0 "]];
  ca_Accept _ := true;
  ca_Wait _ := true;
  ca_CreateCert := ca_CreateCert demo_ca
|}.
Example refused_cleanup_leaves_record :
  let obtain cleans := @Obtain plain_sha plain_abs demo_x509 demo_codec {| ac_challengeType := "dns-01"; ac_cacheDir := "" |} (dns_ca cleans)
    ["example.com"] (NewAcme (quiet empty_fs)) in
  (obtain false).1 = Ok true ∧ txt_records (dns_ca false) (am_log (obtain false).2) = [("_acme-challenge.example.com", "t0")] ∧
  (obtain true).1 = Ok true ∧ txt_records (dns_ca true) (am_log (obtain true).2) = [].
Proof. by vm_compute. Qed.

(** 20 days before the certificate expires, renewing asks nobody. *)
Lemma renewal_reuses_expiring_witness :
  let sha := plain_sha in let abs := plain_abs in let x509 := demo_x509 in let codec := demo_codec in
  let s := {| am_account := true; am_certCache := {["example.com" := demo_cert]}; am_cacheKeys := {["example.com" := "example.com"]};
              am_tokens := ∅; am_world := quiet demo_disk; am_log := [] |} in
  am_log (renewExpiring demo_conf demo_ca 0 ["example.com"] s).2 = [].
Proof.
  intros sha abs x509 codec s.
  apply (renewal_reuses_expiring sha abs x509 codec demo_conf demo_ca ["var"; "cache"] 0 ["example.com"] s).
  - done.
  - by vm_compute.
  - done.
  - intros name chain pk leaf Hn _. cbn [am_certCache s] in Hn. apply lookup_singleton_Some in Hn as [<- [= <- <- <-]].
    exists ["example.com"], "example.com", demo_cert. split; [by vm_compute|]. split; [done|]. split; [by vm_compute|].
    exists "OLD", "SECRET", demo_cert. split_and!; by vm_compute.
Defined.

Lemma obtained_survives_restart_witness :
  let sha := plain_sha in let abs := plain_abs in let x509 := demo_x509 in let codec := demo_codec in
  let first := Obtain demo_conf demo_ca ["Example.com"; "www.example.com"] (NewAcme (quiet empty_fs)) in
  first.1 = Ok true ∧
  ∃ n der pk, ca_CreateCert demo_ca n ["example.com"; "www.example.com"] = Some (der, pk) ∧
    ∀ name, name ∈ ["example.com"; "www.example.com"] →
      ∃ c, am_certCache (Preload demo_conf map_to_list (NewAcme (am_world first.2))).2 !! name = Some c ∧ tc_Certificate c = der.
Proof.
  intros sha abs x509 codec first.
  assert (first.1 = Ok true) as Hfirst by (by vm_compute).
  split; [exact Hfirst|].
  assert (∀ n, writable empty_fs ["var"; "cache"] n) as Hw by (intros n; split; [by left|done]).
  apply (obtained_survives_restart sha abs x509 codec demo_conf demo_ca ["var"; "cache"] empty_fs
    ["Example.com"; "www.example.com"] ["example.com"; "www.example.com"] "example.com" map_to_list).
  - done.
  - by vm_compute.
  - by vm_compute.
  - done.
  - intros n [->|[->|[]%elem_of_nil]%elem_of_cons]%elem_of_cons; by vm_compute.
  - split_and!; apply Hw.
  - intros name suffix [? H]. done.
  - done.
  - done.
  - intros n der pk [= <- <-]. exists "NEW", "SECRET". split; [done|]. split; [by eexists _, _|]. split; [done|].
    split; (split; vm_compute; congruence).
  - intros n der pk certPEM keyPEM [= <- <-] (-> & _). eexists. split; reflexivity.
  - apply demo_codec_law.
  - by vm_compute.
  - done.
  - exact Hfirst.
Defined.
