(* ===== verification/CertStore.v ===== *)
(** * The certificate store (certstore/store.go)

    Metadata and manual certificates in memory, mirrored by certs.json and the
    pairs of the manual namespace.  [diskMu] is held by every operation that
    changes the store, so an operation here runs as a whole.  A [*CertMeta] is
    never changed once it is in the map, so a pointer is its identity with the
    value; several domains of one ACME certificate share one.  JSON is the
    parameter [MetaCodec].  [range] enumerates a map, in the order the runtime
    picks; entries of equal domain are sorted in the order they are enumerated,
    so every outcome of [sort.Slice] is one for some [range].  The ACME manager
    shares the directory of the file system, so its world is the store's. *)

From S2P Require Import Prelude GoStrings NetIP FileIO CertPath Acme.

(** ** Metadata *)

Inductive Source := SourceACME | SourceManual | OtherSource (text : string).
#[export] Instance source_eq_dec : EqDecision Source.
Proof. solve_decision. Defined.

Record CertMeta := {
  cm_Domain : string; cm_SANs : list string; cm_Issuer : string; cm_NotBefore : string; cm_NotAfter : string;
  cm_Source : Source; cm_KeyType : string; cm_AutoRenew : bool
}.
Record MetaRef := { mr_id : nat; mr_meta : CertMeta }.

(** [json.MarshalIndent] and [json.Unmarshal] of certs.json; an entry may be null. *)
Class MetaCodec := {
  meta_marshal : list CertMeta → string;
  meta_unmarshal : string → option (list (option CertMeta))
}.

Inductive StoreError :=
| StorePath (e : PathError) | StoreAcme (e : AcmeError) | ParseMetadata | NullEntry (index : nat) | BadEntry (index : nat) (e : PathError)
| BadSANs (domain : string) (e : PathError) | BadSource (s : Source) (domain : string)
| StoreNilHello | StoreNoCertificate (name : string) | NoACMEManager | MissingPEM | InvalidPair | StoreEmptyChain | BadLeaf
| DomainNotCovered (domain : string) | InspectFailed (e : PathError) | PersistFailed (e : PathError)
| RestoreFailed (e rollback : PathError) | RestoreMetadataFailed (e rollback : PathError) | NotFound (domain : string).

(** ** The store *)

Record CertStore := { st_meta : gmap string MetaRef; st_certs : gmap string TLSCert; st_next : nat; st_acme : AcmeState }.
Record StoreConfig := { sc_cacheDir : string; sc_hasACME : bool; sc_acmeConf : AcmeConfig; sc_ca : CA }.

Definition set_maps (meta : gmap string MetaRef) (certs : gmap string TLSCert) (s : CertStore) : CertStore :=
  {| st_meta := meta; st_certs := certs; st_next := st_next s; st_acme := st_acme s |}.
Definition set_acme (a : AcmeState) (s : CertStore) : CertStore :=
  {| st_meta := st_meta s; st_certs := st_certs s; st_next := st_next s; st_acme := a |}.
(** A new [*CertMeta]. *)
Definition alloc (m : CertMeta) (s : CertStore) : MetaRef * CertStore :=
  ({| mr_id := st_next s; mr_meta := m |},
   {| st_meta := st_meta s; st_certs := st_certs s; st_next := S (st_next s); st_acme := st_acme s |}).
Definition New (a : AcmeState) : CertStore := {| st_meta := ∅; st_certs := ∅; st_next := 0; st_acme := a |}.

Definition keyType (k : PrivateKey) : string :=
  match k with ECDSA curve _ => "ECDSA " +:+ curve | RSA bits _ => "RSA " +:+ FormatInt bits | OtherKey => "unknown" end.

(** [metadataSnapshotLocked]: one entry per pointer, sorted by domain. *)
Fixpoint snapshot_loop (range : list string) (meta : gmap string MetaRef) (seen : gset nat) : list CertMeta :=
  match range with
  | [] => []
  | k :: range =>
      match meta !! k with
      | Some r => if bool_decide (mr_id r ∈ seen) then snapshot_loop range meta seen
                  else mr_meta r :: snapshot_loop range meta ({[mr_id r]} ∪ seen)
      | None => snapshot_loop range meta seen
      end
  end.
Definition domain_le (a b : CertMeta) : Prop := String.le (cm_Domain a) (cm_Domain b).
#[export] Instance domain_le_dec : RelDecision domain_le.
Proof. intros a b. unfold domain_le. apply _. Defined.

Section store.
Context `{!Sha256, !AbsPath, !X509, !IndexCodec, !MetaCodec}.
Context (conf : StoreConfig) (range : gmap string MetaRef → list string).

Definition metadataSnapshot (meta : gmap string MetaRef) : list CertMeta :=
  merge_sort domain_le (snapshot_loop (range meta) meta ∅).

Definition store_disk {A} (m : IO World PathError A) : IO CertStore PathError A :=
  zoom (λ s, am_world (st_acme s)) (λ w s, set_acme (set_world w (st_acme s)) s) m.
Definition store_acme {A} (m : IO AcmeState AcmeError A) : IO CertStore AcmeError A := zoom st_acme set_acme m.

Definition buildMeta (domain : string) (cert : TLSCert) (source : Source) : CertMeta :=
  match tc_Leaf cert with
  | Some leaf => {| cm_Domain := domain; cm_SANs := lf_DNSNames leaf; cm_Issuer := lf_CommonName leaf;
                    cm_NotBefore := FormatTime (lf_NotBefore leaf); cm_NotAfter := FormatTime (lf_NotAfter leaf);
                    cm_Source := source; cm_KeyType := keyType (tc_PrivateKey cert); cm_AutoRenew := false |}
  | None => {| cm_Domain := domain; cm_SANs := []; cm_Issuer := ""; cm_NotBefore := ""; cm_NotAfter := "";
               cm_Source := source; cm_KeyType := ""; cm_AutoRenew := false |}
  end.

Definition verifyCertificateDomain (leaf : Leaf) (domain : string) : result StoreError () :=
  if HasPrefix domain "*." then
    check (negb (existsb (λ candidate, match Normalize candidate true with
                                       | Ok normalized => bool_decide (normalized = domain)
                                       | Err _ => false
                                       end) (lf_DNSNames leaf))) (DomainNotCovered domain)
  else check (negb (VerifyHostname leaf domain)) (DomainNotCovered domain).

Definition persistEntries (entries : list CertMeta) : IO CertStore PathError () :=
  store_disk (WriteMetadata (sc_cacheDir conf) (meta_marshal entries)).
Definition persistent : bool := negb (bool_decide (sc_cacheDir conf = "")).

(** ** Import *)

(** [tls.X509KeyPair] and the fallback for the leaf. *)
Definition parse_pair (certPEM keyPEM : string) : result StoreError (TLSCert * Leaf) :=
  match X509KeyPair certPEM keyPEM with
  | None => Err InvalidPair
  | Some cert =>
      if bool_decide (tc_Certificate cert = []) then Err StoreEmptyChain
      else match tc_Leaf (with_leaf cert) with
           | Some leaf => Ok (with_leaf cert, leaf)
           | None => Err BadLeaf
           end
  end.

Definition restore_key {A} (old : option A) (k : string) (m : gmap string A) : gmap string A :=
  partial_alter (λ _, old) k m.

(** The store has the certificate, then the document; if that fails, memory and
    the pair go back to what they were. *)
Definition commit_import (domain : string) (cert : TLSCert) (meta : CertMeta) (previous : option (string * string))
    : IO CertStore StoreError CertMeta :=
  get ≫= λ s,
  let '(ref, s') := alloc meta s in
  let meta' := <[domain := ref]> (st_meta s) in
  modify (λ _, set_maps meta' (<[domain := cert]> (st_certs s)) s') ≫= λ _,
  if persistent then
    try (persistEntries (metadataSnapshot meta')) ≫= λ r,
    match r with
    | Ok _ => mret meta
    | Err e =>
        modify (λ s1, set_maps (restore_key (st_meta s !! domain) domain (st_meta s1))
                               (restore_key (st_certs s !! domain) domain (st_certs s1)) s1) ≫= λ _,
        try (store_disk (match previous with
                         | Some (previousCertPEM, previousKeyPEM) =>
                             WritePair (sc_cacheDir conf) Manual domain previousCertPEM previousKeyPEM
                         | None => RemovePair (sc_cacheDir conf) Manual domain
                         end)) ≫= λ rollback,
        match rollback with
        | Err e' => fail (RestoreFailed e e')
        | Ok _ => fail (PersistFailed e)
        end
    end
  else mret meta.

Definition Import (domain certPEM keyPEM : string) : IO CertStore StoreError CertMeta :=
  lift (match Normalize domain true with Ok d => Ok d | Err e => Err (StorePath e) end) ≫= λ domain,
  lift (check (bool_decide (certPEM = "") || bool_decide (keyPEM = "")) MissingPEM) ≫= λ _,
  lift (parse_pair certPEM keyPEM) ≫= λ '(cert, leaf),
  lift (verifyCertificateDomain leaf domain) ≫= λ _,
  let meta := buildMeta domain cert SourceManual in
  (if persistent then
     try (store_disk (ReadPair (sc_cacheDir conf) Manual domain)) ≫= λ r,
     lift (match r with
           | Ok found => Ok (Some found)
           | Err e => if is_not_exist e then Ok None else Err (InspectFailed e)
           end) ≫= λ previous,
     map_err StorePath (store_disk (WritePair (sc_cacheDir conf) Manual domain certPEM keyPEM)) ≫= λ _,
     mret previous
   else mret None) ≫= λ previous,
  commit_import domain cert meta previous.

(** ** Delete *)

Definition Delete (domain : string) : IO CertStore StoreError () :=
  lift (match Normalize domain true with Ok d => Ok d | Err e => Err (StorePath e) end) ≫= λ domain,
  get ≫= λ s,
  match st_meta s !! domain with
  | None => fail (NotFound domain)
  | Some ref =>
      let meta' := delete domain (st_meta s) in
      modify (λ s1, set_maps meta' (delete domain (st_certs s)) s1) ≫= λ _,
      let rollback := modify (λ s1, set_maps (<[domain := ref]> (st_meta s1))
        (match st_certs s !! domain with Some c => <[domain := c]> (st_certs s1) | None => st_certs s1 end) s1) in
      if persistent then
        try (persistEntries (metadataSnapshot meta')) ≫= λ r,
        match r with
        | Err e => rollback ≫= λ _, fail (PersistFailed e)
        | Ok _ =>
            if bool_decide (cm_Source (mr_meta ref) = SourceManual) then
              try (store_disk (RemovePair (sc_cacheDir conf) Manual domain)) ≫= λ r,
              match r with
              | Ok _ => mret ()
              | Err e =>
                  rollback ≫= λ _,
                  get ≫= λ s2,
                  try (persistEntries (metadataSnapshot (st_meta s2))) ≫= λ r2,
                  match r2 with
                  | Err e' => fail (RestoreMetadataFailed e e')
                  | Ok _ => fail (StorePath e)
                  end
              end
            else mret ()
        end
      else mret ()
  end.

(** ** Queries *)

Definition List (s : CertStore) : list CertMeta := omap (λ k, mr_meta <$> st_meta s !! k) (range (st_meta s)).
Definition Get (domain : string) (s : CertStore) : option CertMeta :=
  match Normalize domain true with Ok d => mr_meta <$> st_meta s !! d | Err _ => None end.

Definition StoreGetCertificate (hello : option string) : IO CertStore StoreError TLSCert :=
  match hello with
  | None => fail StoreNilHello
  | Some server =>
      lift (match Normalize server false with Ok n => Ok n | Err e => Err (StorePath e) end) ≫= λ name,
      get ≫= λ s,
      match st_certs s !! name with
      | Some cert => mret cert
      | None => if sc_hasACME conf then map_err StoreAcme (store_acme (GetCertificate (sc_acmeConf conf) hello))
                else fail (StoreNoCertificate name)
      end
  end.

(** ** ACME certificates *)

Definition recordACMECert (domains : list string) : IO CertStore StoreError () :=
  lift (match NormalizeAll domains true with Ok l => Ok l | Err e => Err (StorePath e) end) ≫= λ domains,
  if negb (sc_hasACME conf) then fail NoACMEManager
  else
    let primary := default "" (head domains) in
    map_err StoreAcme (store_acme (GetCertificate (sc_acmeConf conf) (Some primary))) ≫= λ cert,
    let built := buildMeta primary cert SourceACME in
    let meta := {| cm_Domain := cm_Domain built; cm_SANs := domains; cm_Issuer := cm_Issuer built;
                   cm_NotBefore := cm_NotBefore built; cm_NotAfter := cm_NotAfter built; cm_Source := cm_Source built;
                   cm_KeyType := cm_KeyType built; cm_AutoRenew := true |} in
    get ≫= λ s,
    let '(ref, s') := alloc meta s in
    let meta' := foldl (λ m d, <[d := ref]> m) (st_meta s) domains in
    modify (λ _, set_maps meta' (st_certs s) s') ≫= λ _,
    if persistent then
      try (persistEntries (metadataSnapshot meta')) ≫= λ r,
      match r with
      | Ok _ => mret ()
      | Err e =>
          modify (λ s1, set_maps (foldl (λ m d, restore_key (st_meta s !! d) d m) (st_meta s1) domains) (st_certs s1) s1) ≫= λ _,
          fail (PersistFailed e)
      end
    else mret ().

Definition RefreshACME (domains : list string) : IO CertStore StoreError () :=
  if bool_decide (domains = []) then mret ()
  else try (recordACMECert domains) ≫= λ (_ : result StoreError ()), mret ().

(** [onObtain]: whether the manager was given [RefreshACME] as its callback. *)
Definition StoreObtain (onObtain : bool) (domains : list string) : IO CertStore StoreError () :=
  lift (match NormalizeAll domains true with Ok l => Ok l | Err e => Err (StorePath e) end) ≫= λ domains,
  if negb (sc_hasACME conf) then fail NoACMEManager
  else
    map_err StoreAcme (store_acme (Obtain (sc_acmeConf conf) (sc_ca conf) domains)) ≫= λ obtained,
    (if obtained && onObtain then RefreshACME domains else mret ()) ≫= λ _,
    recordACMECert domains.

(** ** Load *)

Definition loadManualFromDisk (domain : string) : IO CertStore StoreError TLSCert :=
  map_err StorePath (store_disk (ReadPair (sc_cacheDir conf) Manual domain)) ≫= λ '(certPEM, keyPEM),
  lift (match X509KeyPair certPEM keyPEM with Some cert => Ok (with_leaf cert) | None => Err InvalidPair end).

Definition with_names (domain : string) (sans : list string) (m : CertMeta) : CertMeta :=
  {| cm_Domain := domain; cm_SANs := sans; cm_Issuer := cm_Issuer m; cm_NotBefore := cm_NotBefore m;
     cm_NotAfter := cm_NotAfter m; cm_Source := cm_Source m; cm_KeyType := cm_KeyType m; cm_AutoRenew := cm_AutoRenew m |}.
(** The entry with the names the code puts into it. *)
Definition normalize_entry (index : nat) (entry : option CertMeta) : result StoreError CertMeta :=
  match entry with
  | None => Err (NullEntry (S index))
  | Some entry =>
      match Normalize (cm_Domain entry) true with
      | Err e => Err (BadEntry (S index) e)
      | Ok domain =>
          match (if bool_decide (cm_SANs entry = []) then Ok [] else NormalizeAll (cm_SANs entry) true) with
          | Err e => Err (BadSANs domain e)
          | Ok sans => Ok (with_names domain sans entry)
          end
      end
  end.

Fixpoint load_loop (index : nat) (entries : list (option CertMeta)) (meta : gmap string MetaRef) (certs : gmap string TLSCert)
    : IO CertStore StoreError (gmap string MetaRef * gmap string TLSCert) :=
  match entries with
  | [] => mret (meta, certs)
  | entry :: entries =>
      lift (normalize_entry index entry) ≫= λ m,
      get ≫= λ s, let '(ref, s') := alloc m s in
      modify (λ _, s') ≫= λ _,
      let domain := cm_Domain m in
      match cm_Source m with
      | SourceManual =>
          try (loadManualFromDisk domain) ≫= λ r,
          load_loop (S index) entries (<[domain := ref]> meta)
            (match r with Ok cert => <[domain := cert]> certs | Err e => let _ : StoreError := e in certs end)
      | SourceACME =>
          load_loop (S index) entries (<[domain := ref]> (foldl (λ m' san, <[san := ref]> m') meta (cm_SANs m))) certs
      | OtherSource text => fail (BadSource (OtherSource text) domain)
      end
  end.

Definition Load : IO CertStore StoreError () :=
  if negb persistent then mret ()
  else
    try (store_disk (ReadMetadata (sc_cacheDir conf))) ≫= λ r,
    match r with
    | Err e => if is_not_exist e then mret () else fail (StorePath e)
    | Ok data =>
        match meta_unmarshal data with
        | None => fail ParseMetadata
        | Some entries =>
            load_loop 0 entries ∅ ∅ ≫= λ '(meta, certs),
            modify (λ s, set_maps meta certs s)
        end
    end.
End store.
