(* ===== verification/CertStoreSpec.v ===== *)
(** * The certificate store: what its operations guarantee *)

From S2P Require Import Prelude GoStrings NetIP FileIO CertPath CertPathSpec Acme AcmeSpec CertStore.

Definition store_world (s : CertStore) : World := am_world (st_acme s).
Definition store_fs (s : CertStore) : FS := w_fs (store_world s).

(** ** Snapshots and entries *)

Lemma elem_of_snapshot_loop rng meta : ∀ seen e,
  (∀ k k' r r', meta !! k = Some r → meta !! k' = Some r' → mr_id r = mr_id r' → r = r') →
  e ∈ snapshot_loop rng meta seen ↔ ∃ k r, k ∈ rng ∧ meta !! k = Some r ∧ mr_id r ∉ seen ∧ mr_meta r = e.
Proof.
  induction rng as [|k0 rng IH]; intros seen e Hptr; cbn [snapshot_loop].
  { split; [by intros ?%elem_of_nil|]. intros (k & r & H & _). by apply elem_of_nil in H. }
  assert (∀ Q : string → MetaRef → Prop, (∃ k r, k ∈ k0 :: rng ∧ Q k r) ↔ (∃ r, Q k0 r) ∨ ∃ k r, k ∈ rng ∧ Q k r) as Hsplit.
  { intros Q. split.
    - intros (k & r & [->|Hk]%elem_of_cons & HQ); [left; eauto|right; eauto].
    - intros [(r & HQ)|(k & r & Hk & HQ)]; [exists k0, r; split; [by left|done]|exists k, r; split; [by right|done]]. }
  rewrite Hsplit. clear Hsplit. destruct (meta !! k0) as [r0|] eqn:Hr0.
  - case_bool_decide as Hs.
    + rewrite IH by done. split; [by right|]. intros [(r & [= <-] & Hn & _)|?]; done.
    + rewrite elem_of_cons, IH by done. split.
      * intros [->|(k & r & Hk & Hr & Hn & He)]; [left; by exists r0|right]. exists k, r. set_solver.
      * intros [(r & [= <-] & Hn & He)|(k & r & Hk & Hr & Hn & He)]; [by left|].
        destruct (decide (mr_id r = mr_id r0)) as [Heq|Hne].
        -- left. rewrite <-He. by rewrite (Hptr _ _ _ _ Hr Hr0 Heq).
        -- right. exists k, r. set_solver.
  - rewrite IH by done. split; [by right|]. by intros [(r & ? & _)|?].
Qed.

Lemma elem_of_snapshot (range : gmap string MetaRef → list string) meta e : (∀ m, range m ≡ₚ elements (dom m)) →
  (∀ k k' r r', meta !! k = Some r → meta !! k' = Some r' → mr_id r = mr_id r' → r = r') →
  e ∈ metadataSnapshot range meta ↔ ∃ k r, meta !! k = Some r ∧ mr_meta r = e.
Proof.
  intros Hrange Hptr. unfold metadataSnapshot. rewrite merge_sort_Permutation, elem_of_snapshot_loop by done. split.
  - intros (k & r & _ & Hr & _ & He). by exists k, r.
  - intros (k & r & Hr & He). exists k, r. split_and!; [|done|set_solver|done].
    rewrite Hrange, elem_of_elements. by apply elem_of_dom_2 in Hr.
Qed.

(** An entry with canonical names is taken as it is. *)
Lemma normalize_entry_id index e :
  Normalize (cm_Domain e) true = Ok (cm_Domain e) → cm_SANs e = [] ∨ NormalizeAll (cm_SANs e) true = Ok (cm_SANs e) →
  normalize_entry index (Some e) = Ok e.
Proof.
  intros Hd Hs. unfold normalize_entry. rewrite Hd. destruct e as [dm sans i nb na src kt ar]. cbn in *.
  destruct Hs as [->|Hs]; [by rewrite bool_decide_true|]. case_bool_decide as Hnil; [by rewrite Hnil in *|]. by rewrite Hs.
Qed.

Lemma lookup_foldl_insert (r : MetaRef) l (m : gmap string MetaRef) k :
  foldl (λ m' san, <[san := r]> m') m l !! k = if decide (k ∈ l) then Some r else m !! k.
Proof.
  revert m. induction l as [|x l IH]; intros m; cbn [foldl]; [by rewrite decide_False by apply not_elem_of_nil|].
  rewrite IH. destruct (decide (k ∈ l)) as [Hk|Hk]; [by rewrite decide_True by (by right)|].
  destruct (decide (k = x)) as [->|Hne]; [rewrite lookup_insert_eq; by rewrite decide_True by (by left)|].
  rewrite lookup_insert_ne by done. rewrite decide_False; [done|]. by intros [?|?]%elem_of_cons.
Qed.

Section spec.
Context {sha : Sha256} {abs : AbsPath} {x509 : X509} {icodec : IndexCodec} {mcodec : MetaCodec}.
Context (conf : StoreConfig) (range : gmap string MetaRef → list string) (root : Path).
Hypothesis Hcache : sc_cacheDir conf ≠ "".
Hypothesis Hroot : cleanRoot (sc_cacheDir conf) = Ok root.

Definition manual_dir : Path := root ++ ["manual"].
Definition manual_cert (name : string) : Path := manual_dir ++ [cert_name name].
Definition manual_key (name : string) : Path := manual_dir ++ [key_name name].
Definition doc_path : Path := root ++ [metadataFilename].

Lemma persistent_true : persistent conf = true.
Proof using Hcache. unfold persistent. by rewrite bool_decide_false. Qed.

Lemma wp_store_disk {A} (m : IO World PathError A) (Q : result PathError A → CertStore → Prop) s :
  wp m (λ r w, Q r (set_acme (set_world w (st_acme s)) s)) (store_world s) → wp (store_disk m) Q s.
Proof. intros H. by apply wp_zoom. Qed.

(** Another world, the same maps. *)
Definition with_world (w : World) (s : CertStore) : CertStore := set_acme (set_world w (st_acme s)) s.

(** The files of the manual pairs and the document are different files, and none
    of them is a directory on the way. *)
Lemma doc_not_manual name : doc_path ∉ [manual_cert name; manual_key name].
Proof.
  unfold doc_path, manual_cert, manual_key, manual_dir. rewrite <-!app_assoc. simpl.
  intros [[=]%app_inv_head|[[=]%app_inv_head|[]%elem_of_nil]%elem_of_cons]%elem_of_cons.
Qed.
Lemma manual_not_doc name p : p ∈ [manual_cert name; manual_key name] → p ∉ [doc_path].
Proof. intros Hp ->%list_elem_of_singleton. by apply (doc_not_manual name). Qed.
Lemma doc_not_prefix : ¬ doc_path `prefix_of` manual_dir.
Proof. unfold doc_path, manual_dir. intros [k Hk]. rewrite <-app_assoc in Hk. by apply app_inv_head in Hk. Qed.
Lemma manual_not_prefix p name : p ∈ [manual_cert name; manual_key name] → ¬ p `prefix_of` manual_dir ∧ ¬ p `prefix_of` root.
Proof.
  intros Hp. assert (¬ p `prefix_of` manual_dir) as H.
  { apply elem_of_cons in Hp as [->|[->|[]%elem_of_nil]%elem_of_cons]; apply snoc_not_prefix. }
  split; [done|]. intros Hr. apply H. etrans; [exact Hr|]. by eexists.
Qed.

Lemma content_nodes d d' p : fs_nodes d' !! p = fs_nodes d !! p → content d' p = content d p.
Proof. unfold content. by intros ->. Qed.
Lemma tame_content files dir w w' p : tame files dir w w' → p ∉ files → ¬ p `prefix_of` dir →
  content (w_fs w') p = content (w_fs w) p.
Proof. intros. by eapply content_nodes, tame_node. Qed.

(** The pair of a name as it is on disk. *)
Definition pair_on_disk (d : FS) (name : string) : option string * option string :=
  (content d (manual_cert name), content d (manual_key name)).

(** [persistEntries]: the document is the old one or the new one, and nothing else
    that is there changed. *)
Lemma wp_persistEntries entries (Q : result PathError () → CertStore → Prop) s : calm (store_world s) →
  (∀ r w, calm w → (∀ name, pair_on_disk (w_fs w) name = pair_on_disk (store_fs s) name) →
     (content (w_fs w) doc_path = content (store_fs s) doc_path ∧ r ≠ Ok () ∨ content (w_fs w) doc_path = Some (meta_marshal entries)) →
     Q r (with_world w s)) →
  wp (persistEntries conf entries) Q s.
Proof using Hcache Hroot.
  intros Hc HQ. apply wp_store_disk. eapply wp_writeFixedDocument; [done|exact Hroot|].
  intros r w Ht Hr _. apply HQ; [by eapply tame_calm| |].
  - intros name. unfold pair_on_disk. f_equal; (eapply tame_content; [exact Ht|apply (manual_not_doc name)|apply (manual_not_prefix _ name)]); set_solver.
  - destruct Hr as [[Hn ?]|Hh]; [left; split; [by apply content_nodes|done]|right; by eapply holds_content].
Qed.

(** What a write of the pair of [name] may leave of one of its files. *)
Definition old_or_new (old new now : option string) (r : result PathError ()) : Prop := now = old ∧ r ≠ Ok () ∨ now = new.

Lemma replaced_content p mode data r w w' : replaced p mode data r w w' →
  old_or_new (content (w_fs w) p) (Some data) (content (w_fs w') p) r.
Proof. intros [[H ?]|H]; [left; split; [by apply content_nodes|done]|right; by eapply holds_content]. Qed.
Lemma removed_content p r w w' : removed p r w w' → old_or_new (content (w_fs w) p) None (content (w_fs w') p) r.
Proof. intros [H|[H ?]]; [right; unfold content; by rewrite H|left; split; [by apply content_nodes|done]]. Qed.

Lemma wp_write_manual name certPEM keyPEM (Q : result PathError () → CertStore → Prop) s : calm (store_world s) →
  Normalize name true = Ok name →
  (∀ r w, calm w → content (w_fs w) doc_path = content (store_fs s) doc_path →
     old_or_new (content (store_fs s) (manual_cert name)) (Some certPEM) (content (w_fs w) (manual_cert name)) r →
     old_or_new (content (store_fs s) (manual_key name)) (Some keyPEM) (content (w_fs w) (manual_key name)) r →
     Q r (with_world w s)) →
  wp (store_disk (WritePair (sc_cacheDir conf) Manual name certPEM keyPEM)) Q s.
Proof using Hcache Hroot.
  intros Hc Hn HQ. apply wp_store_disk. eapply (wp_WritePair _ Manual); [exact Hn|exact Hroot|done|].
  intros r w Ht Hk Hcc _. apply HQ; [by eapply tame_calm| |by eapply replaced_content|by eapply replaced_content].
  eapply tame_content; [exact Ht|apply (doc_not_manual name)|apply doc_not_prefix].
Qed.

Lemma wp_remove_manual name (Q : result PathError () → CertStore → Prop) s : calm (store_world s) →
  Normalize name true = Ok name →
  (∀ r w, calm w → content (w_fs w) doc_path = content (store_fs s) doc_path →
     old_or_new (content (store_fs s) (manual_cert name)) None (content (w_fs w) (manual_cert name)) r →
     old_or_new (content (store_fs s) (manual_key name)) None (content (w_fs w) (manual_key name)) r →
     Q r (with_world w s)) →
  wp (store_disk (RemovePair (sc_cacheDir conf) Manual name)) Q s.
Proof using Hcache Hroot.
  intros Hc Hn HQ. apply wp_store_disk. eapply (wp_RemovePair _ Manual); [exact Hn|exact Hroot|done|].
  intros r w Ht Hcc Hk _. apply HQ; [by eapply tame_calm| |by eapply removed_content|by eapply removed_content].
  eapply tame_content; [exact Ht|apply (doc_not_manual name)|apply doc_not_prefix].
Qed.

(** ** Import *)

(** A file before, and what may be there afterwards. *)
Definition same_or (old now : option string) (new : option string) : Prop := now = old ∨ now = new.

(** The document after an operation that may have failed: the old one, or that of
    the entries the operation tried to save. *)
Definition doc_old_or_new (d d' : FS) (entries : list CertMeta) : Prop :=
  same_or (content d doc_path) (content d' doc_path) (Some (meta_marshal entries)).

Definition same_maps (s s' : CertStore) : Prop := st_meta s' = st_meta s ∧ st_certs s' = st_certs s.

(** Each file of the pair, on its own, is the old one or the imported one. *)
Definition pair_mixed (name certPEM keyPEM : string) (d d' : FS) : Prop :=
  same_or (content d (manual_cert name)) (content d' (manual_cert name)) (Some certPEM) ∧
  same_or (content d (manual_key name)) (content d' (manual_key name)) (Some keyPEM).

(** The document after a save that failed: the old one, or the one with the entry
    that was to be added. *)
Definition doc_tried (name certPEM keyPEM : string) (s : CertStore) (d' : FS) : Prop :=
  ∃ cert leaf, parse_pair certPEM keyPEM = Ok (cert, leaf) ∧
    doc_old_or_new (store_fs s) d' (metadataSnapshot range
      (<[name := {| mr_id := st_next s; mr_meta := buildMeta name cert SourceManual |}]> (st_meta s))).

(** An import that failed: memory is as it was; the pair is as it was unless
    writing it or restoring it failed. *)
Definition import_failed (name certPEM keyPEM : string) (e : StoreError) (s s' : CertStore) : Prop :=
  same_maps s s' ∧
  match e with
  | StorePath _ =>
      content (store_fs s') doc_path = content (store_fs s) doc_path ∧
      pair_mixed name certPEM keyPEM (store_fs s) (store_fs s')
  | PersistFailed _ => pair_on_disk (store_fs s') name = pair_on_disk (store_fs s) name ∧
      doc_tried name certPEM keyPEM s (store_fs s')
  | RestoreFailed _ _ => pair_mixed name certPEM keyPEM (store_fs s) (store_fs s') ∧
      doc_tried name certPEM keyPEM s (store_fs s')
  | _ => pair_on_disk (store_fs s') name = pair_on_disk (store_fs s) name ∧
         content (store_fs s') doc_path = content (store_fs s) doc_path
  end.

(** An import that succeeded: memory, the document and the pair all have it. *)
Definition imported (name certPEM keyPEM : string) (m : CertMeta) (s s' : CertStore) : Prop :=
  ∃ cert leaf ref, parse_pair certPEM keyPEM = Ok (cert, leaf) ∧ verifyCertificateDomain leaf name = Ok () ∧
    m = buildMeta name cert SourceManual ∧ mr_meta ref = m ∧ mr_id ref = st_next s ∧
    st_meta s' = <[name := ref]> (st_meta s) ∧ st_certs s' = <[name := cert]> (st_certs s) ∧
    pair_on_disk (store_fs s') name = (Some certPEM, Some keyPEM) ∧
    content (store_fs s') doc_path = Some (meta_marshal (metadataSnapshot range (st_meta s'))).

Lemma restore_insert {A} (m : gmap string A) k x : restore_key (m !! k) k (<[k := x]> m) = m.
Proof.
  unfold restore_key. apply map_eq. intros i. destruct (decide (i = k)) as [->|];
    [by rewrite lookup_partial_alter_eq|by rewrite lookup_partial_alter_ne, lookup_insert_ne].
Qed.

Lemma with_world_fs w s : store_fs (with_world w s) = w_fs w. Proof. done. Qed.

Lemma wp_import_commit name certPEM keyPEM cert leaf previous (Q : result StoreError CertMeta → CertStore → Prop) d0 s :
  calm (store_world s) → Normalize name true = Ok name →
  parse_pair certPEM keyPEM = Ok (cert, leaf) → verifyCertificateDomain leaf name = Ok () →
  pair_on_disk (store_fs s) name = (Some certPEM, Some keyPEM) →
  pair_on_disk d0 name = (match previous with Some (c, k) => (Some c, Some k) | None => (None, None) end) →
  (∀ r s', calm (store_world s') →
     match r with
     | Ok m => imported name certPEM keyPEM m s s'
     | Err e => same_maps s s' ∧
         doc_old_or_new (store_fs s) (store_fs s') (metadataSnapshot range
           (<[name := {| mr_id := st_next s; mr_meta := buildMeta name cert SourceManual |}]> (st_meta s))) ∧
         match e with PersistFailed _ => pair_on_disk (store_fs s') name = pair_on_disk d0 name
                    | RestoreFailed _ _ => pair_mixed name certPEM keyPEM d0 (store_fs s') | _ => False end
     end → Q r s') →
  wp (commit_import conf range name cert (buildMeta name cert SourceManual) previous) Q s.
Proof using Hcache Hroot.
  intros Hc Hn Hparse Hver Hpair Hprev HQ. apply wp_bind, wp_get. cbn [alloc]. apply wp_bind, wp_modify.
  rewrite persistent_true. apply wp_bind, wp_try, wp_persistEntries; [done|]. intros r w Hcw Hpw Hdoc.
  destruct r as [[]|e].
  - apply wp_ret, HQ; [exact Hcw|]. destruct Hdoc as [[_ []]|Hdoc]; [done|].
    exists cert, leaf, {| mr_id := st_next s; mr_meta := buildMeta name cert SourceManual |}. split_and!; try done.
    rewrite <-Hpair. apply Hpw.
  - apply wp_bind, wp_modify. cbn [set_maps with_world set_acme st_meta st_certs]. rewrite !restore_insert.
    set (s1 := set_maps (st_meta s) (st_certs s) _).
    apply wp_bind, wp_try.
    assert (∀ d', content d' doc_path = content (w_fs w) doc_path →
      doc_old_or_new (store_fs s) d' (metadataSnapshot range
        (<[name := {| mr_id := st_next s; mr_meta := buildMeta name cert SourceManual |}]> (st_meta s)))) as Hdoc'.
    { intros d' E. unfold doc_old_or_new. rewrite E. destruct Hdoc as [[E' _]|E']; [by left|by right]. }
    assert (pair_on_disk (w_fs w) name = (Some certPEM, Some keyPEM)) as Hpnew by (by rewrite Hpw).
    injection Hpnew as Hnc Hnk.
    assert (∀ r w', calm w' → content (w_fs w') doc_path = content (w_fs w) doc_path →
      old_or_new (content (w_fs w) (manual_cert name)) (content d0 (manual_cert name)) (content (w_fs w') (manual_cert name)) r →
      old_or_new (content (w_fs w) (manual_key name)) (content d0 (manual_key name)) (content (w_fs w') (manual_key name)) r →
      wp (match r with Err e' => fail (RestoreFailed e e') | Ok _ => fail (PersistFailed e) end) Q (with_world w' s1)) as Hend.
    { intros [[]|e'] w' Hcw' Hd' Hc' Hk'; apply wp_fail, HQ; try done; (split; [done|]; split; [by apply Hdoc'|]).
      - unfold pair_on_disk. rewrite with_world_fs.
        destruct Hc' as [[_ []]| ->]; [done|]. by destruct Hk' as [[_ []]| ->].
      - unfold pair_mixed. rewrite with_world_fs. rewrite Hnc in Hc'. rewrite Hnk in Hk'.
        split; [by destruct Hc' as [[? _]|?]; [right|left]|by destruct Hk' as [[? _]|?]; [right|left]]. }
    destruct previous as [[c k]|]; injection Hprev as Hp1 Hp2.
    + apply wp_write_manual; [exact Hcw|exact Hn|]. intros r w' Hcw' Hd' Hc' Hk'. apply Hend; [done|done|by rewrite Hp1|by rewrite Hp2].
    + apply wp_remove_manual; [exact Hcw|exact Hn|]. intros r w' Hcw' Hd' Hc' Hk'. apply Hend; [done|done|by rewrite Hp1|by rewrite Hp2].
Qed.

Lemma wp_Import domain name certPEM keyPEM (Q : result StoreError CertMeta → CertStore → Prop) s :
  calm (store_world s) → Normalize domain true = Ok name → Normalize name true = Ok name →
  no_legacy (store_fs s) manual_dir name →
  (∀ r s', calm (store_world s') →
     match r with Ok m => imported name certPEM keyPEM m s s' | Err e => import_failed name certPEM keyPEM e s s' end → Q r s') →
  wp (Import conf range domain certPEM keyPEM) Q s.
Proof using Hcache Hroot.
  intros Hc Hd Hn Hleg HQ. unfold Import. rewrite Hd. apply wp_bind, wp_lift, wp_bind, wp_lift.
  destruct (check _ MissingPEM) as [u|e] eqn:He.
  2:{ apply check_Err in He as [_ <-]. by apply HQ. }
  apply wp_bind, wp_lift. destruct (parse_pair certPEM keyPEM) as [[cert leaf]|e] eqn:Hparse.
  2:{ apply HQ; [done|]. split; [done|]. unfold parse_pair in Hparse.
      repeat (case_match; try done); by injection Hparse as <-. }
  apply wp_bind, wp_lift. destruct (verifyCertificateDomain leaf name) as [[]|e] eqn:Hver.
  2:{ apply HQ; [done|]. split; [done|]. unfold verifyCertificateDomain in Hver.
      destruct (HasPrefix name "*."); by apply check_Err in Hver as [_ <-]. }
  apply wp_bind. rewrite persistent_true. apply wp_bind, wp_try, wp_store_disk.
  eapply (wp_ReadPair _ Manual); [exact Hn|exact Hroot|done|done|].
  change (namespace_dir root Manual) with manual_dir. fold (manual_cert name) (manual_key name).
  intros r w (Hcw & Hnodes & _) Hread Hnone _ _.
  assert (∀ p, content (w_fs w) p = content (store_fs s) p) as Hsame by (intros p; by apply content_nodes; rewrite Hnodes).
  assert (pair_on_disk (w_fs w) name = pair_on_disk (store_fs s) name) as Hpw by (unfold pair_on_disk; by rewrite !Hsame).
  apply wp_bind, wp_lift.
  assert ((∃ previous, (match r with Ok found => Ok (Some found) | Err e => if is_not_exist e then Ok None else Err (InspectFailed e) end)
      = Ok previous ∧ pair_on_disk (store_fs s) name = (match previous with Some (c, k) => (Some c, Some k) | None => (None, None) end)) ∨
      (∃ e, r = Err e ∧ is_not_exist e = false)) as [(previous & Hprev & Hpd)|(e & -> & He')].
  { destruct r as [[c k]|e]; [|destruct (is_not_exist e) eqn:Hne].
    - left. exists (Some (c, k)). split; [done|]. unfold pair_on_disk. by destruct (Hread c k eq_refl) as [<- <-].
    - left. exists None. split; [done|]. destruct (Hnone e eq_refl Hne) as [H1 H2]. unfold pair_on_disk, content.
      change (fs_nodes (store_fs s) !! manual_cert name = None) in H1. change (fs_nodes (store_fs s) !! manual_key name = None) in H2.
      by rewrite H1, H2.
    - right. by exists e. }
  2:{ rewrite He'. apply HQ; [exact Hcw|]. split; [done|]. by split; [exact Hpw|apply Hsame]. }
  rewrite Hprev. apply wp_bind, wp_map_err, wp_write_manual; [exact Hcw|exact Hn|].
  change (store_fs (set_acme (set_world w (st_acme s)) s)) with (w_fs w). rewrite !Hsame.
  intros r2 w2 Hcw2 Hdoc2 Hc2 Hk2. destruct r2 as [[]|e].
  - destruct Hc2 as [[_ []]|Hc2]; [done|]. destruct Hk2 as [[_ []]|Hk2]; [done|]. apply wp_ret.
    apply (wp_import_commit name certPEM keyPEM cert leaf previous _ (store_fs s)); [done..| | |].
    + unfold pair_on_disk. rewrite with_world_fs. by rewrite Hc2, Hk2.
    + done.
    + intros out s' Hcs Hr. apply HQ; [done|]. destruct out as [m|e]; [exact Hr|]. destruct Hr as (Hm & Hd' & He'). split; [exact Hm|].
      assert (doc_tried name certPEM keyPEM s (store_fs s')) as Htried.
      { exists cert, leaf. split; [done|]. unfold doc_old_or_new, same_or in *.
        rewrite with_world_fs, Hdoc2 in Hd'. exact Hd'. }
      by destruct e.
  - apply HQ; [done|]. split; [done|]. rewrite with_world_fs. split; [exact Hdoc2|].
    split; [by destruct Hc2 as [[? _]|?]; [left|right]|by destruct Hk2 as [[? _]|?]; [left|right]].
Qed.

(** ** Delete *)

Definition deleted (name : string) (ref : MetaRef) (s s' : CertStore) : Prop :=
  st_meta s' = delete name (st_meta s) ∧ st_certs s' = delete name (st_certs s) ∧
  content (store_fs s') doc_path = Some (meta_marshal (metadataSnapshot range (st_meta s'))) ∧
  pair_on_disk (store_fs s') name = (if bool_decide (cm_Source (mr_meta ref) = SourceManual) then (None, None) else pair_on_disk (store_fs s) name).
Definition delete_failed (name : string) (e : StoreError) (s s' : CertStore) : Prop :=
  same_maps s s' ∧
  match e with
  | NotFound _ => store_fs s' = store_fs s
  | PersistFailed _ => pair_on_disk (store_fs s') name = pair_on_disk (store_fs s) name ∧
      doc_old_or_new (store_fs s) (store_fs s') (metadataSnapshot range (delete name (st_meta s)))
  | StorePath _ => content (store_fs s') doc_path = Some (meta_marshal (metadataSnapshot range (st_meta s)))
  | RestoreMetadataFailed _ _ => True
  | _ => False
  end.

Lemma rollback_certs (c : gmap string TLSCert) name :
  (match c !! name with Some x => <[name := x]> (delete name c) | None => delete name c end) = c.
Proof. destruct (c !! name) eqn:H; [by apply insert_delete_id|by apply delete_id]. Qed.

Lemma wp_Delete domain name (Q : result StoreError () → CertStore → Prop) s :
  calm (store_world s) → Normalize domain true = Ok name → Normalize name true = Ok name →
  (∀ r s', calm (store_world s') →
     match r with Ok _ => ∃ ref, st_meta s !! name = Some ref ∧ deleted name ref s s' | Err e => delete_failed name e s s' end → Q r s') →
  wp (Delete conf range domain) Q s.
Proof using Hcache Hroot.
  intros Hc Hd Hn HQ. unfold Delete. rewrite Hd. apply wp_bind, wp_lift, wp_bind, wp_get.
  destruct (st_meta s !! name) as [ref|] eqn:Href; [|by apply wp_fail, HQ].
  apply wp_bind, wp_modify. rewrite persistent_true. apply wp_bind, wp_try, wp_persistEntries; [done|].
  set (meta' := delete name (st_meta s)). set (certs' := delete name (st_certs s)). intros r w Hcw Hpw Hdoc.
  (* the maps after the rollback *)
  assert (<[name := ref]> meta' = st_meta s) as Hmeta by by apply insert_delete_id.
  assert ((match st_certs s !! name with Some c => <[name:=c]> certs' | None => certs' end) = st_certs s) as Hcerts by apply rollback_certs.
  destruct r as [[]|e].
  - destruct Hdoc as [[_ []]|Hdoc]; [done|]. case_bool_decide as Hman.
    + apply wp_bind, wp_try, wp_remove_manual; [exact Hcw|exact Hn|]. intros r w2 Hcw2 Hdoc2 Hc2 Hk2.
      rewrite with_world_fs in Hdoc2, Hc2, Hk2. destruct r as [[]|e].
      * destruct Hc2 as [[_ []]|Hc2]; [done|]. destruct Hk2 as [[_ []]|Hk2]; [done|].
        apply wp_ret, HQ; [done|]. exists ref. split; [done|]. unfold deleted, pair_on_disk. rewrite !with_world_fs, Hdoc2.
        rewrite bool_decide_true, Hc2, Hk2 by done. done.
      * apply wp_bind, wp_modify, wp_bind, wp_get. cbn [set_maps with_world set_acme st_meta st_certs]. rewrite Hmeta, Hcerts.
        apply wp_bind, wp_try, wp_persistEntries; [done|]. intros r3 w3 Hcw3 _ Hdoc3.
        destruct r3 as [[]|e3]; apply wp_fail, HQ; try done. split; [done|].
        destruct Hdoc3 as [[_ []]|Hdoc3]; done.
    + apply wp_ret, HQ; [done|]. exists ref. split; [done|]. unfold deleted. rewrite with_world_fs. split_and!; [done|done|done|].
      rewrite bool_decide_false by done. apply Hpw.
  - apply wp_bind, wp_modify. cbn [set_maps with_world set_acme st_meta st_certs]. rewrite Hmeta, Hcerts.
    apply wp_fail, HQ; [done|]. split; [done|]. split; [apply Hpw|].
    by destruct Hdoc as [[? _]|?]; [left|right].
Qed.

(** ** Load *)

(** The keys under which an entry is found. *)
Definition covers (e : CertMeta) (k : string) : Prop :=
  k = cm_Domain e ∨ (cm_Source e = SourceACME ∧ k ∈ cm_SANs e).

(** The pair of [name] on disk is the certificate [cert]. *)
Definition manual_stored (d : FS) (name : string) (cert : TLSCert) : Prop :=
  ∃ certPEM keyPEM c0, pair_on_disk d name = (Some certPEM, Some keyPEM) ∧
    Z.of_nat (String.length certPEM) ≤ maxCertificateFileSize ∧ Z.of_nat (String.length keyPEM) ≤ maxCertificateFileSize ∧
    X509KeyPair certPEM keyPEM = Some c0 ∧ cert = with_leaf c0.

(** The maps of a store that a restart can reproduce: names are canonical, every
    entry is found under each of its names, and the manual certificates are those
    of the pairs on disk. *)
Record mirrored (d : FS) (meta : gmap string MetaRef) (certs : gmap string TLSCert) : Prop := {
  mi_names : ∀ k r, meta !! k = Some r → Normalize (cm_Domain (mr_meta r)) true = Ok (cm_Domain (mr_meta r)) ∧
               (cm_SANs (mr_meta r) = [] ∨ NormalizeAll (cm_SANs (mr_meta r)) true = Ok (cm_SANs (mr_meta r)));
  mi_covered : ∀ k r, meta !! k = Some r → covers (mr_meta r) k;
  mi_complete : ∀ k r k', meta !! k = Some r → covers (mr_meta r) k' → meta !! k' = Some r;
  mi_source : ∀ k r, meta !! k = Some r → cm_Source (mr_meta r) = SourceACME ∧ certs !! k = None ∨
                cm_Source (mr_meta r) = SourceManual ∧ ∃ cert, certs !! k = Some cert ∧ manual_stored d k cert;
  mi_certs : ∀ k, is_Some (certs !! k) → is_Some (meta !! k);
  mi_pointers : ∀ k k' r r', meta !! k = Some r → meta !! k' = Some r' → mr_id r = mr_id r' → r = r'
}.

(** Loading entries of a mirrored store: each name they cover gets its entry back,
    and each manual one its certificate. *)
Lemma wp_load_loop meta certs entries : ∀ index meta' certs' (Q : result StoreError (gmap string MetaRef * gmap string TLSCert) → CertStore → Prop) s,
  w_events (store_world s) = [] → mirrored (store_fs s) meta certs →
  (∀ e, e ∈ entries → ∃ k r, meta !! k = Some r ∧ mr_meta r = e) →
  (∀ k r', meta' !! k = Some r' → mr_meta <$> meta !! k = Some (mr_meta r')) →
  (∀ k c, certs' !! k = Some c → certs !! k = Some c) →
  (∀ m c s', (∀ k r', m !! k = Some r' → mr_meta <$> meta !! k = Some (mr_meta r')) →
     (∀ k x, c !! k = Some x → certs !! k = Some x) →
     (∀ k, is_Some (meta' !! k) ∨ (∃ e, e ∈ entries ∧ covers e k) → is_Some (m !! k)) →
     (∀ k, is_Some (certs' !! k) ∨ (∃ e, e ∈ entries ∧ cm_Source e = SourceManual ∧ cm_Domain e = k) → is_Some (c !! k)) →
     Q (Ok (m, c)) s') →
  wp (load_loop conf index (Some <$> entries) meta' certs') Q s.
Proof using Hcache Hroot.
  induction entries as [|e entries IH]; intros index meta' certs' Q s Hev Hmi Hin Hm Hc HQ; cbn [fmap list_fmap load_loop].
  { apply wp_ret, HQ; [done|done|..]; by intros k [?|(e & ?%elem_of_nil & _)]. }
  destruct (Hin e ltac:(by left)) as (k0 & r0 & Hk0 & He).
  pose proof (mi_names _ _ _ Hmi _ _ Hk0) as [Hd Hs]. rewrite He in Hd, Hs.
  rewrite (normalize_entry_id _ _ Hd Hs). apply wp_bind, wp_lift, wp_bind, wp_get. cbn [alloc].
  set (ref := {| mr_id := st_next s; mr_meta := e |}). apply wp_bind, wp_modify.
  set (s1 := {| st_meta := st_meta s; st_certs := _; st_next := _; st_acme := _ |}).
  assert (∀ k, covers e k → mr_meta <$> meta !! k = Some e) as Hcov.
  { intros k Hk. rewrite (mi_complete _ _ _ Hmi _ _ k Hk0) by (by rewrite He). simpl. by rewrite He. }
  assert (∀ x, x ∈ entries → ∃ k r, meta !! k = Some r ∧ mr_meta r = x) as Hin' by (intros x Hx; apply Hin; by right).
  destruct (mi_source _ _ _ Hmi _ _ (mi_complete _ _ _ Hmi _ _ (cm_Domain e) Hk0 ltac:(rewrite He; by left))) as [[Hsrc _]|[Hsrc (cert & Hcert & Hst)]];
    rewrite He in Hsrc; rewrite Hsrc.
  - apply IH; [done|done|done| |done|].
    + intros k r'. destruct (decide (k = cm_Domain e)) as [->|Hne].
      * rewrite lookup_insert_eq. intros [= <-]. apply Hcov. by left.
      * rewrite lookup_insert_ne by done. rewrite lookup_foldl_insert. case_decide as Hk; [|apply Hm].
        intros [= <-]. apply Hcov. by right.
    + intros m c s' Hm' Hc' Hfull Hfullc. apply HQ; [done|done|..].
      * intros k Hk. apply Hfull. destruct Hk as [Hk|(x & [->|Hx]%elem_of_cons & Hk)]; [left|left|right; eauto].
        -- destruct (decide (k = cm_Domain e)) as [->|]; [rewrite lookup_insert_eq; eauto|].
           rewrite lookup_insert_ne by done. rewrite lookup_foldl_insert. case_decide; eauto.
        -- destruct (decide (k = cm_Domain e)) as [->|]; [rewrite lookup_insert_eq; eauto|].
           rewrite lookup_insert_ne by done. rewrite lookup_foldl_insert. destruct Hk as [?|[_ Hk]]; [done|]. rewrite decide_True by done. eauto.
      * intros k Hk. apply Hfullc. destruct Hk as [?|(x & [->|Hx]%elem_of_cons & Hk)]; [by left| |right; eauto].
        destruct Hk as [Hk _]. by rewrite Hsrc in Hk.
  - apply wp_bind, wp_try, wp_bind, wp_map_err, wp_store_disk.
    destruct Hst as (cp & kp & c0 & [= Hcp Hkp] & Hcl & Hkl & Hpair & ->).
    eapply (wp_ReadPair _ Manual); [exact Hd|exact Hroot| | |].
    { unfold calm. change (w_events (store_world s1)) with (w_events (store_world s)). rewrite Hev. constructor. }
    { intros Hn. unfold content in Hcp. change (fs_nodes (store_fs s) !! manual_cert (cm_Domain e) = None) in Hn. by rewrite Hn in Hcp. }
    intros r w (_ & Hnodes & Hevw) _ _ Hread _. rewrite (Hread Hev cp kp Hcp Hkp Hcl Hkl). apply wp_lift. rewrite Hpair.
    assert (mirrored (store_fs (set_acme (set_world w (st_acme s1)) s1)) meta certs) as Hmi'.
    { destruct Hmi as [H1 H2 H3 H4 H5 H6]. split; [done..| |done|done]. intros k r' Hk. destruct (H4 k r' Hk) as [?|(? & x & ? & (cp' & kp' & c' & [= Hx1 Hx2] & ?))]; [by left|right].
      split; [done|]. exists x. split; [done|]. exists cp', kp', c'. split; [|done]. unfold pair_on_disk.
      change (store_fs (set_acme (set_world w (st_acme s1)) s1)) with (w_fs w).
      assert (∀ p, content (w_fs w) p = content (store_fs s) p) as Hsame by (intros p; by apply content_nodes; rewrite Hnodes).
      by rewrite !Hsame, Hx1, Hx2. }
    apply IH; [by apply Hevw|exact Hmi'|done| | |].
    + intros k r'. destruct (decide (k = cm_Domain e)) as [->|Hne].
      * rewrite lookup_insert_eq. intros [= <-]. apply Hcov. by left.
      * rewrite lookup_insert_ne by done. apply Hm.
    + intros k c'. destruct (decide (k = cm_Domain e)) as [->|Hne].
      * rewrite lookup_insert_eq. by intros [= <-].
      * rewrite lookup_insert_ne by done. apply Hc.
    + intros m c s' Hm' Hc' Hfull Hfullc. apply HQ; [done|done|..].
      * intros k Hk. apply Hfull. destruct Hk as [Hk|(x & [->|Hx]%elem_of_cons & Hk)]; [left|left|right; eauto].
        -- destruct (decide (k = cm_Domain e)) as [->|]; [rewrite lookup_insert_eq; eauto|by rewrite lookup_insert_ne].
        -- destruct Hk as [->|[Hk _]]; [rewrite lookup_insert_eq; eauto|by rewrite Hsrc in Hk].
      * intros k Hk. apply Hfullc. destruct Hk as [Hk|(x & [->|Hx]%elem_of_cons & Hk)]; [left|left|right; eauto].
        -- destruct (decide (k = cm_Domain e)) as [->|]; [rewrite lookup_insert_eq; eauto|by rewrite lookup_insert_ne].
        -- destruct Hk as [_ <-]. rewrite lookup_insert_eq. eauto.
Qed.
End spec.

(** C22: Importing a certificate is all or nothing in memory. On success memory,
    certs.json and the pair of files hold it and nothing else changed in memory;
    on any error memory is as before. On disk, a request refused before writing
    leaves the pair and certs.json alone. When writing the pair fails, certs.json
    is as before and each of the two files is the old or the new one (the pair may
    be mixed: the code does not restore it). When saving certs.json fails, the pair
    is restored and certs.json is the old document or the one to be saved; when
    restoring fails too, each file of the pair is the old or the new one. *)
Theorem import_all_or_nothing (sha : Sha256) (abs : AbsPath) (x509 : X509) (mcodec : MetaCodec) (conf : StoreConfig)
  (range : gmap string MetaRef → list string) (root : Path) (domain name certPEM keyPEM : string) (s : CertStore)
  (Hcache : sc_cacheDir conf ≠ "") (Hroot : cleanRoot (sc_cacheDir conf) = Ok root) (Hcalm : calm (store_world s))
  (Hname : Normalize domain true = Ok name) (Hstable : Normalize name true = Ok name)
  (Hleg : no_legacy (store_fs s) (manual_dir root) name) :
  let out := Import conf range domain certPEM keyPEM s in
  match out.1 with
  | Ok m => imported range root name certPEM keyPEM m s out.2
  | Err e => import_failed range root name certPEM keyPEM e s out.2
  end.
Proof.
  cbv zeta. eapply (wp_Import conf range root Hcache Hroot domain name certPEM keyPEM
    (λ r s', match r with Ok m => imported range root name certPEM keyPEM m s s' | Err e => import_failed range root name certPEM keyPEM e s s' end));
    [done..|]. by intros [m|e] s' _.
Qed.

(** Deleting a certificate is all or nothing in memory: on success it is gone
    from memory and certs.json, and a manual one from the directory; on any error
    memory is as before, and an error after certs.json was rewritten is answered
    by writing the old entries again. *)
Theorem delete_all_or_nothing (sha : Sha256) (abs : AbsPath) (mcodec : MetaCodec) (conf : StoreConfig)
  (range : gmap string MetaRef → list string) (root : Path) (domain name : string) (s : CertStore)
  (Hcache : sc_cacheDir conf ≠ "") (Hroot : cleanRoot (sc_cacheDir conf) = Ok root) (Hcalm : calm (store_world s))
  (Hname : Normalize domain true = Ok name) (Hstable : Normalize name true = Ok name) :
  let out := Delete conf range domain s in
  match out.1 with
  | Ok _ => ∃ ref, st_meta s !! name = Some ref ∧ deleted range root name ref s out.2
  | Err e => delete_failed range root name e s out.2
  end.
Proof.
  cbv zeta. eapply (wp_Delete conf range root Hcache Hroot domain name
    (λ r s', match r with Ok _ => ∃ ref, st_meta s !! name = Some ref ∧ deleted range root name ref s s' | Err e => delete_failed range root name e s s' end));
    [done..|]. by intros [m|e] s' _.
Qed.

Definition empty_acme (d : FS) : AcmeState := NewAcme (quiet d).

(** C23: A restart restores the store: loading the document that the store saved
    gives every name its metadata back and every manual name its certificate, for
    a store whose names are canonical, whose entries are found under each of their
    names and whose manual certificates are those on disk ([mirrored]). An import
    can break that condition: see [imported_names_break_restart]. *)
Theorem restart_restores_store (sha : Sha256) (abs : AbsPath) (x509 : X509) (mcodec : MetaCodec) (conf : StoreConfig)
  (range : gmap string MetaRef → list string) (root : Path) (d : FS) (meta : gmap string MetaRef) (certs : gmap string TLSCert)
  (Hcache : sc_cacheDir conf ≠ "") (Hroot : cleanRoot (sc_cacheDir conf) = Ok root)
  (Hrange : ∀ m, range m ≡ₚ elements (dom m))
  (Hcodec : ∀ l, meta_unmarshal (meta_marshal l) = Some (Some <$> l))
  (Hdoc : content d (doc_path root) = Some (meta_marshal (metadataSnapshot range meta)))
  (Hsize : Z.of_nat (String.length (meta_marshal (metadataSnapshot range meta))) ≤ maxMetadataFileSize)
  (Hmi : mirrored root d meta certs) :
  let out := Load conf (New (empty_acme d)) in
  out.1 = Ok () ∧ (∀ k, mr_meta <$> st_meta out.2 !! k = mr_meta <$> meta !! k) ∧ st_certs out.2 = certs.
Proof.
  change (wp (Load conf) (λ r s', r = Ok () ∧ (∀ k, mr_meta <$> st_meta s' !! k = mr_meta <$> meta !! k) ∧ st_certs s' = certs) (New (empty_acme d))).
  unfold Load. rewrite (persistent_true conf Hcache). cbn [negb]. apply wp_bind, wp_try, wp_store_disk.
  unfold ReadMetadata, read_document. apply wp_bind, wp_lift. rewrite Hroot. apply wp_readRegularFile; [apply Forall_nil; exact I|].
  intros r w (_ & Hnodes & Hev) _ _ _ Hread. rewrite (Hread eq_refl _ Hdoc Hsize), Hcodec.
  apply wp_bind. set (s1 := set_acme _ _).
  assert (∀ p, content (store_fs s1) p = content d p) as Hsame by (intros p; apply content_nodes; exact (f_equal (λ m, m !! p) Hnodes)).
  apply (wp_load_loop conf root Hcache Hroot meta certs); [by apply Hev| |..].
  - destruct Hmi as [H1 H2 H3 H4 H5 H6]. split; [done..| |done|done]. intros k r' Hk.
    destruct (H4 k r' Hk) as [?|(? & x & ? & (cp & kp & c' & [= Hx1 Hx2] & ?))]; [by left|right].
    split; [done|]. exists x. split; [done|]. exists cp, kp, c'. split; [|done]. unfold pair_on_disk. by rewrite !Hsame, Hx1, Hx2.
  - intros e. rewrite elem_of_snapshot; [done|done|apply (mi_pointers _ _ _ _ Hmi)].
  - intros k r'. by rewrite lookup_empty.
  - intros k c. by rewrite lookup_empty.
  - intros m c s' Hm Hc Hfull Hfullc. apply wp_modify. split; [done|]. split.
    + intros k. cbn [set_maps st_meta]. destruct (m !! k) as [r'|] eqn:Hk; [symmetry; by apply Hm|].
      destruct (meta !! k) as [r'|] eqn:Hk'; [|done]. destruct (Hfull k) as [? Hx]; [|by rewrite Hk in Hx].
      right. exists (mr_meta r'). split; [apply elem_of_snapshot; [done|apply (mi_pointers _ _ _ _ Hmi)|by exists k, r']|].
      by eapply (mi_covered _ _ _ _ Hmi).
    + cbn [set_maps st_certs]. apply map_eq. intros k. destruct (c !! k) as [x|] eqn:Hk; [symmetry; by apply Hc|].
      destruct (certs !! k) as [x|] eqn:Hk'; [|done]. destruct (mi_certs _ _ _ _ Hmi k ltac:(eauto)) as [r' Hr'].
      destruct (Hfullc k) as [? Hx]; [|by rewrite Hk in Hx]. right. exists (mr_meta r').
      split; [apply elem_of_snapshot; [done|apply (mi_pointers _ _ _ _ Hmi)|by exists k, r']|].
      destruct (mi_source _ _ _ _ Hmi _ _ Hr') as [[_ ?]|[Hsrc _]]; [congruence|]. split; [done|].
      destruct (mi_covered _ _ _ _ Hmi _ _ Hr') as [?|[Hs _]]; [done|]. by rewrite Hs in Hsrc.
Qed.

(** ** What the code does not check *)

Lemma wp_load_loop_keeps {sha : Sha256} {abs : AbsPath} {x509 : X509} conf entries :
  ∀ index meta certs (Q : result StoreError (gmap string MetaRef * gmap string TLSCert) → CertStore → Prop) s,
  (∀ r s', st_meta s' = st_meta s → st_certs s' = st_certs s → Q r s') → wp (load_loop conf index entries meta certs) Q s.
Proof.
  induction entries as [|e entries IH]; intros index meta certs Q s HQ; cbn [load_loop]; [by apply wp_ret, HQ|].
  apply wp_bind, wp_lift. destruct (normalize_entry index e) as [m|]; [|by apply HQ].
  apply wp_bind, wp_get. cbn [alloc]. apply wp_bind, wp_modify.
  destruct (cm_Source m); [apply IH; intros r s' H1 H2; by apply HQ| |by apply wp_fail, HQ].
  apply wp_bind, wp_try, wp_bind, wp_map_err, wp_store_disk. unfold wp at 1.
  destruct (ReadPair _ _ _ _) as [[[c k]|e'] w]; cbn [fst snd]; [apply wp_lift|]; apply IH; intros r s' H1 H2; by apply HQ.
Qed.

(** One entry whose names are refused makes the whole document unreadable. *)
Lemma load_loop_refuses {sha : Sha256} {abs : AbsPath} {x509 : X509} conf entries x : ∀ index meta certs s,
  x ∈ entries → (∀ i, is_ok (normalize_entry i (Some x)) = false) →
  is_ok (load_loop conf index (Some <$> entries) meta certs s).1 = false.
Proof.
  induction entries as [|e entries IH]; intros index meta certs s Hx Hbad; [by apply elem_of_nil in Hx|].
  change (wp (load_loop conf index (Some <$> e :: entries) meta certs) (λ r _, is_ok r = false) s).
  cbn [fmap list_fmap load_loop]. apply wp_bind, wp_lift.
  destruct (normalize_entry index (Some e)) as [m|] eqn:He; [|done].
  apply elem_of_cons in Hx as [->|Hx]; [by specialize (Hbad index); rewrite He in Hbad|].
  apply wp_bind, wp_get. cbn [alloc]. apply wp_bind, wp_modify. destruct (cm_Source m); [by apply IH| |done].
  apply wp_bind, wp_try, wp_bind, wp_map_err, wp_store_disk. unfold wp at 1.
  destruct (ReadPair _ _ _ _) as [[[c k]|e'] w]; cbn [fst snd]; [apply wp_lift|]; by apply IH.
Qed.

(** A certificate whose other names are not all host names (an underscore, say) is
    imported, but certs.json cannot be loaded afterwards: no certificate of the
    store survives a restart. *)
Theorem imported_names_break_restart (sha : Sha256) (abs : AbsPath) (x509 : X509) (mcodec : MetaCodec) (conf : StoreConfig)
  (range : gmap string MetaRef → list string) (root : Path) (domain name certPEM keyPEM : string) (m : CertMeta) (e : PathError) (s : CertStore)
  (Hcache : sc_cacheDir conf ≠ "") (Hroot : cleanRoot (sc_cacheDir conf) = Ok root) (Hquiet : w_events (store_world s) = [])
  (Hname : Normalize domain true = Ok name) (Hstable : Normalize name true = Ok name)
  (Hleg : no_legacy (store_fs s) (manual_dir root) name)
  (Hrange : ∀ m, range m ≡ₚ elements (dom m))
  (Hcodec : ∀ l, meta_unmarshal (meta_marshal l) = Some (Some <$> l))
  (Hfresh : ∀ k r, st_meta s !! k = Some r → (mr_id r < st_next s)%nat)
  (Hptr : ∀ k k' r r', st_meta s !! k = Some r → st_meta s !! k' = Some r' → mr_id r = mr_id r' → r = r') :
  let out := Import conf range domain certPEM keyPEM s in
  out.1 = Ok m → cm_SANs m ≠ [] → NormalizeAll (cm_SANs m) true = Err e →
  let restarted := Load conf (New (empty_acme (store_fs out.2))) in
  is_ok restarted.1 = false ∧ st_certs restarted.2 = ∅.
Proof.
  cbv zeta. intros Hok Hne Hsans.
  assert (imported range root name certPEM keyPEM m s (Import conf range domain certPEM keyPEM s).2) as Himp.
  { assert (calm (store_world s)) as Hc by (unfold calm; rewrite Hquiet; constructor).
    eapply (wp_Import conf range root Hcache Hroot domain name certPEM keyPEM
      (λ r s', r = Ok m → imported range root name certPEM keyPEM m s s')); [done..| |exact Hok].
    intros r s' _ Hr ->. exact Hr. }
  destruct Himp as (cert & leaf & ref & _ & _ & _ & Hm & Hid & Hmeta & _ & _ & Hdoc).
  set (d := store_fs (Import conf range domain certPEM keyPEM s).2) in *.
  change (wp (Load conf) (λ r s', is_ok r = false ∧ st_certs s' = ∅) (New (empty_acme d))).
  unfold Load. rewrite (persistent_true conf Hcache). cbn [negb]. apply wp_bind, wp_try, wp_store_disk.
  unfold ReadMetadata, read_document. apply wp_bind, wp_lift. rewrite Hroot. apply wp_readRegularFile; [apply Forall_nil; exact I|].
  intros r w Hq _ Hr Herr _. destruct r as [data|e'].
  - specialize (Hr data eq_refl). assert (content d (doc_path root) = Some data) as Hdata by exact Hr.
    rewrite Hdoc in Hdata. injection Hdata as <-. rewrite Hcodec. apply wp_bind.
    set (s1 := set_acme _ _). set (entries := metadataSnapshot range _).
    assert (is_ok (load_loop conf 0 (Some <$> entries) ∅ ∅ s1).1 = false) as Hbad.
    { apply (load_loop_refuses conf entries m).
      - apply elem_of_snapshot; [done| |exists name, ref; by rewrite Hmeta, lookup_insert_eq].
        rewrite Hmeta. intros k k' r r' Hk Hk' Heq.
        apply lookup_insert_Some in Hk as [[<- <-]|[Hnk Hk]]; apply lookup_insert_Some in Hk' as [[<- <-]|[Hnk' Hk']]; try done.
        + apply Hfresh in Hk'. lia.
        + apply Hfresh in Hk. lia.
        + by eapply Hptr.
      - intros i. unfold normalize_entry. destruct (Normalize (cm_Domain m) true); [|done].
        by rewrite bool_decide_false, Hsans by done. }
    assert (wp (load_loop conf 0 (Some <$> entries) ∅ ∅) (λ _ s', st_certs s' = ∅) s1) as Hkeep by (apply wp_load_loop_keeps; auto).
    unfold wp in *. destruct (load_loop conf 0 (Some <$> entries) ∅ ∅ s1) as [[a|a] s2]; cbn [fst snd] in *; [done|by split].
  - assert (is_not_exist e' = false) as -> by (apply Herr; [by eexists|done]). by apply wp_fail.
Qed.

(** A wildcard certificate that was imported is never served: no server name that a
    client may send is looked up under a wildcard. *)
Theorem wildcard_never_served (sha : Sha256) (abs : AbsPath) (x509 : X509) (icodec : IndexCodec) (conf : StoreConfig) (s : CertStore)
  (server : string)
  (Hacme : sc_hasACME conf = false) (Hname : address_in server = None)
  (Honly : ∀ k c, st_certs s !! k = Some c → HasPrefix k "*." = true) :
  is_ok (StoreGetCertificate conf (Some server) s).1 = false.
Proof.
  change (wp (StoreGetCertificate conf (Some server)) (λ r _, is_ok r = false) s). unfold StoreGetCertificate.
  apply wp_bind, wp_lift. destruct (Normalize server false) as [name|] eqn:Hn; [|done].
  apply wp_bind, wp_get. destruct (st_certs s !! name) as [c|] eqn:Hc; [|by rewrite Hacme; apply wp_fail].
  apply Honly in Hc. destruct (Normalize_cases _ _ _ Hn) as [(a & Ha & _)|(wildcard & Hd & Hw)]; [by rewrite Ha in Hname|].
  destruct Hw as [->|?]; [|done]. destruct Hd as (_ & value & Heq & (_ & _ & _ & Hstar) & _). simpl in Heq.
  unfold HasPrefix in Hc. apply bool_decide_eq_true in Hc as [k Hk]. by rewrite <-Heq, Hk in Hstar.
Qed.

(** *** A concrete store *)

Definition source_code (s : Source) : bool + string :=
  match s with SourceACME => inl true | SourceManual => inl false | OtherSource t => inr t end.
Definition code_source (c : bool + string) : Source :=
  match c with inl true => SourceACME | inl false => SourceManual | inr t => OtherSource t end.
Definition meta_code (m : CertMeta) : list string * (bool + string) * bool * list string :=
  ([cm_Domain m; cm_Issuer m; cm_NotBefore m; cm_NotAfter m; cm_KeyType m], source_code (cm_Source m), cm_AutoRenew m, cm_SANs m).
Definition code_meta (c : list string * (bool + string) * bool * list string) : CertMeta :=
  let '(texts, src, renew, sans) := c in
  {| cm_Domain := default "" (texts !! 0%nat); cm_SANs := sans; cm_Issuer := default "" (texts !! 1%nat);
     cm_NotBefore := default "" (texts !! 2%nat); cm_NotAfter := default "" (texts !! 3%nat);
     cm_Source := code_source src; cm_KeyType := default "" (texts !! 4%nat); cm_AutoRenew := renew |}.
Notation MetaCode := (list string * (bool + string) * bool * list string)%type.
Definition demo_marshal (l : list CertMeta) : string := pos_text (encode (map meta_code l)).
Definition demo_unmarshal (s : string) : option (list (option CertMeta)) :=
  option_map (map (λ c, Some (code_meta c))) (decode (A := list MetaCode) (text_pos s)).
Definition demo_mcodec : MetaCodec := {| meta_marshal := demo_marshal; meta_unmarshal := demo_unmarshal |}.
Lemma demo_mcodec_law l : @meta_unmarshal demo_mcodec (@meta_marshal demo_mcodec l) = Some (Some <$> l).
Proof.
  cbn. unfold demo_marshal, demo_unmarshal. rewrite text_pos_text, decode_encode. cbn. f_equal.
  rewrite map_map. apply map_ext. intros m. f_equal. by destruct m as [? ? ? ? ? [] ? ?].
Qed.
Definition demo_range (m : gmap string MetaRef) : list string := elements (dom m).
Definition demo_store_conf : StoreConfig :=
  {| sc_cacheDir := "cache"; sc_hasACME := false; sc_acmeConf := demo_conf; sc_ca := demo_ca |}.
(** The calls of the environment: [n] succeed, then one fails. *)
Definition fails_after (n : nat) (d : FS) : World :=
  {| w_fs := d; w_events := replicate n {| ev_ok := true; ev_other := id |} ++ [{| ev_ok := false; ev_other := id |}] |}.
Lemma fails_after_calm n d : calm (fails_after n d).
Proof. apply Forall_app_2; [apply Forall_replicate|apply Forall_singleton]; done. Qed.

Section demo.
Let sha := plain_sha.
Let abs := plain_abs.
Let x509 := demo_x509.
Let codec := demo_codec.
Let mcodec := demo_mcodec.
#[local] Existing Instances sha abs x509 codec mcodec.

(** A store that imported one certificate. *)
Definition demo_imported : CertStore := (Import demo_store_conf demo_range "Example.com" "CERT" "KEY" (New (empty_acme empty_fs))).2.
Lemma demo_imported_calm : calm (store_world demo_imported).
Proof.
  assert (w_events (store_world demo_imported) = []) as H by (vm_compute; reflexivity).
  unfold calm. rewrite H. constructor.
Qed.
Definition demo_meta : CertMeta :=
  {| cm_Domain := "example.com"; cm_SANs := ["example.com"]; cm_Issuer := "CA"; cm_NotBefore := "0";
     cm_NotAfter := "1728000000000000"; cm_Source := SourceManual; cm_KeyType := "ECDSA P-256"; cm_AutoRenew := false |}.

(** The 39th call, while certs.json is saved, fails. *)
Lemma import_all_or_nothing_witness :
  let s := New (NewAcme (fails_after 38 empty_fs)) in
  let out := Import demo_store_conf demo_range "Example.com" "CERT" "KEY" s in
  is_ok out.1 = false ∧ st_meta out.2 = ∅ ∧ pair_on_disk ["var"; "cache"] (store_fs out.2) "example.com" = (None, None).
Proof.
  intros s out. assert (is_ok out.1 = false) as Hout by (vm_compute; reflexivity).
  split; [exact Hout|].
  assert (out.1 = Err (PersistFailed (Sys (EOTHER "close")))) as He by (vm_compute; reflexivity).
  pose proof (import_all_or_nothing sha abs x509 mcodec demo_store_conf demo_range ["var"; "cache"] "Example.com" "example.com" "CERT" "KEY" s
    ltac:(discriminate) ltac:(vm_compute; reflexivity) ltac:(apply fails_after_calm) ltac:(vm_compute; reflexivity) ltac:(vm_compute; reflexivity)
    ltac:(intros n x [? H]; discriminate H)) as H.
  cbv zeta in H. fold out in H. rewrite He in H. destruct H as [[Hm _] [Hp _]]. split; [exact Hm|exact Hp].
Defined.

Lemma delete_all_or_nothing_witness :
  let out := Delete demo_store_conf demo_range "EXAMPLE.com" demo_imported in
  out.1 = Ok () ∧ st_meta out.2 = delete "example.com" (st_meta demo_imported) ∧
  pair_on_disk ["var"; "cache"] (store_fs out.2) "example.com" = (None, None).
Proof.
  intros out. assert (out.1 = Ok ()) as Hout by (vm_compute; reflexivity). split; [exact Hout|].
  pose proof (delete_all_or_nothing sha abs mcodec demo_store_conf demo_range ["var"; "cache"] "EXAMPLE.com" "example.com" demo_imported
    ltac:(discriminate) ltac:(vm_compute; reflexivity) demo_imported_calm ltac:(vm_compute; reflexivity) ltac:(vm_compute; reflexivity)) as H.
  cbv zeta in H. fold out in H. rewrite Hout in H. destruct H as (ref & Href & Hm & _ & _ & Hp). split; [exact Hm|].
  rewrite Hp. assert (st_meta demo_imported !! "example.com" = Some {| mr_id := 0; mr_meta := demo_meta |}) as Href' by (vm_compute; reflexivity).
  rewrite Href' in Href. injection Href as <-. reflexivity.
Defined.

Lemma restart_restores_store_witness :
  (Load demo_store_conf (New (empty_acme (store_fs demo_imported)))).1 = Ok () ∧
  ∀ k, mr_meta <$> st_meta (Load demo_store_conf (New (empty_acme (store_fs demo_imported)))).2 !! k =
       mr_meta <$> ({["example.com" := {| mr_id := 0; mr_meta := demo_meta |}]} : gmap string MetaRef) !! k.
Proof.
  set (meta := {["example.com" := {| mr_id := 0; mr_meta := demo_meta |}]} : gmap string MetaRef).
  set (cert := {| tc_Certificate := ["CERT"]; tc_PrivateKey := ECDSA "P-256" "KEY"; tc_Leaf := Some (demo_leaf "CERT") |}).
  destruct (restart_restores_store sha abs x509 mcodec demo_store_conf demo_range ["var"; "cache"] (store_fs demo_imported) meta
    {["example.com" := cert]}) as (H1 & H2 & _).
  - discriminate.
  - vm_compute; reflexivity.
  - done.
  - apply demo_mcodec_law.
  - vm_compute; reflexivity.
  - vm_compute. discriminate.
  - assert (∀ k r, meta !! k = Some r → k = "example.com" ∧ r = {| mr_id := 0; mr_meta := demo_meta |}) as Hmeta
      by by intros k r [<- <-]%lookup_singleton_Some.
    split.
    + intros k r [-> ->]%Hmeta. split; [vm_compute; reflexivity|right; vm_compute; reflexivity].
    + intros k r [-> ->]%Hmeta. by left.
    + intros k r k' [-> ->]%Hmeta [->|[Hs _]]; [apply lookup_singleton_eq|discriminate Hs].
    + intros k r [-> ->]%Hmeta. right. split; [done|]. exists cert. split; [apply lookup_singleton_eq|].
      exists "CERT", "KEY", cert. split; [vm_compute; reflexivity|]. split; [vm_compute; discriminate|].
      split; [vm_compute; discriminate|]. by split.
    + intros k [c [<- _]%lookup_singleton_Some]. eexists. apply lookup_singleton_eq.
    + intros k k' r r' [_ ->]%Hmeta [_ ->]%Hmeta _. done.
  - split; [exact H1|exact H2].
Defined.
End demo.
