(* ===== verification/CertReview.v ===== *)
(** * Certificate review (certreview/reviewer.go)

    The checks of the certificates against the rules.  Each check is the list of
    findings it appends, with the counter that its severity stands for; a message
    is the data it is made of.  [Hours] is computed in [float64] as the code does.
    The store is asked through [List] (once per check, in the order of a map) and
    [Get]; times are those of [X509]. *)

From Stdlib Require Import Floats.SpecFloat.
From S2P Require Import Prelude GoStrings Duration SourceIP Limits Rule FileIO CertPath Acme CertStore.

Inductive Severity := SeverityCritical | SeverityWarning | SeverityInfo.
#[export] Instance severity_eq_dec : EqDecision Severity.
Proof. solve_decision. Defined.

Inductive Message :=
| HasExpired (domain : string) (expiry : Z)
| ExpiresIn (domain : string) (days expiry : Z)
| NoCertificateFound (rule domain : string)
| Unreferenced (domain : string)
| WeakKey (domain : string) (bits minimum : Z)
| NotCovered (domain : string) (missing : list string).
#[export] Instance message_eq_dec : EqDecision Message.
Proof. solve_decision. Defined.

Record Finding := { fi_Domain : string; fi_Severity : Severity; fi_Check : string; fi_Message : Message }.
#[export] Instance finding_eq_dec : EqDecision Finding.
Proof. solve_decision. Defined.
Record Options := { op_ExpiryWarningDays : Z; op_ExpiryCriticalDays : Z; op_MinRSABits : Z }.
Record ReviewResult := {
  rr_OK : bool; rr_Total : Z; rr_Critical : Z; rr_Warnings : Z; rr_Info : Z; rr_Findings : list Finding
}.

Definition DefaultOptions : Options := {| op_ExpiryWarningDays := 30; op_ExpiryCriticalDays := 7; op_MinRSABits := 2048 |}.
(** [NewReviewer]. *)
Definition effective (o : Options) : Options :=
  {| op_ExpiryWarningDays := if op_ExpiryWarningDays o <=? 0 then 30 else op_ExpiryWarningDays o;
     op_ExpiryCriticalDays := if op_ExpiryCriticalDays o <=? 0 then 7 else op_ExpiryCriticalDays o;
     op_MinRSABits := if op_MinRSABits o <=? 0 then 2048 else op_MinRSABits o |}.

(** [time.Time.Sub] saturates. *)
Definition time_sub (a b : Z) : Z := Z.max int64_min (Z.min int64_max (a - b)).
(** [int(d.Hours() / 24)]. *)
Definition hour : Z := 3600 * second.
Definition f64_add (a b : spec_float) : spec_float := SFadd 53 1024 a b.
Definition days_left (remaining : Z) : Z :=
  let hours := f64_add (f64_of (Z.quot remaining hour)) (f64_div (f64_of (Z.rem remaining hour)) (f64_of hour)) in
  f64_trunc (f64_div hours (f64_of 24)).

(** [fmt.Sscanf(s, "RSA %d", &bits)] of a text that starts with "RSA ": 0 when no
    number follows the blanks. *)
Fixpoint skip_blanks (l : list ascii) : list ascii :=
  match l with
  | c :: l' => if bool_decide (c = " "%char) || bool_decide (c = byte 9) then skip_blanks l' else l
  | [] => []
  end.
Fixpoint digit_prefix (l : list ascii) : list ascii :=
  match l with c :: l => if is_digit c then c :: digit_prefix l else [] | [] => [] end.
Definition scan_bits (keyType : string) : Z :=
  let l := skip_blanks (drop 4 (to_list keyType)) in
  let '(sign, l) := match l with
    | c :: l' => if bool_decide (c = "-"%char) then ([c], l') else if bool_decide (c = "+"%char) then ([c], l') else ([], l)
    | [] => ([], [])
    end in
  default 0 (ParseInt (of_list (sign ++ digit_prefix l))).

Section review.
Context `{!X509}.
Context (opts : Options) (now : Z) (rules : list Rule).
(** [List] as the three checks that call it see it, and [Get]. *)
Context (expiry_list orphan_list strength_list : list CertMeta) (get_meta : string → option CertMeta).

Definition critical (domain check : string) (m : Message) : Finding :=
  {| fi_Domain := domain; fi_Severity := SeverityCritical; fi_Check := check; fi_Message := m |}.
Definition warning (domain check : string) (m : Message) : Finding :=
  {| fi_Domain := domain; fi_Severity := SeverityWarning; fi_Check := check; fi_Message := m |}.
Definition info (domain check : string) (m : Message) : Finding :=
  {| fi_Domain := domain; fi_Severity := SeverityInfo; fi_Check := check; fi_Message := m |}.

Definition expiry_finding (meta : CertMeta) : option Finding :=
  if bool_decide (cm_NotAfter meta = "") then None
  else match ParseTime (cm_NotAfter meta) with
  | None => None
  | Some expiry =>
      let remaining := time_sub expiry now in
      let days := days_left remaining in
      if remaining <=? 0 then Some (critical (cm_Domain meta) "expiry_critical" (HasExpired (cm_Domain meta) expiry))
      else if days <=? op_ExpiryCriticalDays opts then
        Some (critical (cm_Domain meta) "expiry_critical" (ExpiresIn (cm_Domain meta) days expiry))
      else if days <=? op_ExpiryWarningDays opts then
        Some (warning (cm_Domain meta) "expiry_warning" (ExpiresIn (cm_Domain meta) days expiry))
      else None
  end.
Definition checkExpiry : list Finding := omap expiry_finding expiry_list.

Definition rule_domain (domain : string) : string := ToLower (TrimSpace domain).
Definition active_https (rule : Rule) : bool := bool_decide (Proto rule = ProtocolHTTPS) && Enabled rule.

Definition checkDomainMismatch : list Finding :=
  rule ← rules;
  if negb (active_https rule) then []
  else omap (λ d, let domain := rule_domain d in
    if bool_decide (domain = "") then None
    else match get_meta domain with
         | Some _ => None
         | None => Some (critical domain "domain_mismatch" (NoCertificateFound (RuleID rule) domain))
         end) (Domains rule).

Definition referenced : gset string :=
  list_to_set (rule ← rules; if bool_decide (Proto rule = ProtocolHTTPS) then rule_domain <$> Domains rule else []).
Definition checkOrphanCerts : list Finding :=
  omap (λ meta, if bool_decide (cm_Domain meta ∈ referenced) then None
                else Some (info (cm_Domain meta) "orphan_cert" (Unreferenced (cm_Domain meta)))) orphan_list.

Definition strength_finding (meta : CertMeta) : option Finding :=
  if HasPrefix (cm_KeyType meta) "RSA " then
    let bits := scan_bits (cm_KeyType meta) in
    if (0 <? bits) && (bits <? op_MinRSABits opts)
    then Some (warning (cm_Domain meta) "key_too_weak" (WeakKey (cm_Domain meta) bits (op_MinRSABits opts))) else None
  else None.
Definition checkKeyStrength : list Finding := omap strength_finding strength_list.

Definition missing_names (rule : Rule) (meta : CertMeta) : list string :=
  filter (λ d, d ≠ "" ∧ d ∉ ToLower <$> cm_SANs meta) (rule_domain <$> Domains rule).
Definition checkSANMismatch : list Finding :=
  rule ← rules;
  if negb (active_https rule) || (length (Domains rule) <=? 1)%nat then []
  else omap (λ d, let domain := rule_domain d in
    if bool_decide (domain = "") then None
    else meta ← get_meta domain;
      if bool_decide (missing_names rule meta = []) then None
      else Some (warning domain "san_mismatch" (NotCovered domain (missing_names rule meta)))) (Domains rule).

(** ** The order of the findings *)

Definition severityOrder (s : Severity) : Z :=
  match s with SeverityCritical => 0 | SeverityWarning => 1 | SeverityInfo => 2 end.
(** [¬ less(b, a)]: [sort.SliceStable] leaves the findings in this order. *)
Definition finding_le (a b : Finding) : Prop :=
  severityOrder (fi_Severity a) < severityOrder (fi_Severity b) ∨
  (fi_Severity a = fi_Severity b ∧
   (fi_Check a = fi_Check b ∧ String.le (fi_Domain a) (fi_Domain b) ∨ fi_Check a ≠ fi_Check b ∧ String.le (fi_Check a) (fi_Check b))).
#[export] Instance finding_le_dec : RelDecision finding_le.
Proof. intros a b. unfold finding_le. apply _. Defined.

Definition all_findings : list Finding :=
  checkExpiry ++ checkDomainMismatch ++ checkOrphanCerts ++ checkKeyStrength ++ checkSANMismatch.
Definition count (s : Severity) (l : list Finding) : Z := Z.of_nat (length (filter (λ f, fi_Severity f = s) l)).

(** [Review] with a store. *)
Definition Review : ReviewResult := {|
  rr_OK := count SeverityCritical all_findings =? 0;
  rr_Total := Z.of_nat (length all_findings);
  rr_Critical := count SeverityCritical all_findings;
  rr_Warnings := count SeverityWarning all_findings;
  rr_Info := count SeverityInfo all_findings;
  rr_Findings := merge_sort finding_le all_findings
|}.
End review.

(** ** What a review says *)

#[export] Instance finding_le_total : Total finding_le.
Proof.
  intros a b. unfold finding_le. destruct (fi_Severity a) eqn:Ha, (fi_Severity b) eqn:Hb; simpl; try (by left; left; lia); try (by right; left; lia).
  all: destruct (decide (fi_Check a = fi_Check b)) as [E|E];
    [destruct (total String.le (fi_Domain a) (fi_Domain b)); [left|right]; right; (split; [done|]); left; (split; [congruence|done])
    |destruct (total String.le (fi_Check a) (fi_Check b)); [left|right]; right; (split; [done|]); right; (split; [congruence|done])].
Qed.

Lemma time_sub_le a b : time_sub a b ≤ 0 ↔ a ≤ b.
Proof. unfold time_sub, int64_min, int64_max. lia. Qed.

Lemma severity_count_zero s l : count s l =? 0 = true ↔ ∀ f, f ∈ l → fi_Severity f ≠ s.
Proof.
  unfold count. rewrite Z.eqb_eq. split.
  - intros H f Hf Hs. assert (f ∈ filter (λ f, fi_Severity f = s) l) as Hin by (by apply list_elem_of_filter).
    destruct (filter _ l); [by apply elem_of_nil in Hin|simpl in H; lia].
  - intros H. destruct (filter _ l) as [|f l'] eqn:E; [done|].
    assert (f ∈ filter (λ f, fi_Severity f = s) l) as [Hs Hf]%list_elem_of_filter by (rewrite E; by left). by destruct (H f Hf).
Qed.
Lemma count_split l : Z.of_nat (length l) = count SeverityCritical l + count SeverityWarning l + count SeverityInfo l.
Proof.
  unfold count. induction l as [|f l IH]; [done|].
  rewrite !filter_cons. destruct (fi_Severity f) eqn:E; repeat case_decide; try congruence; cbn [length]; lia.
Qed.

Section review_spec.
Context {x509 : X509}.
Context (opts : Options) (now : Z) (rules : list Rule).
Context (expiry_list orphan_list strength_list : list CertMeta) (get_meta : string → option CertMeta).
Let review := Review opts now rules expiry_list orphan_list strength_list get_meta.
Let all := all_findings opts now rules expiry_list orphan_list strength_list get_meta.

(** The certificate [meta] is not close to its end, as far as its date can be read. *)
Definition fresh (meta : CertMeta) : Prop :=
  cm_NotAfter meta = "" ∨ ∀ expiry, ParseTime (cm_NotAfter meta) = Some expiry →
    now < expiry ∧ op_ExpiryCriticalDays opts < days_left (time_sub expiry now).
Definition certified (rule : Rule) : Prop :=
  active_https rule = true → ∀ d, d ∈ Domains rule → rule_domain d ≠ "" → is_Some (get_meta (rule_domain d)).

Lemma fresh_expiry meta : fresh meta ↔ ∀ f, expiry_finding opts now meta = Some f → fi_Severity f ≠ SeverityCritical.
Proof.
  unfold fresh, expiry_finding. case_bool_decide as Hna; [split; [done|by left]|].
  destruct (ParseTime (cm_NotAfter meta)) as [expiry|]; [|by split; [|right]].
  destruct (time_sub expiry now <=? 0) eqn:Hr; [|destruct (_ <=? op_ExpiryCriticalDays opts) eqn:Hd].
  - bool_to_prop. apply (proj1 (time_sub_le _ _)) in Hr. split.
    + intros [?|H] f; [done|]. destruct (H _ eq_refl). lia.
    + intros H. by destruct (H _ eq_refl).
  - bool_to_prop. split.
    + intros [?|H] f; [done|]. destruct (H _ eq_refl). lia.
    + intros H. by destruct (H _ eq_refl).
  - bool_to_prop. split.
    + intros _ f. destruct (_ <=? _); [|done]. by intros [= <-].
    + intros _. right. intros ? [= <-]. split; [|done]. apply Z.nle_gt. rewrite <-time_sub_le. lia.
Qed.

Lemma elem_of_rules_bind (h : Rule → list Finding) f : f ∈ (rule ← rules; h rule) ↔ ∃ rule, rule ∈ rules ∧ f ∈ h rule.
Proof. rewrite list_elem_of_bind. naive_solver. Qed.

Lemma certified_mismatch : (∀ rule, rule ∈ rules → certified rule) ↔ checkDomainMismatch rules get_meta = [].
Proof.
  unfold checkDomainMismatch, certified. split.
  - intros H. apply elem_of_nil_inv. intros f Hf. apply elem_of_rules_bind in Hf as (rule & Hr & Hf).
    destruct (active_https rule) eqn:Ha; cbn [negb] in Hf; [|by apply elem_of_nil in Hf].
    apply list_elem_of_omap in Hf as (d & Hd & Hf). case_bool_decide as Hne; [done|].
    by destruct (H rule Hr Ha d Hd Hne) as [m Hm]; rewrite Hm in Hf.
  - intros H rule Hr Ha d Hd Hne. destruct (get_meta (rule_domain d)) eqn:Hm; [eauto|].
    assert (critical (rule_domain d) "domain_mismatch" (NoCertificateFound (RuleID rule) (rule_domain d)) ∈ ([] : list Finding)) as Hin; [|by apply elem_of_nil in Hin].
    rewrite <-H. apply elem_of_rules_bind. exists rule. split; [done|]. rewrite Ha. cbn [negb].
    apply list_elem_of_omap. exists d. split; [done|]. by rewrite bool_decide_false, Hm.
Qed.

Lemma all_critical f : f ∈ all → fi_Severity f = SeverityCritical →
  f ∈ checkExpiry opts now expiry_list ∨ f ∈ checkDomainMismatch rules get_meta.
Proof.
  unfold all, all_findings. rewrite !elem_of_app. intros [?|[?|[Hf|[Hf|Hf]]]] Hs; [by left|by right|exfalso..].
  - apply list_elem_of_omap in Hf as (m & _ & Hf). cbv beta in Hf. case_bool_decide; [done|]. by injection Hf as <-.
  - apply list_elem_of_omap in Hf as (m & _ & Hf). unfold strength_finding in Hf.
    destruct (HasPrefix _ _); [|done]. destruct (_ && _); [|done]. by injection Hf as <-.
  - apply elem_of_rules_bind in Hf as (rule & _ & Hf). destruct (_ || _); [by apply elem_of_nil in Hf|].
    apply list_elem_of_omap in Hf as (d & _ & Hf). cbv beta zeta in Hf. case_bool_decide; [done|].
    destruct (get_meta (rule_domain d)); [|done]. simpl in Hf. case_bool_decide; [done|]. by injection Hf as <-.
Qed.

Lemma review_ok_iff : rr_OK review = true ↔ (∀ meta, meta ∈ expiry_list → fresh meta) ∧ (∀ rule, rule ∈ rules → certified rule).
Proof.
  unfold review, Review. cbn [rr_OK]. rewrite severity_count_zero, certified_mismatch. fold all. split.
  - intros H. split.
    + intros meta Hm. apply fresh_expiry. intros f Hf. apply H. unfold all, all_findings. rewrite elem_of_app. left.
      apply list_elem_of_omap. by exists meta.
    + apply elem_of_nil_inv. intros f Hf. apply (H f).
      * unfold all, all_findings. rewrite !elem_of_app. by right; left.
      * apply elem_of_rules_bind in Hf as (rule & _ & Hf). destruct (negb _); [by apply elem_of_nil in Hf|].
        apply list_elem_of_omap in Hf as (d & _ & Hf). cbv beta zeta in Hf. case_bool_decide; [done|]. destruct (get_meta _); [done|]. by injection Hf as <-.
  - intros [Hfresh Hnil] f Hf Hs. destruct (all_critical f Hf Hs) as [Hin|Hin].
    + apply list_elem_of_omap in Hin as (meta & Hm & Hin). by eapply fresh_expiry; [apply Hfresh|exact Hin|].
    + rewrite Hnil in Hin. by apply elem_of_nil in Hin.
Qed.
End review_spec.

(** A review is OK exactly when no certificate whose end can be read has
    expired or is within the critical number of days of it, and every domain of an
    enabled HTTPS rule has a certificate; the findings are those of the five
    checks, ordered by severity, check and domain, and the four counters count
    them. *)
Theorem review_exact (x509 : X509) (opts : Options) (now : Z) (rules : list Rule)
  (expiry_list orphan_list strength_list : list CertMeta) (get_meta : string → option CertMeta) :
  let review := Review opts now rules expiry_list orphan_list strength_list get_meta in
  (rr_OK review = true ↔
     (∀ meta, meta ∈ expiry_list → fresh opts now meta) ∧ (∀ rule, rule ∈ rules → certified get_meta rule)) ∧
  rr_Findings review ≡ₚ all_findings opts now rules expiry_list orphan_list strength_list get_meta ∧
  Sorted finding_le (rr_Findings review) ∧
  rr_Total review = rr_Critical review + rr_Warnings review + rr_Info review ∧
  rr_Critical review = count SeverityCritical (rr_Findings review).
Proof.
  cbv zeta. split_and!.
  - apply review_ok_iff.
  - apply merge_sort_Permutation.
  - apply (Sorted_merge_sort _).
  - apply count_split.
  - unfold count. cbn [rr_Critical rr_Findings Review]. by rewrite merge_sort_Permutation.
Qed.

(** With the default options a certificate is critical up to its eighth last day:
    the hours that are left are rounded down to days. *)
Example eighth_day :
  days_left (8 * 24 * hour - 1) = 7 ∧ days_left (8 * 24 * hour) = 8 ∧ days_left (7 * 24 * hour + 1) = 7.
Proof. by vm_compute. Qed.
