(* ===== verification/ClientConfig.v ===== *)
(** * The client profile (internal/clientconfig/clientconfig.go)

    Address and token of the local daemon: validation, the default path, reading
    without following a link, and the atomic save.  Decoding of YAML and
    [url.Parse] are parameters; the limits and checks are those of the code. *)

From S2P Require Import Prelude GoStrings NetIP FileIO GoPath Appdirs CertPath.

Definition profileVersion : Z := 1.

Record Profile := { pf_Version : Z; pf_Address : string; pf_Token : string; pf_ConfigPath : string }.
Definition zero_profile : Profile := {| pf_Version := 0; pf_Address := ""; pf_Token := ""; pf_ConfigPath := "" |}.
#[export] Instance profile_eq_dec : EqDecision Profile.
Proof. solve_decision. Defined.

(** What the code uses of a [url.URL]; [Host] still has its port. *)
Record URL := { u_Scheme : string; u_User : bool; u_Host : string; u_Path : string; u_RawQuery : string; u_Fragment : string }.
Class UrlLib := { url_Parse : string → option URL }.

Definition validOptionalPort (port : list ascii) : bool :=
  match port with
  | [] => true
  | c :: digits => bool_decide (c = ":"%char) && forallb is_digit digits
  end.
(** [URL.Hostname] and [URL.Port]. *)
Definition splitHostPort (hostPort : string) : string * string :=
  let '(host, port) :=
    match last_colon (to_list hostPort) with
    | Some (host, port) => if validOptionalPort (":"%char :: port) then (host, port) else (to_list hostPort, [])
    | None => (to_list hostPort, [])
    end in
  let host :=
    match host with
    | "["%char :: inner => match reverse inner with "]"%char :: rest => reverse rest | _ => host end
    | _ => host
    end in
  (of_list host, of_list port).
Definition Hostname (u : URL) : string := (splitHostPort (u_Host u)).1.
Definition Port (u : URL) : string := (splitHostPort (u_Host u)).2.

Inductive ProfileError :=
| MissingProfilePath | ProfilePathNotAbs | OverrideNotAbs | NoConfigDir
| UnsupportedVersion (v : Z) | EmptyToken | ConfigPathNotAbs
| BadAddress | BadScheme | ExtraAddressParts | NotLoopback | MissingPort | BadPort
| ProfileSys (e : SysError) | ProfileNotRegular | TooPermissive | ProfileChanged | ProfileTooLarge
| ParseFailed (e : string) | SeveralDocuments | EncodeFailed | SaveFailed (e : PathError).

(** Decoding the first document with known fields only; whether another one
    follows; printing. *)
Class ProfileYaml := {
  decode_profile : string → result string Profile;
  decode_more : string → result string bool;
  marshal_profile : Profile → option string;
}.

Definition isLoopbackIP (host : string) : bool :=
  match ParseIP (Trim host "[]") with Some ip => IsLoopback ip | None => false end.

Section clientconfig.
Context `{!Host, !UrlLib, !ProfileYaml} (cwd : Path).

(** [validate]: the profile as it is left when there is no error. *)
Definition validate (profile : Profile) : result ProfileError Profile :=
  let version := if pf_Version profile =? 0 then profileVersion else pf_Version profile in
  check (negb (version =? profileVersion)) (UnsupportedVersion version) ≫= λ _,
  let profile := {| pf_Version := version;
                    pf_Address := TrimRightSet (TrimSpace (pf_Address profile)) "/";
                    pf_Token := TrimSpace (pf_Token profile);
                    pf_ConfigPath := TrimSpace (pf_ConfigPath profile) |} in
  check (bool_decide (pf_Token profile = "")) EmptyToken ≫= λ _,
  check (bool_decide (pf_ConfigPath profile ≠ "") && negb (IsAbs (pf_ConfigPath profile))) ConfigPathNotAbs ≫= λ _,
  match url_Parse (pf_Address profile) with
  | None => Err BadAddress
  | Some parsed =>
      check (bool_decide (u_Scheme parsed ≠ "http") && bool_decide (u_Scheme parsed ≠ "https")) BadScheme ≫= λ _,
      check (u_User parsed || bool_decide (u_Path parsed ≠ "") || bool_decide (u_RawQuery parsed ≠ "")
             || bool_decide (u_Fragment parsed ≠ "")) ExtraAddressParts ≫= λ _,
      let host := Hostname parsed in
      check (bool_decide (host = "") || negb (EqualFold host "localhost" || isLoopbackIP host)) NotLoopback ≫= λ _,
      let port := Port parsed in
      check (bool_decide (port = "")) MissingPort ≫= λ _,
      match ParseInt port with
      | None => Err BadPort
      | Some value => check ((value <? 1) || (65535 <? value)) BadPort ≫= λ _, Ok profile
      end
  end.

(** [os.UserConfigDir] on Linux. *)
Definition UserConfigDir : option string :=
  if bool_decide (Getenv "XDG_CONFIG_HOME" = "") then
    if bool_decide (Getenv "HOME" = "") then None else Some (Getenv "HOME" +:+ "/.config")
  else if IsAbs (Getenv "XDG_CONFIG_HOME") then Some (Getenv "XDG_CONFIG_HOME") else None.

Definition DefaultPath : result ProfileError string :=
  let override := TrimSpace (Getenv "VMFLOW_CLIENT_CONFIG") in
  if bool_decide (override ≠ "") then check (negb (IsAbs override)) OverrideNotAbs ≫= λ _, Ok (Clean override)
  else match UserConfigDir with
  | None => Err NoConfigDir
  | Some dir => Ok (Join [dir; "vmflow"; "client.yaml"])
  end.

Definition file {A} (m : IO World SysError A) : IO World ProfileError A := map_err ProfileSys m.

(** What [raw] says. *)
Definition parse_profile (raw : string) : result ProfileError Profile :=
  match decode_profile raw with
  | Err e => Err (ParseFailed e)
  | Ok profile =>
      match decode_more raw with
      | Ok false => validate profile
      | Ok true => Err SeveralDocuments
      | Err e => Err (ParseFailed e)
      end
  end.

Definition maxProfileSize : Z := 64 * 1024.

Definition Load (path : string) : IO World ProfileError Profile :=
  let path := TrimSpace path in
  lift (check (bool_decide (path = "")) MissingProfilePath) ≫= λ _,
  let p := resolve cwd path in
  file (Lstat p) ≫= λ pathInfo,
  match pathInfo with
  | RegularFile id mode _ =>
      lift (check (negb (Z.land mode 63 =? 0)) TooPermissive) ≫= λ _,
      file (Open p) ≫= λ opened,
      file (on_handle "fstat") ≫= λ _,
      match opened with
      | RegularFile id' _ data =>
          lift (check (negb (id' =? id)%nat) ProfileChanged) ≫= λ _,
          file (on_handle "read") ≫= λ _,
          lift (check (maxProfileSize <? Z.of_nat (String.length data)) ProfileTooLarge) ≫= λ _,
          lift (parse_profile data)
      | _ => fail ProfileChanged
      end
  | _ => fail ProfileNotRegular
  end.
Definition LoadDefault : IO World ProfileError (Profile * string) :=
  lift DefaultPath ≫= λ path, Load path ≫= λ profile, mret (profile, path).

Definition Save (path : string) (profile : Profile) : IO World ProfileError () :=
  let path := TrimSpace path in
  lift (check (bool_decide (path = "")) MissingProfilePath) ≫= λ _,
  lift (check (negb (IsAbs path)) ProfilePathNotAbs) ≫= λ _,
  lift (validate {| pf_Version := profileVersion; pf_Address := pf_Address profile; pf_Token := pf_Token profile;
                    pf_ConfigPath := pf_ConfigPath profile |}) ≫= λ profile,
  lift (match marshal_profile profile with Some raw => Ok raw | None => Err EncodeFailed end) ≫= λ raw,
  let p := resolve cwd path in
  let dir := resolve cwd (Dir path) in
  file (MkdirAll dir) ≫= λ _,
  try (Lstat p) ≫= λ r,
  lift (match r with
        | Ok (RegularFile _ _ _ as info) => Ok (Some info)
        | Ok _ => Err ProfileNotRegular
        | Err ENOENT => Ok None
        | Err e => Err (ProfileSys e)
        end) ≫= λ original,
  file (CreateTemp dir) ≫= λ temporary,
  map_err SaveFailed (fill_temporary original p dir raw 384 temporary).
End clientconfig.
