(* ===== verification/ClientConfigSpec.v ===== *)
(** * The client profile: what validation, loading and saving guarantee *)

From S2P Require Import Prelude GoStrings NetIP FileIO GoPath Appdirs CertPath CertPathSpec ClientConfig.

(** ** Texts *)

Lemma drop_set_idemp cutset l : drop_set cutset (drop_set cutset l) = drop_set cutset l.
Proof.
  induction l as [|c l IH]; simpl; [done|]. case_bool_decide as Hc; [done|]. simpl. by rewrite bool_decide_eq_false_2.
Qed.
Lemma TrimRightSet_idemp s cutset : TrimRightSet (TrimRightSet s cutset) cutset = TrimRightSet s cutset.
Proof. unfold TrimRightSet. by rewrite to_of_list, reverse_involutive, drop_set_idemp. Qed.

Section spec.
Context {host : Host} {urls : UrlLib} {yaml : ProfileYaml} (cwd : Path).

(** ** Profiles *)

(** What a profile in use says: a token for a daemon of this machine. *)
Record local_profile (p : Profile) : Prop := {
  lp_version : pf_Version p = profileVersion;
  lp_token : pf_Token p ≠ "";
  lp_config : pf_ConfigPath p = "" ∨ IsAbs (pf_ConfigPath p) = true;
  lp_address : ∃ u port, url_Parse (pf_Address p) = Some u ∧ (u_Scheme u = "http" ∨ u_Scheme u = "https") ∧
    u_User u = false ∧ u_Path u = "" ∧ u_RawQuery u = "" ∧ u_Fragment u = "" ∧
    (EqualFold (Hostname u) "localhost" = true ∨ isLoopbackIP (Hostname u) = true) ∧
    ParseInt (Port u) = Some port ∧ 1 ≤ port ≤ 65535;
}.
(** The fields as [validate] leaves them. *)
Definition trimmed (p : Profile) : Prop :=
  pf_Address p = TrimRightSet (pf_Address p) "/" ∧ pf_Token p = TrimSpace (pf_Token p) ∧ pf_ConfigPath p = TrimSpace (pf_ConfigPath p).

Lemma validate_ok p p' : validate p = Ok p' → local_profile p' ∧ trimmed p' ∧
  pf_Address p' = TrimRightSet (TrimSpace (pf_Address p)) "/" ∧ pf_Token p' = TrimSpace (pf_Token p) ∧
  pf_ConfigPath p' = TrimSpace (pf_ConfigPath p).
Proof.
  unfold validate. intros H. ok_inv. destruct (url_Parse _) as [url|] eqn:Hu; [|done]. ok_inv.
  destruct (ParseInt (Port url)) as [port|] eqn:Hp; [|done]. ok_inv. subst p'. bool_to_prop. simpl in *.
  split_and!; [|split_and!; simpl; by rewrite ?TrimRightSet_idemp, ?TrimSpace_idemp|done..].
  constructor; simpl; try done.
  - destruct (bool_decide (TrimSpace (pf_ConfigPath p) ≠ "")) eqn:Hc; simpl in *.
    + right. by bool_to_prop.
    + left. bool_to_prop. by apply dec_stable.
  - exists url, port. split; [done|].
    assert (u_Scheme url = "http" ∨ u_Scheme url = "https") as Hscheme.
    { destruct (decide (u_Scheme url = "http")) as [|N]; [by left|right]. apply dec_stable. intros N'.
      match goal with H : _ && _ = false |- _ => by rewrite !bool_decide_eq_true_2 in H by done end. }
    split; [done|]. repeat match goal with H : ¬ (_ ≠ _) |- _ => apply dec_stable in H end.
    split_and!; try done; try lia. by apply orb_true_iff.
Qed.

Lemma validate_local p : local_profile p → trimmed p → TrimSpace (pf_Address p) = pf_Address p → validate p = Ok p.
Proof.
  intros [Hv Ht Hc (u & port & Hu & Hs & Huser & Hpath & Hq & Hf & Hh & Hp & Hr)] (Ta & Tt & Tc) Ts. unfold validate.
  rewrite Hv. change (profileVersion =? 0) with false. cbv iota. rewrite Z.eqb_refl. simpl.
  rewrite Ts, <-Ta, <-Tt, <-Tc. rewrite (bool_decide_eq_false_2 (pf_Token p = "")) by done. simpl.
  assert (bool_decide (pf_ConfigPath p ≠ "") && negb (IsAbs (pf_ConfigPath p)) = false) as ->.
  { destruct Hc as [->| ->]; [done|by rewrite andb_false_r]. }
  simpl. rewrite Hu.
  assert (bool_decide (u_Scheme u ≠ "http") && bool_decide (u_Scheme u ≠ "https") = false) as ->.
  { by destruct Hs as [->| ->]. }
  simpl. rewrite Huser, Hpath, Hq, Hf. simpl.
  assert (Hostname u ≠ "") as Hne.
  { intros E. rewrite E in Hh. by destruct Hh. }
  rewrite (bool_decide_eq_false_2 (Hostname u = "")) by done.
  assert (EqualFold (Hostname u) "localhost" || isLoopbackIP (Hostname u) = true) as -> by by apply orb_true_iff.
  simpl. assert (Port u ≠ "") as Hpe. { intros E. by rewrite E in Hp. }
  rewrite (bool_decide_eq_false_2 (Port u = "")) by done. simpl. rewrite Hp.
  assert ((port <? 1) || (65535 <? port) = false) as -> by (apply orb_false_iff; lia). simpl. f_equal.
  destruct p; simpl in *; congruence.
Qed.

(** ** Loading *)

(** What the text of a profile has to be. *)
Definition profile_text (raw : string) (p : Profile) : Prop :=
  ∃ q, decode_profile raw = Ok q ∧ decode_more raw = Ok false ∧ validate q = Ok p.
Lemma parse_profile_Ok raw p : parse_profile raw = Ok p ↔ profile_text raw p.
Proof.
  unfold parse_profile, profile_text. destruct (decode_profile raw) as [q|e] eqn:Hq.
  - destruct (decode_more raw) as [[]|e]; split; try (intros (? & ? & ? & ?)); try congruence. intros. by exists q.
  - split; [done|]. by intros (? & ? & _).
Qed.

(** A private regular file with this content. *)
Definition private_file (d : FS) (p : Path) (raw : string) : Prop :=
  ∃ id mode, fs_nodes d !! p = Some (RegularFile id mode raw) ∧ Z.land mode 63 = 0 ∧
             Z.of_nat (String.length raw) ≤ maxProfileSize.

Lemma validate_no_sys p e : validate p ≠ Err (ProfileSys e).
Proof.
  unfold validate. intros H. repeat (apply bind_Err in H as [H|(? & _ & H)]; [apply check_Err in H as [_ ?]; done|]).
  destruct (url_Parse _); [|done].
  repeat (apply bind_Err in H as [H|(? & _ & H)]; [apply check_Err in H as [_ ?]; done|]).
  destruct (ParseInt _); [|done].
  repeat (apply bind_Err in H as [H|(? & _ & H)]; [apply check_Err in H as [_ ?]; done|]). done.
Qed.

Lemma wp_Load path (Q : result ProfileError Profile → World → Prop) w : calm w → TrimSpace path ≠ "" →
  (∀ r w', quietly w w' → w_fs w' = w_fs w →
     (∀ p, r = Ok p → ∃ raw, private_file (w_fs w) (resolve cwd (TrimSpace path)) raw ∧ profile_text raw p) →
     (∀ raw p, w_events w = [] → private_file (w_fs w) (resolve cwd (TrimSpace path)) raw → profile_text raw p → r = Ok p) →
     (r = Err (ProfileSys ENOENT) → fs_nodes (w_fs w) !! resolve cwd (TrimSpace path) = None) → Q r w') →
  wp (Load cwd path) Q w.
Proof.
  intros Hc Hne HQ. unfold Load. set (p := resolve cwd (TrimSpace path)) in *.
  rewrite bool_decide_eq_false_2 by done. apply wp_bind, wp_lift. simpl.
  apply wp_bind, wp_map_err, wp_Lstat; [done|]. intros r1 w1 Hq1 Hf1 Hr1.
  assert (w_events w = [] → ∀ raw, private_file (w_fs w) p raw → ∃ id mode, r1 = Ok (RegularFile id mode raw) ∧ Z.land mode 63 = 0) as Hnode.
  { intros Hev raw (id & mode & Hn & Hm & _). exists id, mode. split; [|done].
    rewrite (answers_nil _ _ _ Hr1 Hev). unfold lookup_node. by rewrite Hn. }
  destruct r1 as [n|e].
  2: { apply HQ; [done..| |].
       - intros raw p' Hev Hp _. by destruct (Hnode Hev raw Hp) as (? & ? & ? & _).
       - intros [= ->]. destruct Hr1 as [Hr|(_ & c & [=])]. unfold lookup_node in Hr. by destruct (fs_nodes (w_fs w) !! p). }
  destruct n as [id mode data| | |].
  2-4: apply wp_fail, HQ; [done..| |done]; intros raw p' Hev Hp _; by destruct (Hnode Hev raw Hp) as (? & ? & ? & _).
  assert (fs_nodes (w_fs w) !! p = Some (RegularFile id mode data)) as Hn.
  { destruct Hr1 as [Hr|(_ & c & [=])]. unfold lookup_node in Hr. by destruct (fs_nodes (w_fs w) !! p); simplify_eq. }
  destruct (Z.land mode 63 =? 0) eqn:Hm; simpl; (apply wp_bind, wp_lift; simpl).
  2: { apply HQ; [done..| |done]. intros raw p' _ (id' & mode' & Hn' & Hm' & _) _. rewrite Hn in Hn'. simplify_eq. by rewrite Hm' in Hm. }
  apply wp_bind, wp_map_err, wp_Open; [apply Hq1|]. intros r2 w2 Hq2 Hf2 Hr2. rewrite Hf1 in *.
  assert (follow 40 (w_fs w) p = Ok (RegularFile id mode data)) as Hfo by (unfold follow; by rewrite Hn).
  assert (quietly w w2) as Hw2 by by eapply quietly_trans.
  assert (∀ {B} (x : result SysError B) c wx, quietly w wx → answers wx x c → w_events w = [] → x = c) as Hans.
  { intros B x c wx (_ & _ & Hx) Ha Hev. by apply (answers_nil _ _ _ Ha), Hx. }
  destruct r2 as [opened|e].
  2: { rewrite Hfo in Hr2. apply HQ; [done..| |].
       - intros raw p' Hev _ _. by pose proof (Hans _ _ _ _ Hq1 Hr2 Hev).
       - intros [= ->]. by destruct Hr2 as [|(_ & c & ?)]. }
  destruct Hr2 as [Hr2|(_ & c & [=])]. rewrite Hfo in Hr2. injection Hr2 as ->.
  apply wp_bind, wp_map_err, wp_on_handle; [apply Hw2|]. intros r3 w3 Hq3 Hf3 Hr3.
  assert (quietly w w3) as Hw3 by by eapply quietly_trans.
  destruct r3 as [u3|e].
  2: { apply HQ; [done|by rewrite Hf3, Hf2|done| |].
       - intros raw p' Hev _ _. by pose proof (Hans _ _ _ _ Hw2 Hr3 Hev).
       - intros [= ->]. by destruct Hr3 as [|(_ & c & ?)]. }
  rewrite Nat.eqb_refl. simpl. apply wp_bind, wp_lift. simpl.
  apply wp_bind, wp_map_err, wp_on_handle; [apply Hw3|]. intros r4 w4 Hq4 Hf4 Hr4.
  assert (quietly w w4) as Hw4 by by eapply quietly_trans.
  assert (w_fs w4 = w_fs w) as Hfs4 by by rewrite Hf4, Hf3, Hf2.
  destruct r4 as [u4|e].
  2: { apply HQ; [done..| |].
       - intros raw p' Hev _ _. by pose proof (Hans _ _ _ _ Hw3 Hr4 Hev).
       - intros [= ->]. by destruct Hr4 as [|(_ & c & ?)]. }
  destruct (maxProfileSize <? Z.of_nat (String.length data)) eqn:Hs; simpl; (apply wp_bind, wp_lift; simpl).
  - apply HQ; [done..| |done]. intros raw p' _ (id' & mode' & Hn' & _ & Hl) _. rewrite Hn in Hn'. simplify_eq. lia.
  - apply wp_lift, HQ; [done..| | |].
    + intros p' Hp'. exists data. split; [|by apply parse_profile_Ok]. exists id, mode. split_and!; [done|lia..].
    + intros raw p' _ (id' & mode' & Hn' & _) Hp'. rewrite Hn in Hn'. simplify_eq. by apply parse_profile_Ok.
    + unfold parse_profile. destruct (decode_profile data); [|done]. destruct (decode_more data) as [[]|]; try done.
      intros Hv. by apply validate_no_sys in Hv.
Qed.

(** ** Saving *)

Lemma wp_CreateTemp dir (Q : result SysError nat → World → Prop) w : calm w →
  (∀ e w', quietly w w' → (w_events w = [] → fs_nodes (w_fs w) !! dir ≠ Some Directory) → Q (Err e) w') →
  (∀ id w', quietly w w' → fs_temps (w_fs w') !! id = Some (RegularFile id 384 "") → Q (Ok id) w') → wp (CreateTemp dir) Q w.
Proof.
  intros Hc Herr Hok. apply wp_syscall; [done|..].
  - intros w' Hc' Hfs Hev. apply Herr; [split_and!; [done|by rewrite Hfs|done]|done].
  - intros w' Hc' Hfs Hev. destruct (follow 40 (w_fs w) dir) as [[]|] eqn:Hfo; simpl in *.
    2: { apply Hok; [split_and!; [done|by rewrite Hfs|done]|]. rewrite Hfs. apply lookup_insert_eq. }
    all: apply Herr; [split_and!; [done|by rewrite Hfs|done]|]; intros _ Hd; by rewrite (follow_Directory _ _ _ Hd) in Hfo.
Qed.

(** The profile as it is written. *)
Definition saved_profile (profile : Profile) : Profile :=
  {| pf_Version := profileVersion; pf_Address := pf_Address profile; pf_Token := pf_Token profile;
     pf_ConfigPath := pf_ConfigPath profile |}.

Section save.
Variables (path : string) (dir : Path) (name : string).
Hypothesis Htrim : TrimSpace path = path.
Hypothesis Habs : IsAbs path = true.
Hypothesis Hpath : resolve cwd path = dir ++ [name].
Hypothesis Hdir : resolve cwd (Dir path) = dir.

Lemma wp_Save profile p' raw (Q : result ProfileError () → World → Prop) w : calm w →
  validate (saved_profile profile) = Ok p' → marshal_profile p' = Some raw →
  (∀ r w', tame [dir ++ [name]] dir w w' →
     (fs_nodes (w_fs w') !! (dir ++ [name]) = fs_nodes (w_fs w) !! (dir ++ [name]) ∧ r ≠ Ok () ∨
      holds (w_fs w') (dir ++ [name]) 384 raw) →
     (w_events w = [] → writable (w_fs w) dir name → r = Ok ()) → Q r w') →
  wp (Save cwd path profile) Q w.
Proof using Htrim Habs Hpath Hdir.
  intros Hc Hv Hm HQ. unfold Save. rewrite Htrim, Hpath, Hdir.
  rewrite bool_decide_eq_false_2 by (intros E; by rewrite E in Habs). rewrite Habs.
  apply wp_bind, wp_lift. simpl. apply wp_bind, wp_lift. simpl.
  apply wp_bind, wp_lift. unfold saved_profile in Hv. rewrite Hv. apply wp_bind, wp_lift. rewrite Hm.
  assert (¬ (dir ++ [name]) `prefix_of` dir) as Hnp by apply snoc_not_prefix.
  apply wp_bind, wp_map_err, wp_MkdirAll; [done|]. intros r1 w1 Ht1 Hok1 Hd1.
  assert (fs_nodes (w_fs w1) !! (dir ++ [name]) = fs_nodes (w_fs w) !! (dir ++ [name])) as Hn1.
  { eapply tame_node; [exact Ht1|set_solver|done]. }
  assert (tame [dir ++ [name]] dir w w1) as Ht1' by (eapply tame_mono; [| |exact Ht1]; [set_solver|done]).
  destruct r1 as [[]|e].
  2: { apply HQ; [done|by left|]. intros Hev [Hp _]. by specialize (Hok1 Hev Hp). }
  apply wp_bind, wp_try, wp_Lstat; [apply Ht1|]. intros r2 w2 Hq2 Hf2 Hr2.
  assert (tame [dir ++ [name]] dir w w2) as Ht2 by (eapply (tame_trans _ _ _ w1); [exact Ht1'|by apply quietly_tame]).
  apply wp_bind, wp_lift.
  set (orig := match r2 with Ok (RegularFile _ _ _ as info) => _ | Ok _ => _ | Err ENOENT => _ | Err e => _ end).
  assert (w_events w = [] → writable (w_fs w) dir name → orig = Ok (fs_nodes (w_fs w) !! (dir ++ [name]))) as Horig.
  { intros Hev [_ Hreg]. subst orig. rewrite (answers_nil _ _ _ Hr2 (proj2 (proj2 Ht1) Hev)). unfold lookup_node. rewrite Hn1.
    by destruct (fs_nodes (w_fs w) !! (dir ++ [name])) as [[]|]. }
  destruct orig as [original|e].
  2: { apply HQ; [done|left; by rewrite Hf2|]. intros Hev Hw. by specialize (Horig Hev Hw). }
  assert (w_events w = [] → w_events w2 = []) as Hev2 by apply Ht2.
  apply wp_bind, wp_map_err, wp_CreateTemp; [apply Ht2|..].
  - intros e w3 Hq3 Hnd. apply HQ.
    + eapply (tame_trans _ _ _ w2); [exact Ht2|by apply quietly_tame].
    + left. destruct Hq3 as (_ & -> & _). by rewrite Hf2.
    + intros Hev [Hp _]. exfalso. apply (Hnd (Hev2 Hev)). rewrite Hf2. by apply Hd1.
  - intros id w3 Hq3 Htemp. apply wp_map_err, (wp_fill id original _ dir 384 raw); [apply Hq3|done|].
    destruct Hq3 as (Hc3 & Hn3 & Hev3). rewrite Hn3, Hf2, Hn1. intros r4 w4 Ht4 Hrep Hok4.
    apply HQ.
    + eapply (tame_trans _ _ _ w2); [exact Ht2|]. eapply (tame_trans _ _ _ w3); [|exact Ht4].
      apply quietly_tame. split_and!; [done|by rewrite Hn3|done].
    + unfold replaced in Hrep. rewrite Hn3, Hf2, Hn1 in Hrep. destruct Hrep as [[E N]|Hh]; [left|by right].
      split; [done|]. by destruct r4 as [[]|].
    + intros Hev Hw. assert (r4 = Ok ()) as ->; [|done]. pose proof Hw as [Hp Hreg].
      apply Hok4; [auto| | |by apply Hd1|].
      * specialize (Horig Hev Hw). by injection Horig.
      * specialize (Horig Hev Hw). injection Horig as ->. unfold regular_or_none.
        by destruct (fs_nodes (w_fs w) !! (dir ++ [name])) as [[]|].
      * intros E. apply Hnp. by rewrite <-E.
Qed.
End save.
End spec.

(** A profile that is loaded names a daemon of this machine, has a token,
    and comes from a regular file that nobody else may read. *)
Theorem loaded_profile_is_local {urls : UrlLib} {yaml : ProfileYaml} cwd path w :
  calm w → TrimSpace path ≠ "" →
  wp (Load cwd path) (λ r _, ∀ p, r = Ok p → local_profile p ∧ trimmed p ∧
    ∃ raw, private_file (w_fs w) (resolve cwd (TrimSpace path)) raw ∧ profile_text raw p) w.
Proof.
  intros Hc Hne. apply wp_Load; [done..|]. intros r w' _ _ H _ _ p Hp. destruct (H p Hp) as (raw & Hf & Ht).
  pose proof Ht as (q & _ & _ & Hv). destruct (validate_ok _ _ Hv) as (? & ? & _). split_and!; [done..|]. by exists raw.
Qed.

(** What is printed is read back, and no other document follows. *)
Definition yaml_roundtrip {yaml : ProfileYaml} : Prop :=
  ∀ p raw, marshal_profile p = Some raw → decode_profile raw = Ok p ∧ decode_more raw = Ok false.

(** A saved profile is the one that is loaded afterwards; a save that fails
    leaves the old file, or the new profile in full. *)
Theorem saved_profile_loads {urls : UrlLib} {yaml : ProfileYaml} cwd cs name profile p' raw w :
  let path := render true (cs ++ [name]) in
  yaml_roundtrip → rooted_elements (cs ++ [name]) → TrimSpace path = path → calm w →
  validate (saved_profile profile) = Ok p' → TrimSpace (pf_Address p') = pf_Address p' →
  marshal_profile p' = Some raw → Z.of_nat (String.length raw) ≤ maxProfileSize →
  wp (Save cwd path profile) (λ r w1,
    (fs_nodes (w_fs w1) !! (cs ++ [name]) = fs_nodes (w_fs w) !! (cs ++ [name]) ∧ r ≠ Ok () ∨
     wp (Load cwd path) (λ r2 _, (∀ q, r2 = Ok q → q = p') ∧ (w_events w1 = [] → r2 = Ok p')) w1) ∧
    (w_events w = [] → writable (w_fs w) cs name → r = Ok ())) w.
Proof.
  intros path Hyaml Hroot Htrim Hc Hv Haddr Hm Hsize.
  assert (rooted_elements cs) as Hcs by by apply Forall_app in Hroot as [? _].
  assert (resolve cwd path = cs ++ [name]) as Hres by (rewrite resolve_abs by done; by apply elements_render).
  assert (resolve cwd (Dir path) = cs) as Hdir.
  { unfold path. rewrite Dir_render, resolve_abs by done. by apply elements_render. }
  destruct (validate_ok _ _ Hv) as (Hl & Ht & _).
  assert (profile_text raw p') as Htext.
  { destruct (Hyaml p' raw Hm). exists p'. split_and!; [done..|]. by apply validate_local. }
  apply (wp_Save cwd path cs name Htrim eq_refl Hres Hdir profile p' raw); [done..|].
  intros r w1 Ht1 Hrep Hok. split; [|done]. destruct Hrep as [?|[id Hh]]; [by left|right].
  assert (path ≠ "") as Hne by done.
  apply wp_Load; [by destruct Ht1|by rewrite Htrim|]. rewrite Htrim, Hres. intros r2 w2 _ _ Hpost Hpre _.
  assert (private_file (w_fs w1) (cs ++ [name]) raw) as Hpriv by by exists id, 384.
  split; [|intros Hev; by eapply Hpre].
  intros q Hq. destruct (Hpost q Hq) as (raw' & (id' & mode' & Hn & _) & (q' & Hd & _ & Hv')).
  rewrite Hh in Hn. simplify_eq. destruct Htext as (q'' & Hd' & _ & Hv''). congruence.
Qed.

(** A library for examples: the text is the token, the address is fixed. *)
Definition plain_host : Host := {| GOOS := "linux"; Getenv _ := ""; UserHomeDir := Ok "/root" |}.
Definition plain_urls : UrlLib := {| url_Parse s :=
  if HasPrefix s "http://" then
    Some {| u_Scheme := "http"; u_User := false; u_Host := of_list (drop 7 (to_list s)); u_Path := ""; u_RawQuery := "";
            u_Fragment := "" |} else None |}.
Definition plain_yaml : ProfileYaml := {|
  decode_profile raw := match Split raw (byte 10) with
    | ["1"; address; token; config] => Ok {| pf_Version := 1; pf_Address := address; pf_Token := token; pf_ConfigPath := config |}
    | _ => Err "fields" end;
  decode_more raw := Ok false;
  marshal_profile p :=
    if (pf_Version p =? 1) && forallb (λ s, negb (has_char (byte 10) (to_list s))) [pf_Address p; pf_Token p; pf_ConfigPath p]
    then Some (Netip.join (String (byte 10) "") ["1"; pf_Address p; pf_Token p; pf_ConfigPath p])
    else None
|}.

Lemma plain_yaml_roundtrip : @yaml_roundtrip plain_yaml.
Proof.
  intros p raw. unfold yaml_roundtrip, marshal_profile, decode_profile, decode_more, plain_yaml.
  destruct (_ && _) eqn:E; [|done]. intros [= <-]. apply andb_true_iff in E as [Hv Hall]. apply Z.eqb_eq in Hv.
  assert (∀ s, negb (has_char (byte 10) (to_list s)) = true → byte 10 ∉ to_list s) as Hno.
  { intros s Hs Hin. apply negb_true_iff in Hs. apply not_true_iff_false in Hs. apply Hs. unfold has_char.
    apply existsb_exists. exists (byte 10). split; [by apply list_elem_of_In|by apply bool_decide_eq_true]. }
  simpl in Hall. rewrite !andb_true_iff in Hall. destruct Hall as (Ha & Ht & Hc & _).
  assert (Forall (λ s, byte 10 ∉ to_list s) ["1"; pf_Address p; pf_Token p; pf_ConfigPath p]) as Hsep.
  { repeat constructor; auto.  }
  split; [|done]. pose proof (Split_join ["1"; pf_Address p; pf_Token p; pf_ConfigPath p] (byte 10) ltac:(done) Hsep) as E. 
  match goal with |- match ?x with _ => _ end = _ => change x with (Split (Netip.join (String (byte 10) "") ["1"; pf_Address p; pf_Token p; pf_ConfigPath p]) (byte 10)) end.
  rewrite E. by destruct p; simpl in *; subst.
Qed.

Definition demo_profile : Profile :=
  {| pf_Version := 0; pf_Address := " http://127.0.0.1:19090/ "; pf_Token := "secret "; pf_ConfigPath := "" |}.
Definition demo_saved : Profile :=
  {| pf_Version := 1; pf_Address := "http://127.0.0.1:19090"; pf_Token := "secret"; pf_ConfigPath := "" |}.
Definition demo_raw : string := Netip.join (String (byte 10) "") ["1"; "http://127.0.0.1:19090"; "secret"; ""].

Lemma loaded_profile_is_local_witness :
  let d := set_node ["p"] (Some (RegularFile 7 384 demo_raw)) empty_fs in
  (@Load plain_urls plain_yaml [] " /p" (quiet d)).1 = Ok demo_saved ∧
  wp (@Load plain_urls plain_yaml [] " /p") (λ r _, ∀ p, r = Ok p → @local_profile plain_urls p ∧ trimmed p ∧
    ∃ raw, private_file (w_fs (quiet d)) (resolve [] (TrimSpace " /p")) raw ∧ @profile_text plain_urls plain_yaml raw p) (quiet d).
Proof.
  intros d. split; [vm_compute; reflexivity|]. apply loaded_profile_is_local; [apply calm_nil|]. vm_compute. discriminate.
Defined.

Lemma saved_profile_loads_witness :
  let w := quiet empty_fs in
  (@Save plain_urls plain_yaml [] "/home/client.yaml" demo_profile w).1 = Ok () ∧
  wp (@Save plain_urls plain_yaml [] "/home/client.yaml" demo_profile) (λ r w1,
    (fs_nodes (w_fs w1) !! ["home"; "client.yaml"] = fs_nodes (w_fs w) !! ["home"; "client.yaml"] ∧ r ≠ Ok () ∨
     wp (@Load plain_urls plain_yaml [] "/home/client.yaml")
       (λ r2 _, (∀ q, r2 = Ok q → q = demo_saved) ∧ (w_events w1 = [] → r2 = Ok demo_saved)) w1) ∧
    (w_events w = [] → writable (w_fs w) ["home"] "client.yaml" → r = Ok ())) w.
Proof.
  intros w. split; [vm_compute; reflexivity|].
  apply (@saved_profile_loads plain_urls plain_yaml [] ["home"] "client.yaml" demo_profile demo_saved demo_raw w).
  - exact plain_yaml_roundtrip.
  - apply (elements_rooted "/home/client.yaml"). reflexivity.
  - vm_compute. reflexivity.
  - apply calm_nil.
  - vm_compute. reflexivity.
  - vm_compute. reflexivity.
  - vm_compute. reflexivity.
  - vm_compute. discriminate.
Defined.
