(* ===== verification/Updater.v ===== *)
(** * Update checks and self-update (internal/updater, cmd/vmflow/main.go)

    Version comparison, the cache of the last check, the release of the hosting
    service, the verified installation and the command.  The web, JSON, tar with
    gzip and the clock are parameters.  The private directory an archive is
    downloaded to is not part of the file system: its files are values. *)

From S2P Require Import Prelude GoStrings NetIP FileIO GoPath Appdirs CertPath.

(** ** Versions (version.go) *)

(** The number [strconv.Atoi] returns, also with an error: what does not parse is
    0, what is out of range the nearest bound. *)
Definition Atoi (s : string) : Z :=
  let signed := match s with
    | String "-" s => Z.opp <$> parse_digits s
    | String "+" s => parse_digits s
    | _ => parse_digits s
    end in
  match signed with None => 0 | Some v => Z.max int64_min (Z.min int64_max v) end.

Definition part (parts : list string) (i : nat) : Z := match parts !! i with Some s => Atoi s | None => 0 end.
Fixpoint compare_from (aParts bParts : list string) (i n : nat) : Z :=
  match n with
  | O => 0
  | S n =>
      let ai := part aParts i in
      let bi := part bParts i in
      if ai <? bi then -1 else if bi <? ai then 1 else compare_from aParts bParts (S i) n
  end.
Definition compareVersions (a b : string) : Z :=
  let aParts := Split a "." in
  let bParts := Split b "." in
  compare_from aParts bParts 0 (Nat.max (length aParts) (length bParts)).
Definition stripVersionPrefix (v : string) : string := TrimPrefix v "v".

(** ** The cache of the last check (cache.go) *)

Definition cacheFileName : string := "update-check.json".
Record CacheFile := { uc_LastCheck : option Z; uc_LatestVersion : string }.    (* [None]: the zero time *)
Definition zero_cache : CacheFile := {| uc_LastCheck := None; uc_LatestVersion := "" |}.
Class CacheCodec := { cache_unmarshal : string → option CacheFile; cache_marshal : CacheFile → string }.

(** ** Releases *)

Record Asset := { as_Name : string; as_URL : string; as_Size : Z }.
Record Release := { rl_TagName : string; rl_Assets : list Asset }.
Record HttpResponse := { StatusCode : Z; Body : string }.
(** Answers of the web, the decoded release, and the entries of an archive: the name,
    whether it is a regular file, and the content. *)
Class Web := {
  http_get : string → result string HttpResponse;
  decode_release : string → option Release;
  tar_entries : string → result string (list (string * bool * string));
}.

Record CheckResult := { cr_CurrentVersion : string; cr_LatestVersion : string; cr_UpdateAvailable : bool; cr_Release : option Release }.
Record UpdaterConfig := {
  up_Repo : string; up_BinaryName : string; up_CurrentVer : string; up_CacheDir : string; up_CacheTTL : Z }.

Inductive UpdateError :=
| RequestFailed (e : string) | RateLimited | ApiStatus (code : Z) | DecodeFailed
| DownloadFailed | DownloadStatus (code : Z) | NoChecksumsAsset | ChecksumsFailed | NoChecksum (name : string)
| ChecksumMismatch (name : string) | BinaryNotFound | ArchiveError (e : string) | NoSelfPath
| UpdateSys (what : string) (e : SysError) | TempChanged
| TaggedBuildNeeded | ReleaseUnavailable.

Definition DefaultCacheTTL : Z := 24 * 3600 * 1000000000.
Definition githubAPIBase : string := "https://api.github.com".

Section updater.
Context `{!Host, !CacheCodec, !Web, !Sha256} (cwd : Path).

(** [os.TempDir] on Unix. *)
Definition TempDir : string := if bool_decide (Getenv "TMPDIR" = "") then "/tmp" else Getenv "TMPDIR".
Definition CacheDir : string :=
  if bool_decide (Getenv "XDG_CACHE_HOME" ≠ "") then Join [Getenv "XDG_CACHE_HOME"; "vmflow"]
  else match UserHomeDir with
  | Err _ => Join [TempDir; "vmflow"]
  | Ok home => Join [home; ".cache"; "vmflow"]
  end.
Definition cacheFilePath (dir : string) : string :=
  let dir := TrimSpace dir in
  Join [if bool_decide (dir = "") then CacheDir else dir; cacheFileName].
Definition CacheFilePath : string := cacheFilePath "".

Definition ReadCacheAt {E} (dir : string) : IO World E CacheFile :=
  try (ReadFile (resolve cwd (cacheFilePath dir))) ≫= λ r,
  mret (match r with
        | Err _ => zero_cache
        | Ok data => default zero_cache (cache_unmarshal data)
        end).
Definition WriteCacheAt (dir : string) (cf : CacheFile) : IO World SysError () :=
  let path := cacheFilePath dir in
  MkdirAll (resolve cwd (Dir path)) ≫= λ _,
  WriteFile (resolve cwd path) (cache_marshal cf) 420.
Definition ReadCache {E} : IO World E CacheFile := ReadCacheAt "".
Definition WriteCache (cf : CacheFile) : IO World SysError () := WriteCacheAt "" cf.
(** [now] is [time.Now()]. *)
Definition ShouldCheck (now : Z) (cf : CacheFile) (ttl : Z) : bool :=
  match uc_LastCheck cf with None => true | Some last => ttl <? now - last end.

(** ** Checking (updater.go, github.go) *)

Definition New (cfg : UpdaterConfig) : UpdaterConfig := {|
  up_Repo := up_Repo cfg;
  up_BinaryName := if bool_decide (up_BinaryName cfg = "") then "vmflow" else up_BinaryName cfg;
  up_CurrentVer := up_CurrentVer cfg;
  up_CacheDir := if bool_decide (up_CacheDir cfg = "") then CacheDir else up_CacheDir cfg;
  up_CacheTTL := if up_CacheTTL cfg =? 0 then DefaultCacheTTL else up_CacheTTL cfg |}.

Definition fetchRelease (url : string) : result UpdateError Release :=
  match http_get url with
  | Err e => Err (RequestFailed e)
  | Ok resp =>
      check (StatusCode resp =? 403) RateLimited ≫= λ _,
      check (negb (StatusCode resp =? 200)) (ApiStatus (StatusCode resp)) ≫= λ _,
      match decode_release (Body resp) with Some release => Ok release | None => Err DecodeFailed end
  end.
Definition fetchLatestRelease (cfg : UpdaterConfig) : result UpdateError Release :=
  fetchRelease (githubAPIBase +:+ "/repos/" +:+ up_Repo cfg +:+ "/releases/latest").
Definition fetchReleaseByTag (cfg : UpdaterConfig) (tag : string) : result UpdateError Release :=
  fetchRelease (githubAPIBase +:+ "/repos/" +:+ up_Repo cfg +:+ "/releases/tags/" +:+ tag).

Definition check_result (cfg : UpdaterConfig) (latest : string) (release : option Release) : CheckResult :=
  let current := stripVersionPrefix (up_CurrentVer cfg) in
  let unknownCurrent := bool_decide (current = "") || bool_decide (current = "dev") in
  {| cr_CurrentVersion := current; cr_LatestVersion := latest;
     cr_UpdateAvailable := unknownCurrent || (compareVersions current latest <? 0); cr_Release := release |}.

Definition CheckForUpdate (now : Z) (cfg : UpdaterConfig) : IO World UpdateError CheckResult :=
  ReadCacheAt (up_CacheDir cfg) ≫= λ cache,
  if negb (ShouldCheck now cache (up_CacheTTL cfg)) && negb (bool_decide (uc_LatestVersion cache = ""))
  then mret (check_result cfg (stripVersionPrefix (uc_LatestVersion cache)) None)
  else match fetchLatestRelease cfg with
  | Err e =>
      if negb (bool_decide (uc_LatestVersion cache = ""))
      then mret (check_result cfg (stripVersionPrefix (uc_LatestVersion cache)) None)
      else fail e
  | Ok release =>
      try (WriteCacheAt (up_CacheDir cfg) {| uc_LastCheck := Some now; uc_LatestVersion := rl_TagName release |}) ≫= λ _,
      mret (check_result cfg (stripVersionPrefix (rl_TagName release)) (Some release))
  end.

Definition CheckSpecificVersion (cfg : UpdaterConfig) (tag : string) : IO World UpdateError CheckResult :=
  lift (fetchReleaseByTag cfg tag) ≫= λ release,
  mret {| cr_CurrentVersion := stripVersionPrefix (up_CurrentVer cfg);
          cr_LatestVersion := stripVersionPrefix (rl_TagName release);
          cr_UpdateAvailable := compareVersions (stripVersionPrefix (up_CurrentVer cfg)) (stripVersionPrefix tag) <? 0;
          cr_Release := Some release |}.

(** ** Installing *)

Definition upsys {A} (what : string) (m : IO World SysError A) : IO World UpdateError A := map_err (UpdateSys what) m.

(** [downloadFile]: what the file in the private directory holds. *)
Definition downloadFile (url : string) : IO World UpdateError string :=
  match http_get url with
  | Err _ => fail DownloadFailed
  | Ok resp =>
      if negb (StatusCode resp =? 200) then fail (DownloadStatus (StatusCode resp))
      else
        upsys "create" (on_handle "create") ≫= λ _,
        upsys "write" (on_handle "write") ≫= λ _, mret (Body resp)
  end.

(** [strings.SplitN(line, "  ", 2)], when it has two parts. *)
Fixpoint cut_two_spaces (l : list ascii) : option (list ascii * list ascii) :=
  match l with
  | " "%char :: (" "%char :: rest) => Some ([], rest)
  | c :: l => '(a, b) ← cut_two_spaces l; Some (c :: a, b)
  | [] => None
  end.
Definition checksum_line (checksums : gmap string string) (line : string) : gmap string string :=
  let line := TrimSpace line in
  match cut_two_spaces (to_list line) with
  | Some (hash, name) => <[TrimSpace (of_list name) := TrimSpace (of_list hash)]> checksums
  | None => checksums
  end.
Definition parse_checksums (data : string) : gmap string string := foldl checksum_line ∅ (Split data (byte 10)).

Definition releaseURL (cfg : UpdaterConfig) (release : Release) (name : string) : string :=
  "https://github.com/" +:+ up_Repo cfg +:+ "/releases/download/" +:+ rl_TagName release +:+ "/" +:+ name.

Definition fetchChecksums (cfg : UpdaterConfig) (release : Release) : result UpdateError (gmap string string) :=
  check (negb (existsb (λ asset, bool_decide (as_Name asset = "checksums.txt")) (rl_Assets release))) NoChecksumsAsset ≫= λ _,
  match http_get (releaseURL cfg release "checksums.txt") with
  | Err _ => Err ChecksumsFailed
  | Ok resp =>
      check (negb (StatusCode resp =? 200)) ChecksumsFailed ≫= λ _,
      Ok (parse_checksums (of_list (take (Z.to_nat (64 * 1024)) (to_list (Body resp)))))
  end.

Definition VerifySHA256 (content expectedHex : string) : IO World UpdateError bool :=
  upsys "open" (on_handle "open") ≫= λ _,
  upsys "read" (on_handle "read") ≫= λ _, mret (bool_decide (sha256 content = expectedHex)).

(** The loop over the entries: the first regular file of that name. *)
Fixpoint find_binary (binaryName : string) (entries : list (string * bool * string)) : option string :=
  match entries with
  | [] => None
  | (name, regular, content) :: entries =>
      if negb (bool_decide (Base name = binaryName)) then find_binary binaryName entries
      else if negb regular then find_binary binaryName entries
      else Some content
  end.
Definition ExtractBinaryFromTarGz (archive binaryName : string) : IO World UpdateError string :=
  upsys "open" (on_handle "open") ≫= λ _,
  match tar_entries archive with
  | Err e => fail (ArchiveError e)
  | Ok entries =>
      match find_binary binaryName entries with
      | None => fail BinaryNotFound
      | Some content =>
          upsys "create" (on_handle "create") ≫= λ _,
          upsys "write" (on_handle "write") ≫= λ _, mret content
      end
  end.

(** [newBinary] is the content of the extracted file. *)
Definition AtomicReplace (newBinary : string) (currentBinary : string) : IO World UpdateError () :=
  let dir := resolve cwd (Dir currentBinary) in
  upsys "open" (on_handle "open") ≫= λ _,
  upsys "createtemp" (CreateTemp dir) ≫= λ tmp,
  let cleanup := try (RemoveTemp tmp) ≫= λ _, mret () in
  or_cleanup (upsys "copy" (WriteTemp tmp newBinary)) (try (on_handle "close") ≫= λ _ : result SysError (), cleanup) ≫= λ _,
  or_cleanup (upsys "close" (on_handle "close")) cleanup ≫= λ _,
  or_cleanup (upsys "chmod" (ChmodTemp tmp 493)) cleanup ≫= λ _,
  or_cleanup (map_err (λ _, TempChanged) (on_handle "lstat")) cleanup ≫= λ _,
  or_cleanup (upsys "rename" (RenameTemp tmp (resolve cwd currentBinary))) cleanup.

(** GOOS and GOARCH of the running binary. *)
Definition archiveName (goarch : string) (cfg : UpdaterConfig) (tag : string) : string :=
  up_BinaryName cfg +:+ "-" +:+ stripVersionPrefix tag +:+ "-" +:+ GOOS +:+ "-" +:+ goarch +:+ ".tar.gz".

(** [SelfPath]; [exe] is the answer of [os.Executable]. *)
Definition SelfPath (exe : option string) : IO World UpdateError string :=
  match exe with
  | None => fail NoSelfPath
  | Some exe => try (EvalSymlinks (resolve cwd exe)) ≫= λ r, mret (match r with Ok p => render true p | Err _ => exe end)
  end.

Definition DownloadAndInstall (goarch : string) (exe : option string) (cfg : UpdaterConfig) (release : Release) : IO World UpdateError () :=
  let name := archiveName goarch cfg (rl_TagName release) in
  upsys "mkdirtemp" (on_handle "mkdirtemp") ≫= λ _,
  downloadFile (releaseURL cfg release name) ≫= λ archive,
  lift (fetchChecksums cfg release) ≫= λ checksums,
  match checksums !! name with
  | None => fail (NoChecksum name)
  | Some expectedHash =>
      VerifySHA256 archive expectedHash ≫= λ ok,
      if negb ok then fail (ChecksumMismatch name)
      else
        ExtractBinaryFromTarGz archive (up_BinaryName cfg) ≫= λ extracted,
        SelfPath exe ≫= λ selfPath,
        AtomicReplace extracted selfPath
  end.

(** ** The command (cmd/vmflow/main.go) *)

Definition normalizeReleaseTag (v : string) : string :=
  let v := TrimSpace v in
  if bool_decide (v = "") || EqualFold v "dev" then v
  else if negb (HasPrefix v "v") then "v" +:+ v else v.
Definition formatReleaseTag (v : string) : string :=
  let v := TrimSpace v in
  if bool_decide (v = "") then "unknown" else if EqualFold v "dev" then v else normalizeReleaseTag v.

Inductive UpdateOutcome :=
| TargetAvailable (latest current : string) | UpdateIsAvailable (latest current : string)
| RequestedCurrent (latest : string) | RequestedNotNewer (latest current : string) | IsCurrent (current : string)
| Installed (current latest : string).

(** [writeUpdateCheck]. *)
Definition update_check (result : CheckResult) (specific : bool) : UpdateOutcome :=
  let latest := formatReleaseTag (cr_LatestVersion result) in
  let current := formatReleaseTag (cr_CurrentVersion result) in
  if cr_UpdateAvailable result && specific then TargetAvailable latest current
  else if cr_UpdateAvailable result then UpdateIsAvailable latest current
  else if specific && bool_decide (normalizeReleaseTag (cr_CurrentVersion result) = normalizeReleaseTag (cr_LatestVersion result))
  then RequestedCurrent latest
  else if specific then RequestedNotNewer latest current
  else IsCurrent current.

Definition runUpdate (now : Z) (goarch : string) (exe : option string) (version : string) (checkOnly : bool) (targetVersion : string) :
    IO World UpdateError UpdateOutcome :=
  if negb checkOnly && bool_decide (targetVersion = "") && EqualFold (TrimSpace version) "dev" then fail TaggedBuildNeeded
  else
    let client := New {| up_Repo := "cloudapp3/vmflow"; up_BinaryName := "vmflow"; up_CurrentVer := version;
                         up_CacheDir := CacheDir; up_CacheTTL := 0 |} in
    let targetTag := normalizeReleaseTag targetVersion in
    let specific := negb (bool_decide (targetTag = "")) in
    (if specific then CheckSpecificVersion client targetTag else CheckForUpdate now client) ≫= λ result,
    if checkOnly then mret (update_check result specific)
    else if negb (cr_UpdateAvailable result) then
      if specific && bool_decide (normalizeReleaseTag (cr_CurrentVersion result) = normalizeReleaseTag (cr_LatestVersion result))
      then mret (RequestedCurrent (formatReleaseTag (cr_LatestVersion result)))
      else if specific
      then mret (RequestedNotNewer (formatReleaseTag (cr_LatestVersion result)) (formatReleaseTag (cr_CurrentVersion result)))
      else mret (IsCurrent (formatReleaseTag (cr_CurrentVersion result)))
    else match cr_Release result with
    | None => fail ReleaseUnavailable
    | Some release =>
        DownloadAndInstall goarch exe client release ≫= λ _,
        mret (Installed (formatReleaseTag (cr_CurrentVersion result)) (formatReleaseTag (cr_LatestVersion result)))
    end.
End updater.
