(* ===== verification/UpdaterSpec.v ===== *)
(** * Update checks and self-update: what they guarantee *)

From S2P Require Import Prelude GoStrings NetIP FileIO GoPath Appdirs CertPath CertPathSpec ClientConfig ClientConfigSpec Updater.

(** ** Versions *)

(** The order of the zero-padded sequences of the numbers. *)
Definition version_lt (a b : string) : Prop :=
  ∃ i, (∀ j, (j < i)%nat → part (Split a ".") j = part (Split b ".") j) ∧ part (Split a ".") i < part (Split b ".") i.
Definition version_eq (a b : string) : Prop := ∀ i, part (Split a ".") i = part (Split b ".") i.

Lemma part_beyond parts i : (length parts ≤ i)%nat → part parts i = 0.
Proof. intros H. unfold part. by rewrite (proj2 (lookup_ge_None _ _)). Qed.

Section compare.
Variables (A B : list string).
Local Notation agree_to i := (∀ j, (j < i)%nat → part A j = part B j).

Lemma compare_from_spec n i : agree_to i → (length A ≤ i + n)%nat → (length B ≤ i + n)%nat →
  (compare_from A B i n = -1 ∧ ∃ k, agree_to k ∧ part A k < part B k) ∨
  (compare_from A B i n = 1 ∧ ∃ k, agree_to k ∧ part B k < part A k) ∨
  (compare_from A B i n = 0 ∧ ∀ k, part A k = part B k).
Proof.
  revert i. induction n as [|n IH]; intros i Hi HA HB; cbn [compare_from].
  - right. right. split; [done|]. intros k. destruct (decide (k < i)%nat); [auto|]. by rewrite !part_beyond by lia.
  - destruct (part A i <? part B i) eqn:H1; [|destruct (part B i <? part A i) eqn:H2].
    + left. split; [done|]. exists i. split; [done|lia].
    + right. left. split; [done|]. exists i. split; [done|lia].
    + apply IH; [|lia..]. intros j Hj. destruct (decide (j = i)) as [->|]; [lia|apply Hi; lia].
Qed.
Lemma lt_not_eq k : part A k < part B k → ¬ (∀ k, part A k = part B k).
Proof. intros H E. specialize (E k). lia. Qed.
Lemma lt_asym k k' : agree_to k → part A k < part B k → agree_to k' → part B k' < part A k' → False.
Proof.
  intros Ha Hl Ha' Hl'. destruct (decide (k < k')%nat); [rewrite (Ha' k) in Hl by done; lia|].
  destruct (decide (k' < k)%nat); [rewrite (Ha k') in Hl' by done; lia|]. assert (k = k') as -> by lia. lia.
Qed.
End compare.

(** [compareVersions] is the lexicographic order of the numbers of the parts,
    padded with zeros: -1, 0 and 1 for smaller, equal and greater. *)
Theorem compare_versions_exact a b :
  (compareVersions a b = -1 ↔ version_lt a b) ∧ (compareVersions a b = 1 ↔ version_lt b a) ∧
  (compareVersions a b = 0 ↔ version_eq a b).
Proof.
  unfold compareVersions. set (A := Split a "."). set (B := Split b ".").
  destruct (compare_from_spec A B (Nat.max (length A) (length B)) 0) as [[-> (k & Hk & Hl)]|[[-> (k & Hk & Hl)]|[-> He]]];
    [intros; lia|lia|lia|..]; unfold version_lt, version_eq; fold A B.
  - split_and!; (split; [|]); try done; try lia.
    + intros _. by exists k.
    + intros (k' & Hk' & Hl'). exfalso. eapply (lt_asym A B k k'); [done..| |done]. intros. symmetry. auto.
    + intros He. by destruct (lt_not_eq A B k).
  - split_and!; (split; [|]); try done; try lia.
    + intros (k' & Hk' & Hl'). exfalso. by eapply (lt_asym A B k' k).
    + intros _. exists k. split; [|done]. intros. symmetry. auto.
    + intros He. specialize (He k). lia.
  - split_and!; (split; [|]); try done; try lia.
    + intros (k' & _ & Hl'). specialize (He k'). lia.
    + intros (k' & _ & Hl'). specialize (He k'). lia.
Qed.

(** A release candidate is older than any patch release before it. *)
Lemma prerelease_part_is_zero : compareVersions "1.2.3-rc1" "1.2.1" = -1 ∧ compareVersions "1.2.3-rc1" "1.2.0" = 0 ∧
  compareVersions "1.10" "1.9.9" = 1 ∧ compareVersions "1.2" "1.2.0" = 0.
Proof. by vm_compute. Qed.

Section spec.
Context {host : Host} {codec : CacheCodec} {web : Web} {sha : Sha256} (cwd : Path).

(** ** The cache *)

(** The cache file holds a check that is not old enough to be repeated. *)
Definition fresh_cache (now : Z) (d : FS) (latest : string) : Prop :=
  ∃ data last, (n ← follow 40 d (resolve cwd (cacheFilePath CacheDir)); read_node n) = Ok data ∧
    cache_unmarshal data = Some {| uc_LastCheck := Some last; uc_LatestVersion := latest |} ∧
    now - last ≤ DefaultCacheTTL ∧ latest ≠ "".

Lemma wp_ReadCacheAt {E} dir (Q : result E CacheFile → World → Prop) w : calm w →
  (∀ cf w', quietly w w' → w_fs w' = w_fs w →
     (w_events w = [] → ∀ data, (n ← follow 40 (w_fs w) (resolve cwd (cacheFilePath dir)); read_node n) = Ok data →
        cf = default zero_cache (cache_unmarshal data)) → Q (Ok cf) w') → wp (ReadCacheAt cwd dir) Q w.
Proof.
  intros Hc HQ. apply wp_bind, wp_try, wp_read; [done|done|]. intros r w' Hq Hf Hr. apply wp_ret, HQ; [done..|].
  intros Hev data Hd. rewrite (answers_nil _ _ _ Hr Hev). cbn [fst]. by rewrite Hd.
Qed.

(** While a check of the last 24 hours is in the cache, the update command
    installs nothing: it says that the version is current, or fails because it
    has no release, although an update is known. *)
Theorem fresh_cache_blocks_update now goarch exe version latest w :
  w_events w = [] → fresh_cache now (w_fs w) latest → EqualFold (TrimSpace version) "dev" = false →
  wp (runUpdate cwd now goarch exe version false "") (λ r w',
    fs_nodes (w_fs w') = fs_nodes (w_fs w) ∧
    ((r = Err ReleaseUnavailable ∧ cr_UpdateAvailable (check_result
        {| up_Repo := ""; up_BinaryName := ""; up_CurrentVer := version; up_CacheDir := ""; up_CacheTTL := 0 |}
        (stripVersionPrefix latest) None) = true) ∨
     r = Ok (IsCurrent (formatReleaseTag (stripVersionPrefix version))))) w.
Proof.
  intros Hev (data & last & Hread & Hdata & Httl & Hlatest) Hdev.
  assert (calm w) as Hc by (unfold calm; by rewrite Hev).
  unfold runUpdate. rewrite Hdev, andb_false_r. cbn [negb].
  assert (normalizeReleaseTag "" = "") as -> by by vm_compute. rewrite bool_decide_eq_true_2 by done. cbn [negb].
  apply wp_bind. unfold CheckForUpdate. unfold New. cbn [up_CacheDir up_CacheTTL up_Repo up_BinaryName up_CurrentVer].
  change (0 =? 0) with true. cbv iota. replace (if bool_decide (CacheDir = "") then CacheDir else CacheDir) with CacheDir by by case_bool_decide.
  apply wp_bind, wp_ReadCacheAt; [done|]. intros cf w1 Hq1 Hf1 Hcf. rewrite (Hcf Hev data Hread), Hdata. unfold default.
  assert (ShouldCheck now {| uc_LastCheck := Some last; uc_LatestVersion := latest |} DefaultCacheTTL = false) as Hs.
  { unfold ShouldCheck. cbn [uc_LastCheck]. lia. }
  simpl. rewrite Hs. rewrite (bool_decide_eq_false_2 (latest = "")) by done. cbn [negb andb].
  apply wp_ret. unfold check_result. cbn [cr_UpdateAvailable up_CurrentVer cr_Release cr_CurrentVersion].
  destruct (_ || _) eqn:Ha; cbn [negb].
  - apply wp_fail. split; [by rewrite Hf1|]. by left.
  - apply wp_ret. split; [by rewrite Hf1|]. by right.
Qed.

(** ** The installation *)

(** The file [p] has this content, with the mode of a program, and everything else
    is as before; or nothing changed and an error is reported. *)
Definition installs (p : Path) (binary : string) (r : result UpdateError ()) (w w' : World) : Prop :=
  (r ≠ Ok () ∧ fs_nodes (w_fs w') = fs_nodes (w_fs w)) ∨
  (r = Ok () ∧ holds (w_fs w') p 493 binary ∧ ∀ q, q ≠ p → fs_nodes (w_fs w') !! q = fs_nodes (w_fs w) !! q).

Lemma installs_err p binary e w w' : quietly w w' → installs p binary (Err e) w w'.
Proof. intros (_ & ? & _). by left. Qed.

Lemma wp_remove_temp id (Q : result UpdateError () → World → Prop) w : calm w → (∀ r w', quietly w w' → Q r w') →
  wp (try (RemoveTemp id) ≫= λ _, mret ()) Q w.
Proof. intros Hc HQ. apply wp_bind, wp_try, wp_RemoveTemp; [done|]. intros. by apply wp_ret, HQ. Qed.

(** A call on a file of the private directory. *)
Lemma wp_handle {B} what call (f : () → IO World UpdateError B) Q w0 w : calm w → w_fs w = w_fs w0 →
  (∀ e w', w_fs w' = w_fs w0 → Q (Err e) w') → (∀ w', calm w' → w_fs w' = w_fs w0 → wp (f ()) Q w') →
  wp (upsys what (on_handle call) ≫= f) Q w.
Proof.
  intros Hc Hf Herr Hok. apply wp_bind, wp_map_err, wp_on_handle; [done|]. intros r w' Hq Hf' _.
  destruct r as [[]|e]; [apply Hok; [by destruct Hq|congruence]|apply Herr; congruence].
Qed.

Lemma wp_AtomicReplace binary current w : calm w →
  wp (AtomicReplace cwd binary current) (λ r w', installs (resolve cwd current) binary r w w') w.
Proof.
  intros Hc. unfold AtomicReplace. set (p := resolve cwd current).
  apply wp_bind, wp_map_err, wp_on_handle; [done|]. intros r w1 Hq1 Hf1 _. destruct r as [u|e]; [|by apply installs_err].
  apply wp_bind, wp_map_err, wp_CreateTemp; [by destruct Hq1|..].
  { intros e w2 Hq2 _. apply installs_err. by eapply quietly_trans. }
  intros id w2 Hq2 Ht2. assert (quietly w w2) as Hw2 by by eapply quietly_trans.
  assert (∀ w3, quietly w2 w3 → ∀ e w4, quietly w3 w4 → installs p binary (Err e) w w4) as Herr.
  { intros w3 H3 e w4 H4. apply installs_err. eapply quietly_trans; [exact Hw2|]. by eapply quietly_trans. }
  apply (wp_temp_step (UpdateSys "copy") _ _ id (Some (RegularFile id 384 "")) (Some (RegularFile id 384 binary))); [by destruct Hw2|done|..].
  { intros d. simpl. by destruct (fs_temps d !! id) as [[]|]. }
  { done. }
  { intros d Hd. rewrite Hd. apply (set_temp_eq id). }
  { intros w3 Q' Hc3 HQ'. apply wp_bind, wp_try, wp_on_handle; [done|]. intros r w4 Hq4 _ _.
    apply wp_remove_temp; [by destruct Hq4|]. intros r' w5 Hq5. apply HQ'. by eapply quietly_trans. }
  { intros e w3 Hq3 _. by eapply (Herr w2); [apply quietly_refl; by destruct Hw2|]. }
  intros w3 Hq3 Ht3. assert (quietly w2 w3) as Hw3 by done.
  apply (wp_temp_step (UpdateSys "close") _ _ id _ (Some (RegularFile id 384 binary)) _ _ _ _ (proj1 Hq3) Ht3); [done..| | |].
  { intros. by apply wp_remove_temp. }
  { intros e w4 Hq4 _. by eapply (Herr w3). }
  intros w4 Hq4 Ht4. assert (quietly w2 w4) as Hw4 by by eapply quietly_trans.
  apply (wp_temp_step (UpdateSys "chmod") _ _ id _ (Some (RegularFile id 493 binary)) _ _ _ _ (proj1 Hq4) Ht4).
  { intros d. simpl. by destruct (fs_temps d !! id) as [[]|]. }
  { done. }
  { intros d Hd. rewrite Hd. apply (set_temp_eq id). }
  { intros. by apply wp_remove_temp. }
  { intros e w5 Hq5 _. by eapply (Herr w4). }
  intros w5 Hq5 Ht5. assert (quietly w2 w5) as Hw5 by by eapply quietly_trans.
  apply (wp_temp_step (λ _, TempChanged) _ _ id _ (Some (RegularFile id 493 binary)) _ _ _ _ (proj1 Hq5) Ht5); [done..| | |].
  { intros. by apply wp_remove_temp. }
  { intros e w6 Hq6 _. by eapply (Herr w5). }
  intros w6 Hq6 Ht6. assert (quietly w2 w6) as Hw6 by by eapply quietly_trans.
  assert (quietly w w6) as Hww6 by by eapply quietly_trans.
  apply wp_or_cleanup, wp_map_err. apply wp_syscall; [by destruct Hw6|..].
  - intros w7 Hc7 Hf7 Hev. apply wp_remove_temp; [done|]. intros _ w8 Hq8. apply installs_err.
    eapply quietly_trans; [exact Hww6|]. eapply quietly_trans; [|exact Hq8]. split_and!; [done|by rewrite Hf7|done].
  - intros w7 Hc7 Hf7 Hev. rewrite Ht6 in *.
    assert (fs_nodes (w_fs w6) !! p = Some Directory ∨ fs_nodes (w_fs w6) !! p ≠ Some Directory ∧
      w_fs w7 = set_temp id None (set_node p (Some (RegularFile id 493 binary)) (w_fs w6))) as [Hd|[Hnd Hf7']].
    { destruct (fs_nodes (w_fs w6) !! p) as [[]|]; auto. }
    + rewrite Hd in *. simpl in *. apply wp_remove_temp; [done|]. intros _ w8 Hq8. apply installs_err.
      eapply quietly_trans; [exact Hww6|]. eapply quietly_trans; [|exact Hq8]. split_and!; [done|by rewrite Hf7|done].
    + replace (match fs_nodes (w_fs w6) !! p with Some Directory => _ | _ => _ end)
        with (@Ok SysError () (), set_temp id None (set_node p (Some (RegularFile id 493 binary)) (w_fs w6)))
        by (destruct (fs_nodes (w_fs w6) !! p) as [[]|]; done).
      cbn [fst]. right. split; [done|]. destruct Hww6 as (_ & Hn6 & _). split.
      * exists id. rewrite Hf7', set_temp_nodes. apply set_node_eq.
      * intros q Hq. rewrite Hf7', set_temp_nodes, set_node_ne by done. by rewrite Hn6.
Qed.

(** The content was downloaded in an archive whose digest the release lists, and is
    the program in it. *)
Definition verified (goarch : string) (cfg : UpdaterConfig) (release : Release) (binary : string) : Prop :=
  ∃ resp sums entries,
    http_get (releaseURL cfg release (archiveName goarch cfg (rl_TagName release))) = Ok resp ∧ StatusCode resp = 200 ∧
    fetchChecksums cfg release = Ok sums ∧
    sums !! archiveName goarch cfg (rl_TagName release) = Some (sha256 (Body resp)) ∧
    tar_entries (Body resp) = Ok entries ∧ find_binary (up_BinaryName cfg) entries = Some binary.
End spec.

(** C27: An installation replaces the running binary by the program of an archive
    whose digest is in the release's list, in one step and with everything else
    as before; when anything fails, no file changes. *)
Theorem install_verified {host : Host} {web : Web} {sha : Sha256} cwd goarch exe cfg release w : calm w →
  wp (DownloadAndInstall cwd goarch exe cfg release) (λ r w',
    (r ≠ Ok () ∧ fs_nodes (w_fs w') = fs_nodes (w_fs w)) ∨
    ∃ binary self, verified goarch cfg release binary ∧ exe ≠ None ∧
      (exe = Some self ∨ ∃ p, eval_links 255 (w_fs w) [] (resolve cwd (default "" exe)) = Ok p ∧ self = render true p) ∧
      installs (resolve cwd self) binary r w w') w.
Proof.
  intros Hc. unfold DownloadAndInstall. set (name := archiveName goarch cfg (rl_TagName release)).
  set (Q := λ (r : result UpdateError ()) (w' : World), _ ∨ _).
  assert (∀ e w', w_fs w' = w_fs w → Q (Err e) w') as Herr by (intros e w' E; left; by rewrite E).
  apply (wp_handle _ _ _ _ w); [done..|]. intros w1 Hc1 Hf1.
  apply wp_bind. unfold downloadFile. destruct (http_get _) as [resp|e] eqn:Hget; [|by apply wp_fail, Herr].
  destruct (StatusCode resp =? 200) eqn:Hst; cbn [negb]; [|by apply wp_fail, Herr]. apply Z.eqb_eq in Hst.
  apply (wp_handle _ _ _ _ w); [done..|]. intros w2 Hc2 Hf2. apply (wp_handle _ _ _ _ w); [done..|]. intros w3 Hc3 Hf3.
  apply wp_ret, wp_bind, wp_lift. destruct (fetchChecksums cfg release) as [sums|e] eqn:Hsums; [|by apply Herr].
  destruct (sums !! name) as [expected|] eqn:Hname; [|by apply wp_fail, Herr].
  apply wp_bind. unfold VerifySHA256.
  apply (wp_handle _ _ _ _ w); [done..|]. intros w4 Hc4 Hf4. apply (wp_handle _ _ _ _ w); [done..|]. intros w5 Hc5 Hf5.
  apply wp_ret. case_bool_decide as Hsha; cbn [negb]; [|by apply wp_fail, Herr]. subst expected.
  apply wp_bind. unfold ExtractBinaryFromTarGz. apply (wp_handle _ _ _ _ w); [done..|]. intros w6 Hc6 Hf6.
  destruct (tar_entries (Body resp)) as [entries|e] eqn:Htar; [|by apply wp_fail, Herr].
  destruct (find_binary (up_BinaryName cfg) entries) as [binary|] eqn:Hfind; [|by apply wp_fail, Herr].
  apply (wp_handle _ _ _ _ w); [done..|]. intros w7 Hc7 Hf7. apply (wp_handle _ _ _ _ w); [done..|]. intros w8 Hc8 Hf8.
  apply wp_ret, wp_bind. destruct exe as [exe|]; [|by apply wp_fail, Herr].
  apply wp_bind, wp_try, wp_read; [done|done|]. intros r w9 Hq9 Hf9 Hr. rewrite Hf8 in *. apply wp_ret.
  eapply wp_consequence; [apply wp_AtomicReplace; by destruct Hq9|]. intros r' w10 Hin. right.
  exists binary, (match r with Ok p => render true p | Err _ => exe end). split_and!; [|done| |].
  - by exists resp, sums, entries.
  - destruct r as [p|]; [right|by left]. exists p. split; [|done]. destruct Hr as [Hr|(_ & c & [=])]. by rewrite Hr.
  - unfold installs in *. rewrite Hf9 in Hin. exact Hin.
Qed.

(** ** Examples *)

Definition demo_web : Web := {|
  http_get url :=
    if HasSuffix url "/checksums.txt" then Ok {| StatusCode := 200; Body := "digest of archive  vmflow-1.1.0-linux-amd64.tar.gz" |}
    else if HasSuffix url ".tar.gz" then Ok {| StatusCode := 200; Body := "archive" |}
    else Ok {| StatusCode := 200; Body := "v1.1.0" |};
  decode_release tag := Some {| rl_TagName := tag; rl_Assets := [{| as_Name := "checksums.txt"; as_URL := ""; as_Size := 1 |}] |};
  tar_entries _ := Ok [("./README.md", true, "docs"); ("./vmflow", true, "NEW")] |}.
Definition digest_sha : Sha256 := {| sha256 s := "digest of " +:+ s |}.
Definition demo_cache : CacheCodec := {|
  cache_unmarshal s := Some {| uc_LastCheck := Some 0; uc_LatestVersion := s |};
  cache_marshal cf := uc_LatestVersion cf |}.
Definition demo_config : UpdaterConfig :=
  {| up_Repo := "cloudapp3/vmflow"; up_BinaryName := "vmflow"; up_CurrentVer := "1.0.0"; up_CacheDir := "/cache"; up_CacheTTL := 0 |}.
Definition demo_release : Release := {| rl_TagName := "v1.1.0"; rl_Assets := [{| as_Name := "checksums.txt"; as_URL := ""; as_Size := 1 |}] |}.
Definition demo_world (cached : option string) : World := quiet (foldr (λ '(p, n) d, set_node p n d) empty_fs
  [(["bin"], Some Directory); (["bin"; "vmflow"], Some (RegularFile 9 493 "OLD"));
   (["root"; ".cache"; "vmflow"; "update-check.json"], (λ c, RegularFile 8 420 c) <$> cached)]).
Definition demo_update : option string → IO World UpdateError UpdateOutcome := λ target,
  @runUpdate plain_host demo_cache demo_web digest_sha [] 0 "amd64" (Some "/bin/vmflow") "v1.0.0" (bool_decide (target = None)) (default "" target).

Lemma install_verified_witness :
  let w := demo_world None in
  (@DownloadAndInstall plain_host demo_web digest_sha [] "amd64" (Some "/bin/vmflow") demo_config demo_release w).1 = Ok () ∧
  wp (@DownloadAndInstall plain_host demo_web digest_sha [] "amd64" (Some "/bin/vmflow") demo_config demo_release) (λ r w',
    (r ≠ Ok () ∧ fs_nodes (w_fs w') = fs_nodes (w_fs w)) ∨
    ∃ binary self, @verified plain_host demo_web digest_sha "amd64" demo_config demo_release binary ∧ Some "/bin/vmflow" ≠ None ∧
      (Some "/bin/vmflow" = Some self ∨ ∃ p, eval_links 255 (w_fs w) [] (resolve [] (default "" (Some "/bin/vmflow"))) = Ok p ∧ self = render true p) ∧
      installs (resolve [] self) binary r w w') w.
Proof.
  intros w. split; [vm_compute; reflexivity|]. apply (@install_verified plain_host demo_web digest_sha). apply calm_nil.
Defined.

(** A check that finds an update makes the update fail for a day. *)
Lemma check_then_update_fails :
  let '(r1, w1) := demo_update None (demo_world None) in
  r1 = Ok (UpdateIsAvailable "v1.1.0" "v1.0.0") ∧
  (@runUpdate plain_host demo_cache demo_web digest_sha [] 0 "amd64" (Some "/bin/vmflow") "v1.0.0" false "" w1).1 = Err ReleaseUnavailable ∧
  (@runUpdate plain_host demo_cache demo_web digest_sha [] 0 "amd64" (Some "/bin/vmflow") "v1.0.0" false "" (demo_world None)).1
    = Ok (Installed "v1.0.0" "v1.1.0").
Proof. vm_compute. split_and!; reflexivity. Qed.

Lemma fresh_cache_blocks_update_witness :
  let w := demo_world (Some "v1.1.0") in
  wp (@runUpdate plain_host demo_cache demo_web digest_sha [] 0 "amd64" (Some "/bin/vmflow") "v1.0.0" false "") (λ r w',
    fs_nodes (w_fs w') = fs_nodes (w_fs w) ∧
    ((r = Err ReleaseUnavailable ∧ cr_UpdateAvailable (check_result
        {| up_Repo := ""; up_BinaryName := ""; up_CurrentVer := "v1.0.0"; up_CacheDir := ""; up_CacheTTL := 0 |}
        (stripVersionPrefix "v1.1.0") None) = true) ∨
     r = Ok (IsCurrent (formatReleaseTag (stripVersionPrefix "v1.0.0"))))) w.
Proof.
  intros w. apply (@fresh_cache_blocks_update plain_host demo_cache demo_web digest_sha [] 0 "amd64" (Some "/bin/vmflow") "v1.0.0" "v1.1.0" w).
  - reflexivity.
  - exists "v1.1.0", 0. split; [vm_compute; reflexivity|]. split; [vm_compute; reflexivity|]. split; [vm_compute; discriminate|].
    vm_compute. discriminate.
  - vm_compute. reflexivity.
Defined.
