(* ===== verification/Uninstaller.v ===== *)
(** * Removal of the program (internal/uninstaller, cmd/vmflow/uninstall.go)

    The plan, the confirmation and its execution, as built for Linux.  An item
    keeps the text of its path; the system sees [resolve].  What the native
    service manager, the package tools and the terminal answer is a parameter, as
    is the decoding of the JSON of the state files (of which only the version
    decides). *)

From S2P Require Import Prelude GoStrings NetIP Calendar Config FileIO GoPath Appdirs ClientConfig Updater.

Inductive Kind :=
| kindService | kindBinary | kindFile | kindDir | kindManagedConfig | kindStatsFile | kindQuotaFile | kindClientProfile.
#[export] Instance kind_eq_dec : EqDecision Kind.
Proof. solve_decision. Defined.
Record Item := { it_Path : string; it_Kind : Kind; it_Note : string; it_Self : bool }.
Definition item (kind : Kind) (path note : string) : Item := {| it_Path := path; it_Kind := kind; it_Note := note; it_Self := false |}.

Inductive Warning :=
| NoBinaryPath | NoConfigPath (scope : string) (e : DirError)
| KeepRelativeCacheFile (path : string) | NoClientProfilePath (e : ProfileError) | PackageOwned (path owner : string)
| KeepClientProfile (path : string) (e : ProfileError)
| KeepExternalTLS (path : string) | KeepRelativeCache (path : string) | KeepCacheSymlink (path : string)
| CacheNotDirectory (path : string) | KeepCacheWithTLS (path tls : string) | KeepUnownedCache (path : string)
| KeepUnmanagedConfig (path : string) | KeepConfigWithTLS (dir tls : string)
| KeepStats (path : string) | KeepQuota (path : string).

(** Executable of the process, [systemctl cat] of the unit, package tools. *)
Class UninstallEnv := {
  os_Executable : option string;
  systemctl_cat : bool;
  package_tool : string → string → option string;     (* tool, path: the output of a run that succeeded *)
}.
(** The version of a statistics and of a quota document; [None]: not parsed. *)
Class StateCodec := { stats_version : string → option Z; quota_version : string → option Z }.

Definition documentVersion : Z := 1.
Definition quotaDocumentVersion : Z := 1.
Definition DefaultFilename : string := "stats.json".
Definition DefaultQuotaFilename : string := "quota-state.json".
Definition ownedDirMarker : string := ".vmflow-owned".
Definition linuxUnitName : string := "vmflow.service".
Definition defaultLogPaths : list string := ["/var/log/vmflow"].
Definition defaultStatePaths : list string := ["/var/lib/vmflow"].
Definition defaultStatsPaths : list string := [].
Definition unixProtected : list string :=
  ["/"; "/bin"; "/boot"; "/dev"; "/etc"; "/home"; "/lib"; "/lib64"; "/opt"; "/proc"; "/root"; "/run"; "/sbin"; "/srv"; "/sys";
   "/tmp"; "/usr"; "/var"].
Definition isProtectedPath (clean : string) : bool := bool_decide (clean ∈ unixProtected).

(** [statsstore.ResolvePath]. *)
Definition ResolvePath (configPath configuredPath stateDirectory : string) : string :=
  let configuredPath := TrimSpace configuredPath in
  if bool_decide (configuredPath ≠ "") then
    if IsAbs configuredPath then Clean configuredPath else Clean (Join [Dir configPath; configuredPath])
  else
    let stateDirectory := TrimSpace stateDirectory in
    if bool_decide (stateDirectory ≠ "") && IsAbs stateDirectory then Join [Clean stateDirectory; DefaultFilename]
    else Join [Dir configPath; DefaultFilename].

(** ** Texts of paths *)

Definition samePath (left right : string) : bool := bool_decide (left = right).

Definition pathWithinDirectory (dir candidate : string) : bool :=
  if samePath dir candidate then true
  else match FileRel dir candidate with
  | None => false
  | Some relative =>
      if bool_decide (relative = ".") || bool_decide (relative = "..") then false
      else negb (HasPrefix relative "../") && negb (IsAbs relative)
  end.

Definition planContainsPath (items : list Item) (path : string) : bool :=
  existsb (λ it, bool_decide (it_Path it ≠ "") && samePath (Clean (it_Path it)) path) items.

Definition planRemovesPath (items : list Item) (path : string) : bool :=
  let path := Clean path in
  existsb (λ it,
    if bool_decide (it_Path it = "") then false
    else
      let itemPath := Clean (it_Path it) in
      samePath itemPath path ||
      ((bool_decide (it_Kind it = kindDir) || bool_decide (it_Kind it = kindManagedConfig)) && pathWithinDirectory itemPath path))
    items.

Definition removePlannedPathsWithin (items : list Item) (dir : string) : list Item :=
  let dir := Clean dir in
  List.filter (λ it, negb (bool_decide (it_Path it ≠ "") && pathWithinDirectory dir (Clean (it_Path it)))) items.

Section uninstaller.
Context `{!Host, !UrlLib, !ProfileYaml, !TzDatabase, !YamlLib, !UninstallEnv, !StateCodec} (cwd : Path).

(** ** Looking *)

(** A call with the text of a path. *)
Definition at_path {A} (f : Path → IO World SysError A) (s : string) : IO World SysError A :=
  if bool_decide (s = "") then fail ENOENT else f (resolve cwd s).
(** A call whose error is looked at. *)
Definition ok {E A} (m : IO World SysError A) : IO World E bool := try m ≫= λ r, mret (is_ok r).

Definition pathExists {E} (p : string) : IO World E bool := ok (at_path Stat p).
Definition pathLexists {E} (p : string) : IO World E bool :=
  if bool_decide (TrimSpace p = "") then mret false else ok (at_path Lstat p).

Inductive ValidateError := VSys (e : SysError) | VNotRegular | VInvalid.
(** [validateStatsFile] and [validateQuotaFile]: [version] reads the document.  A
    file that has disappeared when it is read counts as valid. *)
Definition validate_state (version : string → option Z) (expected : Z) (path : string) : IO World ValidateError () :=
  map_err VSys (at_path Lstat path) ≫= λ info,
  match info with
  | RegularFile _ _ _ =>
      let file := Clean (TrimSpace path) in
      try (ReadFile (resolve cwd file)) ≫= λ r,
      match r with
      | Err ENOENT => mret ()
      | Err _ => fail VInvalid
      | Ok raw => match version raw with
                  | Some v => if v =? expected then mret () else fail VInvalid
                  | None => fail VInvalid
                  end
      end
  | _ => fail VNotRegular
  end.
Definition validateStatsFile : string → IO World ValidateError () := validate_state stats_version documentVersion.
Definition validateQuotaFile : string → IO World ValidateError () := validate_state quota_version quotaDocumentVersion.

(** [config.Load]; [None] is an error. *)
Definition config_Load {E} (path : string) : IO World E (option File) :=
  let path := TrimSpace path in
  if bool_decide (path = "") then mret None
  else try (ReadFile (resolve cwd path)) ≫= λ r,
    mret (match r with
          | Ok raw => match Parse raw with Ok cfg => Some cfg | Err _ => None end
          | Err _ => None
          end).

Definition nonempty_trimmed (l : list string) : list string := List.filter (λ p, negb (bool_decide (p = ""))) (TrimSpace <$> l).
(** Certificate files and cache directories. *)
Definition cleanupPathsFromConfig {E} (cfgPath : string) : IO World E (list string * list string) :=
  config_Load cfgPath ≫= λ cfg,
  mret (match cfg with
        | None => ([], [])
        | Some cfg =>
            (nonempty_trimmed [tls_CertFile (cf_ControlTLS cfg); tls_KeyFile (cf_ControlTLS cfg); tls_ClientCAFile (cf_ControlTLS cfg)],
             nonempty_trimmed [cf_AcmeCacheDir cfg; cf_CertCacheDir cfg])
        end).
Definition configuredStatsPath {E} (cfgPath : string) : IO World E string :=
  config_Load cfgPath ≫= λ cfg,
  mret (match cfg with
        | None => ""
        | Some cfg => if bool_decide (TrimSpace (sc_Path (cf_Stats cfg)) = "") then "" else ResolvePath cfgPath (sc_Path (cf_Stats cfg)) ""
        end).

Definition canonicalConfigDir (candidate : string) : bool :=
  existsb (λ scope, match ConfigPath scope with Ok configPath => samePath candidate (Dir configPath) | Err _ => false end) [System; User].

Definition managedConfigMarkerValid {E} (dir : string) : IO World E bool :=
  try (at_path Lstat dir) ≫= λ info,
  match info with
  | Ok Directory =>
      let markerPath := Join [dir; ManagedMarkerName] in
      try (at_path Lstat markerPath) ≫= λ markerInfo,
      match markerInfo with
      | Ok (RegularFile _ _ _) =>
          try (at_path ReadFile markerPath) ≫= λ raw,
          mret (match raw with Ok raw => bool_decide (TrimSpace raw = "vmflow") | Err _ => false end)
      | _ => mret false
      end
  | _ => mret false
  end.

Definition canRemoveVMFlowDir {E} (path : string) : IO World E bool :=
  let clean := Clean path in
  if existsb (λ known, samePath clean (Clean known)) defaultLogPaths then mret true
  else if existsb (λ known, samePath clean (Clean known)) defaultStatePaths then mret true
  else
    (if canonicalConfigDir clean then managedConfigMarkerValid clean else mret false) ≫= λ managed : bool,
    if managed then mret true
    else
      try (at_path Lstat (Join [clean; ownedDirMarker])) ≫= λ info,
      mret (match info with Ok (RegularFile _ _ _) => true | _ => false end).

Fixpoint first_tls_within {E} (dir : string) (certPaths : list string) : IO World E (option string) :=
  match certPaths with
  | [] => mret None
  | certPath :: rest =>
      let candidate := Clean certPath in
      let candidate := if IsAbs candidate then candidate else Join [dir; candidate] in
      pathLexists candidate ≫= λ there : bool,
      if there && pathWithinDirectory (Clean dir) (Clean candidate) then mret (Some certPath)
      else first_tls_within dir rest
  end.
Definition managedConfigContainsReferencedTLS {E} (dir configPath : string) : IO World E (option string) :=
  cleanupPathsFromConfig configPath ≫= λ '(certPaths, _), first_tls_within dir certPaths.

Definition resolvedExistingPath {E} (path : string) : IO World E string :=
  try (at_path EvalSymlinks path) ≫= λ r,
  mret (match r with Ok resolved => Clean (render true resolved) | Err _ => Clean path end).
Fixpoint first_tls_below {E} (resolvedCache : string) (certPaths : list string) : IO World E (option string) :=
  match certPaths with
  | [] => mret None
  | certPath :: rest =>
      if negb (IsAbs certPath) then mret (Some certPath)
      else
        resolvedExistingPath certPath ≫= λ resolvedCert,
        match FileRel resolvedCache resolvedCert with
        | None => first_tls_below resolvedCache rest
        | Some rel =>
            if bool_decide (rel = ".") || (negb (bool_decide (rel = "..")) && negb (HasPrefix rel "../")) then mret (Some certPath)
            else first_tls_below resolvedCache rest
        end
  end.
Definition cacheContainsReferencedTLS {E} (cacheDir : string) (certPaths : list string) : IO World E (option string) :=
  resolvedExistingPath cacheDir ≫= λ resolvedCache, first_tls_below resolvedCache certPaths.

(** ** The plan *)

(** What has been planned so far. *)
Definition Planned : Type := list Item * list Warning.
Definition plan (it : Item) (acc : Planned) : Planned := (acc.1 ++ [it], acc.2).
Definition warn (w : Warning) (acc : Planned) : Planned := (acc.1, acc.2 ++ [w]).
(** [for .. { items, warnings = append..(items, warnings, x) }]. *)
Fixpoint for_each {E A} (f : Planned → A → IO World E Planned) (acc : Planned) (l : list A) : IO World E Planned :=
  match l with
  | [] => mret acc
  | x :: l => f acc x ≫= λ acc, for_each f acc l
  end.

Definition append_state_plan {E} (validate : string → IO World ValidateError ()) (kind : Kind) (note : string) (keep : string → Warning)
    (acc : Planned) (path : string) : IO World E Planned :=
  let path := Clean (TrimSpace path) in
  if bool_decide (path = ".") then mret acc
  else
    pathLexists path ≫= λ there : bool,
    if negb there || planRemovesPath acc.1 path then mret acc
    else
      try (validate path) ≫= λ r,
      mret (match r with
            | Err _ => warn (keep path) acc
            | Ok _ => plan (item kind path note) acc
            end).
Definition appendStatsPlan {E} : Planned → string → IO World E Planned :=
  append_state_plan validateStatsFile kindStatsFile "persistent traffic statistics" KeepStats.
Definition appendQuotaPlan {E} : Planned → string → IO World E Planned :=
  append_state_plan validateQuotaFile kindQuotaFile "persistent traffic quota state" KeepQuota.

Definition appendClientProfilePlan {E} (acc : Planned) (path : string) : IO World E Planned :=
  pathLexists path ≫= λ there : bool,
  if negb there || planRemovesPath acc.1 (Clean path) then mret acc
  else
    try (Load cwd path) ≫= λ r,
    mret (match r with
          | Err e => warn (KeepClientProfile path e) acc
          | Ok _ => plan (item kindClientProfile (Clean path) "local management client profile") acc
          end).

(** One certificate cache of the configuration. *)
Definition append_cache_plan {E} (certPaths : list string) (acc : Planned) (p : string) : IO World E Planned :=
  if negb (IsAbs p) then mret (warn (KeepRelativeCache p) acc)
  else
    try (at_path Lstat p) ≫= λ info,
    match info with
    | Err _ => mret acc
    | Ok (SymLink _) => mret (warn (KeepCacheSymlink p) acc)
    | Ok Directory =>
        cacheContainsReferencedTLS p certPaths ≫= λ tls,
        match tls with
        | Some tlsPath => mret (warn (KeepCacheWithTLS p tlsPath) acc)
        | None =>
            canRemoveVMFlowDir p ≫= λ owned : bool,
            mret (if owned then plan (item kindDir p "vmflow-owned certificate cache") acc else warn (KeepUnownedCache p) acc)
        end
    | Ok _ => mret (warn (CacheNotDirectory p) acc)
    end.

Definition appendConfigPlan {E} (acc : Planned) (cfgPath : string) (configKind : Kind) : IO World E Planned :=
  pathLexists cfgPath ≫= λ there : bool,
  if negb there then mret acc
  else
    let acc := plan (item configKind cfgPath "config file") acc in
    pathExists cfgPath ≫= λ there : bool,
    if negb there then mret acc
    else
      appendStatsPlan acc (Join [Dir cfgPath; DefaultFilename]) ≫= λ acc,
      appendQuotaPlan acc (Join [Dir cfgPath; DefaultQuotaFilename]) ≫= λ acc,
      configuredStatsPath cfgPath ≫= λ statsPath,
      (if bool_decide (statsPath = "") then mret acc
       else appendStatsPlan acc statsPath ≫= λ acc,
            appendQuotaPlan acc (Join [Dir statsPath; DefaultQuotaFilename])) ≫= λ acc,
      cleanupPathsFromConfig cfgPath ≫= λ '(certPaths, cacheDirs),
      let acc := foldl (λ acc p, warn (KeepExternalTLS p) acc) acc certPaths in
      for_each (append_cache_plan certPaths) acc cacheDirs.

Definition appendManagedConfigPlan {E} (acc : Planned) (cfgPath : string) : IO World E Planned :=
  let dir := Dir cfgPath in
  pathLexists dir ≫= λ there : bool,
  if negb there then mret acc
  else
    managedConfigMarkerValid dir ≫= λ managed : bool,
    if negb managed then
      pathLexists cfgPath ≫= λ there : bool, mret (if there then warn (KeepUnmanagedConfig cfgPath) acc else acc)
    else
      managedConfigContainsReferencedTLS dir cfgPath ≫= λ tls,
      match tls with
      | Some tlsPath => mret (warn (KeepConfigWithTLS dir tlsPath) acc)
      | None =>
          appendConfigPlan acc cfgPath kindFile ≫= λ '(items, warnings),
          let items := removePlannedPathsWithin items dir in
          mret (if planContainsPath items (Clean dir) then (items, warnings)
                else plan (item kindManagedConfig (Clean dir) "managed config directory") (items, warnings))
      end.

(** A directory that is planned because it exists. *)
Definition append_dir_plan {E} (note : string) (acc : Planned) (path : string) : IO World E Planned :=
  pathExists path ≫= λ there : bool, mret (if there then plan (item kindDir path note) acc else acc).

Definition serviceInstalled {E} : IO World E bool :=
  if systemctl_cat then mret true
  else
    pathExists (Join ["/etc/systemd/system"; linuxUnitName]) ≫= λ a : bool,
    if a then mret true
    else pathExists (Join ["/lib/systemd/system"; linuxUnitName]) ≫= λ b : bool,
    if b then mret true else pathExists (Join ["/usr/lib/systemd/system"; linuxUnitName]).

Definition selfBinary {E} : IO World E string :=
  match os_Executable with
  | None => mret ""
  | Some exe => try (at_path EvalSymlinks exe) ≫= λ r, mret (match r with Ok resolved => render true resolved | Err _ => exe end)
  end.

Definition tool_owner (path tool : string) : option string :=
  out ← package_tool tool path;
  let s := TrimSpace out in
  if bool_decide (s = "") then None
  else Some (tool +:+ ": " +:+ match Netip.cut ":" s with (pkg, Some _) => TrimSpace pkg | (_, None) => s end).
Definition packageOwner (path : string) : option string :=
  match tool_owner path "dpkg-query" with Some owner => Some owner | None => tool_owner path "rpm" end.

Definition scope_plan {E} (acc : Planned) (scoped : Scope * string) : IO World E Planned :=
  match ConfigPath scoped.1 with
  | Err e => mret (warn (NoConfigPath scoped.2 e) acc)
  | Ok cfgPath => appendManagedConfigPlan acc cfgPath
  end.

Definition cache_file_plan {E} (acc : Planned) : IO World E Planned :=
  pathExists CacheFilePath ≫= λ there : bool,
  mret (if there then
          if IsAbs CacheFilePath then plan (item kindFile CacheFilePath "self-update cache file") acc
          else warn (KeepRelativeCacheFile CacheFilePath) acc
        else acc).

Definition binary_plan (binPath : string) (acc : Planned) : Planned :=
  if bool_decide (binPath = "") then acc
  else
    let acc := match packageOwner binPath with Some owner => warn (PackageOwned binPath owner) acc | None => acc end in
    plan {| it_Path := binPath; it_Kind := kindBinary; it_Note := "vmflow binary"; it_Self := true |} acc.

Definition Plan {E} : IO World E Planned :=
  serviceInstalled ≫= λ installed : bool,
  let acc := if installed then plan (item kindService "" "stop and remove native service (systemd / launchd / Windows Service)") ([], [])
             else ([], []) in
  selfBinary ≫= λ binPath,
  let acc := match os_Executable with None => warn NoBinaryPath acc | Some _ => acc end in
  for_each scope_plan acc [(System, "system"); (User, "user")] ≫= λ acc,
  for_each appendStatsPlan acc defaultStatsPaths ≫= λ acc,
  for_each (append_dir_plan "runtime state directory") acc defaultStatePaths ≫= λ acc,
  for_each (append_dir_plan "log directory") acc defaultLogPaths ≫= λ acc,
  cache_file_plan acc ≫= λ acc,
  (match DefaultPath with
   | Err e => mret (warn (NoClientProfilePath e) acc)
   | Ok profilePath => appendClientProfilePlan acc profilePath
   end) ≫= λ acc,
  mret (binary_plan binPath acc).

(** ** The execution *)

Inductive Problem :=
| ProtectedPath (path : string) | ChangedStats (path : string) | ChangedQuota (path : string) | ChangedProfile (path : string)
| DirectoryAsFile (path : string) | NotOwned (path : string) | CannotInspect (path : string) | MarkerChanged (path : string)
| HoldsTLS (path tls : string) | RemoveFailed (path : string).

Definition isProtected (path : string) : bool :=
  let clean := Clean path in
  if isProtectedPath clean then true
  else match UserHomeDir with Ok home => bool_decide (clean = Clean home) | Err _ => false end.

(** The answer of a removal; what is printed, if anything. *)
Definition reported (path : string) (m : IO World SysError ()) : IO World Problem (option string) :=
  try m ≫= λ r,
  match r with
  | Ok _ | Err ENOENT => mret (Some path)
  | Err _ => fail (RemoveFailed path)
  end.
Definition os_Remove (path : string) : IO World SysError () := at_path Remove path.
Definition os_RemoveAll (path : string) : IO World SysError () :=
  if bool_decide (path = "") then mret ()
  else if bool_decide (path = ".") || HasSuffix path "/." then fail (EOTHER "removeall")
  else RemoveAll (resolve cwd path).

(** [removeSelf]: the running binary, which Unix lets go. *)
Definition removeSelf (path : string) : IO World Problem (option string) := reported path (os_Remove path).

(** The body of the loop for one item. *)
Definition remove_item (it : Item) : IO World Problem (option string) :=
  let path := it_Path it in
  let protect (m : IO World Problem (option string)) := if isProtected path then fail (ProtectedPath path) else m in
  match it_Kind it with
  | kindService => mret None
  | kindStatsFile => protect (
      try (validateStatsFile path) ≫= λ r,
      match r with
      | Err (VSys ENOENT) => mret None
      | Err _ => fail (ChangedStats path)
      | Ok _ => reported path (os_Remove path)
      end)
  | kindQuotaFile => protect (
      try (validateQuotaFile path) ≫= λ r,
      match r with
      | Err (VSys ENOENT) => mret None
      | Err _ => fail (ChangedQuota path)
      | Ok _ => reported path (os_Remove path)
      end)
  | kindClientProfile => protect (
      try (Load cwd path) ≫= λ r,
      match r with
      | Err (ProfileSys ENOENT) => mret None
      | Err _ => fail (ChangedProfile path)
      | Ok _ => reported path (os_Remove path)
      end)
  | kindFile => protect (
      try (at_path Lstat path) ≫= λ info,
      match info with
      | Ok Directory => fail (DirectoryAsFile path)
      | _ => reported path (os_Remove path)
      end)
  | kindDir => protect (
      try (at_path Lstat path) ≫= λ info,
      match info with
      | Ok _ => canRemoveVMFlowDir path ≫= λ owned : bool, if owned then mret true else fail (NotOwned path)
      | Err ENOENT => mret true
      | Err _ => fail (CannotInspect path)
      end ≫= λ _, reported path (os_RemoveAll path))
  | kindManagedConfig => protect (
      (if canonicalConfigDir (Clean path) then managedConfigMarkerValid path else mret false) ≫= λ valid : bool,
      if negb valid then fail (MarkerChanged path)
      else
        managedConfigContainsReferencedTLS path (Join [path; ConfigFilename]) ≫= λ tls,
        match tls with
        | Some tlsPath => fail (HoldsTLS path tlsPath)
        | None => reported path (os_RemoveAll path)
        end)
  | kindBinary => protect (removeSelf path)
  end.

(** The loop: what is printed and the problems, in order. *)
Fixpoint remove_items {E} (items : list Item) (printed : list string) (problems : list Problem) : IO World E (list string * list Problem) :=
  match items with
  | [] => mret (printed, problems)
  | it :: items =>
      try (remove_item it) ≫= λ r,
      match r with
      | Ok line => remove_items items (printed ++ option_list line) problems
      | Err problem => remove_items items printed (problems ++ [problem])
      end
  end.

Inductive UninstallError :=
| ServiceFailed (e : string)
| CompletedWithErrors (printed : list string) (problems : list Problem).

Definition executeWithServiceUninstaller (items : list Item) (uninstallService : IO World string ()) : IO World UninstallError (list string) :=
  each (λ it, if bool_decide (it_Kind it = kindService) then map_err ServiceFailed uninstallService else mret ()) items ≫= λ _,
  remove_items items [] [] ≫= λ '(printed, problems),
  if bool_decide (problems = []) then mret printed else fail (CompletedWithErrors printed problems).

(** ** The command *)

(** [ConfirmWithTranslator]: the first line of the input; none is no consent. *)
Definition Confirm (line : option string) : bool :=
  match line with
  | None => false
  | Some text => let ans := ToLower (TrimSpace text) in bool_decide (ans ∈ ["y"; "yes"; "是"])
  end.

Definition runUninstall (dryRun : bool) (line : option string) (uninstallService : IO World string ()) :
    IO World UninstallError (Planned * option (list string)) :=
  Plan ≫= λ planned,
  if dryRun || bool_decide (planned.1 = []) then mret (planned, None)
  else if negb (Confirm line) then mret (planned, None)
  else executeWithServiceUninstaller planned.1 uninstallService ≫= λ printed, mret (planned, Some printed).
End uninstaller.
