(* ===== verification/UninstallerSpec.v ===== *)
(** * Removal of the program: what it may remove, and what is gone when it says so

    The calls may fail at any point; other processes leave the file system alone
    while the command runs. *)

From S2P Require Import Prelude GoStrings NetIP Calendar Config FileIO GoPath Appdirs CertPath CertPathSpec.
From S2P Require Import ClientConfig ClientConfigSpec Updater Uninstaller.

(** ** Changes: nodes disappear *)

(** Between [w] and [w'] nothing happened but that nodes in [P] disappeared. *)
Definition gone (P : Path → Prop) (w w' : World) : Prop :=
  calm w' ∧ (w_events w = [] → w_events w' = []) ∧
  ∀ q, fs_nodes (w_fs w') !! q = fs_nodes (w_fs w) !! q ∨ (fs_nodes (w_fs w') !! q = None ∧ P q).

Lemma gone_refl P w : calm w → gone P w w.
Proof. intros. split_and!; auto. Qed.
Lemma gone_mono (P P' : Path → Prop) w w' : (∀ q, P q → P' q) → gone P w w' → gone P' w w'.
Proof. intros H (? & ? & Hq). split_and!; [done..|]. intros q. destruct (Hq q) as [|[? ?]]; auto. Qed.
Lemma gone_trans P w1 w2 w3 : gone P w1 w2 → gone P w2 w3 → gone P w1 w3.
Proof.
  intros (? & ? & H1) (? & ? & H2). split_and!; [done|auto|]. intros q.
  destruct (H2 q) as [->|[? ?]]; [apply H1|auto].
Qed.
Lemma quietly_gone P w w' : quietly w w' → gone P w w'.
Proof. intros (? & E & ?). split_and!; [done..|]. intros q. left. by rewrite E. Qed.
Lemma gone_calm P w w' : gone P w w' → calm w'.
Proof. by intros (? & _). Qed.
(** What is there afterwards was there before. *)
Lemma gone_Some P w w' q n : gone P w w' → fs_nodes (w_fs w') !! q = Some n → fs_nodes (w_fs w) !! q = Some n.
Proof. intros (_ & _ & H) E. destruct (H q) as [<-|[? _]]; congruence. Qed.
Lemma gone_None P w w' q : gone P w w' → fs_nodes (w_fs w) !! q = None → fs_nodes (w_fs w') !! q = None.
Proof. intros (_ & _ & H) E. by destruct (H q) as [->|[? _]]. Qed.
#[export] Hint Resolve gone_refl gone_calm quietly_gone : vmflow.

(** ** Computations that only look *)

Definition peeks {E A} (m : IO World E A) : Prop := ∀ w, calm w → quietly w (m w).2 ∧ w_fs (m w).2 = w_fs w.

Section peeks.
Context {E : Type}.
Lemma peeks_ret {A} (a : A) : peeks (E := E) (mret a).
Proof. intros w Hc. split; [by apply quietly_refl|done]. Qed.
Lemma peeks_fail {A} (e : E) : peeks (A := A) (fail e).
Proof. intros w Hc. split; [by apply quietly_refl|done]. Qed.
Lemma peeks_lift {A} (r : result E A) : peeks (lift r).
Proof. intros w Hc. split; [by apply quietly_refl|done]. Qed.
Lemma peeks_bind {A B} (m : IO World E A) (f : A → IO World E B) : peeks m → (∀ a, peeks (f a)) → peeks (m ≫= f).
Proof.
  intros Hm Hf w Hc. unfold mbind, io_bind. destruct (Hm w Hc) as [Hq Hs]. destruct (m w) as [[a|e] w1]; [|done].
  simpl in *. destruct (Hf a w1) as [Hq' Hs']; [by destruct Hq|]. split; [by eapply quietly_trans|congruence].
Qed.
Lemma peeks_try {E' A} (m : IO World E A) : peeks m → peeks (try (E' := E') m).
Proof. intros Hm w Hc. specialize (Hm w Hc). unfold try. by destruct (m w). Qed.
Lemma peeks_map_err {E' A} (f : E → E') (m : IO World E A) : peeks m → peeks (map_err f m).
Proof. intros Hm w Hc. specialize (Hm w Hc). unfold map_err. by destruct (m w). Qed.
Lemma wp_peeks {A} (m : IO World E A) Q w : peeks m → calm w → (∀ r w', quietly w w' → w_fs w' = w_fs w → Q r w') → wp m Q w.
Proof. intros Hm Hc HQ. destruct (Hm w Hc). by apply HQ. Qed.
End peeks.
Lemma peeks_syscall {A} call (f : FS → result SysError A) : peeks (syscall call (λ d, (f d, d))).
Proof.
  intros w Hc. apply (wp_read call (λ d, (f d, d)) (λ r w', quietly w w' ∧ w_fs w' = w_fs w) w Hc); [done|]. by intros.
Qed.

(** Follow the structure of a computation that only looks, down to the ones
    declared in the database. *)
Create HintDb peeks discriminated.
Ltac peek :=
  repeat first
  [ assumption
  | solve [auto 1 with peeks nocore]
  | apply peeks_ret | apply peeks_fail | apply peeks_lift | apply peeks_try | apply peeks_map_err
  | apply peeks_bind; [|intros ?]
  | apply peeks_syscall
  | match goal with
    | |- peeks (let '(_, _) := ?p in _) => destruct p
    | |- peeks (match ?x with _ => _ end) => destruct x
    end ].

Section spec.
Context {host : Host} {urls : UrlLib} {yaml : ProfileYaml} {tz : TzDatabase} {yamllib : YamlLib} {uenv : UninstallEnv}
  {codec : StateCodec} (cwd : Path).

Lemma peeks_at_path {A} (f : Path → IO World SysError A) s : (∀ p, peeks (f p)) → peeks (at_path cwd f s).
Proof. intros Hf. unfold at_path. case_bool_decide; [apply peeks_fail|apply Hf]. Qed.
Lemma peeks_Lstat s : peeks (at_path cwd Lstat s).
Proof. apply peeks_at_path. intros. apply peeks_syscall. Qed.
#[local] Hint Resolve peeks_Lstat : peeks.
Lemma peeks_Stat s : peeks (at_path cwd Stat s).
Proof. apply peeks_at_path. intros. apply peeks_syscall. Qed.
#[local] Hint Resolve peeks_Stat : peeks.
Lemma peeks_EvalSymlinks s : peeks (at_path cwd EvalSymlinks s).
Proof. apply peeks_at_path. intros. apply peeks_syscall. Qed.
#[local] Hint Resolve peeks_EvalSymlinks : peeks.
Lemma peeks_ReadFile s : peeks (at_path cwd ReadFile s).
Proof. apply peeks_at_path. intros. apply peeks_syscall. Qed.
#[local] Hint Resolve peeks_ReadFile : peeks.
Lemma peeks_pathExists {E} p : peeks (E := E) (pathExists cwd p).
Proof. unfold pathExists, ok. peek. Qed.
#[local] Hint Resolve peeks_pathExists : peeks.
Lemma peeks_pathLexists {E} p : peeks (E := E) (pathLexists cwd p).
Proof. unfold pathLexists, ok. peek. Qed.
#[local] Hint Resolve peeks_pathLexists : peeks.
Lemma peeks_config_Load {E} p : peeks (E := E) (config_Load cwd p).
Proof. unfold config_Load. peek. Qed.
#[local] Hint Resolve peeks_config_Load : peeks.
Lemma peeks_cleanup {E} p : peeks (E := E) (cleanupPathsFromConfig cwd p).
Proof. unfold cleanupPathsFromConfig. peek. Qed.
#[local] Hint Resolve peeks_cleanup : peeks.
Lemma peeks_tls_within {E} dir certs : peeks (E := E) (first_tls_within cwd dir certs).
Proof. induction certs; simpl; peek. Qed.
#[local] Hint Resolve peeks_tls_within : peeks.
Lemma peeks_contains_tls {E} dir p : peeks (E := E) (managedConfigContainsReferencedTLS cwd dir p).
Proof. unfold managedConfigContainsReferencedTLS. peek. Qed.
#[local] Hint Resolve peeks_contains_tls : peeks.
Lemma peeks_marker {E} dir : peeks (E := E) (managedConfigMarkerValid cwd dir).
Proof. unfold managedConfigMarkerValid. peek. Qed.
#[local] Hint Resolve peeks_marker : peeks.
Lemma peeks_owned {E} path : peeks (E := E) (canRemoveVMFlowDir cwd path).
Proof. unfold canRemoveVMFlowDir. peek. Qed.
#[local] Hint Resolve peeks_owned : peeks.
Lemma peeks_validate version expected p : peeks (validate_state cwd version expected p).
Proof. unfold validate_state. peek. Qed.
#[local] Hint Resolve peeks_validate : peeks.
Lemma peeks_Load p : peeks (Load cwd p).
Proof. unfold Load, file. peek. Qed.
#[local] Hint Resolve peeks_Load : peeks.

(** ** What the answers say *)

Lemma follow_regular fuel d p id mode data :
  fs_nodes d !! p = Some (RegularFile id mode data) → follow fuel d p = Ok (RegularFile id mode data).
Proof. intros H. destruct fuel; unfold follow; by rewrite H. Qed.

Definition lookup_text (d : FS) (s : string) : option Node :=
  if bool_decide (s = "") then None else fs_nodes d !! resolve cwd s.

Lemma wp_Lstat_text s Q w : calm w →
  (∀ r w', quietly w w' → w_fs w' = w_fs w →
     (∀ n, r = Ok n → lookup_text (w_fs w) s = Some n) → (r = Err ENOENT → lookup_text (w_fs w) s = None) → Q r w') →
  wp (at_path cwd Lstat s) Q w.
Proof.
  intros Hc HQ. unfold at_path, lookup_text in *. case_bool_decide as Hs.
  - apply wp_fail, HQ; [by apply quietly_refl|done..].
  - apply wp_Lstat; [done|]. intros r w' Hq Hfs Hr. apply HQ; [done..| |].
    + intros n ->. destruct Hr as [Hr|(_ & c & [=])]. unfold lookup_node in Hr.
      by destruct (fs_nodes (w_fs w) !! resolve cwd s); simplify_eq.
    + intros ->. destruct Hr as [Hr|(_ & c & [=])]. unfold lookup_node in Hr. by destruct (fs_nodes (w_fs w) !! resolve cwd s).
Qed.

(** The directory has the marker of a configuration directory. *)
Definition managed_dir (d : FS) (dir : string) : Prop :=
  lookup_text d dir = Some Directory ∧
  ∃ id mode data, lookup_text d (Join [dir; ManagedMarkerName]) = Some (RegularFile id mode data) ∧ TrimSpace data = "vmflow".
(** The directory is known to belong to the program. *)
Definition owned_dir (d : FS) (path : string) : Prop :=
  Clean path ∈ ["/var/log/vmflow"; "/var/lib/vmflow"] ∨
  (canonicalConfigDir (Clean path) = true ∧ managed_dir d (Clean path)) ∨
  ∃ id mode data, lookup_text d (Join [Clean path; ownedDirMarker]) = Some (RegularFile id mode data).

Lemma wp_marker {E} dir (Q : result E bool → World → Prop) w : calm w →
  (∀ r w', quietly w w' → w_fs w' = w_fs w → (r = Ok true → managed_dir (w_fs w) dir) → Q r w') →
  wp (managedConfigMarkerValid cwd dir) Q w.
Proof.
  intros Hc HQ. unfold managedConfigMarkerValid. apply wp_bind, wp_try, wp_Lstat_text; [done|]. intros r1 w1 Hq1 Hf1 Hr1 _.
  destruct r1 as [[]|]; try by apply wp_ret, HQ.
  apply wp_bind, wp_try, wp_Lstat_text; [by destruct Hq1|]. intros r2 w2 Hq2 Hf2 Hr2 _. rewrite Hf1 in *.
  assert (quietly w w2) as Hw2 by by eapply quietly_trans.
  destruct r2 as [[id mode data| | |]|]; try by apply wp_ret, HQ.
  specialize (Hr1 _ eq_refl). specialize (Hr2 _ eq_refl).
  apply wp_bind, wp_try. unfold at_path. unfold lookup_text in Hr2. case_bool_decide as He; [done|].
  apply wp_read; [by destruct Hw2|done|]. intros r3 w3 Hq3 Hf3 Hr3. apply wp_ret, HQ; [by eapply quietly_trans|congruence|].
  intros [= Hok]. split; [done|]. exists id, mode, data. unfold lookup_text. rewrite bool_decide_eq_false_2 by done.
  split; [done|]. destruct r3 as [raw|]; [|done]. apply bool_decide_eq_true in Hok.
  destruct Hr3 as [Hr3|(_ & c & [=])]. cbn [fst] in Hr3. rewrite Hf2, (follow_regular _ _ _ _ _ _ Hr2) in Hr3.
  simpl in Hr3. congruence.
Qed.

Lemma wp_owned {E} path (Q : result E bool → World → Prop) w : calm w →
  (∀ r w', quietly w w' → w_fs w' = w_fs w → (r = Ok true → owned_dir (w_fs w) path) → Q r w') →
  wp (canRemoveVMFlowDir cwd path) Q w.
Proof.
  intros Hc HQ. unfold canRemoveVMFlowDir.
  destruct (existsb _ defaultLogPaths) eqn:Hl; [|destruct (existsb _ defaultStatePaths) eqn:Hst].
  1, 2: apply wp_ret, HQ; [by apply quietly_refl|done|]; intros _; left.
  { simpl in Hl. rewrite orb_false_r in Hl. apply bool_decide_eq_true in Hl. rewrite Hl. vm_compute. by left. }
  { simpl in Hst. rewrite orb_false_r in Hst. apply bool_decide_eq_true in Hst. rewrite Hst. vm_compute. right. by left. }
  clear Hl Hst. apply wp_bind.
  assert (∀ w1 b, quietly w w1 → w_fs w1 = w_fs w → (b = true → canonicalConfigDir (Clean path) = true ∧ managed_dir (w_fs w) (Clean path)) →
    wp (if b then mret true else try (at_path cwd Lstat (Join [Clean path; ownedDirMarker])) ≫= λ info,
          mret (match info with Ok (RegularFile _ _ _) => true | _ => false end)) Q w1) as Hrest.
  { intros w1 b Hq1 Hf1 Hb. destruct b.
    - apply wp_ret, HQ; [done..|]. intros _. right. left. by apply Hb.
    - apply wp_bind, wp_try, wp_Lstat_text; [by destruct Hq1|]. intros r2 w2 Hq2 Hf2 Hr2 _. rewrite Hf1 in *.
      apply wp_ret, HQ; [by eapply quietly_trans|done|]. intros [= Hok]. right. right.
      destruct r2 as [[id mode data| | |]|]; try done. exists id, mode, data. by apply Hr2. }
  destruct (canonicalConfigDir (Clean path)) eqn:Hcan.
  - apply wp_marker; [done|]. intros r w1 Hq1 Hf1 Hr1. destruct r as [b|e]; [|by apply HQ].
    apply Hrest; [done..|]. intros ->. split; [done|]. by apply Hr1.
  - apply wp_ret, (Hrest w false); [by apply quietly_refl|done|done].
Qed.

(** The document a state file holds, when it can be read. *)
Definition state_file (version : string → option Z) (expected : Z) (d : FS) (path : string) : Prop :=
  (∃ id mode data, lookup_text d path = Some (RegularFile id mode data)) ∧
  match n ← follow 40 d (resolve cwd (Clean (TrimSpace path))); read_node n with
  | Ok raw => version raw = Some expected
  | Err e => e = ENOENT
  end.

Lemma wp_validate version expected path Q w : calm w →
  (∀ r w', quietly w w' → w_fs w' = w_fs w → (r = Ok () → state_file version expected (w_fs w) path) →
     (r = Err (VSys ENOENT) → lookup_text (w_fs w) path = None) → Q r w') →
  wp (validate_state cwd version expected path) Q w.
Proof.
  intros Hc HQ. unfold validate_state. apply wp_bind, wp_map_err, wp_Lstat_text; [done|]. intros r1 w1 Hq1 Hf1 Hr1 Hn1.
  destruct r1 as [[id mode data| | |]|e].
  2-4: by apply wp_fail, HQ.
  2: { apply HQ; [done..|]. intros [= ->]. by apply Hn1. }
  specialize (Hr1 _ eq_refl). apply wp_bind, wp_try. apply wp_read; [by destruct Hq1|done|].
  intros r2 w2 Hq2 Hf2 Hr2. rewrite Hf1 in *. assert (quietly w w2) as Hw2 by by eapply quietly_trans.
  simpl in Hr2. destruct r2 as [raw|[|call]].
  - destruct Hr2 as [Hr2|(_ & c & [=])]. destruct (version raw) as [v|] eqn:Hv; [|by apply wp_fail, HQ].
    destruct (v =? expected) eqn:Hve; [|by apply wp_fail, HQ]. apply Z.eqb_eq in Hve as ->.
    apply wp_ret, HQ; [done..| |done]. intros _. split; [eauto|]. by rewrite <-Hr2.
  - destruct Hr2 as [Hr2|(_ & c & [=])]. apply wp_ret, HQ; [done..| |done]. intros _. split; [eauto|]. by rewrite <-Hr2.
  - by apply wp_fail, HQ.
Qed.

(** ** One item *)

Definition has_tree (k : Kind) : bool := bool_decide (k = kindDir) || bool_decide (k = kindManagedConfig).
(** Nothing of the item is left. *)
Definition absent (d : FS) (it : Item) : Prop :=
  let p := resolve cwd (it_Path it) in
  fs_nodes d !! p = None ∧ (has_tree (it_Kind it) = true → it_Path it ≠ "" → ∀ q, p `prefix_of` q → fs_nodes d !! q = None).
(** Not a directory with something in it. *)
Definition leaf (d : FS) (p : Path) : Prop := fs_nodes d !! p = Some Directory → has_children p d = false.

(** What removing the item may take away: [q] goes, seen from [d]. *)
Definition removable (d : FS) (it : Item) (q : Path) : Prop :=
  let path := it_Path it in
  let p := resolve cwd path in
  isProtected path = false ∧
  match it_Kind it with
  | kindService => False
  | kindStatsFile => q = p ∧ state_file stats_version documentVersion d path
  | kindQuotaFile => q = p ∧ state_file quota_version quotaDocumentVersion d path
  | kindClientProfile => q = p ∧ leaf d p ∧
      ∃ raw profile, private_file d (resolve cwd (TrimSpace path)) raw ∧ profile_text raw profile
  | kindFile | kindBinary => q = p ∧ leaf d p
  | kindDir => p `prefix_of` q ∧ (owned_dir d path ∨ fs_nodes d !! p = None)
  | kindManagedConfig => p `prefix_of` q ∧ canonicalConfigDir (Clean path) = true ∧ managed_dir d path
  end.

Lemma wp_Remove p (Q : result SysError () → World → Prop) w : calm w →
  (∀ r w', gone (λ q, q = p ∧ leaf (w_fs w) p) w w' → (r = Ok () ∨ r = Err ENOENT → fs_nodes (w_fs w') !! p = None) → Q r w') →
  wp (Remove p) Q w.
Proof.
  intros Hc HQ. apply wp_syscall; [done|..].
  - intros w' Hc' Hfs Hev. apply HQ; [|by intros [|]]. split_and!; [done..|]. intros q. left. by rewrite Hfs.
  - intros w' Hc' Hfs Hev.
    assert (∀ r, w_fs w' = w_fs w → (r = Ok () ∨ r = Err ENOENT → fs_nodes (w_fs w) !! p = None) → Q r w') as Hsame.
    { intros r E Hr. apply HQ; [|by rewrite E]. split_and!; [done..|]. intros q. left. by rewrite E. }
    assert (leaf (w_fs w) p → w_fs w' = set_node p None (w_fs w) → Q (Ok ()) w') as Hgone.
    { intros Hl E. apply HQ; [|intros _; rewrite E; apply set_node_eq]. split_and!; [done..|]. intros q. rewrite E.
      destruct (decide (p = q)) as [<-|]; [right; by rewrite set_node_eq|left; by apply set_node_ne]. }
    destruct (fs_nodes (w_fs w) !! p) as [[]|] eqn:Hn; simpl in *.
    + apply Hgone; [|done]. intros E. congruence.
    + destruct (has_children p (w_fs w)) eqn:Hch; simpl in *; [apply Hsame; [done|by intros [|]]|apply Hgone; [by intros _|done]].
    + apply Hgone; [|done]. intros E. congruence.
    + apply Hgone; [|done]. intros E. congruence.
    + by apply Hsame.
Qed.

Lemma wp_os_Remove path (Q : result SysError () → World → Prop) w : calm w →
  (∀ r w', gone (λ q, q = resolve cwd path ∧ leaf (w_fs w) (resolve cwd path)) w w' →
     (r = Ok () ∨ r = Err ENOENT → path ≠ "" → fs_nodes (w_fs w') !! resolve cwd path = None) → Q r w') →
  wp (os_Remove cwd path) Q w.
Proof.
  intros Hc HQ. unfold os_Remove, at_path. case_bool_decide.
  - apply wp_fail, HQ; [by apply gone_refl|done].
  - apply wp_Remove; [done|]. intros r w' Hg Hr. apply HQ; [done|intros; by apply Hr].
Qed.

Lemma wp_os_RemoveAll path (Q : result SysError () → World → Prop) w : calm w →
  (∀ r w', gone (λ q, resolve cwd path `prefix_of` q) w w' →
     (r = Ok () ∨ r = Err ENOENT → path ≠ "" → ∀ q, resolve cwd path `prefix_of` q → fs_nodes (w_fs w') !! q = None) → Q r w') →
  wp (os_RemoveAll cwd path) Q w.
Proof.
  intros Hc HQ. unfold os_RemoveAll. case_bool_decide; [apply wp_ret, HQ; [by apply gone_refl|done]|].
  destruct (_ || _); [apply wp_fail, HQ; [by apply gone_refl|by intros [|]]|].
  apply wp_syscall; [done|..].
  - intros w' Hc' Hfs Hev. apply HQ; [|by intros [|]]. split_and!; [done..|]. intros q. left. by rewrite Hfs.
  - intros w' Hc' Hfs Hev. simpl in Hfs.
    assert (∀ q, fs_nodes (w_fs w') !! q = if bool_decide (resolve cwd path `prefix_of` q) then None else fs_nodes (w_fs w) !! q) as Hq.
    { intros q. rewrite Hfs. simpl. case_bool_decide as Hp.
      - apply map_lookup_filter_None. right. intros n _. by intros Hnp.
      - rewrite map_lookup_filter. destruct (fs_nodes (w_fs w) !! q); simpl; [|done]. by rewrite option_guard_True. }
    apply HQ.
    + split_and!; [done..|]. intros q. rewrite Hq. case_bool_decide; [by right|by left].
    + intros _ _ q Hp. by rewrite Hq, bool_decide_eq_true_2.
Qed.

(** The item's path can be told from the texts. *)
Definition good_item (it : Item) : Prop :=
  it_Kind it ≠ kindService → it_Path it ≠ "" ∧ (it_Kind it = kindClientProfile → TrimSpace (it_Path it) = it_Path it).

(** What [remove_item] may do to the file system and what its answer says. *)
Definition item_done (it : Item) (w : World) (r : result Problem (option string)) (w' : World) : Prop :=
  gone (removable (w_fs w) it) w w' ∧
  (is_ok r = true → it_Kind it ≠ kindService → good_item it → absent (w_fs w') it).

Lemma item_done_err it w e w' : quietly w w' → item_done it w (Err e) w'.
Proof. intros. split; [by apply quietly_gone|done]. Qed.

Lemma wp_reported_file it w0 w : quietly w0 w → w_fs w = w_fs w0 → has_tree (it_Kind it) = false →
  (∀ q, q = resolve cwd (it_Path it) → leaf (w_fs w0) q → removable (w_fs w0) it q) →
  wp (reported (it_Path it) (os_Remove cwd (it_Path it))) (item_done it w0) w.
Proof.
  intros Hq Hf Ht Hrem. assert (calm w) as Hc by by destruct Hq.
  apply wp_bind, wp_try, wp_os_Remove; [done|]. intros r w' Hg Hr. rewrite Hf in Hg.
  assert (gone (removable (w_fs w0) it) w0 w') as Hg'.
  { eapply gone_trans; [by apply quietly_gone|]. eapply gone_mono; [|exact Hg]. intros q [-> Hl]. by apply Hrem. }
  assert (r = Ok () ∨ r = Err ENOENT → item_done it w0 (Ok (Some (it_Path it))) w') as Hok.
  { intros Hor. split; [done|]. intros _ Hk Hgood. destruct (Hgood Hk) as [Hne _]. split; [by apply Hr|]. by rewrite Ht. }
  destruct r as [[]|[|call]]; [apply wp_ret; auto|apply wp_ret; auto|by apply wp_fail].
Qed.

Lemma wp_reported_tree it w0 w : quietly w0 w → w_fs w = w_fs w0 →
  (∀ q, resolve cwd (it_Path it) `prefix_of` q → removable (w_fs w0) it q) →
  wp (reported (it_Path it) (os_RemoveAll cwd (it_Path it))) (item_done it w0) w.
Proof.
  intros Hq Hf Hrem. assert (calm w) as Hc by by destruct Hq.
  apply wp_bind, wp_try, wp_os_RemoveAll; [done|]. intros r w' Hg Hr.
  assert (gone (removable (w_fs w0) it) w0 w') as Hg'.
  { eapply gone_trans; [by apply quietly_gone|]. eapply gone_mono; [|exact Hg]. intros q. by apply Hrem. }
  assert (r = Ok () ∨ r = Err ENOENT → item_done it w0 (Ok (Some (it_Path it))) w') as Hok.
  { intros Hor. split; [done|]. intros _ Hk Hgood. destruct (Hgood Hk) as [Hne _]. split; [by apply Hr|]. auto. }
  destruct r as [[]|[|call]]; [apply wp_ret; auto|apply wp_ret; auto|by apply wp_fail].
Qed.

(** A file that is looked at first: [there] says that it is as expected. *)
Lemma item_gone_file it w w' : quietly w w' → w_fs w' = w_fs w → it_Kind it ≠ kindService → has_tree (it_Kind it) = false →
  lookup_text (w_fs w) (it_Path it) = None → item_done it w (Ok None) w'.
Proof.
  intros Hq Hf Hk Ht Hn. split; [by apply quietly_gone|]. intros _ _ Hgood. destruct (Hgood Hk) as [Hne _].
  unfold lookup_text in Hn. rewrite bool_decide_eq_false_2 in Hn by done. unfold absent. by rewrite Hf, Ht.
Qed.

Lemma wp_state_item version expected it problem w : calm w → it_Kind it ≠ kindService → has_tree (it_Kind it) = false →
  (∀ q, q = resolve cwd (it_Path it) → state_file version expected (w_fs w) (it_Path it) → removable (w_fs w) it q) →
  wp (try (validate_state cwd version expected (it_Path it)) ≫= λ r,
      match r with
      | Err (VSys ENOENT) => mret None
      | Err _ => fail problem
      | Ok _ => reported (it_Path it) (os_Remove cwd (it_Path it))
      end) (item_done it w) w.
Proof.
  intros Hc Hk Ht Hrem. apply wp_bind, wp_try, wp_validate; [done|]. intros r w1 Hq Hf Hok Hno.
  destruct r as [[]|[[|call]| |]].
  - apply wp_reported_file; [done..|]. intros q Hqq _. apply Hrem; [done|by apply Hok].
  - apply wp_ret, item_gone_file; auto.
  - by apply wp_fail, item_done_err.
  - by apply wp_fail, item_done_err.
  - by apply wp_fail, item_done_err.
Qed.

Lemma wp_remove_item it w : calm w → wp (remove_item cwd it) (item_done it w) w.
Proof.
  intros Hc. unfold remove_item.
  destruct (it_Kind it) eqn:Hk; [|destruct (isProtected (it_Path it)) eqn:Hp; [by apply wp_fail, item_done_err, quietly_refl|]..].
  - apply wp_ret. split; [by apply gone_refl|]. by rewrite Hk.
  - apply wp_reported_file; [by apply quietly_refl|done|by rewrite Hk|]. intros q -> Hl. unfold removable. by rewrite Hk, Hp.
  - apply wp_bind, wp_try, wp_Lstat_text; [done|]. intros r w1 Hq1 Hf1 _ _.
    assert (wp (reported (it_Path it) (os_Remove cwd (it_Path it))) (item_done it w) w1) as Hrem.
    { apply wp_reported_file; [done|done|by rewrite Hk|]. intros q -> Hl. unfold removable. by rewrite Hk, Hp. }
    destruct r as [[]|]; try done. by apply wp_fail, item_done_err.
  - apply wp_bind, wp_try, wp_Lstat_text; [done|]. intros r w1 Hq1 Hf1 _ Hno.
    assert (∀ w2, quietly w w2 → w_fs w2 = w_fs w → owned_dir (w_fs w) (it_Path it) ∨ lookup_text (w_fs w) (it_Path it) = None →
      wp (reported (it_Path it) (os_RemoveAll cwd (it_Path it))) (item_done it w) w2) as Hrem.
    { intros w2 Hq2 Hf2 Hown. destruct (decide (it_Path it = "")) as [He|Hne].
      { unfold os_RemoveAll. rewrite He. apply wp_ret. split; [by apply quietly_gone|]. intros _ Hks Hg. by destruct (Hg Hks). }
      apply wp_reported_tree; [done..|]. intros q Hpre. unfold removable. rewrite Hk, Hp. split_and!; [done..|].
      destruct Hown as [|Hn]; [by left|right]. unfold lookup_text in Hn. by rewrite bool_decide_eq_false_2 in Hn. }
    apply wp_bind. destruct r as [n|[|call]].
    + apply wp_bind, wp_owned; [by destruct Hq1|]. intros r w2 Hq2 Hf2 Hown. rewrite Hf1 in *.
      assert (quietly w w2) as Hw2 by by eapply quietly_trans.
      destruct r as [[]|e]; [|by apply wp_fail, item_done_err|by apply item_done_err].
      apply wp_ret, Hrem; [done..|left; by apply Hown].
    + apply wp_ret, Hrem; [done..|right; by apply Hno].
    + by apply wp_fail, item_done_err.
  - assert (∀ r w1, quietly w w1 → w_fs w1 = w_fs w →
      (r = Ok true → canonicalConfigDir (Clean (it_Path it)) = true ∧ managed_dir (w_fs w) (it_Path it)) →
      wp (lift r ≫= λ valid : bool,
        if negb valid then fail (MarkerChanged (it_Path it))
        else managedConfigContainsReferencedTLS cwd (it_Path it) (Join [it_Path it; ConfigFilename]) ≫= λ tls,
          match tls with
          | Some tlsPath => fail (HoldsTLS (it_Path it) tlsPath)
          | None => reported (it_Path it) (os_RemoveAll cwd (it_Path it))
          end) (item_done it w) w1) as Hrest.
    { intros r w1 Hq1 Hf1 Hr. apply wp_bind, wp_lift. destruct r as [[]|e]; [|by apply wp_fail, item_done_err|by apply item_done_err].
      destruct (Hr eq_refl) as [Hcan Hman].
      apply wp_bind, wp_peeks; [apply peeks_contains_tls|by destruct Hq1|]. intros r w2 Hq2 Hf2.
      assert (quietly w w2) as Hw2 by by eapply quietly_trans.
      destruct r as [[]|e]; [by apply wp_fail, item_done_err| |by apply item_done_err].
      apply wp_reported_tree; [done|congruence|]. intros q Hpre. unfold removable. by rewrite Hk, Hp. }
    destruct (canonicalConfigDir (Clean (it_Path it))) eqn:Hcan.
    + apply wp_bind, wp_marker; [done|]. intros r w1 Hq1 Hf1 Hr.
      assert (r = Ok true → true = true ∧ managed_dir (w_fs w) (it_Path it)) as Hr' by auto.
      specialize (Hrest r w1 Hq1 Hf1 Hr'). by destruct r.
    + by apply wp_fail, item_done_err, quietly_refl.
  - apply wp_state_item; [done|by rewrite Hk..|]. intros q -> Hs. unfold removable. by rewrite Hk, Hp.
  - apply wp_state_item; [done|by rewrite Hk..|]. intros q -> Hs. unfold removable. by rewrite Hk, Hp.
  - destruct (decide (TrimSpace (it_Path it) = "")) as [He|Hne].
    { unfold Load. rewrite He. apply wp_fail, item_done_err. by apply quietly_refl. }
    apply wp_bind, wp_try, wp_Load; [done..|]. intros r w1 Hq1 Hf1 Hok _ Hno.
    destruct r as [profile|e].
    + destruct (Hok profile eq_refl) as (raw & Hpriv & Htext).
      apply wp_reported_file; [done|done|by rewrite Hk|]. intros q -> Hl. unfold removable. rewrite Hk, Hp.
      split_and!; [done..|]. by exists raw, profile.
    + destruct e as [| | | | | | | | | | | | |[|call]| | | | | | | |]; try by apply wp_fail, item_done_err.
      apply wp_ret. split; [by apply quietly_gone|]. intros _ Hks Hgood. destruct (Hgood Hks) as [_ Htr].
      specialize (Hno eq_refl). rewrite Htr in Hno by done. unfold absent. rewrite Hf1, Hk. done.
Qed.

(** ** The execution *)

(** A file system with nothing that [d] does not have. *)
Definition within (d' d : FS) : Prop := ∀ q n, fs_nodes d' !! q = Some n → fs_nodes d !! q = Some n.
(** What removing the items may take away, in a world that began as [d]. *)
Definition removable_from (items : list Item) (d : FS) (q : Path) : Prop :=
  ∃ it d', it ∈ items ∧ within d' d ∧ removable d' it q.

Lemma gone_within P w w' : gone P w w' → within (w_fs w') (w_fs w).
Proof. intros H q n. by apply (gone_Some P). Qed.
Lemma within_trans d1 d2 d3 : within d1 d2 → within d2 d3 → within d1 d3.
Proof. intros H1 H2 q n ?. auto. Qed.
Lemma absent_mono P w w' it : gone P w w' → absent (w_fs w) it → absent (w_fs w') it.
Proof.
  intros Hg [H1 H2]. split; [by eapply gone_None|]. intros Ht Hne q Hq. eapply gone_None; [exact Hg|]. by apply H2.
Qed.

Lemma wp_remove_items {E} items d printed problems (Q : result E (list string * list Problem) → World → Prop) w :
  calm w → within (w_fs w) d →
  (∀ printed' problems' w', gone (removable_from items d) w w' →
     (problems' = [] → problems = [] ∧
        ∀ it, it ∈ items → it_Kind it ≠ kindService → good_item it → absent (w_fs w') it) → Q (Ok (printed', problems')) w') →
  wp (remove_items cwd items printed problems) Q w.
Proof.
  revert printed problems w. induction items as [|it items IH]; intros printed problems w Hc Hd HQ.
  - apply wp_ret, HQ; [by apply gone_refl|]. intros ->. split; [done|]. intros it Hit. by apply elem_of_nil in Hit.
  - cbn [remove_items]. apply wp_bind, wp_try. eapply wp_consequence; [by apply wp_remove_item|].
    intros r w1 [Hg Hok].
    assert (gone (removable_from (it :: items) d) w w1) as Hg1.
    { eapply gone_mono; [|exact Hg]. intros q Hq. exists it, (w_fs w). split; [by left|done]. }
    assert (within (w_fs w1) d) as Hd1 by (eapply within_trans; [by eapply gone_within|done]).
    assert (∀ w2, gone (removable_from items d) w1 w2 → gone (removable_from (it :: items) d) w w2) as Hg2.
    { intros w2 H2. eapply gone_trans; [exact Hg1|]. eapply gone_mono; [|exact H2].
      intros q (it' & d' & ? & ?). exists it', d'. split; [by right|done]. }
    destruct r as [line|problem]; (apply IH; [by eapply gone_calm|done|]); intros printed' problems' w2 Hw2 Hend; (apply HQ; [by apply Hg2|]).
    + intros Hnil. destruct (Hend Hnil) as [-> Hall]. split; [done|]. intros it' [->|Hin]%elem_of_cons Hk Hgood; [|by apply Hall].
      eapply absent_mono; [exact Hw2|]. by apply Hok.
    + intros Hnil. destruct (Hend Hnil) as [Hp _]. by apply app_nil in Hp as [_ ?].
Qed.

(** The native service's removal only takes away what [U] says. *)
Definition removes_at_most (svc : IO World string ()) (U : Path → Prop) : Prop :=
  ∀ w, calm w → wp svc (λ _ w', gone U w w') w.

Lemma wp_execute items svc U (Q : result UninstallError (list string) → World → Prop) w : calm w → removes_at_most svc U →
  (∀ r w', gone (λ q, U q ∨ removable_from items (w_fs w) q) w w' →
     (∀ printed, r = Ok printed → ∀ it, it ∈ items → it_Kind it ≠ kindService → good_item it → absent (w_fs w') it) →
     (∀ e, r = Err (ServiceFailed e) → gone U w w') → Q r w') →
  wp (executeWithServiceUninstaller cwd items svc) Q w.
Proof.
  intros Hc Hsvc HQ. apply wp_bind.
  apply (wp_each _ (λ w', gone U w w')); [by apply gone_refl| |].
  - intros it w1 _ Hg1. case_bool_decide; [|by apply wp_ret].
    apply wp_map_err. eapply wp_consequence; [apply Hsvc; by eapply gone_calm|]. intros r w2 Hg2.
    assert (gone U w w2) as Hg by by eapply gone_trans. destruct r as [[]|e]; [done|]. apply HQ; [|done|done].
    eapply gone_mono; [|exact Hg]. by left.
  - intros w1 Hg1. apply wp_bind, (wp_remove_items items (w_fs w)); [by eapply gone_calm|by eapply gone_within|].
    intros printed problems w2 Hg2 Hend.
    assert (gone (λ q, U q ∨ removable_from items (w_fs w) q) w w2) as Hg.
    { eapply gone_trans; [eapply gone_mono; [|exact Hg1]; by left|]. eapply gone_mono; [|exact Hg2]. by right. }
    case_bool_decide as Hp; [apply wp_ret|apply wp_fail]; (apply HQ; [done| |done]); [|done].
    intros printed' _. by apply Hend.
Qed.

(** ** The plan *)

(** Where the running binary is. *)
Definition self_path (d : FS) (bin : string) : Prop :=
  ∃ exe, os_Executable = Some exe ∧ (bin = exe ∨ ∃ p, eval_links 255 d [] (resolve cwd exe) = Ok p ∧ bin = render true p).

(** Why an item was planned, seen from the file system. *)
Definition justified (d : FS) (it : Item) : Prop :=
  let path := it_Path it in
  path ≠ "" ∧
  match it_Kind it with
  | kindService => False
  | kindFile => path = CacheFilePath ∨ ∃ scope, ConfigPath scope = Ok path ∧ managed_dir d (Dir path)
  | kindDir => path ∈ ["/var/log/vmflow"; "/var/lib/vmflow"] ∨
               (lookup_text d path = Some Directory ∧ owned_dir d path)
  | kindManagedConfig => ∃ scope cfg, ConfigPath scope = Ok cfg ∧ path = Clean (Dir cfg) ∧ managed_dir d (Dir cfg)
  | kindStatsFile => state_file stats_version documentVersion d path
  | kindQuotaFile => state_file quota_version quotaDocumentVersion d path
  | kindClientProfile => ∃ profilePath raw profile, path = Clean profilePath ∧ DefaultPath = Ok profilePath ∧
      private_file d (resolve cwd (TrimSpace profilePath)) raw ∧ profile_text raw profile
  | kindBinary => it_Self it = true ∧ self_path d path
  end.

Definition service_item : Item := item kindService "" "stop and remove native service (systemd / launchd / Windows Service)".
(** The items of a plan: the native service, then what was found. *)
Definition plan_items (d : FS) (middle : Item → Prop) (items : list Item) : Prop :=
  ∃ svc rest, items = svc ++ rest ∧ (svc = [] ∨ svc = [service_item]) ∧ Forall (λ it, justified d it ∧ middle it) rest.
Definition found (it : Item) : Prop := it_Kind it ≠ kindBinary ∧ it_Self it = false.
Definition sound (d : FS) (acc : Planned) : Prop := plan_items d found acc.1.

Lemma sound_warn d w acc : sound d acc → sound d (warn w acc).
Proof. done. Qed.
Lemma sound_plan d kind path note acc : sound d acc → kind ≠ kindBinary → justified d (item kind path note) →
  sound d (plan (item kind path note) acc).
Proof.
  intros (svc & rest & Hi & Hs & Hr) Hk Hj. exists svc, (rest ++ [item kind path note]).
  split_and!; [simpl; by rewrite Hi, app_assoc|done|]. apply Forall_app. split; [done|]. by constructor.
Qed.
Lemma sound_warns d f (l : list string) acc : sound d acc → sound d (foldl (λ acc p, warn (f p) acc) acc l).
Proof. revert acc. induction l as [|x l IH]; intros acc H; simpl; [done|]. by apply IH, sound_warn. Qed.
Lemma sound_filter d items warnings dir : sound d (items, warnings) → sound d (removePlannedPathsWithin items dir, warnings).
Proof.
  intros (svc & rest & Hi & Hs & Hr). simpl in Hi. subst items. unfold sound, removePlannedPathsWithin. cbn [fst].
  rewrite List.filter_app. exists (List.filter (λ it, negb (bool_decide (it_Path it ≠ "") && pathWithinDirectory (Clean dir) (Clean (it_Path it)))) svc), (List.filter (λ it, negb (bool_decide (it_Path it ≠ "") && pathWithinDirectory (Clean dir) (Clean (it_Path it)))) rest).
  split_and!; [done| |].
  - destruct Hs as [->| ->]; [by left|by right].
  - clear -Hr. induction Hr as [|it rest Hit Hr IH]; simpl; [done|]. destruct (negb _); [by constructor|done].
Qed.

(** [m] looks around and leaves a sound plan. *)
Definition extends {E} (d : FS) (m : IO World E Planned) : Prop :=
  ∀ w, calm w → w_fs w = d → wp m (λ r w', quietly w w' ∧ w_fs w' = d ∧ ∀ acc, r = Ok acc → sound d acc) w.

Section extends.
Context {E : Type} (d : FS).

Lemma extends_ret acc : sound d acc → extends (E := E) d (mret acc).
Proof. intros Hs w Hc Hf. apply wp_ret. split_and!; [by apply quietly_refl|done|]. by intros ? [= <-]. Qed.
(** After a call whose answer is known. *)
Lemma extends_wp {A} (m : IO World E A) (f : A → IO World E Planned) :
  (∀ w, calm w → w_fs w = d → wp m (λ r w', quietly w w' ∧ w_fs w' = d ∧ ∀ a, r = Ok a → extends d (f a)) w) → extends d (m ≫= f).
Proof.
  intros Hm w Hc Hf. apply wp_bind. eapply wp_consequence; [by apply Hm|]. intros r w1 (Hq & Hf1 & Ha).
  destruct r as [a|e]; [|done]. eapply wp_consequence; [apply (Ha a eq_refl w1); [by destruct Hq|done]|].
  intros r w2 (Hq2 & ? & ?). split_and!; [by eapply quietly_trans|done..].
Qed.
Lemma extends_bind (m : IO World E Planned) (f : Planned → IO World E Planned) :
  extends d m → (∀ acc, sound d acc → extends d (f acc)) → extends d (m ≫= f).
Proof.
  intros Hm Hf. apply extends_wp. intros w Hc Hw. eapply wp_consequence; [by apply Hm|].
  intros r w1 (? & ? & Hs). split_and!; [done..|]. intros acc Hr. by apply Hf, Hs.
Qed.
Lemma extends_peek {A} (m : IO World E A) (f : A → IO World E Planned) : peeks m → (∀ a, extends d (f a)) → extends d (m ≫= f).
Proof. intros Hm Hf. apply extends_wp. intros w Hc Hw. apply wp_peeks; [done..|]. intros. split_and!; [done|congruence|auto]. Qed.
Lemma extends_for_each {A} (f : Planned → A → IO World E Planned) acc l :
  sound d acc → (∀ acc x, x ∈ l → sound d acc → extends d (f acc x)) → extends d (for_each f acc l).
Proof.
  revert acc. induction l as [|x l IH]; intros acc Hs Hf; simpl; [by apply extends_ret|].
  apply extends_bind; [apply Hf; [by left|done]|]. intros acc' Hs'. apply IH; [done|]. intros acc'' y Hy. apply Hf. by right.
Qed.
End extends.

(** The rest of a computation after a part that leaves a sound plan. *)
Lemma wp_extends {E B} d (m : IO World E Planned) (f : Planned → IO World E B) Q w0 w :
  extends d m → quietly w0 w → w_fs w = d →
  (∀ acc w', quietly w0 w' → w_fs w' = d → sound d acc → wp (f acc) Q w') →
  (∀ e w', quietly w0 w' → w_fs w' = d → Q (Err e) w') → wp (m ≫= f) Q w.
Proof.
  intros Hm Hq Hf HQ He. apply wp_bind. eapply wp_consequence; [apply Hm; [by destruct Hq|done]|].
  intros r w' (Hq' & Hf' & Hs). assert (quietly w0 w') by by eapply quietly_trans. destruct r; auto.
Qed.

Section plan.
Context {E : Type} (d : FS).

Lemma extends_state version expected kind note keep acc path : sound d acc → kind ≠ kindBinary →
  (∀ p, p ≠ "" → state_file version expected d p → justified d (item kind p note)) →
  extends (E := E) d (append_state_plan cwd (validate_state cwd version expected) kind note keep acc path).
Proof.
  intros Hs Hk Hj. unfold append_state_plan. case_bool_decide; [by apply extends_ret|].
  apply extends_peek; [apply peeks_pathLexists|]. intros there. destruct (_ || _); [by apply extends_ret|].
  apply extends_wp. intros w Hc Hf. apply wp_try, wp_validate; [done|]. intros r w' Hq Hf' Hok _.
  split_and!; [done|congruence|]. intros a [= <-]. apply extends_ret.
  destruct r as [[]|]; [|done]. apply sound_plan; [done..|]. apply Hj; [apply Clean_nonempty|]. rewrite <-Hf. by apply Hok.
Qed.
Lemma extends_stats acc path : sound d acc → extends (E := E) d (appendStatsPlan cwd acc path).
Proof. intros Hs. by apply extends_state. Qed.
Lemma extends_quota acc path : sound d acc → extends (E := E) d (appendQuotaPlan cwd acc path).
Proof. intros Hs. by apply extends_state. Qed.

Lemma extends_profile acc path : sound d acc → DefaultPath = Ok path → extends (E := E) d (appendClientProfilePlan cwd acc path).
Proof.
  intros Hs Hp. unfold appendClientProfilePlan.
  apply extends_peek; [apply peeks_pathLexists|]. intros there. destruct (_ || _); [by apply extends_ret|].
  apply extends_wp. intros w Hc Hf. apply wp_try. destruct (decide (TrimSpace path = "")) as [He|Hne].
  { unfold Load. rewrite He. apply wp_fail. split_and!; [by apply quietly_refl|done|]. intros a [= <-]. by apply extends_ret. }
  apply wp_Load; [done..|]. intros r w' Hq Hf' Hok _ _. split_and!; [done|congruence|]. intros a [= <-].
  apply extends_ret. destruct r as [profile|]; [|done]. apply sound_plan; [done..|].
  split; [apply Clean_nonempty|]. destruct (Hok profile eq_refl) as (raw & Hpriv & Ht). rewrite Hf in Hpriv. by exists path, raw, profile.
Qed.

Lemma extends_cache certs acc p : sound d acc → extends (E := E) d (append_cache_plan cwd certs acc p).
Proof.
  intros Hs. unfold append_cache_plan. destruct (IsAbs p) eqn:Ha; [|by apply extends_ret]. cbn [negb].
  apply extends_wp. intros w Hc Hf. apply wp_try, wp_Lstat_text; [done|]. intros r w' Hq Hf' Hok _.
  split_and!; [done|congruence|]. intros a [= <-]. rewrite Hf in Hok.
  destruct r as [[]|]; try by apply extends_ret. specialize (Hok _ eq_refl).
  apply extends_peek; [|intros [tls|]; [by apply extends_ret|]].
  { unfold cacheContainsReferencedTLS, resolvedExistingPath. apply peeks_bind; [peek|]. intros rc.
    induction certs as [|c certs IH]; simpl; [peek|]. destruct (negb _); [peek|]. unfold resolvedExistingPath. peek. }
  apply extends_wp. intros w1 Hc1 Hf1. apply wp_owned; [done|]. intros r w2 Hq2 Hf2 Hown.
  split_and!; [done|congruence|]. intros [] Hr; apply extends_ret; [|done]. apply sound_plan; [done..|].
  split; [simpl; by intros ->|]. right. split; [done|]. rewrite <-Hf1. by apply Hown.
Qed.

Lemma extends_config acc cfgPath scope : sound d acc → ConfigPath scope = Ok cfgPath → managed_dir d (Dir cfgPath) →
  extends (E := E) d (appendConfigPlan cwd acc cfgPath kindFile).
Proof.
  intros Hs Hcfg Hman. unfold appendConfigPlan.
  destruct (decide (cfgPath = "")) as [->|Hne].
  { unfold pathLexists. assert (TrimSpace "" = "") as -> by by vm_compute. by apply (extends_ret d acc). }
  apply extends_peek; [apply peeks_pathLexists|]. intros there. destruct there; [cbn [negb]|by apply extends_ret].
  assert (sound d (plan (item kindFile cfgPath "config file") acc)) as Hs1.
  { apply sound_plan; [done..|]. split; [done|]. right. by exists scope. }
  apply extends_peek; [apply peeks_pathExists|]. intros there. destruct there; [cbn [negb]|by apply extends_ret].
  apply extends_bind; [by apply extends_stats|]. intros acc1 Hacc1.
  apply extends_bind; [by apply extends_quota|]. intros acc2 Hacc2.
  apply extends_peek. { unfold configuredStatsPath. peek. }
  intros statsPath. apply extends_bind.
  { case_bool_decide; [by apply extends_ret|]. apply extends_bind; [by apply extends_stats|]. intros. by apply extends_quota. }
  intros acc3 Hacc3. apply extends_peek; [apply peeks_cleanup|]. intros [certPaths cacheDirs].
  apply extends_for_each; [by apply sound_warns|]. intros. by apply extends_cache.
Qed.

Lemma extends_managed acc scope cfgPath : sound d acc → ConfigPath scope = Ok cfgPath →
  extends (E := E) d (appendManagedConfigPlan cwd acc cfgPath).
Proof.
  intros Hs Hcfg. unfold appendManagedConfigPlan.
  apply extends_peek; [apply peeks_pathLexists|]. intros there. destruct there; [cbn [negb]|by apply extends_ret].
  apply extends_wp. intros w Hc Hf. apply wp_marker; [done|]. intros r w' Hq Hf' Hm. split_and!; [done|congruence|].
  intros managed Hr. destruct managed; cbn [negb].
  2: { apply extends_peek; [apply peeks_pathLexists|]. intros there. apply extends_ret. by destruct there. }
  specialize (Hm Hr). rewrite Hf in Hm.
  apply extends_peek; [apply peeks_contains_tls|]. intros [tls|]; [by apply extends_ret|].
  apply extends_bind; [by eapply extends_config|]. intros [items warnings] Hi. apply extends_ret.
  pose proof (sound_filter d items warnings (Dir cfgPath) Hi) as Hfil. destruct (planContainsPath _ _); [done|].
  apply sound_plan; [done..|]. split; [apply Clean_nonempty|]. by exists scope, cfgPath.
Qed.

Lemma extends_dir note acc path : sound d acc → path ∈ ["/var/log/vmflow"; "/var/lib/vmflow"] →
  extends (E := E) d (append_dir_plan cwd note acc path).
Proof.
  intros Hs Hp. unfold append_dir_plan. apply extends_peek; [apply peeks_pathExists|]. intros there. apply extends_ret.
  destruct there; [|done]. apply sound_plan; [done..|]. split; [|by left]. simpl. intros ->.
  set_solver.
Qed.

Lemma extends_cache_file acc : sound d acc → extends (E := E) d (cache_file_plan cwd acc).
Proof.
  intros Hs. unfold cache_file_plan. apply extends_peek; [apply peeks_pathExists|]. intros there. apply extends_ret.
  destruct there; [|done]. destruct (IsAbs _) eqn:Ha; [|done]. apply sound_plan; [done..|]. split; [|by left].
  simpl. intros Hn. by rewrite Hn in Ha.
Qed.
End plan.

Lemma wp_selfBinary {E} (Q : result E string → World → Prop) w : calm w →
  (∀ r w', quietly w w' → w_fs w' = w_fs w → (∀ bin, r = Ok bin → bin = "" ∨ self_path (w_fs w) bin) → Q r w') →
  wp (selfBinary cwd) Q w.
Proof.
  intros Hc HQ. unfold selfBinary. destruct os_Executable as [exe|] eqn:Hexe.
  - apply wp_bind, wp_try. unfold at_path. case_bool_decide.
    + apply wp_fail, wp_ret, HQ; [by apply quietly_refl|done|]. intros ? [= <-]. right. exists exe. auto.
    + apply wp_read; [done|done|]. intros r w2 Hq2 Hf2 Hr. apply wp_ret, HQ; [done..|]. intros bin [= <-]. right. exists exe.
      split; [done|]. destruct r as [p|]; [right|by left]. exists p. split; [|done]. destruct Hr as [Hr|(_ & c & [=])].
      by rewrite Hr.
  - apply wp_ret, HQ; [by apply quietly_refl|done|]. intros ? [= <-]. by left.
Qed.

(** The plan: service first, the running binary last, everything justified. *)
Definition good_plan (d : FS) (items : list Item) : Prop :=
  ∃ svc middle bin, items = svc ++ middle ++ bin ∧ (svc = [] ∨ svc = [service_item]) ∧
    Forall (λ it, justified d it ∧ found it) middle ∧ (length bin ≤ 1)%nat ∧
    Forall (λ it, justified d it ∧ it_Kind it = kindBinary ∧ it_Self it = true) bin.

Lemma wp_Plan {E} (Q : result E Planned → World → Prop) w : calm w →
  (∀ r w', quietly w w' → w_fs w' = w_fs w → (∀ acc, r = Ok acc → good_plan (w_fs w) acc.1) → Q r w') → wp (Plan cwd) Q w.
Proof.
  intros Hc HQ. unfold Plan.
  apply wp_bind, wp_peeks; [unfold serviceInstalled; peek|done|]. intros r w1 Hq1 Hf1. destruct r as [installed|e]; [|by apply HQ].
  set (acc0 := if installed then _ else _).
  assert (sound (w_fs w) acc0) as H0.
  { unfold acc0. destruct installed; [exists [service_item], []|exists [], []]; split_and!; auto. }
  clearbody acc0. clear installed.
  apply wp_bind, wp_selfBinary; [by destruct Hq1|]. intros r w2 Hq12 Hf2 Hbin. rewrite Hf1 in *.
  assert (quietly w w2) as Hq2 by by eapply quietly_trans.
  destruct r as [bin|e]; [|by apply HQ]. specialize (Hbin bin eq_refl).
  set (acc1 := match os_Executable with None => _ | Some _ => _ end).
  assert (sound (w_fs w) acc1) as H1 by (unfold acc1; by destruct os_Executable). clearbody acc1.
  assert (∀ acc, sound (w_fs w) acc → good_plan (w_fs w) (binary_plan bin acc).1) as Hgood.
  { intros acc (svc & rest & Hi & Hs & Hr). unfold binary_plan. case_bool_decide as Hb.
    - exists svc, rest, []. rewrite !app_nil_r. split_and!; [done..|simpl; lia|constructor].
    - exists svc, rest, [{| it_Path := bin; it_Kind := kindBinary; it_Note := "vmflow binary"; it_Self := true |}].
      split_and!; [|done..|simpl; lia|].
      + destruct (packageOwner bin); simpl; by rewrite Hi, app_assoc.
      + constructor; [|done]. split; [|done]. split; [done|]. simpl. split; [done|].
        by destruct Hbin. }
  assert (quietly w w2) as Hw2 by done. assert (∀ e w', quietly w w' → w_fs w' = w_fs w → Q (Err e) w') as Herr by (intros; by apply HQ).
  apply (wp_extends (w_fs w) _ _ _ w); [|done..| |done].
  { apply extends_for_each; [done|]. intros acc [scope name] _ Hs. unfold scope_plan. simpl.
    destruct (ConfigPath scope) eqn:Hcfg; [by eapply extends_managed|by apply extends_ret]. }
  intros acc2 w3 Hq3 Hf3 H2. apply (wp_extends (w_fs w) _ _ _ w); [|done..| |done].
  { apply extends_for_each; [done|]. intros. by apply extends_stats. }
  intros acc3 w4 Hq4 Hf4 H3. apply (wp_extends (w_fs w) _ _ _ w); [|done..| |done].
  { apply extends_for_each; [done|]. intros acc x Hx Hs. apply extends_dir; [done|]. apply list_elem_of_singleton in Hx as ->. right. left. }
  intros acc4 w5 Hq5 Hf5 H4. apply (wp_extends (w_fs w) _ _ _ w); [|done..| |done].
  { apply extends_for_each; [done|]. intros acc x Hx Hs. apply extends_dir; [done|]. apply list_elem_of_singleton in Hx as ->. left. }
  intros acc5 w6 Hq6 Hf6 H5. apply (wp_extends (w_fs w) _ _ _ w); [by apply extends_cache_file|done..| |done].
  intros acc6 w7 Hq7 Hf7 H6. apply (wp_extends (w_fs w) _ _ _ w); [|done..| |done].
  { destruct DefaultPath eqn:Hp; [by apply extends_profile|by apply extends_ret]. }
  intros acc7 w8 Hq8 Hf8 H7. apply wp_ret, HQ; [done..|]. intros ? [= <-]. by apply Hgood.
Qed.

(** ** The command *)

Lemma good_plan_item d items it : good_plan d items → it ∈ items → it = service_item ∨ justified d it.
Proof.
  intros (svc & middle & bin & -> & Hs & Hm & _ & Hb) [Hin|[Hin|Hin]%elem_of_app]%elem_of_app.
  - left. destruct Hs as [->| ->]; [by apply elem_of_nil in Hin|by apply list_elem_of_singleton in Hin].
  - right. rewrite Forall_forall in Hm. by apply Hm.
  - right. rewrite Forall_forall in Hb. by apply Hb.
Qed.

(** What the command may take away in a world that began as [d]. *)
Definition uninstallable (d : FS) (q : Path) : Prop := ∃ it d', justified d it ∧ within d' d ∧ removable d' it q.

Lemma removable_planned d items q : good_plan d items → removable_from items d q → uninstallable d q.
Proof.
  intros Hp (it & d' & Hin & Hd & Hr). exists it, d'. split; [|done].
  destruct (good_plan_item _ _ _ Hp Hin) as [->|?]; [|done]. by destruct Hr.
Qed.

Lemma wp_runUninstall dryRun line svc U (Q : result UninstallError (Planned * option (list string)) → World → Prop) w :
  calm w → removes_at_most svc U →
  (∀ r w', gone (λ q, U q ∨ uninstallable (w_fs w) q) w w' →
     (dryRun = true ∨ Confirm line = false → fs_nodes (w_fs w') = fs_nodes (w_fs w)) →
     (∀ e, r = Err (ServiceFailed e) → gone U w w') →
     (∀ planned printed, r = Ok (planned, printed) → good_plan (w_fs w) planned.1 ∧
        (is_Some printed → ∀ it, it ∈ planned.1 → it_Kind it ≠ kindService → good_item it → absent (w_fs w') it)) → Q r w') →
  wp (runUninstall cwd dryRun line svc) Q w.
Proof.
  intros Hc Hsvc HQ. apply wp_bind, wp_Plan; [done|]. intros r w1 Hq1 Hf1 Hplan.
  destruct r as [planned|e].
  2: { apply HQ; [by apply quietly_gone|by rewrite Hf1|intros; by apply quietly_gone|done]. }
  specialize (Hplan planned eq_refl).
  assert (Q (Ok (planned, None)) w1) as Hnothing.
  { apply HQ; [by apply quietly_gone|by rewrite Hf1|done|]. intros ? ? [= <- <-]. split; [done|by intros [? ?]]. }
  destruct (dryRun || bool_decide (planned.1 = [])) eqn:Hdry; [done|]. apply orb_false_iff in Hdry as [-> _].
  destruct (Confirm line) eqn:Hcon; [|done]. cbn [negb].
  apply wp_bind, (wp_execute _ _ U); [by destruct Hq1|done|]. rewrite Hf1. intros r w2 Hg Hok Herr.
  assert (gone (λ q, U q ∨ uninstallable (w_fs w) q) w w2) as Hg2.
  { eapply gone_trans; [by apply quietly_gone|]. eapply gone_mono; [|exact Hg].
    intros q [?|?]; [by left|right]. by eapply removable_planned. }
  assert (∀ e, r = Err (ServiceFailed e) → gone U w w2) as Herr2.
  { intros e He. eapply gone_trans; [by apply quietly_gone|]. by eapply Herr. }
  destruct r as [printed|e].
  - apply wp_ret, HQ; [done|by intros [|]|done|]. intros ? ? [= <- <-]. split; [done|]. intros _. by apply (Hok printed).
  - apply HQ; [done|by intros [|]|intros e' [= ->]; by eapply Herr2|done].
Qed.
End spec.

Section theorems.
Context {host : Host} {urls : UrlLib} {yaml : ProfileYaml} {tz : TzDatabase} {yamllib : YamlLib} {uenv : UninstallEnv}
  {codec : StateCodec} (cwd : Path).

(** C25: Whatever fails on the way, the command removes nothing but what the plan
    justifies and the check before the removal confirms: state files and a profile
    that are valid, directories that are the program's, its update cache, its
    configuration and its binary, none of them a protected path.  Without consent,
    in a dry run, and when the native service cannot be removed, no file goes. *)
Theorem uninstall_removes_only_owned dryRun line svc U w : calm w → removes_at_most svc U →
  wp (runUninstall cwd dryRun line svc) (λ r w',
    gone (λ q, U q ∨ uninstallable cwd (w_fs w) q) w w' ∧
    (dryRun = true ∨ Confirm line = false → fs_nodes (w_fs w') = fs_nodes (w_fs w)) ∧
    (∀ e, r = Err (ServiceFailed e) → gone U w w')) w.
Proof. intros Hc Hsvc. apply (wp_runUninstall _ _ _ _ U); [done..|]. intros. split_and!; eauto. Qed.

(** C26: A plan lists the native service first and the running binary last, and
    when the command reports that it is complete, nothing of the plan is left. *)
Theorem uninstall_complete dryRun line svc U w : calm w → removes_at_most svc U →
  wp (runUninstall cwd dryRun line svc) (λ r w', ∀ planned printed, r = Ok (planned, printed) →
    good_plan cwd (w_fs w) planned.1 ∧
    (is_Some printed → ∀ it, it ∈ planned.1 → it_Kind it ≠ kindService → good_item it → absent cwd (w_fs w') it)) w.
Proof. intros Hc Hsvc. apply (wp_runUninstall _ _ _ _ U); [done..|]. intros. eauto. Qed.
End theorems.

(** ** Examples *)

(** A configuration whose text is the path of certificate and key. *)
Definition tls_yaml : YamlLib := {|
  yaml_parse raw := Ok (Some (YNode ScalarNode raw "" []));
  yaml_decode n :=
    if HasPrefix (yn_Value n) "/" then
      Ok {| cf_Version := 1; cf_Language := ""; cf_InvalidLanguage := ""; cf_ControlPort := 0; cf_DeprecatedControlListenAddr := "";
            cf_UsedDeprecatedControlListenAddr := false; cf_UDPMaxSessions := 0;
            cf_ControlTLS := {| tls_CertFile := yn_Value n; tls_KeyFile := yn_Value n; tls_ClientCAFile := ""; tls_MinVersion := "" |};
            cf_Log := cf_Log zero_file; cf_Auth := cf_Auth zero_file; cf_BotToken := ""; cf_BotChat := 0; cf_BotControlToken := "";
            cf_AcmeChallenge := ""; cf_AcmeHTTP01Addr := ""; cf_AcmeCacheDir := ""; cf_AcmeDNS01 := cf_AcmeDNS01 zero_file;
            cf_CertCacheDir := ""; cf_CertReview := cf_CertReview zero_file; cf_Stats := cf_Stats zero_file; cf_Rules := [];
            cf_UnknownFields := [] |}
    else Err "not a path" |}.
Definition demo_env : UninstallEnv := {| os_Executable := Some "/usr/local/bin/vmflow"; systemctl_cat := true; package_tool _ _ := None |}.
Definition demo_codec : StateCodec := {| stats_version := ParseInt; quota_version := ParseInt |}.
Definition demo_service : IO World string () := mret ().
Definition demo_uninstall : bool → option string → IO World string () → IO World UninstallError (Planned * option (list string)) :=
  @runUninstall plain_host plain_urls plain_yaml utc_database tls_yaml demo_env demo_codec [].

Definition text_file (id : nat) (data : string) : Node := RegularFile id 420 data.
(** An installation whose configuration is [config], with a file [pem] elsewhere. *)
Definition installed (config : string) (pem : Path) : World := quiet (foldr (λ '(p, n) d, set_node p (Some n) d) empty_fs
  [(["etc"; "vmflow"], Directory); (["etc"; "vmflow"; ".vmflow-managed"], text_file 1 "vmflow");
   (["etc"; "vmflow"; "config.yaml"], text_file 2 config); (["etc"; "vmflow"; "stats.json"], text_file 3 "1");
   (["var"; "lib"; "vmflow"], Directory); (["var"; "log"; "vmflow"], Directory);
   (["usr"], Directory); (["usr"; "local"], Directory); (["usr"; "local"; "bin"], Directory);
   (["usr"; "local"; "bin"; "vmflow"], text_file 4 "ELF"); (pem, text_file 5 "PEM"); (["home"], Directory)]).
(** A certificate in the state directory is removed with it, although the plan says
    that it is left in place. *)
Lemma referenced_certificate_removed :
  let pem := ["var"; "lib"; "vmflow"; "tls.pem"] in
  let '(r, w) := demo_uninstall false (Some "y") demo_service (installed "/var/lib/vmflow/tls.pem" pem) in
  is_ok r = true ∧ fs_nodes (w_fs w) !! pem = None ∧
  match r with Ok (planned, _) => KeepExternalTLS "/var/lib/vmflow/tls.pem" ∈ planned.2 | Err _ => False end.
Proof. vm_compute. split_and!; [reflexivity|reflexivity|]. repeat (left || right). Qed.

(** The certificates named by a configuration that is not accepted are not looked
    for: one beside it is removed with the directory. *)
Lemma unreadable_config_certificate_removed :
  let pem := ["etc"; "vmflow"; "tls.pem"] in
  fs_nodes (w_fs (demo_uninstall false (Some "y") demo_service (installed "/etc/vmflow/tls.pem" pem)).2) !! pem = Some (text_file 5 "PEM") ∧
  fs_nodes (w_fs (demo_uninstall false (Some "y") demo_service (installed "rules: [" pem)).2) !! pem = None.
Proof. vm_compute. split; reflexivity. Qed.

(** A managed configuration directory that is already gone is an error. *)
Lemma absent_managed_directory_fails :
  (@executeWithServiceUninstaller plain_host plain_urls plain_yaml utc_database tls_yaml demo_codec []
     [item kindManagedConfig "/etc/vmflow" "managed config directory"] demo_service (quiet empty_fs)).1 =
  Err (CompletedWithErrors [] [MarkerChanged "/etc/vmflow"]).
Proof. vm_compute. reflexivity. Qed.

Lemma demo_service_removes_nothing : removes_at_most demo_service (λ _, False).
Proof. intros w Hc. by apply gone_refl. Qed.

Lemma uninstall_removes_only_owned_witness :
  let w := installed "/srv/tls.pem" ["srv"; "tls.pem"] in
  wp (demo_uninstall false (Some "yes") demo_service) (λ r w',
    gone (λ q, False ∨ @uninstallable plain_host plain_urls plain_yaml demo_env demo_codec [] (w_fs w) q) w w' ∧
    (false = true ∨ Confirm (Some "yes") = false → fs_nodes (w_fs w') = fs_nodes (w_fs w)) ∧
    (∀ e, r = Err (ServiceFailed e) → gone (λ _, False) w w')) w.
Proof.
  intros w. apply (@uninstall_removes_only_owned plain_host plain_urls plain_yaml utc_database tls_yaml demo_env demo_codec [] false
    (Some "yes") demo_service (λ _, False) w); [apply calm_nil|exact demo_service_removes_nothing].
Defined.

Lemma uninstall_complete_witness :
  let w := installed "/srv/tls.pem" ["srv"; "tls.pem"] in
  is_ok (demo_uninstall false (Some "yes") demo_service w).1 = true ∧
  wp (demo_uninstall false (Some "yes") demo_service) (λ r w', ∀ planned printed, r = Ok (planned, printed) →
    @good_plan plain_host plain_urls plain_yaml demo_env demo_codec [] (w_fs w) planned.1 ∧
    (is_Some printed → ∀ it, it ∈ planned.1 → it_Kind it ≠ kindService → good_item it → absent [] (w_fs w') it)) w.
Proof.
  intros w. split; [vm_compute; reflexivity|].
  apply (@uninstall_complete plain_host plain_urls plain_yaml utc_database tls_yaml demo_env demo_codec [] false
    (Some "yes") demo_service (λ _, False) w); [apply calm_nil|exact demo_service_removes_nothing].
Defined.
