(* ===== verification/GoText.v ===== *)
(** * Text of the Go standard library beyond [strings]

    UTF-8 ([unicode/utf8]), the padding and the ["%.1f"] of [fmt], and base64 in
    the raw URL alphabet ([encoding/base64]).  A rune is the list of its bytes. *)

From S2P Require Import Prelude GoStrings NetIP Duration.
From Stdlib Require Import SpecFloat.

(** ** UTF-8 *)

Definition code (c : ascii) : nat := nat_of_ascii c.
Definition in_range (lo hi : nat) (c : ascii) : bool := (lo <=? code c)%nat && (code c <=? hi)%nat.
(** Every byte but a continuation byte. *)
Definition RuneStart (c : ascii) : bool := negb (in_range 128 191 c).

(** [utf8.DecodeRune]: the width of the encoding at the front, if it is valid. *)
Definition rune_width (l : list ascii) : option nat :=
  match l with
  | [] => None
  | b0 :: l =>
      if in_range 0 127 b0 then Some 1%nat
      else match l with
      | b1 :: l =>
          if in_range 194 223 b0 then if in_range 128 191 b1 then Some 2%nat else None
          else match l with
          | b2 :: l =>
              if in_range 224 239 b0 then
                if in_range (if (code b0 =? 224)%nat then 160 else 128) (if (code b0 =? 237)%nat then 159 else 191) b1
                   && in_range 128 191 b2 then Some 3%nat else None
              else match l with
              | b3 :: _ =>
                  if in_range 240 244 b0
                     && in_range (if (code b0 =? 240)%nat then 144 else 128) (if (code b0 =? 244)%nat then 143 else 191) b1
                     && in_range 128 191 b2 && in_range 128 191 b3 then Some 4%nat else None
              | [] => None
              end
          | [] => None
          end
      | [] => None
      end
  end.

(** [utf8.RuneError], which stands for a byte that is no encoding. *)
Definition rune_error : list ascii := [byte 239; byte 191; byte 189].

(** [[]rune(s)]. *)
Fixpoint runes_fuel (n : nat) (l : list ascii) : list (list ascii) :=
  match n, l with
  | S n, _ :: tl =>
      match rune_width l with
      | Some w => take w l :: runes_fuel n (drop w l)
      | None => rune_error :: runes_fuel n tl
      end
  | _, _ => []
  end.
Definition runes_of (l : list ascii) : list (list ascii) := runes_fuel (length l) l.
Definition runes (s : string) : list (list ascii) := runes_of (to_list s).
Definition RuneCount (s : string) : nat := length (runes s).
(** [string(runes)]. *)
Definition of_runes (rs : list (list ascii)) : string := of_list (mjoin rs).

(** A list of bytes that is the encoding of one rune. *)
Definition is_rune (r : list ascii) : Prop := rune_width r = Some (length r) ∧ r ≠ [].

(** ** Padding (["%-14s"], ["%6d"]) *)

Definition spaces_of (n : nat) : string := of_list (replicate n " "%char).
Definition pad_right (width : nat) (s : string) : string := s +:+ spaces_of (width - RuneCount s).
Definition pad_left (width : nat) (s : string) : string := spaces_of (width - RuneCount s) +:+ s.

(** ** ["%.1f"]: the exact decimal value, halves to even *)

Definition round_half_even (num den : Z) : Z :=
  let q := num / den in
  let r := num mod den in
  if 2 * r <? den then q else if den <? 2 * r then q + 1 else if Z.even q then q else q + 1.
(** [float64(n)] of a positive integer: 53 bits are kept. *)
Definition f64_round (n : Z) : Z :=
  let k := Z.log2 n - 52 in if k <=? 0 then n else round_half_even n (2 ^ k) * 2 ^ k.
(** ["%.1f"] of [float64(n) / float64(1 << k)]; the division is exact. *)
Definition format_scaled (n k : Z) : string :=
  let tenths := round_half_even (10 * f64_round n) (2 ^ k) in
  FormatInt (tenths / 10) +:+ "." +:+ FormatInt (tenths mod 10).

(** ** Base64 *)

Definition b64_char (n : Z) : ascii :=
  let k := Z.to_nat n in
  ascii_of_nat (if (k <? 26)%nat then 65 + k else if (k <? 52)%nat then 71 + k else if (k <? 62)%nat then k - 4
                else if (k =? 62)%nat then 45 else 95).
Definition is_b64 (c : ascii) : bool :=
  in_range 65 90 c || in_range 97 122 c || in_range 48 57 c || (code c =? 45)%nat || (code c =? 95)%nat.
Fixpoint b64_encode (bytes : list Z) : list ascii :=
  match bytes with
  | [] => []
  | [a] => [b64_char (Z.shiftr a 2); b64_char (Z.shiftl (Z.land a 3) 4)]
  | [a; b] => [b64_char (Z.shiftr a 2); b64_char (Z.lor (Z.shiftl (Z.land a 3) 4) (Z.shiftr b 4)); b64_char (Z.shiftl (Z.land b 15) 2)]
  | a :: b :: c :: rest =>
      b64_char (Z.shiftr a 2) :: b64_char (Z.lor (Z.shiftl (Z.land a 3) 4) (Z.shiftr b 4))
      :: b64_char (Z.lor (Z.shiftl (Z.land b 15) 2) (Z.shiftr c 6)) :: b64_char (Z.land c 63) :: b64_encode rest
  end.
(** The length of what [DecodeString] decodes; line ends are skipped, and
    [None] is an error. *)
Definition b64_decoded_length (s : string) : option nat :=
  let l := filter (λ c, code c ≠ 10%nat ∧ code c ≠ 13%nat) (to_list s) in
  if forallb is_b64 l && negb (length l mod 4 =? 1)%nat then Some (length l * 6 / 8)%nat else None.

(** The bytes of a hexadecimal text. *)
Fixpoint hex_bytes (l : list ascii) : list Z :=
  match l with
  | a :: b :: l => (16 * default 0 (Netip.hex_digit a) + default 0 (Netip.hex_digit b)) :: hex_bytes l
  | _ => []
  end.

Example format_scaled_half : format_scaled 1280 10 = "1.2" ∧ format_scaled 1434 10 = "1.4" ∧ format_scaled (2 ^ 63 - 1) 40 = "8388608.0".
Proof. vm_compute. split_and!; reflexivity. Qed.
(** The rounding agrees with the standard's arithmetic. *)
Example f64_round_agrees : Forall (λ n, f64_trunc (f64_of n) = f64_round n)
  [1; 1023; 2 ^ 53 + 1; 2 ^ 53 + 3; 2 ^ 62 + 513; 2 ^ 62 + 1536; 2 ^ 63 - 1; 2 ^ 63 - 513; 123456789012345678].
Proof. repeat constructor; vm_compute; reflexivity. Qed.
Example b64_text : of_list (b64_encode [251; 255; 1; 77]) = "-_8BTQ".
Proof. vm_compute. reflexivity. Qed.
Example runes_mixed : runes "a端" = [["a"%char]; to_list "端"].
Proof. vm_compute. reflexivity. Qed.

(** ** Lemmas *)

Lemma rune_width_range l w : rune_width l = Some w → (1 ≤ w ≤ 4 ∧ w ≤ length l)%nat.
Proof. unfold rune_width. repeat case_match; intros [= <-]; simpl; lia. Qed.

(** The encoding at the front does not look at what follows. *)
Lemma rune_width_app r l : rune_width r = Some (length r) → r ≠ [] → rune_width (r ++ l) = Some (length r).
Proof.
  destruct r as [|b0 r]; [done|]. intros H _. revert H. unfold rune_width. cbn [app]. destruct (in_range 0 127 b0); [intros H; exact H|].
  destruct r as [|b1 r]; [intros [=]|]. cbn [app]. destruct (in_range 194 223 b0); [intros H; exact H|].
  destruct r as [|b2 r]; [intros [=]|]. cbn [app]. destruct (in_range 224 239 b0); [intros H; exact H|].
  destruct r as [|b3 r]; [intros [=]|]. intros H; exact H.
Qed.
Lemma rune_width_take l w : rune_width l = Some w → is_rune (take w l).
Proof.
  intros Hw. pose proof (rune_width_range _ _ Hw) as [? ?]. unfold is_rune. rewrite length_take_le by lia.
  split; [|destruct w, l; simpl in *; try done; lia]. clear -Hw. revert Hw. unfold rune_width.
  destruct l as [|b0 l]; [intros [=]|]. destruct (in_range 0 127 b0) eqn:E0; [intros [= <-]; simpl; by rewrite E0|].
  destruct l as [|b1 l]; [intros [=]|]. destruct (in_range 194 223 b0) eqn:E1.
  { destruct (in_range 128 191 b1) eqn:E2; intros [= <-]. simpl. by rewrite E0, E1, E2. }
  destruct l as [|b2 l]; [intros [=]|]. destruct (in_range 224 239 b0) eqn:E2.
  { destruct (_ && _) eqn:E3; intros [= <-]. simpl. by rewrite E0, E1, E2, E3. }
  destruct l as [|b3 l]; [intros [=]|]. destruct (_ && _) eqn:E3; intros [= <-]. simpl. by rewrite E0, E1, E2, E3.
Qed.

(** Only the first byte of a rune starts one. *)
Lemma is_rune_tail r k c : is_rune r → r !! S k = Some c → RuneStart c = false.
Proof.
  intros [Hw Hne] Hk. unfold RuneStart, rune_width in *. destruct r as [|b0 r]; [done|]. simpl in Hk, Hw.
  destruct (in_range 0 127 b0); [injection Hw as E; by destruct r|].
  assert (∀ lo hi b, (128 ≤ lo)%nat → (hi ≤ 191)%nat → in_range lo hi b = true → in_range 128 191 b = true) as Hr.
  { intros lo hi b ??. unfold in_range. rewrite !andb_true_iff, !Nat.leb_le. lia. }
  destruct r as [|b1 r]; [done|]. destruct (in_range 194 223 b0).
  { destruct (in_range 128 191 b1) eqn:H1; [|done]. injection Hw as E. destruct r; [|done].
    destruct k; simpl in Hk; [|done]. injection Hk as ->. by rewrite H1. }
  destruct r as [|b2 r]; [done|]. destruct (in_range 224 239 b0).
  { destruct (_ && _) eqn:H1; [|done]. injection Hw as E. destruct r; [|done]. bool_to_prop.
    destruct k as [|[|k]]; simpl in Hk; [| |done]; injection Hk as ->; apply negb_false_iff; [|done].
    match goal with H : in_range _ _ _ = true |- _ => refine (Hr _ _ _ _ _ H) end; case_goal; lia. }
  destruct r as [|b3 r]; [done|]. destruct (_ && _) eqn:H1; [|done]. injection Hw as E. destruct r; [|done]. bool_to_prop.
  destruct k as [|[|[|k]]]; simpl in Hk; [| | |done]; injection Hk as ->; apply negb_false_iff; [|done|done].
  match goal with H : in_range _ _ _ = true |- _ => refine (Hr _ _ _ _ _ H) end; case_goal; lia.
Qed.
Lemma is_rune_head r c : is_rune r → r !! 0%nat = Some c → RuneStart c = true.
Proof.
  intros [Hw Hne] Hk. unfold RuneStart. destruct r as [|b0 r]; [done|]. injection Hk as ->. apply negb_true_iff, not_true_iff_false.
  unfold in_range. rewrite andb_true_iff, !Nat.leb_le. intros [Hlo Hhi].
  assert (∀ lo hi, (191 < lo)%nat ∨ (hi < 128)%nat → in_range lo hi c = false) as Hf.
  { intros lo hi ?. apply not_true_iff_false. unfold in_range. rewrite andb_true_iff, !Nat.leb_le. lia. }
  unfold rune_width in Hw. rewrite !Hf in Hw by lia. cbn [andb] in Hw. by destruct r as [|? [|? [|? ?]]].
Qed.

Lemma runes_fuel_length n l r : r ∈ runes_fuel n l → (length r ≤ 4)%nat.
Proof.
  revert l. induction n as [|n IH]; intros [|c l] Hr; cbn [runes_fuel] in Hr; try by apply elem_of_nil in Hr.
  destruct (rune_width (c :: l)) as [w|] eqn:Hw; apply elem_of_cons in Hr as [->|Hr].
  - pose proof (rune_width_range _ _ Hw). rewrite length_take. lia.
  - by eapply IH.
  - simpl. lia.
  - by eapply IH.
Qed.

Lemma mjoin_bounded {A} (rs : list (list A)) n : (∀ r, r ∈ rs → (length r ≤ n)%nat) → (length (mjoin rs) ≤ n * length rs)%nat.
Proof.
  induction rs as [|r rs IH]; intros H; simpl; [lia|]. rewrite length_app. specialize (IH ltac:(intros; apply H; by right)).
  specialize (H r ltac:(by left)). lia.
Qed.

(** Runes of an encoded text. *)
Lemma runes_fuel_valid rs n : (length (mjoin rs) ≤ n)%nat → (∀ r, r ∈ rs → is_rune r) → runes_fuel n (mjoin rs) = rs.
Proof.
  revert n. induction rs as [|r rs IH]; intros n Hn Hv; [by destruct n|].
  destruct (Hv r ltac:(by left)) as [Hw Hne]. change (mjoin (r :: rs)) with (r ++ mjoin rs) in *. rewrite length_app in Hn.
  destruct r as [|c r]; [done|]. destruct n as [|n]; [simpl in Hn; lia|].
  cbn [runes_fuel app]. change (c :: r ++ mjoin rs) with ((c :: r) ++ mjoin rs). rewrite rune_width_app by done.
  rewrite take_app_length, drop_app_length. f_equal. apply IH; [simpl in Hn; lia|]. intros r' ?. apply Hv. by right.
Qed.

(** ** [slices.SortStableFunc], [strings.Contains] *)

Section sort_stable.
Context {A : Type} (le : A → A → bool).

Fixpoint insert_stable (x : A) (l : list A) : list A :=
  match l with
  | [] => [x]
  | y :: l' => if le x y then x :: l else y :: insert_stable x l'
  end.
Definition sort_stable (l : list A) : list A := foldr insert_stable [] l.

Lemma insert_stable_Permutation x l : insert_stable x l ≡ₚ x :: l.
Proof.
  induction l as [|y l IH]; [done|]. simpl. destruct (le x y); [done|]. rewrite IH. apply perm_swap.
Qed.
Lemma sort_stable_Permutation l : sort_stable l ≡ₚ l.
Proof. induction l as [|x l IH]; [done|]. simpl. by rewrite insert_stable_Permutation, IH. Qed.

Lemma sort_stable_Sorted l : (∀ x y, le x y = false → le y x = true) → Sorted le (sort_stable l).
Proof.
  intros Htotal. induction l as [|x l IH]; [constructor|]. simpl. revert IH. generalize (sort_stable l) as k. clear l.
  induction k as [|y k IH]; intros Hk; simpl; [by repeat constructor|].
  destruct (le x y) eqn:E; [by constructor; [|constructor; rewrite E]|]. apply Sorted_inv in Hk as [Hk Hy].
  constructor; [by apply IH|]. destruct k as [|z k]; simpl.
  - constructor. by rewrite Htotal.
  - destruct (le x z); constructor; [by rewrite Htotal|by inversion Hy].
Qed.
End sort_stable.

Fixpoint has_part (part l : list ascii) : bool :=
  bool_decide (part `prefix_of` l) || match l with [] => false | _ :: l => has_part part l end.
Definition StrContains (s part : string) : bool := has_part (to_list part) (to_list s).
(** [cmp.Compare] on strings: bytewise. *)
Definition str_le (a b : string) : bool := bool_decide (String.le a b).

Lemma FormatInt_neg p : FormatInt (Z.neg p) = "-" +:+ FormatInt (Z.pos p).
Proof. done. Qed.
