(* ===== verification/ControlClient.v ===== *)
(** * The client of the control API (controlapi/client.go)

    What the terminal interface, the command line and the bot call.  A client's
    method sends one request over the interface [Transport] and accepts some
    statuses; everything else is an [APIError].  JSON bodies are given decoded, so
    the message of an error is left out; a request that does not come back is a
    [TransportError]. *)

From S2P Require Import Prelude GoStrings Rule Config Stats Quota Manager Precheck ControlAuth Store Management FileIO.

(** ** Requests and responses *)

Inductive RequestBody :=
| NoBody
| RulesRequest (sessions : Z) (rules : list Rule)
| BotRequest (settings : BotSettings).

Record HttpRequest := {
  rq_Method : string; rq_Path : string; rq_IfMatch : string; rq_Authorization : string; rq_Body : RequestBody
}.
#[export] Instance RequestBody_eq_dec : EqDecision RequestBody.
Proof. solve_decision. Defined.
#[export] Instance HttpRequest_eq_dec : EqDecision HttpRequest.
Proof. solve_decision. Defined.

Record SessionResponse := {
  sn_Actor : string; sn_Role : string; sn_RulesWrite : bool; sn_APIVersion : string; sn_ServerVersion : string; sn_Commit : string;
  sn_StartedTime : Z; sn_Degraded : bool; sn_DegradedCause : string
}.
Definition ManagementAPIVersion : string := "1".

Inductive Payload :=
| MessagePayload (message : string)
| ConfigPayload (body : Body)
| RunningPayload (running : bool)
| ReloadPayload (port rules : Z)
| ReloadFailedPayload (e : ReloadError)
| RulesPayload (items : list Rule)
| StatsPayload (items : list (TrafficSnapshot * option TrafficQuotaSnapshot))
| CurrentPrecheckPayload (error : string) (rules : Z) (check : Result)
| SessionPayload (session : SessionResponse).

Record HttpResponse := { hr_Status : Z; hr_ETag : string; hr_Payload : Payload }.

(** [http.RoundTripper]: the server is the state behind it. *)
Class Transport := { Server : Type; round_trip : HttpRequest → IO Server string HttpResponse }.

(** ** The client *)

Record Client := { cl_baseURL : string; cl_token : string }.
Definition NewClient (baseURL token : string) : Client :=
  {| cl_baseURL := TrimRightSet (TrimSpace baseURL) "/"; cl_token := TrimSpace token |}.
Definition HasToken (c : option Client) : bool :=
  match c with Some c => negb (bool_decide (cl_token c = "")) | None => false end.

(** [strconv.Quote], exact on ASCII. *)
Definition hex_char (n : nat) : ascii := ascii_of_nat (if (n <? 10)%nat then 48 + n else 87 + n).
Definition quote_char (c : ascii) : list ascii :=
  let n := nat_of_ascii c in
  if (n =? 34)%nat || (n =? 92)%nat then ["\"%char; c]
  else if (n =? 7)%nat then ["\"; "a"]%char else if (n =? 8)%nat then ["\"; "b"]%char
  else if (n =? 12)%nat then ["\"; "f"]%char else if (n =? 10)%nat then ["\"; "n"]%char
  else if (n =? 13)%nat then ["\"; "r"]%char else if (n =? 9)%nat then ["\"; "t"]%char
  else if (n =? 11)%nat then ["\"; "v"]%char
  else if (n <? 32)%nat || (n =? 127)%nat then ["\"; "x"; hex_char (n / 16); hex_char (n mod 16)]%char
  else [c].
Definition Quote (s : string) : string := of_list ([quote] ++ mjoin (quote_char <$> to_list s) ++ [quote]).

Definition NormalizeETag (value : string) : string :=
  let value := TrimSpace value in
  let q := of_list [quote] in
  if bool_decide (value = "") || bool_decide (value = "*") || HasPrefix value ("W/" +:+ q) || (HasPrefix value q && HasSuffix value q)
  then value else Quote value.

Definition responseETag (header revision : string) : string :=
  let value := TrimSpace header in
  if negb (bool_decide (value = "")) then value else NormalizeETag revision.

Definition acceptedStatus (status : Z) (accepted : list Z) : bool := bool_decide (status ∈ accepted).

Inductive ClientError := TransportError (e : string) | APIError (status : Z) (payload : Payload).
Definition APIStatus (e : ClientError) : Z := match e with APIError status _ => status | TransportError _ => 0 end.

Record ConfigRulesResponse := {
  cr_Revision : string; cr_Writable : bool; cr_UDPMaxSessions : Z; cr_Rules : list Rule; cr_ETag : string
}.
(** The response of a write: the new configuration and what was done. *)
Record ApplyResponse := { ap_Rules : ConfigRulesResponse; ap_Result : ApplyResult }.
Record ConfigRulesRequest := { cq_UDPMaxSessions : Z; cq_Rules : list Rule }.
Record BotConfigResponse := { bc_Revision : string; bc_Settings : BotSettings; bc_Running : bool; bc_ETag : string }.
Record PrecheckResponse := {
  pc_Revision : string; pc_UDPMaxSessionsChanged : bool; pc_Diff : list configRuleDiff; pc_Precheck : Result
}.

Section client.
Context {transport : Transport}.

Definition authorization (c : Client) : string := if bool_decide (cl_token c = "") then "" else "Bearer " +:+ cl_token c.

Definition doJSON (c : Client) (method path matchTag : string) (body : RequestBody) (accepted : list Z) : IO Server ClientError HttpResponse :=
  map_err TransportError (round_trip {|
    rq_Method := method; rq_Path := path;
    rq_IfMatch := if bool_decide (TrimSpace matchTag = "") then "" else NormalizeETag matchTag;
    rq_Authorization := authorization c; rq_Body := body |}) ≫= λ resp,
  if acceptedStatus (hr_Status resp) accepted then mret resp else fail (APIError (hr_Status resp) (hr_Payload resp)).

(** Decoding fills the fields that the payload has. *)
Definition decode_rules (resp : HttpResponse) : ConfigRulesResponse :=
  match hr_Payload resp with
  | ConfigPayload (RulesBody revision writable sessions rules _) =>
      {| cr_Revision := revision; cr_Writable := writable; cr_UDPMaxSessions := sessions; cr_Rules := rules;
         cr_ETag := responseETag (hr_ETag resp) revision |}
  | _ => {| cr_Revision := ""; cr_Writable := false; cr_UDPMaxSessions := 0; cr_Rules := []; cr_ETag := responseETag (hr_ETag resp) "" |}
  end.
Definition decode_apply (resp : HttpResponse) : ApplyResponse := {|
  ap_Rules := decode_rules resp;
  ap_Result := default {| AppliedRules := 0; StoppedRules := 0; FailedRules := 0; TotalRules := 0; Items := [] |}
                 (match hr_Payload resp with ConfigPayload (RulesBody _ _ _ _ applied) => applied | _ => None end) |}.
Definition decode_bot (resp : HttpResponse) : BotConfigResponse :=
  match hr_Payload resp with
  | ConfigPayload (BotBody revision settings running) =>
      {| bc_Revision := revision; bc_Settings := settings; bc_Running := running; bc_ETag := responseETag (hr_ETag resp) revision |}
  | _ => {| bc_Revision := ""; bc_Settings := {| bs_Token := ""; bs_ChatID := 0; bs_ControlToken := "" |}; bc_Running := false;
            bc_ETag := responseETag (hr_ETag resp) "" |}
  end.
Definition decode_precheck (resp : HttpResponse) : PrecheckResponse :=
  match hr_Payload resp with
  | ConfigPayload (PrecheckBody revision changed diff check) =>
      {| pc_Revision := revision; pc_UDPMaxSessionsChanged := changed; pc_Diff := diff; pc_Precheck := check |}
  | _ => {| pc_Revision := ""; pc_UDPMaxSessionsChanged := false; pc_Diff := [];
            pc_Precheck := {| OK := false; ErrorCount := 0; WarningCount := 0; CheckedRules := 0; ResultItems := [] |} |}
  end.

Definition ConfigRules (c : Client) : IO Server ClientError ConfigRulesResponse :=
  doJSON c "GET" "/v1/config/rules" "" NoBody [200] ≫= λ resp, mret (decode_rules resp).

(** 422 carries findings. *)
Definition ClientPrecheck (c : Client) (matchTag : string) (draft : ConfigRulesRequest) : IO Server ClientError PrecheckResponse :=
  doJSON c "POST" "/v1/config/rules/precheck" matchTag (RulesRequest (cq_UDPMaxSessions draft) (cq_Rules draft)) [200; 422] ≫= λ resp,
  mret (decode_precheck resp).

Definition ClientApply (c : Client) (matchTag : string) (draft : ConfigRulesRequest) : IO Server ClientError ApplyResponse :=
  doJSON c "PUT" "/v1/config/rules" matchTag (RulesRequest (cq_UDPMaxSessions draft) (cq_Rules draft)) [200] ≫= λ resp,
  mret (decode_apply resp).

(** The number of rules. *)
Definition ClientReload (c : Client) : IO Server ClientError Z :=
  doJSON c "POST" "/v1/reload" "" NoBody [200] ≫= λ resp,
  mret (match hr_Payload resp with ReloadPayload _ rules => rules | _ => 0 end).

Definition BotConfig (c : Client) : IO Server ClientError BotConfigResponse :=
  doJSON c "GET" "/v1/config/bot" "" NoBody [200] ≫= λ resp, mret (decode_bot resp).
Definition ApplyBotConfig (c : Client) (matchTag : string) (settings : BotSettings) : IO Server ClientError BotConfigResponse :=
  doJSON c "PUT" "/v1/config/bot" matchTag (BotRequest settings) [200] ≫= λ resp, mret (decode_bot resp).
Definition StartBot (c : Client) : IO Server ClientError () :=
  doJSON c "POST" "/v1/bot/start" "" NoBody [200] ≫= λ _, mret ().
Definition StopBot (c : Client) : IO Server ClientError () :=
  doJSON c "POST" "/v1/bot/stop" "" NoBody [200] ≫= λ _, mret ().

Definition ClientSession (c : Client) : IO Server ClientError SessionResponse :=
  doJSON c "GET" "/v1/session" "" NoBody [200] ≫= λ resp,
  mret (match hr_Payload resp with SessionPayload s => s
        | _ => {| sn_Actor := ""; sn_Role := ""; sn_RulesWrite := false; sn_APIVersion := ""; sn_ServerVersion := ""; sn_Commit := "";
                  sn_StartedTime := 0; sn_Degraded := false; sn_DegradedCause := "" |} end).
Definition ClientRules (c : Client) : IO Server ClientError (list Rule) :=
  doJSON c "GET" "/v1/rules" "" NoBody [200] ≫= λ resp,
  mret (match hr_Payload resp with RulesPayload items => items | _ => [] end).
Definition ClientStats (c : Client) : IO Server ClientError (list (TrafficSnapshot * option TrafficQuotaSnapshot)) :=
  doJSON c "GET" "/v1/stats" "" NoBody [200] ≫= λ resp,
  mret (match hr_Payload resp with StatsPayload items => items | _ => [] end).
Definition CurrentPrecheck (c : Client) : IO Server ClientError (string * Z * Result) :=
  doJSON c "GET" "/v1/precheck" "" NoBody [200; 400] ≫= λ resp,
  mret (match hr_Payload resp with CurrentPrecheckPayload error rules check => (error, rules, check)
        | _ => ("", 0, {| OK := false; ErrorCount := 0; WarningCount := 0; CheckedRules := 0; ResultItems := [] |}) end).
End client.
