(* ===== verification/ControlServer.v ===== *)
(** * The control API as a server (controlapi/server.go, cmd/vmflow/main.go)

    The middleware and the routing of [NewHandler], and the in-process transport
    through which the bot reaches it: a request passes the same throttle, tokens
    and handlers as one from outside, with 127.0.0.1 as its peer.  The daemon's
    state is the runtime, the file, the throttle and the log of the requests that
    reached it; what the world does during the n-th request is [envs n].  The
    certificate routes are disabled in the default build; /metrics is left out. *)

From S2P Require Import Prelude GoStrings Calendar NetIP Rule Config YamlMerge Stats Quota Manager Precheck ControlAuth Store Management FileIO ControlClient.

Record ServerEnv := { se_now : Z; se_request : RequestEnv; se_reload : ReloadEnv; se_read : ReadEnv }.

Section server.
Context `{!TzDatabase, !Net, !Probe, !YamlLib, !YamlNodes, !Sha256, !BotController}.

(** What [/v1/session] says of the build and the start. *)
Record ServerInfo := { si_Version : string; si_Commit : string; si_StartedTime : Z }.
Record Daemon := {
  dm_runtime : Runtime; dm_disk : Disk; dm_limiter : ipLimiter; dm_log : list HttpRequest; dm_info : ServerInfo
}.

(** The body as the handlers decode it; unknown fields are refused. *)
Definition rules_body (body : RequestBody) : result BodyError rulesConfigRequest :=
  match body with
  | RulesRequest sessions rules => Ok {| rc_UDPMaxSessions := Some sessions; rc_Rules := Some rules |}
  | BotRequest _ => Err (BadBody "unknown field")
  | NoBody => Err (BadBody "missing request body")
  end.
Definition bot_body (body : RequestBody) : result BodyError BotSettings :=
  match body with
  | BotRequest settings => Ok settings
  | RulesRequest _ _ => Err (BadBody "unknown field")
  | NoBody => Err (BadBody "missing request body")
  end.

Definition plain (status : Z) (payload : Payload) : HttpResponse := {| hr_Status := status; hr_ETag := ""; hr_Payload := payload |}.
Definition of_response (r : Response) : HttpResponse :=
  {| hr_Status := rs_status r; hr_ETag := default "" (rs_ETag r); hr_Payload := ConfigPayload (rs_body r) |}.
Definition method_not_allowed : HttpResponse := plain 405 (MessagePayload "method not allowed").

Definition bot_is_running (rt : Runtime) : bool := match rt_Bot rt with Some b => bot_running b | None => false end.

Definition handleSession (server : ServerInfo) (info : AuthInfo) (rt : Runtime) : HttpResponse :=
  plain 200 (SessionPayload {|
    sn_Actor := ai_Name info; sn_Role := ai_Role info; sn_RulesWrite := a_enabled (rt_Auth rt) && canWrite info;
    sn_APIVersion := ManagementAPIVersion; sn_ServerVersion := TrimSpace (si_Version server); sn_Commit := TrimSpace (si_Commit server);
    sn_StartedTime := si_StartedTime server; sn_Degraded := rt_degraded rt; sn_DegradedCause := rt_degradedCause rt |}).

Definition precheckResultFromError : Result := {|
  OK := false; ErrorCount := 1; WarningCount := 0; CheckedRules := 0;
  ResultItems := [{| i_Severity := SeverityError; i_Check := "config_load"; i_RuleID := ""; i_Detail := ConfigLoadDetail |}] |}.
Definition handlePrecheck (env : ServerEnv) (rt : Runtime) (d : Disk) : HttpResponse * Disk :=
  let '(checked, d) := PrecheckRuntime (se_reload env) rt d in
  (match checked with
   | Err _ => plain 400 (CurrentPrecheckPayload "configuration could not be loaded" 0 precheckResultFromError)
   | Ok (cfg, check) => plain (if OK check then 200 else 400) (CurrentPrecheckPayload "" (Z.of_nat (length (cf_Rules cfg))) check)
   end, d).

Definition handleReload (env : ServerEnv) (info : AuthInfo) (rt : Runtime) (d : Disk) : HttpResponse * Runtime * Disk :=
  match authorizeWrite (Some info) with
  | Some denied => (of_response denied, rt, d)
  | None =>
      let '(out, rt, d) := Reload (se_reload env) rt d in
      (plain (reload_status (Some info) out)
         (match out with
          | Ok (cfg, _) => ReloadPayload (cf_ControlPort cfg) (Z.of_nat (length (cf_Rules cfg)))
          | Err e => ReloadFailedPayload e
          end), rt, d)
  end.

(** The routes of the mux; every handler checks its method first. *)
Definition route (server : ServerInfo) (env : ServerEnv) (info : AuthInfo) (req : HttpRequest) (rt : Runtime) (d : Disk) : HttpResponse * Runtime * Disk :=
  let to := λ path, bool_decide (rq_Path req = path) in
  let method := λ m, bool_decide (rq_Method req = m) in
  if to "/v1/rules" then
    (if method "GET" then plain 200 (RulesPayload (RunningRules (rt_Manager rt))) else method_not_allowed, rt, d)
  else if to "/v1/stats" then
    (if method "GET" then plain 200 (StatsPayload (SnapshotAll (rt_Manager rt))) else method_not_allowed, rt, d)
  else if to "/v1/session" then
    (if method "GET" then handleSession server info rt else method_not_allowed, rt, d)
  else if to "/v1/config/rules" then
    (if method "GET" then
       let '(r, d) := getRulesConfig (se_read env) (Some info) rt d in (of_response r, rt, d)
     else if method "PUT" then
       let '(r, rt, d) := putRulesConfig (se_request env) (Some info) (rq_IfMatch req) (rules_body (rq_Body req)) rt d in
       (of_response r, rt, d)
     else (method_not_allowed, rt, d))
  else if to "/v1/config/rules/precheck" then
    (if method "POST" then
       let '(r, d) := handleRulesConfigPrecheck (se_request env) (Some info) (rq_IfMatch req) (rules_body (rq_Body req)) rt d in
       (of_response r, rt, d)
     else (method_not_allowed, rt, d))
  else if to "/v1/config/bot" then
    (if method "GET" then
       let '(r, d) := getBotConfig (se_read env) (Some info) rt d in (of_response r, rt, d)
     else if method "PUT" then
       let '(r, rt, d) := putBotConfig (se_request env) (Some info) (rq_IfMatch req) (bot_body (rq_Body req)) rt d in
       (of_response r, rt, d)
     else (method_not_allowed, rt, d))
  else if to "/v1/bot/start" then
    (if method "POST" then
       let '(status, rt, d) := handleBotStart (se_read env) (Some info) rt d in
       (plain status (RunningPayload (bot_is_running rt)), rt, d)
     else (method_not_allowed, rt, d))
  else if to "/v1/bot/stop" then
    (if method "POST" then
       let '(status, rt) := handleBotStop (Some info) rt in (plain status (RunningPayload (bot_is_running rt)), rt, d)
     else (method_not_allowed, rt, d))
  else if to "/v1/precheck" then
    (if method "POST" || method "GET" then
       let '(r, d) := handlePrecheck env rt d in (r, rt, d)
     else (method_not_allowed, rt, d))
  else if to "/v1/reload" then
    (if method "POST" then handleReload env info rt d else (method_not_allowed, rt, d))
  else (plain 404 (MessagePayload "404 page not found"), rt, d).

(** [withMiddleware] around the mux, for one request of [ip]. *)
Definition withMiddleware (env : ServerEnv) (ip : string) (req : HttpRequest) (dm : Daemon) : HttpResponse * Daemon :=
  let '(admission, limiter) := middleware (rt_Auth (dm_runtime dm)) (se_now env) ip (rq_Authorization req) (dm_limiter dm) in
  let log := dm_log dm ++ [req] in
  match admission with
  | RateLimited =>
      (plain 429 (MessagePayload "too many failed auth attempts; try again later"),
       {| dm_runtime := dm_runtime dm; dm_disk := dm_disk dm; dm_limiter := limiter; dm_log := log; dm_info := dm_info dm |})
  | Unauthorized =>
      (plain 401 (MessagePayload "unauthorized"),
       {| dm_runtime := dm_runtime dm; dm_disk := dm_disk dm; dm_limiter := limiter; dm_log := log; dm_info := dm_info dm |})
  | Accepted info =>
      let '(resp, rt, d) := route (dm_info dm) env info req (dm_runtime dm) (dm_disk dm) in
      (resp, {| dm_runtime := rt; dm_disk := d; dm_limiter := limiter; dm_log := log; dm_info := dm_info dm |})
  end.

(** [clientIP] of the in-process request's [RemoteAddr]. *)
Definition clientIP (remoteAddr : string) : string :=
  match SplitHostPort remoteAddr with Some (host, _) => host | None => remoteAddr end.
Definition inProcessAddr : string := "127.0.0.1:0".

(** [inProcessRoundTripper.RoundTrip]. *)
Definition RoundTrip (envs : nat → ServerEnv) (req : HttpRequest) : IO Daemon string HttpResponse := λ dm,
  let '(resp, dm') := withMiddleware (envs (length (dm_log dm))) (clientIP inProcessAddr) req dm in (Ok resp, dm').

Definition in_process (envs : nat → ServerEnv) : Transport := {| Server := Daemon; round_trip := RoundTrip envs |}.

(** [newBotControlFn]. *)
Definition newBotControl (controlToken : string) : option Client :=
  if bool_decide (TrimSpace controlToken = "") then None else Some (NewClient "http://vmflow.internal" controlToken).
End server.
