(* ===== verification/BotManager.v ===== *)
(** * The life cycle of the Telegram bot (bot/manager.go)

    [Manager] owns the goroutine that polls Telegram.  Its methods run under the
    mutex and are one step each; a goroutine has two: its [Start] returns, and
    later its last section under the mutex runs.  Goroutines stay in the state
    after their end, with the context they were given: the index of a goroutine
    names its context and its bot.  The Telegram library and the network answer
    with a [BotAnswer].  [bot_process] is the [BotController] of the control API. *)

From S2P Require Import Prelude GoStrings Management.

(** ** State *)

Inductive Phase := Polling | Returned | Ended.
#[export] Instance Phase_eq_dec : EqDecision Phase.
Proof. solve_decision. Defined.

Record Poller := { po_generation : Z; po_settings : BotSettings; po_cancelled : bool; po_phase : Phase }.

Record BotManager := {
  bm_bot : option nat; bm_cancel : option nat; bm_running : bool; bm_generation : Z;      (* [uint64] *)
  bm_pollers : list Poller
}.
Definition NewBotManager : BotManager :=
  {| bm_bot := None; bm_cancel := None; bm_running := false; bm_generation := 0; bm_pollers := [] |}.

Definition incr64 (z : Z) : Z := (z + 1) mod 2 ^ 64.

Definition cancel_poller (p : Poller) : Poller :=
  {| po_generation := po_generation p; po_settings := po_settings p; po_cancelled := true; po_phase := po_phase p |}.
Definition set_phase (phase : Phase) (p : Poller) : Poller :=
  {| po_generation := po_generation p; po_settings := po_settings p; po_cancelled := po_cancelled p; po_phase := phase |}.

Definition stopLocked (m : BotManager) : BotManager := {|
  bm_bot := None; bm_cancel := None; bm_running := false; bm_generation := incr64 (bm_generation m);
  bm_pollers := match bm_cancel m with Some i => alter cancel_poller i (bm_pollers m) | None => bm_pollers m end |}.

(** ** Starting *)

(** An error of Telegram's API carries two codes; others do not reach it. *)
Inductive ReadyError := TelegramError (statusCode code : Z) | OtherReadyError.
Inductive FactoryAnswer := FactoryMissing | FactoryFailed | FactoryNil | Candidate.
Record BotAnswer := { ba_newBot : FactoryAnswer; ba_ready : option ReadyError }.

Definition rejecting_code (code : Z) : bool := bool_decide (code ∈ [400; 401; 403; 404]).
Definition classifyReadinessError (e : ReadyError) : BotError :=
  match e with
  | TelegramError statusCode code =>
      if rejecting_code statusCode || rejecting_code code then BotValidationError else BotUnavailableError
  | OtherReadyError => BotUnavailableError
  end.

(** The goroutine of the new bot. *)
Definition start_poller (settings : BotSettings) (m : BotManager) : BotManager :=
  let generation := incr64 (bm_generation m) in
  let i := length (bm_pollers m) in
  {| bm_bot := Some i; bm_cancel := Some i; bm_running := true; bm_generation := generation;
     bm_pollers := bm_pollers m ++ [{| po_generation := generation; po_settings := settings; po_cancelled := false; po_phase := Polling |}] |}.

Definition BotApply (answer : BotAnswer) (settings : BotSettings) (m : BotManager) : option BotError * BotManager :=
  let settings := normalizeBotSettings settings in
  if bool_decide (bs_Token settings = "") || (bs_ChatID settings =? 0) then (None, stopLocked m)
  else match ba_newBot answer with
  | FactoryMissing => (Some BotUnavailableError, m)
  | FactoryFailed => (Some BotValidationError, m)
  | FactoryNil => (Some BotUnavailableError, m)
  | Candidate =>
      match ba_ready answer with
      | Some e => (Some (classifyReadinessError e), m)
      | None => (None, start_poller settings (stopLocked m))
      end
  end.

Definition BotStop (m : BotManager) : option BotError * BotManager := (None, stopLocked m).

(** ** The goroutine *)

Definition set_pollers (pollers : list Poller) (m : BotManager) : BotManager :=
  {| bm_bot := bm_bot m; bm_cancel := bm_cancel m; bm_running := bm_running m; bm_generation := bm_generation m; bm_pollers := pollers |}.

(** [Start] returns: it was cancelled, or polling failed. *)
Definition poller_returns (i : nat) (m : BotManager) : BotManager :=
  match bm_pollers m !! i with
  | Some p => if bool_decide (po_phase p = Polling) then set_pollers (alter (set_phase Returned) i (bm_pollers m)) m else m
  | None => m
  end.
(** The section after it. *)
Definition poller_ends (i : nat) (m : BotManager) : BotManager :=
  match bm_pollers m !! i with
  | Some p =>
      if bool_decide (po_phase p = Returned) then
        let pollers := alter (set_phase Ended) i (bm_pollers m) in
        if bm_generation m =? po_generation p
        then {| bm_bot := None; bm_cancel := None; bm_running := false; bm_generation := bm_generation m; bm_pollers := pollers |}
        else set_pollers pollers m
      else m
  | None => m
  end.

Inductive PollerEvent := PollerReturns (i : nat) | PollerEnds (i : nat).
Definition poller_event (m : BotManager) (e : PollerEvent) : BotManager :=
  match e with PollerReturns i => poller_returns i m | PollerEnds i => poller_ends i m end.

Inductive BotOp := OpApply (answer : BotAnswer) (settings : BotSettings) | OpStop | OpEvent (e : PollerEvent).
Definition bot_step (m : BotManager) (op : BotOp) : BotManager :=
  match op with
  | OpApply answer settings => (BotApply answer settings m).2
  | OpStop => (BotStop m).2
  | OpEvent e => poller_event m e
  end.
Definition bot_run (ops : list BotOp) (m : BotManager) : BotManager := foldl bot_step m ops.

(** ** The controller of the control API

    What the goroutines did before the n-th call, and how Telegram answers it. *)

Record BotProcess := { bp_manager : BotManager; bp_calls : nat }.

Definition bot_process (answers : nat → list PollerEvent * BotAnswer) : BotController := {|
  Bot := BotProcess;
  bot_apply settings b :=
    let '(events, answer) := answers (bp_calls b) in
    let '(e, m) := BotApply answer settings (foldl poller_event (bp_manager b) events) in
    (e, {| bp_manager := m; bp_calls := S (bp_calls b) |});
  bot_stop b :=
    let '(events, _) := answers (bp_calls b) in
    let '(e, m) := BotStop (foldl poller_event (bp_manager b) events) in
    (e, {| bp_manager := m; bp_calls := S (bp_calls b) |});
  bot_running b := bm_running (bp_manager b) |}.

(** ** What it comes to: which bot is in service *)

(** A goroutine whose context is not cancelled and that has not ended. *)
Definition live (p : Poller) : Prop := po_cancelled p = false ∧ po_phase p ≠ Ended.
Definition in_service (m : BotManager) : option BotSettings := i ← bm_bot m; po_settings <$> bm_pollers m !! i.

Record bot_inv (n : Z) (m : BotManager) : Prop := {
  bi_generation : 0 ≤ bm_generation m ≤ n;
  bi_pollers : ∀ i p, bm_pollers m !! i = Some p → po_generation p ≤ bm_generation m;
  bi_distinct : ∀ i j p q, bm_pollers m !! i = Some p → bm_pollers m !! j = Some q → po_generation p = po_generation q → i = j;
  bi_live : ∀ i p, bm_pollers m !! i = Some p → live p →
    bm_running m = true ∧ bm_bot m = Some i ∧ bm_cancel m = Some i ∧ po_generation p = bm_generation m;
  bi_running : bm_running m = true → ∃ i p, bm_bot m = Some i ∧ bm_pollers m !! i = Some p ∧ live p;
  bi_stopped : bm_running m = false → bm_bot m = None ∧ bm_cancel m = None;
  bi_current : ∀ i p, bm_pollers m !! i = Some p → po_generation p = bm_generation m → po_phase p ≠ Ended → live p;
}.
Arguments bi_generation {n m}.
Arguments bi_pollers {n m}.
Arguments bi_distinct {n m}.
Arguments bi_live {n m}.
Arguments bi_running {n m}.
Arguments bi_stopped {n m}.
Arguments bi_current {n m}.

Lemma bot_inv_new : bot_inv 0 NewBotManager.
Proof. split; simpl; try done; intros i; intros; by rewrite lookup_nil in *. Qed.

Lemma incr64_small z n : 0 ≤ z ≤ n → n + 1 < 2 ^ 64 → incr64 z = z + 1.
Proof. intros ??. unfold incr64. apply Z.mod_small. lia. Qed.

Lemma alter_lookup {A} (f : A → A) i j (l : list A) y : alter f i l !! j = Some y →
  ∃ x, l !! j = Some x ∧ (i = j ∧ y = f x ∨ i ≠ j ∧ y = x).
Proof.
  intros H. destruct (decide (i = j)) as [->|Hne].
  - rewrite list_lookup_alter_eq in H. destruct (l !! j) as [x|]; [|done]. injection H as <-. eauto.
  - rewrite list_lookup_alter_ne in H by done. eauto.
Qed.

Lemma stopLocked_inv n m : bot_inv n m → n + 1 < 2 ^ 64 → bot_inv (n + 1) (stopLocked m) ∧ bm_bot (stopLocked m) = None ∧
  length (bm_pollers (stopLocked m)) = length (bm_pollers m) ∧
  (∀ i p, bm_pollers (stopLocked m) !! i = Some p → ¬ live p).
Proof.
  intros Hi Hn. pose proof (bi_generation Hi) as Hg. pose proof (incr64_small _ _ Hg Hn) as Hinc.
  assert (∀ i p, bm_pollers (stopLocked m) !! i = Some p →
    ¬ live p ∧ ∃ q, bm_pollers m !! i = Some q ∧ po_generation p = po_generation q) as Hp.
  { intros i p. unfold stopLocked. cbn [bm_pollers]. destruct (bm_cancel m) as [c|] eqn:Hc.
    - intros (q & Hq & [[-> ->]|[Hne ->]])%alter_lookup.
      + split; [by intros [? _]|eauto].
      + split; [|eauto]. intros Hl. destruct (bi_live Hi i q Hq Hl) as (_ & _ & Hc' & _). congruence.
    - intros Hq. split; [|eauto]. intros Hl. destruct (bi_live Hi i p Hq Hl) as (_ & _ & Hc' & _). congruence. }
  split_and!; [|done| |intros i p H; by apply (Hp i)].
  2:{ unfold stopLocked. cbn [bm_pollers]. destruct (bm_cancel m); [by rewrite length_alter|done]. }
  split; cbn [stopLocked bm_generation bm_bot bm_cancel bm_running bm_pollers]; fold (stopLocked m).
  - lia.
  - intros i p (_ & q & Hq & ->)%Hp. pose proof (bi_pollers Hi i q Hq). lia.
  - intros i j p q (_ & p' & Hp' & ->)%Hp (_ & q' & Hq' & ->)%Hp. by apply (bi_distinct Hi).
  - by intros i p [? _]%Hp ?.
  - done.
  - done.
  - intros i p (_ & q & Hq & Hpg)%Hp E. pose proof (bi_pollers Hi i q Hq). lia.
Qed.

(** Starting after a stop. *)
Lemma start_poller_inv n m settings : bot_inv n m → n + 1 < 2 ^ 64 →
  (∀ i p, bm_pollers m !! i = Some p → ¬ live p) →
  bot_inv (n + 1) (start_poller settings m) ∧ in_service (start_poller settings m) = Some settings.
Proof.
  intros Hi Hn Hdead. pose proof (bi_generation Hi) as Hg. pose proof (incr64_small _ _ Hg Hn) as Hinc.
  set (new := {| po_generation := incr64 (bm_generation m); po_settings := settings; po_cancelled := false; po_phase := Polling |}).
  assert (∀ i p, (bm_pollers m ++ [new]) !! i = Some p →
    (i = length (bm_pollers m) ∧ p = new) ∨ (bm_pollers m !! i = Some p ∧ po_generation p ≤ bm_generation m ∧ i ≠ length (bm_pollers m))) as Hp.
  { intros i p [H|[Hlt H]]%lookup_app_Some.
    - right. split; [done|]. split; [by apply (bi_pollers Hi i)|]. apply lookup_lt_Some in H. lia.
    - left. apply list_lookup_singleton_Some in H as [E <-]. split; [lia|done]. }
  assert ((bm_pollers m ++ [new]) !! length (bm_pollers m) = Some new) as Hnew by by apply list_lookup_middle.
  assert (live new) as Hlive by by split.
  split.
  2:{ unfold in_service, start_poller. cbn [bm_bot bm_pollers mbind option_bind]. fold new. by rewrite Hnew. }
  split; cbn [start_poller bm_generation bm_bot bm_cancel bm_running bm_pollers]; fold new.
  - lia.
  - intros i p [[-> ->]|(_ & ? & _)]%Hp; simpl; lia.
  - intros i j p q [[-> ->]|(H1 & ? & ?)]%Hp [[-> ->]|(H2 & ? & ?)]%Hp E; simpl in *; [done|lia|lia|by apply (bi_distinct Hi i j p q)].
  - intros i p [[-> ->]|(H1 & _)]%Hp Hl; [done|]. by destruct (Hdead i p H1).
  - intros _. by exists (length (bm_pollers m)), new.
  - done.
  - intros i p [[-> ->]|(H1 & ? & _)]%Hp E; [done|]. lia.
Qed.

Lemma live_set_phase phase p : phase ≠ Ended → live (set_phase phase p) ↔ po_cancelled p = false.
Proof. intros. split; [by intros [? _]|by split]. Qed.

Lemma poller_returns_inv n m i : bot_inv n m → bot_inv n (poller_returns i m) ∧ in_service (poller_returns i m) = in_service m ∧
  bm_running (poller_returns i m) = bm_running m.
Proof.
  intros Hi. unfold poller_returns. destruct (bm_pollers m !! i) as [p|] eqn:Hp; [|done]. case_bool_decide as Hph; [|done].
  split_and!; [|unfold in_service; cbn [set_pollers bm_bot bm_pollers]|done].
  2:{ destruct (bm_bot m) as [j|]; [|done]. cbn [mbind option_bind]. destruct (decide (i = j)) as [->|Hne].
      - by rewrite list_lookup_alter_eq, Hp.
      - by rewrite list_lookup_alter_ne. }
  assert (∀ j q, alter (set_phase Returned) i (bm_pollers m) !! j = Some q →
    ∃ q', bm_pollers m !! j = Some q' ∧ po_generation q = po_generation q' ∧ (live q ↔ live q') ∧ (po_phase q ≠ Ended → po_phase q' ≠ Ended)) as Hq.
  { intros j q (q' & Hq' & [[-> ->]|[_ ->]])%alter_lookup; exists q'; [|done].
    rewrite Hq' in Hp. injection Hp as ->. split_and!; [done|done| |congruence].
    rewrite live_set_phase by done. split; [intros; split; congruence|by intros [? _]]. }
  split; cbn [set_pollers bm_generation bm_bot bm_cancel bm_running bm_pollers].
  - apply (bi_generation Hi).
  - intros j q (q' & Hq' & -> & _)%Hq. by apply (bi_pollers Hi j).
  - intros j k q r (q' & Hq' & -> & _)%Hq (r' & Hr' & -> & _)%Hq. by apply (bi_distinct Hi).
  - intros j q (q' & Hq' & -> & Hl & _)%Hq Hlive. apply (bi_live Hi j q' Hq'). by apply Hl.
  - intros (j & q & Hb & Hl & Hlive)%(bi_running Hi). exists j. destruct (decide (i = j)) as [->|Hne].
    + exists (set_phase Returned q). rewrite list_lookup_alter_eq, Hl. split_and!; [done|done|].
      apply live_set_phase; [done|]. apply Hlive.
    + exists q. by rewrite list_lookup_alter_ne.
  - apply (bi_stopped Hi).
  - intros j q (q' & Hq' & -> & Hl & Hph')%Hq E Hne. apply Hl, (bi_current Hi j q'); [done|done|auto].
Qed.

(** The goroutine whose generation is over leaves the bot in service alone. *)
Lemma poller_ends_inv n m i : bot_inv n m → bot_inv n (poller_ends i m) ∧
  (in_service (poller_ends i m) = in_service m ∨ (bm_bot m = Some i ∧ in_service (poller_ends i m) = None)).
Proof.
  intros Hi. unfold poller_ends. destruct (bm_pollers m !! i) as [p|] eqn:Hp; [|by split; [|left]].
  case_bool_decide as Hph; [|by split; [|left]]. cbv zeta.
  assert (∀ j q, alter (set_phase Ended) i (bm_pollers m) !! j = Some q →
    ∃ q', bm_pollers m !! j = Some q' ∧ po_generation q = po_generation q' ∧ (live q → live q' ∧ j ≠ i) ∧ (po_phase q ≠ Ended → j ≠ i ∧ q = q')) as Hq.
  { intros j q (q' & Hq' & [[-> ->]|[? ->]])%alter_lookup; exists q'; split_and!; try done; by intros []. }
  destruct (bm_generation m =? po_generation p) eqn:Hg; [apply Z.eqb_eq in Hg|apply Z.eqb_neq in Hg].
  - destruct (bi_live Hi i p Hp) as (_ & Hb & _); [apply (bi_current Hi i p Hp); congruence|].
    split; [|by right].
    split; cbn [bm_generation bm_bot bm_cancel bm_running bm_pollers].
    + apply (bi_generation Hi).
    + intros j q (q' & Hq' & -> & _)%Hq. by apply (bi_pollers Hi j).
    + intros j k q r (q' & Hq' & -> & _)%Hq (r' & Hr' & -> & _)%Hq. by apply (bi_distinct Hi).
    + intros j q (q' & Hq' & -> & Hl & _)%Hq Hlive. destruct (Hl Hlive) as [Hl' Hne].
      destruct (bi_live Hi j q' Hq' Hl') as (_ & Hb' & _). congruence.
    + done.
    + done.
    + intros j q (q' & Hq' & Hge & _ & Hne)%Hq E Hph'. destruct (Hne Hph') as [Hji ->].
      destruct Hji. by apply (bi_distinct Hi j i q' p); [..|congruence].
  - split.
    + split; cbn [set_pollers bm_generation bm_bot bm_cancel bm_running bm_pollers].
      * apply (bi_generation Hi).
      * intros j q (q' & Hq' & -> & _)%Hq. by apply (bi_pollers Hi j).
      * intros j k q r (q' & Hq' & -> & _)%Hq (r' & Hr' & -> & _)%Hq. by apply (bi_distinct Hi).
      * intros j q (q' & Hq' & -> & Hl & _)%Hq Hlive. destruct (Hl Hlive) as [Hl' Hne]. by apply (bi_live Hi j q').
      * intros (j & q & Hb & Hl & Hlive)%(bi_running Hi). exists j, q. rewrite list_lookup_alter_ne; [done|].
        intros ->. rewrite Hl in Hp. injection Hp as ->. by destruct (bi_live Hi j p Hl Hlive) as (_ & _ & _ & ?).
      * apply (bi_stopped Hi).
      * intros j q (q' & Hq' & Hge & _ & Hne)%Hq E Hph'. destruct (Hne Hph') as [Hji ->]. by apply (bi_current Hi j q').
    + unfold in_service. cbn [set_pollers bm_bot bm_pollers]. destruct (bm_bot m) as [j|] eqn:Hb; [|by left].
      cbn [mbind option_bind]. destruct (decide (i = j)) as [->|Hne].
      * left. by rewrite list_lookup_alter_eq, Hp.
      * left. by rewrite list_lookup_alter_ne.
Qed.

(** ** The contract of the controller *)

Definition verdict (answer : BotAnswer) : option BotError :=
  match ba_newBot answer with
  | FactoryMissing | FactoryNil => Some BotUnavailableError
  | FactoryFailed => Some BotValidationError
  | Candidate => classifyReadinessError <$> ba_ready answer
  end.
Definition bot_disabled (settings : BotSettings) : bool :=
  bool_decide (bs_Token (normalizeBotSettings settings) = "") || (bs_ChatID settings =? 0).

(** The answer of [Apply] and the bot in service afterwards. *)
Definition applied (answer : BotAnswer) (settings : BotSettings) (old : option BotSettings) : option BotError * option BotSettings :=
  if bot_disabled settings then (None, None)
  else match verdict answer with
       | None => (None, Some (normalizeBotSettings settings))
       | Some e => (Some e, old)
       end.

Lemma running_in_service n m : bot_inv n m → bm_running m = true ↔ is_Some (in_service m).
Proof.
  intros Hi. unfold in_service. split.
  - intros (i & p & -> & Hp & _)%(bi_running Hi). cbn [mbind option_bind]. rewrite Hp. by eexists.
  - intros [s Hs]. destruct (bm_running m) eqn:E; [done|]. destruct (bi_stopped Hi E) as [Hb _]. by rewrite Hb in Hs.
Qed.

Lemma bot_inv_mono n n' m : bot_inv n m → n ≤ n' → bot_inv n' m.
Proof. intros Hi Hle. pose proof (bi_generation Hi). destruct Hi. split; auto. lia. Qed.

Lemma BotApply_effect n m answer settings : bot_inv n m → n + 2 < 2 ^ 64 →
  let out := BotApply answer settings m in
  bot_inv (n + 2) out.2 ∧ (out.1, in_service out.2) = applied answer settings (in_service m).
Proof.
  intros Hi Hn. cbv zeta. unfold BotApply, applied, bot_disabled. cbn [bs_ChatID normalizeBotSettings].
  destruct (stopLocked_inv n m Hi) as (Hs & Hb & Hlen & Hdead); [lia|].
  case_match.
  { split; [eapply bot_inv_mono; [exact Hs|lia]|]. unfold in_service. cbn [fst snd]. by rewrite Hb. }
  unfold verdict. destruct (ba_newBot answer); try (split; [eapply bot_inv_mono; [exact Hi|lia]|done]).
  destruct (ba_ready answer) as [e|]; [by split; [eapply bot_inv_mono; [exact Hi|lia]|]|].
  destruct (start_poller_inv (n + 1) (stopLocked m) (normalizeBotSettings settings) Hs) as [H1 H2]; [lia|done|].
  cbn [fst snd fmap option_fmap option_map]. rewrite H2. split; [eapply bot_inv_mono; [exact H1|lia]|done].
Qed.

Lemma BotStop_effect n m : bot_inv n m → n + 1 < 2 ^ 64 → bot_inv (n + 1) (BotStop m).2 ∧ in_service (BotStop m).2 = None.
Proof.
  intros Hi Hn. destruct (stopLocked_inv n m Hi Hn) as (Hs & Hb & _). split; [done|]. unfold in_service, BotStop. cbn [snd]. by rewrite Hb.
Qed.

Lemma poller_event_effect n m e : bot_inv n m → bot_inv n (poller_event m e) ∧
  (in_service (poller_event m e) = in_service m ∨ in_service (poller_event m e) = None).
Proof.
  intros Hi. destruct e as [i|i]; simpl.
  - destruct (poller_returns_inv n m i Hi) as (? & ? & _). auto.
  - destruct (poller_ends_inv n m i Hi) as (? & [?|[_ ?]]); auto.
Qed.

Lemma poller_events_effect n m events : bot_inv n m → bot_inv n (foldl poller_event m events) ∧
  (in_service (foldl poller_event m events) = in_service m ∨ in_service (foldl poller_event m events) = None).
Proof.
  revert m. induction events as [|e events IH]; intros m Hi; simpl; [auto|].
  destruct (poller_event_effect n m e Hi) as [H1 H2]. destruct (IH _ H1) as [H3 H4]. split; [done|].
  destruct H4 as [->|]; auto.
Qed.

(** One call or event, seen from outside: a failed [Apply] changes nothing, and
    a bot whose goroutine ends is gone. *)
Inductive bot_spec_step (s : option BotSettings) : BotOp → option BotSettings → Prop :=
| SpecApply answer settings : bot_spec_step s (OpApply answer settings) (applied answer settings s).2
| SpecStop : bot_spec_step s OpStop None
| SpecQuiet e : bot_spec_step s (OpEvent e) s
| SpecEnded i : bot_spec_step s (OpEvent (PollerEnds i)) None.
Inductive bot_spec : list BotOp → option BotSettings → Prop :=
| SpecNew : bot_spec [] None
| SpecSnoc ops op s s' : bot_spec ops s → bot_spec_step s op s' → bot_spec (ops ++ [op]) s'.

Lemma bot_step_effect n m op : bot_inv n m → n + 2 < 2 ^ 64 →
  bot_inv (n + 2) (bot_step m op) ∧ bot_spec_step (in_service m) op (in_service (bot_step m op)).
Proof.
  intros Hi Hn. destruct op as [answer settings| |e]; cbn [bot_step].
  - destruct (BotApply_effect n m answer settings Hi Hn) as [H1 H2]. split; [done|].
    replace (in_service (BotApply answer settings m).2) with (applied answer settings (in_service m)).2 by by rewrite <-H2.
    constructor.
  - destruct (BotStop_effect n m Hi) as [H1 ->]; [lia|]. split; [eapply bot_inv_mono; [exact H1|lia]|constructor].
  - destruct e as [i|i]; cbn [poller_event].
    + destruct (poller_returns_inv n m i Hi) as (H1 & -> & _). split; [eapply bot_inv_mono; [exact H1|lia]|constructor].
    + destruct (poller_ends_inv n m i Hi) as (H1 & [->|[_ ->]]); (split; [eapply bot_inv_mono; [exact H1|lia]|constructor]).
Qed.

Lemma bot_run_effect ops : 2 * Z.of_nat (length ops) < 2 ^ 64 →
  bot_inv (2 * Z.of_nat (length ops)) (bot_run ops NewBotManager) ∧ bot_spec ops (in_service (bot_run ops NewBotManager)).
Proof.
  induction ops as [|op ops IH] using rev_ind; intros Hlen; [split; [apply bot_inv_new|constructor]|].
  rewrite length_app in *. cbn [length] in *. destruct IH as [H1 H2]; [lia|].
  unfold bot_run in *. rewrite foldl_app. cbn [foldl].
  destruct (bot_step_effect _ _ op H1) as [H3 H4]; [lia|]. split; [eapply bot_inv_mono; [exact H3|lia]|].
  by eapply SpecSnoc.
Qed.

(** C33: The bot manager refines the contract of the control API, whatever its
    goroutines do between the calls and however late the old ones end: a failed
    [Apply] leaves the bot in service, a successful one puts the new settings in
    service, and a stop or empty settings none.  There is never more than one bot
    that is not cancelled, and [Running] says whether there is one. *)
Theorem bot_manager_refines_contract (ops : list BotOp) (Hops : 2 * Z.of_nat (length ops) < 2 ^ 64) :
  let m := bot_run ops NewBotManager in
  bot_spec ops (in_service m) ∧
  (∀ i j p q, bm_pollers m !! i = Some p → bm_pollers m !! j = Some q → live p → live q → i = j) ∧
  (∀ s, in_service m = Some s ↔ ∃ i p, bm_pollers m !! i = Some p ∧ live p ∧ po_settings p = s) ∧
  (bm_running m = true ↔ is_Some (in_service m)).
Proof.
  cbv zeta. destruct (bot_run_effect ops Hops) as [Hi Hspec]. set (m := bot_run ops NewBotManager) in *.
  split_and!; [done| | |by eapply running_in_service].
  - intros i j p q Hp Hq Hlp Hlq. destruct (bi_live Hi i p Hp Hlp) as (_ & H1 & _). destruct (bi_live Hi j q Hq Hlq) as (_ & H2 & _). congruence.
  - intros s. split.
    + intros Hs. destruct (bi_running Hi) as (i & p & Hb & Hp & Hl); [by apply (running_in_service _ _ Hi)|].
      exists i, p. split_and!; [done|done|]. unfold in_service in Hs. rewrite Hb in Hs. cbn [mbind option_bind] in Hs.
      rewrite Hp in Hs. by injection Hs.
    + intros (i & p & Hp & Hl & <-). destruct (bi_live Hi i p Hp Hl) as (_ & Hb & _). unfold in_service. rewrite Hb.
      cbn [mbind option_bind]. by rewrite Hp.
Qed.

Definition demo_settings (token : string) : BotSettings := {| bs_Token := token; bs_ChatID := 1; bs_ControlToken := "" |}.
Definition accepting : BotAnswer := {| ba_newBot := Candidate; ba_ready := None |}.
Definition refusing : BotAnswer := {| ba_newBot := Candidate; ba_ready := Some (TelegramError 401 401) |}.
(** The old bot ends after its successor has started, and after a refused one. *)
Definition demo_ops : list BotOp :=
  [OpApply accepting (demo_settings "one"); OpApply accepting (demo_settings "two"); OpEvent (PollerReturns 0);
   OpApply refusing (demo_settings "three"); OpEvent (PollerEnds 0)].

Lemma bot_manager_refines_contract_witness :
  in_service (bot_run demo_ops NewBotManager) = Some (demo_settings "two") ∧
  bm_running (bot_run demo_ops NewBotManager) = true.
Proof.
  destruct (bot_manager_refines_contract demo_ops) as (_ & _ & _ & Hr); [vm_compute; reflexivity|].
  assert (in_service (bot_run demo_ops NewBotManager) = Some (demo_settings "two")) as E by (vm_compute; reflexivity).
  split; [exact E|]. apply Hr. rewrite E. by eexists.
Defined.
