(* ===== verification/BotSpec.v ===== *)
(** * The bot behind the control API

    The handlers of the control API are proved against any [BotController]
    (ManagementSpec); here the controller is the bot manager (BotManager), whose
    goroutines may end at any moment between two calls. *)

From S2P Require Import Prelude GoStrings Calendar NetIP Rule Config YamlMerge Stats Quota Manager Precheck ControlAuth Store.
From S2P Require Import Management ManagerSpec ManagementSpec BotManager.

Section composed.
Context {tz : TzDatabase} {net : Net} {probe : Probe} {yl : YamlLib} {yn : YamlNodes} {sha : Sha256}
  (answers : nat → list PollerEvent * BotAnswer).
#[local] Instance bot : BotController := bot_process answers.

Lemma bot_apply_effect n (b : Bot) settings out b' : bot_inv n (bp_manager b) → n + 2 < 2 ^ 64 → bot_apply settings b = (out, b') →
  bot_inv (n + 2) (bp_manager b') ∧ ∃ answer old, (out, in_service (bp_manager b')) = applied answer settings old ∧
    (old = in_service (bp_manager b) ∨ old = None).
Proof.
  intros Hi Hn. cbn [bot_apply bot bot_process]. destruct (answers (bp_calls b)) as [events answer].
  destruct (poller_events_effect n (bp_manager b) events Hi) as [H1 H2].
  destruct (BotApply_effect n _ answer settings H1 Hn) as [H3 H4].
  destruct (BotApply answer settings _) as [e m]. intros [= <- <-]. split; [done|]. by exists answer, (in_service (foldl poller_event (bp_manager b) events)).
Qed.

Lemma bot_stop_effect n (b : Bot) out b' : bot_inv n (bp_manager b) → n + 1 < 2 ^ 64 → bot_stop b = (out, b') →
  out = None ∧ bot_inv (n + 1) (bp_manager b') ∧ in_service (bp_manager b') = None.
Proof.
  intros Hi Hn. cbn [bot_stop bot bot_process]. destruct (answers (bp_calls b)) as [events answer].
  destruct (poller_events_effect n (bp_manager b) events Hi) as [H1 _].
  destruct (BotStop_effect n _ H1 Hn) as [H2 H3]. intros [= <- <-]. done.
Qed.

(** The bot that settings put in service; none without a token or chat. *)
Definition chosen (settings : BotSettings) : option BotSettings :=
  if bot_disabled settings then None else Some (normalizeBotSettings settings).
(** A bot in service may have ended meanwhile. *)
Definition still (s s' : option BotSettings) : Prop := s' = s ∨ s' = None.

Lemma applied_Ok answer settings old s' : (None, s') = applied answer settings old → s' = chosen settings.
Proof. unfold applied, chosen. destruct (bot_disabled settings); [congruence|]. destruct (verdict answer); congruence. Qed.
Lemma applied_Err answer settings old e s' : (Some e, s') = applied answer settings old → s' = old.
Proof. unfold applied. destruct (bot_disabled settings); [congruence|]. destruct (verdict answer); congruence. Qed.

(** Settings read from a file are trimmed; that does not change the choice. *)
Lemma chosen_normalized settings : chosen (normalizeBotSettings settings) = chosen settings.
Proof.
  unfold chosen, bot_disabled, normalizeBotSettings. simpl. by rewrite !TrimSpace_idemp.
Qed.

(** Which bot a write leaves in service.  [previous] is what the document says
    whose revision the client named: the file before the request. *)
Inductive bot_left (ifMatch : string) body (b b' : option BotSettings) (response : Response) (rt' : Runtime) : Prop :=
| LeftAlone : still b b' → bot_left ifMatch body b b' response rt'
| LeftPrevious raw previous : requestRevision ifMatch = Ok (configRevision raw) → Parse raw = Ok previous →
    b' = (if bool_decide (is_Some b)
          then chosen {| bs_Token := cf_BotToken previous; bs_ChatID := cf_BotChat previous;
                         bs_ControlToken := cf_BotControlToken previous |}
          else None) → bot_left ifMatch body b b' response rt'
| LeftUncommitted settings : requested body settings → still (chosen settings) b' →
    is_Some b → rs_status response = 503 → rt_degraded rt' = true → bot_left ifMatch body b b' response rt'.

End composed.

(** ** A daemon with a bot *)

#[local] Existing Instance utc_database.
#[local] Existing Instance port_net.
#[local] Existing Instance two_texts.
#[local] Existing Instance two_prints.
#[local] Existing Instance two_digests.
#[local] Existing Instance quiet_probe.

Definition telegram (n : nat) : list PollerEvent * BotAnswer := ([], accepting).
#[local] Instance telegram_bot : BotController := bot_process telegram.
Definition running_bot : BotProcess := {| bp_manager := (BotApply accepting (demo_settings "old") NewBotManager).2; bp_calls := 1 |}.
Definition bot_daemon : Runtime := {|
  rt_ConfigPath := "vmflow.yaml"; rt_Manager := NewManagerWithOptions None 100 None ([] : World);
  rt_Auth := {| a_enabled := true; a_rules := [] |}; rt_PrecheckOptions := None;
  rt_Bot := Some (running_bot : Bot); rt_StartupConfig := Some (managed_file 100);
  rt_degraded := false; rt_degradedCause := "" |}.

Lemma running_bot_inv : bot_inv 2 (bp_manager running_bot).
Proof.
  destruct (BotApply_effect 0 NewBotManager accepting (demo_settings "old") bot_inv_new) as [H _]; [lia|]. exact H.
Qed.

(** The rename fails after the new bot has started: the new one does not stay. *)
Definition failed_save : Response * Runtime * Disk :=
  putBotConfig (request_env None (Some "permission denied")) admin read_etag (Ok (demo_settings "new")) bot_daemon disk.

