(* ===== verification/BotHandlers.v ===== *)
(** * The commands of the Telegram bot (bot/handler.go, bot/bot.go)

    A handler gets an update, talks to the daemon through its control client, and
    answers with Telegram calls, which are logged; [tg_error] says which calls
    Telegram refuses.  What the library extracts from an update (the effective
    message, the arguments of the command) is part of the update.  The engine's
    manager, which the bot reads directly, is a part of the server.  The text of a
    reset time is the library's ([time.Format] with the name of the zone). *)

From S2P Require Import Prelude GoStrings Calendar NetIP Duration Rule Config Quantity Stats Quota Manager Precheck ControlAuth Store.
From S2P Require Import Management FileIO GoText ControlClient.

(** ** Updates and calls *)

Record TgMessage := { mg_Chat : option Z; mg_ID : Z; mg_Thread : Z }.
Inductive QueryMessage := AccessibleMessage (m : option TgMessage) | InaccessibleMessage (m : option TgMessage) | OtherMessage.
Record CallbackQuery := { q_ID : string; q_Data : string; q_Message : QueryMessage }.
Record Update := { u_Query : option CallbackQuery; u_Effective : option TgMessage; u_Args : string }.

Inductive TgCall :=
| SendMessage (chat thread : Z) (text parseMode : string) (buttons : list (string * string))
| AnswerCallbackQuery (id text : string) (alert : bool)
| EditMessageReplyMarkup (chat message : Z).

Inductive HandlerError := TelegramFailed (e : string) | NoChatTarget | NilMessage | ChunkTooLong (i : nat).

(** ** Texts *)

Definition controlDisabledMsg : string := "⛔ 控制未启用(需配置 bot_control_token 为 admin 令牌)".
Definition telegramTextLimit : nat := 4096.
Definition callbackDataByteLimit : nat := 64.
Definition ruleSetCallbackPrefix : string := "rule:set:".
Definition newline : string := of_list [byte 10].

Definition formatBytes (n : Z) : string :=
  if 2 ^ 40 <=? n then format_scaled n 40 +:+ "T"
  else if 2 ^ 30 <=? n then format_scaled n 30 +:+ "G"
  else if 2 ^ 20 <=? n then format_scaled n 20 +:+ "M"
  else if 2 ^ 10 <=? n then format_scaled n 10 +:+ "K"
  else FormatInt n +:+ "B".

Definition speedLimitStr (n : Z) : string := if n <=? 0 then "unlimited" else formatBytes n +:+ "/s".
Definition maxConnStr (n : Z) : string := if n <=? 0 then "unlimited" else FormatInt n.
Definition aggregateRateStr (bytesPerSecond : Z) : string :=
  if bytesPerSecond <=? 0 then "unlimited" else ByteRate_String bytesPerSecond.
Definition quotaConfigStr (quota : option TrafficQuota) : string :=
  match quota with
  | None => "none"
  | Some q =>
      String.concat ", " ((if 0 <? q_daily q then ["daily " +:+ ByteSize_String (q_daily q)] else []) ++
                          (if 0 <? q_monthly q then ["monthly " +:+ ByteSize_String (q_monthly q)] else []))
  end.

(** [strings.ToUpper], exact on ASCII. *)
Definition upper_ascii (c : ascii) : ascii :=
  if (97 <=? nat_of_ascii c)%nat && (nat_of_ascii c <=? 122)%nat then ascii_of_nat (nat_of_ascii c - 32) else c.
Definition ToUpper (s : string) : string := of_list (upper_ascii <$> to_list s).

Definition truncateRunes (value : string) (limit : nat) : string :=
  if (limit =? 0)%nat then ""
  else if (RuneCount value <=? limit)%nat then value
  else if (limit <=? 2)%nat then of_runes (take limit (runes value))
  else of_runes (take (limit - 2) (runes value)) +:+ "..".

(** The loop that steps back to the start of a rune. *)
Fixpoint step_back (l : list ascii) (n : nat) : nat :=
  match n with
  | O => O
  | S m => match l !! n with Some c => if RuneStart c then n else step_back l m | None => n end
  end.
Definition truncateUTF8 (value : string) (byteLimit : nat) : string :=
  if (byteLimit =? 0)%nat then ""
  else if (String.length value <=? byteLimit)%nat then value
  else of_list (take (step_back (to_list value) byteLimit) (to_list value)).

(** ** Lists of rules *)

Definition rule_line (conns upload download : Z) (rule : Rule) : string :=
  let listen := ListenAddr rule +:+ ":" +:+ FormatInt (ListenPort rule) in
  let target := TargetAddr rule +:+ ":" +:+ FormatInt (TargetPort rule) in
  let addr := truncateRunes (listen +:+ "->" +:+ target) 22 in
  pad_right 14 (truncateRunes (Name rule) 14) +:+ " " +:+ pad_right 6 (truncateRunes (ToUpper (Proto rule)) 6) +:+ " " +:+
  pad_right 22 addr +:+ " " +:+ pad_left 6 (FormatInt conns) +:+ " " +:+ pad_left 10 (formatBytes upload) +:+ " " +:+
  pad_left 10 (formatBytes download) +:+ newline.

Definition rules_header : string :=
  "Forwarding Rules" +:+ newline +:+ newline +:+
  pad_right 14 "Name" +:+ " " +:+ pad_right 6 "Proto" +:+ " " +:+ pad_right 22 "Listen->Target" +:+ " " +:+ pad_left 6 "Conns" +:+ " " +:+
  pad_left 10 "Upload" +:+ " " +:+ pad_left 10 "Download" +:+ newline +:+ of_list (replicate 73 "-"%char) +:+ newline.

(** The loop over the lines: the chunks that are full and the current one. *)
Fixpoint chunk_lines (lines : list string) (chunks : list string) (current : string) : list string * string :=
  match lines with
  | [] => (chunks, current)
  | line :: lines =>
      if (telegramTextLimit <? String.length current + String.length line)%nat
      then chunk_lines lines (chunks ++ [TrimSuffix current newline]) (rules_header +:+ line)
      else chunk_lines lines chunks (current +:+ line)
  end.
Definition stats_of (statsMap : gmap string TrafficSnapshot) (id : string) : Z * Z * Z :=
  match statsMap !! id with Some s => (s_Conns s, s_UploadBytes s, s_DownloadBytes s) | None => (0, 0, 0) end.
Definition line_of (statsMap : gmap string TrafficSnapshot) (rule : Rule) : string :=
  let '(conns, upload, download) := stats_of statsMap (RuleID rule) in rule_line conns upload download rule.
Definition buildRuleMessages (rules : list Rule) (statsMap : gmap string TrafficSnapshot) : list string :=
  let '(chunks, current) := chunk_lines (line_of statsMap <$> rules) [] rules_header in
  if negb (bool_decide (current = rules_header)) || bool_decide (chunks = [])
  then chunks ++ [TrimSuffix current newline] else chunks.

(** ** Callback data *)

Section tokens.
Context `{!Sha256}.

Definition ruleCallbackToken (ruleID : string) : string := of_list (b64_encode (hex_bytes (to_list (sha256 ruleID)))).
(** The panic beyond the limit is not reached: the data has 54 bytes. *)
Definition ruleSetCallbackData (ruleID : string) (enabled : bool) : string :=
  ruleSetCallbackPrefix +:+ (if enabled then "1" else "0") +:+ ":" +:+ ruleCallbackToken ruleID.

Definition parseRuleSetCallbackData (data : string) : option (bool * string) :=
  if negb (HasPrefix data ruleSetCallbackPrefix) then None
  else
    match Split (TrimPrefix data ruleSetCallbackPrefix) ":" with
    | state :: ((_ :: _) as rest) =>
        let token := String.concat ":" rest in
        if negb (bool_decide (state = "0") || bool_decide (state = "1")) || negb (String.length token =? 43)%nat then None
        else if bool_decide (b64_decoded_length token = Some 32%nat) then Some (bool_decide (state = "1"), token) else None
    | _ => None
    end.
End tokens.

Record callbackTarget := { ct_chatID : Z; ct_messageID : Z; ct_threadID : Z; ct_editable : bool }.
Definition callbackTargetFromQuery (query : CallbackQuery) : option callbackTarget :=
  match q_Message query with
  | AccessibleMessage (Some {| mg_Chat := Some chat; mg_ID := id; mg_Thread := thread |}) =>
      Some {| ct_chatID := chat; ct_messageID := id; ct_threadID := thread; ct_editable := true |}
  | InaccessibleMessage (Some {| mg_Chat := Some chat; mg_ID := id |}) =>
      Some {| ct_chatID := chat; ct_messageID := id; ct_threadID := 0; ct_editable := false |}
  | _ => None
  end.

(** ** The bot *)

Record BotConf := { bot_chatID : Z; bot_control : option Client }.

Definition effective_chat (u : Update) : option Z := m ← u_Effective u; mg_Chat m.

Definition chatAllowed (b : BotConf) (u : Update) : bool :=
  match u_Query u with
  | Some query => match callbackTargetFromQuery query with Some target => ct_chatID target =? bot_chatID b | None => false end
  | None => match effective_chat u with Some chat => chat =? bot_chatID b | None => false end
  end.

Definition controlErrorMessage (e : ClientError) : string :=
  let status := APIStatus e in
  if status =? 412 then "配置已被其他途径修改,请重试"
  else if status =? 403 then "权限不足(bot_control_token 需为 admin)"
  else if status =? 422 then "precheck 失败(端口冲突或配置非法)"
  else if status =? 503 then "应用失败,运行时已回滚"
  else "操作失败,请查看 daemon 日志".

Definition set_rules (rules : list Rule) (cfg : ConfigRulesResponse) : ConfigRulesResponse :=
  {| cr_Revision := cr_Revision cfg; cr_Writable := cr_Writable cfg; cr_UDPMaxSessions := cr_UDPMaxSessions cfg;
     cr_Rules := rules; cr_ETag := cr_ETag cfg |}.

(** The first rule with the id. *)
Definition rule_index (id : string) (rules : list Rule) : option nat := fst <$> list_find (λ r, RuleID r = id) rules.

Section handlers.
Context {tz : TzDatabase} {net : Net} {sha : Sha256} {transport : Transport} (engine : Server → Manager)
  (tg_error : list TgCall → TgCall → option string) (reset_text : Z → string → string).

Record BotState := { bt_server : Server; bt_calls : list TgCall }.
Definition set_server (s : Server) (st : BotState) : BotState := {| bt_server := s; bt_calls := bt_calls st |}.
Notation Handler := (IO BotState HandlerError).

Definition call (c : TgCall) : Handler () := λ st,
  (match tg_error (bt_calls st) c with None => Ok () | Some e => Err (TelegramFailed e) end,
   {| bt_server := bt_server st; bt_calls := bt_calls st ++ [c] |}).
(** A call of the control client; its error is looked at. *)
Definition control {A} (m : IO Server ClientError A) : Handler (result ClientError A) := try (zoom bt_server set_server m).
Definition the_engine : Handler Manager := get ≫= λ st, mret (engine (bt_server st)).

Definition rejectChat (u : Update) : Handler () :=
  match effective_chat u with Some chat => call (SendMessage chat 0 "⛔ Unauthorized" "" []) | None => mret () end.
Definition reply (u : Update) (text : string) : Handler () :=
  match effective_chat u with Some chat => call (SendMessage chat 0 text "" []) | None => mret () end.
(** [SendMessage] to [c.EffectiveMessage().Chat.ID]; a nil pointer panics. *)
Definition send (u : Update) (text parseMode : string) (buttons : list (string * string)) : Handler () :=
  match effective_chat u with Some chat => call (SendMessage chat 0 text parseMode buttons) | None => fail NilMessage end.

Definition startText : string :=
  String.concat newline ["*vmflow* - L4 Port Forwarding Engine"; ""; "Commands:"; "/status - View running status";
    "/rules - List all rules"; "/detail <id> - Rule detail"; "/reload - Reload configuration from disk";
    "/stop <id> - Disable a rule (persists to config)"; "/start_rule <id> - Enable a rule (persists to config)";
    "/toggle <id> - Toggle a rule"; ""; "Write commands require bot_control_token (admin)."].

Definition allowed (b : BotConf) (u : Update) (m : Handler ()) : Handler () := if chatAllowed b u then m else rejectChat u.
(** A write command: chat and control are checked first. *)
Definition controlled (b : BotConf) (u : Update) (m : Client → Handler ()) : Handler () :=
  allowed b u (match bot_control b with
               | Some c => if HasToken (Some c) then m c else reply u controlDisabledMsg
               | None => reply u controlDisabledMsg
               end).

Definition handleStart (b : BotConf) (u : Update) : Handler () := allowed b u (send u startText "Markdown" []).

Definition stats_map (snapshots : list (TrafficSnapshot * option TrafficQuotaSnapshot)) : gmap string TrafficSnapshot :=
  foldl (λ m s, <[s_RuleID s.1 := s.1]> m) ∅ snapshots.

Definition handleStatus (b : BotConf) (u : Update) : Handler () :=
  allowed b u (the_engine ≫= λ m,
    let rules := RunningRules m in
    let snapshots := fst <$> SnapshotAll m in
    let total (f : TrafficSnapshot → Z) := foldl (λ acc s, add64 acc (f s)) 0 snapshots in
    send u (String.concat newline ["*vmflow Status*"; ""; "Running: " +:+ FormatInt (Z.of_nat (length rules)) +:+ " rules";
              "Connections: " +:+ FormatInt (total s_Conns); "Upload: " +:+ formatBytes (total s_UploadBytes);
              "Download: " +:+ formatBytes (total s_DownloadBytes)]) "Markdown" []).

Fixpoint sendRuleMessages (chat : Z) (i : nat) (messages : list string) : Handler () :=
  match messages with
  | [] => mret ()
  | text :: messages =>
      if (telegramTextLimit <? String.length text)%nat then fail (ChunkTooLong (S i))
      else call (SendMessage chat 0 text "" []) ≫= λ _, sendRuleMessages chat (S i) messages
  end.

Definition handleRules (b : BotConf) (u : Update) : Handler () :=
  allowed b u (the_engine ≫= λ m,
    let rules := RunningRules m in
    let statsMap := stats_map (SnapshotAll m) in
    match rules, effective_chat u with
    | [], _ => send u "No running rules." "" []
    | _, None => fail NilMessage
    | _, Some chat => sendRuleMessages chat 0 (buildRuleMessages rules statsMap)
    end).

Definition botQuotaPeriodStr (period : QuotaPeriodSnapshot) (timezone : string) : string :=
  formatBytes (qs_UsedBytes period) +:+ " used / " +:+ ByteSize_String (qs_LimitBytes period) +:+ ", " +:+
  formatBytes (qs_RemainingBytes period) +:+ " remaining, resets " +:+
  reset_text (qs_ResetTime period) (match LoadLocation (TrimSpace timezone) with Some _ => TrimSpace timezone | None => "UTC" end) +:+ ", " +:+
  (if qs_Exhausted period then "exhausted" else "active").

Definition formatRuleDetail (rule : Rule) (snap : TrafficSnapshot * option TrafficQuotaSnapshot) : string :=
  let line (l : list string) := String.concat "" l +:+ newline in
  line ["*Rule Detail*"; newline] +:+
  line ["ID: `"; RuleID rule; "`"] +:+ line ["Name: "; Name rule] +:+ line ["Protocol: "; ToUpper (Proto rule)] +:+
  line ["Listen: "; ListenAddr rule; ":"; FormatInt (ListenPort rule)] +:+
  line ["Target: "; TargetAddr rule; ":"; FormatInt (TargetPort rule)] +:+
  line ["Speed Limit: "; speedLimitStr (SpeedLimit rule)] +:+ line ["Max Conns: "; maxConnStr (MaxConn rule)] +:+
  (match Bandwidth rule with
   | Some bw => line ["Rule Bandwidth: upload "; aggregateRateStr (UploadBytesPerSecond bw); ", download ";
                      aggregateRateStr (DownloadBytesPerSecond bw)]
   | None => ""
   end) +:+
  (match Rule.Quota rule with
   | Some q => line ["Traffic Quota: "; quotaConfigStr (Some q); " ("; q_timezone q; ")"]
   | None => ""
   end) +:+
  newline +:+ line ["*Traffic*"] +:+ line ["Upload: "; formatBytes (s_UploadBytes snap.1)] +:+
  line ["Download: "; formatBytes (s_DownloadBytes snap.1)] +:+ "Connections: " +:+ FormatInt (s_Conns snap.1) +:+
  (match Rule.Quota rule with
   | None => ""
   | Some q =>
       newline +:+ "Quota Status: " +:+ (match snap.2 with Some s => if qs_Blocked s then "blocked" else "active" | None => "active" end) +:+
       (match snap.2 with
        | None => newline +:+ "Quota Usage: unavailable"
        | Some s =>
            (match qs_Daily s with Some p => newline +:+ "Daily Quota: " +:+ botQuotaPeriodStr p (q_timezone q) | None => "" end) +:+
            (match qs_Monthly s with Some p => newline +:+ "Monthly Quota: " +:+ botQuotaPeriodStr p (q_timezone q) | None => "" end)
        end) +:+
       newline +:+ "Quota Rejected: " +:+ formatBytes (s_QuotaRejectedBytes snap.1)
   end).

Definition handleDetail (b : BotConf) (u : Update) : Handler () :=
  allowed b u (
    let ruleID := TrimSpace (u_Args u) in
    if bool_decide (ruleID = "") then reply u "Usage: /detail <rule_id>"
    else the_engine ≫= λ m,
      match List.find (λ r, bool_decide (RuleID r = ruleID)) (RunningRules m) with
      | None => reply u ("Rule not found: " +:+ ruleID)
      | Some found => send u (formatRuleDetail found (Snapshot ruleID m)) "Markdown" []
      end).

(** ** Write commands: they ask for a confirmation *)

Definition confirm_buttons (data cancel : string) : list (string * string) := [("✅ 确认", data); ("❌ 取消", cancel)].

Definition handleReload (b : BotConf) (u : Update) : Handler () :=
  controlled b u (λ _, send u "⚠️ 从磁盘重载配置?" "" (confirm_buttons "reload:confirm" "reload:cancel")).
Definition handleStop (b : BotConf) (u : Update) : Handler () :=
  controlled b u (λ _,
    let ruleID := TrimSpace (u_Args u) in
    if bool_decide (ruleID = "") then reply u "Usage: /stop <rule_id>"
    else send u ("⚠️ 停用规则 " +:+ ruleID +:+ "?(将写入配置)") "" (confirm_buttons (ruleSetCallbackData ruleID false) "rule:cancel")).
Definition handleStartRule (b : BotConf) (u : Update) : Handler () :=
  controlled b u (λ _,
    let ruleID := TrimSpace (u_Args u) in
    if bool_decide (ruleID = "") then reply u "Usage: /start_rule <rule_id>"
    else send u ("⚠️ 启用规则 " +:+ ruleID +:+ "?(将写入配置)") "" (confirm_buttons (ruleSetCallbackData ruleID true) "rule:cancel")).
Definition handleToggle (b : BotConf) (u : Update) : Handler () :=
  controlled b u (λ c,
    let ruleID := TrimSpace (u_Args u) in
    if bool_decide (ruleID = "") then reply u "Usage: /toggle <rule_id>"
    else control (ConfigRules c) ≫= λ cfg,
      match cfg with
      | Err e => reply u ("❌ 读取配置失败:" +:+ controlErrorMessage e)
      | Ok cfg =>
          match List.find (λ r, bool_decide (RuleID r = ruleID)) (cr_Rules cfg) with
          | None => reply u ("❌ 规则不存在:" +:+ ruleID)
          | Some r =>
              let targetEnabled := negb (Enabled r) in
              send u ("⚠️ " +:+ (if targetEnabled then "启用" else "停用") +:+ "规则 " +:+ ruleID +:+ "?(将写入配置)") ""
                (confirm_buttons (ruleSetCallbackData ruleID targetEnabled) "rule:cancel")
          end
      end).

(** ** Actions: the text they report *)

Definition applyEnabled (c : Client) (cfg : ConfigRulesResponse) (ruleID : string) (enabled : bool) : Handler string :=
  control (ClientApply c (cr_ETag cfg) {| cq_UDPMaxSessions := cr_UDPMaxSessions cfg; cq_Rules := cr_Rules cfg |}) ≫= λ r,
  mret (match r with
        | Err e => "❌ " +:+ (if enabled then "启用" else "停用") +:+ "失败:" +:+ controlErrorMessage e
        | Ok _ => "✅ 规则 " +:+ ruleID +:+ " " +:+ (if enabled then "已启用" else "已停用") +:+ "(已写入配置)"
        end).

Definition setRuleEnabledInConfig (c : Client) (cfg : ConfigRulesResponse) (index : nat) (enabled : bool) : Handler string :=
  match cr_Rules cfg !! index with
  | None => fail NilMessage                                  (* index out of range: not reached *)
  | Some r =>
      if bool_decide (Enabled r = enabled)
      then mret ("ℹ️ 规则 " +:+ RuleID r +:+ " 已是" +:+ (if enabled then "已启用" else "已停用") +:+ "状态")
      else applyEnabled c (set_rules (alter (with_enabled enabled) index (cr_Rules cfg)) cfg) (RuleID r) enabled
  end.

Definition with_config (b : BotConf) (f : Client → ConfigRulesResponse → Handler string) : Handler string :=
  match bot_control b with
  | Some c =>
      if HasToken (Some c) then
        control (ConfigRules c) ≫= λ cfg,
        match cfg with
        | Err e => mret ("❌ 读取配置失败:" +:+ controlErrorMessage e)
        | Ok cfg => f c cfg
        end
      else mret controlDisabledMsg
  | None => mret controlDisabledMsg
  end.

Definition setRuleEnabled (b : BotConf) (ruleID : string) (enabled : bool) : Handler string :=
  with_config b (λ c cfg,
    match rule_index ruleID (cr_Rules cfg) with
    | Some i => setRuleEnabledInConfig c cfg i enabled
    | None => mret ("❌ 规则不存在:" +:+ ruleID)
    end).

(** The rules whose token it is; two of them are refused. *)
Definition token_matches (token : string) (rules : list Rule) : list nat :=
  omap (λ p : nat * Rule, if bool_decide (ruleCallbackToken (RuleID p.2) = token) then Some p.1 else None) (imap pair rules).
Definition setRuleTokenEnabled (b : BotConf) (token : string) (enabled : bool) : Handler string :=
  with_config b (λ c cfg,
    match token_matches token (cr_Rules cfg) with
    | [] => mret "❌ 规则不存在或确认已失效,请重新执行命令。"
    | [i] => setRuleEnabledInConfig c cfg i enabled
    | _ => mret "❌ 规则确认令牌不唯一,操作已拒绝。"
    end).

Definition doReload (b : BotConf) : Handler string :=
  match bot_control b with
  | Some c =>
      if HasToken (Some c) then
        control (ClientReload c) ≫= λ r,
        mret (match r with
              | Err e => "❌ reload 失败:" +:+ controlErrorMessage e
              | Ok rules => "✅ reload 完成,共 " +:+ FormatInt rules +:+ " 条规则"
              end)
      else mret controlDisabledMsg
  | None => mret controlDisabledMsg
  end.

(** Not dispatched any more; the flag is not turned in the request. *)
Definition doToggleRule (b : BotConf) (ruleID : string) : Handler string :=
  with_config b (λ c cfg,
    match List.find (λ r, bool_decide (RuleID r = ruleID)) (cr_Rules cfg) with
    | Some r => applyEnabled c cfg ruleID (negb (Enabled r))
    | None => mret ("❌ 规则不存在:" +:+ ruleID)
    end).

(** The answer to a pressed button. *)
Definition perform (b : BotConf) (data : string) : Handler string :=
  match parseRuleSetCallbackData data with
  | Some (enabled, token) => setRuleTokenEnabled b token enabled
  | None =>
      if bool_decide (data = "reload:confirm") then doReload b
      else if bool_decide (data = "reload:cancel") || bool_decide (data = "rule:cancel") then mret "已取消操作。"
      else if HasPrefix data "stop:confirm:" then setRuleEnabled b (TrimPrefix data "stop:confirm:") false
      else if HasPrefix data "stop:cancel:" then mret "已取消 stop。"
      else if HasPrefix data "start:confirm:" then setRuleEnabled b (TrimPrefix data "start:confirm:") true
      else if HasPrefix data "start:cancel:" then mret "已取消 start。"
      else if HasPrefix data "toggle:confirm:" then mret "旧版 toggle 确认已失效,请重新执行 /toggle。"
      else if HasPrefix data "toggle:cancel:" then mret "已取消 toggle。"
      else mret "未知操作。"
  end.

(** [errors.Join]. *)
Definition joined {E A} (r : result E A) : list E := match r with Ok _ => [] | Err e => [e] end.

(** The three calls are made whatever becomes of the others. *)
Definition handleCallback (b : BotConf) (u : Update) : IO BotState (list HandlerError) () :=
  match u_Query u with
  | None => mret ()
  | Some query =>
      if negb (chatAllowed b u) then
        map_err (λ e, [e]) (call (AnswerCallbackQuery (q_ID query) "⛔ Unauthorized" true))
      else
        map_err (λ e, [e]) (perform b (q_Data query)) ≫= λ resultText,
        let target := default {| ct_chatID := 0; ct_messageID := 0; ct_threadID := 0; ct_editable := false |} (callbackTargetFromQuery query) in
        try (call (AnswerCallbackQuery (q_ID query) (truncateUTF8 resultText 200) false)) ≫= λ answered,
        try (if ct_editable target then call (EditMessageReplyMarkup (ct_chatID target) (ct_messageID target)) else mret ()) ≫= λ edited,
        try (call (SendMessage (ct_chatID target) (ct_threadID target) resultText "" [])) ≫= λ sent,
        let errors := joined answered ++ joined edited ++
          (match callbackTargetFromQuery query with None => [NoChatTarget] | Some _ => joined sent end) in
        match errors with [] => mret () | _ => fail errors end
  end.

(** ** Dispatch ([registerHandlers]) *)

Inductive BotUpdate := CommandUpdate (name : string) (u : Update) | CallbackUpdate (u : Update).

Definition command_handler (name : string) : option (BotConf → Update → Handler ()) :=
  if bool_decide (name = "start") then Some handleStart
  else if bool_decide (name = "status") then Some handleStatus
  else if bool_decide (name = "rules") then Some handleRules
  else if bool_decide (name = "detail") then Some handleDetail
  else if bool_decide (name = "reload") then Some handleReload
  else if bool_decide (name = "stop") then Some handleStop
  else if bool_decide (name = "start_rule") then Some handleStartRule
  else if bool_decide (name = "toggle") then Some handleToggle
  else None.

Definition handle (b : BotConf) (update : BotUpdate) : IO BotState (list HandlerError) () :=
  match update with
  | CommandUpdate name u =>
      match command_handler name with Some f => map_err (λ e, [e]) (f b u) | None => mret () end
  | CallbackUpdate u => handleCallback b u
  end.
End handlers.
