(* ===== verification/BotHandlersSpec.v ===== *)
(** * What the bot's handlers guarantee

    Texts fit the limits of Telegram; a confirmation names its rule; strangers
    reach nothing; and what a confirmed callback does to the daemon. *)

From S2P Require Import Prelude GoStrings Calendar NetIP Duration Rule Config YamlMerge Quantity Stats Quota Manager Precheck ControlAuth Store.
From S2P Require Import Management ManagerSpec ManagementSpec RequestSpec FileIO GoPath GoText ControlClient ControlServer BotHandlers.

(** ** Lengths *)

Lemma length_of_runes rs : (∀ r, r ∈ rs → (length r ≤ 4)%nat) → (String.length (of_runes rs) ≤ 4 * length rs)%nat.
Proof. intros H. unfold of_runes. rewrite length_of_list. by apply mjoin_bounded. Qed.

Lemma length_runes_fuel n l : (length l ≤ n)%nat → (length l ≤ 4 * length (runes_fuel n l))%nat.
Proof.
  revert l. induction n as [|n IH]; intros [|c l] Hl; cbn [length] in *; try lia. cbn [runes_fuel].
  destruct (rune_width (c :: l)) as [w|] eqn:Hw.
  - pose proof (rune_width_range _ _ Hw) as [? ?]. cbn [length] in *.
    specialize (IH (drop w (c :: l))). rewrite length_drop in IH. cbn [length] in IH. lia.
  - cbn [length]. specialize (IH l). lia.
Qed.
Lemma length_runes s : (String.length s ≤ 4 * RuneCount s)%nat.
Proof. rewrite <-length_list_ascii. by apply length_runes_fuel. Qed.

Lemma length_truncateRunes value limit : (2 < limit)%nat → (String.length (truncateRunes value limit) ≤ 4 * limit)%nat.
Proof.
  intros Hl. unfold truncateRunes. destruct (limit =? 0)%nat eqn:E0; [apply Nat.eqb_eq in E0; lia|].
  destruct (RuneCount value <=? limit)%nat eqn:E1; [apply Nat.leb_le in E1; pose proof (length_runes value); lia|].
  destruct (limit <=? 2)%nat eqn:E2; [apply Nat.leb_le in E2; lia|].
  rewrite length_append. assert (String.length ".." = 2%nat) as -> by done.
  pose proof (length_of_runes (take (limit - 2) (runes value))) as H. rewrite length_take in H.
  specialize (H ltac:(intros r ?%elem_of_take; destruct H0 as (i & Hi & _); by eapply runes_fuel_length, list_elem_of_lookup_2)). lia.
Qed.

Lemma length_spaces n : String.length (spaces_of n) = n.
Proof. unfold spaces_of. by rewrite length_of_list, length_replicate. Qed.
Lemma length_pad_left w s : (String.length (pad_left w s) ≤ w + String.length s)%nat.
Proof. unfold pad_left. rewrite length_append, length_spaces. lia. Qed.
Lemma length_pad_right w s : (String.length (pad_right w s) ≤ w + String.length s)%nat.
Proof. unfold pad_right. rewrite length_append, length_spaces. lia. Qed.

Lemma length_FormatInt k z : (0 < k)%nat → 0 ≤ z < 10 ^ Z.of_nat k → (String.length (FormatInt z) ≤ k)%nat.
Proof.
  revert z. induction k as [|k IH]; intros z Hk Hz; [lia|].
  destruct (decide (z < 10)) as [Hd|Hd]; [rewrite FormatInt_digit by lia; simpl; lia|].
  rewrite FormatInt_step, length_append by lia. cbn [String.length].
  destruct k as [|k]; [cbn in Hz; lia|].
  rewrite Nat2Z.inj_succ, Z.pow_succ_r in Hz by lia.
  enough (String.length (FormatInt (z / 10)) ≤ S k)%nat by lia. apply IH; [lia|]. Z.to_euclidean_division_equations; lia.
Qed.
Lemma length_FormatInt64 z : in_int64 z → (String.length (FormatInt z) ≤ 20)%nat.
Proof.
  intros Hz. destruct z as [|p|p]; [vm_compute; lia| |].
  - pose proof (length_FormatInt 19 (Z.pos p)) as H. enough (String.length (FormatInt (Z.pos p)) ≤ 19)%nat by lia.
    apply H; [lia|]. change (10 ^ Z.of_nat 19) with 10000000000000000000. int64_lia.
  - rewrite FormatInt_neg, length_append. pose proof (length_FormatInt 19 (Z.pos p)) as H. cbn [String.length].
    enough (String.length (FormatInt (Z.pos p)) ≤ 19)%nat by lia.
    apply H; [lia|]. change (10 ^ Z.of_nat 19) with 10000000000000000000. int64_lia.
Qed.

Lemma round_half_even_le num den : 0 ≤ num → 0 < den → 0 ≤ round_half_even num den ≤ num / den + 1.
Proof. intros Hn Hd. pose proof (Z.div_pos num den Hn Hd). unfold round_half_even. cbv zeta. repeat case_goal; lia. Qed.
Lemma f64_round_le n : 0 < n → 0 ≤ f64_round n ≤ 2 * n.
Proof.
  intros Hn. unfold f64_round. cbv zeta. destruct (Z.log2 n - 52 <=? 0) eqn:E; [lia|]. bool_to_prop.
  set (k := Z.log2 n - 52) in *. assert (0 < 2 ^ k) as Hk by (apply Z.pow_pos_nonneg; lia).
  pose proof (round_half_even_le n (2 ^ k) ltac:(lia) Hk) as [H0 H1].
  assert (2 ^ k ≤ n) as Hkn.
  { pose proof (Z.log2_spec n Hn) as [Hl _]. etransitivity; [|exact Hl]. apply Z.pow_le_mono_r; lia. }
  pose proof (Z.mul_div_le n (2 ^ k) Hk). split; [nia|]. nia.
Qed.
Lemma length_format_scaled n k : 0 < n → 0 ≤ k → n < 2 ^ (k + 23) → (String.length (format_scaled n k) ≤ 10)%nat.
Proof.
  intros Hn Hk Hb. unfold format_scaled. cbv zeta. rewrite !length_append. cbn [String.length].
  pose proof (f64_round_le n Hn) as [Hf0 Hf]. assert (0 < 2 ^ k) as Hp by (apply Z.pow_pos_nonneg; lia).
  pose proof (round_half_even_le (10 * f64_round n) (2 ^ k) ltac:(lia) Hp) as [Ht0 Ht].
  set (tenths := round_half_even (10 * f64_round n) (2 ^ k)) in *.
  assert (10 * f64_round n / 2 ^ k ≤ 20 * 2 ^ 23) as Hq.
  { apply Z.div_le_upper_bound; [lia|]. rewrite Z.pow_add_r in Hb by lia. lia. }
  assert (String.length (FormatInt (tenths / 10)) ≤ 8)%nat as H8.
  { apply length_FormatInt; [lia|]. change (10 ^ Z.of_nat 8) with 100000000. Z.to_euclidean_division_equations; lia. }
  assert (String.length (FormatInt (tenths mod 10)) ≤ 1)%nat as H1.
  { apply length_FormatInt; [lia|]. change (10 ^ Z.of_nat 1) with 10. Z.to_euclidean_division_equations; lia. }
  lia.
Qed.
Lemma length_formatBytes n : in_int64 n → (String.length (formatBytes n) ≤ 21)%nat.
Proof.
  intros Hn. unfold formatBytes.
  destruct (2 ^ 40 <=? n) eqn:E4; [|destruct (2 ^ 30 <=? n) eqn:E3; [|destruct (2 ^ 20 <=? n) eqn:E2; [|destruct (2 ^ 10 <=? n) eqn:E1]]];
    bool_to_prop; rewrite length_append; cbn [String.length].
  - pose proof (length_format_scaled n 40 ltac:(lia) ltac:(lia) ltac:(int64_lia)). lia.
  - pose proof (length_format_scaled n 30 ltac:(lia) ltac:(lia) ltac:(lia)). lia.
  - pose proof (length_format_scaled n 20 ltac:(lia) ltac:(lia) ltac:(lia)). lia.
  - pose proof (length_format_scaled n 10 ltac:(lia) ltac:(lia) ltac:(lia)). lia.
  - pose proof (length_FormatInt64 n Hn). lia.
Qed.

Lemma length_rule_line conns upload download rule : in_int64 conns → in_int64 upload → in_int64 download →
  (String.length (rule_line conns upload download rule) ≤ 400)%nat.
Proof.
  intros Hc Hu Hd. unfold rule_line. cbv zeta. rewrite !length_append. cbn [String.length].
  pose proof (length_pad_right 14 (truncateRunes (Name rule) 14)). pose proof (length_truncateRunes (Name rule) 14 ltac:(lia)).
  pose proof (length_pad_right 6 (truncateRunes (ToUpper (Proto rule)) 6)).
  pose proof (length_truncateRunes (ToUpper (Proto rule)) 6 ltac:(lia)).
  match goal with |- context [truncateRunes ?t 22] => set (addr := t) end.
  pose proof (length_pad_right 22 (truncateRunes addr 22)). pose proof (length_truncateRunes addr 22 ltac:(lia)).
  pose proof (length_pad_left 6 (FormatInt conns)). pose proof (length_FormatInt64 conns Hc).
  pose proof (length_pad_left 10 (formatBytes upload)). pose proof (length_formatBytes upload Hu).
  pose proof (length_pad_left 10 (formatBytes download)). pose proof (length_formatBytes download Hd).
  assert (String.length newline = 1%nat) as -> by done. lia.
Qed.

(** ** The messages of /rules *)

Definition lines_text (lines : list string) : string := foldr String.append "" lines.
Definition rules_message (lines : list string) : string := TrimSuffix (rules_header +:+ lines_text lines) newline.

Lemma lines_text_app l1 l2 : lines_text (l1 ++ l2) = lines_text l1 +:+ lines_text l2.
Proof. induction l1 as [|x l1 IH]; [done|]. simpl. by rewrite IH, append_assoc. Qed.
Lemma length_TrimSuffix s suffix : (String.length (TrimSuffix s suffix) ≤ String.length s)%nat.
Proof. unfold TrimSuffix. case_match; [|lia]. rewrite length_of_list, length_take, length_list_ascii. lia. Qed.
Lemma length_rules_header : String.length rules_header = 166%nat.
Proof. vm_compute. reflexivity. Qed.

Definition fits (lines : list string) : Prop := (String.length (rules_header +:+ lines_text lines) ≤ telegramTextLimit)%nat.

Lemma chunk_lines_spec lines gs g : fits g → (∀ g', g' ∈ gs → fits g') → (∀ line, line ∈ lines → (String.length line ≤ 400)%nat) →
  ∃ gs' g', chunk_lines lines (rules_message <$> gs) (rules_header +:+ lines_text g) = (rules_message <$> gs', rules_header +:+ lines_text g') ∧
    mjoin gs' ++ g' = mjoin gs ++ g ++ lines ∧ fits g' ∧ ∀ x, x ∈ gs' → fits x.
Proof.
  revert gs g. induction lines as [|line lines IH]; intros gs g Hg Hgs Hl; cbn [chunk_lines].
  { exists gs, g. by rewrite app_nil_r. }
  assert (String.length line ≤ 400)%nat as Hline by (apply Hl; left).
  assert (∀ l, l ∈ lines → String.length l ≤ 400)%nat as Hlines by (intros; apply Hl; by right).
  destruct (telegramTextLimit <? _)%nat eqn:E; [apply Nat.ltb_lt in E|apply Nat.ltb_ge in E].
  - destruct (IH (gs ++ [g]) [line]) as (gs' & g' & Heq & Hj & Hf & Hfs); [| |done|].
    + unfold fits. rewrite length_append. cbn [lines_text foldr]. rewrite append_nil_r, length_rules_header.
      unfold telegramTextLimit. lia.
    + intros x [Hx| ->%list_elem_of_singleton]%elem_of_app; auto.
    + exists gs', g'. split_and!; [|rewrite Hj, join_app; simpl; by rewrite app_nil_r, <-!app_assoc|done|done].
      rewrite <-Heq, fmap_app. cbn [lines_text foldr fmap list_fmap]. by rewrite append_nil_r.
  - destruct (IH gs (g ++ [line])) as (gs' & g' & Heq & Hj & Hf & Hfs); [|done|done|].
    + unfold fits. rewrite lines_text_app. cbn [lines_text foldr]. rewrite append_nil_r, <-append_assoc, length_append. lia.
    + exists gs', g'. split_and!; [|by rewrite Hj, <-!app_assoc|done|done].
      rewrite <-Heq, lines_text_app. cbn [lines_text foldr]. by rewrite append_nil_r, append_assoc.
Qed.

Definition counters_ok (statsMap : gmap string TrafficSnapshot) : Prop :=
  ∀ id s, statsMap !! id = Some s → in_int64 (s_Conns s) ∧ in_int64 (s_UploadBytes s) ∧ in_int64 (s_DownloadBytes s).

Lemma line_of_length statsMap rule : counters_ok statsMap → (String.length (line_of statsMap rule) ≤ 400)%nat ∧ line_of statsMap rule ≠ "".
Proof.
  intros Hok. unfold line_of, stats_of. split.
  - destruct (statsMap !! RuleID rule) as [s|] eqn:E.
    + destruct (Hok _ _ E) as (? & ? & ?). by apply length_rule_line.
    + apply length_rule_line; int64_lia.
  - assert (∀ c u d, rule_line c u d rule ≠ "") as H.
    { intros c u d E. apply (f_equal String.length) in E. unfold rule_line in E. rewrite !length_append in E. simpl in E. lia. }
    destruct (statsMap !! RuleID rule); apply H.
Qed.

(** However many rules run and whatever their names and counters are, the
    messages of /rules show the line of every rule, once and in order, and none
    exceeds the limit of Telegram, so that none is refused for its length. *)
Theorem rule_messages_fit (rules : list Rule) (statsMap : gmap string TrafficSnapshot) (Hok : counters_ok statsMap) :
  (∀ m, m ∈ buildRuleMessages rules statsMap → (String.length m ≤ telegramTextLimit)%nat) ∧
  ∃ groups, mjoin groups = line_of statsMap <$> rules ∧ buildRuleMessages rules statsMap = rules_message <$> groups.
Proof.
  assert (∃ groups, mjoin groups = line_of statsMap <$> rules ∧ buildRuleMessages rules statsMap = rules_message <$> groups ∧
    ∀ g, g ∈ groups → fits g) as (groups & Hj & Hm & Hf).
  { unfold buildRuleMessages. destruct (chunk_lines_spec (line_of statsMap <$> rules) [] []) as (gs & g & Heq & Hj & Hf & Hfs).
    - unfold fits. cbn [lines_text foldr]. rewrite append_nil_r, length_rules_header. unfold telegramTextLimit. lia.
    - by intros ? ?%elem_of_nil.
    - intros line (rule & -> & _)%list_elem_of_fmap. by apply line_of_length.
    - simpl in Heq, Hj. rewrite append_nil_r in Heq. rewrite Heq. destruct (negb _ || _) eqn:E.
      + exists (gs ++ [g]). split_and!; [by rewrite join_app; simpl; rewrite app_nil_r|by rewrite fmap_app|].
        intros x [?| ->%list_elem_of_singleton]%elem_of_app; auto.
      + exists gs. apply orb_false_iff in E as [E%negb_false_iff%bool_decide_eq_true _]. split_and!; [|done|done].
        rewrite <-Hj. destruct g as [|l g]; [by rewrite app_nil_r|]. exfalso.
        assert (l ∈ line_of statsMap <$> rules) as (rule & -> & _)%list_elem_of_fmap.
        { rewrite <-Hj. apply elem_of_app. right. left. }
        destruct (line_of_length statsMap rule Hok) as [_ Hne]. apply (f_equal String.length) in E.
        rewrite length_append in E. cbn [lines_text foldr] in E. rewrite length_append in E.
        destruct (line_of statsMap rule); [done|]. simpl String.length in E. lia. }
  split; [|by exists groups]. rewrite Hm. intros m (g & -> & Hg)%list_elem_of_fmap.
  unfold rules_message. etransitivity; [apply length_TrimSuffix|]. by apply Hf.
Qed.

(** Two messages for sixty rules with long names. *)
Definition long_rule : Rule := with_enabled true (ManagerSpec.sample_rule "端口转发规则端口转发规则端口转发规则" 8080).
Lemma rule_messages_fit_witness :
  length (buildRuleMessages (replicate 60 long_rule) ∅) = 2%nat ∧
  ∀ m, m ∈ buildRuleMessages (replicate 60 long_rule) ∅ → (String.length m ≤ telegramTextLimit)%nat.
Proof.
  split; [vm_compute; reflexivity|].
  refine (proj1 (rule_messages_fit (replicate 60 long_rule) ∅ _)). intros id s H. rewrite lookup_empty in H. discriminate H.
Defined.

(** ** Truncated answers *)

Lemma step_back_le l n : (step_back l n ≤ n)%nat.
Proof. induction n as [|n IH]; simpl; [lia|]. repeat case_match; lia. Qed.

(** A position of an encoded text where a rune starts is a boundary. *)
Lemma rune_boundary rs k c : (∀ r, r ∈ rs → is_rune r) → mjoin rs !! k = Some c → RuneStart c = true →
  ∃ i, take k (mjoin rs) = mjoin (take i rs).
Proof.
  revert k. induction rs as [|r rs IH]; intros k Hv Hk Hs; [done|]. change (mjoin (r :: rs)) with (r ++ mjoin rs) in *.
  destruct (decide (k < length r)%nat) as [Hlt|Hge].
  - rewrite lookup_app_l in Hk by done. destruct k as [|k]; [by exists 0%nat|].
    pose proof (is_rune_tail r k c (Hv r ltac:(by left)) Hk). congruence.
  - rewrite lookup_app_r in Hk by lia. destruct (IH (k - length r)%nat) as [i Hi]; [by intros; apply Hv; right|done|done|].
    exists (S i). rewrite take_app_ge by lia. by rewrite Hi.
Qed.

Lemma step_back_boundary rs n : (∀ r, r ∈ rs → is_rune r) → (n < length (mjoin rs))%nat →
  ∃ i, take (step_back (mjoin rs) n) (mjoin rs) = mjoin (take i rs).
Proof.
  intros Hv. induction n as [|n IH]; intros Hn; [by exists 0%nat|]. cbn [step_back].
  destruct (mjoin rs !! S n) as [c|] eqn:Hc; [|apply lookup_ge_None in Hc; lia].
  destruct (RuneStart c) eqn:Hs; [by eapply rune_boundary|]. apply IH. lia.
Qed.

(** A truncated field has at most the bytes allowed, and cuts no character: it
    consists of the first characters of a valid text. *)
Theorem truncated_at_character (rs : list (list ascii)) (limit : nat) (Hrs : ∀ r, r ∈ rs → is_rune r) :
  (String.length (truncateUTF8 (of_runes rs) limit) ≤ limit)%nat ∧
  ∃ i, truncateUTF8 (of_runes rs) limit = of_runes (take i rs).
Proof.
  unfold truncateUTF8. destruct (limit =? 0)%nat eqn:E0.
  { apply Nat.eqb_eq in E0. split; [simpl; lia|]. by exists 0%nat. }
  destruct (String.length (of_runes rs) <=? limit)%nat eqn:E1.
  { apply Nat.leb_le in E1. split; [done|]. exists (length rs). by rewrite firstn_all. }
  apply Nat.leb_gt in E1. unfold of_runes in *. rewrite length_of_list in E1. rewrite to_of_list.
  pose proof (step_back_le (mjoin rs) limit). split; [rewrite length_of_list, length_take; lia|].
  destruct (step_back_boundary rs limit Hrs E1) as [i Hi]. exists i. by rewrite Hi.
Qed.

(** ** Callback data *)

Section tokens.
Context {sha : Sha256}.

Definition digest_shape (id : string) : Prop :=
  String.length (sha256 id) = 64%nat ∧ forallb is_hex (to_list (sha256 id)) = true.

Lemma hex_bytes_spec n l : (length l = 2 * n)%nat → length (hex_bytes l) = n ∧ ∀ b, b ∈ hex_bytes l → 0 ≤ b < 256.
Proof.
  revert l. induction n as [|n IH]; intros l Hl; [destruct l; [|done]; split; [done|by intros ? ?%elem_of_nil]|].
  destruct l as [|a [|b l]]; simpl in Hl; [lia..|]. destruct (IH l) as [H1 H2]; [lia|]. cbn [hex_bytes length]. split; [lia|].
  assert (∀ c, 0 ≤ default 0 (Netip.hex_digit c) < 16) as Hd.
  { intros c. destruct (Netip.hex_digit c) as [v|] eqn:E; [|simpl; lia]. simpl. unfold Netip.hex_digit, digit_value in E.
    repeat case_match; try done; injection E as <-; unfold is_digit in *; bool_to_prop;
      repeat match goal with H : (_ <=? _)%nat = true |- _ => apply Nat.leb_le in H end; lia. }
  pose proof (Hd a). pose proof (Hd b). intros x [->|Hx]%elem_of_cons; [lia|auto].
Qed.

Lemma is_b64_char n : is_b64 (b64_char n) = true.
Proof.
  unfold b64_char. cbv zeta. set (k := Z.to_nat n). clearbody k.
  destruct (decide (k < 62)%nat) as [Hk|Hk].
  - assert (forallb (λ k, is_b64 (ascii_of_nat (if (k <? 26)%nat then 65 + k else if (k <? 52)%nat then 71 + k else if (k <? 62)%nat then k - 4
                else if (k =? 62)%nat then 45 else 95))%nat) (seq 0 62) = true) as Hall by (vm_compute; reflexivity).
    rewrite forallb_forall in Hall. apply (Hall k), list_elem_of_In, elem_of_seq. lia.
  - rewrite !(proj2 (Nat.ltb_ge _ _)) by lia. by destruct (k =? 62)%nat.
Qed.
Lemma b64_encode_chars l : forallb is_b64 (b64_encode l) = true.
Proof.
  assert (∀ n l, (length l ≤ n)%nat → forallb is_b64 (b64_encode l) = true) as H; [|by apply (H (length l))].
  clear l. induction n as [|n IH]; intros [|a [|b [|c l]]] Hl; simpl in Hl; try done; try lia;
    cbn [b64_encode forallb]; rewrite !is_b64_char; try done. cbn [andb]. apply IH. lia.
Qed.
Lemma length_b64_encode k l : length l = (3 * k + 2)%nat → length (b64_encode l) = (4 * k + 3)%nat.
Proof.
  revert l. induction k as [|k IH]; intros [|a [|b [|c l]]] Hl; simpl in Hl; try lia; [done|].
  cbn [b64_encode length]. rewrite IH; lia.
Qed.

Lemma b64_plain c : is_b64 c = true → c ≠ ":"%char ∧ code c ≠ 10%nat ∧ code c ≠ 13%nat.
Proof.
  intros Hc. split_and!; [by intros ->|..]; intros E; unfold is_b64, in_range in Hc; rewrite E in Hc; done.
Qed.

Lemma token_chars id : digest_shape id → length (to_list (ruleCallbackToken id)) = 43%nat ∧ forallb is_b64 (to_list (ruleCallbackToken id)) = true.
Proof.
  intros [Hl _]. unfold ruleCallbackToken. rewrite to_of_list. split; [|apply b64_encode_chars].
  apply (length_b64_encode 10). destruct (hex_bytes_spec 32 (to_list (sha256 id))) as [-> _]; [by rewrite length_list_ascii|done].
Qed.

(** The data of a confirmation fits Telegram's limit (so the panic beyond it is
    not reached), and pressing the button names the rule and the state again. *)
Theorem callback_data_roundtrip (ruleID : string) (enabled : bool) (Hid : digest_shape ruleID) :
  parseRuleSetCallbackData (ruleSetCallbackData ruleID enabled) = Some (enabled, ruleCallbackToken ruleID) ∧
  (String.length (ruleSetCallbackData ruleID enabled) ≤ callbackDataByteLimit)%nat.
Proof.
  destruct (token_chars ruleID Hid) as [Hlen Hchars]. set (token := ruleCallbackToken ruleID) in *.
  assert (String.length token = 43%nat) as Hl by by rewrite <-length_list_ascii.
  set (state := if enabled then "1" else "0").
  assert (ruleSetCallbackData ruleID enabled = ruleSetCallbackPrefix +:+ state +:+ ":" +:+ token) as Hdata by done.
  split.
  2:{ rewrite Hdata, !length_append, Hl. unfold state, callbackDataByteLimit. destruct enabled; vm_compute; lia. }
  rewrite Hdata. unfold parseRuleSetCallbackData.
  assert (HasPrefix (ruleSetCallbackPrefix +:+ state +:+ ":" +:+ token) ruleSetCallbackPrefix = true) as Hp.
  { unfold HasPrefix. apply bool_decide_eq_true. rewrite to_list_app. by apply prefix_app_r. }
  rewrite Hp. cbn [negb].
  assert (TrimPrefix (ruleSetCallbackPrefix +:+ state +:+ ":" +:+ token) ruleSetCallbackPrefix = state +:+ ":" +:+ token) as ->.
  { unfold TrimPrefix. rewrite Hp, to_list_app, <-(length_list_ascii ruleSetCallbackPrefix), drop_app_length. by rewrite of_to_list. }
  assert (Split (state +:+ ":" +:+ token) ":" = [state; token]) as ->.
  { apply (Split_join [state; token] ":"); [done|]. repeat constructor; [unfold state; destruct enabled; set_solver|].
    intros Hin. rewrite forallb_forall in Hchars. specialize (Hchars _ (proj1 (list_elem_of_In _ _) Hin)).
    by destruct (b64_plain _ Hchars). }
  cbn [String.concat]. rewrite Hl.
  assert (b64_decoded_length token = Some 32%nat) as ->.
  { unfold b64_decoded_length.
    assert (filter (λ c, code c ≠ 10%nat ∧ code c ≠ 13%nat) (to_list token) = to_list token) as ->.
    { clear -Hchars. induction (to_list token) as [|c l IH]; [done|]. simpl in Hchars. apply andb_true_iff in Hchars as [Hc Hl].
      rewrite filter_cons_True by (by apply b64_plain in Hc as (_ & ?)). by rewrite IH. }
    by rewrite Hchars, Hlen. }
  unfold state. by destruct enabled.
Qed.
End tokens.

(** ** What an update does *)

Section effects.
Context {tz : TzDatabase} {net : Net} {sha : Sha256} {transport : Transport} (engine : Server → Manager)
  (tg_error : list TgCall → TgCall → option string) (reset_text : Z → string → string).
Notation Handler := (IO BotState HandlerError).

(** The text of a change that worked. *)
Definition successful (text : string) : bool := HasPrefix text "✅".
Definition controls (b : BotConf) (c : Client) : Prop := bot_control b = Some c ∧ cl_token c ≠ "".

(** The button names the rule at position [i]: by its token, which no other rule
    has, or by its id in the form of the previous release. *)
Definition names_rule (data : string) (rules : list Rule) (i : nat) (rule : Rule) (enabled : bool) : Prop :=
  (parseRuleSetCallbackData data = Some (enabled, ruleCallbackToken (RuleID rule)) ∧
   ∀ j r, rules !! j = Some r → ruleCallbackToken (RuleID r) = ruleCallbackToken (RuleID rule) → j = i) ∨
  (data = "stop:confirm:" +:+ RuleID rule ∧ enabled = false) ∨ (data = "start:confirm:" +:+ RuleID rule ∧ enabled = true).

(** What a pressed button does to the daemon, and the text it answers. *)
Inductive control_effect (b : BotConf) (data : string) (s : Server) : string → Server → Prop :=
| NoRequest text : successful text = false → control_effect b data s text s
| Looked c r s' text : controls b c → ConfigRules c s = (r, s') → successful text = false → control_effect b data s text s'
| Reloaded c r s' text : controls b c → data = "reload:confirm" → ClientReload c s = (r, s') → successful text = is_ok r →
    control_effect b data s text s'
| Switched c cfg s1 i rule enabled r s' text : controls b c → ConfigRules c s = (Ok cfg, s1) →
    cr_Rules cfg !! i = Some rule → Enabled rule = negb enabled → names_rule data (cr_Rules cfg) i rule enabled →
    ClientApply c (cr_ETag cfg)
      {| cq_UDPMaxSessions := cr_UDPMaxSessions cfg; cq_Rules := alter (with_enabled enabled) i (cr_Rules cfg) |} s1 = (r, s') →
    successful text = is_ok r → control_effect b data s text s'.

Lemma wp_control {A B} (m : IO Server ClientError A) (f : result ClientError A → Handler B) Q (st : BotState) :
  (∀ r s', m (bt_server st) = (r, s') → wp (f r) Q (set_server s' st)) → wp (control m ≫= f) Q st.
Proof. intros H. apply wp_bind. unfold control. apply wp_try, wp_zoom. unfold wp. destruct (m (bt_server st)) as [r s'] eqn:E. by apply H. Qed.

Definition performs (b : BotConf) (data : string) (st : BotState) (r : result HandlerError string) (st' : BotState) : Prop :=
  ∃ text, r = Ok text ∧ control_effect b data (bt_server st) text (bt_server st') ∧ bt_calls st' = bt_calls st.

Lemma performs_nothing b data st text : successful text = false → performs b data st (Ok text) st.
Proof. intros. exists text. by repeat split; [constructor|..]. Qed.

Lemma wp_setRuleEnabledInConfig b data c cfg i rule enabled st s1 : controls b c → ConfigRules c (bt_server st) = (Ok cfg, s1) →
  cr_Rules cfg !! i = Some rule → names_rule data (cr_Rules cfg) i rule enabled →
  wp (setRuleEnabledInConfig c cfg i enabled) (performs b data st) (set_server s1 st).
Proof.
  intros Hc Hcfg Hi Hnames. unfold setRuleEnabledInConfig. rewrite Hi. case_bool_decide as He.
  { apply wp_ret. eexists. split; [done|]. split; [by eapply Looked|done]. }
  unfold applyEnabled. apply wp_control. intros r s' Hr. apply wp_ret. eexists. split; [done|]. split; [|done].
  eapply (Switched _ _ _ c cfg s1 i rule enabled r); try done; [by destruct (Enabled rule), enabled|by destruct r, enabled].
Qed.

Lemma wp_with_config b data st f :
  (∀ c cfg s1, controls b c → ConfigRules c (bt_server st) = (Ok cfg, s1) → wp (f c cfg) (performs b data st) (set_server s1 st)) →
  wp (with_config b f) (performs b data st) st.
Proof.
  intros Hf. unfold with_config. destruct (bot_control b) as [c|] eqn:Hb; [|by apply wp_ret, performs_nothing].
  destruct (HasToken (Some c)) eqn:Ht; [|by apply wp_ret, performs_nothing].
  assert (controls b c) as Hc. { split; [done|]. simpl in Ht. apply negb_true_iff, bool_decide_eq_false in Ht. done. }
  apply wp_control. intros r s1 Hr. destruct r as [cfg|e]; [by apply Hf|]. apply wp_ret. eexists. split; [done|]. split; [by eapply Looked|done].
Qed.

Lemma token_matches_spec token rules i : i ∈ token_matches token rules ↔ ∃ r, rules !! i = Some r ∧ ruleCallbackToken (RuleID r) = token.
Proof.
  unfold token_matches. rewrite list_elem_of_omap. split.
  - intros ([j r] & Hin & Hs). simpl in Hs. case_bool_decide; [|done]. injection Hs as ->.
    apply list_elem_of_lookup in Hin as [k Hk]. rewrite list_lookup_imap in Hk. destruct (rules !! k) as [r'|] eqn:E; [|done].
    injection Hk as <- <-. eauto.
  - intros (r & Hr & Ht). exists (i, r). simpl. rewrite bool_decide_eq_true_2 by done. split; [|done].
    apply list_elem_of_lookup. exists i. by rewrite list_lookup_imap, Hr.
Qed.

Lemma TrimPrefix_app s pre : HasPrefix s pre = true → s = pre +:+ TrimPrefix s pre.
Proof.
  intros H. unfold TrimPrefix. rewrite H. unfold HasPrefix in H. apply bool_decide_eq_true in H as [k Hk]. rewrite Hk.
  rewrite <-(length_list_ascii pre), drop_app_length. rewrite <-(of_to_list s), Hk, of_list_app, of_to_list. done.
Qed.

Lemma wp_setRuleEnabled b data ruleID enabled st :
  (data = "stop:confirm:" +:+ ruleID ∧ enabled = false) ∨ (data = "start:confirm:" +:+ ruleID ∧ enabled = true) →
  wp (setRuleEnabled b ruleID enabled) (performs b data st) st.
Proof.
  intros Hdata. unfold setRuleEnabled. apply wp_with_config. intros c cfg s1 Hc Hcfg.
  destruct (rule_index ruleID (cr_Rules cfg)) as [i|] eqn:Hi.
  - unfold rule_index in Hi. destruct (list_find _ _) as [[j r]|] eqn:Hf; [|done]. injection Hi as ->.
    apply list_find_Some in Hf as (Hj & Hid & _). eapply wp_setRuleEnabledInConfig; [done..|]. right. by rewrite Hid.
  - apply wp_ret. eexists. split; [done|]. split; [by eapply Looked|done].
Qed.

Lemma wp_setRuleTokenEnabled b data token enabled st : parseRuleSetCallbackData data = Some (enabled, token) →
  wp (setRuleTokenEnabled b token enabled) (performs b data st) st.
Proof.
  intros Hdata. unfold setRuleTokenEnabled. apply wp_with_config. intros c cfg s1 Hc Hcfg.
  destruct (token_matches token (cr_Rules cfg)) as [|i [|? ?]] eqn:Hm;
    [apply wp_ret; eexists; split; [done|]; split; [by eapply Looked|done]| |apply wp_ret; eexists; split; [done|]; split; [by eapply Looked|done]].
  assert (i ∈ token_matches token (cr_Rules cfg)) as (r & Hr & Ht)%token_matches_spec by (rewrite Hm; left).
  eapply wp_setRuleEnabledInConfig; [done..|]. left. rewrite Ht. split; [done|]. intros j r' Hj Ht'.
  assert (j ∈ token_matches token (cr_Rules cfg)) as Hin by (apply token_matches_spec; eauto).
  rewrite Hm in Hin. by apply list_elem_of_singleton in Hin.
Qed.

Lemma wp_doReload b st : wp (doReload b) (performs b "reload:confirm" st) st.
Proof.
  unfold doReload. destruct (bot_control b) as [c|] eqn:Hb; [|by apply wp_ret, performs_nothing].
  destruct (HasToken (Some c)) eqn:Ht; [|by apply wp_ret, performs_nothing].
  apply wp_control. intros r s1 Hr. apply wp_ret. eexists. split; [done|]. split; [|done].
  eapply (Reloaded _ _ _ c r); [|done|done|by destruct r].
  split; [done|]. simpl in Ht. by apply negb_true_iff, bool_decide_eq_false in Ht.
Qed.

Lemma wp_perform b data st : wp (perform b data) (performs b data st) st.
Proof.
  unfold perform. destruct (parseRuleSetCallbackData data) as [[enabled token]|] eqn:Hp; [by apply wp_setRuleTokenEnabled|].
  case_bool_decide as Hr; [subst; apply wp_doReload|].
  destruct (_ || _); [by apply wp_ret, performs_nothing|].
  destruct (HasPrefix data "stop:confirm:") eqn:H1; [apply wp_setRuleEnabled; left; split; [by apply TrimPrefix_app|done]|].
  destruct (HasPrefix data "stop:cancel:"); [by apply wp_ret, performs_nothing|].
  destruct (HasPrefix data "start:confirm:") eqn:H2; [apply wp_setRuleEnabled; right; split; [by apply TrimPrefix_app|done]|].
  repeat (case_match; [by apply wp_ret, performs_nothing|]). by apply wp_ret, performs_nothing.
Qed.

(** *** Updates *)

(** Calls of Telegram leave the daemon alone. *)
Definition only_calls (st st' : BotState) : Prop := bt_server st' = bt_server st.

Lemma wp_call c (Q : result HandlerError () → BotState → Prop) st :
  (∀ r, Q r {| bt_server := bt_server st; bt_calls := bt_calls st ++ [c] |}) → wp (call tg_error c) Q st.
Proof. intros H. apply H. Qed.
Lemma wp_reply u text st : wp (reply tg_error u text) (λ _ st', only_calls st st') st.
Proof. unfold reply. destruct (effective_chat u); [by apply wp_call|done]. Qed.
Lemma wp_send u text mode buttons st : wp (send tg_error u text mode buttons) (λ _ st', only_calls st st') st.
Proof. unfold send. destruct (effective_chat u); [by apply wp_call|done]. Qed.
Lemma wp_the_engine {A} (f : Manager → Handler A) Q st : wp (f (engine (bt_server st))) Q st → wp (the_engine engine ≫= f) Q st.
Proof. done. Qed.
Lemma wp_sendRuleMessages chat i messages st : wp (sendRuleMessages tg_error chat i messages) (λ _ st', only_calls st st') st.
Proof.
  revert i st. induction messages as [|m messages IH]; intros i st; [done|]. cbn [sendRuleMessages].
  destruct (telegramTextLimit <? String.length m)%nat; [done|]. apply wp_bind, wp_call. intros [[]|e]; [|done].
  eapply wp_consequence; [apply IH|]. intros r st' H. exact H.
Qed.

(** The answer to a stranger. *)
Definition turned_away (u : Update) (st st' : BotState) : Prop :=
  bt_server st' = bt_server st ∧
  bt_calls st' = bt_calls st ++ (match effective_chat u with Some chat => [SendMessage chat 0 "⛔ Unauthorized" "" []] | None => [] end).

Lemma wp_allowed b u (m : Handler ()) (P : BotState → BotState → Prop) st : wp m (λ _, P st) st →
  wp (allowed tg_error b u m) (λ _ st', if chatAllowed b u then P st st' else turned_away u st st') st.
Proof.
  intros H. unfold allowed, turned_away. destruct (chatAllowed b u); [done|]. unfold rejectChat.
  destruct (effective_chat u); [by apply wp_call|]. apply wp_ret. by rewrite app_nil_r.
Qed.

(** What a command may do to the daemon: /toggle reads the rules. *)
Definition command_effect (b : BotConf) (name : string) (st st' : BotState) : Prop :=
  bt_server st' = bt_server st ∨
  (name = "toggle" ∧ ∃ c, controls b c ∧ bt_server st' = (ConfigRules c (bt_server st)).2).

Lemma wp_controlled b u name (m : Client → Handler ()) st :
  (∀ c, controls b c → wp (m c) (λ _, command_effect b name st) st) →
  wp (controlled tg_error b u m) (λ _ st', if chatAllowed b u then command_effect b name st st' else turned_away u st st') st.
Proof.
  intros Hm. apply wp_allowed. destruct (bot_control b) as [c|] eqn:Hb.
  - destruct (HasToken (Some c)) eqn:Ht; [|eapply wp_consequence; [apply wp_reply|by left]].
    apply Hm. split; [done|]. simpl in Ht. by apply negb_true_iff, bool_decide_eq_false in Ht.
  - eapply wp_consequence; [apply wp_reply|by left].
Qed.

Lemma wp_command b name f u st : command_handler engine tg_error reset_text name = Some f →
  wp (f b u) (λ _ st', if chatAllowed b u then command_effect b name st st' else turned_away u st st') st.
Proof.
  assert (∀ text mode buttons, wp (send tg_error u text mode buttons) (λ _, command_effect b name st) st) as Hsend.
  { intros. eapply wp_consequence; [apply wp_send|by left]. }
  assert (∀ text, wp (reply tg_error u text) (λ _, command_effect b name st) st) as Hreply.
  { intros. eapply wp_consequence; [apply wp_reply|by left]. }
  unfold command_handler. repeat (case_bool_decide as Hname; [intros [= <-]|clear Hname]); [| | | | | | | |done].
  - apply wp_allowed, Hsend.
  - apply wp_allowed, wp_the_engine, Hsend.
  - apply wp_allowed, wp_the_engine. cbv zeta. destruct (RunningRules _) as [|r rules]; [apply Hsend|].
    destruct (effective_chat u); [|by left]. eapply wp_consequence; [apply wp_sendRuleMessages|by left].
  - apply wp_allowed. cbv zeta. case_bool_decide; [apply Hreply|]. apply wp_the_engine.
    destruct (List.find _ _); [apply Hsend|apply Hreply].
  - apply wp_controlled. intros. apply Hsend.
  - apply wp_controlled. intros. cbv zeta. case_bool_decide; [apply Hreply|apply Hsend].
  - apply wp_controlled. intros. cbv zeta. case_bool_decide; [apply Hreply|apply Hsend].
  - apply wp_controlled. intros c Hc. cbv zeta. case_bool_decide; [apply Hreply|]. apply wp_control. intros r s' Hr.
    assert (∀ st', only_calls (set_server s' st) st' → command_effect b name st st') as Hlook.
    { intros st' E. right. split; [done|]. exists c. split; [done|]. rewrite E, Hr. done. }
    destruct r as [cfg|e]; [|by eapply wp_consequence; [apply wp_reply|auto]].
    destruct (List.find _ _); by (eapply wp_consequence; [apply wp_reply || apply wp_send|auto]).
Qed.

Lemma wp_handleCallback b u q st : u_Query u = Some q →
  wp (handleCallback tg_error b u) (λ _ st',
    if chatAllowed b u then
      ∃ text target, callbackTargetFromQuery q = Some target ∧ ct_chatID target = bot_chatID b ∧
        control_effect b (q_Data q) (bt_server st) text (bt_server st') ∧
        bt_calls st' = bt_calls st ++ [AnswerCallbackQuery (q_ID q) (truncateUTF8 text 200) false] ++
          (if ct_editable target then [EditMessageReplyMarkup (ct_chatID target) (ct_messageID target)] else []) ++
          [SendMessage (ct_chatID target) (ct_threadID target) text "" []]
    else bt_server st' = bt_server st ∧ bt_calls st' = bt_calls st ++ [AnswerCallbackQuery (q_ID q) "⛔ Unauthorized" true]) st.
Proof.
  intros Hq. unfold handleCallback. rewrite Hq. destruct (chatAllowed b u) eqn:Ha; cbn [negb].
  2:{ by apply wp_map_err, wp_call. }
  assert (∃ target, callbackTargetFromQuery q = Some target ∧ ct_chatID target = bot_chatID b) as (target & Ht & Hid).
  { unfold chatAllowed in Ha. rewrite Hq in Ha. destruct (callbackTargetFromQuery q) as [t|]; [|done]. exists t. split; [done|]. lia. }
  apply wp_bind, wp_map_err. eapply wp_consequence; [apply wp_perform|]. intros r st1 (text & -> & Heff & Hcalls).
  rewrite Ht. change (default _ (Some target)) with target. apply wp_bind, wp_try, wp_call. intros r1. apply wp_bind, wp_try.
  assert (∀ (errors : list HandlerError) st2 (P : BotState → Prop), P st2 →
    wp (match errors with [] => mret () | _ => fail errors end : IO BotState (list HandlerError) ()) (λ _ st', P st') st2) as Hend by by intros [|? ?].
  destruct (ct_editable target) eqn:He.
  - apply wp_call. intros r2. apply wp_bind, wp_try, wp_call. intros r3.
    apply Hend. cbn [bt_server bt_calls]. exists text, target. rewrite He, Hcalls. split_and!; [done..|]. by rewrite <-!app_assoc.
  - apply wp_ret. apply wp_bind, wp_try, wp_call. intros r3.
    apply Hend. cbn [bt_server bt_calls]. exists text, target. rewrite He, Hcalls. split_and!; [done..|]. by rewrite <-!app_assoc.
Qed.

(** The update comes from a chat: a message that was written there, or a button
    under a message that stands there (also one the bot cannot read any more). *)
Inductive sent_from (chat : Z) (u : Update) : Prop :=
| FromMessage m : u_Query u = None → u_Effective u = Some m → mg_Chat m = Some chat → sent_from chat u
| FromButton q m : u_Query u = Some q →
    q_Message q = AccessibleMessage (Some m) ∨ q_Message q = InaccessibleMessage (Some m) → mg_Chat m = Some chat →
    sent_from chat u.

Lemma chatAllowed_iff b u : chatAllowed b u = true ↔ sent_from (bot_chatID b) u.
Proof.
  unfold chatAllowed, callbackTargetFromQuery, effective_chat. split.
  - destruct (u_Query u) as [q|] eqn:Hq.
    + destruct (q_Message q) as [[[[chat|] id th]|]|[[[chat|] id th]|]|] eqn:Hm; try done; simpl; intros ->%Z.eqb_eq;
        (eapply FromButton; [done|eauto|done]).
    + destruct (u_Effective u) as [[[chat|] id th]|] eqn:He; simpl; try done. intros ->%Z.eqb_eq. by eapply FromMessage.
  - intros [m Hq Hm Hc|q m Hq Hm Hc]; rewrite Hq; [rewrite Hm; simpl; rewrite Hc; apply Z.eqb_refl|].
    destruct m as [chat id th]. simpl in Hc. subst chat. destruct Hm as [-> | ->]; apply Z.eqb_refl.
Qed.

Definition update_effect (b : BotConf) (update : BotUpdate) (st st' : BotState) : Prop :=
  match update with
  | CommandUpdate name u =>
      if bool_decide (name ∈ ["start"; "status"; "rules"; "detail"; "reload"; "stop"; "start_rule"; "toggle"]) then
        (sent_from (bot_chatID b) u → command_effect b name st st') ∧
        (¬ sent_from (bot_chatID b) u → turned_away u st st')
      else st' = st
  | CallbackUpdate u =>
      match u_Query u with
      | Some q =>
          (sent_from (bot_chatID b) u →
            ∃ text target, callbackTargetFromQuery q = Some target ∧ ct_chatID target = bot_chatID b ∧
              control_effect b (q_Data q) (bt_server st) text (bt_server st') ∧
              bt_calls st' = bt_calls st ++ [AnswerCallbackQuery (q_ID q) (truncateUTF8 text 200) false] ++
                (if ct_editable target then [EditMessageReplyMarkup (ct_chatID target) (ct_messageID target)] else []) ++
                [SendMessage (ct_chatID target) (ct_threadID target) text "" []]) ∧
          (¬ sent_from (bot_chatID b) u →
            bt_server st' = bt_server st ∧ bt_calls st' = bt_calls st ++ [AnswerCallbackQuery (q_ID q) "⛔ Unauthorized" true])
      | None => st' = st
      end
  end.

Lemma command_known name : command_handler engine tg_error reset_text name = None ↔
  name ∉ ["start"; "status"; "rules"; "detail"; "reload"; "stop"; "start_rule"; "toggle"].
Proof.
  rewrite !not_elem_of_cons. unfold command_handler. repeat case_bool_decide; simplify_eq; (split; [try done|naive_solver]).
  intros _. split_and!; try done. by apply not_elem_of_nil.
Qed.

(** C34: Whatever an update holds and whichever calls Telegram refuses, an update
    that is not sent from the configured chat reaches nothing of the daemon and
    gets one refusal; a command of the configured chat changes nothing but for
    the read of /toggle; and a pressed button of that chat makes at most the
    requests it names: a reload, or a read followed by one write that flips the
    flag of exactly the rule the button names, against the revision that was
    read.  The answer says it worked if and only if the request did, and is sent
    even when the calls before it fail.  Unknown commands do nothing. *)
Theorem bot_update_effect (b : BotConf) (update : BotUpdate) (st : BotState) :
  wp (handle engine tg_error reset_text b update) (λ _ st', update_effect b update st st') st.
Proof.
  destruct update as [name u|u]; cbn [handle update_effect].
  - destruct (command_handler _ _ _ name) as [f|] eqn:Hf.
    + rewrite bool_decide_eq_true_2.
      * apply wp_map_err. eapply wp_consequence; [by apply wp_command|]. intros r st'. rewrite <-chatAllowed_iff.
        destruct (chatAllowed b u); naive_solver.
      * destruct (decide (name ∈ ["start"; "status"; "rules"; "detail"; "reload"; "stop"; "start_rule"; "toggle"])) as [|Hn]; [done|].
        apply command_known in Hn. congruence.
    + apply wp_ret. rewrite bool_decide_eq_false_2; [done|]. by apply command_known.
  - destruct (u_Query u) as [q|] eqn:Hq; [|unfold handleCallback; rewrite Hq; by apply wp_ret].
    eapply wp_consequence; [by apply wp_handleCallback|]. intros r st'. rewrite <-chatAllowed_iff.
    destruct (chatAllowed b u); naive_solver.
Qed.
End effects.
