(* ===== verification/BotDaemonSpec.v ===== *)
(** * The bot's buttons over the daemon

    The bot's control client over the in-process transport: a pressed button
    passes the throttle, the tokens and the handlers of the control API, down to
    the configuration file and the running rules. *)

From S2P Require Import Prelude GoStrings Calendar NetIP Duration Rule Config YamlMerge Quantity Stats Quota Manager Precheck ControlAuth Store StoreSpec.
From S2P Require Import Management ManagerSpec ManagementSpec RequestSpec FileIO GoText ControlClient ControlServer BotHandlers BotHandlersSpec.

(** ** Entity tags *)

Lemma to_list_configETag revision : to_list (configETag revision) = [quote] ++ to_list (TrimSpace revision) ++ [quote].
Proof. unfold configETag. by rewrite to_of_list. Qed.
Lemma TrimSpace_configETag revision : TrimSpace (configETag revision) = configETag revision.
Proof.
  apply (TrimSpace_plain_ends _ quote quote); [by rewrite to_list_configETag| |by vm_compute].
  rewrite to_list_configETag. by rewrite app_assoc, last_snoc.
Qed.
Lemma configETag_nonempty revision : configETag revision ≠ "".
Proof. intros E. apply (f_equal to_list) in E. by rewrite to_list_configETag in E. Qed.

Lemma NormalizeETag_configETag revision : NormalizeETag (configETag revision) = configETag revision.
Proof.
  unfold NormalizeETag. cbv zeta. rewrite TrimSpace_configETag.
  assert (HasPrefix (configETag revision) (of_list [quote]) = true) as ->.
  { unfold HasPrefix. apply bool_decide_eq_true. rewrite to_list_configETag, to_of_list. by apply prefix_app_r. }
  assert (HasSuffix (configETag revision) (of_list [quote]) = true) as ->; [|by rewrite !orb_true_r].
  unfold HasSuffix. apply bool_decide_eq_true. rewrite to_list_configETag, to_of_list, app_assoc, reverse_app.
  reflexivity.
Qed.
Lemma responseETag_configETag revision r : responseETag (configETag revision) r = configETag revision.
Proof.
  unfold responseETag. cbv zeta. rewrite TrimSpace_configETag, bool_decide_eq_false_2 by apply configETag_nonempty. done.
Qed.

(** ** One request *)

Section daemon.
Context {tz : TzDatabase} {net : Net} {probe : Probe} {yl : YamlLib} {yn : YamlNodes} {sha : Sha256} {bot : BotController}
  (envs : nat → ServerEnv).
#[local] Instance transport : Transport := in_process envs.
Implicit Types (dm : Daemon) (c : Client).

(** A request that reached no handler, or one that refused it. *)
Definition untouched dm dm' : Prop :=
  dm_runtime dm' = dm_runtime dm ∧ d_replaced (dm_disk dm') = d_replaced (dm_disk dm).
Lemma untouched_trans dm1 dm2 dm3 : untouched dm1 dm2 → untouched dm2 dm3 → untouched dm1 dm3.
Proof. intros [? ?] [? ?]. split; congruence. Qed.

(** A call is refused by the middleware with a status that no method accepts, or
    it is the answer of its route. *)
Lemma doJSON_in_process c method path matchTag body accepted dm r dm' : 401 ∉ accepted → 429 ∉ accepted →
  doJSON c method path matchTag body accepted dm = (r, dm') →
  (is_ok r = false ∧ untouched dm dm') ∨
  ∃ server env info req resp, rq_Method req = method ∧ rq_Path req = path ∧ rq_Body req = body ∧
    rq_IfMatch req = (if bool_decide (TrimSpace matchTag = "") then "" else NormalizeETag matchTag) ∧
    route server env info req (dm_runtime dm) (dm_disk dm) = (resp, dm_runtime dm', dm_disk dm') ∧
    r = if acceptedStatus (hr_Status resp) accepted then Ok resp else Err (APIError (hr_Status resp) (hr_Payload resp)).
Proof.
  intros H1 H2. unfold doJSON. cbn [round_trip transport in_process]. set (req := {| rq_Method := method |}).
  cbv [mbind io_bind map_err]. unfold RoundTrip, withMiddleware.
  set (env := envs (length (dm_log dm))). destruct (middleware _ _ _ _ _) as [[| |info] limiter]; cbn [hr_Status plain].
  - unfold acceptedStatus. rewrite bool_decide_eq_false_2 by done. intros [= <- <-]. by left.
  - unfold acceptedStatus. rewrite bool_decide_eq_false_2 by done. intros [= <- <-]. by left.
  - destruct (route (dm_info dm) env info req _ _) as [[resp rt] d] eqn:Hroute. destruct (acceptedStatus (hr_Status resp) accepted) eqn:E;
      intros [= <- <-]; right; exists (dm_info dm), env, info, req, resp; rewrite E; by split_and!.
Qed.

(** The route of a request whose method and path are known. *)
Ltac route_of H Hp Hm :=
  unfold route in H; rewrite Hp, Hm in H;
  repeat match type of H with context [bool_decide (@eq string ?a ?b)] =>
    let v := eval vm_compute in (bool_decide (a = b)) in change (bool_decide (a = b)) with v in H
  end; cbn [andb orb] in H; cbv iota in H.

(** What the client takes for the configuration is the document of the file. *)
Lemma ConfigRules_in_process c dm r dm' : ConfigRules c dm = (r, dm') →
  untouched dm dm' ∧
  ∀ cfg, r = Ok cfg → ∃ env document,
    loadConfigDocument env (rt_ConfigPath (dm_runtime dm)) (dm_disk dm) = (Ok document, dm_disk dm') ∧
    cr_Rules cfg = cf_Rules (doc_Config document) ∧ cr_UDPMaxSessions cfg = cf_UDPMaxSessions (doc_Config document) ∧
    cr_ETag cfg = configETag (doc_Revision document).
Proof.
  unfold ConfigRules. cbv [mbind io_bind]. destruct (doJSON (transport := transport) c _ _ _ _ _ dm) as [r0 dm1] eqn:Hj.
  apply doJSON_in_process in Hj as [[Hr Hu]|(server & env & info & req & resp & Hm & Hp & _ & _ & Hroute & ->)]; [| |by vm_compute; set_solver..].
  { destruct r0; [done|]. by intros [= <- <-]. }
  route_of Hroute Hp Hm. unfold getRulesConfig in Hroute.
  destruct (loadConfigDocument _ _ _) as [loaded d1] eqn:Hl. pose proof (load_effect _ _ _ _ _ Hl) as [[_ Hrep _] _].
  destruct loaded as [document|e]; injection Hroute as <- Hrt Hd.
  - intros [= <- <-]. split; [split; congruence|]. intros cfg [= <-]. exists (se_read env), document. unfold decode_rules. cbn.
    rewrite <-Hd. split_and!; [done..|]. apply responseETag_configETag.
  - intros [= <- <-]. split; [|done]. split; congruence.
Qed.

(** A draft sent back with the tag of a document. *)
Lemma ClientApply_in_process c revision draft dm r dm' : runtime_ok (dm_runtime dm) →
  ClientApply c (configETag revision) draft dm = (r, dm') →
  (is_ok r = false ∧ untouched dm dm') ∨
  ∃ env response, put_outcome env (configETag revision)
      (Ok {| rc_UDPMaxSessions := Some (cq_UDPMaxSessions draft); rc_Rules := Some (cq_Rules draft) |})
      (dm_runtime dm) (dm_disk dm) response (dm_runtime dm') (dm_disk dm') ∧ is_ok r = bool_decide (rs_status response = 200) ∧
    runtime_ok (dm_runtime dm').
Proof.
  intros Hok. unfold ClientApply. cbv [mbind io_bind]. destruct (doJSON (transport := transport) c _ _ _ _ _ dm) as [r0 dm1] eqn:Hj.
  apply doJSON_in_process in Hj as [[Hr Hu]|(server & env & info & req & resp & Hm & Hp & Hb & Hi & Hroute & ->)]; [| |by vm_compute; set_solver..].
  { destruct r0; [done|]. intros [= <- <-]. by left. }
  rewrite TrimSpace_configETag, bool_decide_eq_false_2, NormalizeETag_configETag in Hi by apply configETag_nonempty.
  route_of Hroute Hp Hm. rewrite Hb, Hi in Hroute. cbn [rules_body] in Hroute.
  destruct (putRulesConfig _ _ _ _ _ _) as [[response rt] d] eqn:Hput. injection Hroute as <- Hrt Hd. subst rt d.
  apply put_effect in Hput as (Hok' & Hout & _); [|done]. intros Heq. cbv [mret io_ret] in Heq. right. exists (se_request env), response.
  assert (dm1 = dm') as <- by (destruct (acceptedStatus _ _); congruence). split; [done|]. split; [|done].
  unfold acceptedStatus in Heq. cbn [of_response hr_Status] in Heq. destruct (decide (rs_status response = 200)) as [E|E].
  - rewrite (bool_decide_eq_true_2 (_ ∈ _)) in Heq by (rewrite E; left). injection Heq as <-. by rewrite bool_decide_eq_true_2.
  - rewrite (bool_decide_eq_false_2 (_ ∈ _)) in Heq by (by rewrite list_elem_of_singleton). injection Heq as <-. by rewrite bool_decide_eq_false_2.
Qed.

Lemma ClientReload_in_process c dm r dm' : runtime_ok (dm_runtime dm) → ClientReload c dm = (r, dm') →
  (is_ok r = false ∧ untouched dm dm') ∨
  ∃ env out, is_ok r = is_ok out ∧ runtime_ok (dm_runtime dm') ∧ dm_disk dm' = external (fe_before (rl_file env)) (dm_disk dm) ∧
    reload_result (loaded_file env (dm_runtime dm) (dm_disk dm)) (dm_runtime dm) (dm_runtime dm') out.
Proof.
  intros Hok. unfold ClientReload. cbv [mbind io_bind]. destruct (doJSON (transport := transport) c _ _ _ _ _ dm) as [r0 dm1] eqn:Hj.
  apply doJSON_in_process in Hj as [[Hr Hu]|(server & env & info & req & resp & Hm & Hp & _ & _ & Hroute & ->)]; [| |by vm_compute; set_solver..].
  { destruct r0; [done|]. intros [= <- <-]. by left. }
  route_of Hroute Hp Hm. unfold ControlServer.handleReload, reload_status in Hroute.
  destruct (authorizeWrite (Some info)) as [denied|] eqn:Ha.
  - injection Hroute as <- Hrt Hd. assert (rs_status denied = 403) as Hs by (unfold authorizeWrite in Ha; destruct (canWrite info); [done|by injection Ha as <-]).
    cbn [of_response hr_Status]. rewrite Hs. intros [= <- <-]. left. split; [done|]. by split; congruence.
  - destruct (Reload _ _ _) as [[out rt] d] eqn:Hrl. injection Hroute as <- Hrt Hd. subst rt d. intros Heq. right. exists (se_reload env), out.
    destruct (reload_effect _ _ _ _ _ _ Hok Hrl) as (H1 & H2 & H3). assert (dm1 = dm') as -> by by destruct out as [[]|[]]; try (destruct (rb_Failed _)); injection Heq.
    split_and!; [|done..]. clear -Heq.
    destruct out as [[cfg ar]|[e|check|fields|transaction]]; cbn in Heq.
    all: try (injection Heq as <-; reflexivity).
    by destruct (rb_Failed (Rollback transaction)); injection Heq as <-.
Qed.

(** ** A pressed button *)

(** What a pressed button is to the daemon, and the text of the answer.  A switch
    is a write of the rules: the document that was read, with the flag of one
    rule turned, against the revision of that document. *)
Inductive served (data : string) dm : string → Daemon → Prop :=
| ServedNothing text dm' : untouched dm dm' → successful text = false → served data dm text dm'
| ServedReload env out text dm' : data = "reload:confirm" → dm_disk dm' = external (fe_before (rl_file env)) (dm_disk dm) →
    reload_result (loaded_file env (dm_runtime dm) (dm_disk dm)) (dm_runtime dm) (dm_runtime dm') out →
    successful text = is_ok out → served data dm text dm'
| ServedSwitch load env document disk1 i rule enabled response text dm' :
    loadConfigDocument load (rt_ConfigPath (dm_runtime dm)) (dm_disk dm) = (Ok document, disk1) →
    cf_Rules (doc_Config document) !! i = Some rule → Enabled rule = negb enabled →
    names_rule data (cf_Rules (doc_Config document)) i rule enabled →
    requestRevision (configETag (doc_Revision document)) = Ok (doc_Revision document) →
    put_outcome env (configETag (doc_Revision document))
      (Ok {| rc_UDPMaxSessions := Some (cf_UDPMaxSessions (doc_Config document));
             rc_Rules := Some (alter (with_enabled enabled) i (cf_Rules (doc_Config document))) |})
      (dm_runtime dm) disk1 response (dm_runtime dm') (dm_disk dm') →
    successful text = bool_decide (rs_status response = 200) → served data dm text dm'.

Lemma control_effect_served (Hsha : ∀ raw, digest_shape raw) b data dm text dm' : runtime_ok (dm_runtime dm) →
  control_effect (transport := transport) b data dm text dm' → served data dm text dm' ∧ runtime_ok (dm_runtime dm').
Proof.
  intros Hok. assert (∀ text dm', untouched dm dm' → successful text = false → served data dm text dm' ∧ runtime_ok (dm_runtime dm')) as Hnothing.
  { intros ? ? [Hrt Hd] ?. split; [by apply ServedNothing|by rewrite Hrt]. }
  destruct 1 as [text Ht|c r dm' text _ Hcfg Ht|c r dm' text _ Hd Hr Ht|c cfg dm1 i rule enabled r dm' text _ Hcfg Hi He Hn Ha Ht].
  - by apply Hnothing.
  - apply ConfigRules_in_process in Hcfg as [Hu _]. by apply Hnothing.
  - apply ClientReload_in_process in Hr as [[Hr Hu]|(env & out & Ho & Hok' & Hdisk & Hres)]; [apply Hnothing; congruence| |done].
    split; [|done]. eapply ServedReload; [done..|congruence].
  - apply ConfigRules_in_process in Hcfg as [[Hrt Hrep] Hcfg]. destruct (Hcfg _ eq_refl) as (load & document & Hload & Hrules & Hs & Htag).
    rewrite Hrules, Hs, Htag in *. apply ClientApply_in_process in Ha as [[Hr [Hu1 Hu2]]|(env & response & Hout & Hr & Hok')]; [| |by rewrite Hrt].
    + apply Hnothing; [split|]; congruence.
    + split; [|done]. rewrite Hrt in Hout. eapply ServedSwitch; try done; [|congruence].
      destruct (load_effect _ _ _ _ _ Hload) as [_ Hdoc]. destruct (Hdoc _ eq_refl) as (_ & -> & _). by apply etag_roundtrip; apply Hsha.
Qed.

(** C13: A button pressed in the bot's chat, over the in-process transport down to
    the configuration file.  The answer says it worked exactly when the daemon
    reloaded the file, or committed the document that the bot had read with the
    flag of one rule turned, and now serves it; that write is refused when the
    file has another revision than the one read.  A button never does more: a
    reload writes no file, and any other button changes neither the daemon nor
    the file; the daemon stays in order. *)
Theorem pressed_button_served (engine : Daemon → Manager) (tg_error : list TgCall → TgCall → option string)
    (reset_text : Z → string → string) (b : BotConf) (u : Update) (q : CallbackQuery) (st : @BotState transport)
    (Hq : u_Query u = Some q) (Hallowed : chatAllowed b u = true) (Hok : runtime_ok (dm_runtime (bt_server st)))
    (Hsha : ∀ raw, digest_shape raw) :
  wp (handle (transport := transport) engine tg_error reset_text b (CallbackUpdate u)) (λ _ st',
    ∃ text target, callbackTargetFromQuery q = Some target ∧ ct_chatID target = bot_chatID b ∧
      list.last (bt_calls st') = Some (SendMessage (ct_chatID target) (ct_threadID target) text "" []) ∧
      served (q_Data q) (bt_server st) text (bt_server st') ∧ runtime_ok (dm_runtime (bt_server st'))) st.
Proof.
  cbn [handle]. eapply wp_consequence; [by apply wp_handleCallback|]. rewrite Hallowed.
  intros r st' (text & target & Ht & Hid & Heff & Hcalls). exists text, target. split_and!; [done..| |by eapply control_effect_served|by eapply control_effect_served].
  by rewrite Hcalls, !app_assoc, last_snoc.
Qed.
End daemon.

(** ** A bot that disables a rule

    The text "two" is the file "one" with its rule turned off. *)

#[local] Existing Instance utc_database.
#[local] Existing Instance port_net.
#[local] Existing Instance quiet_probe.
#[local] Existing Instance two_prints.
#[local] Existing Instance two_digests.
#[local] Existing Instance switch_bot.

Definition file_with (rules : list Rule) : File := {|
  cf_Version := 1; cf_Language := ""; cf_InvalidLanguage := ""; cf_ControlPort := 0; cf_DeprecatedControlListenAddr := "";
  cf_UsedDeprecatedControlListenAddr := false; cf_UDPMaxSessions := 100;
  cf_ControlTLS := {| tls_CertFile := ""; tls_KeyFile := ""; tls_ClientCAFile := ""; tls_MinVersion := "" |};
  cf_Log := {| log_Level := ""; log_Format := "" |}; cf_Auth := {| ac_Enabled := false; ac_Tokens := [] |};
  cf_BotToken := ""; cf_BotChat := 0; cf_BotControlToken := ""; cf_AcmeChallenge := ""; cf_AcmeHTTP01Addr := "";
  cf_AcmeCacheDir := ""; cf_AcmeDNS01 := zero_dns01; cf_CertCacheDir := "";
  cf_CertReview := {| cr_WarningDays := 0; cr_CriticalDays := 0; cr_MinRSABits := 0 |};
  cf_Stats := {| sc_Persist := false; sc_Path := ""; sc_FlushInterval := "" |};
  cf_Rules := rules; cf_UnknownFields := [] |}.
Definition on_and_off : YamlLib := {|
  yaml_parse raw := Ok (Some (YNode ScalarNode raw "" []));
  yaml_decode n := Ok (file_with [with_enabled (bool_decide (yn_Value n = "one")) (ManagerSpec.sample_rule "web" 8080)]) |}.
#[local] Existing Instance on_and_off.

Definition quiet_envs (n : nat) : ServerEnv := {|
  se_now := 1000; se_request := request_env None None;
  se_reload := {| rl_file := {| fe_before := None; fe_error := None |}; rl_order := [] |}; se_read := quiet_read |}.
Definition bot_runtime : Runtime := {|
  rt_ConfigPath := "vmflow.yaml"; rt_Manager := NewManagerWithOptions None 100 None ([] : @Manager.World port_net);
  rt_Auth := {| a_enabled := true; a_rules := [{| ar_name := "bot"; ar_token := "secret"; ar_role := RoleAdmin |}] |};
  rt_PrecheckOptions := None; rt_Bot := None; rt_StartupConfig := None; rt_degraded := false; rt_degradedCause := "" |}.
Definition quiet_daemon : Daemon := {| dm_runtime := bot_runtime; dm_disk := disk; dm_limiter := ∅; dm_log := [];
  dm_info := {| si_Version := "v1.0.0"; si_Commit := ""; si_StartedTime := 0 |} |}.
Definition the_bot : BotConf := {| bot_chatID := 42; bot_control := newBotControl "secret" |}.
Definition stop_pressed : CallbackQuery := {|
  q_ID := "q1"; q_Data := ruleSetCallbackData "web" false;
  q_Message := AccessibleMessage (Some {| mg_Chat := Some 42; mg_ID := 7; mg_Thread := 0 |}) |}.
Definition stop_update : Update := {| u_Query := Some stop_pressed; u_Effective := None; u_Args := "" |}.
Definition pressed := handle (transport := in_process quiet_envs) (λ dm : Daemon, rt_Manager (dm_runtime dm)) (λ _ _, None) (λ _ _, "")
  the_bot (CallbackUpdate stop_update) {| bt_server := quiet_daemon : @Server (in_process quiet_envs); bt_calls := [] |}.

(** (finding) [doToggleRule] sends the rules back as they are and says that the
    rule is disabled. *)
Example toggle_changes_nothing :
  let '(text, st) := doToggleRule (transport := in_process quiet_envs) the_bot "web"
    {| bt_server := quiet_daemon : @Server (in_process quiet_envs); bt_calls := [] |} in
  text = Ok "✅ 规则 web 已停用(已写入配置)" ∧ rules_of (rt_Manager (dm_runtime (bt_server st))) !! "web" = Some (with_enabled true (ManagerSpec.sample_rule "web" 8080)).
Proof. vm_compute. split; reflexivity. Qed.

Lemma bot_runtime_ok : runtime_ok bot_runtime.
Proof. split; [apply NewManager_inv|]. unfold limit_ok. vm_compute. by split. Qed.
Lemma digests_have_shape raw : digest_shape raw.
Proof. unfold digest_shape. simpl. by destruct (bool_decide _). Qed.

Lemma pressed_button_served_witness :
  d_config (dm_disk (bt_server pressed.2)) = Regular 7 "two" ∧
  served (q_Data stop_pressed) quiet_daemon "✅ 规则 web 已停用(已写入配置)" (bt_server pressed.2).
Proof.
  split; [vm_compute; reflexivity|].
  destruct (pressed_button_served quiet_envs (λ dm : Daemon, rt_Manager (dm_runtime dm)) (λ _ _, None) (λ _ _, "") the_bot stop_update stop_pressed
    {| bt_server := quiet_daemon : @Server (in_process quiet_envs); bt_calls := [] |} eq_refl eq_refl bot_runtime_ok digests_have_shape)
    as (text & target & _ & _ & Hlast & Hserved & _).
  assert (list.last (bt_calls pressed.2) = Some (SendMessage 42 0 "✅ 规则 web 已停用(已写入配置)" "" [])) as E by (vm_compute; reflexivity).
  pose proof (eq_trans (eq_sym E) Hlast) as F. injection F as _ _ <-. exact Hserved.
Defined.
