(* ===== verification/Mcp.v ===== *)
(** * The tools of the MCP server (internal/mcpserver)

    Five tools read, three change one rule; each is a sequence of calls of the
    control client.  The library's JSON-RPC and schemas are left out.  Whether a
    call gets one of the four slots before its deadline is the argument
    [admitted]; a request that times out does not come back. *)

From S2P Require Import Prelude GoStrings Calendar NetIP Rule Quantity Config Stats Quota Manager Precheck ControlAuth Store Management.
From S2P Require Import FileIO GoText ControlClient.

(** ** Limits *)

Definition defaultListLimit : Z := 50.
Definition maxListLimit : Z := 200.
Definition maxFilterLength : nat := 256.
Definition maxRuleIDLength : nat := 64.
Definition defaultListenAddr : string := "127.0.0.1".

Inductive BackendError := MissingClient | ClientFailed (e : ClientError).
Definition backend_status (e : BackendError) : Z := match e with MissingClient => 0 | ClientFailed e => APIStatus e end.

Inductive WriteErrorKind := ConcurrentChange | WriteDenied | PrecheckFailed | RolledBack | OtherWriteError.
Inductive ToolError :=
| NoCapacity | QueryTooLong | BadProtocolFilter | BadLimit | RuleIdRequired | RuleIdTooLong (limit : nat)
| ConfiguredRulesError (e : BackendError) | RuntimeRulesError (e : BackendError) | StatsError (e : BackendError)
| CurrentPrecheckError (e : BackendError) | ForwardingRuleNotFound (id : string)
| WriteDisabled | NotWritable | WriteFailed (kind : WriteErrorKind) (e : ClientError)
| NameRequired | NameTooLong | BadWritableProtocol | NonLoopbackListenAddr (addr : string) | BadListenPort | TargetRequired | BadTargetPort
| BadQuantity (field : string) (e : QuantityError) | InvalidUpsertRule (e : RuleError)
| UnknownTool.

Definition mapWriteError (e : ClientError) : ToolError :=
  let status := APIStatus e in
  WriteFailed (if status =? 412 then ConcurrentChange else if status =? 403 then WriteDenied else if status =? 422 then PrecheckFailed
               else if status =? 503 then RolledBack else OtherWriteError) e.

Definition normalizeLimit (limit : Z) : result ToolError Z :=
  if limit =? 0 then Ok defaultListLimit
  else check ((limit <? 1) || (maxListLimit <? limit)) BadLimit ≫= λ _, Ok limit.
Definition normalizeProtocolFilter (value : string) : result ToolError string :=
  let value := ToLower (TrimSpace value) in
  if bool_decide (value ∈ [""; ProtocolTCP; ProtocolUDP; ProtocolTCPUDP; ProtocolHTTP; ProtocolHTTPS]) then Ok value else Err BadProtocolFilter.
Definition normalizeRuleID (raw : string) : result ToolError string :=
  let ruleID := TrimSpace raw in
  check (bool_decide (ruleID = "")) RuleIdRequired ≫= λ _,
  check (maxRuleIDLength <? String.length ruleID)%nat (RuleIdTooLong maxRuleIDLength) ≫= λ _, Ok ruleID.
Definition normalizeWritableProtocol (value : string) : result ToolError string :=
  let protocol := ToLower (TrimSpace value) in
  if bool_decide (protocol ∈ [ProtocolTCP; ProtocolUDP; ProtocolTCPUDP]) then Ok protocol else Err BadWritableProtocol.

Definition isLoopbackListenAddr (addr : string) : bool :=
  let host := TrimSpace addr in
  if bool_decide (host = "") then false
  else
    let host := match SplitHostPort host with Some (withoutPort, _) => withoutPort | None => host end in
    let host := Trim (TrimSpace host) "[]" in
    EqualFold host "localhost" || match ParseIP host with Some ip => IsLoopback ip | None => false end.

(** ** Views (ruleview.go) *)

Record bandwidthLimitView := { bv_Rate : string; bv_Upload : string; bv_Download : string }.
Record trafficQuotaView := { tv_Daily : string; tv_Monthly : string; tv_Timezone : string; tv_Action : string }.

Definition newBandwidthLimitView (limit : BandwidthLimit) : bandwidthLimitView :=
  let view n := if 0 <? n then ByteRate_String n else "" in
  {| bv_Rate := view (bw_rate limit); bv_Upload := view (bw_upload limit); bv_Download := view (bw_download limit) |}.
Definition newTrafficQuotaView (quota : TrafficQuota) : trafficQuotaView :=
  let view n := if 0 <? n then ByteSize_String n else "" in
  {| tv_Daily := view (q_daily quota); tv_Monthly := view (q_monthly quota); tv_Timezone := q_timezone quota; tv_Action := q_action quota |}.

Record forwardingRuleView := {
  rv_RuleID : string; rv_Name : string; rv_Protocol : string; rv_ListenAddr : string; rv_ListenPort : Z; rv_TargetAddr : string;
  rv_TargetPort : Z; rv_Enabled : bool; rv_SpeedLimit : Z; rv_Bandwidth : option bandwidthLimitView;
  rv_TrafficQuota : option trafficQuotaView; rv_MaxConn : Z; rv_IdleTimeout : Z; rv_SourceIPMode : string; rv_SourceIPs : list string;
  rv_Domains : list string; rv_Remark : string; rv_Revision : Z; rv_CreatedTime : Z; rv_UpdatedTime : Z
}.
Definition newForwardingRuleView (rule : Rule) : forwardingRuleView := {|
  rv_RuleID := RuleID rule; rv_Name := Name rule; rv_Protocol := Proto rule; rv_ListenAddr := ListenAddr rule;
  rv_ListenPort := ListenPort rule; rv_TargetAddr := TargetAddr rule; rv_TargetPort := TargetPort rule; rv_Enabled := Enabled rule;
  rv_SpeedLimit := SpeedLimit rule; rv_Bandwidth := newBandwidthLimitView <$> Bandwidth rule;
  rv_TrafficQuota := newTrafficQuotaView <$> Rule.Quota rule; rv_MaxConn := MaxConn rule; rv_IdleTimeout := IdleTimeout rule;
  rv_SourceIPMode := SourceIPMode rule; rv_SourceIPs := SourceIPs rule; rv_Domains := Domains rule; rv_Remark := Remark rule;
  rv_Revision := Revision rule; rv_CreatedTime := CreatedTime rule; rv_UpdatedTime := UpdatedTime rule |}.

Record forwardingRuleSummary := {
  fs_RuleID : string; fs_Name : string; fs_Protocol : string; fs_Enabled : bool; fs_SpeedLimit : Z;
  fs_Bandwidth : option bandwidthLimitView; fs_TrafficQuota : option trafficQuotaView; fs_MaxConn : Z; fs_IdleTimeout : Z;
  fs_Revision : Z; fs_UpdatedTime : Z
}.
Definition summarizeRule (rule : Rule) : forwardingRuleSummary := {|
  fs_RuleID := RuleID rule; fs_Name := Name rule; fs_Protocol := Proto rule; fs_Enabled := Enabled rule; fs_SpeedLimit := SpeedLimit rule;
  fs_Bandwidth := newBandwidthLimitView <$> Bandwidth rule; fs_TrafficQuota := newTrafficQuotaView <$> Rule.Quota rule;
  fs_MaxConn := MaxConn rule; fs_IdleTimeout := IdleTimeout rule; fs_Revision := Revision rule; fs_UpdatedTime := UpdatedTime rule |}.

Definition summary_le (a b : forwardingRuleSummary) : bool :=
  let aName := ToLower (TrimSpace (fs_Name a)) in
  let bName := ToLower (TrimSpace (fs_Name b)) in
  if negb (bool_decide (aName = bName)) then str_le aName bName else str_le (fs_RuleID a) (fs_RuleID b).
Definition sortRuleSummaries : list forwardingRuleSummary → list forwardingRuleSummary := sort_stable summary_le.

Record trafficTotals := {
  tt_UploadBytes : Z; tt_DownloadBytes : Z; tt_ActiveConnections : Z; tt_SourceIPDenied : Z; tt_UDPSessionRejected : Z;
  tt_UDPPacketsDropped : Z; tt_QuotaRejectedBytes : Z
}.
Definition sumTraffic (items : list TrafficSnapshot) : trafficTotals :=
  let total (f : TrafficSnapshot → Z) := foldl (λ acc s, add64 acc (f s)) 0 items in
  {| tt_UploadBytes := total s_UploadBytes; tt_DownloadBytes := total s_DownloadBytes; tt_ActiveConnections := total s_Conns;
     tt_SourceIPDenied := total s_SourceIPDenied; tt_UDPSessionRejected := total s_UDPSessionRejected;
     tt_UDPPacketsDropped := total s_UDPPacketsDropped; tt_QuotaRejectedBytes := total s_QuotaRejectedBytes |}.

(** ** The read tools *)

Record ToolHandlers := { th_backend : option Client; th_write : option Client; th_version : string }.

(** [NewServer]: the write tools exist in write mode only. *)
Definition NewServer (client : option Client) (version : string) (writeEnabled : bool) : ToolHandlers :=
  let version := TrimSpace version in
  {| th_backend := client; th_write := if writeEnabled then client else None;
     th_version := if bool_decide (version = "") then "dev" else version |}.

Inductive Issue :=
| CapacityIssue | SessionStatus (status : Z) | DaemonUnavailable (e : BackendError) | CannotWriteRules
| APIVersionUnavailable | APIVersionIncompatible (version : string) | DaemonVersionUnavailable
| ConfiguredRulesIssue (e : BackendError) | RuntimeRulesIssue (e : BackendError) | StatsIssue (e : BackendError)
| PrecheckIssue (errors warnings : Z) | RuleUnchangedIssue.

Record statusCounters := {
  sc_ConfiguredRules : Z; sc_EnabledRules : Z; sc_DisabledRules : Z; sc_RuntimeRules : Z; sc_TrafficRules : Z; sc_Totals : trafficTotals
}.
Record getVMFlowStatusOutput := {
  so_Connected : bool; so_MCPReadOnly : bool; so_MCPServerVersion : string; so_Session : option SessionResponse;
  so_ConfigRevision : string; so_DaemonConfigWritable : bool; so_UDPMaxSessions : Z; so_Counters : statusCounters; so_Issues : list Issue
}.
Record listForwardingRulesInput := { li_Query : string; li_Protocol : string; li_Enabled : option bool; li_Limit : Z }.
Record listForwardingRulesOutput := {
  lo_Revision : string; lo_Total : Z; lo_Matched : Z; lo_Returned : Z; lo_Rules : list forwardingRuleSummary
}.
Record getForwardingRuleOutput := {
  ro_Revision : string; ro_Rule : forwardingRuleView; ro_Running : bool; ro_StatsAvailable : bool;
  ro_Stats : TrafficSnapshot * option TrafficQuotaSnapshot
}.
Record getTrafficStatsOutput := {
  to_Total : Z; to_Matched : Z; to_Returned : Z; to_Totals : trafficTotals; to_Items : list (TrafficSnapshot * option TrafficQuotaSnapshot)
}.
Record runConfigPrecheckOutput := {
  po_RuleCount : Z; po_Error : string; po_Result : Result; po_Total : Z; po_Returned : Z; po_Truncated : bool
}.

Section tools.
Context {tz : TzDatabase} {transport : Transport}.
Notation Tool := (IO Server ToolError).

(** A call of the read backend. *)
Definition backend {A} (t : ToolHandlers) (wrap : BackendError → ToolError) (m : Client → IO Server ClientError A) : Tool A :=
  match th_backend t with
  | Some c => map_err (λ e, wrap (ClientFailed e)) (m c)
  | None => fail (wrap MissingClient)
  end.
Definition acquire (admitted : bool) : Tool () := if admitted then mret () else fail NoCapacity.

Definition no_totals : trafficTotals := sumTraffic [].
Definition empty_status (t : ToolHandlers) (connected : bool) (issues : list Issue) : getVMFlowStatusOutput := {|
  so_Connected := connected; so_MCPReadOnly := negb (bool_decide (is_Some (th_write t))); so_MCPServerVersion := th_version t; so_Session := None;
  so_ConfigRevision := ""; so_DaemonConfigWritable := false; so_UDPMaxSessions := 0;
  so_Counters := {| sc_ConfiguredRules := 0; sc_EnabledRules := 0; sc_DisabledRules := 0; sc_RuntimeRules := 0; sc_TrafficRules := 0;
                    sc_Totals := no_totals |};
  so_Issues := issues |}.

Definition session_issues (t : ToolHandlers) (session : SessionResponse) : list Issue :=
  let version := TrimSpace (sn_APIVersion session) in
  (if bool_decide (is_Some (th_write t)) && negb (sn_RulesWrite session) then [CannotWriteRules] else []) ++
  (if bool_decide (version = "") then [APIVersionUnavailable]
   else if negb (bool_decide (version = ManagementAPIVersion)) then [APIVersionIncompatible version] else []) ++
  (if bool_decide (TrimSpace (sn_ServerVersion session) = "") then [DaemonVersionUnavailable] else []).

Definition with_error {A} (issue : BackendError → Issue) (r : result BackendError A) : list Issue :=
  match r with Ok _ => [] | Err e => [issue e] end.
Definition ok_or {A B} (f : A → B) (none : B) (r : result BackendError A) : B := match r with Ok a => f a | Err _ => none end.
(** A call whose error becomes an issue. *)
Definition attempt {A} (t : ToolHandlers) (m : Client → IO Server ClientError A) : Tool (result BackendError A) :=
  match th_backend t with
  | Some c => try (m c) ≫= λ r, mret (match r with Ok a => Ok a | Err e => Err (ClientFailed e) end)
  | None => mret (Err MissingClient)
  end.

Definition trimmed_session (s : SessionResponse) : SessionResponse := {|
  sn_Actor := sn_Actor s; sn_Role := sn_Role s; sn_RulesWrite := sn_RulesWrite s; sn_APIVersion := TrimSpace (sn_APIVersion s);
  sn_ServerVersion := TrimSpace (sn_ServerVersion s); sn_Commit := sn_Commit s; sn_StartedTime := sn_StartedTime s;
  sn_Degraded := sn_Degraded s; sn_DegradedCause := sn_DegradedCause s |}.

Definition getVMFlowStatus (admitted : bool) (t : ToolHandlers) : Tool getVMFlowStatusOutput :=
  if negb admitted then mret (empty_status t false [CapacityIssue])
  else
    attempt t ClientSession ≫= λ session,
    match session with
    | Err e =>
        mret (if negb (backend_status e =? 0) then empty_status t true [SessionStatus (backend_status e)]
              else empty_status t false [DaemonUnavailable e])
    | Ok session =>
        attempt t ConfigRules ≫= λ configRules,
        attempt t ClientRules ≫= λ runtimeRules,
        attempt t ClientStats ≫= λ stats,
        let enabled rules := Z.of_nat (length (filter (λ r, Enabled r = true) rules)) in
        let configured := ok_or (λ c, cr_Rules c) [] configRules in
        mret {|
          so_Connected := true; so_MCPReadOnly := negb (bool_decide (is_Some (th_write t))); so_MCPServerVersion := th_version t;
          so_Session := Some (trimmed_session session);
          so_ConfigRevision := ok_or cr_Revision "" configRules; so_DaemonConfigWritable := ok_or cr_Writable false configRules;
          so_UDPMaxSessions := ok_or cr_UDPMaxSessions 0 configRules;
          so_Counters := {|
            sc_ConfiguredRules := Z.of_nat (length configured); sc_EnabledRules := enabled configured;
            sc_DisabledRules := Z.of_nat (length configured) - enabled configured;
            sc_RuntimeRules := ok_or (λ l, Z.of_nat (length l)) 0 runtimeRules;
            sc_TrafficRules := ok_or (λ l, Z.of_nat (length l)) 0 stats; sc_Totals := ok_or (λ l, sumTraffic (l.*1)) no_totals stats |};
          so_Issues := session_issues t session ++ with_error ConfiguredRulesIssue configRules ++ with_error RuntimeRulesIssue runtimeRules ++
                       with_error StatsIssue stats |}
    end.

Definition matches (query protocol : string) (enabled : option bool) (rule : Rule) : bool :=
  (bool_decide (query = "") || StrContains (ToLower (RuleID rule)) query || StrContains (ToLower (Name rule)) query)
  && (bool_decide (protocol = "") || EqualFold (Proto rule) protocol)
  && match enabled with Some b => bool_decide (Enabled rule = b) | None => true end.

Definition listForwardingRules (admitted : bool) (t : ToolHandlers) (input : listForwardingRulesInput) : Tool listForwardingRulesOutput :=
  let queryValue := TrimSpace (li_Query input) in
  lift (check (maxFilterLength <? String.length queryValue)%nat QueryTooLong) ≫= λ _,
  lift (normalizeProtocolFilter (li_Protocol input)) ≫= λ protocol,
  lift (normalizeLimit (li_Limit input)) ≫= λ limit,
  acquire admitted ≫= λ _,
  backend t ConfiguredRulesError ConfigRules ≫= λ snapshot,
  let rules := sortRuleSummaries (summarizeRule <$> filter (λ r, matches (ToLower queryValue) protocol (li_Enabled input) r = true) (cr_Rules snapshot)) in
  let returned := take (Z.to_nat limit) rules in
  mret {| lo_Revision := cr_Revision snapshot; lo_Total := Z.of_nat (length (cr_Rules snapshot)); lo_Matched := Z.of_nat (length rules);
          lo_Returned := Z.of_nat (length returned); lo_Rules := returned |}.

Definition getForwardingRule (admitted : bool) (t : ToolHandlers) (rawRuleID : string) : Tool getForwardingRuleOutput :=
  let ruleID := TrimSpace rawRuleID in
  lift (check (bool_decide (ruleID = "")) RuleIdRequired) ≫= λ _,
  lift (check (maxFilterLength <? String.length ruleID)%nat (RuleIdTooLong maxFilterLength)) ≫= λ _,
  acquire admitted ≫= λ _,
  backend t ConfiguredRulesError ConfigRules ≫= λ snapshot,
  match List.find (λ r, bool_decide (RuleID r = ruleID)) (cr_Rules snapshot) with
  | None => fail (ForwardingRuleNotFound ruleID)
  | Some rule =>
      backend t RuntimeRulesError ClientRules ≫= λ runtimeRules,
      backend t StatsError ClientStats ≫= λ stats,
      let found := List.find (λ s : TrafficSnapshot * option TrafficQuotaSnapshot, bool_decide (s_RuleID s.1 = ruleID)) stats in
      mret {| ro_Revision := cr_Revision snapshot; ro_Rule := newForwardingRuleView rule;
              ro_Running := bool_decide (ruleID ∈ RuleID <$> runtimeRules); ro_StatsAvailable := bool_decide (is_Some found);
              ro_Stats := default (snapshotCounter ruleID None, None) found |}
  end.

Definition getTrafficStats (admitted : bool) (t : ToolHandlers) (rawRuleID : string) (rawLimit : Z) : Tool getTrafficStatsOutput :=
  let ruleID := TrimSpace rawRuleID in
  lift (check (maxFilterLength <? String.length ruleID)%nat (RuleIdTooLong maxFilterLength)) ≫= λ _,
  lift (normalizeLimit rawLimit) ≫= λ limit,
  acquire admitted ≫= λ _,
  backend t StatsError ClientStats ≫= λ stats,
  let wanted (s : TrafficSnapshot * option TrafficQuotaSnapshot) := bool_decide (ruleID = "") || bool_decide (s_RuleID s.1 = ruleID) in
  let items := sort_stable (λ a b, str_le (s_RuleID a.1) (s_RuleID b.1)) (filter (λ s, wanted s = true) stats) in
  let returned := take (Z.to_nat limit) items in
  mret {| to_Total := Z.of_nat (length stats); to_Matched := Z.of_nat (length items); to_Returned := Z.of_nat (length returned);
          to_Totals := sumTraffic (items.*1); to_Items := returned |}.

Definition runConfigPrecheck (admitted : bool) (t : ToolHandlers) (rawLimit : Z) : Tool runConfigPrecheckOutput :=
  lift (normalizeLimit rawLimit) ≫= λ limit,
  acquire admitted ≫= λ _,
  backend t CurrentPrecheckError CurrentPrecheck ≫= λ '(error, rules, result),
  let items := take (Z.to_nat limit) (ResultItems result) in
  mret {| po_RuleCount := rules; po_Error := error;
          po_Result := {| OK := OK result; ErrorCount := ErrorCount result; WarningCount := WarningCount result;
                          CheckedRules := CheckedRules result; ResultItems := items |};
          po_Total := Z.of_nat (length (ResultItems result)); po_Returned := Z.of_nat (length items);
          po_Truncated := bool_decide (length items < length (ResultItems result))%nat |}.

(** ** The write tools (tools_write.go) *)

Record bandwidthLimitInput := { bi_Rate : string; bi_Upload : string; bi_Download : string }.
Record trafficQuotaInput := { ti_Daily : string; ti_Monthly : string; ti_Timezone : string }.
Record upsertForwardingRuleInput := {
  ui_RuleID : string; ui_Name : string; ui_Protocol : string; ui_ListenAddr : string; ui_ListenPort : Z; ui_TargetAddr : string;
  ui_TargetPort : Z; ui_Enabled : option bool; ui_SpeedLimit : Z; ui_Bandwidth : option bandwidthLimitInput;
  ui_TrafficQuota : option trafficQuotaInput; ui_MaxConn : Z; ui_IdleTimeout : Z; ui_SourceIPMode : string; ui_SourceIPs : list string;
  ui_Domains : list string; ui_Remark : string; ui_AllowNonLoopback : bool; ui_DryRun : bool
}.

Definition parse_field (parse : string → result QuantityError Z) (value field : string) : result ToolError (option Z) :=
  let value := TrimSpace value in
  if bool_decide (value = "") then Ok None
  else match parse value with Ok n => Ok (Some n) | Err e => Err (BadQuantity field e) end.
Definition parseRateField : string → string → result ToolError (option Z) := parse_field ByteRate_UnmarshalText.
Definition parseSizeField : string → string → result ToolError (option Z) := parse_field ByteSize_UnmarshalText.

Definition parseBandwidthLimit (input : bandwidthLimitInput) : result ToolError BandwidthLimit :=
  rate ← parseRateField (bi_Rate input) "bandwidth_limit.rate";
  upload ← parseRateField (bi_Upload input) "bandwidth_limit.upload";
  download ← parseRateField (bi_Download input) "bandwidth_limit.download";
  Ok {| bw_rate := default 0 rate; bw_upload := default 0 upload; bw_download := default 0 download |}.
Definition parseTrafficQuota (input : trafficQuotaInput) : result ToolError TrafficQuota :=
  daily ← parseSizeField (ti_Daily input) "traffic_quota.daily";
  monthly ← parseSizeField (ti_Monthly input) "traffic_quota.monthly";
  Ok {| q_daily := default 0 daily; q_monthly := default 0 monthly; q_timezone := TrimSpace (ti_Timezone input); q_action := "block" |}.
Definition parse_optional {A B} (parse : A → result ToolError B) (input : option A) : result ToolError (option B) :=
  match input with None => Ok None | Some a => b ← parse a; Ok (Some b) end.

Definition buildUpsertRule (input : upsertForwardingRuleInput) : result ToolError Rule :=
  ruleID ← normalizeRuleID (ui_RuleID input);
  let name := TrimSpace (ui_Name input) in
  check (bool_decide (name = "")) NameRequired ≫= λ _,
  check (maxFilterLength <? String.length name)%nat NameTooLong ≫= λ _,
  protocol ← normalizeWritableProtocol (ui_Protocol input);
  let listenAddr := TrimSpace (ui_ListenAddr input) in
  let listenAddr := if bool_decide (listenAddr = "") then defaultListenAddr else listenAddr in
  check (negb (isLoopbackListenAddr listenAddr) && negb (ui_AllowNonLoopback input)) (NonLoopbackListenAddr listenAddr) ≫= λ _,
  check ((ui_ListenPort input <? 1) || (65535 <? ui_ListenPort input)) BadListenPort ≫= λ _,
  let targetAddr := TrimSpace (ui_TargetAddr input) in
  check (bool_decide (targetAddr = "")) TargetRequired ≫= λ _,
  check ((ui_TargetPort input <? 1) || (65535 <? ui_TargetPort input)) BadTargetPort ≫= λ _,
  bandwidth ← parse_optional parseBandwidthLimit (ui_Bandwidth input);
  quota ← parse_optional parseTrafficQuota (ui_TrafficQuota input);
  let rule := Standardize {|
    RuleID := ruleID; Name := name; Proto := protocol; ListenAddr := listenAddr; ListenPort := ui_ListenPort input;
    TargetAddr := targetAddr; TargetPort := ui_TargetPort input; Enabled := default true (ui_Enabled input);
    SpeedLimit := ui_SpeedLimit input; Bandwidth := bandwidth; Rule.Quota := quota; MaxConn := ui_MaxConn input;
    IdleTimeout := ui_IdleTimeout input; SourceIPMode := TrimSpace (ui_SourceIPMode input); SourceIPs := ui_SourceIPs input;
    Domains := ui_Domains input; Remark := TrimSpace (ui_Remark input); Revision := 0; CreatedTime := 0; UpdatedTime := 0 |} in
  match Validate rule with Ok _ => Ok rule | Err e => Err (InvalidUpsertRule e) end.

(** What the edit of one rule comes to. *)
Inductive Mutation := Mutated (rules : list Rule) (created : bool) (rule : Rule) | Unchanged (rule : Rule).

Fixpoint replace_rule (rule : Rule) (rules : list Rule) : option (list Rule * Rule) :=
  match rules with
  | [] => None
  | r :: rules =>
      if bool_decide (RuleID r = RuleID rule)
      then let rule := with_bookkeeping (Revision r) (CreatedTime r) (UpdatedTime rule) rule in Some (rule :: rules, rule)
      else '(rules, rule) ← replace_rule rule rules; Some (r :: rules, rule)
  end.
Definition mutate_upsert (rule : Rule) (rules : list Rule) : result ToolError Mutation :=
  match replace_rule rule rules with
  | Some (rules, rule) => Ok (Mutated rules false rule)
  | None => Ok (Mutated (rules ++ [rule]) true rule)
  end.

Fixpoint remove_rule (ruleID : string) (rules : list Rule) : option (list Rule * Rule) :=
  match rules with
  | [] => None
  | r :: rules =>
      if bool_decide (RuleID r = ruleID) then Some (rules, r)
      else '(rules, removed) ← remove_rule ruleID rules; Some (r :: rules, removed)
  end.
Definition mutate_delete (ruleID : string) (rules : list Rule) : result ToolError Mutation :=
  match remove_rule ruleID rules with
  | Some (rules, removed) => Ok (Mutated rules false removed)
  | None => Err (ForwardingRuleNotFound ruleID)
  end.

Definition mutate_enabled (ruleID : string) (enabled : bool) (rules : list Rule) : result ToolError Mutation :=
  match list_find (λ r, RuleID r = ruleID) rules with
  | None => Err (ForwardingRuleNotFound ruleID)
  | Some (i, r) =>
      if bool_decide (Enabled r = enabled) then Ok (Unchanged r)
      else Ok (Mutated (<[i := with_enabled enabled r]> rules) false (with_enabled enabled r))
  end.

Record mutateForwardingRuleOutput := {
  mo_Action : string; mo_Applied : bool; mo_DryRun : bool; mo_Revision : string; mo_Rule : option forwardingRuleView;
  mo_Diff : list configRuleDiff; mo_Precheck : option Result; mo_ApplyResult : option ApplyResult; mo_Issues : list Issue
}.
Definition mutate_output (action : string) (applied dryRun : bool) (revision : string) (rule : Rule) (diff : list configRuleDiff)
    (precheck : option Result) (apply : option ApplyResult) (issues : list Issue) : mutateForwardingRuleOutput :=
  {| mo_Action := action; mo_Applied := applied; mo_DryRun := dryRun; mo_Revision := revision;
     mo_Rule := Some (newForwardingRuleView rule); mo_Diff := diff; mo_Precheck := precheck; mo_ApplyResult := apply; mo_Issues := issues |}.

Definition mutateRule (admitted : bool) (t : ToolHandlers) (rawRuleID : string) (dryRun : bool) (action : string)
    (mutate : list Rule → result ToolError Mutation) : Tool mutateForwardingRuleOutput :=
  match th_write t with
  | None => fail WriteDisabled
  | Some write =>
    lift (normalizeRuleID rawRuleID) ≫= λ ruleID,
    acquire admitted ≫= λ _,
    backend t ConfiguredRulesError ConfigRules ≫= λ snapshot,
    lift (check (negb (cr_Writable snapshot)) NotWritable) ≫= λ _,
    lift (mutate (cr_Rules snapshot)) ≫= λ mutation,
    match mutation with
    | Unchanged rule => mret (mutate_output "unchanged" false dryRun "" rule [] None None [RuleUnchangedIssue])
    | Mutated rules created rule =>
        let action := if created then "created" else action in
        let draft := {| cq_UDPMaxSessions := cr_UDPMaxSessions snapshot; cq_Rules := rules |} in
        if dryRun then
          map_err mapWriteError (ClientPrecheck write (cr_ETag snapshot) draft) ≫= λ response,
          let check := pc_Precheck response in
          mret (mutate_output action false true (cr_Revision snapshot) rule (pc_Diff response) (Some check) None
                  (if OK check then [] else [PrecheckIssue (ErrorCount check) (WarningCount check)]))
        else
          map_err mapWriteError (ClientApply write (cr_ETag snapshot) draft) ≫= λ response,
          let applied := List.find (λ r, bool_decide (RuleID r = ruleID)) (cr_Rules (ap_Rules response)) in
          mret (mutate_output action true false (cr_Revision (ap_Rules response)) (default rule applied) [] None (Some (ap_Result response)) [])
    end
  end.

Definition upsertForwardingRule (admitted : bool) (t : ToolHandlers) (input : upsertForwardingRuleInput) : Tool mutateForwardingRuleOutput :=
  lift (buildUpsertRule input) ≫= λ rule,
  mutateRule admitted t (RuleID rule) (ui_DryRun input) "updated" (mutate_upsert rule).
Definition deleteForwardingRule (admitted : bool) (t : ToolHandlers) (rawRuleID : string) (dryRun : bool) : Tool mutateForwardingRuleOutput :=
  lift (normalizeRuleID rawRuleID) ≫= λ ruleID,
  mutateRule admitted t ruleID dryRun "deleted" (mutate_delete ruleID).
Definition setForwardingRuleEnabled (admitted : bool) (t : ToolHandlers) (rawRuleID : string) (enabled dryRun : bool)
    : Tool mutateForwardingRuleOutput :=
  lift (normalizeRuleID rawRuleID) ≫= λ ruleID,
  mutateRule admitted t ruleID dryRun (if enabled then "enabled" else "disabled") (mutate_enabled ruleID enabled).

(** ** Calls ([registerTools], [registerWriteTools]) *)

Inductive ToolCall :=
| StatusCall | ListCall (input : listForwardingRulesInput) | GetCall (ruleID : string) | StatsCall (ruleID : string) (limit : Z)
| PrecheckCall (limit : Z)
| UpsertCall (input : upsertForwardingRuleInput) | DeleteCall (ruleID : string) (dryRun : bool)
| SetEnabledCall (ruleID : string) (enabled dryRun : bool).
Inductive ToolOutput :=
| StatusOutput (o : getVMFlowStatusOutput) | ListOutput (o : listForwardingRulesOutput) | GetOutput (o : getForwardingRuleOutput)
| StatsOutput (o : getTrafficStatsOutput) | PrecheckOutput (o : runConfigPrecheckOutput) | MutateOutput (o : mutateForwardingRuleOutput).

Definition registered (t : ToolHandlers) (call : ToolCall) : bool :=
  match call with
  | UpsertCall _ | DeleteCall _ _ | SetEnabledCall _ _ _ => bool_decide (is_Some (th_write t))
  | _ => true
  end.
Definition mapped {A B} (f : A → B) (m : Tool A) : Tool B := m ≫= λ a, mret (f a).
Definition handle_tool (admitted : bool) (t : ToolHandlers) (call : ToolCall) : Tool ToolOutput :=
  match call with
  | StatusCall => mapped StatusOutput (getVMFlowStatus admitted t)
  | ListCall input => mapped ListOutput (listForwardingRules admitted t input)
  | GetCall ruleID => mapped GetOutput (getForwardingRule admitted t ruleID)
  | StatsCall ruleID limit => mapped StatsOutput (getTrafficStats admitted t ruleID limit)
  | PrecheckCall limit => mapped PrecheckOutput (runConfigPrecheck admitted t limit)
  | UpsertCall input => mapped MutateOutput (upsertForwardingRule admitted t input)
  | DeleteCall ruleID dryRun => mapped MutateOutput (deleteForwardingRule admitted t ruleID dryRun)
  | SetEnabledCall ruleID enabled dryRun => mapped MutateOutput (setForwardingRuleEnabled admitted t ruleID enabled dryRun)
  end.
Definition call_tool (admitted : bool) (t : ToolHandlers) (call : ToolCall) : Tool ToolOutput :=
  if registered t call then handle_tool admitted t call else fail UnknownTool.
End tools.
