(* ===== verification/McpSpec.v ===== *)
(** * What the MCP tools guarantee

    Reading tools only read, and read-only mode has no others; a writing tool
    changes one rule of the configuration it has read, and says so. *)

From S2P Require Import Prelude GoStrings Calendar NetIP Rule RuleSpec Quantity Config Stats Quota Manager Precheck ControlAuth Store Management.
From S2P Require Import FileIO GoText ControlClient Mcp.

(** ** Reading *)

Section tools.
Context {tz : TzDatabase} {transport : Transport}.
Implicit Types (t : ToolHandlers) (s : Server).

(** Only GET requests are sent. *)
Inductive reads : Server → Server → Prop :=
| reads_refl s : reads s s
| reads_get req r s s1 s2 : rq_Method req = "GET" → round_trip req s = (r, s1) → reads s1 s2 → reads s s2.
Definition reading {E A} (m : IO Server E A) : Prop := ∀ s, reads s (m s).2.

Lemma reads_trans s1 s2 s3 : reads s1 s2 → reads s2 s3 → reads s1 s3.
Proof. intros H12 H23. induction H12 as [|req r s s1 s2 Hm Hr _ IH]; [done|]. by eapply reads_get; [..|apply IH]. Qed.

Lemma reading_ret {E A} (a : A) : reading (mret a : IO Server E A).
Proof. intros s. apply reads_refl. Qed.
Lemma reading_fail {E A} (e : E) : reading (fail e : IO Server E A).
Proof. intros s. apply reads_refl. Qed.
Lemma reading_lift {E A} (r : result E A) : reading (lift r).
Proof. intros s. apply reads_refl. Qed.
Lemma reading_bind {E A B} (m : IO Server E A) (f : A → IO Server E B) : reading m → (∀ a, reading (f a)) → reading (m ≫= f).
Proof.
  intros Hm Hf s. cbv [mbind io_bind]. specialize (Hm s). destruct (m s) as [[a|e] s1]; [|done].
  eapply reads_trans; [exact Hm|apply Hf].
Qed.
Lemma reading_map_err {E E' A} (f : E → E') (m : IO Server E A) : reading m → reading (map_err f m).
Proof. intros Hm s. unfold map_err. specialize (Hm s). by destruct (m s). Qed.
Lemma reading_try {E E' A} (m : IO Server E A) : reading m → reading (try m : IO Server E' (result E A)).
Proof. intros Hm s. unfold try. specialize (Hm s). by destruct (m s). Qed.

Lemma reading_doJSON c path matchTag body accepted : reading (doJSON c "GET" path matchTag body accepted).
Proof.
  unfold doJSON. apply reading_bind; [|intros resp; destruct (acceptedStatus _ _); [apply reading_ret|apply reading_fail]].
  apply reading_map_err. intros s. set (req := {| rq_Method := "GET" |}). destruct (round_trip req s) as [r s1] eqn:Hr.
  by eapply (reads_get req r s s1); [|exact Hr|apply reads_refl].
Qed.
End tools.

#[export] Hint Resolve reading_ret reading_fail reading_lift reading_doJSON : reading.
#[export] Hint Resolve reading_bind reading_map_err reading_try : reading.

Section mcp.
Context {tz : TzDatabase} {transport : Transport}.
Implicit Types (t : ToolHandlers) (s : Server).

Lemma reading_ConfigRules c : reading (ConfigRules c).
Proof. unfold ConfigRules. auto with reading. Qed.
Lemma reading_ClientRules c : reading (ClientRules c).
Proof. unfold ClientRules. auto with reading. Qed.
Lemma reading_ClientStats c : reading (ClientStats c).
Proof. unfold ClientStats. auto with reading. Qed.
Lemma reading_ClientSession c : reading (ClientSession c).
Proof. unfold ClientSession. auto with reading. Qed.
Lemma reading_CurrentPrecheck c : reading (CurrentPrecheck c).
Proof. unfold CurrentPrecheck. auto with reading. Qed.
#[local] Hint Resolve reading_ConfigRules reading_ClientRules reading_ClientStats reading_ClientSession reading_CurrentPrecheck : reading.

Lemma reading_backend {A} t wrap (m : Client → IO Server ClientError A) : (∀ c, reading (m c)) → reading (backend t wrap m).
Proof. intros H. unfold backend. destruct (th_backend t); auto with reading. Qed.
Lemma reading_attempt {A} t (m : Client → IO Server ClientError A) : (∀ c, reading (m c)) → reading (attempt t m).
Proof. intros H. unfold attempt. destruct (th_backend t); auto with reading. Qed.
Lemma reading_acquire admitted : reading (acquire admitted).
Proof. destruct admitted; simpl; auto with reading. Qed.
#[local] Hint Resolve reading_backend reading_attempt reading_acquire : reading.

Lemma reading_status admitted t : reading (getVMFlowStatus admitted t).
Proof.
  unfold getVMFlowStatus. destruct (negb admitted); [auto with reading|]. apply reading_bind; [auto with reading|].
  intros [session|e]; auto 8 with reading.
Qed.
Lemma reading_list admitted t input : reading (listForwardingRules admitted t input).
Proof. unfold listForwardingRules. auto 12 with reading. Qed.
Lemma reading_get admitted t ruleID : reading (getForwardingRule admitted t ruleID).
Proof.
  unfold getForwardingRule. repeat (apply reading_bind; [auto with reading|intros ?]). destruct (List.find _ _); auto 8 with reading.
Qed.
Lemma reading_stats admitted t ruleID limit : reading (getTrafficStats admitted t ruleID limit).
Proof. unfold getTrafficStats. auto 12 with reading. Qed.
Lemma reading_precheck admitted t limit : reading (runConfigPrecheck admitted t limit).
Proof. unfold runConfigPrecheck. do 3 (apply reading_bind; [auto with reading|intros ?]). by repeat case_match; auto with reading. Qed.

Lemma reading_mapped {A B} (f : A → B) (m : IO Server ToolError A) : reading m → reading (mapped f m).
Proof. intros. unfold mapped. auto with reading. Qed.
#[local] Hint Resolve reading_status reading_list reading_get reading_stats reading_precheck reading_mapped : reading.

(** C36: Without write mode every tool call, whatever its input and whatever the
    daemon answers, sends nothing but GET requests: no write of the control API
    can be reached.  In write mode the same holds of the five reading tools. *)
Theorem mcp_read_only (client : option Client) (version : string) (writeEnabled admitted : bool) (call : ToolCall) :
  reading (call_tool admitted (NewServer client version false) call) ∧
  match call with
  | UpsertCall _ | DeleteCall _ _ | SetEnabledCall _ _ _ => True
  | _ => reading (call_tool admitted (NewServer client version writeEnabled) call)
  end.
Proof. split; destruct call; unfold call_tool; cbn; auto with reading. Qed.

(** ** Writing *)

(** The rule a writing call names. *)
Definition named_rule (call : ToolCall) : string :=
  match call with UpsertCall input => TrimSpace (ui_RuleID input) | DeleteCall ruleID _ | SetEnabledCall ruleID _ _ => TrimSpace ruleID | _ => "" end.

(** A listener that other hosts do not reach. *)
Definition this_host_only (addr : string) : Prop :=
  ∃ host, host = Trim (TrimSpace (match SplitHostPort (TrimSpace addr) with Some (h, _) => h | None => TrimSpace addr end)) "[]" ∧
    (EqualFold host "localhost" = true ∨ ∃ ip, ParseIP host = Some ip ∧ IsLoopback ip = true).

(** The rule that the input of an upsert describes: valid, new, and reachable
    from other hosts only when the input says so. *)
Record describes (input : upsertForwardingRuleInput) (rule : Rule) : Prop := {
  ds_id : RuleID rule = TrimSpace (ui_RuleID input);
  ds_name : Name rule = TrimSpace (ui_Name input);
  ds_proto : Proto rule = ToLower (TrimSpace (ui_Protocol input)) ∧ Proto rule ∈ ["tcp"; "udp"; "tcp+udp"];
  ds_listen : ListenAddr rule = if bool_decide (TrimSpace (ui_ListenAddr input) = "") then "127.0.0.1" else TrimSpace (ui_ListenAddr input);
  ds_listen_port : ListenPort rule = ui_ListenPort input;
  ds_target : TargetAddr rule = TrimSpace (ui_TargetAddr input);
  ds_target_port : TargetPort rule = ui_TargetPort input;
  ds_enabled : Enabled rule = default true (ui_Enabled input);
  ds_limits : SpeedLimit rule = ui_SpeedLimit input ∧ MaxConn rule = ui_MaxConn input ∧ IdleTimeout rule = ui_IdleTimeout input;
  ds_bandwidth : is_Some (Bandwidth rule) ↔ is_Some (ui_Bandwidth input);
  ds_quota : is_Some (Rule.Quota rule) ↔ is_Some (ui_TrafficQuota input);
  ds_sources : SourceIPs rule = TrimSpace <$> ui_SourceIPs input;
  ds_domains : Domains rule = ui_Domains input;
  ds_remark : Remark rule = TrimSpace (ui_Remark input);
  ds_new : Revision rule = 0 ∧ CreatedTime rule = 0 ∧ UpdatedTime rule = 0;
  ds_valid : Validate rule = Ok ();
  ds_local : this_host_only (ListenAddr rule) ∨ ui_AllowNonLoopback input = true;
}.

(** The rules after a writing call: an upsert replaces the first rule of its id,
    which keeps its creation time and revision, or comes last; a deletion takes
    the first rule of its id out; a switch turns the flag of that rule. *)
Definition other_ids (id : string) (rules : list Rule) : Prop := Forall (λ r, RuleID r ≠ id) rules.
Inductive asked_for (call : ToolCall) : list Rule → list Rule → Prop :=
| AskedReplace input rule pre r post : call = UpsertCall input → describes input rule →
    other_ids (named_rule call) pre → RuleID r = named_rule call →
    asked_for call (pre ++ r :: post) (pre ++ with_bookkeeping (Revision r) (CreatedTime r) 0 rule :: post)
| AskedAppend input rule rules : call = UpsertCall input → describes input rule →
    other_ids (named_rule call) rules → asked_for call rules (rules ++ [rule])
| AskedDelete raw dryRun pre r post : call = DeleteCall raw dryRun →
    other_ids (named_rule call) pre → RuleID r = named_rule call → asked_for call (pre ++ r :: post) (pre ++ post)
| AskedSwitch raw enabled dryRun pre r post : call = SetEnabledCall raw enabled dryRun →
    other_ids (named_rule call) pre → RuleID r = named_rule call → Enabled r = negb enabled →
    asked_for call (pre ++ r :: post) (pre ++ with_enabled enabled r :: post).

(** The reasons for which a call does not write. *)
Inductive not_written (admitted : bool) t (call : ToolCall) s : Prop :=
| ReadingTool : match call with UpsertCall _ | DeleteCall _ _ | SetEnabledCall _ _ _ => False | _ => True end → not_written admitted t call s
| NotInWriteMode : th_write t = None → not_written admitted t call s
| NoSlot : admitted = false → not_written admitted t call s
| BadInput input e : call = UpsertCall input → buildUpsertRule input = Err e → not_written admitted t call s
| BadId : named_rule call = "" ∨ (64 < String.length (named_rule call))%nat → not_written admitted t call s
| Unread : (∀ read cfg, th_backend t = Some read → (ConfigRules read s).1 ≠ Ok cfg) → not_written admitted t call s
| FileReadOnly read cfg s1 : th_backend t = Some read → ConfigRules read s = (Ok cfg, s1) → cr_Writable cfg = false →
    not_written admitted t call s
| NoSuchRule read cfg s1 : th_backend t = Some read → ConfigRules read s = (Ok cfg, s1) → other_ids (named_rule call) (cr_Rules cfg) →
    (∀ input, call ≠ UpsertCall input) → not_written admitted t call s
| AlreadySo read cfg s1 raw enabled dryRun pre r post : th_backend t = Some read → ConfigRules read s = (Ok cfg, s1) →
    call = SetEnabledCall raw enabled dryRun → cr_Rules cfg = pre ++ r :: post → other_ids (named_rule call) pre →
    RuleID r = named_rule call → Enabled r = enabled → not_written admitted t call s.

Lemma loopback_this_host addr : isLoopbackListenAddr addr = true → this_host_only addr.
Proof.
  unfold isLoopbackListenAddr. cbv zeta. case_bool_decide; [done|]. intros Hl. eexists. split; [done|].
  apply orb_true_iff in Hl as [Hl|Hl]; [by left|right].
  destruct (ParseIP _) as [ip|]; [|done]. by exists ip.
Qed.

Lemma normalizeRuleID_Ok raw id : normalizeRuleID raw = Ok id → id = TrimSpace raw ∧ normalizeRuleID id = Ok id.
Proof.
  unfold normalizeRuleID. cbv zeta. rewrite !guard_Ok. intros (He & Hl & [= <-]). split; [done|]. by rewrite TrimSpace_idemp, He, Hl.
Qed.
Lemma normalizeRuleID_Err raw e : normalizeRuleID raw = Err e → TrimSpace raw = "" ∨ (64 < String.length (TrimSpace raw))%nat.
Proof.
  unfold normalizeRuleID, check. cbv zeta. case_bool_decide; [by left|]. intros H'. destruct (maxRuleIDLength <? String.length (TrimSpace raw))%nat eqn:Hl; [|discriminate H'].
  right. by apply Nat.ltb_lt in Hl.
Qed.

Lemma parse_optional_Some {A B} (parse : A → result ToolError B) input o : parse_optional parse input = Ok o → is_Some o ↔ is_Some input.
Proof.
  unfold parse_optional. destruct input as [a|]; [|by intros [= <-]]. intros (b & _ & [= <-])%bind_Ok. split; by eexists.
Qed.

Lemma buildUpsertRule_sound input rule : buildUpsertRule input = Ok rule → describes input rule ∧ normalizeRuleID (RuleID rule) = Ok (RuleID rule).
Proof.
  unfold buildUpsertRule. intros H. apply bind_Ok in H as (ruleID & Hid & H). rewrite !guard_Ok in H. destruct H as (_ & _ & H).
  apply bind_Ok in H as (protocol & Hproto & H). set (addr := if bool_decide (TrimSpace (ui_ListenAddr input) = "") then _ else _) in H.
  rewrite guard_Ok in H. destruct H as [Hloop H]. rewrite !guard_Ok in H. destruct H as (_ & _ & _ & H).
  apply bind_Ok in H as (bandwidth & Hb & H). apply bind_Ok in H as (quota & Hq & H).
  set (r := Standardize _) in H. destruct (Validate r) as [[]|] eqn:Hv; [|done]. injection H as <-.
  apply normalizeRuleID_Ok in Hid as [-> Hid].
  assert (ListenAddr r = addr) as Hl.
  { unfold r, addr. cbn [Standardize ListenAddr]. case_bool_decide; [by vm_compute|apply TrimSpace_idemp]. }
  split; [|unfold r; cbn [Standardize RuleID]; by rewrite TrimSpace_idemp].
  split; try done; try (by unfold r; cbn; rewrite ?TrimSpace_idemp).
  - unfold normalizeWritableProtocol in Hproto. cbv zeta in Hproto. case_bool_decide as Hin; [|done]. injection Hproto as <-.
    unfold r. cbn [Standardize Proto]. rewrite !elem_of_cons, elem_of_nil in Hin.
    destruct Hin as [-> |[-> |[-> |[]]]]; (split; [by vm_compute|apply (bool_decide_unpack _); by vm_compute]).
  - exact (parse_optional_Some _ _ _ Hb).
  - rewrite <-(parse_optional_Some _ _ _ Hq). unfold r. cbn [Standardize Rule.Quota]. by rewrite fmap_is_Some.
  - rewrite Hl. destruct (isLoopbackListenAddr addr) eqn:Ha; [left; by apply loopback_this_host|right].
    by destruct (ui_AllowNonLoopback input).
Qed.

Lemma replace_rule_spec rule rules : match replace_rule rule rules with
  | Some (rules', rule') => ∃ pre r post, rules = pre ++ [r] ++ post ∧ rules' = pre ++ [rule'] ++ post ∧ RuleID r = RuleID rule ∧
      rule' = with_bookkeeping (Revision r) (CreatedTime r) (UpdatedTime rule) rule ∧ Forall (λ r, RuleID r ≠ RuleID rule) pre
  | None => Forall (λ r, RuleID r ≠ RuleID rule) rules
  end.
Proof.
  induction rules as [|r rules IH]; [constructor|]. cbn [replace_rule]. case_bool_decide as E.
  - by exists [], r, rules.
  - destruct (replace_rule rule rules) as [[rules' rule']|]; simpl; [|by constructor].
    destruct IH as (pre & x & post & -> & -> & Hx & Hr & Hp). exists (r :: pre), x, post. split_and!; [done..|by constructor].
Qed.

Lemma remove_rule_spec ruleID rules : match remove_rule ruleID rules with
  | Some (rules', r) => ∃ pre post, rules = pre ++ [r] ++ post ∧ rules' = pre ++ post ∧ RuleID r = ruleID ∧ Forall (λ r, RuleID r ≠ ruleID) pre
  | None => Forall (λ r, RuleID r ≠ ruleID) rules
  end.
Proof.
  induction rules as [|r rules IH]; [constructor|]. cbn [remove_rule]. case_bool_decide as E; [by exists [], rules|].
  destruct (remove_rule ruleID rules) as [[rules' x]|]; simpl; [|by constructor].
  destruct IH as (pre & post & -> & -> & Hx & Hp). exists (r :: pre), post. split_and!; [done..|by constructor].
Qed.

(** What a mutation does to the rules. *)
Definition mutates (call : ToolCall) (mutate : list Rule → result ToolError Mutation) : Prop :=
  ∀ rules, match mutate rules with
  | Ok (Mutated rules' _ _) => asked_for call rules rules'
  | Ok (Unchanged _) => ∃ raw enabled dryRun pre r post, call = SetEnabledCall raw enabled dryRun ∧ rules = pre ++ r :: post ∧
      other_ids (named_rule call) pre ∧ RuleID r = named_rule call ∧ Enabled r = enabled
  | Err _ => other_ids (named_rule call) rules ∧ ∀ input, call ≠ UpsertCall input
  end.

Lemma mutates_upsert input rule : buildUpsertRule input = Ok rule → mutates (UpsertCall input) (mutate_upsert rule).
Proof.
  intros Hb rules. destruct (buildUpsertRule_sound _ _ Hb) as [Hd _]. unfold mutate_upsert.
  pose proof (ds_id _ _ Hd) as Hid. pose proof (ds_new _ _ Hd) as (_ & _ & Hu).
  pose proof (replace_rule_spec rule rules) as H. destruct (replace_rule rule rules) as [[rs r]|].
  - destruct H as (pre & x & post & -> & -> & Hx & -> & Hp). rewrite Hu. rewrite Hid in *. by eapply AskedReplace.
  - rewrite Hid in H. by eapply AskedAppend.
Qed.

Lemma mutates_delete dryRun raw : mutates (DeleteCall raw dryRun) (mutate_delete (TrimSpace raw)).
Proof.
  intros rules. unfold mutate_delete. pose proof (remove_rule_spec (TrimSpace raw) rules) as H.
  destruct (remove_rule (TrimSpace raw) rules) as [[rs r]|]; [|by split].
  destruct H as (pre & post & -> & -> & Hr & Hp). by eapply AskedDelete.
Qed.

Lemma mutates_enabled enabled dryRun raw : mutates (SetEnabledCall raw enabled dryRun) (mutate_enabled (TrimSpace raw) enabled).
Proof.
  intros rules. unfold mutate_enabled. destruct (list_find _ rules) as [[i r]|] eqn:Hf.
  2:{ split; [|done]. apply list_find_None in Hf. exact Hf. }
  apply list_find_Some in Hf as (Hi & Hid & Hpre). pose proof (take_drop_middle rules i r Hi) as Hmid.
  assert (other_ids (named_rule (SetEnabledCall raw enabled dryRun)) (take i rules)) as Hother.
  { apply Forall_forall. intros x (j & Hj & Hx)%elem_of_take. intros E. destruct (Hpre j x); auto. }
  case_bool_decide as He; [by exists raw, enabled, dryRun, (take i rules), r, (drop (S i) rules)|].
  rewrite insert_take_drop by (by eapply lookup_lt_Some). rewrite <-Hmid at 1. eapply AskedSwitch; [done..|].
  by destruct (Enabled r), enabled.
Qed.

(** The output says that the configuration was changed. *)
Definition says_applied (r : result ToolError ToolOutput) : bool := match r with Ok (MutateOutput o) => mo_Applied o | _ => false end.
Definition is_dry_run (call : ToolCall) : bool :=
  match call with UpsertCall input => ui_DryRun input | DeleteCall _ dryRun | SetEnabledCall _ _ dryRun => dryRun | _ => false end.

Inductive tool_effect (admitted : bool) t (call : ToolCall) s : result ToolError ToolOutput → Server → Prop :=
| OnlyRead r s' : reads s s' → says_applied r = false → not_written admitted t call s → tool_effect admitted t call s r s'
| OneWrite read write snapshot s1 rules' r s' :
    th_backend t = Some read → th_write t = Some write → ConfigRules read s = (Ok snapshot, s1) → cr_Writable snapshot = true →
    asked_for call (cr_Rules snapshot) rules' →
    (let draft := {| cq_UDPMaxSessions := cr_UDPMaxSessions snapshot; cq_Rules := rules' |} in
     if is_dry_run call then says_applied r = false ∧ s' = (ClientPrecheck write (cr_ETag snapshot) draft s1).2
     else ∃ answer, ClientApply write (cr_ETag snapshot) draft s1 = (answer, s') ∧ says_applied r = is_ok answer) →
    tool_effect admitted t call s r s'.

(** The read part of a handler. *)
Lemma wp_reading {E A} (m : IO Server E A) s (Q : result E A → Server → Prop) :
  reading m → (∀ r s', m s = (r, s') → reads s s' → Q r s') → wp m Q s.
Proof. intros Hm HQ. unfold wp. specialize (Hm s). destruct (m s) as [r s'] eqn:E'. by apply HQ. Qed.

Lemma wp_mutateRule admitted t call ruleID action mutate s : mutates call mutate → normalizeRuleID ruleID = Ok ruleID →
  wp (mapped MutateOutput (mutateRule admitted t ruleID (is_dry_run call) action mutate)) (tool_effect admitted t call s) s.
Proof.
  intros Hm Hid. unfold mapped, mutateRule. apply wp_bind.
  destruct (th_write t) as [write|] eqn:Hw; [|by apply wp_fail, OnlyRead; [apply reads_refl|done|apply NotInWriteMode]].
  apply wp_bind, wp_lift. rewrite Hid.
  apply wp_bind. destruct admitted; [|by apply wp_fail, OnlyRead; [apply reads_refl|done|apply NoSlot]]. apply wp_ret. apply wp_bind.
  unfold backend. destruct (th_backend t) as [read|] eqn:Hb.
  2:{ apply wp_fail, OnlyRead; [apply reads_refl|done|]. apply Unread. intros read cfg. by rewrite Hb. }
  apply wp_map_err, wp_reading; [apply reading_ConfigRules|]. intros [snapshot|e] s1 Hc Hr.
  2:{ apply OnlyRead; [done|done|]. apply Unread. intros read' cfg. rewrite Hb. intros [= <-]. by rewrite Hc. }
  apply wp_bind, wp_lift. destruct (cr_Writable snapshot) eqn:Hwr; [|by apply OnlyRead; [done..|eapply FileReadOnly]].
  apply wp_bind, wp_lift. specialize (Hm (cr_Rules snapshot)).
  destruct (mutate (cr_Rules snapshot)) as [[rules' created rule|rule]|e] eqn:Hmut.
  2:{ apply wp_ret, wp_ret, OnlyRead; [done..|]. destruct Hm as (raw & enabled & dryRun & pre & r & post & ? & ? & ? & ? & ?).
      by eapply AlreadySo. }
  2:{ apply OnlyRead; [done..|]. destruct Hm. by eapply NoSuchRule. }
  assert (∀ r s', (if is_dry_run call then says_applied r = false ∧ s' = (ClientPrecheck write (cr_ETag snapshot) {| cq_UDPMaxSessions := cr_UDPMaxSessions snapshot; cq_Rules := rules' |} s1).2
     else ∃ answer, ClientApply write (cr_ETag snapshot) {| cq_UDPMaxSessions := cr_UDPMaxSessions snapshot; cq_Rules := rules' |} s1 = (answer, s') ∧ says_applied r = is_ok answer) →
     tool_effect true t call s r s') as Hwrite by (intros; by eapply OneWrite).
  destruct (is_dry_run call) eqn:Hdry.
  - apply wp_bind, wp_map_err. unfold wp. destruct (ClientPrecheck _ _ _ s1) as [[response|e] s2]; apply Hwrite; by split.
  - apply wp_bind, wp_map_err. unfold wp. destruct (ClientApply _ _ _ s1) as [[response|e] s2]; apply Hwrite; by eexists.
Qed.

Lemma wp_read_tool admitted t call (m : IO Server ToolError ToolOutput) s : reading m → (∀ r s', m s = (r, s') → says_applied r = false) →
  not_written admitted t call s → wp m (tool_effect admitted t call s) s.
Proof. intros Hm Hs Hn. apply wp_reading; [done|]. intros r s' E Hr. apply OnlyRead; [done|by eapply Hs|done]. Qed.
Lemma mapped_says {A} (f : A → ToolOutput) (m : IO Server ToolError A) s r s' :
  (∀ a, says_applied (Ok (f a)) = false) → mapped f m s = (r, s') → says_applied r = false.
Proof. intros Hf. unfold mapped. cbv [mbind io_bind]. destruct (m s) as [[a|e] s1]; intros [= <- _]; [apply Hf|done]. Qed.

End mcp.

(** ** A daemon with a disabled public rule *)

Definition public_rule : Rule := {|
  RuleID := "web"; Name := "web"; Proto := "tcp"; ListenAddr := "0.0.0.0"; ListenPort := 8080; TargetAddr := "10.0.0.1";
  TargetPort := 80; Enabled := false; SpeedLimit := 0; Bandwidth := None; Rule.Quota := None; MaxConn := 0; IdleTimeout := 0;
  SourceIPMode := ""; SourceIPs := []; Domains := []; Remark := ""; Revision := 1; CreatedTime := 5; UpdatedTime := 5 |}.
Definition answering : Transport := {|
  Server := list HttpRequest;
  round_trip req log :=
    (Ok {| hr_Status := 200; hr_ETag := "";
           hr_Payload := ConfigPayload (RulesBody "r1" true 100
             (match rq_Body req with RulesRequest _ rules => rules | _ => [public_rule] end) None) |}, log ++ [req]) |}.
Definition mcp_writer : ToolHandlers := NewServer (Some (NewClient "http://127.0.0.1:8080" "admin")) "v1" true.

(** (finding) The instructions say that listeners on other than loopback addresses
    require allow_non_loopback; enabling such a rule does not ask for it. *)
Example enabling_needs_no_permission :
  let '(r, log) := call_tool (tz := utc_database) (transport := answering) true mcp_writer (SetEnabledCall "web" true false) [] in
  says_applied r = true ∧ (rq_Body <$> list.last log) = Some (RulesRequest 100 [with_enabled true public_rule]) ∧
  isLoopbackListenAddr (ListenAddr public_rule) = false.
Proof. vm_compute. split_and!; reflexivity. Qed.
