(* ===== verification/TuiEditor.v ===== *)
(** * The editors of the terminal interface (tui/editor.go, tui/bot_editor.go)

    The form that edits one rule and the form that edits the bot's settings.  A
    field's text lives in an input of the bubbles library, which is the class
    [TextInput].  A key is the text [msg.String()] gives.  Messages are keys of the
    translation catalogue; labels, placeholders and widths are left out. *)

From S2P Require Import Prelude GoStrings Calendar NetIP SourceIP Rule Quantity Config GoText Management FileIO ControlClient.

(** ** Inputs ([textinput.Model]) *)

Class TextInput := {
  Input : Type;
  NewInput : Input;
  Value : Input → string;
  CharLimit : Input → Z;
  SetValue : string → Input → Input;
  SetCharLimit : Z → Input → Input;
  Focus : Input → Input;
  Blur : Input → Input;
  CursorEnd : Input → Input;
  InputUpdate : string → Input → Input
}.

(** Printable ASCII: [SetValue] replaces or drops control characters. *)
Definition plain_char (c : ascii) : bool := in_range 32 126 c.
Definition plain (s : string) : Prop := forallb plain_char (to_list s) = true.
#[export] Instance plain_dec s : Decision (plain s).
Proof. unfold plain. apply _. Defined.

(** What the editors rely on: a new input has no limit, [SetValue] keeps what fits
    the limit, and only it and [Update] change the text. *)
Class InputLaws {inputs : TextInput} : Prop := {
  CharLimit_NewInput : CharLimit NewInput = 0;
  CharLimit_SetCharLimit n i : CharLimit (SetCharLimit n i) = n;
  CharLimit_SetValue s i : CharLimit (SetValue s i) = CharLimit i;
  CharLimit_Focus i : CharLimit (Focus i) = CharLimit i;
  CharLimit_Blur i : CharLimit (Blur i) = CharLimit i;
  CharLimit_InputUpdate key i : CharLimit (InputUpdate key i) = CharLimit i;
  Value_SetValue s i : plain s → CharLimit i ≤ 0 ∨ Z.of_nat (String.length s) ≤ CharLimit i → Value (SetValue s i) = s;
  Value_SetCharLimit n i : Value (SetCharLimit n i) = Value i;
  Value_Focus i : Value (Focus i) = Value i;
  Value_Blur i : Value (Blur i) = Value i;
  Value_CursorEnd i : Value (CursorEnd i) = Value i
}.
#[global] Hint Mode InputLaws ! : typeclass_instances.

(** ** Rule ids *)

Definition slug_char (c : ascii) : bool := in_range 97 122 c || in_range 48 57 c.
Fixpoint slug_chars (l : list ascii) (separator : bool) (b : list ascii) : list ascii :=
  match l with
  | [] => b
  | c :: l =>
      let '(b, separator) :=
        if slug_char c
        then (b ++ (if separator && negb (bool_decide (b = [])) then ["-"%char] else []) ++ [c], false)
        else (b, true) in
      if (48 <=? length b)%nat then b else slug_chars l separator b
  end.
Definition ruleIDSlug (value : string) : string :=
  Trim (of_list (slug_chars (to_list (ToLower (TrimSpace value))) false [])) "-".

(** [fmt.Sprintf("%s-%d", base, suffix)]. *)
Definition numbered (base : string) (suffix : Z) : string := base +:+ "-" +:+ FormatInt suffix.
(** The loop over the suffixes; there are at most as many taken ids as steps. *)
Fixpoint first_free (fuel : nat) (existing : gset string) (base : string) (suffix : Z) : string :=
  let candidate := numbered base suffix in
  match fuel with
  | O => candidate
  | S fuel => if bool_decide (candidate ∈ existing) then first_free fuel existing base (suffix + 1) else candidate
  end.
Definition free_id (base : string) (existing : gset string) : string :=
  if bool_decide (base ∈ existing) then first_free (size existing) existing base 2 else base.

Definition availableRuleID (base : string) (existing : gset string) : string :=
  let base := Trim (TrimSpace base) "-" in
  free_id (if bool_decide (base = "") then "new-rule" else base) existing.
Definition rule_ids (rules : list Rule) : gset string := list_to_set (RuleID <$> rules).
Definition newRuleID (rules : list Rule) : string := availableRuleID "new-rule" (rule_ids rules).

Definition copyRule (source : Rule) (rules : list Rule) : Rule :=
  let base := TrimSpace (RuleID source) +:+ "-copy" in
  let base := if bool_decide (base = "-copy") then "rule-copy" else base in
  let id := free_id base (rule_ids rules) in {|
    RuleID := id;
    Name := if bool_decide (Name source = "") then id else Name source +:+ " copy";
    Proto := Proto source; ListenAddr := ListenAddr source; ListenPort := ListenPort source;
    TargetAddr := TargetAddr source; TargetPort := TargetPort source; Enabled := Enabled source;
    SpeedLimit := SpeedLimit source; Bandwidth := Bandwidth source; Quota := Quota source;
    MaxConn := MaxConn source; IdleTimeout := IdleTimeout source; SourceIPMode := SourceIPMode source;
    SourceIPs := SourceIPs source; Domains := Domains source; Remark := Remark source;
    Revision := 0; CreatedTime := 0; UpdatedTime := 0 |}.

(** ** Texts of fields *)

Definition formatEditorInt (value : Z) : string := if value =? 0 then "" else FormatInt value.
Definition formatEditorByteRate (value : Z) : string := if value <=? 0 then "" else ByteRate_String value.
Definition formatEditorByteSize (value : Z) : string := if value <=? 0 then "" else ByteSize_String value.
Definition FormatBool (b : bool) : string := if b then "true" else "false".
Definition engineProtocol (value : string) : Protocol := ToLower (TrimSpace value).

Definition editorProtocols : list string := ["tcp"; "udp"; "tcp+udp"].
Definition editorSourceIPModes : list string := ["off"; "allowlist"; "denylist"].
Definition validEditorProtocol (protocol : string) : bool := bool_decide (protocol ∈ editorProtocols).
Definition validEditorSourceIPMode (mode : string) : bool := bool_decide (ToLower (TrimSpace mode) ∈ editorSourceIPModes).

(** [strings.FieldsFunc] at the characters that separate addresses. *)
Definition ip_separator (c : ascii) : bool :=
  let n := code c in (n =? 44)%nat || (n =? 59)%nat || (n =? 10)%nat || (n =? 13)%nat.
Fixpoint fields_func (separator : ascii → bool) (l : list ascii) (field : list ascii) : list (list ascii) :=
  let flush := if bool_decide (field = []) then [] else [field] in
  match l with
  | [] => flush
  | c :: l => if separator c then flush ++ fields_func separator l [] else fields_func separator l (field ++ [c])
  end.
Definition parseSourceIPs (value : string) : list string :=
  filter (λ part, part ≠ "") (TrimSpace ∘ of_list <$> fields_func ip_separator (to_list value) []).
(** [strings.Join(values, ", ")]. *)
Fixpoint join_comma (values : list string) : string :=
  match values with [] => "" | [v] => v | v :: values => v +:+ ", " +:+ join_comma values end.

(** ** The rule form *)

Inductive editorKind := editorCreate | editorEdit | editorCopy.
Inductive editorFieldKind := editorText | editorProtocol | editorSourceIPMode | editorToggle | editorReadOnly.
#[export] Instance editorKind_eq_dec : EqDecision editorKind.
Proof. solve_decision. Defined.
#[export] Instance editorFieldKind_eq_dec : EqDecision editorFieldKind.
Proof. solve_decision. Defined.

Definition fieldRuleID : string := "rule_id".
Definition fieldName : string := "name".
Definition fieldProtocol : string := "protocol".
Definition fieldListenAddr : string := "listen_addr".
Definition fieldListenPort : string := "listen_port".
Definition fieldTargetAddr : string := "target_addr".
Definition fieldTargetPort : string := "target_port".
Definition fieldEnabled : string := "enabled".
Definition fieldSpeedLimit : string := "speed_limit".
Definition fieldBandwidthRate : string := "bandwidth_rate".
Definition fieldBandwidthUpload : string := "bandwidth_upload".
Definition fieldBandwidthDownload : string := "bandwidth_download".
Definition fieldQuotaDaily : string := "quota_daily".
Definition fieldQuotaMonthly : string := "quota_monthly".
Definition fieldQuotaTimezone : string := "quota_timezone".
Definition fieldMaxConn : string := "max_conn".
Definition fieldIdleTimeout : string := "idle_timeout".
Definition fieldSourceIPMode : string := "source_ip_mode".
Definition fieldSourceIPs : string := "source_ips".
Definition fieldRemark : string := "remark".

(** A field's error: a message of the catalogue, or the text of a [RuleError]. *)
Inductive EditorError := Message (key : string) | FormError (e : RuleError).
Notation Errors := (gmap string EditorError).

Definition hasAdvancedRuleSettings (rule : Rule) : bool :=
  negb (SpeedLimit rule =? 0) || negb (MaxConn rule =? 0) || negb (IdleTimeout rule =? 0)
  || negb (bool_decide (SourceIPMode rule = "")) || negb (bool_decide (SourceIPs rule = []))
  || negb (bool_decide (TrimSpace (Remark rule) = ""))
  || match Bandwidth rule with Some b => (0 <? bw_upload b) || (0 <? bw_download b) | None => false end.

(** Fields shown without the advanced part. *)
Definition basicFields : list string :=
  [fieldRuleID; fieldName; fieldProtocol; fieldListenAddr; fieldListenPort; fieldTargetAddr; fieldTargetPort; fieldEnabled;
   fieldBandwidthRate; fieldQuotaDaily; fieldQuotaMonthly].

Section editor.
Context {inputs : TextInput}.

Record editorField := { ef_key : string; ef_kind : editorFieldKind; ef_input : Input; ef_choice : string; ef_enabled : bool }.
Definition newTextField (key value : string) (kind : editorFieldKind) (limit : Z) : editorField :=
  {| ef_key := key; ef_kind := kind; ef_input := SetCharLimit limit (SetValue value NewInput); ef_choice := ""; ef_enabled := false |}.
Definition choice_field (key : string) (kind : editorFieldKind) (choice : string) : editorField :=
  {| ef_key := key; ef_kind := kind; ef_input := NewInput; ef_choice := choice; ef_enabled := false |}.
Definition toggle_field (key : string) (enabled : bool) : editorField :=
  {| ef_key := key; ef_kind := editorToggle; ef_input := NewInput; ef_choice := ""; ef_enabled := enabled |}.
Definition set_input (f : Input → Input) (field : editorField) : editorField :=
  {| ef_key := ef_key field; ef_kind := ef_kind field; ef_input := f (ef_input field); ef_choice := ef_choice field; ef_enabled := ef_enabled field |}.
Definition set_choice (choice : string) (field : editorField) : editorField :=
  {| ef_key := ef_key field; ef_kind := ef_kind field; ef_input := ef_input field; ef_choice := choice; ef_enabled := ef_enabled field |}.
Definition flip_enabled (field : editorField) : editorField :=
  {| ef_key := ef_key field; ef_kind := ef_kind field; ef_input := ef_input field; ef_choice := ef_choice field; ef_enabled := negb (ef_enabled field) |}.

Record ruleEditor := {
  re_locale : string; re_kind : editorKind; re_originalID : string; re_base : Rule; re_fields : list editorField; re_focus : nat;
  re_advanced : bool; re_errors : Errors; re_existing : gset string; re_initial : gmap string string; re_autoRuleID : string
}.
Definition set_form (fields : list editorField) (focus : nat) (errors : Errors) (autoRuleID : string) (e : ruleEditor) : ruleEditor :=
  {| re_locale := re_locale e; re_kind := re_kind e; re_originalID := re_originalID e; re_base := re_base e; re_fields := fields;
     re_focus := focus; re_advanced := re_advanced e; re_errors := errors; re_existing := re_existing e; re_initial := re_initial e;
     re_autoRuleID := autoRuleID |}.
Definition set_fields (fields : list editorField) (e : ruleEditor) : ruleEditor := set_form fields (re_focus e) (re_errors e) (re_autoRuleID e) e.
Definition set_focus (focus : nat) (e : ruleEditor) : ruleEditor := set_form (re_fields e) focus (re_errors e) (re_autoRuleID e) e.
Definition set_errors (errors : Errors) (e : ruleEditor) : ruleEditor := set_form (re_fields e) (re_focus e) errors (re_autoRuleID e) e.
Definition set_autoRuleID (id : string) (e : ruleEditor) : ruleEditor := set_form (re_fields e) (re_focus e) (re_errors e) id e.
Definition set_advanced (advanced : bool) (e : ruleEditor) : ruleEditor :=
  {| re_locale := re_locale e; re_kind := re_kind e; re_originalID := re_originalID e; re_base := re_base e; re_fields := re_fields e;
     re_focus := re_focus e; re_advanced := advanced; re_errors := re_errors e; re_existing := re_existing e; re_initial := re_initial e;
     re_autoRuleID := re_autoRuleID e |}.

(** *** Fields and focus *)

Definition field_value (field : editorField) : string :=
  match ef_kind field with
  | editorProtocol | editorSourceIPMode => ef_choice field
  | editorToggle => FormatBool (ef_enabled field)
  | editorText | editorReadOnly => Value (ef_input field)
  end.
Definition value_of (fields : list editorField) (key : string) : string :=
  match list_find (λ f, ef_key f = key) fields with Some (_, f) => field_value f | None => "" end.
Definition value (e : ruleEditor) (key : string) : string := value_of (re_fields e) key.
Definition fieldIndex (key : string) (e : ruleEditor) : option nat := fst <$> list_find (λ f, ef_key f = key) (re_fields e).

Definition fieldVisible (e : ruleEditor) (index : nat) : bool :=
  match re_fields e !! index with
  | Some field => re_advanced e || bool_decide (ef_key field ∈ basicFields)
  | None => false
  end.
Definition focusable (e : ruleEditor) (index : nat) : bool :=
  match re_fields e !! index with
  | Some field => fieldVisible e index && negb (bool_decide (ef_kind field = editorReadOnly))
  | None => false
  end.
Definition firstFocusable (e : ruleEditor) : nat :=
  match list_find (λ index, focusable e index = true) (seq 0 (length (re_fields e))) with Some (_, index) => index | None => 0%nat end.

Definition syncFocus (e : ruleEditor) : ruleEditor :=
  set_fields (imap (λ index field,
    let field := set_input Blur field in
    if (index =? re_focus e)%nat && bool_decide (ef_kind field = editorText) then set_input Focus field else field) (re_fields e)) e.

Fixpoint move_focus (attempts : nat) (delta : Z) (e : ruleEditor) : ruleEditor :=
  match attempts with
  | O => e
  | S attempts =>
      let n := Z.of_nat (length (re_fields e)) in
      let e := set_focus (Z.to_nat (Z.rem (Z.of_nat (re_focus e) + delta + n) n)) e in
      if focusable e (re_focus e) then e else move_focus attempts delta e
  end.
Definition moveFocus (delta : Z) (e : ruleEditor) : ruleEditor :=
  if bool_decide (re_fields e = []) then e else syncFocus (move_focus (length (re_fields e)) delta e).

Definition toggleAdvanced (e : ruleEditor) : ruleEditor :=
  let e := set_advanced (negb (re_advanced e)) e in
  syncFocus (if fieldVisible e (re_focus e) then e else set_focus (firstFocusable e) e).

Definition focusField (key : string) (e : ruleEditor) : ruleEditor :=
  match list_find (λ f, ef_key f = key) (re_fields e) with
  | None => e
  | Some (index, field) =>
      let e := if fieldVisible e index then e else set_advanced true e in
      if bool_decide (ef_kind field = editorReadOnly) then e else syncFocus (set_focus index e)
  end.

(** *** The form for a rule *)

Definition rule_fields (kind : editorKind) (rule : Rule) (locale : string) : list editorField :=
  let protocol := ToLower (TrimSpace (Proto rule)) in
  let protocol := if validEditorProtocol protocol then protocol else "tcp" in
  let mode := ToLower (TrimSpace (SourceIPMode rule)) in
  let mode := if validEditorSourceIPMode mode then mode else SourceIPModeOff in
  let limit (part : BandwidthLimit → Z) := match Bandwidth rule with Some b => formatEditorByteRate (part b) | None => "" end in
  let quota (part : TrafficQuota → Z) := match Quota rule with Some q => formatEditorByteSize (part q) | None => "" end in
  let timezone := if bool_decide (locale = SimplifiedChinese) then "Asia/Shanghai" else "UTC" in
  let timezone := match Quota rule with
    | Some q => if bool_decide (TrimSpace (q_timezone q) = "") then timezone else q_timezone q
    | None => timezone end in [
  newTextField fieldRuleID (RuleID rule) (if bool_decide (kind = editorEdit) then editorReadOnly else editorText) 64;
  newTextField fieldName (Name rule) editorText 80;
  choice_field fieldProtocol editorProtocol protocol;
  newTextField fieldListenAddr (ListenAddr rule) editorText 255;
  newTextField fieldListenPort (formatEditorInt (ListenPort rule)) editorText 5;
  newTextField fieldTargetAddr (TargetAddr rule) editorText 255;
  newTextField fieldTargetPort (formatEditorInt (TargetPort rule)) editorText 5;
  toggle_field fieldEnabled (Enabled rule);
  newTextField fieldBandwidthRate (limit bw_rate) editorText 32;
  newTextField fieldQuotaDaily (quota q_daily) editorText 32;
  newTextField fieldQuotaMonthly (quota q_monthly) editorText 32;
  newTextField fieldBandwidthUpload (limit bw_upload) editorText 32;
  newTextField fieldBandwidthDownload (limit bw_download) editorText 32;
  newTextField fieldQuotaTimezone timezone editorText 64;
  newTextField fieldSpeedLimit (FormatInt (SpeedLimit rule)) editorText 18;
  newTextField fieldMaxConn (FormatInt (MaxConn rule)) editorText 10;
  newTextField fieldIdleTimeout (FormatInt (IdleTimeout rule)) editorText 10;
  choice_field fieldSourceIPMode editorSourceIPMode mode;
  newTextField fieldSourceIPs (join_comma (SourceIPs rule)) editorText 16384;
  newTextField fieldRemark (Remark rule) editorText 240].

Definition newRuleEditor (kind : editorKind) (rule : Rule) (rules : list Rule) (locale : string) : ruleEditor :=
  let fields := rule_fields kind rule locale in
  let e := {|
    re_locale := locale; re_kind := kind; re_originalID := RuleID rule; re_base := rule; re_fields := fields; re_focus := 0;
    re_advanced := negb (bool_decide (kind = editorCreate)) && hasAdvancedRuleSettings rule;
    re_errors := ∅; re_existing := rule_ids rules;
    re_initial := list_to_map ((λ f, (ef_key f, value_of fields (ef_key f))) <$> fields);
    re_autoRuleID := if bool_decide (kind = editorCreate) then TrimSpace (RuleID rule) else "" |} in
  let e := set_focus (firstFocusable e) e in
  syncFocus (if bool_decide (kind = editorCreate) && negb (bool_decide (re_autoRuleID e = ""))
             then set_focus (default 0%nat (fieldIndex fieldName e)) e else e).

Definition editor_dirty (e : ruleEditor) : bool :=
  existsb (λ f, negb (bool_decide (value e (ef_key f) = default "" (re_initial e !! ef_key f)))) (re_fields e).

(** *** Keys *)

Definition index_of (choices : list string) (choice : string) : Z :=
  match list_find (λ c, c = choice) choices with Some (i, _) => Z.of_nat i | None => 0 end.
(** The next choice in the cycle. *)
Definition cycle (choices : list string) (delta : Z) (choice : string) : string :=
  let n := Z.of_nat (length choices) in
  default "" (choices !! Z.to_nat (Z.rem (index_of choices choice + delta + n) n)).
Definition cycleProtocol (delta : Z) (e : ruleEditor) : ruleEditor :=
  set_errors (delete fieldProtocol (re_errors e))
    (set_fields (alter (λ f, set_choice (cycle editorProtocols delta (ef_choice f)) f) (re_focus e) (re_fields e)) e).
Definition cycleSourceIPMode (delta : Z) (e : ruleEditor) : ruleEditor :=
  set_errors (delete "form" (delete fieldSourceIPs (delete fieldSourceIPMode (re_errors e))))
    (set_fields (alter (λ f, set_choice (cycle editorSourceIPModes delta (ef_choice f)) f) (re_focus e) (re_fields e)) e).

(** The id follows the name until it is edited by hand. *)
Definition updateAutomaticRuleID (name : string) (e : ruleEditor) : ruleEditor :=
  if negb (bool_decide (re_kind e = editorCreate)) then e else
  match list_find (λ f, ef_key f = fieldRuleID) (re_fields e) with
  | None => e
  | Some (index, field) =>
      let current := TrimSpace (Value (ef_input field)) in
      if negb (bool_decide (current = "")) && negb (bool_decide (current = re_autoRuleID e)) then e else
      let base := ruleIDSlug name in
      if bool_decide (base = "") then e else
      let next := availableRuleID base (re_existing e) in
      set_form (alter (set_input (SetValue next)) index (re_fields e)) (re_focus e) (delete fieldRuleID (re_errors e)) next e
  end.

Definition key_in (key : string) (keys : list string) : bool := bool_decide (key ∈ keys).

Definition type_key (key : string) (field : editorField) (e : ruleEditor) : ruleEditor :=
  if negb (bool_decide (ef_kind field = editorText)) then e else
  let field' := set_input (InputUpdate key) field in
  let e := set_errors (delete (ef_key field) (re_errors e)) (set_fields (<[re_focus e := field']> (re_fields e)) e) in
  if bool_decide (ef_key field = fieldName) && negb (bool_decide (Value (ef_input field) = Value (ef_input field')))
  then updateAutomaticRuleID (Value (ef_input field')) e else e.

Definition editor_update (key : string) (e : ruleEditor) : ruleEditor :=
  match re_fields e !! re_focus e with
  | None => e                                            (* the focus is always a field *)
  | Some field =>
      let kind := ef_kind field in
      if key_in key ["tab"; "down"; "enter"] then moveFocus 1 e
      else if key_in key ["shift+tab"; "up"] then moveFocus (-1) e
      else if bool_decide (key = "left") && bool_decide (kind = editorProtocol) then cycleProtocol (-1) e
      else if bool_decide (key = "left") && bool_decide (kind = editorSourceIPMode) then cycleSourceIPMode (-1) e
      else if bool_decide (key = "right") && bool_decide (kind = editorProtocol) then cycleProtocol 1 e
      else if bool_decide (key = "right") && bool_decide (kind = editorSourceIPMode) then cycleSourceIPMode 1 e
      else if bool_decide (key = " ") && bool_decide (kind = editorToggle)
      then set_fields (alter flip_enabled (re_focus e) (re_fields e)) e
      else type_key key field e
  end.

(** *** Reading the form *)

Definition parseInt (e : ruleEditor) (key : string) (minValue maxValue : Z) (errors : Errors) : Z * Errors :=
  match ParseInt (TrimSpace (value e key)) with
  | None => (0, <[key := Message "tui.validation.integer"]> errors)
  | Some parsed =>
      (parsed, if (parsed <? minValue) || (maxValue <? parsed) then <[key := Message "tui.validation.range"]> errors else errors)
  end.
Definition parseInt64 (e : ruleEditor) (key : string) (minValue : Z) (errors : Errors) : Z * Errors :=
  match ParseInt (TrimSpace (value e key)) with
  | None => (0, <[key := Message "tui.validation.integer"]> errors)
  | Some parsed => (parsed, if parsed <? minValue then <[key := Message "tui.validation.minimum"]> errors else errors)
  end.
Definition parse_bytes (unmarshal : string → result QuantityError Z) (message : string) (e : ruleEditor) (key : string) (errors : Errors)
    : Z * Errors :=
  let text := TrimSpace (value e key) in
  if bool_decide (text = "") then (0, errors) else
  match unmarshal text with
  | Ok parsed => (parsed, errors)
  | Err _ => (0, <[key := Message message]> errors)
  end.
Definition parseByteRate : ruleEditor → string → Errors → Z * Errors := parse_bytes ByteRate_UnmarshalText "tui.validation.bandwidth".
Definition parseByteSize : ruleEditor → string → Errors → Z * Errors := parse_bytes ByteSize_UnmarshalText "tui.validation.traffic_quota".

Definition parse_bandwidth (e : ruleEditor) (errors : Errors) : option BandwidthLimit * Errors :=
  let '(rate, errors) := parseByteRate e fieldBandwidthRate errors in
  let '(upload, errors) := parseByteRate e fieldBandwidthUpload errors in
  let '(download, errors) := parseByteRate e fieldBandwidthDownload errors in
  (if (0 <? rate) || (0 <? upload) || (0 <? download)
   then Some {| bw_rate := rate; bw_upload := upload; bw_download := download |} else None,
   if (0 <? rate) && ((0 <? upload) || (0 <? download)) then
     let message := Message "tui.validation.bandwidth_mode" in
     let errors := <[fieldBandwidthRate := message]> errors in
     let errors := if 0 <? upload then <[fieldBandwidthUpload := message]> errors else errors in
     if 0 <? download then <[fieldBandwidthDownload := message]> errors else errors
   else errors).

Section rule.
Context `{!TzDatabase}.

Definition parse_quota (e : ruleEditor) (errors : Errors) : option TrafficQuota * Errors :=
  let '(daily, errors) := parseByteSize e fieldQuotaDaily errors in
  let '(monthly, errors) := parseByteSize e fieldQuotaMonthly errors in
  if (0 <? daily) || (0 <? monthly) then
    let timezone := TrimSpace (value e fieldQuotaTimezone) in
    let timezone := if bool_decide (timezone = "") then "UTC" else timezone in
    (Some {| q_daily := daily; q_monthly := monthly; q_timezone := timezone; q_action := "block" |},
     if bool_decide (LoadLocation timezone = None) then <[fieldQuotaTimezone := Message "tui.validation.quota_timezone"]> errors else errors)
  else (None, errors).

(** The first address that does not parse. *)
Definition bad_source_ip (values : list string) : bool :=
  existsb (λ value, negb (is_ok (ParseSourceIPPrefix value))) values.
Definition check_sources (e : ruleEditor) (rule : Rule) (errors : Errors) : Errors :=
  if negb (validEditorSourceIPMode (value e fieldSourceIPMode)) then <[fieldSourceIPMode := Message "tui.validation.source_ip_mode"]> errors
  else if bool_decide (SourceIPMode rule = "") then errors
  else if bool_decide (SourceIPs rule = []) then <[fieldSourceIPs := Message "tui.validation.source_ip_required"]> errors
  else if (MaxSourceIPsPerRule <? length (SourceIPs rule))%nat then <[fieldSourceIPs := Message "tui.validation.maximum_entries"]> errors
  else if bad_source_ip (SourceIPs rule) then <[fieldSourceIPs := Message "tui.validation.source_ip_invalid"]> errors
  else errors.

Definition required (key text : string) (errors : Errors) : Errors :=
  if bool_decide (text = "") then <[key := Message "tui.validation.required"]> errors else errors.
Definition check_rule_id (e : ruleEditor) (id : string) (errors : Errors) : Errors :=
  if bool_decide (id = "") then <[fieldRuleID := Message "tui.validation.required"]> errors
  else if bool_decide (id ∈ re_existing e) && negb (bool_decide (id = re_originalID e))
  then <[fieldRuleID := Message "tui.validation.already_exists"]> errors else errors.

Definition form_error (locale : string) (e : RuleError) : EditorError :=
  if bool_decide (locale = English) then FormError e
  else match e with ProtocolDisabled _ => Message "tui.validation.protocol_disabled" | _ => Message "tui.validation.rule_invalid" end.
Definition check_form (e : ruleEditor) (rule : Rule) (errors : Errors) : Errors :=
  if bool_decide (errors = ∅) then
    match Validate rule with Ok _ => errors | Err err => <["form" := form_error (re_locale e) err]> errors end
  else errors.

(** The rule of the form before [Standardize], and what is wrong with it. *)
Definition read_form (e : ruleEditor) : Rule * Errors :=
  let text key := TrimSpace (value e key) in
  let '(listenPort, errors) := parseInt e fieldListenPort 1 65535 ∅ in
  let '(targetPort, errors) := parseInt e fieldTargetPort 1 65535 errors in
  let '(bandwidth, errors) := parse_bandwidth e errors in
  let '(quota, errors) := parse_quota e errors in
  let '(speedLimit, errors) := parseInt64 e fieldSpeedLimit 0 errors in
  let '(maxConn, errors) := parseInt e fieldMaxConn 0 int64_max errors in
  let '(idleTimeout, errors) := parseInt e fieldIdleTimeout 0 int64_max errors in
  let mode := ToLower (text fieldSourceIPMode) in
  let off := bool_decide (mode = SourceIPModeOff) in
  let base := re_base e in
  let rule := {|
    RuleID := text fieldRuleID; Name := text fieldName; Proto := engineProtocol (value e fieldProtocol);
    ListenAddr := text fieldListenAddr; ListenPort := listenPort; TargetAddr := text fieldTargetAddr; TargetPort := targetPort;
    Enabled := bool_decide (value e fieldEnabled = "true"); SpeedLimit := speedLimit; Bandwidth := bandwidth; Quota := quota;
    MaxConn := maxConn; IdleTimeout := idleTimeout;
    SourceIPMode := if off then "" else mode; SourceIPs := if off then [] else parseSourceIPs (value e fieldSourceIPs);
    Domains := Domains base; Remark := text fieldRemark; Revision := Revision base; CreatedTime := CreatedTime base;
    UpdatedTime := UpdatedTime base |} in
  let errors := check_rule_id e (RuleID rule) errors in
  let errors := required fieldName (Name rule) errors in
  let errors := if validEditorProtocol (Proto rule) then errors else <[fieldProtocol := Message "tui.validation.protocol"]> errors in
  let errors := check_sources e rule errors in
  let errors := required fieldTargetAddr (TargetAddr rule) errors in
  (rule, check_form e rule errors).

(** [rule()]: the rule, whether it is accepted, and the editor with its errors. *)
Definition editor_rule (e : ruleEditor) : Rule * bool * ruleEditor :=
  let '(rule, errors) := read_form e in
  (Standardize rule, bool_decide (errors = ∅), set_errors errors e).

Definition setTranslator (locale : string) (e : ruleEditor) : ruleEditor :=
  let e' := {| re_locale := locale; re_kind := re_kind e; re_originalID := re_originalID e; re_base := re_base e; re_fields := re_fields e;
     re_focus := re_focus e; re_advanced := re_advanced e; re_errors := re_errors e; re_existing := re_existing e; re_initial := re_initial e;
     re_autoRuleID := re_autoRuleID e |} in
  if bool_decide (re_errors e = ∅) then e' else (editor_rule e').2.
End rule.

(** ** The form for the bot's settings *)

Record botConfigEditor := {
  be_token : Input; be_chat : Input; be_control : Input; be_focus : nat; be_etag : string; be_base : BotConfigResponse;
  be_chatError : string; be_formError : string
}.
Definition newBotConfigEditor (cfg : BotConfigResponse) : botConfigEditor :=
  let settings := bc_Settings cfg in
  let input limit text := SetCharLimit limit (SetValue text NewInput) in
  {| be_token := Focus (input 256 (bs_Token settings)); be_chat := input 20 (FormatInt (bs_ChatID settings));
     be_control := input 256 (bs_ControlToken settings); be_focus := 0; be_etag := bc_ETag cfg; be_base := cfg;
     be_chatError := ""; be_formError := "" |}.

Definition set_bot_form (token chat control : Input) (focus : nat) (chatError formError : string) (e : botConfigEditor) : botConfigEditor :=
  {| be_token := token; be_chat := chat; be_control := control; be_focus := focus; be_etag := be_etag e; be_base := be_base e;
     be_chatError := chatError; be_formError := formError |}.
(** Change the input that has the focus. *)
Definition map_focused (f : Input → Input) (e : botConfigEditor) : botConfigEditor :=
  let at_focus n i := if (be_focus e =? n)%nat then f i else i in
  set_bot_form (at_focus 0%nat (be_token e)) (at_focus 1%nat (be_chat e)) (at_focus 2%nat (be_control e)) (be_focus e)
    (be_chatError e) (be_formError e) e.
Definition focused_value (e : botConfigEditor) : string :=
  Value (match be_focus e with O => be_token e | S O => be_chat e | _ => be_control e end).
Definition refocus (focus : nat) (e : botConfigEditor) : botConfigEditor :=
  map_focused Focus (set_bot_form (be_token e) (be_chat e) (be_control e) focus (be_chatError e) (be_formError e) e).
Definition set_formError (formError : string) (e : botConfigEditor) : botConfigEditor :=
  set_bot_form (be_token e) (be_chat e) (be_control e) (be_focus e) (be_chatError e) formError e.
Definition set_chatError (chatError : string) (e : botConfigEditor) : botConfigEditor :=
  set_bot_form (be_token e) (be_chat e) (be_control e) (be_focus e) chatError (be_formError e) e.

Definition bot_editor_update (key : string) (e : botConfigEditor) : botConfigEditor :=
  if bool_decide (key = "tab") then refocus ((be_focus e + 1) mod 3) (map_focused Blur e)
  else if bool_decide (key = "shift+tab") then refocus ((be_focus e + 2) mod 3) (map_focused Blur e)
  else
    let e' := map_focused (InputUpdate key) e in
    if bool_decide (focused_value e' = focused_value e) then e'
    else
      let e' := set_formError "" e' in
      if (be_focus e =? 1)%nat then set_chatError "" e' else e'.

(** [request()]: the settings, or the message that says the chat id is no integer. *)
Definition bot_request (e : botConfigEditor) : option BotSettings * botConfigEditor :=
  let e := set_formError "" (set_chatError "" e) in
  match ParseInt (TrimSpace (Value (be_chat e))) with
  | None => (None, set_chatError "tui.validation.integer" e)
  | Some chat => (Some {| bs_Token := TrimSpace (Value (be_token e)); bs_ChatID := chat; bs_ControlToken := TrimSpace (Value (be_control e)) |}, e)
  end.

Definition bot_dirty (e : botConfigEditor) : bool :=
  let base := bc_Settings (be_base e) in
  negb (bool_decide (Value (be_token e) = bs_Token base)) || negb (bool_decide (Value (be_chat e) = FormatInt (bs_ChatID base)))
  || negb (bool_decide (Value (be_control e) = bs_ControlToken base)).

Definition rebase (latest : BotConfigResponse) (e : botConfigEditor) : botConfigEditor :=
  let base := bc_Settings (be_base e) in
  let settings := bc_Settings latest in
  let adopt i old new := if bool_decide (Value i = old) then SetValue new i else i in
  {| be_token := adopt (be_token e) (bs_Token base) (bs_Token settings);
     be_chat := adopt (be_chat e) (FormatInt (bs_ChatID base)) (FormatInt (bs_ChatID settings));
     be_control := adopt (be_control e) (bs_ControlToken base) (bs_ControlToken settings);
     be_focus := be_focus e; be_etag := bc_ETag latest; be_base := latest; be_chatError := ""; be_formError := "" |}.
End editor.
