(* ===== verification/TuiEditorSpec.v ===== *)
(** * The editors of the terminal interface: properties

    A free id is found in as many steps as there are taken ids; an accepted rule is
    standard and valid; a form that was only opened and saved gives its rule back;
    rebasing the bot's form merges three versions. *)

From S2P Require Import Prelude GoStrings Calendar NetIP SourceIP Rule Quantity Config GoText Management FileIO ControlClient TuiEditor.

(** ** Free ids *)

#[export] Instance numbered_inj base : Inj (=) (=) (numbered base).
Proof.
  intros x y E. unfold numbered, FormatInt in E.
  by apply (inj (String.append base)), (inj (String.append "-")), (inj pretty) in E.
Qed.

(** The loop ends at a free id, or has passed [fuel] taken ones. *)
Lemma first_free_spec fuel existing base suffix :
  first_free fuel existing base suffix ∉ existing ∨
  ∀ k, (k < fuel)%nat → numbered base (suffix + Z.of_nat k) ∈ existing.
Proof.
  revert suffix. induction fuel as [|fuel IH]; intros suffix; simpl; [right; lia|].
  case_bool_decide as Hin; [|by left].
  destruct (IH (suffix + 1)) as [?|Hall]; [by left|right]. intros [|k] Hk; [by rewrite Z.add_0_r|].
  replace (suffix + Z.of_nat (S k)) with (suffix + 1 + Z.of_nat k) by lia. apply Hall. lia.
Qed.

Lemma base_not_numbered base k : base ≠ numbered base k.
Proof.
  unfold numbered. intros E. apply (f_equal String.length) in E. rewrite !length_append in E. simpl in E. lia.
Qed.

Lemma free_id_fresh base existing : free_id base existing ∉ existing.
Proof.
  unfold free_id. case_bool_decide as Hbase; [|done].
  destruct (first_free_spec (size existing) existing base 2) as [?|Hall]; [done|exfalso].
  pose (taken := base :: ((λ k, numbered base (2 + Z.of_nat k)) <$> seq 0 (size existing))).
  assert (NoDup taken) as Hnd.
  { apply NoDup_cons. split.
    - intros (k & E & _)%list_elem_of_fmap. by eapply base_not_numbered.
    - apply NoDup_fmap_2_strong; [|apply NoDup_seq]. intros x y _ _ E. apply (inj (numbered base)) in E. lia. }
  assert (list_to_set (C:=gset string) taken ⊆ existing) as Hsub.
  { intros id Hid. apply elem_of_list_to_set in Hid. unfold taken in Hid.
    apply elem_of_cons in Hid as [->|(k & -> & Hk%elem_of_seq)%list_elem_of_fmap]; [done|]. apply Hall. lia. }
  apply subseteq_size in Hsub. rewrite size_list_to_set in Hsub by done.
  unfold taken in Hsub. simpl in Hsub. rewrite length_fmap, length_seq in Hsub. lia.
Qed.

(** the loops of [availableRuleID] and [copyRule] have no bound, but they end after
    at most as many steps as there are taken ids, and the id they end with is free. *)
Theorem available_id_fresh (base : string) (source : Rule) (rules : list Rule) :
  availableRuleID base (rule_ids rules) ∉ RuleID <$> rules ∧
  newRuleID rules ∉ RuleID <$> rules ∧
  RuleID (copyRule source rules) ∉ RuleID <$> rules.
Proof.
  unfold newRuleID, availableRuleID, copyRule. simpl.
  rewrite <-!(elem_of_list_to_set (C:=gset string)).
  split_and!; apply free_id_fresh.
Qed.

(** ** Printed texts *)

Lemma plain_text_app s t : plain s → plain t → plain (s +:+ t).
Proof. unfold plain. intros. rewrite to_list_app, forallb_app. by apply andb_true_iff. Qed.

Lemma plain_digits l : forallb is_digit l = true → forallb plain_char l = true.
Proof.
  rewrite !forallb_forall. intros H c Hc. apply H in Hc. unfold is_digit in Hc. unfold plain_char, in_range, code.
  apply andb_true_iff in Hc as [?%Nat.leb_le ?%Nat.leb_le]. apply andb_true_iff. split; apply Nat.leb_le; lia.
Qed.

Lemma plain_FormatInt z : plain (FormatInt z).
Proof.
  assert (∀ z, 0 ≤ z → plain (FormatInt z)) as Hpos.
  { intros n (_ & Hd & _)%FormatInt_list. by apply plain_digits. }
  destruct z as [|p|p]; [by apply Hpos..|]. rewrite FormatInt_neg. apply plain_text_app; [done|]. by apply Hpos.
Qed.

Lemma TrimSpace_FormatInt z : TrimSpace (FormatInt z) = FormatInt z.
Proof.
  assert (∀ n, 0 ≤ n → ∃ c d, head (to_list (FormatInt n)) = Some c ∧ list.last (to_list (FormatInt n)) = Some d ∧
    is_digit c = true ∧ is_digit d = true) as Hpos.
  { intros n (_ & Hd & Hne)%FormatInt_list. destruct (to_list (FormatInt n)) as [|c l] eqn:E; [done|].
    destruct (list.last (c :: l)) as [d|] eqn:Hl; [|by apply last_None in Hl].
    exists c, d. split_and!; [done..| |]; eapply forallb_forall; try exact Hd; apply list_elem_of_In; [left|by apply last_Some_elem_of]. }
  assert (∀ c d, c = "-"%char ∨ is_digit c = true → is_digit d = true → plain_ends c d = true) as Hends.
  { assert (forallb (λ c, forallb (λ d, plain_ends (byte c) (byte d)) (seq 48 10)) (45%nat :: seq 48 10) = true) as Hall by by vm_compute.
    intros c d Hc (k & -> & Hk)%digit_byte.
    assert (∃ n, c = byte n ∧ In n (45%nat :: seq 48 10)) as (n & -> & Hn).
    { destruct Hc as [->|(n & -> & Hn)%digit_byte]; [exists 45%nat; split; [done|by left]|exists n; split; [done|by right]]. }
    eapply (proj1 (forallb_forall _ _)) in Hall; [|exact Hn]. by eapply (proj1 (forallb_forall _ _)) in Hall. }
  destruct z as [|p|p]; [by vm_compute| |].
  - destruct (Hpos (Z.pos p)) as (c & d & Hh & Hl & Hc & Hd); [done|]. apply (TrimSpace_plain_ends _ c d); auto.
  - destruct (Hpos (Z.pos p)) as (c & d & Hh & Hl & Hc & Hd); [done|].
    apply (TrimSpace_plain_ends _ "-"%char d); [done| |auto].
    rewrite FormatInt_neg, to_list_app, last_app, Hl. done.
Qed.

Lemma forallb_trim_right p c l : forallb p l = true → forallb p (trim_right_char c l) = true.
Proof.
  induction l as [|d l IH]; simpl; [done|]. intros [Hd Hl]%andb_true_iff. specialize (IH Hl).
  destruct (trim_right_char c l); [case_bool_decide; simpl; by rewrite ?Hd|]. simpl in *. by rewrite Hd.
Qed.

Lemma plain_candidate value u : plain (unit_name u) → plain (candidate value u).
Proof.
  intros Hu. unfold candidate. apply plain_text_app; [|by apply plain_text_app].
  unfold plain, trimDecimal. rewrite to_of_list. apply forallb_trim_right, forallb_trim_right.
  unfold FloatString3, three_digits. repeat apply plain_text_app; first [apply plain_FormatInt|done].
Qed.

Lemma plain_quantity value units : forallb (λ u, bool_decide (plain (unit_name u))) units = true → plain (formatHumanQuantity value units).
Proof.
  intros Hall. rewrite forallb_forall in Hall.
  assert (∀ u, u ∈ units → plain (unit_name u)) as Hu.
  { intros u Hin. by eapply bool_decide_eq_true, Hall, list_elem_of_In. }
  unfold formatHumanQuantity. destruct (value <=? 0); [done|].
  destruct (best_candidate value units "") as [->|(u & Hin & _ & ->)].
  - simpl. apply plain_text_app; [apply plain_FormatInt|]. apply plain_text_app; [done|]. unfold fallback_unit.
    destruct (list.last units) eqn:E; [by apply Hu, last_Some_elem_of|done].
  - case_bool_decide; [|by apply plain_candidate, Hu].
    apply plain_text_app; [apply plain_FormatInt|]. apply plain_text_app; [done|]. unfold fallback_unit.
    destruct (list.last units) eqn:E; [by apply Hu, last_Some_elem_of|done].
Qed.

(** *** Lists of addresses *)

Definition separator_free (s : string) : Prop := forallb (λ c, negb (ip_separator c)) (to_list s) = true.

Lemma fields_func_word sep l field : forallb (λ c, negb (sep c)) l = true → field ++ l ≠ [] →
  fields_func sep l field = [field ++ l].
Proof.
  revert field. induction l as [|c l IH]; intros field Hl Hne; simpl.
  - rewrite app_nil_r in *. by rewrite bool_decide_eq_false_2.
  - simpl in Hl. apply andb_true_iff in Hl as [Hc Hl]. apply negb_true_iff in Hc. rewrite Hc, IH; [by rewrite <-app_assoc|done|].
    by destruct field.
Qed.

Lemma fields_func_split sep l field c rest : forallb (λ c, negb (sep c)) l = true → field ++ l ≠ [] → sep c = true →
  fields_func sep (l ++ c :: rest) field = (field ++ l) :: fields_func sep rest [].
Proof.
  intros Hl Hne Hc. revert field Hne. induction l as [|d l IH]; intros field Hne; simpl.
  - rewrite app_nil_r in *. by rewrite Hc, bool_decide_eq_false_2.
  - simpl in Hl. apply andb_true_iff in Hl as [Hd Hl]. apply negb_true_iff in Hd. rewrite Hd, IH; [by rewrite <-app_assoc|done|].
    by destruct field.
Qed.

(** An address as the form writes it. *)
Definition form_address (ip : string) : Prop := ip ≠ "" ∧ TrimSpace ip = ip ∧ separator_free ip.

Lemma to_list_nonempty s : s ≠ "" → to_list s ≠ [].
Proof. by destruct s. Qed.

Lemma parse_fields_join field ips : field = [] ∨ field = [" "%char] → Forall form_address ips →
  filter (λ part, part ≠ "") (TrimSpace ∘ of_list <$> fields_func ip_separator (to_list (join_comma ips)) field)
  = if bool_decide (ips = []) then [] else ips.
Proof.
  intros Hf Hall. revert field Hf. induction Hall as [|ip ips (Hne & Htrim & Hsep) Hall IH]; intros field Hf.
  { destruct Hf as [->| ->]; [done|]. simpl. rewrite filter_cons_False; [done|]. vm_compute. by intros []. }
  assert (TrimSpace (of_list (field ++ to_list ip)) = ip) as Hword.
  { destruct Hf as [->| ->]; simpl; rewrite ?TrimSpace_space, of_to_list; done. }
  assert (field ++ to_list ip ≠ []) by (pose proof (to_list_nonempty _ Hne); destruct Hf as [->| ->]; done).
  rewrite bool_decide_eq_false_2 by done. destruct ips as [|ip' ips].
  - simpl. rewrite fields_func_word by done. csimpl. rewrite Hword. by rewrite filter_cons_True.
  - change (join_comma (ip :: ip' :: ips)) with (ip +:+ ", " +:+ join_comma (ip' :: ips)).
    rewrite !to_list_app. change (to_list ", " ++ ?l) with (","%char :: " "%char :: l).
    rewrite fields_func_split by done. csimpl. rewrite Hword, filter_cons_True by done. f_equal.
    change (fields_func ip_separator (" "%char :: ?l) []) with (fields_func ip_separator l [" "%char]).
    rewrite IH by auto. done.
Qed.

Lemma parse_join ips : Forall form_address ips → parseSourceIPs (join_comma ips) = ips.
Proof.
  intros H. unfold parseSourceIPs. rewrite (parse_fields_join [] ips) by auto. by case_bool_decide; subst.
Qed.

Lemma plain_join ips : Forall plain ips → plain (join_comma ips).
Proof.
  induction 1 as [|ip ips Hip Hall IH]; [done|]. destruct ips; [done|]. apply plain_text_app; [done|]. by apply plain_text_app.
Qed.

Section editor_spec.
Context {inputs : TextInput}.

(** ** An accepted rule *)

Lemma insert_empty_inv (key : string) (x : EditorError) (m : Errors) : <[key := x]> m = ∅ → False.
Proof. apply insert_non_empty. Qed.
Local Hint Resolve insert_empty_inv : core.

Lemma required_inv key text errors : required key text errors = ∅ → errors = ∅ ∧ text ≠ "".
Proof. unfold required. case_bool_decide; [intros []%insert_empty_inv|done]. Qed.

Lemma check_rule_id_inv e id errors : check_rule_id e id errors = ∅ →
  errors = ∅ ∧ id ≠ "" ∧ (id ∈ re_existing e → id = re_originalID e).
Proof.
  unfold check_rule_id. case_bool_decide; [intros []%insert_empty_inv|].
  destruct (_ && _) eqn:E; [intros []%insert_empty_inv|]. intros ->. split_and!; [done..|]. intros Hin.
  rewrite (bool_decide_eq_true_2 _ Hin) in E. by apply negb_false_iff, bool_decide_eq_true in E.
Qed.

Lemma check_sources_inv e rule errors : check_sources e rule errors = ∅ → errors = ∅.
Proof. unfold check_sources. repeat case_match; first [done | intros []%insert_empty_inv]. Qed.

Context `{!TzDatabase}.

Lemma check_form_inv e rule errors : check_form e rule errors = ∅ → errors = ∅ ∧ is_ok (Validate rule) = true.
Proof.
  unfold check_form. case_bool_decide as He; [|done]. destruct (Validate rule); [done|intros []%insert_empty_inv].
Qed.

Lemma read_form_inv e rule : read_form e = (rule, ∅) →
  is_ok (Validate rule) = true ∧ RuleID rule = TrimSpace (value e fieldRuleID) ∧
  (RuleID rule ∈ re_existing e → RuleID rule = re_originalID e).
Proof.
  unfold read_form.
  repeat match goal with |- context [let '(_, _) := ?t in _] => destruct t end.
  intros [= <- Hform].
  apply check_form_inv in Hform as [Hform Hok]. apply required_inv in Hform as [Hform _].
  apply check_sources_inv in Hform. destruct (validEditorProtocol _); [|by apply insert_empty_inv in Hform].
  apply required_inv in Hform as [Hform _]. by apply check_rule_id_inv in Hform as (_ & _ & Hid).
Qed.

(** a rule that the form accepts is in standard form and passes [Rule.Validate]
    (so the configuration file accepts it), and its id is not the id of another
    rule of the draft. *)
Theorem accepted_rule_valid (e e' : ruleEditor) (rule : Rule) (Hok : editor_rule e = (rule, true, e')) :
  standard rule ∧ rule_wf rule ∧ (RuleID rule ∈ re_existing e → RuleID rule = re_originalID e).
Proof.
  unfold editor_rule in Hok. destruct (read_form e) as [r errors] eqn:Hread.
  injection Hok as <- He <-. apply bool_decide_eq_true in He as ->.
  apply read_form_inv in Hread as (Hval & Hid & Hfree). split_and!.
  - apply Standardize_standard.
  - by apply validate_standardized_iff.
  - simpl. by rewrite Hid, TrimSpace_idemp, <-Hid.
Qed.

(** ** An unchanged form *)

Context {laws : InputLaws}.

Definition same_value (f g : editorField) : Prop := ef_key f = ef_key g ∧ field_value f = field_value g.

Lemma value_of_same l l' key : Forall2 same_value l l' → value_of l key = value_of l' key.
Proof.
  unfold value_of. induction 1 as [|f g l l' [Hk Hv] _ IH]; simpl; [done|]. rewrite Hk. case_decide; [done|].
  by destruct (list_find _ l) as [[]|], (list_find _ l') as [[]|].
Qed.

Lemma same_value_input h f : (∀ i, Value (h i) = Value i) → same_value (set_input h f) f.
Proof. intros Hh. split; [done|]. unfold field_value, set_input. simpl. destruct (ef_kind f); auto. Qed.

Lemma value_syncFocus e key : value (syncFocus e) key = value e key.
Proof using laws.
  unfold value, syncFocus, set_fields, set_form. simpl. apply value_of_same, Forall2_same_length_lookup_2; [by rewrite length_imap|].
  intros i f g Hf Hg. rewrite list_lookup_imap, Hg in Hf. simpl in Hf. injection Hf as <-.
  assert (same_value (set_input Blur g) g) as Hb by apply same_value_input, Value_Blur.
  case_match; [|done]. destruct (same_value_input Focus (set_input Blur g) Value_Focus) as [Hk Hv].
  destruct Hb as [Hk' Hv']. split; congruence.
Qed.

Lemma value_newRuleEditor kind rule rules locale key :
  value (newRuleEditor kind rule rules locale) key = value_of (rule_fields kind rule locale) key.
Proof using laws. unfold newRuleEditor. rewrite value_syncFocus. by destruct (bool_decide (kind = editorCreate) && _). Qed.

(** Every field that takes text holds the text it was made with. *)
Lemma text_value key text kind limit : plain text → (kind = editorText ∨ kind = editorReadOnly) →
  field_value (newTextField key text kind limit) = text.
Proof using laws.
  intros Hp Hk. unfold field_value, newTextField. simpl.
  assert (Value (SetCharLimit limit (SetValue text NewInput)) = text) as Ht.
  { rewrite Value_SetCharLimit, Value_SetValue; [done..|]. left. by rewrite CharLimit_NewInput. }
  by destruct Hk as [-> | ->].
Qed.

(** *** Numbers and quantities come back *)

Lemma parseInt_printed e key lo hi z errors : value e key = FormatInt z → lo ≤ z ≤ hi → in_int64 z →
  parseInt e key lo hi errors = (z, errors).
Proof.
  intros Hv Hr Hz. unfold parseInt. rewrite Hv, TrimSpace_FormatInt, ParseInt_FormatInt by done.
  by rewrite (proj2 (Z.ltb_ge z lo)), (proj2 (Z.ltb_ge hi z)) by lia.
Qed.
Lemma parseInt64_printed e key lo z errors : value e key = FormatInt z → lo ≤ z → in_int64 z →
  parseInt64 e key lo errors = (z, errors).
Proof.
  intros Hv Hr Hz. unfold parseInt64. rewrite Hv, TrimSpace_FormatInt, ParseInt_FormatInt by done.
  by rewrite (proj2 (Z.ltb_ge z lo)) by lia.
Qed.

Lemma parse_bytes_printed unmarshal message (print : Z → string) e key v errors :
  (∀ s, unmarshal (TrimSpace s) = unmarshal s) → unmarshal "" = Err EmptyQuantityText → unmarshal (print v) = Ok v →
  value e key = (if v <=? 0 then "" else print v) → 0 ≤ v →
  parse_bytes unmarshal message e key errors = (v, errors).
Proof.
  intros Htrim Hempty Hprint Hv Hpos. unfold parse_bytes. rewrite Hv. destruct (Z.leb_spec v 0).
  { assert (v = 0) as -> by lia. done. }
  case_bool_decide as He; [|by rewrite Htrim, Hprint].
  rewrite <-Htrim, He, Hempty in Hprint. done.
Qed.
Lemma parseByteRate_printed e key v errors : value e key = formatEditorByteRate v → 0 ≤ v ≤ int64_max →
  parseByteRate e key errors = (v, errors).
Proof.
  intros Hv Hr. apply (parse_bytes_printed _ _ ByteRate_String); [|by vm_compute|by apply quantity_roundtrip|done|lia].
  intros s. unfold ByteRate_UnmarshalText, parseHumanQuantity. by rewrite TrimSpace_idemp.
Qed.
Lemma parseByteSize_printed e key v errors : value e key = formatEditorByteSize v → 0 ≤ v ≤ int64_max →
  parseByteSize e key errors = (v, errors).
Proof.
  intros Hv Hr. apply (parse_bytes_printed _ _ ByteSize_String); [|by vm_compute|by apply quantity_roundtrip|done|lia].
  intros s. unfold ByteSize_UnmarshalText, parseHumanQuantity. by rewrite TrimSpace_idemp.
Qed.

(** *** The rules a form can hold *)

(** A valid rule in standard form whose texts are printable and whose numbers fit. *)
Record form_rule (r : Rule) : Prop := {
  fr_standard : standard r;
  fr_valid : rule_wf r;
  fr_plain : Forall plain ([RuleID r; Name r; ListenAddr r; TargetAddr r; Remark r] ++ SourceIPs r);
  fr_timezone : ∀ q, Quota r = Some q → plain (q_timezone q);
  fr_ints : Forall (λ z, z ≤ int64_max) [SpeedLimit r; MaxConn r; IdleTimeout r];
  fr_bandwidth : ∀ b, Bandwidth r = Some b → Forall (λ z, z ≤ int64_max) [bw_rate b; bw_upload b; bw_download b];
  fr_quota : ∀ q, Quota r = Some q → Forall (λ z, z ≤ int64_max) [q_daily q; q_monthly q];
  fr_sources : Forall separator_free (SourceIPs r)
}.

(** The mode "off" is left out by the form. *)
Definition without_off (r : Rule) : Rule := {|
  RuleID := RuleID r; Name := Name r; Proto := Proto r; ListenAddr := ListenAddr r; ListenPort := ListenPort r;
  TargetAddr := TargetAddr r; TargetPort := TargetPort r; Enabled := Enabled r; SpeedLimit := SpeedLimit r;
  Bandwidth := Bandwidth r; Quota := Quota r; MaxConn := MaxConn r; IdleTimeout := IdleTimeout r;
  SourceIPMode := if bool_decide (SourceIPMode r = SourceIPModeOff) then "" else SourceIPMode r;
  SourceIPs := SourceIPs r; Domains := Domains r; Remark := Remark r; Revision := Revision r; CreatedTime := CreatedTime r;
  UpdatedTime := UpdatedTime r |}.

Lemma parse_entries_ok i ips unique u : parse_entries i ips unique = Ok u → Forall (λ ip, is_ok (ParseSourceIPPrefix ip) = true) ips.
Proof.
  revert i unique. induction ips as [|ip ips IH]; intros i unique; simpl; [constructor|].
  destruct (ParseSourceIPPrefix ip) eqn:E; [|done]. intros Hrest. constructor; [by rewrite E|by eapply IH].
Qed.

(** The two shapes of a valid source policy. *)
Lemma source_shape r : standard r → rule_wf r →
  (SourceIPMode r = "" ∨ SourceIPMode r = SourceIPModeOff) ∧ SourceIPs r = [] ∨
  (SourceIPMode r = SourceIPModeAllowlist ∨ SourceIPMode r = SourceIPModeDenylist) ∧ SourceIPs r ≠ [] ∧
  (length (SourceIPs r) ≤ MaxSourceIPsPerRule)%nat ∧ Forall (λ ip, is_ok (ParseSourceIPPrefix ip) = true) (SourceIPs r).
Proof.
  intros Hstd Hwf. apply wf_source in Hwf. apply (f_equal SourceIPMode) in Hstd. simpl in Hstd.
  unfold compileSourceIPMatcher in Hwf. rewrite Hstd in Hwf.
  destruct (_ || _) eqn:Hoff; [|destruct (_ || _) eqn:Hon in Hwf; [|done]].
  - left. split; [|by destruct (SourceIPs r)].
    apply orb_true_iff in Hoff as [Hm|Hm]; apply bool_decide_eq_true in Hm; auto.
  - right. destruct (bool_decide (SourceIPs r = [])) eqn:Hne; [done|]. apply bool_decide_eq_false in Hne.
    destruct (Nat.ltb_spec MaxSourceIPsPerRule (length (SourceIPs r))); [done|].
    destruct (parse_entries 0 (SourceIPs r) ∅) as [u|] eqn:E; [|done]. apply parse_entries_ok in E.
    apply orb_true_iff in Hon as [Hm|Hm]; apply bool_decide_eq_true in Hm; auto.
Qed.

Lemma fmap_fixed {A} (f : A → A) (l : list A) x : f <$> l = l → x ∈ l → f x = x.
Proof. intros E [i Hi]%list_elem_of_lookup. assert ((f <$> l) !! i = l !! i) as Hx by by rewrite E. rewrite list_lookup_fmap, Hi in Hx. by injection Hx. Qed.

Lemma form_addresses r : form_rule r → Forall form_address (SourceIPs r).
Proof.
  intros Hr. pose proof (fr_sources r Hr) as Hsep. pose proof (fr_standard r Hr) as Hstd.
  destruct (source_shape r Hstd (fr_valid r Hr)) as [[_ ->]|(_ & _ & _ & Hok)]; [constructor|].
  apply (f_equal SourceIPs) in Hstd. simpl in Hstd. rewrite Forall_forall in *. intros ip Hip.
  split_and!; [|by eapply fmap_fixed|by apply Hsep]. intros ->. apply Hok in Hip. by vm_compute in Hip.
Qed.

(** *** What a new form shows *)

Definition limit_text (part : BandwidthLimit → Z) (r : Rule) : string :=
  match Bandwidth r with Some b => formatEditorByteRate (part b) | None => "" end.
Definition quota_text (part : TrafficQuota → Z) (r : Rule) : string :=
  match Quota r with Some q => formatEditorByteSize (part q) | None => "" end.
Definition mode_choice (r : Rule) : string := if bool_decide (SourceIPMode r = "") then SourceIPModeOff else SourceIPMode r.

Lemma text_shown kind r rules locale key text fieldKind limit : plain text → fieldKind = editorText ∨ fieldKind = editorReadOnly →
  (∀ l, value_of (rule_fields kind r locale) key = l → l = field_value (newTextField key text fieldKind limit)) →
  value (newRuleEditor kind r rules locale) key = text.
Proof using laws. intros Hp Hk Hv. rewrite value_newRuleEditor, (Hv _ eq_refl). by apply text_value. Qed.

Lemma plain_limit part r : plain (limit_text part r).
Proof. unfold limit_text. case_match; [|done]. unfold formatEditorByteRate. case_match; [done|]. by apply plain_quantity. Qed.
Lemma plain_quota part r : plain (quota_text part r).
Proof. unfold quota_text. case_match; [|done]. unfold formatEditorByteSize. case_match; [done|]. by apply plain_quantity. Qed.
Lemma plain_int z : plain (formatEditorInt z).
Proof. unfold formatEditorInt. case_match; [done|apply plain_FormatInt]. Qed.

Ltac shown := eapply text_shown; [|by eauto|intros ? <-; reflexivity].

Lemma form_texts kind r rules locale : form_rule r →
  let shows := λ key text, value (newRuleEditor kind r rules locale) key = text in
  (shows fieldRuleID (RuleID r) ∧ shows fieldName (Name r) ∧ shows fieldListenAddr (ListenAddr r) ∧ shows fieldTargetAddr (TargetAddr r) ∧
   shows fieldRemark (Remark r) ∧ shows fieldSourceIPs (join_comma (SourceIPs r))) ∧
  (shows fieldListenPort (FormatInt (ListenPort r)) ∧ shows fieldTargetPort (FormatInt (TargetPort r)) ∧
   shows fieldSpeedLimit (FormatInt (SpeedLimit r)) ∧ shows fieldMaxConn (FormatInt (MaxConn r)) ∧
   shows fieldIdleTimeout (FormatInt (IdleTimeout r))) ∧
  (shows fieldBandwidthRate (limit_text bw_rate r) ∧ shows fieldBandwidthUpload (limit_text bw_upload r) ∧
   shows fieldBandwidthDownload (limit_text bw_download r) ∧ shows fieldQuotaDaily (quota_text q_daily r) ∧
   shows fieldQuotaMonthly (quota_text q_monthly r)) ∧
  shows fieldProtocol (Proto r) ∧ shows fieldEnabled (FormatBool (Enabled r)) ∧ shows fieldSourceIPMode (mode_choice r) ∧
  (∀ q, Quota r = Some q → shows fieldQuotaTimezone (q_timezone q)).
Proof using laws.
  intros Hr shows. subst shows. pose proof (fr_plain r Hr) as Hp. simpl in Hp.
  rewrite !Forall_cons in Hp. destruct Hp as (Hid & Hname & Hlisten & Htarget & Hremark & Hips).
  pose proof (fr_valid r Hr) as Hwf. pose proof (fr_standard r Hr) as Hstd.
  assert (∀ p, 1 ≤ p ≤ 65535 → formatEditorInt p = FormatInt p) as Hport.
  { intros p Hp. unfold formatEditorInt. by rewrite (proj2 (Z.eqb_neq p 0)) by lia. }
  rewrite <-(Hport (ListenPort r)), <-(Hport (TargetPort r)) by first [apply Hwf|apply (wf_target r Hwf)].
  split_and!.
  1: { destruct kind; shown; done. }
  all: try (shown; first [done|apply plain_int|apply plain_FormatInt|by apply plain_join|apply plain_limit|apply plain_quota]).
  - rewrite value_newRuleEditor.
    transitivity (let p := ToLower (TrimSpace (Proto r)) in if validEditorProtocol p then p else "tcp"); [reflexivity|].
    apply (f_equal Proto) in Hstd. simpl in Hstd. rewrite standardizeProtocol_lower in Hstd. rewrite Hstd.
    by destruct (wf_proto r Hwf) as [->|[->| ->]].
  - by rewrite value_newRuleEditor.
  - rewrite value_newRuleEditor.
    transitivity (let m := ToLower (TrimSpace (SourceIPMode r)) in if validEditorSourceIPMode m then m else SourceIPModeOff); [reflexivity|].
    assert (Hmode := f_equal SourceIPMode Hstd). simpl in Hmode. unfold normalizeSourceIPMode in Hmode. rewrite Hmode.
    unfold mode_choice, validEditorSourceIPMode. rewrite Hmode.
    by destruct (source_shape r Hstd Hwf) as [[[->| ->] _]|[[->| ->] _]].
  - intros q Hq. assert (Hz := f_equal Quota Hstd). simpl in Hz. rewrite Hq in Hz. simpl in Hz. injection Hz as Hz.
    apply (f_equal q_timezone) in Hz. simpl in Hz.
    assert (TrimSpace (q_timezone q) ≠ "") as Hne.
    { intros Ht. rewrite Ht in Hz. simpl in Hz. rewrite <-Hz in Ht. by vm_compute in Ht. }
    eapply (text_shown _ _ _ _ _ _ editorText 64); [by eapply fr_timezone|by left|]. intros ? <-.
    unfold rule_fields. rewrite Hq, (bool_decide_eq_false_2 _ Hne). reflexivity.
Qed.

(** *** Reading an unchanged form *)

Lemma bandwidth_back e r : rule_wf r →
  (∀ b, Bandwidth r = Some b → Forall (λ z, z ≤ int64_max) [bw_rate b; bw_upload b; bw_download b]) →
  value e fieldBandwidthRate = limit_text bw_rate r → value e fieldBandwidthUpload = limit_text bw_upload r →
  value e fieldBandwidthDownload = limit_text bw_download r →
  parse_bandwidth e ∅ = (Bandwidth r, ∅).
Proof.
  intros Hwf Hmax Hrate Hup Hdown. unfold limit_text in *. unfold parse_bandwidth.
  destruct (Bandwidth r) as [b|] eqn:Hb.
  - specialize (Hmax b eq_refl). rewrite !Forall_cons in Hmax. destruct Hmax as (Hm1 & Hm2 & Hm3 & _).
    pose proof (wf_bandwidth r Hwf b Hb) as Hcase.
    rewrite (parseByteRate_printed _ _ _ _ Hrate), (parseByteRate_printed _ _ _ _ Hup), (parseByteRate_printed _ _ _ _ Hdown) by lia.
    assert ((0 <? bw_rate b) || (0 <? bw_upload b) || (0 <? bw_download b) = true) as -> by lia.
    assert ((0 <? bw_rate b) && ((0 <? bw_upload b) || (0 <? bw_download b)) = false) as -> by lia. by destruct b.
  - rewrite (parseByteRate_printed _ _ 0 _ Hrate), (parseByteRate_printed _ _ 0 _ Hup), (parseByteRate_printed _ _ 0 _ Hdown) by int64_lia. done.
Qed.

Lemma quota_back e r : standard r → rule_wf r → (∀ q, Quota r = Some q → Forall (λ z, z ≤ int64_max) [q_daily q; q_monthly q]) →
  value e fieldQuotaDaily = quota_text q_daily r → value e fieldQuotaMonthly = quota_text q_monthly r →
  (∀ q, Quota r = Some q → value e fieldQuotaTimezone = q_timezone q) →
  parse_quota e ∅ = (Quota r, ∅).
Proof.
  intros Hstd Hwf Hmax Hdaily Hmonthly Htz. unfold quota_text in *. unfold parse_quota.
  apply (f_equal Quota) in Hstd. simpl in Hstd. destruct (Quota r) as [q|] eqn:Hq.
  - specialize (Hmax q eq_refl). rewrite !Forall_cons in Hmax. destruct Hmax as (Hm1 & Hm2 & _).
    destruct (wf_quota r Hwf q Hq) as (Hd & Hm & Hsum & Haction & Hloc).
    rewrite (parseByteSize_printed _ _ _ _ Hdaily), (parseByteSize_printed _ _ _ _ Hmonthly), (Htz q eq_refl) by lia.
    assert ((0 <? q_daily q) || (0 <? q_monthly q) = true) as -> by lia.
    simpl in Hstd. injection Hstd as Hstd. apply (f_equal q_timezone) in Hstd. simpl in Hstd. rewrite Hstd.
    rewrite bool_decide_eq_false_2 by (intros E; by rewrite E in Hloc; destruct Hloc). by destruct q; simpl in *; subst.
  - rewrite (parseByteSize_printed _ _ 0 _ Hdaily), (parseByteSize_printed _ _ 0 _ Hmonthly) by int64_lia. done.
Qed.

Lemma sources_back e r errors : standard r → rule_wf r → value e fieldSourceIPMode = mode_choice r →
  check_sources e (without_off r) errors = errors.
Proof.
  intros Hstd Hwf Hmode. unfold check_sources, without_off, mode_choice in *. rewrite Hmode. simpl.
  destruct (source_shape r Hstd Hwf) as [[[->| ->] _]|(Hm & Hne & Hlen & Hok)]; [done..|].
  assert (bad_source_ip (SourceIPs r) = false) as ->.
  { unfold bad_source_ip. apply not_true_is_false. intros (ip & Hin & Hbad)%existsb_exists.
    rewrite Forall_forall in Hok. rewrite Hok in Hbad; [done|by apply list_elem_of_In]. }
  rewrite (bool_decide_eq_false_2 (SourceIPs r = [])) by done. rewrite (proj2 (Nat.ltb_ge _ _)) by done.
  by destruct Hm as [->| ->].
Qed.

(** Leaving "off" out changes neither the policy nor anything else. *)
Lemma without_off_source r : standard r → rule_wf r →
  compileSourceIPMatcher (SourceIPMode (without_off r)) (SourceIPs r) = compileSourceIPMatcher (SourceIPMode r) (SourceIPs r) ∧
  normalizeSourceIPMode (SourceIPMode (without_off r)) = SourceIPMode (without_off r).
Proof.
  intros Hstd Hwf. unfold without_off. simpl. assert (Hmode := f_equal SourceIPMode Hstd). simpl in Hmode.
  case_bool_decide as Hoff; [|done]. rewrite Hoff. split; [|by vm_compute].
  unfold compileSourceIPMatcher. by replace (normalizeSourceIPMode SourceIPModeOff) with SourceIPModeOff by by vm_compute.
Qed.

Lemma without_off_wf r : standard r → rule_wf r → standard (without_off r) ∧ rule_wf (without_off r) ∧ RuntimeEqual r (without_off r) = true.
Proof.
  intros Hstd Hwf. destruct (without_off_source r Hstd Hwf) as [Hc Hn].
  assert (standard (without_off r)) as Hstd'.
  { clear Hc Hwf. unfold standard, Standardize, without_off in *. destruct r. simpl in *. rewrite Hn. injection Hstd. intros.
    f_equal; done. }
  split_and!; [done| |].
  - destruct Hwf. constructor; simpl in *; try done. by rewrite Hc.
  - unfold RuntimeEqual. rewrite Hstd, Hstd'. unfold sourceIPPoliciesEqual, policies_equal. simpl SourceIPs. rewrite Hc.
    pose proof (wf_source r Hwf) as Hsrc. clear Hc. destruct (compileSourceIPMatcher (SourceIPMode r) (SourceIPs r)) as [m|]; [|done].
    assert (EqualFold (TargetAddr r) (TargetAddr (without_off r)) = true) as -> by (apply bool_decide_eq_true_2; reflexivity).
    assert (runtimeMaxConn r =? runtimeMaxConn (without_off r) = true) as -> by apply Z.eqb_refl.
    cbn [without_off Proto ListenAddr ListenPort TargetPort Enabled SpeedLimit Bandwidth Quota IdleTimeout].
    unfold bandwidthLimitsEqual, trafficQuotasEqual. rewrite !Z.eqb_refl, Bool.eqb_reflx, !bool_decide_eq_true_2 by done.
    destruct m; [|done]. by rewrite !bool_decide_eq_true_2.
Qed.


Lemma new_editor_fields kind r rules locale :
  let e := newRuleEditor kind r rules locale in
  re_base e = r ∧ re_originalID e = RuleID r ∧ re_existing e = rule_ids rules ∧ re_kind e = kind.
Proof. unfold newRuleEditor. by destruct (bool_decide (kind = editorCreate) && _). Qed.

(** The texts of the form, trimmed, are the fields of the rule. *)
Lemma form_reads e r : form_rule r →
  value e fieldRuleID = RuleID r → value e fieldName = Name r → value e fieldListenAddr = ListenAddr r →
  value e fieldTargetAddr = TargetAddr r → value e fieldRemark = Remark r → value e fieldSourceIPs = join_comma (SourceIPs r) →
  value e fieldProtocol = Proto r → value e fieldEnabled = FormatBool (Enabled r) → value e fieldSourceIPMode = mode_choice r →
  let text key := TrimSpace (value e key) in
  let mode := ToLower (text fieldSourceIPMode) in
  let off := bool_decide (mode = SourceIPModeOff) in
  {| RuleID := text fieldRuleID; Name := text fieldName; Proto := engineProtocol (value e fieldProtocol);
     ListenAddr := text fieldListenAddr; ListenPort := ListenPort r; TargetAddr := text fieldTargetAddr; TargetPort := TargetPort r;
     Enabled := bool_decide (value e fieldEnabled = "true"); SpeedLimit := SpeedLimit r; Bandwidth := Bandwidth r; Quota := Quota r;
     MaxConn := MaxConn r; IdleTimeout := IdleTimeout r;
     SourceIPMode := if off then "" else mode; SourceIPs := if off then [] else parseSourceIPs (value e fieldSourceIPs);
     Domains := Domains r; Remark := text fieldRemark; Revision := Revision r; CreatedTime := CreatedTime r;
     UpdatedTime := UpdatedTime r |} = without_off r.
Proof.
  intros Hr. cbv beta zeta. intros -> -> -> -> -> -> -> -> ->. pose proof (fr_standard r Hr) as Hstd. pose proof (fr_valid r Hr) as Hwf.
  rewrite parse_join by by apply form_addresses.
  pose proof (f_equal RuleID Hstd) as E1. pose proof (f_equal Name Hstd) as E2. pose proof (f_equal ListenAddr Hstd) as E3.
  pose proof (f_equal TargetAddr Hstd) as E4. pose proof (f_equal Remark Hstd) as E5. pose proof (f_equal Proto Hstd) as E6.
  simpl in E1, E2, E3, E4, E5, E6. rewrite standardizeProtocol_lower in E6.
  unfold engineProtocol, without_off. rewrite E1, E2, E3, E4, E5, E6.
  assert (bool_decide (FormatBool (Enabled r) = "true") = Enabled r) as -> by by destruct (Enabled r).
  unfold mode_choice.
  destruct (source_shape r Hstd Hwf) as [[[->| ->] ->]|([->| ->] & _)]; by vm_compute (bool_decide _).
Qed.

(** C12: opening the form on a valid rule of the configuration with printable texts
    ([form_rule]) and saving it at once gives the same rule back, so the draft stays equal to the configuration: every
    number, quantity, list of addresses and text is printed in a way that its
    reader undoes. The one difference is the mode "off", which becomes empty; that
    never restarts a runner. *)
Theorem unchanged_form_keeps_rule (kind : editorKind) (r : Rule) (rules : list Rule) (locale : string) (Hr : form_rule r) :
  ∃ e, editor_rule (newRuleEditor kind r rules locale) = (without_off r, true, e) ∧ RuntimeEqual r (without_off r) = true.
Proof using laws.
  destruct (form_texts kind r rules locale Hr) as
    ((Hid & Hname & Hlisten & Htarget & Hremark & Hips) & (Hlp & Htp & Hspeed & Hmax & Hidle) &
     (Hrate & Hup & Hdown & Hdaily & Hmonthly) & Hproto & Henabled & Hmode & Htz).
  destruct (new_editor_fields kind r rules locale) as (Hbase & Horiginal & _). set (e := newRuleEditor kind r rules locale) in *.
  pose proof (fr_standard r Hr) as Hstd. pose proof (fr_valid r Hr) as Hwf.
  destruct (without_off_wf r Hstd Hwf) as (Hstd' & Hwf' & Hrt).
  assert (read_form e = (without_off r, ∅)) as Hread.
  { unfold read_form.
    pose proof (fr_ints r Hr) as Hints. rewrite !Forall_cons in Hints. destruct Hints as (Hi1 & Hi2 & Hi3 & _).
    pose proof (wf_listen r Hwf). pose proof (wf_target r Hwf) as [Hta ?].
    pose proof (wf_speed r Hwf). pose proof (wf_max_conn r Hwf). pose proof (wf_idle r Hwf).
    rewrite (parseInt_printed _ _ _ _ _ _ Hlp), (parseInt_printed _ _ _ _ _ _ Htp) by int64_lia.
    rewrite (bandwidth_back e r) by (done || apply Hr). rewrite (quota_back e r) by (done || apply Hr).
    rewrite (parseInt64_printed _ _ _ _ _ Hspeed), (parseInt_printed _ _ _ _ _ _ Hmax), (parseInt_printed _ _ _ _ _ _ Hidle) by int64_lia.
    rewrite Hbase, (form_reads e r) by done. simpl RuleID. simpl Name. simpl Proto. simpl TargetAddr.
    assert (check_rule_id e (RuleID r) ∅ = ∅) as ->.
    { unfold check_rule_id. rewrite (bool_decide_eq_false_2 (RuleID r = "")) by apply Hwf.
      rewrite (bool_decide_eq_true_2 (RuleID r = re_originalID e)) by done. by rewrite andb_false_r. }
    unfold required. rewrite (bool_decide_eq_false_2 (Name r = "")) by apply Hwf.
    assert (validEditorProtocol (Proto r) = true) as -> by by destruct (wf_proto r Hwf) as [->|[->| ->]].
    rewrite sources_back by done. rewrite (bool_decide_eq_false_2 (TargetAddr r = "")) by done.
    unfold check_form, Validate. rewrite Hstd'. apply validate_standardized_iff in Hwf'.
    by destruct (validate_standardized (without_off r)). }
  exists (set_errors ∅ e). unfold editor_rule. by rewrite Hread, Hstd'.
Qed.

(** ** The bot's form *)

(** The inputs keep the limits they were made with. *)
Definition bot_form_wf (e : botConfigEditor) : Prop :=
  CharLimit (be_token e) = 256 ∧ CharLimit (be_chat e) = 20 ∧ CharLimit (be_control e) = 256.

Lemma bot_form_new cfg : bot_form_wf (newBotConfigEditor cfg).
Proof using laws. unfold bot_form_wf, newBotConfigEditor. simpl. by rewrite CharLimit_Focus, !CharLimit_SetCharLimit. Qed.
Lemma bot_form_focused f e : (∀ i, CharLimit (f i) = CharLimit i) → bot_form_wf e → bot_form_wf (map_focused f e).
Proof. intros Hf (Hl1 & Hl2 & Hl3). unfold bot_form_wf, map_focused. simpl. repeat case_match; rewrite ?Hf; done. Qed.
Lemma bot_form_update key e : bot_form_wf e → bot_form_wf (bot_editor_update key e).
Proof using laws.
  intros Hwf. unfold bot_editor_update, refocus.
  pose proof (bot_form_focused Blur e CharLimit_Blur Hwf) as Hblur.
  case_bool_decide; [by apply (bot_form_focused Focus _ CharLimit_Focus)|].
  case_bool_decide; [by apply (bot_form_focused Focus _ CharLimit_Focus)|].
  pose proof (bot_form_focused (InputUpdate key) e (CharLimit_InputUpdate key) Hwf). by repeat case_match.
Qed.
Lemma bot_form_rebase latest e : bot_form_wf e → bot_form_wf (rebase latest e).
Proof using laws. intros (Hl1 & Hl2 & Hl3). unfold bot_form_wf, rebase. simpl. repeat case_match; rewrite ?CharLimit_SetValue; done. Qed.

(** Settings as the server holds them, which the form can show. *)
Definition form_settings (s : BotSettings) : Prop :=
  in_int64 (bs_ChatID s) ∧ (String.length (FormatInt (bs_ChatID s)) ≤ 20)%nat ∧
  Forall (λ text, plain text ∧ TrimSpace text = text ∧ (String.length text ≤ 256)%nat) [bs_Token s; bs_ControlToken s].

(** after the settings changed elsewhere and the form was rebased, a save sends for
    every field what the user typed where they changed it and the latest value where
    they did not, under the latest ETag: neither side's edit is lost. *)
Theorem rebase_merges (e : botConfigEditor) (latest : BotConfigResponse)
    (Hwf : bot_form_wf e) (Hfit : form_settings (bc_Settings latest)) :
  let base := bc_Settings (be_base e) in
  let new := bc_Settings latest in
  let keep (i : Input) (old new : string) := if bool_decide (Value i = old) then new else TrimSpace (Value i) in
  be_etag (rebase latest e) = bc_ETag latest ∧
  (bot_request (rebase latest e)).1 =
    (chat ← (if bool_decide (Value (be_chat e) = FormatInt (bs_ChatID base)) then Some (bs_ChatID new)
             else ParseInt (TrimSpace (Value (be_chat e))));
     Some {| bs_Token := keep (be_token e) (bs_Token base) (bs_Token new); bs_ChatID := chat;
             bs_ControlToken := keep (be_control e) (bs_ControlToken base) (bs_ControlToken new) |}) ∧
  (bot_dirty e = false → bot_dirty (rebase latest e) = false).
Proof using laws.
  destruct Hwf as (Hl1 & Hl2 & Hl3), Hfit as (Hchat & Hlen & Htexts). rewrite !Forall_cons in Htexts.
  destruct Htexts as ((Hp1 & Ht1 & Hn1) & (Hp2 & Ht2 & Hn2) & _). intros base new keep.
  assert (Value (SetValue (bs_Token new) (be_token e)) = bs_Token new) as Hv1 by (apply Value_SetValue; [done|right; subst new; lia]).
  assert (Value (SetValue (FormatInt (bs_ChatID new)) (be_chat e)) = FormatInt (bs_ChatID new)) as Hv2
    by (apply Value_SetValue; [apply plain_FormatInt|right; subst new; lia]).
  assert (Value (SetValue (bs_ControlToken new) (be_control e)) = bs_ControlToken new) as Hv3
    by (apply Value_SetValue; [done|right; subst new; lia]).
  split_and!; [done| |].
  - unfold bot_request, rebase, keep. simpl. fold base new.
    assert (∀ i old text, Value (SetValue text i) = text → TrimSpace text = text →
      TrimSpace (Value (if bool_decide (Value i = old) then SetValue text i else i)) = if bool_decide (Value i = old) then text else TrimSpace (Value i))
      as Hkeep by (intros i old text Hv Ht; case_bool_decide; by rewrite ?Hv).
    rewrite !Hkeep by (done || apply TrimSpace_FormatInt). case_bool_decide; [by rewrite ParseInt_FormatInt|by destruct (ParseInt _)].
  - unfold bot_dirty, rebase. simpl. fold base new. intros Hd.
    apply orb_false_iff in Hd as [Hd Hd3]. apply orb_false_iff in Hd as [Hd1 Hd2]. apply negb_false_iff in Hd1, Hd2, Hd3.
    rewrite Hd1, Hd2, Hd3, Hv1, Hv2, Hv3. by rewrite !bool_decide_eq_true_2.
Qed.
End editor_spec.

(** ** Examples *)

(** Inputs that append what is typed. *)
Definition simple_inputs : TextInput := {|
  Input := string * Z;
  NewInput := ("", 0);
  Value := fst;
  CharLimit := snd;
  SetValue s i := (if 0 <? i.2 then of_list (take (Z.to_nat i.2) (to_list s)) else s, i.2);
  SetCharLimit n i := (i.1, n);
  Focus i := i;
  Blur i := i;
  CursorEnd i := i;
  InputUpdate key i :=
    if bool_decide (key = "backspace") then (of_list (removelast (to_list i.1)), i.2)
    else if (String.length key =? 1)%nat && ((i.2 <=? 0) || (Z.of_nat (String.length i.1) <? i.2)) then (i.1 +:+ key, i.2)
    else i
|}.
Lemma simple_laws : @InputLaws simple_inputs.
Proof.
  split; try done.
  - intros key [s n]. simpl. by repeat case_match.
  - intros s [v n] Hp Hn. simpl in *. destruct (Z.ltb_spec 0 n); [|done].
    rewrite take_ge; [apply of_to_list|]. rewrite length_list_ascii. lia.
Qed.

Definition demo_rule : Rule := {|
  RuleID := "web"; Name := "Web"; Proto := "tcp"; ListenAddr := "0.0.0.0"; ListenPort := 8080; TargetAddr := "10.0.0.2"; TargetPort := 80;
  Enabled := true; SpeedLimit := 0; Bandwidth := Some {| bw_rate := 12500000; bw_upload := 0; bw_download := 0 |};
  Quota := Some {| q_daily := 1500000000; q_monthly := 0; q_timezone := "UTC"; q_action := "block" |}; MaxConn := 64; IdleTimeout := 30;
  SourceIPMode := "allowlist"; SourceIPs := ["10.0.0.0/8"; "192.0.2.7"]; Domains := []; Remark := "main site"; Revision := 3;
  CreatedTime := 100; UpdatedTime := 200 |}.

Lemma demo_form : @form_rule utc_database demo_rule.
Proof.
  constructor.
  - by vm_compute.
  - apply validate_standardized_iff. by vm_compute.
  - repeat constructor; by vm_compute.
  - intros q [= <-]. by vm_compute.
  - repeat constructor; by vm_compute.
  - intros b [= <-]. repeat constructor; by vm_compute.
  - intros q [= <-]. repeat constructor; by vm_compute.
  - repeat constructor; by vm_compute.
Qed.

Lemma unchanged_form_witness :
  @form_rule utc_database demo_rule ∧
  ∃ e, @editor_rule simple_inputs utc_database (@newRuleEditor simple_inputs editorEdit demo_rule [demo_rule] English) = (demo_rule, true, e) ∧
    RuntimeEqual demo_rule demo_rule = true.
Proof.
  split; [apply demo_form|]. apply (@unchanged_form_keeps_rule simple_inputs utc_database simple_laws editorEdit demo_rule [demo_rule] English demo_form).
Defined.

(** A rule whose mode is spelt "off" is changed by opening and saving its form. *)
Example off_form_makes_change :
  let r := {| RuleID := "web"; Name := "Web"; Proto := "tcp"; ListenAddr := "0.0.0.0"; ListenPort := 8080; TargetAddr := "10.0.0.2"; TargetPort := 80;
    Enabled := true; SpeedLimit := 0; Bandwidth := None; Quota := None; MaxConn := 0; IdleTimeout := 0; SourceIPMode := "off";
    SourceIPs := []; Domains := []; Remark := ""; Revision := 1; CreatedTime := 100; UpdatedTime := 100 |} in
  standard r ∧
  let '(saved, accepted, _) := @editor_rule simple_inputs utc_database (@newRuleEditor simple_inputs editorEdit r [r] English) in
  accepted = true ∧ saved ≠ r.
Proof. cbv zeta. split; [by vm_compute|]. vm_compute. by split. Qed.

Definition demo_bot (token control : string) (chat : Z) (etag : string) : BotConfigResponse :=
  {| bc_Revision := etag; bc_Settings := {| bs_Token := token; bs_ChatID := chat; bs_ControlToken := control |}; bc_Running := true; bc_ETag := etag |}.

Lemma rebase_merges_witness :
  let e := @bot_editor_update simple_inputs "9" (@newBotConfigEditor simple_inputs (demo_bot "t1" "c1" 5 "e1")) in
  (@bot_form_wf simple_inputs e ∧ form_settings (bc_Settings (demo_bot "t1" "c2" 7 "e2"))) ∧
  (@bot_request simple_inputs (@rebase simple_inputs (demo_bot "t1" "c2" 7 "e2") e)).1
    = Some {| bs_Token := "t19"; bs_ChatID := 7; bs_ControlToken := "c2" |}.
Proof.
  cbv zeta. set (e := @bot_editor_update simple_inputs "9" _).
  assert (@bot_form_wf simple_inputs e) as Hwf by apply (@bot_form_update simple_inputs simple_laws), (@bot_form_new simple_inputs simple_laws).
  assert (form_settings (bc_Settings (demo_bot "t1" "c2" 7 "e2"))) as Hfit.
  { split; [by vm_compute|]. split; [vm_compute; lia|]. repeat constructor; vm_compute; done || lia. }
  split; [done|]. destruct (@rebase_merges simple_inputs simple_laws e (demo_bot "t1" "c2" 7 "e2") Hwf Hfit) as (_ & -> & _). by vm_compute.
Defined.
