(* ===== verification/Tui.v ===== *)
(** * The state machine of the terminal interface (tui/model.go, management.go, service_recovery.go)

    [update] takes a message (a key, the answer of a call, a timer) to the next model
    and the commands to run; a command ends with one message.  A status is the key of
    its text in the catalogue, without arguments.  What only the drawing reads is left
    out: scroll offsets, rates and their history, the spinner.  The number of rows a
    page shows comes from the layout (view.go) and is an argument of a key. *)

From S2P Require Import Prelude GoStrings Calendar NetIP Limits Rule Config GoText Stats Quota Manager Precheck Management FileIO ControlClient.
From S2P Require Import TuiEditor.

(** ** Modes *)

Inductive viewMode :=
| viewDashboard | viewRules | viewDetail | viewEditor | viewPrecheck | viewApplyResult | viewBotConfig | viewBotEditor.
Inductive overlayMode :=
| overlayNone | overlayHelp | overlayLanguage | overlayReload | overlayDelete | overlayApply | overlayDiscardDraft | overlayQuitDirty
| overlayCancelEditor | overlayUDPSettings | overlayBotStop | overlayCancelBotEditor | overlayStartService | overlayElevateService.
Inductive operationState := operationIdle | operationPrechecking | operationApplying | operationReloading.
Inductive botOperationState :=
| botOperationIdle | botOperationFetching | botOperationSaving | botOperationStarting | botOperationStopping.
Inductive syncState := syncUnavailable | syncClean | syncDirty | syncValidated | syncStale.
Inductive sortKey := sortName | sortConns | sortUpload | sortDownload.
Inductive serviceRecoveryState :=
| serviceRecoveryDisabled | serviceRecoveryIdle | serviceRecoveryChecking | serviceRecoveryStopped | serviceRecoveryNotInstalled
| serviceRecoveryRunning | serviceRecoveryStarting | serviceRecoveryWaiting | serviceRecoveryFailed.

#[export] Instance viewMode_eq_dec : EqDecision viewMode.
Proof. solve_decision. Defined.
#[export] Instance overlayMode_eq_dec : EqDecision overlayMode.
Proof. solve_decision. Defined.
#[export] Instance operationState_eq_dec : EqDecision operationState.
Proof. solve_decision. Defined.
#[export] Instance botOperationState_eq_dec : EqDecision botOperationState.
Proof. solve_decision. Defined.
#[export] Instance syncState_eq_dec : EqDecision syncState.
Proof. solve_decision. Defined.
#[export] Instance sortKey_eq_dec : EqDecision sortKey.
Proof. solve_decision. Defined.
#[export] Instance serviceRecoveryState_eq_dec : EqDecision serviceRecoveryState.
Proof. solve_decision. Defined.

(** ** Service recovery: the native service manager *)

Inductive ServiceError := ErrServiceNotInstalled | ErrServicePrivilegesRequired | OtherServiceError (text : string).
#[export] Instance ServiceError_eq_dec : EqDecision ServiceError.
Proof. solve_decision. Defined.

Record ServiceSummary := { ss_Installed : bool; ss_Running : bool; ss_Enabled : bool; ss_State : string; ss_Detail : string }.
Definition no_summary (state : string) : ServiceSummary :=
  {| ss_Installed := false; ss_Running := false; ss_Enabled := false; ss_State := state; ss_Detail := "" |}.
(** Which functions of the controller are set. *)
Record ServiceController := { sc_Inspect : bool; sc_Start : bool; sc_ElevatedStartCommand : bool }.

(** In seconds. *)
Definition serviceReconnectTimeout : Z := 10.

(** ** Messages and commands *)

Notation StatsItems := (list (TrafficSnapshot * option TrafficQuotaSnapshot)).

(** The rows of a page, and what [ElevatedStartCommand] answers. *)
Record KeyEnv := { ke_page : Z; ke_elevated : result ServiceError () }.

Inductive Msg :=
| TickMsg
| StatsMsg (requestID : Z) (resp : result ClientError StatsItems)
| RulesMsg (requestID : Z) (resp : result ClientError (list Rule))
| SessionMsg (requestID : Z) (resp : result ClientError SessionResponse)
| ConfigRulesMsg (requestID : Z) (resp : result ClientError ConfigRulesResponse)
| BotConfigMsg (requestID : Z) (operation : botOperationState) (resp : result ClientError BotConfigResponse)
| BotActionMsg (requestID : Z) (operation : botOperationState) (action : string) (err : option ClientError)
| PrecheckMsg (resp : result ClientError PrecheckResponse)
| ApplyMsg (resp : result ClientError ApplyResponse)
| ReloadMsg (resp : result ClientError Z)
| ServiceInspectMsg (requestID : Z) (resp : result ServiceError ServiceSummary)
| ServiceStartMsg (requestID : Z) (elevated : bool) (err : option ServiceError) (now : Z)
| ServiceReconnectMsg (requestID now : Z)
| KeyMsg (key : string) (env : KeyEnv)
| WheelMsg (up : bool)
| WindowSizeMsg (width height : Z).

Inductive Cmd :=
| TickCmd (interval : Z)
| FetchStatsCmd (requestID : Z) | FetchRulesCmd (requestID : Z) | FetchSessionCmd (requestID : Z)
| FetchConfigRulesCmd (requestID : Z) | FetchBotConfigCmd (requestID : Z)
| StartBotCmd (requestID : Z) | StopBotCmd (requestID : Z) | ApplyBotConfigCmd (requestID : Z) (etag : string) (req : BotSettings)
| PrecheckCmd (etag : string) (draft : ConfigRulesRequest) | ApplyCmd (etag : string) (draft : ConfigRulesRequest) | ReloadCmd
| InspectServiceCmd (requestID : Z) | StartServiceCmd (requestID : Z) | ElevatedStartCmd (requestID : Z) | ServiceReconnectCmd (requestID : Z)
| QuitCmd.

(** ** Drafts *)

Record draftConfig := {
  d_BaseRevision : string; d_BaseETag : string; d_UDPMaxSessions : Z; d_Rules : list Rule; d_Deleted : gmap string Rule
}.
#[export] Instance draftConfig_eta : Settable draftConfig := λ d, {|
  d_BaseRevision := d_BaseRevision d; d_BaseETag := d_BaseETag d; d_UDPMaxSessions := d_UDPMaxSessions d; d_Rules := d_Rules d;
  d_Deleted := d_Deleted d |}.
Definition draft_request (d : draftConfig) : ConfigRulesRequest :=
  {| cq_UDPMaxSessions := d_UDPMaxSessions d; cq_Rules := d_Rules d |}.

Record localRuleDiff := { ld_Added : list string; ld_Updated : list string; ld_Enabled : list string; ld_Disabled : list string; ld_Deleted : list string }.
Definition changeCount (diff : localRuleDiff) : Z :=
  Z.of_nat (length (ld_Added diff) + length (ld_Updated diff) + length (ld_Enabled diff) + length (ld_Disabled diff) + length (ld_Deleted diff)).

(** [findRule] on a slice. *)
Definition findRule (rules : list Rule) (id : string) : option Rule := snd <$> list_find (λ r, RuleID r = id) rules.
(** [base[rule.RuleID] = rule] over a slice: the last one wins. *)
Definition rules_by_id (rules : list Rule) : gmap string Rule := foldl (λ m r, <[RuleID r := r]> m) ∅ rules.

(** ** What the filter looks at ([safeText], [formatEndpoint] of view.go) *)

(** [ansi.Strip]. *)
Class Ansi := { Strip : string → string }.

Definition is_control (r : list ascii) : bool :=
  match r with
  | [c] => (code c <? 32)%nat || (code c =? 127)%nat
  | [c; d] => (code c =? 194)%nat && in_range 128 159 d
  | _ => false
  end.
Definition line_runes : list (list ascii) :=
  [[byte 10]; [byte 13]; [byte 9]; [byte 226; byte 128; byte 168]; [byte 226; byte 128; byte 169]].
Definition safe_rune (r : list ascii) : list ascii :=
  if bool_decide (r ∈ line_runes) then [" "%char] else if is_control r then [] else r.

Definition strCompare (a b : string) : Z := match String.compare a b with Lt => -1 | Eq => 0 | Gt => 1 end.
Definition compareInt64 (left right : Z) : Z := if left <? right then -1 else if right <? left then 1 else 0.

Section tui.
Context {inputs : TextInput} {ansi : Ansi} `{!TzDatabase}.

Definition safeText (value : string) : string := of_runes (safe_rune <$> runes (Strip value)).
Definition formatEndpoint (host : string) (port : Z) : string := JoinHostPort (TrimSpace (safeText host)) (FormatInt port).

(** ** The model *)

Record Model := {
  ui_locale : string;
  (* monitoring *)
  ui_stats : option StatsItems; ui_rules : option (list Rule);
  (* configuration management *)
  ui_session : option SessionResponse; ui_config : option ConfigRulesResponse; ui_draft : option draftConfig;
  ui_precheckResult : option PrecheckResponse; ui_applyResult : option ApplyResponse;
  ui_botConfig : option BotConfigResponse; ui_botEditor : option botConfigEditor; ui_botConfigErr : option ClientError;
  ui_botRebasePending : bool; ui_botReconcileAction : string;
  ui_editor : option ruleEditor; ui_transientDraft : bool; ui_remoteRevision : string;
  ui_configErr : option ClientError; ui_sessionErr : option ClientError; ui_connectionErr : option ClientError; ui_rulesErr : option ClientError;
  ui_sync : syncState; ui_operation : operationState; ui_botOperation : botOperationState; ui_overlay : overlayMode; ui_resultSelected : Z;
  (* lists and inputs *)
  ui_view : viewMode; ui_selectedRuleID : string; ui_sort : sortKey; ui_sortDesc : bool; ui_paused : bool; ui_filterActive : bool;
  ui_filterInput : Input; ui_udpInput : Input; ui_udpInputError : string; ui_statusText : string;
  (* request generations *)
  ui_statsRequestID : Z; ui_rulesRequestID : Z; ui_sessionRequestID : Z; ui_configRequestID : Z; ui_lastConfigResponseID : Z;
  ui_configBarrierID : Z; ui_botRequestID : Z; ui_serviceRequestID : Z;
  (* service recovery *)
  ui_serviceController : option ServiceController; ui_serviceState : serviceRecoveryState; ui_serviceSummary : ServiceSummary;
  ui_serviceErr : option ServiceError; ui_serviceReconnectDeadline : option Z;
  ui_width : Z; ui_height : Z; ui_refreshInterval : Z
}.
#[export] Instance Model_eta : Settable Model := λ m, {|
  ui_locale := ui_locale m; ui_stats := ui_stats m; ui_rules := ui_rules m; ui_session := ui_session m; ui_config := ui_config m;
  ui_draft := ui_draft m; ui_precheckResult := ui_precheckResult m; ui_applyResult := ui_applyResult m; ui_botConfig := ui_botConfig m;
  ui_botEditor := ui_botEditor m; ui_botConfigErr := ui_botConfigErr m; ui_botRebasePending := ui_botRebasePending m;
  ui_botReconcileAction := ui_botReconcileAction m; ui_editor := ui_editor m; ui_transientDraft := ui_transientDraft m;
  ui_remoteRevision := ui_remoteRevision m; ui_configErr := ui_configErr m; ui_sessionErr := ui_sessionErr m;
  ui_connectionErr := ui_connectionErr m; ui_rulesErr := ui_rulesErr m; ui_sync := ui_sync m; ui_operation := ui_operation m;
  ui_botOperation := ui_botOperation m; ui_overlay := ui_overlay m; ui_resultSelected := ui_resultSelected m; ui_view := ui_view m;
  ui_selectedRuleID := ui_selectedRuleID m; ui_sort := ui_sort m; ui_sortDesc := ui_sortDesc m; ui_paused := ui_paused m;
  ui_filterActive := ui_filterActive m; ui_filterInput := ui_filterInput m; ui_udpInput := ui_udpInput m;
  ui_udpInputError := ui_udpInputError m; ui_statusText := ui_statusText m; ui_statsRequestID := ui_statsRequestID m;
  ui_rulesRequestID := ui_rulesRequestID m; ui_sessionRequestID := ui_sessionRequestID m; ui_configRequestID := ui_configRequestID m;
  ui_lastConfigResponseID := ui_lastConfigResponseID m; ui_configBarrierID := ui_configBarrierID m; ui_botRequestID := ui_botRequestID m;
  ui_serviceRequestID := ui_serviceRequestID m; ui_serviceController := ui_serviceController m; ui_serviceState := ui_serviceState m;
  ui_serviceSummary := ui_serviceSummary m; ui_serviceErr := ui_serviceErr m; ui_serviceReconnectDeadline := ui_serviceReconnectDeadline m;
  ui_width := ui_width m; ui_height := ui_height m; ui_refreshInterval := ui_refreshInterval m |}.

(** [newModelWithOptions]. *)
Definition newModel (locale : string) (controller : option ServiceController) : Model := {|
  ui_locale := locale; ui_stats := None; ui_rules := None; ui_session := None; ui_config := None; ui_draft := None;
  ui_precheckResult := None; ui_applyResult := None; ui_botConfig := None; ui_botEditor := None; ui_botConfigErr := None;
  ui_botRebasePending := false; ui_botReconcileAction := ""; ui_editor := None; ui_transientDraft := false; ui_remoteRevision := "";
  ui_configErr := None; ui_sessionErr := None; ui_connectionErr := None; ui_rulesErr := None; ui_sync := syncUnavailable;
  ui_operation := operationIdle; ui_botOperation := botOperationIdle; ui_overlay := overlayNone; ui_resultSelected := 0;
  ui_view := viewDashboard; ui_selectedRuleID := ""; ui_sort := sortName; ui_sortDesc := false; ui_paused := false;
  ui_filterActive := false; ui_filterInput := SetCharLimit 80 NewInput; ui_udpInput := SetCharLimit 5 NewInput; ui_udpInputError := "";
  ui_statusText := ""; ui_statsRequestID := 1; ui_rulesRequestID := 1; ui_sessionRequestID := 1; ui_configRequestID := 1;
  ui_lastConfigResponseID := 0; ui_configBarrierID := 0; ui_botRequestID := 0; ui_serviceRequestID := 0; ui_serviceController := controller;
  ui_serviceState := match controller with Some _ => serviceRecoveryIdle | None => serviceRecoveryDisabled end;
  ui_serviceSummary := no_summary ""; ui_serviceErr := None; ui_serviceReconnectDeadline := None; ui_width := 0; ui_height := 0;
  ui_refreshInterval := 3 |}.
Definition Init (m : Model) : list Cmd :=
  [FetchStatsCmd (ui_statsRequestID m); FetchRulesCmd (ui_rulesRequestID m); FetchSessionCmd (ui_sessionRequestID m);
   FetchConfigRulesCmd (ui_configRequestID m); TickCmd (ui_refreshInterval m)].

Definition setStatus (key : string) (m : Model) : Model := m <| ui_statusText := key |>.

(** ** What the lists show *)

Definition isDeleted (id : string) (m : Model) : bool :=
  match ui_draft m with Some d => bool_decide (is_Some (d_Deleted d !! id)) | None => false end.
Definition baselineRule (id : string) (m : Model) : option Rule := config ← ui_config m; findRule (cr_Rules config) id.
Definition runtimeRule (id : string) (m : Model) : option Rule := rules ← ui_rules m; findRule rules id.

(** The rules of the configuration with their edits, staged deletions in place, then the new ones. *)
Definition draftDisplayRules (m : Model) (d : draftConfig) : list Rule :=
  let current := rules_by_id (d_Rules d) in
  let baseline := match ui_config m with Some c => cr_Rules c | None => [] end in
  let shown r := match current !! RuleID r with Some rule => Some rule | None => d_Deleted d !! RuleID r end in
  let result := omap shown baseline in
  let seen : gset string := list_to_set (RuleID <$> result) in
  result ++ filter (λ r, RuleID r ∉ seen) (d_Rules d).
Definition displayRules (m : Model) : list Rule :=
  match ui_draft m, ui_config m, ui_rules m with
  | Some d, _, _ => draftDisplayRules m d
  | None, Some config, _ => cr_Rules config
  | None, None, Some rules => rules
  | None, None, None => []
  end.
Definition editableRules (m : Model) : list Rule :=
  match ui_draft m, ui_config m with
  | Some d, _ => d_Rules d
  | None, Some config => cr_Rules config
  | None, None => []
  end.

Definition searchable (r : Rule) : string :=
  let newline := of_list [byte 10] in
  Name r +:+ newline +:+ RuleID r +:+ newline +:+ formatEndpoint (ListenAddr r) (ListenPort r) +:+ newline
  +:+ formatEndpoint (TargetAddr r) (TargetPort r) +:+ newline +:+ Remark r.
Definition filteredRules (m : Model) : list Rule :=
  let text := ToLower (TrimSpace (Value (ui_filterInput m))) in
  if bool_decide (text = "") then displayRules m
  else filter (λ r, StrContains (ToLower (searchable r)) text = true) (displayRules m).

Definition statsMap (m : Model) : gmap string TrafficSnapshot :=
  foldl (λ acc s, <[s_RuleID s.1 := s.1]> acc) ∅ (default [] (ui_stats m)).
(** The comparison of [sortedRules]; a rule without a snapshot counts as zero. *)
Definition rule_comparison (m : Model) (left right : Rule) : Z :=
  let stats := statsMap m in
  let number part := compareInt64 (default 0 (part <$> stats !! RuleID left)) (default 0 (part <$> stats !! RuleID right)) in
  let comparison := match ui_sort m with
    | sortConns => number s_Conns
    | sortUpload => number s_UploadBytes
    | sortDownload => number s_DownloadBytes
    | sortName => strCompare (ToLower (Name left)) (ToLower (Name right))
    end in
  if comparison =? 0 then strCompare (RuleID left) (RuleID right) else comparison.
Definition rule_less (m : Model) (left right : Rule) : bool :=
  let comparison := rule_comparison m left right in
  if ui_sortDesc m then 0 <? comparison else comparison <? 0.
Definition sortedRules (m : Model) : list Rule := sort_stable (λ a b, negb (rule_less m b a)) (filteredRules m).

Definition selectedRule (m : Model) : option Rule :=
  let rules := sortedRules m in
  match findRule rules (ui_selectedRuleID m) with Some rule => Some rule | None => head rules end.
Definition selectedIndex (m : Model) : Z :=
  match list_find (λ r, RuleID r = ui_selectedRuleID m) (sortedRules m) with Some (i, _) => Z.of_nat i | None => 0 end.
Definition reconcileSelection (m : Model) : Model :=
  match sortedRules m with
  | [] => m <| ui_selectedRuleID := "" |>
  | first :: _ as rules =>
      match findRule rules (ui_selectedRuleID m) with
      | Some _ => m
      | None => m <| ui_selectedRuleID := RuleID first |>
      end
  end.
Definition clamp (n low high : Z) : Z := Z.max low (Z.min n high).
Definition selectRuleAt (index : Z) (m : Model) : Model :=
  let rules := sortedRules m in
  match rules with
  | [] => m <| ui_selectedRuleID := "" |>
  | _ =>
      match rules !! Z.to_nat (clamp index 0 (Z.of_nat (length rules) - 1)) with
      | Some rule => m <| ui_selectedRuleID := RuleID rule |>
      | None => m
      end
  end.
Definition moveSelection (delta : Z) (m : Model) : Model := selectRuleAt (selectedIndex m + delta) m.
Definition cycleSort (m : Model) : Model :=
  let next := match ui_sort m with sortName => sortConns | sortConns => sortUpload | sortUpload => sortDownload | sortDownload => sortName end in
  reconcileSelection (m <| ui_sort := next |> <| ui_sortDesc := negb (bool_decide (next = sortName)) |>).

(** ** Differences shown *)

Definition localDiff (m : Model) : localRuleDiff :=
  match ui_draft m, ui_config m with
  | Some d, Some config =>
      let base := rules_by_id (cr_Rules config) in
      let next := rules_by_id (d_Rules d) in
      let changed r := match base !! RuleID r with Some previous => negb (bool_decide (previous = r)) | None => false end in
      let toggled r := match base !! RuleID r with
        | Some previous => changed r && bool_decide (with_enabled (Enabled r) previous = r) | None => false end in
      {| ld_Added := RuleID <$> filter (λ r, base !! RuleID r = None) (d_Rules d);
         ld_Updated := RuleID <$> filter (λ r, changed r = true ∧ toggled r = false) (d_Rules d);
         ld_Enabled := RuleID <$> filter (λ r, toggled r = true ∧ Enabled r = true) (d_Rules d);
         ld_Disabled := RuleID <$> filter (λ r, toggled r = true ∧ Enabled r = false) (d_Rules d);
         ld_Deleted := RuleID <$> filter (λ r, next !! RuleID r = None) (cr_Rules config) |}
  | _, _ => {| ld_Added := []; ld_Updated := []; ld_Enabled := []; ld_Disabled := []; ld_Deleted := [] |}
  end.
Definition dirtyChangeCount (m : Model) : Z :=
  match ui_draft m with
  | None => 0
  | Some d =>
      changeCount (localDiff m) +
      match ui_config m with Some config => if d_UDPMaxSessions d =? cr_UDPMaxSessions config then 0 else 1 | None => 0 end
  end.

(** The mark next to a rule. *)
Definition ruleChange (id : string) (m : Model) : string :=
  match ui_draft m, ui_config m with
  | Some d, Some config =>
      if bool_decide (is_Some (d_Deleted d !! id)) then "tui.change.delete"
      else match findRule (d_Rules d) id, findRule (cr_Rules config) id with
        | None, _ => ""
        | Some _, None => "tui.change.add"
        | Some current, Some baseline =>
            if bool_decide (baseline = current) then ""
            else if bool_decide (with_enabled (Enabled current) baseline = current) then "tui.change.toggle" else "tui.change.edit"
        end
  | _, _ => ""
  end.

(** The state next to a rule: the configuration against what runs. *)
Definition ruleState (rule : Rule) (m : Model) : string :=
  if bool_decide (is_Some (ui_rulesErr m)) then "tui.state.unknown" else
  match ui_rules m, baselineRule (RuleID rule) m, runtimeRule (RuleID rule) m with
  | None, Some baseline, _ => if Enabled baseline then "tui.state.pending" else "tui.state.disabled"
  | None, None, _ => if Enabled rule then "tui.state.pending" else "tui.state.disabled"
  | Some _, None, running =>
      match ui_config m, running with
      | None, Some running => if RuntimeEqual running rule then "tui.state.running" else "tui.state.drift"
      | Some _, Some _ => "tui.state.drift"
      | _, None => if Enabled rule then "tui.state.pending" else "tui.state.disabled"
      end
  | Some _, Some baseline, None => if Enabled baseline then "tui.state.error" else "tui.state.disabled"
  | Some _, Some baseline, Some running =>
      if negb (Enabled baseline) then "tui.state.drift"
      else if RuntimeEqual running baseline then "tui.state.running" else "tui.state.drift"
  end.

(** ** Drafts: taking a configuration in, opening and closing a draft *)

Definition canWrite (m : Model) : bool :=
  match ui_session m, ui_config m with Some session, Some config => sn_RulesWrite session && cr_Writable config | _, _ => false end.
Definition canReload (m : Model) : bool :=
  match ui_session m with Some session => EqualFold (TrimSpace (sn_Role session)) "admin" | None => false end.
Definition writeDeniedReason (m : Model) : string :=
  match ui_session m with
  | None => if bool_decide (is_Some (ui_sessionErr m)) then "tui.write_denied.management_error" else "tui.write_denied.session_not_loaded"
  | Some session =>
      if negb (sn_RulesWrite session) then
        if EqualFold (TrimSpace (sn_Role session)) "admin" then "tui.write_denied.auth_admin_required" else "tui.write_denied.admin_required"
      else match ui_config m with
        | None => "tui.write_denied.config_not_loaded"
        | Some config => if cr_Writable config then "tui.write_denied.unavailable" else "tui.write_denied.config_read_only"
        end
  end.

Definition acceptConfig (next : ConfigRulesResponse) (m : Model) : Model :=
  match ui_draft m with
  | Some d =>
      if negb (bool_decide (cr_Revision next = d_BaseRevision d)) then
        setStatus "tui.status.server_changed_draft_retained"
          (m <| ui_remoteRevision := cr_Revision next |> <| ui_sync := syncStale |>)
      else
        let m := m <| ui_config := Some next |> in
        if bool_decide (ui_sync m = syncStale) then
          setStatus "tui.status.config_reconciled"
            (m <| ui_remoteRevision := "" |> <| ui_precheckResult := None |> <| ui_sync := syncDirty |>)
        else m
  | None => reconcileSelection (m <| ui_config := Some next |> <| ui_remoteRevision := "" |> <| ui_sync := syncClean |>)
  end.

Definition new_draft (config : ConfigRulesResponse) : draftConfig :=
  {| d_BaseRevision := cr_Revision config; d_BaseETag := cr_ETag config; d_UDPMaxSessions := cr_UDPMaxSessions config;
     d_Rules := cr_Rules config; d_Deleted := ∅ |}.
(** Whether there is a draft afterwards. *)
Definition ensureDraft (m : Model) : bool * Model :=
  match ui_draft m with
  | Some _ => (true, m)
  | None =>
      match ui_config m with
      | Some config => if canWrite m then (true, m <| ui_draft := Some (new_draft config) |>) else (false, setStatus (writeDeniedReason m) m)
      | None => (false, setStatus (writeDeniedReason m) m)
      end
  end.
(** [m.draft.Rules = ...] and the like. *)
Definition modify_draft (f : draftConfig → draftConfig) (m : Model) : Model := m <| ui_draft := f <$> ui_draft m |>.

Definition refreshDraftState (m : Model) : Model :=
  let m := m <| ui_precheckResult := None |> <| ui_applyResult := None |> in
  match ui_draft m with
  | None => m <| ui_sync := syncClean |>
  | Some d =>
      let stale := bool_decide (ui_sync m = syncStale) in
      let same := match ui_config m with
        | Some config => (d_UDPMaxSessions d =? cr_UDPMaxSessions config) && bool_decide (d_Rules d = cr_Rules config)
        | None => false end in
      if negb stale && same then
        reconcileSelection (m <| ui_draft := None |> <| ui_sync := syncClean |> <| ui_remoteRevision := "" |>)
      else reconcileSelection (if stale then m else m <| ui_sync := syncDirty |>)
  end.

Definition beginTransientDraft (m : Model) : Model :=
  match ui_draft m with
  | Some _ => m <| ui_transientDraft := false |>
  | None => let '(ok, m) := ensureDraft m in if ok then m <| ui_transientDraft := true |> else m
  end.

Definition prepareWrite (m : Model) : bool * Model :=
  if negb (bool_decide (ui_operation m = operationIdle)) then (false, setStatus "tui.status.wait_operation" m)
  else if negb (ui_configBarrierID m =? 0) then (false, setStatus "tui.status.wait_config_refresh" m)
  else if bool_decide (ui_sync m = syncStale) then (false, setStatus "tui.status.stale_draft_before_edit" m)
  else if negb (canWrite m) then (false, setStatus (writeDeniedReason m) m)
  else (true, m).

Definition settled_sync (m : Model) : syncState := match ui_config m with Some _ => syncClean | None => syncUnavailable end.
Definition discardDraft (m : Model) : Model :=
  let m := m <| ui_draft := None |> <| ui_precheckResult := None |> <| ui_applyResult := None |> <| ui_remoteRevision := "" |>
             <| ui_transientDraft := false |> in
  setStatus "tui.status.draft_discarded" (reconcileSelection (m <| ui_sync := settled_sync m |> <| ui_view := viewRules |>)).

(** ** Requests *)

Definition beginStatsRequest (m : Model) : Z * Model := (ui_statsRequestID m + 1, m <| ui_statsRequestID := ui_statsRequestID m + 1 |>).
Definition beginRulesRequest (m : Model) : Z * Model := (ui_rulesRequestID m + 1, m <| ui_rulesRequestID := ui_rulesRequestID m + 1 |>).
Definition beginSessionRequest (m : Model) : Z * Model :=
  (ui_sessionRequestID m + 1, m <| ui_sessionRequestID := ui_sessionRequestID m + 1 |>).
Definition beginConfigRequest (m : Model) : Z * Model := (ui_configRequestID m + 1, m <| ui_configRequestID := ui_configRequestID m + 1 |>).
Definition beginBotOperation (operation : botOperationState) (m : Model) : Z * Model :=
  (ui_botRequestID m + 1, m <| ui_botRequestID := ui_botRequestID m + 1 |> <| ui_botOperation := operation |>).
(** Answers to older requests for the configuration no longer count. *)
Definition beginConfigBarrier (m : Model) : Z * Model :=
  let '(id, m) := beginConfigRequest m in
  (id, m <| ui_lastConfigResponseID := id |> <| ui_configBarrierID := id |>).
Definition beginServiceRequest (m : Model) : Z * Model :=
  (ui_serviceRequestID m + 1, m <| ui_serviceRequestID := ui_serviceRequestID m + 1 |>).

(** Statistics and rules; then a fetch of the configuration. *)
Definition fetch_runtime (m : Model) : list Cmd * Model :=
  let '(stats, m) := beginStatsRequest m in
  let '(rules, m) := beginRulesRequest m in
  ([FetchStatsCmd stats; FetchRulesCmd rules], m).
Definition refreshCommands (m : Model) : list Cmd * Model :=
  let '(commands, m) := fetch_runtime m in
  let '(session, m) := beginSessionRequest m in
  let '(config, m) := beginConfigRequest m in
  (commands ++ [FetchSessionCmd session; FetchConfigRulesCmd config], m).
Definition fetch_bot (m : Model) : list Cmd * Model :=
  let '(id, m) := beginBotOperation botOperationFetching m in ([FetchBotConfigCmd id], m).
(** The bot and, past a barrier, the configuration. *)
Definition refetch_bot (m : Model) : list Cmd * Model :=
  let '(commands, m) := fetch_bot m in
  let '(id, m) := beginConfigBarrier m in (commands ++ [FetchConfigRulesCmd id], m).

Definition cancelTransientDraft (m : Model) : Model * list Cmd :=
  if negb (ui_transientDraft m) then (m, []) else
  let wasStale := bool_decide (ui_sync m = syncStale) in
  let m := m <| ui_draft := None |> <| ui_transientDraft := false |> <| ui_remoteRevision := "" |> in
  let m := m <| ui_sync := settled_sync m |> in
  if negb wasStale then (m, []) else
  let '(id, m) := beginConfigBarrier (setStatus "tui.status.draft_discarded_refreshing" (m <| ui_sync := syncUnavailable |>)) in
  (m, [FetchConfigRulesCmd id]).

(** ** Staging changes *)

(** Change the first rule with this id. *)
Fixpoint update_rule (id : string) (f : Rule → Rule) (rules : list Rule) : list Rule :=
  match rules with
  | [] => []
  | r :: rules => if bool_decide (RuleID r = id) then f r :: rules else r :: update_rule id f rules
  end.

Definition stageEditorRule (rule : Rule) (m : Model) : Model :=
  match ui_editor m with
  | None => m
  | Some editor =>
      let '(ok, m) := ensureDraft m in
      if negb ok then m else
      let stage rules := match re_kind editor with
        | editorEdit => update_rule (re_originalID editor) (λ _, rule) rules
        | _ => rules ++ [rule] end in
      let m := modify_draft (λ d, d <| d_Rules := stage (d_Rules d) |>) m in
      setStatus "tui.status.rule_saved_draft" (refreshDraftState
        (m <| ui_selectedRuleID := RuleID rule |> <| ui_transientDraft := false |> <| ui_editor := None |> <| ui_view := viewRules |>))
  end.

Definition stageToggle (m : Model) : Model :=
  match selectedRule m with
  | None => setStatus "tui.status.select_rule" m
  | Some rule =>
      if isDeleted (RuleID rule) m then setStatus "tui.status.rule_staged_deletion" m else
      let '(ok, m) := ensureDraft m in
      if negb ok then setStatus "tui.status.rule_staged_deletion" m else
      match ui_draft m ≫= λ d, findRule (d_Rules d) (RuleID rule) with
      | None => m
      | Some current =>
          setStatus "tui.status.rule_staged_as" (refreshDraftState
            (modify_draft (λ d, d <| d_Rules := update_rule (RuleID rule) (with_enabled (negb (Enabled current))) (d_Rules d) |>) m))
      end
  end.

Definition stageDelete (m : Model) : Model :=
  match selectedRule m with
  | None => m
  | Some rule =>
      let '(ok, m) := ensureDraft m in
      if negb ok then m else
      let mark d := match baselineRule (RuleID rule) m with
        | Some _ => d <| d_Deleted := <[RuleID rule := rule]> (d_Deleted d) |>
        | None => d end in
      setStatus "tui.status.rule_staged_deletion" (refreshDraftState
        (modify_draft (λ d, mark (d <| d_Rules := filter (λ r, RuleID r ≠ RuleID rule) (d_Rules d) |>)) m))
  end.

Definition openUDPSettings (m : Model) : Model :=
  let value := match ui_draft m, ui_config m with
    | Some d, _ => d_UDPMaxSessions d | None, Some config => cr_UDPMaxSessions config | None, None => 0 end in
  m <| ui_udpInput := Focus (CursorEnd (SetValue (FormatInt value) (ui_udpInput m))) |> <| ui_udpInputError := "" |>
    <| ui_overlay := overlayUDPSettings |>.

Definition stageUDPSettings (m : Model) : Model :=
  let invalid := m <| ui_udpInputError := "tui.validation.udp_sessions" |> in
  match ParseInt (TrimSpace (Value (ui_udpInput m))) with
  | None => invalid
  | Some value =>
      if (value <? 0) || (MaxUDPGlobalMaxSessions <? value) then invalid else
      let '(ok, m) := ensureDraft m in
      if negb ok then m else
      let m := modify_draft (λ d, d <| d_UDPMaxSessions := value |>) m in
      setStatus "tui.status.udp_saved_draft" (refreshDraftState
        (m <| ui_transientDraft := false |> <| ui_udpInput := Blur (ui_udpInput m) |> <| ui_overlay := overlayNone |>))
  end.

(** ** Precheck and apply *)

Definition startPrecheck (m : Model) : Model * list Cmd :=
  let '(ok, m) := prepareWrite m in
  if negb ok then (m, []) else
  match ui_draft m with
  | None => (setStatus "tui.status.no_changes_precheck" m, [])
  | Some d =>
      (setStatus "tui.status.prechecking_draft" (m <| ui_operation := operationPrechecking |>), [PrecheckCmd (d_BaseETag d) (draft_request d)])
  end.

Definition handlePrecheckResult (resp : result ClientError PrecheckResponse) (m : Model) : Model :=
  let m := m <| ui_operation := operationIdle |> in
  match resp with
  | Err e =>
      if APIStatus e =? 412 then setStatus "tui.status.precheck_conflict" (m <| ui_sync := syncStale |>)
      else setStatus "tui.status.precheck_failed" m
  | Ok resp =>
      match ui_draft m with
      | None => m
      | Some d =>
          if bool_decide (ui_sync m = syncStale) || negb (bool_decide (ui_remoteRevision m = "")) then setStatus "tui.status.precheck_ignored" m
          else if negb (bool_decide (pc_Revision resp = "")) && negb (bool_decide (pc_Revision resp = d_BaseRevision d)) then
            setStatus "tui.status.precheck_conflict" (m <| ui_remoteRevision := pc_Revision resp |> <| ui_sync := syncStale |>)
          else
            let m := m <| ui_precheckResult := Some resp |> <| ui_resultSelected := 0 |> <| ui_view := viewPrecheck |> in
            if OK (pc_Precheck resp) then setStatus "tui.status.precheck_passed" (m <| ui_sync := syncValidated |>)
            else setStatus "tui.status.precheck_errors" (m <| ui_sync := syncDirty |>)
      end
  end.

(** [rulesApplyUnavailableState]: what a failed apply left behind, when the answer says so. *)
Inductive Uncertain := NotHandled | Handled (message : string) (reconcile committed : bool).
Definition rulesApplyUnavailableState (e : ClientError) : Uncertain :=
  match e with
  | TransportError _ => Handled "tui.status.apply_uncertain" true false
  | APIError status payload =>
      match payload with
      | ConfigPayload (CommittedBody _) => Handled "tui.status.apply_committed_uncertain" true true
      | ConfigPayload (CommitFailedBody _ true) => Handled "tui.status.apply_rolled_back" false false
      | ConfigPayload (CommitFailedBody _ false) => Handled "tui.status.apply_rollback_uncertain" true false
      | _ => if status =? 503 then Handled "tui.status.apply_state_uncertain" true false else NotHandled
      end
  end.
(** [botConfigUnavailableState]; [readiness] is in the message when the new bot did not answer. *)
Definition error_message (e : ClientError) : string :=
  match e with
  | APIError _ (MessagePayload message) | APIError _ (ConfigPayload (MessageBody message)) => message
  | _ => ""
  end.
Definition botConfigUnavailableState (e : ClientError) : string * bool * bool :=
  match e with
  | APIError _ (ConfigPayload (CommittedBody _)) => ("tui.status.bot_config_committed_uncertain", true, true)
  | APIError _ (ConfigPayload (CommitFailedBody _ false)) => ("tui.status.bot_config_rollback_uncertain", true, false)
  | APIError _ _ =>
      if StrContains (ToLower (error_message e)) "readiness" then ("tui.status.bot_readiness_previous_unchanged", false, false)
      else ("tui.status.bot_config_uncertain", true, false)
  | TransportError _ => ("tui.status.bot_config_uncertain", true, false)
  end.

(** A 422 that carries findings. *)
Definition apply_findings (e : ClientError) : option PrecheckResponse :=
  match e with
  | APIError 422 (ConfigPayload (PrecheckBody revision changed diff check)) =>
      if (0 <? ErrorCount check) || negb (bool_decide (length (ResultItems check) = 0%nat))
      then Some {| pc_Revision := revision; pc_UDPMaxSessionsChanged := changed; pc_Diff := diff; pc_Precheck := check |} else None
  | _ => None
  end.

Definition reject_apply (e : ClientError) (m : Model) : Model :=
  let stale := bool_decide (ui_sync m = syncStale) in
  let status := APIStatus e in
  let to_rules m := m <| ui_view := viewRules |> in
  if stale && negb (status =? 412) then to_rules (setStatus "tui.status.apply_failed_after_change" m)
  else if status =? 412 then to_rules (setStatus "tui.status.apply_conflict" (m <| ui_sync := syncStale |>))
  else if status =? 403 then to_rules (setStatus "tui.status.apply_denied" m)
  else if status =? 422 then
    match apply_findings e with
    | Some checked =>
        setStatus "tui.status.apply_new_finding"
          (m <| ui_precheckResult := Some checked |> <| ui_resultSelected := 0 |> <| ui_sync := syncDirty |> <| ui_view := viewPrecheck |>)
    | None => to_rules (setStatus "tui.status.apply_blocked" (m <| ui_sync := syncDirty |>))
    end
  else to_rules (setStatus "tui.status.apply_failed" (if stale then m else m <| ui_sync := syncDirty |>)).

Definition uncertain_apply (message : string) (reconcile committed : bool) (m : Model) : Model * list Cmd :=
  let m := m <| ui_precheckResult := None |> <| ui_applyResult := None |> <| ui_view := viewRules |> in
  let m :=
    if committed then
      reconcileSelection (m <| ui_draft := None |> <| ui_transientDraft := false |> <| ui_remoteRevision := "" |> <| ui_sync := syncUnavailable |>)
    else if reconcile then m <| ui_sync := match ui_draft m with Some _ => syncStale | None => syncUnavailable end |>
    else if bool_decide (ui_sync m = syncStale) then m else m <| ui_sync := syncDirty |> in
  let m := setStatus message m in
  if reconcile then
    let '(id, m) := beginConfigBarrier m in
    let '(commands, m) := fetch_runtime m in
    (m, commands ++ [FetchConfigRulesCmd id])
  else (m, []).

Definition applied (resp : ApplyResponse) (m : Model) : Model * list Cmd :=
  let next := ap_Rules resp in
  let next := match ui_config m with
    | Some config => if cr_Writable next then next else
        {| cr_Revision := cr_Revision next; cr_Writable := cr_Writable config; cr_UDPMaxSessions := cr_UDPMaxSessions next;
           cr_Rules := cr_Rules next; cr_ETag := cr_ETag next |}
    | None => next end in
  let m := m <| ui_applyResult := Some resp |> <| ui_config := Some next |> <| ui_draft := None |> <| ui_precheckResult := None |>
             <| ui_sync := syncClean |> <| ui_remoteRevision := "" |> in
  let '(id, m) := beginConfigRequest m in
  let m := m <| ui_lastConfigResponseID := id |> <| ui_view := viewApplyResult |> <| ui_resultSelected := 0 |> in
  let '(commands, m) := fetch_runtime (setStatus "tui.status.apply_complete" (reconcileSelection m)) in
  (m, commands).

Definition handleApplyResult (resp : result ClientError ApplyResponse) (m : Model) : Model * list Cmd :=
  let m := m <| ui_operation := operationIdle |> in
  match resp with
  | Ok resp => applied resp m
  | Err e =>
      match rulesApplyUnavailableState e with
      | Handled message reconcile committed => uncertain_apply message reconcile committed m
      | NotHandled => (reject_apply e m, [])
      end
  end.

(** ** Keys of the views *)

Definition show_help (m : Model) : Model := m <| ui_overlay := overlayHelp |>.
Definition openLanguageSelector (m : Model) : Model := m <| ui_overlay := overlayLanguage |>.
Definition setLanguage (locale : string) (m : Model) : Model :=
  match MatchLocale locale with
  | None => m
  | Some matched =>
      setStatus "tui.status.language_changed"
        (m <| ui_locale := matched |> <| ui_editor := setTranslator matched <$> ui_editor m |> <| ui_overlay := overlayNone |>)
  end.
Definition quit_or_ask (m : Model) : Model * list Cmd :=
  match ui_draft m with Some _ => (m <| ui_overlay := overlayQuitDirty |>, []) | None => (m, [QuitCmd]) end.

(** *** The rule editor *)

Definition close_editor (m : Model) : Model * list Cmd :=
  match ui_editor m with
  | Some editor =>
      if editor_dirty editor then (m <| ui_overlay := overlayCancelEditor |>, [])
      else cancelTransientDraft (m <| ui_editor := None |> <| ui_view := viewRules |>)
  | None => (m, [])
  end.
Definition handleEditorKey (key : string) (m : Model) : Model * list Cmd :=
  match ui_editor m with
  | None => (m <| ui_view := viewRules |>, [])
  | Some editor =>
      if bool_decide (key = "f1") then (show_help m, [])
      else if bool_decide (key = "f2") then (m <| ui_editor := Some (toggleAdvanced editor) |>, [])
      else if key_in key ["ctrl+c"; "esc"] then close_editor m
      else if bool_decide (key = "ctrl+s") then
        let '(rule, accepted, editor) := editor_rule editor in
        let m := m <| ui_editor := Some editor |> in
        (if accepted then stageEditorRule rule m else setStatus "tui.status.fix_fields" m, [])
      else (m <| ui_editor := Some (editor_update key editor) |>, [])
  end.

Definition open_editor (kind : editorKind) (rule : Rule) (m : Model) : Model :=
  m <| ui_editor := Some (newRuleEditor kind rule (editableRules m) (ui_locale m)) |> <| ui_view := viewEditor |>.
Definition new_rule_defaults (rules : list Rule) : Rule := {|
  RuleID := newRuleID rules; Name := ""; Proto := ProtocolTCP; ListenAddr := "0.0.0.0"; ListenPort := 0; TargetAddr := ""; TargetPort := 0;
  Enabled := true; SpeedLimit := 0; Bandwidth := None; Quota := None; MaxConn := 0; IdleTimeout := 0; SourceIPMode := ""; SourceIPs := [];
  Domains := []; Remark := ""; Revision := 0; CreatedTime := 0; UpdatedTime := 0 |}.

(** *** Managing rules *)

(** [if !m.prepareWrite() { return }]. *)
Definition if_writable (f : Model → Model * list Cmd) (m : Model) : Model * list Cmd :=
  let '(ok, m) := prepareWrite m in if ok then f m else (m, []).
(** The selected rule, unless its deletion is staged. *)
Definition with_selected (deleted : string) (f : Rule → Model → Model) (m : Model) : Model * list Cmd :=
  (match selectedRule m with
   | None => setStatus "tui.status.select_rule" m
   | Some rule => if isDeleted (RuleID rule) m then setStatus deleted m else f rule m
   end, []).

Definition request_apply (m : Model) : Model :=
  if negb (bool_decide (ui_operation m = operationIdle)) then setStatus "tui.status.wait_operation" m
  else if negb (ui_configBarrierID m =? 0) then setStatus "tui.status.wait_config_refresh" m
  else if bool_decide (ui_sync m = syncStale) then setStatus "tui.status.server_changed_before_apply" m
  else if negb (bool_decide (ui_sync m = syncValidated)) || negb (match ui_precheckResult m with Some r => OK (pc_Precheck r) | None => false end)
  then setStatus "tui.status.precheck_first" m
  else m <| ui_overlay := overlayApply |>.

Definition handleManagementKey (key : string) (m : Model) : Model * list Cmd :=
  if bool_decide (key = "n") then if_writable (λ m,
    let m := beginTransientDraft m in (open_editor editorCreate (new_rule_defaults (editableRules m)) m, [])) m
  else if bool_decide (key = "e") then
    if_writable (with_selected "tui.status.rule_staged_deletion" (λ rule m, open_editor editorEdit rule (beginTransientDraft m))) m
  else if bool_decide (key = "c") then
    if_writable (with_selected "tui.status.rule_staged_deletion" (λ rule m,
      let m := beginTransientDraft m in open_editor editorCopy (copyRule rule (editableRules m)) m)) m
  else if bool_decide (key = " ") then if_writable (λ m, (stageToggle m, [])) m
  else if bool_decide (key = "d") then
    if_writable (with_selected "tui.status.rule_already_staged_deletion" (λ _ m, m <| ui_overlay := overlayDelete |>)) m
  else if bool_decide (key = "P") then startPrecheck m
  else if bool_decide (key = "A") then (request_apply m, [])
  else if bool_decide (key = "u") then
    (if negb (bool_decide (ui_operation m = operationIdle)) then setStatus "tui.status.wait_operation" m
     else match ui_draft m with
       | None => setStatus "tui.status.no_draft" m
       | Some _ => m <| ui_overlay := overlayDiscardDraft |>
       end, [])
  else if bool_decide (key = "g") then if_writable (λ m, (openUDPSettings (beginTransientDraft m), [])) m
  else (m, []).

(** *** Findings of the precheck *)

Definition precheckEditorField (check : string) : string :=
  let check := ToLower (TrimSpace check) in
  if bool_decide (check = "duplicate_rule_id") then fieldRuleID
  else if key_in check ["privileged_port"; "listen_conflict"; "listen_bind"] then fieldListenPort
  else if bool_decide (check = "target_resolve") then fieldTargetAddr
  else if key_in check ["source_ip_duplicate"; "source_ip_redundant"] then fieldSourceIPs
  else "".
Definition precheck_items (m : Model) : list Item := match ui_precheckResult m with Some r => ResultItems (pc_Precheck r) | None => [] end.
Definition item_count (items : nat) : Z := Z.of_nat items.

Definition openSelectedPrecheckFinding (m : Model) : Model * list Cmd :=
  if_writable (λ m,
    let items := precheck_items m in
    match (if (ui_resultSelected m <? 0) then None else items !! Z.to_nat (ui_resultSelected m)) with
    | None => (setStatus "tui.status.select_finding" m, [])
    | Some finding =>
        if bool_decide (i_RuleID finding = "") then (setStatus "tui.status.finding_not_editable" m, []) else
        let m := m <| ui_selectedRuleID := i_RuleID finding |> in
        match selectedRule m with
        | None => (setStatus "tui.status.finding_not_editable" m, [])
        | Some rule =>
            if isDeleted (RuleID rule) m then (setStatus "tui.status.finding_not_editable" m, []) else
            let field := precheckEditorField (i_Check finding) in
            let m := open_editor editorEdit rule m in
            (if bool_decide (field = "") then m else m <| ui_editor := focusField field <$> ui_editor m |>, [])
        end
    end) m.

(** Moving in a list of [count] results. *)
Definition move_result (key : string) (page count : Z) (m : Model) : Model :=
  let last := Z.max (count - 1) 0 in
  let up n := Z.max 0 (ui_resultSelected m - n) in
  let down n := Z.min last (ui_resultSelected m + n) in
  m <| ui_resultSelected :=
    if key_in key ["up"; "k"] then up 1 else if key_in key ["down"; "j"] then down 1
    else if bool_decide (key = "pgup") then up page else if bool_decide (key = "pgdown") then down page
    else if bool_decide (key = "home") then 0 else if bool_decide (key = "end") then last
    else ui_resultSelected m |>.
Definition result_keys : list string := ["up"; "k"; "down"; "j"; "pgup"; "pgdown"; "home"; "end"].

Definition precheck_passed (m : Model) : bool :=
  bool_decide (ui_sync m = syncValidated) && match ui_precheckResult m with Some r => OK (pc_Precheck r) | None => false end.

Definition handlePrecheckKey (key : string) (env : KeyEnv) (m : Model) : Model * list Cmd :=
  if key_in key ["q"; "ctrl+c"] then quit_or_ask m
  else if key_in key ["?"; "f1"] then (show_help m, [])
  else if bool_decide (key = "l") then (openLanguageSelector m, [])
  else if bool_decide (key = "esc") then (m <| ui_view := viewRules |>, [])
  else if key_in key result_keys then (move_result key (ke_page env) (item_count (length (precheck_items m))) m, [])
  else if bool_decide (key = "enter") then
    if precheck_passed m then (m <| ui_overlay := overlayApply |>, []) else openSelectedPrecheckFinding m
  else if bool_decide (key = "e") then openSelectedPrecheckFinding m
  else if bool_decide (key = "A") then
    (if negb (bool_decide (ui_operation m = operationIdle)) then setStatus "tui.status.wait_operation" m
     else if precheck_passed m then m <| ui_overlay := overlayApply |> else m, [])
  else if bool_decide (key = "P") then startPrecheck m
  else (m, []).

Definition applied_items (m : Model) : Z := match ui_applyResult m with Some r => item_count (length (Items (ap_Result r))) | None => 0 end.

(** *** The bot *)

Definition botReadyToStart (cfg : option BotConfigResponse) : bool :=
  match cfg with
  | Some cfg => negb (bool_decide (TrimSpace (bs_Token (bc_Settings cfg)) = "")) && negb (bs_ChatID (bc_Settings cfg) =? 0)
  | None => false
  end.
Definition bot_running (m : Model) : bool := match ui_botConfig m with Some cfg => bc_Running cfg | None => false end.
Definition bot_busy (m : Model) : bool := negb (bool_decide (ui_botOperation m = botOperationIdle)).
Definition wait_bot (m : Model) : Model * list Cmd := (setStatus "tui.status.wait_bot_operation" m, []).
Definition say_in_bot_form (key : string) (m : Model) : Model := m <| ui_botEditor := set_formError key <$> ui_botEditor m |>.

Definition openBotConfig (m : Model) : Model * list Cmd :=
  if negb (bool_decide (ui_operation m = operationIdle)) then (setStatus "tui.status.wait_operation" m, [])
  else if negb (canWrite m) then (setStatus (writeDeniedReason m) m, [])
  else if bot_busy m then wait_bot m
  else let '(commands, m) := fetch_bot (m <| ui_view := viewBotConfig |>) in (m, commands).

Definition handleBotConfigKey (key : string) (m : Model) : Model * list Cmd :=
  if key_in key ["q"; "ctrl+c"] then quit_or_ask m
  else if key_in key ["?"; "f1"] then (show_help m, [])
  else if bool_decide (key = "l") then (openLanguageSelector m, [])
  else if bool_decide (key = "esc") then (m <| ui_view := viewRules |>, [])
  else if bool_decide (key = "r") then
    if bot_busy m then wait_bot m else let '(commands, m) := fetch_bot m in (m, commands)
  else if bool_decide (key = "e") then
    if bot_busy m then wait_bot m
    else if bool_decide (is_Some (ui_botConfigErr m)) then (setStatus "tui.status.refresh_bot_before_edit" m, [])
    else if bool_decide (is_Some (ui_draft m)) then (setStatus "tui.status.resolve_rules_draft_before_bot" m, [])
    else match ui_botConfig m with
      | None => (setStatus "tui.status.bot_not_loaded" m, [])
      | Some cfg => (m <| ui_botEditor := Some (newBotConfigEditor cfg) |> <| ui_view := viewBotEditor |>, [])
      end
  else if bool_decide (key = "s") then
    if bot_busy m then wait_bot m
    else if bool_decide (is_Some (ui_botConfigErr m)) then (setStatus "tui.status.refresh_bot_before_start" m, [])
    else if bot_running m then (setStatus "tui.status.bot_already_running" m, [])
    else if negb (botReadyToStart (ui_botConfig m)) then (setStatus "tui.status.configure_bot_before_start" m, [])
    else let '(id, m) := beginBotOperation botOperationStarting m in (m, [StartBotCmd id])
  else if bool_decide (key = "x") then
    if bot_busy m then wait_bot m
    else if bool_decide (is_Some (ui_botConfigErr m)) then (setStatus "tui.status.refresh_bot_before_stop" m, [])
    else if bot_running m then (m <| ui_overlay := overlayBotStop |>, [])
    else (setStatus "tui.status.bot_not_running" m, [])
  else (m, []).

Definition save_bot (editor : botConfigEditor) (m : Model) : Model * list Cmd :=
  if ui_botRebasePending m || bool_decide (is_Some (ui_botConfigErr m)) then
    (setStatus "tui.status.rebase_before_save" (say_in_bot_form "tui.status.load_latest_before_save" m), [])
  else
    let '(req, editor) := bot_request editor in
    let m := m <| ui_botEditor := Some editor |> in
    match req with
    | None => (setStatus "tui.validation.chat_id_integer" m, [])
    | Some req =>
        let '(id, m) := beginBotOperation botOperationSaving (setStatus "tui.status.applying_bot_config" m) in
        (m, [ApplyBotConfigCmd id (be_etag editor) req])
    end.
Definition close_bot_editor (m : Model) : Model :=
  m <| ui_botEditor := None |> <| ui_botRebasePending := false |> <| ui_view := viewBotConfig |>.

Definition handleBotEditorKey (key : string) (m : Model) : Model * list Cmd :=
  match ui_botEditor m with
  | None => (m <| ui_view := viewBotConfig |>, [])
  | Some editor =>
      if bool_decide (key = "f1") then (show_help m, [])
      else if bot_busy m then wait_bot m
      else if bool_decide (key = "ctrl+r") then
        let m := setStatus "tui.status.refreshing_bot_rebase"
                   (say_in_bot_form "tui.status.loading_latest_config" (m <| ui_botRebasePending := true |>)) in
        let '(commands, m) := fetch_bot m in (m, commands)
      else if key_in key ["esc"; "ctrl+c"] then
        (if bot_dirty editor then m <| ui_overlay := overlayCancelBotEditor |> else close_bot_editor m, [])
      else if bool_decide (key = "ctrl+s") then save_bot editor m
      else
        let m := m <| ui_botEditor := Some (bot_editor_update key editor) |> in
        (if ui_botRebasePending m then say_in_bot_form "tui.status.latest_required_retry" m else m, [])
  end.

(** ** Service recovery *)

Definition serviceBusy (m : Model) : bool :=
  bool_decide (ui_serviceState m = serviceRecoveryStarting) || bool_decide (ui_serviceState m = serviceRecoveryWaiting).
Definition shouldInspectService (e : ClientError) (m : Model) : bool :=
  bool_decide (is_Some (ui_serviceController m)) && (APIStatus e =? 0) && bool_decide (ui_serviceState m = serviceRecoveryIdle).
Definition beginServiceInspection (m : Model) : Model * list Cmd :=
  if bool_decide (ui_serviceController m = None) || serviceBusy m then (m, [])
  else
    let '(id, m) := beginServiceRequest m in
    (m <| ui_serviceState := serviceRecoveryChecking |> <| ui_serviceErr := None |>, [InspectServiceCmd id]).
Definition resetServiceRecovery (m : Model) : Model :=
  (beginServiceRequest (m
    <| ui_serviceState := match ui_serviceController m with None => serviceRecoveryDisabled | Some _ => serviceRecoveryIdle end |>
    <| ui_serviceSummary := no_summary "" |> <| ui_serviceErr := None |> <| ui_serviceReconnectDeadline := None |>)).2.
Definition canStartService (m : Model) : bool :=
  match ui_serviceController m with
  | Some controller =>
      sc_Start controller && ss_Installed (ui_serviceSummary m) && negb (ss_Running (ui_serviceSummary m))
      && (bool_decide (ui_serviceState m = serviceRecoveryStopped) || bool_decide (ui_serviceState m = serviceRecoveryFailed))
  | None => false
  end.
Definition startService (m : Model) : Model * list Cmd :=
  let m := m <| ui_overlay := overlayNone |> in
  if negb (canStartService m) then (setStatus "tui.status.service_start_unavailable" m, [])
  else
    let '(id, m) := beginServiceRequest m in
    (setStatus "tui.status.service_starting" (m <| ui_serviceState := serviceRecoveryStarting |> <| ui_serviceErr := None |>), [StartServiceCmd id]).
Definition startServiceElevated (env : KeyEnv) (m : Model) : Model * list Cmd :=
  let m := m <| ui_overlay := overlayNone |> in
  if negb (match ui_serviceController m with Some controller => sc_ElevatedStartCommand controller | None => false end) then
    (setStatus "tui.status.service_elevation_unavailable" (m <| ui_serviceState := serviceRecoveryFailed |>), [])
  else match ke_elevated env with
    | Err e => (setStatus "tui.status.service_start_failed" (m <| ui_serviceState := serviceRecoveryFailed |> <| ui_serviceErr := Some e |>), [])
    | Ok _ =>
        let '(id, m) := beginServiceRequest m in
        (setStatus "tui.status.service_starting_elevated" (m <| ui_serviceState := serviceRecoveryStarting |> <| ui_serviceErr := None |>),
         [ElevatedStartCmd id])
    end.

(** ** Keys of the overlays *)

Definition confirm : list string := ["enter"; "y"].

Definition confirm_apply (m : Model) : Model * list Cmd :=
  let m := m <| ui_overlay := overlayNone |> in
  if negb (bool_decide (ui_operation m = operationIdle)) then (setStatus "tui.status.wait_operation" m, [])
  else match ui_draft m with
    | Some d =>
        if bool_decide (ui_sync m = syncValidated) then
          (setStatus "tui.status.applying_draft" (m <| ui_operation := operationApplying |>), [ApplyCmd (d_BaseETag d) (draft_request d)])
        else (setStatus "tui.status.draft_precheck_required" m, [])
    | None => (setStatus "tui.status.draft_precheck_required" m, [])
    end.
Definition confirm_discard (m : Model) : Model * list Cmd :=
  let wasStale := bool_decide (ui_sync m = syncStale) in
  let m := (discardDraft m) <| ui_overlay := overlayNone |> in
  if wasStale then
    let '(id, m) := beginConfigBarrier (setStatus "tui.status.draft_discarded_refreshing" (m <| ui_sync := syncUnavailable |>)) in
    (m, [FetchConfigRulesCmd id])
  else (m, []).
Definition confirm_overlay (env : KeyEnv) (m : Model) : Model * list Cmd :=
  match ui_overlay m with
  | overlayReload =>
      if bool_decide (ui_operation m = operationIdle) then (m <| ui_operation := operationReloading |>, [ReloadCmd]) else (m, [])
  | overlayDelete => ((stageDelete m) <| ui_overlay := overlayNone |>, [])
  | overlayApply => confirm_apply m
  | overlayDiscardDraft => confirm_discard m
  | overlayQuitDirty => (m, [QuitCmd])
  | overlayCancelEditor => cancelTransientDraft (m <| ui_editor := None |> <| ui_view := viewRules |> <| ui_overlay := overlayNone |>)
  | overlayCancelBotEditor => ((close_bot_editor m) <| ui_overlay := overlayNone |>, [])
  | overlayBotStop =>
      let m := m <| ui_overlay := overlayNone |> in
      if bot_busy m then wait_bot m
      else let '(id, m) := beginBotOperation botOperationStopping m in (m, [StopBotCmd id])
  | overlayStartService => startService m
  | overlayElevateService => startServiceElevated env m
  | _ => (m, [])
  end.

Definition handleOverlayKey (key : string) (env : KeyEnv) (m : Model) : Model * list Cmd :=
  let close m := m <| ui_overlay := overlayNone |> in
  match ui_overlay m with
  | overlayHelp =>
      (if key_in key ["esc"; "n"; "?"; "f1"; "enter"] then close m
       else if bool_decide (key = "l") then openLanguageSelector m else m, [])
  | overlayLanguage =>
      (if bool_decide (key = "esc") then close m
       else if bool_decide (key = "1") then setLanguage English m
       else if bool_decide (key = "2") then setLanguage SimplifiedChinese m else m, [])
  | overlayUDPSettings =>
      if bool_decide (key = "esc") then cancelTransientDraft (close (m <| ui_udpInput := Blur (ui_udpInput m) |>))
      else if key_in key ["enter"; "ctrl+s"] then (stageUDPSettings m, [])
      else (m <| ui_udpInput := InputUpdate key (ui_udpInput m) |> <| ui_udpInputError := "" |>, [])
  | _ =>
      if key_in key ["esc"; "n"] then (close m, [])
      else if key_in key confirm then confirm_overlay env m else (m, [])
  end.

(** ** Keys *)

Definition handleFilterInput (key : string) (m : Model) : Model :=
  if bool_decide (key = "esc") then
    reconcileSelection (m <| ui_filterActive := false |> <| ui_filterInput := Blur (SetValue "" (ui_filterInput m)) |>)
  else if bool_decide (key = "enter") then
    reconcileSelection (m <| ui_filterActive := false |> <| ui_filterInput := Blur (ui_filterInput m) |>)
  else reconcileSelection (m <| ui_filterInput := InputUpdate key (ui_filterInput m) |>).

(** [None] when the key is no navigation key. *)
Definition handleNavigationKey (key : string) (m : Model) : option (Model * list Cmd) :=
  if bool_decide (key = "1") then Some (m <| ui_view := viewDashboard |>, [])
  else if bool_decide (key = "2") then Some (m <| ui_view := viewRules |>, [])
  else if bool_decide (key = "3") then Some (openBotConfig m)
  else if bool_decide (key = "4") then Some (m <| ui_view := viewDashboard |>, [])
  else None.

(** Keys that would hide the result of the operation or change its draft. *)
Definition pending_keys : list string :=
  ["q"; "ctrl+c"; "esc"; "tab"; "enter"; "y"; "n"; "e"; "c"; " "; "d"; "P"; "A"; "u"; "g"; "R"; "b"; "s"; "x"; "1"; "2"; "3"; "ctrl+s"; "?"; "f1"].
Definition pending_key (key : string) (m : Model) : bool :=
  negb (bool_decide (ui_operation m = operationIdle)) && key_in key pending_keys.

Definition refreshNow (m : Model) : Model * list Cmd :=
  let '(commands, m) := refreshCommands m in
  if bool_decide (is_Some (ui_serviceController m))
     && match ui_connectionErr m with Some e => APIStatus e =? 0 | None => false end && negb (serviceBusy m)
  then let '(m, inspect) := beginServiceInspection m in (m, commands ++ inspect)
  else (m, commands).

Definition enter_key (m : Model) : Model * list Cmd :=
  match ui_view m with
  | viewDashboard =>
      (if bool_decide (is_Some (ui_connectionErr m)) && canStartService m then m <| ui_overlay := overlayStartService |> else m, [])
  | viewRules =>
      match ui_draft m with
      | Some _ =>
          if precheck_passed m then (m <| ui_overlay := overlayApply |>, [])
          else if bool_decide (ui_sync m = syncStale) then (setStatus "tui.status.stale_draft_before_precheck" m, [])
          else startPrecheck m
      | None => (match selectedRule m with Some _ => m <| ui_view := viewDetail |> | None => m end, [])
      end
  | _ => (m, [])
  end.

(** The last switch of [handleKey]: the dashboard, the rules and the detail of a rule. *)
Definition handleMainKey (key : string) (env : KeyEnv) (m : Model) : Model * list Cmd :=
  let in_rules (f : Model → Model) := (if bool_decide (ui_view m = viewRules) then f m else m, []) in
  if key_in key ["q"; "ctrl+c"] then quit_or_ask m
  else if key_in key ["?"; "f1"] then (show_help m, [])
  else if bool_decide (key = "l") then (openLanguageSelector m, [])
  else if bool_decide (key = "esc") then (if bool_decide (ui_view m = viewDetail) then m <| ui_view := viewRules |> else m, [])
  else if bool_decide (key = "tab") then
    (m <| ui_view := if bool_decide (ui_view m = viewDashboard) then viewRules else viewDashboard |>, [])
  else if bool_decide (key = "p") then
    let paused := negb (ui_paused m) in
    (setStatus (if paused then "tui.status.monitoring_paused" else "tui.status.monitoring_resumed") (m <| ui_paused := paused |>), [])
  else if bool_decide (key = "r") then refreshNow m
  else if key_in key ["+"; "="] then
    (if 1 <? ui_refreshInterval m then setStatus "tui.status.interval" (m <| ui_refreshInterval := ui_refreshInterval m - 1 |>) else m, [])
  else if bool_decide (key = "-") then
    (if ui_refreshInterval m <? 10 then setStatus "tui.status.interval" (m <| ui_refreshInterval := ui_refreshInterval m + 1 |>) else m, [])
  else if bool_decide (key = "R") then
    (if bool_decide (is_Some (ui_draft m)) then setStatus "tui.status.discard_before_reload" m
     else if negb (canReload m) then setStatus "tui.status.reload_admin_required" m
     else m <| ui_overlay := overlayReload |>, [])
  else if bool_decide (key = "b") then openBotConfig m
  else if bool_decide (key = "a") then (m, [])                     (* which networks the dashboard shows *)
  else if key_in key ["up"; "k"] then in_rules (moveSelection (-1))
  else if key_in key ["down"; "j"] then in_rules (moveSelection 1)
  else if bool_decide (key = "pgup") then in_rules (moveSelection (- ke_page env))
  else if bool_decide (key = "pgdown") then in_rules (moveSelection (ke_page env))
  else if bool_decide (key = "home") then in_rules (selectRuleAt 0)
  else if bool_decide (key = "end") then in_rules (selectRuleAt (Z.of_nat (length (sortedRules m)) - 1))
  else if bool_decide (key = "enter") then enter_key m
  else if bool_decide (key = "s") then in_rules cycleSort
  else if bool_decide (key = "/") then
    in_rules (λ m, m <| ui_filterActive := true |> <| ui_filterInput := Focus (ui_filterInput m) |>)
  else if bool_decide (ui_view m = viewRules) || bool_decide (ui_view m = viewDetail) then handleManagementKey key m
  else (m, []).

(** Views that take keys before the main switch. *)
Definition handleResultKey (key : string) (env : KeyEnv) (m : Model) : option (Model * list Cmd) :=
  match ui_view m with
  | viewPrecheck => Some (handlePrecheckKey key env m)
  | viewApplyResult =>
      if key_in key ["esc"; "enter"] then Some (m <| ui_view := viewRules |>, [])
      else if key_in key result_keys then Some (move_result key (ke_page env) (applied_items m) m, [])
      else None
  | _ => None
  end.

Definition handleKey (key : string) (env : KeyEnv) (m : Model) : Model * list Cmd :=
  if bool_decide (ui_overlay m = overlayLanguage) then handleOverlayKey key env m
  else if serviceBusy m then
    if key_in key ["q"; "ctrl+c"] then (m, [QuitCmd]) else (setStatus "tui.status.service_operation_in_progress" m, [])
  else if pending_key key m then (setStatus "tui.status.operation_in_progress" m, [])
  else if negb (bool_decide (ui_overlay m = overlayNone)) then handleOverlayKey key env m
  else match ui_view m with
    | viewEditor => handleEditorKey key m
    | viewBotEditor => handleBotEditorKey key m
    | viewBotConfig => default (handleBotConfigKey key m) (handleNavigationKey key m)
    | _ =>
        if ui_filterActive m then (handleFilterInput key m, [])
        else match handleNavigationKey key m with
          | Some r => r
          | None => default (handleMainKey key env m) (handleResultKey key env m)
          end
    end.

(** [handleMouse] for the wheel; other buttons do nothing. *)
Definition handleWheel (up : bool) (m : Model) : Model :=
  let delta := if up then -3 else 3 in
  let move count := m <| ui_resultSelected := Z.max 0 (Z.min (ui_resultSelected m + delta) (Z.max (count - 1) 0)) |> in
  if negb (bool_decide (ui_overlay m = overlayNone)) then m
  else match ui_view m with
    | viewRules => moveSelection delta m
    | viewPrecheck => move (item_count (length (precheck_items m)))
    | viewApplyResult => move (applied_items m)
    | _ => m
    end.

(** ** Messages *)

Definition handleTick (m : Model) : Model * list Cmd :=
  if ui_paused m then (m, [TickCmd (ui_refreshInterval m)]) else
  let '(commands, m) := fetch_runtime m in
  let '(id, m) := beginConfigRequest m in
  let '(bot, m) := if bool_decide (ui_view m = viewBotConfig) && negb (bot_busy m) then fetch_bot m else ([], m) in
  (m, commands ++ [FetchConfigRulesCmd id] ++ bot ++ [TickCmd (ui_refreshInterval m)]).

Definition handleStats (id : Z) (resp : result ClientError StatsItems) (m : Model) : Model * list Cmd :=
  if negb (id =? ui_statsRequestID m) then (m, []) else
  match resp with
  | Err e =>
      let m := m <| ui_connectionErr := Some e |> in
      if shouldInspectService e m then beginServiceInspection m else (m, [])
  | Ok stats =>
      let recovering := negb (bool_decide (ui_serviceState m = serviceRecoveryDisabled)) && negb (bool_decide (ui_serviceState m = serviceRecoveryIdle)) in
      let m := m <| ui_connectionErr := None |> <| ui_stats := Some stats |> in
      (if recovering then setStatus "tui.status.service_connected" (resetServiceRecovery m) else m, [])
  end.

Definition handleConfigRules (id : Z) (resp : result ClientError ConfigRulesResponse) (m : Model) : Model :=
  if id <? ui_lastConfigResponseID m then m else
  let m := m <| ui_lastConfigResponseID := id |> in
  match resp with
  | Err e =>
      let m := m <| ui_configErr := Some e |> in
      match ui_config m with None => m <| ui_sync := syncUnavailable |> | Some _ => m end
  | Ok config =>
      let m := if negb (ui_configBarrierID m =? 0) && (ui_configBarrierID m <=? id) then m <| ui_configBarrierID := 0 |> else m in
      acceptConfig config (m <| ui_configErr := None |>)
  end.

Definition bot_failed (operation : botOperationState) (e : ClientError) (m : Model) : Model * list Cmd :=
  let refetch m := let '(commands, m) := refetch_bot m in (m, commands) in
  let report key m := setStatus key (say_in_bot_form key m) in
  let status := APIStatus e in
  if bool_decide (operation = botOperationFetching) then
    let m := m <| ui_botConfigErr := Some e |> in
    let editing := ui_botRebasePending m && bool_decide (is_Some (ui_botEditor m)) in
    let m := if editing then say_in_bot_form "tui.status.retry_ctrl_r" m else m in
    (setStatus (if editing then "tui.status.bot_latest_load_failed"
                else if negb (bool_decide (ui_botReconcileAction m = "")) then "tui.status.bot_reconcile_failed"
                else "tui.status.bot_config_unavailable") m, [])
  else if status =? 412 then
    refetch (setStatus "tui.status.bot_remote_changed"
      (say_in_bot_form "tui.status.bot_remote_changed_loading" (m <| ui_botRebasePending := true |>)))
  else if status =? 403 then (report "tui.status.bot_admin_required" m, [])
  else if status =? 422 then (report "tui.status.bot_config_rejected" m, [])
  else if status =? 503 then
    let '(message, refresh, committed) := botConfigUnavailableState e in
    let m := report message m in
    if negb refresh then (m, [])
    else if committed then refetch (close_bot_editor m)
    else refetch (if bool_decide (is_Some (ui_botEditor m)) then m <| ui_botRebasePending := true |> else m)
  else
    let m := report "tui.status.bot_result_uncertain" m in
    refetch (if bool_decide (is_Some (ui_botEditor m)) then m <| ui_botRebasePending := true |> else m).

Definition bot_answered (operation : botOperationState) (config : BotConfigResponse) (m : Model) : Model * list Cmd :=
  let m := m <| ui_botConfig := Some config |> <| ui_botConfigErr := None |> in
  let fetched := bool_decide (operation = botOperationFetching) in
  if fetched && ui_botRebasePending m && bool_decide (is_Some (ui_botEditor m)) then
    (setStatus "tui.status.bot_latest_loaded"
       (m <| ui_botEditor := (λ e, set_formError "tui.status.bot_latest_loaded_editor" (rebase config e)) <$> ui_botEditor m |>
          <| ui_botRebasePending := false |>), [])
  else
    let m :=
      if fetched then
        let m := m <| ui_botRebasePending := false |> in
        if bool_decide (ui_botReconcileAction m = "") then m
        else setStatus "tui.status.bot_reconciled" (m <| ui_botReconcileAction := "" |>)
      else m in
    if bool_decide (operation = botOperationSaving) && bool_decide (ui_view m = viewBotEditor) then
      let '(id, m) := beginConfigBarrier (setStatus "tui.status.bot_config_saved" (close_bot_editor m)) in (m, [FetchConfigRulesCmd id])
    else (m, []).

Definition handleBotConfig (id : Z) (operation : botOperationState) (resp : result ClientError BotConfigResponse) (m : Model) : Model * list Cmd :=
  if negb (id =? ui_botRequestID m) || negb (bool_decide (operation = ui_botOperation m)) then (m, []) else
  let m := m <| ui_botOperation := botOperationIdle |> in
  match resp with Err e => bot_failed operation e m | Ok config => bot_answered operation config m end.

Definition handleBotAction (id : Z) (operation : botOperationState) (action : string) (err : option ClientError) (m : Model) : Model * list Cmd :=
  if negb (id =? ui_botRequestID m) || negb (bool_decide (operation = ui_botOperation m)) then (m, []) else
  let m := match err with
    | Some _ => setStatus "tui.status.bot_action_failed" (m <| ui_botReconcileAction := action |>)
    | None => setStatus "tui.status.bot_action_ok" (m <| ui_botReconcileAction := "" |>) end in
  let '(commands, m) := fetch_bot m in (m, commands).

Definition handleServiceInspect (id : Z) (resp : result ServiceError ServiceSummary) (m : Model) : Model :=
  if negb (id =? ui_serviceRequestID m) || negb (bool_decide (ui_serviceState m = serviceRecoveryChecking)) then m else
  match resp with
  | Err e => m <| ui_serviceSummary := no_summary "" |> <| ui_serviceErr := Some e |> <| ui_serviceState := serviceRecoveryFailed |>
  | Ok summary =>
      m <| ui_serviceSummary := summary |> <| ui_serviceErr := None |>
        <| ui_serviceState := if negb (ss_Installed summary) then serviceRecoveryNotInstalled
                              else if ss_Running summary then serviceRecoveryRunning else serviceRecoveryStopped |>
  end.

Definition service_start_failed (elevated : bool) (e : ServiceError) (m : Model) : Model :=
  let m := m <| ui_serviceErr := Some e |> in
  let may_elevate := match ui_serviceController m with Some controller => sc_ElevatedStartCommand controller | None => false end in
  if negb elevated && bool_decide (e = ErrServicePrivilegesRequired) && may_elevate then
    setStatus "tui.status.service_privileges_required" (m <| ui_serviceState := serviceRecoveryStopped |> <| ui_overlay := overlayElevateService |>)
  else if bool_decide (e = ErrServiceNotInstalled) then
    setStatus "tui.status.service_not_installed"
      (m <| ui_serviceSummary := no_summary "not installed" |> <| ui_serviceState := serviceRecoveryNotInstalled |>)
  else setStatus "tui.status.service_start_failed" (m <| ui_serviceState := serviceRecoveryFailed |>).
Definition mark_running (s : ServiceSummary) : ServiceSummary :=
  {| ss_Installed := ss_Installed s; ss_Running := true; ss_Enabled := ss_Enabled s; ss_State := ss_State s; ss_Detail := ss_Detail s |}.

Definition reconnect (m : Model) : Model * list Cmd :=
  let '(commands, m) := refreshCommands m in (m, commands ++ [ServiceReconnectCmd (ui_serviceRequestID m)]).
Definition handleServiceStart (id : Z) (elevated : bool) (err : option ServiceError) (now : Z) (m : Model) : Model * list Cmd :=
  if negb (id =? ui_serviceRequestID m) || negb (bool_decide (ui_serviceState m = serviceRecoveryStarting)) then (m, []) else
  match err with
  | Some e => (service_start_failed elevated e m, [])
  | None =>
      reconnect (setStatus "tui.status.service_waiting"
        (m <| ui_serviceState := serviceRecoveryWaiting |> <| ui_serviceSummary := mark_running (ui_serviceSummary m) |>
           <| ui_serviceErr := None |> <| ui_serviceReconnectDeadline := Some (now + serviceReconnectTimeout) |>))
  end.
Definition handleServiceReconnect (id now : Z) (m : Model) : Model * list Cmd :=
  if negb (id =? ui_serviceRequestID m) || negb (bool_decide (ui_serviceState m = serviceRecoveryWaiting)) then (m, [])
  else if match ui_serviceReconnectDeadline m with Some deadline => deadline <? now | None => false end then
    (setStatus "tui.status.service_management_unreachable" (m <| ui_serviceState := serviceRecoveryRunning |>), [])
  else reconnect m.

Definition handleReload (resp : result ClientError Z) (m : Model) : Model * list Cmd :=
  let m := m <| ui_operation := operationIdle |> <| ui_overlay := overlayNone |> in
  match resp with
  | Err _ => (setStatus "tui.status.reload_failed" m, [])
  | Ok _ =>
      let '(commands, m) := fetch_runtime (setStatus "tui.status.reload_ok" m) in
      let '(id, m) := beginConfigRequest m in
      (m, commands ++ [FetchConfigRulesCmd id])
  end.

(** [Update]. *)
Definition update (msg : Msg) (m : Model) : Model * list Cmd :=
  match msg with
  | TickMsg => handleTick m
  | StatsMsg id resp => handleStats id resp m
  | RulesMsg id resp =>
      (if negb (id =? ui_rulesRequestID m) then m
       else match resp with Err e => m <| ui_rulesErr := Some e |> | Ok rules => m <| ui_rules := Some rules |> <| ui_rulesErr := None |> end, [])
  | SessionMsg id resp =>
      (if negb (id =? ui_sessionRequestID m) then m
       else match resp with Err e => m <| ui_sessionErr := Some e |> | Ok session => m <| ui_session := Some session |> <| ui_sessionErr := None |> end, [])
  | ConfigRulesMsg id resp => (handleConfigRules id resp m, [])
  | BotConfigMsg id operation resp => handleBotConfig id operation resp m
  | BotActionMsg id operation action err => handleBotAction id operation action err m
  | PrecheckMsg resp => (handlePrecheckResult resp m, [])
  | ApplyMsg resp => handleApplyResult resp m
  | ReloadMsg resp => handleReload resp m
  | ServiceInspectMsg id resp => (handleServiceInspect id resp m, [])
  | ServiceStartMsg id elevated err now => handleServiceStart id elevated err now m
  | ServiceReconnectMsg id now => handleServiceReconnect id now m
  | KeyMsg key env => handleKey key env m
  | WheelMsg up => (handleWheel up m, [])
  | WindowSizeMsg width height => (m <| ui_width := width |> <| ui_height := height |>, [])
  end.

(** ** Running a command *)

(** What a command of the client sends back. *)
Definition run_cmd {transport : Transport} (c : Client) (cmd : Cmd) : option (IO Server ClientError Msg) :=
  match cmd with
  | FetchStatsCmd id => Some (try (ClientStats c) ≫= λ r, mret (StatsMsg id r))
  | FetchRulesCmd id => Some (try (ClientRules c) ≫= λ r, mret (RulesMsg id r))
  | FetchSessionCmd id => Some (try (ClientSession c) ≫= λ r, mret (SessionMsg id r))
  | FetchConfigRulesCmd id => Some (try (ConfigRules c) ≫= λ r, mret (ConfigRulesMsg id r))
  | FetchBotConfigCmd id => Some (try (BotConfig c) ≫= λ r, mret (BotConfigMsg id botOperationFetching r))
  | ApplyBotConfigCmd id etag req => Some (try (ApplyBotConfig c etag req) ≫= λ r, mret (BotConfigMsg id botOperationSaving r))
  | StartBotCmd id => Some (try (StartBot c) ≫= λ r, mret (BotActionMsg id botOperationStarting "start" (match r with Err e => Some e | Ok _ => None end)))
  | StopBotCmd id => Some (try (StopBot c) ≫= λ r, mret (BotActionMsg id botOperationStopping "stop" (match r with Err e => Some e | Ok _ => None end)))
  | PrecheckCmd etag draft => Some (try (ClientPrecheck c etag draft) ≫= λ r, mret (PrecheckMsg r))
  | ApplyCmd etag draft => Some (try (ClientApply c etag draft) ≫= λ r, mret (ApplyMsg r))
  | ReloadCmd => Some (try (ClientReload c) ≫= λ r, mret (ReloadMsg r))
  | TickCmd _ | InspectServiceCmd _ | StartServiceCmd _ | ElevatedStartCmd _ | ServiceReconnectCmd _ | QuitCmd => None
  end.
End tui.
