(* ===== verification/TuiSpec.v ===== *)
(** * The terminal interface: properties

    The machine of Tui runs with the commands it has issued and an environment that
    answers each of them once, in any order. *)

From S2P Require Import Prelude GoStrings Calendar NetIP Limits Rule Config GoText Stats Quota Manager Precheck Management FileIO ControlClient.
From S2P Require Import TuiEditor TuiEditorSpec Tui.

Section tui_spec.
Context {inputs : TextInput} {ansi : Ansi} {tz : TzDatabase}.

(** ** The system: the model and the commands that run *)

(** Which messages a command can end with. *)
Inductive answers : Cmd → Msg → Prop :=
| tick_answers i : answers (TickCmd i) TickMsg
| stats_answers id r : answers (FetchStatsCmd id) (StatsMsg id r)
| rules_answers id r : answers (FetchRulesCmd id) (RulesMsg id r)
| session_answers id r : answers (FetchSessionCmd id) (SessionMsg id r)
| config_answers id r : answers (FetchConfigRulesCmd id) (ConfigRulesMsg id r)
| bot_answers id r : answers (FetchBotConfigCmd id) (BotConfigMsg id botOperationFetching r)
| save_bot_answers id etag req r : answers (ApplyBotConfigCmd id etag req) (BotConfigMsg id botOperationSaving r)
| start_bot_answers id e : answers (StartBotCmd id) (BotActionMsg id botOperationStarting "start" e)
| stop_bot_answers id e : answers (StopBotCmd id) (BotActionMsg id botOperationStopping "stop" e)
| precheck_answers etag draft r : answers (PrecheckCmd etag draft) (PrecheckMsg r)
| apply_answers etag draft r : answers (ApplyCmd etag draft) (ApplyMsg r)
| reload_answers r : answers ReloadCmd (ReloadMsg r)
| inspect_answers id r : answers (InspectServiceCmd id) (ServiceInspectMsg id r)
| start_service_answers id e now : answers (StartServiceCmd id) (ServiceStartMsg id false e now)
| elevated_answers id e now : answers (ElevatedStartCmd id) (ServiceStartMsg id true e now)
| reconnect_answers id now : answers (ServiceReconnectCmd id) (ServiceReconnectMsg id now).

Definition user_input (msg : Msg) : Prop :=
  match msg with KeyMsg _ _ | WheelMsg _ | WindowSizeMsg _ _ => True | _ => False end.

Lemma try_returns {S E E' A B} (io : IO S E A) (f : result E A → B) s :
  (try (E' := E') io ≫= λ r, mret (f r)) s = (Ok (f (io s).1), (io s).2).
Proof. unfold mbind, io_bind, try. by destruct (io s). Qed.

(** What the client's calls return is such an answer, and they always return. *)
Lemma run_cmd_answers {transport : Transport} c cmd io server : run_cmd c cmd = Some io →
  ∃ msg server', io server = (Ok msg, server') ∧ answers cmd msg.
Proof.
  intros Hrun. destruct cmd; simpl in Hrun; simplify_eq; rewrite try_returns; eexists _, _; (split; [reflexivity|constructor]).
Qed.

Record Sys := { sys_model : Model; sys_pending : list Cmd; sys_checked : list (string * ConfigRulesRequest) }.

(** Ghost: the drafts, with their ETags, whose precheck passed. *)
Definition checked_by (cmd : Cmd) (msg : Msg) : list (string * ConfigRulesRequest) :=
  match cmd, msg with
  | PrecheckCmd etag draft, PrecheckMsg (Ok resp) => if OK (pc_Precheck resp) then [(etag, draft)] else []
  | _, _ => []
  end.

Variable allowed : Msg → Prop.

Inductive step : Sys → Sys → Prop :=
| input_step msg m pending checked : user_input msg →
    step {| sys_model := m; sys_pending := pending; sys_checked := checked |}
         {| sys_model := (update msg m).1; sys_pending := pending ++ (update msg m).2; sys_checked := checked |}
| answer_step cmd msg m before after checked : answers cmd msg → allowed msg →
    step {| sys_model := m; sys_pending := before ++ cmd :: after; sys_checked := checked |}
         {| sys_model := (update msg m).1; sys_pending := (before ++ after) ++ (update msg m).2;
            sys_checked := checked ++ checked_by cmd msg |}.

Definition start (locale : string) (controller : option ServiceController) : Sys :=
  let m := newModel locale controller in {| sys_model := m; sys_pending := Init m; sys_checked := [] |}.
Definition reachable (s : Sys) : Prop := ∃ locale controller, rtc step (start locale controller) s.

(** ** What a handler may do to the draft *)

Definition is_operation (cmd : Cmd) : bool := match cmd with PrecheckCmd _ _ | ApplyCmd _ _ | ReloadCmd => true | _ => false end.
Definition operations (pending : list Cmd) : list Cmd := List.filter is_operation pending.

(** What the daemon accepts in a configuration. *)
Definition good_rule (r : Rule) : Prop := standard r ∧ rule_wf r.
Record good_request (q : ConfigRulesRequest) : Prop := {
  good_rules : Forall good_rule (cq_Rules q);
  good_sessions : 0 ≤ cq_UDPMaxSessions q ≤ MaxUDPGlobalMaxSessions
}.

(** The draft there is, or the one [ensureDraft] makes. *)
Definition draft_of (m : Model) (d : draftConfig) : Prop :=
  ui_draft m = Some d ∨ ui_draft m = None ∧ ∃ config, ui_config m = Some config ∧ d = new_draft config.
(** An edit keeps the base and what is valid. *)
Record edited (d d' : draftConfig) : Prop := {
  edited_revision : d_BaseRevision d' = d_BaseRevision d;
  edited_etag : d_BaseETag d' = d_BaseETag d;
  edited_good : good_request (draft_request d) → good_request (draft_request d')
}.
Definition edit (m m' : Model) : Prop := ∀ d', ui_draft m' = Some d' → ∃ d, draft_of m d ∧ edited d d'.

(** No operation starts or ends; the draft changes only when none runs, and a
    validated draft stays as it is. *)
Record calm (m m' : Model) (cmds : list Cmd) : Prop := {
  calm_operation : ui_operation m' = ui_operation m;
  calm_commands : operations cmds = [];
  calm_draft : ui_operation m ≠ operationIdle → ui_draft m' = ui_draft m;
  calm_sync : ui_sync m' = syncValidated → ui_sync m = syncValidated ∧ (ui_draft m' = ui_draft m ∨ ui_draft m = None)
}.

(** What a key does besides starting operations. *)
Record tame (m m' : Model) (cmds : list Cmd) : Prop := {
  tame_calm : calm m m' cmds;
  tame_config : ui_config m' = ui_config m;
  tame_edit : edit m m'
}.
(** What an answer that ends no operation does. *)
Record background (m m' : Model) (cmds : list Cmd) : Prop := {
  background_operation : ui_operation m' = ui_operation m;
  background_commands : operations cmds = [];
  background_draft : ui_draft m' = ui_draft m;
  background_sync : ui_sync m' = syncValidated → ui_sync m = syncValidated
}.

(** A step of the user: a tame one, or it starts an operation. *)
Inductive key_effect (m : Model) : Model * list Cmd → Prop :=
| calm_effect m' cmds : tame m m' cmds → key_effect m (m', cmds)
| precheck_effect d m' : ui_operation m = operationIdle → ui_draft m = Some d → ui_draft m' = Some d → ui_sync m' = ui_sync m → ui_config m' = ui_config m →
    ui_operation m' = operationPrechecking → key_effect m (m', [PrecheckCmd (d_BaseETag d) (draft_request d)])
| apply_effect d m' : ui_operation m = operationIdle → ui_draft m = Some d → ui_sync m = syncValidated → ui_draft m' = Some d →
    ui_sync m' = syncValidated → ui_config m' = ui_config m → ui_operation m' = operationApplying → key_effect m (m', [ApplyCmd (d_BaseETag d) (draft_request d)])
| reload_effect m' : ui_operation m = operationIdle → ui_draft m' = ui_draft m → ui_sync m' = ui_sync m → ui_config m' = ui_config m →
    ui_operation m' = operationReloading → key_effect m (m', [ReloadCmd]).

Lemma draft_of_same m d : ui_draft m = Some d → draft_of m d.
Proof. by left. Qed.
Lemma edited_refl d : edited d d.
Proof. by split. Qed.

Lemma tame_same m m' cmds : ui_operation m' = ui_operation m → ui_draft m' = ui_draft m → ui_sync m' = ui_sync m →
  ui_config m' = ui_config m → operations cmds = [] → tame m m' cmds.
Proof.
  intros Ho Hd Hs Hg Hc. split; [split; [done|done|done|rewrite Hs; auto]|done|].
  intros d' Hd'. exists d'. split; [left; congruence|apply edited_refl].
Qed.

(** An edit of the draft: nothing is validated after it. *)
Lemma tame_change m m' cmds : ui_operation m = operationIdle → ui_operation m' = ui_operation m → ui_sync m' ≠ syncValidated →
  operations cmds = [] → ui_config m' = ui_config m → edit m m' → tame m m' cmds.
Proof. intros Hi Ho Hs Hc Hg He. by split. Qed.
Lemma edit_none m m' : ui_draft m' = None → edit m m'.
Proof. intros E d'. by rewrite E. Qed.

(** Fields that no invariant reads. *)
Lemma reconcileSelection_frame m : ∃ id, reconcileSelection m = m <| ui_selectedRuleID := id |>.
Proof.
  unfold reconcileSelection. destruct (sortedRules m) as [|first rest]; [by eexists|].
  destruct (findRule _ _); [|by eexists]. exists (ui_selectedRuleID m). by destruct m.
Qed.

Lemma selectRuleAt_frame i m : ∃ id, selectRuleAt i m = m <| ui_selectedRuleID := id |>.
Proof.
  unfold selectRuleAt. destruct (sortedRules m) as [|first rest]; [by eexists|].
  destruct (_ !! _); [by eexists|]. exists (ui_selectedRuleID m). by destruct m.
Qed.
Lemma setLanguage_frame locale m : ∃ l e o st, setLanguage locale m
  = m <| ui_locale := l |> <| ui_editor := e |> <| ui_overlay := o |> <| ui_statusText := st |>.
Proof.
  unfold setLanguage. destruct (MatchLocale locale) as [l|]; [by eexists l, _, _, _|].
  exists (ui_locale m), (ui_editor m), (ui_overlay m), (ui_statusText m). by destruct m.
Qed.
Lemma prepareWrite_frame m : ∃ ok st, prepareWrite m = (ok, m <| ui_statusText := st |>) ∧
  (ok = true → ui_operation m = operationIdle ∧ ui_configBarrierID m = 0 ∧ ui_sync m ≠ syncStale ∧ canWrite m = true).
Proof.
  unfold prepareWrite. destruct (bool_decide (ui_operation m = _)) eqn:Ho; [|by eexists false, _]. simpl.
  destruct (Z.eqb_spec (ui_configBarrierID m) 0); [|by eexists false, _]. simpl.
  destruct (bool_decide (ui_sync m = _)) eqn:Hs; [by eexists false, _|].
  destruct (canWrite m) eqn:Hw; [|by eexists false, _]. apply bool_decide_eq_true in Ho. apply bool_decide_eq_false in Hs.
  exists true, (ui_statusText m). by destruct m.
Qed.
(** [ensureDraft] keeps the draft or makes one from the configuration, or refuses. *)
Lemma ensureDraft_cases m :
  (∃ d, draft_of m d ∧ ensureDraft m = (true, m <| ui_draft := Some d |>)) ∨
  (∃ st, ui_draft m = None ∧ ensureDraft m = (false, m <| ui_statusText := st |>)).
Proof.
  unfold ensureDraft. destruct (ui_draft m) as [d|] eqn:Hd.
  { left. exists d. split; [by left|]. f_equal. destruct m; simpl in *. by subst. }
  destruct (ui_config m) as [config|] eqn:Hg; [|right; by eexists].
  destruct (canWrite m); [left|right; by eexists]. exists (new_draft config). split; [right; split; [done|by exists config]|done].
Qed.

(** Reduce what is decided without opening the record updates. *)
Ltac reduce := cbv beta iota zeta; cbn [negb fst snd].
Ltac frame :=
  repeat match goal with
  | |- context [reconcileSelection ?m] => destruct (reconcileSelection_frame m) as [? ->]
  | |- context [selectRuleAt ?i ?m] => destruct (selectRuleAt_frame i m) as [? ->]
  | |- context [setLanguage ?l ?m] => destruct (setLanguage_frame l m) as (? & ? & ? & ? & ->)
  end.

Lemma refresh_core m : let r := refreshDraftState m in
  ui_operation r = ui_operation m ∧ ui_sync r ≠ syncValidated ∧ ui_config r = ui_config m ∧
  (ui_draft r = ui_draft m ∨ ui_draft r = None).
Proof.
  unfold refreshDraftState. simpl. destruct (ui_draft m) eqn:Hd; [|by auto].
  destruct (bool_decide (ui_sync m = syncStale)) eqn:Hs; simpl.
  - frame. simpl. apply bool_decide_eq_true in Hs as ->. auto.
  - destruct (match ui_config m with Some _ => _ | None => _ end); frame; simpl; auto.
Qed.

(** A change staged in the draft: [m1] holds it, [m2] is the result. *)
Lemma staged_tame m m1 m2 d d' : ui_operation m = operationIdle → draft_of m d → edited d d' →
  ui_operation m1 = ui_operation m → ui_config m1 = ui_config m → ui_draft m1 = Some d' →
  (let r := refreshDraftState m1 in
   ui_operation m2 = ui_operation r ∧ ui_sync m2 = ui_sync r ∧ ui_config m2 = ui_config r ∧ ui_draft m2 = ui_draft r) → tame m m2 [].
Proof.
  intros Hi Hd He Ho Hg Hm1 (E1 & E2 & E3 & E4). destruct (refresh_core m1) as (Ro & Rs & Rg & Rd).
  apply tame_change; [done|congruence|by rewrite E2|done|congruence|]. intros d'' Hd''. rewrite E4 in Hd''.
  destruct Rd as [Rd|Rd]; rewrite Rd in Hd''; [|done]. exists d. split; [done|]. by simplify_eq.
Qed.
Ltac staged d := match goal with |- context [refreshDraftState ?m1] => 
  eapply (staged_tame _ m1 _ d);
    [assumption|assumption| |reflexivity|reflexivity|reflexivity|cbv zeta; generalize (refreshDraftState m1); intro; split_and!; reflexivity] end.

(** *** Edits of a draft *)

Lemma with_enabled_good enabled r : good_rule r → good_rule (with_enabled enabled r).
Proof.
  intros [Hs Hw]. split.
  - unfold standard in *. clear Hw. destruct r. unfold with_enabled, Standardize in *. simpl in *. injection Hs. intros. f_equal; done.
  - by destruct Hw; constructor.
Qed.
Lemma update_rule_good id f rules : (∀ r, r ∈ rules → good_rule r → good_rule (f r)) → Forall good_rule rules → Forall good_rule (update_rule id f rules).
Proof.
  intros Hf Hall. induction Hall as [|r rules Hr Hall IH]; simpl; [done|].
  case_bool_decide; constructor; try done; [apply Hf; [by left|done]|apply IH; intros; apply Hf; [by right|done]].
Qed.

(** Editing the rules of a draft. *)
Lemma edited_rules d d' : d_BaseRevision d' = d_BaseRevision d → d_BaseETag d' = d_BaseETag d →
  d_UDPMaxSessions d' = d_UDPMaxSessions d → (Forall good_rule (d_Rules d) → Forall good_rule (d_Rules d')) → edited d d'.
Proof. intros H1 H2 H3 Hf. split; [done|done|]. intros [Hr Hs]. split; simpl; [by apply Hf|by rewrite H3]. Qed.

Lemma tame_after m m1 m2 cmds cmds' : tame m m1 cmds → ui_draft m2 = ui_draft m1 → ui_sync m2 = ui_sync m1 →
  ui_operation m2 = ui_operation m1 → ui_config m2 = ui_config m1 → operations cmds' = [] → tame m m2 cmds'.
Proof.
  intros [[Ho _ Hd Hs] Hg He] E1 E2 E3 E4 Hc. split; [|congruence|unfold edit; by rewrite E1].
  split; [congruence|done|by rewrite E1|by rewrite E1, E2].
Qed.
Lemma tame_id m cmds : operations cmds = [] → tame m m cmds.
Proof. intros Hc. by apply tame_same. Qed.

Ltac same := apply tame_same; simpl; frame; done.
Ltac tame_by := apply calm_effect; first [same | done].

(** Making a draft out of the configuration. *)
Lemma opened_tame m m' d : ui_operation m = operationIdle → draft_of m d → ui_operation m' = ui_operation m → ui_sync m' = ui_sync m →
  ui_config m' = ui_config m → ui_draft m' = Some d → tame m m' [].
Proof.
  intros Hi Hd Ho Hs Hg Hd'. split; [split; [done|done|by rewrite Hi|]|done|].
  - rewrite Hs. intros ->. split; [done|]. destruct Hd as [Hd|[Hd _]]; [left; congruence|by right].
  - intros d'' Hd''. exists d. split; [done|]. assert (d'' = d) as -> by congruence. apply edited_refl.
Qed.

(** *** Staging *)

Lemma beginTransientDraft_tame m : ui_operation m = operationIdle → tame m (beginTransientDraft m) [].
Proof.
  intros Hi. unfold beginTransientDraft. destruct (ui_draft m) as [d|] eqn:Hd; [by apply tame_same|].
  destruct (ensureDraft_cases m) as [(d & Hd' & ->)|(st & _ & ->)]; [|same]. by apply (opened_tame _ _ d).
Qed.

Lemma stageEditorRule_tame rule m : ui_operation m = operationIdle → good_rule rule → tame m (stageEditorRule rule m) [].
Proof.
  intros Hi Hr. unfold stageEditorRule. destruct (ui_editor m) as [editor|]; [|by apply tame_id].
  destruct (ensureDraft_cases m) as [(d & Hd & ->)|(st & _ & ->)]; reduce; [|same].
  staged d. apply edited_rules; [done..|]. simpl. intros Hall.
  destruct (re_kind editor); first [by apply update_rule_good|apply Forall_app; split; [done|by constructor]].
Qed.

Lemma stageToggle_tame m : ui_operation m = operationIdle → tame m (stageToggle m) [].
Proof.
  intros Hi. unfold stageToggle. destruct (selectedRule m) as [rule|]; [|same]. destruct (isDeleted _ m); [same|].
  destruct (ensureDraft_cases m) as [(d & Hd & ->)|(st & _ & ->)]; simpl; [|same].
  case_match; [|by apply (opened_tame _ _ d)].
  staged d. apply edited_rules; [done..|]. simpl. apply update_rule_good. intros. by apply with_enabled_good.
Qed.

Lemma stageDelete_tame m overlay : ui_operation m = operationIdle → tame m ((stageDelete m) <| ui_overlay := overlay |>) [].
Proof.
  intros Hi. unfold stageDelete. destruct (selectedRule m) as [rule|]; [|same].
  destruct (ensureDraft_cases m) as [(d & Hd & ->)|(st & _ & ->)]; reduce; [|same].
  staged d. assert (∀ d0, edited d (d <| d_Rules := filter (λ r, RuleID r ≠ RuleID rule) (d_Rules d) |> <| d_Deleted := d0 |>)) as Hdone.
  { intros d0. apply edited_rules; [done..|]. simpl. rewrite !Forall_forall. intros Hall r [_ Hr]%list_elem_of_filter. by apply Hall. }
  case_match; [apply Hdone|apply (Hdone (d_Deleted d))].
Qed.

Lemma stageUDPSettings_tame m : ui_operation m = operationIdle → tame m (stageUDPSettings m) [].
Proof.
  intros Hi. unfold stageUDPSettings. destruct (ParseInt _) as [value|]; [|same]. destruct (_ || _) eqn:Hrange; [same|].
  destruct (ensureDraft_cases m) as [(d & Hd & ->)|(st & _ & ->)]; reduce; [|same].
  staged d. split; [done|done|]. intros [Hr _]. split; simpl; [done|]. apply orb_false_iff in Hrange. lia.
Qed.

Lemma settled_not_validated m : settled_sync m ≠ syncValidated.
Proof. unfold settled_sync. by destruct (ui_config m). Qed.

Lemma cancelTransientDraft_tame m m0 cmds : ui_operation m = operationIdle → tame m m0 cmds →
  tame m (cancelTransientDraft m0).1 (cancelTransientDraft m0).2.
Proof.
  intros Hi Hc. pose proof (calm_operation _ _ _ (tame_calm _ _ _ Hc)) as Ho. pose proof (tame_config _ _ _ Hc) as Hg.
  unfold cancelTransientDraft. destruct (ui_transientDraft m0); simpl; [|by apply (tame_after _ _ _ _ _ Hc)].
  destruct (bool_decide _); simpl; (apply tame_change; [done|done| |done|done|by apply edit_none]); simpl; [done|apply settled_not_validated].
Qed.

Lemma confirm_discard_tame m : ui_operation m = operationIdle → tame m (confirm_discard m).1 (confirm_discard m).2.
Proof.
  intros Hi. unfold confirm_discard, discardDraft.
  destruct (bool_decide _); simpl; frame; simpl; (apply tame_change; [done|done| |done|done|by apply edit_none]); simpl;
    [done|apply settled_not_validated].
Qed.

Lemma startPrecheck_effect m : key_effect m (startPrecheck m).
Proof.
  unfold startPrecheck. destruct (prepareWrite_frame m) as (ok & st & -> & Hok). destruct ok; simpl; [|tame_by].
  destruct (Hok eq_refl) as (Hi & _). destruct (ui_draft m) as [d|] eqn:Hd; [|tame_by].
  by apply (precheck_effect _ d).
Qed.

Lemma if_writable_effect f m : (∀ st, ui_operation m = operationIdle → key_effect m (f (m <| ui_statusText := st |>))) → key_effect m (if_writable f m).
Proof.
  intros Hf. unfold if_writable. destruct (prepareWrite_frame m) as (ok & st & -> & Hok).
  destruct ok; [by apply Hf, Hok|tame_by].
Qed.

(** *** Keys *)

Lemma pending_idle key m : pending_key key m = false → key_in key pending_keys = true → ui_operation m = operationIdle.
Proof. unfold pending_key. intros Hp Hk. rewrite Hk, andb_true_r in Hp. by apply negb_false_iff, bool_decide_eq_true in Hp. Qed.

(** Split on the next key test of a handler; [idle] discharges it for a key that is
    blocked while an operation runs. *)
Ltac key_case :=
  match goal with
  | |- context [if ?b then _ else _] =>
      lazymatch b with
      | bool_decide (?key = ?text) => destruct (bool_decide (key = text)) eqn:?
      | key_in ?key ?l => destruct (key_in key l) eqn:?
      end
  end.
Ltac subst_key :=
  repeat match goal with
  | H : bool_decide (?key = _) = true |- _ => apply bool_decide_eq_true in H; subst key
  | H : key_in ?key _ = true |- _ => unfold key_in in H; apply bool_decide_eq_true in H; rewrite ?elem_of_cons, elem_of_nil in H
  end; destruct_or?; subst; try done.
Ltac idle := match goal with Hp : pending_key _ _ = false |- _ => solve [subst_key; apply (pending_idle _ _ Hp); by vm_compute] end.

(** Statuses and the editor do not matter. *)
Lemma tame_from m0 m m' cmds : ui_operation m0 = ui_operation m → ui_draft m0 = ui_draft m → ui_sync m0 = ui_sync m →
  ui_config m0 = ui_config m → tame m0 m' cmds → tame m m' cmds.
Proof.
  intros E1 E2 E3 E4 [[Ho Hc Hd Hs] Hg He]. rewrite E1, E2, E3 in *. split; [done|congruence|].
  intros d' Hd'. destruct (He d' Hd') as (d & Hof & Hed). exists d. split; [|done]. unfold draft_of in *. by rewrite <-E2, <-E4.
Qed.
Lemma tame_status m st m' cmds : tame (m <| ui_statusText := st |>) m' cmds → tame m m' cmds.
Proof. by apply tame_from. Qed.
Lemma tame_editor m e m' cmds : tame (m <| ui_editor := e |>) m' cmds → tame m m' cmds.
Proof. by apply tame_from. Qed.

Lemma handleEditorKey_tame key m : pending_key key m = false → tame m (handleEditorKey key m).1 (handleEditorKey key m).2.
Proof.
  intros Hp. unfold handleEditorKey. destruct (ui_editor m) as [editor|] eqn:He; [|same].
  key_case; [same|]. key_case; [same|]. key_case; [|key_case; [|same]].
  - assert (ui_operation m = operationIdle) as Hi by idle. unfold close_editor. rewrite He.
    destruct (editor_dirty editor); [same|]. apply (cancelTransientDraft_tame _ _ []); [done|same].
  - assert (ui_operation m = operationIdle) as Hi by idle.
    destruct (editor_rule editor) as [[rule accepted] editor'] eqn:Hrule. destruct accepted; [|same].
    apply (tame_editor _ (Some editor')), stageEditorRule_tame; [done|]. by apply accepted_rule_valid in Hrule as (? & ? & _).
Qed.

Lemma open_editor_tame kind rule m m1 : tame m m1 [] → tame m (open_editor kind rule m1) [].
Proof. intros Hc. by apply (tame_after _ _ _ _ _ Hc). Qed.

Lemma with_selected_tame text f m : (∀ rule, tame m (f rule m) []) → tame m (with_selected text f m).1 (with_selected text f m).2.
Proof. intros Hf. unfold with_selected. destruct (selectedRule m); [|same]. destruct (isDeleted _ m); [same|apply Hf]. Qed.

Lemma key_tame m r : tame m r.1 r.2 → key_effect m r.
Proof. destruct r. apply calm_effect. Qed.

Lemma request_apply_tame m : tame m (request_apply m) [].
Proof. unfold request_apply. repeat case_match; same. Qed.

Lemma handleManagementKey_effect key m : pending_key key m = false → key_effect m (handleManagementKey key m).
Proof.
  intros Hp. unfold handleManagementKey.
  key_case; [|key_case; [|key_case; [|key_case; [|key_case; [|key_case; [|key_case; [|key_case; [|key_case]]]]]]]].
  - apply if_writable_effect. intros st Hi. apply key_tame, (tame_status _ st), open_editor_tame, beginTransientDraft_tame, Hi.
  - apply if_writable_effect. intros st Hi. apply key_tame, (tame_status _ st), with_selected_tame. intros rule.
    by apply open_editor_tame, beginTransientDraft_tame.
  - apply if_writable_effect. intros st Hi. apply key_tame, (tame_status _ st), with_selected_tame. intros rule.
    by apply open_editor_tame, beginTransientDraft_tame.
  - apply if_writable_effect. intros st Hi. by apply key_tame, (tame_status _ st), stageToggle_tame.
  - apply if_writable_effect. intros st Hi. apply key_tame, (tame_status _ st), with_selected_tame. intros rule. same.
  - apply startPrecheck_effect.
  - apply key_tame, request_apply_tame.
  - apply key_tame. repeat case_match; same.
  - apply if_writable_effect. intros st Hi. apply key_tame, (tame_status _ st).
    pose proof (beginTransientDraft_tame (m <| ui_statusText := st |>)) as Hc. by apply (tame_after _ _ _ _ _ (Hc Hi)).
  - tame_by.
Qed.

Lemma openSelectedPrecheckFinding_effect m : key_effect m (openSelectedPrecheckFinding m).
Proof.
  apply if_writable_effect. intros st Hi. apply key_tame, (tame_status _ st). cbv zeta. repeat case_match; by apply tame_same.
Qed.

Lemma quit_or_ask_tame m : tame m (quit_or_ask m).1 (quit_or_ask m).2.
Proof. unfold quit_or_ask. destruct (ui_draft m); same. Qed.

Lemma handlePrecheckKey_effect key env m : key_effect m (handlePrecheckKey key env m).
Proof.
  unfold handlePrecheckKey.
  key_case; [apply key_tame, quit_or_ask_tame|]. key_case; [tame_by|]. key_case; [tame_by|]. key_case; [tame_by|].
  key_case; [tame_by|]. key_case; [destruct (precheck_passed m); [tame_by|apply openSelectedPrecheckFinding_effect]|].
  key_case; [apply openSelectedPrecheckFinding_effect|]. key_case; [apply key_tame; repeat case_match; same|].
  key_case; [apply startPrecheck_effect|tame_by].
Qed.

(** Handlers without operations and drafts: open the definitions and look at every branch. *)
Ltac open_requests :=
  unfold reconnect, refreshCommands, refetch_bot, fetch_bot, fetch_runtime, beginConfigBarrier, beginBotOperation, beginConfigRequest,
    beginStatsRequest, beginRulesRequest, beginSessionRequest, beginServiceRequest, wait_bot; cbv beta iota zeta.
Ltac branches := open_requests; repeat case_match; apply tame_same; frame; done.

Lemma openBotConfig_tame m : tame m (openBotConfig m).1 (openBotConfig m).2.
Proof. unfold openBotConfig. branches. Qed.

Lemma handleBotConfigKey_tame key m : tame m (handleBotConfigKey key m).1 (handleBotConfigKey key m).2.
Proof. unfold handleBotConfigKey, quit_or_ask. branches. Qed.

Lemma save_bot_tame editor m : tame m (save_bot editor m).1 (save_bot editor m).2.
Proof. unfold save_bot. branches. Qed.
Lemma handleBotEditorKey_tame key m : tame m (handleBotEditorKey key m).1 (handleBotEditorKey key m).2.
Proof.
  unfold handleBotEditorKey. destruct (ui_botEditor m); [|same]. key_case; [same|].
  destruct (bot_busy m); [branches|]. key_case; [branches|]. key_case; [branches|]. key_case; [apply save_bot_tame|branches].
Qed.

Lemma startService_tame m : tame m (startService m).1 (startService m).2.
Proof. unfold startService. branches. Qed.
Lemma startServiceElevated_tame env m : tame m (startServiceElevated env m).1 (startServiceElevated env m).2.
Proof. unfold startServiceElevated. branches. Qed.

Lemma confirm_apply_effect m : key_effect m (confirm_apply m).
Proof.
  unfold confirm_apply. cbv zeta. destruct (bool_decide _) eqn:Ho; [|tame_by]. apply bool_decide_eq_true in Ho. reduce.
  simpl ui_draft. destruct (ui_draft m) as [d|] eqn:Hd; [|tame_by].
  destruct (bool_decide _) eqn:Hs; [|tame_by]. apply bool_decide_eq_true in Hs. by apply (apply_effect _ d).
Qed.

Lemma confirm_overlay_effect env m : ui_operation m = operationIdle → key_effect m (confirm_overlay env m).
Proof.
  intros Hi. unfold confirm_overlay. destruct (ui_overlay m); try tame_by.
  - rewrite Hi. by apply reload_effect.
  - by apply key_tame, stageDelete_tame.
  - apply confirm_apply_effect.
  - by apply key_tame, confirm_discard_tame.
  - apply key_tame, (cancelTransientDraft_tame _ _ []); [done|same].
  - apply key_tame. branches.
  - apply key_tame, startService_tame.
  - apply key_tame, startServiceElevated_tame.
Qed.

Lemma handleOverlayKey_effect key env m : pending_key key m = false ∨ ui_overlay m = overlayLanguage → key_effect m (handleOverlayKey key env m).
Proof.
  intros Hp. destruct (decide (ui_overlay m = overlayLanguage)) as [Hl|Hl].
  { unfold handleOverlayKey. rewrite Hl. apply key_tame. repeat case_match; apply tame_same; frame; done. }
  destruct Hp as [Hp|]; [|done].
  assert (key_effect m (if key_in key ["esc"; "n"] then (m <| ui_overlay := overlayNone |>, [])
    else if key_in key confirm then confirm_overlay env m else (m, []))) as Hother.
  { key_case; [tame_by|]. key_case; [|tame_by]. apply confirm_overlay_effect. unfold confirm in *. idle. }
  unfold handleOverlayKey. destruct (ui_overlay m); try exact Hother; [apply key_tame; branches|done|].
  key_case; [|key_case; [|tame_by]].
  - apply key_tame, (cancelTransientDraft_tame _ _ []); [idle|same].
  - apply key_tame, stageUDPSettings_tame. idle.
Qed.

Lemma handleFilterInput_tame key m : tame m (handleFilterInput key m) [].
Proof. unfold handleFilterInput. branches. Qed.

Lemma beginServiceInspection_tame m : tame m (beginServiceInspection m).1 (beginServiceInspection m).2.
Proof. unfold beginServiceInspection. branches. Qed.

Lemma operations_app l r : operations (l ++ r) = operations l ++ operations r.
Proof. apply List.filter_app. Qed.

Lemma refreshNow_tame m : tame m (refreshNow m).1 (refreshNow m).2.
Proof.
  unfold refreshNow. open_requests. match goal with |- context [if ?b then _ else _] => destruct b end; [|by apply tame_same].
  match goal with |- context [beginServiceInspection ?n] =>
    pose proof (beginServiceInspection_tame n) as Hn; destruct (beginServiceInspection n) as [m' inspect] end.
  apply (tame_from _ m) in Hn; [|done..]. apply (tame_after _ _ _ _ _ Hn); try done.
  apply (calm_commands _ _ _ (tame_calm _ _ _ Hn)).
Qed.

Lemma enter_key_effect m : key_effect m (enter_key m).
Proof.
  unfold enter_key. destruct (ui_view m); try tame_by.
  - apply key_tame. branches.
  - destruct (ui_draft m) eqn:Hd; [|apply key_tame; branches]. destruct (precheck_passed m); [tame_by|].
    destruct (bool_decide _); [tame_by|apply startPrecheck_effect].
Qed.

Lemma moveSelection_frame delta m : ∃ id, moveSelection delta m = m <| ui_selectedRuleID := id |>.
Proof. apply selectRuleAt_frame. Qed.

Lemma cycleSort_tame m : tame m (cycleSort m) [].
Proof. unfold cycleSort. branches. Qed.

(** A key that only acts in the list of rules. *)
Lemma in_rules_tame (f : Model → Model) m : tame m (f m) [] → tame m (if bool_decide (ui_view m = viewRules) then f m else m) [].
Proof. intros Hf. destruct (bool_decide _); [done|same]. Qed.
Lemma select_tame i m : tame m (selectRuleAt i m) [].
Proof. same. Qed.

Lemma handleMainKey_effect key env m : pending_key key m = false → key_effect m (handleMainKey key env m).
Proof.
  intros Hp. unfold handleMainKey. cbv zeta.
  key_case; [apply key_tame, quit_or_ask_tame|].
  do 5 (key_case; [apply key_tame; branches|]).
  key_case; [apply key_tame, refreshNow_tame|].
  do 3 (key_case; [apply key_tame; branches|]).
  key_case; [apply key_tame, openBotConfig_tame|]. key_case; [tame_by|].
  do 6 (key_case; [apply key_tame, (in_rules_tame _ m), select_tame|]).
  key_case; [apply enter_key_effect|]. key_case; [apply key_tame, (in_rules_tame _ m), cycleSort_tame|].
  key_case; [apply key_tame; branches|].
  destruct (_ || _); [by apply handleManagementKey_effect|tame_by].
Qed.

Lemma handleNavigationKey_tame key m r : handleNavigationKey key m = Some r → tame m r.1 r.2.
Proof.
  unfold handleNavigationKey. repeat key_case; intros [= <-]; first [same | apply openBotConfig_tame].
Qed.
Lemma handleResultKey_effect key env m r : handleResultKey key env m = Some r → key_effect m r.
Proof.
  unfold handleResultKey. destruct (ui_view m); intros Hr; simplify_eq.
  - apply handlePrecheckKey_effect.
  - revert Hr. repeat key_case; intros [= <-]; tame_by.
Qed.

Lemma handleKey_effect key env m : key_effect m (handleKey key env m).
Proof.
  unfold handleKey. destruct (bool_decide (ui_overlay m = overlayLanguage)) eqn:Hl.
  { apply handleOverlayKey_effect. right. by apply bool_decide_eq_true in Hl. }
  destruct (serviceBusy m); [key_case; tame_by|]. destruct (pending_key key m) eqn:Hp; [tame_by|].
  destruct (negb _); [apply handleOverlayKey_effect; by left|].
  assert (key_effect m (if ui_filterActive m then (handleFilterInput key m, []) else match handleNavigationKey key m with
     | Some r => r | None => default (handleMainKey key env m) (handleResultKey key env m) end)) as Hmain.
  { destruct (ui_filterActive m); [apply key_tame, handleFilterInput_tame|].
    destruct (handleNavigationKey key m) eqn:Hn; [by apply key_tame, (handleNavigationKey_tame key)|].
    destruct (handleResultKey key env m) eqn:Hr; [by apply (handleResultKey_effect key env)|by apply handleMainKey_effect]. }
  destruct (ui_view m); try exact Hmain.
  - by apply key_tame, handleEditorKey_tame.
  - destruct (handleNavigationKey key m) eqn:Hn; [by apply key_tame, (handleNavigationKey_tame key)|apply key_tame, handleBotConfigKey_tame].
  - apply key_tame, handleBotEditorKey_tame.
Qed.

(** ** Answers *)

(** An answer that ends no operation. *)
Definition ordinary (msg : Msg) : Prop :=
  match msg with KeyMsg _ _ | PrecheckMsg _ | ApplyMsg _ | ReloadMsg _ => False | _ => True end.

Lemma background_calm m m' cmds : background m m' cmds → calm m m' cmds.
Proof. intros [Ho Hc Hd Hs]. split; [done|done|done|]. auto. Qed.

(** An answer that brings no configuration either. *)
Record quiet (m m' : Model) (cmds : list Cmd) : Prop := {
  quiet_background : background m m' cmds;
  quiet_config : ui_config m' = ui_config m
}.
Lemma quiet_same m m' cmds : ui_operation m' = ui_operation m → ui_draft m' = ui_draft m → ui_sync m' = ui_sync m →
  ui_config m' = ui_config m → operations cmds = [] → quiet m m' cmds.
Proof. intros Ho Hd Hs Hg Hc. split; [split; [done|done|done|by rewrite Hs]|done]. Qed.
Lemma quiet_from m0 m m' cmds : ui_operation m0 = ui_operation m → ui_draft m0 = ui_draft m → ui_sync m0 = ui_sync m →
  ui_config m0 = ui_config m → quiet m0 m' cmds → quiet m m' cmds.
Proof. intros E1 E2 E3 E4 [[] Hg]. rewrite E1, E2, E3, E4 in *. by repeat split. Qed.

Ltac still := apply quiet_same; simpl; frame; done.
Ltac still_branches := open_requests; repeat case_match; still.

(** What a configuration does: the draft stays, and the configuration is taken when
    there is no draft or it has the draft's base revision. *)
Lemma handleConfigRules_config id resp m : let m' := handleConfigRules id resp m in
  background m m' [] ∧
  (ui_config m' = ui_config m ∨
   ∃ config, resp = Ok config ∧ ui_config m' = Some config ∧ (∀ d, ui_draft m = Some d → cr_Revision config = d_BaseRevision d)).
Proof.
  unfold handleConfigRules. destruct (id <? _); [split; [by split|by left]|]. cbv zeta. destruct resp as [config|e].
  - match goal with |- context [acceptConfig config ?m1] =>
      assert (ui_draft m1 = ui_draft m ∧ ui_sync m1 = ui_sync m ∧ ui_operation m1 = ui_operation m ∧ ui_config m1 = ui_config m)
        as (Hd & Hs & Ho & Hg) by (case_match; done); revert Hd Hs Ho Hg; generalize m1 end.
    intros m1 Hd Hs Ho Hg. unfold acceptConfig. rewrite Hd. destruct (ui_draft m) as [d|] eqn:Hdraft.
    + case_bool_decide as Hrev; cbv zeta; cbn [negb].
      * split; [|right; exists config; split; [done|]; case_bool_decide; (split; [done|]); by intros ? [= <-]].
        case_bool_decide; (split; simpl; [congruence|done|congruence|]); [done|]. by rewrite Hs.
      * split; [split; simpl; congruence|by left].
    + frame. split; [split; simpl; congruence|]. right. by exists config.
  - destruct (ui_config m) eqn:Hg; simpl; rewrite Hg; (split; [by split|by left]).
Qed.

Lemma refetch_quiet m m0 : ui_operation m0 = ui_operation m → ui_draft m0 = ui_draft m → ui_sync m0 = ui_sync m → ui_config m0 = ui_config m →
  quiet m (let '(commands, m1) := refetch_bot m0 in (m1, commands)).1 (let '(commands, m1) := refetch_bot m0 in (m1, commands)).2.
Proof. intros E1 E2 E3 E4. apply (quiet_from m0); [done..|]. open_requests. still. Qed.
Lemma bot_failed_quiet operation e m : quiet m (bot_failed operation e m).1 (bot_failed operation e m).2.
Proof.
  unfold bot_failed. cbv zeta. destruct (botConfigUnavailableState e) as [[message refresh] committed].
  repeat match goal with |- context [if ?b then _ else _] => destruct b; cbv beta iota zeta end;
    first [by apply refetch_quiet | by apply quiet_same].
Qed.

Lemma bot_answered_quiet operation config m : quiet m (bot_answered operation config m).1 (bot_answered operation config m).2.
Proof. unfold bot_answered, close_bot_editor. cbv zeta. still_branches. Qed.

Lemma handleBotConfig_quiet id operation resp m :
  quiet m (handleBotConfig id operation resp m).1 (handleBotConfig id operation resp m).2.
Proof.
  unfold handleBotConfig. destruct (_ || _); [still|]. cbv zeta. destruct resp as [config|e].
  - by apply (quiet_from (m <| ui_botOperation := botOperationIdle |>)); [..|apply bot_answered_quiet].
  - by apply (quiet_from (m <| ui_botOperation := botOperationIdle |>)); [..|apply bot_failed_quiet].
Qed.

Lemma handleStats_quiet id resp m : quiet m (handleStats id resp m).1 (handleStats id resp m).2.
Proof.
  unfold handleStats. destruct (negb _); [still|]. cbv zeta. destruct resp as [stats|e].
  - unfold resetServiceRecovery. still_branches.
  - destruct (shouldInspectService _ _); [|still]. unfold beginServiceInspection. still_branches.
Qed.

Lemma handleTick_quiet m : quiet m (handleTick m).1 (handleTick m).2.
Proof.
  unfold handleTick. destruct (ui_paused m); [still|]. open_requests.
  match goal with |- context [if ?b then _ else _] => destruct b end; still.
Qed.

(** An ordinary answer is quiet unless it brings the configuration. *)
Lemma ordinary_quiet msg m : ordinary msg → (∃ id resp, msg = ConfigRulesMsg id resp) ∨ quiet m (update msg m).1 (update msg m).2.
Proof.
  destruct msg; intros Hm; try done; [right|right|right|right|left; by eexists _, _|right..]; simpl update.
  - apply handleTick_quiet.
  - apply handleStats_quiet.
  - still_branches.
  - still_branches.
  - apply handleBotConfig_quiet.
  - unfold handleBotAction. cbv zeta. still_branches.
  - unfold handleServiceInspect. still_branches.
  - unfold handleServiceStart, service_start_failed. cbv zeta. still_branches.
  - unfold handleServiceReconnect. still_branches.
  - unfold handleWheel. cbv zeta. repeat case_match; unfold moveSelection; still.
  - still.
Qed.
Lemma ordinary_background msg m : ordinary msg → background m (update msg m).1 (update msg m).2.
Proof.
  intros Hm. destruct (ordinary_quiet msg m Hm) as [(id & resp & ->)|[Hb _]]; [|done]. apply handleConfigRules_config.
Qed.

(** What the results of operations do. *)
Lemma precheck_result resp m :
  let m' := handlePrecheckResult resp m in
  ui_operation m' = operationIdle ∧ ui_draft m' = ui_draft m ∧ ui_config m' = ui_config m ∧
  (ui_sync m' = syncValidated → ui_sync m = syncValidated ∨ ∃ r, resp = Ok r ∧ OK (pc_Precheck r) = true).
Proof.
  assert (∀ m', ui_operation m' = operationIdle → ui_draft m' = ui_draft m → ui_config m' = ui_config m →
    ui_sync m' = ui_sync m ∨ ui_sync m' = syncStale ∨ ui_sync m' = syncDirty ∨ (∃ r, resp = Ok r ∧ OK (pc_Precheck r) = true) →
    ui_operation m' = operationIdle ∧ ui_draft m' = ui_draft m ∧ ui_config m' = ui_config m ∧
    (ui_sync m' = syncValidated → ui_sync m = syncValidated ∨ ∃ r, resp = Ok r ∧ OK (pc_Precheck r) = true)) as Hsplit.
  { intros m' Ho Hd Hg Hs. split_and!; [done..|]. intros Hv. destruct Hs as [Hs|[Hs|[Hs|Hs]]]; [left; congruence|congruence..|by right]. }
  unfold handlePrecheckResult. cbv zeta. destruct resp as [r|e]; [|case_match; apply Hsplit; simpl; auto].
  destruct (ui_draft (m <| ui_operation := operationIdle |>)) as [d|]; [|apply Hsplit; simpl; auto].
  repeat case_match; apply Hsplit; simpl; eauto 6.
Qed.

(** An apply keeps the draft, or takes what was applied, or was committed all the same. *)
Inductive apply_outcome (m : Model) (resp : result ClientError ApplyResponse) (m' : Model) : Prop :=
| apply_kept : ui_draft m' = ui_draft m → ui_config m' = ui_config m → apply_outcome m resp m'
| apply_taken r config : resp = Ok r → ui_draft m' = None → ui_config m' = Some config →
    cr_Revision config = cr_Revision (ap_Rules r) → cr_ETag config = cr_ETag (ap_Rules r) →
    cr_Rules config = cr_Rules (ap_Rules r) → cr_UDPMaxSessions config = cr_UDPMaxSessions (ap_Rules r) → apply_outcome m resp m'
| apply_committed status message : resp = Err (APIError status (ConfigPayload (CommittedBody message))) →
    ui_draft m' = None → ui_config m' = ui_config m → apply_outcome m resp m'.

Lemma apply_result resp m :
  let '(m', cmds) := handleApplyResult resp m in
  ui_operation m' = operationIdle ∧ operations cmds = [] ∧
  (ui_sync m' = syncValidated → ui_sync m = syncValidated ∧ ui_draft m' = ui_draft m) ∧ apply_outcome m resp m'.
Proof.
  unfold handleApplyResult. destruct resp as [r|e].
  - unfold applied. open_requests. frame. split_and!; [done..|]. eapply apply_taken; [done..| | | |]; simpl; repeat case_match; done.
  - destruct (rulesApplyUnavailableState e) as [|message reconcile committed] eqn:He.
    + unfold reject_apply. cbv zeta. repeat case_match; (split; [done|split; [done|]]); (split; [|by apply apply_kept]); simpl; intros Hs; auto; done.
    + unfold uncertain_apply. cbv zeta. open_requests. destruct committed.
      * assert (∃ status text, e = APIError status (ConfigPayload (CommittedBody text))) as (status & text & ->).
        { revert He. unfold rulesApplyUnavailableState. repeat case_match; intros; simplify_eq; eauto. }
        destruct reconcile; frame; (split; [done|split; [done|split; [done|]]]); by eapply apply_committed.
      * destruct reconcile; repeat case_match; (split; [done|split; [done|]]); (split; [|by apply apply_kept]); simpl; intros Hs; auto; done.
Qed.
End tui_spec.

(** ** Tactics for handlers *)

Ltac frame :=
  repeat match goal with
  | |- context [reconcileSelection ?m] => destruct (reconcileSelection_frame m) as [? ->]
  | |- context [selectRuleAt ?i ?m] => destruct (selectRuleAt_frame i m) as [? ->]
  | |- context [setLanguage ?l ?m] => destruct (setLanguage_frame l m) as (? & ? & ? & ? & ->)
  end.
Ltac open_requests :=
  unfold reconnect, refreshCommands, refetch_bot, fetch_bot, fetch_runtime, beginConfigBarrier, beginBotOperation, beginConfigRequest,
    beginStatsRequest, beginRulesRequest, beginSessionRequest, beginServiceRequest, wait_bot; cbv beta iota zeta.
