(* ===== verification/TuiDraftSpec.v ===== *)
(** * The terminal interface: what reaches the daemon

    What is applied was checked; what is sent is valid and is what the screen shows;
    only a key or a commit drops a draft. *)

From S2P Require Import Prelude GoStrings Calendar NetIP SourceIP Limits Rule Config GoText Stats Quota Manager Precheck Management FileIO ControlClient.
From S2P Require Import TuiEditor TuiEditorSpec Tui TuiSpec.

Section tui_draft.
Context {inputs : TextInput} {ansi : Ansi} {tz : TzDatabase}.
Variable allowed : Msg → Prop.

(** ** What is applied was checked *)

Definition operation_inv (m : Model) (pending : list Cmd) (checked : list (string * ConfigRulesRequest)) : Prop :=
  match ui_operation m with
  | operationIdle => operations pending = []
  | operationPrechecking => ∃ d, ui_draft m = Some d ∧ operations pending = [PrecheckCmd (d_BaseETag d) (draft_request d)]
  | operationApplying => ∃ d, ui_draft m = Some d ∧ operations pending = [ApplyCmd (d_BaseETag d) (draft_request d)] ∧
      (d_BaseETag d, draft_request d) ∈ checked
  | operationReloading => operations pending = [ReloadCmd]
  end.
(** A draft shown as validated passed its precheck as it is. *)
Definition validated_inv (m : Model) (checked : list (string * ConfigRulesRequest)) : Prop :=
  ui_sync m = syncValidated → ∃ d, ui_draft m = Some d ∧ (d_BaseETag d, draft_request d) ∈ checked.

Record inv (s : Sys) : Prop := {
  inv_operation : operation_inv (sys_model s) (sys_pending s) (sys_checked s);
  inv_validated : validated_inv (sys_model s) (sys_checked s)
}.

Lemma validated_weaken m checked extra : validated_inv m checked → validated_inv m (checked ++ extra).
Proof. intros Hv Hs. destruct (Hv Hs) as (d & Hd & Hin). exists d. split; [done|]. apply elem_of_app. by left. Qed.

(** A calm step keeps both. *)
Lemma calm_inv m m' cmds pending pending' checked extra : calm m m' cmds → operations pending' = operations pending ++ operations cmds →
  operation_inv m pending checked → validated_inv m checked →
  operation_inv m' pending' (checked ++ extra) ∧ validated_inv m' (checked ++ extra).
Proof.
  intros [Ho Hc Hd Hs] Hp Hop Hv. rewrite Hc, app_nil_r in Hp. split.
  - unfold operation_inv in *. rewrite Ho, Hp. destruct (ui_operation m); [done| | |done].
    + by rewrite Hd.
    + rewrite Hd by done. destruct Hop as (d & Hd0 & -> & Hin). exists d. split_and!; [done..|]. apply elem_of_app. by left.
  - apply validated_weaken. intros Hs'. destruct (Hs Hs') as [Hs0 Hdraft]. destruct (Hv Hs0) as (d & Hd0 & Hin).
    exists d. split; [|done]. destruct Hdraft as [->|Hnone]; [done|congruence].
Qed.

Lemma idle_operations m pending checked : ui_operation m = operationIdle → operation_inv m pending checked → operations pending = [].
Proof. unfold operation_inv. by intros ->. Qed.

Lemma key_inv m r pending checked : key_effect m r → operation_inv m pending checked → validated_inv m checked →
  operation_inv r.1 (pending ++ r.2) checked ∧ validated_inv r.1 checked.
Proof.
  intros He Hop Hv. destruct He as [m' cmds [Hc _ _]|d m' Hi Hd Hd' Hs _ Ho|d m' Hi Hd Hs Hd' Hs' _ Ho|m' Hi Hd Hs _ Ho]; simpl.
  - rewrite <-(app_nil_r checked). apply (calm_inv m m' cmds pending); [done| |done|done]. by rewrite operations_app.
  - pose proof (idle_operations _ _ _ Hi Hop) as Hp. split.
    + unfold operation_inv. rewrite Ho. exists d. split; [done|]. by rewrite operations_app, Hp.
    + intros Hv'. rewrite Hs in Hv'. destruct (Hv Hv') as (d0 & Hd0 & Hin). simplify_eq. by exists d.
  - pose proof (idle_operations _ _ _ Hi Hop) as Hp. destruct (Hv Hs) as (d0 & Hd0 & Hin). assert (d0 = d) as -> by congruence. split.
    + unfold operation_inv. rewrite Ho. exists d. split_and!; [done| |done]. by rewrite operations_app, Hp.
    + intros _. by exists d.
  - pose proof (idle_operations _ _ _ Hi Hop) as Hp. split.
    + unfold operation_inv. rewrite Ho. by rewrite operations_app, Hp.
    + intros Hv'. rewrite Hs in Hv'. rewrite Hd. by apply Hv.
Qed.

(** The one operation that runs is the one answered. *)
Lemma operation_alone before cmd after m checked : is_operation cmd = true → operation_inv m (before ++ cmd :: after) checked →
  operations (before ++ after) = [] ∧ operations (before ++ cmd :: after) = [cmd].
Proof.
  intros Hc Hop. rewrite !operations_app. unfold operation_inv in Hop. rewrite operations_app in Hop.
  assert (operations (cmd :: after) = cmd :: operations after) as Hcons by (unfold operations; simpl; by rewrite Hc).
  rewrite Hcons in *.
  assert (∀ x, operations before ++ cmd :: operations after = [x] → operations before = [] ∧ operations after = [] ∧ cmd = x) as Hone.
  { intros x E. destruct (operations before) as [|y l]; simpl in E; [by injection E as -> ->|].
    injection E as _ E. by destruct l. }
  destruct (ui_operation m).
  - by destruct (operations before).
  - destruct Hop as (d & _ & E). by destruct (Hone _ E) as (-> & -> & ->).
  - destruct Hop as (d & _ & E & _). by destruct (Hone _ E) as (-> & -> & ->).
  - by destruct (Hone _ Hop) as (-> & -> & ->).
Qed.

Lemma ordinary_answers cmd msg : answers cmd msg → is_operation cmd = false → ordinary msg.
Proof. by destruct 1. Qed.

Lemma operations_remove before cmd after : is_operation cmd = false → operations (before ++ after) = operations (before ++ cmd :: after).
Proof. intros Hc. rewrite !operations_app. f_equal. unfold operations. simpl. by rewrite Hc. Qed.

(** The model after an operation was answered is idle. *)
Lemma idle_inv m pending checked : ui_operation m = operationIdle → operations pending = [] → operation_inv m pending checked.
Proof. unfold operation_inv. by intros ->. Qed.

Lemma step_inv s s' : step allowed s s' → inv s → inv s'.
Proof.
  intros [msg m pending checked Hu|cmd msg m before after checked Ha _] [Hop Hv]; simpl in *.
  - destruct msg as [| | | | | | | | | | | | |key env|up|w h]; try done; simpl update.
    + destruct (key_inv m (handleKey key env m) pending checked) as [H1 H2]; [apply handleKey_effect|done..].
    + pose proof (background_calm _ _ _ (ordinary_background (WheelMsg up) m I)) as Hc. rewrite <-(app_nil_r checked).
      destruct (calm_inv _ _ _ pending (pending ++ []) checked [] Hc) as [H1 H2]; [by rewrite operations_app|done..].
    + pose proof (background_calm _ _ _ (ordinary_background (WindowSizeMsg w h) m I)) as Hc. rewrite <-(app_nil_r checked).
      destruct (calm_inv _ _ _ pending (pending ++ []) checked [] Hc) as [H1 H2]; [by rewrite operations_app|done..].
  - destruct (is_operation cmd) eqn:Hc.
    + destruct (operation_alone before cmd after m checked Hc Hop) as [Hnone Hone].
      inversion Ha; subst; try done; simpl update.
      * pose proof (precheck_result r m) as (Ho & Hd & _ & Hs). split; simpl.
        -- apply idle_inv; [done|]. by rewrite app_nil_r.
        -- intros Hval. destruct (Hs Hval) as [Hs0|(r' & -> & Hok)].
           ++ destruct (validated_weaken m checked (checked_by (PrecheckCmd etag draft) (PrecheckMsg r)) Hv Hs0) as (d & Hd0 & Hin).
              exists d. split; [congruence|done].
           ++ unfold operation_inv in Hop. rewrite Hone in Hop. destruct (ui_operation m); try done.
              ** destruct Hop as (d & Hd0 & [= -> ->]). exists d. split; [congruence|]. simpl. rewrite Hok.
                 apply elem_of_app. right. by apply list_elem_of_singleton.
              ** by destruct Hop as (? & _ & ? & _).
      * pose proof (apply_result r m) as Hr. destruct (handleApplyResult r m) as [m' cmds]. destruct Hr as (Ho & Hcmds & Hs & _). split; simpl.
        -- apply idle_inv; [done|]. by rewrite operations_app, Hnone, Hcmds.
        -- apply validated_weaken. intros Hval. destruct (Hs Hval) as [Hs0 Hd]. rewrite Hd. by apply Hv.
      * split; simpl.
        -- unfold handleReload. cbv zeta. open_requests. destruct r; (apply idle_inv; [done|]); rewrite operations_app, Hnone; done.
        -- apply validated_weaken. unfold handleReload. cbv zeta. open_requests. by destruct r.
    + destruct (calm_inv _ _ _ (before ++ cmd :: after) ((before ++ after) ++ (update msg m).2) checked (checked_by cmd msg)
        (background_calm _ _ _ (ordinary_background msg m (ordinary_answers _ _ Ha Hc)))) as [H1 H2]; [|done|done|by split].
      by rewrite (operations_app (before ++ after)), (operations_remove before cmd after).
Qed.

Lemma start_inv locale controller : inv (start locale controller).
Proof. by split. Qed.

Lemma reachable_inv s : reachable allowed s → inv s.
Proof.
  intros (locale & controller & Hrun). pose proof (start_inv locale controller) as Hi.
  induction Hrun as [|x y z Hxy _ IH]; [done|]. by eapply IH, step_inv.
Qed.

Lemma operations_in cmd pending : is_operation cmd = true → cmd ∈ pending → cmd ∈ operations pending.
Proof. intros Hc Hin. apply list_elem_of_In, filter_In. split; [by apply list_elem_of_In|done]. Qed.

(** C8: whatever the user types and in whatever order the daemon's answers and the timers
    arrive, an apply only ever sends a draft, under the ETag it is based on, whose
    precheck passed with exactly that draft and that ETag. *)
Theorem applied_was_checked (s : Sys) (etag : string) (draft : ConfigRulesRequest)
    (Hs : reachable allowed s) (Happly : ApplyCmd etag draft ∈ sys_pending s) : (etag, draft) ∈ sys_checked s.
Proof.
  destruct (reachable_inv s Hs) as [Hop _].
  apply (operations_in (ApplyCmd etag draft)) in Happly as Hin; [|done].
  unfold operation_inv in Hop. destruct (ui_operation _).
  - rewrite Hop in Hin. by apply not_elem_of_nil in Hin.
  - destruct Hop as (d & _ & E). rewrite E in Hin. by apply list_elem_of_singleton in Hin.
  - destruct Hop as (d & _ & E & Hc). rewrite E in Hin. apply list_elem_of_singleton in Hin. by simplify_eq.
  - rewrite Hop in Hin. by apply list_elem_of_singleton in Hin.
Qed.

(** ** What is sent is valid and conditional on what is shown *)

(** A configuration as the daemon sends it. *)
Definition sane_config (c : ConfigRulesResponse) : Prop :=
  good_request {| cq_UDPMaxSessions := cr_UDPMaxSessions c; cq_Rules := cr_Rules c |} ∧ cr_ETag c = configETag (cr_Revision c).
Definition sane (msg : Msg) : Prop :=
  match msg with ConfigRulesMsg _ (Ok c) => sane_config c | ApplyMsg (Ok r) => sane_config (ap_Rules r) | _ => True end.

(** The draft is an edit of the configuration that is shown. *)
Definition draft_of_config (c : ConfigRulesResponse) (d : draftConfig) : Prop :=
  d_BaseRevision d = cr_Revision c ∧ d_BaseETag d = cr_ETag c ∧ good_request (draft_request d).
Definition based (m : Model) : Prop :=
  (∀ c, ui_config m = Some c → sane_config c) ∧ (∀ d, ui_draft m = Some d → ∃ c, ui_config m = Some c ∧ draft_of_config c d).

Lemma based_same m m' : ui_config m' = ui_config m → ui_draft m' = ui_draft m → based m → based m'.
Proof. unfold based. by intros -> ->. Qed.
Lemma based_dropped m' : ui_draft m' = None → (∀ c, ui_config m' = Some c → sane_config c) → based m'.
Proof. intros Hd Hc. split; [done|]. by rewrite Hd. Qed.

Lemma new_draft_of_config c : sane_config c → draft_of_config c (new_draft c).
Proof. intros [Hg _]. by split_and!. Qed.
Lemma edited_of_config c d d' : edited d d' → draft_of_config c d → draft_of_config c d'.
Proof. intros [Hr He Hg] (? & ? & ?). split_and!; [congruence|congruence|by apply Hg]. Qed.

Lemma key_based m r : key_effect m r → based m → based r.1.
Proof.
  intros He [Hc Hd]. destruct He as [m' cmds [_ Hg Hed]|d m' Hi Hd0 Hd' Hs Hg Ho|d m' Hi Hd0 Hs Hd' Hs' Hg Ho|m' Hi Hd' Hs Hg Ho]; simpl.
  - split; [by rewrite Hg|]. intros d' Hd'. destruct (Hed d' Hd') as (d & [Hof|(_ & c & Hcfg & ->)] & Hed').
    + destruct (Hd d Hof) as (c & Hcfg & Hbase). exists c. split; [congruence|]. by eapply edited_of_config.
    + exists c. split; [congruence|]. by eapply edited_of_config, new_draft_of_config, Hc.
  - by apply (based_same m); [|congruence|].
  - by apply (based_same m); [|congruence|].
  - by apply (based_same m).
Qed.

Lemma update_based msg m : sane msg → based m → based (update msg m).1.
Proof.
  intros Hsane Hb. pose proof Hb as [Hc Hd].
  assert (ordinary msg ∨ ¬ ordinary msg) as [Hm|Hm] by (destruct msg; simpl; tauto).
  - destruct (ordinary_quiet msg m Hm) as [(id & resp & ->)|[[_ _ Hd' _] Hg]]; [|by apply (based_same m)].
    destruct (handleConfigRules_config id resp m) as [[_ _ Hd' _] [Hg|(config & -> & Hg & Hrev)]]; [by apply (based_same m)|].
    simpl update. simpl in Hsane. split; simpl; [rewrite Hg; by intros ? [= <-]|]. rewrite Hd', Hg. intros d Hdraft. exists config.
    split; [done|]. destruct (Hd d Hdraft) as (c & Hcfg & Hr & He & Hgood). destruct (Hc c Hcfg) as [_ Htag], Hsane as [_ Htag'].
    pose proof (Hrev d Hdraft). split_and!; congruence.
  - destruct msg as [| | | | | | |resp|resp|resp| | | |key env| |]; try done; simpl update.
    + destruct (precheck_result resp m) as (_ & Hd' & Hg & _). by apply (based_same m).
    + pose proof (apply_result resp m) as Hr. destruct (handleApplyResult resp m) as [m' cmds]. destruct Hr as (_ & _ & _ & Hout).
      destruct Hout as [Hd' Hg|r config -> Hd' Hg Hrev Htag Hrules Hsessions|status message -> Hd' Hg]; simpl.
      * by apply (based_same m).
      * apply based_dropped; [done|]. rewrite Hg. intros ? [= <-]. unfold sane_config in *. simpl in Hsane.
        by rewrite Hrev, Htag, Hrules, Hsessions.
      * apply based_dropped; [done|]. by rewrite Hg.
    + apply (based_same m); [..|done]; unfold handleReload; cbv zeta; open_requests; by destruct resp.
    + by apply (key_based m), Hb; [apply handleKey_effect].
Qed.

Lemma reachable_based s : (∀ msg, allowed msg → sane msg) → reachable allowed s → based (sys_model s).
Proof.
  intros Hallowed (locale & controller & Hrun).
  assert (based (sys_model (start locale controller))) as Hb by by split.
  induction Hrun as [|x y z Hxy _ IH]; [done|]. apply IH.
  destruct Hxy as [msg m pending checked Hu|cmd msg m before after checked Ha Hm]; simpl in *; apply update_based; auto.
  by destruct msg.
Qed.

(** C9: when the daemon's configurations are valid, every rule that a precheck or an
    apply sends is in standard form and valid and the number of sessions is in
    range, whatever the user typed; the request is the draft on the screen, and the
    ETag it sends is that of the configuration against which the screen shows the
    draft's changes, even if the daemon's configuration has changed since. *)
Theorem requests_match_screen (s : Sys) (etag : string) (draft : ConfigRulesRequest)
    (Hallowed : ∀ msg, allowed msg → sane msg) (Hs : reachable allowed s)
    (Hsent : PrecheckCmd etag draft ∈ sys_pending s ∨ ApplyCmd etag draft ∈ sys_pending s) :
  good_request draft ∧
  ∃ d c, ui_draft (sys_model s) = Some d ∧ ui_config (sys_model s) = Some c ∧
    draft = draft_request d ∧ d_BaseRevision d = cr_Revision c ∧ etag = cr_ETag c.
Proof.
  destruct (reachable_inv s Hs) as [Hop _]. destruct (reachable_based s Hallowed Hs) as [_ Hd].
  assert (∃ cmd, cmd ∈ operations (sys_pending s) ∧ (cmd = PrecheckCmd etag draft ∨ cmd = ApplyCmd etag draft)) as (cmd & Hin & Hcmd).
  { destruct Hsent as [Hin|Hin]; [exists (PrecheckCmd etag draft)|exists (ApplyCmd etag draft)]; (split; [by apply operations_in|auto]). }
  assert (∃ d, ui_draft (sys_model s) = Some d ∧ draft = draft_request d ∧ etag = d_BaseETag d) as (d & Hdraft & -> & ->).
  { unfold operation_inv in Hop. destruct (ui_operation (sys_model s)).
    - rewrite Hop in Hin. by apply not_elem_of_nil in Hin.
    - destruct Hop as (d & Hdraft & E). rewrite E in Hin. apply list_elem_of_singleton in Hin. exists d. destruct Hcmd; subst; naive_solver.
    - destruct Hop as (d & Hdraft & E & _). rewrite E in Hin. apply list_elem_of_singleton in Hin. exists d. destruct Hcmd; subst; naive_solver.
    - rewrite Hop in Hin. apply list_elem_of_singleton in Hin. destruct Hcmd; subst; naive_solver. }
  destruct (Hd d Hdraft) as (c & Hcfg & Hrev & Htag & Hgood). split; [done|]. by exists d, c.
Qed.

(** ** Who may drop a draft *)

(** C10: a draft is only ever lost to a key: no timer, no answer and no error changes it,
    except the answer that the daemon has committed it. *)
Theorem answers_keep_draft (msg : Msg) (m : Model) (Hmsg : ∀ key env, msg ≠ KeyMsg key env) :
  ui_draft (update msg m).1 = ui_draft m ∨
  ui_draft (update msg m).1 = None ∧
    ((∃ r, msg = ApplyMsg (Ok r)) ∨ ∃ status revision, msg = ApplyMsg (Err (APIError status (ConfigPayload (CommittedBody revision))))).
Proof.
  assert (ordinary msg ∨ ¬ ordinary msg) as [Hm|Hm] by (destruct msg; simpl; tauto).
  { left. apply (ordinary_background msg m Hm). }
  destruct msg as [| | | | | | |resp|resp|resp| | | |key env| |]; try done; simpl update; [|..|by destruct (Hmsg key env)].
  - left. apply precheck_result.
  - pose proof (apply_result resp m) as Hr. destruct (handleApplyResult resp m) as [m' cmds]. destruct Hr as (_ & _ & _ & Hout).
    destruct Hout as [|r config -> ?|status message -> ?]; simpl; eauto 10.
  - left. unfold handleReload; cbv zeta; open_requests; by destruct resp.
Qed.
End tui_draft.
