(* ===== verification/TuiStampSpec.v ===== *)
(** * The terminal interface: generations of requests

    The numbers of requests for the configuration only grow, and an answer that is
    older than what the model holds is ignored. *)

From S2P Require Import Prelude GoStrings Calendar NetIP Limits Rule Config GoText Stats Quota Manager Precheck Management FileIO ControlClient.
From S2P Require Import TuiEditor TuiEditorSpec Tui TuiSpec.

Section stamps.
Context {inputs : TextInput} {ansi : Ansi} {tz : TzDatabase}.
Variable allowed : Msg → Prop.

(** The generation of the last request and of the newest answer. *)
Definition generations (m : Model) : Z * Z := (ui_configRequestID m, ui_lastConfigResponseID m).
Definition in_order (m : Model) : Prop := ui_lastConfigResponseID m ≤ ui_configRequestID m.
Definition fetches (cmds : list Cmd) : list Z := omap (λ c, match c with FetchConfigRulesCmd id => Some id | _ => None end) cmds.
Definition issued (m : Model) (cmds : list Cmd) : Prop := Forall (λ id, id ≤ ui_configRequestID m) (fetches cmds).

Record stamped (m m' : Model) (cmds : list Cmd) : Prop := {
  stamped_request : ui_configRequestID m ≤ ui_configRequestID m';
  stamped_last : ui_lastConfigResponseID m ≤ ui_lastConfigResponseID m';
  stamped_order : in_order m';
  stamped_issued : issued m' cmds
}.

Lemma fetches_app l r : fetches (l ++ r) = fetches l ++ fetches r.
Proof. apply omap_app. Qed.

Lemma stamped_same m m' cmds : in_order m → generations m' = generations m → fetches cmds = [] → stamped m m' cmds.
Proof. intros Ho [= E1 E2] Hc. split; unfold in_order, issued in *; [lia|lia|lia|by rewrite Hc]. Qed.
Lemma stamped_from m0 m m' cmds : generations m0 = generations m → stamped m0 m' cmds → stamped m m' cmds.
Proof. intros [= E1 E2] [Hr Hl Ho Hi]. split; [lia|lia|done|done]. Qed.
Lemma stamped_after m m1 m2 cmds : stamped m m1 cmds → generations m2 = generations m1 → stamped m m2 cmds.
Proof. intros [Hr Hl Ho Hi] [= E1 E2]. split; unfold in_order, issued in *; [lia|lia|lia|by rewrite E1]. Qed.

(** *** Handlers *)

Lemma generations_refresh m : generations (refreshDraftState m) = generations m.
Proof.
  unfold refreshDraftState. cbv zeta. simpl ui_draft. destruct (ui_draft m); [|done].
  repeat case_match; frame; done.
Qed.
Lemma generations_ensure m : generations (ensureDraft m).2 = generations m.
Proof. destruct (ensureDraft_cases m) as [(d & _ & ->)|(st & _ & ->)]; done. Qed.

(** Branches that issue no request, or count one up. *)
Ltac counted := split; unfold in_order, issued in *; simpl; try lia; repeat constructor; lia.
Ltac stamp := frame; first [by apply stamped_same | counted].
Ltac stamp_branches := open_requests; repeat case_match; stamp.
(** The same, with what a branch returns put in its place. *)
Ltac stamp_ifs :=
  open_requests; repeat match goal with |- context [if ?b then _ else _] => destruct b; cbv beta iota zeta end; stamp.
Ltac refreshed :=
  match goal with |- context [refreshDraftState ?m1] =>
    let Hr := fresh in pose proof (generations_refresh m1) as Hr; generalize dependent (refreshDraftState m1); intros ? Hr;
    apply stamped_same; [done|exact Hr|done]
  end.

Lemma beginTransientDraft_stamped m : in_order m → stamped m (beginTransientDraft m) [].
Proof.
  intros Ho. unfold beginTransientDraft. destruct (ui_draft m) as [d|]; [stamp|].
  destruct (ensureDraft_cases m) as [(d & _ & ->)|(st & _ & ->)]; stamp.
Qed.
Lemma stageEditorRule_stamped rule m : in_order m → stamped m (stageEditorRule rule m) [].
Proof.
  intros Ho. unfold stageEditorRule. destruct (ui_editor m); [|stamp].
  destruct (ensureDraft_cases m) as [(d & _ & ->)|(st & _ & ->)]; cbv beta iota zeta; cbn [negb]; [refreshed|stamp].
Qed.
Lemma stageToggle_stamped m : in_order m → stamped m (stageToggle m) [].
Proof.
  intros Ho. unfold stageToggle. destruct (selectedRule m) as [rule|]; [|stamp]. destruct (isDeleted _ m); [stamp|].
  destruct (ensureDraft_cases m) as [(d & _ & ->)|(st & _ & ->)]; cbv beta iota zeta; cbn [negb]; [|stamp].
  match goal with |- context [match ?x with Some _ => _ | None => _ end] => destruct x end; [refreshed|stamp].
Qed.
Lemma stageDelete_stamped m : in_order m → stamped m (stageDelete m) [].
Proof.
  intros Ho. unfold stageDelete. destruct (selectedRule m) as [rule|]; [|stamp].
  destruct (ensureDraft_cases m) as [(d & _ & ->)|(st & _ & ->)]; cbv beta iota zeta; cbn [negb]; [refreshed|stamp].
Qed.
Lemma stageUDPSettings_stamped m : in_order m → stamped m (stageUDPSettings m) [].
Proof.
  intros Ho. unfold stageUDPSettings. destruct (ParseInt _) as [value|]; [|stamp]. destruct (_ || _); [stamp|].
  destruct (ensureDraft_cases m) as [(d & _ & ->)|(st & _ & ->)]; cbv beta iota zeta; cbn [negb]; [refreshed|stamp].
Qed.
Lemma cancelTransientDraft_stamped m : in_order m → stamped m (cancelTransientDraft m).1 (cancelTransientDraft m).2.
Proof. intros Ho. unfold cancelTransientDraft. cbv zeta. stamp_branches. Qed.
Lemma confirm_discard_stamped m : in_order m → stamped m (confirm_discard m).1 (confirm_discard m).2.
Proof. intros Ho. unfold confirm_discard, discardDraft. cbv zeta. stamp_branches. Qed.

(** *** Keys *)

Lemma prepared_stamped f m : in_order m → (∀ m1, in_order m1 → generations m1 = generations m → stamped m1 (f m1).1 (f m1).2) →
  stamped m (if_writable f m).1 (if_writable f m).2.
Proof.
  intros Ho Hf. unfold if_writable. destruct (prepareWrite_frame m) as (ok & st & -> & _). destruct ok; [|stamp].
  by apply (stamped_from (m <| ui_statusText := st |>)); [|apply Hf].
Qed.
Lemma selected_stamped text f m : in_order m → (∀ rule, stamped m (f rule m) []) → stamped m (with_selected text f m).1 (with_selected text f m).2.
Proof. intros Ho Hf. unfold with_selected. destruct (selectedRule m); [|stamp]. destruct (isDeleted _ m); [stamp|apply Hf]. Qed.

Lemma startPrecheck_stamped m : in_order m → stamped m (startPrecheck m).1 (startPrecheck m).2.
Proof.
  intros Ho. unfold startPrecheck. destruct (prepareWrite_frame m) as (ok & st & -> & _). destruct ok; [|stamp].
  cbv beta iota zeta. cbn [negb]. destruct (ui_draft _); stamp.
Qed.

Lemma open_editor_stamped kind rule m m1 : stamped m m1 [] → stamped m (open_editor kind rule m1) [].
Proof. intros Hs. by apply (stamped_after _ _ _ _ Hs). Qed.

Ltac pick key := match goal with |- context [if ?b then _ else _] => lazymatch b with context [key] => destruct b end end.

Lemma handleManagementKey_stamped key m : in_order m → stamped m (handleManagementKey key m).1 (handleManagementKey key m).2.
Proof.
  intros Ho. unfold handleManagementKey.
  pick key; [|pick key; [|pick key; [|pick key; [|pick key; [|pick key; [|pick key; [|pick key; [|pick key]]]]]]]].
  - apply prepared_stamped; [done|]. intros. by apply open_editor_stamped, beginTransientDraft_stamped.
  - apply prepared_stamped; [done|]. intros. apply selected_stamped; [done|]. intros. by apply open_editor_stamped, beginTransientDraft_stamped.
  - apply prepared_stamped; [done|]. intros. apply selected_stamped; [done|]. intros. by apply open_editor_stamped, beginTransientDraft_stamped.
  - apply prepared_stamped; [done|]. intros. by apply stageToggle_stamped.
  - apply prepared_stamped; [done|]. intros. apply selected_stamped; [done|]. intros. stamp.
  - by apply startPrecheck_stamped.
  - unfold request_apply. stamp_branches.
  - stamp_branches.
  - apply prepared_stamped; [done|]. intros m1 Ho1 _. pose proof (beginTransientDraft_stamped m1 Ho1) as Hs. by apply (stamped_after _ _ _ _ Hs).
  - stamp.
Qed.

Lemma close_editor_stamped m : in_order m → stamped m (close_editor m).1 (close_editor m).2.
Proof.
  intros Ho. unfold close_editor. destruct (ui_editor m) as [editor|]; [|stamp]. destruct (editor_dirty editor); [stamp|].
  match goal with |- stamped _ (cancelTransientDraft ?m1).1 _ => apply (stamped_from m1); [done|by apply cancelTransientDraft_stamped] end.
Qed.
Lemma handleEditorKey_stamped key m : in_order m → stamped m (handleEditorKey key m).1 (handleEditorKey key m).2.
Proof.
  intros Ho. unfold handleEditorKey. destruct (ui_editor m) as [editor|]; [|stamp].
  pick key; [stamp|]. pick key; [stamp|]. pick key; [by apply close_editor_stamped|]. pick key; [|stamp].
  destruct (editor_rule editor) as [[rule accepted] editor']. cbv zeta. destruct accepted; [|stamp].
  apply (stamped_from (m <| ui_editor := Some editor' |>)); [done|by apply stageEditorRule_stamped].
Qed.

Lemma openFinding_stamped m : in_order m → stamped m (openSelectedPrecheckFinding m).1 (openSelectedPrecheckFinding m).2.
Proof. intros Ho. apply prepared_stamped; [done|]. intros. cbv zeta. stamp_branches. Qed.
Lemma handlePrecheckKey_stamped key env m : in_order m → stamped m (handlePrecheckKey key env m).1 (handlePrecheckKey key env m).2.
Proof.
  intros Ho. unfold handlePrecheckKey, quit_or_ask. pick key; [stamp_branches|].
  do 4 (pick key; [stamp|]). pick key; [destruct (precheck_passed m); [stamp|by apply openFinding_stamped]|].
  pick key; [by apply openFinding_stamped|]. pick key; [stamp_branches|]. pick key; [by apply startPrecheck_stamped|stamp].
Qed.

Lemma openBotConfig_stamped m : in_order m → stamped m (openBotConfig m).1 (openBotConfig m).2.
Proof. intros Ho. unfold openBotConfig. stamp_branches. Qed.
Lemma handleBotConfigKey_stamped key m : in_order m → stamped m (handleBotConfigKey key m).1 (handleBotConfigKey key m).2.
Proof. intros Ho. unfold handleBotConfigKey, quit_or_ask. stamp_branches. Qed.
Lemma handleBotEditorKey_stamped key m : in_order m → stamped m (handleBotEditorKey key m).1 (handleBotEditorKey key m).2.
Proof. intros Ho. unfold handleBotEditorKey, save_bot. stamp_branches. Qed.

Lemma confirm_overlay_stamped env m : in_order m → stamped m (confirm_overlay env m).1 (confirm_overlay env m).2.
Proof.
  intros Ho. unfold confirm_overlay. destruct (ui_overlay m); try stamp.
  - case_bool_decide; stamp.
  - pose proof (stageDelete_stamped m Ho) as Hs. by apply (stamped_after _ _ _ _ Hs).
  - unfold confirm_apply. stamp_branches.
  - by apply confirm_discard_stamped.
  - match goal with |- stamped _ (cancelTransientDraft ?m1).1 _ => apply (stamped_from m1); [done|by apply cancelTransientDraft_stamped] end.
  - stamp_branches.
  - unfold startService. stamp_branches.
  - unfold startServiceElevated. stamp_branches.
Qed.
Lemma handleOverlayKey_stamped key env m : in_order m → stamped m (handleOverlayKey key env m).1 (handleOverlayKey key env m).2.
Proof.
  intros Ho.
  assert (stamped m (if key_in key ["esc"; "n"] then (m <| ui_overlay := overlayNone |>, []) else if key_in key confirm then confirm_overlay env m else (m, [])).1
    (if key_in key ["esc"; "n"] then (m <| ui_overlay := overlayNone |>, []) else if key_in key confirm then confirm_overlay env m else (m, [])).2) as Hother.
  { destruct (key_in key ["esc"; "n"]); [stamp|]. destruct (key_in key confirm); [by apply confirm_overlay_stamped|stamp]. }
  unfold handleOverlayKey. destruct (ui_overlay m); try exact Hother; [stamp_branches|stamp_branches|].
  pick key; [|pick key; [by apply stageUDPSettings_stamped|stamp]].
  match goal with |- stamped _ (cancelTransientDraft ?m1).1 _ => apply (stamped_from m1); [done|by apply cancelTransientDraft_stamped] end.
Qed.

Lemma refreshNow_stamped m : in_order m → stamped m (refreshNow m).1 (refreshNow m).2.
Proof. intros Ho. unfold refreshNow, beginServiceInspection. stamp_ifs. Qed.
Lemma enter_key_stamped m : in_order m → stamped m (enter_key m).1 (enter_key m).2.
Proof.
  intros Ho. unfold enter_key. destruct (ui_view m); try stamp; [stamp_branches|].
  destruct (ui_draft m); [|stamp_branches]. destruct (precheck_passed m); [stamp|]. destruct (bool_decide _); [stamp|by apply startPrecheck_stamped].
Qed.
Lemma in_rules_stamped (f : Model → Model) m : in_order m → stamped m (f m) [] → stamped m (if bool_decide (ui_view m = viewRules) then f m else m) [].
Proof. intros Ho Hf. destruct (bool_decide _); [done|stamp]. Qed.
Lemma handleMainKey_stamped key env m : in_order m → stamped m (handleMainKey key env m).1 (handleMainKey key env m).2.
Proof.
  intros Ho. unfold handleMainKey, quit_or_ask. cbv zeta. do 6 (pick key; [stamp_branches|]).
  pick key; [by apply refreshNow_stamped|]. do 3 (pick key; [stamp_branches|]). pick key; [by apply openBotConfig_stamped|]. pick key; [stamp|].
  do 6 (pick key; [apply (in_rules_stamped _ m Ho); unfold moveSelection; stamp|]).
  pick key; [by apply enter_key_stamped|]. pick key; [apply (in_rules_stamped _ m Ho); unfold cycleSort; stamp_branches|].
  pick key; [stamp_branches|]. destruct (_ || _); [by apply handleManagementKey_stamped|stamp].
Qed.

Lemma handleNavigationKey_stamped key m r : in_order m → handleNavigationKey key m = Some r → stamped m r.1 r.2.
Proof.
  intros Ho. unfold handleNavigationKey.
  repeat match goal with |- context [if ?b then _ else _] => destruct b end; intros [= <-]; try stamp. by apply openBotConfig_stamped.
Qed.
Lemma handleResultKey_stamped key env m r : in_order m → handleResultKey key env m = Some r → stamped m r.1 r.2.
Proof.
  intros Ho. unfold handleResultKey. destruct (ui_view m); try done; [intros [= <-]; by apply handlePrecheckKey_stamped|].
  repeat match goal with |- context [if ?b then _ else _] => destruct b end; intros [= <-]; stamp.
Qed.
Lemma handleFilterInput_stamped key m : in_order m → stamped m (handleFilterInput key m) [].
Proof. intros Ho. unfold handleFilterInput. stamp_branches. Qed.

Lemma handleKey_stamped key env m : in_order m → stamped m (handleKey key env m).1 (handleKey key env m).2.
Proof.
  intros Ho. unfold handleKey. destruct (bool_decide (ui_overlay m = overlayLanguage)); [by apply handleOverlayKey_stamped|].
  destruct (serviceBusy m); [pick key; stamp|]. destruct (pending_key key m); [stamp|].
  destruct (negb _); [by apply handleOverlayKey_stamped|].
  assert (∀ r, handleNavigationKey key m = Some r → stamped m r.1 r.2) as Hnav by (intros r; by apply handleNavigationKey_stamped).
  assert (stamped m (default (handleMainKey key env m) (handleResultKey key env m)).1 (default (handleMainKey key env m) (handleResultKey key env m)).2)
    as Hrest.
  { destruct (handleResultKey key env m) eqn:Hr; [by eapply handleResultKey_stamped|by apply handleMainKey_stamped]. }
  destruct (handleNavigationKey key m) as [r|]; destruct (ui_view m), (ui_filterActive m); simpl;
    first [by apply handleEditorKey_stamped | by apply handleBotEditorKey_stamped | by apply handleFilterInput_stamped
          | by apply Hnav | exact Hrest | by apply handleBotConfigKey_stamped].
Qed.

(** *** Answers *)

Lemma acceptConfig_generations config m : generations (acceptConfig config m) = generations m.
Proof. unfold acceptConfig. repeat case_match; frame; done. Qed.

Lemma handleConfigRules_stamped id resp m : in_order m → id ≤ ui_configRequestID m → stamped m (handleConfigRules id resp m) [].
Proof.
  intros Ho Hid. unfold handleConfigRules. destruct (Z.ltb_spec id (ui_lastConfigResponseID m)); [stamp|]. cbv zeta.
  assert (stamped m (m <| ui_lastConfigResponseID := id |>) []) as Hs by counted.
  destruct resp as [config|e].
  - apply (stamped_after _ _ _ _ Hs). rewrite acceptConfig_generations. by case_match.
  - apply (stamped_after _ _ _ _ Hs). by case_match.
Qed.

Lemma handleApplyResult_stamped resp m : in_order m → stamped m (handleApplyResult resp m).1 (handleApplyResult resp m).2.
Proof.
  intros Ho. unfold handleApplyResult. cbv zeta. destruct resp as [r|e].
  - unfold applied. open_requests. stamp.
  - destruct (rulesApplyUnavailableState e) as [|message reconcile committed]; [unfold reject_apply; cbv zeta; stamp_branches|].
    unfold uncertain_apply. cbv zeta. open_requests. destruct reconcile, committed; repeat case_match; stamp.
Qed.

Lemma refetch_stamped m m0 : in_order m → generations m0 = generations m →
  stamped m (let '(commands, m1) := refetch_bot m0 in (m1, commands)).1 (let '(commands, m1) := refetch_bot m0 in (m1, commands)).2.
Proof. intros Ho Hg. apply (stamped_from m0); [done|]. injection Hg as E1 E2. open_requests. assert (in_order m0) by (unfold in_order in *; lia). stamp. Qed.

Lemma bot_failed_stamped operation e m : in_order m → stamped m (bot_failed operation e m).1 (bot_failed operation e m).2.
Proof.
  intros Ho. unfold bot_failed. cbv zeta. destruct (botConfigUnavailableState e) as [[message refresh] committed].
  repeat match goal with |- context [if ?b then _ else _] => destruct b; cbv beta iota zeta end;
    first [by apply refetch_stamped | by apply stamped_same].
Qed.

Lemma handleBotConfig_stamped id operation resp m : in_order m →
  stamped m (handleBotConfig id operation resp m).1 (handleBotConfig id operation resp m).2.
Proof.
  intros Ho. unfold handleBotConfig. destruct (_ || _); [stamp|]. cbv zeta. destruct resp as [config|e].
  - unfold bot_answered, close_bot_editor. cbv zeta. stamp_branches.
  - by apply (stamped_from (m <| ui_botOperation := botOperationIdle |>)); [|apply bot_failed_stamped].
Qed.

(** What a command asks for is what its answer carries. *)
Lemma answer_issued cmd msg m before after id resp : answers cmd msg → msg = ConfigRulesMsg id resp → issued m (before ++ cmd :: after) →
  id ≤ ui_configRequestID m.
Proof.
  intros Ha E. subst msg. inversion Ha; subst. unfold issued. rewrite fetches_app, Forall_app. intros [_ Hall]. simpl in Hall.
  by apply Forall_cons in Hall as [? _].
Qed.

Lemma update_stamped msg m : in_order m → (∀ id resp, msg = ConfigRulesMsg id resp → id ≤ ui_configRequestID m) →
  stamped m (update msg m).1 (update msg m).2.
Proof.
  intros Ho Hid. destruct msg; simpl update.
  - unfold handleTick. stamp_ifs.
  - unfold handleStats, resetServiceRecovery, beginServiceInspection. cbv zeta. stamp_branches.
  - stamp_branches.
  - stamp_branches.
  - by eapply handleConfigRules_stamped, Hid.
  - by apply handleBotConfig_stamped.
  - unfold handleBotAction. cbv zeta. stamp_branches.
  - unfold handlePrecheckResult. cbv zeta. stamp_branches.
  - by apply handleApplyResult_stamped.
  - unfold handleReload. cbv zeta. stamp_branches.
  - unfold handleServiceInspect. stamp_branches.
  - unfold handleServiceStart, service_start_failed. cbv zeta. stamp_branches.
  - unfold handleServiceReconnect. stamp_branches.
  - by apply handleKey_stamped.
  - unfold handleWheel, moveSelection. cbv zeta. stamp_branches.
  - stamp.
Qed.

(** ** The system *)

Record ordered (s : Sys) : Prop := { ordered_model : in_order (sys_model s); ordered_pending : issued (sys_model s) (sys_pending s) }.

Lemma issued_later m m' cmds : ui_configRequestID m ≤ ui_configRequestID m' → issued m cmds → issued m' cmds.
Proof. intros Hle Hi. eapply Forall_impl; [exact Hi|]. simpl. lia. Qed.

(** A step keeps the order, and the newest answer does not become older. *)
Lemma step_ordered s s' : step allowed s s' → ordered s →
  ordered s' ∧ ui_lastConfigResponseID (sys_model s) ≤ ui_lastConfigResponseID (sys_model s').
Proof.
  intros [msg m pending checked Hu|cmd msg m before after checked Ha _] [Ho Hi]; simpl in *.
  - destruct (update_stamped msg m Ho) as [Hr Hl Ho' Hi']; [intros id resp ->; done|]. split; [|done]. split; simpl; [done|].
    unfold issued. rewrite fetches_app. apply Forall_app. split; [by eapply issued_later|done].
  - destruct (update_stamped msg m Ho) as [Hr Hl Ho' Hi']; [intros id resp E; by eapply answer_issued|]. split; [|done]. split; simpl; [done|].
    unfold issued. rewrite fetches_app. apply Forall_app. split; [|done]. apply (issued_later m); [done|].
    unfold issued in *. rewrite !fetches_app, !Forall_app in *. destruct Hi as [Hb Hc]. split; [done|].
    revert Hc. simpl. by case_match; [apply Forall_cons_1|].
Qed.

Lemma run_ordered s s' : rtc (step allowed) s s' → ordered s →
  ordered s' ∧ ui_lastConfigResponseID (sys_model s) ≤ ui_lastConfigResponseID (sys_model s').
Proof.
  induction 1 as [s|s s1 s' Hstep _ IH]; intros Ho; [done|].
  destruct (step_ordered _ _ Hstep Ho) as [Ho1 Hle]. destruct (IH Ho1) as [Ho' Hle']. split; [done|lia].
Qed.
Lemma reachable_ordered s : reachable allowed s → ordered s.
Proof.
  intros (locale & controller & Hrun). apply run_ordered in Hrun as [Ho _]; [done|].
  split; [by unfold in_order; simpl|]. repeat constructor; by simpl.
Qed.

Lemma fetch_issued id m cmds : FetchConfigRulesCmd id ∈ cmds → issued m cmds → id ≤ ui_configRequestID m.
Proof.
  intros Hin Hi. unfold issued in Hi. rewrite Forall_forall in Hi. apply Hi. apply list_elem_of_omap.
  by exists (FetchConfigRulesCmd id).
Qed.

(** C11: once an apply has succeeded, no answer to a fetch of the configuration that was
    sent before can bring the old configuration back, whatever happens in between and
    however late it arrives. *)
Theorem late_answers_ignored (m : Model) (before after : list Cmd) (checked : list (string * ConfigRulesRequest)) (cmd : Cmd)
    (r : ApplyResponse) (s : Sys) (id : Z) (resp : result ClientError ConfigRulesResponse)
    (Hs : reachable allowed {| sys_model := m; sys_pending := before ++ cmd :: after; sys_checked := checked |})
    (Hanswer : answers cmd (ApplyMsg (Ok r))) (Hallowed : allowed (ApplyMsg (Ok r)))
    (Hfetch : FetchConfigRulesCmd id ∈ before ++ after)
    (Hrun : rtc (step allowed) {| sys_model := (update (ApplyMsg (Ok r)) m).1;
        sys_pending := (before ++ after) ++ (update (ApplyMsg (Ok r)) m).2; sys_checked := checked ++ checked_by cmd (ApplyMsg (Ok r)) |} s) :
  update (ConfigRulesMsg id resp) (sys_model s) = (sys_model s, []).
Proof.
  apply reachable_ordered in Hs as Ho. pose proof Ho as [_ Hi]. simpl in Hi.
  destruct (step_ordered _ _ (answer_step allowed cmd _ m before after checked Hanswer Hallowed) Ho) as [Ho' _].
  destruct (run_ordered _ _ Hrun Ho') as [_ Hle].
  assert (id ≤ ui_configRequestID m) as Hid.
  { apply (fetch_issued id m (before ++ cmd :: after)); [|done].
    rewrite elem_of_app, elem_of_cons. apply elem_of_app in Hfetch as [?|?]; auto. }
  assert (ui_lastConfigResponseID (update (ApplyMsg (Ok r)) m).1 = ui_configRequestID m + 1) as Hlast.
  { simpl update. unfold handleApplyResult, applied. cbv zeta. open_requests. frame. done. }
  cbn [sys_model] in Hle. rewrite Hlast in Hle. simpl update. unfold handleConfigRules.
  by rewrite (proj2 (Z.ltb_lt id _)) by lia.
Qed.
End stamps.
