(* ===== verification/TuiRuns.v ===== *)
(** * The terminal interface: runs

    Runs of the system as lists of moves, for the theorems of TuiDraftSpec and
    TuiStampSpec at concrete inputs and for what the interface does in some corners. *)

From S2P Require Import Prelude GoStrings Calendar NetIP Limits Rule Config GoText Stats Quota Manager Precheck Management FileIO ControlClient.
From S2P Require Import TuiEditor TuiEditorSpec Tui TuiSpec TuiDraftSpec TuiStampSpec.

Section runs.
Context {inputs : TextInput} {ansi : Ansi} {tz : TzDatabase}.

(** ** Moves *)

(** The user does something, or the i-th command that runs is answered. *)
Inductive Move := Press (key : string) | Reply (i : nat) (msg : Msg).

Definition answersb (cmd : Cmd) (msg : Msg) : bool :=
  match cmd, msg with
  | TickCmd _, TickMsg | PrecheckCmd _ _, PrecheckMsg _ | ApplyCmd _ _, ApplyMsg _ | ReloadCmd, ReloadMsg _ => true
  | FetchStatsCmd id, StatsMsg id' _ | FetchRulesCmd id, RulesMsg id' _ | FetchSessionCmd id, SessionMsg id' _
  | FetchConfigRulesCmd id, ConfigRulesMsg id' _ => id =? id'
  | _, _ => false
  end.
Lemma answersb_answers cmd msg : answersb cmd msg = true → answers cmd msg.
Proof. destruct cmd, msg; simpl; try done; try constructor; intros ->%Z.eqb_eq; constructor. Qed.

Definition demo_env : KeyEnv := {| ke_page := 10; ke_elevated := Err ErrServicePrivilegesRequired |}.
Definition move (s : Sys) (a : Move) : option Sys :=
  match a with
  | Press key =>
      let r := update (KeyMsg key demo_env) (sys_model s) in
      Some {| sys_model := r.1; sys_pending := sys_pending s ++ r.2; sys_checked := sys_checked s |}
  | Reply i msg =>
      cmd ← sys_pending s !! i;
      if answersb cmd msg then
        let r := update msg (sys_model s) in
        Some {| sys_model := r.1; sys_pending := (take i (sys_pending s) ++ drop (S i) (sys_pending s)) ++ r.2;
                sys_checked := sys_checked s ++ checked_by cmd msg |}
      else None
  end.
Fixpoint play (s : Sys) (moves : list Move) : option Sys :=
  match moves with [] => Some s | a :: moves => s' ← move s a; play s' moves end.

Definition replies (moves : list Move) : list Msg := omap (λ a, match a with Press _ => None | Reply _ msg => Some msg end) moves.

Lemma move_step allowed s a s' : move s a = Some s' → Forall allowed (replies [a]) → step allowed s s'.
Proof.
  destruct s as [m pending checked], a as [key|i msg]; simpl.
  - intros [= <-] _. by apply (input_step allowed (KeyMsg key demo_env)).
  - intros Hm Hall. apply Forall_cons in Hall as [Hall _]. destruct (pending !! i) as [cmd|] eqn:Hi; simpl in Hm; [|done].
    destruct (answersb cmd msg) eqn:Ha; [|done]. injection Hm as <-. apply answersb_answers in Ha.
    rewrite <-(take_drop_middle pending i cmd Hi) at 1. by apply answer_step.
Qed.
Lemma play_reachable allowed locale controller moves s :
  play (start locale controller) moves = Some s → Forall allowed (replies moves) → reachable allowed s.
Proof.
  intros Hp Hall. exists locale, controller. revert Hp Hall. generalize (start locale controller). induction moves as [|a moves IH]; simpl.
  { intros s0 [= ->] _. apply rtc_refl. }
  intros s0 Hp Hall. destruct (move s0 a) as [s1|] eqn:Hm; simpl in Hp; [|done].
  assert (Forall allowed (replies [a]) ∧ Forall allowed (replies moves)) as [Ha Hmoves].
  { destruct a; simpl in *; [done|]. apply Forall_cons in Hall as [? ?]. split; [by constructor|done]. }
  eapply rtc_l; [by eapply move_step|by apply IH].
Qed.
End runs.

(** ** A world *)

#[local] Existing Instance simple_inputs.
#[local] Existing Instance utc_database.
Definition plain_ansi : Ansi := {| Strip s := s |}.
#[local] Existing Instance plain_ansi.

Definition demo_session : SessionResponse := {|
  sn_Actor := "admin"; sn_Role := "admin"; sn_RulesWrite := true; sn_APIVersion := ManagementAPIVersion; sn_ServerVersion := "1.0.0"; sn_Commit := "";
  sn_StartedTime := 0; sn_Degraded := false; sn_DegradedCause := "" |}.
Definition demo_config (revision : string) (rules : list Rule) : ConfigRulesResponse :=
  {| cr_Revision := revision; cr_Writable := true; cr_UDPMaxSessions := 100; cr_Rules := rules; cr_ETag := configETag revision |}.
Definition clean_precheck (revision : string) : PrecheckResponse := {|
  pc_Revision := revision; pc_UDPMaxSessionsChanged := false; pc_Diff := [];
  pc_Precheck := {| OK := true; ErrorCount := 0; WarningCount := 0; CheckedRules := 1; ResultItems := [] |} |}.
(** The session and the configuration arrive; the user goes to the rules. *)
Definition opening (rules : list Rule) : list Move :=
  [Reply 2 (SessionMsg 1 (Ok demo_session)); Reply 2 (ConfigRulesMsg 1 (Ok (demo_config "r1" rules))); Press "2"].
Definition began : Sys := start English None.

(** Toggle the rule, check the draft, ask to apply it and confirm. *)
Definition applying : list Move :=
  opening [demo_rule] ++ [Press " "; Press "P"; Reply 3 (PrecheckMsg (Ok (clean_precheck "r1"))); Press "A"; Press "enter"].
Definition applying_system : Sys := default began (play began applying).
Definition toggled_request : ConfigRulesRequest := {| cq_UDPMaxSessions := 100; cq_Rules := [with_enabled false demo_rule] |}.

Lemma applying_played : play began applying = Some applying_system.
Proof. by vm_compute. Qed.
Lemma applying_sent : ApplyCmd (configETag "r1") toggled_request ∈ sys_pending applying_system.
Proof.
  assert (∃ pending, sys_pending applying_system = pending ++ [ApplyCmd (configETag "r1") toggled_request]) as [pending ->].
  { exists (take 3 (sys_pending applying_system)). by vm_compute. }
  apply elem_of_app. right. by apply list_elem_of_singleton.
Qed.

Lemma applied_was_checked_witness :
  ApplyCmd (configETag "r1") toggled_request ∈ sys_pending applying_system ∧
  (configETag "r1", toggled_request) ∈ sys_checked applying_system.
Proof.
  split; [apply applying_sent|]. apply (applied_was_checked (λ _, True)); [|apply applying_sent].
  apply (play_reachable _ English None applying); [apply applying_played|]. repeat constructor.
Defined.

Lemma demo_sane : sane_config (demo_config "r1" [demo_rule]).
Proof.
  split; [|done]. split; [|split; by vm_compute]. constructor; [|constructor]. split; [apply (fr_standard _ demo_form)|apply (fr_valid _ demo_form)].
Qed.

Lemma requests_match_screen_witness :
  ApplyCmd (configETag "r1") toggled_request ∈ sys_pending applying_system ∧ good_request toggled_request ∧
  ∃ d c, ui_draft (sys_model applying_system) = Some d ∧ ui_config (sys_model applying_system) = Some c ∧
    toggled_request = draft_request d ∧ d_BaseRevision d = cr_Revision c ∧ configETag "r1" = cr_ETag c.
Proof.
  split; [apply applying_sent|]. apply (requests_match_screen sane applying_system (configETag "r1") toggled_request); [done| |right; apply applying_sent].
  apply (play_reachable _ English None applying); [apply applying_played|]. constructor; [done|]. constructor; [apply demo_sane|]. constructor; done.
Defined.

(** The answer to the apply is lost: the draft stays. *)
Lemma answers_keep_draft_witness :
  let lost := ApplyMsg (Err (TransportError "connection reset")) in
  ui_draft (update lost (sys_model applying_system)).1 = ui_draft (sys_model applying_system).
Proof.
  cbv zeta. destruct (answers_keep_draft (ApplyMsg (Err (TransportError "connection reset"))) (sys_model applying_system))
    as [H|(_ & [[r H]|(status & revision & H)])]; [discriminate|exact H|discriminate..].
Defined.

(** The same with a refresh under way: the apply succeeds before the configuration that
    was asked for earlier arrives. *)
Definition applying_late : list Move :=
  opening [demo_rule] ++ [Press "r"; Press " "; Press "P"; Reply 7 (PrecheckMsg (Ok (clean_precheck "r1"))); Press "A"; Press "enter"].
Definition late_system : Sys := default began (play began applying_late).
Definition applied_answer : ApplyResponse := {|
  ap_Rules := demo_config "r2" [with_enabled false demo_rule];
  ap_Result := {| AppliedRules := 0; StoppedRules := 1; FailedRules := 0; TotalRules := 1; Items := [] |} |}.

Lemma late_answers_ignored_witness :
  let pending := take 7 (sys_pending late_system) in
  let m := (update (ApplyMsg (Ok applied_answer)) (sys_model late_system)).1 in
  FetchConfigRulesCmd 2 ∈ pending ++ [] ∧
  update (ConfigRulesMsg 2 (Ok (demo_config "r1" [demo_rule]))) m = (m, []).
Proof.
  cbv zeta. assert (FetchConfigRulesCmd 2 ∈ take 7 (sys_pending late_system) ++ []) as Hin.
  { assert (∃ l, take 7 (sys_pending late_system) ++ [] = l ++ [FetchConfigRulesCmd 2]) as [l ->].
    { exists (take 6 (sys_pending late_system)). by vm_compute. }
    apply elem_of_app. right. by apply list_elem_of_singleton. }
  split; [exact Hin|].
  refine (late_answers_ignored (λ _, True) (sys_model late_system) (take 7 (sys_pending late_system)) [] (sys_checked late_system)
    (ApplyCmd (configETag "r1") toggled_request) applied_answer _ 2 _ _ (apply_answers _ _ _) I Hin (rtc_refl _ _)).
  replace {| sys_model := _; sys_pending := _; sys_checked := _ |} with late_system by by vm_compute.
  apply (play_reachable _ English None applying_late); [by vm_compute|]. repeat constructor.
Defined.

(** ** Corners *)

Definition other_rule (id name target : string) (port : Z) : Rule := {|
  RuleID := id; Name := name; Proto := "tcp"; ListenAddr := "0.0.0.0"; ListenPort := port; TargetAddr := target; TargetPort := 80;
  Enabled := true; SpeedLimit := 0; Bandwidth := None; Quota := None; MaxConn := 0; IdleTimeout := 0; SourceIPMode := ""; SourceIPs := [];
  Domains := []; Remark := ""; Revision := 1; CreatedTime := 100; UpdatedTime := 100 |}.
Definition after (moves : list Move) : Model := sys_model (default began (play began moves)).

(** A deletion stays on the books when a new rule takes the id: delete "web-copy", copy
    "web", save.  The rule is in the draft and would be applied, but it is marked as
    deleted and the keys that edit refuse it. *)
Definition deleted_and_copied : list Move :=
  opening [demo_rule; other_rule "web-copy" "Web old" "10.0.0.3" 8081]
  ++ [Press "down"; Press "d"; Press "enter"; Press "up"; Press "c"; Press "ctrl+s"].
Example readded_rule_shows_deleted :
  let m := after deleted_and_copied in
  play began deleted_and_copied ≠ None ∧
  (RuleID <$> default [] (d_Rules <$> ui_draft m)) = ["web"; "web-copy"] ∧ ruleChange "web-copy" m = "tui.change.delete" ∧
  isDeleted "web-copy" m = true.
Proof. by vm_compute. Qed.

(** The question "delete?" is asked for one rule and answered for another: while it is
    open, the configuration arrives without the rule, and the selection moves on. *)
Definition deleted_under_question : list Move :=
  opening [other_rule "a" "A" "10.0.0.2" 8080; other_rule "b" "B" "10.0.0.3" 8081]
  ++ [Press "down"; Press "r"; Press "d"; Reply 6 (ConfigRulesMsg 2 (Ok (demo_config "r2" [other_rule "a" "A" "10.0.0.2" 8080]))); Press "enter"].
Example delete_hits_another_rule :
  (RuleID <$> selectedRule (after (take 6 deleted_under_question))) = Some "b" ∧
  ui_overlay (after (take 6 deleted_under_question)) = overlayDelete ∧
  play began deleted_under_question ≠ None ∧
  (d_Rules <$> ui_draft (after deleted_under_question)) = Some [] ∧ isDeleted "a" (after deleted_under_question) = true.
Proof. by vm_compute. Qed.

(** A finding about a rule that the filter hides opens another rule. *)
Definition finding (id : string) : Item :=
  {| i_Severity := SeverityError; i_RuleID := id; i_Check := "listen_bind"; i_Detail := DuplicateIdDetail |}.
Definition failed_precheck (id : string) : PrecheckResponse := {|
  pc_Revision := "r1"; pc_UDPMaxSessionsChanged := false; pc_Diff := [];
  pc_Precheck := {| OK := false; ErrorCount := 1; WarningCount := 0; CheckedRules := 2; ResultItems := [finding id] |} |}.
Definition opened_finding : list Move :=
  opening [other_rule "a" "A" "10.0.0.2" 8080; other_rule "b" "B" "10.0.0.3" 8081]
  ++ [Press " "; Press "/"; Press "a"; Press "enter"; Press "P"; Reply 3 (PrecheckMsg (Ok (failed_precheck "b"))); Press "e"].
Example finding_opens_another_rule :
  play began opened_finding ≠ None ∧ ui_view (after opened_finding) = viewEditor ∧
  (re_originalID <$> ui_editor (after opened_finding)) = Some "a".
Proof. by vm_compute. Qed.

(** A commit that lost a race: the daemon answers 412 and that the runtime is rolled
    back; the interface shows a failed apply, and the draft is not marked as stale. *)
Example lost_race_is_rolled_back :
  let e := APIError 412 (ConfigPayload (CommitFailedBody None true)) in
  let m := (update (ApplyMsg (Err e)) (sys_model applying_system)).1 in
  ui_statusText m = "tui.status.apply_rolled_back" ∧ ui_sync m = syncDirty ∧ ui_remoteRevision m = "".
Proof. by vm_compute. Qed.
